(* ===== verification/_CoqProject ===== *)
-Q . S2P
Prelude.v
GoSort.v
GoProgram.v
GoStrings.v
Float64.v
GoTime.v
GoAny.v
Account.v
AccountProtocol.v
ModelMapping.v
AccountQuota.v
AccountScheduling.v
IdempotencyStore.v
Idempotency.v
IdempotencyRun.v
IdempotencyConcurrency.v
PaymentHelpers.v
Redeem.v
PaymentOrder.v
PaymentFulfillment.v
PaymentFulfillmentSafety.v
PaymentFulfillmentRun.v
Subscription.v
SubscriptionStore.v
SubscriptionRace.v
Refund.v
RefundSafety.v
Concurrency.v
ConcurrencyCache.v
ConcurrencySafety.v
ConcurrencyRefinement.v
Float64Exact.v
Billing.v
PricingCatalog.v
ChannelPricing.v
PricingResolver.v
BillingProperties.v
ChannelPricingProperties.v
PricingResolverProperties.v
BillingSafety.v
ModelAvailability.v
GroupRouting.v
GroupRoutingProperties.v
GatewayCalls.v
AccountOrder.v
AccountOrderProperties.v
SelectionGates.v
AccountSelection.v
AccountSelectionProperties.v
SelectionSafety.v
SelectionTheorems.v
OpenAIQuota.v
OpenAIQuotaProperties.v
OpenAIAutoReset.v
OpenAIAutoResetProperties.v
OpenAIAutoResetTheorems.v
OpenAIResetQueue.v
OpenAIRanking.v
OpenAIRankingProperties.v
OpenAICapabilities.v
OpenAICalls.v
OpenAIEligibility.v
OpenAIScheduler.v
OpenAISelect.v
OpenAISchedulerProperties.v
OpenAISelectProperties.v
OpenAISelectTheorems.v
OpenAILegacy.v
OpenAILegacyProperties.v
OpenAIEntry.v
OpenAIEntryTheorems.v
OpenAIModelTransient.v
OpenAIModelTransientProperties.v
OpenAICircuits.v
OpenAICircuitTheorems.v
