(* ===== verification/Prelude.v ===== *)
(** * Sub2API: a verification library for the core of the gateway

    Sub2API (src/backend, Go) resells access to AI providers: users pay, get a
    balance or a subscription, and send requests that the gateway forwards to
    one of many upstream accounts, within limits of concurrency and quota, and
    charges for.  This library models the parts that decide about money,
    limits and accounts, as executable definitions that follow the code, and
    proves what they promise.

    ** Parts, files and sources

    Foundations: Prelude (64-bit integers, byte strings, notation, tactics and
    the hint database [go]), GoStrings (package strings), Float64 and
    Float64Exact (float64 bit by bit, strconv.ParseFloat, math.Round), GoTime
    (instants, zones, civil dates), GoAny (the dynamic values of JSON maps),
    GoSort (package sort), GoProgram (programs over calls that the environment
    answers, their runs, weakest preconditions and what a stronger environment
    keeps).

    - Accounts (internal/service/account.go): Account (record, credentials,
      temporary-unschedulable rules), AccountProtocol (protocols, endpoints),
      ModelMapping (which upstream model serves a request, with
      pkg/xai/models.go and domain/constants.go), AccountQuota (quota periods
      and their resets), AccountScheduling (may the account serve now).
    - Selection (internal/service/gateway_scheduling.go, group.go,
      model_rate_limit.go, *_profit_control.go): ModelAvailability (which
      models an account serves now), GroupRouting (routing rules, peak
      windows, the profit gate) with GroupRoutingProperties, GatewayCalls
      (programs over calls, their runs and weakest preconditions),
      AccountOrder (filters, sorts, shuffles) with AccountOrderProperties,
      SelectionGates (the checks of an account, the group and the platform of
      a request), AccountSelection (the layers and the selections without
      load) with AccountSelectionProperties, SelectionSafety and
      SelectionTheorems.
    - OpenAI quotas (openai_gateway_scheduling.go, openai_gateway_usage.go,
      openai_quota_*.go): OpenAIQuota (the 5-hour and 7-day windows kept in
      Extra, the automatic pause, the settings of the automatic reset) with
      OpenAIQuotaProperties; OpenAIAutoReset (when a reset card is consumed,
      which one, what is recorded) with OpenAIAutoResetProperties and
      OpenAIAutoResetTheorems; OpenAIResetQueue (the queue of accounts and its
      workers).
    - OpenAI scheduling (openai_account_scheduler.go,
      openai_gateway_scheduling.go, openai_profit_control.go,
      openai_guardian_affinity.go): OpenAIRanking (statistics, scores, the
      heap, the weighted order) with OpenAIRankingProperties;
      OpenAICapabilities, OpenAICalls, OpenAIEligibility (what an account can
      do, the calls, the vetoes); OpenAIScheduler and OpenAISelect (the layers
      of Select) with OpenAISchedulerProperties, OpenAISelectProperties and
      OpenAISelectTheorems; OpenAILegacy with OpenAILegacyProperties (the older
      selection); OpenAIEntry with OpenAIEntryTheorems
      (selectAccountWithScheduler, which chooses between the two and retries).
    - OpenAI circuits (openai_proxy_stream_circuit.go,
      openai_account_model_transient.go,
      openai_account_runtime_block_fastpath.go, grok_credential_failure.go,
      grok_model_quota_block.go, grok_team_rate_limit.go):
      OpenAIModelTransient with OpenAIModelTransientProperties, OpenAICircuits
      (Modules ProxyCircuit, RuntimeBlock, GrokBlocks) with
      OpenAICircuitTheorems.
    - Idempotency (internal/service/idempotency.go, repository/
      idempotency_repo.go): IdempotencyStore (interface with laws, and the
      table), Idempotency (the coordinator as a machine), IdempotencyRun (one
      call), IdempotencyConcurrency (many).
    - Payments (internal/service/payment_*.go, redeem_*.go): PaymentHelpers,
      Redeem (codes), PaymentOrder (guards, conditional updates),
      PaymentFulfillment (every call as a machine) with its Safety
      (interleavings) and Run (a call alone), Refund and RefundSafety.
    - Subscriptions (internal/service/subscription_service.go,
      user_subscription.go, repository/user_subscription_repo.go):
      Subscription (windows and terms), SubscriptionStore (statements and
      service operations), SubscriptionRace (charges beside window resets).
    - Concurrency (internal/repository/concurrency_cache.go,
      internal/service/concurrency_service.go): Concurrency (the Redis server
      and the Lua scripts), ConcurrencyCache (methods as round trips),
      ConcurrencySafety (the limit under any interleaving),
      ConcurrencyRefinement (methods only issue those commands).
    - Billing (internal/service/billing_service.go, pricing_service.go,
      model_pricing_resolver.go, channel.go, channel_service.go,
      custom_channel_time_pricing.go): Billing (price cards and costs),
      PricingCatalog (lookups and fallback cards), ChannelPricing (operators'
      prices, validation, cache), PricingResolver (which price applies, the
      charge), with BillingProperties, ChannelPricingProperties,
      PricingResolverProperties and BillingSafety.

    They meet where the code does: fulfilment creates and redeems codes
    (Redeem) and assigns subscriptions; the scheduling gates read quotas and
    mappings; the resolver reads the channel cache and the catalogue; the
    price lookups use the Codex and Grok model names of the mappings; the
    selection reads the scheduling gates, the mappings and the groups, and
    takes slots of the concurrency service through calls; the automatic reset
    reads the quota windows it refreshes; the OpenAI scheduler ranks the
    accounts its vetoes leave, and asks the circuits through calls, since
    other requests change them meanwhile.

    A record or enum keeps the fields and cases the modelled code reads; a
    method is a function of the same name, a part of a long function has a name
    of its own.  A call that performs several statements on a database is a
    machine with one transition per statement, so that faults, lost replies,
    crashes and other calls can come between any two.  Account selection, whose calls
    only read or move slots and bindings, is a tree of calls that the
    environment answers: a theorem about it holds for every answer.  What lies
    outside (the clock, the zone database, replies of providers, the iteration order of a
    map, which statement fails) is an argument.  So are the code that is not in
    the repository and the decoders of large answers: hashes, uuids, logarithm
    and exponential, the declared rates, the Grok snapshots and billing, the
    model an account sends upstream.

    ** What the theorems show

    - Money: an order is credited or its subscription assigned at most once
      under any interleaving and fault, whoever redeems its code; outside
      refunds, which are steps of their own, its status follows the graph; a
      healthy run completes it; a refund takes the money once and holds its
      lock alone unless a settlement writes REFUND_FAILED late; one code is
      redeemed once.
    - Charges: with accepted prices no request is charged below zero, in any
      mode; the cache of prices answers what the configuration says; intervals
      and hours do not overlap; operators' prices are used unchanged; a model
      without a price is refused, never free; contradictory counts are cut.
    - Idempotency: the guarded operation succeeds at most once per key, stored
      successes never change, later calls replay.
    - Limits: slots never exceed the limit, but for those a starting process
      cleans up, waiting counters stay in bounds, usage is not lost by the
      resets, activations and manual resets of the daily, weekly and monthly
      windows, quota periods bracket the instant.
    - Accounts: scheduling is exactly the conjunction of its gates, mappings
      resolve by the longest pattern, cached mappings equal fresh ones.
    - Selection: whatever is answered, a selection holds at the end exactly the
      slot and session of the account it returns, which is not excluded and
      passed every gate at times the run read; the load layer runs in rounds,
      each of which asks the account chosen over all that are left; an account
      that cannot be read back keeps its slot; the fallback order is a sorted
      rearrangement; the loops end and, with the optional services the paths
      call, nothing panics; a free account passes the profit gate.
    - OpenAI quotas: an account is paused exactly when a window that is not
      over reached its threshold, from a snapshot that is not stale; written
      usage reads back, in whatever zone its time was written; settings are
      stored as submitted; a card is consumed only when fresh usage justifies
      it, is listed with an expiry, and is the same one within a cycle; an account is queued or evaluated at most once, and marked pending
      exactly meanwhile.
    - OpenAI scheduling: the heap yields the prefix of the sorted candidates;
      the load plan orders every account once; whatever is answered, Select
      and the entry above it, of a service that can read accounts, end, hold
      exactly the slot of the account they return, which passed its checks
      on what the run read, ask for at most the budget of slots, and record
      the decision.
    - OpenAI circuits: a proxy is quarantined, and a model of an account cooled
      down, only after failures that earn it, in tables of bounded size; the
      undo of a credential block spares the blocks of other requests.
    - Where the code falls short, an Example or a theorem shows the run:
      persist_breaks_lease, truncated_answer_not_replayed,
      settlement_deducts_twice, startup_breaks_limit,
      earlier_card_blocks_cycle, unread_account_keeps_slot and others.

    ** Bounds and fuel

    Integers are 64 bits wide with wrap-around written out; theorems on token
    counts ask for counts below 2^53, where float64 is exact.  A machine's run
    takes as fuel its rank, a measure that every transition decreases, so it
    always ends.  The selection takes more fuel than the accounts offered, as
    each round excludes one more, and than the groups of a fallback chain,
    which visits a group once; the OpenAI selection more than the accounts
    of the pool, for the same reason.  Text loops (ReplaceAll, Fields, the collapse of dashes) take
    the length of the text, which each round shortens; the eviction of cached
    loads takes the size of the cache.  Floating-point operations round once
    each, as the Go specification allows and amd64 does; a fused multiply-add
    is not modelled.

    Texts of times are written in the zone of the time and read back in it
    (GoTime); time.Local is the class LocalZone, an argument of what writes
    such texts.

    ** Not modelled

    Of payments: the unconditional FAILED that CreateOrder writes when it
    cannot finish creating the provider's payment.  HTTP handlers and forwarding, request rewriting over third-party JSON
    libraries, the providers' SDKs, generated database code (ent), settings,
    monitoring and metrics, moderation, backups, plugins, batch images and the
    frontend.  Amounts computed with the decimal library (payment_amounts.go)
    are arguments.  Of account.go: the Bedrock key test, Grok base URLs.  Of the
    catalogue: its download and parsing.  Of channels: their CRUD and model
    mappings.  Of the OpenAI gateway: the terminal checks of its handlers, the
    keys of older sticky bindings (openai_sticky_compat.go), what a 429 says
    (its class is an argument), handleOpenAIAccountUpstreamError, the leader
    lock of the reset scan.  The verdicts of ratelimit_service.go read
    third-party JSON values.  Logging, metrics and single-flight guards are left
    out everywhere. *)

From Stdlib Require Export ZArith Lia Bool.
From Stdlib Require Strings.Ascii Strings.String.
From stdpp Require Export base tactics option list sorting gmap strings pretty.

Export (notations) Strings.Ascii.
Abbreviation ascii := Strings.Ascii.ascii.

(** ** Notation and tactics *)

Declare Scope go_scope.
Delimit Scope go_scope with go.

(** Go's [==] on comparable values, as a boolean. *)
Notation "x ==? y" := (bool_decide (x = y)) (at level 70, no associativity) : go_scope.
Notation "x !=? y" := (negb (bool_decide (x = y))) (at level 70, no associativity) : go_scope.
#[global] Open Scope go_scope.

(** Split every boolean test and every match the goal or a hypothesis is
    stuck on, then clean the equations up. *)
Ltac split_tests :=
  repeat (case_match || case_bool_decide); simplify_eq/=.

(** Turn boolean comparisons into arithmetic facts before calling [lia]. *)
Ltac blia :=
  repeat match goal with
  | H : bool_decide _ = true |- _ => apply bool_decide_eq_true in H
  | H : bool_decide _ = false |- _ => apply bool_decide_eq_false in H
  | H : (_ <? _)%Z = true |- _ => apply Z.ltb_lt in H
  | H : (_ <? _)%Z = false |- _ => apply Z.ltb_ge in H
  | H : (_ <=? _)%Z = true |- _ => apply Z.leb_le in H
  | H : (_ <=? _)%Z = false |- _ => apply Z.leb_gt in H
  end; lia.

Create HintDb go discriminated.

(** ** Results of fallible code: a Go pair [(value, error)] *)

Inductive result (E A : Type) : Type :=
| Ok (v : A)
| Err (e : E).
Arguments Ok {E A} v.
Arguments Err {E A} e.

#[export] Instance result_eq_dec `{EqDecision E} `{EqDecision A} : EqDecision (result E A).
Proof. solve_decision. Defined.

(** The fate of a statement or transaction: it works, it fails without
    effect, or it takes effect and the reply is lost. *)
Inductive fault := Fine | LostBefore | LostAfter.

#[export] Instance fault_eq_dec : EqDecision fault.
Proof. solve_decision. Defined.

(** ** Machine integers

    Go's [int] and [int64] are 64-bit two's complement on the platforms the
    program is built for; a value is a [Z] and arithmetic that can leave the
    range wraps. *)

Definition int64_min : Z := - 2 ^ 63.
Definition int64_max : Z := 2 ^ 63 - 1.
Definition in_int64 (z : Z) : bool := (int64_min <=? z)%Z && (z <=? int64_max)%Z.
Definition wrap64 (z : Z) : Z := (z + 2 ^ 63) mod 2 ^ 64 - 2 ^ 63.
Definition add64 (x y : Z) : Z := wrap64 (x + y).

Lemma wrap64_id z : (int64_min <= z <= int64_max)%Z -> wrap64 z = z.
Proof.
  unfold wrap64, int64_min, int64_max. intros H.
  rewrite Z.mod_small; lia.
Qed.

Lemma wrap64_range z : (int64_min <= wrap64 z <= int64_max)%Z.
Proof.
  unfold wrap64, int64_min, int64_max.
  pose proof (Z.mod_pos_bound (z + 2 ^ 63) (2 ^ 64) ltac:(lia)). lia.
Qed.

Lemma add64_id x y : (int64_min <= x + y <= int64_max)%Z -> add64 x y = (x + y)%Z.
Proof. apply wrap64_id. Qed.

#[export] Hint Resolve wrap64_range : go.

(** ** Strings

    A Go string is a byte string; a [string] here is the list of its bytes
    (an [ascii] is one byte). *)

Fixpoint strip_prefix (p s : string) : option string :=
  match p, s with
  | EmptyString, _ => Some s
  | String a p', String b s' => if Strings.Ascii.eqb a b then strip_prefix p' s' else None
  | String _ _, EmptyString => None
  end.

Lemma strip_prefix_Some p s r : strip_prefix p s = Some r <-> s = p +:+ r.
Proof.
  revert s. induction p as [|a p IH]; intros s; simpl.
  - unfold String.app; simpl. split; congruence.
  - destruct s as [|b s].
    + split; [done|]. unfold String.app; simpl. congruence.
    + destruct (Strings.Ascii.eqb_spec a b) as [->|Hne].
      * rewrite IH. unfold String.app; simpl. split; congruence.
      * split; [done|]. unfold String.app; simpl. congruence.
Qed.

Definition HasPrefix (s p : string) : bool :=
  match strip_prefix p s with Some _ => true | None => false end.

Abbreviation string_of_list_ascii := Strings.String.string_of_list_ascii.
Abbreviation list_ascii_of_string := Strings.String.list_ascii_of_string.

Definition rev_string (s : string) : string :=
  string_of_list_ascii (rev (list_ascii_of_string s)).

Definition strip_suffix (p s : string) : option string :=
  rev_string <$> strip_prefix (rev_string p) (rev_string s).

Definition HasSuffix (s p : string) : bool :=
  match strip_suffix p s with Some _ => true | None => false end.

Lemma list_ascii_app s t :
  list_ascii_of_string (s +:+ t) = list_ascii_of_string s ++ list_ascii_of_string t.
Proof. unfold String.app. induction s; simpl; f_equal; done. Qed.

Lemma rev_string_app s t : rev_string (s +:+ t) = rev_string t +:+ rev_string s.
Proof.
  unfold rev_string. rewrite list_ascii_app, rev_app_distr.
  unfold String.app. induction (rev (list_ascii_of_string t)); simpl; f_equal; done.
Qed.

Lemma rev_string_involutive s : rev_string (rev_string s) = s.
Proof.
  unfold rev_string.
  rewrite Strings.String.list_ascii_of_string_of_list_ascii, rev_involutive.
  apply Strings.String.string_of_list_ascii_of_string.
Qed.

Lemma strip_suffix_Some p s r : strip_suffix p s = Some r <-> s = r +:+ p.
Proof.
  unfold strip_suffix. rewrite fmap_Some. split.
  - intros (t & Ht & ->). apply strip_prefix_Some in Ht.
    rewrite <- (rev_string_involutive s), Ht, rev_string_app.
    by rewrite rev_string_involutive.
  - intros ->. exists (rev_string r). split; [|by rewrite rev_string_involutive].
    apply strip_prefix_Some. by rewrite rev_string_app.
Qed.

Lemma HasPrefix_spec s p : HasPrefix s p = true <-> exists r, s = p +:+ r.
Proof.
  unfold HasPrefix. destruct (strip_prefix p s) as [r|] eqn:E.
  - apply strip_prefix_Some in E. naive_solver.
  - split; [done|]. intros [r Hr]. apply strip_prefix_Some in Hr. congruence.
Qed.

Lemma HasSuffix_spec s p : HasSuffix s p = true <-> exists r, s = r +:+ p.
Proof.
  unfold HasSuffix. destruct (strip_suffix p s) as [r|] eqn:E.
  - apply strip_suffix_Some in E. naive_solver.
  - split; [done|]. intros [r Hr]. apply strip_suffix_Some in Hr. congruence.
Qed.

Definition byte_of (n : nat) : ascii := Strings.Ascii.ascii_of_nat n.

Definition bytes (l : list nat) : string := string_of_list_ascii (byte_of <$> l).

(** The UTF-8 encodings of the code points [unicode.IsSpace] accepts. *)
Definition white_space : list string :=
  bytes <$>
  ([[9]; [10]; [11]; [12]; [13]; [32]; [194; 133]; [194; 160]; [225; 154; 128]]
   ++ ((fun k => [226; 128; 128 + k]%nat) <$> seq 0 11)
   ++ [[226; 128; 168]; [226; 128; 169]; [226; 128; 175]; [226; 129; 159]; [227; 128; 128]]).

Fixpoint strip_first (ps : list string) (s : string) : option string :=
  match ps with
  | [] => None
  | p :: ps' => match strip_prefix p s with
                | Some r => Some r
                | None => strip_first ps' s
                end
  end.

Fixpoint strip_all (fuel : nat) (ps : list string) (s : string) : string :=
  match fuel with
  | O => s
  | S n => match strip_first ps s with
           | Some r => strip_all n ps r
           | None => s
           end
  end.

(** [strings.TrimSpace]: UTF-8 is self-synchronising, so dropping a trailing
    white-space rune is dropping its encoding as a suffix.  Every step removes
    a byte, so the length is enough fuel. *)
Definition TrimLeftSpace (s : string) : string := strip_all (Strings.String.length s) white_space s.
Definition TrimRightSpace (s : string) : string :=
  rev_string (strip_all (Strings.String.length s) (rev_string <$> white_space) (rev_string s)).
Definition TrimSpace (s : string) : string := TrimRightSpace (TrimLeftSpace s).

(** [strings.TrimRight(s, "/")]. *)
Definition TrimRightSlash (s : string) : string :=
  rev_string (strip_all (Strings.String.length s) ["/"] (rev_string s)).

Definition byte_lower (c : ascii) : ascii :=
  let n := Strings.Ascii.nat_of_ascii c in
  if (65 <=? n)%nat && (n <=? 90)%nat then byte_of (n + 32) else c.

Definition byte_upper (c : ascii) : ascii :=
  let n := Strings.Ascii.nat_of_ascii c in
  if (97 <=? n)%nat && (n <=? 122)%nat then byte_of (n - 32) else c.

(** [strings.ToLower]/[ToUpper] on the ASCII letters and on the code points
    whose other case is an ASCII letter (U+212A, U+0130; U+017F, U+0131): the
    program compares the results with ASCII words only, and no other code
    point can become one. *)
Fixpoint ToLower (s : string) : string :=
  match s with
  | EmptyString => EmptyString
  | String "226" (String "132" (String "170" t)) => String "k" (ToLower t)
  | String "196" (String "176" t) => String "i" (ToLower t)
  | String c t => String (byte_lower c) (ToLower t)
  end.

Fixpoint ToUpper (s : string) : string :=
  match s with
  | EmptyString => EmptyString
  | String "197" (String "191" t) => String "S" (ToUpper t)
  | String "196" (String "177" t) => String "I" (ToUpper t)
  | String c t => String (byte_upper c) (ToUpper t)
  end.

Fixpoint Contains (s sub : string) : bool :=
  HasPrefix s sub ||
  match s with
  | EmptyString => false
  | String _ t => Contains t sub
  end.

(** ** Decimal text: [strconv.ParseInt(s, 10, 64)], [Atoi], [FormatInt] *)

Definition digit_val (c : ascii) : option Z :=
  let n := Strings.Ascii.nat_of_ascii c in
  if (48 <=? n)%nat && (n <=? 57)%nat then Some (Z.of_nat n - 48)%Z else None.

Fixpoint digits_val (acc : Z) (s : string) : option Z :=
  match s with
  | EmptyString => Some acc
  | String c t => match digit_val c with
                  | Some d => digits_val (acc * 10 + d) t
                  | None => None
                  end
  end.

Definition ParseInt (s : string) : option Z :=
  let '(neg, body) := match s with
                      | String "+" t => (false, t)
                      | String "-" t => (true, t)
                      | _ => (false, s)
                      end in
  match body with
  | EmptyString => None
  | _ => match digits_val 0 body with
         | Some n => let z := if neg then (- n)%Z else n in
                     if in_int64 z then Some z else None
         | None => None
         end
  end.

Definition FormatInt (z : Z) : string := pretty z.

Lemma ParseInt_range s z : ParseInt s = Some z -> (int64_min <= z <= int64_max)%Z.
Proof.
  unfold ParseInt. intros H. repeat case_match; simplify_eq;
  unfold in_int64 in *; repeat match goal with
  | H : _ && _ = true |- _ => apply andb_true_iff in H as [??] end; blia.
Qed.

Example TrimSpace_ex : TrimSpace (" a b" +:+ bytes [226; 128; 131; 9]%nat) = "a b".
Proof. reflexivity. Qed.
Example ParseInt_ex : ParseInt "-42" = Some (-42)%Z /\ ParseInt "4x" = None
  /\ ParseInt "9223372036854775808" = None /\ FormatInt (-42) = "-42".
Proof. repeat split; reflexivity. Qed.
Example ToLower_ex : ToLower "Force_ON" = "force_on" /\ ToLower (bytes [226; 132; 170]%nat) = "k".
Proof. split; reflexivity. Qed.

Lemma string_length_app s t :
  Strings.String.length (s +:+ t) = (Strings.String.length s + Strings.String.length t)%nat.
Proof. unfold String.app. induction s; simpl; congruence. Qed.

Lemma string_app_inj_length p q r s :
  Strings.String.length p = Strings.String.length q -> p +:+ r = q +:+ s -> p = q.
Proof.
  unfold String.app. revert q. induction p as [|a p IH]; intros [|b q] Hl H; simplify_eq/=.
  - done.
  - f_equal. eauto.
Qed.

Lemma existsb_map_to_list `{Countable K} {A} (f : K * A -> bool) (m : gmap K A) :
  existsb f (map_to_list m) = true <-> exists k v, m !! k = Some v /\ f (k, v) = true.
Proof.
  rewrite existsb_exists. split.
  - intros ([k v] & Hin & Hf). exists k, v. split; [|done].
    by apply elem_of_map_to_list, list_elem_of_In.
  - intros (k & v & Hk & Hf). exists (k, v). split; [|done].
    by apply list_elem_of_In, elem_of_map_to_list.
Qed.

(** [strconv.Itoa] and [Atoi] are inverse on 64-bit integers. *)
Lemma digit_val_char d : (d < 10)%N -> digit_val (pretty_N_char d) = Some (Z.of_N d).
Proof.
  intros H. destruct d as [|p]; [done|].
  do 4 (destruct p as [p|p|]; try done; try lia).
Qed.

Lemma digits_val_pretty n s : digits_val 0 (pretty_N_go n s) = digits_val (Z.of_N n) s.
Proof.
  revert s. induction (N.lt_wf_0 n) as [n _ IH]. intros s.
  destruct (decide (n = 0)%N) as [->|Hn]; [by rewrite pretty_N_go_0|].
  rewrite pretty_N_go_step, IH by (try apply N.div_lt; lia).
  simpl. rewrite digit_val_char by (by apply N.mod_lt). f_equal.
  rewrite N2Z.inj_div, N2Z.inj_mod. rewrite (Z.mul_comm _ 10).
  symmetry. by apply Z.div_mod.
Qed.

(** The text of a positive number begins with a digit. *)
Lemma pretty_N_go_head n s :
  (0 < n)%N -> exists c t, pretty_N_go n s = String c t /\ is_Some (digit_val c).
Proof.
  revert s. induction (N.lt_wf_0 n) as [n _ IH]. intros s Hn.
  rewrite pretty_N_go_step by done.
  destruct (decide (n / 10 = 0)%N) as [E|E].
  - rewrite E, pretty_N_go_0. eexists _, _. split; [done|].
    rewrite digit_val_char by (by apply N.mod_lt). eauto.
  - apply IH; [apply N.div_lt; lia|by apply N.neq_0_lt_0].
Qed.

Lemma ParseInt_pos n :
  (0 < n)%N -> (Z.of_N n <= int64_max)%Z ->
  ParseInt (pretty_N_go n "") = Some (Z.of_N n) /\
  ParseInt (String "-" (pretty_N_go n "")) = Some (- Z.of_N n)%Z.
Proof.
  intros Hn Hm. pose proof (digits_val_pretty n "") as Hd. simpl in Hd.
  destruct (pretty_N_go_head n "" Hn) as (c & t & E & Hc). rewrite E in *.
  assert (in_int64 (Z.of_N n) = true /\ in_int64 (- Z.of_N n) = true) as [H1 H2]
    by (unfold in_int64, int64_min, int64_max in *; rewrite !andb_true_iff, !Z.leb_le; lia).
  split.
  - unfold ParseInt. assert (c <> "+"%char /\ c <> "-"%char) as [Hp Hm']
      by (split; intros ->; by destruct Hc).
    destruct c as [[] [] [] [] [] [] [] []]; try done; cbn [digits_val] in *;
      by rewrite Hd, H1.
  - unfold ParseInt. by rewrite Hd, H2.
Qed.

Lemma ParseInt_FormatInt z : (int64_min < z <= int64_max)%Z -> ParseInt (FormatInt z) = Some z.
Proof.
  intros Hz. unfold FormatInt. destruct z as [|p|p]; [done| |].
  - apply (ParseInt_pos (N.pos p)); [done|]. unfold int64_max in *. lia.
  - apply (ParseInt_pos (N.pos p)); [done|]. unfold int64_min, int64_max in *. lia.
Qed.

(** Decimal text has no white space to trim. *)
Lemma strip_all_None fuel ps s : strip_first ps s = None -> strip_all fuel ps s = s.
Proof. intros H. destruct fuel; simpl; [done|]. by rewrite H. Qed.

Lemma digit_not_space c t :
  is_Some (digit_val c) ->
  strip_first white_space (String c t) = None /\
  strip_first (rev_string <$> white_space) (String c t) = None.
Proof. intros H. destruct c as [[] [] [] [] [] [] [] []]; by destruct H. Qed.

Lemma pretty_N_go_app n s : pretty_N_go n s = pretty_N_go n "" +:+ s.
Proof.
  unfold String.app. revert s. induction (N.lt_wf_0 n) as [n _ IH]. intros s.
  destruct (decide (n = 0)%N) as [->|Hn]; [by rewrite !pretty_N_go_0|].
  assert (n / 10 < n)%N as Hlt by (apply N.div_lt; lia).
  rewrite pretty_N_go_step, IH by (done || lia).
  rewrite (pretty_N_go_step n ""), (IH _ Hlt (String _ "")) by lia.
  induction (pretty_N_go (n / 10) ""); simpl; congruence.
Qed.

Lemma rev_string_snoc s c : rev_string (s +:+ String c "") = String c (rev_string s).
Proof. rewrite rev_string_app. reflexivity. Qed.

Lemma TrimSpace_id s :
  strip_first white_space s = None ->
  strip_first (rev_string <$> white_space) (rev_string s) = None -> TrimSpace s = s.
Proof.
  intros H1 H2. unfold TrimSpace, TrimLeftSpace, TrimRightSpace.
  rewrite (strip_all_None _ white_space) by exact H1.
  rewrite strip_all_None by exact H2. apply rev_string_involutive.
Qed.

Lemma TrimSpace_FormatInt z : (0 < z)%Z -> TrimSpace (FormatInt z) = FormatInt z.
Proof.
  intros Hz. destruct z as [|p|p]; try lia. change (FormatInt (Z.pos p)) with (pretty_N_go (N.pos p) "").
  destruct (pretty_N_go_head (N.pos p) "") as (c & t & E & Hc); [done|].
  apply TrimSpace_id.
  - rewrite E. exact (proj1 (digit_not_space _ _ Hc)).
  - rewrite pretty_N_go_step, pretty_N_go_app, rev_string_snoc by done.
    refine (proj2 (digit_not_space _ _ _)). rewrite digit_val_char by (by apply N.mod_lt). eauto.
Qed.

(** Texts of visible ASCII characters. *)
Definition visible (c : ascii) : bool :=
  let n := Strings.Ascii.nat_of_ascii c in (33 <=? n)%nat && (n <=? 126)%nat.

Lemma visible_not_space c t :
  visible c = true ->
  strip_first white_space (String c t) = None /\
  strip_first (rev_string <$> white_space) (String c t) = None.
Proof. intros H. destruct c as [[] [] [] [] [] [] [] []]; by vm_compute in H. Qed.

Lemma string_snoc (s : string) : s = "" \/ exists s' c, s = s' +:+ String c "".
Proof.
  unfold String.app. induction s as [|c s [->|(s' & c' & ->)]]; [by left|right..].
  - by exists "", c.
  - by exists (String c s'), c'.
Qed.

Lemma list_ascii_snoc (s : string) c :
  list_ascii_of_string (s +:+ String c "") = list_ascii_of_string s ++ [c].
Proof. apply list_ascii_app. Qed.

Lemma TrimSpace_visible s :
  Forall (fun c => visible c = true) (list_ascii_of_string s) -> TrimSpace s = s.
Proof.
  intros H. destruct (string_snoc s) as [->|(s' & c & ->)]; [done|].
  apply TrimSpace_id.
  - destruct s' as [|c' s']; [|unfold String.app in *; cbn in H |- *].
    + inversion H; subst. exact (proj1 (visible_not_space _ _ H2)).
    + inversion H; subst. exact (proj1 (visible_not_space _ _ H2)).
  - rewrite rev_string_snoc. rewrite list_ascii_snoc, Forall_app in H. destruct H as [_ H].
    inversion H; subst. exact (proj2 (visible_not_space _ _ H2)).
Qed.
