(* ===== verification/GoSort.v ===== *)
(** * Packages sort and container/heap

    A sort, a swap and the binary heap of [container/heap] on lists, and what
    they promise for a strict weak order. *)

From S2P Require Import Prelude.

(** ** Sorting and swapping *)

Section Sorting.
Context {A : Type} (less : A -> A -> bool).

(** [sort.SliceStable] with [less] a strict weak order; and [sort.Slice], of
    which every result is sorted as this one is, where no two elements tie. *)
Fixpoint insert_stable (x : A) (l : list A) : list A :=
  match l with
  | [] => [x]
  | y :: l' => if less y x then y :: insert_stable x l' else x :: l
  end.

Definition SliceStable (l : list A) : list A := foldr insert_stable [] l.

End Sorting.

(** [l[i], l[j] = l[j], l[i]]. *)
Definition swap_at {A} (i j : nat) (l : list A) : list A :=
  match l !! i, l !! j with
  | Some a, Some b => <[i := b]> (<[j := a]> l)
  | _, _ => l
  end.

(** ** The heap

    [less] on the elements is the [Less] of the heap on positions. *)

Section Heap.
Context {A : Type} (less : A -> A -> bool).

Definition less_at (h : list A) (i j : nat) : bool :=
  match h !! i, h !! j with Some x, Some y => less x y | _, _ => false end.

Definition parent (j : nat) : nat := ((j - 1) / 2)%nat.

(** The loops end after at most as many rounds as the heap is long. *)
Fixpoint up (fuel : nat) (h : list A) (j : nat) : list A :=
  match fuel with
  | O => h
  | S n => let i := parent j in
           if (i =? j)%nat || negb (less_at h j i) then h else up n (swap_at i j h) i
  end.

(** The child to go down to. *)
Definition lesser_child (h : list A) (i : nat) : nat :=
  let j := (2 * i + 1)%nat in
  if (j + 1 <? length h)%nat && less_at h (j + 1) j then (j + 1)%nat else j.

(** The heap and where the element came to rest. *)
Fixpoint down (fuel : nat) (h : list A) (i : nat) : list A * nat :=
  match fuel with
  | O => (h, i)
  | S n => if (length h <=? 2 * i + 1)%nat then (h, i)
           else let j := lesser_child h i in
                if negb (less_at h j i) then (h, i) else down n (swap_at i j h) j
  end.

Definition heap_Push (h : list A) (x : A) : list A := up (S (length h)) (h ++ [x]) (length h).

Definition heap_Fix (h : list A) (i : nat) : list A :=
  let '(h', k) := down (length h) h i in
  if (i <? k)%nat then h' else up (length h) h' i.

End Heap.

(** ** Properties

    [less] is asymmetric, and not coming after is transitive through the
    elements that are [ok]: a NaN is incomparable to every number. *)

Section Sorted.
Context {A : Type} (less : A -> A -> bool) (ok : A -> Prop).

Definition not_after (x y : A) : Prop := less y x = false.

Hypothesis less_asym : forall x y, less x y = true -> less y x = false.
Hypothesis not_after_trans : forall x y z, ok y -> not_after x y -> not_after y z -> not_after x z.

Lemma insert_stable_perm x l : insert_stable less x l ≡ₚ x :: l.
Proof.
  induction l as [|y l IH]; simpl; [done|]. destruct (less y x); [|done].
  rewrite IH. constructor.
Qed.

Lemma SliceStable_perm l : SliceStable less l ≡ₚ l.
Proof. induction l as [|x l IH]; simpl; [done|]. by rewrite insert_stable_perm, IH. Qed.

Lemma insert_stable_sorted x l :
  Forall ok l -> StronglySorted not_after l -> StronglySorted not_after (insert_stable less x l).
Proof.
  intros Hok Hs. induction Hs as [|y l Hl IH Hy]; simpl; [repeat constructor|].
  apply Forall_cons in Hok as [Hoy Hok]. destruct (less y x) eqn:E; constructor; auto.
  - rewrite insert_stable_perm. constructor; [by apply less_asym|done].
  - by constructor.
  - constructor; [done|]. eapply Forall_impl; [exact Hy|]. intros z Hz.
    by apply not_after_trans with y.
Qed.

Lemma SliceStable_sorted_ok l : Forall ok l -> StronglySorted not_after (SliceStable less l).
Proof.
  induction 1 as [|x l Hx Hl IH]; simpl; [constructor|]. apply insert_stable_sorted; [|done].
  by rewrite SliceStable_perm.
Qed.

End Sorted.

Lemma SliceStable_sorted {A} (less : A -> A -> bool) l :
  (forall x y, less x y = true -> less y x = false) ->
  (forall x y z, not_after less x y -> not_after less y z -> not_after less x z) ->
  StronglySorted (not_after less) (SliceStable less l).
Proof.
  intros Hasym Htrans. apply (SliceStable_sorted_ok less (fun _ => True)); [done| |].
  - intros x y z _. apply Htrans.
  - by apply Forall_true.
Qed.

Lemma swap_at_perm {A} i j (l : list A) : swap_at i j l ≡ₚ l.
Proof.
  unfold swap_at. destruct (l !! i) as [a|] eqn:Ei; [|done].
  destruct (l !! j) as [b|] eqn:Ej; [|done]. by apply Permutation_insert_swap.
Qed.

Lemma swap_at_lookup {A} i j k (l : list A) x y :
  i <> j -> l !! i = Some x -> l !! j = Some y ->
  swap_at i j l !! k = if decide (k = i) then Some y else if decide (k = j) then Some x else l !! k.
Proof.
  intros Hij Hi Hj. unfold swap_at. rewrite Hi, Hj.
  pose proof (lookup_lt_Some _ _ _ Hi). pose proof (lookup_lt_Some _ _ _ Hj).
  destruct (decide (k = i)) as [->|Hki]; [by rewrite list_lookup_insert_eq by (rewrite length_insert; lia)|].
  rewrite list_lookup_insert_ne by done.
  destruct (decide (k = j)) as [->|Hkj]; [by rewrite list_lookup_insert_eq|].
  by rewrite list_lookup_insert_ne.
Qed.

(** ** The heap order *)

Section HeapOrder.
Context {A : Type} (less : A -> A -> bool) (ok : A -> Prop).
Hypothesis less_asym : forall x y, less x y = true -> less y x = false.
Hypothesis not_less_trans :
  forall x y z, ok y -> less y x = false -> less z y = false -> less z x = false.

(** The element at [c] is not before the one at [p]. *)
Definition ordered_at (h : list A) (p c : nat) : Prop :=
  forall x y, h !! p = Some x -> h !! c = Some y -> less y x = false.

Definition heap_ordered (h : list A) : Prop := forall c, (0 < c)%nat -> ordered_at h (parent c) c.

Lemma parent_lt c : (0 < c)%nat -> (parent c < c)%nat.
Proof. intros. unfold parent. apply Nat.Div0.div_lt_upper_bound. lia. Qed.

Lemma parent_child c i : (0 < c)%nat -> parent c = i <-> c = (2 * i + 1)%nat \/ c = (2 * i + 2)%nat.
Proof.
  intros Hc. unfold parent. pose proof (Nat.div_mod_eq (c - 1) 2).
  pose proof (Nat.mod_upper_bound (c - 1) 2 ltac:(lia)). lia.
Qed.

Lemma ok_at h i x : Forall ok h -> h !! i = Some x -> ok x.
Proof. intros H Hx. by apply (Forall_lookup_1 _ _ _ _ H Hx). Qed.

Lemma less_irrefl x : less x x = false.
Proof. destruct (less x x) eqn:E; [|done]. by rewrite (less_asym _ _ E) in E. Qed.

(** The root is before none. *)
Lemma heap_root h x y c : Forall ok h -> heap_ordered h -> h !! 0%nat = Some x -> h !! c = Some y -> less y x = false.
Proof.
  intros Hok Hh Hx. revert y. induction c as [c IH] using lt_wf_ind. intros y Hy.
  destruct (decide (c = 0%nat)) as [->|Hc].
  - rewrite Hy in Hx. injection Hx as ->. apply less_irrefl.
  - pose proof (parent_lt c ltac:(lia)) as Hp.
    assert (is_Some (h !! parent c)) as [z Hz].
    { apply lookup_lt_is_Some. pose proof (lookup_lt_Some _ _ _ Hy). lia. }
    apply not_less_trans with z; [by eapply ok_at|by eapply IH|]. eapply (Hh c); [lia|done|done].
Qed.

(** The element at [j] may be before its parent; the children of [j] are not
    before that parent. *)
Definition up_pre (h : list A) (j : nat) : Prop :=
  (forall c, (0 < c)%nat -> c <> j -> ordered_at h (parent c) c) /\
  (forall c, (0 < c)%nat -> (0 < j)%nat -> parent c = j -> ordered_at h (parent j) c).

Lemma up_perm n h j : up less n h j ≡ₚ h.
Proof.
  revert h j. induction n as [|n IH]; intros h j; simpl; [done|].
  destruct (_ || _); [done|]. rewrite IH. apply swap_at_perm.
Qed.

Lemma less_at_Some h i j : less_at less h i j = true ->
  exists x y, h !! i = Some x /\ h !! j = Some y /\ less x y = true.
Proof. unfold less_at. destruct (h !! i) as [x|], (h !! j) as [y|]; naive_solver. Qed.

Lemma less_at_ordered h i j : less_at less h j i = false -> ordered_at h i j.
Proof. unfold less_at. intros H x y Hx Hy. by rewrite Hx, Hy in H. Qed.

Lemma up_ordered n h j : Forall ok h -> (j < n)%nat -> up_pre h j -> heap_ordered (up less n h j).
Proof.
  revert h j. induction n as [|n IH]; intros h j Hok Hn [H1 H2]; [lia|]. cbn [up].
  destruct (Nat.eqb_spec (parent j) j) as [Hj|Hj]; cbn [orb].
  { intros c Hc. destruct (decide (c = j)) as [->|]; [|by apply H1].
    pose proof (parent_lt j Hc). lia. }
  assert (Hj0 : (0 < j)%nat). { destruct j; [done|lia]. }
  pose proof (parent_lt j Hj0) as Hp.
  destruct (less_at less h j (parent j)) eqn:E; cbn [negb].
  - apply less_at_Some in E as (x & p & Hx & Hpar & Hlt).
    assert (Hl : forall k, swap_at (parent j) j h !! k =
      if decide (k = parent j) then Some x else if decide (k = j) then Some p else h !! k).
    { intros k. apply (swap_at_lookup _ _ k h p x); [lia|done|done]. }
    apply IH; [by rewrite swap_at_perm|lia|]. split.
    + intros c Hc Hne y z. rewrite !Hl. rewrite (decide_False (P := c = parent j)) by done.
      destruct (decide (parent c = parent j)) as [Hpc|Hpc].
      * intros [= <-]. destruct (decide (c = j)) as [->|Hcj].
        -- intros [= <-]. by apply less_asym.
        -- intros Hz. apply not_less_trans with p; [by eapply ok_at|by apply less_asym|].
           eapply (H1 c Hc Hcj); [|done]. by rewrite Hpc.
      * destruct (decide (parent c = j)) as [Hpj|Hpj].
        -- intros [= <-]. rewrite decide_False by congruence. intros Hz. by eapply (H2 c Hc Hj0 Hpj).
        -- rewrite (decide_False (P := c = j)) by congruence. intros. by eapply (H1 c); [|congruence|..].
    + intros c Hc Hpp Hpc y z. rewrite !Hl. pose proof (parent_lt (parent j) Hpp).
      rewrite !(decide_False (P := parent (parent j) = _)) by lia.
      rewrite (decide_False (P := c = parent j)) by (intros ->; pose proof (parent_lt _ Hc); lia).
      intros Hy. assert (Hpy : less p y = false) by (eapply (H1 (parent j)); [done|lia|done|done]).
      destruct (decide (c = j)) as [->|Hcj]; [by intros [= <-]|]. intros Hz.
      apply not_less_trans with p; [by eapply ok_at|done|]. eapply (H1 c Hc Hcj); [|done]. by rewrite Hpc.
  - intros c Hc. destruct (decide (c = j)) as [->|]; [by apply less_at_ordered|by apply H1].
Qed.

(** The children of [i] may be before it; they are not before its parent. *)
Definition down_pre (h : list A) (i : nat) : Prop :=
  (forall c, (0 < c)%nat -> parent c <> i -> ordered_at h (parent c) c) /\
  (forall c, (0 < c)%nat -> (0 < i)%nat -> parent c = i -> ordered_at h (parent i) c).

Lemma down_perm n h i : (down less n h i).1 ≡ₚ h.
Proof.
  revert h i. induction n as [|n IH]; intros h i; simpl; [done|].
  destruct (_ <=? _)%nat; [done|]. destruct (negb _); [done|]. rewrite IH. apply swap_at_perm.
Qed.

Lemma lesser_child_spec h i : (2 * i + 1 < length h)%nat ->
  let j := lesser_child less h i in
  (i < j < length h)%nat /\ parent j = i /\
  forall c y z, (0 < c)%nat -> parent c = i -> h !! j = Some y -> h !! c = Some z -> less z y = false.
Proof.
  intros Hlen j. unfold lesser_child in j.
  assert (Hp1 : parent (2 * i + 1) = i) by (apply parent_child; lia).
  assert (Hp2 : parent (2 * i + 2) = i) by (apply parent_child; lia).
  destruct (Nat.ltb_spec (2 * i + 1 + 1) (length h)) as [Hr|Hr]; cbn [andb] in j; subst j.
  - replace (2 * i + 1 + 1)%nat with (2 * i + 2)%nat in * by lia.
    destruct (less_at less h (2 * i + 2) (2 * i + 1)) eqn:E; (split; [lia|split; [done|]]);
      intros c y z Hc [-> | ->]%parent_child Hy Hz; try done; simplify_eq; try apply less_irrefl.
    + apply less_at_Some in E as (? & ? & ? & ? & ?). simplify_eq. by apply less_asym.
    + by eapply less_at_ordered.
  - split; [lia|]. split; [done|]. intros c y z Hc [-> | ->]%parent_child Hy Hz; try done.
    + simplify_eq. apply less_irrefl.
    + apply lookup_lt_Some in Hz. lia.
Qed.

Lemma down_ordered n h i : Forall ok h -> (length h <= n + i)%nat -> down_pre h i ->
  heap_ordered (down less n h i).1.
Proof.
  revert h i. induction n as [|n IH]; intros h i Hok Hn [H1 H2]; cbn [down].
  { intros c Hc. destruct (decide (parent c = i)) as [Hpc|]; [|by apply H1].
    intros x y Hx. apply lookup_lt_Some in Hx. simpl in Hx. lia. }
  destruct (Nat.leb_spec (length h) (2 * i + 1)) as [Hl|Hl]; cbn [fst].
  { intros c Hc. destruct (decide (parent c = i)) as [Hpc|]; [|by apply H1].
    intros x y _ Hy. apply lookup_lt_Some in Hy. apply parent_child in Hpc; lia. }
  destruct (lesser_child_spec h i Hl) as (Hj & Hpj & Hleast).
  set (j := lesser_child less h i) in *.
  destruct (less_at less h j i) eqn:E; cbn [negb].
  - apply less_at_Some in E as (y & x & Hy & Hx & Hlt).
    assert (Hlk : forall k, swap_at i j h !! k =
      if decide (k = i) then Some y else if decide (k = j) then Some x else h !! k).
    { intros k. apply (swap_at_lookup _ _ k h x y); [lia|done|done]. }
    apply IH; [by rewrite swap_at_perm|by rewrite swap_at_perm; lia|].
    split; intros c Hc.
    + intros Hpc. pose proof (parent_lt c Hc). unfold ordered_at. rewrite !Hlk.
      rewrite (decide_False (P := parent c = j)) by done.
      destruct (decide (parent c = i)) as [Hci|Hci].
      * rewrite (decide_False (P := c = i)) by lia. intros p z [= <-].
        destruct (decide (c = j)) as [Hcj|Hcj]; [intros [= <-]; by apply less_asym|].
        intros Hz. by eapply (Hleast c).
      * rewrite (decide_False (P := c = j)) by congruence.
        destruct (decide (c = i)) as [Hce|Hce]; [|by apply H1].
        intros p z Hp [= <-]. eapply (H2 j); [lia|lia|done| |done]. congruence.
    + intros _ Hpc. pose proof (parent_lt c Hc). unfold ordered_at. rewrite Hpj, !Hlk.
      rewrite decide_True by done. rewrite !decide_False by lia.
      intros p z [= <-] Hz. eapply (H1 c); [done|lia| |done]. by rewrite Hpc.
  - intros c Hc. destruct (decide (parent c = i)) as [Hpc|]; [|by apply H1].
    intros x z Hx Hz. rewrite Hpc in Hx.
    assert (is_Some (h !! j)) as [y Hy] by (apply lookup_lt_is_Some; lia).
    apply not_less_trans with y; [by eapply ok_at|by eapply less_at_ordered|by eapply Hleast].
Qed.

Lemma down_back n h i : (down less n h i).2 = i -> (down less n h i).1 = h.
Proof.
  assert (Hge : forall n h i, (i <= (down less n h i).2)%nat).
  { clear. induction n as [|n IH]; intros h i; cbn [down]; [done|].
    destruct (_ <=? _)%nat; [done|]. destruct (negb _); [done|].
    specialize (IH (swap_at i (lesser_child less h i) h) (lesser_child less h i)).
    assert (i < lesser_child less h i)%nat; [|lia].
    unfold lesser_child. destruct (_ && _); lia. }
  destruct n as [|n]; cbn [down]; [done|].
  destruct (_ <=? _)%nat; [done|]. destruct (negb _); [done|]. intros Hk.
  specialize (Hge n (swap_at i (lesser_child less h i) h) (lesser_child less h i)).
  rewrite Hk in Hge. exfalso.
  assert (i < lesser_child less h i)%nat; [|lia]. unfold lesser_child. destruct (_ && _); lia.
Qed.

(** A push keeps the order. *)
Lemma heap_Push_perm h x : heap_Push less h x ≡ₚ x :: h.
Proof. unfold heap_Push. rewrite up_perm. by rewrite Permutation_app_comm. Qed.

Lemma heap_Push_ordered h x : Forall ok (x :: h) -> heap_ordered h -> heap_ordered (heap_Push less h x).
Proof.
  intros Hok Hh. unfold heap_Push. apply up_ordered; [by rewrite Permutation_app_comm|lia|].
  split.
  - intros c Hc Hne y z Hy Hz. pose proof (parent_lt c Hc). pose proof (lookup_lt_Some _ _ _ Hz) as Hl.
    rewrite length_app in Hl. simpl in Hl.
    rewrite lookup_app_l in Hy by lia. rewrite lookup_app_l in Hz by lia. by eapply (Hh c).
  - intros c Hc Hl Hpc y z Hy Hz. pose proof (parent_lt c Hc). apply lookup_lt_Some in Hz.
    rewrite length_app in Hz. simpl in Hz. lia.
Qed.

(** A change of the root repaired. *)
Lemma heap_Fix_perm h i : heap_Fix less h i ≡ₚ h.
Proof.
  unfold heap_Fix. pose proof (down_perm (length h) h i) as Hp.
  destruct (down less (length h) h i) as [h' k]. simpl in Hp.
  destruct (_ <? _)%nat; [done|]. by rewrite up_perm.
Qed.

Lemma heap_Fix_root_ordered h x : Forall ok (x :: h) -> heap_ordered h ->
  heap_ordered (heap_Fix less (<[0%nat := x]> h) 0).
Proof.
  intros Hok Hh.
  assert (Hoki : Forall ok (<[0%nat := x]> h)).
  { apply Forall_cons in Hok as [Hx Hok]. by apply Forall_insert. }
  assert (Hd : heap_ordered (down less (length (<[0%nat := x]> h)) (<[0%nat := x]> h) 0).1).
  { apply down_ordered; [done|lia|]. split; [|intros; lia].
    intros c Hc Hpc y z. rewrite !list_lookup_insert_ne by lia. by apply Hh. }
  unfold heap_Fix.
  pose proof (down_back (length (<[0%nat := x]> h)) (<[0%nat := x]> h) 0) as Hback.
  destruct (down less _ _ _) as [h' k]. cbn [fst snd] in *.
  destruct (Nat.ltb_spec 0 k) as [Hk|Hk]; [done|].
  replace k with 0%nat in Hback by lia. rewrite (Hback eq_refl) in *.
  destruct (length (<[0%nat := x]> h)); cbn [up]; [done|]. by rewrite Nat.eqb_refl.
Qed.
End HeapOrder.

(** ** The greatest elements of a list

    The heap [h] of the [k] greatest of the elements seen, the least of them at
    its root. *)

Section TopK.
Context {A : Type} (better : A -> A -> bool) (ok : A -> Prop).
Hypothesis better_asym : forall x y, better x y = true -> better y x = false.
Hypothesis not_better_trans :
  forall x y z, ok y -> better y x = false -> better z y = false -> better z x = false.

Definition worse (x y : A) : bool := better y x.

Definition top_of (k : nat) (seen h : list A) : Prop :=
  length h = (k `min` length seen)%nat /\ heap_ordered worse h /\
  exists rest, h ++ rest ≡ₚ seen /\ forall x y, x ∈ h -> y ∈ rest -> better y x = false.

Lemma worse_trans x y z : ok y -> worse y x = false -> worse z y = false -> worse z x = false.
Proof. unfold worse. intros ? ? ?. by apply (not_better_trans z y x). Qed.

Lemma worse_asym x y : worse x y = true -> worse y x = false.
Proof. apply better_asym. Qed.

Lemma top_of_nil k : top_of k [] [].
Proof.
  split; [simpl; lia|]. split; [|by exists []; split; [|intros ? ? H; inversion H]].
  intros c _ x y Hx. done.
Qed.

Lemma top_of_push k seen h x : (length h < k)%nat -> Forall ok (x :: seen) ->
  top_of k seen h -> top_of k (seen ++ [x]) (heap_Push worse h x).
Proof.
  intros Hlt Hok (Hlen & Hh & rest & Hp & Hrest).
  assert (rest = []) as ->.
  { apply Permutation_length in Hp. rewrite length_app in Hp. apply length_zero_iff_nil. lia. }
  rewrite app_nil_r in Hp. split; [|split].
  - rewrite heap_Push_perm, length_app. simpl. lia.
  - apply (heap_Push_ordered worse ok worse_asym worse_trans); [by rewrite Hp|done].
  - exists []. split; [|intros ? ? _ H; inversion H].
    rewrite app_nil_r, heap_Push_perm, Hp. by rewrite Permutation_app_comm.
Qed.

Lemma top_of_skip k seen h x r : h !! 0%nat = Some r -> better x r = false -> Forall ok seen ->
  (k <= length h)%nat -> top_of k seen h -> top_of k (seen ++ [x]) h.
Proof.
  intros Hr Hx Hok Hk (Hlen & Hh & rest & Hp & Hrest).
  assert (Hokh : Forall ok h) by (by rewrite <- Hp in Hok; apply Forall_app in Hok as [? _]).
  split; [rewrite length_app; simpl; lia|]. split; [done|].
  exists (x :: rest). split; [by rewrite <- Permutation_middle, Hp, Permutation_app_comm|].
  intros y z Hy [-> |Hz]%elem_of_cons; [|by apply Hrest].
  apply list_elem_of_lookup_1 in Hy as [c Hc].
  apply (not_better_trans y r x); [by apply (Forall_lookup_1 _ _ _ _ Hokh Hr)| |done].
  apply (heap_root worse ok worse_asym worse_trans h r y c); done.
Qed.

Lemma top_of_replace k seen h x r : h !! 0%nat = Some r -> better x r = true -> Forall ok (x :: seen) ->
  (k <= length h)%nat -> top_of k seen h -> top_of k (seen ++ [x]) (heap_Fix worse (<[0%nat := x]> h) 0).
Proof.
  intros Hr Hx Hok Hk (Hlen & Hh & rest & Hp & Hrest).
  apply Forall_cons in Hok as [Hokx Hok].
  assert (Hokh : Forall ok h) by (by rewrite <- Hp in Hok; apply Forall_app in Hok as [? _]).
  assert (Hokr : ok r) by apply (Forall_lookup_1 _ _ _ _ Hokh Hr).
  destruct h as [|r' h]; [done|]. injection Hr as ->. cbn [insert list_insert] in *.
  split; [|split].
  - rewrite heap_Fix_perm, length_app. simpl in *. lia.
  - apply (heap_Fix_root_ordered worse ok worse_asym worse_trans (r :: h)); [|done].
    by constructor.
  - exists (r :: rest). split.
    { rewrite heap_Fix_perm. cbn. rewrite <- Permutation_middle, <- Hp. cbn.
      by rewrite (Permutation_app_comm _ [x]), (perm_swap r x). }
    intros y z Hy Hz. rewrite heap_Fix_perm in Hy.
    assert (Hyr : better r y = false).
    { apply elem_of_cons in Hy as [-> |Hy]; [by apply better_asym|].
      apply list_elem_of_lookup_1 in Hy as [c Hc].
      apply (heap_root worse ok worse_asym worse_trans (r :: h) r y (S c)); done. }
    apply elem_of_cons in Hz as [-> |Hz]; [done|].
    apply (not_better_trans y r z); [done..|]. apply Hrest; [left|done].
Qed.

(** What a sorted heap of the greatest is: a prefix of the whole list sorted. *)
Lemma top_of_sorted k seen h :
  (forall x y, x ∈ seen -> y ∈ seen -> better x y = false -> better y x = false -> x = y) ->
  Forall ok seen -> top_of k seen h -> SliceStable better h = take k (SliceStable better seen).
Proof.
  intros Htie Hok (Hlen & _ & rest & Hp & Hrest).
  assert (Hoks : Forall ok (h ++ rest)) by (by rewrite Hp).
  apply Forall_app in Hoks as [Hokh Hokr].
  assert (Heq : SliceStable better seen = SliceStable better h ++ SliceStable better rest).
  { apply (StronglySorted_unique_strong (not_after better)).
    - intros x y Hx Hy H1 H2. rewrite SliceStable_perm in Hx.
      rewrite !SliceStable_perm, Hp in Hy. by apply Htie.
    - by apply (SliceStable_sorted_ok better ok).
    - apply StronglySorted_app_2; [|by apply (SliceStable_sorted_ok better ok)..].
      intros x y Hx Hy. rewrite SliceStable_perm in Hx. rewrite SliceStable_perm in Hy.
      by apply Hrest.
    - by rewrite !SliceStable_perm. }
  rewrite Heq. assert (Hl : length (SliceStable better h) = (k `min` length seen)%nat)
    by (by rewrite SliceStable_perm).
  destruct (Nat.le_gt_cases k (length seen)) as [Hk|Hk].
  - rewrite take_app_length'; [done|lia].
  - assert (rest = []) as ->.
    { apply Permutation_length in Hp. rewrite length_app in Hp. apply length_zero_iff_nil. lia. }
    rewrite app_nil_r. by rewrite take_ge by lia.
Qed.
End TopK.
