(* ===== verification/GoProgram.v ===== *)
(** * Programs as trees of calls

    A Go function that calls Redis, Postgres, an upstream, the clock or
    [math/rand] is straight-line code around calls, any of which may answer
    anything at any time.  A [prog] over a type of calls is that code: a tree
    whose inner nodes are the calls and whose branches are the replies.
    [runs p tr a] says that [p] can make the calls of the trace [tr] and return
    [a]; [wp] is the weakest precondition of a program over a ghost state that
    counts calls, for every reply; and [exec] runs a program against a concrete
    environment.

    [Panic] stands for a nil dereference: it has no run, and [wp] of it is
    false, so a theorem about [wp] also shows that no reply makes the code
    panic. *)

From S2P Require Import Prelude.

(** ** Programs *)

Inductive prog {C : Type} (reply : C -> Type) (A : Type) : Type :=
| Return (a : A)
| Call (c : C) (k : reply c -> prog reply A)
| Panic.
Arguments Return {C reply A} a.
Arguments Call {C reply A} c k.
Arguments Panic {C reply A}.

Fixpoint prog_bind_ {C} {reply : C -> Type} {A B} (f : A -> prog reply B) (p : prog reply A) : prog reply B :=
  match p with
  | Return a => f a
  | Call c k => Call c (fun r => prog_bind_ f (k r))
  | Panic => Panic
  end.

#[export] Instance prog_ret {C} (reply : C -> Type) : MRet (prog reply) := @Return C reply.
#[export] Instance prog_bind {C} (reply : C -> Type) : MBind (prog reply) := @prog_bind_ C reply.
#[export] Instance prog_fmap {C} (reply : C -> Type) : FMap (prog reply) := fun _ _ f p => prog_bind_ (fun a => Return (f a)) p.

Definition ret {C} {reply : C -> Type} {A} : A -> prog reply A := Return.
Arguments ret {C reply A} _ /.

(** Short-circuit conjunction of effectful conditions. *)
Definition andb_prog {C} {reply : C -> Type} (p q : prog reply bool) : prog reply bool :=
  b ← p; if (b : bool) then q else Return false.
Infix "&&&" := andb_prog (at level 40, left associativity) : go_scope.

(** The accounts that pass a filter, in order. *)
Fixpoint filter_prog {C} {reply : C -> Type} {A} (f : A -> prog reply bool) (l : list A) : prog reply (list A) :=
  match l with
  | [] => Return []
  | a :: l => b ← f a; r ← filter_prog f l; Return (if (b : bool) then a :: r else r)
  end.

(** ** Runs *)

Section Runs.
Context {C : Type} {reply : C -> Type}.

Definition event : Type := {c : C & reply c}.
Definition Ev (c : C) (r : reply c) : event := existT c r.

Fixpoint runs {A} (p : prog reply A) (tr : list event) (a : A) : Prop :=
  match p with
  | Return b => tr = [] /\ a = b
  | Call c k => exists r tr', tr = Ev c r :: tr' /\ runs (k r) tr' a
  | Panic => False
  end.

(** Some replies, all of them [ok], lead to a panic. *)
Inductive panics {A} (ok : forall c, reply c -> Prop) : prog reply A -> Prop :=
| panic_here : panics ok Panic
| panic_later c k r : ok c r -> panics ok (k r) -> panics ok (Call c k).

(** A run against an environment that answers each call from its state. *)
Fixpoint exec {A W} (env : forall c, W -> reply c * W) (w : W) (p : prog reply A)
    : option (A * list event) :=
  match p with
  | Return a => Some (a, [])
  | Call c k => let '(r, w) := env c w in
                '(a, tr) ← exec env w (k r); Some (a, Ev c r :: tr)
  | Panic => None
  end.

Lemma exec_runs {A W} (env : forall c, W -> reply c * W) w (p : prog reply A) a tr :
  exec env w p = Some (a, tr) -> runs p tr a.
Proof.
  revert w tr. induction p as [b|c k IH|]; intros w tr H; simpl in H; [by simplify_eq| |done].
  destruct (env c w) as [r w']. destruct (exec env w' (k r)) as [[b t]|] eqn:E; simplify_eq/=.
  exists r, t. eauto.
Qed.

Lemma runs_bind {A B} (p : prog reply A) (f : A -> prog reply B) tr b :
  runs (p ≫= f) tr b -> exists tr1 a tr2, tr = tr1 ++ tr2 /\ runs p tr1 a /\ runs (f a) tr2 b.
Proof.
  revert tr. induction p as [a|c k IH|]; intros tr Hr; [by exists [], a, tr| |done].
  destruct Hr as (r & tr' & -> & Hk). destruct (IH r tr' Hk) as (tr1 & a & tr2 & -> & H1 & H2).
  exists (Ev c r :: tr1), a, tr2. split; [done|]. split; [|done]. exists r, tr1. by split.
Qed.

(** Every reply of the trace is one of [ok]. *)
Definition replies (ok : forall c, reply c -> Prop) (tr : list event) : Prop :=
  Forall (fun e => ok (projT1 e) (projT2 e)) tr.

(** An environment whose replies are all [ok] makes such a trace. *)
Lemma exec_ok {A W} (ok : forall c, reply c -> Prop) (env : forall c, W -> reply c * W) w (p : prog reply A) a tr :
  (forall c w, ok c (env c w).1) -> exec env w p = Some (a, tr) ->
  replies ok tr.
Proof.
  intros Hok. revert w tr. induction p as [b|c k IH|]; intros w tr H; simpl in H; [by simplify_eq; constructor| |done].
  pose proof (Hok c w) as Hc. destruct (env c w) as [r w'].
  destruct (exec env w' (k r)) as [[b t]|] eqn:E; simplify_eq/=.
  constructor; [done|]. by eapply IH.
Qed.

End Runs.
Arguments event {C} reply.

(** ** Weakest preconditions

    [step] says how a call and its reply move the ghost state, [ok] which
    replies the environment is assumed to give. *)
Section WeakestPrecondition.
Context {C : Type} {reply : C -> Type}.
Context {S : Type} (step : forall c, reply c -> S -> S) (ok : forall c, reply c -> Prop).

Fixpoint wp {A} (p : prog reply A) (s : S) (Q : A -> S -> Prop) : Prop :=
  match p with
  | Return a => Q a s
  | Call c k => forall r, ok c r -> wp (k r) (step c r s) Q
  | Panic => False
  end.

Lemma wp_mono {A} (p : prog reply A) s (Q Q' : A -> S -> Prop) :
  wp p s Q -> (forall a s, Q a s -> Q' a s) -> wp p s Q'.
Proof. revert s. induction p as [a|c k IH|]; simpl; intros s Hp HQ; eauto. Qed.

Lemma wp_bind {A B} (p : prog reply A) (f : A -> prog reply B) s Q :
  wp p s (fun a s => wp (f a) s Q) -> wp (p ≫= f) s Q.
Proof. revert s. induction p as [a|c k IH|]; simpl; intros s Hp; [done| |done]. intros r Hr. by apply IH, Hp. Qed.

Lemma wp_fmap {A B} (p : prog reply A) (f : A -> B) s Q :
  wp p s (fun a s => Q (f a) s) -> wp (f <$> p) s Q.
Proof. exact (wp_bind p (fun a => Return (f a)) s Q). Qed.

Lemma wp_and {A} (p : prog reply A) s (Q Q' : A -> S -> Prop) :
  wp p s Q -> wp p s Q' -> wp p s (fun a s => Q a s /\ Q' a s).
Proof. revert s. induction p as [a|c k IH|]; simpl; intros s Hp HQ; auto. Qed.

(** The ghost state a trace leads to. *)
Definition after (tr : list (event reply)) (s : S) : S :=
  foldl (fun s e => step (projT1 e) (projT2 e) s) s tr.

Lemma wp_runs {A} (p : prog reply A) s Q tr a :
  wp p s Q -> replies ok tr -> runs p tr a -> Q a (after tr s).
Proof.
  revert s tr. induction p as [b|c k IH|]; intros s tr Hwp Hok Hr; [by destruct Hr as [-> ->]| |done].
  destruct Hr as (r & tr' & -> & Hk). apply Forall_cons in Hok as [Hr0 Htr]. simpl.
  by apply (IH r); [apply Hwp| |].
Qed.

Lemma wp_no_panic {A} (p : prog reply A) s Q : wp p s Q -> ~ panics ok p.
Proof. intros Hwp Hp. revert s Hwp. induction Hp as [|c k r Hr Hp IH]; simpl; intros s H; eauto. Qed.

(** A program that leaves the ghost state alone and whose result satisfies
    [P]. *)
Definition returns {A} (p : prog reply A) (P : A -> Prop) : Prop :=
  forall s (Q : A -> S -> Prop), (forall a, P a -> Q a s) -> wp p s Q.

Lemma returns_runs {A} (p : prog reply A) (P : A -> Prop) (s : S) tr a :
  returns p P -> replies ok tr -> runs p tr a -> P a.
Proof. intros Hp Hok Hr. apply (wp_runs p s (fun a _ => P a) tr a); [by apply Hp|done|done]. Qed.

Lemma returns_Return {A} (a : A) (P : A -> Prop) : P a -> returns (Return a) P.
Proof. intros Ha s Q HQ. by apply HQ. Qed.

Lemma returns_bind {A B} (p : prog reply A) (f : A -> prog reply B) (P : A -> Prop) (R : B -> Prop) :
  returns p P -> (forall a, P a -> returns (f a) R) -> returns (p ≫= f) R.
Proof. intros Hp Hf s Q HQ. apply wp_bind, Hp. intros a Ha. by apply Hf. Qed.

Lemma returns_mono {A} (p : prog reply A) (P P' : A -> Prop) :
  returns p P -> (forall a, P a -> P' a) -> returns p P'.
Proof. intros Hp HP s Q HQ. apply Hp. auto. Qed.

Lemma returns_and {A} (p : prog reply A) (P P' : A -> Prop) :
  returns p P -> returns p P' -> returns p (fun a => P a /\ P' a).
Proof.
  intros Hp Hp' s Q HQ. eapply wp_mono.
  - apply wp_and; [apply (Hp s (fun a s' => P a /\ s' = s))|apply (Hp' s (fun a s' => P' a /\ s' = s))]; auto.
  - intros a ? [[? ->] [? _]]. auto.
Qed.

Lemma returns_fmap {A B} (p : prog reply A) (f : A -> B) (P : A -> Prop) (R : B -> Prop) :
  returns p P -> (forall a, P a -> R (f a)) -> returns (f <$> p) R.
Proof. intros Hp HR s Q HQ. apply wp_fmap, Hp. auto. Qed.

Lemma returns_andb (p q : prog reply bool) (P R : Prop) :
  returns p (fun b => b = true -> P) -> returns q (fun b => b = true -> R) ->
  returns (p &&& q) (fun b => b = true -> P /\ R).
Proof.
  intros Hp Hq. eapply returns_bind; [exact Hp|]. intros [] Ha; [|by apply returns_Return].
  eapply returns_mono; [exact Hq|]. simpl. auto.
Qed.

Lemma wp_returns {A B} (p : prog reply A) (f : A -> prog reply B) (P : A -> Prop) s Q :
  returns p P -> (forall a, P a -> wp (f a) s Q) -> wp (p ≫= f) s Q.
Proof. intros Hp Hf. apply wp_bind, Hp. auto. Qed.

(** A filter keeps a sublist, whose elements passed it. *)
Lemma returns_filter {A} (f : A -> prog reply bool) (P : A -> Prop) (l : list A) :
  (forall a, returns (f a) (fun b => b = true -> P a)) ->
  returns (filter_prog f l) (fun l' => l' `sublist_of` l /\ Forall P l').
Proof.
  intros Hf. induction l as [|a l IH]; simpl; [by apply returns_Return|].
  eapply returns_bind; [apply Hf|]. intros b Hb. eapply returns_bind; [exact IH|].
  intros l' [Hl HP]. apply returns_Return. destruct b; split; auto; by constructor.
Qed.

End WeakestPrecondition.

(** ** More assumed of the replies *)

Section Stronger.
Context {C : Type} {reply : C -> Type} {S : Type} (step : forall c, reply c -> S -> S).
Context (ok ok' : forall c, reply c -> Prop) (Hok : forall c r, ok' c r -> ok c r).

Lemma wp_stronger {A} (p : prog reply A) s (Q : A -> S -> Prop) : wp step ok p s Q -> wp step ok' p s Q.
Proof using Hok. revert s. induction p as [a|c k IH|]; simpl; intros s H; auto. Qed.

Lemma returns_stronger {A} (p : prog reply A) (P : A -> Prop) : returns step ok p P -> returns step ok' p P.
Proof using Hok. intros Hp s Q HQ. by apply wp_stronger, Hp. Qed.
End Stronger.

(** ** Programs that make certain calls only *)

Section Only.
Context {C : Type} {reply : C -> Type} (P : C -> Prop).

Fixpoint only {A} (p : prog reply A) : Prop :=
  match p with
  | Call c k => P c /\ forall r, only (k r)
  | _ => True
  end.

Lemma only_bind {A B} (p : prog reply A) (f : A -> prog reply B) :
  only p -> (forall a, only (f a)) -> only (p ≫= f).
Proof.
  intros Hp Hf. induction p as [a|c k IH|]; [by apply Hf| |done].
  destruct Hp as [Hc Hk]. split; [done|]. intros r. by apply IH.
Qed.

Lemma only_runs {A} (p : prog reply A) tr a :
  only p -> runs p tr a -> Forall (fun e : event reply => P (projT1 e)) tr.
Proof.
  revert tr. induction p as [b|c k IH|]; intros tr Hp Hr; [by destruct Hr as [-> _]| |done].
  destruct Hr as (r & tr' & -> & Hk), Hp as [Hc Ho]. constructor; [done|]. by eapply IH.
Qed.
End Only.
