(* ===== verification/GoStrings.v ===== *)
(** * The [strings] functions the program uses beyond those of the prelude:
    splitting, replacing, trimming by prefix or suffix, and comparison up to
    case. *)

From S2P Require Import Prelude.
Local Open Scope string_scope.

(** [strings.EqualFold], exact on ASCII text and on the two other runes whose
    case folds to an ASCII letter. *)
Fixpoint fold_case (s : string) : string :=
  match s with
  | EmptyString => EmptyString
  | String "226" (String "132" (String "170" t)) => String "k" (fold_case t)
  | String "197" (String "191" t) => String "s" (fold_case t)
  | String c t => String (byte_lower c) (fold_case t)
  end.

Definition EqualFold (s t : string) : bool := fold_case s ==? fold_case t.

(** [strings.Split(s, sep)] for a one-byte separator. *)
Fixpoint split_byte (sep : ascii) (s : string) : string * list string :=
  match s with
  | EmptyString => ("", [])
  | String c t =>
      let '(l, ls) := split_byte sep t in
      if c ==? sep then ("", l :: ls) else (String c l, ls)
  end.

Definition Split (s : string) (sep : ascii) : list string :=
  let '(l, ls) := split_byte sep s in l :: ls.

Fixpoint Join (l : list string) (sep : string) : string :=
  match l with
  | [] => ""
  | [x] => x
  | x :: l => x +:+ sep +:+ Join l sep
  end.

Definition TrimPrefix (s p : string) : string := default s (strip_prefix p s).
Definition TrimSuffix (s p : string) : string := default s (strip_suffix p s).

(** [strings.TrimLeft(s, cutset)] for a set of ASCII characters. *)
Fixpoint TrimLeft (s : string) (cutset : list ascii) : string :=
  match s with
  | String c t => if bool_decide (c ∈ cutset) then TrimLeft t cutset else s
  | EmptyString => s
  end.

(** [strings.ReplaceAll] for a non-empty [old]; every step drops a character,
    so the length of the text is enough fuel. *)
Fixpoint replace_go (fuel : nat) (old new s : string) : string :=
  match fuel with
  | O => s
  | S n => match strip_prefix old s with
           | Some r => new +:+ replace_go n old new r
           | None => match s with
                     | EmptyString => ""
                     | String c t => String c (replace_go n old new t)
                     end
           end
  end.
Definition ReplaceAll (s old new : string) : string := replace_go (Strings.String.length s) old new s.

(** What follows the last occurrence of [sep], if it occurs. *)
Fixpoint after_last (sep s : string) : option string :=
  match s with
  | EmptyString => strip_prefix sep s
  | String _ t => match after_last sep t with
                  | Some r => Some r
                  | None => strip_prefix sep s
                  end
  end.

(** What follows each occurrence of [sep], from the left. *)
Fixpoint after_each (sep s : string) : list string :=
  match s with
  | EmptyString => []
  | String _ t => match strip_prefix sep s with
                  | Some r => r :: after_each sep t
                  | None => after_each sep t
                  end
  end.

(** [strings.Fields]. *)
Fixpoint fields_go (fuel : nat) (word s : string) : list string :=
  let done := if word ==? "" then [] else [word] in
  match fuel with
  | O => done
  | S n => match strip_first white_space s with
           | Some r => done ++ fields_go n "" r
           | None => match s with
                     | EmptyString => done
                     | String c t => fields_go n (word +:+ String c "") t
                     end
           end
  end.
Definition Fields (s : string) : list string := fields_go (S (Strings.String.length s)) "" s.

Fixpoint string_forall (f : ascii -> bool) (s : string) : bool :=
  match s with EmptyString => true | String c t => f c && string_forall f t end.
Fixpoint string_filter (f : ascii -> bool) (s : string) : string :=
  match s with EmptyString => "" | String c t => if f c then String c (string_filter f t) else string_filter f t end.

Definition is_digit (c : ascii) : bool := match digit_val c with Some _ => true | None => false end.

Example Fields_ex : Fields " gpt 5.4  mini " = ["gpt"; "5.4"; "mini"] /\ Fields "" = [].
Proof. split; reflexivity. Qed.
Example ReplaceAll_ex : ReplaceAll "a--b---c" "--" "-" = "a-b--c" /\ ReplaceAll "x-4-5-y" "-4-5-" "-4.5-" = "x-4.5-y".
Proof. split; reflexivity. Qed.
Example after_last_ex : after_last "/models/" "a/models/b/models/c" = Some "c" /\ after_last "/" "abc" = None.
Proof. split; reflexivity. Qed.
