(* ===== verification/Float64.v ===== *)
(** * IEEE 754 binary64, the Go type [float64]

    Values are the standard library's [spec_float]; the operations are its
    correctly rounded ones at precision 53 and maximal exponent 1024, so every
    definition computes the bits Go computes.  The file adds what the program
    uses of [strconv.ParseFloat] and of the conversions between [float64] and
    [int64], and the order lemmas the threshold tests need. *)

From Stdlib Require Export SpecFloat.
From S2P Require Import Prelude.
Local Open Scope Z_scope.

Abbreviation f64 := spec_float.

Definition fadd : f64 -> f64 -> f64 := SFadd 53 1024.
Definition fsub : f64 -> f64 -> f64 := SFsub 53 1024.
Definition fmul : f64 -> f64 -> f64 := SFmul 53 1024.
Definition fdiv : f64 -> f64 -> f64 := SFdiv 53 1024.

(** Comparisons: false as soon as one operand is NaN. *)
Definition fltb (x y : f64) : bool :=
  match SFcompare x y with Some Lt => true | _ => false end.
Definition fleb (x y : f64) : bool :=
  match SFcompare x y with Some Lt | Some Eq => true | _ => false end.
Definition feqb (x y : f64) : bool :=
  match SFcompare x y with Some Eq => true | _ => false end.

Definition f0 : f64 := S754_zero false.

(** [float64(n)]: the nearest float, ties to even. *)
Definition f64_of_Z (n : Z) : f64 := binary_normalize 53 1024 n 0 false.

Definition f1 : f64 := f64_of_Z 1.

Definition f_is_nan (x : f64) : bool := match x with S754_nan => true | _ => false end.
Definition f_is_inf (x : f64) : bool := match x with S754_infinity _ => true | _ => false end.

#[export] Instance f64_eq_dec : EqDecision f64.
Proof. solve_decision. Defined.

(** [int64(x)]: truncation toward zero.  Outside the range (and for NaN) the
    Go specification leaves the value to the implementation; amd64 gives the
    smallest int64. *)
Definition f64_trunc (x : f64) : option Z :=
  match x with
  | S754_zero _ => Some 0
  | S754_finite s m e =>
      let a := if 0 <=? e then Z.pos m * 2 ^ e else Z.pos m / 2 ^ (- e) in
      Some (if s then - a else a)
  | _ => None
  end.

Definition f64_to_int64 (x : f64) : Z :=
  match f64_trunc x with
  | Some z => if in_int64 z then z else int64_min
  | None => int64_min
  end.

Lemma f64_to_int64_range x : int64_min <= f64_to_int64 x <= int64_max.
Proof.
  unfold f64_to_int64. destruct (f64_trunc x) as [z|].
  - destruct (in_int64 z) eqn:E; [|unfold int64_min, int64_max; lia].
    unfold in_int64 in E. apply andb_true_iff in E as [??]. blia.
  - unfold int64_min, int64_max; lia.
Qed.

(** [m * 10^e] and [m * 2^e] rounded once. *)
Definition f64_of_ratio (neg : bool) (num den : positive) : f64 :=
  let '(q, e', l) := SFdiv_core_binary 53 1024 (Z.pos num) 0 (Z.pos den) 0 in
  binary_round_aux 53 1024 neg q e' l.

Definition f64_scaled (neg : bool) (base mant exp : Z) : f64 :=
  match mant with
  | Z.pos m =>
      if 0 <=? exp then binary_round 53 1024 neg (m * Z.to_pos (base ^ exp)) 0
      else f64_of_ratio neg m (Z.to_pos (base ^ (- exp)))
  | _ => S754_zero neg
  end.

(** ** [strconv.ParseFloat(s, 64)] *)

Definition hex_val (c : ascii) : option Z :=
  let n := Strings.Ascii.nat_of_ascii (byte_lower c) in
  if (97 <=? n)%nat && (n <=? 102)%nat then Some (Z.of_nat n - 87) else digit_val c.

(** The mantissa scanner: value, digits after the point (once seen), whether
    a digit and an underscore were seen, and the rest. *)
Fixpoint scan_mantissa (hex : bool) (m frac : Z) (dot dig us : bool) (s : string)
    : Z * Z * bool * bool * string :=
  match s with
  | String c t =>
      if decide (c = "_"%char) then scan_mantissa hex m frac dot dig true t
      else if decide (c = "."%char) then
        if dot then (m, frac, dig, us, s)
        else scan_mantissa hex m frac true dig us t
      else match (if hex then hex_val c else digit_val c) with
           | Some d => scan_mantissa hex (m * (if hex then 16 else 10) + d)
                         (if dot then frac + 1 else frac) dot true us t
           | None => (m, frac, dig, us, s)
           end
  | EmptyString => (m, frac, dig, us, s)
  end.

(** The exponent digits, saturating as the source of strconv does. *)
Fixpoint scan_exponent (e : Z) (us : bool) (s : string) : Z * bool * string :=
  match s with
  | String c t =>
      if decide (c = "_"%char) then scan_exponent e true t
      else match digit_val c with
           | Some d => scan_exponent (if e <? 10000 then e * 10 + d else e) us t
           | None => (e, us, s)
           end
  | EmptyString => (e, us, s)
  end.

Inductive seen := SawStart | SawDigit | SawUnderscore | SawOther.

Fixpoint underscores_between_digits (hex : bool) (saw : seen) (s : string) : bool :=
  match s with
  | EmptyString => match saw with SawUnderscore => false | _ => true end
  | String c t =>
      match (if hex then hex_val c else digit_val c) with
      | Some _ => underscores_between_digits hex SawDigit t
      | None =>
          if decide (c = "_"%char) then
            match saw with
            | SawDigit => underscores_between_digits hex SawUnderscore t
            | _ => false
            end
          else match saw with
               | SawUnderscore => false
               | _ => underscores_between_digits hex SawOther t
               end
      end
  end.

Definition strip_sign (s : string) : option bool * string :=
  match s with
  | String "+" t => (Some false, t)
  | String "-" t => (Some true, t)
  | _ => (None, s)
  end.

Definition hex_body (s : string) : option string :=
  match s with
  | String "0" (String c (String d t)) =>
      if decide (byte_lower c = "x"%char) then Some (String d t) else None
  | _ => None
  end.

Definition read_float (s : string) : option f64 :=
  let '(sgn, body) := strip_sign s in
  let neg := default false sgn in
  let '(hex, digits) := match hex_body body with
                        | Some t => (true, t)
                        | None => (false, body)
                        end in
  let '(m, frac, dig, us, rest) := scan_mantissa hex 0 0 false false false digits in
  if negb dig then None else
  let fin e us' rest' :=
    match rest' with
    | EmptyString =>
        if us' && negb (underscores_between_digits hex
                          (if hex then SawDigit else SawStart) digits) then None
        else let f := if hex then f64_scaled neg 2 m (e - 4 * frac)
                      else f64_scaled neg 10 m (e - frac) in
             if f_is_inf f then None else Some f
    | String _ _ => None
    end in
  match rest with
  | String c t =>
      if decide (byte_lower c = if hex then "p"%char else "e"%char) then
        let '(esgn, ebody) := strip_sign t in
        match ebody with
        | String d _ =>
            match digit_val d with
            | Some _ => let '(e, us', rest') := scan_exponent 0 us ebody in
                        fin (if default false esgn then - e else e) us' rest'
            | None => None
            end
        | EmptyString => None
        end
      else None
  | EmptyString => if hex then None else fin 0 us EmptyString
  end.

(** [None] is a non-nil error (bad syntax or out of range). *)
Definition ParseFloat (s : string) : option f64 :=
  let '(sgn, body) := strip_sign s in
  let low := ToLower body in
  if (low ==? "inf") || (low ==? "infinity") then Some (S754_infinity (default false sgn))
  else if (low ==? "nan") && (sgn ==? None) then Some S754_nan
  else read_float s.

Example ParseFloat_ex :
  ParseFloat "0.5" = Some (S754_finite false (2 ^ 52)%positive (-53)) /\
  ParseFloat "1e2" = Some (f64_of_Z 100) /\
  ParseFloat "-3.25" = Some (fdiv (f64_of_Z (-13)) (f64_of_Z 4)) /\
  ParseFloat "0.1" = Some (fdiv f1 (f64_of_Z 10)) /\
  ParseFloat "0x1.8p1" = Some (f64_of_Z 3) /\
  ParseFloat "1_0" = Some (f64_of_Z 10) /\ ParseFloat "_10" = None /\
  ParseFloat "1e400" = None /\ ParseFloat "" = None /\ ParseFloat "12x" = None.
Proof. vm_compute. repeat split. Qed.

(** ** Order lemmas *)

Lemma SFcompare_finite s1 m1 e1 s2 m2 e2 :
  SFcompare (S754_finite s1 m1 e1) (S754_finite s2 m2 e2) =
  Some (match s1, s2 with
        | true, false => Lt
        | false, true => Gt
        | true, true => match e1 ?= e2 with
                        | Eq => CompOpp (m1 ?= m2)%positive | Lt => Gt | Gt => Lt
                        end
        | false, false => match e1 ?= e2 with
                          | Eq => (m1 ?= m2)%positive | c => c
                          end
        end).
Proof. destruct s1, s2; simpl; try done; by destruct (e1 ?= e2). Qed.

Ltac float_cmp :=
  repeat match goal with
  | H : context [(?a ?= ?b)%Z] |- _ => destruct (Z.compare_spec a b); simpl in *; subst
  | H : context [(?a ?= ?b)%positive] |- _ => destruct (Pos.compare_spec a b); simpl in *; subst
  | |- context [(?a ?= ?b)%Z] => destruct (Z.compare_spec a b); simpl in *; subst
  | |- context [(?a ?= ?b)%positive] => destruct (Pos.compare_spec a b); simpl in *; subst
  end; try done; try lia.

Lemma fleb_fltb_trans x y z : fleb x y = true -> fltb y z = true -> fltb x z = true.
Proof.
  unfold fleb, fltb.
  destruct x as [sx|sx| |sx mx ex], y as [sy|sy| |sy my ey], z as [sz|sz| |sz mz ez];
    try (rewrite SFcompare_finite); try (rewrite SFcompare_finite);
    try (rewrite SFcompare_finite);
    try (destruct sx); try (destruct sy); try (destruct sz); simpl; try done; intros; float_cmp.
Qed.

Lemma fltb_fleb x y : fltb x y = true -> fleb x y = true.
Proof. unfold fltb, fleb. by destruct (SFcompare x y) as [[]|]. Qed.

Lemma fltb_trans x y z : fltb x y = true -> fltb y z = true -> fltb x z = true.
Proof. eauto using fltb_fleb, fleb_fltb_trans. Qed.

Lemma fltb_irrefl x : fltb x x = false.
Proof.
  unfold fltb. destruct x as [[]|[]| |[] m e]; try done;
    rewrite SFcompare_finite, Z.compare_refl, Pos.compare_refl; done.
Qed.

(** Except for NaN, [x < y] and [y <= x] are complementary. *)
Lemma fltb_negb_fleb x y :
  f_is_nan x = false -> f_is_nan y = false -> fltb x y = negb (fleb y x).
Proof.
  unfold fltb, fleb.
  destruct x as [[]|[]| |[] mx ex], y as [[]|[]| |[] my ey]; simpl; try done; intros _ _;
    change Pos.compare_cont with (Pos.compare_cont);
    rewrite ?(Z.compare_antisym ex ey); destruct (ex ?= ey); simpl; try done;
    change (PosDef.Pos.compare_cont Eq mx my) with (mx ?= my)%positive;
    change (PosDef.Pos.compare_cont Eq my mx) with (my ?= mx)%positive;
    rewrite (Pos.compare_antisym mx my); by destruct (mx ?= my)%positive.
Qed.

(** ** Signs

    Rounding keeps the sign, so sums and quotients of values that are not
    positive behave as over the reals. *)

Definition nonpos (x : f64) : Prop :=
  match x with S754_finite s _ _ | S754_infinity s => s = true | _ => True end.

Lemma round_nonpos mx ex lx : nonpos (binary_round_aux 53 1024 true mx ex lx).
Proof.
  unfold binary_round_aux. destruct (shr_fexp _ _ mx ex lx) as [m1 e1].
  destruct (shr_fexp _ _ _ _ _) as [m2 e2]. destruct (shr_m m2); simpl; try done.
  by destruct (_ <=? _).
Qed.

Lemma normalize_nonpos m e : m <= 0 -> nonpos (binary_normalize 53 1024 m e false).
Proof.
  intros Hm. destruct m as [|p|p]; simpl; [done|lia|]. unfold binary_round.
  destruct (shl_align _ _ _). apply round_nonpos.
Qed.

Lemma fadd_nonpos x y : nonpos x -> nonpos y -> nonpos (fadd x y).
Proof.
  destruct x as [[]|[]| |[] mx ex], y as [[]|[]| |[] my ey]; try done; intros _ _.
  unfold fadd, SFadd. cbv zeta. apply normalize_nonpos. simpl. lia.
Qed.

Lemma fdiv_nonpos x m e : nonpos x -> nonpos (fdiv x (S754_finite false m e)).
Proof.
  destruct x as [[]|[]| |[] mx ex]; try done; intros _. unfold fdiv, SFdiv.
  destruct (SFdiv_core_binary _ _ _ _ _ _) as [[mz ez] lz]. apply round_nonpos.
Qed.

Lemma f64_to_int64_nonpos x : nonpos x -> f64_to_int64 x <= 0.
Proof.
  intros H. unfold f64_to_int64. assert (int64_min <= 0) by done.
  destruct (f64_trunc x) as [z|] eqn:E; [|done]. destruct (in_int64 z); [|done].
  destruct x as [[]|[]| |[] m e]; try done; injection E as <-; try done.
  assert (0 <= if 0 <=? e then Z.pos m * 2 ^ e else Z.pos m / 2 ^ (- e)); [|lia].
  destruct (Z.leb_spec 0 e).
  - apply Z.mul_nonneg_nonneg; [lia|]. apply Z.pow_nonneg. lia.
  - apply Z.div_pos; [lia|]. apply Z.pow_pos_nonneg; lia.
Qed.

Lemma f64_of_Z_nonpos n : n <= 0 -> nonpos (f64_of_Z n).
Proof. apply normalize_nonpos. Qed.
