(* ===== verification/GoTime.v ===== *)
(** * Time: what the program uses of the Go package [time]

    A [time.Time] is its instant, in nanoseconds since the Unix epoch; the
    location a Go value carries is passed where it is used.  Civil dates are
    those of the proleptic Gregorian calendar.  A location is its zone lookup
    (offset in force at a UTC second and the bounds of that zone), which is
    the interface [time.Date] itself relies on; the zone database behind
    [time.LoadLocation] belongs to the host and is an argument. *)

From S2P Require Import Prelude.
Local Open Scope Z_scope.

Abbreviation time := Z (only parsing).
Abbreviation duration := Z (only parsing).

Definition second : duration := 10 ^ 9.
Definition minute : duration := 60 * second.
Definition hour : duration := 60 * minute.

Definition unix_sec (t : time) : Z := t / second.
Definition of_unix (s : Z) : time := s * second.

(** The zero [time.Time], January 1 of year 1 UTC. *)
Definition zero_time : time := of_unix (-62135596800).
Definition IsZero (t : time) : bool := t =? zero_time.
Definition Before (t u : time) : bool := t <? u.
Definition After (t u : time) : bool := u <? t.

(** [t.Sub(u)] saturates at the limits of [time.Duration]. *)
Definition Sub (t u : time) : duration := Z.max int64_min (Z.min int64_max (t - u)).

(** ** The calendar *)

(** Days since 1970-01-01 of a civil date; [d] may be out of the month, as
    [time.Date] allows.  Years begin in March. *)
Definition days_from_civil (y m d : Z) : Z :=
  let y' := if m <=? 2 then y - 1 else y in
  let era := y' / 400 in
  let yoe := y' mod 400 in
  let mp := (m + 9) mod 12 in
  era * 146097 + yoe * 365 + yoe / 4 - yoe / 100 + (153 * mp + 2) / 5 + (d - 1) - 719468.

Definition civil_from_days (z : Z) : Z * Z * Z :=
  let z' := z + 719468 in
  let era := z' / 146097 in
  let doe := z' mod 146097 in
  let n100 := Z.min (doe / 36524) 3 in
  let r1 := doe - n100 * 36524 in
  let n4 := r1 / 1461 in
  let r2 := r1 - n4 * 1461 in
  let n1 := Z.min (r2 / 365) 3 in
  let doy := r2 - n1 * 365 in
  let mp := (5 * doy + 2) / 153 in
  let m := if mp <? 10 then mp + 3 else mp - 9 in
  let y := era * 400 + 100 * n100 + 4 * n4 + n1 in
  ((if m <=? 2 then y + 1 else y), m, doy - (153 * mp + 2) / 5 + 1).

(** The calendar decomposition of a day count, with the ranges of its parts. *)
Lemma era_split z :
  let doe := (z + 719468) mod 146097 in
  let n100 := Z.min (doe / 36524) 3 in
  let n4 := (doe - n100 * 36524) / 1461 in
  let r2 := doe - n100 * 36524 - n4 * 1461 in
  let n1 := Z.min (r2 / 365) 3 in
  0 <= n100 <= 3 /\ 0 <= n4 <= 24 /\ 0 <= n1 <= 3 /\ 0 <= r2 - n1 * 365 <= 365.
Proof.
  intros doe n100 n4 r2 n1.
  assert (0 <= doe < 146097) as Hd by (apply Z.mod_pos_bound; lia).
  clearbody doe. subst n100 n4 r2 n1.
  Z.to_euclidean_division_equations. lia.
Qed.

Lemma yoe_quotients n100 n4 n1 :
  0 <= n100 <= 3 -> 0 <= n4 <= 24 -> 0 <= n1 <= 3 ->
  (100 * n100 + 4 * n4 + n1) / 4 = 25 * n100 + n4 /\
  (100 * n100 + 4 * n4 + n1) / 100 = n100.
Proof. intros. Z.to_euclidean_division_equations. lia. Qed.

Lemma days_civil_days z :
  let '(y, m, d) := civil_from_days z in days_from_civil y m d = z.
Proof.
  destruct (era_split z) as (H100 & H4 & H1 & Hy).
  unfold civil_from_days, days_from_civil. cbv zeta in *.
  set (doe := (z + 719468) mod 146097) in *.
  set (era := (z + 719468) / 146097).
  assert (z + 719468 = 146097 * era + doe) as Hz by (apply Z.div_mod; lia).
  set (n100 := Z.min (doe / 36524) 3) in *.
  set (n4 := (doe - n100 * 36524) / 1461) in *.
  set (n1 := Z.min ((doe - n100 * 36524 - n4 * 1461) / 365) 3) in *.
  set (doy := doe - n100 * 36524 - n4 * 1461 - n1 * 365) in *.
  set (mp := (5 * doy + 2) / 153).
  assert (0 <= mp <= 11) as Hmp
    by (subst mp; Z.to_euclidean_division_equations; lia).
  set (yoe := 100 * n100 + 4 * n4 + n1).
  destruct (yoe_quotients n100 n4 n1) as [Hq4 Hq100]; [done..|]. fold yoe in Hq4, Hq100.
  assert (0 <= yoe < 400) as Hyoe by (subst yoe; lia).
  set (m := if mp <? 10 then mp + 3 else mp - 9).
  assert ((m + 9) mod 12 = mp) as Hm.
  { subst m. destruct (Z.ltb_spec mp 10).
    - replace (mp + 3 + 9) with (mp + 1 * 12) by lia.
      rewrite Z.mod_add by lia. apply Z.mod_small; lia.
    - replace (mp - 9 + 9) with mp by lia. apply Z.mod_small; lia. }
  set (y := era * 400 + 100 * n100 + 4 * n4 + n1).
  assert ((if m <=? 2 then (if m <=? 2 then y + 1 else y) - 1
           else if m <=? 2 then y + 1 else y) = era * 400 + yoe) as ->.
  { subst y yoe. destruct (m <=? 2); lia. }
  rewrite Hm.
  replace ((era * 400 + yoe) / 400) with era
    by (rewrite Z.add_comm, Z.div_add by lia; rewrite Z.div_small; lia).
  replace ((era * 400 + yoe) mod 400) with yoe
    by (rewrite Z.add_comm, Z.mod_add by lia; rewrite Z.mod_small; lia).
  rewrite Hq4, Hq100. subst yoe doy. lia.
Qed.

Lemma days_from_civil_add y m d k : days_from_civil y m (d + k) = days_from_civil y m d + k.
Proof. unfold days_from_civil. lia. Qed.

Definition is_leap (y : Z) : bool :=
  (y mod 4 =? 0) && (negb (y mod 100 =? 0) || (y mod 400 =? 0)).

Definition days_in (m y : Z) : Z :=
  if m =? 2 then (if is_leap y then 29 else 28)
  else if (m =? 4) || (m =? 6) || (m =? 9) || (m =? 11) then 30 else 31.

(** ** Locations *)

Record Location := mkLocation {
  zone_offset : Z -> Z;   (** seconds east of UTC in force at a UTC second *)
  zone_start : Z -> Z;    (** first second of that zone *)
  zone_end : Z -> Z;      (** first second after it *)
}.

Definition UTC : Location :=
  {| zone_offset := fun _ => 0; zone_start := fun _ => int64_min; zone_end := fun _ => int64_max |}.

(** [time.FixedZone]: one zone for ever. *)
Definition FixedZone (off : Z) : Location :=
  {| zone_offset := fun _ => off; zone_start := fun _ => int64_min;
     zone_end := fun _ => int64_max |}.

Definition LoadLocation (tzdb : string -> option Location) (name : string) : option Location :=
  if (name ==? "") || (name ==? "UTC") then Some UTC else tzdb name.

(** Local day number and second of the day of [t.In(loc)]. *)
Definition local_sec (loc : Location) (t : time) : Z := unix_sec t + zone_offset loc (unix_sec t).
Definition local_day (loc : Location) (t : time) : Z := local_sec loc t / 86400.
Definition local_tod (loc : Location) (t : time) : Z := local_sec loc t mod 86400.

(** [t.Date()] in [loc], and [int(t.Weekday())] (0 is Sunday). *)
Definition DateOf (loc : Location) (t : time) : Z * Z * Z := civil_from_days (local_day loc t).
Definition Weekday (loc : Location) (t : time) : Z := (local_day loc t + 4) mod 7.

(** [time.Date(y, m, d, h, mi, s, 0, loc)], with the standard library's
    adjustment from the wall clock to UTC. *)
Definition Date (loc : Location) (y m d h mi s : Z) : time :=
  let y' := y + (m - 1) / 12 in
  let m' := (m - 1) mod 12 + 1 in
  let wall := days_from_civil y' m' d * 86400 + h * 3600 + mi * 60 + s in
  let off := zone_offset loc wall in
  of_unix
    (if off =? 0 then wall
     else let utc := wall - off in
          if (utc <? zone_start loc wall) || (zone_end loc wall <=? utc)
          then wall - zone_offset loc utc else wall - off).

(** [t.AddDate(0, 0, n)] for [t] with no sub-second part. *)
Definition AddDays (loc : Location) (t : time) (n : Z) : time :=
  let '(y, m, d) := DateOf loc t in
  let tod := local_tod loc t in
  Date loc y m (d + n) (tod / 3600) (tod mod 3600 / 60) (tod mod 60).

(** [AddDate(0, 0, n)], keeping the fraction of a second. *)
Definition AddDate_days (loc : Location) (t : time) (n : Z) : time :=
  AddDays loc (t - t mod second) n + t mod second.

(** The midnight that begins the day of [t] in [loc]:
    [time.Date(t.Year(), t.Month(), t.Day(), 0, 0, 0, 0, loc)]. *)
Definition midnight (loc : Location) (t : time) : time :=
  let '(y, m, d) := DateOf loc t in Date loc y m d 0 0 0.

(** ** RFC 3339 text *)

Definition dec_digit (n : Z) : ascii := byte_of (48 + Z.to_nat n).

Arguments dec_digit : simpl never.
Arguments digit_val : simpl never.

Fixpoint dec_digits (w : nat) (n : Z) : string :=
  match w with
  | O => EmptyString
  | S w' => dec_digits w' (n / 10) +:+ String (dec_digit (n mod 10)) EmptyString
  end.

(** Zero-padded decimal: [w] digits when they are enough. *)
Definition pad (w : nat) (n : Z) : string :=
  if n <? 10 ^ Z.of_nat w then dec_digits w n else FormatInt n.

(** The zone of the layout: minutes, what is left of them dropped. *)
Definition zone_text (off : Z) : string :=
  if off =? 0 then "Z"
  else let z := Z.quot off 60 in
       (if z <? 0 then "-" else "+") +:+ pad 2 (Z.abs z / 60) +:+ ":" +:+ pad 2 (Z.abs z mod 60).

(** [t.Format(time.RFC3339)] of a [t] in [loc], and of [t.UTC()]. *)
Definition FormatRFC3339_in (loc : Location) (t : time) : string :=
  let '(y, m, d) := DateOf loc t in
  let tod := local_tod loc t in
  (if y <? 0 then "-" +:+ pad 4 (- y) else pad 4 y) +:+ "-" +:+ pad 2 m +:+ "-" +:+ pad 2 d
  +:+ "T" +:+ pad 2 (tod / 3600) +:+ ":" +:+ pad 2 (tod mod 3600 / 60) +:+ ":"
  +:+ pad 2 (tod mod 60) +:+ zone_text (zone_offset loc (unix_sec t)).

Definition FormatRFC3339 (t : time) : string := FormatRFC3339_in UTC t.

(** [getnum]: two digits, or one when not [fixed]. *)
Definition getnum (fixed : bool) (s : string) : option (Z * string) :=
  match s with
  | String a t =>
      match digit_val a with
      | None => None
      | Some x =>
          match t with
          | String b u =>
              match digit_val b with
              | Some y => Some (10 * x + y, u)
              | None => if fixed then None else Some (x, t)
              end
          | EmptyString => if fixed then None else Some (x, t)
          end
      end
  | EmptyString => None
  end.

Definition skip (c : ascii) (s : string) : option string :=
  match s with String a t => if decide (a = c) then Some t else None | EmptyString => None end.

Definition in_range (lo hi z : Z) : option unit :=
  if (lo <=? z) && (z <=? hi) then Some () else None.

Definition year4 (s : string) : option (Z * string) :=
  match s with
  | String a (String b (String c (String d t))) =>
      match digits_val 0 (String a (String b (String c (String d EmptyString)))) with
      | Some y => Some (y, t)
      | None => None
      end
  | _ => None
  end.

(** The fraction: any number of digits after a point or comma, nine kept. *)
Fixpoint fraction (n : nat) (scale acc : Z) (s : string) : Z * string :=
  match s with
  | String a t =>
      match digit_val a with
      | Some x => fraction (pred n) (match n with O => scale | S _ => scale / 10 end)
                    (match n with O => acc | S _ => acc + x * scale end) t
      | None => (acc, s)
      end
  | EmptyString => (acc, s)
  end.

Definition nanoseconds (s : string) : Z * string :=
  match s with
  | String c (String a _ as t) =>
      if (bool_decide (c = "."%char) || bool_decide (c = ","%char)) &&
         match digit_val a with Some _ => true | None => false end
      then fraction 9 (10 ^ 8) 0 t else (0, s)
  | _ => (0, s)
  end.

(** The offset read, [None] for the letter that stands for UTC. *)
Definition zone_suffix (s : string) : option (option Z * string) :=
  match s with
  | String "Z" t => Some (None, t)
  | String sgn t =>
      h ← getnum true t;
      u ← skip ":" h.2;
      m ← getnum true u;
      _ ← in_range 0 24 h.1;
      _ ← in_range 0 60 m.1;
      if decide (sgn = "+"%char) then Some (Some ((h.1 * 60 + m.1) * 60), m.2)
      else if decide (sgn = "-"%char) then Some (Some (- ((h.1 * 60 + m.1) * 60)), m.2)
      else None
  | EmptyString => None
  end.

(** [time.Parse(time.RFC3339, s)], also with the layout [time.RFC3339Nano]:
    the two layouts accept the same strings.  [None] is a non-nil error; the
    offset read comes with the instant. *)
Definition ParseRFC3339_zone (s : string) : option (time * option Z) :=
  y ← year4 s;
  s ← skip "-" y.2;
  m ← getnum true s;
  _ ← in_range 1 12 m.1;
  s ← skip "-" m.2;
  d ← getnum true s;
  s ← skip "T" d.2;
  h ← getnum false s;
  _ ← in_range 0 23 h.1;
  s ← skip ":" h.2;
  mi ← getnum true s;
  _ ← in_range 0 59 mi.1;
  s ← skip ":" mi.2;
  sec ← getnum true s;
  _ ← in_range 0 59 sec.1;
  let '(ns, s) := nanoseconds sec.2 in
  z ← zone_suffix s;
  _ ← in_range 1 (days_in m.1 y.1) d.1;
  match z.2 with
  | EmptyString => Some (Date UTC y.1 m.1 d.1 h.1 mi.1 sec.1 + ns - of_unix (default 0 z.1), z.1)
  | String _ _ => None
  end.

Definition ParseRFC3339 (s : string) : option time := fst <$> ParseRFC3339_zone s.

(** [time.Local]. *)
Class LocalZone := time_Local : Location.

(** The location of a parsed time: UTC for the letter, [time.Local] when its
    offset then is the one read, a zone of its own otherwise. *)
Definition parsed_location `{LocalZone} (t : time) (zone : option Z) : Location :=
  match zone with
  | None => UTC
  | Some off => if zone_offset time_Local (unix_sec t) =? off then time_Local else FixedZone off
  end.

Example rfc3339_ex :
  FormatRFC3339 (of_unix 1735689600) = "2025-01-01T00:00:00Z" /\
  ParseRFC3339 "2025-01-01T00:00:00Z" = Some (of_unix 1735689600) /\
  ParseRFC3339 "2025-01-01T08:00:00.5+08:00" = Some (of_unix 1735689600 + 5 * 10 ^ 8) /\
  ParseRFC3339 "2025-02-29T08:00:00Z" = None /\
  FormatRFC3339 zero_time = "0001-01-01T00:00:00Z" /\
  FormatRFC3339_in (FixedZone 28800) (of_unix 1735689600) = "2025-01-01T08:00:00+08:00" /\
  FormatRFC3339_in (FixedZone (-12600)) (of_unix 1735689600) = "2024-12-31T20:30:00-03:30" /\
  Weekday UTC (of_unix 1735689600) = 3.
Proof. vm_compute. repeat split. Qed.

(** ** Round trip of the textual form *)

(** The ranges of the parts of a civil date. *)
Lemma civil_ranges z :
  let '(y, m, d) := civil_from_days z in 1 <= m <= 12 /\ 1 <= d <= days_in m y.
Proof.
  destruct (era_split z) as (H100 & H4 & H1 & Hy).
  unfold civil_from_days. cbv zeta in *.
  assert (0 <= (z + 719468) mod 146097 < 146097) as Hd by (apply Z.mod_pos_bound; lia).
  set (era := (z + 719468) / 146097). clearbody era.
  set (doe := (z + 719468) mod 146097) in *. clearbody doe.
  set (n100 := Z.min (doe / 36524) 3) in *.
  set (r1 := doe - n100 * 36524) in *.
  set (n4 := r1 / 1461) in *.
  set (r2 := r1 - n4 * 1461) in *.
  set (n1 := Z.min (r2 / 365) 3) in *.
  set (doy := r2 - n1 * 365) in *.
  set (yoe := 100 * n100 + 4 * n4 + n1).
  (* the leap day exists only in the last year of a leap cycle *)
  assert (doy = 365 -> n1 = 3 /\ (n4 = 24 -> n100 = 3)) as Hleap.
  { subst doy n1 r2 n4 r1 n100. clear yoe. intros.
    Z.to_euclidean_division_equations. lia. }
  assert (0 <= (5 * doy + 2) / 153 <= 11) as Hmp
    by (Z.to_euclidean_division_equations; lia).
  replace (era * 400 + 100 * n100 + 4 * n4 + n1) with (era * 400 + yoe) by (subst yoe; lia).
  assert (doy = 365 -> is_leap (era * 400 + yoe + 1) = true) as Hl.
  { intros H. destruct (Hleap H) as [-> Hc]. unfold is_leap. subst yoe.
    replace ((era * 400 + (100 * n100 + 4 * n4 + 3) + 1) mod 4) with 0
      by (Z.to_euclidean_division_equations; lia).
    destruct (Z.eq_dec n4 24) as [->|Hn].
    - rewrite (Hc eq_refl).
      replace ((era * 400 + (100 * 3 + 4 * 24 + 3) + 1) mod 400) with 0
        by (Z.to_euclidean_division_equations; lia).
      by rewrite orb_true_r.
    - destruct (Z.eqb_spec ((era * 400 + (100 * n100 + 4 * n4 + 3) + 1) mod 100) 0) as [E|E];
        [|done]. exfalso. Z.to_euclidean_division_equations. lia. }
  clearbody doy yoe n1 n4 n100. clear Hleap H100 H4 H1 Hd.
  set (mp := (5 * doy + 2) / 153) in *.
  assert (153 * mp <= 5 * doy + 2 < 153 * mp + 153) as Hdoy
    by (subst mp; Z.to_euclidean_division_equations; lia).
  clearbody mp.
  assert (mp = 0 \/ mp = 1 \/ mp = 2 \/ mp = 3 \/ mp = 4 \/ mp = 5 \/ mp = 6 \/ mp = 7 \/
          mp = 8 \/ mp = 9 \/ mp = 10 \/ mp = 11) as Hcase by lia.
  repeat (destruct Hcase as [->|Hcase]); [..|subst mp]; simpl;
    unfold days_in; simpl; try (Z.to_euclidean_division_equations; lia).
  destruct (Z.eq_dec doy 365) as [->|Hne].
  - specialize (Hl eq_refl). simpl in Hl. rewrite Hl.
    Z.to_euclidean_division_equations; lia.
  - destruct (is_leap _); Z.to_euclidean_division_equations; lia.
Qed.

Lemma digit_val_dec n : 0 <= n <= 9 -> digit_val (dec_digit n) = Some n.
Proof.
  intros H.
  assert (n ∈ seqZ 0 10) as Hc by (apply elem_of_seqZ; lia).
  clear H. revert Hc. apply (proj1 (Forall_forall (fun k => digit_val (dec_digit k) = Some k) _)).
  change (seqZ 0 10) with [0; 1; 2; 3; 4; 5; 6; 7; 8; 9]. repeat constructor.
Qed.

Lemma dec_digits_2 n t :
  dec_digits 2 n +:+ t = String (dec_digit (n / 10 mod 10)) (String (dec_digit (n mod 10)) t).
Proof. reflexivity. Qed.

Lemma dec_digits_4 n t :
  dec_digits 4 n +:+ t =
  String (dec_digit (n / 10 / 10 / 10 mod 10)) (String (dec_digit (n / 10 / 10 mod 10))
    (String (dec_digit (n / 10 mod 10)) (String (dec_digit (n mod 10)) t))).
Proof. reflexivity. Qed.

Ltac digit_bounds := Z.to_euclidean_division_equations; lia.

Lemma getnum_pad fixed n t : 0 <= n < 100 -> getnum fixed (pad 2 n +:+ t) = Some (n, t).
Proof.
  intros H. unfold pad. rewrite (proj2 (Z.ltb_lt _ _)) by (simpl; lia).
  rewrite dec_digits_2. unfold getnum. rewrite !digit_val_dec by digit_bounds.
  do 2 f_equal. digit_bounds.
Qed.

Lemma year4_pad n t : 0 <= n < 10000 -> year4 (pad 4 n +:+ t) = Some (n, t).
Proof.
  intros H. unfold pad. rewrite (proj2 (Z.ltb_lt _ _)) by (simpl; lia).
  rewrite dec_digits_4. unfold year4, digits_val. rewrite !digit_val_dec by digit_bounds.
  do 2 f_equal. digit_bounds.
Qed.

Lemma app_assoc_string (s t u : string) : (s +:+ t) +:+ u = s +:+ (t +:+ u).
Proof. unfold String.app. induction s; simpl; congruence. Qed.

Lemma skip_lit c t : skip c (String c EmptyString +:+ t) = Some t.
Proof. unfold skip, String.app. simpl. by rewrite decide_True. Qed.

Lemma in_range_ok lo hi z : lo <= z <= hi -> in_range lo hi z = Some ().
Proof. intros. unfold in_range. by rewrite !(proj2 (Z.leb_le _ _)) by lia. Qed.

(** Years the four-digit form can carry. *)
Definition year_in (loc : Location) (t : time) : Z := (DateOf loc t).1.1.
Definition year_of (t : time) : Z := year_in UTC t.

Lemma Date_UTC y m d h mi s :
  1 <= m <= 12 ->
  Date UTC y m d h mi s = of_unix (days_from_civil y m d * 86400 + h * 3600 + mi * 60 + s).
Proof.
  intros H. unfold Date. simpl.
  rewrite (Z.div_small (m - 1) 12) by lia. rewrite (Z.mod_small (m - 1) 12) by lia.
  rewrite Z.add_0_r. by replace (m - 1 + 1) with m by lia.
Qed.

(** Zones the text can carry: whole minutes, less than a day. *)
Definition whole_minutes (off : Z) : Prop := off mod 60 = 0 /\ -86400 < off < 86400.

Lemma zone_suffix_text off :
  whole_minutes off -> zone_suffix (zone_text off) = Some (if off =? 0 then None else Some off, "").
Proof.
  intros [H60 Hr]. unfold zone_text. destruct (Z.eqb_spec off 0) as [->|Hne]; [done|]. cbv zeta.
  assert (off = Z.quot off 60 * 60) as Hoff by (Z.to_euclidean_division_equations; lia).
  set (z := Z.quot off 60) in *. clearbody z.
  assert (0 <= Z.abs z / 60 <= 23 /\ 0 <= Z.abs z mod 60 <= 59 /\
          Z.abs z / 60 * 60 + Z.abs z mod 60 = Z.abs z) as (Hh & Hm & Hz)
    by (Z.to_euclidean_division_equations; lia).
  assert (pad 2 (Z.abs z mod 60) = pad 2 (Z.abs z mod 60) +:+ "") as ->.
  { generalize (pad 2 (Z.abs z mod 60)). clear. unfold String.app. intros s. induction s; simpl; congruence. }
  destruct (Z.ltb_spec z 0);
    match goal with |- context [String ?c EmptyString +:+ ?u] =>
      change (zone_suffix (String c EmptyString +:+ u)) with (zone_suffix (String c u)) end;
    unfold zone_suffix;
    rewrite getnum_pad by lia; cbn [mbind option_bind fst snd];
    rewrite skip_lit; cbn [mbind option_bind fst snd];
    rewrite getnum_pad by lia; cbn [mbind option_bind fst snd];
    rewrite !in_range_ok by lia; cbn [mbind option_bind fst snd]; simpl; do 3 f_equal; lia.
Qed.

Lemma no_fraction c t :
  c <> "."%char -> c <> ","%char -> nanoseconds (String c t) = (0, String c t).
Proof. intros. unfold nanoseconds. destruct t; [done|]. by rewrite !bool_decide_false by done. Qed.

(** The text read back: the instant, and the offset of its zone. *)
Lemma parse_format_zone loc t :
  t mod second = 0 -> 0 <= year_in loc t < 10000 -> whole_minutes (zone_offset loc (unix_sec t)) ->
  ParseRFC3339_zone (FormatRFC3339_in loc t) =
  Some (t, if zone_offset loc (unix_sec t) =? 0 then None else Some (zone_offset loc (unix_sec t))).
Proof.
  intros Hs Hy Hoff. unfold year_in in Hy. unfold FormatRFC3339_in.
  pose proof (civil_ranges (local_day loc t)) as Hr.
  pose proof (days_civil_days (local_day loc t)) as Hd.
  unfold DateOf in *. destruct (civil_from_days (local_day loc t)) as [[y m] d]; simpl in Hy.
  destruct Hr as [Hm Hdd].
  assert (days_in m y <= 31) as Hdi
    by (unfold days_in; repeat case_match; lia).
  unfold local_tod. unfold local_day in Hd. unfold local_sec in *.
  set (off := zone_offset loc (unix_sec t)) in *. set (tod := (unix_sec t + off) mod 86400).
  assert (0 <= tod < 86400) as Htod by (apply Z.mod_pos_bound; lia).
  rewrite (proj2 (Z.ltb_ge y 0)) by lia.
  assert (0 <= tod / 3600 <= 23 /\ 0 <= tod mod 3600 / 60 <= 59 /\ 0 <= tod mod 60 <= 59)
    as (Hh & Hmi & Hse) by (Z.to_euclidean_division_equations; lia).
  unfold ParseRFC3339_zone. rewrite year4_pad by lia.
  cbn [mbind option_bind fst snd].
  repeat (first [rewrite skip_lit | rewrite getnum_pad by lia | rewrite in_range_ok by lia];
          cbn [mbind option_bind fst snd]).
  assert (nanoseconds (zone_text off) = (0, zone_text off)) as ->.
  { unfold zone_text. destruct (off =? 0); [done|]. by destruct (Z.quot off 60 <? 0); apply no_fraction. }
  rewrite zone_suffix_text by done. cbn [mbind option_bind fst snd].
  assert (default 0 (if off =? 0 then None else Some off) = off) as ->
    by (destruct (Z.eqb_spec off 0) as [->|]; done).
  rewrite Date_UTC by lia. do 2 f_equal. rewrite Hd.
  assert (t = second * unix_sec t + 0) as Hts
    by (unfold unix_sec; rewrite <- Hs; apply Z.div_mod; done).
  unfold of_unix. replace ((unix_sec t + off) / 86400 * 86400 + tod / 3600 * 3600
    + tod mod 3600 / 60 * 60 + tod mod 60) with (unix_sec t + off); [lia|].
  subst tod. clear. Z.to_euclidean_division_equations. lia.
Qed.

Lemma parse_format_RFC3339 t :
  t mod second = 0 -> 0 <= year_of t < 10000 -> ParseRFC3339 (FormatRFC3339 t) = Some t.
Proof.
  intros Hs Hy. unfold ParseRFC3339, FormatRFC3339. rewrite parse_format_zone; [done..|]. by split.
Qed.

(** ** Wall clocks in a location whose offset does not change *)

(** [steady loc lo hi off]: the offset is [off] at every UTC second of the
    interval. *)
Definition steady (loc : Location) (lo hi off : Z) : Prop :=
  forall s, lo <= s <= hi -> zone_offset loc s = off.

Lemma steady_FixedZone lo hi off : steady (FixedZone off) lo hi off.
Proof. by intros s _. Qed.

Lemma steady_UTC lo hi : steady UTC lo hi 0.
Proof. by intros s _. Qed.

#[export] Hint Resolve steady_FixedZone steady_UTC : go.

Lemma Date_steady loc lo hi off y m d h mi s :
  steady loc lo hi off -> 1 <= m <= 12 ->
  let wall := days_from_civil y m d * 86400 + h * 3600 + mi * 60 + s in
  lo <= wall <= hi -> lo <= wall - off <= hi ->
  Date loc y m d h mi s = of_unix (wall - off).
Proof.
  intros Hst Hm wall H1 H2. unfold Date.
  rewrite (Z.div_small (m - 1) 12) by lia. rewrite (Z.mod_small (m - 1) 12) by lia.
  rewrite Z.add_0_r. replace (m - 1 + 1) with m by lia. fold wall.
  rewrite (Hst wall) by done. destruct (Z.eqb_spec off 0) as [->|].
  - f_equal. lia.
  - rewrite (Hst (wall - off)) by done. by destruct (_ || _).
Qed.

Definition day : duration := 24 * hour.

(** A stretch of time over which the location keeps its offset, with three days
    of margin on either side. *)
Record calm (loc : Location) (lo hi off : Z) : Prop := {
  calm_steady : steady loc lo hi off;
  calm_off : -86400 <= off <= 86400;
}.

Definition inside (lo hi : Z) (t : time) : Prop := lo + 259200 <= unix_sec t <= hi - 259200.

Lemma calm_UTC lo hi : calm UTC lo hi 0.
Proof. split; [apply steady_UTC|lia]. Qed.

Lemma calm_FixedZone lo hi off : -86400 <= off <= 86400 -> calm (FixedZone off) lo hi off.
Proof. split; [apply steady_FixedZone|done]. Qed.

#[export] Hint Resolve calm_UTC calm_FixedZone : go.

Lemma local_sec_calm loc lo hi off t :
  calm loc lo hi off -> inside lo hi t -> local_sec loc t = unix_sec t + off.
Proof. intros [Hs _] Ht. unfold local_sec. rewrite (Hs (unix_sec t)); [done|]. unfold inside in Ht. lia. Qed.

(** The calendar day a second belongs to, and back. *)
Lemma Date_of_day loc lo hi off k n tod :
  calm loc lo hi off -> 0 <= tod < 86400 -> lo + 86400 <= (k + n) * 86400 + tod <= hi - 86400 ->
  (let '(y, m, d) := civil_from_days k in
   Date loc y m (d + n) (tod / 3600) (tod mod 3600 / 60) (tod mod 60)) =
  of_unix ((k + n) * 86400 + tod - off).
Proof.
  intros [Hs Ho] Htod Hr. pose proof (civil_ranges k) as Hc. pose proof (days_civil_days k) as Hk.
  destruct (civil_from_days k) as [[y m] d].
  assert (tod / 3600 * 3600 + tod mod 3600 / 60 * 60 + tod mod 60 = tod) as E
    by (Z.to_euclidean_division_equations; lia).
  erewrite Date_steady; [f_equal|exact Hs|lia|..]; rewrite days_from_civil_add, Hk; lia.
Qed.

Lemma AddDate_days_calm loc lo hi off t n :
  calm loc lo hi off -> inside lo hi t -> inside lo hi (t + n * day) ->
  AddDate_days loc t n = t + n * day.
Proof.
  intros Hc Ht Hn. unfold AddDate_days, AddDays, DateOf, local_day, local_tod.
  assert (unix_sec (t - t mod second) = unix_sec t) as E0
    by (unfold unix_sec, second; Z.to_euclidean_division_equations; lia).
  rewrite (local_sec_calm _ _ _ _ (t - t mod second) Hc), E0 by (unfold inside in *; by rewrite E0).
  set (l := unix_sec t + off).
  assert (l = l / 86400 * 86400 + l mod 86400) as El by (Z.to_euclidean_division_equations; lia).
  pose proof (Z.mod_pos_bound l 86400 ltac:(lia)) as Hb.
  assert (unix_sec (t + n * day) = unix_sec t + n * 86400) as Eu.
  { unfold unix_sec, day, hour, minute. replace (t + n * (24 * (60 * (60 * second))))
      with (t + n * 86400 * second) by lia. apply Z.div_add. done. }
  pose proof (calm_off _ _ _ _ Hc) as Ho. unfold inside in *. rewrite Eu in Hn.
  pose proof (Date_of_day loc lo hi off (l / 86400) n (l mod 86400) Hc ltac:(lia) ltac:(lia)) as E.
  destruct (civil_from_days (l / 86400)) as [[y m] d]. cbv zeta. rewrite E.
  replace ((l / 86400 + n) * 86400 + l mod 86400 - off) with (unix_sec t + n * 86400) by lia.
  unfold of_unix, unix_sec, day, hour, minute. unfold second. Z.to_euclidean_division_equations. lia.
Qed.

(** Midnight, as a rounding of the local clock. *)
Definition day_floor (off : Z) (t : time) : time := (t + off * second) / day * day - off * second.

Lemma midnight_calm loc lo hi off t :
  calm loc lo hi off -> inside lo hi t -> midnight loc t = day_floor off t.
Proof.
  intros Hc Ht. unfold midnight, DateOf, local_day. rewrite (local_sec_calm _ _ _ _ _ Hc Ht).
  pose proof (calm_off _ _ _ _ Hc) as Ho. unfold inside in Ht. set (l := unix_sec t + off).
  assert (l / 86400 * 86400 <= l < l / 86400 * 86400 + 86400) as Hl
    by (Z.to_euclidean_division_equations; lia).
  assert (lo + 86400 <= (l / 86400 + 0) * 86400 + 0 <= hi - 86400) as Hr by (unfold l in *; lia).
  pose proof (Date_of_day loc lo hi off (l / 86400) 0 0 Hc ltac:(lia) Hr) as E.
  destruct (civil_from_days (l / 86400)) as [[y m] d]. rewrite Z.add_0_r in E.
  change (0 / 3600) with 0 in E. change (0 mod 3600 / 60) with 0 in E. change (0 mod 60) with 0 in E.
  rewrite E. unfold day_floor, of_unix.
  assert ((t + off * second) / day = l / 86400) as ->.
  { subst l. unfold unix_sec, day, hour, minute. rewrite <- Z.div_add by done.
    replace (24 * (60 * (60 * second))) with (second * 86400) by lia. symmetry. by apply Z.div_div. }
  unfold day, hour, minute. lia.
Qed.

Lemma day_floor_bounds off t : day_floor off t <= t < day_floor off t + day.
Proof. unfold day_floor, day, hour, minute, second. Z.to_euclidean_division_equations. lia. Qed.

Lemma day_floor_add off t n : day_floor off (t + n * day) = day_floor off t + n * day.
Proof.
  unfold day_floor. replace (t + n * day + off * second) with (t + off * second + n * day) by lia.
  rewrite Z.div_add by done. lia.
Qed.

Lemma day_floor_mono off t u : t <= u -> day_floor off t <= day_floor off u.
Proof.
  intros H. unfold day_floor. assert ((t + off * second) / day <= (u + off * second) / day); [|unfold day, hour, minute, second in *; lia].
  apply Z.div_le_mono; [done|lia].
Qed.

(** A day later than [u]'s begins exactly when the clock has passed [u]'s next midnight. *)
Lemma day_floor_lt off t u : day_floor off u < day_floor off t <-> day_floor off u + day <= t.
Proof. unfold day_floor, day, hour, minute, second. Z.to_euclidean_division_equations. lia. Qed.

Lemma inside_between lo hi t u v : inside lo hi t -> inside lo hi v -> t <= u <= v -> inside lo hi u.
Proof.
  unfold inside, unix_sec. intros ? ? [? ?].
  assert (t / second <= u / second <= v / second); [|lia]. split; by apply Z.div_le_mono.
Qed.
