(* ===== verification/GoAny.v ===== *)
(** * Dynamic values: the Go type [any] as the program meets it

    Account credentials and extras are [map[string]any]; their values come
    from JSON or from Go code.  [any] has one constructor per dynamic type the
    program tests for, and [AOther] for every other type. *)

From S2P Require Import Prelude Float64.
Local Open Scope Z_scope.

Inductive any :=
| ANil
| ABool (b : bool)
| AString (s : string)
| AInt (n : Z)                      (** int *)
| AInt64 (n : Z)                    (** int64 *)
| AFloat64 (f : f64)
| AFloat32 (f : f64)                (** a float32, held as the float64 it converts to *)
| ANumber (s : string)              (** json.Number *)
| AList (l : list any)              (** []any *)
| AStrings (l : list string)        (** []string *)
| AMap (m : gmap string any)        (** map[string]any *)
| AMapString (m : gmap string string)
| AMapBool (m : gmap string bool)
| AOther.

(** A [map[string]any] variable: [None] is the nil map, which reads as empty. *)
Abbreviation anymap := (option (gmap string any)).

(** [v, ok := m[k]]. *)
Definition lookup_key (m : anymap) (k : string) : option any :=
  match m with Some m' => m' !! k | None => None end.

(** [m[k]]: the nil interface when the key is absent. *)
Definition index_key (m : anymap) (k : string) : any := default ANil (lookup_key m k).

(** Type assertions [v.(T)]. *)
Definition as_bool (v : any) : option bool := match v with ABool b => Some b | _ => None end.
Definition as_string (v : any) : option string := match v with AString s => Some s | _ => None end.
Definition as_map (v : any) : option (gmap string any) := match v with AMap m => Some m | _ => None end.
Definition as_list (v : any) : option (list any) := match v with AList l => Some l | _ => None end.

(** [b, ok := m[k].(bool); ok && b]. *)
Definition flag (m : anymap) (k : string) : bool := default false (as_bool (index_key m k)).

(** [s, _ := m[k].(string)]. *)
Definition text (m : anymap) (k : string) : string := default "" (as_string (index_key m k)).

(** [json.Number]'s conversions; [None] is a non-nil error. *)
Definition number_Int64 (s : string) : option Z := ParseInt s.
Definition number_Float64 (s : string) : option f64 := ParseFloat s.

(** The integer reading shared by the configuration parsers ([int], [int64],
    [float64], [json.Number], numeric text), with the value used when the
    dynamic type or the text does not give one. *)
Definition int_of_any (dflt : Z) (v : any) : Z :=
  match v with
  | AInt n | AInt64 n => n
  | AFloat64 f => f64_to_int64 f
  | ANumber s => default dflt (number_Int64 s)
  | AString s => default dflt (ParseInt (TrimSpace s))
  | _ => dflt
  end.

Lemma index_key_insert m k v k' :
  index_key (Some (<[k := v]> m)) k' = if decide (k = k') then v else index_key (Some m) k'.
Proof.
  unfold index_key, lookup_key. destruct (decide (k = k')) as [->|].
  - by rewrite lookup_insert_eq.
  - by rewrite lookup_insert_ne.
Qed.

Lemma index_key_insert_ne m k v k' :
  k <> k' -> index_key (Some (<[k := v]> m)) k' = index_key (Some m) k'.
Proof. intros. rewrite index_key_insert. by rewrite decide_False. Qed.

Lemma index_key_insert_eq m k v : index_key (Some (<[k := v]> m)) k = v.
Proof. rewrite index_key_insert. by rewrite decide_True. Qed.

Lemma index_key_delete_ne m k k' :
  k <> k' -> index_key (Some (delete k m)) k' = index_key (Some m) k'.
Proof. intros. unfold index_key, lookup_key. by rewrite lookup_delete_ne. Qed.

