(* ===== verification/Account.v ===== *)
(** * Accounts: internal/service/account.go, the configuration readers

    The account record and the functions of account.go that read its
    credentials and extras: account kinds, credential values, pool mode,
    custom error codes, temporary-unschedulable rules and the per-account
    switches.  Receivers are non-nil, so the source's [a == nil] guards have
    no counterpart; [Credentials] and [Extra] keep their nil map. *)

From S2P Require Import Prelude Float64 GoTime GoAny.
Local Open Scope Z_scope.

(** ** Constants (internal/domain/constants.go) *)

Definition StatusActive := "active".
Definition PlatformAnthropic := "anthropic".
Definition PlatformOpenAI := "openai".
Definition PlatformGemini := "gemini".
Definition PlatformAntigravity := "antigravity".
Definition PlatformGrok := "grok".
Definition PlatformKimi := "kimi".
Definition PlatformZhipu := "zhipu".
Definition PlatformDeepseek := "deepseek".
Definition AccountTypeOAuth := "oauth".
Definition AccountTypeSetupToken := "setup-token".
Definition AccountTypeAPIKey := "apikey".
Definition AccountTypeUpstream := "upstream".
Definition AccountTypeBedrock := "bedrock".

(** ** The record *)

Record Account := mkAccount {
  ID : Z;
  Platform : string;
  AType : string;                       (** the field [Type] *)
  Credentials : anymap;
  Extra : anymap;
  Concurrency : Z;
  Priority : Z;
  RateMultiplier : option f64;
  LoadFactor : option Z;
  Status : string;
  ExpiresAt : option time;
  AutoPauseOnExpired : bool;
  Schedulable : bool;
  RateLimitResetAt : option time;
  OverloadUntil : option time;
  TempUnschedulableUntil : option time;
  SessionWindowStart : option time;
  SessionWindowEnd : option time;
  ParentAccountID : option Z;
  QuotaDimension : string;
  LastUsedAt : option time;
  AccountGroups : list Z;               (** the [GroupID]s of [AccountGroups] *)
}.

(** ** Account kinds *)

Definition IsActive (a : Account) : bool := Status a ==? StatusActive.

Definition IsSyntheticUITest (a : Account) : bool := flag (Extra a) "synthetic_ui_test".

Definition BillingRateMultiplier (a : Account) : f64 :=
  match RateMultiplier a with
  | None => f1
  | Some m => if fltb m f0 then f1 else m
  end.

Definition EffectiveLoadFactor (a : Account) : Z :=
  match LoadFactor a with
  | Some l => if 0 <? l then l else if 0 <? Concurrency a then Concurrency a else 1
  | None => if 0 <? Concurrency a then Concurrency a else 1
  end.

Definition IsOAuth (a : Account) : bool :=
  (AType a ==? AccountTypeOAuth) || (AType a ==? AccountTypeSetupToken).

Definition IsAPIKeyOrBedrock (a : Account) : bool :=
  (AType a ==? AccountTypeAPIKey) || (AType a ==? AccountTypeBedrock).

Definition IsGemini (a : Account) : bool := Platform a ==? PlatformGemini.
Definition IsGrok (a : Account) : bool := Platform a ==? PlatformGrok.
Definition IsGrokOAuth (a : Account) : bool := IsGrok a && (AType a ==? AccountTypeOAuth).
Definition IsKimi (a : Account) : bool := Platform a ==? PlatformKimi.
Definition IsZhipu (a : Account) : bool := Platform a ==? PlatformZhipu.
Definition IsDeepseek (a : Account) : bool := Platform a ==? PlatformDeepseek.
Definition IsOpenAI (a : Account) : bool := Platform a ==? PlatformOpenAI.
Definition IsAnthropic (a : Account) : bool := Platform a ==? PlatformAnthropic.

Definition IsCNProviderPlatform (platform : string) : bool :=
  (platform ==? PlatformKimi) || (platform ==? PlatformZhipu) || (platform ==? PlatformDeepseek).

Definition IsCNProvider (a : Account) : bool := IsCNProviderPlatform (Platform a).

Definition IsOpenAICompatible (a : Account) : bool :=
  (Platform a ==? PlatformOpenAI) || (Platform a ==? PlatformGrok) ||
  (Platform a ==? PlatformKimi) || (Platform a ==? PlatformZhipu) ||
  (Platform a ==? PlatformDeepseek).

Definition CanGetUsage (a : Account) : bool := AType a ==? AccountTypeOAuth.

Definition IsBedrock (a : Account) : bool :=
  (Platform a ==? PlatformAnthropic) && (AType a ==? AccountTypeBedrock).

Definition IsOpenAIOAuth (a : Account) : bool := IsOpenAI a && (AType a ==? AccountTypeOAuth).

Definition IsOpenAIOAuthLike (a : Account) : bool :=
  IsOpenAI a && ((AType a ==? AccountTypeOAuth) || (AType a ==? AccountTypeSetupToken)).

Definition UsesOpenAICodexProtocol (a : Account) : bool :=
  (AType a ==? AccountTypeOAuth) || IsOpenAIOAuthLike a.

Definition IsOpenAIApiKey (a : Account) : bool := IsOpenAI a && (AType a ==? AccountTypeAPIKey).

Definition IsAnthropicOAuthOrSetupToken (a : Account) : bool :=
  (Platform a ==? PlatformAnthropic) &&
  ((AType a ==? AccountTypeOAuth) || (AType a ==? AccountTypeSetupToken)).

Definition IsShadow (a : Account) : bool :=
  match ParentAccountID a with Some _ => true | None => false end.

Definition IsCredentialShadow (a : Account) : bool := IsShadow a.

Definition QuotaDimensionGlobal := "global".

Definition QuotaDimensionOrDefault (a : Account) : string :=
  if TrimSpace (QuotaDimension a) ==? "" then QuotaDimensionGlobal else QuotaDimension a.

(** ** Credential values *)

Definition GetCredential (a : Account) (key : string) : string :=
  match index_key (Credentials a) key with
  | AString s => s
  | ANumber s => s
  | AFloat64 f => FormatInt (f64_to_int64 f)
  | AInt64 n | AInt n => FormatInt n
  | _ => ""
  end.

Definition GetCredentialAsTime (a : Account) (key : string) : option time :=
  let s := GetCredential a key in
  if s ==? "" then None
  else match ParseRFC3339 s with
       | Some t => Some t
       | None => match ParseInt s with
                 | Some ts => Some (of_unix ts)
                 | None => None
                 end
       end.

Definition GetCredentialAsInt64 (a : Account) (key : string) : Z :=
  int_of_any 0 (index_key (Credentials a) key).

Definition GetExtraString (a : Account) (key : string) : string :=
  match lookup_key (Extra a) key with
  | Some (AString s) => s
  | _ => ""
  end.

Definition getExtraString (a : Account) (key : string) : string :=
  match lookup_key (Extra a) key with
  | Some (AString s) => s
  | _ => ""
  end.

Definition getExtraStringDefault (a : Account) (key defaultVal : string) : string :=
  let v := getExtraString a key in if v !=? "" then v else defaultVal.

Definition getExtraBool (a : Account) (key : string) : bool :=
  match lookup_key (Extra a) key with
  | Some (ABool b) => b
  | _ => false
  end.

Definition PrivacyModeTrainingOff := "training_off".
Definition AntigravityPrivacySet := "privacy_set".

Definition IsPrivacySet (a : Account) : bool :=
  if Platform a ==? PlatformOpenAI then getExtraString a "privacy_mode" ==? PrivacyModeTrainingOff
  else if Platform a ==? PlatformAntigravity then
    getExtraString a "privacy_mode" ==? AntigravityPrivacySet
  else true.

Definition GeminiOAuthType (a : Account) : string :=
  if (Platform a !=? PlatformGemini) || (AType a !=? AccountTypeOAuth) then ""
  else let oauthType := TrimSpace (GetCredential a "oauth_type") in
       if (oauthType ==? "") && (TrimSpace (GetCredential a "project_id") !=? "")
       then "code_assist" else oauthType.

Definition GeminiTierID (a : Account) : string := TrimSpace (GetCredential a "tier_id").

Definition IsGeminiCodeAssist (a : Account) : bool :=
  if (Platform a !=? PlatformGemini) || (AType a !=? AccountTypeOAuth) then false
  else let oauthType := GeminiOAuthType a in
       if oauthType ==? "" then TrimSpace (GetCredential a "project_id") !=? ""
       else oauthType ==? "code_assist".

Definition IsGeminiGoogleOne (a : Account) : bool :=
  (Platform a ==? PlatformGemini) && (AType a ==? AccountTypeOAuth) &&
  (GeminiOAuthType a ==? "google_one").

Definition GetClaudeUserID (a : Account) : string :=
  let v := TrimSpace (GetExtraString a "claude_user_id") in
  if v !=? "" then v else
  let v := TrimSpace (GetExtraString a "anthropic_user_id") in
  if v !=? "" then v else
  let v := TrimSpace (GetCredential a "claude_user_id") in
  if v !=? "" then v else
  let v := TrimSpace (GetCredential a "anthropic_user_id") in
  if v !=? "" then v else "".

Definition normalizeAccountNotes (value : option string) : option string :=
  match value with
  | None => None
  | Some v => let trimmed := TrimSpace v in if trimmed ==? "" then None else Some trimmed
  end.

(** ** Temporary-unschedulable rules *)

Definition IsTempUnschedulableEnabled (a : Account) : bool :=
  match index_key (Credentials a) "temp_unschedulable_enabled" with
  | ABool enabled => enabled
  | _ => false
  end.

Record TempUnschedulableRule := mkRule {
  ErrorCode : Z;
  Keywords : list string;
  DurationMinutes : Z;
  Description : string;
}.

Definition parseTempUnschedString (value : any) : string :=
  match value with AString s => TrimSpace s | _ => "" end.

(** The strings of a [[]any], other elements skipped. *)
Definition strings_of_list (l : list any) : list string := omap as_string l.

Definition parseTempUnschedStrings (value : any) : list string :=
  let clean raw := filter (fun s => s <> "") (TrimSpace <$> raw) in
  match value with
  | AStrings v => clean v
  | AList v => clean (strings_of_list v)
  | _ => []
  end.

Definition parseTempUnschedInt (value : any) : Z := int_of_any 0 value.

Definition tempUnschedRule (entry : gmap string any) : TempUnschedulableRule :=
  {| ErrorCode := parseTempUnschedInt (index_key (Some entry) "error_code");
     Keywords := parseTempUnschedStrings (index_key (Some entry) "keywords");
     DurationMinutes := parseTempUnschedInt (index_key (Some entry) "duration_minutes");
     Description := parseTempUnschedString (index_key (Some entry) "description") |}.

Definition rule_usable (r : TempUnschedulableRule) : bool :=
  negb ((ErrorCode r <=? 0) || (DurationMinutes r <=? 0) || (length (Keywords r) =? 0)%nat).

Definition GetTempUnschedulableRules (a : Account) : list TempUnschedulableRule :=
  match index_key (Credentials a) "temp_unschedulable_rules" with
  | AList arr => filter (fun r => rule_usable r = true) (tempUnschedRule <$> omap as_map arr)
  | _ => []
  end.

(** ** Pool mode *)

Definition IsPoolMode (a : Account) : bool :=
  if negb (IsAPIKeyOrBedrock a) then false
  else match lookup_key (Credentials a) "pool_mode" with
       | Some (ABool enabled) => enabled
       | _ => false
       end.

Definition defaultPoolModeRetryCount : Z := 3.
Definition maxPoolModeRetryCount : Z := 10.

Definition parsePoolModeRetryCount (value : any) : Z := int_of_any defaultPoolModeRetryCount value.

Definition GetPoolModeRetryCount (a : Account) : Z :=
  if negb (IsPoolMode a) || match Credentials a with None => true | Some _ => false end
  then defaultPoolModeRetryCount
  else match lookup_key (Credentials a) "pool_mode_retry_count" with
       | None | Some ANil => defaultPoolModeRetryCount
       | Some raw =>
           let count := parsePoolModeRetryCount raw in
           if count <? 0 then 0
           else if maxPoolModeRetryCount <? count then maxPoolModeRetryCount
           else count
       end.

Definition defaultPoolModeRetryableStatusCodes : list Z := [401; 403; 429].

(** [isPoolModeRetryableStatus], the package-level default. *)
Definition isPoolModeRetryableStatusDefault (statusCode : Z) : bool :=
  existsb (fun c => c ==? statusCode) defaultPoolModeRetryableStatusCodes.

(** The integer of one configured status code; [None] is the loop's
    [continue]. *)
Definition status_code_of_any (v : any) : option Z :=
  match v with
  | AFloat64 f => Some (f64_to_int64 f)
  | AInt n | AInt64 n => Some n
  | ANumber s => number_Int64 s
  | AString s => ParseInt (TrimSpace s)
  | _ => None
  end.

(** The loop body: [codes] in order of appearance; an element already seen or
    outside 100..599 is skipped. *)
Definition add_status_code (codes : list Z) (v : any) : list Z :=
  match status_code_of_any v with
  | Some code =>
      if (code <? 100) || (599 <? code) then codes
      else if bool_decide (code ∈ codes) then codes else codes ++ [code]
  | None => codes
  end.

(** [None] is the nil slice (not configured); [Some []] is the configured
    empty list. *)
Definition GetPoolModeRetryStatusCodes (a : Account) : option (list Z) :=
  match lookup_key (Credentials a) "pool_mode_retry_status_codes" with
  | Some (AList arr) => Some (merge_sort Z.le (foldl add_status_code [] arr))
  | _ => None
  end.

Definition IsPoolModeRetryableStatus (a : Account) (statusCode : Z) : bool :=
  match GetPoolModeRetryStatusCodes a with
  | None => isPoolModeRetryableStatusDefault statusCode
  | Some codes => existsb (fun c => c ==? statusCode) codes
  end.

(** ** Custom error codes *)

Definition IsCustomErrorCodesEnabled (a : Account) : bool :=
  if AType a !=? AccountTypeAPIKey then false
  else match lookup_key (Credentials a) "custom_error_codes_enabled" with
       | Some (ABool enabled) => enabled
       | _ => false
       end.

Definition GetCustomErrorCodes (a : Account) : option (list Z) :=
  match lookup_key (Credentials a) "custom_error_codes" with
  | Some (AList arr) =>
      Some (omap (fun v => match v with AFloat64 f => Some (f64_to_int64 f) | _ => None end) arr)
  | _ => None
  end.

Definition ShouldHandleErrorCode (a : Account) (statusCode : Z) : bool :=
  if negb (IsCustomErrorCodesEnabled a) then true
  else match GetCustomErrorCodes a with
       | None | Some [] => true
       | Some codes => existsb (fun c => c ==? statusCode) codes
       end.

(** ** Per-account switches *)

Definition IsInterceptWarmupEnabled (a : Account) : bool :=
  match lookup_key (Credentials a) "intercept_warmup_requests" with
  | Some (ABool enabled) => enabled
  | _ => false
  end.

Definition IsMixedSchedulingEnabled (a : Account) : bool :=
  if Platform a !=? PlatformAntigravity then false else getExtraBool a "mixed_scheduling".

Definition IsOveragesEnabled (a : Account) : bool :=
  if Platform a !=? PlatformAntigravity then false else getExtraBool a "allow_overages".

Definition IsOpenAILongContextBillingEnabled (a : Account) : bool :=
  if negb (IsOpenAI a) then false else flag (Extra a) "openai_long_context_billing_enabled".

Definition IsOpenAIPassthroughEnabled (a : Account) : bool :=
  if negb (IsOpenAI a) then false
  else match as_bool (index_key (Extra a) "openai_passthrough") with
       | Some enabled => enabled
       | None => match as_bool (index_key (Extra a) "openai_oauth_passthrough") with
                 | Some enabled => enabled
                 | None => false
                 end
       end.

Definition IsOpenAIOAuthPassthroughEnabled (a : Account) : bool :=
  IsOpenAIOAuth a && IsOpenAIPassthroughEnabled a.

Definition IsAnthropicAPIKeyPassthroughEnabled (a : Account) : bool :=
  if (Platform a !=? PlatformAnthropic) || (AType a !=? AccountTypeAPIKey) then false
  else flag (Extra a) "anthropic_passthrough".

Definition IsOpenAIWSForceHTTPEnabled (a : Account) : bool :=
  if negb (IsOpenAI a) then false else flag (Extra a) "openai_ws_force_http".

Definition IsOpenAIResponsesFlattenNamespacesEnabled (a : Account) : bool :=
  if negb (IsOpenAI a) then false else flag (Extra a) "openai_responses_flatten_namespaces".

Definition IsOpenAIWSAllowStoreRecoveryEnabled (a : Account) : bool :=
  if negb (IsOpenAI a) then false else flag (Extra a) "openai_ws_allow_store_recovery".

Definition IsCodexCLIOnlyEnabled (a : Account) : bool :=
  if negb (IsOpenAIOAuth a) then false else flag (Extra a) "codex_cli_only".

Definition IsCodexCLIOnlyAppServerAllowed (a : Account) : bool :=
  if negb (IsCodexCLIOnlyEnabled a) then false
  else flag (Extra a) "codex_cli_only_allow_app_server".

Definition IsTLSFingerprintEnabled (a : Account) : bool :=
  if negb (IsAnthropicOAuthOrSetupToken a) then false else getExtraBool a "enable_tls_fingerprint".

Definition GetTLSFingerprintProfileID (a : Account) : Z :=
  match lookup_key (Extra a) "tls_fingerprint_profile_id" with
  | Some (AFloat64 f) => f64_to_int64 f
  | Some (AInt64 n) | Some (AInt n) => n
  | Some (ANumber s) => default 0 (number_Int64 s)
  | _ => 0
  end.

Definition UMQModeSerialize := "serialize".
Definition UMQModeThrottle := "throttle".

Definition GetUserMsgQueueMode (a : Account) : string :=
  let mode := text (Extra a) "user_msg_queue_mode" in
  if mode !=? "" then
    if (mode ==? UMQModeSerialize) || (mode ==? UMQModeThrottle) then mode else ""
  else if flag (Extra a) "user_msg_queue_enabled" then UMQModeSerialize
  else "".

Definition IsSessionIDMaskingEnabled (a : Account) : bool :=
  if negb (IsAnthropicOAuthOrSetupToken a) then false
  else getExtraBool a "session_id_masking_enabled".

Definition IsCustomBaseURLEnabled (a : Account) : bool :=
  if negb (IsAnthropicOAuthOrSetupToken a) then false
  else getExtraBool a "custom_base_url_enabled".

Definition GetCustomBaseURL (a : Account) : string := GetExtraString a "custom_base_url".

Definition IsCacheTTLOverrideEnabled (a : Account) : bool :=
  if negb (IsAnthropicOAuthOrSetupToken a) then false
  else getExtraBool a "cache_ttl_override_enabled".

Definition GetCacheTTLOverrideTarget (a : Account) : string :=
  match lookup_key (Extra a) "cache_ttl_override_target" with
  | Some (AString target) => if (target ==? "5m") || (target ==? "1h") then target else "5m"
  | _ => "5m"
  end.

Definition WebSearchModeDefault := "default".
Definition WebSearchModeEnabled := "enabled".
Definition WebSearchModeDisabled := "disabled".

Definition GetWebSearchEmulationMode (a : Account) : string :=
  if (Platform a !=? PlatformAnthropic) || (AType a !=? AccountTypeAPIKey)
  then WebSearchModeDefault
  else match index_key (Extra a) "web_search_emulation" with
       | ABool b => if b then WebSearchModeEnabled else WebSearchModeDefault
       | AString mode =>
           if (mode ==? WebSearchModeEnabled) || (mode ==? WebSearchModeDisabled)
           then mode else WebSearchModeDefault
       | _ => WebSearchModeDefault
       end.

(** ** Theorems *)

(** The billing multiplier in force is never negative (absent and negative
    settings bill at 1, zero is kept), and the effective load factor is
    positive: the configured one, else the concurrency, else 1. *)
Theorem multiplier_and_load_bounds a :
  fltb (BillingRateMultiplier a) f0 = false /\
  (forall m, RateMultiplier a = Some m -> fltb m f0 = false -> BillingRateMultiplier a = m) /\
  0 < EffectiveLoadFactor a /\
  (forall l, LoadFactor a = Some l -> 0 < l -> EffectiveLoadFactor a = l) /\
  (0 < Concurrency a -> LoadFactor a = None -> EffectiveLoadFactor a = Concurrency a).
Proof.
  unfold BillingRateMultiplier, EffectiveLoadFactor. split_and!.
  - destruct (RateMultiplier a) as [m|]; [|done]. by destruct (fltb m f0) eqn:E.
  - by intros m -> ->.
  - repeat case_match; blia.
  - intros l -> Hl. by rewrite (proj2 (Z.ltb_lt 0 l)).
  - intros Hc ->. by rewrite (proj2 (Z.ltb_lt _ _)).
Qed.

(** Every rule the temporary-unschedulable configuration yields is usable:
    a positive status code, a positive duration and at least one keyword, each
    keyword non-empty; and every usable entry of the configured list is there. *)
Theorem temp_unschedulable_rules_usable a :
  Forall (fun r => 0 < ErrorCode r /\ 0 < DurationMinutes r /\ Keywords r <> [] /\
                   "" ∉ Keywords r) (GetTempUnschedulableRules a) /\
  (forall arr e, index_key (Credentials a) "temp_unschedulable_rules" = AList arr ->
     AMap e ∈ arr -> rule_usable (tempUnschedRule e) = true ->
     tempUnschedRule e ∈ GetTempUnschedulableRules a).
Proof.
  unfold GetTempUnschedulableRules. split.
  - destruct (index_key _ _) as [| | | | | | | |arr| | | | |]; try by constructor.
    apply Forall_forall. intros r [Hu Hr]%list_elem_of_filter.
    apply list_elem_of_fmap in Hr as (e & -> & _).
    unfold rule_usable in Hu. apply negb_true_iff, orb_false_iff in Hu as [Hu Hk].
    apply orb_false_iff in Hu as [Hc Hd]. apply Nat.eqb_neq in Hk.
    apply Z.leb_gt in Hc, Hd. split_and!; [done|done|by intros E; rewrite E in Hk|].
    simpl. unfold parseTempUnschedStrings.
    destruct (index_key _ "keywords"); try apply not_elem_of_nil;
      rewrite list_elem_of_filter; tauto.
  - intros arr e -> He Hu. apply list_elem_of_filter. split; [done|].
    apply list_elem_of_fmap. exists e. split; [done|].
    apply list_elem_of_omap. by exists (AMap e).
Qed.

(** The pool retry count is always within 0..10: 3 unless the account is a
    pool account with a count configured, and then that count clamped. *)
Theorem pool_retry_count_bounds a :
  0 <= GetPoolModeRetryCount a <= maxPoolModeRetryCount /\
  (IsPoolMode a = false -> GetPoolModeRetryCount a = defaultPoolModeRetryCount) /\
  (forall raw, IsPoolMode a = true -> raw <> ANil ->
     lookup_key (Credentials a) "pool_mode_retry_count" = Some raw ->
     GetPoolModeRetryCount a =
       Z.max 0 (Z.min maxPoolModeRetryCount (parsePoolModeRetryCount raw))).
Proof.
  assert (forall c, (if c <? 0 then 0 else if maxPoolModeRetryCount <? c
                     then maxPoolModeRetryCount else c) = Z.max 0 (Z.min maxPoolModeRetryCount c))
    as Hclamp.
  { intros c. unfold maxPoolModeRetryCount. destruct (Z.ltb_spec c 0); [lia|].
    destruct (Z.ltb_spec 10 c); lia. }
  unfold GetPoolModeRetryCount. split_and!.
  - destruct (_ || _); [done|]. destruct (lookup_key _ _) as [[]|]; try done;
      cbv zeta; rewrite Hclamp; unfold maxPoolModeRetryCount; lia.
  - destruct (_ || _); [done|]. destruct (lookup_key _ _) as [[]|]; try done;
      cbv zeta; rewrite Hclamp; unfold maxPoolModeRetryCount; lia.
  - by intros ->.
  - intros raw Hp Hr Hl. rewrite Hp, Hl. destruct (Credentials a); [|done]. simpl.
    destruct raw; try done; apply Hclamp.
Qed.

Lemma pool_retry_count_bounds_witness :
  let a := mkAccount 1 PlatformOpenAI AccountTypeAPIKey
             (Some (<["pool_mode" := ABool true]> {[ "pool_mode_retry_count" := AInt 50 ]}))
             None 1 0 None None StatusActive None false true None None None None None None "" None [] in
  GetPoolModeRetryCount a = 10.
Proof.
  intros a. destruct (pool_retry_count_bounds a) as (_ & _ & H).
  rewrite (H (AInt 50)); [done|by vm_compute|done|by vm_compute].
Defined.

(** The configured codes, in order of appearance. *)
Lemma status_codes_fold arr acc :
  NoDup acc -> Forall (fun c => 100 <= c <= 599) acc ->
  let r := foldl add_status_code acc arr in
  NoDup r /\ Forall (fun c => 100 <= c <= 599) r /\
  (forall c, c ∈ r <-> c ∈ acc \/ 100 <= c <= 599 /\ exists v, v ∈ arr /\ status_code_of_any v = Some c).
Proof.
  revert acc. induction arr as [|v arr IH]; intros acc Hn Hf r; subst r; simpl.
  { split_and!; [done|done|]. intros c. split; [auto|].
    intros [?|(_ & v & Hv & _)]; [done|by apply not_elem_of_nil in Hv]. }
  assert (NoDup (add_status_code acc v) /\
          Forall (fun c => 100 <= c <= 599) (add_status_code acc v) /\
          (forall c, c ∈ add_status_code acc v <->
             c ∈ acc \/ 100 <= c <= 599 /\ status_code_of_any v = Some c)) as (Hn' & Hf' & Hm).
  { unfold add_status_code. destruct (status_code_of_any v) as [code|]; [|naive_solver].
    destruct ((code <? 100) || (599 <? code)) eqn:Er.
    { split_and!; [done|done|]. intros c. split; [auto|].
      intros [?|[Hr [= ->]]]; [done|].
      rewrite (proj2 (Z.ltb_ge _ _)), (proj2 (Z.ltb_ge _ _)) in Er by lia. done. }
    apply orb_false_iff in Er as [E1%Z.ltb_ge E2%Z.ltb_ge].
    case_bool_decide as Hin; [split_and!; [done|done|]; naive_solver|].
    split_and!.
    - apply NoDup_app. split_and!; [done| |apply NoDup_singleton].
      intros x Hx ->%list_elem_of_singleton. done.
    - apply Forall_app. split; [done|]. constructor; [lia|constructor].
    - intros c. rewrite elem_of_app, list_elem_of_singleton. naive_solver. }
  destruct (IH _ Hn' Hf') as (H1 & H2 & H3). split_and!; [done|done|].
  intros c. rewrite H3, Hm. setoid_rewrite elem_of_cons. naive_solver.
Qed.

(** The retryable status codes of a pool account: the configured list comes
    back strictly increasing, within 100..599, and holds exactly the codes its
    elements denote; a status is retryable exactly when it is in that list, or
    in 401, 403, 429 when no list is configured. *)
Theorem pool_retry_status_codes a s :
  match GetPoolModeRetryStatusCodes a with
  | Some codes =>
      StronglySorted Z.lt codes /\ Forall (fun c => 100 <= c <= 599) codes /\
      (forall arr, lookup_key (Credentials a) "pool_mode_retry_status_codes" = Some (AList arr) ->
         forall c, c ∈ codes <->
           100 <= c <= 599 /\ exists v, v ∈ arr /\ status_code_of_any v = Some c) /\
      (IsPoolModeRetryableStatus a s = true <-> s ∈ codes)
  | None => IsPoolModeRetryableStatus a s = true <-> s = 401 \/ s = 403 \/ s = 429
  end.
Proof.
  assert (forall l, existsb (fun c => c ==? s) l = true <-> s ∈ l) as Hex.
  { intros l. rewrite existsb_exists. setoid_rewrite <- list_elem_of_In.
    setoid_rewrite bool_decide_eq_true. naive_solver. }
  unfold IsPoolModeRetryableStatus. destruct (GetPoolModeRetryStatusCodes a) as [codes|] eqn:E.
  - unfold GetPoolModeRetryStatusCodes in E.
    destruct (lookup_key _ _) as [[]|] eqn:El; try done. injection E as <-.
    destruct (status_codes_fold l [] (NoDup_nil_2) (Forall_nil_2 _)) as (Hn & Hf & Hm).
    pose proof (merge_sort_Permutation Z.le (foldl add_status_code [] l)) as Hp.
    split_and!.
    + assert (NoDup (merge_sort Z.le (foldl add_status_code [] l))) as Hns by by rewrite Hp.
      pose proof (StronglySorted_merge_sort Z.le (foldl add_status_code [] l)) as Hs.
      revert Hns Hs. generalize (merge_sort Z.le (foldl add_status_code [] l)).
      induction 1 as [|x l' Hx Hnd IH]; intros Hs; inversion_clear Hs; constructor; [auto|].
      apply Forall_forall. intros y Hy. rewrite Forall_forall in H0. specialize (H0 y Hy).
      assert (x <> y) by (intros ->; done). lia.
    + by rewrite Hp.
    + intros arr [= <-] c. rewrite Hp, Hm. split; [|auto].
      intros [Hc|Hc]; [by apply not_elem_of_nil in Hc|done].
    + apply Hex.
  - unfold isPoolModeRetryableStatusDefault. rewrite Hex. unfold defaultPoolModeRetryableStatusCodes.
    rewrite !elem_of_cons, elem_of_nil. tauto.
Qed.
