(* ===== verification/AccountProtocol.v ===== *)
(** * Account protocols and endpoints: internal/service/account.go

    The tri-state modes (compact support, Responses WebSocket ingress), the
    upstream protocol of the Chinese OpenAI-compatible providers and the base
    URL each kind of account talks to.  The precedence between a typed
    setting, its legacy boolean and the default is spelled out as the source
    spells it. *)

From S2P Require Import Prelude Float64 GoTime GoAny Account.
Local Open Scope Z_scope.

(** ** Compact mode *)

Definition OpenAICompactModeAuto := "auto".
Definition OpenAICompactModeForceOn := "force_on".
Definition OpenAICompactModeForceOff := "force_off".

Definition normalizeOpenAICompactMode (mode : string) : string :=
  let m := ToLower (TrimSpace mode) in
  if m ==? OpenAICompactModeForceOn then OpenAICompactModeForceOn
  else if m ==? OpenAICompactModeForceOff then OpenAICompactModeForceOff
  else OpenAICompactModeAuto.

Definition GetOpenAICompactMode (a : Account) : string :=
  match IsOpenAI a, Extra a with
  | true, Some _ => normalizeOpenAICompactMode (text (Extra a) "openai_compact_mode")
  | _, _ => OpenAICompactModeAuto
  end.

(** [(supported, known)]. *)
Definition OpenAICompactSupportKnown (a : Account) : bool * bool :=
  if negb (IsOpenAI a) then (false, false)
  else let mode := GetOpenAICompactMode a in
       if mode ==? OpenAICompactModeForceOn then (true, true)
       else if mode ==? OpenAICompactModeForceOff then (false, true)
       else match as_bool (index_key (Extra a) "openai_compact_supported") with
            | Some supported => (supported, true)
            | None => (false, false)
            end.

Definition AllowsOpenAICompact (a : Account) : bool :=
  if negb (IsOpenAI a) then false
  else let '(supported, known) := OpenAICompactSupportKnown a in
       if known then supported else true.

(** ** Responses support (internal/pkg/openai_compat) *)

Inductive AccountResponsesSupport := ResponsesSupportUnknown | ResponsesSupportYes | ResponsesSupportNo.

#[export] Instance responses_support_eq_dec : EqDecision AccountResponsesSupport.
Proof. solve_decision. Defined.

Definition ResponsesSupportModeAuto := "auto".
Definition ResponsesSupportModeForceResponses := "force_responses".
Definition ResponsesSupportModeForceChatCompletions := "force_chat_completions".

Definition NormalizeResponsesSupportMode (mode : string) : string :=
  if mode ==? ResponsesSupportModeForceResponses then ResponsesSupportModeForceResponses
  else if mode ==? ResponsesSupportModeForceChatCompletions
  then ResponsesSupportModeForceChatCompletions
  else ResponsesSupportModeAuto.

Definition probed_responses_support (extra : anymap) : AccountResponsesSupport :=
  match lookup_key extra "openai_responses_supported" with
  | Some (ABool true) => ResponsesSupportYes
  | Some (ABool false) => ResponsesSupportNo
  | _ => ResponsesSupportUnknown
  end.

Definition ResolveResponsesSupport (extra : anymap) : AccountResponsesSupport :=
  match as_string (index_key extra "openai_responses_mode") with
  | Some mode =>
      let m := NormalizeResponsesSupportMode mode in
      if m ==? ResponsesSupportModeForceResponses then ResponsesSupportYes
      else if m ==? ResponsesSupportModeForceChatCompletions then ResponsesSupportNo
      else probed_responses_support extra
  | None => probed_responses_support extra
  end.

Definition ShouldUseResponsesAPI (extra : anymap) : bool :=
  ResolveResponsesSupport extra !=? ResponsesSupportNo.

(** ** Responses WebSocket ingress mode *)

Definition OpenAIWSIngressModeOff := "off".
Definition OpenAIWSIngressModeShared := "shared".
Definition OpenAIWSIngressModeDedicated := "dedicated".
Definition OpenAIWSIngressModeCtxPool := "ctx_pool".
Definition OpenAIWSIngressModePassthrough := "passthrough".
Definition OpenAIWSIngressModeHTTPBridge := "http_bridge".

Definition normalizeOpenAIWSIngressMode (mode : string) : string :=
  let m := ToLower (TrimSpace mode) in
  if m ==? OpenAIWSIngressModeOff then OpenAIWSIngressModeOff
  else if m ==? OpenAIWSIngressModeCtxPool then OpenAIWSIngressModeCtxPool
  else if m ==? OpenAIWSIngressModePassthrough then OpenAIWSIngressModePassthrough
  else if m ==? OpenAIWSIngressModeHTTPBridge then OpenAIWSIngressModeHTTPBridge
  else if m ==? OpenAIWSIngressModeShared then OpenAIWSIngressModeShared
  else if m ==? OpenAIWSIngressModeDedicated then OpenAIWSIngressModeDedicated
  else "".

Definition normalizeOpenAIWSIngressDefaultMode (mode : string) : string :=
  let normalized := normalizeOpenAIWSIngressMode mode in
  if normalized !=? "" then
    if (normalized ==? OpenAIWSIngressModeShared) || (normalized ==? OpenAIWSIngressModeDedicated)
    then OpenAIWSIngressModeCtxPool else normalized
  else OpenAIWSIngressModeCtxPool.

(** The two local closures of the source. *)
Definition resolveModeString (extra : anymap) (key : string) : option string :=
  match lookup_key extra key with
  | Some (AString mode) =>
      let normalized := normalizeOpenAIWSIngressMode mode in
      if normalized ==? "" then None else Some normalized
  | _ => None
  end.

Definition resolveBoolMode (extra : anymap) (key : string) : option string :=
  match lookup_key extra key with
  | Some (ABool true) => Some OpenAIWSIngressModeCtxPool
  | Some (ABool false) => Some OpenAIWSIngressModeOff
  | _ => None
  end.

(** First answer of a list of readers. *)
Fixpoint first_some {A} (l : list (option A)) : option A :=
  match l with
  | [] => None
  | Some x :: _ => Some x
  | None :: l' => first_some l'
  end.

Definition ResolveOpenAIResponsesWebSocketV2Mode (a : Account) (defaultMode : string) : string :=
  let resolvedDefault := normalizeOpenAIWSIngressDefaultMode defaultMode in
  if negb (IsOpenAI a) then OpenAIWSIngressModeOff
  else match Extra a with
  | None => resolvedDefault
  | Some _ =>
      let typed :=
        (if IsOpenAIOAuthLike a then
           [resolveModeString (Extra a) "openai_oauth_responses_websockets_v2_mode";
            resolveBoolMode (Extra a) "openai_oauth_responses_websockets_v2_enabled"] else [])
        ++ (if IsOpenAIApiKey a then
           [resolveModeString (Extra a) "openai_apikey_responses_websockets_v2_mode";
            resolveBoolMode (Extra a) "openai_apikey_responses_websockets_v2_enabled"] else []) in
      match first_some (typed ++
              [resolveBoolMode (Extra a) "responses_websockets_v2_enabled";
               resolveBoolMode (Extra a) "openai_ws_enabled"]) with
      | Some mode => mode
      | None =>
          if (resolvedDefault ==? OpenAIWSIngressModeShared)
             || (resolvedDefault ==? OpenAIWSIngressModeDedicated)
          then OpenAIWSIngressModeCtxPool else resolvedDefault
      end
  end.

Definition IsOpenAIResponsesWebSocketV2Enabled (a : Account) : bool :=
  if negb (IsOpenAI a) then false
  else
    let read key := as_bool (index_key (Extra a) key) in
    let typed :=
      (if IsOpenAIOAuthLike a then [read "openai_oauth_responses_websockets_v2_enabled"] else [])
      ++ (if IsOpenAIApiKey a then [read "openai_apikey_responses_websockets_v2_enabled"] else []) in
    default false (first_some (typed ++
      [read "responses_websockets_v2_enabled"; read "openai_ws_enabled"])).

(** ** OpenAI credentials *)

Definition isOpenAIPersonalAccessTokenAuthMode (value : string) : bool :=
  let v := ToLower (TrimSpace value) in
  (v ==? "personalaccesstoken") || (v ==? "personal_access_token").

Definition IsOpenAIPersonalAccessToken (a : Account) : bool :=
  if negb (IsOpenAIOAuth a) then false
  else isOpenAIPersonalAccessTokenAuthMode (GetCredential a "auth_mode")
       || isOpenAIPersonalAccessTokenAuthMode (GetCredential a "openai_auth_mode").

Definition IsOpenAIChatGPTSubscription (a : Account) : bool :=
  if negb (IsOpenAIOAuth a) then false
  else let plan := ToLower (TrimSpace (GetCredential a "plan_type")) in
       negb ((plan ==? "") || (plan ==? "free") || (plan ==? "abnormal")).

Definition GetOpenAIAccessToken (a : Account) : string :=
  if negb (IsOpenAI a) then "" else GetCredential a "access_token".
Definition GetOpenAIRefreshToken (a : Account) : string :=
  if negb (IsOpenAIOAuth a) then "" else GetCredential a "refresh_token".
Definition GetOpenAIIDToken (a : Account) : string :=
  if negb (IsOpenAIOAuth a) then "" else GetCredential a "id_token".
Definition GetOpenAIApiKey (a : Account) : string :=
  if negb (IsOpenAIApiKey a) then "" else GetCredential a "api_key".
Definition GetOpenAIUserAgent (a : Account) : string :=
  if negb (IsOpenAI a) then "" else GetCredential a "user_agent".
Definition GetChatGPTAccountID (a : Account) : string :=
  if negb (IsOpenAIOAuthLike a) then "" else GetCredential a "chatgpt_account_id".
Definition GetChatGPTUserID (a : Account) : string :=
  if negb (IsOpenAIOAuth a) then "" else GetCredential a "chatgpt_user_id".
Definition GetOpenAIOrganizationID (a : Account) : string :=
  if negb (IsOpenAIOAuth a) then "" else GetCredential a "organization_id".
Definition GetOpenAIDeviceID (a : Account) : string :=
  if negb (IsOpenAIOAuth a) then "" else TrimSpace (GetExtraString a "openai_device_id").
Definition GetOpenAISessionID (a : Account) : string :=
  if negb (IsOpenAIOAuth a) then "" else TrimSpace (GetExtraString a "openai_session_id").
Definition GetGrokAccessToken (a : Account) : string :=
  if negb (IsGrok a) then "" else GetCredential a "access_token".
Definition GetGrokRefreshToken (a : Account) : string :=
  if negb (IsGrokOAuth a) then "" else GetCredential a "refresh_token".

Definition GetOpenAITokenExpiresAt (a : Account) : option time :=
  if negb (IsOpenAIOAuth a) then None else GetCredentialAsTime a "expires_at".

Definition IsOpenAITokenExpired (now : time) (a : Account) : bool :=
  match GetOpenAITokenExpiresAt a with
  | None => false
  | Some expiresAt => After (now + 60 * second) expiresAt
  end.

(** [strconv.ParseBool]. *)
Definition ParseBool (s : string) : option bool :=
  if bool_decide (s ∈ ["1"; "t"; "T"; "true"; "TRUE"; "True"]) then Some true
  else if bool_decide (s ∈ ["0"; "f"; "F"; "false"; "FALSE"; "False"]) then Some false
  else None.

Definition IsChatGPTAccountFedRAMP (a : Account) : bool :=
  if negb (IsOpenAIOAuthLike a) then false
  else match index_key (Credentials a) "chatgpt_account_is_fedramp" with
       | ABool value => value
       | AString value => default false (ParseBool (TrimSpace value))
       | ANumber value => default false (ParseBool value)
       | AFloat64 value => negb (feqb value f0)
       | AInt value | AInt64 value => negb (value =? 0)
       | _ => false
       end.

(** ** Chinese OpenAI-compatible providers *)

Definition AccountModePayG := "payg".
Definition AccountModeCoding := "coding".
Definition APIProtocolChatCompletions := "chat_completions".
Definition APIProtocolAnthropic := "anthropic".
Definition APIProtocolResponses := "responses".
Definition APIProtocolAdaptive := "adaptive".

Definition DefaultKimiPayGBaseURL := "https://api.moonshot.cn/v1".
Definition DefaultKimiCodingBaseURL := "https://api.kimi.com/coding/v1".
Definition DefaultZhipuPayGBaseURL := "https://open.bigmodel.cn/api/paas/v4".
Definition DefaultZhipuCodingBaseURL := "https://open.bigmodel.cn/api/coding/paas/v4".
Definition DefaultDeepseekBaseURL := "https://api.deepseek.com".
Definition DefaultKimiPayGAnthropicBaseURL := "https://api.moonshot.cn/anthropic".
Definition DefaultKimiCodingAnthropicBaseURL := "https://api.kimi.com/coding".
Definition DefaultZhipuAnthropicBaseURL := "https://open.bigmodel.cn/api/anthropic".
Definition DefaultDeepseekAnthropicBaseURL := "https://api.deepseek.com/anthropic".

Definition GetAccountMode (a : Account) : string :=
  let mode := TrimSpace (GetCredential a "account_mode") in
  if (mode ==? AccountModePayG) || (mode ==? AccountModeCoding) then mode else "".

Definition IsCodingPlan (a : Account) : bool := GetAccountMode a ==? AccountModeCoding.

Definition SupportsNativeCNResponses (a : Account) : bool :=
  (Platform a ==? PlatformDeepseek) || (Platform a ==? PlatformKimi).

Definition GetAPIProtocol (a : Account) : string :=
  if negb (IsCNProvider a) then APIProtocolChatCompletions
  else let p := TrimSpace (GetCredential a "api_protocol") in
       if p ==? APIProtocolAdaptive then APIProtocolAdaptive
       else if p ==? APIProtocolAnthropic then APIProtocolAnthropic
       else if (p ==? APIProtocolResponses) && SupportsNativeCNResponses a
       then APIProtocolResponses
       else APIProtocolChatCompletions.

Definition IsAdaptiveAPIProtocol (a : Account) : bool := GetAPIProtocol a ==? APIProtocolAdaptive.
Definition IsAnthropicProtocol (a : Account) : bool := GetAPIProtocol a ==? APIProtocolAnthropic.

Definition UsesNativeCNResponses (a : Account) : bool :=
  if negb (SupportsNativeCNResponses a) then false
  else (GetAPIProtocol a ==? APIProtocolResponses) || (GetAPIProtocol a ==? APIProtocolAdaptive).

(** [api_base_urls[protocol]], trimmed, when it is a non-blank string. *)
Definition protocol_base_url (a : Account) (protocol : string) : option string :=
  match index_key (Credentials a) "api_base_urls" with
  | AMap baseURLs =>
      match baseURLs !! protocol with
      | Some (AString baseURL) =>
          if TrimSpace baseURL !=? "" then Some (TrimSpace baseURL) else None
      | _ => None
      end
  | _ => None
  end.

Definition defaultCNProtocolBaseURL (a : Account) (protocol : string) : string :=
  let coding := GetAccountMode a ==? AccountModeCoding in
  if protocol ==? APIProtocolAnthropic then
    if Platform a ==? PlatformKimi then
      if coding then DefaultKimiCodingAnthropicBaseURL else DefaultKimiPayGAnthropicBaseURL
    else if Platform a ==? PlatformZhipu then DefaultZhipuAnthropicBaseURL
    else if Platform a ==? PlatformDeepseek then DefaultDeepseekAnthropicBaseURL
    else ""
  else if (protocol ==? APIProtocolChatCompletions) || (protocol ==? APIProtocolResponses) then
    if Platform a ==? PlatformKimi then
      if coding then DefaultKimiCodingBaseURL else DefaultKimiPayGBaseURL
    else if Platform a ==? PlatformZhipu then
      if coding then DefaultZhipuCodingBaseURL else DefaultZhipuPayGBaseURL
    else if Platform a ==? PlatformDeepseek then DefaultDeepseekBaseURL
    else ""
  else "".

Definition GetCNProtocolBaseURL (a : Account) (protocol : string) : string :=
  if negb (IsCNProvider a) then ""
  else
    let fallback := defaultCNProtocolBaseURL a protocol in
    if IsAdaptiveAPIProtocol a then
      match protocol_base_url a protocol with
      | Some u => u
      | None =>
          if protocol ==? APIProtocolChatCompletions then
            let baseURL := TrimSpace (GetCredential a "base_url") in
            if baseURL !=? "" then baseURL else fallback
          else fallback
      end
    else fallback.

(** The platform defaults that end [GetOpenAIBaseURL]. *)
Definition platform_openai_base_url (a : Account) : string :=
  if Platform a ==? PlatformKimi then
    if GetAccountMode a ==? AccountModeCoding then DefaultKimiCodingBaseURL
    else DefaultKimiPayGBaseURL
  else if Platform a ==? PlatformZhipu then
    if GetAccountMode a ==? AccountModeCoding then DefaultZhipuCodingBaseURL
    else DefaultZhipuPayGBaseURL
  else if Platform a ==? PlatformDeepseek then DefaultDeepseekBaseURL
  else "https://api.openai.com".

Definition GetOpenAIBaseURL (a : Account) : string :=
  if negb (IsOpenAI a) && negb (IsCNProvider a) then ""
  else
    let own :=
      if IsCNProvider a && IsAdaptiveAPIProtocol a
      then protocol_base_url a APIProtocolChatCompletions else None in
    match own with
    | Some u => u
    | None =>
        let baseURL := TrimSpace (GetCredential a "base_url") in
        if ((AType a ==? AccountTypeAPIKey) || (AType a ==? AccountTypeUpstream))
           && (baseURL !=? "")
        then baseURL else platform_openai_base_url a
    end.

Definition GetAnthropicProtocolBaseURL (a : Account) : string :=
  if negb (IsAnthropicProtocol a) && negb (IsAdaptiveAPIProtocol a) then ""
  else if IsAdaptiveAPIProtocol a then GetCNProtocolBaseURL a APIProtocolAnthropic
  else
    let baseURL := TrimSpace (GetCredential a "base_url") in
    if ((AType a ==? AccountTypeAPIKey) || (AType a ==? AccountTypeUpstream)) && (baseURL !=? "")
    then baseURL
    else if Platform a ==? PlatformKimi then
      if GetAccountMode a ==? AccountModeCoding then DefaultKimiCodingAnthropicBaseURL
      else DefaultKimiPayGAnthropicBaseURL
    else if Platform a ==? PlatformZhipu then DefaultZhipuAnthropicBaseURL
    else if Platform a ==? PlatformDeepseek then DefaultDeepseekAnthropicBaseURL
    else "".

Definition GetOpenAIFormatBaseURL (a : Account) : string :=
  if negb (IsAnthropicProtocol a) then GetOpenAIBaseURL a
  else if Platform a ==? PlatformKimi then
    if GetAccountMode a ==? AccountModeCoding then DefaultKimiCodingBaseURL
    else DefaultKimiPayGBaseURL
  else if Platform a ==? PlatformZhipu then
    if GetAccountMode a ==? AccountModeCoding then DefaultZhipuCodingBaseURL
    else DefaultZhipuPayGBaseURL
  else if Platform a ==? PlatformDeepseek then DefaultDeepseekBaseURL
  else GetOpenAIBaseURL a.

Definition GetCNAPIKey (a : Account) : string :=
  if negb (IsCNProvider a) then "" else GetCredential a "api_key".

Definition GetOpenAIProtocolAPIKey (a : Account) : string :=
  if IsCNProvider a then
    if AType a !=? AccountTypeAPIKey then "" else GetCredential a "api_key"
  else GetOpenAIApiKey a.

Definition GetCodingPlanProvider (a : Account) : string :=
  if GetAccountMode a !=? AccountModeCoding then ""
  else let baseURL := ToLower (GetOpenAIBaseURL a) in
       if Contains baseURL "api.kimi.com/coding" then PlatformKimi
       else if Contains baseURL "bigmodel.cn" || Contains baseURL "api.z.ai" then PlatformZhipu
       else "".

Definition GetBaseURL (a : Account) : string :=
  if AType a !=? AccountTypeAPIKey then ""
  else let baseURL := GetCredential a "base_url" in
       if baseURL ==? "" then "https://api.anthropic.com"
       else if Platform a ==? PlatformAntigravity then TrimRightSlash baseURL +:+ "/antigravity"
       else baseURL.

Definition GetGeminiBaseURL (a : Account) (defaultBaseURL : string) : string :=
  let baseURL := TrimSpace (GetCredential a "base_url") in
  if baseURL ==? "" then defaultBaseURL
  else if (Platform a ==? PlatformAntigravity) && (AType a ==? AccountTypeAPIKey)
  then TrimRightSlash baseURL +:+ "/antigravity"
  else baseURL.

(** ** Endpoint capability sets *)

Definition capability_add (result : gset string) (value : string) : gset string :=
  let v := ToLower (TrimSpace value) in if v ==? "" then result else {[v]} ∪ result.

(** [None] is "not configured". *)
Definition openAIEndpointCapabilitySet (a : Account) : option (gset string) :=
  match index_key (Credentials a) "openai_capabilities" with
  | ANil => None
  | AList [] | AStrings [] => None
  | AList l => Some (foldl capability_add ∅ (strings_of_list l))
  | AStrings l => Some (foldl capability_add ∅ l)
  | AMap m =>
      if bool_decide (m = ∅) then None
      else Some (foldl capability_add ∅
             (fst <$> filter (fun kv => as_bool kv.2 = Some true) (map_to_list m)))
  | AMapBool m =>
      if bool_decide (m = ∅) then None
      else Some (foldl capability_add ∅ (fst <$> filter (fun kv => kv.2 = true) (map_to_list m)))
  | _ => Some ∅
  end.

(** ** Theorems *)

Definition ws_modes : list string :=
  [OpenAIWSIngressModeOff; OpenAIWSIngressModeShared; OpenAIWSIngressModeDedicated;
   OpenAIWSIngressModeCtxPool; OpenAIWSIngressModePassthrough; OpenAIWSIngressModeHTTPBridge].

(** The modes a default or a boolean can give. *)
Definition ws_default_modes : list string :=
  [OpenAIWSIngressModeOff; OpenAIWSIngressModeCtxPool; OpenAIWSIngressModePassthrough;
   OpenAIWSIngressModeHTTPBridge].

Lemma normalize_ws_range m :
  normalizeOpenAIWSIngressMode m = "" \/ normalizeOpenAIWSIngressMode m ∈ ws_modes.
Proof.
  unfold normalizeOpenAIWSIngressMode, ws_modes. rewrite !elem_of_cons.
  repeat (case_bool_decide; [tauto|]). tauto.
Qed.

Lemma normalize_ws_default_range m : normalizeOpenAIWSIngressDefaultMode m ∈ ws_default_modes.
Proof.
  unfold normalizeOpenAIWSIngressDefaultMode. cbv zeta.
  assert (OpenAIWSIngressModeCtxPool ∈ ws_default_modes) as Hc
    by (unfold ws_default_modes; rewrite !elem_of_cons; tauto).
  destruct (normalize_ws_range m) as [->|Hm]; [exact Hc|].
  destruct (_ !=? ""); [|exact Hc]. destruct (_ || _) eqn:E; [exact Hc|].
  apply orb_false_iff in E as [E1 E2]. apply bool_decide_eq_false in E1, E2.
  unfold ws_modes, ws_default_modes in *. rewrite !elem_of_cons in *. tauto.
Qed.

Lemma resolveBoolMode_range e k m :
  resolveBoolMode e k = Some m -> m = OpenAIWSIngressModeCtxPool \/ m = OpenAIWSIngressModeOff.
Proof. unfold resolveBoolMode. destruct (lookup_key e k) as [[| []| | | | | | | | | | | |]|]; naive_solver. Qed.

Lemma resolveModeString_range e k m : resolveModeString e k = Some m -> m ∈ ws_modes.
Proof.
  unfold resolveModeString. destruct (lookup_key e k) as [[]|]; try done. cbv zeta.
  case_bool_decide as E; [done|]. intros [= <-]. by destruct (normalize_ws_range s).
Qed.

Lemma first_some_elem {A} (l : list (option A)) x : first_some l = Some x -> Some x ∈ l.
Proof.
  induction l as [|[y|] l IH]; simpl; [done|intros [= ->]; apply list_elem_of_here|].
  intros H. apply elem_of_cons. auto.
Qed.

Lemma default_not_legacy m :
  ((normalizeOpenAIWSIngressDefaultMode m ==? OpenAIWSIngressModeShared)
   || (normalizeOpenAIWSIngressDefaultMode m ==? OpenAIWSIngressModeDedicated)) = false.
Proof.
  pose proof (normalize_ws_default_range m) as H. unfold ws_default_modes in H.
  rewrite !elem_of_cons, elem_of_nil in H.
  by destruct H as [-> | [-> | [-> | [-> | []]]]].
Qed.

(** The WebSocket mode of an account.  Accounts of other platforms are
    always off.  For an OpenAI account of a single kind the answer is the first
    present of: the typed mode of its kind, the typed boolean of its kind, the
    two compatibility booleans, the caller's default; it is one of the six
    known modes, and the legacy [shared]/[dedicated] come only from a typed
    mode string. *)
Theorem ws_mode_resolution a d :
  let r := ResolveOpenAIResponsesWebSocketV2Mode a d in
  (IsOpenAI a = false -> r = OpenAIWSIngressModeOff) /\
  (IsOpenAI a = true ->
     r ∈ ws_modes /\
     (r ∉ ws_default_modes ->
        exists k, resolveModeString (Extra a) k = Some r /\
          k ∈ ["openai_oauth_responses_websockets_v2_mode";
               "openai_apikey_responses_websockets_v2_mode"])) /\
  (IsOpenAIApiKey a = true ->
     r = default (normalizeOpenAIWSIngressDefaultMode d) (first_some
           [resolveModeString (Extra a) "openai_apikey_responses_websockets_v2_mode";
            resolveBoolMode (Extra a) "openai_apikey_responses_websockets_v2_enabled";
            resolveBoolMode (Extra a) "responses_websockets_v2_enabled";
            resolveBoolMode (Extra a) "openai_ws_enabled"])) /\
  (IsOpenAIOAuthLike a = true ->
     r = default (normalizeOpenAIWSIngressDefaultMode d) (first_some
           [resolveModeString (Extra a) "openai_oauth_responses_websockets_v2_mode";
            resolveBoolMode (Extra a) "openai_oauth_responses_websockets_v2_enabled";
            resolveBoolMode (Extra a) "responses_websockets_v2_enabled";
            resolveBoolMode (Extra a) "openai_ws_enabled"])).
Proof.
  intros r. subst r. unfold ResolveOpenAIResponsesWebSocketV2Mode. rewrite default_not_legacy.
  cbv zeta. pose proof (normalize_ws_default_range d) as Hd.
  assert (forall x, x ∈ ws_default_modes -> x ∈ ws_modes) as Hsub
    by (unfold ws_modes, ws_default_modes; intros x; rewrite !elem_of_cons; tauto).
  assert (forall m, m = OpenAIWSIngressModeCtxPool \/ m = OpenAIWSIngressModeOff ->
            m ∈ ws_default_modes) as Hbool
    by (unfold ws_default_modes; intros m; rewrite !elem_of_cons; tauto).
  split_and!.
  - by intros ->.
  - intros HO. rewrite HO. cbn [negb].
    destruct (Extra a) as [m|] eqn:Ee; [|split; [auto|done]].
    destruct (first_some _) as [mode|] eqn:Ef; [|split; [auto|done]].
    apply first_some_elem in Ef. rewrite !elem_of_app in Ef.
    assert (mode ∈ ws_default_modes \/
      exists k, resolveModeString (Some m) k = Some mode /\
        k ∈ ["openai_oauth_responses_websockets_v2_mode";
             "openai_apikey_responses_websockets_v2_mode"]) as Hcases.
    { destruct Ef as [[Ef|Ef]|Ef].
      - destruct (IsOpenAIOAuthLike a); [|by apply not_elem_of_nil in Ef].
        rewrite !elem_of_cons, elem_of_nil in Ef. destruct Ef as [Ef|[Ef|[]]].
        + right. eexists. split; [by symmetry|apply list_elem_of_here].
        + left. symmetry in Ef. by apply resolveBoolMode_range, Hbool in Ef.
      - destruct (IsOpenAIApiKey a); [|by apply not_elem_of_nil in Ef].
        rewrite !elem_of_cons, elem_of_nil in Ef. destruct Ef as [Ef|[Ef|[]]].
        + right. eexists. split; [by symmetry|]. apply elem_of_cons. right. apply list_elem_of_here.
        + left. symmetry in Ef. by apply resolveBoolMode_range, Hbool in Ef.
      - rewrite !elem_of_cons, elem_of_nil in Ef.
        left. apply Hbool. destruct Ef as [Ef|[Ef|[]]]; symmetry in Ef;
          by apply resolveBoolMode_range in Ef. }
    destruct Hcases as [Hin|(k & Hk & Hin)]; [split; [auto|done]|].
    split; [by eapply resolveModeString_range|eauto].
  - unfold IsOpenAIApiKey. intros [HO HT]%andb_true_iff. unfold IsOpenAIOAuthLike. rewrite HO, HT.
    apply bool_decide_eq_true in HT. rewrite HT. simpl.
    destruct (Extra a); [by repeat case_match|done].
  - unfold IsOpenAIOAuthLike, IsOpenAIApiKey. intros [HO HT]%andb_true_iff. rewrite HO, HT.
    assert (AType a ==? AccountTypeAPIKey = false) as ->
      by (apply bool_decide_eq_false; intros E; rewrite E in HT; done). simpl.
    destruct (Extra a); [by repeat case_match|done].
Qed.

Lemma ws_mode_resolution_witness :
  let a := mkAccount 1 PlatformOpenAI AccountTypeAPIKey None
             (Some (<["openai_apikey_responses_websockets_v2_mode" := AString " Shared "]>
                    {[ "openai_ws_enabled" := ABool false ]}))
             1 0 None None StatusActive None false true None None None None None None "" None [] in
  ResolveOpenAIResponsesWebSocketV2Mode a "off" = OpenAIWSIngressModeShared.
Proof.
  intros a. destruct (ws_mode_resolution a "off") as (_ & _ & H & _).
  rewrite H by by vm_compute. by vm_compute.
Defined.

(** Compact support.  A forced mode decides whatever a probe recorded, the
    automatic mode follows the recorded probe, and without one an OpenAI
    account is allowed but its support is unknown; other accounts never. *)
Theorem compact_support_resolution a :
  (IsOpenAI a = false -> AllowsOpenAICompact a = false /\ OpenAICompactSupportKnown a = (false, false)) /\
  (IsOpenAI a = true ->
     (GetOpenAICompactMode a = OpenAICompactModeForceOn -> AllowsOpenAICompact a = true) /\
     (GetOpenAICompactMode a = OpenAICompactModeForceOff -> AllowsOpenAICompact a = false) /\
     (GetOpenAICompactMode a = OpenAICompactModeAuto ->
        AllowsOpenAICompact a =
          default true (as_bool (index_key (Extra a) "openai_compact_supported")))) /\
  GetOpenAICompactMode a ∈ [OpenAICompactModeAuto; OpenAICompactModeForceOn; OpenAICompactModeForceOff].
Proof.
  unfold AllowsOpenAICompact, OpenAICompactSupportKnown. split_and!.
  - by intros ->.
  - intros ->. cbn [negb]. split_and!; intros ->; try done. cbv zeta.
    by destruct (as_bool (index_key (Extra a) "openai_compact_supported")) as [[]|].
  - unfold GetOpenAICompactMode, normalizeOpenAICompactMode. rewrite !elem_of_cons.
    destruct (IsOpenAI a), (Extra a); cbv zeta; repeat case_bool_decide; tauto.
Qed.

Lemma compact_support_resolution_witness :
  AllowsOpenAICompact (mkAccount 1 PlatformGrok AccountTypeAPIKey None None 1 0 None None
    StatusActive None false true None None None None None None "" None []) = false.
Proof. refine (proj1 (proj1 (compact_support_resolution _) _)). by vm_compute. Defined.

Definition cn_protocols : list string :=
  [APIProtocolChatCompletions; APIProtocolAnthropic; APIProtocolResponses].

Lemma cn_platform_cases a :
  IsCNProvider a = true ->
  Platform a = PlatformKimi \/ Platform a = PlatformZhipu \/ Platform a = PlatformDeepseek.
Proof.
  unfold IsCNProvider, IsCNProviderPlatform. rewrite !orb_true_iff, !bool_decide_eq_true. tauto.
Qed.

Lemma default_cn_base_url_nonempty a p :
  IsCNProvider a = true -> p ∈ cn_protocols -> defaultCNProtocolBaseURL a p <> "".
Proof.
  intros Hc Hp. unfold cn_protocols in Hp. rewrite !elem_of_cons, elem_of_nil in Hp.
  unfold defaultCNProtocolBaseURL. generalize (GetAccountMode a ==? AccountModeCoding). intros b.
  destruct (cn_platform_cases a Hc) as [-> | [-> | ->]],
    Hp as [-> | [-> | [-> | []]]]; by destruct b.
Qed.

Lemma protocol_base_url_nonempty a p u : protocol_base_url a p = Some u -> u <> "".
Proof.
  unfold protocol_base_url. destruct (index_key _ _) as [| | | | | | | | | |m| | |]; try done.
  destruct (m !! p) as [[]|]; try done. case_bool_decide as E; [done|]. by intros [= <-].
Qed.

(** A Chinese-provider account always has somewhere to go: its protocol is
    one of four, [responses] only on the platforms that have it natively, and
    each of its base URLs (chat, per protocol, and the Anthropic one when that
    protocol is in use) is non-empty; the reads are empty on other platforms. *)
Theorem cn_provider_urls a p :
  (IsCNProvider a = true -> p ∈ cn_protocols ->
     GetCNProtocolBaseURL a p <> "" /\ GetOpenAIBaseURL a <> "" /\ GetOpenAIFormatBaseURL a <> "" /\
     (GetAPIProtocol a = APIProtocolAnthropic \/ GetAPIProtocol a = APIProtocolAdaptive ->
        GetAnthropicProtocolBaseURL a <> "") /\
     GetAPIProtocol a ∈ APIProtocolAdaptive :: cn_protocols /\
     (GetAPIProtocol a = APIProtocolResponses -> SupportsNativeCNResponses a = true)) /\
  (IsCNProvider a = false -> GetCNProtocolBaseURL a p = "" /\ GetCNAPIKey a = "" /\
     GetAPIProtocol a = APIProtocolChatCompletions).
Proof.
  split.
  - intros Hc Hp. assert (forall q, q ∈ cn_protocols -> GetCNProtocolBaseURL a q <> "") as Hcn.
    { intros q Hq. unfold GetCNProtocolBaseURL. rewrite Hc. cbn [negb].
      pose proof (default_cn_base_url_nonempty a q Hc Hq) as Hne. cbv zeta.
      destruct (IsAdaptiveAPIProtocol a); [|done].
      destruct (protocol_base_url a q) eqn:Eu; [by eapply protocol_base_url_nonempty|].
      repeat case_bool_decide; done. }
    assert (platform_openai_base_url a <> "") as Hplat.
    { unfold platform_openai_base_url. generalize (GetAccountMode a ==? AccountModeCoding).
      intros b. destruct (cn_platform_cases a Hc) as [-> | [-> | ->]]; by destruct b. }
    assert (GetOpenAIBaseURL a <> "") as Hbase.
    { unfold GetOpenAIBaseURL. rewrite Hc, andb_false_r. cbv zeta. cbn [andb].
      destruct (if IsAdaptiveAPIProtocol a then _ else _) eqn:Eo.
      - destruct (IsAdaptiveAPIProtocol a); [by eapply protocol_base_url_nonempty|done].
      - destruct (_ && _) eqn:E; [|done]. apply andb_true_iff in E as [_ E].
        by apply negb_true_iff, bool_decide_eq_false in E. }
    split_and!; [by apply Hcn|done| | | |].
    + unfold GetOpenAIFormatBaseURL. destruct (negb _); [done|].
      generalize (GetAccountMode a ==? AccountModeCoding). intros b.
      destruct (cn_platform_cases a Hc) as [-> | [-> | ->]]; by destruct b.
    + intros Hpr. unfold GetAnthropicProtocolBaseURL, IsAnthropicProtocol.
      destruct (IsAdaptiveAPIProtocol a) eqn:Ead.
      { rewrite andb_false_r. apply Hcn. unfold cn_protocols. rewrite !elem_of_cons. tauto. }
      destruct Hpr as [->|Hpr]; [|unfold IsAdaptiveAPIProtocol in Ead; by rewrite Hpr in Ead].
      cbv zeta. cbn [negb andb]. rewrite bool_decide_true by done. cbn [negb andb].
      destruct (_ && _) eqn:E.
      { apply andb_true_iff in E as [_ E]. by apply negb_true_iff, bool_decide_eq_false in E. }
      generalize (GetAccountMode a ==? AccountModeCoding). intros b.
      destruct (cn_platform_cases a Hc) as [-> | [-> | ->]]; by destruct b.
    + unfold GetAPIProtocol, cn_protocols. rewrite Hc, !elem_of_cons. cbv zeta. cbn [negb].
      repeat case_match; tauto.
    + unfold GetAPIProtocol. rewrite Hc. cbv zeta. cbn [negb].
      repeat (case_bool_decide; simpl; [try done|]); [|done].
      by destruct (SupportsNativeCNResponses a).
  - intros Hc. unfold GetCNProtocolBaseURL, GetCNAPIKey, GetAPIProtocol. by rewrite Hc.
Qed.

Lemma cn_provider_urls_witness :
  let a := mkAccount 1 PlatformKimi AccountTypeAPIKey
             (Some {[ "api_protocol" := AString "adaptive" ]}) None 1 0 None None
             StatusActive None false true None None None None None None "" None [] in
  GetCNProtocolBaseURL a APIProtocolResponses <> "".
Proof.
  intros a. apply (cn_provider_urls a APIProtocolResponses); [by vm_compute|].
  apply (bool_decide_unpack _). by vm_compute.
Defined.

(** The capability names a configuration grants. *)
Definition capability_values (v : any) : list string :=
  match v with
  | AList l => strings_of_list l
  | AStrings l => l
  | AMap m => fst <$> filter (fun kv => as_bool kv.2 = Some true) (map_to_list m)
  | AMapBool m => fst <$> filter (fun kv => kv.2 = true) (map_to_list m)
  | _ => []
  end.

Lemma capability_fold l acc c :
  c ∈ foldl capability_add acc l <->
  c ∈ acc \/ c <> "" /\ exists v, v ∈ l /\ ToLower (TrimSpace v) = c.
Proof.
  revert acc. induction l as [|v l IH]; intros acc; simpl.
  { setoid_rewrite elem_of_nil. naive_solver. }
  rewrite IH. unfold capability_add. cbv zeta. setoid_rewrite elem_of_cons.
  case_bool_decide as E; [naive_solver|]. rewrite elem_of_union, elem_of_singleton. naive_solver.
Qed.

(** The endpoint capabilities of an account are exactly the non-blank
    normalised names its configuration grants, whatever container it uses and
    in whatever order a map is traversed; an absent or empty configuration is
    "not configured" rather than the empty set. *)
Theorem capability_set_spec a :
  match openAIEndpointCapabilitySet a with
  | Some s => forall c, c ∈ s <-> c <> "" /\
      exists v, v ∈ capability_values (index_key (Credentials a) "openai_capabilities") /\
        ToLower (TrimSpace v) = c
  | None => capability_values (index_key (Credentials a) "openai_capabilities") = []
  end.
Proof.
  assert (forall l c, c ∈ foldl capability_add ∅ l <->
            c <> "" /\ exists v, v ∈ l /\ ToLower (TrimSpace v) = c) as Hf
    by (intros l c; rewrite capability_fold, elem_of_empty; tauto).
  unfold openAIEndpointCapabilitySet.
  destruct (index_key _ _) as [| | | | | | | |[|x l]|[|x l]|m|m|m|]; cbn [capability_values];
    try done; try (apply Hf); try exact (Hf []).
  - case_bool_decide as E; [by rewrite E, map_to_list_empty|apply Hf].
  - case_bool_decide as E; [by rewrite E, map_to_list_empty|apply Hf].
Qed.
