(* ===== verification/ModelMapping.v ===== *)
(** * Model mappings: which upstream model an account serves a request with

    The mapping resolution of internal/service/account.go
    ([GetModelMapping] to [ResolveCompactMappedModel], the wildcard matcher),
    with the default tables it falls back to: internal/domain/constants.go for
    Antigravity, internal/pkg/xai/models.go for Grok and
    internal/pkg/geminicli/models.go for Google One.

    A Go map is iterated in an unspecified order; where the source collects
    the entries of a map into a slice, the definition takes the slice, and the
    theorems show the result is the same for every order. *)

From S2P Require Import Prelude Float64 GoTime GoAny Account.
Local Open Scope Z_scope.

Abbreviation mapping := (gmap string string).

(** ** Default tables *)

Definition AntigravityGemini31ProAgentModel := "gemini-pro-agent".

Definition DefaultAntigravityModelMapping : mapping := list_to_map
  [("claude-fable-5-1", "claude-fable-5-1");
   ("claude-fable-5", "claude-fable-5");
   ("claude-opus-4-8", "claude-opus-4-8");
   ("claude-opus-4-7", "claude-opus-4-7");
   ("claude-opus-4-6-thinking", "claude-opus-4-6-thinking");
   ("claude-opus-4-6", "claude-opus-4-6-thinking");
   ("claude-opus-4-5-thinking", "claude-opus-4-6-thinking");
   ("claude-sonnet-4-6", "claude-sonnet-4-6");
   ("claude-sonnet-4-5", "claude-sonnet-4-5");
   ("claude-sonnet-4-5-thinking", "claude-sonnet-4-6");
   ("claude-opus-4-5-20251101", "claude-opus-4-6-thinking");
   ("claude-sonnet-4-5-20250929", "claude-sonnet-4-6");
   ("claude-haiku-4-5", "claude-sonnet-4-6");
   ("claude-haiku-4-5-20251001", "claude-sonnet-4-6");
   ("gemini-2.5-flash", "gemini-2.5-flash");
   ("gemini-2.5-flash-image", "gemini-2.5-flash-image");
   ("gemini-2.5-flash-image-preview", "gemini-2.5-flash-image");
   ("gemini-2.5-flash-lite", "gemini-2.5-flash-lite");
   ("gemini-2.5-flash-thinking", "gemini-2.5-flash-thinking");
   ("gemini-2.5-pro", "gemini-2.5-pro");
   ("gemini-3-flash", "gemini-3-flash");
   ("gemini-3-pro-high", "gemini-3-pro-high");
   ("gemini-3-pro-low", "gemini-3-pro-low");
   ("gemini-3-flash-preview", "gemini-3-flash");
   ("gemini-3-pro-preview", "gemini-3-pro-high");
   (AntigravityGemini31ProAgentModel, AntigravityGemini31ProAgentModel);
   ("gemini-3.1-pro", AntigravityGemini31ProAgentModel);
   ("gemini-3.1-pro-high", AntigravityGemini31ProAgentModel);
   ("gemini-3.1-pro-low", "gemini-3.1-pro-low");
   ("gemini-3.1-pro-preview", AntigravityGemini31ProAgentModel);
   ("gemini-3.1-flash-image", "gemini-3.1-flash-image");
   ("gemini-3.1-flash-image-preview", "gemini-3.1-flash-image");
   ("gemini-3.6-flash", "gemini-3.6-flash");
   ("gemini-3.6-flash-high", "gemini-3.6-flash-high");
   ("gemini-3.6-flash-low", "gemini-3.6-flash-low");
   ("gemini-3.6-flash-medium", "gemini-3.6-flash-medium");
   ("gemini-3.6-flash-tiered", "gemini-3.6-flash-tiered");
   ("gemini-3-pro-image", "gemini-3.1-flash-image");
   ("gemini-3-pro-image-preview", "gemini-3.1-flash-image");
   ("gpt-oss-120b-medium", "gpt-oss-120b-medium");
   ("tab_flash_lite_preview", "tab_flash_lite_preview")].

Definition GoogleOneModels : list string :=
  ["gemini-2.5-flash"; "gemini-2.5-pro"; "gemini-2.0-flash"].

Definition GoogleOneModelMapping : mapping :=
  foldl (fun m id => <[id := id]> m) ∅ GoogleOneModels.

Definition DefaultTextModel := "grok-4.6".
Definition DefaultImagineImageQualityModel := "grok-imagine-image-quality".
Definition DefaultImagineImageFastModel := "grok-imagine-image".
Definition DefaultImagineImage20Model := "grok-imagine-image-2.0".
Definition DefaultImagineVideoModel := "grok-imagine-video".
Definition DefaultImagineVideo15Model := "grok-imagine-video-1.5".

(** The identifiers of [defaultModels]. *)
Definition grokDefaultModelIDs : list string :=
  ["grok-4.6"; "grok-4.5"; "grok-4.3"; "grok-build-0.1"; "grok-composer-2.5-fast"; "grok-4.20-0309-reasoning"; "grok-4.20-0309-non-reasoning"; "grok-4.20-multi-agent-0309"; DefaultImagineImageQualityModel; DefaultImagineImageFastModel; DefaultImagineImage20Model; DefaultImagineVideoModel; DefaultImagineVideo15Model].

Definition grokTextResponsesModelAliases : list (string * string) :=
  [("grok", DefaultTextModel);
   ("grok-latest", DefaultTextModel);
   ("grok-4.6", "grok-4.6");
   ("grok-4.6-latest", "grok-4.6");
   ("grok-4.5", "grok-4.5");
   ("grok-4.5-latest", "grok-4.5");
   ("grok-4.3", "grok-4.3");
   ("grok-4.3-latest", "grok-4.3");
   ("grok-3-mini", "grok-3-mini");
   ("grok-3-mini-fast", "grok-3-mini-fast");
   ("grok-build", "grok-build-0.1");
   ("grok-build-latest", "grok-build-0.1");
   ("grok-build-0.1", "grok-build-0.1");
   ("grok-composer-2.5-fast", "grok-composer-2.5-fast");
   ("grok-composer", "grok-composer-2.5-fast");
   ("composer-2.5", "grok-composer-2.5-fast");
   ("grok-4.20-reasoning", "grok-4.20-0309-reasoning");
   ("grok-4.20-0309-reasoning", "grok-4.20-0309-reasoning");
   ("grok-4.20-non-reasoning", "grok-4.20-0309-non-reasoning");
   ("grok-4.20-0309-non-reasoning", "grok-4.20-0309-non-reasoning");
   ("grok-4.20-multi-agent", "grok-4.20-multi-agent-0309");
   ("grok-4.20-multi-agent-latest", "grok-4.20-multi-agent-0309");
   ("grok-4.20-multi-agent-0309", "grok-4.20-multi-agent-0309")].

Record ModelMappingOptions := mkOptions {
  DefaultText : string;
  EnableCrossClientMap : bool;
}.

Definition defaultText (o : ModelMappingOptions) : string :=
  let t := TrimSpace (DefaultText o) in if t !=? "" then t else DefaultTextModel.

Definition isGrokNativeOrAlias (model : string) : bool :=
  let m := ToLower (TrimSpace model) in
  if (m ==? "") || Contains m "*" then false
  else HasPrefix m "grok" || HasPrefix m "imagine" || HasPrefix m "composer".

Definition grokProviderPrefixes : list string := ["xai/"; "x-ai/"; "grok/"].

(** Entries written in order over a map. *)
Definition put_all (l : list (string * string)) (m : mapping) : mapping :=
  foldl (fun acc kv => <[kv.1 := kv.2]> acc) m l.

(** What the nested loops write, for a snapshot iterated as [items]. *)
Definition prefixedEntries (items : list (string * string)) : list (string * string) :=
  items ≫= fun kv => if isGrokNativeOrAlias kv.1
                     then (fun prefix => (prefix +:+ kv.1, kv.2)) <$> grokProviderPrefixes
                     else [].

Definition addGrokProviderPrefixedMappings (m : mapping) : mapping :=
  put_all (prefixedEntries (map_to_list m)) m.

(** [ModelMappingWithOptions] before its last call. *)
Definition grokNativeMapping (opts : ModelMappingOptions) : mapping :=
  let t := defaultText opts in
  let m := put_all ((fun id => (id, id)) <$> grokDefaultModelIDs) ∅ in
  let m := put_all ((fun '(alias, canonical) =>
             if ((alias ==? "grok") || (alias ==? "grok-latest")) && (canonical ==? DefaultTextModel)
             then (alias, t) else (alias, canonical)) <$> grokTextResponsesModelAliases) m in
  let m := put_all
    [("grok-imagine", DefaultImagineImageQualityModel);
     ("grok-imagine-1", DefaultImagineImageQualityModel);
     ("grok-imagine-edit", DefaultImagineImageQualityModel);
     ("grok-imagine-image", DefaultImagineImageFastModel);
     ("grok-imagine-image-quality", DefaultImagineImageQualityModel);
     ("grok-imagine-video", DefaultImagineVideoModel);
     ("grok-imagine-video-1.5", DefaultImagineVideo15Model);
     ("grok-imagine-video-1.5-preview", DefaultImagineVideo15Model);
     ("grok-video-1.5", DefaultImagineVideo15Model)] m in
  if EnableCrossClientMap opts
  then put_all [("gpt-*", t); ("codex-*", t); ("o1*", t); ("o3*", t); ("o4*", t);
                ("claude-*", t)] m
  else m.

Definition ModelMappingWithOptions (opts : ModelMappingOptions) : mapping :=
  addGrokProviderPrefixedMappings (grokNativeMapping opts).

(** ** Wildcards *)

(** Only a trailing star is a wildcard. *)
Definition matchAntigravityWildcard (pattern str : string) : bool :=
  match strip_suffix "*" pattern with
  | Some prefix => HasPrefix str prefix
  | None => pattern ==? str
  end.

Definition matchWildcard (pattern str : string) : bool := matchAntigravityWildcard pattern str.

(** The comparison of [sort.Slice]: longer patterns first, then bytewise. *)
Definition pattern_le (x y : string * string) : Prop :=
  (Strings.String.length y.1 < Strings.String.length x.1)%nat \/
  (Strings.String.length x.1 = Strings.String.length y.1 /\ String.le x.1 y.1).

#[export] Instance pattern_le_dec : RelDecision pattern_le.
Proof. unfold pattern_le. intros x y. apply _. Defined.

Definition wildcard_matches (items : list (string * string)) (model : string)
    : list (string * string) :=
  filter (fun pt => matchWildcard pt.1 model = true) items.

(** [matchWildcardMappingResult] on the entries in the order the map yields
    them. *)
Definition matchWildcardItems (items : list (string * string)) (model : string) : string * bool :=
  match merge_sort pattern_le (wildcard_matches items model) with
  | [] => (model, false)
  | best :: _ => (best.2, true)
  end.

Definition matchWildcardMappingResult (m : mapping) (model : string) : string * bool :=
  matchWildcardItems (map_to_list m) model.

Definition mappingHasWildcardForModel (m : mapping) (model : string) : bool :=
  existsb (fun pt => matchWildcard pt.1 model) (map_to_list m).

Definition mappingSupportsRequestedModel (m : mapping) (requestedModel : string) : bool :=
  if requestedModel ==? "" then false
  else match m !! requestedModel with
       | Some _ => true
       | None => existsb (fun pt => matchWildcard pt.1 requestedModel) (map_to_list m)
       end.

Definition resolveRequestedModelInMapping (m : mapping) (requestedModel : string) : string * bool :=
  if requestedModel ==? "" then ("", false)
  else match m !! requestedModel with
       | Some mappedModel => (mappedModel, true)
       | None => matchWildcardMappingResult m requestedModel
       end.

Definition normalizeRequestedModelForLookup (platform requestedModel : string) : string :=
  let trimmed := TrimSpace requestedModel in
  if trimmed ==? "" then ""
  else if (platform !=? PlatformGemini) && (platform !=? PlatformAntigravity) then trimmed
  else if trimmed ==? "gemini-3.1-pro-preview-customtools" then "gemini-3.1-pro-preview"
  else trimmed.

(** ** The account's mapping *)

Definition ensureAntigravityDefaultPassthrough (m : mapping) (model : string) : mapping :=
  if model ==? "" then m
  else match m !! model with
       | Some _ => m
       | None => if mappingHasWildcardForModel m model then m else <[model := model]> m
       end.

Definition ensureAntigravityDefaultPassthroughs (m : mapping) (models : list string) : mapping :=
  foldl ensureAntigravityDefaultPassthrough m models.

(** The alias table of [applyAntigravityGemini31ProAliases]: model and the
    targets it may still carry from older configurations. *)
Definition gemini31ProAliases : list (string * list string) :=
  [("gemini-3.1-pro", ["gemini-3.1-pro"]);
   ("gemini-3.1-pro-high", ["gemini-3.1-pro-high"]);
   ("gemini-3.1-pro-preview", ["gemini-3.1-pro-preview"; "gemini-3.1-pro-high"])].

Definition applyGemini31ProAlias (target : string) (m : mapping)
    (alias : string * list string) : mapping :=
  match m !! alias.1 with
  | Some current => if bool_decide (current ∈ alias.2) then <[alias.1 := target]> m else m
  | None => if mappingHasWildcardForModel m alias.1 then m else <[alias.1 := target]> m
  end.

Definition applyAntigravityGemini31ProAliases (m : mapping) : mapping :=
  let target := TrimSpace (default "" (m !! AntigravityGemini31ProAgentModel)) in
  if target ==? "" then m
  else foldl (applyGemini31ProAlias target) m gemini31ProAliases.

Definition antigravityPassthroughModels : list string :=
  ["gemini-3-flash"; "gemini-3.1-pro-high"; "gemini-3.1-pro-low"; "gemini-3.6-flash";
   "gemini-3.6-flash-high"; "gemini-3.6-flash-low"; "gemini-3.6-flash-medium";
   "gemini-3.6-flash-tiered"].

(** The string entries of a raw mapping. *)
Definition string_entries (raw : gmap string any) : mapping := omap as_string raw.

(** The fallback when nothing is configured; [None] is the nil map. *)
Definition default_model_mapping (opts : ModelMappingOptions) (a : Account) : option mapping :=
  if Platform a ==? PlatformAntigravity then Some DefaultAntigravityModelMapping
  else if Platform a ==? PlatformGrok then Some (ModelMappingWithOptions opts)
  else None.

Definition resolveModelMapping (opts : ModelMappingOptions) (a : Account)
    (rawMapping : gmap string any) : option mapping :=
  match Credentials a with
  | None => default_model_mapping opts a
  | Some _ =>
      let fallback :=
        if IsGeminiGoogleOne a then Some GoogleOneModelMapping else default_model_mapping opts a in
      if bool_decide (rawMapping = ∅) then fallback
      else
        let result := string_entries rawMapping in
        if bool_decide (result = ∅) then fallback
        else if Platform a ==? PlatformAntigravity
        then Some (applyAntigravityGemini31ProAliases
                     (ensureAntigravityDefaultPassthroughs result antigravityPassthroughModels))
        else Some result
  end.

(** [a.Credentials["model_mapping"].(map[string]any)], nil reading as empty. *)
Definition raw_model_mapping (a : Account) : gmap string any :=
  default ∅ (as_map (index_key (Credentials a) "model_mapping")).

(** ** The mapping cache of the account

    The fields [modelMappingCache*]; pointers are the integers [mapPtr]
    returns. *)

Record MappingCache := mkCache {
  cacheMapping : option mapping;
  cacheReady : bool;
  cacheCredentialsPtr : Z;
  cacheRawPtr : Z;
  cacheRawLen : nat;
  cacheRawSig : Z;
  cacheRuntimeVersion : Z;
}.

Definition emptyCache : MappingCache := mkCache None false 0 0 0 0 0.

Definition fnv_step (h : Z) (c : ascii) : Z :=
  (Z.lxor h (Z.of_nat (Strings.Ascii.nat_of_ascii c)) * 1099511628211) mod 2 ^ 64.

Definition fnv64a (s : string) : Z :=
  foldl fnv_step 14695981039346656037 (list_ascii_of_string s).

(** What [modelMappingSignature] feeds the hash. *)
Definition signature_bytes (raw : gmap string any) : string :=
  foldr (fun k acc =>
           k +:+ bytes [0%nat]
             +:+ match raw !! k with Some (AString v) => v | _ => bytes [1%nat] end
             +:+ bytes [255%nat] +:+ acc) ""
        (merge_sort String.le (map_to_list raw).*1).

Definition modelMappingSignature (raw : gmap string any) : Z :=
  if bool_decide (raw = ∅) then 0 else fnv64a (signature_bytes raw).

(** [GetModelMapping]: the mapping and the cache it leaves. *)
Definition GetModelMappingCached (opts : ModelMappingOptions) (runtimeVersion credentialsPtr rawPtr : Z)
    (a : Account) (c : MappingCache) : option mapping * MappingCache :=
  let rawMapping := raw_model_mapping a in
  let rawLen := size rawMapping in
  let rawSig := modelMappingSignature rawMapping in
  if cacheReady c && (cacheCredentialsPtr c =? credentialsPtr) && (cacheRawPtr c =? rawPtr)
     && (cacheRawLen c =? rawLen)%nat && (cacheRuntimeVersion c =? runtimeVersion)
     && (cacheRawSig c =? rawSig)
  then (cacheMapping c, c)
  else
    let m := resolveModelMapping opts a rawMapping in
    (m, mkCache m true credentialsPtr rawPtr rawLen rawSig runtimeVersion).

(** The value [GetModelMapping] stands for; [GetModelMappingCached] computes
    it (theorem [GetModelMapping_cache_correct]). *)
Definition GetModelMapping (opts : ModelMappingOptions) (a : Account) : option mapping :=
  resolveModelMapping opts a (raw_model_mapping a).

(** ** Supported and mapped models *)

Definition openAIOAuthForeignModelPrefixes : list string :=
  ["deepseek-"; "glm-"; "kimi-"; "moonshot-"; "qwen-"; "qwen2-"; "qwen3-"; "qwen4-"; "qwq-";
   "minimax-"; "gemini-"; "gemma-"; "grok-"; "doubao-"; "hunyuan-"; "llama-"; "llama2-";
   "llama3-"; "meta-llama"; "mistral-"; "mixtral-"; "baichuan-"; "ernie-"; "step-"; "seed-";
   "yi-"].

(** The text after the last slash. *)
Fixpoint last_segment (acc s : string) : string :=
  match s with
  | EmptyString => rev_string acc
  | String "/" t => last_segment EmptyString t
  | String c t => last_segment (String c acc) t
  end.

Definition lastOpenAIModelSegment (model : string) : string :=
  let m := TrimSpace model in
  if m ==? "" then "" else TrimSpace (last_segment EmptyString m).

Definition isOpenAIOAuthServableModel (requestedModel : string) : bool :=
  let model := ToLower (lastOpenAIModelSegment requestedModel) in
  if model ==? "" then true
  else if (model ==? "k3") || (model ==? "k3-256k") then false
  else negb (existsb (HasPrefix model) openAIOAuthForeignModelPrefixes).

(** [len(mapping) == 0] for a possibly nil map. *)
Definition mapping_or_empty (m : option mapping) : mapping := default ∅ m.

Definition IsModelSupported (opts : ModelMappingOptions) (a : Account) (requestedModel : string)
    : bool :=
  if IsOpenAIPassthroughEnabled a then true
  else
    let m := mapping_or_empty (GetModelMapping opts a) in
    if bool_decide (m = ∅) then
      if IsOpenAIOAuth a then isOpenAIOAuthServableModel requestedModel else true
    else if mappingSupportsRequestedModel m requestedModel then true
    else
      let normalized := normalizeRequestedModelForLookup (Platform a) requestedModel in
      (normalized !=? requestedModel) && mappingSupportsRequestedModel m normalized.

Definition ResolveMappedModel (opts : ModelMappingOptions) (a : Account) (requestedModel : string)
    : string * bool :=
  let m := mapping_or_empty (GetModelMapping opts a) in
  if bool_decide (m = ∅) then (requestedModel, false)
  else
    let '(mapped, matched) := resolveRequestedModelInMapping m requestedModel in
    if matched then (mapped, true)
    else
      let normalized := normalizeRequestedModelForLookup (Platform a) requestedModel in
      if normalized !=? requestedModel then
        let '(mapped, matched) := resolveRequestedModelInMapping m normalized in
        if matched then (mapped, true) else (requestedModel, false)
      else (requestedModel, false).

Definition GetMappedModel (opts : ModelMappingOptions) (a : Account) (requestedModel : string)
    : string := (ResolveMappedModel opts a requestedModel).1.

Definition stringMappingFromRaw (raw : any) : option mapping :=
  match raw with
  | AMap m => let r := string_entries m in if bool_decide (r = ∅) then None else Some r
  | AMapString m => if bool_decide (m = ∅) then None else Some m
  | _ => None
  end.

Definition GetCompactModelMapping (a : Account) : option mapping :=
  stringMappingFromRaw (index_key (Credentials a) "compact_model_mapping").

Definition ResolveCompactMappedModel (a : Account) (requestedModel : string) : string * bool :=
  let m := mapping_or_empty (GetCompactModelMapping a) in
  if bool_decide (m = ∅) then (requestedModel, false)
  else let '(mapped, matched) := resolveRequestedModelInMapping m requestedModel in
       if matched then (mapped, true) else (requestedModel, false).

(** [resolveOpenAIForwardModel] for a non-nil account, and the compact
    variant (openai_model_mapping.go). *)
Definition resolveOpenAIForwardModel (opts : ModelMappingOptions) (account : option Account)
    (requestedModel messagesDispatchMappedModel : string) : string :=
  let dispatch := TrimSpace messagesDispatchMappedModel in
  match account with
  | None => if dispatch !=? "" then dispatch else requestedModel
  | Some a =>
      let '(mapped, matched) := ResolveMappedModel opts a requestedModel in
      if negb matched && (dispatch !=? "") then dispatch else mapped
  end.

Definition resolveOpenAICompactForwardModel (account : option Account) (model : string) : string :=
  let trimmed := TrimSpace model in
  match account with
  | None => trimmed
  | Some a =>
      if trimmed ==? "" then trimmed
      else let '(mapped, matched) := ResolveCompactMappedModel a trimmed in
           if negb matched then trimmed
           else if TrimSpace mapped !=? "" then TrimSpace mapped else trimmed
  end.

Example fnv64a_ex : fnv64a "a" = 12638187200555641996.
Proof. reflexivity. Qed.

(** ** The wildcard matcher *)

Lemma matchWildcard_spec p s :
  matchWildcard p s = true <->
  (exists q, p = q +:+ "*" /\ HasPrefix s q = true) \/
  ((forall q, p <> q +:+ "*") /\ p = s).
Proof.
  unfold matchWildcard, matchAntigravityWildcard.
  destruct (strip_suffix "*" p) as [q|] eqn:E.
  - apply strip_suffix_Some in E. split; [intros; left; eauto|].
    intros [(q' & Hq' & ?)|[Hno _]]; [|by destruct (Hno q)].
    assert (q' = q) as ->; [|done].
    eapply (string_app_inj_length _ _ "*" "*"); [|congruence].
    assert (Strings.String.length (q +:+ "*") = Strings.String.length (q' +:+ "*")) as Hl
      by congruence.
    rewrite !string_length_app in Hl. simpl in Hl. lia.
  - assert (forall q, p <> q +:+ "*") as Hno.
    { intros q Hq. apply strip_suffix_Some in Hq. congruence. }
    rewrite bool_decide_eq_true. split; [by right|].
    intros [(q & Hq & _)|[_ ?]]; [by destruct (Hno q)|done].
Qed.

#[export] Instance pattern_le_trans : Transitive pattern_le.
Proof.
  unfold pattern_le. intros x y z [?|[??]] [?|[??]]; [left; lia|left; lia|left; lia|].
  right. split; [congruence|]. etrans; eauto.
Qed.

#[export] Instance pattern_le_total : Total pattern_le.
Proof.
  unfold pattern_le. intros x y.
  destruct (Nat.lt_trichotomy (Strings.String.length x.1) (Strings.String.length y.1))
    as [?|[?|?]]; [by right; left| |by left; left].
  destruct (total String.le x.1 y.1); [left; right|right; right]; eauto.
Qed.

Lemma pattern_le_antisym x y : pattern_le x y -> pattern_le y x -> x.1 = y.1.
Proof.
  unfold pattern_le. intros [?|[??]] [?|[??]]; try lia. by apply (anti_symm String.le).
Qed.

(** The entries of a map, in whatever order they are iterated. *)
Definition entries_of (items : list (string * string)) (m : mapping) : Prop :=
  items ≡ₚ map_to_list m.

Lemma entries_lookup items m p t : entries_of items m -> (p, t) ∈ items <-> m !! p = Some t.
Proof. intros H. rewrite H. apply elem_of_map_to_list. Qed.

Lemma matchWildcardItems_true items model t :
  matchWildcardItems items model = (t, true) ->
  exists p, (p, t) ∈ items /\ matchWildcard p model = true /\
    forall q u, (q, u) ∈ items -> matchWildcard q model = true -> pattern_le (p, t) (q, u).
Proof.
  unfold matchWildcardItems.
  pose proof (StronglySorted_merge_sort pattern_le (wildcard_matches items model)) as Hs.
  pose proof (merge_sort_Permutation pattern_le (wildcard_matches items model)) as Hp.
  destruct (merge_sort _ _) as [|[p t'] l]; [done|]. intros [= <-].
  assert ((p, t') ∈ wildcard_matches items model) as Hin.
  { rewrite <- Hp. apply list_elem_of_here. }
  apply list_elem_of_filter in Hin as [Hm Hin]. exists p. split_and!; [done..|].
  intros q u Hq Hmq.
  assert ((q, u) ∈ wildcard_matches items model) as Hq'
    by (by apply list_elem_of_filter).
  rewrite <- Hp in Hq'. apply elem_of_cons in Hq' as [->|Hq'].
  - right. split; [done|]. reflexivity.
  - inversion_clear Hs as [|? ? ? Hall]. rewrite Forall_forall in Hall. by apply Hall.
Qed.

Lemma matchWildcardItems_false items model r :
  matchWildcardItems items model = (r, false) <->
  r = model /\ forall q u, (q, u) ∈ items -> matchWildcard q model = false.
Proof.
  unfold matchWildcardItems.
  pose proof (merge_sort_Permutation pattern_le (wildcard_matches items model)) as Hp.
  destruct (merge_sort _ _) as [|[p t] l].
  - apply Permutation_nil in Hp. split; [|by intros [-> _]]. intros [= <-]. split; [done|].
    intros q u Hq. apply not_true_is_false. intros Hm.
    assert ((q, u) ∈ wildcard_matches items model) as Hin by (by apply list_elem_of_filter).
    unfold wildcard_matches in Hin, Hp. rewrite Hp in Hin. by apply not_elem_of_nil in Hin.
  - split; [done|]. intros [_ H]. exfalso.
    assert ((p, t) ∈ wildcard_matches items model) as Hin
      by (rewrite <- Hp; apply list_elem_of_here).
    apply list_elem_of_filter in Hin as [Hm Hin]. specialize (H p t Hin). simpl in Hm. congruence.
Qed.

Lemma matchWildcardItems_perm items items' m model :
  entries_of items m -> entries_of items' m ->
  matchWildcardItems items model = matchWildcardItems items' model.
Proof.
  intros H1 H2. unfold matchWildcardItems.
  assert (merge_sort pattern_le (wildcard_matches items model) =
          merge_sort pattern_le (wildcard_matches items' model)) as ->; [|done].
  apply (StronglySorted_unique_strong pattern_le).
  - intros [p t] [q u] Hx Hy Hxy Hyx.
    rewrite merge_sort_Permutation in Hx. rewrite merge_sort_Permutation in Hy.
    apply list_elem_of_filter in Hx as [_ Hx]. apply list_elem_of_filter in Hy as [_ Hy].
    rewrite (entries_lookup _ _ _ _ H1) in Hx. rewrite (entries_lookup _ _ _ _ H2) in Hy.
    pose proof (pattern_le_antisym _ _ Hxy Hyx) as E. simpl in E. subst q. congruence.
  - apply StronglySorted_merge_sort; apply _.
  - apply StronglySorted_merge_sort; apply _.
  - rewrite !merge_sort_Permutation. unfold wildcard_matches. by rewrite H1, H2.
Qed.

(** A key of the mapping that matches a model it does not contain is a
    star pattern. *)
Lemma match_without_exact (m : mapping) p t model :
  m !! model = None -> m !! p = Some t -> matchWildcard p model = true ->
  exists q, p = q +:+ "*" /\ HasPrefix model q = true.
Proof.
  intros Hn Hp Hm. apply matchWildcard_spec in Hm as [?|[_ ->]]; [done|congruence].
Qed.

Lemma prefixes_same_length model q q' :
  HasPrefix model q = true -> HasPrefix model q' = true ->
  Strings.String.length q = Strings.String.length q' -> q = q'.
Proof.
  intros [r Hr]%HasPrefix_spec [r' Hr']%HasPrefix_spec Hl.
  apply (string_app_inj_length q q' r r'); [done|congruence].
Qed.

Lemma star_length q :
  Strings.String.length (q +:+ "*") = S (Strings.String.length q).
Proof. rewrite string_length_app. simpl. lia. Qed.

Lemma mappingSupports_resolve m r :
  mappingSupportsRequestedModel m r = (resolveRequestedModelInMapping m r).2.
Proof.
  unfold mappingSupportsRequestedModel, resolveRequestedModelInMapping.
  destruct (bool_decide (r = "")); [done|]. destruct (m !! r); [done|].
  unfold matchWildcardMappingResult.
  destruct (matchWildcardItems (map_to_list m) r) as [t [|]] eqn:E.
  - apply matchWildcardItems_true in E as (p & Hin & Hm & _).
    apply existsb_map_to_list. exists p, t. split; [|done].
    by apply elem_of_map_to_list.
  - apply matchWildcardItems_false in E as [_ E]. apply not_true_is_false.
    intros (k & v & Hk & Hf)%existsb_map_to_list. simpl in Hf.
    rewrite (E k v) in Hf; [done|]. by apply elem_of_map_to_list.
Qed.

(** When the requested model is not itself a key, the resolution takes the
    target of the star pattern with the longest prefix of the model, whatever
    the order in which the Go map yields its entries. *)
Theorem wildcard_longest_prefix (m : mapping) (items : list (string * string)) (model t : string) :
  entries_of items m -> m !! model = None ->
  matchWildcardItems items model = (t, true) <->
  exists q, m !! (q +:+ "*") = Some t /\ HasPrefix model q = true /\
    forall q' u, m !! (q' +:+ "*") = Some u -> HasPrefix model q' = true ->
      (Strings.String.length q' <= Strings.String.length q)%nat.
Proof.
  intros He Hn. split.
  - intros (p & Hin & Hm & Hbest)%matchWildcardItems_true.
    apply (entries_lookup _ _ _ _ He) in Hin.
    destruct (match_without_exact _ _ _ _ Hn Hin Hm) as (q & -> & Hq).
    exists q. split_and!; [done..|]. intros q' u Hu Hq'.
    assert (pattern_le (q +:+ "*", t) (q' +:+ "*", u)) as Hle.
    { apply Hbest; [by apply (entries_lookup _ _ _ _ He)|]. apply matchWildcard_spec. eauto. }
    unfold pattern_le in Hle; simpl in Hle. rewrite !star_length in Hle. lia.
  - intros (q & Hq & Hp & Hbest).
    assert (matchWildcard (q +:+ "*") model = true) as Hmq by (apply matchWildcard_spec; eauto).
    destruct (matchWildcardItems items model) as [t' [|]] eqn:E.
    + apply matchWildcardItems_true in E as (p & Hin & Hm & Hle).
      apply (entries_lookup _ _ _ _ He) in Hin.
      destruct (match_without_exact _ _ _ _ Hn Hin Hm) as (q' & -> & Hq').
      specialize (Hle (q +:+ "*") t (proj2 (entries_lookup _ _ _ _ He) Hq) Hmq).
      specialize (Hbest q' t' Hin Hq').
      unfold pattern_le in Hle; simpl in Hle. rewrite !star_length in Hle.
      assert (q = q') as -> by (eapply prefixes_same_length; eauto; lia). congruence.
    + apply matchWildcardItems_false in E as [_ E].
      rewrite (E (q +:+ "*") t) in Hmq; [done|]. by apply (entries_lookup _ _ _ _ He).
Qed.

Lemma wildcard_longest_prefix_witness :
  matchWildcardItems [("claude-*", "a"); ("claude-sonnet-*", "b"); ("*", "c")] "claude-sonnet-4"
  = ("b", true).
Proof.
  apply (wildcard_longest_prefix
    (list_to_map [("claude-sonnet-*", "b"); ("*", "c"); ("claude-*", "a")])).
  - unfold entries_of. rewrite map_to_list_to_map; [|apply (bool_decide_unpack _); vm_compute; exact I].
    apply (bool_decide_unpack _); vm_compute; exact I.
  - reflexivity.
  - exists "claude-sonnet-". split_and!; [reflexivity..|].
    intros q' u Hu _. apply elem_of_list_to_map_2 in Hu.
    rewrite !elem_of_cons, elem_of_nil in Hu.
    assert (Strings.String.length (q' +:+ "*") <= 15)%nat as Hl
      by (destruct Hu as [[= -> _]|[[= -> _]|[[= -> _]|[]]]]; simpl; lia).
    rewrite star_length in Hl. simpl. lia.
Defined.

(** The scheduling filter and the forwarding step agree: for an account
    with a mapping and without pass-through, a model is supported exactly when
    the mapping resolves it. *)
Theorem supported_iff_resolved opts a model :
  IsOpenAIPassthroughEnabled a = false ->
  mapping_or_empty (GetModelMapping opts a) <> ∅ ->
  IsModelSupported opts a model = (ResolveMappedModel opts a model).2.
Proof.
  intros Hp Hm. unfold IsModelSupported, ResolveMappedModel.
  rewrite Hp, !(bool_decide_eq_false_2 _ Hm), mappingSupports_resolve.
  destruct (resolveRequestedModelInMapping _ model) as [t [|]]; [done|]. simpl.
  destruct (bool_decide (normalizeRequestedModelForLookup (Platform a) model = model)); [done|].
  simpl. rewrite mappingSupports_resolve.
  by destruct (resolveRequestedModelInMapping _ (normalizeRequestedModelForLookup _ _)) as [? []].
Qed.

Lemma supported_iff_resolved_witness :
  let a := mkAccount 1 PlatformAnthropic AccountTypeOAuth
             (Some {["model_mapping" := AMap {["claude-*" := AString "claude-sonnet-4-6"]}]})
             None 1 1 None None StatusActive None false true None None None None None None "" None [] in
  IsModelSupported (mkOptions "" false) a "claude-x" = true.
Proof.
  intros a. etransitivity.
  - apply supported_iff_resolved; [reflexivity|].
    intros H. apply (f_equal (lookup "claude-*")) in H. vm_compute in H. discriminate H.
  - vm_compute. reflexivity.
Defined.

(** *** Antigravity: configured mappings are completed, not overridden *)

Lemma supports_spec m r :
  r <> "" -> mappingSupportsRequestedModel m r = true <->
  exists p t, m !! p = Some t /\ (p = r \/ matchWildcard p r = true).
Proof.
  intros Hr. unfold mappingSupportsRequestedModel. rewrite bool_decide_eq_false_2 by done.
  destruct (m !! r) as [t|] eqn:E.
  - split; [eauto 10|done].
  - rewrite existsb_map_to_list. split.
    + intros (k & v & Hk & Hf). eauto.
    + intros (k & v & Hk & [->|Hf]); [congruence|eauto].
Qed.

(** [grows m m']: every key of [m] is a key of [m']. *)
Definition keys_grow (m m' : mapping) : Prop :=
  forall k t, m !! k = Some t -> exists t', m' !! k = Some t'.

#[export] Instance keys_grow_preorder : PreOrder keys_grow.
Proof.
  unfold keys_grow. split; [intros m k t H; eauto|].
  intros m1 m2 m3 H1 H2 k t Hk. destruct (H1 k t Hk) as [t' Ht']. eauto.
Qed.

Lemma keys_grow_insert m k t : keys_grow m (<[k := t]> m).
Proof.
  intros k' t' Hk. destruct (decide (k = k')) as [->|].
  - exists t. apply lookup_insert_eq.
  - exists t'. by rewrite lookup_insert_ne.
Qed.

Lemma supports_grow m m' r :
  keys_grow m m' -> mappingSupportsRequestedModel m r = true ->
  mappingSupportsRequestedModel m' r = true.
Proof.
  intros Hg Hs. destruct (decide (r = "")) as [->|Hr].
  - unfold mappingSupportsRequestedModel in Hs. by rewrite bool_decide_eq_true_2 in Hs.
  - apply supports_spec in Hs as (p & t & Hp & Hm); [|done].
    destruct (Hg p t Hp) as [t' Ht']. apply supports_spec; eauto.
Qed.

Lemma ensure_spec m model :
  model <> "" ->
  let m' := ensureAntigravityDefaultPassthrough m model in
  mappingSupportsRequestedModel m' model = true /\
  (forall k t, m !! k = Some t -> m' !! k = Some t).
Proof.
  intros Hne m'. subst m'. unfold ensureAntigravityDefaultPassthrough.
  rewrite bool_decide_eq_false_2 by done. destruct (m !! model) as [t|] eqn:E.
  - split; [apply supports_spec; eauto|eauto].
  - unfold mappingHasWildcardForModel.
    destruct (existsb _ (map_to_list m)) eqn:Ew.
    + apply existsb_map_to_list in Ew as (k & v & Hk & Hf). split; [|eauto].
      apply supports_spec; eauto.
    + split.
      * apply supports_spec; [done|]. exists model, model. rewrite lookup_insert_eq. eauto.
      * intros k t Hk. destruct (decide (model = k)) as [->|]; [congruence|].
        by rewrite lookup_insert_ne.
Qed.

Lemma ensure_all_spec models m :
  Forall (fun r => r <> "") models ->
  let m' := ensureAntigravityDefaultPassthroughs m models in
  Forall (fun r => mappingSupportsRequestedModel m' r = true) models /\
  (forall k t, m !! k = Some t -> m' !! k = Some t).
Proof.
  unfold ensureAntigravityDefaultPassthroughs.
  revert m. induction models as [|r models IH]; intros m Hall; simpl; [eauto|].
  inversion_clear Hall as [|? ? Hr Hrest].
  destruct (ensure_spec m r Hr) as [Hs Hk].
  destruct (IH (ensureAntigravityDefaultPassthrough m r) Hrest) as [Hs' Hk']. split.
  - constructor; [|done]. eapply supports_grow; [|exact Hs]. intros k t H. eauto.
  - eauto.
Qed.

Lemma apply_alias_spec target m alias :
  let m' := applyGemini31ProAlias target m alias in
  keys_grow m m' /\
  (forall k, m' !! k = m !! k \/ (k = alias.1 /\ m' !! k = Some target)).
Proof.
  unfold applyGemini31ProAlias. cbv zeta.
  assert (keys_grow m m /\
    (forall k, m !! k = m !! k \/ (k = alias.1 /\ m !! k = Some target))) as Hid
    by (split; [reflexivity|by left]).
  assert (keys_grow m (<[alias.1 := target]> m) /\
    (forall k, <[alias.1 := target]> m !! k = m !! k \/
               (k = alias.1 /\ <[alias.1 := target]> m !! k = Some target))) as Hins.
  { split; [apply keys_grow_insert|]. intros k. destruct (decide (alias.1 = k)) as [<-|].
    - right. by rewrite lookup_insert_eq.
    - left. by rewrite lookup_insert_ne. }
  repeat case_match; done.
Qed.

Lemma apply_aliases_spec target aliases m :
  let m' := foldl (applyGemini31ProAlias target) m aliases in
  keys_grow m m' /\
  (forall k, m' !! k = m !! k \/ (k ∈ aliases.*1 /\ m' !! k = Some target)).
Proof.
  revert m. induction aliases as [|al aliases IH]; intros m; simpl.
  - split; [reflexivity|by left].
  - destruct (apply_alias_spec target m al) as [Hg Hk].
    destruct (IH (applyGemini31ProAlias target m al)) as [Hg' Hk']. split.
    + by etrans.
    + intros k. destruct (Hk' k) as [E|[Hin E]]; [|right; split; [|done]; by right].
      rewrite E. destruct (Hk k) as [E'|[-> E']]; [by left|]. right. split; [left|done].
Qed.

(** A configured mapping of an Antigravity account is only completed: each
    built-in pass-through model becomes servable, no configured key is lost,
    and a configured target changes only for the Gemini 3.1 Pro aliases, where
    it becomes the configured agent target. *)
Theorem antigravity_mapping_completed opts a (creds : gmap string any) :
  Platform a = PlatformAntigravity -> Credentials a = Some creds ->
  string_entries (raw_model_mapping a) <> ∅ ->
  exists m, GetModelMapping opts a = Some m /\
    Forall (fun r => mappingSupportsRequestedModel m r = true) antigravityPassthroughModels /\
    (forall k t, string_entries (raw_model_mapping a) !! k = Some t ->
       m !! k = Some t \/
       (k ∈ gemini31ProAliases.*1 /\
        m !! k = Some (TrimSpace (default ""
          (ensureAntigravityDefaultPassthroughs (string_entries (raw_model_mapping a))
             antigravityPassthroughModels !! AntigravityGemini31ProAgentModel))))).
Proof.
  intros Hp Hc Hne. unfold GetModelMapping, resolveModelMapping. rewrite Hc, Hp.
  assert (raw_model_mapping a <> ∅) as Hraw
    by (intros E; apply Hne; rewrite E; apply omap_empty).
  rewrite (bool_decide_eq_false_2 _ Hraw), (bool_decide_eq_false_2 _ Hne).
  eexists. split; [reflexivity|].
  destruct (ensure_all_spec antigravityPassthroughModels (string_entries (raw_model_mapping a)))
    as [Hs Hk]; [repeat constructor; discriminate|].
  set (m1 := ensureAntigravityDefaultPassthroughs _ _) in *.
  unfold applyAntigravityGemini31ProAliases.
  destruct (bool_decide (TrimSpace (default "" (m1 !! AntigravityGemini31ProAgentModel)) = ""));
    [eauto|].
  destruct (apply_aliases_spec (TrimSpace (default "" (m1 !! AntigravityGemini31ProAgentModel)))
    gemini31ProAliases m1) as [Hg Hk']. split.
  - eapply Forall_impl; [exact Hs|]. intros r Hr. by eapply supports_grow.
  - intros k t Ht. destruct (Hk' k) as [E|[Hin E]]; [left|right; eauto].
    rewrite E. eauto.
Qed.

Lemma antigravity_mapping_completed_witness :
  let a := mkAccount 1 PlatformAntigravity AccountTypeOAuth
             (Some {["model_mapping" := AMap {["gemini-3.1-pro-high" := AString "own"]}]})
             None 1 1 None None StatusActive None false true None None None None None None "" None [] in
  exists m, GetModelMapping (mkOptions "" false) a = Some m /\
    mappingSupportsRequestedModel m "gemini-3.6-flash" = true.
Proof.
  intros a.
  destruct (antigravity_mapping_completed (mkOptions "" false) a
    {["model_mapping" := AMap {["gemini-3.1-pro-high" := AString "own"]}]})
    as (m & Hm & Hs & _); [reflexivity|reflexivity| |].
  - intros H. apply (f_equal (lookup "gemini-3.1-pro-high")) in H. vm_compute in H. discriminate H.
  - exists m. split; [exact Hm|]. rewrite Forall_forall in Hs. apply Hs.
    apply (bool_decide_unpack _). vm_compute. exact I.
Defined.

(** *** The mapping cache *)

(** A cache [c] is faithful for an account: the entry it holds, if its keys
    are the current ones, is what resolution yields. *)
Definition cache_faithful opts version cptr rptr a (c : MappingCache) : Prop :=
  cacheReady c = true -> cacheCredentialsPtr c = cptr -> cacheRawPtr c = rptr ->
  cacheRuntimeVersion c = version -> cacheRawLen c = size (raw_model_mapping a) ->
  cacheRawSig c = modelMappingSignature (raw_model_mapping a) ->
  cacheMapping c = GetModelMapping opts a.

(** C38: the model-mapping cache is transparent. From a faithful cache,
    [GetModelMapping] returns the resolved mapping and leaves a faithful cache;
    and after the raw mapping is edited in place (same pointers, any length)
    the cache stays faithful as soon as the edit changes the signature. *)
Theorem GetModelMapping_cache_correct opts version cptr rptr a c :
  cache_faithful opts version cptr rptr a c ->
  let r := GetModelMappingCached opts version cptr rptr a c in
  r.1 = GetModelMapping opts a /\
  cache_faithful opts version cptr rptr a r.2 /\
  (forall a', modelMappingSignature (raw_model_mapping a') <>
              modelMappingSignature (raw_model_mapping a) ->
     (GetModelMappingCached opts version cptr rptr a' r.2).1 = GetModelMapping opts a').
Proof.
  intros Hf. unfold GetModelMappingCached. cbv zeta.
  destruct (cacheReady c && (cacheCredentialsPtr c =? cptr) && (cacheRawPtr c =? rptr)
     && (cacheRawLen c =? size (raw_model_mapping a))%nat && (cacheRuntimeVersion c =? version)
     && (cacheRawSig c =? modelMappingSignature (raw_model_mapping a))) eqn:E; simpl.
  - rewrite !andb_true_iff, !Z.eqb_eq, Nat.eqb_eq in E.
    destruct E as [[[[[H1 H2] H3] H4] H5] H6]. split_and!; [by apply Hf|done|].
    intros a' Hne. rewrite H6.
    rewrite (proj2 (Z.eqb_neq (modelMappingSignature (raw_model_mapping a))
      (modelMappingSignature (raw_model_mapping a')))) by congruence.
    by rewrite andb_false_r.
  - split_and!; [done|by unfold cache_faithful|].
    intros a' Hne.
    rewrite (proj2 (Z.eqb_neq (modelMappingSignature (raw_model_mapping a))
      (modelMappingSignature (raw_model_mapping a')))) by congruence.
    by rewrite andb_false_r.
Qed.

Lemma GetModelMapping_cache_correct_witness :
  let a := mkAccount 1 PlatformGrok AccountTypeOAuth None
             None 1 1 None None StatusActive None false true None None None None None None "" None [] in
  (GetModelMappingCached (mkOptions "" true) 1 7 0 a emptyCache).1 =
  GetModelMapping (mkOptions "" true) a.
Proof.
  intros a. refine (proj1 (GetModelMapping_cache_correct (mkOptions "" true) 1 7 0 a emptyCache _)).
  intros H. discriminate H.
Defined.

(** *** The default Grok mapping *)

Lemma put_all_notin l m k : k ∉ l.*1 -> put_all l m !! k = m !! k.
Proof.
  unfold put_all. revert m. induction l as [|[k' t'] l IH]; intros m; simpl; [done|].
  intros [Hne Hni]%not_elem_of_cons. rewrite IH by done. by rewrite lookup_insert_ne.
Qed.

Lemma put_all_in l m k t :
  k ∈ l.*1 -> (forall t', (k, t') ∈ l -> t' = t) -> put_all l m !! k = Some t.
Proof.
  unfold put_all. revert m. induction l as [|[k' t'] l IH]; intros m; simpl.
  - by intros ?%not_elem_of_nil.
  - intros Hin Hu. destruct (decide (k ∈ l.*1)) as [Hl|Hl].
    + apply IH; [done|]. intros u Hu'. apply Hu. by right.
    + apply elem_of_cons in Hin as [->|?]; [|done].
      change (put_all l (<[k' := t']> m) !! k' = Some t). rewrite put_all_notin by done.
      rewrite lookup_insert_eq. f_equal. apply Hu. left.
Qed.

Lemma prefixedEntries_spec items x t :
  (x, t) ∈ prefixedEntries items <->
  exists p k, p ∈ grokProviderPrefixes /\ (k, t) ∈ items /\ isGrokNativeOrAlias k = true /\
    x = p +:+ k.
Proof.
  unfold prefixedEntries. rewrite list_elem_of_bind. split.
  - intros ([k u] & Hin & Hk). cbn [fst snd] in Hin.
    destruct (isGrokNativeOrAlias k) eqn:E; [|by apply not_elem_of_nil in Hin].
    apply list_elem_of_fmap in Hin as (p & [= -> ->] & Hp). exists p, k. done.
  - intros (p & k & Hp & Hk & Hn & ->). exists (k, t). split; [|done]. cbn [fst snd]. rewrite Hn.
    apply list_elem_of_fmap. by exists p.
Qed.

Lemma provider_prefix_inj p p' k k' :
  p ∈ grokProviderPrefixes -> p' ∈ grokProviderPrefixes -> p +:+ k = p' +:+ k' -> k = k'.
Proof.
  unfold grokProviderPrefixes, String.app.
  rewrite !elem_of_cons, !elem_of_nil. naive_solver.
Qed.

Lemma prefixed_lookup m p k t :
  p ∈ grokProviderPrefixes -> isGrokNativeOrAlias k = true -> m !! k = Some t ->
  addGrokProviderPrefixedMappings m !! (p +:+ k) = Some t.
Proof.
  intros Hp Hn Hk. unfold addGrokProviderPrefixedMappings. apply put_all_in.
  - apply list_elem_of_fmap. exists (p +:+ k, t). split; [done|].
    apply prefixedEntries_spec. exists p, k. rewrite elem_of_map_to_list. done.
  - intros u (p' & k' & Hp' & Hk' & _ & E)%prefixedEntries_spec.
    apply provider_prefix_inj in E; [|done..]. subst k'.
    apply elem_of_map_to_list in Hk'. congruence.
Qed.

Lemma unprefixed_lookup m k :
  existsb (HasPrefix k) grokProviderPrefixes = false ->
  addGrokProviderPrefixedMappings m !! k = m !! k.
Proof.
  intros Hno. unfold addGrokProviderPrefixedMappings. apply put_all_notin.
  intros ([x u] & -> & Hin)%list_elem_of_fmap. cbn [fst snd] in Hno.
  apply prefixedEntries_spec in Hin as (p & k' & Hp & _ & _ & ->).
  revert Hno. apply not_false_iff_true, existsb_exists. exists p.
  split; [by apply list_elem_of_In|]. apply HasPrefix_spec. eauto.
Qed.

(** The default Grok mapping serves every native model under its own name
    and under each provider prefix, with the same target; the bare text
    aliases and, when enabled, the cross-client patterns go to the operator's
    default text model; and patterns never get a provider prefix. *)
Theorem grok_default_mapping_native opts :
  let m := ModelMappingWithOptions opts in
  (forall id, id ∈ grokDefaultModelIDs -> m !! id = Some id) /\
  (forall p k t, p ∈ grokProviderPrefixes -> isGrokNativeOrAlias k = true ->
     m !! k = Some t -> existsb (HasPrefix k) grokProviderPrefixes = false ->
     m !! (p +:+ k) = Some t) /\
  m !! "grok" = Some (defaultText opts) /\
  m !! "grok-latest" = Some (defaultText opts) /\
  m !! "gpt-*" = (if EnableCrossClientMap opts then Some (defaultText opts) else None).
Proof.
  cbv zeta. unfold ModelMappingWithOptions.
  assert (Forall (fun id => existsb (HasPrefix id) grokProviderPrefixes = false /\
            grokNativeMapping opts !! id = Some id) grokDefaultModelIDs) as Hids.
  { unfold grokNativeMapping. generalize (defaultText opts). intros t.
    destruct (EnableCrossClientMap opts); vm_compute; repeat constructor. }
  split_and!.
  - intros id Hid. rewrite Forall_forall in Hids. destruct (Hids id Hid) as [Hno Hid'].
    by rewrite unprefixed_lookup.
  - intros p k t Hp Hn Hk Hno. rewrite unprefixed_lookup in Hk by done.
    by apply prefixed_lookup.
  - rewrite unprefixed_lookup by reflexivity. unfold grokNativeMapping.
    generalize (defaultText opts). intros t. by destruct (EnableCrossClientMap opts).
  - rewrite unprefixed_lookup by reflexivity. unfold grokNativeMapping.
    generalize (defaultText opts). intros t. by destruct (EnableCrossClientMap opts).
  - rewrite unprefixed_lookup by reflexivity. unfold grokNativeMapping.
    generalize (defaultText opts). intros t. by destruct (EnableCrossClientMap opts).
Qed.
