(* ===== verification/AccountQuota.v ===== *)
(** * Account quotas: internal/service/account.go, the quota functions

    Reading of quota settings from an account's extras, the fixed reset
    instants, the expiry of a quota period, the normalisation of an edited
    configuration and the verdict [IsQuotaExceeded].  [tzdb] stands for the
    operating system's time-zone database, which [time.LoadLocation] reads;
    each [time.Now()] of the source is an argument.  [Date] computes in
    unbounded integers, so the theorems on reset instants keep the hour in
    0..23, which [ValidateQuotaResetConfig] enforces on saving. *)

From S2P Require Import Prelude Float64 GoTime GoAny Account.
Local Open Scope Z_scope.

(** ** Values from extras *)

Definition parseExtraFloat64 (value : any) : f64 :=
  match value with
  | AFloat64 v | AFloat32 v => v
  | AInt v | AInt64 v => f64_of_Z v
  | ANumber s => default f0 (number_Float64 s)
  | AString s => default f0 (ParseFloat (TrimSpace s))
  | _ => f0
  end.

Definition parseExtraInt (value : any) : Z := int_of_any 0 value.
Definition ParseExtraInt (value : any) : Z := parseExtraInt value.

(** The two layouts the source tries parse the same texts: a fraction is
    accepted after the seconds whether or not the layout names it. *)
Definition parseExtraTime (value : any) : time :=
  match value with
  | AString s => match ParseRFC3339 s with
                 | Some t => t
                 | None => match ParseRFC3339 s with Some t => t | None => zero_time end
                 end
  | _ => zero_time
  end.

Definition getExtraFloat64 (a : Account) (key : string) : f64 :=
  match lookup_key (Extra a) key with Some v => parseExtraFloat64 v | None => f0 end.

Definition getExtraTime (a : Account) (key : string) : time :=
  match lookup_key (Extra a) key with Some v => parseExtraTime v | None => zero_time end.

Definition getExtraInt (a : Account) (key : string) : Z :=
  match lookup_key (Extra a) key with
  | Some v => f64_to_int64 (parseExtraFloat64 v)
  | None => 0
  end.

(** ** Quota settings *)

Definition GetQuotaLimit (a : Account) : f64 := getExtraFloat64 a "quota_limit".
Definition GetQuotaUsed (a : Account) : f64 := getExtraFloat64 a "quota_used".
Definition GetQuotaDailyLimit (a : Account) : f64 := getExtraFloat64 a "quota_daily_limit".
Definition GetQuotaDailyUsed (a : Account) : f64 := getExtraFloat64 a "quota_daily_used".
Definition GetQuotaWeeklyLimit (a : Account) : f64 := getExtraFloat64 a "quota_weekly_limit".
Definition GetQuotaWeeklyUsed (a : Account) : f64 := getExtraFloat64 a "quota_weekly_used".

Definition GetQuotaDailyResetMode (a : Account) : string :=
  if getExtraString a "quota_daily_reset_mode" ==? "fixed" then "fixed" else "rolling".

Definition GetQuotaDailyResetHour (a : Account) : Z := getExtraInt a "quota_daily_reset_hour".

Definition GetQuotaWeeklyResetMode (a : Account) : string :=
  if getExtraString a "quota_weekly_reset_mode" ==? "fixed" then "fixed" else "rolling".

Definition GetQuotaWeeklyResetDay (a : Account) : Z :=
  match lookup_key (Extra a) "quota_weekly_reset_day" with
  | None => 1
  | Some _ => getExtraInt a "quota_weekly_reset_day"
  end.

Definition GetQuotaWeeklyResetHour (a : Account) : Z := getExtraInt a "quota_weekly_reset_hour".

Definition GetQuotaResetTimezone (a : Account) : string :=
  let tz := getExtraString a "quota_reset_timezone" in
  if tz !=? "" then tz else "UTC".

Definition thresholdTypeFixed := "fixed".
Definition quotaDimDaily := "daily".
Definition quotaDimWeekly := "weekly".
Definition quotaDimTotal := "total".

Definition QuotaNotifyConfig (a : Account) (dim : string) : bool * f64 * string :=
  (getExtraBool a ("quota_notify_" +:+ dim +:+ "_enabled"),
   getExtraFloat64 a ("quota_notify_" +:+ dim +:+ "_threshold"),
   getExtraStringDefault a ("quota_notify_" +:+ dim +:+ "_threshold_type") thresholdTypeFixed).

Definition GetQuotaNotifyDailyEnabled (a : Account) : bool :=
  let '(e, _, _) := QuotaNotifyConfig a quotaDimDaily in e.
Definition GetQuotaNotifyDailyThreshold (a : Account) : f64 :=
  let '(_, t, _) := QuotaNotifyConfig a quotaDimDaily in t.
Definition GetQuotaNotifyDailyThresholdType (a : Account) : string :=
  let '(_, _, ty) := QuotaNotifyConfig a quotaDimDaily in ty.
Definition GetQuotaNotifyWeeklyEnabled (a : Account) : bool :=
  let '(e, _, _) := QuotaNotifyConfig a quotaDimWeekly in e.
Definition GetQuotaNotifyWeeklyThreshold (a : Account) : f64 :=
  let '(_, t, _) := QuotaNotifyConfig a quotaDimWeekly in t.
Definition GetQuotaNotifyWeeklyThresholdType (a : Account) : string :=
  let '(_, _, ty) := QuotaNotifyConfig a quotaDimWeekly in ty.
Definition GetQuotaNotifyTotalEnabled (a : Account) : bool :=
  let '(e, _, _) := QuotaNotifyConfig a quotaDimTotal in e.
Definition GetQuotaNotifyTotalThreshold (a : Account) : f64 :=
  let '(_, t, _) := QuotaNotifyConfig a quotaDimTotal in t.
Definition GetQuotaNotifyTotalThresholdType (a : Account) : string :=
  let '(_, _, ty) := QuotaNotifyConfig a quotaDimTotal in ty.

(** ** Fixed reset instants *)

(** [time.Date(t.Year(), t.Month(), t.Day(), hour, 0, 0, 0, tz)]. *)
Definition reset_today (hour : Z) (tz : Location) (t : time) : time :=
  let '(y, m, d) := DateOf tz t in Date tz y m d hour 0 0.

Definition nextFixedDailyReset (hour : Z) (tz : Location) (after : time) : time :=
  let today := reset_today hour tz after in
  if negb (Before after today) then AddDays tz today 1 else today.

Definition lastFixedDailyReset (hour : Z) (tz : Location) (now : time) : time :=
  let today := reset_today hour tz now in
  if Before now today then AddDays tz today (-1) else today.

Definition nextFixedWeeklyReset (day hour : Z) (tz : Location) (after : time) : time :=
  let todayReset := reset_today hour tz after in
  let currentDay := Weekday tz todayReset in
  let daysForward := Z.rem (day - currentDay + 7) 7 in
  let daysForward :=
    if (daysForward =? 0) && negb (Before after todayReset) then 7 else daysForward in
  AddDays tz todayReset daysForward.

Definition lastFixedWeeklyReset (day hour : Z) (tz : Location) (now : time) : time :=
  let todayReset := reset_today hour tz now in
  let currentDay := Weekday tz todayReset in
  let daysBack := Z.rem (currentDay - day + 7) 7 in
  let daysBack := if (daysBack =? 0) && Before now todayReset then 7 else daysBack in
  AddDays tz todayReset (- daysBack).

(** ** Configuration on save *)

Section Zones.
Context (tzdb : string -> option Location).

(** The location named by a configuration, UTC when unknown. *)
Definition quota_zone (tzName : string) : Location :=
  match LoadLocation tzdb (if tzName ==? "" then "UTC" else tzName) with
  | Some tz => tz
  | None => UTC
  end.

Definition clamp_hour (hour : Z) : Z := if (hour <? 0) || (23 <? hour) then 0 else hour.
Definition clamp_day (day : Z) : Z := if (day <? 0) || (6 <? day) then 1 else day.

Definition daily_hour (extra : gmap string any) : Z :=
  clamp_hour (f64_to_int64 (parseExtraFloat64 (index_key (Some extra) "quota_daily_reset_hour"))).

Definition weekly_hour (extra : gmap string any) : Z :=
  clamp_hour (f64_to_int64 (parseExtraFloat64 (index_key (Some extra) "quota_weekly_reset_hour"))).

Definition weekly_day (extra : gmap string any) : Z :=
  clamp_day (match extra !! "quota_weekly_reset_day" with
             | Some d => f64_to_int64 (parseExtraFloat64 d)
             | None => 1
             end).

Definition config_zone (extra : gmap string any) : Location :=
  quota_zone (text (Some extra) "quota_reset_timezone").

(** The daily and the weekly halves of [ComputeQuotaResetAt]. *)
Definition compute_daily_reset_at (now : time) (extra : gmap string any) : gmap string any :=
  if text (Some extra) "quota_daily_reset_mode" ==? "fixed" then
    <["quota_daily_reset_at" := AString (FormatRFC3339
        (nextFixedDailyReset (daily_hour extra) (config_zone extra) now))]> extra
  else delete "quota_daily_reset_at" extra.

Definition compute_weekly_reset_at (now : time) (extra : gmap string any) : gmap string any :=
  if text (Some extra) "quota_weekly_reset_mode" ==? "fixed" then
    <["quota_weekly_reset_at" := AString (FormatRFC3339
        (nextFixedWeeklyReset (weekly_day extra) (weekly_hour extra) (config_zone extra) now))]> extra
  else delete "quota_weekly_reset_at" extra.

Definition ComputeQuotaResetAt (now : time) (extra : anymap) : anymap :=
  compute_weekly_reset_at now <$> (compute_daily_reset_at now <$> extra).

(** [start.IsZero() || start.Before(lastReset)], and the reset it triggers. *)
Definition restart_window (usedKey startKey : string) (lastReset : time)
    (extra : gmap string any) : gmap string any :=
  let start := parseExtraTime (index_key (Some extra) startKey) in
  if IsZero start || Before start lastReset then
    <[startKey := AString (FormatRFC3339 lastReset)]> (<[usedKey := AFloat64 f0]> extra)
  else extra.

Definition normalize_daily (now : time) (extra : gmap string any) : gmap string any :=
  if (text (Some extra) "quota_daily_reset_mode" ==? "fixed") &&
     fltb f0 (parseExtraFloat64 (index_key (Some extra) "quota_daily_limit")) then
    restart_window "quota_daily_used" "quota_daily_start"
      (lastFixedDailyReset (daily_hour extra) (config_zone extra) now) extra
  else extra.

Definition normalize_weekly (now : time) (extra : gmap string any) : gmap string any :=
  if (text (Some extra) "quota_weekly_reset_mode" ==? "fixed") &&
     fltb f0 (parseExtraFloat64 (index_key (Some extra) "quota_weekly_limit")) then
    restart_window "quota_weekly_used" "quota_weekly_start"
      (lastFixedWeeklyReset (weekly_day extra) (weekly_hour extra) (config_zone extra) now) extra
  else extra.

Definition NormalizeFixedQuotaWindows (now : time) (extra : anymap) : anymap :=
  normalize_weekly now <$> (normalize_daily now <$> extra).

Inductive QuotaConfigError :=
| InvalidTimezone | InvalidDailyMode | InvalidDailyHour
| InvalidWeeklyMode | InvalidWeeklyDay | InvalidWeeklyHour.

Definition valid_mode (v : any) : bool :=
  match v with AString mode => (mode ==? "rolling") || (mode ==? "fixed") | _ => true end.

(** An integer setting is absent or within [lo..hi]. *)
Definition valid_setting (lo hi : Z) (v : option any) : bool :=
  match v with
  | Some v => let n := f64_to_int64 (parseExtraFloat64 v) in negb ((n <? lo) || (hi <? n))
  | None => true
  end.

Definition valid_timezone (v : any) : bool :=
  match v with
  | AString tz => if tz !=? "" then match LoadLocation tzdb tz with Some _ => true | None => false end
                  else true
  | _ => true
  end.

Definition ValidateQuotaResetConfig (extra : anymap) : result QuotaConfigError unit :=
  match extra with
  | None => Ok ()
  | Some _ =>
      if negb (valid_timezone (index_key extra "quota_reset_timezone")) then Err InvalidTimezone
      else if negb (valid_mode (index_key extra "quota_daily_reset_mode")) then Err InvalidDailyMode
      else if negb (valid_setting 0 23 (lookup_key extra "quota_daily_reset_hour"))
      then Err InvalidDailyHour
      else if negb (valid_mode (index_key extra "quota_weekly_reset_mode"))
      then Err InvalidWeeklyMode
      else if negb (valid_setting 0 6 (lookup_key extra "quota_weekly_reset_day"))
      then Err InvalidWeeklyDay
      else if negb (valid_setting 0 23 (lookup_key extra "quota_weekly_reset_hour"))
      then Err InvalidWeeklyHour
      else Ok ()
  end.

(** ** Expiry of a period and the quota verdict *)

Definition isFixedDailyPeriodExpired (now : time) (a : Account) (periodStart : time) : bool :=
  if IsZero periodStart then true
  else Before periodStart (lastFixedDailyReset (GetQuotaDailyResetHour a)
                             (quota_zone (GetQuotaResetTimezone a)) now).

Definition isFixedWeeklyPeriodExpired (now : time) (a : Account) (periodStart : time) : bool :=
  if IsZero periodStart then true
  else Before periodStart (lastFixedWeeklyReset (GetQuotaWeeklyResetDay a)
                             (GetQuotaWeeklyResetHour a)
                             (quota_zone (GetQuotaResetTimezone a)) now).

Definition HasAnyQuotaLimit (a : Account) : bool :=
  fltb f0 (GetQuotaLimit a) || fltb f0 (GetQuotaDailyLimit a) || fltb f0 (GetQuotaWeeklyLimit a).

Definition isPeriodExpired (now periodStart : time) (dur : duration) : bool :=
  if IsZero periodStart then true else dur <=? Sub now periodStart.

Definition IsDailyQuotaPeriodExpired (now : time) (a : Account) : bool :=
  let start := getExtraTime a "quota_daily_start" in
  if GetQuotaDailyResetMode a ==? "fixed" then isFixedDailyPeriodExpired now a start
  else isPeriodExpired now start (24 * hour).

Definition IsWeeklyQuotaPeriodExpired (now : time) (a : Account) : bool :=
  let start := getExtraTime a "quota_weekly_start" in
  if GetQuotaWeeklyResetMode a ==? "fixed" then isFixedWeeklyPeriodExpired now a start
  else isPeriodExpired now start (7 * 24 * hour).

(** The clock is read once for the daily and once for the weekly window. *)
Definition IsQuotaExceeded (now_d now_w : time) (a : Account) : bool :=
  if fltb f0 (GetQuotaLimit a) && fleb (GetQuotaLimit a) (GetQuotaUsed a) then true
  else if fltb f0 (GetQuotaDailyLimit a) &&
          (let start := getExtraTime a "quota_daily_start" in
           let expired := if GetQuotaDailyResetMode a ==? "fixed"
                          then isFixedDailyPeriodExpired now_d a start
                          else isPeriodExpired now_d start (24 * hour) in
           negb expired && fleb (GetQuotaDailyLimit a) (GetQuotaDailyUsed a)) then true
  else if fltb f0 (GetQuotaWeeklyLimit a) &&
          (let start := getExtraTime a "quota_weekly_start" in
           let expired := if GetQuotaWeeklyResetMode a ==? "fixed"
                          then isFixedWeeklyPeriodExpired now_w a start
                          else isPeriodExpired now_w start (7 * 24 * hour) in
           negb expired && fleb (GetQuotaWeeklyLimit a) (GetQuotaWeeklyUsed a)) then true
  else false.

End Zones.

(** ** Reset instants in a location that keeps its offset around [now] *)

(** The offset does not change within ten days of [now]. *)
Definition calm (loc : Location) (now : time) (off : Z) : Prop :=
  steady loc (unix_sec now - 10 * 86400) (unix_sec now + 10 * 86400) off /\ -86400 <= off <= 86400.

(** The instant of wall clock [h]:00:00 on local day [day]. *)
Definition reset_at (off day h : Z) : time := of_unix (day * 86400 + h * 3600 - off).

Lemma unix_sec_of_unix s : unix_sec (of_unix s) = s.
Proof. apply Z.div_mul. done. Qed.

Lemma of_unix_whole s : of_unix s mod second = 0.
Proof. apply Z.mod_mul. done. Qed.

#[export] Hint Resolve of_unix_whole : go.

(** Resets [n] days apart. *)
Lemma reset_at_add off day n h : reset_at off (day + n) h = reset_at off day h + n * (24 * hour).
Proof. unfold reset_at, of_unix, hour, minute, second. lia. Qed.

Section Calm.
Context (loc : Location) (now : time) (off : Z) (Hcalm : calm loc now off).
Let D := local_day loc now.

Lemma calm_local_sec t :
  unix_sec now - 10 * 86400 <= unix_sec t <= unix_sec now + 10 * 86400 ->
  local_sec loc t = unix_sec t + off.
Proof. intros H. unfold local_sec. destruct Hcalm as [Hs _]. by rewrite Hs. Qed.

Lemma calm_day : D * 86400 <= unix_sec now + off < D * 86400 + 86400.
Proof.
  unfold D, local_day. rewrite calm_local_sec by lia.
  Z.to_euclidean_division_equations. lia.
Qed.

(** The location read back from a reset instant. *)
Lemma reset_at_local day h :
  -8 <= day - D <= 8 -> 0 <= h < 24 ->
  local_day loc (reset_at off day h) = day /\ local_tod loc (reset_at off day h) = h * 3600.
Proof.
  intros Hd Hh. pose proof calm_day. destruct Hcalm as [_ Ho].
  unfold local_day, local_tod. unfold reset_at at 1 2.
  rewrite calm_local_sec by (rewrite unix_sec_of_unix; lia). rewrite unix_sec_of_unix.
  replace (day * 86400 + h * 3600 - off + off) with (h * 3600 + day * 86400) by lia.
  rewrite Z.div_add, Z_mod_plus_full by done.
  by rewrite Z.div_small, Z.mod_small by lia.
Qed.

Lemma reset_at_tod day h :
  -8 <= day - D <= 8 -> 0 <= h < 24 -> local_tod loc (reset_at off day h) = h * 3600.
Proof. intros. by apply reset_at_local. Qed.

Lemma Date_reset day n h :
  -8 <= day + n - D <= 8 -> 0 <= h < 24 ->
  (let '(y, m, d) := civil_from_days day in Date loc y m (d + n) h 0 0) = reset_at off (day + n) h.
Proof.
  intros Hd Hh. pose proof calm_day as HD.
  pose proof (civil_ranges day) as Hr. pose proof (days_civil_days day) as Hdays.
  destruct (civil_from_days day) as [[y m] d]. destruct Hcalm as [Hs Ho].
  assert (days_from_civil y m (d + n) = day + n) as E by (rewrite days_from_civil_add; lia).
  erewrite Date_steady; [|exact Hs|lia|rewrite E; lia..]. rewrite E.
  unfold reset_at. f_equal. lia.
Qed.

Lemma reset_today_at h : 0 <= h < 24 -> reset_today h loc now = reset_at off D h.
Proof.
  intros Hh. unfold reset_today, DateOf. fold D. pose proof (Date_reset D 0 h) as E.
  destruct (civil_from_days D) as [[y m] d]. rewrite !Z.add_0_r in E. apply E; lia.
Qed.

Lemma AddDays_reset day h n :
  -8 <= day - D <= 8 -> -8 <= day + n - D <= 8 -> 0 <= h < 24 ->
  AddDays loc (reset_at off day h) n = reset_at off (day + n) h.
Proof.
  intros Hd Hn Hh. destruct (reset_at_local day h) as [E1 E2]; [done..|].
  unfold AddDays, DateOf. rewrite E1, E2. rewrite <- Date_reset by done.
  destruct (civil_from_days day) as [[y m] d].
  rewrite Z.div_mul, Z.mod_mul by done.
  by replace (h * 3600) with (h * 60 * 60) by lia; rewrite Z.mod_mul.
Qed.

Lemma reset_Weekday day h :
  -8 <= day - D <= 8 -> 0 <= h < 24 -> Weekday loc (reset_at off day h) = (day + 4) mod 7.
Proof. intros. unfold Weekday. by destruct (reset_at_local day h) as [-> _]. Qed.

(** Comparison of [now] with a reset instant, on the local clock. *)
Lemma Before_reset day h :
  Before now (reset_at off day h) = (unix_sec now + off <? day * 86400 + h * 3600).
Proof.
  unfold Before, reset_at, of_unix, unix_sec. apply eq_true_iff_eq.
  rewrite !Z.ltb_lt. unfold second. Z.to_euclidean_division_equations. lia.
Qed.

(** The last and the next reset day as offsets from today. *)
Definition passed (h : Z) : bool := negb (Before now (reset_at off D h)).

Lemma lastFixedDailyReset_at h :
  0 <= h < 24 -> lastFixedDailyReset h loc now = reset_at off (if passed h then D else D - 1) h.
Proof.
  intros Hh. unfold lastFixedDailyReset, passed. rewrite reset_today_at by done.
  destruct (Before _ _); simpl; [|done]. rewrite AddDays_reset by lia. done.
Qed.

Lemma nextFixedDailyReset_at h :
  0 <= h < 24 -> nextFixedDailyReset h loc now = reset_at off (if passed h then D + 1 else D) h.
Proof.
  intros Hh. unfold nextFixedDailyReset, passed. rewrite reset_today_at by done.
  destruct (Before _ _); simpl; [done|]. by rewrite AddDays_reset by lia.
Qed.

Lemma lastFixedWeeklyReset_at day h :
  0 <= h < 24 -> 0 <= day <= 6 ->
  lastFixedWeeklyReset day h loc now =
  reset_at off (D - (let b := ((D + 4) mod 7 - day) mod 7 in
                     if (b =? 0) && negb (passed h) then 7 else b)) h.
Proof.
  intros Hh Hd. unfold lastFixedWeeklyReset, passed. rewrite reset_today_at by done.
  rewrite reset_Weekday by lia. rewrite negb_involutive.
  pose proof (Z.mod_pos_bound (D + 4) 7 ltac:(done)).
  assert (Z.rem ((D + 4) mod 7 - day + 7) 7 = ((D + 4) mod 7 - day) mod 7) as ->
    by (Z.to_euclidean_division_equations; lia).
  pose proof (Z.mod_pos_bound ((D + 4) mod 7 - day) 7 ltac:(done)).
  cbv zeta. destruct (_ && _); rewrite AddDays_reset by lia; f_equal; lia.
Qed.

Lemma nextFixedWeeklyReset_at day h :
  0 <= h < 24 -> 0 <= day <= 6 ->
  nextFixedWeeklyReset day h loc now =
  reset_at off (D + (let b := (day - (D + 4) mod 7) mod 7 in
                     if (b =? 0) && passed h then 7 else b)) h.
Proof.
  intros Hh Hd. unfold nextFixedWeeklyReset, passed. rewrite reset_today_at by done.
  rewrite reset_Weekday by lia.
  pose proof (Z.mod_pos_bound (D + 4) 7 ltac:(done)).
  assert (Z.rem (day - (D + 4) mod 7 + 7) 7 = (day - (D + 4) mod 7) mod 7) as ->
    by (Z.to_euclidean_division_equations; lia).
  pose proof (Z.mod_pos_bound (day - (D + 4) mod 7) 7 ltac:(done)).
  cbv zeta. destruct (_ && _); by rewrite AddDays_reset by lia.
Qed.

Lemma not_passed_spec h : passed h = false <-> now < reset_at off D h.
Proof. unfold passed, Before. rewrite negb_false_iff. apply Z.ltb_lt. Qed.

Lemma passed_spec h : passed h = true <-> reset_at off D h <= now.
Proof. unfold passed, Before. rewrite negb_true_iff. apply Z.ltb_ge. Qed.

(** Today's reset is less than a day away, on either side. *)
Lemma today_near h :
  0 <= h < 24 -> now - 24 * hour < reset_at off D h < now + 24 * hour.
Proof.
  intros Hh. pose proof calm_day as HD. unfold reset_at, of_unix, hour, minute.
  assert (0 < second) by done.
  assert (second * unix_sec now <= now < second * unix_sec now + second) as Hn
    by (unfold unix_sec; Z.to_euclidean_division_equations; lia).
  nia.
Qed.

End Calm.

Lemma daily_brackets h loc now off :
  calm loc now off -> 0 <= h < 24 ->
  let l := lastFixedDailyReset h loc now in
  let n := nextFixedDailyReset h loc now in
  l <= now < n /\ n = l + 24 * hour /\
  local_tod loc l = h * 3600 /\ local_tod loc n = h * 3600.
Proof.
  intros Hc Hh l n. pose proof (today_near loc now off Hc h Hh) as Hnear.
  subst l n. rewrite (lastFixedDailyReset_at loc now off Hc) by done.
  rewrite (nextFixedDailyReset_at loc now off Hc) by done.
  destruct (passed loc now off h) eqn:E.
  - apply passed_spec in E. rewrite !(reset_at_tod loc now off Hc) by lia.
    rewrite reset_at_add. lia.
  - apply not_passed_spec in E.
    replace (local_day loc now - 1) with (local_day loc now + -1) by lia.
    rewrite !(reset_at_tod loc now off Hc) by lia.
    rewrite reset_at_add. lia.
Qed.

Lemma weekly_brackets day h loc now off :
  calm loc now off -> 0 <= h < 24 -> 0 <= day <= 6 ->
  let l := lastFixedWeeklyReset day h loc now in
  let n := nextFixedWeeklyReset day h loc now in
  l <= now < n /\ n = l + 7 * (24 * hour) /\
  Weekday loc l = day /\ Weekday loc n = day /\
  local_tod loc l = h * 3600 /\ local_tod loc n = h * 3600.
Proof.
  intros Hc Hh Hd l n. pose proof (today_near loc now off Hc h Hh) as Hnear.
  subst l n. rewrite (lastFixedWeeklyReset_at loc now off Hc) by done.
  rewrite (nextFixedWeeklyReset_at loc now off Hc) by done.
  set (D := local_day loc now) in *.
  set (b := ((D + 4) mod 7 - day) mod 7). set (f := (day - (D + 4) mod 7) mod 7). cbv zeta.
  assert (0 < 24 * hour) by done.
  assert (0 <= b < 7 /\ 0 <= f < 7 /\ (D - b + 4) mod 7 = day /\ (D + f + 4) mod 7 = day /\
          (b = 0 /\ f = 0 \/ 0 < b /\ b + f = 7)) as (Hb & Hf & Hwb & Hwf & Hbf)
    by (subst b f; Z.to_euclidean_division_equations; lia).
  set (back := if (b =? 0) && negb (passed loc now off h) then 7 else b).
  set (fwd := if (f =? 0) && passed loc now off h then 7 else f).
  assert (back + fwd = 7 /\ 0 <= back <= 7 /\ 0 <= fwd <= 7 /\
          (passed loc now off h = true -> 0 < fwd) /\ (passed loc now off h = false -> 0 < back) /\
          (D - back + 4) mod 7 = day /\ (D + fwd + 4) mod 7 = day)
    as (Hsum & Hback & Hfwd & Hp & Hnp & Wb & Wf).
  { subst back fwd. clear Hnear. destruct (passed loc now off h);
      destruct (Z.eqb_spec b 0), (Z.eqb_spec f 0); simpl; split_and!; try done; try lia;
      Z.to_euclidean_division_equations; lia. }
  clearbody back fwd.
  replace (D - back) with (D + - back) in * by lia.
  assert (now < reset_at off (D + fwd) h /\ reset_at off (D + - back) h <= now).
  { rewrite !reset_at_add. destruct (passed loc now off h) eqn:E.
    - apply passed_spec in E. fold D in E. specialize (Hp eq_refl). nia.
    - apply not_passed_spec in E. fold D in E. specialize (Hnp eq_refl). nia. }
  destruct (reset_at_local loc now off Hc (D + - back) h) as [L1 L2]; [lia..|].
  destruct (reset_at_local loc now off Hc (D + fwd) h) as [N1 N2]; [lia..|].
  unfold Weekday. rewrite L1, L2, N1, N2, !reset_at_add in *. split_and!; try done; nia.
Qed.

(** In a location that keeps its offset around [now], the last fixed daily
    reset is not after [now], the next one is after [now] and exactly a day
    later, and both are [h]:00:00 on the local clock; the weekly resets are
    exactly a week apart around [now], and both fall on the configured weekday
    at the configured hour. *)
Theorem fixed_reset_brackets day h loc now off :
  calm loc now off -> 0 <= h < 24 -> 0 <= day <= 6 ->
  let ld := lastFixedDailyReset h loc now in
  let nd := nextFixedDailyReset h loc now in
  let lw := lastFixedWeeklyReset day h loc now in
  let nw := nextFixedWeeklyReset day h loc now in
  (ld <= now < nd /\ nd = ld + 24 * hour /\
   local_tod loc ld = h * 3600 /\ local_tod loc nd = h * 3600) /\
  (lw <= now < nw /\ nw = lw + 7 * (24 * hour) /\
   Weekday loc lw = day /\ Weekday loc nw = day /\
   local_tod loc lw = h * 3600 /\ local_tod loc nw = h * 3600).
Proof.
  intros Hc Hh Hd ld nd lw nw.
  split; [by apply (daily_brackets h loc now off)|by apply (weekly_brackets day h loc now off)].
Qed.

Lemma fixed_reset_brackets_witness :
  calm (FixedZone 28800) (of_unix 1700000000) 28800 /\
  Weekday (FixedZone 28800) (lastFixedWeeklyReset 1 9 (FixedZone 28800) (of_unix 1700000000)) = 1.
Proof.
  assert (calm (FixedZone 28800) (of_unix 1700000000) 28800) as H
    by (split; [auto with go|lia]).
  split; [done|]. apply (fixed_reset_brackets 1 9 _ _ _ H); lia.
Defined.

(** ** Configuration and expiry *)

(** Instants from 1970 to about the year 9800. *)
Definition modern (t : time) : Prop := 0 <= unix_sec t < 247000000000.

Lemma civil_year_range z : -1 <= z < 2858798 -> 0 <= (civil_from_days z).1.1 < 10000.
Proof.
  intros Hz. unfold civil_from_days.
  assert (4 <= (z + 719468) / 146097 < 25 /\
          ((z + 719468) / 146097 = 24 -> (z + 719468) mod 146097 < 71938) /\
          0 <= (z + 719468) mod 146097 < 146097) as (He & H24 & Hdoe)
    by (Z.to_euclidean_division_equations; lia).
  generalize dependent ((z + 719468) / 146097). generalize dependent ((z + 719468) mod 146097).
  intros doe Hdoe era He H24. cbv zeta. simpl.
  assert (0 <= doe / 36524 <= 4 /\ (doe < 71938 -> doe / 36524 <= 1))
    by (Z.to_euclidean_division_equations; lia).
  set (n100 := Z.min (doe / 36524) 3). assert (0 <= n100 <= 3) by lia.
  assert (doe < 71938 -> n100 <= 1) by lia.
  assert (0 <= doe - n100 * 36524 <= 36524) by (subst n100; Z.to_euclidean_division_equations; lia).
  set (r1 := doe - n100 * 36524) in *. clearbody r1.
  assert (0 <= r1 / 1461 <= 24) by (Z.to_euclidean_division_equations; lia).
  set (n4 := r1 / 1461) in *.
  assert (0 <= (r1 - n4 * 1461) / 365) by (subst n4; Z.to_euclidean_division_equations; lia).
  clearbody n4 n100. repeat case_match; lia.
Qed.

Lemma year_in_modern loc t :
  modern t -> whole_minutes (zone_offset loc (unix_sec t)) -> 0 <= year_in loc t < 10000.
Proof.
  intros H [_ Ho]. apply civil_year_range. unfold modern, local_day, local_sec in *.
  Z.to_euclidean_division_equations. lia.
Qed.

Lemma year_of_modern t : modern t -> 0 <= year_of t < 10000.
Proof. intros H. by apply year_in_modern. Qed.

(** The window keys a normalisation may rewrite. *)
Definition window_keys : list string :=
  ["quota_daily_used"; "quota_daily_start"; "quota_weekly_used"; "quota_weekly_start"].

Ltac not_window := by apply (bool_decide_unpack _); vm_compute.

Lemma restart_window_other u s l m k :
  k <> u -> k <> s -> restart_window u s l m !! k = m !! k.
Proof.
  intros. unfold restart_window. destruct (_ || _); [|done].
  by rewrite !lookup_insert_ne.
Qed.

(** After [restart_window] the stored start is not zero and not before the
    reset; usage is kept with its start or cleared. *)
Lemma restart_window_fresh u s l m :
  u <> s -> modern l -> l mod second = 0 ->
  let m' := restart_window u s l m in
  let start := parseExtraTime (index_key (Some m') s) in
  IsZero start = false /\ Before start l = false /\
  (m' !! u = m !! u /\ m' !! s = m !! s \/ m' !! u = Some (AFloat64 f0)).
Proof.
  intros Hus Hl Hw m' start. subst m' start. unfold restart_window.
  destruct (IsZero _ || Before _ l) eqn:E.
  - rewrite index_key_insert_eq. unfold parseExtraTime.
    rewrite parse_format_RFC3339 by auto using year_of_modern.
    rewrite lookup_insert_ne, lookup_insert_eq by done. split_and!; [| |auto].
    + unfold IsZero. apply Z.eqb_neq. intros ->. destruct Hl as [Hl _]. by vm_compute in Hl.
    + apply Z.ltb_irrefl.
  - apply orb_false_iff in E as [-> ->]. auto.
Qed.

Section Config.
Context (tzdb : string -> option Location).

Lemma normalize_other now m m' k :
  NormalizeFixedQuotaWindows tzdb now (Some m) = Some m' -> k ∉ window_keys -> m' !! k = m !! k.
Proof.
  intros [= <-] Hk. unfold window_keys in Hk. rewrite !not_elem_of_cons in Hk.
  destruct Hk as (? & ? & ? & ? & _).
  unfold normalize_weekly, normalize_daily.
  do 2 (destruct (_ && _); rewrite ?restart_window_other by done); done.
Qed.

Lemma validate_ok extra :
  ValidateQuotaResetConfig tzdb extra = Ok () ->
  valid_setting 0 23 (lookup_key extra "quota_daily_reset_hour") = true /\
  valid_setting 0 6 (lookup_key extra "quota_weekly_reset_day") = true /\
  valid_setting 0 23 (lookup_key extra "quota_weekly_reset_hour") = true.
Proof.
  destruct extra as [m|]; [|done]. unfold ValidateQuotaResetConfig.
  generalize (valid_timezone tzdb (index_key (Some m) "quota_reset_timezone"))
    (valid_mode (index_key (Some m) "quota_daily_reset_mode"))
    (valid_mode (index_key (Some m) "quota_weekly_reset_mode"))
    (valid_setting 0 23 (lookup_key (Some m) "quota_daily_reset_hour"))
    (valid_setting 0 6 (lookup_key (Some m) "quota_weekly_reset_day"))
    (valid_setting 0 23 (lookup_key (Some m) "quota_weekly_reset_hour")).
  by intros [] [] [] [] [] [].
Qed.

Lemma valid_setting_range lo hi v :
  valid_setting lo hi (Some v) = true -> lo <= f64_to_int64 (parseExtraFloat64 v) <= hi.
Proof. simpl. rewrite negb_true_iff, orb_false_iff. intros [H1 H2]. blia. Qed.

Lemma clamp_hour_id h : 0 <= h <= 23 -> clamp_hour h = h.
Proof.
  intros. unfold clamp_hour. rewrite (proj2 (Z.ltb_ge h 0)), (proj2 (Z.ltb_ge 23 h)) by lia. done.
Qed.

Lemma clamp_day_id d : 0 <= d <= 6 -> clamp_day d = d.
Proof.
  intros. unfold clamp_day. rewrite (proj2 (Z.ltb_ge d 0)), (proj2 (Z.ltb_ge 6 d)) by lia. done.
Qed.

Lemma clamp_hour_range h : 0 <= clamp_hour h < 24.
Proof. unfold clamp_hour. destruct (h <? 0) eqn:?, (23 <? h) eqn:?; simpl; blia. Qed.

Lemma clamp_day_range d : 0 <= clamp_day d <= 6.
Proof. unfold clamp_day. destruct (d <? 0) eqn:?, (6 <? d) eqn:?; simpl; blia. Qed.

(** With a validated configuration the account's getters and the save path
    read the same hour, day and zone. *)
Section Validated.
Context (a : Account) (m m' : gmap string any).
Hypothesis (Ha : Extra a = Some m').
Hypothesis (Hsame : forall k, k ∉ window_keys -> m' !! k = m !! k).
Hypothesis (Hvalid : ValidateQuotaResetConfig tzdb (Some m) = Ok ()).

Ltac other_key := rewrite Ha; unfold index_key, text, lookup_key; rewrite ?Hsame;
  [|not_window].

Lemma daily_hour_agrees : GetQuotaDailyResetHour a = daily_hour m.
Proof.
  destruct (validate_ok _ Hvalid) as (H & _ & _). unfold lookup_key in H.
  unfold GetQuotaDailyResetHour, getExtraInt, daily_hour. other_key.
  destruct (m !! _); simpl; [|done]. by rewrite clamp_hour_id by (by apply valid_setting_range).
Qed.

Lemma weekly_hour_agrees : GetQuotaWeeklyResetHour a = weekly_hour m.
Proof.
  destruct (validate_ok _ Hvalid) as (_ & _ & H). unfold lookup_key in H.
  unfold GetQuotaWeeklyResetHour, getExtraInt, weekly_hour. other_key.
  destruct (m !! _); simpl; [|done]. by rewrite clamp_hour_id by (by apply valid_setting_range).
Qed.

Lemma weekly_day_agrees : GetQuotaWeeklyResetDay a = weekly_day m.
Proof.
  destruct (validate_ok _ Hvalid) as (_ & H & _). unfold lookup_key in H.
  unfold GetQuotaWeeklyResetDay, getExtraInt, weekly_day. other_key.
  destruct (m !! _); simpl; [|done]. by rewrite clamp_day_id by (by apply valid_setting_range).
Qed.

Lemma getExtraString_agrees k : k ∉ window_keys -> getExtraString a k = text (Some m) k.
Proof.
  intros Hk. unfold getExtraString, text, index_key. rewrite Ha. simpl. rewrite Hsame by done.
  by destruct (m !! k) as [[]|].
Qed.

Lemma zone_agrees : quota_zone tzdb (GetQuotaResetTimezone a) = config_zone tzdb m.
Proof.
  unfold GetQuotaResetTimezone, config_zone.
  rewrite getExtraString_agrees by not_window.
  unfold quota_zone. destruct (bool_decide_reflect (text (Some m) "quota_reset_timezone" = ""))
    as [->|]; simpl; [done|]. by rewrite bool_decide_false.
Qed.
End Validated.

(** The reset instants of a configuration are whole seconds within a week. *)
Lemma last_reset_modern m now off :
  calm (config_zone tzdb m) now off -> 8 * 86400 <= unix_sec now < 246900000000 ->
  let d := lastFixedDailyReset (daily_hour m) (config_zone tzdb m) now in
  let w := lastFixedWeeklyReset (weekly_day m) (weekly_hour m) (config_zone tzdb m) now in
  modern d /\ modern w /\ d mod second = 0 /\ w mod second = 0.
Proof.
  intros Hc Hn d w. pose proof (clamp_hour_range (f64_to_int64 (parseExtraFloat64
    (index_key (Some m) "quota_daily_reset_hour")))) as Hh. fold (daily_hour m) in Hh.
  pose proof (clamp_hour_range (f64_to_int64 (parseExtraFloat64
    (index_key (Some m) "quota_weekly_reset_hour")))) as Hw. fold (weekly_hour m) in Hw.
  assert (0 <= weekly_day m <= 6) as Hd by apply clamp_day_range.
  pose proof (calm_day _ _ _ Hc) as HD.
  subst d w. rewrite (lastFixedDailyReset_at _ _ _ Hc), (lastFixedWeeklyReset_at _ _ _ Hc) by done.
  pose proof (Z.mod_pos_bound ((local_day (config_zone tzdb m) now + 4) mod 7 - weekly_day m) 7
    ltac:(done)).
  unfold reset_at. split_and!; try apply of_unix_whole; unfold modern;
    rewrite unix_sec_of_unix; cbv zeta; repeat case_match; lia.
Qed.

Lemma restart_window_local u s l m1 m :
  m1 !! u = m !! u -> m1 !! s = m !! s ->
  restart_window u s l m1 !! u = restart_window u s l m !! u /\
  restart_window u s l m1 !! s = restart_window u s l m !! s.
Proof.
  intros Hu Hs. unfold restart_window, index_key, lookup_key. rewrite Hs.
  destruct (_ || _); [|done]. by rewrite !lookup_insert, ?Hu, ?Hs.
Qed.

Lemma weekly_settings_agree m1 m :
  (forall k, k ∉ window_keys -> m1 !! k = m !! k) ->
  weekly_hour m1 = weekly_hour m /\ weekly_day m1 = weekly_day m /\
  config_zone tzdb m1 = config_zone tzdb m /\
  text (Some m1) "quota_weekly_reset_mode" = text (Some m) "quota_weekly_reset_mode" /\
  index_key (Some m1) "quota_weekly_limit" = index_key (Some m) "quota_weekly_limit".
Proof.
  intros H. unfold weekly_hour, weekly_day, config_zone, text, index_key, lookup_key.
  rewrite !H by not_window. done.
Qed.

(** What a normalisation leaves at the keys of each window. *)
Lemma normalized_daily now m m' :
  NormalizeFixedQuotaWindows tzdb now (Some m) = Some m' ->
  text (Some m) "quota_daily_reset_mode" = "fixed" ->
  fltb f0 (parseExtraFloat64 (index_key (Some m) "quota_daily_limit")) = true ->
  let r := restart_window "quota_daily_used" "quota_daily_start"
             (lastFixedDailyReset (daily_hour m) (config_zone tzdb m) now) m in
  m' !! "quota_daily_used" = r !! "quota_daily_used" /\
  m' !! "quota_daily_start" = r !! "quota_daily_start".
Proof.
  intros [= <-] Hm Hl. cbv zeta.
  assert (normalize_daily tzdb now m = restart_window "quota_daily_used" "quota_daily_start"
    (lastFixedDailyReset (daily_hour m) (config_zone tzdb m) now) m) as <-
    by (unfold normalize_daily; by rewrite Hm, Hl, bool_decide_true by done).
  unfold normalize_weekly. destruct (_ && _); [|done].
  by rewrite !(restart_window_other "quota_weekly_used") by done.
Qed.

Lemma normalized_weekly now m m' :
  NormalizeFixedQuotaWindows tzdb now (Some m) = Some m' ->
  text (Some m) "quota_weekly_reset_mode" = "fixed" ->
  fltb f0 (parseExtraFloat64 (index_key (Some m) "quota_weekly_limit")) = true ->
  let r := restart_window "quota_weekly_used" "quota_weekly_start"
             (lastFixedWeeklyReset (weekly_day m) (weekly_hour m) (config_zone tzdb m) now) m in
  m' !! "quota_weekly_used" = r !! "quota_weekly_used" /\
  m' !! "quota_weekly_start" = r !! "quota_weekly_start".
Proof.
  intros [= <-] Hm Hl. cbv zeta.
  assert (forall k, k <> "quota_daily_used" -> k <> "quota_daily_start" ->
            normalize_daily tzdb now m !! k = m !! k) as H1
    by (intros; unfold normalize_daily; destruct (_ && _); by rewrite ?restart_window_other).
  unfold normalize_weekly.
  destruct (weekly_settings_agree (normalize_daily tzdb now m) m) as (-> & -> & -> & -> & ->).
  { intros k Hk. unfold window_keys in Hk. rewrite !not_elem_of_cons in Hk.
    destruct Hk as (? & ? & _). by apply H1. }
  rewrite Hm, Hl, bool_decide_true by done. cbn [andb].
  by apply restart_window_local; apply H1.
Qed.

Lemma fixed_mode s : (if s ==? "fixed" then "fixed" else "rolling") = "fixed" -> s = "fixed".
Proof. by case_bool_decide. Qed.

(** After a valid configuration is normalised, the fixed daily and weekly
    windows of the account that stores it are current: a period whose limit is
    on is not expired, and its recorded usage is the preserved one with its
    preserved start or zero. *)
Theorem normalized_windows_current a m m' now off :
  ValidateQuotaResetConfig tzdb (Some m) = Ok () ->
  calm (config_zone tzdb m) now off -> 8 * 86400 <= unix_sec now < 246900000000 ->
  NormalizeFixedQuotaWindows tzdb now (Some m) = Some m' -> Extra a = Some m' ->
  (GetQuotaDailyResetMode a = "fixed" -> fltb f0 (GetQuotaDailyLimit a) = true ->
     IsDailyQuotaPeriodExpired tzdb now a = false /\
     (m' !! "quota_daily_used" = m !! "quota_daily_used" /\
      m' !! "quota_daily_start" = m !! "quota_daily_start" \/
      m' !! "quota_daily_used" = Some (AFloat64 f0))) /\
  (GetQuotaWeeklyResetMode a = "fixed" -> fltb f0 (GetQuotaWeeklyLimit a) = true ->
     IsWeeklyQuotaPeriodExpired tzdb now a = false /\
     (m' !! "quota_weekly_used" = m !! "quota_weekly_used" /\
      m' !! "quota_weekly_start" = m !! "quota_weekly_start" \/
      m' !! "quota_weekly_used" = Some (AFloat64 f0))).
Proof.
  intros Hv Hc Hn Hm Ha.
  assert (forall k, k ∉ window_keys -> m' !! k = m !! k) as Hsame
    by (intros; by apply (normalize_other now)).
  destruct (last_reset_modern m now off Hc Hn) as (Md & Mw & Wd & Ww).
  pose proof (normalized_daily now m m' Hm) as HD.
  pose proof (normalized_weekly now m m' Hm) as HW.
  assert (forall k, getExtraTime a k = parseExtraTime (index_key (Some m') k)) as Ht.
  { intros k. unfold getExtraTime, index_key. rewrite Ha. by destruct (lookup_key _ _). }
  assert (forall k, k ∉ window_keys ->
            getExtraFloat64 a k = parseExtraFloat64 (index_key (Some m) k)) as Hf.
  { intros k Hk. unfold getExtraFloat64, index_key, lookup_key. rewrite Ha, Hsame by done.
    by destruct (m !! k). }
  split; intros Hmode Hlim.
  - unfold GetQuotaDailyLimit in Hlim. rewrite Hf in Hlim by not_window.
    unfold GetQuotaDailyResetMode in Hmode.
    rewrite (getExtraString_agrees a m m' Ha Hsame) in Hmode by not_window.
    destruct (HD (fixed_mode _ Hmode) Hlim) as [Eu Es].
    destruct (restart_window_fresh "quota_daily_used" "quota_daily_start"
      _ m ltac:(done) Md Wd) as (F1 & F2 & F3).
    unfold IsDailyQuotaPeriodExpired, isFixedDailyPeriodExpired, GetQuotaDailyResetMode.
    rewrite (getExtraString_agrees a m m' Ha Hsame) by not_window.
    rewrite Hmode, (daily_hour_agrees a m m' Ha Hsame Hv), (zone_agrees a m m' Ha Hsame).
    rewrite Ht. unfold index_key, lookup_key in *. rewrite Es, Eu, F1. split; [exact F2|exact F3].
  - unfold GetQuotaWeeklyLimit in Hlim. rewrite Hf in Hlim by not_window.
    unfold GetQuotaWeeklyResetMode in Hmode.
    rewrite (getExtraString_agrees a m m' Ha Hsame) in Hmode by not_window.
    destruct (HW (fixed_mode _ Hmode) Hlim) as [Eu Es].
    destruct (restart_window_fresh "quota_weekly_used" "quota_weekly_start"
      _ m ltac:(done) Mw Ww) as (F1 & F2 & F3).
    unfold IsWeeklyQuotaPeriodExpired, isFixedWeeklyPeriodExpired, GetQuotaWeeklyResetMode.
    rewrite (getExtraString_agrees a m m' Ha Hsame) by not_window.
    rewrite Hmode, (weekly_hour_agrees a m m' Ha Hsame Hv),
      (weekly_day_agrees a m m' Ha Hsame Hv), (zone_agrees a m m' Ha Hsame).
    rewrite Ht. unfold index_key, lookup_key in *. rewrite Es, Eu, F1. split; [exact F2|exact F3].
Qed.

Lemma next_reset_modern m now off :
  calm (config_zone tzdb m) now off -> 8 * 86400 <= unix_sec now < 246900000000 ->
  let d := nextFixedDailyReset (daily_hour m) (config_zone tzdb m) now in
  let w := nextFixedWeeklyReset (weekly_day m) (weekly_hour m) (config_zone tzdb m) now in
  ParseRFC3339 (FormatRFC3339 d) = Some d /\ ParseRFC3339 (FormatRFC3339 w) = Some w.
Proof.
  intros Hc Hn d w. destruct (last_reset_modern m now off Hc Hn) as (Md & Mw & Wd & Ww).
  destruct (daily_brackets (daily_hour m) _ _ _ Hc (clamp_hour_range _)) as (Bd & Ed & _ & _).
  destruct (weekly_brackets (weekly_day m) (weekly_hour m) _ _ _ Hc (clamp_hour_range _)
    (clamp_day_range _)) as (Bw & Ew & _).
  assert (forall l n k, l <= now -> modern l -> l mod second = 0 -> n = l + k * (24 * hour) ->
            0 <= k <= 7 -> ParseRFC3339 (FormatRFC3339 n) = Some n) as H.
  { intros l n k Hl Hm Hs -> Hk. unfold modern, hour, minute in *.
    replace (l + k * (24 * (60 * (60 * second)))) with (l + k * 86400 * second) by lia.
    assert (unix_sec l <= unix_sec now) by (apply Z.div_le_mono; [done|lia]).
    apply parse_format_RFC3339; [by rewrite Z_mod_plus_full|].
    apply year_of_modern. unfold modern, unix_sec. rewrite Z.div_add by done.
    unfold unix_sec in *. lia. }
  split; [apply (H _ _ 1 (proj1 Bd) Md Wd)|apply (H _ _ 7 (proj1 Bw) Mw Ww)]; subst d w; lia.
Qed.

(** Saving a configuration stores, for each fixed window, a reset text that
    parses back to an instant after [now], at most one period ahead, at the
    configured (clamped) local hour and weekday; for any other mode the stored
    instant is removed; no other key changes. *)
Theorem compute_reset_at_spec m m' now off :
  calm (config_zone tzdb m) now off -> 8 * 86400 <= unix_sec now < 246900000000 ->
  ComputeQuotaResetAt tzdb now (Some m) = Some m' ->
  let tz := config_zone tzdb m in
  (text (Some m) "quota_daily_reset_mode" = "fixed" ->
     exists s t, m' !! "quota_daily_reset_at" = Some (AString s) /\ ParseRFC3339 s = Some t /\
       now < t <= now + 24 * hour /\ local_tod tz t = daily_hour m * 3600) /\
  (text (Some m) "quota_weekly_reset_mode" = "fixed" ->
     exists s t, m' !! "quota_weekly_reset_at" = Some (AString s) /\ ParseRFC3339 s = Some t /\
       now < t <= now + 7 * (24 * hour) /\
       Weekday tz t = weekly_day m /\ local_tod tz t = weekly_hour m * 3600) /\
  (text (Some m) "quota_daily_reset_mode" <> "fixed" -> m' !! "quota_daily_reset_at" = None) /\
  (text (Some m) "quota_weekly_reset_mode" <> "fixed" -> m' !! "quota_weekly_reset_at" = None) /\
  (forall k, k <> "quota_daily_reset_at" -> k <> "quota_weekly_reset_at" -> m' !! k = m !! k).
Proof.
  intros Hc Hn [= <-] tz.
  destruct (next_reset_modern m now off Hc Hn) as [Pd Pw].
  destruct (daily_brackets (daily_hour m) _ _ _ Hc (clamp_hour_range _)) as (Bd & Ed & _ & Td).
  destruct (weekly_brackets (weekly_day m) (weekly_hour m) _ _ _ Hc (clamp_hour_range _)
    (clamp_day_range _)) as (Bw & Ew & _ & Dw & _ & Tw).
  set (m1 := compute_daily_reset_at tzdb now m).
  assert (forall k, k <> "quota_daily_reset_at" -> m1 !! k = m !! k) as H1.
  { intros k Hk. subst m1. unfold compute_daily_reset_at.
    case_bool_decide; by rewrite ?lookup_insert_ne, ?lookup_delete_ne. }
  assert (forall k, k <> "quota_weekly_reset_at" ->
            compute_weekly_reset_at tzdb now m1 !! k = m1 !! k) as H2.
  { intros k Hk. unfold compute_weekly_reset_at.
    case_bool_decide; by rewrite ?lookup_insert_ne, ?lookup_delete_ne. }
  assert (text (Some m1) "quota_weekly_reset_mode" = text (Some m) "quota_weekly_reset_mode" /\
          weekly_day m1 = weekly_day m /\ weekly_hour m1 = weekly_hour m /\
          config_zone tzdb m1 = tz) as (Em & Edy & Eh & Ez)
    by (unfold weekly_day, weekly_hour, tz, config_zone, text, index_key, lookup_key;
        by rewrite !H1 by done).
  split_and!.
  - intros Hm. eexists _, _. rewrite H2 by done. subst m1. unfold compute_daily_reset_at.
    rewrite bool_decide_true, lookup_insert_eq by done. split_and!; [done|exact Pd| | |exact Td]; lia.
  - intros Hm. eexists _, _. unfold compute_weekly_reset_at.
    rewrite Em, bool_decide_true, lookup_insert_eq, Edy, Eh, Ez by done.
    split_and!; [done|exact Pw| | |exact Dw|exact Tw]; lia.
  - intros Hm. rewrite H2 by done. subst m1. unfold compute_daily_reset_at.
    by rewrite bool_decide_false, lookup_delete_eq by done.
  - intros Hm. unfold compute_weekly_reset_at.
    by rewrite Em, bool_decide_false, lookup_delete_eq by done.
  - intros k K1 K2. by rewrite H2, H1.
Qed.

(** [time.Since] saturates, which never changes the verdict. *)
Lemma isPeriodExpired_spec now start dur :
  int64_min < dur <= int64_max ->
  isPeriodExpired now start dur = true <-> start = zero_time \/ dur <= now - start.
Proof.
  intros Hd. unfold isPeriodExpired, IsZero, Sub, int64_min, int64_max in *.
  destruct (Z.eqb_spec start zero_time) as [->|]; [tauto|]. rewrite Z.leb_le. lia.
Qed.

(** The daily window the verdict looks at, in terms of instants. *)
Definition daily_current (now : time) (a : Account) : Prop :=
  let start := getExtraTime a "quota_daily_start" in
  start <> zero_time /\
  if GetQuotaDailyResetMode a ==? "fixed" then
    lastFixedDailyReset (GetQuotaDailyResetHour a) (quota_zone tzdb (GetQuotaResetTimezone a)) now
      <= start
  else now - start < 24 * hour.

Definition weekly_current (now : time) (a : Account) : Prop :=
  let start := getExtraTime a "quota_weekly_start" in
  start <> zero_time /\
  if GetQuotaWeeklyResetMode a ==? "fixed" then
    lastFixedWeeklyReset (GetQuotaWeeklyResetDay a) (GetQuotaWeeklyResetHour a)
      (quota_zone tzdb (GetQuotaResetTimezone a)) now <= start
  else now - start < 7 * 24 * hour.

Lemma rolling_current now start dur :
  int64_min < dur <= int64_max ->
  negb (isPeriodExpired now start dur) = true <-> start <> zero_time /\ now - start < dur.
Proof.
  intros Hd. rewrite negb_true_iff, <- not_true_iff_false, isPeriodExpired_spec by done. lia.
Qed.

Lemma fixed_current start l :
  negb (if IsZero start then true else Before start l) = true <-> start <> zero_time /\ l <= start.
Proof.
  unfold IsZero, Before. destruct (Z.eqb_spec start zero_time) as [->|]; simpl; [naive_solver|].
  rewrite negb_true_iff, Z.ltb_ge. tauto.
Qed.

Lemma daily_current_spec now a :
  negb (IsDailyQuotaPeriodExpired tzdb now a) = true <-> daily_current now a.
Proof.
  unfold IsDailyQuotaPeriodExpired, daily_current, isFixedDailyPeriodExpired. cbv zeta.
  case_bool_decide; [apply fixed_current|by apply rolling_current].
Qed.

Lemma weekly_current_spec now a :
  negb (IsWeeklyQuotaPeriodExpired tzdb now a) = true <-> weekly_current now a.
Proof.
  unfold IsWeeklyQuotaPeriodExpired, weekly_current, isFixedWeeklyPeriodExpired. cbv zeta.
  case_bool_decide; [apply fixed_current|by apply rolling_current].
Qed.

Lemma IsQuotaExceeded_eq nd nw a :
  IsQuotaExceeded tzdb nd nw a =
  (fltb f0 (GetQuotaLimit a) && fleb (GetQuotaLimit a) (GetQuotaUsed a)) ||
  (fltb f0 (GetQuotaDailyLimit a) && (negb (IsDailyQuotaPeriodExpired tzdb nd a) &&
     fleb (GetQuotaDailyLimit a) (GetQuotaDailyUsed a))) ||
  (fltb f0 (GetQuotaWeeklyLimit a) && (negb (IsWeeklyQuotaPeriodExpired tzdb nw a) &&
     fleb (GetQuotaWeeklyLimit a) (GetQuotaWeeklyUsed a))).
Proof.
  unfold IsQuotaExceeded, IsDailyQuotaPeriodExpired, IsWeeklyQuotaPeriodExpired. cbv zeta.
  by destruct (fltb f0 (GetQuotaLimit a) && _), (fltb f0 (GetQuotaDailyLimit a) && _),
    (fltb f0 (GetQuotaWeeklyLimit a) && _).
Qed.

(** An account is over quota exactly when one of its enabled limits is
    reached by its recorded usage, the daily and weekly usage counting only
    while the window it belongs to is current: started at or after the last
    fixed reset, or less than the period ago when the window rolls.  The
    saturation of [time.Since] never changes the answer. *)
Theorem quota_exceeded_iff nd nw a :
  IsQuotaExceeded tzdb nd nw a = true <->
  (fltb f0 (GetQuotaLimit a) = true /\ fleb (GetQuotaLimit a) (GetQuotaUsed a) = true) \/
  (fltb f0 (GetQuotaDailyLimit a) = true /\ daily_current nd a /\
   fleb (GetQuotaDailyLimit a) (GetQuotaDailyUsed a) = true) \/
  (fltb f0 (GetQuotaWeeklyLimit a) = true /\ weekly_current nw a /\
   fleb (GetQuotaWeeklyLimit a) (GetQuotaWeeklyUsed a) = true).
Proof.
  rewrite IsQuotaExceeded_eq, !orb_true_iff, !andb_true_iff, daily_current_spec, weekly_current_spec.
  tauto.
Qed.
End Config.

(** ** A concrete configuration *)

Definition sample_extra : gmap string any := list_to_map
  [("quota_daily_reset_mode", AString "fixed"); ("quota_daily_reset_hour", AFloat64 (f64_of_Z 8));
   ("quota_daily_limit", AFloat64 (f64_of_Z 10)); ("quota_daily_used", AFloat64 (f64_of_Z 12));
   ("quota_daily_start", AString "2023-11-13T08:00:00Z");
   ("quota_weekly_reset_mode", AString "fixed"); ("quota_weekly_limit", AFloat64 (f64_of_Z 50));
   ("quota_weekly_used", AFloat64 (f64_of_Z 7))].

Definition no_tzdb : string -> option Location := fun _ => None.

Definition account_with_extra (extra : anymap) : Account :=
  mkAccount 1 PlatformAnthropic AccountTypeAPIKey None extra 3 0 None None StatusActive None false
    true None None None None None None "" None [].

Lemma normalized_windows_current_witness :
  let a := account_with_extra (NormalizeFixedQuotaWindows no_tzdb (of_unix 1700000000)
             (Some sample_extra)) in
  IsDailyQuotaPeriodExpired no_tzdb (of_unix 1700000000) a = false /\
  GetQuotaDailyUsed a = f0.
Proof.
  intros a. split; [|by vm_compute].
  apply (normalized_windows_current no_tzdb a sample_extra
    (default ∅ (Extra a)) (of_unix 1700000000) 0);
    [by vm_compute|split; [by intros s _|lia]|vm_compute; split; congruence|reflexivity|reflexivity
    |by vm_compute|by vm_compute].
Defined.

Lemma compute_reset_at_spec_witness :
  exists m' s t,
    ComputeQuotaResetAt no_tzdb (of_unix 1700000000) (Some sample_extra) = Some m' /\
    m' !! "quota_daily_reset_at" = Some (AString s) /\ ParseRFC3339 s = Some t /\
    of_unix 1700000000 < t.
Proof.
  eexists. destruct (compute_reset_at_spec no_tzdb sample_extra _ (of_unix 1700000000) 0
    ltac:(split; [by intros s _|lia]) ltac:(vm_compute; split; congruence) eq_refl)
    as [(s & t & H1 & H2 & [H3 _] & _) _]; [by vm_compute|].
  exists s, t. split; [reflexivity|]. auto.
Defined.
