(* ===== verification/AccountScheduling.v ===== *)
(** * Account scheduling: internal/service/account.go, the scheduling gates

    Whether an account may receive a request: the status, expiry, overload,
    rate-limit and quota gates of [IsSchedulable], the weaker gate for the
    parent of a shadow account, and the three-zone verdicts on requests per
    minute and on the cost of the session window.  Each reading of the clock
    is an argument. *)

From S2P Require Import Prelude Float64 GoTime GoAny Account AccountQuota.
Local Open Scope Z_scope.

Section Gates.
Context (tzdb : string -> option Location).

(** [now] is the reading of [IsSchedulable] itself, [nd] and [nw] those of
    the quota windows. *)
Definition IsSchedulable (now nd nw : time) (a : Account) : bool :=
  if negb (IsActive a) || negb (Schedulable a) then false
  else if AutoPauseOnExpired a &&
          match ExpiresAt a with Some e => negb (Before now e) | None => false end then false
  else if match OverloadUntil a with Some u => Before now u | None => false end then false
  else if match RateLimitResetAt a with Some u => Before now u | None => false end then false
  else if match TempUnschedulableUntil a with Some u => Before now u | None => false end then false
  else if IsAPIKeyOrBedrock a && IsQuotaExceeded tzdb nd nw a then false
  else true.

Definition IsCredentialUsableForShadow (now : time) (a : Account) : bool :=
  if negb (IsActive a) then false
  else if AutoPauseOnExpired a &&
          match ExpiresAt a with Some e => negb (Before now e) | None => false end then false
  else if match TempUnschedulableUntil a with Some u => Before now u | None => false end then false
  else true.

Definition IsRateLimited (now : time) (a : Account) : bool :=
  match RateLimitResetAt a with None => false | Some u => Before now u end.

Definition IsOverloaded (now : time) (a : Account) : bool :=
  match OverloadUntil a with None => false | Some u => Before now u end.

End Gates.

(** ** Settings *)

Definition GetWindowCostLimit (a : Account) : f64 :=
  match lookup_key (Extra a) "window_cost_limit" with
  | Some v => parseExtraFloat64 v
  | None => f0
  end.

Definition GetWindowCostStickyReserve (a : Account) : f64 :=
  match lookup_key (Extra a) "window_cost_sticky_reserve" with
  | Some v => let val := parseExtraFloat64 v in if fltb f0 val then val else f64_of_Z 10
  | None => f64_of_Z 10
  end.

Definition GetMaxSessions (a : Account) : Z :=
  match lookup_key (Extra a) "max_sessions" with Some v => parseExtraInt v | None => 0 end.

Definition GetSessionIdleTimeoutMinutes (a : Account) : Z :=
  match lookup_key (Extra a) "session_idle_timeout_minutes" with
  | Some v => let val := parseExtraInt v in if 0 <? val then val else 5
  | None => 5
  end.

Definition GetBaseRPM (a : Account) : Z :=
  match lookup_key (Extra a) "base_rpm" with
  | Some v => let val := parseExtraInt v in if 0 <? val then val else 0
  | None => 0
  end.

Definition GetRPMStrategy (a : Account) : string :=
  match lookup_key (Extra a) "rpm_strategy" with
  | Some (AString s) => if s ==? "sticky_exempt" then "sticky_exempt" else "tiered"
  | _ => "tiered"
  end.

(** The buffer derived from concurrency and sessions; [conc + sess] wraps at
    64 bits. *)
Definition derived_sticky_buffer (a : Account) : Z :=
  let base := GetBaseRPM a in
  if base <=? 0 then 0
  else
    let conc := if Concurrency a <? 0 then 0 else Concurrency a in
    let sess := if GetMaxSessions a <? 0 then 0 else GetMaxSessions a in
    let buffer := add64 conc sess in
    let floor := if base / 5 <? 1 then 1 else base / 5 in
    if buffer <? floor then floor else buffer.

Definition GetRPMStickyBuffer (a : Account) : Z :=
  match Extra a with
  | None => 0
  | Some m =>
      match m !! "rpm_sticky_buffer" with
      | Some v => let val := parseExtraInt v in
                  if 0 <? val then val else derived_sticky_buffer a
      | None => derived_sticky_buffer a
      end
  end.

(** ** The three zones *)

Inductive WindowCostSchedulability :=
| WindowCostSchedulable | WindowCostStickyOnly | WindowCostNotSchedulable.

#[export] Instance zone_eq_dec : EqDecision WindowCostSchedulability.
Proof. solve_decision. Defined.

Definition CheckRPMSchedulability (a : Account) (currentRPM : Z) : WindowCostSchedulability :=
  let baseRPM := GetBaseRPM a in
  if baseRPM <=? 0 then WindowCostSchedulable
  else if currentRPM <? baseRPM then WindowCostSchedulable
  else if GetRPMStrategy a ==? "sticky_exempt" then WindowCostStickyOnly
  else if currentRPM <? add64 baseRPM (GetRPMStickyBuffer a) then WindowCostStickyOnly
  else WindowCostNotSchedulable.

Definition CheckWindowCostSchedulability (a : Account) (currentWindowCost : f64)
    : WindowCostSchedulability :=
  let limit := GetWindowCostLimit a in
  if fleb limit f0 then WindowCostSchedulable
  else if fltb currentWindowCost limit then WindowCostSchedulable
  else if fltb currentWindowCost (fadd limit (GetWindowCostStickyReserve a)) then WindowCostStickyOnly
  else WindowCostNotSchedulable.

(** [loc] is the process's local zone, which [time.Now()] carries. *)
Definition GetCurrentWindowStartTime (loc : Location) (now : time) (a : Account) : time :=
  let predicted :=
    let '(y, m, d) := DateOf loc now in Date loc y m d (local_tod loc now / 3600) 0 0 in
  match SessionWindowStart a, SessionWindowEnd a with
  | Some s, Some e => if Before now e then s else predicted
  | _, _ => predicted
  end.

(** ** Theorems *)

(** How restrictive a zone is. *)
Definition zone_rank (z : WindowCostSchedulability) : Z :=
  match z with WindowCostSchedulable => 0 | WindowCostStickyOnly => 1 | WindowCostNotSchedulable => 2 end.

Definition until_passed (now : time) (u : option time) : Prop :=
  match u with Some t => t <= now | None => True end.

(** Each gate of a schedulable account, and nothing else, decides. *)
Definition gates_open (tzdb : string -> option Location) (now nd nw : time) (a : Account) : Prop :=
  Status a = StatusActive /\ Schedulable a = true /\
  (AutoPauseOnExpired a = true -> forall e, ExpiresAt a = Some e -> now < e) /\
  until_passed now (OverloadUntil a) /\ until_passed now (RateLimitResetAt a) /\
  until_passed now (TempUnschedulableUntil a) /\
  (IsAPIKeyOrBedrock a = true -> IsQuotaExceeded tzdb nd nw a = false).

Lemma not_before_until now u :
  match u with Some t => Before now t | None => false end = false <-> until_passed now u.
Proof. destruct u; simpl; [apply Z.ltb_ge|tauto]. Qed.

Lemma expiry_gate now a :
  AutoPauseOnExpired a && match ExpiresAt a with Some e => negb (Before now e) | None => false end = false
  <-> (AutoPauseOnExpired a = true -> forall e, ExpiresAt a = Some e -> now < e).
Proof.
  destruct (AutoPauseOnExpired a), (ExpiresAt a) as [e|]; simpl; try naive_solver.
  rewrite negb_false_iff. unfold Before. rewrite Z.ltb_lt. naive_solver.
Qed.

Lemma if_gate (g r : bool) : (if g then false else r) = true <-> g = false /\ r = true.
Proof. destruct g; naive_solver. Qed.

Lemma IsSchedulable_iff tzdb now nd nw a :
  IsSchedulable tzdb now nd nw a = true <-> gates_open tzdb now nd nw a.
Proof.
  unfold IsSchedulable, gates_open. rewrite !if_gate, expiry_gate, !not_before_until.
  unfold IsActive. rewrite orb_false_iff, !negb_false_iff, bool_decide_eq_true, andb_false_iff.
  destruct (IsAPIKeyOrBedrock a), (IsQuotaExceeded _ _ _ a); naive_solver.
Qed.

(** An account is schedulable exactly when every gate is open: active and
    switched on, not past an enforced expiry, out of its overload, rate-limit
    and temporary cooldowns, and, for key and Bedrock accounts, within
    quota. *)
Theorem schedulable_iff_gates tzdb now nd nw a :
  IsSchedulable tzdb now nd nw a = true <->
  gates_open tzdb now nd nw a /\
  IsRateLimited now a = false /\ IsOverloaded now a = false /\
  IsCredentialUsableForShadow now a = true.
Proof.
  rewrite IsSchedulable_iff. split; [|tauto]. intros H. split; [done|].
  destruct H as (Hs & _ & He & Ho & Hr & Ht & _). unfold IsRateLimited, IsOverloaded.
  apply not_before_until in Ho, Hr, Ht. apply expiry_gate in He.
  repeat split; try assumption.
  unfold IsCredentialUsableForShadow, IsActive. rewrite Hs, bool_decide_true by done. simpl.
  by rewrite He, Ht.
Qed.

(** An account with its rate limit, overload and switch replaced. *)
Definition with_windows (a : Account) (sched : bool) (rl ol : option time) : Account :=
  mkAccount (ID a) (Platform a) (AType a) (Credentials a) (Extra a) (Concurrency a) (Priority a)
    (RateMultiplier a) (LoadFactor a) (Status a) (ExpiresAt a) (AutoPauseOnExpired a) sched
    rl ol (TempUnschedulableUntil a) (SessionWindowStart a) (SessionWindowEnd a)
    (ParentAccountID a) (QuotaDimension a) (LastUsedAt a) (AccountGroups a).

(** The parent's global rate limit, overload window and manual switch do
    not reach its shadows, while a disabled or expired parent or one in its
    temporary cooldown is unusable for them whatever those fields hold. *)
Theorem shadow_decoupled now a sched rl ol :
  IsCredentialUsableForShadow now (with_windows a sched rl ol) = IsCredentialUsableForShadow now a /\
  (IsCredentialUsableForShadow now (with_windows a sched rl ol) = true <->
   Status a = StatusActive /\
   (AutoPauseOnExpired a = true -> forall e, ExpiresAt a = Some e -> now < e) /\
   until_passed now (TempUnschedulableUntil a)).
Proof.
  split; [done|]. unfold IsCredentialUsableForShadow. rewrite !if_gate. simpl.
  rewrite expiry_gate, not_before_until, negb_false_iff. unfold IsActive. simpl.
  rewrite bool_decide_eq_true. tauto.
Qed.

Lemma GetBaseRPM_range a : 0 <= GetBaseRPM a.
Proof. unfold GetBaseRPM. destruct (lookup_key _ _); [|lia]. cbv zeta. case_match; blia. Qed.

Lemma GetRPMStickyBuffer_pos a : 0 < GetBaseRPM a -> 0 < GetRPMStickyBuffer a.
Proof.
  intros Hb. assert (0 < derived_sticky_buffer a) as Hd.
  { unfold derived_sticky_buffer. rewrite (proj2 (Z.leb_gt _ _)) by done. cbv zeta.
    repeat case_match; blia. }
  unfold GetRPMStickyBuffer. destruct (Extra a) as [m|] eqn:E.
  - destruct (m !! _); [|done]. cbv zeta. case_match; blia.
  - unfold GetBaseRPM in Hb. rewrite E in Hb. simpl in Hb. lia.
Qed.

(** The zones of the request rate.  Below the base rate (or with none set)
    the account takes any request; above it only sticky sessions, for ever
    under [sticky_exempt] and otherwise for a positive buffer beyond the base;
    past the buffer nothing.  The zone only tightens as the rate grows.  The
    bound says the settings add up within an [int]. *)
Theorem rpm_zones a r :
  GetBaseRPM a + GetRPMStickyBuffer a <= int64_max ->
  let base := GetBaseRPM a in
  let top := base + GetRPMStickyBuffer a in
  (CheckRPMSchedulability a r = WindowCostSchedulable <-> base = 0 \/ r < base) /\
  (CheckRPMSchedulability a r = WindowCostStickyOnly <->
     0 < base <= r /\ (GetRPMStrategy a = "sticky_exempt" \/ r < top)) /\
  (CheckRPMSchedulability a r = WindowCostNotSchedulable <->
     0 < base /\ top <= r /\ GetRPMStrategy a <> "sticky_exempt") /\
  (0 < base -> base < top) /\
  (forall r', r <= r' ->
     zone_rank (CheckRPMSchedulability a r) <= zone_rank (CheckRPMSchedulability a r')).
Proof.
  intros Hfit base top. pose proof (GetBaseRPM_range a) as Hb.
  pose proof (GetRPMStickyBuffer_pos a) as Hp.
  assert (forall x, CheckRPMSchedulability a x =
    if (base <=? 0) then WindowCostSchedulable else if x <? base then WindowCostSchedulable
    else if GetRPMStrategy a ==? "sticky_exempt" then WindowCostStickyOnly
    else if x <? top then WindowCostStickyOnly else WindowCostNotSchedulable) as E.
  { intros x. unfold CheckRPMSchedulability. fold base.
    destruct (Z.leb_spec base 0); [done|]. rewrite add64_id; [done|].
    fold base in Hp, Hfit, Hb. unfold int64_min. lia. }
  split_and!; [| | |intros; subst top base; lia|intros r' Hr]; rewrite ?E; fold base in Hb, Hp;
    assert (0 < base -> base < top) by (subst top; lia); clearbody base top;
    repeat case_match; case_bool_decide || idtac; simpl; blia || naive_solver lia.
Qed.

Lemma rpm_zones_witness :
  let a := account_with_extra (Some {[ "base_rpm" := AInt 10 ]}) in
  GetBaseRPM a + GetRPMStickyBuffer a <= int64_max /\
  (0 < GetBaseRPM a -> GetBaseRPM a < GetBaseRPM a + GetRPMStickyBuffer a).
Proof.
  intros a. assert (GetBaseRPM a + GetRPMStickyBuffer a <= int64_max) as H
    by (vm_compute; congruence).
  split; [done|]. apply (rpm_zones a 0 H).
Defined.

Lemma cost_zone_monotone a c c' :
  fleb c c' = true ->
  zone_rank (CheckWindowCostSchedulability a c) <= zone_rank (CheckWindowCostSchedulability a c').
Proof.
  intros H. unfold CheckWindowCostSchedulability.
  destruct (fleb (GetWindowCostLimit a) f0); [done|].
  destruct (fltb c' (GetWindowCostLimit a)) eqn:E1.
  { by rewrite (fleb_fltb_trans c c'). }
  destruct (fltb c' (fadd _ _)) eqn:E2.
  { rewrite (fleb_fltb_trans c c' (fadd _ _)) by done. by destruct (fltb c _). }
  by repeat case_match.
Qed.

Lemma reserve_positive a : fltb f0 (GetWindowCostStickyReserve a) = true.
Proof.
  unfold GetWindowCostStickyReserve. destruct (lookup_key _ _); [|done].
  cbv zeta. by destruct (fltb f0 (parseExtraFloat64 _)) eqn:E.
Qed.

(** The zones of the session-window cost, in float64 arithmetic.  With a
    limit that is set and positive the account takes any request strictly
    below the limit, only sticky sessions up to limit plus a positive reserve,
    nothing beyond; with the limit zero or negative it always takes requests;
    and the zone only tightens as the cost grows. *)
Theorem cost_zones a c :
  let limit := GetWindowCostLimit a in
  let top := fadd limit (GetWindowCostStickyReserve a) in
  fltb f0 (GetWindowCostStickyReserve a) = true /\
  (fleb limit f0 = true -> CheckWindowCostSchedulability a c = WindowCostSchedulable) /\
  (fltb f0 limit = true ->
     (CheckWindowCostSchedulability a c = WindowCostSchedulable <-> fltb c limit = true) /\
     (CheckWindowCostSchedulability a c = WindowCostStickyOnly <->
        fltb c limit = false /\ fltb c top = true) /\
     (CheckWindowCostSchedulability a c = WindowCostNotSchedulable <->
        fltb c limit = false /\ fltb c top = false)) /\
  (forall c', fleb c c' = true ->
     zone_rank (CheckWindowCostSchedulability a c) <= zone_rank (CheckWindowCostSchedulability a c')).
Proof.
  cbv zeta. split_and!; [apply reserve_positive| | |intros; by apply cost_zone_monotone].
  - intros H. unfold CheckWindowCostSchedulability. by rewrite H.
  - intros H. assert (fleb (GetWindowCostLimit a) f0 = false) as Hf.
    { destruct (fleb _ f0) eqn:E; [|done].
      pose proof (fleb_fltb_trans _ _ _ E H) as Hc. by rewrite fltb_irrefl in Hc. }
    unfold CheckWindowCostSchedulability. rewrite Hf.
    destruct (fltb c (GetWindowCostLimit a));
      [|destruct (fltb c (fadd _ _))]; split_and!; split; intros; destruct_and?; done.
Qed.

(** The start of the current session window is the recorded one while the
    recorded window lasts; otherwise it is the last full hour on the local
    clock, not after [now] and less than an hour before it. *)
Theorem window_start_spec loc now off a :
  calm loc now off ->
  (forall s e, SessionWindowStart a = Some s -> SessionWindowEnd a = Some e -> now < e ->
     GetCurrentWindowStartTime loc now a = s) /\
  ((SessionWindowStart a = None \/
    (forall e, SessionWindowEnd a = Some e -> e <= now)) ->
     let t := GetCurrentWindowStartTime loc now a in
     t <= now < t + hour /\ local_tod loc t mod 3600 = 0 /\ local_day loc t = local_day loc now).
Proof.
  intros Hc. unfold GetCurrentWindowStartTime. cbv zeta. split.
  - intros s e Es Ee He. rewrite Es, Ee. unfold Before. by rewrite (proj2 (Z.ltb_lt now e)).
  - intros Hw. set (t := match SessionWindowStart a with Some _ => _ | None => _ end).
    assert (t = reset_today (local_tod loc now / 3600) loc now) as ->.
    { subst t. destruct (SessionWindowStart a), (SessionWindowEnd a) as [e|]; try done.
      unfold Before. rewrite (proj2 (Z.ltb_ge now e)); [done|].
      destruct Hw as [|Hw]; [done|by apply Hw]. }
    assert (0 <= local_tod loc now / 3600 < 24) as Hh
      by (unfold local_tod; Z.to_euclidean_division_equations; lia).
    rewrite (reset_today_at _ _ _ Hc) by done.
    destruct (reset_at_local loc now off Hc (local_day loc now) _ ltac:(lia) Hh) as [-> ->].
    rewrite Z.mod_mul by done. split_and!; [| |done|done].
    all: assert (0 < second) by done;
      assert (second * unix_sec now <= now < second * unix_sec now + second)
        by (unfold unix_sec; Z.to_euclidean_division_equations; lia);
      assert (unix_sec now + off = local_day loc now * 86400 + local_tod loc now)
        by (unfold local_day, local_tod; rewrite (calm_local_sec loc now off Hc) by lia;
            Z.to_euclidean_division_equations; lia);
      unfold reset_at, of_unix, hour, minute;
      assert (local_tod loc now / 3600 * 3600 <= local_tod loc now
              < local_tod loc now / 3600 * 3600 + 3600)
        by (Z.to_euclidean_division_equations; lia); nia.
Qed.

Lemma window_start_spec_witness :
  calm UTC (of_unix 1700000000) 0 /\
  GetCurrentWindowStartTime UTC (of_unix 1700000000) (account_with_extra None)
    <= of_unix 1700000000.
Proof.
  assert (calm UTC (of_unix 1700000000) 0) as H by (split; [auto with go|lia]).
  split; [done|]. apply (window_start_spec UTC _ 0 (account_with_extra None) H). by left.
Defined.
