(* ===== verification/IdempotencyStore.v ===== *)
(** * The idempotency store: internal/repository/idempotency_repo.go

    The interface [IdempotencyRepository] the coordinator is written against,
    with the laws it relies on, and the table [idempotency_records] that
    implements it.  Each SQL statement is one atomic function on the table;
    failures of the database are the client's business (Idempotency.v gives
    every call an error reply).  [db_now] is the server's [NOW()]. *)

From S2P Require Import Prelude GoTime.
Local Open Scope Z_scope.

(** ** Records *)

Definition IdempotencyStatusProcessing := "processing".
Definition IdempotencyStatusSucceeded := "succeeded".
Definition IdempotencyStatusFailedRetryable := "failed_retryable".

Record IdempotencyRecord := mkRecord {
  ID : Z;
  Scope : string;
  IdempotencyKeyHash : string;
  RequestFingerprint : string;
  Status : string;
  ResponseStatus : option Z;
  ResponseBody : option string;
  ErrorReason : option string;
  LockedUntil : option time;
  ExpiresAt : time;
  CreatedAt : time;
  UpdatedAt : time;
}.

Definition key : Type := string * string.
Definition record_key (r : IdempotencyRecord) : key := (Scope r, IdempotencyKeyHash r).

(** ** What each statement does to one row *)

(** [TryReclaim]'s WHERE clause beyond the id. *)
Definition reclaimable (fromStatus : string) (now : time) (r : IdempotencyRecord) : bool :=
  (Status r ==? fromStatus) &&
  match LockedUntil r with None => true | Some l => l <=? now end.

Definition reclaimed (db_now newLockedUntil newExpiresAt : time) (r : IdempotencyRecord) :=
  mkRecord (ID r) (Scope r) (IdempotencyKeyHash r) (RequestFingerprint r)
    IdempotencyStatusProcessing (ResponseStatus r) (ResponseBody r) None
    (Some newLockedUntil) newExpiresAt (CreatedAt r) db_now.

Definition extendable (requestFingerprint : string) (r : IdempotencyRecord) : bool :=
  (Status r ==? IdempotencyStatusProcessing) && (RequestFingerprint r ==? requestFingerprint).

Definition extended (db_now newLockedUntil newExpiresAt : time) (r : IdempotencyRecord) :=
  mkRecord (ID r) (Scope r) (IdempotencyKeyHash r) (RequestFingerprint r) (Status r)
    (ResponseStatus r) (ResponseBody r) (ErrorReason r)
    (Some newLockedUntil) newExpiresAt (CreatedAt r) db_now.

Definition succeeded (db_now : time) (responseStatus : Z) (responseBody : string)
    (expiresAt : time) (r : IdempotencyRecord) :=
  mkRecord (ID r) (Scope r) (IdempotencyKeyHash r) (RequestFingerprint r)
    IdempotencyStatusSucceeded (Some responseStatus) (Some responseBody) None None
    expiresAt (CreatedAt r) db_now.

Definition failed_retryable (db_now : time) (errorReason : string)
    (lockedUntil expiresAt : time) (r : IdempotencyRecord) :=
  mkRecord (ID r) (Scope r) (IdempotencyKeyHash r) (RequestFingerprint r)
    IdempotencyStatusFailedRetryable (ResponseStatus r) (ResponseBody r) (Some errorReason)
    (Some lockedUntil) expiresAt (CreatedAt r) db_now.

(** [UPDATE ... WHERE id = i AND cond]. *)
Definition update_if (i : Z) (cond : IdempotencyRecord -> bool)
    (f : IdempotencyRecord -> IdempotencyRecord) (r : IdempotencyRecord) : IdempotencyRecord :=
  if (ID r =? i) && cond r then f r else r.

(** ** The interface *)

Class IdempotencyRepository (St : Type) := {
  (** [(owner, record, store)]: the record with its generated fields *)
  CreateProcessing : time -> IdempotencyRecord -> St -> bool * IdempotencyRecord * St;
  GetByScopeAndKeyHash : key -> St -> option IdempotencyRecord;
  TryReclaim : time -> Z -> string -> time -> time -> time -> St -> bool * St;
  ExtendProcessingLock : time -> Z -> string -> time -> time -> St -> bool * St;
  MarkSucceeded : time -> Z -> Z -> string -> time -> St -> St;
  MarkFailedRetryable : time -> Z -> string -> time -> time -> St -> St;
  DeleteExpired : time -> Z -> St -> Z * St;
}.

(** What a client may rely on.  [store_ok] is the store's own invariant. *)
Class IdempotencyLaws (St : Type) `{IdempotencyRepository St} := {
  store_ok : St -> Prop;
  store_key st k r : store_ok st -> GetByScopeAndKeyHash k st = Some r -> record_key r = k;
  store_id st k r : store_ok st -> GetByScopeAndKeyHash k st = Some r -> 0 < ID r;
  store_id_inj st k k' r r' : store_ok st -> GetByScopeAndKeyHash k st = Some r ->
    GetByScopeAndKeyHash k' st = Some r' -> ID r = ID r' -> k = k';
  create_taken db_now r old st : store_ok st ->
    GetByScopeAndKeyHash (record_key r) st = Some old -> CreateProcessing db_now r st = (false, r, st);
  create_fresh db_now r st : store_ok st -> GetByScopeAndKeyHash (record_key r) st = None ->
    exists i st', let r' := mkRecord i (Scope r) (IdempotencyKeyHash r) (RequestFingerprint r)
        (Status r) (ResponseStatus r) (ResponseBody r) (ErrorReason r) (LockedUntil r) (ExpiresAt r)
        db_now db_now in
      CreateProcessing db_now r st = (true, r', st') /\ store_ok st' /\ 0 < i /\
      forall k, GetByScopeAndKeyHash k st' =
        if decide (k = record_key r) then Some (mkRecord i (Scope r) (IdempotencyKeyHash r)
          (RequestFingerprint r) (Status r) None None None (LockedUntil r) (ExpiresAt r)
          db_now db_now)
        else GetByScopeAndKeyHash k st;
  reclaim_ok db_now i from now l e st : store_ok st ->
    let '(taken, st') := TryReclaim db_now i from now l e st in
    store_ok st' /\
    (forall k, GetByScopeAndKeyHash k st' =
       update_if i (reclaimable from now) (reclaimed db_now l e) <$> GetByScopeAndKeyHash k st) /\
    (taken = true <-> exists k r, GetByScopeAndKeyHash k st = Some r /\ ID r = i /\
       reclaimable from now r = true);
  extend_ok db_now i fp l e st : store_ok st ->
    let '(done, st') := ExtendProcessingLock db_now i fp l e st in
    store_ok st' /\
    (forall k, GetByScopeAndKeyHash k st' =
       update_if i (extendable fp) (extended db_now l e) <$> GetByScopeAndKeyHash k st) /\
    (done = true <-> exists k r, GetByScopeAndKeyHash k st = Some r /\ ID r = i /\
       extendable fp r = true);
  succeeded_ok db_now i s b e st : store_ok st ->
    let st' := MarkSucceeded db_now i s b e st in
    store_ok st' /\
    forall k, GetByScopeAndKeyHash k st' =
      update_if i (fun _ => true) (succeeded db_now s b e) <$> GetByScopeAndKeyHash k st;
  failed_ok db_now i reason l e st : store_ok st ->
    let st' := MarkFailedRetryable db_now i reason l e st in
    store_ok st' /\
    forall k, GetByScopeAndKeyHash k st' =
      update_if i (fun _ => true) (failed_retryable db_now reason l e) <$> GetByScopeAndKeyHash k st;
  delete_ok now limit st : store_ok st ->
    let '(n, st') := DeleteExpired now limit st in
    store_ok st' /\ 0 <= n /\
    forall k, GetByScopeAndKeyHash k st' = GetByScopeAndKeyHash k st \/
      GetByScopeAndKeyHash k st' = None /\
      exists r, GetByScopeAndKeyHash k st = Some r /\ ExpiresAt r <= now;
}.

(** ** The table

    Rows by the unique index (scope, key hash), and the id sequence. *)

Record table := mkTable {
  rows : gmap key IdempotencyRecord;
  next_id : Z;
}.

(** The generated id, and the columns the INSERT leaves NULL. *)
Definition table_CreateProcessing (db_now : time) (r : IdempotencyRecord) (t : table)
    : bool * IdempotencyRecord * table :=
  match rows t !! record_key r with
  | Some _ => (false, r, t)
  | None =>
      let i := next_id t in
      (true,
       mkRecord i (Scope r) (IdempotencyKeyHash r) (RequestFingerprint r) (Status r)
         (ResponseStatus r) (ResponseBody r) (ErrorReason r) (LockedUntil r) (ExpiresAt r)
         db_now db_now,
       mkTable (<[record_key r := mkRecord i (Scope r) (IdempotencyKeyHash r)
                  (RequestFingerprint r) (Status r) None None None (LockedUntil r) (ExpiresAt r)
                  db_now db_now]> (rows t)) (i + 1))
  end.

Definition table_GetByScopeAndKeyHash (k : key) (t : table) : option IdempotencyRecord :=
  rows t !! k.

(** [UPDATE ... WHERE id = i AND cond]; the boolean is [affected > 0]. *)
Definition table_update (i : Z) (cond : IdempotencyRecord -> bool)
    (f : IdempotencyRecord -> IdempotencyRecord) (t : table) : bool * table :=
  (existsb (fun kr => (ID kr.2 =? i) && cond kr.2) (map_to_list (rows t)),
   mkTable (update_if i cond f <$> rows t) (next_id t)).

Definition table_TryReclaim (db_now : time) (i : Z) (fromStatus : string)
    (now newLockedUntil newExpiresAt : time) (t : table) : bool * table :=
  table_update i (reclaimable fromStatus now) (reclaimed db_now newLockedUntil newExpiresAt) t.

Definition table_ExtendProcessingLock (db_now : time) (i : Z) (requestFingerprint : string)
    (newLockedUntil newExpiresAt : time) (t : table) : bool * table :=
  table_update i (extendable requestFingerprint) (extended db_now newLockedUntil newExpiresAt) t.

Definition table_MarkSucceeded (db_now : time) (i responseStatus : Z) (responseBody : string)
    (expiresAt : time) (t : table) : table :=
  (table_update i (fun _ => true) (succeeded db_now responseStatus responseBody expiresAt) t).2.

Definition table_MarkFailedRetryable (db_now : time) (i : Z) (errorReason : string)
    (lockedUntil expiresAt : time) (t : table) : table :=
  (table_update i (fun _ => true) (failed_retryable db_now errorReason lockedUntil expiresAt) t).2.

(** The victims: expired rows, oldest expiry first (rows with equal expiry in
    an unspecified order in SQL; here the order of the sort). *)
Definition by_expiry (x y : key * IdempotencyRecord) : Prop := ExpiresAt x.2 <= ExpiresAt y.2.

#[export] Instance by_expiry_dec : RelDecision by_expiry := fun x y => Z_le_dec (ExpiresAt x.2) (ExpiresAt y.2).

Definition victims (now : time) (limit : Z) (t : table) : list (key * IdempotencyRecord) :=
  take (Z.to_nat limit)
    (merge_sort by_expiry (filter (fun kr => ExpiresAt kr.2 <= now) (map_to_list (rows t)))).

Definition table_DeleteExpired (now : time) (limit : Z) (t : table) : Z * table :=
  let limit := if limit <=? 0 then 500 else limit in
  let v := victims now limit t in
  (Z.of_nat (length v),
   mkTable (filter (fun kr => ID kr.2 ∉ ((fun v => ID v.2) <$> v)) (rows t)) (next_id t)).

#[export] Instance table_repository : IdempotencyRepository table := {
  CreateProcessing := table_CreateProcessing;
  GetByScopeAndKeyHash := table_GetByScopeAndKeyHash;
  TryReclaim := table_TryReclaim;
  ExtendProcessingLock := table_ExtendProcessingLock;
  MarkSucceeded := table_MarkSucceeded;
  MarkFailedRetryable := table_MarkFailedRetryable;
  DeleteExpired := table_DeleteExpired;
}.

(** ** The table keeps the laws *)

Definition table_ok (t : table) : Prop :=
  0 < next_id t /\
  (forall k r, rows t !! k = Some r -> record_key r = k /\ 0 < ID r < next_id t) /\
  (forall k k' r r', rows t !! k = Some r -> rows t !! k' = Some r' -> ID r = ID r' -> k = k').

Definition empty_table : table := mkTable ∅ 1.

Lemma empty_table_ok : table_ok empty_table.
Proof. unfold table_ok. simpl. split_and!; [done| |]; intros *; by rewrite lookup_empty. Qed.

Lemma update_if_id i c f r : (forall x, ID (f x) = ID x) -> ID (update_if i c f r) = ID r.
Proof. intros H. unfold update_if. destruct (_ && _); auto. Qed.

Lemma update_if_key i c f r :
  (forall x, record_key (f x) = record_key x) -> record_key (update_if i c f r) = record_key r.
Proof. intros H. unfold update_if. destruct (_ && _); auto. Qed.

Lemma table_update_ok i c f t :
  (forall x, ID (f x) = ID x) -> (forall x, record_key (f x) = record_key x) -> table_ok t ->
  let '(b, t') := table_update i c f t in
  table_ok t' /\
  (forall k, rows t' !! k = update_if i c f <$> rows t !! k) /\
  (b = true <-> exists k r, rows t !! k = Some r /\ ID r = i /\ c r = true).
Proof.
  intros Hid Hkey (Hn & Hr & Hinj). simpl. split_and!.
  - split_and!; simpl; [done| |].
    + intros k r. rewrite lookup_fmap, fmap_Some. intros (r0 & H0 & ->).
      rewrite update_if_id, update_if_key by done. by apply Hr.
    + intros k k' r r'. rewrite !lookup_fmap, !fmap_Some. intros (r0 & H0 & ->) (r1 & H1 & ->).
      rewrite !update_if_id by done. by apply Hinj.
  - intros k. by rewrite lookup_fmap.
  - rewrite existsb_map_to_list. simpl. setoid_rewrite andb_true_iff.
    setoid_rewrite Z.eqb_eq. done.
Qed.

Lemma table_create_fresh db_now r t :
  table_ok t -> rows t !! record_key r = None ->
  table_ok (table_CreateProcessing db_now r t).2.
Proof.
  intros (Hn & Hr & Hinj) Hk. unfold table_CreateProcessing. rewrite Hk. split_and!; simpl.
  - lia.
  - intros k r0. destruct (decide (record_key r = k)) as [<-|Hne].
    + rewrite lookup_insert_eq. intros [= <-]. simpl. split; [done|lia].
    + rewrite lookup_insert_ne by done. intros H. destruct (Hr _ _ H). split; [done|lia].
  - intros k k' r0 r1. destruct (decide (record_key r = k)) as [<-|Hne],
      (decide (record_key r = k')) as [<-|Hne']; rewrite ?lookup_insert_eq, ?lookup_insert_ne by done;
      [done|intros [= <-] H|intros H [= <-]|apply Hinj]; simpl; destruct (Hr _ _ H); lia.
Qed.

Lemma table_delete_ok now limit t :
  table_ok t ->
  let '(n, t') := table_DeleteExpired now limit t in
  table_ok t' /\ 0 <= n /\
  forall k, rows t' !! k = rows t !! k \/
    rows t' !! k = None /\ exists r, rows t !! k = Some r /\ ExpiresAt r <= now.
Proof.
  intros (Hn & Hr & Hinj). unfold table_DeleteExpired. set (lim := if _ <=? 0 then _ else _).
  split_and!; [|lia|].
  - split_and!; simpl; [done| |].
    + intros k r (H & _)%map_lookup_filter_Some. by apply Hr.
    + intros k k' r r' (H & _)%map_lookup_filter_Some (H' & _)%map_lookup_filter_Some. by apply Hinj.
  - intros k. simpl. destruct (rows t !! k) as [r|] eqn:E.
    + destruct (decide (ID r ∈ (fun v => ID v.2) <$> victims now lim t)) as [Hin|Hout].
      * right. split.
        -- apply map_lookup_filter_None. right. intros x Ex. rewrite E in Ex.
           injection Ex as <-. simpl. tauto.
        -- exists r. split; [done|]. apply list_elem_of_fmap in Hin as ([k0 r0] & Hid & Hv).
           unfold victims in Hv. apply elem_of_take in Hv as (j & Hv & _).
           apply list_elem_of_lookup_2 in Hv. rewrite merge_sort_Permutation in Hv.
           apply list_elem_of_filter in Hv as [He Hv]. apply elem_of_map_to_list in Hv. simpl in *.
           assert (k = k0) as <- by by eapply Hinj. congruence.
      * left. by apply map_lookup_filter_Some.
    + left. apply map_lookup_filter_None. by left.
Qed.

#[export] Program Instance table_laws : IdempotencyLaws table := {| store_ok := table_ok |}.
Next Obligation. intros t k r (_ & Hr & _) H. by apply Hr. Qed.
Next Obligation. intros t k r (_ & Hr & _) H. by apply (Hr k). Qed.
Next Obligation. intros t k k' r r' (_ & _ & Hinj). apply Hinj. Qed.
Next Obligation.
  intros db_now r old t _ H. simpl. unfold table_CreateProcessing.
  unfold GetByScopeAndKeyHash in H. simpl in H. unfold table_GetByScopeAndKeyHash in H. by rewrite H.
Qed.
Next Obligation.
  intros db_now r t Hok H. pose proof (table_create_fresh db_now r t Hok H) as Hok'.
  simpl in H. unfold table_GetByScopeAndKeyHash in H. simpl. unfold table_CreateProcessing in *.
  rewrite H in *. eexists _, _. split_and!; [reflexivity|exact Hok'|apply Hok|].
  intros k. unfold table_GetByScopeAndKeyHash. simpl. rewrite lookup_insert.
  destruct (decide (record_key r = k)), (decide (k = record_key r)); naive_solver.
Qed.
Next Obligation. intros. by apply table_update_ok. Qed.
Next Obligation. intros. by apply table_update_ok. Qed.
Next Obligation.
  intros db_now i s b e t Hok.
  destruct (table_update_ok i (fun _ => true) (succeeded db_now s b e) t) as (H1 & H2 & _); done.
Qed.
Next Obligation.
  intros db_now i reason l e t Hok.
  destruct (table_update_ok i (fun _ => true) (failed_retryable db_now reason l e) t)
    as (H1 & H2 & _); done.
Qed.
Next Obligation. intros. by apply table_delete_ok. Qed.

(** ** Theorems *)

(** A claim is exclusive.  When two clients read the same clock value or
    the second reads any moment before the first one's new lock runs out, at
    most one of them reclaims the row, from whatever statuses they saw. *)
Theorem reclaim_exclusive d1 d2 i f1 f2 now1 now2 l1 l2 e1 e2 (t : table) :
  table_ok t -> now2 < l1 ->
  let '(taken1, t1) := table_TryReclaim d1 i f1 now1 l1 e1 t in
  let '(taken2, t2) := table_TryReclaim d2 i f2 now2 l2 e2 t1 in
  taken1 = true -> taken2 = false.
Proof.
  intros Hok Hl. unfold table_TryReclaim.
  pose proof (table_update_ok i (reclaimable f1 now1) (reclaimed d1 l1 e1) t
    ltac:(done) ltac:(done) Hok) as H1. destruct (table_update _ _ _ t) as [b1 t1].
  destruct H1 as (Hok1 & Hv1 & Hb1).
  pose proof (table_update_ok i (reclaimable f2 now2) (reclaimed d2 l2 e2) t1
    ltac:(done) ltac:(done) Hok1) as H2. destruct (table_update _ _ _ t1) as [b2 t2].
  destruct H2 as (_ & _ & Hb2). intros (k & r & Hr & Hi & Hc)%Hb1.
  apply not_true_iff_false. rewrite Hb2. intros (k' & r' & Hr' & Hi' & Hc').
  assert (rows t1 !! k = Some (reclaimed d1 l1 e1 r)) as Hk.
  { rewrite Hv1, Hr. simpl. unfold update_if. by rewrite (proj2 (Z.eqb_eq _ _) Hi), Hc. }
  destruct Hok1 as (_ & _ & Hinj).
  assert (k = k') as <- by (eapply Hinj; [exact Hk|exact Hr'|simpl; congruence]).
  rewrite Hk in Hr'. injection Hr' as <-. unfold reclaimable in Hc'. simpl in Hc'.
  apply andb_true_iff in Hc' as [_ Hc']. apply Z.leb_le in Hc'. lia.
Qed.

Definition sample_record : IdempotencyRecord :=
  mkRecord 0 "pay" "h" "f" IdempotencyStatusFailedRetryable None None None (Some 5) 100 0 0.

Lemma reclaim_exclusive_witness :
  let t := (table_CreateProcessing 0 sample_record empty_table).2 in
  (table_TryReclaim 0 1 IdempotencyStatusFailedRetryable 6 36 106 t).1 = true /\
  (table_TryReclaim 0 1 IdempotencyStatusProcessing 7 37 107
     (table_TryReclaim 0 1 IdempotencyStatusFailedRetryable 6 36 106 t).2).1 = false.
Proof.
  intros t. split; [by vm_compute|].
  apply (reclaim_exclusive 0 0 1 IdempotencyStatusFailedRetryable IdempotencyStatusProcessing
    6 7 36 37 106 107 t); [apply table_create_fresh; [apply empty_table_ok|done]|lia|by vm_compute].
Defined.

Lemma victims_elem now n t kr :
  kr ∈ victims now n t -> rows t !! kr.1 = Some kr.2 /\ ExpiresAt kr.2 <= now.
Proof.
  unfold victims. intros (j & Hv & _)%elem_of_take. apply list_elem_of_lookup_2 in Hv.
  rewrite merge_sort_Permutation in Hv. apply list_elem_of_filter in Hv as [He Hv].
  destruct kr. by apply elem_of_map_to_list in Hv.
Qed.

Lemma victims_NoDup now n t : NoDup (victims now n t).
Proof.
  unfold victims. eapply sublist_NoDup; [|apply sublist_take].
  rewrite merge_sort_Permutation. apply NoDup_filter, NoDup_map_to_list.
Qed.

(** The rows whose id is a victim's are the victims. *)
Lemma victims_filter now n t :
  table_ok t ->
  map_to_list (filter (fun kr => ID kr.2 ∈ (fun v => ID v.2) <$> victims now n t) (rows t))
    ≡ₚ victims now n t.
Proof.
  intros (_ & _ & Hinj). apply NoDup_Permutation; [apply NoDup_map_to_list|apply victims_NoDup|].
  intros [k r]. rewrite elem_of_map_to_list, map_lookup_filter_Some, list_elem_of_fmap. simpl. split.
  - intros (Hk & [k0 r0] & Hid & Hv). simpl in Hid.
    pose proof (victims_elem _ _ _ _ Hv) as [Hk0 _]. simpl in Hk0.
    assert (k = k0) as <- by by eapply Hinj. rewrite Hk in Hk0. injection Hk0 as ->. done.
  - intros Hv. pose proof (victims_elem _ _ _ _ Hv) as [Hk _]. split; [done|]. by exists (k, r).
Qed.

Lemma victims_all now n t k r :
  Z.of_nat (length (victims now n t)) < n -> rows t !! k = Some r -> ExpiresAt r <= now ->
  (k, r) ∈ victims now n t.
Proof.
  unfold victims. rewrite length_take. intros Hn Hk He.
  rewrite take_ge by lia. rewrite merge_sort_Permutation. apply list_elem_of_filter.
  split; [done|]. by apply elem_of_map_to_list.
Qed.

(** The cleanup removes only expired rows, at most the batch, the count it
    reports is what it removed, and it removes every expired row when they fit
    in the batch. *)
Theorem delete_expired_spec now limit (t : table) :
  table_ok t ->
  let batch := if limit <=? 0 then 500 else limit in
  let '(n, t') := table_DeleteExpired now limit t in
  (forall k r, rows t !! k = Some r -> now < ExpiresAt r -> rows t' !! k = Some r) /\
  n <= batch /\ Z.of_nat (size (rows t)) = n + Z.of_nat (size (rows t')) /\
  (n < batch -> forall k r, rows t' !! k = Some r -> now < ExpiresAt r).
Proof.
  intros Hok batch. pose proof (table_delete_ok now limit t Hok) as Hd.
  unfold table_DeleteExpired in *. fold batch in Hd |- *. set (v := victims now batch t) in *.
  destruct Hd as (_ & _ & Hd). simpl in *. split_and!.
  - intros k r Hk Hlive. destruct (Hd k) as [->|(_ & r' & Hk' & He)]; [done|].
    rewrite Hk in Hk'. injection Hk' as <-. lia.
  - subst v. unfold victims. rewrite length_take. subst batch. destruct (Z.leb_spec limit 0); lia.
  - rewrite <- (map_filter_union_complement (fun kr => ID kr.2 ∈ (fun v => ID v.2) <$> v) (rows t)) at 1.
    rewrite map_size_disj_union by apply map_disjoint_filter_complement.
    pose proof (Permutation_length (victims_filter now batch t Hok)) as E.
    rewrite length_map_to_list in E. fold v in E. rewrite E, Nat2Z.inj_add. done.
  - intros Hn k r (Hk & Hout)%map_lookup_filter_Some.
    destruct (Z.lt_ge_cases now (ExpiresAt r)) as [|Hge]; [done|]. destruct Hout.
    apply list_elem_of_fmap. exists (k, r). split; [done|].
    apply (victims_all now batch t); [exact Hn|done|done].
Qed.

Lemma delete_expired_spec_witness :
  let t := (table_CreateProcessing 0 sample_record empty_table).2 in
  (table_DeleteExpired 50 0 t).2 = t /\ (table_DeleteExpired 50 0 t).1 <= 500.
Proof.
  intros t. split; [by vm_compute|].
  assert (table_ok t) as Hok by (apply table_create_fresh; [apply empty_table_ok|done]).
  apply (delete_expired_spec 50 0 t Hok).
Defined.
