(* ===== verification/Idempotency.v ===== *)
(** * The idempotency coordinator: internal/service/idempotency.go

    [IdempotencyCoordinator.Execute] as a machine whose transitions are the
    stretches of code between two calls of the repository (or of the guarded
    operation): [pc] names the call about to be made with the locals that
    survive it, and one function per stretch maps the reply to the next call
    or to the result.  Running the machine alone gives the sequential
    behaviour; IdempotencyRun.v proves the
    behaviour of one call, IdempotencyConcurrency.v interleaves many of them over one store.

    Arguments standing for code outside this component: the JSON encoder and
    decoder, SHA-256, the log redactor, and what the guarded operation's
    errors say of themselves.  Logging and metrics are left out. *)

From S2P Require Import Prelude Float64 GoTime IdempotencyStore.
Local Open Scope Z_scope.

(** ** Configuration *)

Record IdempotencyConfig := mkConfig {
  DefaultTTL : duration;
  SystemOperationTTL : duration;
  ProcessingTimeout : duration;
  FailedRetryBackoff : duration;
  MaxStoredResponseLen : Z;
  ObserveOnly : bool;
}.

Definition DefaultIdempotencyConfig : IdempotencyConfig :=
  {| DefaultTTL := 24 * hour; SystemOperationTTL := 1 * hour; ProcessingTimeout := 30 * second;
     FailedRetryBackoff := 5 * second; MaxStoredResponseLen := 64 * 1024; ObserveOnly := true |}.

(** The two readers of the process-wide coordinator; [None] when none is set. *)
Definition DefaultWriteIdempotencyTTL (coordinator : option IdempotencyConfig) : duration :=
  match coordinator with
  | Some cfg => if 0 <? DefaultTTL cfg then DefaultTTL cfg else DefaultTTL DefaultIdempotencyConfig
  | None => DefaultTTL DefaultIdempotencyConfig
  end.

Definition DefaultSystemOperationIdempotencyTTL (coordinator : option IdempotencyConfig) : duration :=
  match coordinator with
  | Some cfg => if 0 <? SystemOperationTTL cfg then SystemOperationTTL cfg
                else SystemOperationTTL DefaultIdempotencyConfig
  | None => SystemOperationTTL DefaultIdempotencyConfig
  end.

(** ** Keys *)

Inductive KeyError := ErrIdempotencyKeyInvalid.

(** The loop over the runes of the key: a rune outside 33..126 occurs exactly
    when a byte outside that range does. *)
Fixpoint printable (s : string) : bool :=
  match s with
  | EmptyString => true
  | String c t => let n := Strings.Ascii.nat_of_ascii c in
                  (33 <=? n)%nat && (n <=? 126)%nat && printable t
  end.

Definition NormalizeIdempotencyKey (raw : string) : result KeyError string :=
  let key := TrimSpace raw in
  if key ==? "" then Ok ""
  else if (128 <? Strings.String.length key)%nat then Err ErrIdempotencyKeyInvalid
  else if negb (printable key) then Err ErrIdempotencyKeyInvalid
  else Ok key.

(** ** Truncation of stored text *)

Definition cont_byte (n : nat) : bool := (128 <=? n)%nat && (n <=? 191)%nat.

(** [utf8.ValidString]: no surrogates, no overlong forms, nothing above
    U+10FFFF. *)
Fixpoint ValidString (s : string) : bool :=
  match s with
  | EmptyString => true
  | String c0 t0 =>
      let b0 := Strings.Ascii.nat_of_ascii c0 in
      if (b0 <=? 127)%nat then ValidString t0
      else match t0 with
      | EmptyString => false
      | String c1 t1 =>
          let b1 := Strings.Ascii.nat_of_ascii c1 in
          if (194 <=? b0)%nat && (b0 <=? 223)%nat then cont_byte b1 && ValidString t1
          else match t1 with
          | EmptyString => false
          | String c2 t2 =>
              let b2 := Strings.Ascii.nat_of_ascii c2 in
              if (224 <=? b0)%nat && (b0 <=? 239)%nat then
                cont_byte b1 && cont_byte b2 && negb ((b0 =? 224)%nat && (b1 <? 160)%nat)
                && negb ((b0 =? 237)%nat && (159 <? b1)%nat) && ValidString t2
              else match t2 with
              | EmptyString => false
              | String c3 t3 =>
                  (240 <=? b0)%nat && (b0 <=? 244)%nat && cont_byte b1 && cont_byte b2
                  && cont_byte (Strings.Ascii.nat_of_ascii c3)
                  && negb ((b0 =? 240)%nat && (b1 <? 144)%nat)
                  && negb ((b0 =? 244)%nat && (143 <? b1)%nat) && ValidString t3
              end
          end
      end
  end.

(** [s[:n]]. *)
Definition prefix_of (s : string) (n : nat) : string := Strings.String.substring 0 n s.

(** The loop that backs off to a valid prefix. *)
Fixpoint back_off (s : string) (maxBytes : nat) : nat :=
  match maxBytes with
  | O => O
  | S n => if ValidString (prefix_of s maxBytes) then maxBytes else back_off s n
  end.

Definition truncateUTF8 (s : string) (maxBytes : Z) : string :=
  if (maxBytes <=? 0) || (Z.of_nat (Strings.String.length s) <=? maxBytes) then s
  else prefix_of s (back_off s (Z.to_nat maxBytes)).

Definition truncation_mark := "...(truncated)".

(** ** Retry hints *)

(** [d.Seconds()]. *)
Definition Seconds (d : duration) : f64 :=
  fadd (f64_of_Z (Z.quot d second)) (fdiv (f64_of_Z (Z.rem d second)) (f64_of_Z (10 ^ 9))).

Definition retry_after_seconds (lockedUntil now : time) : Z :=
  let sec := f64_to_int64 (Seconds (Sub lockedUntil now)) in
  if sec <=? 0 then 1 else sec.

(** The [retry_after] metadata [conflictWithRetryAfter] attaches. *)
Definition conflictWithRetryAfter (lockedUntil : option time) (now : time) : option string :=
  match lockedUntil with
  | None => None
  | Some l => Some (FormatInt (retry_after_seconds l now))
  end.

(** ** The coordinator *)

Section Coordinator.
Context {Payload Data ExecErr : Type}.
Context (sha256_hex : string -> string).
Context (marshal_payload : Payload -> option string).
Context (marshal : Data -> option string) (unmarshal : string -> option Data).
Context (empty_object : Data).
Context (RedactText : string -> string).
Context (Reason : ExecErr -> string) (exec_retry_after : ExecErr -> option string).

Inductive IdempotencyError :=
| ErrExecutorNil
| ErrKeyRequired
| ErrKeyInvalid
| ErrScopeRequired
| ErrIdempotencyKeyConflict
| ErrIdempotencyInProgress (retry_after : option string)
| ErrIdempotencyRetryBackoff (retry_after : option string)
| ErrIdempotencyStoreUnavail
| ErrIdempotencyInvalidPayload
| ErrExecution (e : ExecErr).

Record IdempotencyExecuteOptions := mkOptions {
  o_Scope : string;
  o_ActorScope : string;
  o_Method : string;
  o_Route : string;
  o_IdempotencyKey : string;
  o_Payload : Payload;
  o_TTL : duration;
  o_RequireKey : bool;
}.

(** [&IdempotencyExecuteResult{Data, Replayed}] or the error. *)
Inductive outcome :=
| Returned (data : Data) (replayed : bool)
| Failed (e : IdempotencyError).

Definition HashIdempotencyKey (k : string) : string := sha256_hex k.

Definition newline : string := bytes [10%nat].

(** HTTP methods are ASCII tokens, on which [ToUpper] is exact. *)
Definition BuildIdempotencyFingerprint (method route actorScope : string) (payload : Payload)
    : option string :=
  let method := if method ==? "" then "POST" else method in
  let route := if route ==? "" then "/" else route in
  let actorScope := if actorScope ==? "" then "anonymous" else actorScope in
  match marshal_payload payload with
  | None => None
  | Some raw =>
      Some (sha256_hex (ToUpper method +:+ newline +:+ route +:+ newline +:+ actorScope
                        +:+ newline +:+ raw))
  end.

(** The metadata text of an error, and the number a handler reads from it. *)
Definition retry_after_metadata (e : IdempotencyError) : option string :=
  match e with
  | ErrIdempotencyInProgress r | ErrIdempotencyRetryBackoff r => r
  | ErrExecution e => exec_retry_after e
  | _ => None
  end.

Definition RetryAfterSecondsFromError (e : IdempotencyError) : Z :=
  match retry_after_metadata e with
  | None => 0
  | Some v =>
      let v := TrimSpace v in
      if v ==? "" then 0
      else match ParseInt v with
           | Some seconds => if seconds <=? 0 then 0 else seconds
           | None => 0
           end
  end.

Definition marshalStoredResponse (cfg : IdempotencyConfig) (data : Data) : option string :=
  match marshal data with
  | None => None
  | Some raw =>
      let redacted := RedactText raw in
      Some (if (0 <? MaxStoredResponseLen cfg)
               && (MaxStoredResponseLen cfg <? Z.of_nat (Strings.String.length redacted))
            then truncateUTF8 redacted (MaxStoredResponseLen cfg) +:+ truncation_mark
            else redacted)
  end.

Definition decodeStoredResponse (stored : option string) : option Data :=
  match stored with
  | None => Some empty_object
  | Some s => if TrimSpace s ==? "" then Some empty_object else unmarshal s
  end.

(** The locals fixed before the first repository call. *)
Record claim := mkClaim {
  c_scope : string;
  c_keyHash : string;
  c_fingerprint : string;
  c_now : time;
  c_lockedUntil : time;
  c_expiresAt : time;
}.

Definition claim_key (c : claim) : key := (c_scope c, c_keyHash c).

(** The record passed to [CreateProcessing]. *)
Definition claim_record (c : claim) : IdempotencyRecord :=
  mkRecord 0 (c_scope c) (c_keyHash c) (c_fingerprint c) IdempotencyStatusProcessing
    None None None (Some (c_lockedUntil c)) (c_expiresAt c) zero_time zero_time.

Inductive pc :=
| AtDirect                                                  (** execute without a key *)
| AtCreate (c : claim)
| AtGet (c : claim)
| AtReclaimExpired (c : claim) (existing : IdempotencyRecord)
| AtGetLatest (c : claim)
| AtReclaimFailed (c : claim) (existing : IdempotencyRecord)
| AtExecute (c : claim) (id : Z)
| AtMarkFailed (c : claim) (id : Z) (reason : string) (backoffUntil : time) (e : ExecErr)
| AtMarkSucceeded (c : claim) (id : Z) (body : string) (data : Data)
| Finished (o : outcome).

Definition unavailable : pc := Finished (Failed ErrIdempotencyStoreUnavail).

Definition effective_ttl (cfg : IdempotencyConfig) (opts : IdempotencyExecuteOptions) : duration :=
  if o_TTL opts <=? 0 then DefaultTTL cfg else o_TTL opts.

(** From the call of [Execute] to the first repository call.  [execute] and
    [repo] say whether those pointers are non-nil. *)
Definition begin_execute (cfg : IdempotencyConfig) (execute repo : bool)
    (opts : IdempotencyExecuteOptions) (now : time) : pc :=
  if negb execute then Finished (Failed ErrExecutorNil)
  else match NormalizeIdempotencyKey (o_IdempotencyKey opts) with
  | Err _ => Finished (Failed ErrKeyInvalid)
  | Ok key =>
      if key ==? "" then
        if o_RequireKey opts && negb (ObserveOnly cfg) then Finished (Failed ErrKeyRequired)
        else AtDirect
      else if negb repo then unavailable
      else if o_Scope opts ==? "" then Finished (Failed ErrScopeRequired)
      else match BuildIdempotencyFingerprint (o_Method opts) (o_Route opts) (o_ActorScope opts)
                   (o_Payload opts) with
      | None => Finished (Failed ErrIdempotencyInvalidPayload)
      | Some fingerprint =>
          AtCreate (mkClaim (o_Scope opts) (HashIdempotencyKey key) fingerprint now
                      (now + ProcessingTimeout cfg) (now + effective_ttl cfg opts))
      end
  end.

(** The check before the guarded operation. *)
Definition start_execution (c : claim) (id : Z) : pc :=
  if id =? 0 then unavailable else AtExecute c id.

(** A reply of [None] is a repository error. *)
Definition after_create (c : claim) (reply : option (bool * IdempotencyRecord)) : pc :=
  match reply with
  | None => unavailable
  | Some (true, record) => start_execution c (ID record)
  | Some (false, _) => AtGet c
  end.

(** The switch on the status of the record that stands. *)
Definition decide_existing (c : claim) (existing : IdempotencyRecord) : pc :=
  if Status existing ==? IdempotencyStatusSucceeded then
    match decodeStoredResponse (ResponseBody existing) with
    | None => unavailable
    | Some data => Finished (Returned data true)
    end
  else if Status existing ==? IdempotencyStatusProcessing then
    Finished (Failed (ErrIdempotencyInProgress
      (conflictWithRetryAfter (LockedUntil existing) (c_now c))))
  else if Status existing ==? IdempotencyStatusFailedRetryable then
    if match LockedUntil existing with Some l => After l (c_now c) | None => false end
    then Finished (Failed (ErrIdempotencyRetryBackoff
           (conflictWithRetryAfter (LockedUntil existing) (c_now c))))
    else AtReclaimFailed c existing
  else Finished (Failed ErrIdempotencyKeyConflict).

Definition after_get (c : claim) (reply : option (option IdempotencyRecord)) : pc :=
  match reply with
  | None | Some None => unavailable
  | Some (Some existing) =>
      if RequestFingerprint existing !=? c_fingerprint c
      then Finished (Failed ErrIdempotencyKeyConflict)
      else if negb (After (ExpiresAt existing) (c_now c)) then AtReclaimExpired c existing
      else decide_existing c existing
  end.

Definition after_reclaim_expired (c : claim) (existing : IdempotencyRecord) (reply : option bool) : pc :=
  match reply with
  | None => unavailable
  | Some true => start_execution c (ID existing)
  | Some false => AtGetLatest c
  end.

Definition after_get_latest (c : claim) (reply : option (option IdempotencyRecord)) : pc :=
  match reply with
  | None | Some None => unavailable
  | Some (Some latest) =>
      if RequestFingerprint latest !=? c_fingerprint c
      then Finished (Failed ErrIdempotencyKeyConflict)
      else decide_existing c latest
  end.

Definition after_reclaim_failed (c : claim) (existing : IdempotencyRecord) (reply : option bool) : pc :=
  match reply with
  | None => unavailable
  | Some false => Finished (Failed (ErrIdempotencyInProgress
                    (conflictWithRetryAfter (LockedUntil existing) (c_now c))))
  | Some true => start_execution c (ID existing)
  end.

(** [now] is the clock when the operation has failed. *)
Definition after_execute (cfg : IdempotencyConfig) (c : claim) (id : Z) (now : time)
    (reply : result ExecErr Data) : pc :=
  match reply with
  | Err e => AtMarkFailed c id (if Reason e ==? "" then "EXECUTION_FAILED" else Reason e)
               (now + FailedRetryBackoff cfg) e
  | Ok data => match marshalStoredResponse cfg data with
               | None => unavailable
               | Some body => AtMarkSucceeded c id body data
               end
  end.

(** The failure is returned whether or not it could be recorded. *)
Definition after_mark_failed (e : ExecErr) (reply : option unit) : pc :=
  Finished (Failed (ErrExecution e)).

Definition after_mark_succeeded (data : Data) (reply : option unit) : pc :=
  match reply with
  | None => unavailable
  | Some _ => Finished (Returned data false)
  end.

(** ** Running the machine *)

Section Run.
Context {St : Type} `{IdempotencyRepository St}.

(** What the surroundings answer at one transition: the database clock, the
    process clock and the outcome of the guarded operation. *)
Record surroundings := mkSurroundings {
  s_db_now : time;
  s_now : time;
  s_result : result ExecErr Data;
}.

(** One call and the code up to the next one, the repository answering. *)
Definition advance (cfg : IdempotencyConfig) (env : surroundings) (p : pc) (st : St) : pc * St :=
  match p with
  | AtDirect => (Finished (match s_result env with
                           | Ok data => Returned data false
                           | Err e => Failed (ErrExecution e)
                           end), st)
  | AtCreate c =>
      let '(owner, record, st') := CreateProcessing (s_db_now env) (claim_record c) st in
      (after_create c (Some (owner, record)), st')
  | AtGet c => (after_get c (Some (GetByScopeAndKeyHash (claim_key c) st)), st)
  | AtReclaimExpired c existing =>
      let '(taken, st') := TryReclaim (s_db_now env) (ID existing) (Status existing) (c_now c)
                             (c_lockedUntil c) (c_expiresAt c) st in
      (after_reclaim_expired c existing (Some taken), st')
  | AtGetLatest c => (after_get_latest c (Some (GetByScopeAndKeyHash (claim_key c) st)), st)
  | AtReclaimFailed c existing =>
      let '(taken, st') := TryReclaim (s_db_now env) (ID existing) IdempotencyStatusFailedRetryable
                             (c_now c) (c_lockedUntil c) (c_expiresAt c) st in
      (after_reclaim_failed c existing (Some taken), st')
  | AtExecute c id => (after_execute cfg c id (s_now env) (s_result env), st)
  | AtMarkFailed c id reason backoffUntil e =>
      (after_mark_failed e (Some tt),
       MarkFailedRetryable (s_db_now env) id reason backoffUntil (c_expiresAt c) st)
  | AtMarkSucceeded c id body data =>
      (after_mark_succeeded data (Some tt),
       MarkSucceeded (s_db_now env) id 200 body (c_expiresAt c) st)
  | Finished o => (Finished o, st)
  end.

(** The same transition when the repository reports an error; [None] where no
    repository call is pending. *)
Definition on_error (p : pc) : option pc :=
  match p with
  | AtCreate c => Some (after_create c None)
  | AtGet c => Some (after_get c None)
  | AtReclaimExpired c existing => Some (after_reclaim_expired c existing None)
  | AtGetLatest c => Some (after_get_latest c None)
  | AtReclaimFailed c existing => Some (after_reclaim_failed c existing None)
  | AtMarkFailed _ _ _ _ e => Some (after_mark_failed e None)
  | AtMarkSucceeded _ _ _ data => Some (after_mark_succeeded data None)
  | AtDirect | AtExecute _ _ | Finished _ => None
  end.

(** The machine run alone; the boolean says whether the operation ran. *)
Fixpoint run (fuel : nat) (cfg : IdempotencyConfig) (env : surroundings) (p : pc) (st : St)
    : pc * St * nat :=
  match p, fuel with
  | Finished _, _ | _, O => (p, st, O)
  | _, S n =>
      let '(p', st') := advance cfg env p st in
      let '(q, st'', k) := run n cfg env p' st' in
      (q, st'', match p with AtDirect | AtExecute _ _ => S k | _ => k end)
  end.

(** [Execute] with nobody else on the store: result, store and how many times
    the guarded operation ran.  Eight transitions are more than the longest
    path, create, get, reclaim, get, reclaim, execute, mark. *)
Definition Execute (cfg : IdempotencyConfig) (env : surroundings) (execute repo : bool)
    (opts : IdempotencyExecuteOptions) (now : time) (st : St) : pc * St * nat :=
  run 8 cfg env (begin_execute cfg execute repo opts now) st.

End Run.
End Coordinator.

Arguments pc : clear implicits.
Arguments outcome : clear implicits.
Arguments IdempotencyError : clear implicits.
Arguments IdempotencyExecuteOptions : clear implicits.
Arguments surroundings : clear implicits.

(** ** Theorems on the pure parts *)

Definition byte_ok (c : ascii) : Prop :=
  (33 <= Strings.Ascii.nat_of_ascii c <= 126)%nat.

Lemma printable_spec s : printable s = true <-> Forall byte_ok (list_ascii_of_string s).
Proof.
  induction s as [|c s IH]; [by split; constructor|].
  cbn [printable Strings.String.list_ascii_of_string]. cbv zeta.
  rewrite !andb_true_iff, !Nat.leb_le, IH, Forall_cons. done.
Qed.

(** A key is accepted exactly when, trimmed, it is empty or at most 128
    printable ASCII bytes without spaces, and what is used is the trimmed
    text. *)
Theorem normalize_key_spec raw :
  match NormalizeIdempotencyKey raw with
  | Ok k => k = TrimSpace raw /\ (Strings.String.length k <= 128)%nat /\
            Forall byte_ok (list_ascii_of_string k)
  | Err _ => TrimSpace raw <> "" /\
             ((128 < Strings.String.length (TrimSpace raw))%nat \/
              ~ Forall byte_ok (list_ascii_of_string (TrimSpace raw)))
  end.
Proof.
  unfold NormalizeIdempotencyKey. cbv zeta. case_bool_decide as E.
  { rewrite E. split_and!; [done|simpl; lia|constructor]. }
  destruct (128 <? _)%nat eqn:El.
  { apply Nat.ltb_lt in El. auto. }
  apply Nat.ltb_ge in El. destruct (printable _) eqn:Ep; cbn [negb].
  - split_and!; [done|done|by apply printable_spec].
  - split; [done|]. right. rewrite <- printable_spec. congruence.
Qed.

Lemma prefix_of_spec s n : exists rest, s = prefix_of s n +:+ rest /\
  Strings.String.length (prefix_of s n) = Nat.min n (Strings.String.length s).
Proof.
  unfold prefix_of, String.app. revert n. induction s as [|c s IH]; intros [|n]; simpl.
  - by exists "".
  - by exists "".
  - by exists (String c s).
  - destruct (IH n) as (rest & E & Hl). exists rest. simpl. rewrite Hl. split; [|done].
    f_equal. exact E.
Qed.

Lemma prefix_of_0 s : prefix_of s 0 = "".
Proof. by destruct s. Qed.

Lemma back_off_spec s n :
  (back_off s n <= n)%nat /\ ValidString (prefix_of s (back_off s n)) = true /\
  (forall j, (back_off s n < j <= n)%nat -> ValidString (prefix_of s j) = false).
Proof.
  induction n as [|n (IH1 & IH2 & IH3)]; cbn [back_off].
  { rewrite prefix_of_0. split_and!; [lia|done|lia]. }
  destruct (ValidString (prefix_of s (S n))) eqn:E; [split_and!; [lia|done|lia]|].
  split_and!; [lia|done|]. intros j Hj. destruct (decide (j = S n)) as [->|]; [done|].
  apply IH3. lia.
Qed.

(** Truncation keeps a text that fits; otherwise it returns the longest
    prefix of at most the given number of bytes that is valid UTF-8. *)
Theorem truncate_utf8_spec s n :
  0 < n ->
  let t := truncateUTF8 s n in
  (exists rest, s = t +:+ rest) /\
  Z.of_nat (Strings.String.length t) <= n /\
  (Z.of_nat (Strings.String.length s) <= n -> t = s) /\
  (n < Z.of_nat (Strings.String.length s) -> ValidString t = true /\
     forall j, Z.of_nat j <= n -> ValidString (prefix_of s j) = true ->
       (j <= Strings.String.length t)%nat).
Proof.
  intros Hn t. subst t. unfold truncateUTF8. rewrite (proj2 (Z.leb_gt n 0)) by lia. cbn [orb].
  destruct (Z.leb_spec (Z.of_nat (Strings.String.length s)) n) as [Hl|Hl].
  { split_and!; [exists ""|lia|done|lia]. unfold String.app.
    clear. induction s; simpl; congruence. }
  destruct (back_off_spec s (Z.to_nat n)) as (H1 & H2 & H3).
  destruct (prefix_of_spec s (back_off s (Z.to_nat n))) as (rest & E & Hlen).
  split_and!; [by exists rest|lia|lia|]. intros _. split; [done|].
  intros j Hj Hv. destruct (Nat.lt_ge_cases (back_off s (Z.to_nat n)) j) as [Hlt|Hge]; [|lia].
  rewrite H3 in Hv by lia. done.
Qed.

Lemma truncate_utf8_spec_witness :
  Z.of_nat (Strings.String.length (truncateUTF8 (bytes [97; 226; 130; 172]%nat) 3)) <= 3 /\
  truncateUTF8 (bytes [97; 226; 130; 172]%nat) 3 = "a".
Proof.
  split; [|by vm_compute].
  destruct (truncate_utf8_spec (bytes [97; 226; 130; 172]%nat) 3 ltac:(lia)) as (_ & H & _).
  exact H.
Defined.

Lemma retry_after_seconds_range l now : 1 <= retry_after_seconds l now <= int64_max.
Proof.
  unfold retry_after_seconds. cbv zeta.
  pose proof (f64_to_int64_range (Seconds (Sub l now))). unfold int64_max in *. case_match; blia.
Qed.

Lemma Seconds_nonpos d : d <= 0 -> f64_to_int64 (Seconds d) <= 0.
Proof.
  intros Hd. apply f64_to_int64_nonpos. unfold Seconds.
  assert (Z.quot d second <= 0 /\ Z.rem d second <= 0) as [Hq Hr]
    by (unfold second; Z.to_euclidean_division_equations; lia).
  apply fadd_nonpos; [by apply f64_of_Z_nonpos|].
  assert (exists m e, f64_of_Z (10 ^ 9) = S754_finite false m e) as (m & e & ->)
    by (eexists _, _; by vm_compute).
  by apply fdiv_nonpos, f64_of_Z_nonpos.
Qed.

(** The retry hint of a conflict survives the trip through its text: what a
    handler reads back is the number of seconds computed from the lock, at
    least one, also when the lock is already over; without a lock there is no
    hint. *)
Theorem retry_hint_roundtrip {ExecErr : Type} (er : ExecErr -> option string) (l : option time) now :
  RetryAfterSecondsFromError er (ErrIdempotencyInProgress (conflictWithRetryAfter l now)) =
    match l with None => 0 | Some l => retry_after_seconds l now end /\
  RetryAfterSecondsFromError er (ErrIdempotencyRetryBackoff (conflictWithRetryAfter l now)) =
    match l with None => 0 | Some l => retry_after_seconds l now end /\
  (forall l', l = Some l' -> 1 <= retry_after_seconds l' now /\
     (l' <= now -> retry_after_seconds l' now = 1)).
Proof.
  assert (forall x, l = Some x -> 1 <= retry_after_seconds x now <= int64_max) as Hr
    by (intros; apply retry_after_seconds_range).
  assert (forall x, 1 <= x <= int64_max ->
    (if TrimSpace (FormatInt x) ==? "" then 0 else
       match ParseInt (TrimSpace (FormatInt x)) with
       | Some s => if s <=? 0 then 0 else s | None => 0 end) = x) as Ht.
  { intros x Hx. rewrite TrimSpace_FormatInt by lia.
    rewrite ParseInt_FormatInt by (unfold int64_min, int64_max in *; lia).
    rewrite (proj2 (Z.leb_gt x 0)) by lia. case_bool_decide as E; [|done].
    pose proof (ParseInt_FormatInt x) as Hp. rewrite E in Hp.
    assert (@None Z = Some x) by (rewrite <- Hp; [done|unfold int64_min, int64_max in *; lia]). done. }
  unfold RetryAfterSecondsFromError, conflictWithRetryAfter, retry_after_metadata. cbv zeta.
  split_and!.
  - destruct l; [apply Ht; auto|done].
  - destruct l; [apply Ht; auto|done].
  - intros l' ->. split; [apply (Hr l' eq_refl)|]. intros Hle. unfold retry_after_seconds. cbv zeta.
    assert (f64_to_int64 (Seconds (Sub l' now)) <= 0) as Hs by (apply Seconds_nonpos; unfold Sub, int64_min, int64_max; lia).
    by rewrite (proj2 (Z.leb_le _ _) Hs).
Qed.
