(* ===== verification/IdempotencyRun.v ===== *)
(** * The coordinator alone on the store

    What one call of [Execute] does from start to end: it always finishes, it
    runs the guarded operation at most once, it records success and failure,
    and a later call with the same key replays, conflicts, waits or retries
    according to the record.  Proved against the interface of the store. *)

From S2P Require Import Prelude Float64 GoTime IdempotencyStore Idempotency.
Local Open Scope Z_scope.

Section Sequential.
Context {Payload Data ExecErr : Type}.
Context (sha256_hex : string -> string).
Context (marshal_payload : Payload -> option string).
Context (marshal : Data -> option string) (unmarshal : string -> option Data).
Context (empty_object : Data).
Context (RedactText : string -> string).
Context (Reason : ExecErr -> string).
Context {St : Type} `{IdempotencyLaws St}.
Context (cfg : IdempotencyConfig).

Notation PC := (pc Data ExecErr).
Notation adv := (advance marshal unmarshal empty_object RedactText Reason cfg).
Notation runs fuel := (run marshal unmarshal empty_object RedactText Reason fuel cfg).
Notation decode := (decodeStoredResponse unmarshal empty_object).

(** ** Termination *)

(** Calls still possible. *)
Definition rank (p : PC) : nat :=
  match p with
  | AtCreate _ => 7 | AtGet _ => 6 | AtReclaimExpired _ _ => 5 | AtGetLatest _ => 4
  | AtReclaimFailed _ _ => 3 | AtExecute _ _ => 2 | AtDirect => 1
  | AtMarkFailed _ _ _ _ _ | AtMarkSucceeded _ _ _ _ => 1
  | Finished _ => 0
  end.

(** Runs of the guarded operation still possible. *)
Definition may_run (p : PC) : nat :=
  match p with
  | AtMarkFailed _ _ _ _ _ | AtMarkSucceeded _ _ _ _ | Finished _ => 0
  | _ => 1
  end.

Definition runs_now (p : PC) : nat :=
  match p with AtDirect | AtExecute _ _ => 1 | _ => 0 end.

Lemma start_rank c i : (rank (start_execution c i) <= 2)%nat /\ (may_run (start_execution c i) <= 1)%nat.
Proof. unfold start_execution, unavailable. case_match; simpl; lia. Qed.

Lemma decide_rank c r :
  (rank (decide_existing unmarshal empty_object c r) <= 3)%nat /\
  (may_run (decide_existing unmarshal empty_object c r) <= 1)%nat.
Proof. unfold decide_existing, unavailable. repeat case_match; simpl; lia. Qed.

Lemma advance_rank env p st :
  (rank p <> 0 -> rank (adv env p st).1 < rank p)%nat /\
  (may_run (adv env p st).1 + runs_now p <= may_run p)%nat.
Proof.
  destruct p as [|c|c|c r|c|c r|c i|c i rs b e|c i b d|o]; simpl; try lia.
  - destruct (CreateProcessing _ _ _) as [[[] r] st']; simpl; [pose proof (start_rank c (ID r))|]; lia.
  - unfold after_get, unavailable. destruct (GetByScopeAndKeyHash _ _) as [r|]; simpl; [|lia].
    pose proof (decide_rank c r). repeat case_match; simpl; lia.
  - destruct (TryReclaim _ _ _ _ _ _ _) as [[] st']; simpl; [pose proof (start_rank c (ID r))|]; lia.
  - unfold after_get_latest, unavailable. destruct (GetByScopeAndKeyHash _ _) as [r|]; simpl; [|lia].
    pose proof (decide_rank c r). repeat case_match; simpl; lia.
  - destruct (TryReclaim _ _ _ _ _ _ _) as [[] st']; simpl; [pose proof (start_rank c (ID r))|]; lia.
  - unfold after_execute, unavailable. repeat case_match; simpl; lia.
Qed.

Lemma run_done fuel env o st : runs fuel env (Finished o) st = (Finished o, st, 0%nat).
Proof. by destruct fuel. Qed.

Lemma run_step fuel env p st :
  rank p <> 0%nat ->
  runs (S fuel) env p st =
    (let '(q, st'', k) := runs fuel env (adv env p st).1 (adv env p st).2 in
     (q, st'', (runs_now p + k)%nat)).
Proof.
  intros Hp. destruct p; try done; cbn [run]; by destruct (adv env _ st).
Qed.

Lemma run_finishes fuel env p st :
  (rank p <= fuel)%nat ->
  (exists o, (runs fuel env p st).1.1 = Finished o) /\ ((runs fuel env p st).2 <= may_run p)%nat.
Proof.
  revert p st. induction fuel as [|fuel IH]; intros p st Hr.
  - destruct p; simpl in Hr; try lia. simpl. eauto with lia.
  - destruct (decide (rank p = 0)%nat) as [Hz|Hz].
    { destruct p; simpl in Hz; try lia. simpl. eauto with lia. }
    destruct (advance_rank env p st) as [Hlt Hn]. specialize (Hlt Hz).
    rewrite run_step by done. destruct (IH (adv env p st).1 (adv env p st).2) as [Ho Hk]; [lia|].
    destruct (run _ _ _ _ _ _ _ _ _ _) as [[q st''] k]. simpl in *. split; [done|lia].
Qed.

(** Whatever the store holds and however it answers, a call of [Execute]
    comes to a result, and the guarded operation runs at most once in it. *)
Theorem execute_finishes env execute repo (opts : IdempotencyExecuteOptions Payload) now st :
  let r := Execute sha256_hex marshal_payload marshal unmarshal empty_object RedactText
             Reason cfg env execute repo opts now st in
  (exists o, r.1.1 = Finished o) /\ (r.2 <= 1)%nat.
Proof.
  unfold Execute. set (p := begin_execute _ _ _ _ _ _ _).
  assert (rank p <= 8 /\ may_run p <= 1)%nat as [Hr Hm] by (destruct p; simpl; lia).
  destruct (run_finishes 8 env p st Hr) as [Ho Hn]. split; [done|]. cbv beta in Hn. lia.
Qed.

(** ** The life of one key *)

Notation exec := (Execute sha256_hex marshal_payload marshal unmarshal empty_object RedactText
                    Reason cfg).
Notation start := (begin_execute (Data:=Data) (ExecErr:=ExecErr) sha256_hex marshal_payload cfg true true).

(** The record as the claim left it, before the operation reports. *)
Definition claimed_row (c : claim) (i : Z) (db_now : time) : IdempotencyRecord :=
  mkRecord i (c_scope c) (c_keyHash c) (c_fingerprint c) IdempotencyStatusProcessing
    None None None (Some (c_lockedUntil c)) (c_expiresAt c) db_now db_now.

Lemma create_claims env c st :
  store_ok st -> GetByScopeAndKeyHash (claim_key c) st = None ->
  exists i st', adv env (AtCreate c) st = (AtExecute c i, st') /\ store_ok st' /\
    GetByScopeAndKeyHash (claim_key c) st' = Some (claimed_row c i (s_db_now env)).
Proof.
  intros Hok Hv. destruct (create_fresh (s_db_now env) (claim_record c) st Hok Hv)
    as (i & st' & Hc & Hok' & Hi & Hview).
  exists i, st'. split_and!; [|done|].
  - simpl. rewrite Hc. simpl. unfold start_execution. by rewrite (proj2 (Z.eqb_neq i 0)) by lia.
  - rewrite Hview. by rewrite decide_True by done.
Qed.

Lemma mark_view (cond : IdempotencyRecord -> bool) f r : cond r = true -> update_if (ID r) cond f r = f r.
Proof. intros Hc. unfold update_if. by rewrite Z.eqb_refl, Hc. Qed.

Lemma first_call env (opts : IdempotencyExecuteOptions Payload) now c st :
  store_ok st -> start opts now = AtCreate c -> GetByScopeAndKeyHash (claim_key c) st = None ->
  let r := exec env true true opts now st in
  r.2 = 1%nat /\ store_ok r.1.2 /\
  match s_result env with
  | Ok data =>
      match marshalStoredResponse marshal RedactText cfg data with
      | Some body => r.1.1 = Finished (Returned data false) /\
          exists row, GetByScopeAndKeyHash (claim_key c) r.1.2 = Some row /\
            Status row = IdempotencyStatusSucceeded /\ ResponseBody row = Some body /\
            RequestFingerprint row = c_fingerprint c /\ ExpiresAt row = c_expiresAt c
      | None => r.1.1 = unavailable
      end
  | Err e => r.1.1 = Finished (Failed (ErrExecution e)) /\
      exists row, GetByScopeAndKeyHash (claim_key c) r.1.2 = Some row /\
        Status row = IdempotencyStatusFailedRetryable /\
        LockedUntil row = Some (s_now env + FailedRetryBackoff cfg) /\
        RequestFingerprint row = c_fingerprint c /\ ExpiresAt row = c_expiresAt c
  end.
Proof.
  intros Hok Hs Hv. destruct (create_claims env c st Hok Hv) as (i & st' & Ha & Hok' & Hv').
  unfold Execute. rewrite Hs. rewrite run_step by done. rewrite Ha. cbn [fst snd].
  rewrite run_step by done. cbn [advance fst snd]. unfold after_execute.
  destruct (s_result env) as [data|e].
  - destruct (marshalStoredResponse marshal RedactText cfg data) as [body|].
    + rewrite run_step by done. cbn [advance after_mark_succeeded fst snd]. rewrite run_done.
      destruct (succeeded_ok (s_db_now env) i 200 body (c_expiresAt c) st' Hok') as [Hok2 Hview].
      split_and!; [done|done|done|]. rewrite Hview, Hv'. eexists. split; [reflexivity|].
      unfold update_if. simpl. by rewrite Z.eqb_refl.
    + unfold unavailable. by rewrite run_done.
  - rewrite run_step by done. cbn [advance fst snd]. unfold after_mark_failed. rewrite run_done.
    destruct (failed_ok (s_db_now env) i (if Reason e ==? "" then "EXECUTION_FAILED" else Reason e)
      (s_now env + FailedRetryBackoff cfg) (c_expiresAt c) st' Hok') as [Hok2 Hview].
    split_and!; [done|done|done|]. rewrite Hview, Hv'. eexists. split; [reflexivity|].
    unfold update_if. simpl. by rewrite Z.eqb_refl.
Qed.

(** The first call with a key runs the operation exactly once.  If it
    succeeds the answer is returned and stored; if it fails the error is
    returned and the record is open for a retry after the backoff. *)
Theorem first_call_spec env (opts : IdempotencyExecuteOptions Payload) now c st :
  store_ok st -> start opts now = AtCreate c -> GetByScopeAndKeyHash (claim_key c) st = None ->
  let r := exec env true true opts now st in
  r.2 = 1%nat /\ store_ok r.1.2 /\
  match s_result env with
  | Ok data =>
      match marshalStoredResponse marshal RedactText cfg data with
      | Some body => r.1.1 = Finished (Returned data false) /\
          exists row, GetByScopeAndKeyHash (claim_key c) r.1.2 = Some row /\
            Status row = IdempotencyStatusSucceeded /\ ResponseBody row = Some body /\
            RequestFingerprint row = c_fingerprint c /\ ExpiresAt row = c_expiresAt c
      | None => r.1.1 = unavailable
      end
  | Err e => r.1.1 = Finished (Failed (ErrExecution e)) /\
      exists row, GetByScopeAndKeyHash (claim_key c) r.1.2 = Some row /\
        Status row = IdempotencyStatusFailedRetryable /\
        LockedUntil row = Some (s_now env + FailedRetryBackoff cfg) /\
        RequestFingerprint row = c_fingerprint c /\ ExpiresAt row = c_expiresAt c
  end.
Proof. exact (first_call env opts now c st). Qed.

(** The path to the decision when a live record stands. *)
Lemma existing_path env c row st :
  store_ok st -> GetByScopeAndKeyHash (claim_key c) st = Some row ->
  RequestFingerprint row = c_fingerprint c -> c_now c < ExpiresAt row ->
  runs 8%nat env (AtCreate c) st =
    runs 6%nat env (decide_existing unmarshal empty_object c row) st.
Proof.
  intros Hok Hv Hf He. rewrite run_step by done.
  assert (adv env (AtCreate c) st = (AtGet c, st)) as ->.
  { simpl. by rewrite (create_taken (s_db_now env) (claim_record c) row st Hok Hv). }
  cbn [fst snd]. rewrite run_step by done.
  assert (adv env (AtGet c) st = (decide_existing unmarshal empty_object c row, st)) as ->.
  { simpl. rewrite Hv. unfold after_get, After. rewrite Hf.
    rewrite bool_decide_true by done. by rewrite (proj2 (Z.ltb_lt _ _) He). }
  cbn [fst snd runs_now]. by destruct (run _ _ _ _ _ _ _ _ _ _) as [[q st'] k].
Qed.

Lemma later_call env (opts : IdempotencyExecuteOptions Payload) now c row st :
  store_ok st -> start opts now = AtCreate c ->
  GetByScopeAndKeyHash (claim_key c) st = Some row -> now < ExpiresAt row ->
  let r := exec env true true opts now st in
  (RequestFingerprint row <> c_fingerprint c ->
     r = (Finished (Failed ErrIdempotencyKeyConflict), st, 0%nat)) /\
  (RequestFingerprint row = c_fingerprint c ->
     (Status row = IdempotencyStatusSucceeded ->
        r = (match decode (ResponseBody row) with
             | Some data => Finished (Returned data true) | None => unavailable end, st, 0%nat)) /\
     (Status row = IdempotencyStatusProcessing ->
        r = (Finished (Failed (ErrIdempotencyInProgress
               (conflictWithRetryAfter (LockedUntil row) now))), st, 0%nat)) /\
     (Status row = IdempotencyStatusFailedRetryable -> forall l, LockedUntil row = Some l -> now < l ->
        r = (Finished (Failed (ErrIdempotencyRetryBackoff
               (conflictWithRetryAfter (LockedUntil row) now))), st, 0%nat))).
Proof.
  intros Hok Hs Hv He. unfold Execute. rewrite Hs.
  assert (c_now c = now) as Hn.
  { clear -Hs. unfold begin_execute in Hs. repeat case_match; try done. by injection Hs as <-. }
  split.
  - intros Hf. rewrite run_step by done.
    assert (adv env (AtCreate c) st = (AtGet c, st)) as ->.
    { simpl. by rewrite (create_taken (s_db_now env) (claim_record c) row st Hok Hv). }
    cbn [fst snd]. rewrite run_step by done.
    assert (adv env (AtGet c) st = (Finished (Failed ErrIdempotencyKeyConflict), st)) as ->.
    { simpl. rewrite Hv. unfold after_get. by rewrite bool_decide_false by done. }
    cbn [fst snd]. by rewrite run_done.
  - intros Hf. rewrite <- Hn in He. rewrite (existing_path env c row st) by done.
    unfold decide_existing. split_and!; intros E; rewrite E.
    + rewrite bool_decide_true by done. destruct (decode _); apply run_done.
    + rewrite bool_decide_false, bool_decide_true by done. rewrite Hn. apply run_done.
    + intros l Hl Hlt. rewrite !bool_decide_false, bool_decide_true by done.
      rewrite Hl. unfold After. rewrite Hn, (proj2 (Z.ltb_lt _ _) Hlt). apply run_done.
Qed.

(** A call whose key has a live record never touches the store unless it
    may retry.  A different request is a conflict; the same request replays
    the stored answer of a success, is told the request is in progress, or,
    after a failure, is told to wait until the backoff is over; the guarded
    operation does not run. *)
Theorem later_call_spec env (opts : IdempotencyExecuteOptions Payload) now c row st :
  store_ok st -> start opts now = AtCreate c ->
  GetByScopeAndKeyHash (claim_key c) st = Some row -> now < ExpiresAt row ->
  let r := exec env true true opts now st in
  (RequestFingerprint row <> c_fingerprint c ->
     r = (Finished (Failed ErrIdempotencyKeyConflict), st, 0%nat)) /\
  (RequestFingerprint row = c_fingerprint c ->
     (Status row = IdempotencyStatusSucceeded ->
        r = (match decode (ResponseBody row) with
             | Some data => Finished (Returned data true) | None => unavailable end, st, 0%nat)) /\
     (Status row = IdempotencyStatusProcessing ->
        r = (Finished (Failed (ErrIdempotencyInProgress
               (conflictWithRetryAfter (LockedUntil row) now))), st, 0%nat)) /\
     (Status row = IdempotencyStatusFailedRetryable -> forall l, LockedUntil row = Some l -> now < l ->
        r = (Finished (Failed (ErrIdempotencyRetryBackoff
               (conflictWithRetryAfter (LockedUntil row) now))), st, 0%nat))).
Proof. exact (later_call env opts now c row st). Qed.

(** After a failure whose backoff is over, the same request runs the
    operation again, exactly once more, and its record follows the new
    outcome. *)
Theorem retry_after_failure_spec env (opts : IdempotencyExecuteOptions Payload) now c row st :
  store_ok st -> start opts now = AtCreate c ->
  GetByScopeAndKeyHash (claim_key c) st = Some row -> now < ExpiresAt row ->
  RequestFingerprint row = c_fingerprint c -> Status row = IdempotencyStatusFailedRetryable ->
  (forall l, LockedUntil row = Some l -> l <= now) ->
  let r := exec env true true opts now st in
  r.2 = 1%nat /\
  match s_result env with
  | Ok data =>
      match marshalStoredResponse marshal RedactText cfg data with
      | Some body => r.1.1 = Finished (Returned data false) /\
          exists row', GetByScopeAndKeyHash (claim_key c) r.1.2 = Some row' /\ ID row' = ID row /\
            Status row' = IdempotencyStatusSucceeded /\ ResponseBody row' = Some body
      | None => r.1.1 = unavailable
      end
  | Err e => r.1.1 = Finished (Failed (ErrExecution e)) /\
      exists row', GetByScopeAndKeyHash (claim_key c) r.1.2 = Some row' /\ ID row' = ID row /\
        Status row' = IdempotencyStatusFailedRetryable /\
        LockedUntil row' = Some (s_now env + FailedRetryBackoff cfg)
  end.
Proof.
  intros Hok Hs Hv He Hf Hst Hl. unfold Execute. rewrite Hs.
  assert (c_now c = now) as Hn.
  { clear -Hs. unfold begin_execute in Hs. repeat case_match; try done. by injection Hs as <-. }
  rewrite <- Hn in *. rewrite (existing_path env c row st) by done.
  assert (reclaimable IdempotencyStatusFailedRetryable (c_now c) row = true) as Hrec.
  { unfold reclaimable. rewrite Hst. simpl. destruct (LockedUntil row) as [l|]; [|done].
    by apply Z.leb_le, Hl. }
  assert (decide_existing unmarshal empty_object c row = AtReclaimFailed c row) as ->.
  { unfold decide_existing. rewrite Hst. rewrite !bool_decide_false, bool_decide_true by done.
    destruct (LockedUntil row) as [l|]; [|done]. unfold After.
    by rewrite (proj2 (Z.ltb_ge _ _) (Hl l eq_refl)). }
  rewrite run_step by done. cbn [advance].
  pose proof (reclaim_ok (s_db_now env) (ID row) IdempotencyStatusFailedRetryable (c_now c)
    (c_lockedUntil c) (c_expiresAt c) st Hok) as Hr.
  destruct (TryReclaim _ _ _ _ _ _ st) as [taken st']. destruct Hr as (Hok' & Hview & Ht).
  assert (taken = true) as -> by (apply Ht; eauto).
  pose proof (store_id st _ _ Hok Hv) as Hid.
  cbn [after_reclaim_failed fst snd]. unfold start_execution.
  rewrite (proj2 (Z.eqb_neq (ID row) 0)) by lia.
  rewrite run_step by done. cbn [advance fst snd].
  specialize (Hview (claim_key c)). rewrite Hv in Hview. simpl in Hview.
  rewrite mark_view in Hview by done. unfold after_execute.
  destruct (s_result env) as [data|e].
  - destruct (marshalStoredResponse marshal RedactText cfg data) as [body|].
    + rewrite run_step by done. cbn [advance after_mark_succeeded fst snd]. rewrite run_done.
      destruct (succeeded_ok (s_db_now env) (ID row) 200 body (c_expiresAt c) st' Hok') as [_ Hm].
      split_and!; [done|done|]. rewrite Hm, Hview. eexists. split; [reflexivity|].
      unfold update_if. simpl. by rewrite Z.eqb_refl.
    + unfold unavailable. by rewrite run_done.
  - rewrite run_step by done. cbn [advance fst snd]. unfold after_mark_failed. rewrite run_done.
    destruct (failed_ok (s_db_now env) (ID row)
      (if Reason e ==? "" then "EXECUTION_FAILED" else Reason e)
      (s_now env + FailedRetryBackoff cfg) (c_expiresAt c) st' Hok') as [_ Hm].
    split_and!; [done|done|]. rewrite Hm, Hview. eexists. split; [reflexivity|].
    unfold update_if. simpl. by rewrite Z.eqb_refl.
Qed.

(** ** Long answers *)

Lemma strip_mark p x r :
  strip_prefix p (x +:+ ")") = Some r -> (forall q, rev_string p <> String ")" q) ->
  exists y, r = y +:+ ")".
Proof.
  intros E Hp. apply strip_prefix_Some in E. apply (f_equal rev_string) in E.
  rewrite !rev_string_app in E. destruct (rev_string r) as [|ch q] eqn:Er.
  - destruct (Hp (rev_string x)). exact (eq_sym E).
  - exists (rev_string q). rewrite <- (rev_string_involutive r), Er.
    injection E as <- _. rewrite <- (rev_string_involutive (_ +:+ _)), rev_string_snoc.
    by rewrite rev_string_involutive.
Qed.

Lemma strip_all_mark fuel x : exists y, strip_all fuel white_space (x +:+ ")") = y +:+ ")".
Proof.
  revert x. induction fuel as [|fuel IH]; intros x; [by exists x|]. cbn [strip_all].
  destruct (strip_first white_space (x +:+ ")")) as [r|] eqn:E; [|by exists x].
  assert (exists p, p ∈ white_space /\ strip_prefix p (x +:+ ")") = Some r) as (p & Hp & Er).
  { revert E. generalize white_space. induction l as [|p l IHl]; cbn [strip_first]; [done|].
    destruct (strip_prefix p _) as [r'|] eqn:Ep.
    - intros [= ->]. exists p. split; [apply list_elem_of_here|done].
    - intros (p' & Hp' & E')%IHl. exists p'. split; [by apply elem_of_cons; right|done]. }
  assert (Forall (fun p => forall q, rev_string p <> String ")" q) white_space) as Hall
    by (vm_compute; repeat constructor; discriminate).
  rewrite Forall_forall in Hall.
  destruct (strip_mark p x r Er (Hall p Hp)) as [y ->]. apply IH.
Qed.

(** A marked text is never blank. *)
Lemma mark_not_blank s : TrimSpace (s +:+ truncation_mark) <> "".
Proof.
  assert (exists x, s +:+ truncation_mark = x +:+ ")") as [x ->]
    by (exists (s +:+ "...(truncated"); by rewrite app_assoc_string).
  unfold TrimSpace, TrimLeftSpace, TrimRightSpace.
  destruct (strip_all_mark (Strings.String.length (x +:+ ")")) x) as [y ->].
  rewrite rev_string_snoc, strip_all_None by reflexivity.
  rewrite <- (rev_string_snoc y ")"), rev_string_involutive. unfold String.app. by destruct y.
Qed.

(** C40: an answer longer than the configured limit is stored cut and marked,
    and that text is not JSON, so until the record expires the same request
    gets "store unavailable" instead of the replay of its answer. *)
Theorem truncated_answer_not_replayed env env2 (opts opts2 : IdempotencyExecuteOptions Payload)
    now now2 c c2 st data raw :
  (forall s, unmarshal (s +:+ truncation_mark) = None) ->
  store_ok st -> start opts now = AtCreate c -> GetByScopeAndKeyHash (claim_key c) st = None ->
  s_result env = Ok data -> marshal data = Some raw ->
  0 < MaxStoredResponseLen cfg < Z.of_nat (Strings.String.length (RedactText raw)) ->
  start opts2 now2 = AtCreate c2 -> claim_key c2 = claim_key c ->
  c_fingerprint c2 = c_fingerprint c -> now2 < c_expiresAt c ->
  let r := exec env true true opts now st in
  r.1.1 = Finished (Returned data false) /\
  exec env2 true true opts2 now2 r.1.2 = (unavailable, r.1.2, 0%nat).
Proof.
  intros Hjson Hok Hs Hv Hr Hm Hlen Hs2 Hk2 Hf2 Hn2 r.
  pose proof (first_call env opts now c st Hok Hs Hv) as Hfirst. cbv zeta in Hfirst. fold r in Hfirst.
  rewrite Hr in Hfirst. unfold marshalStoredResponse in Hfirst. rewrite Hm in Hfirst. cbv zeta in Hfirst.
  rewrite (proj2 (Z.ltb_lt _ _) (proj1 Hlen)), (proj2 (Z.ltb_lt _ _) (proj2 Hlen)) in Hfirst.
  cbn [andb] in Hfirst. destruct Hfirst as (_ & Hok2 & Hres & row & Hv2 & Hst & Hb & Hf & He).
  split; [done|].
  destruct (later_call env2 opts2 now2 c2 row r.1.2 Hok2 Hs2) as [_ Hl];
    [by rewrite Hk2|by rewrite He|].
  destruct (Hl ltac:(congruence)) as (Hl1 & _ & _). rewrite (Hl1 Hst), Hb.
  unfold decodeStoredResponse. rewrite bool_decide_false by apply mark_not_blank. by rewrite Hjson.
Qed.
End Sequential.

(** ** A concrete instance

    Strings for payloads, answers and errors; the identity for the digest and
    the encoder; the decoder refuses a marked text. *)

Definition ex_unmarshal (s : string) : option string :=
  if HasSuffix s truncation_mark then None else Some s.

Definition ex_cfg (limit : Z) : IdempotencyConfig :=
  mkConfig (24 * hour) hour (30 * second) (5 * second) limit false.

Definition ex_opts (payload : string) : IdempotencyExecuteOptions string :=
  mkOptions "pay" "user:1" "POST" "/pay" " k1 " payload 0 true.

Definition ex_env (r : result string string) : surroundings string string :=
  mkSurroundings 0 (1 * second) r.

Definition ex_execute (limit : Z) (env : surroundings string string) (payload : string)
    (now : time) (st : table) :=
  Execute (fun s => s) Some Some ex_unmarshal "{}" (fun s => s) (fun e => e) (ex_cfg limit)
    env true true (ex_opts payload) now st.

Definition ex_claim (payload : string) (now : time) : claim :=
  mkClaim "pay" "k1" ("POST" +:+ newline +:+ "/pay" +:+ newline +:+ "user:1" +:+ newline +:+ payload)
    now (now + 30 * second) (now + 24 * hour).

(** The store after a first call that succeeded with "done". *)
Definition ex_done : table := (ex_execute 100 (ex_env (Ok "done")) "p" 0 empty_table).1.2.
(** The store after a first call that failed with "boom". *)
Definition ex_failed : table := (ex_execute 100 (ex_env (Err "boom")) "p" 0 empty_table).1.2.

Definition ex_key : key := ("pay", "k1").

Lemma ex_tables_ok : store_ok (St:=table) ex_done /\ store_ok (St:=table) ex_failed.
Proof.
  split.
  - apply (first_call (fun s => s) Some Some ex_unmarshal "{}" (fun s => s) (fun e => e) (ex_cfg 100)
      (ex_env (Ok "done")) (ex_opts "p") 0 (ex_claim "p" 0) empty_table);
      [apply empty_table_ok|by vm_compute|by vm_compute].
  - apply (first_call (fun s => s) Some Some ex_unmarshal "{}" (fun s => s) (fun e => e) (ex_cfg 100)
      (ex_env (Err "boom")) (ex_opts "p") 0 (ex_claim "p" 0) empty_table);
      [apply empty_table_ok|by vm_compute|by vm_compute].
Qed.

Lemma first_call_spec_witness :
  (ex_execute 100 (ex_env (Ok "done")) "p" 0 empty_table).2 = 1%nat /\
  (ex_execute 100 (ex_env (Ok "done")) "p" 0 empty_table).1.1 = Finished (Returned "done" false).
Proof.
  split; [|by vm_compute].
  destruct (first_call_spec (fun s => s) Some Some ex_unmarshal "{}" (fun s => s) (fun e => e)
    (ex_cfg 100) (ex_env (Ok "done")) (ex_opts "p") 0 (ex_claim "p" 0) empty_table) as [H _];
    [apply empty_table_ok|by vm_compute|by vm_compute|exact H].
Defined.

Lemma later_call_spec_witness :
  ex_execute 100 (ex_env (Ok "again")) "p" second ex_done = (Finished (Returned "done" true), ex_done, 0%nat) /\
  ex_execute 100 (ex_env (Ok "again")) "q" second ex_done
    = (Finished (Failed ErrIdempotencyKeyConflict), ex_done, 0%nat).
Proof.
  destruct ex_tables_ok as [Hok _]. split.
  - destruct (later_call_spec (fun s => s) Some Some ex_unmarshal "{}" (fun s => s) (fun e => e)
      (ex_cfg 100) (ex_env (Ok "again")) (ex_opts "p") second (ex_claim "p" second)
      (default sample_record (rows ex_done !! ex_key)) ex_done Hok) as [_ H];
      [by vm_compute|by vm_compute|by vm_compute|].
    destruct H as (H & _); [by vm_compute|]. unfold ex_execute.
    rewrite H by by vm_compute. by vm_compute.
  - destruct (later_call_spec (fun s => s) Some Some ex_unmarshal "{}" (fun s => s) (fun e => e)
      (ex_cfg 100) (ex_env (Ok "again")) (ex_opts "q") second (ex_claim "q" second)
      (default sample_record (rows ex_done !! ex_key)) ex_done Hok) as [H _];
      [by vm_compute|by vm_compute|by vm_compute|].
    apply H. by vm_compute.
Defined.

Lemma retry_after_failure_spec_witness :
  (ex_execute 100 (ex_env (Ok "again")) "p" (10 * second) ex_failed).2 = 1%nat.
Proof.
  destruct ex_tables_ok as [_ Hok].
  destruct (retry_after_failure_spec (fun s => s) Some Some ex_unmarshal "{}" (fun s => s)
    (fun e => e) (ex_cfg 100) (ex_env (Ok "again")) (ex_opts "p") (10 * second)
    (ex_claim "p" (10 * second)) (default sample_record (rows ex_failed !! ex_key)) ex_failed Hok)
    as [H _]; [by vm_compute..| |exact H].
  intros l Hl. vm_compute in Hl. injection Hl as <-. vm_compute. discriminate.
Defined.

Lemma truncated_answer_not_replayed_witness :
  (ex_execute 2 (ex_env (Ok "again")) "p" second
     (ex_execute 2 (ex_env (Ok "done")) "p" 0 empty_table).1.2).1.1 = unavailable.
Proof.
  destruct (truncated_answer_not_replayed (fun s => s) Some Some ex_unmarshal "{}" (fun s => s)
    (fun e => e) (ex_cfg 2) (ex_env (Ok "done")) (ex_env (Ok "again")) (ex_opts "p") (ex_opts "p")
    0 second (ex_claim "p" 0) (ex_claim "p" second) empty_table "done" "done") as [_ H];
    [|apply empty_table_ok|by vm_compute..|unfold ex_execute; by rewrite H].
  intros s. unfold ex_unmarshal. by rewrite (proj2 (HasSuffix_spec _ _)) by eauto.
Defined.
