(* ===== verification/IdempotencyConcurrency.v ===== *)
(** * Many coordinators over one store

    Any number of [Execute] calls interleave, one repository statement or one
    run of the guarded operation at a time; a statement may fail, with or
    without having taken effect; a client that is never scheduled again has
    crashed; the cleanup job runs at any moment.  Within a window of time in
    which no record it creates can expire, the guarded operation succeeds at
    most once per key, and a stored success never changes. *)

From S2P Require Import Prelude Float64 GoTime IdempotencyStore Idempotency.
Local Open Scope Z_scope.

Section Interleaving.
Context {Payload Data ExecErr : Type}.
Context (sha256_hex : string -> string).
Context (marshal_payload : Payload -> option string).
Context (marshal : Data -> option string) (unmarshal : string -> option Data).
Context (empty_object : Data).
Context (RedactText : string -> string).
Context (Reason : ExecErr -> string).
Context {St : Type} `{IdempotencyLaws St}.
Context (cfg : IdempotencyConfig).

Notation PC := (pc Data ExecErr).
Notation adv := (advance marshal unmarshal empty_object RedactText Reason cfg).
Notation err := (on_error unmarshal empty_object).
Notation view st k := (GetByScopeAndKeyHash k st).

Record world := mkWorld {
  store : St;
  clients : list PC;
  wins : list key;        (** a key per successful run of the operation *)
}.

Definition win (p : PC) (env : surroundings Data ExecErr) : list key :=
  match p, s_result env with
  | AtExecute c _, Ok _ => [claim_key c]
  | _, _ => []
  end.

(** The window: clocks of calls and of the cleanup read between [t0] and
    [t1], and no record claimed in it expires before [t1]. *)
Context (t0 t1 : time).

Inductive step : world -> world -> Prop :=
| step_call w execute repo (opts : IdempotencyExecuteOptions Payload) now :
    t0 <= now < t1 -> t1 <= now + effective_ttl cfg opts ->
    step w (mkWorld (store w)
      (clients w ++ [begin_execute sha256_hex marshal_payload cfg execute repo opts now]) (wins w))
| step_reply w i p env :
    clients w !! i = Some p ->
    step w (mkWorld (adv env p (store w)).2 (<[i := (adv env p (store w)).1]> (clients w))
      (wins w ++ win p env))
| step_error w i p p' :
    clients w !! i = Some p -> err p = Some p' ->
    step w (mkWorld (store w) (<[i := p']> (clients w)) (wins w))
| step_error_applied w i p p' env :
    clients w !! i = Some p -> err p = Some p' ->
    step w (mkWorld (adv env p (store w)).2 (<[i := p']> (clients w)) (wins w))
| step_cleanup w now limit :
    now < t1 ->
    step w (mkWorld (DeleteExpired now limit (store w)).2 (clients w) (wins w)).

(** ** The invariant *)

(** The claim a client works under and the row it holds. *)
Definition pc_claim (p : PC) : option claim :=
  match p with
  | AtCreate c | AtGet c | AtReclaimExpired c _ | AtGetLatest c | AtReclaimFailed c _
  | AtExecute c _ | AtMarkFailed c _ _ _ _ | AtMarkSucceeded c _ _ _ => Some c
  | AtDirect | Finished _ => None
  end.

Definition hold (p : PC) : option (key * Z) :=
  match p with
  | AtExecute c i | AtMarkFailed c i _ _ _ | AtMarkSucceeded c i _ _ => Some (claim_key c, i)
  | _ => None
  end.

Definition has_won (p : PC) : bool :=
  match p with AtMarkSucceeded _ _ _ _ => true | _ => false end.

Definition claim_live (c : claim) : Prop := c_now c < t1 <= c_expiresAt c.

Definition processing (st : St) (k : key) (i : Z) : Prop :=
  exists r, view st k = Some r /\ ID r = i /\ Status r = IdempotencyStatusProcessing.

Definition pc_ok (st : St) (p : PC) : Prop :=
  (forall c, pc_claim p = Some c -> claim_live c) /\
  (forall k i, hold p = Some (k, i) -> processing st k i) /\
  match p with
  | AtReclaimExpired _ _ | AtGetLatest _ => False
  | AtReclaimFailed c r => exists r', view st (claim_key c) = Some r' /\ ID r' = ID r
  | _ => True
  end.

Record inv (w : world) : Prop := {
  inv_store : store_ok (store w);
  inv_live k r : view (store w) k = Some r -> t1 <= ExpiresAt r;
  inv_pc i p : clients w !! i = Some p -> pc_ok (store w) p;
  inv_excl i j p q k a b : clients w !! i = Some p -> clients w !! j = Some q ->
    hold p = Some (k, a) -> hold q = Some (k, b) -> i = j;
  inv_nodup : NoDup (wins w);
  inv_won k : k ∈ wins w -> exists r, view (store w) k = Some r /\
    Status r <> IdempotencyStatusFailedRetryable;
  inv_after i p k a : clients w !! i = Some p -> hold p = Some (k, a) -> k ∈ wins w ->
    has_won p = true;
}.

Definition unheld (w : world) (k : key) : Prop :=
  forall j q a, clients w !! j = Some q -> hold q <> Some (k, a).

Lemma hold_key (p : PC) c k i : pc_claim p = Some c -> hold p = Some (k, i) -> k = claim_key c.
Proof. destruct p; simpl; try done; intros [= ->] [= <- _]; done. Qed.

(** A client moves from [p] to [p'], its claim's row may change, and the
    operation may have succeeded under it. *)
Lemma move_inv w i p p' c st' wn' :
  inv w -> clients w !! i = Some p -> pc_claim p = Some c ->
  store_ok st' ->
  (forall k, k <> claim_key c -> view st' k = view (store w) k) ->
  (forall r, view st' (claim_key c) = Some r -> t1 <= ExpiresAt r) ->
  (forall r, view (store w) (claim_key c) = Some r ->
     exists r', view st' (claim_key c) = Some r' /\ ID r' = ID r) ->
  pc_ok st' p' -> (forall c', pc_claim p' = Some c' -> c' = c) ->
  (hold p = None -> hold p' <> None -> unheld w (claim_key c) /\ claim_key c ∉ wins w) ->
  (hold p = None -> unheld w (claim_key c) \/
     view st' (claim_key c) = view (store w) (claim_key c)) ->
  (wn' = wins w \/ wn' = wins w ++ [claim_key c] /\ hold p <> None /\ has_won p = false) ->
  (claim_key c ∈ wn' -> exists r, view st' (claim_key c) = Some r /\
     Status r <> IdempotencyStatusFailedRetryable) ->
  (hold p' <> None -> claim_key c ∈ wn' -> has_won p' = true) ->
  inv (mkWorld st' (<[i := p']> (clients w)) wn').
Proof.
  intros Hinv Hi Hc Hok Hother Hlive Hid Hp' Hc' Hnew Hkeep Hwn Hwon Hafter.
  assert (forall j q, (<[i := p']> (clients w)) !! j = Some q ->
            i = j /\ q = p' \/ i <> j /\ clients w !! j = Some q) as Hlook.
  { intros j q Hq. apply list_lookup_insert_Some in Hq as [(-> & <- & _)|[? ?]]; auto. }
  assert (forall a, hold p = Some (claim_key c, a) -> forall j q b, i <> j -> clients w !! j = Some q ->
            hold q <> Some (claim_key c, b)) as Hexcl.
  { intros a Ha j q b Hij Hj Hb. apply Hij. by eapply (inv_excl w Hinv i j). }
  assert (forall j q b, i <> j -> clients w !! j = Some q -> hold q = Some (claim_key c, b) ->
            view st' (claim_key c) = view (store w) (claim_key c)) as Hsame.
  { intros j q b Hij Hj Hb. destruct (hold p) as [[k a]|] eqn:Eh.
    - pose proof (hold_key _ _ _ _ Hc Eh) as ->. by destruct (Hexcl a eq_refl j q b Hij Hj).
    - destruct (Hkeep eq_refl) as [Hu|]; [by destruct (Hu j q b Hj)|done]. }
  assert (forall k, k ∈ wn' -> k ∈ wins w \/ k = claim_key c) as Hwin.
  { intros k Hk. destruct Hwn as [->|[-> _]]; [by left|].
    apply elem_of_app in Hk as [?|Hk]; [by left|]. apply list_elem_of_singleton in Hk. by right. }
  assert (forall k a, hold p' = Some (k, a) -> k = claim_key c) as Hkey.
  { intros k a Hh. destruct (pc_claim p') as [c'|] eqn:Ec'; [|by destruct p'].
    rewrite <- (Hc' c') by done. by eapply hold_key. }
  split; cbn [store clients wins].
  - done.
  - intros k r Hk. destruct (decide (k = claim_key c)) as [->|Hne]; [by apply Hlive|].
    rewrite Hother in Hk by done. by apply (inv_live w Hinv k).
  - intros j q Hq. apply Hlook in Hq as [[<- ->]|[Hij Hq]]; [done|].
    destruct (inv_pc w Hinv j q Hq) as (H1 & H2 & H3). split_and!; [done| |].
    + intros k a Ha. destruct (decide (k = claim_key c)) as [->|Hne].
      * unfold processing. rewrite (Hsame j q a) by done. by apply H2.
      * unfold processing. rewrite Hother by done. by apply H2.
    + destruct q; try done. destruct H3 as (r' & Hr' & Er).
      destruct (decide (claim_key c0 = claim_key c)) as [E|Hne].
      * rewrite E in *. destruct (Hid r' Hr') as (r2 & ? & ?). exists r2. split; [done|congruence].
      * exists r'. by rewrite Hother.
  - intros j1 j2 q1 q2 k a b H1 H2 Hh1 Hh2.
    apply Hlook in H1 as [[<- ->]|[Hij1 H1]]; apply Hlook in H2 as [[<- ->]|[Hij2 H2]]; [done| | |].
    + exfalso. apply Hkey in Hh1 as Ek || apply Hkey in Hh2 as Ek. subst k.
      destruct (hold p) as [[k0 a0]|] eqn:Eh.
      * pose proof (hold_key _ _ _ _ Hc Eh) as ->. by destruct (Hexcl a0 eq_refl j2 q2 b).
      * destruct (Hnew eq_refl) as [Hu _]; [by rewrite Hh1|]. by destruct (Hu j2 q2 b).
    + exfalso. apply Hkey in Hh1 as Ek || apply Hkey in Hh2 as Ek. subst k.
      destruct (hold p) as [[k0 a0]|] eqn:Eh.
      * pose proof (hold_key _ _ _ _ Hc Eh) as ->. by destruct (Hexcl a0 eq_refl j1 q1 a).
      * destruct (Hnew eq_refl) as [Hu _]; [by rewrite Hh2|]. by destruct (Hu j1 q1 a).
    + by eapply (inv_excl w Hinv).
  - destruct Hwn as [->|(-> & Hh & Hw)]; [apply (inv_nodup w Hinv)|].
    apply NoDup_app. split_and!; [apply (inv_nodup w Hinv)| |apply NoDup_singleton].
    intros k Hk ->%list_elem_of_singleton. destruct (hold p) as [[k a]|] eqn:Eh; [|done].
    pose proof (hold_key _ _ _ _ Hc Eh) as ->.
    rewrite (inv_after w Hinv i p _ a Hi Eh Hk) in Hw. done.
  - intros k Hk. destruct (decide (k = claim_key c)) as [->|Hne]; [by apply Hwon|].
    rewrite Hother by done. destruct (Hwin k Hk) as [?|?]; [by apply (inv_won w Hinv)|done].
  - intros j q k a Hq Hh Hk. apply Hlook in Hq as [[<- ->]|[Hij Hq]].
    + apply Hkey in Hh as Ek. subst k.
      apply Hafter; [by rewrite Hh|done].
    + destruct (Hwin k Hk) as [Hk'| ->]; [by apply (inv_after w Hinv j q k a)|].
      destruct Hwn as [->|(-> & Hhp & _)]; [by apply (inv_after w Hinv j q (claim_key c) a)|].
      destruct (hold p) as [[k0 a0]|] eqn:Eh; [|done].
      pose proof (hold_key _ _ _ _ Hc Eh) as ->. by destruct (Hexcl a0 eq_refl j q a).
Qed.

(** ** Every step preserves it *)

(** The client stops; its row keeps its identity. *)
Lemma stop_inv w i p o c st' :
  inv w -> clients w !! i = Some p -> pc_claim p = Some c -> store_ok st' ->
  (forall k, k <> claim_key c -> view st' k = view (store w) k) ->
  (forall r, view st' (claim_key c) = Some r -> t1 <= ExpiresAt r) ->
  (forall r, view (store w) (claim_key c) = Some r ->
     exists r', view st' (claim_key c) = Some r' /\ ID r' = ID r) ->
  (hold p = None -> unheld w (claim_key c) \/
     view st' (claim_key c) = view (store w) (claim_key c)) ->
  (claim_key c ∈ wins w -> exists r, view st' (claim_key c) = Some r /\
     Status r <> IdempotencyStatusFailedRetryable) ->
  inv (mkWorld st' (<[i := Finished o]> (clients w)) (wins w)).
Proof.
  intros Hinv Hi Hc Hok H1 H2 H3 H4 H5.
  eapply (move_inv w i p (Finished o) c); eauto; done.
Qed.

(** A move that leaves the store alone. *)
Lemma quiet_inv w i p p' c :
  inv w -> clients w !! i = Some p -> pc_claim p = Some c ->
  pc_ok (store w) p' -> (forall c', pc_claim p' = Some c' -> c' = c) -> hold p' = None ->
  inv (mkWorld (store w) (<[i := p']> (clients w)) (wins w)).
Proof.
  intros Hinv Hi Hc Hp' Hc' Hh.
  eapply (move_inv w i p p' c); eauto; rewrite ?Hh; try done.
  - apply Hinv.
  - by apply (inv_live w Hinv).
  - by apply (inv_won w Hinv).
Qed.

Lemma stop_quiet w i p o c :
  inv w -> clients w !! i = Some p -> pc_claim p = Some c ->
  inv (mkWorld (store w) (<[i := Finished o]> (clients w)) (wins w)).
Proof. intros. eapply quiet_inv; eauto; done. Qed.

(** Rows under an update by id. *)
Lemma update_frame st k r i cond f :
  store_ok st -> view st k = Some r -> ID r = i ->
  forall k', k' <> k -> update_if i cond f <$> view st k' = view st k'.
Proof.
  intros Hok Hr Hi k' Hne. destruct (view st k') as [r'|] eqn:E; [|done]. simpl. f_equal.
  unfold update_if. destruct (Z.eqb_spec (ID r') i) as [Ei|]; [|done].
  destruct Hne. by apply (store_id_inj st k' k r' r Hok E Hr); congruence.
Qed.

Lemma decide_ok st (c : claim) r :
  claim_live c -> view st (claim_key c) = Some r ->
  let p' := decide_existing (ExecErr:=ExecErr) unmarshal empty_object c r in
  pc_ok st p' /\ (forall c', pc_claim p' = Some c' -> c' = c) /\ hold p' = None.
Proof.
  intros Hc Hr p'. subst p'. unfold decide_existing, unavailable.
  assert (forall o, pc_ok st (Finished o)) as Hfin by (intros o; by split_and!).
  repeat case_match; (split; [try apply Hfin|split]); try done; try by intros c' [= ->].
  all: split; [by intros c' [= ->]|split; [done|by exists r]].
Qed.

Lemma failed_free w k r :
  inv w -> view (store w) k = Some r -> Status r = IdempotencyStatusFailedRetryable ->
  unheld w k /\ k ∉ wins w.
Proof.
  intros Hinv Hr Hs. split.
  - intros j q a Hq Hh. destruct (inv_pc w Hinv j q Hq) as (_ & Hp & _).
    destruct (Hp k a Hh) as (r' & Hr' & _ & Hs'). rewrite Hr in Hr'. injection Hr' as <-.
    rewrite Hs in Hs'. discriminate Hs'.
  - intros Hk. destruct (inv_won w Hinv k Hk) as (r' & Hr' & Hs'). congruence.
Qed.

Lemma absent_free w k : inv w -> view (store w) k = None -> unheld w k /\ k ∉ wins w.
Proof.
  intros Hinv Hr. split.
  - intros j q a Hq Hh. destruct (inv_pc w Hinv j q Hq) as (_ & Hp & _).
    destruct (Hp k a Hh) as (r' & Hr' & _). congruence.
  - intros Hk. destruct (inv_won w Hinv k Hk) as (r' & Hr' & _). congruence.
Qed.

(** Inserting: the client moves to [p'], which holds the new row or nothing. *)
Lemma create_inv w i c db_now p' :
  inv w -> clients w !! i = Some (AtCreate c) -> view (store w) (claim_key c) = None ->
  let '(_, r, st') := CreateProcessing db_now (claim_record c) (store w) in
  p' = AtExecute c (ID r) \/ (exists o, p' = Finished o) ->
  inv (mkWorld st' (<[i := p']> (clients w)) (wins w)).
Proof.
  intros Hinv Hi Hv. destruct (inv_pc w Hinv i _ Hi) as (Hc & _). specialize (Hc c eq_refl).
  destruct (create_fresh db_now (claim_record c) (store w) (inv_store w Hinv) Hv)
    as (id & st' & Hcr & Hok' & Hid & Hview). rewrite Hcr. intros Hp'. cbn [ID] in Hp'.
  destruct (absent_free w _ Hinv Hv) as [Hu Hn].
  pose proof (Hview (claim_key c)) as Hnew. rewrite decide_True in Hnew by done.
  assert (forall k, k <> claim_key c -> view st' k = view (store w) k) as Hother
    by (intros; rewrite Hview; by rewrite decide_False).
  eapply (move_inv w i (AtCreate c) p' c); eauto; try done.
  - intros r. rewrite Hnew. intros [= <-]. simpl. apply Hc.
  - congruence.
  - destruct Hp' as [->|[o ->]]; [|by split_and!]. split_and!; [by intros c' [= ->]| |done].
    intros k a [= <- <-]. eexists. rewrite Hnew. split; [done|]. done.
  - destruct Hp' as [->|[o ->]]; [by intros c' [= ->]|done].
Qed.

(** Reclaiming a failed row. *)
Lemma reclaim_inv w i c ex db_now :
  inv w -> clients w !! i = Some (AtReclaimFailed c ex) ->
  let '(taken, st') := TryReclaim db_now (ID ex) IdempotencyStatusFailedRetryable (c_now c)
                         (c_lockedUntil c) (c_expiresAt c) (store w) in
  forall p', (taken = true /\ p' = AtExecute c (ID ex)) \/ (exists o, p' = Finished o) ->
  inv (mkWorld st' (<[i := p']> (clients w)) (wins w)).
Proof.
  intros Hinv Hi. destruct (inv_pc w Hinv i _ Hi) as (Hc & _ & r & Hr & Hid).
  specialize (Hc c eq_refl). pose proof (inv_store w Hinv) as Hok.
  pose proof (reclaim_ok db_now (ID ex) IdempotencyStatusFailedRetryable (c_now c)
    (c_lockedUntil c) (c_expiresAt c) (store w) Hok) as Hrec.
  destruct (TryReclaim _ _ _ _ _ _ _) as [taken st']. destruct Hrec as (Hok' & Hview & Ht).
  intros p' Hp'.
  pose proof (update_frame (store w) _ _ _ (reclaimable IdempotencyStatusFailedRetryable (c_now c))
    (reclaimed db_now (c_lockedUntil c) (c_expiresAt c)) Hok Hr Hid) as Hframe.
  assert (forall k, k <> claim_key c -> view st' k = view (store w) k) as Hother
    by (intros k Hk; rewrite Hview; by apply Hframe).
  pose proof (Hview (claim_key c)) as Hnew. rewrite Hr in Hnew. simpl in Hnew.
  unfold update_if in Hnew. rewrite (proj2 (Z.eqb_eq _ _) Hid) in Hnew. cbn [andb] in Hnew.
  destruct (reclaimable _ _ r) eqn:Er.
  - assert (unheld w (claim_key c) /\ claim_key c ∉ wins w) as [Hu Hn].
    { apply (failed_free w _ r Hinv Hr). unfold reclaimable in Er.
      apply andb_true_iff in Er as [Er _]. by apply bool_decide_eq_true in Er. }
    eapply (move_inv w i _ p' c); eauto; try done.
    + intros r'. rewrite Hnew. intros [= <-]. simpl. apply Hc.
    + intros r' Hr'. rewrite Hnew. eexists. split; [done|]. simpl. congruence.
    + destruct Hp' as [[_ ->]|[o ->]]; [|by split_and!]. split_and!; [by intros c' [= ->]| |done].
      intros k a [= <- <-]. eexists. rewrite Hnew. split; [done|]. done.
    + destruct Hp' as [[_ ->]|[o ->]]; [by intros c' [= ->]|done].
  - assert (taken <> true) as Hnt.
    { intros Htt. apply Ht in Htt as (k & r' & Hr' & Hi' & Hrc).
      assert (k = claim_key c) as -> by (apply (store_id_inj (store w) k _ r' r Hok Hr' Hr); congruence).
      rewrite Hr in Hr'. injection Hr' as <-. congruence. }
    destruct Hp' as [[? _]|[o ->]]; [done|].
    assert (view st' (claim_key c) = view (store w) (claim_key c)) as Hsame by congruence.
    eapply (stop_inv w i _ o c); eauto; try done.
    + rewrite Hsame. apply (inv_live w Hinv).
    + rewrite Hsame. eauto.
    + rewrite Hsame. apply (inv_won w Hinv).
Qed.

(** Recording an outcome of an operation that ran. *)
Lemma mark_inv w i p c id st' f o :
  inv w -> clients w !! i = Some p -> pc_claim p = Some c -> hold p = Some (claim_key c, id) ->
  store_ok st' ->
  (forall k, view st' k = update_if id (fun _ => true) f <$> view (store w) k) ->
  (forall r, ID (f r) = ID r /\ ExpiresAt (f r) = c_expiresAt c /\
     (has_won p = true -> Status (f r) <> IdempotencyStatusFailedRetryable)) ->
  inv (mkWorld st' (<[i := Finished o]> (clients w)) (wins w)).
Proof.
  intros Hinv Hi Hc Hh Hok' Hview Hf. destruct (inv_pc w Hinv i _ Hi) as (Hl & Hp & _).
  specialize (Hl c Hc). destruct (Hp _ _ Hh) as (r & Hr & Hid & _).
  pose proof (inv_store w Hinv) as Hok. destruct (Hf r) as (F1 & F2 & F3).
  pose proof (update_frame (store w) _ _ _ (fun _ => true) f Hok Hr Hid) as Hframe.
  pose proof (Hview (claim_key c)) as Hnew. rewrite Hr in Hnew. simpl in Hnew.
  unfold update_if in Hnew. rewrite (proj2 (Z.eqb_eq _ _) Hid) in Hnew. cbn [andb] in Hnew.
  eapply (stop_inv w i p o c); eauto.
  - intros k Hk. rewrite Hview. by apply Hframe.
  - intros r'. rewrite Hnew. intros [= <-]. rewrite F2. apply Hl.
  - intros r'. rewrite Hr. intros [= <-]. eauto.
  - congruence.
  - intros Hw. exists (f r). split; [done|]. apply F3. by eapply (inv_after w Hinv).
Qed.

(** A call without a key ends without having touched the store. *)
Lemma direct_inv w i o :
  inv w -> inv (mkWorld (store w) (<[i := Finished o]> (clients w)) (wins w)).
Proof.
  intros Hinv.
  assert (forall j q, (<[i := Finished o]> (clients w)) !! j = Some q ->
            clients w !! j = Some q \/ q = Finished o) as Hlook.
  { intros j q [(-> & <- & _)|[? ?]]%list_lookup_insert_Some; auto. }
  split; cbn [store clients wins]; try apply Hinv.
  - intros j q Hq. destruct (Hlook j q Hq) as [?| ->]; [by apply (inv_pc w Hinv j)|by split_and!].
  - intros j1 j2 q1 q2 k a b H1 H2 Hh1 Hh2.
    destruct (Hlook _ _ H1) as [?| ->]; [|done].
    destruct (Hlook _ _ H2) as [?| ->]; [|done]. by eapply (inv_excl w Hinv).
  - intros j q k a Hq Hq' Hk. destruct (Hlook _ _ Hq) as [?| ->]; [|done].
    by eapply (inv_after w Hinv).
Qed.

(** A repository call that answers. *)
Lemma reply_inv w i p env :
  inv w -> clients w !! i = Some p ->
  inv (mkWorld (adv env p (store w)).2 (<[i := (adv env p (store w)).1]> (clients w))
         (wins w ++ win p env)).
Proof.
  intros Hinv Hi. pose proof (inv_pc w Hinv i p Hi) as (Hlive & Hhold & Hpc).
  destruct p as [|c|c|c ex|c|c ex|c id|c id rs b e|c id b d|o];
    try (unfold win; rewrite app_nil_r).
  - by apply direct_inv.
  - cbn [advance]. destruct (view (store w) (claim_key c)) as [old|] eqn:Ev.
    + rewrite (create_taken (s_db_now env) (claim_record c) old (store w) (inv_store w Hinv) Ev).
      cbn [fst snd after_create]. eapply quiet_inv; eauto; [|by intros c' [= ->]].
      by split_and!.
    + pose proof (create_inv w i c (s_db_now env)) as Hcr.
      destruct (create_fresh (s_db_now env) (claim_record c) (store w) (inv_store w Hinv) Ev)
        as (id & st' & E & _ & Hid & _). specialize (Hcr (AtExecute c id) Hinv Hi Ev).
      rewrite E in Hcr |- *. cbn [fst snd after_create]. cbn [ID] in *. unfold start_execution.
      rewrite (proj2 (Z.eqb_neq id 0)) by lia. auto.
  - cbn [advance fst snd]. unfold after_get, unavailable.
    destruct (view (store w) (claim_key c)) as [r|] eqn:Ev; [|by eapply stop_quiet].
    destruct (_ !=? _); [by eapply stop_quiet|].
    pose proof (inv_live w Hinv _ _ Ev) as He. pose proof (Hlive c eq_refl) as [Hn _].
    unfold After. rewrite (proj2 (Z.ltb_lt _ _)) by lia. cbn [negb].
    destruct (decide_ok (store w) c r (Hlive c eq_refl) Ev) as (H1 & H2 & H3).
    by eapply quiet_inv.
  - done.
  - done.
  - cbn [advance]. pose proof (reclaim_inv w i c ex (s_db_now env) Hinv Hi) as Hrec.
    destruct Hpc as (r & Hr & Hid). pose proof (store_id _ _ _ (inv_store w Hinv) Hr) as Hpos.
    destruct (TryReclaim _ _ _ _ _ _ _) as [taken st']. cbn [fst snd].
    destruct taken; cbn [after_reclaim_failed]; apply Hrec; [left|eauto].
    unfold start_execution. by rewrite (proj2 (Z.eqb_neq (ID ex) 0)) by lia.
  - cbn [advance fst snd win].
    assert (forall k a, hold (AtExecute c id) = Some (k, a) -> k ∉ wins w) as Hnw.
    { intros k a Hh Hk. by pose proof (inv_after w Hinv i _ k a Hi Hh Hk). }
    specialize (Hnw _ _ eq_refl). destruct (Hhold _ _ eq_refl) as (r & Hr & Hid & Hst).
    assert (Status r <> IdempotencyStatusFailedRetryable) as Hnf by by rewrite Hst.
    unfold after_execute, unavailable. destruct (s_result env) as [data|e].
    + destruct (marshalStoredResponse _ _ _ data) as [body|].
      * eapply (move_inv w i _ _ c); eauto; try done.
        -- apply Hinv.
        -- apply (inv_live w Hinv).
        -- by intros c' [= ->].
      * eapply (move_inv w i _ _ c); eauto; try done; [apply Hinv|apply (inv_live w Hinv)].
    + rewrite app_nil_r. eapply (move_inv w i _ _ c); eauto; try done.
      * apply Hinv.
      * apply (inv_live w Hinv).
      * by intros c' [= ->].
  - cbn [advance fst snd]. destruct (failed_ok (s_db_now env) id rs b (c_expiresAt c) (store w)
      (inv_store w Hinv)) as [Hok' Hview].
    eapply (mark_inv w i _ c id _ (failed_retryable (s_db_now env) rs b (c_expiresAt c))); done.
  - cbn [advance fst snd after_mark_succeeded].
    destruct (succeeded_ok (s_db_now env) id 200 b (c_expiresAt c) (store w)
      (inv_store w Hinv)) as [Hok' Hview].
    eapply (mark_inv w i _ c id _ (succeeded (s_db_now env) 200 b (c_expiresAt c))); done.
  - cbn [advance fst snd]. rewrite list_insert_id by done. by destruct w.
Qed.

(** A repository call that reports an error, before or after its effect. *)
Lemma error_applied_inv w i p p' env :
  inv w -> clients w !! i = Some p -> err p = Some p' ->
  inv (mkWorld (adv env p (store w)).2 (<[i := p']> (clients w)) (wins w)).
Proof.
  intros Hinv Hi He. pose proof (inv_pc w Hinv i p Hi) as (Hlive & Hhold & Hpc).
  destruct p as [|c|c|c ex|c|c ex|c id|c id rs b e|c id b d|o]; try done; injection He as <-.
  - cbn [advance after_create]. unfold unavailable.
    destruct (view (store w) (claim_key c)) as [old|] eqn:Ev.
    + rewrite (create_taken (s_db_now env) (claim_record c) old (store w) (inv_store w Hinv) Ev).
      by eapply stop_quiet.
    + pose proof (create_inv w i c (s_db_now env)) as Hcr.
      destruct (CreateProcessing _ _ _) as [[owner r] st']. apply Hcr; eauto.
  - by eapply stop_quiet.
  - cbn [advance after_reclaim_failed]. unfold unavailable.
    pose proof (reclaim_inv w i c ex (s_db_now env) Hinv Hi) as Hrec.
    destruct (TryReclaim _ _ _ _ _ _ _) as [taken st']. apply Hrec. eauto.
  - cbn [advance fst snd]. unfold after_mark_failed.
    destruct (failed_ok (s_db_now env) id rs b (c_expiresAt c) (store w)
      (inv_store w Hinv)) as [Hok' Hview].
    eapply (mark_inv w i _ c id _ (failed_retryable (s_db_now env) rs b (c_expiresAt c))); done.
  - cbn [advance fst snd after_mark_succeeded]. unfold unavailable.
    destruct (succeeded_ok (s_db_now env) id 200 b (c_expiresAt c) (store w)
      (inv_store w Hinv)) as [Hok' Hview].
    eapply (mark_inv w i _ c id _ (succeeded (s_db_now env) 200 b (c_expiresAt c))); done.
Qed.

Lemma error_inv w i p p' :
  inv w -> clients w !! i = Some p -> err p = Some p' ->
  inv (mkWorld (store w) (<[i := p']> (clients w)) (wins w)).
Proof.
  intros Hinv Hi He.
  destruct p as [|c|c|c ex|c|c ex|c id|c id rs b e|c id b d|o]; try done; injection He as <-;
    by eapply stop_quiet.
Qed.

Lemma begin_ok execute repo (opts : IdempotencyExecuteOptions Payload) now st :
  t0 <= now < t1 -> t1 <= now + effective_ttl cfg opts ->
  let p := begin_execute (ExecErr:=ExecErr) (Data:=Data) sha256_hex marshal_payload cfg execute repo
             opts now in
  pc_ok st p /\ hold p = None.
Proof.
  intros Hn Ht p. subst p. unfold begin_execute, unavailable.
  repeat case_match; (split; [|done]); split_and!; try done.
  intros c [= <-]. split; [apply Hn|exact Ht].
Qed.

Lemma spawn_inv w p :
  inv w -> pc_ok (store w) p -> hold p = None ->
  inv (mkWorld (store w) (clients w ++ [p]) (wins w)).
Proof.
  intros Hinv Hp Hh.
  assert (forall j q, (clients w ++ [p]) !! j = Some q -> clients w !! j = Some q \/ q = p) as Hlook.
  { intros j q [Hq|(_ & Hq)]%lookup_app_Some; [by left|right].
    apply list_lookup_singleton_Some in Hq as [_ ->]. done. }
  split; cbn [store clients wins]; try apply Hinv.
  - intros j q Hq. destruct (Hlook j q Hq) as [?| ->]; [by apply (inv_pc w Hinv j)|done].
  - intros j1 j2 q1 q2 k a b H1 H2 Hh1 Hh2.
    destruct (Hlook _ _ H1) as [?| ->]; [|congruence].
    destruct (Hlook _ _ H2) as [?| ->]; [|congruence]. by eapply (inv_excl w Hinv).
  - intros j q k a Hq Hq' Hk. destruct (Hlook _ _ Hq) as [?| ->]; [|congruence].
    by eapply (inv_after w Hinv).
Qed.

Lemma cleanup_inv w now limit :
  inv w -> now < t1 -> inv (mkWorld (DeleteExpired now limit (store w)).2 (clients w) (wins w)).
Proof.
  intros Hinv Hn. pose proof (delete_ok now limit (store w) (inv_store w Hinv)) as Hd.
  destruct (DeleteExpired now limit (store w)) as [n st']. destruct Hd as (Hok & _ & Hd).
  assert (forall k, view st' k = view (store w) k) as Hsame.
  { intros k. destruct (Hd k) as [|(_ & r & Hr & He)]; [done|].
    pose proof (inv_live w Hinv k r Hr). lia. }
  split; cbn [store clients wins snd]; try apply Hinv; try done.
  - intros k r. rewrite Hsame. apply (inv_live w Hinv).
  - intros j q Hq. destruct (inv_pc w Hinv j q Hq) as (H1 & H2 & H3). split_and!; [done| |].
    + intros k a Ha. unfold processing. rewrite Hsame. by apply H2.
    + destruct q; try done. by rewrite Hsame.
  - intros k. rewrite Hsame. apply (inv_won w Hinv).
Qed.

Lemma step_inv w w' : inv w -> step w w' -> inv w'.
Proof.
  intros Hinv Hs. destruct Hs.
  - destruct (begin_ok execute repo opts now (store w)) as [Hp Hh]; [done..|]. by apply spawn_inv.
  - by apply reply_inv.
  - by eapply error_inv.
  - by eapply error_applied_inv.
  - by apply cleanup_inv.
Qed.

(** Before the window: no client, and no record that expires in it. *)
Definition quiet_start (w : world) : Prop :=
  clients w = [] /\ wins w = [] /\ store_ok (store w) /\
  forall k r, view (store w) k = Some r -> t1 <= ExpiresAt r.

Lemma quiet_start_inv w : quiet_start w -> inv w.
Proof.
  intros (Hc & Hw & Hok & Hl).
  split; rewrite ?Hc, ?Hw; try done; try (intros; by rewrite lookup_nil in * ).
  - constructor.
  - intros k Hk. by apply not_elem_of_nil in Hk.
Qed.

Lemma reachable_inv w0 w : quiet_start w0 -> rtc step w0 w -> inv w.
Proof.
  intros Hq Hr. apply quiet_start_inv in Hq. induction Hr; [done|].
  apply IHHr. by eapply step_inv.
Qed.

(** The clients that are running the operation for a key, or have run it and
    not recorded it yet. *)
Definition holding (w : world) (k : key) : list PC :=
  filter (fun p => fst <$> hold p = Some k) (clients w).

Lemma holding_elem w k p : p ∈ holding w k <-> p ∈ clients w /\ exists i, hold p = Some (k, i).
Proof.
  unfold holding. rewrite list_elem_of_filter. destruct (hold p) as [[k' i]|]; simpl; split.
  - intros [[= ->] Hp]. eauto.
  - intros [Hp [i' [= -> ->]]]. done.
  - by intros [? _].
  - by intros [_ [? ?]].
Qed.

Lemma holding_le w k : inv w -> (length (holding w k) <= 1)%nat.
Proof.
  intros Hinv. unfold holding. pose proof (inv_excl w Hinv) as Hex. clear Hinv.
  induction (clients w) as [|p l IH]; [simpl; lia|]. rewrite filter_cons.
  assert (length (filter (fun p => fst <$> hold p = Some k) l) <= 1)%nat as Hl.
  { apply IH. intros i j q1 q2 k0 a b H1 H2 Hh1 Hh2.
    assert (S i = S j) by (by eapply (Hex (S i) (S j))). lia. }
  destruct (decide _) as [Hp|]; [|done].
  destruct (filter _ l) as [|q l'] eqn:Ef; [simpl; lia|]. exfalso.
  assert (q ∈ l /\ fst <$> hold q = Some k) as [Hq Hhq].
  { assert (q ∈ filter (fun p => fst <$> hold p = Some k) l) as Hq
      by (rewrite Ef; apply list_elem_of_here). apply list_elem_of_filter in Hq. tauto. }
  apply list_elem_of_lookup_1 in Hq as (j & Hj).
  destruct (hold p) as [[k1 a]|] eqn:E1; [|done]. destruct (hold q) as [[k2 b]|] eqn:E2; [|done].
  simpl in Hp, Hhq. injection Hp as ->. injection Hhq as ->.
  by assert (0 = S j)%nat by by eapply (Hex 0%nat (S j)).
Qed.

(** C3: in any interleaving of calls, failed statements, crashes and cleanups
    inside the window, the guarded operation of a key runs for at most one
    client at a time, it succeeds at most once, and once it has succeeded no
    client is running it again. *)
Theorem at_most_one_success w0 w k :
  quiet_start w0 -> rtc step w0 w ->
  NoDup (wins w) /\ (length (holding w k) <= 1)%nat /\
  (k ∈ wins w -> forall p, p ∈ holding w k -> has_won p = true).
Proof.
  intros Hq Hr. pose proof (reachable_inv w0 w Hq Hr) as Hinv.
  split_and!; [apply (inv_nodup w Hinv)|by apply holding_le|].
  intros Hk p [Hp [i Hh]]%holding_elem. apply list_elem_of_lookup_1 in Hp as (j & Hj).
  by eapply (inv_after w Hinv).
Qed.

(** An update by the id of another key's row leaves this one. *)
Lemma update_other st k k' r r' i cond f :
  store_ok st -> view st k = Some r -> view st k' = Some r' -> ID r' = i -> k <> k' ->
  update_if i cond f <$> view st k = Some r.
Proof. intros Hok Hr Hr' Hi Hne. by rewrite (update_frame st k' r' i cond f Hok Hr' Hi k Hne). Qed.

Lemma success_step w p env i k r :
  inv w -> clients w !! i = Some p -> view (store w) k = Some r ->
  Status r = IdempotencyStatusSucceeded -> view (adv env p (store w)).2 k = Some r.
Proof.
  intros Hinv Hi Hr Hs. pose proof (inv_pc w Hinv i p Hi) as (_ & Hhold & Hpc).
  pose proof (inv_store w Hinv) as Hok.
  assert (forall k' id, hold p = Some (k', id) -> k <> k' /\ exists r', view (store w) k' = Some r' /\
            ID r' = id) as Hother.
  { intros k' id Hh. destruct (Hhold k' id Hh) as (r' & Hr' & Hid & Hst). split; [|eauto].
    intros ->. rewrite Hr in Hr'. injection Hr' as <-. rewrite Hs in Hst. discriminate Hst. }
  destruct p as [|c|c|c ex|c|c ex|c id|c id rs b e|c id b d|o]; try done; cbn [advance].
  - destruct (view (store w) (claim_key c)) as [old|] eqn:Ev.
    + by rewrite (create_taken (s_db_now env) (claim_record c) old (store w) Hok Ev).
    + destruct (create_fresh (s_db_now env) (claim_record c) (store w) Hok Ev)
        as (id & st' & E & _ & _ & Hview). rewrite E. cbn [snd]. rewrite Hview.
      rewrite decide_False; [done|]. intros ->.
      change (view (store w) (claim_key c) = Some r) in Hr. congruence.
  - pose proof (reclaim_ok (s_db_now env) (ID ex) IdempotencyStatusFailedRetryable (c_now c)
      (c_lockedUntil c) (c_expiresAt c) (store w) Hok) as Hrec.
    destruct (TryReclaim _ _ _ _ _ _ _) as [taken st']. destruct Hrec as (_ & Hview & _).
    cbn [snd]. rewrite Hview, Hr. simpl. f_equal. unfold update_if, reclaimable. rewrite Hs.
    by rewrite bool_decide_false, andb_false_r.
  - destruct (failed_ok (s_db_now env) id rs b (c_expiresAt c) (store w) Hok) as [_ Hview].
    destruct (Hother _ _ eq_refl) as (Hne & r' & Hr' & Hid). cbn [snd]. rewrite Hview.
    by eapply update_other.
  - destruct (succeeded_ok (s_db_now env) id 200 b (c_expiresAt c) (store w) Hok) as [_ Hview].
    destruct (Hother _ _ eq_refl) as (Hne & r' & Hr' & Hid). cbn [snd]. rewrite Hview.
    by eapply update_other.
Qed.

(** Once a success is stored, every later call in the window finds exactly
    that record, whatever the other clients, the failing statements and the
    cleanup do. *)
Theorem stored_success_stable w0 w w' k r :
  quiet_start w0 -> rtc step w0 w -> rtc step w w' ->
  view (store w) k = Some r -> Status r = IdempotencyStatusSucceeded ->
  view (store w') k = Some r.
Proof.
  intros Hq Hr Hr' Hv Hs. pose proof (reachable_inv w0 w Hq Hr) as Hinv. clear Hq Hr.
  induction Hr' as [w|w w1 w' Hstep _ IH]; [done|].
  apply IH; [|by eapply step_inv].
  destruct Hstep as [w| w i p env Hi | |w i p p' env Hi|w now limit Hn]; try done.
  - by eapply success_step.
  - by eapply success_step.
  - pose proof (delete_ok now limit (store w) (inv_store w Hinv)) as Hd. cbn [store].
    destruct (DeleteExpired now limit (store w)) as [n st']. destruct Hd as (_ & _ & Hd).
    cbn [snd]. destruct (Hd k) as [->|(_ & r' & Hr' & He)]; [done|].
    pose proof (inv_live w Hinv k r' Hr'). lia.
Qed.
End Interleaving.

(** ** A concrete interleaving

    Two calls for the same key race; the first to insert runs the operation,
    the second is told it is in progress. *)

Definition cx_cfg : IdempotencyConfig :=
  mkConfig (24 * hour) hour (30 * second) (5 * second) 100 false.

Definition cx_opts : IdempotencyExecuteOptions string :=
  mkOptions "pay" "user:1" "POST" "/pay" "k1" "p" 0 true.

Definition cx_env : surroundings string string := mkSurroundings 0 second (Ok "done").

Notation cx_step := (step (fun s => s) Some Some Some "{}" (fun s => s) (fun e : string => e)
                       cx_cfg 0 (12 * hour)).

Definition cx_start : world (Data:=string) (ExecErr:=string) := mkWorld empty_table [] [].

Definition cx_call (w : world) : world (Data:=string) (ExecErr:=string) (St:=table) :=
  mkWorld (store w)
    (clients w ++ [begin_execute (fun s => s) Some cx_cfg true true cx_opts 0]) (wins w).

Definition cx_reply (i : nat) (w : world) : world (Data:=string) (ExecErr:=string) (St:=table) :=
  match clients w !! i with
  | Some p =>
      let '(p', st') := advance Some Some "{}" (fun s => s) (fun e : string => e) cx_cfg cx_env p (store w) in
      mkWorld st' (<[i := p']> (clients w)) (wins w ++ win p cx_env)
  | None => w
  end.

Lemma cx_call_step w : cx_step w (cx_call w).
Proof. unfold cx_call. by constructor. Qed.

Lemma cx_reply_step i w : is_Some (clients w !! i) -> cx_step w (cx_reply i w).
Proof.
  intros [p Hp]. unfold cx_reply. rewrite Hp.
  pose proof (step_reply (fun s => s) Some Some Some "{}" (fun s => s) (fun e : string => e)
    cx_cfg 0 (12 * hour) w i p cx_env Hp) as Hs.
  by destruct (advance _ _ _ _ _ _ _ _ _) as [p' st'].
Qed.

Lemma cx_quiet : quiet_start (12 * hour) cx_start.
Proof. split_and!; [done|done|apply empty_table_ok|]. intros k r Hk. by vm_compute in Hk. Qed.

Definition cx_race : world := cx_reply 0 (cx_reply 0 (cx_reply 1 (cx_reply 1 (cx_reply 0 (cx_call (cx_call cx_start)))))).

Lemma cx_race_reachable : rtc cx_step cx_start cx_race.
Proof.
  unfold cx_race.
  repeat (eapply rtc_r; [|first [apply cx_reply_step; vm_compute; eauto|apply cx_call_step]]).
  reflexivity.
Qed.

Lemma at_most_one_success_witness :
  wins cx_race = [("pay", "k1")] /\ NoDup (wins cx_race).
Proof.
  split; [by vm_compute|].
  apply (at_most_one_success (fun s => s) Some Some Some "{}" (fun s => s) (fun e : string => e)
    cx_cfg 0 (12 * hour) cx_start cx_race ("pay", "k1") cx_quiet cx_race_reachable).
Defined.

Lemma stored_success_stable_witness :
  exists r, GetByScopeAndKeyHash ("pay", "k1") (store (cx_call cx_race)) = Some r /\
    ResponseBody r = Some "done".
Proof.
  set (r := default sample_record (GetByScopeAndKeyHash ("pay", "k1") (store cx_race))).
  exists r. split; [|by vm_compute].
  apply (stored_success_stable (fun s => s) Some Some Some "{}" (fun s => s) (fun e : string => e)
    cx_cfg 0 (12 * hour) cx_start cx_race _ _ _ cx_quiet cx_race_reachable);
    [apply rtc_once, cx_call_step|by vm_compute|by vm_compute].
Defined.
