(* ===== verification/PaymentHelpers.v ===== *)
(** * Payment helpers: internal/payment and the pure functions of
    internal/service/payment_*.go

    Currencies and their units, payment types, order references, subscription
    notes, limits and windows.  The arithmetic done with the decimal library
    is not modelled here. *)

From S2P Require Import Prelude Float64 GoTime.
Local Open Scope Z_scope.

(** ** Currencies (internal/payment/currency.go) *)

Definition DefaultPaymentCurrency := "CNY".

Record paymentCurrencyAmountUnit := mkUnit {
  apiMinorUnit : Z;
  maxFractionDigits : Z;
}.

Definition zeroDecimalAmountUnit := mkUnit 0 0.
Definition twoDecimalAmountUnit := mkUnit 2 2.
Definition threeDecimalAmountUnit := mkUnit 3 3.
Definition stripeLegacyZeroAmount := mkUnit 2 0.

Definition paymentCurrencyAmountUnits : gmap string paymentCurrencyAmountUnit := list_to_map
  [("BIF", zeroDecimalAmountUnit); ("CLP", zeroDecimalAmountUnit);
   ("DJF", zeroDecimalAmountUnit); ("GNF", zeroDecimalAmountUnit);
   ("JPY", zeroDecimalAmountUnit); ("KMF", zeroDecimalAmountUnit);
   ("KRW", zeroDecimalAmountUnit); ("MGA", zeroDecimalAmountUnit);
   ("PYG", zeroDecimalAmountUnit); ("RWF", zeroDecimalAmountUnit);
   ("VND", zeroDecimalAmountUnit); ("VUV", zeroDecimalAmountUnit);
   ("XAF", zeroDecimalAmountUnit); ("XOF", zeroDecimalAmountUnit);
   ("XPF", zeroDecimalAmountUnit); ("ISK", stripeLegacyZeroAmount);
   ("UGX", stripeLegacyZeroAmount); ("BHD", threeDecimalAmountUnit);
   ("IQD", threeDecimalAmountUnit); ("JOD", threeDecimalAmountUnit);
   ("KWD", threeDecimalAmountUnit); ("LYD", threeDecimalAmountUnit);
   ("OMR", threeDecimalAmountUnit); ("TND", threeDecimalAmountUnit)].

Definition is_upper (c : ascii) : bool :=
  let n := Strings.Ascii.nat_of_ascii c in (65 <=? n)%nat && (n <=? 90)%nat.
Definition is_lower (c : ascii) : bool :=
  let n := Strings.Ascii.nat_of_ascii c in (97 <=? n)%nat && (n <=? 122)%nat.
Definition is_digit (c : ascii) : bool :=
  let n := Strings.Ascii.nat_of_ascii c in (48 <=? n)%nat && (n <=? 57)%nat.

(** Every byte of the text satisfies the test; the tests accept ASCII only, so
    this is the loop over runes. *)
Fixpoint all_bytes (f : ascii -> bool) (s : string) : bool :=
  match s with EmptyString => true | String c t => f c && all_bytes f t end.

Inductive CurrencyError := ErrNotISOCode.

Definition NormalizePaymentCurrency (raw : string) : result CurrencyError string :=
  let currency := ToUpper (TrimSpace raw) in
  if currency ==? "" then Ok DefaultPaymentCurrency
  else if negb (Strings.String.length currency =? 3)%nat then Err ErrNotISOCode
  else if negb (all_bytes is_upper currency) then Err ErrNotISOCode
  else Ok currency.

Definition paymentCurrencyAmountUnitFor (currency : string) : paymentCurrencyAmountUnit :=
  match NormalizePaymentCurrency currency with
  | Err _ => twoDecimalAmountUnit
  | Ok normalized => default twoDecimalAmountUnit (paymentCurrencyAmountUnits !! normalized)
  end.

Definition CurrencyMinorUnit (currency : string) : Z :=
  apiMinorUnit (paymentCurrencyAmountUnitFor currency).
Definition CurrencyMaxFractionDigits (currency : string) : Z :=
  maxFractionDigits (paymentCurrencyAmountUnitFor currency).

Definition amountToleranceCNY : f64 := f64_of_ratio false 1 100.

(** [math.Pow10(-n)] for [0 <= n]: the nearest float. *)
Definition Pow10_neg (n : Z) : f64 := f64_of_ratio false 1 (Z.to_pos (10 ^ n)).

Definition paymentAmountToleranceForCurrency (currency : string) : f64 :=
  let minorUnit := CurrencyMinorUnit currency in
  if minorUnit <=? 2 then amountToleranceCNY
  else fdiv (Pow10_neg minorUnit) (f64_of_Z 2).

Definition isValidProviderAmount (amount : f64) : bool :=
  fltb f0 amount && negb (f_is_nan amount) && negb (f_is_inf amount).

Definition normalizeBalanceRechargeMultiplier (multiplier : f64) : f64 :=
  if f_is_nan multiplier || f_is_inf multiplier || fleb multiplier f0 then f1 else multiplier.

Definition normalizeSubscriptionUSDToCNYRate (rate : f64) : f64 :=
  if f_is_nan rate || f_is_inf rate || fltb rate f0 then f0 else rate.

(** ** Payment types and order statuses (internal/payment/types.go) *)

Definition TypeAlipay := "alipay".
Definition TypeWxpay := "wxpay".
Definition TypeStripe := "stripe".
Definition TypeCard := "card".
Definition TypeLink := "link".
Definition TypeEasyPay := "easypay".
Definition TypeAirwallex := "airwallex".

Definition GetBasePaymentType (t : string) : string :=
  if t ==? TypeEasyPay then TypeEasyPay
  else if t ==? TypeAirwallex then TypeAirwallex
  else if (t ==? TypeStripe) || (t ==? TypeCard) || (t ==? TypeLink) then TypeStripe
  else if HasPrefix t TypeAlipay then TypeAlipay
  else if HasPrefix t TypeWxpay then TypeWxpay
  else t.

Definition OrderStatusPending := "PENDING".
Definition OrderStatusPaid := "PAID".
Definition OrderStatusRecharging := "RECHARGING".
Definition OrderStatusCompleted := "COMPLETED".
Definition OrderStatusExpired := "EXPIRED".
Definition OrderStatusCancelled := "CANCELLED".
Definition OrderStatusFailed := "FAILED".
Definition OrderStatusRefundRequested := "REFUND_REQUESTED".
Definition OrderStatusRefunding := "REFUNDING".
Definition OrderStatusRefundPending := "REFUND_PENDING".
Definition OrderStatusPartiallyRefunded := "PARTIALLY_REFUNDED".
Definition OrderStatusRefunded := "REFUNDED".
Definition OrderStatusRefundFailed := "REFUND_FAILED".
Definition OrderTypeBalance := "balance".
Definition OrderTypeSubscription := "subscription".

Definition psIsRefundStatus (s : string) : bool :=
  (s ==? OrderStatusRefundRequested) || (s ==? OrderStatusRefunding) ||
  (s ==? OrderStatusRefundPending) || (s ==? OrderStatusPartiallyRefunded) ||
  (s ==? OrderStatusRefunded) || (s ==? OrderStatusRefundFailed).

Definition psSliceContains (sl : list string) (s : string) : bool := existsb (fun v => v ==? s) sl.

(** Machine multiplication. *)
Definition mul64 (x y : Z) : Z := wrap64 (x * y).

Definition psComputeValidityDays (days : Z) (unit : string) : Z :=
  if (unit ==? "week") || (unit ==? "weeks") then mul64 days 7
  else if (unit ==? "month") || (unit ==? "months") then mul64 days 30
  else days.

Definition psStartOfDayUTC (t : time) : time :=
  let '(y, m, d) := DateOf UTC t in Date UTC y m d 0 0 0.

Definition defaultPageSize : Z := 20.
Definition maxPageSize : Z := 100.

Definition applyPagination (pageSize page : Z) : Z * Z :=
  let size := if pageSize <=? 0 then defaultPageSize else pageSize in
  let size := if maxPageSize <? size then maxPageSize else size in
  (size, if page <? 1 then 1 else page).

(** ** Order references *)

Definition orderIDPrefix := "sub2_".

(** [notFound] says the lookup error is ent's "not found". *)
Definition parseLegacyPaymentOrderID (orderID : string) (notFound : bool) : option Z :=
  if negb notFound then None
  else match strip_prefix orderIDPrefix (TrimSpace orderID) with
       | None => None
       | Some trimmed =>
           if trimmed ==? "" then None
           else match ParseInt trimmed with
                | Some oid => if oid <=? 0 then None else Some oid
                | None => None
                end
       end.

Inductive TradeNoError := ErrTradeNoRequired | ErrTradeNoInvalid.

Definition trade_no_byte (c : ascii) : bool :=
  is_lower c || is_upper c || is_digit c || bool_decide (c = "_"%char) || bool_decide (c = "-"%char).

Definition normalizeOrderLookupOutTradeNo (raw : string) : result TradeNoError string :=
  let outTradeNo := TrimSpace raw in
  if outTradeNo ==? "" then Err ErrTradeNoRequired
  else if (64 <? Strings.String.length outTradeNo)%nat then Err ErrTradeNoInvalid
  else if negb (all_bytes trade_no_byte outTradeNo) then Err ErrTradeNoInvalid
  else Ok outTradeNo.

(** [registryKey] is the registry's provider key for the order's payment type,
    [None] without a registry. *)
Definition expectedNotificationProviderKey (registryKey : option string)
    (orderPaymentType orderProviderKey instanceProviderKey : string) : string :=
  if TrimSpace instanceProviderKey !=? "" then TrimSpace instanceProviderKey
  else if TrimSpace orderProviderKey !=? "" then TrimSpace orderProviderKey
  else match registryKey with
       | Some key => if TrimSpace key !=? "" then TrimSpace key else TrimSpace orderPaymentType
       | None => TrimSpace orderPaymentType
       end.

(** ** Subscription notes *)

Definition paymentSubscriptionOrderNote (orderID : Z) : string :=
  "payment order " +:+ FormatInt orderID.

Definition newline_char : ascii := "010".
Definition return_char : ascii := "013".

(** [strings.ReplaceAll(s, "\r\n", "\n")]: a carriage return right before a
    line feed goes. *)
Fixpoint drop_cr (s : string) : string :=
  match s with
  | EmptyString => EmptyString
  | String c t =>
      if (c ==? return_char) && HasPrefix t (String newline_char "") then drop_cr t
      else String c (drop_cr t)
  end.

(** [strings.Split(s, "\n")]: the current line and the lines after it. *)
Fixpoint split_lines (s : string) : string * list string :=
  match s with
  | EmptyString => ("", [])
  | String c t =>
      let '(l, ls) := split_lines t in
      if c ==? newline_char then ("", l :: ls) else (String c l, ls)
  end.

Definition lines (s : string) : list string := let '(l, ls) := split_lines s in l :: ls.

Definition hasPaymentSubscriptionOrderNote (notes orderNote : string) : bool :=
  existsb (fun line => TrimSpace line ==? orderNote) (lines (drop_cr notes)).

(** ** Cancellation window (payment_order_lifecycle.go) *)

Definition Truncate (t : time) (d : duration) : time := t - (t - zero_time) mod d.

Definition cancelRateLimitWindowStart (loc : Location) (now : time)
    (mode unit : string) (window : Z) : time :=
  let w := if window <=? 0 then 1 else window in
  let unit := if unit ==? "" then "day" else unit in
  if mode ==? "fixed" then
    if unit ==? "minute" then Truncate now minute - (w - 1) * minute
    else if unit ==? "day" then
      let '(y, m, d) := DateOf loc now in AddDays loc (Date loc y m d 0 0 0) (- (w - 1))
    else Truncate now hour - (w - 1) * hour
  else
    if unit ==? "minute" then now - w * minute
    else if unit ==? "day" then AddDate_days loc now (- w)
    else now - w * hour.

(** ** Theorems *)

Lemma upper_stable_byte c : is_upper c = true -> byte_upper c = c.
Proof.
  unfold is_upper, byte_upper. rewrite andb_true_iff, !Nat.leb_le. intros [H1 H2].
  by rewrite (proj2 (Nat.leb_gt 97 _)) by lia.
Qed.

Lemma all_upper_stable s : all_bytes is_upper s = true -> ToUpper s = s.
Proof.
  induction s as [|c s IH]; [done|]. cbn [all_bytes]. rewrite andb_true_iff. intros [Hc Hs].
  destruct (decide (c = "197"%char)) as [->|H1]; [done|].
  destruct (decide (c = "196"%char)) as [->|H2]; [done|].
  transitivity (String (byte_upper c) (ToUpper s)).
  - destruct c as [[] [] [] [] [] [] [] []]; done.
  - by rewrite upper_stable_byte, IH.
Qed.

Lemma all_bytes_spec f s : all_bytes f s = true <-> Forall (fun c => f c = true) (list_ascii_of_string s).
Proof.
  induction s as [|c s IH]; [by split|]. cbn [all_bytes Strings.String.list_ascii_of_string].
  by rewrite andb_true_iff, IH, Forall_cons.
Qed.

Lemma all_bytes_impl (f g : ascii -> bool) s :
  (forall c, f c = true -> g c = true) -> all_bytes f s = true -> all_bytes g s = true.
Proof. intros H. rewrite !all_bytes_spec. intros Hs. eapply Forall_impl; [exact Hs|exact H]. Qed.

Lemma TrimSpace_all f s :
  (forall c, f c = true -> visible c = true) -> all_bytes f s = true -> TrimSpace s = s.
Proof.
  intros H Hs. apply TrimSpace_visible. rewrite all_bytes_spec in Hs.
  eapply Forall_impl; [exact Hs|exact H].
Qed.

Lemma upper_visible c : is_upper c = true -> visible c = true.
Proof. unfold is_upper, visible. rewrite !andb_true_iff, !Nat.leb_le. lia. Qed.

(** A normalised currency is three capital letters, normalising it again
    changes nothing, an empty text is the default, and a text is refused only
    when, trimmed and capitalised, it is not three capital letters. *)
Theorem currency_normalized raw :
  match NormalizePaymentCurrency raw with
  | Ok c => Strings.String.length c = 3%nat /\ all_bytes is_upper c = true /\
            NormalizePaymentCurrency c = Ok c /\
            c = (if ToUpper (TrimSpace raw) ==? "" then DefaultPaymentCurrency
                 else ToUpper (TrimSpace raw))
  | Err _ => ToUpper (TrimSpace raw) <> "" /\
             (Strings.String.length (ToUpper (TrimSpace raw)) <> 3%nat \/
              all_bytes is_upper (ToUpper (TrimSpace raw)) = false)
  end.
Proof.
  unfold NormalizePaymentCurrency at 1. cbv zeta.
  set (c := ToUpper (TrimSpace raw)). case_bool_decide as E; [by vm_compute|].
  destruct (Nat.eqb_spec (Strings.String.length c) 3) as [El|El]; cbn [negb]; [|auto].
  destruct (all_bytes is_upper c) eqn:Eu; cbn [negb]; [|auto].
  split_and!; [done|done| |done].
  unfold NormalizePaymentCurrency.
  rewrite (TrimSpace_all is_upper) by (done || apply upper_visible).
  rewrite all_upper_stable by done. cbv zeta.
  rewrite bool_decide_false by done. by rewrite El, Eu.
Qed.

Lemma unit_cases currency :
  paymentCurrencyAmountUnitFor currency ∈
    [zeroDecimalAmountUnit; twoDecimalAmountUnit; threeDecimalAmountUnit; stripeLegacyZeroAmount].
Proof.
  unfold paymentCurrencyAmountUnitFor.
  destruct (NormalizePaymentCurrency currency) as [c|]; [|rewrite !elem_of_cons; tauto].
  destruct (paymentCurrencyAmountUnits !! c) as [u|] eqn:E; simpl; [|rewrite !elem_of_cons; tauto].
  unfold paymentCurrencyAmountUnits in E. apply elem_of_list_to_map_2 in E.
  rewrite !elem_of_cons, elem_of_nil in E. rewrite !elem_of_cons.
  repeat (destruct E as [[= _ ->]|E]; [tauto|]). done.
Qed.

(** For any currency text the digits shown never exceed those of the
    provider's minor unit, which is at most three, and the amount tolerance is
    a positive float: one cent, or half a minor unit where it is finer. *)
Theorem currency_units_consistent currency :
  0 <= CurrencyMaxFractionDigits currency <= CurrencyMinorUnit currency /\
  CurrencyMinorUnit currency <= 3 /\
  fltb f0 (paymentAmountToleranceForCurrency currency) = true /\
  paymentAmountToleranceForCurrency currency =
    (if CurrencyMinorUnit currency =? 3 then f64_of_ratio false 5 10000 else f64_of_ratio false 1 100).
Proof.
  pose proof (unit_cases currency) as H.
  unfold paymentAmountToleranceForCurrency, CurrencyMinorUnit, CurrencyMaxFractionDigits.
  rewrite !elem_of_cons, elem_of_nil in H.
  destruct H as [-> | [-> | [-> | [-> | []]]]]; vm_compute; repeat split; congruence.
Qed.

(** ** Order references *)

Lemma pretty_N_char_digit d : (d < 10)%N -> is_digit (pretty_N_char d) = true.
Proof.
  intros H. destruct d as [|p]; [done|]. do 4 (destruct p as [p|p|]; try done; try lia).
Qed.

Lemma pretty_N_digits n s :
  all_bytes is_digit s = true -> all_bytes is_digit (pretty_N_go n s) = true.
Proof.
  revert s. induction (N.lt_wf_0 n) as [n _ IH]. intros s Hs.
  destruct (decide (n = 0)%N) as [->|Hn]; [by rewrite pretty_N_go_0|].
  rewrite pretty_N_go_step by lia. apply IH; [apply N.div_lt; lia|].
  cbn [all_bytes]. rewrite pretty_N_char_digit by (by apply N.mod_lt). done.
Qed.

Lemma FormatInt_digits z : 0 <= z -> all_bytes is_digit (FormatInt z) = true.
Proof. intros H. destruct z as [|p|p]; [done| |lia]. by apply (pretty_N_digits (N.pos p) ""). Qed.

Lemma digit_visible c : is_digit c = true -> visible c = true.
Proof. unfold is_digit, visible. rewrite !andb_true_iff, !Nat.leb_le. lia. Qed.

Lemma FormatInt_nonempty z : 0 < z <= int64_max -> FormatInt z <> "".
Proof.
  intros Hz E. pose proof (ParseInt_FormatInt z) as H. rewrite E in H.
  unfold int64_min, int64_max in *. specialize (H ltac:(lia)). done.
Qed.

Lemma all_bytes_app f s t : all_bytes f (s +:+ t) = all_bytes f s && all_bytes f t.
Proof.
  unfold String.app. induction s as [|c s IH]; [done|]. cbn [all_bytes Strings.String.append].
  by rewrite IH, andb_assoc.
Qed.

Lemma strip_prefix_app p s : strip_prefix p (p +:+ s) = Some s.
Proof. by apply strip_prefix_Some. Qed.

(** The legacy order reference: an id accepted is a positive 64-bit number
    and only after a "not found" lookup, and the reference written for an order
    reads back as that order. *)
Theorem legacy_order_reference orderID notFound :
  (forall oid, parseLegacyPaymentOrderID orderID notFound = Some oid ->
     notFound = true /\ 0 < oid <= int64_max /\
     exists rest, TrimSpace orderID = orderIDPrefix +:+ rest /\ ParseInt rest = Some oid) /\
  (forall oid, 0 < oid <= int64_max ->
     parseLegacyPaymentOrderID (orderIDPrefix +:+ FormatInt oid) true = Some oid).
Proof.
  split.
  - intros oid. unfold parseLegacyPaymentOrderID. destruct notFound; [|done]. cbn [negb].
    destruct (strip_prefix _ _) as [rest|] eqn:E; [|done]. apply strip_prefix_Some in E.
    case_bool_decide; [done|]. destruct (ParseInt rest) as [o|] eqn:Ep; [|done].
    destruct (Z.leb_spec o 0); [done|]. intros [= ->].
    pose proof (ParseInt_range _ _ Ep). split_and!; [done|done|lia|eauto].
  - intros oid Ho. unfold parseLegacyPaymentOrderID. cbn [negb].
    rewrite TrimSpace_visible.
    + rewrite strip_prefix_app, bool_decide_false by by apply FormatInt_nonempty.
      rewrite ParseInt_FormatInt by (unfold int64_min, int64_max in *; lia).
      by rewrite (proj2 (Z.leb_gt oid 0)) by lia.
    + apply all_bytes_spec. rewrite all_bytes_app. apply andb_true_iff. split; [done|].
      eapply all_bytes_impl; [apply digit_visible|]. apply FormatInt_digits. lia.
Qed.

Lemma trade_no_visible c : trade_no_byte c = true -> visible c = true.
Proof.
  unfold trade_no_byte. rewrite !orb_true_iff. intros [[[[H|H]|H]|H]|H].
  - unfold is_lower, visible in *. rewrite !andb_true_iff, !Nat.leb_le in *. lia.
  - by apply upper_visible.
  - by apply digit_visible.
  - by apply bool_decide_eq_true in H as ->.
  - by apply bool_decide_eq_true in H as ->.
Qed.

(** An external order number accepted for lookup is the trimmed text, one
    to 64 letters, digits, underscores or dashes, and looking it up again
    accepts it unchanged. *)
Theorem trade_no_lookup raw :
  match normalizeOrderLookupOutTradeNo raw with
  | Ok t => t = TrimSpace raw /\ t <> "" /\ (Strings.String.length t <= 64)%nat /\
            all_bytes trade_no_byte t = true /\ normalizeOrderLookupOutTradeNo t = Ok t
  | Err ErrTradeNoRequired => TrimSpace raw = ""
  | Err ErrTradeNoInvalid => (64 < Strings.String.length (TrimSpace raw))%nat \/
                             all_bytes trade_no_byte (TrimSpace raw) = false
  end.
Proof.
  unfold normalizeOrderLookupOutTradeNo at 1. cbv zeta. set (t := TrimSpace raw).
  case_bool_decide as E; [done|].
  destruct (64 <? _)%nat eqn:El; [left; by apply Nat.ltb_lt|].
  destruct (all_bytes trade_no_byte t) eqn:Ea; cbn [negb]; [|by right].
  apply Nat.ltb_ge in El as Hl. split_and!; [done|done|done|done|].
  unfold normalizeOrderLookupOutTradeNo.
  rewrite (TrimSpace_all trade_no_byte) by (done || apply trade_no_visible). cbv zeta.
  rewrite bool_decide_false by done. by rewrite El, Ea.
Qed.

(** ** Notes *)

Definition no_break (c : ascii) : bool := (c !=? newline_char) && (c !=? return_char).

Lemma drop_cr_plain s : all_bytes no_break s = true -> drop_cr s = s.
Proof.
  induction s as [|c s IH]; [done|]. cbn [all_bytes drop_cr]. unfold no_break.
  rewrite !andb_true_iff, !negb_true_iff. intros [[_ Hc] Hs]. rewrite Hc. cbn [andb].
  by rewrite IH.
Qed.

Lemma split_lines_plain s : all_bytes no_break s = true -> split_lines s = (s, []).
Proof.
  induction s as [|c s IH]; [done|]. cbn [all_bytes split_lines]. unfold no_break at 1.
  rewrite !andb_true_iff, !negb_true_iff. intros [[Hc _] Hs]. by rewrite IH, Hc.
Qed.

Lemma lines_app s t :
  all_bytes no_break t = true -> lines (s +:+ String newline_char t) = lines s ++ [t].
Proof.
  intros Ht. unfold lines.
  assert (split_lines (s +:+ String newline_char t) =
            ((split_lines s).1, (split_lines s).2 ++ [t])) as ->; [|by destruct (split_lines s)].
  unfold String.app. induction s as [|c s IH]; cbn [Strings.String.append split_lines].
  - rewrite split_lines_plain by done. by rewrite bool_decide_true.
  - rewrite IH. destruct (split_lines s) as [l ls]. cbn [fst snd]. by destruct (c ==? newline_char).
Qed.

Lemma has_prefix_char c d s : HasPrefix (String c s) (String d "") = Strings.Ascii.eqb d c.
Proof. unfold HasPrefix. cbn [strip_prefix]. by destruct (Strings.Ascii.eqb d c). Qed.

(** [drop_cr] works part by part on a text that does not end in a carriage
    return. *)
Lemma drop_cr_app s t :
  (forall s', s <> s' +:+ String return_char "") ->
  drop_cr (s +:+ String newline_char t) = drop_cr s +:+ String newline_char (drop_cr t).
Proof.
  induction s as [|c s IH]; intros Hno.
  { change (drop_cr (String newline_char t) = String newline_char (drop_cr t)).
    cbn [drop_cr]. by rewrite bool_decide_false. }
  change (drop_cr (String c (s +:+ String newline_char t)) =
          drop_cr (String c s) +:+ String newline_char (drop_cr t)).
  cbn [drop_cr]. rewrite IH by (intros s' ->; by apply (Hno (String c s'))).
  destruct s as [|c' s].
  - rewrite bool_decide_false; [done|]. intros ->. by apply (Hno "").
  - change (String c' s +:+ String newline_char t) with (String c' (s +:+ String newline_char t)).
    rewrite !has_prefix_char. by destruct (_ && _).
Qed.

Lemma digit_no_break c : is_digit c = true -> no_break c = true.
Proof. destruct c as [[] [] [] [] [] [] [] []]; by vm_compute. Qed.

Lemma note_shape o :
  0 < o <= int64_max ->
  all_bytes no_break (paymentSubscriptionOrderNote o) = true /\
  TrimSpace (paymentSubscriptionOrderNote o) = paymentSubscriptionOrderNote o.
Proof.
  intros Ho. unfold paymentSubscriptionOrderNote.
  assert (all_bytes is_digit (FormatInt o) = true) as Hd by (apply FormatInt_digits; lia).
  split.
  - rewrite all_bytes_app. apply andb_true_iff. split; [done|].
    eapply all_bytes_impl; [apply digit_no_break|done].
  - apply TrimSpace_id.
    + exact (proj1 (visible_not_space "p" _ eq_refl)).
    + destruct (string_snoc (FormatInt o)) as [E|(s & c & E)]; [by apply FormatInt_nonempty in E|].
      rewrite E in Hd |- *. rewrite all_bytes_app in Hd. apply andb_true_iff in Hd as [_ Hd].
      cbn [all_bytes] in Hd. rewrite andb_true_r in Hd.
      replace ("payment order " +:+ (s +:+ String c "")) with
        (("payment order " +:+ s) +:+ String c "") by (by rewrite app_assoc_string).
      rewrite rev_string_snoc. exact (proj2 (visible_not_space c _ (digit_visible c Hd))).
Qed.

(** Order notes appended line by line to a subscription identify the
    orders: after the note of order [a] is added, the note of order [b] is
    found exactly when it was there before or [b] is [a].  The text before
    must not end in a stray carriage return. *)
Theorem order_note_identifies notes a b :
  0 < a <= int64_max -> 0 < b <= int64_max ->
  HasSuffix notes (String return_char "") = false ->
  hasPaymentSubscriptionOrderNote (notes +:+ String newline_char (paymentSubscriptionOrderNote a))
    (paymentSubscriptionOrderNote b) =
  hasPaymentSubscriptionOrderNote notes (paymentSubscriptionOrderNote b) || (a =? b).
Proof.
  intros Ha Hb Hs. destruct (note_shape a Ha) as [Hna Hta].
  unfold hasPaymentSubscriptionOrderNote.
  rewrite drop_cr_app.
  - rewrite (drop_cr_plain (paymentSubscriptionOrderNote a)) by done.
    rewrite lines_app by done. rewrite existsb_app. f_equal.
    cbn [existsb]. rewrite orb_false_r, Hta.
    destruct (Z.eqb_spec a b) as [->|Hne]; [by apply bool_decide_true|].
    apply bool_decide_false. intros E. apply Hne.
    unfold paymentSubscriptionOrderNote in E.
    assert (FormatInt a = FormatInt b) as Ef.
    { pose proof (f_equal (strip_prefix "payment order ") E) as E'.
      rewrite !strip_prefix_app in E'. by injection E'. }
    pose proof (ParseInt_FormatInt a) as Pa. pose proof (ParseInt_FormatInt b) as Pb.
    rewrite Ef in Pa. rewrite Pa in Pb by (unfold int64_min, int64_max in *; lia).
    unfold int64_min, int64_max in *. specialize (Pb ltac:(lia)). by injection Pb.
  - intros s' ->. rewrite (proj2 (HasSuffix_spec _ _)) in Hs; eauto; done.
Qed.

Lemma order_note_identifies_witness :
  hasPaymentSubscriptionOrderNote ("gift" +:+ String newline_char (paymentSubscriptionOrderNote 12))
    (paymentSubscriptionOrderNote 12) = true.
Proof.
  rewrite (order_note_identifies "gift" 12 12) by (unfold int64_max; (lia || by vm_compute)).
  by vm_compute.
Defined.
