(* ===== verification/Redeem.v ===== *)
(** * Redeem codes: internal/service/redeem_code.go, the creation and
    redemption paths of internal/service/redeem_service.go, and the statements
    of internal/repository/redeem_code_repo.go they use

    The table of codes is a map by id in which the text of a code is unique.
    What a redemption grants is a call to another component made inside the
    transaction that marks the code used; the calls of the committed
    transactions are recorded in order ([grants]).  Replies that come from
    outside (the attempt counter and the lock in Redis, whether a statement
    fails, clocks) are arguments. *)

From S2P Require Import Prelude Float64 GoTime.
Local Open Scope Z_scope.

(** ** Codes *)

Definition StatusUnused := "unused".
Definition StatusUsed := "used".
Definition StatusExpired := "expired".

Definition RedeemTypeBalance := "balance".
Definition RedeemTypeConcurrency := "concurrency".
Definition RedeemTypeSubscription := "subscription".
Definition RedeemTypeInvitation := "invitation".

Definition redeemMaxErrorsPerHour : Z := 20.

Record RedeemCode := mkRedeemCode {
  rc_ID : Z;
  rc_Code : string;
  rc_Type : string;
  rc_Value : f64;
  rc_Status : string;
  rc_UsedBy : option Z;
  rc_UsedAt : option time;
  rc_Notes : string;
  rc_CreatedAt : time;
  rc_ExpiresAt : option time;
  rc_GroupID : option Z;
  rc_ValidityDays : Z;
}.

Definition IsUsed (r : RedeemCode) : bool := rc_Status r ==? StatusUsed.

Definition IsExpiredAt (now : time) (r : RedeemCode) : bool :=
  if rc_Status r ==? StatusExpired then true
  else (rc_Status r ==? StatusUnused)
       && match rc_ExpiresAt r with Some e => negb (After e now) | None => false end.

Definition IsExpired (now : time) (r : RedeemCode) : bool := IsExpiredAt now r.

Definition CanUse (now : time) (r : RedeemCode) : bool :=
  (rc_Status r ==? StatusUnused) && negb (IsExpired now r).

Inductive RedeemError :=
| ErrRedeemCodeNotFound
| ErrRedeemCodeUsed
| ErrRedeemCodeExpired
| ErrRedeemRateLimited
| ErrRedeemCodeLocked
| ErrRedeemCodeRequired
| ErrRedeemValueZero
| ErrRedeemCodeInvalid                 (** a subscription code without a group *)
| ErrRedeemUnsupportedType (t : string)
| ErrRedeemNoAdjuster
| ErrRedeemUser
| ErrRedeemStore (op : string).

(** ** What a redemption grants *)

Inductive grant :=
| UpdateBalance (userID : Z) (amount : f64)
| ApplyRedeemBalanceAdjustment (userID : Z) (amount : f64)
| UpdateConcurrency (userID : Z) (delta : Z)
| ApplyRedeemConcurrencyAdjustment (userID : Z) (delta : Z)
| ReduceOrCancelSubscription (userID groupID days : Z) (code : string)
| AssignOrExtendSubscription (userID groupID days : Z) (notes : string).

(** The switch on the type, inside the transaction.  [adjuster] says whether
    the user repository supports atomic adjustments. *)
Definition redeem_grant (adjuster : bool) (userID : Z) (c : RedeemCode) : result RedeemError grant :=
  if rc_Type c ==? RedeemTypeBalance then
    let amount := rc_Value c in
    if fltb amount f0 then
      if adjuster then Ok (ApplyRedeemBalanceAdjustment userID amount) else Err ErrRedeemNoAdjuster
    else Ok (UpdateBalance userID amount)
  else if rc_Type c ==? RedeemTypeConcurrency then
    let delta := f64_to_int64 (rc_Value c) in
    if delta <? 0 then
      if adjuster then Ok (ApplyRedeemConcurrencyAdjustment userID delta) else Err ErrRedeemNoAdjuster
    else Ok (UpdateConcurrency userID delta)
  else if rc_Type c ==? RedeemTypeSubscription then
    match rc_GroupID c with
    | None => Err ErrRedeemCodeInvalid
    | Some groupID =>
        let validityDays := rc_ValidityDays c in
        if validityDays <? 0
        then Ok (ReduceOrCancelSubscription userID groupID (wrap64 (- validityDays)) (rc_Code c))
        else Ok (AssignOrExtendSubscription userID groupID
                   (if validityDays =? 0 then 30 else validityDays)
                   ("通过兑换码 " +:+ rc_Code c +:+ " 兑换"))
    end
  else Err (ErrRedeemUnsupportedType (rc_Type c)).

(** ** The table *)

Record redeem_store := mkRedeemStore {
  codes : gmap Z RedeemCode;
  next_code_id : Z;
  grants : list (Z * grant);             (** id of the code, call committed with its use *)
  attempts : list Z;                     (** users whose error count was raised *)
  accruals : list (Z * f64);             (** best-effort [AccrueInviteRebate] calls *)
}.

Definition with_codes (f : gmap Z RedeemCode -> gmap Z RedeemCode) (st : redeem_store) : redeem_store :=
  mkRedeemStore (f (codes st)) (next_code_id st) (grants st) (attempts st) (accruals st).

Definition repo_GetByCode (code : string) (st : redeem_store) : option RedeemCode :=
  snd <$> head (map_to_list (filter (fun p : Z * RedeemCode => rc_Code p.2 = code) (codes st))).

Definition repo_GetByID (id : Z) (st : redeem_store) : option RedeemCode := codes st !! id.

(** The schema's validators and the unique index on the code. *)
Definition code_valid (c : RedeemCode) : bool :=
  (rc_Code c !=? "") && (Strings.String.length (rc_Code c) <=? 32)%nat
  && (Strings.String.length (rc_Type c) <=? 20)%nat.

Definition repo_Create (now : time) (c : RedeemCode) (st : redeem_store) : option (Z * redeem_store) :=
  if negb (code_valid c) then None
  else match repo_GetByCode (rc_Code c) st with
  | Some _ => None
  | None =>
      let id := next_code_id st in
      let row := mkRedeemCode id (rc_Code c) (rc_Type c) (rc_Value c) (rc_Status c) (rc_UsedBy c)
                   (rc_UsedAt c) (rc_Notes c) now (rc_ExpiresAt c) (rc_GroupID c)
                   (rc_ValidityDays c) in
      Some (id, mkRedeemStore (<[id := row]> (codes st)) (id + 1) (grants st) (attempts st)
                  (accruals st))
  end.

Definition used_row (now : time) (userID : Z) (c : RedeemCode) : RedeemCode :=
  mkRedeemCode (rc_ID c) (rc_Code c) (rc_Type c) (rc_Value c) StatusUsed (Some userID) (Some now)
    (rc_Notes c) (rc_CreatedAt c) (rc_ExpiresAt c) (rc_GroupID c) (rc_ValidityDays c).

(** [None] when no unused row has the id. *)
Definition repo_Use (now : time) (id userID : Z) (st : redeem_store) : option redeem_store :=
  match codes st !! id with
  | Some c => if rc_Status c ==? StatusUnused
              then Some (with_codes (<[id := used_row now userID c]>) st)
              else None
  | None => None
  end.

(** ** [CreateCode] *)

(** Normalisation and checks before the insert; [now] is read by [IsExpired]. *)
Definition prepare_code (now : time) (c : RedeemCode) : result RedeemError RedeemCode :=
  let code := TrimSpace (rc_Code c) in
  if code ==? "" then Err ErrRedeemCodeRequired
  else
    let type := if rc_Type c ==? "" then RedeemTypeBalance else rc_Type c in
    if (type !=? RedeemTypeInvitation) && feqb (rc_Value c) f0 then Err ErrRedeemValueZero
    else
      let status := if rc_Status c ==? "" then StatusUnused else rc_Status c in
      let c' := mkRedeemCode (rc_ID c) code type (rc_Value c) status (rc_UsedBy c) (rc_UsedAt c)
                  (rc_Notes c) (rc_CreatedAt c) (rc_ExpiresAt c) (rc_GroupID c)
                  (rc_ValidityDays c) in
      if IsExpired now c' then Err ErrRedeemCodeExpired else Ok c'.

Definition CreateCode (now : time) (c : RedeemCode) (st : redeem_store)
    : result RedeemError Z * redeem_store :=
  match prepare_code now c with
  | Err e => (Err e, st)
  | Ok c' => match repo_Create now c' st with
             | Some (id, st') => (Ok id, st')
             | None => (Err (ErrRedeemStore "create redeem code"), st)
             end
  end.

(** ** [Redeem] *)

(** What the surroundings answer during one redemption. *)
Record redeem_env := mkRedeemEnv {
  e_attempts : option (option Z);   (** no cache; cache error; the count *)
  e_lock : option (option bool);    (** no cache; cache error; acquired *)
  e_lookup : bool;                  (** the lookup statement works *)
  e_now1 : time;                    (** clock of [IsExpired] *)
  e_now2 : time;                    (** clock of [CanUse] *)
  e_user : bool;                    (** the user is found *)
  e_adjuster : bool;
  e_tx : fault;                     (** begin, the grant and commit *)
  e_tx_now : time;                  (** clock of [Use] *)
  e_affiliate : bool;               (** the affiliate service is there and enabled *)
  e_reload : bool;                  (** the final lookup works *)
}.

Definition checkRedeemRateLimit (cache : option (option Z)) : option RedeemError :=
  match cache with
  | Some (Some count) => if redeemMaxErrorsPerHour <=? count then Some ErrRedeemRateLimited else None
  | _ => None
  end.

Definition acquireRedeemLock (cache : option (option bool)) : bool :=
  match cache with Some (Some ok) => ok | _ => true end.

(** [incrementRedeemErrorCount]: recorded whether or not Redis keeps it. *)
Definition incrementRedeemErrorCount (userID : Z) (st : redeem_store) : redeem_store :=
  mkRedeemStore (codes st) (next_code_id st) (grants st) (attempts st ++ [userID]) (accruals st).

(** The checks on the code found. *)
Definition redeem_check (env : redeem_env) (c : RedeemCode) : option RedeemError :=
  if IsExpired (e_now1 env) c then Some ErrRedeemCodeExpired
  else if negb (CanUse (e_now2 env) c) then Some ErrRedeemCodeUsed
  else if (rc_Type c ==? RedeemTypeBalance) || (rc_Type c ==? RedeemTypeConcurrency) then None
  else if rc_Type c ==? RedeemTypeSubscription then
    match rc_GroupID c with None => Some ErrRedeemCodeInvalid | Some _ => None end
  else Some (ErrRedeemUnsupportedType (rc_Type c)).

(** From the entry to the transaction: the code to redeem, or the error. *)
Definition redeem_begin (env : redeem_env) (userID : Z) (code : string) (st : redeem_store)
    : result RedeemError RedeemCode * redeem_store :=
  match checkRedeemRateLimit (e_attempts env) with
  | Some e => (Err e, st)
  | None =>
      if negb (acquireRedeemLock (e_lock env)) then (Err ErrRedeemCodeLocked, st)
      else if negb (e_lookup env) then (Err (ErrRedeemStore "get redeem code"), st)
      else match repo_GetByCode code st with
      | None => (Err ErrRedeemCodeNotFound, incrementRedeemErrorCount userID st)
      | Some c =>
          match redeem_check env c with
          | Some e => (Err e, match e with
                              | ErrRedeemCodeExpired | ErrRedeemCodeUsed =>
                                  incrementRedeemErrorCount userID st
                              | _ => st
                              end)
          | None => if e_user env then (Ok c, st) else (Err ErrRedeemUser, st)
          end
      end
  end.

Definition add_grant (id : Z) (g : grant) (st : redeem_store) : redeem_store :=
  mkRedeemStore (codes st) (next_code_id st) (grants st ++ [(id, g)]) (attempts st) (accruals st).

(** The transaction: mark the code used, make the grant, commit. *)
Definition redeem_tx (env : redeem_env) (userID : Z) (c : RedeemCode) (st : redeem_store)
    : option RedeemError * redeem_store :=
  match e_tx env with
  | LostBefore => (Some (ErrRedeemStore "transaction"), st)
  | fate =>
      match repo_Use (e_tx_now env) (rc_ID c) userID st with
      | None => (Some ErrRedeemCodeUsed, st)
      | Some st' =>
          match redeem_grant (e_adjuster env) userID c with
          | Err e => (Some e, st)
          | Ok g => (match fate with Fine => None | _ => Some (ErrRedeemStore "commit transaction") end,
                     add_grant (rc_ID c) g st')
          end
      end
  end.

(** After the commit; [skip] is the context key [ContextSkipRedeemAffiliate]
    sets. *)
Definition redeem_finish (env : redeem_env) (skip : bool) (userID : Z) (c : RedeemCode)
    (st : redeem_store) : result RedeemError RedeemCode * redeem_store :=
  let st' := if (rc_Type c ==? RedeemTypeBalance) && fltb f0 (rc_Value c) && negb skip && e_affiliate env
             then mkRedeemStore (codes st) (next_code_id st) (grants st) (attempts st)
                    (accruals st ++ [(userID, rc_Value c)])
             else st in
  (if e_reload env
   then match repo_GetByID (rc_ID c) st' with
        | Some c' => Ok c'
        | None => Err (ErrRedeemStore "get updated redeem code")
        end
   else Err (ErrRedeemStore "get updated redeem code"), st').

(** The whole call, with nobody else on the table. *)
Definition Redeem (env : redeem_env) (skip : bool) (userID : Z) (code : string) (st : redeem_store)
    : result RedeemError RedeemCode * redeem_store :=
  match redeem_begin env userID code st with
  | (Err e, st') => (Err e, st')
  | (Ok c, st') =>
      match redeem_tx env userID c st' with
      | (Some e, st'') => (Err e, st'')
      | (None, st'') => redeem_finish env skip userID c st''
      end
  end.

(** ** The table's invariant *)

(** Ids are those of their rows and below the counter, a text names one code,
    a code is granted once, and the granted codes are the used ones. *)
Record redeem_ok (st : redeem_store) : Prop := {
  rok_id i c : codes st !! i = Some c -> rc_ID c = i /\ i < next_code_id st;
  rok_unique i j c d : codes st !! i = Some c -> codes st !! j = Some d ->
    rc_Code c = rc_Code d -> i = j;
  rok_once : NoDup (grants st).*1;
  rok_used i : i ∈ (grants st).*1 <-> exists c, codes st !! i = Some c /\ rc_Status c = StatusUsed;
}.

Lemma GetByCode_Some st code c :
  redeem_ok st -> repo_GetByCode code st = Some c ->
  codes st !! rc_ID c = Some c /\ rc_Code c = code.
Proof.
  intros Hok H. unfold repo_GetByCode in H. apply fmap_Some in H as ([i d] & Hh & ->).
  apply head_Some_elem_of, elem_of_map_to_list, map_lookup_filter_Some in Hh as [Hi Hc].
  cbn [fst snd] in *. by rewrite (proj1 (rok_id st Hok _ _ Hi)).
Qed.

Lemma GetByCode_None st code i c :
  repo_GetByCode code st = None -> codes st !! i = Some c -> rc_Code c <> code.
Proof.
  unfold repo_GetByCode. intros H Hi Hc.
  apply fmap_None, head_None in H. apply map_to_list_empty_iff in H.
  assert (filter (fun p : Z * RedeemCode => rc_Code p.2 = code) (codes st) !! i = Some c) as Hf
    by (by apply map_lookup_filter_Some).
  by rewrite H, lookup_empty in Hf.
Qed.

Lemma GetByCode_iff st code c :
  redeem_ok st ->
  repo_GetByCode code st = Some c <-> codes st !! rc_ID c = Some c /\ rc_Code c = code.
Proof.
  intros Hok. split; [by apply GetByCode_Some|]. intros [Hi Hc].
  destruct (repo_GetByCode code st) as [d|] eqn:E.
  - apply GetByCode_Some in E as [Hd Ec]; [|done].
    assert (rc_ID d = rc_ID c) as Eid by (eapply rok_unique; eauto; congruence).
    rewrite Eid in Hd. congruence.
  - exfalso. by eapply GetByCode_None.
Qed.

Lemma Use_spec now id u st st' :
  repo_Use now id u st = Some st' ->
  exists c, codes st !! id = Some c /\ rc_Status c = StatusUnused /\
    st' = with_codes (<[id := used_row now u c]>) st.
Proof.
  unfold repo_Use. destruct (codes st !! id) as [c|] eqn:E; [|done].
  case_bool_decide; [|done]. intros [= <-]. eauto.
Qed.

(** Marking a code used together with its grant keeps the invariant. *)
Lemma use_grant_ok now id u g c st :
  redeem_ok st -> codes st !! id = Some c -> rc_Status c = StatusUnused ->
  redeem_ok (add_grant id g (with_codes (<[id := used_row now u c]>) st)).
Proof.
  intros Hok Hc Hu.
  assert (id ∉ (grants st).*1) as Hnew.
  { intros Hin. apply (rok_used st Hok) in Hin as (d & Hd & Hs). rewrite Hc in Hd.
    injection Hd as <-. by rewrite Hu in Hs. }
  split; cbn [codes next_code_id grants add_grant with_codes].
  - intros i d Hi. apply lookup_insert_Some in Hi as [[<- <-]|[_ Hi]]; [|by apply rok_id].
    exact (rok_id st Hok _ _ Hc).
  - intros i j d e Hi Hj He.
    apply lookup_insert_Some in Hi as [[<- <-]|[Hni Hi]], Hj as [[<- <-]|[Hnj Hj]]; cbn in He;
      [done|eapply rok_unique; eauto..].
  - rewrite fmap_app. apply NoDup_app. split_and!; [apply rok_once, Hok| |apply NoDup_singleton].
    intros i Hi [-> | Hn]%elem_of_cons; [done|by apply elem_of_nil in Hn].
  - intros i. rewrite fmap_app, elem_of_app. cbn. rewrite list_elem_of_singleton.
    rewrite (rok_used st Hok). split.
    + intros [(d & Hd & Hs)| ->].
      * exists d. split; [|done]. rewrite lookup_insert_ne; [done|]. intros ->.
        rewrite Hc in Hd. injection Hd as <-. by rewrite Hu in Hs.
      * eexists. rewrite lookup_insert_eq. split; [done|reflexivity].
    + intros (d & Hd & Hs). apply lookup_insert_Some in Hd as [[<- _]|[Hne Hd]]; eauto.
Qed.

Lemma Create_spec now c st id st' :
  redeem_ok st -> rc_Status c <> StatusUsed -> repo_Create now c st = Some (id, st') ->
  redeem_ok st' /\ id = next_code_id st /\ grants st' = grants st /\
  repo_GetByCode (rc_Code c) st = None /\
  exists row, codes st' = <[id := row]> (codes st) /\ codes st !! id = None /\
    rc_ID row = id /\ rc_Code row = rc_Code c /\ rc_Type row = rc_Type c /\
    rc_Value row = rc_Value c /\ rc_Status row = rc_Status c /\ rc_ExpiresAt row = rc_ExpiresAt c.
Proof.
  intros Hok Hs. unfold repo_Create.
  destruct (negb (code_valid c)); [done|].
  destruct (repo_GetByCode (rc_Code c) st) eqn:Eg; [done|]. intros [= <- <-].
  assert (codes st !! next_code_id st = None) as Hfresh.
  { destruct (codes st !! next_code_id st) as [d|] eqn:E; [|done].
    apply (rok_id st Hok) in E as [_ E]. lia. }
  split_and!; [|done..|eexists; split_and!; done].
  split; cbn [codes next_code_id grants].
  - intros i d Hi. apply lookup_insert_Some in Hi as [[<- <-]|[_ Hi]]; [split; [done|lia]|].
    apply (rok_id st Hok) in Hi. lia.
  - intros i j d e Hi Hj He.
    apply lookup_insert_Some in Hi as [[<- <-]|[Hni Hi]], Hj as [[<- <-]|[Hnj Hj]]; cbn in He.
    + done.
    + exfalso. eapply GetByCode_None; eauto.
    + exfalso. eapply GetByCode_None; eauto.
    + eapply rok_unique; eauto.
  - apply rok_once, Hok.
  - intros i. rewrite (rok_used st Hok). split; intros (d & Hd & Hu).
    + exists d. rewrite lookup_insert_ne; [done|]. intros <-. congruence.
    + apply lookup_insert_Some in Hd as [[<- <-]|[_ Hd]]; [done|eauto].
Qed.

(** ** What a redemption does *)

Lemma redeem_begin_codes env u code st :
  codes (redeem_begin env u code st).2 = codes st /\
  grants (redeem_begin env u code st).2 = grants st /\
  next_code_id (redeem_begin env u code st).2 = next_code_id st.
Proof. unfold redeem_begin. repeat case_match; done. Qed.

Lemma redeem_begin_ok env u code st :
  redeem_ok st -> redeem_ok (redeem_begin env u code st).2.
Proof.
  intros Hok. destruct (redeem_begin_codes env u code st) as (Ec & Eg & En).
  split; rewrite ?Ec, ?Eg, ?En; apply Hok.
Qed.

Lemma redeem_begin_Ok env u code st c st' :
  redeem_begin env u code st = (Ok c, st') ->
  st' = st /\ repo_GetByCode code st = Some c /\ redeem_check env c = None.
Proof. unfold redeem_begin. intros H. repeat case_match; simplify_eq; done. Qed.

(** A code that passes the checks is unused and of a type that can be
    granted. *)
Lemma redeem_check_None env c :
  redeem_check env c = None ->
  rc_Status c = StatusUnused /\ (exists g, redeem_grant true 0 c = Ok g).
Proof.
  unfold redeem_check. destruct (IsExpired _ _); [done|].
  destruct (CanUse _ _) eqn:E; [|done]. cbn [negb].
  unfold CanUse in E. apply andb_true_iff in E as [E _]. apply bool_decide_eq_true in E.
  intros H. split; [done|]. unfold redeem_grant.
  destruct (rc_Type c ==? RedeemTypeBalance); [destruct (fltb _ _); eauto|].
  destruct (rc_Type c ==? RedeemTypeConcurrency); [cbv zeta; destruct (_ <? _); eauto|].
  destruct (rc_Type c ==? RedeemTypeSubscription); [|done].
  destruct (rc_GroupID c); [|done]. cbv zeta. destruct (_ <? _); eauto.
Qed.

(** The transaction either leaves the table alone or marks the code used and
    grants it, once; a lost reply is the only error after a grant. *)
Lemma redeem_tx_spec env u c st :
  (exists e, redeem_tx env u c st = (Some e, st)) \/
  (exists row g, codes st !! rc_ID c = Some row /\ rc_Status row = StatusUnused /\
     redeem_grant (e_adjuster env) u c = Ok g /\ e_tx env <> LostBefore /\
     redeem_tx env u c st =
       (if decide (e_tx env = Fine) then None else Some (ErrRedeemStore "commit transaction"),
        add_grant (rc_ID c) g (with_codes (<[rc_ID c := used_row (e_tx_now env) u row]>) st))).
Proof.
  unfold redeem_tx. destruct (e_tx env) eqn:Ef; [|left; eauto|];
    destruct (repo_Use _ _ _ _) as [st'|] eqn:Eu; try (left; eauto; done);
    apply Use_spec in Eu as (row & Hr & Hs & ->);
    destruct (redeem_grant _ _ _) as [g|e] eqn:Eg; try (left; eauto; done);
    right; exists row, g; split_and!; done.
Qed.

Lemma redeem_tx_ok env u c st :
  redeem_ok st -> redeem_ok (redeem_tx env u c st).2.
Proof.
  intros Hok. destruct (redeem_tx_spec env u c st) as [[e ->]|(row & g & Hr & Hs & _ & _ & ->)];
    [done|]. by apply use_grant_ok.
Qed.

Lemma redeem_finish_spec env skip u c st :
  codes (redeem_finish env skip u c st).2 = codes st /\
  grants (redeem_finish env skip u c st).2 = grants st /\
  next_code_id (redeem_finish env skip u c st).2 = next_code_id st /\
  (redeem_finish env skip u c st).1 =
    match codes st !! rc_ID c with
    | Some c' => if e_reload env then Ok c' else Err (ErrRedeemStore "get updated redeem code")
    | None => Err (ErrRedeemStore "get updated redeem code")
    end.
Proof.
  unfold redeem_finish. cbv zeta. unfold repo_GetByID.
  destruct (_ && e_affiliate env), (e_reload env), (codes st !! rc_ID c) eqn:E;
    cbn [fst snd codes grants next_code_id]; rewrite ?E; done.
Qed.

(** C35: a redemption either changes neither the codes nor what was granted and
    returns an error, or marks the code it was given used by the user and makes
    the one grant the code's type asks for.  The second case returns the used
    code unless the commit's reply or the final lookup was lost. *)
Theorem redeem_spec env skip u code st :
  redeem_ok st ->
  let '(r, st') := Redeem env skip u code st in
  redeem_ok st' /\
  ((codes st' = codes st /\ grants st' = grants st /\ exists e, r = Err e) \/
   (exists c g, repo_GetByCode code st = Some c /\ rc_Status c = StatusUnused /\
      redeem_grant (e_adjuster env) u c = Ok g /\
      codes st' = <[rc_ID c := used_row (e_tx_now env) u c]> (codes st) /\
      grants st' = grants st ++ [(rc_ID c, g)] /\
      (if decide (e_tx env = Fine /\ e_reload env = true)
       then r = Ok (used_row (e_tx_now env) u c) else exists op, r = Err (ErrRedeemStore op)))).
Proof.
  intros Hok. unfold Redeem.
  pose proof (redeem_begin_ok env u code st Hok) as Hok1.
  destruct (redeem_begin_codes env u code st) as (Ec & Eg & _).
  destruct (redeem_begin env u code st) as [[c|e] st1] eqn:Eb; cbn [snd] in *; [|eauto 8].
  destruct (redeem_begin_Ok _ _ _ _ _ _ Eb) as (-> & Hget & Hchk).
  destruct (GetByCode_Some _ _ _ Hok Hget) as [Hrow Hcode].
  pose proof (redeem_tx_ok env u c st Hok) as Hok2.
  destruct (redeem_tx_spec env u c st) as [[e E]|(row & g & Hr & Hs & Hg & _ & E)];
    rewrite E in *; cbn [snd] in Hok2; [eauto 8|].
  rewrite Hrow in Hr. injection Hr as <-.
  destruct (decide (e_tx env = Fine)) as [Hf|Hf].
  - set (st2 := add_grant _ _ _) in *.
    destruct (redeem_finish_spec env skip u c st2) as (Fc & Fg & Fn & Fr).
    destruct (redeem_finish env skip u c st2) as [r st3]. cbn [fst snd] in *.
    split; [split; rewrite ?Fc, ?Fg, ?Fn; apply Hok2|]. right. exists c, g.
    assert (codes st2 !! rc_ID c = Some (used_row (e_tx_now env) u c)) as Hl
      by (unfold st2; cbn; by rewrite lookup_insert_eq).
    rewrite Hl in Fr. split_and!; try done.
    destruct (e_reload env); rewrite Fr; [rewrite decide_True by done; done|].
    rewrite decide_False by (by intros [_ ?]). eauto.
  - split; [done|]. right. exists c, g. split_and!; try done.
    rewrite decide_False by (by intros [? _]). eauto.
Qed.

(** A later call finds the code used: it grants nothing. *)
Lemma redeem_used env skip u code st c :
  redeem_ok st -> repo_GetByCode code st = Some c -> rc_Status c = StatusUsed ->
  codes (Redeem env skip u code st).2 = codes st /\
  grants (Redeem env skip u code st).2 = grants st /\
  exists e, (Redeem env skip u code st).1 = Err e.
Proof.
  intros Hok Hget Hs. pose proof (redeem_spec env skip u code st Hok) as H.
  destruct (Redeem env skip u code st) as [r st'].
  destruct H as [_ [H|(c' & g & Hget' & Hu & _)]]; [done|].
  rewrite Hget in Hget'. injection Hget' as <-. by rewrite Hs in Hu.
Qed.

(** ** Creating a code *)

Lemma prepare_code_Ok now c c' :
  prepare_code now c = Ok c' ->
  rc_Code c' = TrimSpace (rc_Code c) /\ rc_Code c' <> "" /\
  rc_Type c' = (if rc_Type c ==? "" then RedeemTypeBalance else rc_Type c) /\
  (rc_Type c' = RedeemTypeInvitation \/ feqb (rc_Value c') f0 = false) /\
  rc_Value c' = rc_Value c /\
  rc_Status c' = (if rc_Status c ==? "" then StatusUnused else rc_Status c) /\
  rc_ExpiresAt c' = rc_ExpiresAt c /\ IsExpired now c' = false.
Proof.
  unfold prepare_code. cbv zeta. set (ty := if rc_Type c ==? "" then _ else _).
  set (s := if rc_Status c ==? "" then _ else _).
  case_bool_decide as Ec; [done|].
  destruct ((ty !=? RedeemTypeInvitation) && feqb (rc_Value c) f0) eqn:Ev; [done|].
  destruct (IsExpired now _) eqn:Ee; [done|]. intros [= <-].
  split_and!; try done. cbn [rc_Type rc_Value].
  apply andb_false_iff in Ev as [Ev|Ev]; [left|by right].
  by apply negb_false_iff, bool_decide_eq_true in Ev.
Qed.

(** A created code can be found under its trimmed text with the settings
    asked for; a text that is taken, empty or too long, a zero value (but for
    invitations) and a code already expired are refused, leaving the table
    unchanged. *)
Theorem create_code_spec now c st :
  redeem_ok st -> rc_Status c <> StatusUsed ->
  match CreateCode now c st with
  | (Ok id, st') =>
      redeem_ok st' /\ grants st' = grants st /\
      TrimSpace (rc_Code c) <> "" /\ repo_GetByCode (TrimSpace (rc_Code c)) st = None /\
      exists row, repo_GetByCode (TrimSpace (rc_Code c)) st' = Some row /\ rc_ID row = id /\
        codes st' = <[id := row]> (codes st) /\
        rc_Type row = (if rc_Type c ==? "" then RedeemTypeBalance else rc_Type c) /\
        rc_Value row = rc_Value c /\
        (rc_Type row = RedeemTypeInvitation \/ feqb (rc_Value row) f0 = false) /\
        rc_Status row = (if rc_Status c ==? "" then StatusUnused else rc_Status c)
  | (Err e, st') => st' = st /\
      (TrimSpace (rc_Code c) = "" /\ e = ErrRedeemCodeRequired \/
       e = ErrRedeemValueZero /\ feqb (rc_Value c) f0 = true \/
       e = ErrRedeemCodeExpired \/
       e = ErrRedeemStore "create redeem code" /\
         (repo_GetByCode (TrimSpace (rc_Code c)) st <> None \/
          (32 < Strings.String.length (TrimSpace (rc_Code c)))%nat \/
          (20 < Strings.String.length (rc_Type c))%nat))
  end.
Proof.
  intros Hok Hs. unfold CreateCode. destruct (prepare_code now c) as [c'|e] eqn:Ep.
  - apply prepare_code_Ok in Ep as (Ec & Hne & Et & Hv & Ev & Es & _ & _).
    rewrite Ec in Hne.
    assert (rc_Status c' <> StatusUsed) as Hs' by (rewrite Es; by case_bool_decide).
    destruct (repo_Create now c' st) as [[id st']|] eqn:Er.
    + apply Create_spec in Er as (Hok' & _ & Hg & Hget & row & Hc & _ & Hid & Hrc & Hrt & Hrv & Hrs & _);
        [|done..].
      rewrite Ec in *. split_and!; try done. exists row.
      rewrite Hrt, Hrv, Hrs, Ev in *. split_and!; try done.
      apply GetByCode_iff; [done|]. rewrite Hc, Hid, lookup_insert_eq. done.
    + split; [done|]. right; right; right. split; [done|].
      unfold repo_Create in Er. destruct (code_valid c') eqn:Eval; cbn [negb] in Er.
      * left. rewrite <- Ec. destruct (repo_GetByCode (rc_Code c') st); done.
      * right. unfold code_valid in Eval. rewrite Ec, Et, bool_decide_false in Eval by done.
        cbn [negb andb] in Eval. apply andb_false_iff in Eval as [E|E]; apply Nat.leb_gt in E.
        -- by left.
        -- right. case_bool_decide; [by cbn in E; lia|done].
  - split; [done|]. unfold prepare_code in Ep. cbv zeta in Ep.
    case_bool_decide as Ec; [injection Ep as <-; by left|].
    destruct (_ && feqb (rc_Value c) f0) eqn:Ev.
    { injection Ep as <-. right; left. apply andb_true_iff in Ev as [_ Ev]. done. }
    destruct (IsExpired _ _); [|done]. injection Ep as <-. by right; right; left.
Qed.

Definition empty_redeem : redeem_store := mkRedeemStore ∅ 1 [] [] [].

Lemma empty_redeem_ok : redeem_ok empty_redeem.
Proof.
  split; cbn [codes grants empty_redeem]; try (intros *; by rewrite lookup_empty).
  - constructor.
  - intros i. split; [intros H; by apply elem_of_nil in H|]. intros (c & H & _).
    by rewrite lookup_empty in H.
Qed.

(** A balance code of 10. *)
Definition ex_code : RedeemCode :=
  mkRedeemCode 0 " GIFT-1 " "" (f64_of_Z 10) "" None None "" zero_time None None 0.

Definition ex_redeem_store : redeem_store := (CreateCode 1000 ex_code empty_redeem).2.

Definition ex_redeem_env (f : fault) : redeem_env :=
  mkRedeemEnv None None true 2000 2000 true true f 2001 false true.

Lemma create_code_spec_witness :
  (CreateCode 1000 ex_code empty_redeem).1 = Ok 1 /\
  exists row, repo_GetByCode "GIFT-1" ex_redeem_store = Some row /\ rc_Status row = StatusUnused.
Proof.
  destruct (create_code_spec 1000 ex_code empty_redeem empty_redeem_ok) as
    (_ & _ & _ & _ & row & H & _ & _ & _ & _ & _ & Hs); [by vm_compute|].
  split; [by vm_compute|]. exists row. split; [exact H|exact Hs].
Defined.

Lemma ex_redeem_store_ok : redeem_ok ex_redeem_store.
Proof.
  pose proof (Create_spec 1000
    (mkRedeemCode 0 "GIFT-1" RedeemTypeBalance (f64_of_Z 10) StatusUnused None None "" zero_time
       None None 0) empty_redeem 1 ex_redeem_store empty_redeem_ok) as H.
  exact (proj1 (H ltac:(by vm_compute) ltac:(by vm_compute))).
Qed.

Lemma redeem_spec_witness :
  redeem_ok (Redeem (ex_redeem_env LostAfter) false 7 "GIFT-1" ex_redeem_store).2 /\
  grants (Redeem (ex_redeem_env LostAfter) false 7 "GIFT-1" ex_redeem_store).2 =
    [(1, UpdateBalance 7 (f64_of_Z 10))].
Proof.
  split; [|by vm_compute].
  pose proof (redeem_spec (ex_redeem_env LostAfter) false 7 "GIFT-1" ex_redeem_store
                ex_redeem_store_ok) as H.
  destruct (Redeem _ _ _ _ _) as [r st']. exact (proj1 H).
Defined.
