(* ===== verification/PaymentOrder.v ===== *)
(** * Payment orders: the record, the provider a notification must come from,
    and the conditional updates of the order's row

    Models internal/service/payment_order_provider_snapshot.go, the resolution
    of the provider instance in payment_refund.go, the guards of
    [confirmPayment] and [confirmEasyPayUpstream] in payment_fulfillment.go,
    the decision of [checkPaidWithOptions] in payment_order_lifecycle.go, and
    every [PaymentOrder.Update().Where(...)] of the fulfilment and cancellation
    paths as a condition and an assignment.  Audit details and log lines are
    left out. *)

From S2P Require Import Prelude GoStrings Float64 GoTime GoAny PaymentHelpers.
Local Open Scope Z_scope.

(** ** The order *)

Record PaymentOrder := mkOrder {
  po_ID : Z;
  po_UserID : Z;
  po_Amount : f64;
  po_PayAmount : f64;
  po_RechargeCode : string;
  po_OutTradeNo : string;
  po_PaymentType : string;
  po_PaymentTradeNo : string;
  po_OrderType : string;
  po_SubscriptionGroupID : option Z;
  po_SubscriptionDays : option Z;
  po_ProviderInstanceID : option string;
  po_ProviderKey : option string;
  po_ProviderSnapshot : anymap;
  po_Status : string;
  po_UpdatedAt : time;
  po_PaidAt : option time;
  po_CompletedAt : option time;
  po_FailedAt : option time;
  po_FailedReason : option string;
}.

Definition psStringValue (value : option string) : string := default "" value.

(** ** The provider snapshot *)

Record paymentOrderProviderSnapshot := mkSnapshot {
  ps_SchemaVersion : Z;
  ps_ProviderInstanceID : string;
  ps_ProviderKey : string;
  ps_PaymentMode : string;
  ps_MerchantAppID : string;
  ps_MerchantID : string;
  ps_Currency : string;
}.

Definition psSnapshotStringValue (value : any) : string :=
  match value with AString s => TrimSpace s | _ => "" end.

Definition psSnapshotIntValue (value : any) : Z :=
  match value with
  | AInt n | AInt64 n => n
  | AFloat64 f | AFloat32 f => f64_to_int64 f
  | AString s => default 0 (ParseInt (TrimSpace s))
  | _ => 0
  end.

Definition psOrderProviderSnapshot (o : PaymentOrder) : option paymentOrderProviderSnapshot :=
  match po_ProviderSnapshot o with
  | None => None
  | Some m =>
      if bool_decide (m = ∅) then None
      else
        let str k := psSnapshotStringValue (index_key (Some m) k) in
        let s := mkSnapshot (psSnapshotIntValue (index_key (Some m) "schema_version"))
                   (str "provider_instance_id") (str "provider_key") (str "payment_mode")
                   (str "merchant_app_id") (str "merchant_id") (str "currency") in
        if (ps_SchemaVersion s =? 0) && (ps_ProviderInstanceID s ==? "") && (ps_ProviderKey s ==? "")
           && (ps_PaymentMode s ==? "") && (ps_MerchantAppID s ==? "") && (ps_MerchantID s ==? "")
           && (ps_Currency s ==? "")
        then None else Some s
  end.

Definition PaymentOrderCurrency (o : PaymentOrder) : string :=
  match psOrderProviderSnapshot o with
  | Some s => match NormalizePaymentCurrency (ps_Currency s) with
              | Ok currency => currency
              | Err _ => DefaultPaymentCurrency
              end
  | None => DefaultPaymentCurrency
  end.

(** ** The provider instance of an order *)

Record ProviderInstance := mkInstance {
  pi_ID : Z;
  pi_ProviderKey : string;
  pi_SupportedTypes : string;
}.

Definition TypeAlipayDirect := "alipay_direct".
Definition TypeWxpayDirect := "wxpay_direct".

Definition normalizeVisibleMethodSupportType (paymentType : string) : string :=
  let t := TrimSpace paymentType in
  if (t ==? TypeAlipay) || (t ==? TypeAlipayDirect) then TypeAlipay
  else if (t ==? TypeWxpay) || (t ==? TypeWxpayDirect) then TypeWxpay
  else t.

Definition InstanceSupportsType (supportedTypes target : string) : bool :=
  if supportedTypes ==? "" then true
  else
    let normalizedTarget := normalizeVisibleMethodSupportType target in
    existsb (fun t =>
      let supported := TrimSpace t in
      (supported ==? target) || (normalizeVisibleMethodSupportType supported ==? normalizedTarget))
      (Split supportedTypes ",").

Definition psLegacyOrderMatchesInstance (orderPaymentType : string) (inst : ProviderInstance) : bool :=
  let baseType := GetBasePaymentType (TrimSpace orderPaymentType) in
  let instanceProviderKey := TrimSpace (pi_ProviderKey inst) in
  if baseType ==? "" then false
  else if baseType ==? TypeStripe then instanceProviderKey ==? TypeStripe
  else if instanceProviderKey ==? TypeStripe then false
  else if instanceProviderKey ==? baseType then true
  else InstanceSupportsType (pi_SupportedTypes inst) baseType.

Definition psFilterLegacyOrderProviderInstances (orderPaymentType : string)
    (instances : list ProviderInstance) : list ProviderInstance :=
  if TrimSpace orderPaymentType ==? "" then instances
  else List.filter (psLegacyOrderMatchesInstance orderPaymentType) instances.

Definition the_only {A} (l : list A) : option A :=
  match l with [x] => Some x | _ => None end.

Definition resolveUniqueLegacyOrderProviderInstance (instances : gmap Z ProviderInstance)
    (o : PaymentOrder) : option ProviderInstance :=
  let paymentType := GetBasePaymentType (TrimSpace (po_PaymentType o)) in
  let providerKey := TrimSpace (psStringValue (po_ProviderKey o)) in
  let all := (map_to_list instances).*2 in
  if providerKey !=? "" then
    the_only (psFilterLegacyOrderProviderInstances paymentType
      (List.filter (fun i => pi_ProviderKey i ==? providerKey) all))
  else if paymentType ==? "" then None
  else the_only (psFilterLegacyOrderProviderInstances paymentType all).

Inductive InstanceError :=
| ErrSnapshotMissingInstance
| ErrSnapshotInstanceMismatch
| ErrSnapshotInstanceInvalid
| ErrInstanceMissing
| ErrSnapshotKeyMismatch.

Definition resolveSnapshotOrderProviderInstance (instances : gmap Z ProviderInstance)
    (o : PaymentOrder) (s : paymentOrderProviderSnapshot) : result InstanceError (option ProviderInstance) :=
  let columnInstanceID := TrimSpace (psStringValue (po_ProviderInstanceID o)) in
  let snapshotInstanceID := TrimSpace (ps_ProviderInstanceID s) in
  let snapshotInstanceID := if snapshotInstanceID ==? "" then columnInstanceID else snapshotInstanceID in
  if snapshotInstanceID ==? "" then Err ErrSnapshotMissingInstance
  else if (columnInstanceID !=? "") && (ps_ProviderInstanceID s !=? "")
          && negb (EqualFold columnInstanceID (ps_ProviderInstanceID s))
  then Err ErrSnapshotInstanceMismatch
  else match ParseInt snapshotInstanceID with
  | None => Err ErrSnapshotInstanceInvalid
  | Some instID =>
      match instances !! instID with
      | None => Err ErrInstanceMissing
      | Some inst =>
          if (ps_ProviderKey s !=? "") && negb (EqualFold (TrimSpace (pi_ProviderKey inst)) (ps_ProviderKey s))
          then Err ErrSnapshotKeyMismatch
          else Ok (Some inst)
      end
  end.

(** The instances are those the database holds; a failed statement is an
    error like a missing instance. *)
Definition getOrderProviderInstance (instances : gmap Z ProviderInstance) (o : PaymentOrder)
    : result InstanceError (option ProviderInstance) :=
  match psOrderProviderSnapshot o with
  | Some s => resolveSnapshotOrderProviderInstance instances o s
  | None =>
      let instIDStr := TrimSpace (psStringValue (po_ProviderInstanceID o)) in
      if instIDStr ==? "" then Ok (resolveUniqueLegacyOrderProviderInstance instances o)
      else match ParseInt instIDStr with
           | None => Ok None
           | Some instID => match instances !! instID with
                            | Some inst => Ok (Some inst)
                            | None => Err ErrInstanceMissing
                            end
           end
  end.

(** ** The guards of a payment notification *)

Definition expectedNotificationProviderKeyForOrder (registryKey : option string) (o : PaymentOrder)
    (instanceProviderKey : string) : string :=
  let orderProviderKey :=
    match psOrderProviderSnapshot o with
    | Some s => if ps_ProviderKey s !=? "" then ps_ProviderKey s else psStringValue (po_ProviderKey o)
    | None => psStringValue (po_ProviderKey o)
    end in
  expectedNotificationProviderKey registryKey (po_PaymentType o) orderProviderKey instanceProviderKey.

Inductive MetadataError := ErrMetadataMissing (k : string) | ErrMetadataMismatch (k : string).

(** [metadata[k]] against what the snapshot pinned; nothing pinned accepts
    anything. *)
Definition check_pinned (expected k actual : string) : option MetadataError :=
  let expected := TrimSpace expected in
  if expected ==? "" then None
  else if actual ==? "" then Some (ErrMetadataMissing k)
  else if negb (EqualFold expected actual) then Some (ErrMetadataMismatch k)
  else None.

(** A state field that is present must say the payment went through. *)
Definition check_state (wanted k actual : string) : option MetadataError :=
  if (actual !=? "") && negb (EqualFold actual wanted) then Some (ErrMetadataMismatch k) else None.

Fixpoint first_error {E} (l : list (option E)) : option E :=
  match l with
  | [] => None
  | Some e :: _ => Some e
  | None :: t => first_error t
  end.

Definition validateProviderSnapshotMetadata (o : PaymentOrder) (providerKey : string)
    (metadata : gmap string string) : option MetadataError :=
  if bool_decide (metadata = ∅) then None
  else match psOrderProviderSnapshot o with
  | None => None
  | Some s =>
      let field k := TrimSpace (default "" (metadata !! k)) in
      let upper k := ToUpper (field k) in
      let pk := TrimSpace providerKey in
      if pk ==? TypeWxpay then
        first_error [check_pinned (ps_MerchantAppID s) "appid" (field "appid");
                     check_pinned (ps_MerchantID s) "mchid" (field "mchid");
                     check_pinned (ps_Currency s) "currency" (upper "currency");
                     check_state "SUCCESS" "trade_state" (field "trade_state")]
      else if pk ==? TypeAlipay then check_pinned (ps_MerchantAppID s) "app_id" (field "app_id")
      else if pk ==? TypeEasyPay then check_pinned (ps_MerchantID s) "pid" (field "pid")
      else if pk ==? TypeStripe then check_pinned (ps_Currency s) "currency" (upper "currency")
      else if pk ==? TypeAirwallex then
        first_error [check_pinned (ps_MerchantID s) "account_id" (field "account_id");
                     check_pinned (ps_Currency s) "currency" (upper "currency");
                     check_state "SUCCEEDED" "status" (field "status")]
      else None
  end.

Inductive ConfirmError :=
| ErrProviderMismatch
| ErrProviderMetadata (e : MetadataError)
| ErrInvalidPaidAmount
| ErrAmountMismatch
| ErrEasyPay (reason : string).

Definition fabs (x : f64) : f64 := SpecFloat.SFabs x.

(** [math.Abs(x - y) > tolerance] *)
Definition amounts_differ (tolerance x y : f64) : bool := fltb tolerance (fabs (fsub x y)).

Definition ProviderStatusPaid := "paid".

Record QueryOrderResponse := mkQuery {
  q_TradeNo : string;
  q_Status : string;
  q_Amount : f64;
  q_Metadata : gmap string string;
}.

(** [provider] is the key of the order's provider when it could be built, and
    [query] what its [QueryOrder] answers, [None] for an error. *)
Definition confirmEasyPayUpstream (o : PaymentOrder) (tradeNo : string) (paid : f64)
    (provider : option string) (query : option QueryOrderResponse) : option ConfirmError :=
  let notifiedTradeNo := TrimSpace tradeNo in
  if notifiedTradeNo ==? "" then Some (ErrEasyPay "missing trade number")
  else if match provider with Some k => GetBasePaymentType k !=? TypeEasyPay | None => true end
  then Some (ErrEasyPay "provider unavailable")
  else
    let queryRef := TrimSpace (po_OutTradeNo o) in
    if queryRef ==? "" then Some (ErrEasyPay "missing order reference")
    else match query with
    | None => Some (ErrEasyPay "query failed")
    | Some resp =>
        let tolerance := paymentAmountToleranceForCurrency (PaymentOrderCurrency o) in
        let upstreamTradeNo := TrimSpace (q_TradeNo resp) in
        if q_Status resp !=? ProviderStatusPaid then Some (ErrEasyPay "not paid")
        else if negb (isValidProviderAmount (q_Amount resp))
                || amounts_differ tolerance (q_Amount resp) (po_PayAmount o)
                || amounts_differ tolerance (q_Amount resp) paid
        then Some (ErrEasyPay "amount mismatch")
        else if (upstreamTradeNo ==? "") || (upstreamTradeNo ==? queryRef)
                || (upstreamTradeNo !=? notifiedTradeNo)
        then Some (ErrEasyPay "trade number mismatch")
        else None
    end.

(** What a notification says and what the surroundings know when it is
    checked. *)
Record notification := mkNotification {
  n_TradeNo : string;
  n_Amount : f64;
  n_ProviderKey : string;
  n_Metadata : gmap string string;
}.

Record confirm_env := mkConfirmEnv {
  ce_instances : gmap Z ProviderInstance;
  ce_registry : option string;
  ce_provider : option string;
  ce_query : option QueryOrderResponse;
}.

(** [confirmPayment] between the load of the order and [toPaid]. *)
Definition confirm_guard (env : confirm_env) (o : PaymentOrder) (n : notification) : option ConfirmError :=
  let instanceProviderKey :=
    match getOrderProviderInstance (ce_instances env) o with
    | Ok (Some inst) => pi_ProviderKey inst
    | _ => ""
    end in
  let pk := n_ProviderKey n in
  let expected := expectedNotificationProviderKeyForOrder (ce_registry env) o instanceProviderKey in
  if (expected !=? "") && (TrimSpace pk !=? "") && negb (EqualFold expected (TrimSpace pk))
  then Some ErrProviderMismatch
  else match validateProviderSnapshotMetadata o pk (n_Metadata n) with
  | Some e => Some (ErrProviderMetadata e)
  | None =>
      if negb (isValidProviderAmount (n_Amount n)) then Some ErrInvalidPaidAmount
      else if amounts_differ (paymentAmountToleranceForCurrency (PaymentOrderCurrency o))
                (n_Amount n) (po_PayAmount o)
      then Some ErrAmountMismatch
      else if GetBasePaymentType pk ==? TypeEasyPay
      then confirmEasyPayUpstream o (n_TradeNo n) (n_Amount n) (ce_provider env) (ce_query env)
      else None
  end.

(** ** Asking the provider (payment_order_lifecycle.go) *)

(** [prov] is the key of the provider built for the order. *)
Definition paymentOrderQueryReference (o : PaymentOrder) (prov : option string) : string :=
  let k := match prov with Some p => TrimSpace p | None => "" end in
  let k := if k ==? "" then match psOrderProviderSnapshot o with
                            | Some s => TrimSpace (ps_ProviderKey s)
                            | None => ""
                            end else k in
  let k := if k ==? "" then TrimSpace (psStringValue (po_ProviderKey o)) else k in
  let k := if k ==? "" then TrimSpace (po_PaymentType o) else k in
  let base := GetBasePaymentType k in
  if (base ==? TypeAlipay) || (base ==? TypeEasyPay) || (base ==? TypeWxpay)
  then TrimSpace (po_OutTradeNo o)
  else if TrimSpace (po_PaymentTradeNo o) !=? "" then TrimSpace (po_PaymentTradeNo o)
  else TrimSpace (po_OutTradeNo o).

Definition paymentOrderShouldPersistUpstreamTradeNo (queryRef upstreamTradeNo currentTradeNo : string)
    : bool :=
  let u := TrimSpace upstreamTradeNo in
  if u ==? "" then false
  else if EqualFold u (TrimSpace currentTradeNo) then false
  else negb (EqualFold u (TrimSpace queryRef)).

(** What [checkPaidWithOptions] does with the provider's answers: nothing, or
    confirm a payment, having stored the provider's trade number first when
    the flag says so. *)
Inductive check_decision :=
| NotPaid
| PaidUpstream (tradeNo : string) (persist : bool) (amount : f64) (metadata : gmap string string).

Definition requeryPaidOrderOnce (queryRef : string) (reply : option QueryOrderResponse)
    : option QueryOrderResponse :=
  if TrimSpace queryRef ==? "" then None
  else match reply with
  | Some resp => if (q_Status resp !=? ProviderStatusPaid) || negb (isValidProviderAmount (q_Amount resp))
                 then None else Some resp
  | None => None
  end.

(** [query] and [again] are the replies of the two [QueryOrder] calls. *)
Definition checkPaidWithOptions (o : PaymentOrder) (prov : option string)
    (query again : option QueryOrderResponse) : check_decision :=
  match prov with
  | None => NotPaid
  | Some p =>
      let queryRef := paymentOrderQueryReference o (Some p) in
      if queryRef ==? "" then NotPaid
      else match query with
      | None => NotPaid
      | Some resp =>
          if q_Status resp ==? ProviderStatusPaid then
            match (if isValidProviderAmount (q_Amount resp) then Some resp
                   else requeryPaidOrderOnce queryRef again) with
            | None => NotPaid
            | Some resp =>
                let upstreamTradeNo := TrimSpace (q_TradeNo resp) in
                let persist := paymentOrderShouldPersistUpstreamTradeNo queryRef upstreamTradeNo
                                 (po_PaymentTradeNo o) in
                PaidUpstream (if persist then upstreamTradeNo else po_PaymentTradeNo o) persist
                  (q_Amount resp) (q_Metadata resp)
            end
          else NotPaid
      end
  end.

(** ** Conditional updates of one row

    [Update().Where(IDEQ(id), cond).Set...().Save()]: the row with the id
    changes when the condition holds, and the number of rows changed is
    returned.  ent sets [updated_at] on every update that does not set it
    itself; [at_] is that clock. *)

Abbreviation orders := (gmap Z PaymentOrder).

Definition update_where (id : Z) (cond : PaymentOrder -> bool) (f : PaymentOrder -> PaymentOrder)
    (os : orders) : Z * orders :=
  match os !! id with
  | Some o => if cond o then (1, <[id := f o]> os) else (0, os)
  | None => (0, os)
  end.

Definition set_status (status : string) (at_ : time) (o : PaymentOrder) : PaymentOrder :=
  mkOrder (po_ID o) (po_UserID o) (po_Amount o) (po_PayAmount o) (po_RechargeCode o)
    (po_OutTradeNo o) (po_PaymentType o) (po_PaymentTradeNo o) (po_OrderType o)
    (po_SubscriptionGroupID o) (po_SubscriptionDays o) (po_ProviderInstanceID o) (po_ProviderKey o)
    (po_ProviderSnapshot o) status at_ (po_PaidAt o) (po_CompletedAt o) (po_FailedAt o)
    (po_FailedReason o).

Definition paymentGraceMinutes : Z := 5.
Definition paymentFulfillmentLeaseDuration : duration := 5 * minute.

(** [toPaid]. *)
Definition can_pay (now : time) (o : PaymentOrder) : bool :=
  (po_Status o ==? OrderStatusPending) || (po_Status o ==? OrderStatusCancelled)
  || ((po_Status o ==? OrderStatusExpired)
      && (now - paymentGraceMinutes * minute <=? po_UpdatedAt o)).

Definition pay (now at_ : time) (paid : f64) (tradeNo : string) (o : PaymentOrder) : PaymentOrder :=
  mkOrder (po_ID o) (po_UserID o) (po_Amount o) paid (po_RechargeCode o)
    (po_OutTradeNo o) (po_PaymentType o) tradeNo (po_OrderType o)
    (po_SubscriptionGroupID o) (po_SubscriptionDays o) (po_ProviderInstanceID o) (po_ProviderKey o)
    (po_ProviderSnapshot o) OrderStatusPaid at_ (Some now) (po_CompletedAt o) None None.

(** [acquirePaymentFulfillmentLease]; [now] is cut to the microsecond. *)
Definition lease_now (now : time) : time := Truncate now 1000.

Definition can_lease (now : time) (o : PaymentOrder) : bool :=
  (po_Status o ==? OrderStatusPaid) || (po_Status o ==? OrderStatusFailed)
  || ((po_Status o ==? OrderStatusRecharging)
      && (po_UpdatedAt o <=? lease_now now - paymentFulfillmentLeaseDuration)).

Definition lease (now : time) (o : PaymentOrder) : PaymentOrder :=
  mkOrder (po_ID o) (po_UserID o) (po_Amount o) (po_PayAmount o) (po_RechargeCode o)
    (po_OutTradeNo o) (po_PaymentType o) (po_PaymentTradeNo o) (po_OrderType o)
    (po_SubscriptionGroupID o) (po_SubscriptionDays o) (po_ProviderInstanceID o) (po_ProviderKey o)
    (po_ProviderSnapshot o) OrderStatusRecharging (lease_now now) (po_PaidAt o) (po_CompletedAt o)
    None None.

(** [markCompleted] and [markFailed]: only under the lease's version. *)
Definition holds_lease (version : time) (o : PaymentOrder) : bool :=
  (po_Status o ==? OrderStatusRecharging) && (po_UpdatedAt o =? version).

Definition complete (now at_ : time) (o : PaymentOrder) : PaymentOrder :=
  mkOrder (po_ID o) (po_UserID o) (po_Amount o) (po_PayAmount o) (po_RechargeCode o)
    (po_OutTradeNo o) (po_PaymentType o) (po_PaymentTradeNo o) (po_OrderType o)
    (po_SubscriptionGroupID o) (po_SubscriptionDays o) (po_ProviderInstanceID o) (po_ProviderKey o)
    (po_ProviderSnapshot o) OrderStatusCompleted at_ (po_PaidAt o) (Some now) (po_FailedAt o)
    (po_FailedReason o).

Definition fail (now at_ : time) (reason : string) (o : PaymentOrder) : PaymentOrder :=
  mkOrder (po_ID o) (po_UserID o) (po_Amount o) (po_PayAmount o) (po_RechargeCode o)
    (po_OutTradeNo o) (po_PaymentType o) (po_PaymentTradeNo o) (po_OrderType o)
    (po_SubscriptionGroupID o) (po_SubscriptionDays o) (po_ProviderInstanceID o) (po_ProviderKey o)
    (po_ProviderSnapshot o) OrderStatusFailed at_ (po_PaidAt o) (po_CompletedAt o) (Some now)
    (Some reason).

(** [cancelCore]'s update, and the trade number [checkPaidWithOptions]
    stores, on a row of any status. *)
Definition can_cancel (o : PaymentOrder) : bool := po_Status o ==? OrderStatusPending.

Definition set_trade_no (tradeNo : string) (at_ : time) (o : PaymentOrder) : PaymentOrder :=
  mkOrder (po_ID o) (po_UserID o) (po_Amount o) (po_PayAmount o) (po_RechargeCode o)
    (po_OutTradeNo o) (po_PaymentType o) tradeNo (po_OrderType o)
    (po_SubscriptionGroupID o) (po_SubscriptionDays o) (po_ProviderInstanceID o) (po_ProviderKey o)
    (po_ProviderSnapshot o) (po_Status o) at_ (po_PaidAt o) (po_CompletedAt o) (po_FailedAt o)
    (po_FailedReason o).

(** ** The life of an order *)

(** What an order is sold as: the part of it no update changes. *)
Definition sale (o : PaymentOrder) : Z * Z * f64 * string * string * option Z * option Z :=
  (po_ID o, po_UserID o, po_Amount o, po_RechargeCode o, po_OrderType o,
   po_SubscriptionGroupID o, po_SubscriptionDays o).

Definition is_sub (o : PaymentOrder) : bool := po_OrderType o ==? OrderTypeSubscription.

Lemma sale_sub o o' : sale o = sale o' -> is_sub o = is_sub o'.
Proof. unfold sale, is_sub. intros [=]. replace (po_OrderType o') with (po_OrderType o) by congruence. done. Qed.

(** The edges of the status graph the fulfilment and cancellation paths may
    follow.  Refunds move an order among COMPLETED and the refund statuses. *)
Definition status_edges : list (string * string) :=
  [(OrderStatusPending, OrderStatusPaid); (OrderStatusCancelled, OrderStatusPaid);
   (OrderStatusExpired, OrderStatusPaid);
   (OrderStatusPending, OrderStatusCancelled); (OrderStatusPending, OrderStatusExpired);
   (OrderStatusPaid, OrderStatusRecharging); (OrderStatusFailed, OrderStatusRecharging);
   (OrderStatusRecharging, OrderStatusCompleted); (OrderStatusRecharging, OrderStatusFailed)].

Definition sold (s : string) : bool := (s ==? OrderStatusCompleted) || psIsRefundStatus s.

Definition moves (s s' : string) : Prop := (s, s') ∈ status_edges \/ (sold s = true /\ sold s' = true).

Definition edge (s s' : string) : Prop := s' = s \/ moves s s'.

Lemma edge_refl s : edge s s.
Proof. by left. Qed.

Lemma edge_sold s s' : edge s s' -> sold s = true -> sold s' = true.
Proof.
  intros [->|[H|[_ H]]] Hs; [done| |done]. unfold status_edges in H. rewrite !elem_of_cons, elem_of_nil in H.
  repeat destruct H as [[= -> ->]|H]; by vm_compute in Hs.
Qed.

(** ** What an accepted notification proves *)

(** The metadata fields a provider's notification must repeat, with the value
    the order's snapshot pinned for each. *)
Definition pinned_fields (pk : string) (s : paymentOrderProviderSnapshot) : list (string * string) :=
  if pk ==? TypeWxpay then
    [("appid", ps_MerchantAppID s); ("mchid", ps_MerchantID s); ("currency", ps_Currency s)]
  else if pk ==? TypeAlipay then [("app_id", ps_MerchantAppID s)]
  else if pk ==? TypeEasyPay then [("pid", ps_MerchantID s)]
  else if pk ==? TypeStripe then [("currency", ps_Currency s)]
  else if pk ==? TypeAirwallex then [("account_id", ps_MerchantID s); ("currency", ps_Currency s)]
  else [].

(** A field as it is compared: trimmed, the currency in upper case. *)
Definition metadata_field (metadata : gmap string string) (k : string) : string :=
  let x := TrimSpace (default "" (metadata !! k)) in
  if k ==? "currency" then ToUpper x else x.

Lemma check_pinned_None expected k actual :
  check_pinned expected k actual = None ->
  TrimSpace expected <> "" -> actual <> "" /\ EqualFold (TrimSpace expected) actual = true.
Proof.
  unfold check_pinned. cbv zeta. intros H Hne. rewrite bool_decide_false in H by done.
  case_bool_decide as Ea; [done|]. destruct (EqualFold _ _); [done|]. by cbn in H.
Qed.

Lemma first_error_None {E} (l : list (option E)) : first_error l = None -> Forall (fun x => x = None) l.
Proof. induction l as [|[e|] l IH]; cbn; [constructor|done|]. intros H. constructor; auto. Qed.

Lemma metadata_accepted o pk metadata s k expected :
  validateProviderSnapshotMetadata o pk metadata = None -> metadata <> ∅ ->
  psOrderProviderSnapshot o = Some s -> (k, expected) ∈ pinned_fields (TrimSpace pk) s ->
  TrimSpace expected <> "" ->
  metadata_field metadata k <> "" /\ EqualFold (TrimSpace expected) (metadata_field metadata k) = true.
Proof.
  unfold validateProviderSnapshotMetadata, pinned_fields. cbv zeta. intros H Hm Hs Hk.
  rewrite bool_decide_false in H by done. rewrite Hs in H.
  intros Hne. cut (check_pinned expected k (metadata_field metadata k) = None);
    [intros Hc; by apply check_pinned_None with k|].
  repeat (case_bool_decide; [|]);
    repeat match goal with
    | Hx : first_error _ = None |- _ => apply first_error_None in Hx
    | Hx : Forall _ (_ :: _) |- _ => apply Forall_cons in Hx as [? Hx]
    end;
    rewrite ?elem_of_cons, ?elem_of_nil in Hk;
    repeat destruct Hk as [[= -> ->]|Hk]; done.
Qed.

Lemma easypay_accepted o tradeNo paid provider query :
  confirmEasyPayUpstream o tradeNo paid provider query = None ->
  exists k resp, provider = Some k /\ GetBasePaymentType k = TypeEasyPay /\ query = Some resp /\
    q_Status resp = ProviderStatusPaid /\ isValidProviderAmount (q_Amount resp) = true /\
    amounts_differ (paymentAmountToleranceForCurrency (PaymentOrderCurrency o)) (q_Amount resp)
      (po_PayAmount o) = false /\
    TrimSpace (q_TradeNo resp) = TrimSpace tradeNo /\ TrimSpace tradeNo <> "" /\
    TrimSpace tradeNo <> TrimSpace (po_OutTradeNo o).
Proof.
  unfold confirmEasyPayUpstream. cbv zeta. intros H.
  case_bool_decide as Et; [done|].
  destruct provider as [k|]; [|done]. case_bool_decide as Ek; cbn [negb] in H; [|done].
  case_bool_decide as Eq; [done|]. destruct query as [resp|]; [|done].
  case_bool_decide as Es; cbn [negb] in H; [|done].
  destruct (isValidProviderAmount (q_Amount resp)) eqn:Ev; cbn [negb orb] in H; [|done].
  destruct (amounts_differ _ _ (po_PayAmount o)) eqn:E1; cbn [orb] in H; [done|].
  destruct (amounts_differ _ _ paid) eqn:E2; [done|].
  case_bool_decide as F1; cbn [orb] in H; [done|]. case_bool_decide as F2; cbn [orb] in H; [done|].
  case_bool_decide as F3; cbn [negb] in H; [|done].
  exists k, resp. split_and!; try done. congruence.
Qed.

(** A notification moves an order to payment only if it comes from the
    provider the order was placed with (when both name one), repeats the
    merchant, application and currency the order's snapshot pinned, and pays a
    positive, finite amount within the currency's tolerance of what was asked;
    an EasyPay one must also be confirmed by the provider itself, for the same
    trade number and an amount within the tolerance. *)
Theorem notification_accepted env o n :
  confirm_guard env o n = None ->
  let expected := expectedNotificationProviderKeyForOrder (ce_registry env) o
    match getOrderProviderInstance (ce_instances env) o with
    | Ok (Some inst) => pi_ProviderKey inst
    | _ => ""
    end in
  (expected = "" \/ TrimSpace (n_ProviderKey n) = "" \/
   EqualFold expected (TrimSpace (n_ProviderKey n)) = true) /\
  (forall s k pinned, psOrderProviderSnapshot o = Some s -> n_Metadata n <> ∅ ->
     (k, pinned) ∈ pinned_fields (TrimSpace (n_ProviderKey n)) s -> TrimSpace pinned <> "" ->
     EqualFold (TrimSpace pinned) (metadata_field (n_Metadata n) k) = true) /\
  isValidProviderAmount (n_Amount n) = true /\
  fltb (paymentAmountToleranceForCurrency (PaymentOrderCurrency o))
    (fabs (fsub (n_Amount n) (po_PayAmount o))) = false /\
  (GetBasePaymentType (n_ProviderKey n) = TypeEasyPay ->
   exists resp, ce_query env = Some resp /\ q_Status resp = ProviderStatusPaid /\
     TrimSpace (q_TradeNo resp) = TrimSpace (n_TradeNo n) /\
     fltb (paymentAmountToleranceForCurrency (PaymentOrderCurrency o))
       (fabs (fsub (q_Amount resp) (po_PayAmount o))) = false).
Proof.
  unfold confirm_guard. cbv zeta. set (expected := expectedNotificationProviderKeyForOrder _ _ _).
  intros H. destruct (_ && _) eqn:Ek in H; [done|].
  destruct (validateProviderSnapshotMetadata _ _ _) eqn:Em; [done|].
  destruct (isValidProviderAmount _) eqn:Ev; cbn [negb] in H; [|done].
  destruct (amounts_differ _ _ _) eqn:Ed in H; [done|].
  split_and!; [| |done|done|].
  - rewrite !andb_false_iff, !negb_false_iff, !bool_decide_eq_true in Ek. tauto.
  - intros s k pinned Hs Hm Hk Hne. by eapply (metadata_accepted o (n_ProviderKey n)).
  - intros He. rewrite bool_decide_true in H by done.
    apply easypay_accepted in H as (k & resp & _ & _ & Hq & Hst & _ & Hd & Ht & _). eauto.
Qed.

(** A WeChat order with a pinned merchant and currency. *)
Definition nx_order : PaymentOrder :=
  mkOrder 5 1 (f64_of_Z 20) (f64_of_Z 20) "PAY-5-1" "sub2_x" "wxpay" "" "balance" None None None
    (Some "wxpay") (Some (list_to_map [("merchant_id", AString "1900"); ("currency", AString "CNY")]))
    OrderStatusPending 0 None None None None.

Definition nx_notification (mchid : string) : notification :=
  mkNotification "420000" (f64_of_ratio false 2000 100) "wxpay"
    (list_to_map [("mchid", mchid); ("currency", "cny"); ("trade_state", "SUCCESS")]).

Example nx_refused : confirm_guard (mkConfirmEnv ∅ None None None) nx_order (nx_notification "1901") =
  Some (ErrProviderMetadata (ErrMetadataMismatch "mchid")).
Proof. by vm_compute. Qed.

Lemma notification_accepted_witness :
  EqualFold "1900" (metadata_field (n_Metadata (nx_notification " 1900")) "mchid") = true /\
  isValidProviderAmount (n_Amount (nx_notification " 1900")) = true.
Proof.
  destruct (notification_accepted (mkConfirmEnv ∅ None None None) nx_order (nx_notification " 1900"))
    as (_ & H & Hv & _); [by vm_compute|].
  split; [|exact Hv].
  apply (H (mkSnapshot 0 "" "" "" "" "1900" "CNY") "mchid" "1900").
  - vm_compute. reflexivity.
  - intros E. apply (f_equal (fun m => m !! "mchid")) in E. vm_compute in E. discriminate E.
  - apply list_elem_of_In. right. left. reflexivity.
  - intros E. vm_compute in E. discriminate E.
Defined.
