(* ===== verification/PaymentFulfillment.v ===== *)
(** * Payment fulfilment: internal/service/payment_fulfillment.go and the
    cancellation and reconciliation paths of payment_order_lifecycle.go

    One call of the payment service is a machine whose transitions are the
    stretches of code between two statements (or transactions) on the
    database: [pc] names the statement about to run with the locals that
    survive it, [advance] runs it and the code up to the next one.  Running the
    machine alone gives the sequential behaviour (PaymentFulfillmentRun.v);
    PaymentFulfillmentSafety.v interleaves many of them over one database.

    Outside this component, and arguments here: the providers' replies, the
    subscription service and the affiliate service, whose calls made inside a
    committed transaction are recorded in the database model; e-mail
    notifications, caches and log lines are left out. *)

From S2P Require Import Prelude Float64 GoTime GoAny PaymentHelpers Redeem PaymentOrder.
Local Open Scope Z_scope.

(** ** The database *)

(** A call of [assignOrExtendSubscription] made for an order. *)
Record assignment := mkAssignment {
  as_order : Z;
  as_user : Z;
  as_group : Z;
  as_days : Z;
  as_note : string;
}.

Record db := mkDb {
  d_orders : orders;
  d_redeem : redeem_store;
  d_audits : gset (Z * string);        (** order and action, a unique pair in the table *)
  d_assignments : list assignment;     (** committed assignments *)
  d_recovered : list Z;                (** orders found in a subscription's notes *)
  d_rebates : list (Z * f64);          (** committed [AccrueInviteRebateForOrder] calls *)
}.

Definition with_orders (os : orders) (d : db) : db :=
  mkDb os (d_redeem d) (d_audits d) (d_assignments d) (d_recovered d) (d_rebates d).
Definition with_redeem (st : redeem_store) (d : db) : db :=
  mkDb (d_orders d) st (d_audits d) (d_assignments d) (d_recovered d) (d_rebates d).
Definition with_audits (s : gset (Z * string)) (d : db) : db :=
  mkDb (d_orders d) (d_redeem d) s (d_assignments d) (d_recovered d) (d_rebates d).

Definition ACTION_ASSIGNED := "SUBSCRIPTION_ASSIGNED".
Definition ACTION_SUB_SUCCESS := "SUBSCRIPTION_SUCCESS".
Definition ACTION_SUCCESS := "RECHARGE_SUCCESS".
Definition ACTION_REBATE_APPLIED := "AFFILIATE_REBATE_APPLIED".
Definition ACTION_REBATE_SKIPPED := "AFFILIATE_REBATE_SKIPPED".
Definition ACTION_REBATE_FAILED := "AFFILIATE_REBATE_FAILED".

(** [writeAuditLog]: a failed insert, for whatever reason, is only logged. *)
Definition writeAuditLog (works : bool) (oid : Z) (action : string) (d : db) : db :=
  if works then with_audits ({[(oid, action)]} ∪ d_audits d) d else d.

Definition has_audit (oid : Z) (action : string) (d : db) : bool :=
  bool_decide ((oid, action) ∈ d_audits d).

(** ** Errors, and what the surroundings answer at a transition *)

Inductive FulfillError :=
| ErrLookup
| ErrOrderNotFound
| ErrNotFound
| ErrForbidden
| ErrConfirm (e : ConfirmError)
| ErrUpdatePaid
| ErrGetOrder
| ErrRefundStatus
| ErrCannotFulfill (status : string)
| ErrMissingSubscription
| ErrAcquire
| ErrReload
| ErrConflict (why : string)
| ErrCreateCode (e : RedeemError)
| ErrRedeem (e : RedeemError)
| ErrGroupInactive
| ErrAssign
| ErrRebate
| ErrMarkCompleted
| ErrNotPaid
| ErrAlreadyCompleted
| ErrCannotCancel
| ErrCancelUpdate.

Record env := mkEnv {
  v_fault : fault;                     (** the statement or transaction of the step *)
  v_now : time;                        (** [time.Now] *)
  v_at : time;                         (** the clock of ent's [updated_at] *)
  v_confirm : confirm_env;
  v_redeem : redeem_env;
  v_provider : option string;          (** key of the provider built for the order *)
  v_query : option QueryOrderResponse;
  v_again : option QueryOrderResponse;
  v_group : bool;                      (** the group exists and is active *)
  v_sub_lookup : bool;                 (** the subscription lookup works (or finds none) *)
  v_sub_notes : option string;         (** notes of the user's subscription, if any *)
  v_assign : bool;                     (** the assignment call works *)
  v_conflict : bool;                   (** the audit insert hits the unique index *)
  v_cache : bool;                      (** cache invalidation works *)
  v_affiliate : bool;                  (** the affiliate service is there *)
  v_rebate : option f64;               (** what [AccrueInviteRebateForOrder] answers *)
  v_audit : bool;                      (** best-effort audit inserts work *)
  v_reason : string;                   (** text of the error being recorded *)
}.

(** ** The program counter *)

Inductive pc :=
| AtCancelGet (by_user : option Z) (oid : Z)
| AtCheckPaid (o : PaymentOrder) (fs : option string)
| AtPersist (o : PaymentOrder) (tradeNo : string) (n : notification)
| AtNotify (ref : string) (n : notification)
| AtConfirm (oid : Z) (n : notification)
| AtToPaid (o : PaymentOrder) (n : notification)
| AtAlready (oid : Z)
| AtRetry (oid : Z)
| AtDispatch (oid : Z)
| AtFulfill (sub : bool) (oid : Z)
| AtAcquire (sub : bool) (o : PaymentOrder)
| AtAcquireLost (oid : Z)
| AtReload (sub : bool) (o : PaymentOrder)
| AtLookup (o : PaymentOrder) (version : time)
| AtCreate (o : PaymentOrder) (version : time)
| AtRedeem (o : PaymentOrder) (version : time)
| AtRedeemTx (o : PaymentOrder) (version : time) (c : RedeemCode)
| AtGroup (o : PaymentOrder) (version : time)
| AtAssign (o : PaymentOrder) (version : time)
| AtAssignCheck (o : PaymentOrder) (version : time)
| AtRebate (sub : bool) (o : PaymentOrder) (version : time)
| AtComplete (sub : bool) (o : PaymentOrder) (version : time)
| AtCompleteLost (o : PaymentOrder) (version : time)
| AtAudit (sub : bool) (o : PaymentOrder)
| AtFail (oid : Z) (version : time) (e : FulfillError)
| AtCancel (oid : Z) (fs : string)
| Finished (r : option FulfillError).

(** [HandlePaymentNotification]'s first test. *)
Definition HandlePaymentNotification (status ref : string) (n : notification) : pc :=
  if status !=? "success" then Finished None else AtNotify ref n.

(** ** The stretches of code between statements *)

Definition confirm_action (e : ConfirmError) : string :=
  match e with
  | ErrProviderMismatch => "PAYMENT_PROVIDER_MISMATCH"
  | ErrProviderMetadata _ => "PAYMENT_PROVIDER_METADATA_MISMATCH"
  | ErrInvalidPaidAmount => "PAYMENT_INVALID_AMOUNT"
  | ErrAmountMismatch => "PAYMENT_AMOUNT_MISMATCH"
  | ErrEasyPay why =>
      if (why ==? "missing trade number") || (why ==? "trade number mismatch")
      then "PAYMENT_UPSTREAM_TRADE_MISMATCH"
      else if why ==? "not paid" then "PAYMENT_UPSTREAM_NOT_PAID"
      else if why ==? "amount mismatch" then "PAYMENT_UPSTREAM_AMOUNT_MISMATCH"
      else "PAYMENT_UPSTREAM_UNCONFIRMED"
  end.

(** The orders an external number names. *)
Definition orders_by_ref (ref : string) (os : orders) : list PaymentOrder :=
  List.filter (fun o => po_OutTradeNo o ==? ref) (map_to_list os).*2.

Definition after_notify (ref : string) (n : notification) (reply : option (list PaymentOrder)) : pc :=
  match reply with
  | Some [o] => AtConfirm (po_ID o) n
  | Some [] => match parseLegacyPaymentOrderID ref true with
               | Some oid => AtConfirm oid n
               | None => Finished (Some ErrOrderNotFound)
               end
  | _ => Finished (Some ErrLookup)
  end.

(** [alreadyProcessed]. *)
Definition after_already (cur : PaymentOrder) : pc :=
  let s := po_Status cur in
  if (s ==? OrderStatusCompleted) || (s ==? OrderStatusRefunded) then Finished None
  else if (s ==? OrderStatusFailed) || (s ==? OrderStatusPaid) || (s ==? OrderStatusRecharging)
  then AtDispatch (po_ID cur)
  else Finished None.

(** The checks of [ExecuteBalanceFulfillment] and
    [ExecuteSubscriptionFulfillment] before the lease. *)
Definition after_fulfill_get (sub : bool) (o : PaymentOrder) : pc :=
  let s := po_Status o in
  if s ==? OrderStatusCompleted then Finished None
  else if psIsRefundStatus s then Finished (Some ErrRefundStatus)
  else if (s !=? OrderStatusPaid) && (s !=? OrderStatusFailed) && (s !=? OrderStatusRecharging)
  then Finished (Some (ErrCannotFulfill s))
  else if sub && match po_SubscriptionGroupID o, po_SubscriptionDays o with
                 | Some _, Some _ => false
                 | _, _ => true
                 end
  then Finished (Some ErrMissingSubscription)
  else AtAcquire sub o.

Definition after_acquire_lost (current : PaymentOrder) : pc :=
  if po_Status current ==? OrderStatusCompleted then Finished None
  else if po_Status current ==? OrderStatusRecharging
  then Finished (Some (ErrConflict "order is being processed"))
  else Finished (Some (ErrConflict "order status changed while acquiring fulfillment lease")).

Definition after_reload (sub : bool) (o claimed : PaymentOrder) : pc :=
  if po_Status claimed !=? OrderStatusRecharging
  then Finished (Some (ErrConflict "fulfillment lease was lost"))
  else if sub then AtGroup o (po_UpdatedAt claimed) else AtLookup o (po_UpdatedAt claimed).

Inductive redeemAction := redeemActionCreate | redeemActionRedeem | redeemActionSkipCompleted.

Definition resolveRedeemAction (existing : option RedeemCode) (lookupErr : bool) : redeemAction :=
  match existing with
  | None => redeemActionCreate
  | Some c => if lookupErr then redeemActionCreate
              else if IsUsed c then redeemActionSkipCompleted else redeemActionRedeem
  end.

(** [doBalance]'s switch. *)
Definition after_lookup (o : PaymentOrder) (version : time) (action : redeemAction) : pc :=
  match action with
  | redeemActionSkipCompleted => AtRebate false o version
  | redeemActionCreate => AtCreate o version
  | redeemActionRedeem => AtRedeem o version
  end.

(** The code [doBalance] creates. *)
Definition recharge_code (o : PaymentOrder) : RedeemCode :=
  mkRedeemCode 0 (po_RechargeCode o) RedeemTypeBalance (po_Amount o) StatusUnused None None ""
    zero_time None None 0.

Definition affiliateRebateBaseAmount (o : PaymentOrder) : f64 :=
  if (po_OrderType o ==? OrderTypeBalance) || (po_OrderType o ==? OrderTypeSubscription)
  then po_Amount o else f0.

(** [hasPaymentSubscriptionAssignmentAudit]. *)
Definition hasPaymentSubscriptionAssignmentAudit (oid : Z) (d : db) : bool :=
  has_audit oid ACTION_ASSIGNED d || has_audit oid ACTION_SUB_SUCCESS d.

(** [cancelCore] up to its first statement. *)
Definition cancelCore (o : PaymentOrder) (fs : string) : pc :=
  if (po_PaymentTradeNo o !=? "") || (po_PaymentType o !=? "") then AtCheckPaid o (Some fs)
  else AtCancel (po_ID o) fs.

(** [CancelOrder] (by a user) and [AdminCancelOrder]. *)
Definition after_cancel_get (by_user : option Z) (o : PaymentOrder) : pc :=
  if match by_user with Some u => negb (po_UserID o =? u) | None => false end
  then Finished (Some ErrForbidden)
  else if po_Status o !=? OrderStatusPending then Finished (Some ErrCannotCancel)
  else cancelCore o OrderStatusCancelled.

(** After the provider was asked.  A paid order is confirmed like a
    notification, and the caller then answers "already paid" whatever comes of
    it. *)
Definition after_check_paid (o : PaymentOrder) (fs : option string) (provider : string)
    (dec : check_decision) : pc :=
  match dec with
  | NotPaid => match fs with Some s => AtCancel (po_ID o) s | None => Finished None end
  | PaidUpstream tradeNo persist amount metadata =>
      let n := mkNotification tradeNo amount provider metadata in
      if persist then AtPersist o tradeNo n else AtNotify (po_OutTradeNo o) n
  end.

Definition after_retry_get (o : PaymentOrder) : pc :=
  let s := po_Status o in
  match po_PaidAt o with
  | None => Finished (Some ErrNotPaid)
  | Some _ =>
      if psIsRefundStatus s then Finished (Some ErrRefundStatus)
      else if s ==? OrderStatusCompleted then Finished (Some ErrAlreadyCompleted)
      else if (s !=? OrderStatusFailed) && (s !=? OrderStatusPaid) && (s !=? OrderStatusRecharging)
      then Finished (Some (ErrCannotFulfill s))
      else AtDispatch (po_ID o)
  end.

(** ** Transactions *)

(** The writes of an assignment: the subscription, unless its notes already
    name the order, and the audit row. *)
Definition record_assignment (recovered : bool) (o : PaymentOrder) (groupID days : Z) (d : db) : db :=
  mkDb (d_orders d) (d_redeem d) ({[(po_ID o, ACTION_ASSIGNED)]} ∪ d_audits d)
    (if recovered then d_assignments d
     else d_assignments d ++ [mkAssignment (po_ID o) (po_UserID o) groupID days
                                (paymentSubscriptionOrderNote (po_ID o))])
    (if recovered then d_recovered d ++ [po_ID o] else d_recovered d)
    (d_rebates d).

(** [ensurePaymentSubscriptionAssigned]: [Some true] when the transaction
    commits, [Some false] when its audit insert meets one committed by another
    worker, [None] for any other error. *)
Definition assign_tx (v : env) (o : PaymentOrder) (groupID days : Z) (d : db) : option bool * db :=
  match v_fault v with
  | LostBefore => (None, d)
  | fate =>
      let reply := match fate with Fine => Some true | _ => None end in
      if hasPaymentSubscriptionAssignmentAudit (po_ID o) d then (reply, d)
      else
        let orderNote := paymentSubscriptionOrderNote (po_ID o) in
        if negb (v_sub_lookup v) then (None, d)
        else
          let recovered := match v_sub_notes v with
                           | Some notes => hasPaymentSubscriptionOrderNote notes orderNote
                           | None => false
                           end in
          if negb recovered && negb (v_assign v) then (None, d)
          else if v_conflict v then (Some false, d)
          else
            (reply, record_assignment recovered o groupID days d)
  end.

(** [tryClaimAffiliateRebateAudit]. *)
Definition rebate_claimable (oid : Z) (d : db) : bool :=
  negb (has_audit oid ACTION_REBATE_APPLIED d) && negb (has_audit oid ACTION_REBATE_SKIPPED d).

(** [applyAffiliateRebateForOrder]: whether it returns nil.  The claim, the
    accrual and the final audit are one transaction; the audit of a failure is
    written outside it. *)
Definition applyAffiliateRebateForOrder (v : env) (o : PaymentOrder) (d : db) : bool * db :=
  let baseAmount := affiliateRebateBaseAmount o in
  let failed d := (false, writeAuditLog (v_audit v) (po_ID o) ACTION_REBATE_FAILED d) in
  if fleb baseAmount f0 then (true, d)
  else if negb (v_affiliate v) then (true, d)
  else match v_fault v with
  | LostBefore => failed d
  | fate =>
      if negb (rebate_claimable (po_ID o) d) then (true, d)
      else match v_rebate v with
      | None => failed d
      | Some rebateAmount =>
          let action := if fleb rebateAmount f0 then ACTION_REBATE_SKIPPED else ACTION_REBATE_APPLIED in
          let d' := mkDb (d_orders d) (d_redeem d) ({[(po_ID o, action)]} ∪ d_audits d)
                      (d_assignments d) (d_recovered d) (d_rebates d ++ [(po_ID o, baseAmount)]) in
          match fate with Fine => (true, d') | _ => failed d' end
      end
  end.

(** A statement that updates orders: the rows changed, [None] for an error,
    and the database. *)
Definition update_orders (v : env) (id : Z) (cond : PaymentOrder -> bool)
    (f : PaymentOrder -> PaymentOrder) (d : db) : option Z * db :=
  let '(c, os) := update_where id cond f (d_orders d) in
  match v_fault v with
  | Fine => (Some c, with_orders os d)
  | LostBefore => (None, d)
  | LostAfter => (None, with_orders os d)
  end.

(** [PaymentOrder.Get]. *)
Definition get_order (v : env) (id : Z) (d : db) : option PaymentOrder :=
  match v_fault v with Fine => d_orders d !! id | _ => None end.

(** ** One transition *)

Definition do_confirm (v : env) (oid : Z) (n : notification) (d : db) : pc * db :=
  match get_order v oid d with
  | None => (Finished None, d)
  | Some o =>
      match confirm_guard (v_confirm v) o n with
      | Some e => (Finished (Some (ErrConfirm e)),
                   writeAuditLog (v_audit v) oid (confirm_action e) d)
      | None => (AtToPaid o n, d)
      end
  end.

Definition toPaid (v : env) (o : PaymentOrder) (n : notification) (d : db) : pc * db :=
  match update_orders v (po_ID o) (can_pay (v_now v))
          (pay (v_now v) (v_at v) (n_Amount n) (n_TradeNo n)) d with
  | (None, d') => (Finished (Some ErrUpdatePaid), d')
  | (Some c, d') =>
      if c =? 0 then (AtAlready (po_ID o), d')
      else
        let d' := if (po_Status o ==? OrderStatusCancelled) || (po_Status o ==? OrderStatusExpired)
                  then writeAuditLog (v_audit v) (po_ID o) "ORDER_RECOVERED" d' else d' in
        (AtDispatch (po_ID o), writeAuditLog (v_audit v) (po_ID o) "ORDER_PAID" d')
  end.

Definition alreadyProcessed (v : env) (oid : Z) (d : db) : pc * db :=
  match get_order v oid d with
  | None => (Finished None, d)
  | Some cur => (after_already cur,
                 if po_Status cur ==? OrderStatusExpired
                 then writeAuditLog (v_audit v) oid "PAYMENT_AFTER_EXPIRY" d else d)
  end.

Definition acquire (v : env) (sub : bool) (o : PaymentOrder) (d : db) : pc * db :=
  match update_orders v (po_ID o) (can_lease (v_now v)) (lease (v_now v)) d with
  | (None, d') => (Finished (Some ErrAcquire), d')
  | (Some c, d') => (if c =? 0 then AtAcquireLost (po_ID o) else AtReload sub o, d')
  end.

Definition create_code (v : env) (o : PaymentOrder) (version : time) (d : db) : pc * db :=
  let failed e := AtFail (po_ID o) version (ErrCreateCode e) in
  match v_fault v, CreateCode (v_now v) (recharge_code o) (d_redeem d) with
  | LostBefore, _ => (failed (ErrRedeemStore "create redeem code"), d)
  | LostAfter, (_, st) => (failed (ErrRedeemStore "create redeem code"), with_redeem st d)
  | Fine, (Err e, st) => (failed e, with_redeem st d)
  | Fine, (Ok _, st) => (AtRedeem o version, with_redeem st d)
  end.

Definition begin_redeem (v : env) (o : PaymentOrder) (version : time) (d : db) : pc * db :=
  match redeem_begin (v_redeem v) (po_UserID o) (po_RechargeCode o) (d_redeem d) with
  | (Err e, st) => (AtFail (po_ID o) version (ErrRedeem e), with_redeem st d)
  | (Ok c, st) => (AtRedeemTx o version c, with_redeem st d)
  end.

(** The affiliate rebate of the redemption itself is skipped
    ([ContextSkipRedeemAffiliate]). *)
Definition commit_redeem (v : env) (o : PaymentOrder) (version : time) (c : RedeemCode) (d : db)
    : pc * db :=
  match redeem_tx (v_redeem v) (po_UserID o) c (d_redeem d) with
  | (Some e, st) => (AtFail (po_ID o) version (ErrRedeem e), with_redeem st d)
  | (None, st) =>
      match redeem_finish (v_redeem v) true (po_UserID o) c st with
      | (Err e, st') => (AtFail (po_ID o) version (ErrRedeem e), with_redeem st' d)
      | (Ok _, st') => (AtRebate false o version, with_redeem st' d)
      end
  end.

Definition invalidate_caches (v : env) (o : PaymentOrder) (version : time) : pc :=
  if v_cache v then AtRebate true o version else AtFail (po_ID o) version ErrAssign.

Definition assign (v : env) (o : PaymentOrder) (version : time) (d : db) : pc * db :=
  match assign_tx v o (default 0 (po_SubscriptionGroupID o)) (default 0 (po_SubscriptionDays o)) d with
  | (None, d') => (AtFail (po_ID o) version ErrAssign, d')
  | (Some false, d') => (AtAssignCheck o version, d')
  | (Some true, d') => (invalidate_caches v o version, d')
  end.

Definition assign_check (v : env) (o : PaymentOrder) (version : time) (d : db) : pc * db :=
  match v_fault v with
  | Fine => if hasPaymentSubscriptionAssignmentAudit (po_ID o) d
            then (invalidate_caches v o version, d)
            else (AtFail (po_ID o) version ErrAssign, d)
  | _ => (AtFail (po_ID o) version ErrAssign, d)
  end.

Definition rebate (v : env) (sub : bool) (o : PaymentOrder) (version : time) (d : db) : pc * db :=
  match applyAffiliateRebateForOrder v o d with
  | (true, d') => (AtComplete sub o version, d')
  | (false, d') => (AtFail (po_ID o) version ErrRebate, d')
  end.

Definition markCompleted (v : env) (sub : bool) (o : PaymentOrder) (version : time) (d : db) : pc * db :=
  match update_orders v (po_ID o) (holds_lease version) (complete (v_now v) (v_at v)) d with
  | (None, d') => (AtFail (po_ID o) version ErrMarkCompleted, d')
  | (Some c, d') => (if c =? 0 then AtCompleteLost o version else AtAudit sub o, d')
  end.

Definition complete_lost (v : env) (o : PaymentOrder) (version : time) (d : db) : pc * db :=
  match get_order v (po_ID o) d with
  | Some current =>
      if po_Status current ==? OrderStatusCompleted then (Finished None, d)
      else (AtFail (po_ID o) version (ErrConflict "fulfillment lease was lost before completion"), d)
  | None => (AtFail (po_ID o) version (ErrConflict "fulfillment lease was lost before completion"), d)
  end.

(** The error being returned is returned whatever becomes of the update. *)
Definition markFailed (v : env) (oid : Z) (version : time) (e : FulfillError) (d : db) : pc * db :=
  match update_orders v oid (holds_lease version) (fail (v_now v) (v_at v) (v_reason v)) d with
  | (Some c, d') => (Finished (Some e),
                     if 0 <? c then writeAuditLog (v_audit v) oid "FULFILLMENT_FAILED" d' else d')
  | (None, d') => (Finished (Some e), d')
  end.

Definition cancel_update (v : env) (oid : Z) (fs : string) (d : db) : pc * db :=
  match update_orders v oid can_cancel (set_status fs (v_at v)) d with
  | (None, d') => (Finished (Some ErrCancelUpdate), d')
  | (Some c, d') =>
      (Finished None,
       if 0 <? c then writeAuditLog (v_audit v) oid
                        (if fs ==? OrderStatusExpired then "ORDER_EXPIRED" else "ORDER_CANCELLED") d'
       else d')
  end.

Definition advance (v : env) (p : pc) (d : db) : pc * db :=
  match p with
  | AtCancelGet by_user oid =>
      (match get_order v oid d with
       | None => Finished (Some ErrNotFound)
       | Some o => after_cancel_get by_user o
       end, d)
  | AtCheckPaid o fs =>
      (after_check_paid o fs (default "" (v_provider v))
         (checkPaidWithOptions o (v_provider v) (v_query v) (v_again v)), d)
  | AtPersist o tradeNo n =>
      (AtNotify (po_OutTradeNo o) n,
       (update_orders v (po_ID o) (fun _ => true) (set_trade_no tradeNo (v_at v)) d).2)
  | AtNotify ref n =>
      (after_notify ref n (match v_fault v with
                           | Fine => Some (orders_by_ref ref (d_orders d))
                           | _ => None
                           end), d)
  | AtConfirm oid n => do_confirm v oid n d
  | AtToPaid o n => toPaid v o n d
  | AtAlready oid => alreadyProcessed v oid d
  | AtRetry oid =>
      match get_order v oid d with
      | None => (Finished (Some ErrNotFound), d)
      | Some o => (after_retry_get o,
                   match after_retry_get o with
                   | AtDispatch _ => writeAuditLog (v_audit v) oid "RECHARGE_RETRY" d
                   | _ => d
                   end)
      end
  | AtDispatch oid =>
      (match get_order v oid d with
       | None => Finished (Some ErrGetOrder)
       | Some o => AtFulfill (is_sub o) oid
       end, d)
  | AtFulfill sub oid =>
      (match get_order v oid d with
       | None => Finished (Some ErrNotFound)
       | Some o => after_fulfill_get sub o
       end, d)
  | AtAcquire sub o => acquire v sub o d
  | AtAcquireLost oid =>
      (match get_order v oid d with
       | None => Finished (Some ErrReload)
       | Some current => after_acquire_lost current
       end, d)
  | AtReload sub o =>
      (match get_order v (po_ID o) d with
       | None => Finished (Some ErrReload)
       | Some claimed => after_reload sub o claimed
       end, d)
  | AtLookup o version =>
      (after_lookup o version
         (resolveRedeemAction (repo_GetByCode (po_RechargeCode o) (d_redeem d))
            (negb (bool_decide (v_fault v = Fine)))), d)
  | AtCreate o version => create_code v o version d
  | AtRedeem o version => begin_redeem v o version d
  | AtRedeemTx o version c => commit_redeem v o version c d
  | AtGroup o version =>
      (if v_group v then AtAssign o version else AtFail (po_ID o) version ErrGroupInactive, d)
  | AtAssign o version => assign v o version d
  | AtAssignCheck o version => assign_check v o version d
  | AtRebate sub o version => rebate v sub o version d
  | AtComplete sub o version => markCompleted v sub o version d
  | AtCompleteLost o version => complete_lost v o version d
  | AtAudit sub o =>
      (Finished None, writeAuditLog (v_audit v) (po_ID o)
                        (if sub then ACTION_SUB_SUCCESS else ACTION_SUCCESS) d)
  | AtFail oid version e => markFailed v oid version e d
  | AtCancel oid fs => cancel_update v oid fs d
  | Finished r => (Finished r, d)
  end.

(** ** Running a call alone *)

(** The transitions a call has left, at most; every one costs at least one. *)
Definition rank (p : pc) : nat :=
  match p with
  | AtCancelGet _ _ => 22 | AtCheckPaid _ _ => 21 | AtPersist _ _ _ => 20 | AtNotify _ _ => 19
  | AtConfirm _ _ => 18 | AtToPaid _ _ => 17 | AtAlready _ => 16 | AtRetry _ => 16
  | AtDispatch _ => 15 | AtFulfill _ _ => 14 | AtAcquire _ _ => 13 | AtAcquireLost _ => 1
  | AtReload _ _ => 12 | AtLookup _ _ => 11 | AtCreate _ _ => 10 | AtRedeem _ _ => 9
  | AtRedeemTx _ _ _ => 8 | AtGroup _ _ => 11 | AtAssign _ _ => 9 | AtAssignCheck _ _ => 8
  | AtRebate _ _ _ => 7 | AtComplete _ _ _ => 6 | AtCompleteLost _ _ => 5 | AtAudit _ _ => 1
  | AtFail _ _ _ => 1 | AtCancel _ _ => 1 | Finished _ => 0
  end%nat.

(** The surroundings of the n-th transition are [vs n]. *)
Fixpoint run (fuel : nat) (vs : nat -> env) (p : pc) (d : db) : pc * db :=
  match fuel with
  | O => (p, d)
  | S n => match p with
           | Finished _ => (p, d)
           | _ => let '(p', d') := advance (vs n) p d in run n vs p' d'
           end
  end.

(** ** Every call ends *)

Ltac rank_step := repeat case_match; simplify_eq/=; lia.

Lemma pay_advance_rank v p d : (rank p = 0 \/ rank (advance v p d).1 < rank p)%nat.
Proof.
  destruct p; cbn [advance rank fst]; try (left; reflexivity); right.
  - destruct (get_order v oid d) as [o|]; [|cbn; lia].
    unfold after_cancel_get, cancelCore. rank_step.
  - unfold after_check_paid. rank_step.
  - cbn; lia.
  - unfold after_notify. rank_step.
  - unfold do_confirm. rank_step.
  - unfold toPaid. destruct (update_orders _ _ _ _ _) as [[c|] d']; [|cbn; lia].
    destruct (c =? 0); cbn; lia.
  - unfold alreadyProcessed, after_already. rank_step.
  - destruct (get_order v oid d) as [o|]; [|cbn; lia].
    cbn [fst]. unfold after_retry_get. rank_step.
  - rank_step.
  - unfold after_fulfill_get. rank_step.
  - unfold acquire. destruct (update_orders _ _ _ _ _) as [[c|] d']; [|cbn; lia].
    destruct (c =? 0); cbn; lia.
  - unfold after_acquire_lost. rank_step.
  - unfold after_reload. rank_step.
  - destruct (resolveRedeemAction _ _); cbn; lia.
  - unfold create_code. destruct (CreateCode _ _ _) as [[] st], (v_fault v); cbn; lia.
  - unfold begin_redeem. destruct (redeem_begin _ _ _ _) as [[] st]; cbn; lia.
  - unfold commit_redeem. destruct (redeem_tx _ _ _ _) as [[e|] st]; [cbn; lia|].
    destruct (redeem_finish _ _ _ _ _) as [[] st']; cbn; lia.
  - destruct (v_group v); cbn; lia.
  - unfold assign, invalidate_caches. destruct (assign_tx _ _ _ _ _) as [[[]|] d'];
      destruct (v_cache v); cbn; lia.
  - unfold assign_check, invalidate_caches. rank_step.
  - unfold rebate. destruct (applyAffiliateRebateForOrder _ _ _) as [[] d']; cbn; lia.
  - unfold markCompleted. destruct (update_orders _ _ _ _ _) as [[c|] d']; [|cbn; lia].
    destruct (c =? 0); cbn; lia.
  - unfold complete_lost. rank_step.
  - cbn; lia.
  - unfold markFailed. destruct (update_orders _ _ _ _ _) as [[c|] d']; cbn; lia.
  - unfold cancel_update. destruct (update_orders _ _ _ _ _) as [[c|] d']; cbn; lia.
Qed.

Lemma rank_0 p : rank p = 0%nat -> exists r, p = Finished r.
Proof. destruct p; try done. eauto. Qed.

Lemma run_Finished fuel vs r d : run fuel vs (Finished r) d = (Finished r, d).
Proof. by destruct fuel. Qed.

(** Whatever the database holds, the providers answer and the statements
    do, a call of the payment service comes to an end, after at most as many
    transitions as its rank. *)
Theorem call_terminates vs p d : exists r, (run (rank p) vs p d).1 = Finished r.
Proof.
  assert (forall n p d, rank p <= n -> exists r, (run n vs p d).1 = Finished r)%nat as H; [|auto].
  clear. intros n. induction n as [|n IH]; intros p d Hr.
  - destruct (rank_0 p) as [r ->]; [lia|]. by exists r.
  - destruct (decide (rank p = 0%nat)) as [E|E].
    { destruct (rank_0 p E) as [r ->]. by exists r. }
    destruct (pay_advance_rank (vs n) p d) as [?|Hlt]; [lia|].
    assert (run (S n) vs p d = run n vs (advance (vs n) p d).1 (advance (vs n) p d).2) as ->.
    { cbn [run]. destruct p; try (by destruct E); by destruct (advance _ _ _). }
    apply IH. lia.
Qed.
