(* ===== verification/PaymentFulfillmentSafety.v ===== *)
(** * Many payment calls over one database

    Notifications, retries, cancellations, reconciliations and plain
    redemptions interleave one statement or transaction at a time; a statement
    may fail, with or without having taken effect; a call that is never
    scheduled again has crashed; orders and codes are created at any moment.
    Anyone may redeem any code; a refund may move an order that was completed
    among the refund statuses (what it takes back is RefundSafety's).  Whatever
    happens, an order's money is credited at most once, an order is only
    completed after it was delivered, and its status follows the graph
    [status_edges] until it is completed.

    Not steps of this world: the administration of existing codes and
    subscriptions, and the failure mark of an order's creation
    (payment_order.go), which is written whatever the status has become. *)

From S2P Require Import Prelude Float64 GoTime GoAny PaymentHelpers Redeem PaymentOrder.
From S2P Require Import PaymentFulfillment.
Local Open Scope Z_scope.

(** ** The world *)

(** A redemption by a user, between its two statements and after them. *)
Inductive use :=
| UseBegin (uid : Z) (code : string)
| UseTx (uid : Z) (c : RedeemCode)
| UseDone (uid : Z) (code : string).

(** Who presented which code. *)
Definition use_of (u : use) : Z * string :=
  match u with
  | UseBegin uid code | UseDone uid code => (uid, code)
  | UseTx uid c => (uid, rc_Code c)
  end.

Record world := mkWorld {
  w_db : db;
  w_calls : list pc;
  w_uses : list use;
}.

Definition cancel_statuses : list string := [OrderStatusCancelled; OrderStatusExpired].

(** Where a call of the payment service may begin. *)
Definition starts (d : db) (p : pc) : Prop :=
  match p with
  | AtNotify _ _ | AtRetry _ | AtCancelGet _ _ => True
  | AtCheckPaid o fs => d_orders d !! po_ID o = Some o /\ forall s, fs = Some s -> s ∈ cancel_statuses
  | _ => False
  end.

(** A user redeemed the code, or tried to. *)
Definition presented_in (w : world) (uid : Z) (code : string) : Prop :=
  exists j u, w_uses w !! j = Some u /\ use_of u = (uid, code).

(** A new order gets an id and a recharge code nobody has seen. *)
Definition fresh_order (w : world) (o : PaymentOrder) : Prop :=
  d_orders (w_db w) !! po_ID o = None /\ po_Status o = OrderStatusPending /\
  TrimSpace (po_RechargeCode o) = po_RechargeCode o /\
  (forall i o', d_orders (w_db w) !! i = Some o' -> po_RechargeCode o' <> po_RechargeCode o) /\
  (forall i c, codes (d_redeem (w_db w)) !! i = Some c -> rc_Code c <> po_RechargeCode o).

(** An administrator creates a code other than an order's. *)
Definition foreign_code (d : db) (c : RedeemCode) : Prop :=
  rc_Status c <> StatusUsed /\
  forall i o, d_orders d !! i = Some o -> po_RechargeCode o <> TrimSpace (rc_Code c).

Definition use_step (renv : redeem_env) (skip : bool) (u : use) (st : redeem_store)
    : use * redeem_store :=
  match u with
  | UseBegin uid code =>
      match redeem_begin renv uid code st with
      | (Ok c, st') => (UseTx uid c, st')
      | (Err _, st') => (UseDone uid code, st')
      end
  | UseTx uid c =>
      match redeem_tx renv uid c st with
      | (None, st') => (UseDone uid (rc_Code c), (redeem_finish renv skip uid c st').2)
      | (Some _, st') => (UseDone uid (rc_Code c), st')
      end
  | UseDone uid code => (UseDone uid code, st)
  end.

Inductive step : world -> world -> Prop :=
| step_start w p :
    starts (w_db w) p -> step w (mkWorld (w_db w) (w_calls w ++ [p]) (w_uses w))
| step_call w i p v :
    w_calls w !! i = Some p ->
    step w (mkWorld (advance v p (w_db w)).2 (<[i := (advance v p (w_db w)).1]> (w_calls w)) (w_uses w))
| step_use_start w uid code :
    step w (mkWorld (w_db w) (w_calls w) (w_uses w ++ [UseBegin uid code]))
| step_use w i u renv skip :
    w_uses w !! i = Some u ->
    step w (mkWorld (with_redeem (use_step renv skip u (d_redeem (w_db w))).2 (w_db w)) (w_calls w)
              (<[i := (use_step renv skip u (d_redeem (w_db w))).1]> (w_uses w)))
| step_refund w i o o' :
    d_orders (w_db w) !! i = Some o -> sold (po_Status o) = true -> sold (po_Status o') = true -> sale o' = sale o ->
    step w (mkWorld (with_orders (<[i := o']> (d_orders (w_db w))) (w_db w)) (w_calls w) (w_uses w))
| step_new_order w o :
    fresh_order w o ->
    step w (mkWorld (with_orders (<[po_ID o := o]> (d_orders (w_db w))) (w_db w)) (w_calls w) (w_uses w))
| step_new_code w now c :
    foreign_code (w_db w) c ->
    step w (mkWorld (with_redeem (CreateCode now c (d_redeem (w_db w))).2 (w_db w)) (w_calls w) (w_uses w)).

(** ** The invariant *)

(** The grant of an order's amount to a user; the one the order pays for. *)
Definition grant_to (uid : Z) (o : PaymentOrder) : grant :=
  if fltb (po_Amount o) f0 then ApplyRedeemBalanceAdjustment uid (po_Amount o)
  else UpdateBalance uid (po_Amount o).

Definition sale_grant (o : PaymentOrder) : grant := grant_to (po_UserID o) o.

Definition balance_delivered (d : db) (o : PaymentOrder) : Prop :=
  exists i c, codes (d_redeem d) !! i = Some c /\ rc_Code c = po_RechargeCode o /\
              rc_Status c = StatusUsed.

Definition sub_delivered (d : db) (o : PaymentOrder) : Prop :=
  po_ID o ∈ as_order <$> d_assignments d \/ po_ID o ∈ d_recovered d.

Definition delivered (d : db) (o : PaymentOrder) : Prop :=
  if is_sub o then sub_delivered d o else balance_delivered d o.

(** An assignment made for an order is the one the order paid for. *)
Definition assignment_of (o : PaymentOrder) (a : assignment) : Prop :=
  as_user a = po_UserID o /\ po_SubscriptionGroupID o = Some (as_group a) /\
  po_SubscriptionDays o = Some (as_days a).

Section Statements.
(** Which users presented which codes. *)
Context {presented : Z -> string -> Prop}.

(** A grant through an order's code: to its user, or to one who presented the
    code. *)
Definition granted (o : PaymentOrder) (g : grant) : Prop :=
  exists uid, (uid = po_UserID o \/ presented uid (po_RechargeCode o)) /\ g = grant_to uid o.

Lemma granted_sale o o' g : sale o = sale o' -> granted o g -> granted o' g.
Proof.
  intros H (uid & Hu & ->). exists uid. unfold grant_to, sale in *.
  injection H as _ E1 E2 E3 _ _ _. by rewrite <- E1, <- E2, <- E3.
Qed.

Record db_ok (d : db) : Prop := {
  dok_redeem : redeem_ok (d_redeem d);
  dok_id i o : d_orders d !! i = Some o -> po_ID o = i /\ TrimSpace (po_RechargeCode o) = po_RechargeCode o;
  dok_codes i j o o' : d_orders d !! i = Some o -> d_orders d !! j = Some o' ->
    po_RechargeCode o = po_RechargeCode o' -> i = j;
  dok_row i o j c : d_orders d !! i = Some o -> codes (d_redeem d) !! j = Some c ->
    rc_Code c = po_RechargeCode o -> rc_Type c = RedeemTypeBalance /\ rc_Value c = po_Amount o;
  dok_grant i o j c g : d_orders d !! i = Some o -> codes (d_redeem d) !! j = Some c ->
    rc_Code c = po_RechargeCode o -> (j, g) ∈ grants (d_redeem d) -> granted o g;
  dok_assigned i : (i, ACTION_ASSIGNED) ∈ d_audits d \/ (i, ACTION_SUB_SUCCESS) ∈ d_audits d ->
    i ∈ as_order <$> d_assignments d \/ i ∈ d_recovered d;
  dok_assign_once : NoDup (as_order <$> d_assignments d);
  dok_assign_audit i : i ∈ as_order <$> d_assignments d -> (i, ACTION_ASSIGNED) ∈ d_audits d;
  dok_assign_order a : a ∈ d_assignments d ->
    exists o, d_orders d !! as_order a = Some o /\ assignment_of o a;
  dok_rebate_once : NoDup (d_rebates d).*1;
  dok_rebate_audit i : i ∈ (d_rebates d).*1 ->
    (i, ACTION_REBATE_APPLIED) ∈ d_audits d \/ (i, ACTION_REBATE_SKIPPED) ∈ d_audits d;
  dok_completed i o : d_orders d !! i = Some o -> sold (po_Status o) = true -> delivered d o;
}.

(** What a call knows: the order it works on is in the database, as sold. *)
Definition known (d : db) (o : PaymentOrder) : Prop :=
  exists o', d_orders d !! po_ID o = Some o' /\ sale o' = sale o.

Definition has_plan (o : PaymentOrder) : Prop :=
  is_Some (po_SubscriptionGroupID o) /\ is_Some (po_SubscriptionDays o).

(** The parts of a code's row that no statement here changes. *)
Definition same_code (c c' : RedeemCode) : Prop :=
  rc_ID c' = rc_ID c /\ rc_Code c' = rc_Code c /\ rc_Type c' = rc_Type c /\
  rc_Value c' = rc_Value c /\ (rc_Status c = StatusUsed -> rc_Status c' = StatusUsed).

Definition held (d : db) (c : RedeemCode) : Prop :=
  exists c', codes (d_redeem d) !! rc_ID c = Some c' /\ rc_Code c' = rc_Code c /\
    rc_Type c' = rc_Type c /\ rc_Value c' = rc_Value c.

Definition pc_ok (d : db) (p : pc) : Prop :=
  match p with
  | AtCheckPaid _ (Some fs) | AtCancel _ fs => fs ∈ cancel_statuses
  | AtFulfill sub oid => exists o, d_orders d !! oid = Some o /\ is_sub o = sub
  | AtAcquire sub o | AtReload sub o => known d o /\ is_sub o = sub /\ (sub = true -> has_plan o)
  | AtLookup o _ | AtCreate o _ | AtRedeem o _ => known d o /\ is_sub o = false
  | AtRedeemTx o _ c => known d o /\ is_sub o = false /\ held d c /\ rc_Code c = po_RechargeCode o
  | AtGroup o _ | AtAssign o _ | AtAssignCheck o _ => known d o /\ is_sub o = true /\ has_plan o
  | AtRebate sub o _ | AtComplete sub o _ | AtAudit sub o =>
      known d o /\ is_sub o = sub /\ delivered d o
  | _ => True
  end.

Definition use_ok (d : db) (u : use) : Prop :=
  match u with
  | UseTx uid c => held d c
  | _ => True
  end.

(** ** How the database evolves *)

Record ext (d d' : db) : Prop := {
  ext_orders i o : d_orders d !! i = Some o ->
    exists o', d_orders d' !! i = Some o' /\ sale o' = sale o /\ edge (po_Status o) (po_Status o');
  ext_codes i c : codes (d_redeem d) !! i = Some c ->
    exists c', codes (d_redeem d') !! i = Some c' /\ same_code c c';
  ext_assigned i : i ∈ as_order <$> d_assignments d -> i ∈ as_order <$> d_assignments d';
  ext_recovered i : i ∈ d_recovered d -> i ∈ d_recovered d';
}.

Lemma same_code_refl c : same_code c c.
Proof. by unfold same_code. Qed.

Lemma ext_refl d : ext d d.
Proof. split; eauto using edge_refl, same_code_refl. Qed.
#[local] Hint Resolve ext_refl same_code_refl edge_refl : go.

Lemma sale_ID o o' : sale o = sale o' -> po_ID o = po_ID o'.
Proof. unfold sale. intros [=]. congruence. Qed.
Lemma sale_code o o' : sale o = sale o' -> po_RechargeCode o = po_RechargeCode o'.
Proof. unfold sale. intros [=]. congruence. Qed.

Lemma known_ext d d' o : ext d d' -> known d o -> known d' o.
Proof.
  intros He (o' & Ho & Hs). destruct (ext_orders _ _ He _ _ Ho) as (o'' & Ho' & Hs' & _).
  exists o''. split; [done|congruence].
Qed.

Lemma held_ext d d' c : ext d d' -> held d c -> held d' c.
Proof.
  intros He (c' & Hc & E1 & E2 & E3). destruct (ext_codes _ _ He _ _ Hc) as (c'' & Hc' & H).
  exists c''. destruct H as (_ & F1 & F2 & F3 & _). split_and!; congruence.
Qed.

Lemma delivered_ext d d' o : ext d d' -> delivered d o -> delivered d' o.
Proof.
  intros He. unfold delivered. destruct (is_sub o).
  - intros [H|H]; [left; by apply (ext_assigned _ _ He)|right; by apply (ext_recovered _ _ He)].
  - intros (i & c & Hc & Ec & Es). destruct (ext_codes _ _ He _ _ Hc) as (c' & Hc' & H).
    destruct H as (_ & E & _ & _ & Hu). exists i, c'. split_and!; [done|congruence|auto].
Qed.

Lemma delivered_sale d o o' : sale o = sale o' -> delivered d o -> delivered d o'.
Proof.
  intros H. pose proof (sale_ID _ _ H) as Hi. pose proof (sale_code _ _ H) as Hc.
  unfold delivered, sub_delivered, balance_delivered. rewrite (sale_sub _ _ H), Hi, Hc. done.
Qed.

Lemma pc_ok_ext d d' p : ext d d' -> pc_ok d p -> pc_ok d' p.
Proof.
  intros He. destruct p; cbn [pc_ok]; try done;
    try (intros (H & H2); split; [by eapply known_ext|done]; fail).
  - intros (o & Ho & Hs). destruct (ext_orders _ _ He _ _ Ho) as (o' & Ho' & Hs' & _).
    exists o'. split; [done|]. by rewrite (sale_sub _ _ Hs').
  - intros (H & H2 & H3 & H4). split_and!; [by eapply known_ext|done|by eapply held_ext|done].
  - intros (H & H2 & H3). split_and!; [by eapply known_ext|done|by eapply delivered_ext].
  - intros (H & H2 & H3). split_and!; [by eapply known_ext|done|by eapply delivered_ext].
  - intros (H & H2 & H3). split_and!; [by eapply known_ext|done|by eapply delivered_ext].
Qed.

(** ** Statements keep the invariant *)

Lemma audit_ext b i a d d' : ext d d' -> ext d (writeAuditLog b i a d').
Proof. intros H. destruct b; [|done]. split; apply H. Qed.

(** Any action may be recorded; the two that say a subscription was assigned
    only for an order that was delivered. *)
Lemma audit_ok b i a d :
  ((a = ACTION_ASSIGNED \/ a = ACTION_SUB_SUCCESS) ->
   i ∈ as_order <$> d_assignments d \/ i ∈ d_recovered d) ->
  db_ok d -> db_ok (writeAuditLog b i a d).
Proof.
  intros Ha Hok. destruct b; [|done].
  split; cbn [writeAuditLog with_audits d_orders d_redeem d_audits d_assignments d_recovered d_rebates];
    try apply Hok.
  - intros j. rewrite !elem_of_union, !elem_of_singleton.
    intros [[H|H]|[H|H]]; [injection H as -> <-; auto| |injection H as -> <-; auto|];
      apply (dok_assigned d Hok); auto.
  - intros j Hj. apply elem_of_union_r. by apply (dok_assign_audit d Hok).
  - intros j Hj. destruct (dok_rebate_audit d Hok j Hj); [left|right]; by apply elem_of_union_r.
Qed.

(** The actions written outside the assignment. *)
Ltac plain_audit := let H := fresh in intros [H|H]; by vm_compute in H.

Lemma update_where_spec id cond f os :
  (update_where id cond f os = (0, os) /\ (forall o, os !! id = Some o -> cond o = false)) \/
  (exists o, os !! id = Some o /\ cond o = true /\ update_where id cond f os = (1, <[id := f o]> os)).
Proof.
  unfold update_where. destruct (os !! id) as [o|] eqn:E; [|left; split; [done|by intros ? [=]]].
  destruct (cond o) eqn:Ec; [right; eauto|left]. split; [done|]. by intros ? [= <-].
Qed.

Lemma set_order_ok d id o o' :
  db_ok d -> d_orders d !! id = Some o -> sale o' = sale o -> edge (po_Status o) (po_Status o') ->
  (sold (po_Status o') = true -> delivered d o) ->
  db_ok (with_orders (<[id := o']> (d_orders d)) d) /\
  ext d (with_orders (<[id := o']> (d_orders d)) d).
Proof.
  intros Hok Ho Hs He Hd.
  assert (forall i x, <[id := o']> (d_orders d) !! i = Some x ->
            exists y, d_orders d !! i = Some y /\ sale x = sale y) as Hback.
  { intros i x Hx. apply lookup_insert_Some in Hx as [[<- <-]|[_ Hx]]; eauto. }
  assert (forall i x, d_orders d !! i = Some x -> exists y, <[id := o']> (d_orders d) !! i = Some y /\
            sale y = sale x /\ edge (po_Status x) (po_Status y)) as Hforth.
  { intros i x Hx. destruct (decide (id = i)) as [<-|Hne].
    - rewrite Ho in Hx. injection Hx as <-. exists o'. by rewrite lookup_insert_eq.
    - exists x. rewrite lookup_insert_ne by done. eauto with go. }
  split; [|split; cbn; eauto with go].
  split; cbn [with_orders d_orders d_redeem d_audits d_assignments d_recovered d_rebates]; try apply Hok.
  - intros i x Hx. destruct (Hback i x Hx) as (y & Hy & Hxy).
    rewrite (sale_ID _ _ Hxy), (sale_code _ _ Hxy). by apply (dok_id d Hok).
  - intros i j x x' Hx Hx'. destruct (Hback i x Hx) as (y & Hy & Hxy), (Hback j x' Hx') as (y' & Hy' & Hxy').
    rewrite (sale_code _ _ Hxy), (sale_code _ _ Hxy'). by eapply dok_codes.
  - intros i x j c Hx Hc. destruct (Hback i x Hx) as (y & Hy & Hxy).
    rewrite (sale_code _ _ Hxy). intros Ec. replace (po_Amount x) with (po_Amount y);
      [exact (dok_row d Hok _ _ _ _ Hy Hc Ec)|]. unfold sale in Hxy. by injection Hxy.
  - intros i x j c g Hx Hc. destruct (Hback i x Hx) as (y & Hy & Hxy).
    rewrite (sale_code _ _ Hxy). intros Ec Hg.
    exact (granted_sale _ _ _ (eq_sym Hxy) (dok_grant d Hok _ _ _ _ _ Hy Hc Ec Hg)).
  - intros a Ha. destruct (dok_assign_order d Hok a Ha) as (x & Hx & Hax).
    destruct (Hforth _ _ Hx) as (y & Hy & Hyx & _). exists y. split; [done|].
    unfold assignment_of in *. unfold sale in Hyx. injection Hyx as _ E1 _ _ _ E2 E3. congruence.
  - intros i x Hx Hc. apply lookup_insert_Some in Hx as [[<- <-]|[_ Hx]].
    + exact (delivered_sale d o o' (eq_sym Hs) (Hd Hc)).
    + exact (dok_completed d Hok i x Hx Hc).
Qed.

Lemma update_orders_ok v id cond f d :
  db_ok d -> (forall o, sale (f o) = sale o) ->
  (forall o, d_orders d !! id = Some o -> cond o = true -> edge (po_Status o) (po_Status (f o)) /\
     (sold (po_Status (f o)) = true -> delivered d o)) ->
  db_ok (update_orders v id cond f d).2 /\ ext d (update_orders v id cond f d).2.
Proof.
  intros Hok Hf Hc. unfold update_orders.
  assert (with_orders (d_orders d) d = d) as Eid by (by destruct d).
  destruct (update_where_spec id cond f (d_orders d)) as [[-> _]|(o & Ho & Hco & ->)].
  - destruct (v_fault v); cbn [snd]; rewrite ?Eid; eauto with go.
  - destruct (Hc o Ho Hco) as [He Hd].
    destruct (set_order_ok d id o (f o) Hok Ho (Hf o) He Hd).
    destruct (v_fault v); cbn [snd]; eauto with go.
Qed.

(** A change of the redeem store. *)
Lemma redeem_change_ok d st :
  db_ok d -> redeem_ok st ->
  (forall i c, codes (d_redeem d) !! i = Some c -> exists c', codes st !! i = Some c' /\ same_code c c') ->
  (forall i o j c, d_orders d !! i = Some o -> codes st !! j = Some c -> rc_Code c = po_RechargeCode o ->
     rc_Type c = RedeemTypeBalance /\ rc_Value c = po_Amount o /\
     (forall g, (j, g) ∈ grants st -> granted o g)) ->
  db_ok (with_redeem st d) /\ ext d (with_redeem st d).
Proof.
  intros Hok Hst Hc Hr.
  assert (ext d (with_redeem st d)) as He by (split; cbn; eauto with go).
  split; [|done]. split; cbn [with_redeem d_orders d_redeem d_audits d_assignments d_recovered d_rebates];
    try apply Hok; try done.
  - intros i o j c Ho Hcc E. destruct (Hr i o j c Ho Hcc E) as (H1 & H2 & _). done.
  - intros i o j c g Ho Hcc E. exact (proj2 (proj2 (Hr i o j c Ho Hcc E)) g).
  - intros i o Ho Hs. exact (delivered_ext _ _ o He (dok_completed d Hok i o Ho Hs)).
Qed.

(** The codes and the grants did not change. *)
Lemma redeem_same_ok d st :
  db_ok d -> redeem_ok st -> codes st = codes (d_redeem d) -> grants st = grants (d_redeem d) ->
  db_ok (with_redeem st d) /\ ext d (with_redeem st d).
Proof.
  intros Hok Hst Ec Eg. apply redeem_change_ok; [done|done|rewrite Ec; eauto with go|].
  rewrite Ec, Eg. intros i o j c Ho Hc E. destruct (dok_row d Hok i o j c Ho Hc E).
  split_and!; [done..|]. intros g Hg. by eapply dok_grant.
Qed.

Lemma with_redeem_id d : with_redeem (d_redeem d) d = d.
Proof. by destruct d. Qed.

Lemma redeem_begin_change renv uid code d :
  db_ok d ->
  let st := (redeem_begin renv uid code (d_redeem d)).2 in
  db_ok (with_redeem st d) /\ ext d (with_redeem st d).
Proof.
  intros Hok. destruct (redeem_begin_codes renv uid code (d_redeem d)) as (Ec & Eg & _).
  apply redeem_same_ok; [done|apply redeem_begin_ok, Hok|done|done].
Qed.

(** The code a redemption is about to use is in the table. *)
Lemma redeem_begin_held renv uid code d c st :
  db_ok d -> redeem_begin renv uid code (d_redeem d) = (Ok c, st) ->
  held (with_redeem st d) c /\ rc_Code c = code.
Proof.
  intros Hok Hb. destruct (redeem_begin_Ok _ _ _ _ _ _ Hb) as (-> & Hget & _).
  destruct (GetByCode_Some _ _ _ (dok_redeem d Hok) Hget) as [Hc Ec].
  split; [|done]. by exists c.
Qed.

Lemma redeem_grant_balance adj u c g :
  rc_Type c = RedeemTypeBalance -> redeem_grant adj u c = Ok g ->
  g = if fltb (rc_Value c) f0 then ApplyRedeemBalanceAdjustment u (rc_Value c)
      else UpdateBalance u (rc_Value c).
Proof.
  intros Ht. unfold redeem_grant. rewrite bool_decide_true by done. cbv zeta.
  destruct (fltb _ _), adj; congruence.
Qed.

Lemma redeem_tx_change renv uid c d :
  db_ok d -> held d c ->
  (forall i o, d_orders d !! i = Some o -> po_RechargeCode o = rc_Code c ->
     uid = po_UserID o \/ presented uid (po_RechargeCode o)) ->
  let st := (redeem_tx renv uid c (d_redeem d)).2 in
  db_ok (with_redeem st d) /\ ext d (with_redeem st d) /\
  ((redeem_tx renv uid c (d_redeem d)).1 = None ->
     exists c', codes st !! rc_ID c = Some c' /\ rc_Code c' = rc_Code c /\ rc_Status c' = StatusUsed).
Proof.
  intros Hok (c0 & Hc0 & Ec & Et & Ev) Huse. cbv zeta.
  pose proof (redeem_tx_ok renv uid c _ (dok_redeem d Hok)) as Hst.
  destruct (redeem_tx_spec renv uid c (d_redeem d)) as [[e E]|(row & g & Hr & Hs & Hg & _ & E)];
    rewrite E in *; cbn [fst snd] in *.
  { rewrite with_redeem_id. split_and!; [done|apply ext_refl|done]. }
  rewrite Hc0 in Hr. injection Hr as <-. set (now := e_tx_now renv) in *.
  set (st := add_grant _ _ _) in *.
  assert (codes st = <[rc_ID c := used_row now uid c0]> (codes (d_redeem d))) as Ecs by done.
  assert (db_ok (with_redeem st d) /\ ext d (with_redeem st d)) as [H1 H2].
  { apply redeem_change_ok; [done|done| |]; rewrite Ecs.
    - intros i x Hx. destruct (decide (rc_ID c = i)) as [<-|Hne].
      + rewrite lookup_insert_eq. eexists; split; [done|]. rewrite Hc0 in Hx. by injection Hx as <-.
      + rewrite lookup_insert_ne by done. eauto with go.
    - intros i o j x Ho Hx Ex.
      assert (rc_Type x = RedeemTypeBalance /\ rc_Value x = po_Amount o) as [Htx Hvx].
      { apply lookup_insert_Some in Hx as [[<- <-]|[_ Hx]];
          [exact (dok_row d Hok i o _ c0 Ho Hc0 Ex)|exact (dok_row d Hok i o j x Ho Hx Ex)]. }
      split_and!; [done|done|]. intros g' Hg'.
      cbn [st add_grant grants with_codes] in Hg'. apply elem_of_app in Hg' as [Hg'|Hg'].
      + apply lookup_insert_Some in Hx as [[<- <-]|[_ Hx]];
          [exact (dok_grant d Hok i o _ c0 g' Ho Hc0 Ex Hg')|exact (dok_grant d Hok i o j x g' Ho Hx Ex Hg')].
      + apply list_elem_of_singleton in Hg'. injection Hg' as -> ->.
        rewrite lookup_insert_eq in Hx. injection Hx as <-. cbn in Ex, Htx, Hvx.
        rewrite (redeem_grant_balance _ _ _ _ (eq_trans (eq_sym Et) Htx) Hg).
        exists uid. unfold grant_to. rewrite <- Ev, Hvx.
        split; [exact (Huse i o Ho (eq_trans (eq_sym Ex) Ec))|done]. }
  split_and!; [done|done|].
  intros _. exists (used_row now uid c0). rewrite Ecs, lookup_insert_eq. done.
Qed.

Lemma redeem_finish_change renv skip uid c d :
  db_ok d ->
  let st := (redeem_finish renv skip uid c (d_redeem d)).2 in
  db_ok (with_redeem st d) /\ ext d (with_redeem st d).
Proof.
  intros Hok. destruct (redeem_finish_spec renv skip uid c (d_redeem d)) as (Ec & Eg & En & _).
  apply redeem_same_ok; [done| |done|done].
  split; rewrite ?Ec, ?Eg, ?En; apply (dok_redeem d Hok).
Qed.

(** Creating a code that no order's text names, or the order's own. *)
Lemma create_change now c d :
  db_ok d -> rc_Status c <> StatusUsed ->
  (forall i o, d_orders d !! i = Some o -> TrimSpace (rc_Code c) = po_RechargeCode o ->
     rc_Type c = RedeemTypeBalance /\ rc_Value c = po_Amount o) ->
  let st := (CreateCode now c (d_redeem d)).2 in
  db_ok (with_redeem st d) /\ ext d (with_redeem st d).
Proof.
  intros Hok Hs Hrow. cbv zeta. unfold CreateCode.
  destruct (prepare_code now c) as [c'|e] eqn:Ep; cbn [snd]; [|rewrite with_redeem_id; eauto with go].
  destruct (repo_Create now c' (d_redeem d)) as [[id st]|] eqn:Er; cbn [snd];
    [|rewrite with_redeem_id; eauto with go].
  apply prepare_code_Ok in Ep as (Ec & _ & Et & _ & Ev & Es & _ & _).
  assert (rc_Status c' <> StatusUsed) as Hs' by (rewrite Es; by case_bool_decide).
  apply Create_spec in Er as (Hst & _ & Hg & _ & row & Hcs & Hfresh & Hid & Rc & Rt & Rv & Rs & _);
    [|apply Hok|done].
  assert (forall g, (id, g) ∉ grants st) as Hnew.
  { intros g Hin. rewrite Hg in Hin.
    assert (id ∈ (grants (d_redeem d)).*1) as Hi by (apply list_elem_of_fmap; by exists (id, g)).
    apply (rok_used _ (dok_redeem d Hok)) in Hi as (x & Hx & _). by rewrite Hfresh in Hx. }
  apply redeem_change_ok; [done|done| |]; rewrite Hcs.
  - intros i x Hx. exists x. rewrite lookup_insert_ne by (intros <-; congruence). auto with go.
  - intros i o j x Ho Hx Ex. apply lookup_insert_Some in Hx as [[<- <-]|[_ Hx]].
    + rewrite Rc, Ec in Ex. destruct (Hrow i o Ho Ex) as [E1 E2]. rewrite Rt, Rv, Et, Ev, E1.
      split_and!; [done|done|]. intros g Hin. by destruct (Hnew g).
    + destruct (dok_row d Hok i o j x Ho Hx Ex). split_and!; [done|done|].
      intros g Hin. rewrite Hg in Hin. exact (dok_grant d Hok i o j x g Ho Hx Ex Hin).
Qed.

Lemma has_audit_true i a d : has_audit i a d = true <-> (i, a) ∈ d_audits d.
Proof. apply bool_decide_eq_true. Qed.

Lemma assign_audit_delivered d o :
  db_ok d -> hasPaymentSubscriptionAssignmentAudit (po_ID o) d = true -> sub_delivered d o.
Proof.
  intros Hok H. apply (dok_assigned d Hok). unfold hasPaymentSubscriptionAssignmentAudit in H.
  by rewrite orb_true_iff, !has_audit_true in H.
Qed.

(** The assignment and its audit are committed together. *)
Lemma record_assignment_ok rec o gid days d :
  db_ok d -> known d o -> po_SubscriptionGroupID o = Some gid -> po_SubscriptionDays o = Some days ->
  (po_ID o, ACTION_ASSIGNED) ∉ d_audits d ->
  let d' := record_assignment rec o gid days d in
  db_ok d' /\ ext d d' /\ sub_delivered d' o.
Proof.
  intros Hok (o' & Ho' & Hs) Hgid Hdays Hna. cbv zeta. set (d' := record_assignment _ _ _ _ _).
  assert (po_ID o ∉ as_order <$> d_assignments d) as Hnew.
  { intros Hin. by apply Hna, (dok_assign_audit d Hok). }
  assert (as_order <$> d_assignments d' =
          if rec then as_order <$> d_assignments d else (as_order <$> d_assignments d) ++ [po_ID o]) as Eas
    by (destruct rec; [done|]; cbn; by rewrite fmap_app).
  assert (sub_delivered d' o) as Hdel.
  { unfold sub_delivered. rewrite Eas. destruct rec; [right|left]; cbn; set_solver. }
  assert (ext d d') as He.
  { split; cbn [d' record_assignment d_orders d_redeem]; eauto with go.
    - intros i Hi. rewrite Eas. destruct rec; set_solver.
    - intros i Hi. destruct rec; cbn; set_solver. }
  split_and!; [|done|done].
  split; cbn [d' record_assignment d_orders d_redeem d_audits d_rebates]; try apply Hok.
  - intros i. rewrite !elem_of_union, !elem_of_singleton. intros [[H|H]|[H|H]];
      [injection H as ->; exact Hdel| |done|].
    all: assert (i ∈ as_order <$> d_assignments d \/ i ∈ d_recovered d) as [Hi|Hi]
           by (apply (dok_assigned d Hok); auto);
         [left; by apply (ext_assigned _ _ He)|right; by apply (ext_recovered _ _ He)].
  - rewrite Eas. destruct rec; [apply Hok|]. apply NoDup_app. split_and!; [apply Hok| |apply NoDup_singleton].
    intros i Hi ->%list_elem_of_singleton. done.
  - intros i. rewrite Eas. destruct rec; rewrite ?elem_of_app, ?list_elem_of_singleton.
    + intros Hi. apply elem_of_union_r. by apply (dok_assign_audit d Hok).
    + intros [Hi| ->]; [apply elem_of_union_r; by apply (dok_assign_audit d Hok)|].
      by apply elem_of_union_l, elem_of_singleton.
  - intros x Hx. assert (x ∈ d_assignments d \/ x = mkAssignment (po_ID o) (po_UserID o) gid days
                                                 (paymentSubscriptionOrderNote (po_ID o))) as [Hi| ->]
      by (destruct rec; cbn in Hx; set_solver).
    + exact (dok_assign_order d Hok x Hi).
    + exists o'. split; [done|]. unfold sale in Hs. injection Hs as _ E1 _ _ _ E2 E3.
      unfold assignment_of. cbn. split_and!; congruence.
  - intros i Hi. destruct (dok_rebate_audit d Hok i Hi); [left|right]; by apply elem_of_union_r.
  - intros i x Hx Hc. exact (delivered_ext _ _ x He (dok_completed d Hok i x Hx Hc)).
Qed.

Lemma assign_tx_ok v o gid days d :
  db_ok d -> known d o -> po_SubscriptionGroupID o = Some gid -> po_SubscriptionDays o = Some days ->
  let r := assign_tx v o gid days d in
  db_ok r.2 /\ ext d r.2 /\ (r.1 = Some true -> sub_delivered r.2 o).
Proof.
  intros Hok Hk Hgid Hdays. cbv zeta.
  assert (forall b, b <> Some true -> db_ok d /\ ext d d /\ (b = Some true -> sub_delivered d o)) as Hsame
    by (intros b Hb; split_and!; [done|apply ext_refl|done]).
  unfold assign_tx. destruct (v_fault v); [|by apply Hsame|];
    (destruct (hasPaymentSubscriptionAssignmentAudit (po_ID o) d) eqn:Ea;
      [split_and!; [done|apply ext_refl|intros _; by apply assign_audit_delivered]|]);
    cbv zeta; (destruct (negb (v_sub_lookup v)); [by apply Hsame|]);
    set (rec := match v_sub_notes v with Some _ => _ | None => _ end);
    (destruct (negb rec && negb (v_assign v)); [by apply Hsame|]);
    (destruct (v_conflict v); [by apply Hsame|]); cbn [fst snd];
    apply orb_false_iff in Ea as [Ea _]; apply bool_decide_eq_false in Ea;
    destruct (record_assignment_ok rec o gid days d Hok Hk Hgid Hdays Ea) as (H1 & H2 & H3); auto.
Qed.

(** The claim, the accrual and the final action are committed together. *)
Lemma rebate_ok v o d :
  db_ok d ->
  let r := applyAffiliateRebateForOrder v o d in db_ok r.2 /\ ext d r.2.
Proof.
  intros Hok. cbv zeta. unfold applyAffiliateRebateForOrder. cbv zeta.
  destruct (fleb (affiliateRebateBaseAmount o) f0); [eauto with go|].
  destruct (negb (v_affiliate v)); [eauto with go|].
  assert (forall d', db_ok d' -> ext d d' ->
            db_ok (writeAuditLog (v_audit v) (po_ID o) ACTION_REBATE_FAILED d') /\
            ext d (writeAuditLog (v_audit v) (po_ID o) ACTION_REBATE_FAILED d')) as Hfail.
  { intros d' H1 H2. split; [apply audit_ok; [plain_audit|done]|by apply audit_ext]. }
  destruct (rebate_claimable (po_ID o) d) eqn:Ec;
    [|destruct (v_fault v); cbn [negb snd]; eauto with go; by apply Hfail; eauto with go].
  cbn [negb]. destruct (v_rebate v) as [amt|];
    [|destruct (v_fault v); cbn [snd]; apply Hfail; eauto with go].
  set (action := if fleb amt f0 then _ else _).
  assert (action = ACTION_REBATE_APPLIED \/ action = ACTION_REBATE_SKIPPED) as Hact
    by (unfold action; destruct (fleb amt f0); auto).
  set (d' := mkDb _ _ _ _ _ _).
  assert (ext d d') as He by (split; cbn; eauto with go).
  unfold rebate_claimable in Ec. apply andb_true_iff in Ec as [E1 E2].
  apply negb_true_iff, bool_decide_eq_false in E1. apply negb_true_iff, bool_decide_eq_false in E2.
  assert (po_ID o ∉ (d_rebates d).*1) as Hnew
    by (intros Hin; by destruct (dok_rebate_audit d Hok _ Hin)).
  assert (db_ok d') as Hok'.
  { split; cbn [d' d_orders d_redeem d_audits d_assignments d_recovered d_rebates]; try apply Hok.
    - intros i. rewrite !elem_of_union, !elem_of_singleton.
      intros [[H|H]|[H|H]]; [|by apply (dok_assigned d Hok); auto| |by apply (dok_assigned d Hok); auto];
        exfalso; injection H as _ H; destruct Hact as [Ha|Ha]; rewrite Ha in H; by vm_compute in H.
    - intros i Hi. apply elem_of_union_r. by apply (dok_assign_audit d Hok).
    - rewrite fmap_app. apply NoDup_app. split_and!; [apply Hok| |apply NoDup_singleton].
      intros i Hi ->%list_elem_of_singleton. done.
    - intros i Hin. assert (i ∈ (d_rebates d).*1 \/ i = po_ID o) as [Hi| ->].
      { rewrite fmap_app, elem_of_app in Hin. destruct Hin as [Hin|Hin]; [by left|right].
        by apply list_elem_of_singleton in Hin. }
      + destruct (dok_rebate_audit d Hok i Hi); [left|right]; by apply elem_of_union_r.
      + destruct Hact as [->| ->]; [left|right]; by apply elem_of_union_l, elem_of_singleton. }
  destruct (v_fault v); cbn [snd]; [done|apply Hfail; eauto with go|by apply Hfail].
Qed.

(** ** Transitions keep the invariant *)

Lemma get_order_Some v i d o : get_order v i d = Some o -> d_orders d !! i = Some o.
Proof. unfold get_order. by destruct (v_fault v). Qed.

Lemma known_row d i o : db_ok d -> d_orders d !! i = Some o -> known d o.
Proof. intros Hok Ho. exists o. by rewrite (proj1 (dok_id d Hok i o Ho)). Qed.

Lemma edge_in s s' : (s, s') ∈ status_edges -> edge s s'.
Proof. right. by left. Qed.

Ltac edge := apply edge_in; unfold status_edges; rewrite !elem_of_cons; tauto.

Lemma can_pay_edge now o : can_pay now o = true -> edge (po_Status o) OrderStatusPaid.
Proof.
  unfold can_pay. rewrite !orb_true_iff, andb_true_iff, !bool_decide_eq_true.
  intros [[->| ->]|[-> _]]; edge.
Qed.

Lemma can_lease_edge now o : can_lease now o = true -> edge (po_Status o) OrderStatusRecharging.
Proof.
  unfold can_lease. rewrite !orb_true_iff, andb_true_iff, !bool_decide_eq_true.
  intros [[->| ->]|[-> _]]; [edge|edge|by left].
Qed.

Lemma holds_lease_status v o : holds_lease v o = true -> po_Status o = OrderStatusRecharging.
Proof. unfold holds_lease. rewrite andb_true_iff, bool_decide_eq_true. by intros [? _]. Qed.

Lemma can_cancel_edge fs o :
  fs ∈ cancel_statuses -> can_cancel o = true -> edge (po_Status o) fs /\ sold fs = false.
Proof.
  unfold can_cancel, cancel_statuses. rewrite bool_decide_eq_true, !elem_of_cons, elem_of_nil.
  intros [->|[->|[]]] ->; (split; [edge|done]).
Qed.

Definition step_ok (d : db) (r : pc * db) : Prop := db_ok r.2 /\ ext d r.2 /\ pc_ok r.2 r.1.

Lemma step_ok_same d p : db_ok d -> pc_ok d p -> step_ok d (p, d).
Proof. unfold step_ok. cbn. eauto with go. Qed.

Lemma step_ok_audit b i a d p :
  db_ok d -> ~ (a = ACTION_ASSIGNED \/ a = ACTION_SUB_SUCCESS) -> pc_ok d p ->
  step_ok d (p, writeAuditLog b i a d).
Proof.
  intros Hok Ha Hp. assert (ext d (writeAuditLog b i a d)) as He by (apply audit_ext, ext_refl).
  unfold step_ok. cbn [fst snd].
  split_and!; [apply audit_ok; [by intros ?|done]|done|by eapply pc_ok_ext].
Qed.

Lemma step_ok_free d d' p : db_ok d' -> ext d d' -> pc_ok d' p -> step_ok d (p, d').
Proof. by unfold step_ok. Qed.

Ltac not_special := let H := fresh in intros [H|H]; by vm_compute in H.

Lemma confirm_action_plain e : ~ (confirm_action e = ACTION_ASSIGNED \/ confirm_action e = ACTION_SUB_SUCCESS).
Proof. destruct e; cbn [confirm_action]; repeat case_match; not_special. Qed.

Lemma do_confirm_ok v oid n d : db_ok d -> step_ok d (do_confirm v oid n d).
Proof.
  intros Hok. unfold do_confirm. destruct (get_order v oid d) as [o|]; [|by apply step_ok_same].
  destruct (confirm_guard _ _ _) as [e|]; [|by apply step_ok_same].
  apply step_ok_audit; [done|apply confirm_action_plain|done].
Qed.

Lemma toPaid_ok v o n d : db_ok d -> step_ok d (toPaid v o n d).
Proof.
  intros Hok. unfold toPaid.
  destruct (update_orders_ok v (po_ID o) (can_pay (v_now v))
              (pay (v_now v) (v_at v) (n_Amount n) (n_TradeNo n)) d) as [H1 H2]; [done|done| |].
  { intros x _ Hx. split; [by eapply can_pay_edge|by intros H; vm_compute in H]. }
  destruct (update_orders _ _ _ _ _) as [[c|] d']; cbn [snd] in *; [|by apply step_ok_free].
  destruct (c =? 0); [by apply step_ok_free|].
  set (d2 := if (_ : bool) then _ else _).
  assert (db_ok d2 /\ ext d d2) as [H3 H4].
  { unfold d2. destruct (_ || _); [|done]. split; [apply audit_ok; [plain_audit|done]|by apply audit_ext]. }
  apply step_ok_free; [apply audit_ok; [plain_audit|done]|by apply audit_ext|done].
Qed.

Lemma acquire_ok v sub o d :
  db_ok d -> pc_ok d (AtAcquire sub o) -> step_ok d (acquire v sub o d).
Proof.
  intros Hok Hp. unfold acquire.
  destruct (update_orders_ok v (po_ID o) (can_lease (v_now v)) (lease (v_now v)) d) as [H1 H2];
    [done|done| |].
  { intros x _ Hx. split; [by eapply can_lease_edge|by intros H; vm_compute in H]. }
  destruct (update_orders _ _ _ _ _) as [[c|] d']; cbn [snd] in *; [|by apply step_ok_free].
  destruct (c =? 0); apply step_ok_free; try done. exact (pc_ok_ext d d' (AtReload sub o) H2 Hp).
Qed.

Lemma create_code_ok v o version d :
  db_ok d -> pc_ok d (AtCreate o version) -> step_ok d (create_code v o version d).
Proof.
  intros Hok Hp. pose proof Hp as [(o' & Ho' & Hs) _].
  destruct (create_change (v_now v) (recharge_code o) d) as [H1 H2]; [done|done| |].
  { intros i x Hx Ec. cbn [recharge_code rc_Code rc_Type rc_Value] in *. split; [done|].
    destruct (dok_id d Hok _ _ Ho') as [_ Et]. rewrite (sale_code _ _ Hs) in Et. rewrite Et in Ec.
    assert (i = po_ID o) as -> by (eapply (dok_codes d Hok); [done|done|];
      rewrite (sale_code _ _ Hs); done).
    rewrite Ho' in Hx. injection Hx as <-. unfold sale in Hs. by injection Hs. }
  unfold create_code. destruct (CreateCode _ _ _) as [r st]. cbn [snd] in *.
  destruct (v_fault v); [destruct r| |]; try (by apply step_ok_free).
  by apply step_ok_same.
Qed.

Lemma begin_redeem_ok v o version d :
  db_ok d -> pc_ok d (AtRedeem o version) -> step_ok d (begin_redeem v o version d).
Proof.
  intros Hok Hp. unfold begin_redeem.
  destruct (redeem_begin_change (v_redeem v) (po_UserID o) (po_RechargeCode o) d Hok) as [H1 H2].
  pose proof (redeem_begin_held (v_redeem v) (po_UserID o) (po_RechargeCode o) d) as Hh.
  destruct (redeem_begin _ _ _ _) as [[c|e] st]; cbn [snd] in *; [|by apply step_ok_free].
  destruct (Hh c st Hok eq_refl) as [Hc Ec]. destruct Hp as [Hk Hs].
  apply step_ok_free; [done|done|]. split_and!; [by eapply known_ext|done|done|done].
Qed.

Lemma known_user d o i x :
  db_ok d -> known d o -> d_orders d !! i = Some x -> po_RechargeCode x = po_RechargeCode o ->
  po_UserID o = po_UserID x.
Proof.
  intros Hok (o' & Ho' & Hs) Hx Ec.
  assert (i = po_ID o) as -> by (eapply (dok_codes d Hok); [done|done|]; rewrite (sale_code _ _ Hs); done).
  rewrite Ho' in Hx. injection Hx as <-. unfold sale in Hs. by injection Hs.
Qed.

Lemma commit_redeem_ok v o version c d :
  db_ok d -> pc_ok d (AtRedeemTx o version c) -> step_ok d (commit_redeem v o version c d).
Proof.
  intros Hok (Hk & Hs & Hh & Ec). unfold commit_redeem.
  assert (forall i x, d_orders d !! i = Some x -> po_RechargeCode x = rc_Code c ->
            po_UserID o = po_UserID x \/ presented (po_UserID o) (po_RechargeCode x)) as Hu
    by (intros i x Hx Ex; left; eapply known_user; [done..|congruence]).
  destruct (redeem_tx_change (v_redeem v) (po_UserID o) c d Hok Hh Hu) as (H1 & H2 & H3).
  destruct (redeem_tx _ _ _ _) as [[e|] st]; cbn [fst snd] in *; [by apply step_ok_free|].
  destruct (redeem_finish_spec (v_redeem v) true (po_UserID o) c st) as (Fc & _ & _ & _).
  destruct (redeem_finish_change (v_redeem v) true (po_UserID o) c _ H1) as [H4 H5].
  cbn [with_redeem d_redeem] in H4, H5.
  assert (ext d (with_redeem (redeem_finish (v_redeem v) true (po_UserID o) c st).2 d)) as He.
  { split; cbn [with_redeem d_orders d_redeem d_assignments d_recovered]; [eauto with go| |done|done].
    rewrite Fc. apply (ext_codes _ _ H2). }
  destruct (redeem_finish _ _ _ _ _) as [[c'|e] st']; cbn [fst snd] in *;
    (apply step_ok_free; [exact H4|exact He|]); [|done].
  destruct (H3 eq_refl) as (x & Hx & Exc & Exs).
  split_and!; [by eapply known_ext|done|]. unfold delivered. rewrite Hs.
  exists (rc_ID c), x. cbn. rewrite Fc. split_and!; [done|congruence|done].
Qed.

Lemma assign_ok v o version d :
  db_ok d -> pc_ok d (AtAssign o version) -> step_ok d (assign v o version d).
Proof.
  intros Hok (Hk & Hs & Hp). unfold assign. pose proof Hp as [[gid Hg] [days Hd]].
  destruct (assign_tx_ok v o gid days d Hok Hk Hg Hd) as (H1 & H2 & H3).
  rewrite Hg, Hd. cbn [default]. destruct (assign_tx _ _ _ _ _) as [r d']. cbn [fst snd] in *.
  pose proof (known_ext _ _ _ H2 Hk) as Hk'.
  destruct r as [[]|]; apply step_ok_free; try done.
  unfold invalidate_caches. destruct (v_cache v); [|done].
  split_and!; [done..|]. unfold delivered. rewrite Hs. auto.
Qed.

Lemma assign_check_ok v o version d :
  db_ok d -> pc_ok d (AtAssignCheck o version) -> step_ok d (assign_check v o version d).
Proof.
  intros Hok (Hk & Hs & Hp). unfold assign_check, invalidate_caches.
  destruct (v_fault v); try (by apply step_ok_same).
  destruct (hasPaymentSubscriptionAssignmentAudit _ _) eqn:E; [|by apply step_ok_same].
  apply step_ok_same; [done|]. destruct (v_cache v); [|done].
  split_and!; [done..|]. unfold delivered. rewrite Hs. by apply assign_audit_delivered.
Qed.

Lemma markCompleted_ok v sub o version d :
  db_ok d -> pc_ok d (AtComplete sub o version) -> step_ok d (markCompleted v sub o version d).
Proof.
  intros Hok Hp. pose proof Hp as (Hk & Hs & Hd). unfold markCompleted.
  destruct (update_orders_ok v (po_ID o) (holds_lease version) (complete (v_now v) (v_at v)) d) as [H1 H2];
    [done|done| |].
  { intros x Hx Hl. rewrite (holds_lease_status _ _ Hl). split; [edge|]. intros _.
    destruct Hk as (o' & Ho' & Hso). rewrite Ho' in Hx. injection Hx as <-.
    exact (delivered_sale d o o' (eq_sym Hso) Hd). }
  destruct (update_orders _ _ _ _ _) as [[c|] d']; cbn [snd] in *; [|by apply step_ok_free].
  destruct (c =? 0); apply step_ok_free; try done.
  exact (pc_ok_ext d d' (AtAudit sub o) H2 Hp).
Qed.

Lemma markFailed_ok v oid version e d : db_ok d -> step_ok d (markFailed v oid version e d).
Proof.
  intros Hok. unfold markFailed.
  destruct (update_orders_ok v oid (holds_lease version) (fail (v_now v) (v_at v) (v_reason v)) d)
    as [H1 H2]; [done|done| |].
  { intros x Hx Hl. rewrite (holds_lease_status _ _ Hl). split; [edge|by intros H; vm_compute in H]. }
  destruct (update_orders _ _ _ _ _) as [[c|] d']; cbn [snd] in *; [|by apply step_ok_free].
  destruct (0 <? c); [|by apply step_ok_free].
  apply step_ok_free; [apply audit_ok; [plain_audit|done]|by apply audit_ext|done].
Qed.

Lemma cancel_update_ok v oid fs d :
  db_ok d -> fs ∈ cancel_statuses -> step_ok d (cancel_update v oid fs d).
Proof.
  intros Hok Hfs. unfold cancel_update.
  destruct (update_orders_ok v oid can_cancel (set_status fs (v_at v)) d) as [H1 H2]; [done|done| |].
  { intros x Hx Hl. destruct (can_cancel_edge fs x Hfs Hl) as [? Hn]. cbn [set_status po_Status]. by rewrite Hn. }
  destruct (update_orders _ _ _ _ _) as [[c|] d']; cbn [snd] in *; [|by apply step_ok_free].
  destruct (0 <? c); [|by apply step_ok_free].
  apply step_ok_free; [apply audit_ok; [|done]|by apply audit_ext|done].
  destruct (fs ==? OrderStatusExpired); plain_audit.
Qed.

Lemma cancelled_in : OrderStatusCancelled ∈ cancel_statuses.
Proof. by left. Qed.

Lemma after_fulfill_get_ok d sub i o :
  db_ok d -> d_orders d !! i = Some o -> is_sub o = sub -> pc_ok d (after_fulfill_get sub o).
Proof.
  intros Hok Ho Hs. unfold after_fulfill_get. cbv zeta.
  destruct (po_Status o ==? OrderStatusCompleted); [done|].
  destruct (psIsRefundStatus _); [done|]. destruct ((_ !=? _) && _ && _); [done|].
  destruct (sub && _) eqn:E; [done|].
  split_and!; [by eapply known_row|done|]. intros ->. unfold has_plan.
  destruct (po_SubscriptionGroupID o), (po_SubscriptionDays o); done.
Qed.

Lemma advance_ok v p d : db_ok d -> pc_ok d p -> step_ok d (advance v p d).
Proof.
  intros Hok Hp. destruct p; cbn [advance].
  - apply step_ok_same; [done|]. destruct (get_order v oid d) as [o|]; [|done].
    unfold after_cancel_get, cancelCore. repeat case_match; try done; apply cancelled_in.
  - apply step_ok_same; [done|]. unfold after_check_paid.
    destruct (checkPaidWithOptions _ _ _ _); [by destruct fs|by case_match].
  - destruct (update_orders_ok v (po_ID o) (fun _ => true) (set_trade_no tradeNo (v_at v)) d) as [H1 H2];
      [done|done| |by apply step_ok_free].
    intros x Hx _. split; [by left|]. intros Hc. exact (dok_completed d Hok _ x Hx Hc).
  - apply step_ok_same; [done|]. unfold after_notify. by repeat case_match.
  - by apply do_confirm_ok.
  - by apply toPaid_ok.
  - unfold alreadyProcessed. destruct (get_order v oid d) as [cur|]; [|by apply step_ok_same].
    assert (pc_ok d (after_already cur)) by (unfold after_already; by repeat case_match).
    destruct (_ ==? _); [apply step_ok_audit; [done|not_special|done]|by apply step_ok_same].
  - destruct (get_order v oid d) as [o|]; [|by apply step_ok_same].
    assert (pc_ok d (after_retry_get o)) by (unfold after_retry_get; by repeat case_match).
    destruct (after_retry_get o); try (by apply step_ok_same);
      apply step_ok_audit; [done|not_special|done].
  - apply step_ok_same; [done|]. destruct (get_order v oid d) as [o|] eqn:E; [|done].
    exists o. split; [by eapply get_order_Some|done].
  - apply step_ok_same; [done|]. destruct (get_order v oid d) as [o|] eqn:E; [|done].
    apply get_order_Some in E. destruct Hp as (o' & Ho' & Hs). rewrite E in Ho'. injection Ho' as <-.
    by eapply after_fulfill_get_ok.
  - by apply acquire_ok.
  - apply step_ok_same; [done|]. destruct (get_order v oid d); [|done].
    unfold after_acquire_lost. by repeat case_match.
  - apply step_ok_same; [done|]. destruct (get_order v _ d); [|done].
    unfold after_reload. destruct (_ !=? _); [done|]. destruct Hp as (H1 & H2 & H3).
    destruct sub; split_and!; auto.
  - apply step_ok_same; [done|]. destruct (resolveRedeemAction _ _) eqn:E; cbn [after_lookup]; try done.
    destruct Hp as [Hk Hs]. split_and!; [done|done|]. unfold delivered. rewrite Hs.
    unfold resolveRedeemAction in E. destruct (repo_GetByCode _ _) as [c|] eqn:Eg; [|done].
    destruct (negb _); [done|]. destruct (IsUsed c) eqn:Eu; [|done].
    apply (GetByCode_Some _ _ _ (dok_redeem d Hok)) in Eg as [Hc Ec].
    exists (rc_ID c), c. split_and!; [done|done|by apply bool_decide_eq_true in Eu].
  - by apply create_code_ok.
  - by apply begin_redeem_ok.
  - by apply commit_redeem_ok.
  - apply step_ok_same; [done|]. by destruct (v_group v).
  - by apply assign_ok.
  - by apply assign_check_ok.
  - destruct Hp as (H1 & H2 & H3). unfold rebate. destruct (rebate_ok v o d Hok) as [H4 H5].
    destruct (applyAffiliateRebateForOrder v o d) as [[] d']; cbn [snd] in *; apply step_ok_free; try done.
    split_and!; [by eapply known_ext|done|by eapply delivered_ext].
  - by apply markCompleted_ok.
  - unfold complete_lost. repeat case_match; by apply step_ok_same.
  - destruct Hp as (H1 & H2 & H3). assert (ext d d) by apply ext_refl.
    apply step_ok_free; [|by apply audit_ext|done]. apply audit_ok; [|done].
    destruct sub; [|plain_audit]. intros _. unfold delivered in H3. by rewrite H2 in H3.
  - by apply markFailed_ok.
  - by apply cancel_update_ok.
  - by apply step_ok_same.
Qed.

Lemma use_ok_ext d d' u : ext d d' -> use_ok d u -> use_ok d' u.
Proof. intros He. destruct u; cbn [use_ok]; [done|by apply held_ext|done]. Qed.

Lemma use_step_ok renv skip u d :
  db_ok d -> use_ok d u -> presented (use_of u).1 (use_of u).2 ->
  let r := use_step renv skip u (d_redeem d) in
  db_ok (with_redeem r.2 d) /\ ext d (with_redeem r.2 d) /\ use_ok (with_redeem r.2 d) r.1.
Proof.
  intros Hok Hu Hpr. cbv zeta. destruct u as [uid code|uid c|]; cbn [use_step use_ok use_of fst snd] in *.
  - destruct (redeem_begin_change renv uid code d Hok) as [H1 H2].
    pose proof (redeem_begin_held renv uid code d) as Hh.
    destruct (redeem_begin _ _ _ _) as [[c|e] st]; cbn [fst snd use_ok] in *; [|done].
    by destruct (Hh c st Hok eq_refl) as [Hc _].
  - destruct (redeem_tx_change renv uid c d Hok Hu) as (H1 & H2 & _);
      [intros i o _ E; right; by rewrite E|].
    destruct (redeem_tx _ _ _ _) as [[e|] st]; cbn [fst snd use_ok] in *; [done|].
    destruct (redeem_finish_spec renv skip uid c st) as (Fc & _).
    destruct (redeem_finish_change renv skip uid c _ H1) as [H4 _]. cbn [with_redeem d_redeem] in H4.
    split_and!; [exact H4| |done].
    split; cbn [with_redeem d_orders d_redeem d_assignments d_recovered]; [eauto with go| |done|done].
    rewrite Fc. apply (ext_codes _ _ H2).
  - cbn [fst snd]. rewrite with_redeem_id. split_and!; [done|apply ext_refl|done].
Qed.
End Statements.
#[export] Hint Resolve ext_refl same_code_refl edge_refl : go.
Arguments db_ok presented d : clear implicits.
Arguments granted presented o g : clear implicits.

Lemma granted_mono (pr pr' : Z -> string -> Prop) o g :
  (forall uid code, pr uid code -> pr' uid code) -> granted pr o g -> granted pr' o g.
Proof. intros H (uid & [Hu|Hu] & Hg); exists uid; auto. Qed.

Lemma db_ok_mono (pr pr' : Z -> string -> Prop) d :
  (forall uid code, pr uid code -> pr' uid code) -> db_ok pr d -> db_ok pr' d.
Proof.
  intros H Hok. split; try apply Hok. intros i o j c g Ho Hc E Hg.
  eapply granted_mono; [done|]. by eapply (dok_grant d Hok).
Qed.

Record inv (w : world) : Prop := {
  inv_db : db_ok (presented_in w) (w_db w);
  inv_calls i p : w_calls w !! i = Some p -> pc_ok (w_db w) p;
  inv_uses i u : w_uses w !! i = Some u -> use_ok (w_db w) u;
}.

(** No statement of a call creates an order. *)
Lemma audit_orders b i a d : d_orders (writeAuditLog b i a d) = d_orders d.
Proof. by destruct b. Qed.

(** ** Steps keep the invariant *)

Lemma inv_ext w d' calls uses :
  inv w -> (forall uid code, presented_in w uid code -> presented_in (mkWorld d' calls uses) uid code) ->
  db_ok (presented_in w) d' -> ext (w_db w) d' ->
  (forall i p, calls !! i = Some p -> w_calls w !! i = Some p \/ pc_ok d' p) ->
  (forall i u, uses !! i = Some u -> w_uses w !! i = Some u \/ use_ok d' u) ->
  inv (mkWorld d' calls uses).
Proof.
  intros Hi Hpr Hok He Hc Hu. split; cbn [w_db w_calls w_uses].
  - by eapply db_ok_mono.
  - intros i p Hp. destruct (Hc i p Hp) as [H|H]; [|done].
    exact (pc_ok_ext _ _ p He (inv_calls w Hi i p H)).
  - intros i u Hp. destruct (Hu i u Hp) as [H|H]; [|done].
    exact (use_ok_ext _ _ u He (inv_uses w Hi i u H)).
Qed.

Lemma use_step_of renv skip u st : redeem_ok st -> use_of (use_step renv skip u st).1 = use_of u.
Proof.
  intros Hst. destruct u as [uid code|uid c|]; cbn [use_step use_of]; [|by repeat case_match|done].
  destruct (redeem_begin renv uid code st) as [[c|e] st'] eqn:E; cbn [fst use_of]; [|done].
  destruct (redeem_begin_Ok _ _ _ _ _ _ E) as (_ & Hget & _).
  by destruct (GetByCode_Some _ _ _ Hst Hget) as [_ ->].
Qed.

Lemma presented_app w d calls u uid code :
  presented_in w uid code -> presented_in (mkWorld d calls (w_uses w ++ [u])) uid code.
Proof. intros (j & x & Hx & E). exists j, x. split; [by apply lookup_app_l_Some|done]. Qed.

Lemma presented_insert w d calls i u u' uid code :
  w_uses w !! i = Some u -> use_of u' = use_of u ->
  presented_in w uid code -> presented_in (mkWorld d calls (<[i := u']> (w_uses w))) uid code.
Proof.
  intros Hu Hof (j & x & Hx & E). destruct (decide (i = j)) as [<-|Hne].
  - exists i, u'. rewrite Hu in Hx. injection Hx as <-. split; [|congruence].
    apply list_lookup_insert_eq. by eapply lookup_lt_Some.
  - exists j, x. split; [|done]. cbn [w_uses]. by rewrite list_lookup_insert_ne.
Qed.

Lemma new_order_ok w o :
  inv w -> fresh_order w o ->
  inv (mkWorld (with_orders (<[po_ID o := o]> (d_orders (w_db w))) (w_db w)) (w_calls w) (w_uses w)).
Proof.
  intros Hi (Hn & Hp & Ht & Hoc & Hcc). pose proof (inv_db w Hi) as Hok.
  set (d := w_db w) in *. set (d' := with_orders _ d).
  assert (forall i x, d_orders d' !! i = Some x -> i = po_ID o /\ x = o \/ d_orders d !! i = Some x) as Hback.
  { intros i x Hx. cbn [d' with_orders d_orders] in Hx.
    apply lookup_insert_Some in Hx as [[<- <-]|[_ Hx]]; auto. }
  assert (forall i x, d_orders d !! i = Some x -> d_orders d' !! i = Some x) as Hforth.
  { intros i x Hx. cbn [d' with_orders d_orders]. rewrite lookup_insert_ne; [done|]. congruence. }
  assert (ext d d') as He by (split; cbn; eauto 6 with go).
  assert (db_ok (presented_in w) d') as Hok'.
  { split; cbn [d' with_orders d_redeem d_audits d_assignments d_recovered d_rebates]; try apply Hok.
    - intros i x Hx. destruct (Hback i x Hx) as [[-> ->]|Hx']; [done|exact (dok_id d Hok i x Hx')].
    - intros i j x y Hx Hy E. destruct (Hback i x Hx) as [[-> ->]|Hx'], (Hback j y Hy) as [[-> ->]|Hy'];
        [done|by destruct (Hoc _ _ Hy')|by destruct (Hoc _ _ Hx')|by eapply (dok_codes d Hok)].
    - intros i x j c Hx Hc E. destruct (Hback i x Hx) as [[-> ->]|Hx'];
        [by destruct (Hcc _ _ Hc)|exact (dok_row d Hok i x j c Hx' Hc E)].
    - intros i x j c g Hx Hc E. destruct (Hback i x Hx) as [[-> ->]|Hx'];
        [by destruct (Hcc _ _ Hc)|exact (dok_grant d Hok i x j c g Hx' Hc E)].
    - intros a Ha. destruct (dok_assign_order d Hok a Ha) as (x & Hx & Hax). exists x. auto.
    - intros i x Hx Hs. destruct (Hback i x Hx) as [[-> ->]|Hx']; [by rewrite Hp in Hs|].
      exact (delivered_ext _ _ x He (dok_completed d Hok i x Hx' Hs)). }
  apply (inv_ext w); [done|auto|exact Hok'|exact He|auto|auto].
Qed.

Lemma starts_ok presented d p : db_ok presented d -> starts d p -> pc_ok d p.
Proof. intros Hok. destruct p; cbn; try done. destruct fs; [|done]. intros [_ H]. by apply H. Qed.

(** A refund keeps the order among those sold. *)
Lemma refund_ok w i o o' :
  inv w -> d_orders (w_db w) !! i = Some o -> sold (po_Status o) = true -> sold (po_Status o') = true ->
  sale o' = sale o ->
  let d' := with_orders (<[i := o']> (d_orders (w_db w))) (w_db w) in
  db_ok (presented_in w) d' /\ ext (w_db w) d'.
Proof.
  intros Hi Ho Hs Hs' Hsale. pose proof (inv_db w Hi) as Hok.
  apply (set_order_ok (w_db w) i o o'); [done|done|done|right; right; done|].
  intros _. by apply (dok_completed (w_db w) Hok i).
Qed.

Lemma pay_step_inv w w' : inv w -> step w w' -> inv w'.
Proof.
  intros Hi Hstep. pose proof (inv_db w Hi) as Hok.
  destruct Hstep as [w p Hs|w i p v Hp|w uid code|w i u renv skip Hu|w i o o' Ho Hs Hs' Hsale|w o Hf|w now c Hf].
  - apply (inv_ext w); auto using ext_refl. intros j q Hq. apply lookup_app_Some in Hq as [Hq|[_ Hq]];
      [by left|right]. apply list_lookup_singleton_Some in Hq as [_ <-]. by eapply starts_ok.
  - destruct (advance_ok v p (w_db w) Hok (inv_calls w Hi i p Hp)) as (H1 & H2 & H3).
    apply (inv_ext w); auto. intros j q Hq.
    apply list_lookup_insert_Some in Hq as [(_ & <- & _)|[_ Hq]]; auto.
  - apply (inv_ext w); auto using ext_refl, presented_app. intros j q Hq.
    apply lookup_app_Some in Hq as [Hq|[_ Hq]]; [by left|right].
    by apply list_lookup_singleton_Some in Hq as [_ <-].
  - destruct (use_step_ok renv skip u (w_db w) Hok (inv_uses w Hi i u Hu)) as (H1 & H2 & H3);
      [by exists i, u; destruct (use_of u)|].
    apply (inv_ext w); auto.
    + intros uid code. apply (presented_insert w _ _ i u); [done|]. apply use_step_of, Hok.
    + intros j q Hq. apply list_lookup_insert_Some in Hq as [(_ & <- & _)|[_ Hq]]; auto.
  - destruct (refund_ok w i o o' Hi Ho Hs Hs' Hsale) as [H1 H2]. apply (inv_ext w); auto.
  - by apply new_order_ok.
  - destruct Hf as [Hs Hf]. destruct (create_change now c (w_db w) Hok Hs) as [H1 H2].
    { intros i o Ho E. by destruct (Hf i o Ho). }
    apply (inv_ext w); auto.
Qed.

Lemma steps_inv w w' : inv w -> rtc step w w' -> inv w'.
Proof. intros Hi Hr. induction Hr as [|w1 w2 w3 H12 _ IH]; [done|]. apply IH. by eapply pay_step_inv. Qed.

(** ** The theorems *)

(** What was granted through codes bearing the order's text. *)
Definition credits (d : db) (o : PaymentOrder) : list grant :=
  snd <$> List.filter (fun p => bool_decide ((rc_Code <$> codes (d_redeem d) !! p.1) = Some (po_RechargeCode o)))
            (grants (d_redeem d)).

Lemma at_most_one {A B} (l : list (A * B)) (k : A) :
  NoDup l.*1 -> Forall (fun p => p.1 = k) l -> l = [] \/ exists b, l = [(k, b)].
Proof.
  intros Hn Hf. destruct l as [|[a b] [|[a' b'] l]]; [by left|right|].
  - apply Forall_cons in Hf as [Hf _]. cbn in Hf. subst. eauto.
  - exfalso. apply Forall_cons in Hf as [H1 Hf]. apply Forall_cons in Hf as [H2 _]. cbn in H1, H2. subst.
    apply NoDup_cons in Hn as [Hn _]. apply Hn. by left.
Qed.

Lemma filter_fst_nodup {A B} (f : A * B -> bool) (l : list (A * B)) :
  NoDup l.*1 -> NoDup (List.filter f l).*1.
Proof.
  induction l as [|x l IH]; [done|]. cbn. intros [Hx Hl]%NoDup_cons. destruct (f x); [|auto].
  cbn. apply NoDup_cons. split; [|auto]. intros Hin. apply Hx.
  apply list_elem_of_fmap in Hin as (y & -> & Hy). apply list_elem_of_In, filter_In in Hy as [Hy _].
  apply list_elem_of_fmap. exists y. split; [done|by apply list_elem_of_In].
Qed.

Lemma credits_spec presented d i o :
  db_ok presented d -> d_orders d !! i = Some o ->
  (credits d o = [] \/ exists g, granted presented o g /\ credits d o = [g]) /\
  (balance_delivered d o -> credits d o <> []).
Proof.
  intros Hok Ho. unfold credits. set (f := fun p : Z * grant => _).
  assert (forall p, p ∈ List.filter f (grants (d_redeem d)) ->
    exists c, codes (d_redeem d) !! p.1 = Some c /\ rc_Code c = po_RechargeCode o /\
      p ∈ grants (d_redeem d)) as Hin.
  { intros p Hp. apply list_elem_of_In, filter_In in Hp as [Hp Hf]. apply bool_decide_eq_true in Hf.
    apply fmap_Some in Hf as (c & Hc & E). exists c. split_and!; [done|done|by apply list_elem_of_In]. }
  pose proof (filter_fst_nodup f _ (rok_once _ (dok_redeem d Hok))) as Hnd.
  split.
  - destruct (List.filter f (grants (d_redeem d))) as [|[j g] l] eqn:E; [by left|right].
    destruct (Hin (j, g)) as (c & Hc & Ec & Hg); [by left|]. cbn [fst] in Hc.
    destruct (at_most_one ((j, g) :: l) j Hnd) as [|[b Eb]]; [|done|].
    + apply Forall_forall. intros p Hp. destruct (Hin p Hp) as (c' & Hc' & Ec' & _).
      eapply (rok_unique _ (dok_redeem d Hok)); eauto. congruence.
    + injection Eb as -> ->. exists b. by split; [exact (dok_grant d Hok i o j c b Ho Hc Ec Hg)|].
  - intros (j & c & Hc & Ec & Es) Hnil.
    assert (j ∈ (grants (d_redeem d)).*1) as Hj by (apply (rok_used _ (dok_redeem d Hok)); eauto).
    apply list_elem_of_fmap in Hj as ([j' g] & -> & Hg). apply fmap_nil_inv in Hnil.
    assert ((j', g) ∈ List.filter f (grants (d_redeem d))) as Hf.
    { apply list_elem_of_In, filter_In. split; [by apply list_elem_of_In|].
      apply bool_decide_eq_true. cbn [fst] in *. by rewrite Hc, <- Ec. }
    rewrite Hnil in Hf. by apply elem_of_nil in Hf.
Qed.

(** C1: however notifications, retries, cancellations, refunds, failing
    statements, crashes and redemptions of any code by anyone interleave, an
    order's recharge code credits at most once, exactly the order's amount, to
    the order's user or to a user who presented that code for redemption; and
    a balance order that is COMPLETED, or went from there to a refund status,
    has been credited. *)
Theorem order_credited_once w w' i o :
  inv w -> rtc step w w' -> d_orders (w_db w') !! i = Some o ->
  (credits (w_db w') o = [] \/
   exists uid, (uid = po_UserID o \/ presented_in w' uid (po_RechargeCode o)) /\
     credits (w_db w') o = [grant_to uid o]) /\
  (sold (po_Status o) = true -> is_sub o = false -> credits (w_db w') o <> []).
Proof.
  intros Hi Hr Ho. pose proof (inv_db w' (steps_inv w w' Hi Hr)) as Hok.
  destruct (credits_spec _ (w_db w') i o Hok Ho) as [H1 H2]. split.
  - destruct H1 as [H1|(g & (uid & Hu & ->) & H1)]; eauto.
  - intros Hs Hn. apply H2. pose proof (dok_completed _ Hok i o Ho Hs) as Hd.
    unfold delivered in Hd. by rewrite Hn in Hd.
Qed.

(** C2: in the same interleavings a subscription order is assigned at most
    once, to its user, group and number of days, and is COMPLETED only when it
    was assigned or its subscription's notes already named it; and an order's
    affiliate rebate is accrued at most once. *)
Theorem order_assigned_once w w' i o :
  inv w -> rtc step w w' -> d_orders (w_db w') !! i = Some o ->
  (length (List.filter (fun a => (as_order a =? i)%Z) (d_assignments (w_db w'))) <= 1)%nat /\
  (forall a, a ∈ d_assignments (w_db w') -> as_order a = i -> assignment_of o a) /\
  (po_Status o = OrderStatusCompleted -> is_sub o = true ->
     (exists a, a ∈ d_assignments (w_db w') /\ as_order a = i) \/ i ∈ d_recovered (w_db w')) /\
  (length (List.filter (fun p => (p.1 =? i)%Z) (d_rebates (w_db w'))) <= 1)%nat.
Proof.
  intros Hi Hr Ho. pose proof (inv_db w' (steps_inv w w' Hi Hr)) as Hok.
  assert (forall {B} (l : list (Z * B)), NoDup l.*1 ->
            (length (List.filter (fun p => (p.1 =? i)%Z) l) <= 1)%nat) as Hlen.
  { intros B l Hl. destruct (at_most_one (List.filter (fun p => p.1 =? i) l) i) as [->|[b ->]];
      [by apply filter_fst_nodup| |cbn; lia|cbn; lia].
    apply Forall_forall. intros p Hp. apply list_elem_of_In, filter_In in Hp as [_ Hp].
    by apply Z.eqb_eq. }
  split_and!.
  - pose proof (Hlen _ ((fun a => (as_order a, a)) <$> d_assignments (w_db w'))) as H.
    rewrite <- list_fmap_compose in H. specialize (H (dok_assign_once _ Hok)).
    replace (length (List.filter _ (d_assignments (w_db w')))) with
      (length (List.filter (fun p : Z * assignment => (p.1 =? i)%Z)
                 ((fun a => (as_order a, a)) <$> d_assignments (w_db w')))); [done|].
    clear. induction (d_assignments (w_db w')) as [|a l IH]; [done|]. cbn.
    destruct (as_order a =? i); cbn; by rewrite IH.
  - intros a Ha Ea. destruct (dok_assign_order _ Hok a Ha) as (x & Hx & Hax).
    rewrite Ea, Ho in Hx. by injection Hx as <-.
  - intros Hs Hsub. assert (sold (po_Status o) = true) as Hsd by (by rewrite Hs).
    pose proof (dok_completed _ Hok i o Ho Hsd) as Hd. unfold delivered in Hd.
    rewrite Hsub in Hd. destruct Hd as [Hd|Hd]; rewrite (proj1 (dok_id _ Hok i o Ho)) in Hd; [left|by right].
    apply list_elem_of_fmap in Hd as (a & -> & Ha). eauto.
  - apply Hlen, Hok.
Qed.

Lemma step_ext w w' : inv w -> step w w' -> ext (w_db w) (w_db w').
Proof.
  intros Hi Hstep. pose proof (inv_db w Hi) as Hok.
  destruct Hstep as [w p Hs|w i p v Hp|w uid code|w i u renv skip Hu|w i o o' Ho Hs Hs' Hsale|w o Hf|w now c Hf];
    cbn [w_db].
  - apply ext_refl.
  - apply (advance_ok v p (w_db w) Hok (inv_calls w Hi i p Hp)).
  - apply ext_refl.
  - apply (use_step_ok renv skip u (w_db w) Hok (inv_uses w Hi i u Hu)). by exists i, u; destruct (use_of u).
  - apply (refund_ok w i o o' Hi Ho Hs Hs' Hsale).
  - destruct Hf as (Hn & _). split; cbn; eauto with go. intros i x Hx. exists x.
    rewrite lookup_insert_ne by congruence. eauto with go.
  - destruct Hf as [Hs Hf]. apply (create_change now c (w_db w) Hok Hs).
    intros i o Ho E. by destruct (Hf i o Ho).
Qed.

(** C21: whatever interleaves of notifications, retries, cancellations,
    fulfilments, redemptions and refunds, an order stays in the database with
    its user, amount, code, type and plan; its status only ever moves along
    the graph [status_edges], or by a refund from COMPLETED or a refund status
    to COMPLETED or a refund status; so once COMPLETED it never leaves those.
    The failure mark of an order's creation (payment_order.go, an
    unconditional FAILED when the provider's answer could not be kept) is not
    among the steps. *)
Theorem order_status_follows_graph w w' i o :
  inv w -> rtc step w w' -> d_orders (w_db w) !! i = Some o ->
  exists o', d_orders (w_db w') !! i = Some o' /\ sale o' = sale o /\
    rtc moves (po_Status o) (po_Status o') /\
    (sold (po_Status o) = true -> sold (po_Status o') = true).
Proof.
  intros Hi Hr. revert o. induction Hr as [w|w w1 w2 H1 Hr IH]; intros o Ho; [by exists o|].
  destruct (ext_orders _ _ (step_ext w w1 Hi H1) i o Ho) as (o1 & Ho1 & Hs1 & He1).
  destruct (IH (pay_step_inv w w1 Hi H1) o1 Ho1) as (o2 & Ho2 & Hs2 & Hr2 & Hc2).
  exists o2. split_and!; [done|congruence| |].
  - destruct He1 as [<-|He1]; [done|by eapply rtc_l].
  - intros Hc. apply Hc2. by eapply edge_sold.
Qed.

(** ** A lease can be lost to a reconciliation *)

(** The trade number that [checkPaidWithOptions] stores refreshes
    [updated_at] whatever the order's status, so a worker that holds the
    order's lease loses it: it can then neither complete the order nor record
    a failure, although nobody else took the lease. *)
Theorem persist_breaks_lease v vc vf sub o row n tradeNo e d :
  d_orders d !! po_ID o = Some row -> holds_lease (po_UpdatedAt row) row = true ->
  v_fault v = Fine -> v_at v <> po_UpdatedAt row -> v_fault vc = Fine -> v_fault vf = Fine ->
  let version := po_UpdatedAt row in
  let d' := (advance v (AtPersist o tradeNo n) d).2 in
  advance vc (AtComplete sub o version) d' = (AtCompleteLost o version, d') /\
  advance vc (AtCompleteLost o version) d' =
    (AtFail (po_ID o) version (ErrConflict "fulfillment lease was lost before completion"), d') /\
  (advance vf (AtFail (po_ID o) version e) d').2 = d' /\
  (po_Status <$> d_orders d' !! po_ID o) = Some OrderStatusRecharging.
Proof.
  intros Hrow Hl Hv Hat Hvc Hvf. cbv zeta. pose proof (holds_lease_status _ _ Hl) as Hst.
  set (row' := set_trade_no tradeNo (v_at v) row).
  assert ((advance v (AtPersist o tradeNo n) d).2 = with_orders (<[po_ID o := row']> (d_orders d)) d) as ->.
  { cbn [advance snd]. unfold update_orders, update_where. by rewrite Hrow, Hv. }
  set (d' := with_orders _ d).
  assert (d_orders d' !! po_ID o = Some row') as Hrow' by (cbn; by rewrite lookup_insert_eq).
  assert (holds_lease (po_UpdatedAt row) row' = false) as Hl'.
  { unfold holds_lease. cbn. apply andb_false_iff. right. by apply Z.eqb_neq. }
  assert (with_orders (d_orders d') d' = d') as Eid by (by destruct d').
  split_and!.
  - cbn [advance]. unfold markCompleted, update_orders, update_where. by rewrite Hrow', Hl', Hvc, Eid.
  - cbn [advance]. unfold complete_lost, get_order. rewrite Hvc, Hrow'. cbn [row' set_trade_no po_Status].
    by rewrite Hst.
  - cbn [advance]. unfold markFailed, update_orders, update_where. by rewrite Hrow', Hl', Hvf, Eid.
  - by rewrite Hrow'; cbn; rewrite Hst.
Qed.

(** ** A concrete interleaving

    Order 12 is created, its payment is notified twice, and the two calls race
    through the lease. *)

Definition fx_order : PaymentOrder :=
  mkOrder 12 7 (f64_of_Z 30) (f64_of_Z 30) "PAY-12-4321" "sub2_20260101abcdEFGH" "stripe" "" "balance"
    None None None (Some "stripe") None OrderStatusPending 1000 None None None None.

Definition fx_notification : notification := mkNotification "pi_1" (f64_of_Z 30) "stripe" ∅.

Definition fx_renv : redeem_env := mkRedeemEnv None None true 2000 2000 true true Fine 2001 false true.

(** Everything outside works; [now] is the clock. *)
Definition fx_env (now : time) : env :=
  mkEnv Fine now now (mkConfirmEnv ∅ None None None) fx_renv None None None true true None true false
    true true (Some (f64_of_Z 3)) true "".

Definition fx_empty : world := mkWorld (mkDb ∅ empty_redeem ∅ [] [] []) [] [].

Definition fx_start : world :=
  mkWorld (with_orders (<[12 := fx_order]> (d_orders (w_db fx_empty))) (w_db fx_empty)) [] [].

Definition fx_call (p : pc) (w : world) : world := mkWorld (w_db w) (w_calls w ++ [p]) (w_uses w).

Definition fx_run (i : nat) (now : time) (w : world) : world :=
  match w_calls w !! i with
  | Some p => mkWorld (advance (fx_env now) p (w_db w)).2
                (<[i := (advance (fx_env now) p (w_db w)).1]> (w_calls w)) (w_uses w)
  | None => w
  end.

Fixpoint fx_runs (l : list nat) (now : time) (w : world) : world :=
  match l with [] => w | i :: l' => fx_runs l' now (fx_run i now w) end.

Lemma fx_run_step i now w : rtc step w (fx_run i now w).
Proof.
  unfold fx_run. destruct (w_calls w !! i) as [p|] eqn:E; [|done].
  apply rtc_once. exact (step_call w i p (fx_env now) E).
Qed.

Lemma fx_runs_steps l now w : rtc step w (fx_runs l now w).
Proof.
  revert w. induction l as [|i l IH]; intros w; [done|]. cbn. etrans; [apply fx_run_step|apply IH].
Qed.

Lemma fx_empty_inv : inv fx_empty.
Proof.
  split; cbn; [|intros i p H; by rewrite lookup_nil in H..].
  split; cbn [fx_empty w_db d_orders d_redeem d_audits d_assignments d_recovered d_rebates];
    try (intros *; by rewrite lookup_empty); try (by constructor); try apply empty_redeem_ok.
  all: intros i; cbn; set_solver.
Qed.

Lemma fx_start_inv : inv fx_start.
Proof.
  apply (new_order_ok fx_empty fx_order fx_empty_inv). split_and!; by vm_compute.
Qed.

Definition fx_notify : pc := AtNotify "sub2_20260101abcdEFGH" fx_notification.

(** Two notifications, scheduled alternately, then the first to the end. *)
Definition fx_race : world :=
  fx_runs ([0; 1; 0; 1; 0; 1; 0; 1; 0; 1; 0; 1; 0; 1; 0; 1]%nat ++ repeat 0%nat 12) (60 * second)
    (fx_call fx_notify (fx_call fx_notify fx_start)).

Lemma fx_race_reachable : rtc step fx_start fx_race.
Proof.
  unfold fx_race.
  apply (rtc_l _ _ (fx_call fx_notify fx_start)); [by apply step_start|].
  apply (rtc_l _ _ (fx_call fx_notify (fx_call fx_notify fx_start))); [by apply step_start|].
  apply fx_runs_steps.
Qed.

Definition fx_done : PaymentOrder := default fx_order (d_orders (w_db fx_race) !! 12).

Lemma order_credited_once_witness :
  po_Status fx_done = OrderStatusCompleted /\ w_uses fx_race = [] /\
  credits (w_db fx_race) fx_done = [UpdateBalance 7 (f64_of_Z 30)].
Proof.
  assert (w_uses fx_race = []) as Hu by (by vm_compute).
  split; [by vm_compute|]. split; [exact Hu|].
  destruct (order_credited_once fx_start fx_race 12 fx_done fx_start_inv fx_race_reachable)
    as [[H|(uid & [->|Hp] & H)] H2]; [by vm_compute| | |].
  - destruct (H2 ltac:(by vm_compute) ltac:(by vm_compute) H).
  - by rewrite H.
  - destruct Hp as (k & x & Hx & _). rewrite Hu in Hx. discriminate Hx.
Defined.

Lemma order_status_follows_graph_witness :
  exists o', d_orders (w_db fx_race) !! 12 = Some o' /\ sale o' = sale fx_order.
Proof.
  destruct (order_status_follows_graph fx_start fx_race 12 fx_order fx_start_inv fx_race_reachable)
    as (o' & H1 & H2 & _); [by vm_compute|]. exists o'. split; [exact H1|exact H2].
Defined.

(** A subscription order, notified and fulfilled by one call. *)
Definition fx_sub_order : PaymentOrder :=
  mkOrder 13 8 (f64_of_Z 50) (f64_of_Z 50) "PAY-13-77" "sub2_20260101subSUBsb" "stripe" "" "subscription"
    (Some 3) (Some 30) None (Some "stripe") None OrderStatusPending 1000 None None None None.

Definition fx_sub_start : world :=
  mkWorld (with_orders (<[13 := fx_sub_order]> (d_orders (w_db fx_empty))) (w_db fx_empty)) [] [].

Lemma fx_sub_start_inv : inv fx_sub_start.
Proof. apply (new_order_ok fx_empty fx_sub_order fx_empty_inv). split_and!; by vm_compute. Qed.

Definition fx_sub_notify : pc :=
  AtNotify "sub2_20260101subSUBsb" (mkNotification "pi_2" (f64_of_Z 50) "stripe" ∅).

Definition fx_sub_done : world :=
  fx_runs (repeat 0%nat 14) (60 * second) (fx_call fx_sub_notify fx_sub_start).

Lemma fx_sub_reachable : rtc step fx_sub_start fx_sub_done.
Proof.
  apply (rtc_l _ _ (fx_call fx_sub_notify fx_sub_start)); [by apply step_start|]. apply fx_runs_steps.
Qed.

Lemma order_assigned_once_witness :
  d_assignments (w_db fx_sub_done) = [mkAssignment 13 8 3 30 "payment order 13"] /\
  (length (List.filter (fun a => (as_order a =? 13)%Z) (d_assignments (w_db fx_sub_done))) <= 1)%nat.
Proof.
  split; [by vm_compute|].
  destruct (order_assigned_once fx_sub_start fx_sub_done 13
              (default fx_sub_order (d_orders (w_db fx_sub_done) !! 13)) fx_sub_start_inv fx_sub_reachable)
    as (H & _); [by vm_compute|exact H].
Defined.

Definition fx_leased : PaymentOrder := lease (60 * second) fx_order.

Lemma persist_breaks_lease_witness :
  let d := with_orders {[12 := fx_leased]} (w_db fx_empty) in
  let d' := (advance (fx_env (61 * second)) (AtPersist fx_order "pi_9" fx_notification) d).2 in
  (advance (fx_env (62 * second)) (AtComplete false fx_order (60 * second)) d').1 =
  AtCompleteLost fx_order (60 * second).
Proof.
  destruct (persist_breaks_lease (fx_env (61 * second)) (fx_env (62 * second)) (fx_env (62 * second))
    false fx_order fx_leased fx_notification "pi_9" ErrRebate
    (with_orders {[12 := fx_leased]} (w_db fx_empty))) as (H & _);
    [by vm_compute|by vm_compute|done|by vm_compute|done|done|].
  cbv zeta. exact (f_equal fst H).
Defined.
