(* ===== verification/PaymentFulfillmentRun.v ===== *)
(** * A payment call on its own

    With the database, Redis and the services it calls working, fulfilling a
    paid order (or one whose earlier attempt failed, or was abandoned long
    enough ago) completes it, from whatever point the earlier attempt was left
    at. *)

From S2P Require Import Prelude Float64 GoTime GoAny PaymentHelpers Redeem PaymentOrder.
From S2P Require Import PaymentFulfillment PaymentFulfillmentSafety.
Local Open Scope Z_scope.

(** Nobody but the order's own fulfilment presented any code. *)
Definition nobody (_ : Z) (_ : string) : Prop := False.

(** Nothing outside the program gets in the way. *)
Record healthy (v : env) : Prop := {
  h_fault : v_fault v = Fine;
  h_limit : checkRedeemRateLimit (e_attempts (v_redeem v)) = None;
  h_lock : acquireRedeemLock (e_lock (v_redeem v)) = true;
  h_lookup : e_lookup (v_redeem v) = true;
  h_user : e_user (v_redeem v) = true;
  h_adjuster : e_adjuster (v_redeem v) = true;
  h_tx : e_tx (v_redeem v) = Fine;
  h_reload : e_reload (v_redeem v) = true;
  h_group : v_group v = true;
  h_sub_lookup : v_sub_lookup v = true;
  h_assign : v_assign v = true;
  h_conflict : v_conflict v = false;
  h_cache : v_cache v = true;
  h_rebate : is_Some (v_rebate v);
}.

(** The order's recharge code can be created and, where it exists, is either
    used or ready to be. *)
Definition code_ready (d : db) (o : PaymentOrder) : Prop :=
  po_RechargeCode o <> "" /\ (Strings.String.length (po_RechargeCode o) <= 32)%nat /\
  feqb (po_Amount o) f0 = false /\
  (forall j c, codes (d_redeem d) !! j = Some c -> rc_Code c = po_RechargeCode o ->
     rc_Status c = StatusUsed \/ rc_Status c = StatusUnused /\ rc_ExpiresAt c = None).

Lemma run_S n vs p d :
  (forall r, p <> Finished r) ->
  run (S n) vs p d = run n vs (advance (vs n) p d).1 (advance (vs n) p d).2.
Proof. intros Hp. cbn [run]. destruct p; try by destruct (advance _ _ _). by destruct (Hp r). Qed.

Ltac go := rewrite run_S by done.

Lemma get_order_healthy v i d : healthy v -> get_order v i d = d_orders d !! i.
Proof. intros Hv. unfold get_order. by rewrite (h_fault v Hv). Qed.

Lemma update_orders_healthy v i cond f d o :
  healthy v -> d_orders d !! i = Some o -> cond o = true ->
  update_orders v i cond f d = (Some 1, with_orders (<[i := f o]> (d_orders d)) d).
Proof. intros Hv Ho Hc. unfold update_orders, update_where. by rewrite Ho, Hc, (h_fault v Hv). Qed.

(** The order is in the hands of the worker with the lease's version. *)
Definition leased (d : db) (i : Z) (o : PaymentOrder) (version : time) : Prop :=
  exists row, d_orders d !! i = Some row /\ po_ID o = i /\ holds_lease version row = true.

Definition completes (fuel : nat) (vs : nat -> env) (p : pc) (d : db) (i : Z) : Prop :=
  exists d' o', run fuel vs p d = (Finished None, d') /\ d_orders d' !! i = Some o' /\
    po_Status o' = OrderStatusCompleted.

Lemma completes_S n vs p d i :
  (forall r, p <> Finished r) ->
  completes n vs (advance (vs n) p d).1 (advance (vs n) p d).2 i -> completes (S n) vs p d i.
Proof. intros Hp. unfold completes. by rewrite run_S. Qed.

Ltac one := apply completes_S; [done|].

Section Healthy.
Context (vs : nat -> env) (Hvs : forall n, healthy (vs n)).

Lemma complete_completes n sub i o version d :
  leased d i o version -> completes (S (S n)) vs (AtComplete sub o version) d i.
Proof.
  intros (row & Hrow & <- & Hl). one. cbn [advance]. unfold markCompleted.
  rewrite (update_orders_healthy _ _ _ _ _ row) by done. cbn [Z.eqb fst snd].
  change (1 =? 0) with false. cbn iota. one. cbn [advance fst snd].
  eexists _, _. split; [by apply run_Finished|]. rewrite audit_orders. cbn [with_orders d_orders].
  rewrite lookup_insert_eq. done.
Qed.

Lemma rebate_healthy v o d :
  healthy v -> (applyAffiliateRebateForOrder v o d).1 = true /\
  d_orders (applyAffiliateRebateForOrder v o d).2 = d_orders d.
Proof.
  intros Hv. unfold applyAffiliateRebateForOrder. cbv zeta. rewrite (h_fault v Hv).
  destruct (h_rebate v Hv) as [r ->]. by repeat case_match.
Qed.

Lemma rebate_completes n sub i o version d :
  leased d i o version -> completes (S (S (S n))) vs (AtRebate sub o version) d i.
Proof.
  intros Hl. one. cbn [advance]. unfold rebate.
  destruct (rebate_healthy (vs (S (S n))) o d) as [E1 E2]; [done|].
  destruct (applyAffiliateRebateForOrder _ o d) as [b d']. cbn [fst snd] in *. subst b. cbn [fst snd].
  apply complete_completes. destruct Hl as (row & Hrow & H). exists row. by rewrite E2.
Qed.

(** From the transaction of the redemption. *)
Lemma redeem_tx_completes n i o version c row d :
  leased d i o version -> codes (d_redeem d) !! rc_ID c = Some row -> rc_Status row = StatusUnused ->
  rc_Type c = RedeemTypeBalance ->
  completes (S (S (S (S n)))) vs (AtRedeemTx o version c) d i.
Proof.
  intros Hl Hrow Hs Ht. one. cbn [advance]. set (v := vs (S (S (S n)))).
  assert (healthy v) as Hv by apply Hvs.
  assert (exists g, redeem_grant (e_adjuster (v_redeem v)) (po_UserID o) c = Ok g) as [g Hg].
  { rewrite (h_adjuster v Hv). unfold redeem_grant. rewrite bool_decide_true by done. cbv zeta.
    destruct (fltb _ _); eauto. }
  unfold commit_redeem, redeem_tx. rewrite (h_tx v Hv). unfold repo_Use.
  rewrite Hrow, bool_decide_true, Hg by done.
  set (st := add_grant _ _ _).
  destruct (redeem_finish_spec (v_redeem v) true (po_UserID o) c st) as (_ & _ & _ & Hr).
  replace (codes st !! rc_ID c) with
    (Some (used_row (e_tx_now (v_redeem v)) (po_UserID o) row)) in Hr
    by (cbn; by rewrite lookup_insert_eq).
  rewrite (h_reload v Hv) in Hr.
  destruct (redeem_finish _ _ _ _ _) as [r st']. cbn [fst snd] in *. subst r.
  by apply rebate_completes.
Qed.

(** From the redemption of a code that is ready. *)
Lemma redeem_completes n i o version c d :
  leased d i o version -> db_ok nobody d -> repo_GetByCode (po_RechargeCode o) (d_redeem d) = Some c ->
  rc_Status c = StatusUnused -> rc_ExpiresAt c = None -> rc_Type c = RedeemTypeBalance ->
  completes (S (S (S (S (S n))))) vs (AtRedeem o version) d i.
Proof.
  intros Hl Hok Hget Hs He Ht. one. cbn [advance]. set (v := vs (S (S (S (S n))))).
  assert (healthy v) as Hv by apply Hvs.
  assert (forall now, IsExpired now c = false) as Hexp.
  { intros now. unfold IsExpired, IsExpiredAt. by rewrite Hs, He. }
  assert (redeem_check (v_redeem v) c = None) as Hchk.
  { unfold redeem_check, CanUse. rewrite !Hexp, Hs, Ht. done. }
  unfold begin_redeem, redeem_begin.
  rewrite (h_limit v Hv), (h_lock v Hv), (h_lookup v Hv), Hget, Hchk, (h_user v Hv). cbn [negb fst snd].
  destruct (GetByCode_Some _ _ _ (dok_redeem d Hok) Hget) as [Hc _].
  eapply redeem_tx_completes; [|exact Hc|done|done]. by rewrite with_redeem_id.
Qed.

(** From the creation of the code. *)
Lemma create_completes n i o version d :
  leased d i o version -> db_ok nobody d -> pc_ok d (AtCreate o version) -> code_ready d o ->
  TrimSpace (po_RechargeCode o) = po_RechargeCode o ->
  repo_GetByCode (po_RechargeCode o) (d_redeem d) = None ->
  completes (S (S (S (S (S (S n)))))) vs (AtCreate o version) d i.
Proof.
  intros Hl Hok Hp (Hne & Hlen & Hamt & _) Ht Hget. one. cbn [advance].
  set (v := vs (S (S (S (S (S n)))))). assert (healthy v) as Hv by apply Hvs.
  pose proof (create_code_ok v o version d Hok Hp) as (Hok' & _ & Hp').
  assert (exists c', prepare_code (v_now v) (recharge_code o) = Ok c' /\
            code_valid c' = true) as (c' & Hprep & Hval).
  { unfold prepare_code. cbn [recharge_code rc_Code rc_Type rc_Value rc_Status]. rewrite Ht.
    rewrite bool_decide_false by done. rewrite Hamt, andb_false_r.
    eexists. split; [reflexivity|]. unfold code_valid. cbn [rc_Code rc_Type].
    rewrite bool_decide_false by done. cbn [negb andb]. apply andb_true_iff. split; [|done].
    by apply Nat.leb_le. }
  pose proof Hprep as Hspec. apply prepare_code_Ok in Hspec as (Ec & _ & Et & _ & _ & Es & Ee & _).
  cbn [recharge_code rc_Code rc_Type rc_Status rc_ExpiresAt] in *. rewrite Ht in Ec.
  destruct (repo_Create (v_now v) c' (d_redeem d)) as [[id st]|] eqn:Er;
    [|unfold repo_Create in Er; by rewrite Hval, Ec, Hget in Er].
  revert Hok' Hp'. unfold create_code, CreateCode. rewrite (h_fault v Hv), Hprep, Er. cbn [fst snd].
  intros Hok' Hp'.
  apply Create_spec in Er as (Hst & _ & _ & _ & row & Hcs & _ & Hid & Rc & Rt & _ & Rs & Re);
    [|apply Hok|by rewrite Es].
  apply (redeem_completes n i o version row); cbn [with_redeem d_redeem].
  - exact Hl.
  - exact Hok'.
  - apply GetByCode_iff; [done|]. rewrite Hcs, Hid, lookup_insert_eq. split; [done|congruence].
  - by rewrite Rs, Es.
  - by rewrite Re, Ee.
  - by rewrite Rt, Et.
Qed.

Lemma lookup_completes n i o version d :
  leased d i o version -> db_ok nobody d -> pc_ok d (AtLookup o version) -> code_ready d o ->
  TrimSpace (po_RechargeCode o) = po_RechargeCode o ->
  completes (S (S (S (S (S (S (S n))))))) vs (AtLookup o version) d i.
Proof.
  intros Hl Hok Hp Hready Ht. one. cbn [advance fst snd].
  set (v := vs (S (S (S (S (S (S n))))))). assert (healthy v) as Hv by apply Hvs.
  rewrite bool_decide_true by apply (h_fault v Hv). cbn [negb].
  destruct (repo_GetByCode (po_RechargeCode o) (d_redeem d)) as [c|] eqn:Eg; cbn [resolveRedeemAction].
  - destruct (GetByCode_Some _ _ _ (dok_redeem d Hok) Eg) as [Hc Ec].
    unfold IsUsed. case_bool_decide as Es; cbn [after_lookup].
    + exact (rebate_completes (S (S (S n))) false i o version d Hl).
    + destruct Hp as [(o' & Ho' & Hs) _].
      destruct Hready as (_ & _ & _ & Hr). destruct (Hr _ c Hc Ec) as [?|[Hu He]]; [done|].
      apply (redeem_completes (S n) i o version c); try done.
      rewrite <- (sale_code _ _ Hs) in Ec. apply (dok_row d Hok _ _ _ _ Ho' Hc Ec).
  - cbn [after_lookup]. by apply create_completes.
Qed.

(** From the check of the group. *)
Lemma group_completes n i o version d :
  leased d i o version ->
  completes (S (S (S (S (S n))))) vs (AtGroup o version) d i.
Proof.
  intros Hl. one. cbn [advance fst snd]. rewrite (h_group _ (Hvs _)). one. cbn [advance].
  set (v := vs (S (S (S n)))). assert (healthy v) as Hv by apply Hvs.
  unfold assign, assign_tx. cbv zeta. rewrite (h_fault v Hv), (h_sub_lookup v Hv), (h_assign v Hv), (h_conflict v Hv).
  cbn [negb]. rewrite andb_false_r.
  destruct (hasPaymentSubscriptionAssignmentAudit (po_ID o) d); cbn [fst snd];
    unfold invalidate_caches; rewrite (h_cache v Hv); by apply rebate_completes.
Qed.

(** From the dispatch on the order's type. *)
Lemma dispatch_completes i o d :
  db_ok nobody d -> d_orders d !! i = Some o -> (forall n, can_lease (v_now (vs n)) o = true) ->
  (if is_sub o then has_plan o else code_ready d o) ->
  completes 15 vs (AtDispatch i) d i.
Proof.
  intros Hok Ho Hlease Hcond. destruct (dok_id d Hok i o Ho) as [Hid Ht].
  one. cbn [advance fst snd]. rewrite get_order_healthy, Ho by done.
  one. cbn [advance fst snd]. rewrite get_order_healthy, Ho by done.
  assert (after_fulfill_get (is_sub o) o = AtAcquire (is_sub o) o) as Efg.
  { pose proof (Hlease 0%nat) as Hl. unfold can_lease in Hl.
    rewrite !orb_true_iff, andb_true_iff, !bool_decide_eq_true in Hl.
    unfold after_fulfill_get. cbv zeta.
    assert (sub_missing : is_sub o && match po_SubscriptionGroupID o, po_SubscriptionDays o with
              | Some _, Some _ => false | _, _ => true end = false).
    { destruct (is_sub o); [|done]. destruct Hcond as [[g ->] [k ->]]. done. }
    rewrite sub_missing. destruct Hl as [[E|E]|[E _]]; by rewrite E. }
  rewrite Efg.
  assert (pc_ok d (AtAcquire (is_sub o) o)) as Hp.
  { split_and!; [by eapply known_row|done|]. intros E. by rewrite E in Hcond. }
  pose proof (acquire_ok (vs 12%nat) (is_sub o) o d Hok Hp) as (Hok1 & _ & Hp1).
  one. cbn [advance]. set (v := vs 12%nat) in *. revert Hok1 Hp1. unfold acquire.
  rewrite Hid, (update_orders_healthy _ _ _ _ _ o) by first [apply Hvs|apply Hlease|done].
  change (1 =? 0) with false. cbn iota. cbn [fst snd].
  set (d1 := with_orders _ d). intros Hok1 Hp1.
  assert (d_orders d1 !! i = Some (lease (v_now v) o)) as Ho1 by (cbn; by rewrite lookup_insert_eq).
  one. cbn [advance fst snd]. rewrite get_order_healthy, Hid, Ho1 by done.
  unfold after_reload. cbn [lease po_Status po_UpdatedAt]. rewrite bool_decide_true by done. cbn [negb].
  assert (leased d1 i o (lease_now (v_now v))) as Hl1.
  { exists (lease (v_now v) o). split_and!; [done|done|]. unfold holds_lease. cbn.
    by rewrite Z.eqb_refl. }
  destruct (is_sub o) eqn:Es.
  - by apply (group_completes 6).
  - apply (lookup_completes 4); try done. destruct Hp1 as (H1 & H2 & _). done.
Qed.
End Healthy.

(** ** The theorem *)

Lemma run_keeps fuel vs p d :
  db_ok nobody d -> pc_ok d p ->
  db_ok nobody (run fuel vs p d).2 /\
  forall i o, d_orders d !! i = Some o ->
    exists o', d_orders (run fuel vs p d).2 !! i = Some o' /\ sale o' = sale o.
Proof.
  revert p d. induction fuel as [|n IH]; intros p d Hok Hp; [cbn; eauto|].
  destruct (advance_ok (vs n) p d Hok Hp) as (H1 & H2 & H3).
  destruct (IH _ _ H1 H3) as [H4 H5].
  assert ((exists r, p = Finished r) \/ forall r, p <> Finished r) as [[r ->]|Hnf]
    by (destruct p; first [left; eauto; fail|right; done]); [cbn; eauto|].
  rewrite run_S by done. split; [done|]. intros i o Ho.
  destruct (ext_orders _ _ H2 i o Ho) as (o1 & Ho1 & Hs1 & _).
  destruct (H5 i o1 Ho1) as (o2 & Ho2 & Hs2). exists o2. split; [done|congruence].
Qed.

(** C4: fulfilling an order that is paid, failed or abandoned by a worker for
    five minutes ends without an error when the surroundings work: the order is
    COMPLETED, and delivered.  A balance order has then been credited exactly
    its amount, once, even when the earlier attempt had already created or
    redeemed its code; the database is one in which nobody but the order's own
    fulfilment redeemed the code ([nobody]). *)
Theorem fulfilment_completes vs i o d :
  db_ok nobody d -> d_orders d !! i = Some o ->
  (forall n, healthy (vs n)) -> (forall n, can_lease (v_now (vs n)) o = true) ->
  (if is_sub o then has_plan o else code_ready d o) ->
  exists d' o', run 15 vs (AtDispatch i) d = (Finished None, d') /\
    d_orders d' !! i = Some o' /\ sale o' = sale o /\ po_Status o' = OrderStatusCompleted /\
    (if is_sub o then sub_delivered d' o' else credits d' o' = [sale_grant o]).
Proof.
  intros Hok Ho Hvs Hlease Hcond.
  destruct (dispatch_completes vs Hvs i o d Hok Ho Hlease Hcond) as (d' & o' & Hrun & Ho' & Hs').
  destruct (run_keeps 15 vs (AtDispatch i) d Hok I) as [Hok' Hkeep]. rewrite Hrun in *. cbn [snd] in *.
  destruct (Hkeep i o Ho) as (o2 & Ho2 & Hsale). rewrite Ho' in Ho2. injection Ho2 as <-.
  exists d', o'. split_and!; [done..|].
  assert (sold (po_Status o') = true) as Hsold by (by rewrite Hs').
  pose proof (dok_completed d' Hok' i o' Ho' Hsold) as Hd. unfold delivered in Hd.
  rewrite (sale_sub _ _ Hsale) in Hd. destruct (is_sub o) eqn:Es; [done|].
  destruct (credits_spec _ d' i o' Hok' Ho') as [[Hc|(g & (uid & [->|[]] & ->) & Hc)] Hne];
    [by destruct (Hne Hd)|].
  rewrite Hc. f_equal. unfold sale_grant, grant_to. unfold sale in Hsale.
  injection Hsale as _ E1 E2 _ _ _ _. by rewrite E1, E2.
Qed.

(** The order of the concrete interleaving, paid, its first call having
    stopped right after creating the code. *)
Definition fx_crashed : world := fx_runs (repeat 0%nat 9) (60 * second) (fx_call fx_notify fx_start).

Definition fx_crashed_order : PaymentOrder :=
  mkOrder 12 7 (f64_of_Z 30) (f64_of_Z 30) "PAY-12-4321" "sub2_20260101abcdEFGH" "stripe" "pi_1" "balance"
    None None None (Some "stripe") None OrderStatusRecharging (60 * second) (Some (60 * second)) None
    None None.

Lemma fx_crashed_ok : db_ok nobody (w_db fx_crashed).
Proof.
  assert (inv fx_crashed) as Hi;
    [apply (steps_inv fx_start); [apply fx_start_inv|]|
     apply (db_ok_mono (presented_in fx_crashed)), Hi;
     intros uid code (j & u & Hu & _); vm_compute in Hu; destruct j; discriminate Hu].
  apply (rtc_l _ _ (fx_call fx_notify fx_start)); [by apply step_start|]. apply fx_runs_steps.
Qed.

Lemma fx_healthy now : healthy (fx_env now).
Proof. by constructor; eauto. Qed.

Lemma fulfilment_completes_witness :
  rc_Status <$> codes (d_redeem (w_db fx_crashed)) !! 1 = Some StatusUnused /\
  exists d' o', run 15 (fun _ => fx_env (400 * second)) (AtDispatch 12) (w_db fx_crashed) = (Finished None, d') /\
    d_orders d' !! 12 = Some o' /\ po_Status o' = OrderStatusCompleted /\
    credits d' o' = [UpdateBalance 7 (f64_of_Z 30)].
Proof.
  split; [by vm_compute|].
  destruct (fulfilment_completes (fun _ => fx_env (400 * second)) 12 fx_crashed_order (w_db fx_crashed))
    as (d' & o' & H1 & H2 & _ & H3 & H4).
  - exact fx_crashed_ok.
  - by vm_compute.
  - intros _. apply fx_healthy.
  - intros _. by vm_compute.
  - change (is_sub fx_crashed_order) with false. cbn iota.
    assert (codes (d_redeem (w_db fx_crashed)) =
              {[1 := default ex_code (codes (d_redeem (w_db fx_crashed)) !! 1)]}) as E
      by (vm_compute; reflexivity).
    split_and!; [by vm_compute|vm_compute; lia|by vm_compute|]. intros j c Hc _. rewrite E in Hc.
    apply lookup_singleton_Some in Hc as [_ <-]. right.
    split; vm_compute; reflexivity.
  - exists d', o'. split_and!; [exact H1|exact H2|exact H3|exact H4].
Defined.
