(* ===== verification/Subscription.v ===== *)
(** * Subscriptions: internal/service/user_subscription.go and the pure parts
    of internal/service/subscription_service.go

    The subscription of a user to a group, its daily, weekly and monthly usage
    windows, the terms it is assigned or extended to, and the usage limits.
    [loc] is the configured time zone (package timezone, also the location of
    [time.Now()]); [dloc] is the location the database driver gives the times
    it returns.  The columns' rounding (microseconds, decimals) is left out. *)

From S2P Require Import Prelude Float64 GoTime.
Local Open Scope Z_scope.

Definition SubscriptionStatusActive := "active".
Definition SubscriptionStatusExpired := "expired".
Definition SubscriptionStatusSuspended := "suspended".
Definition SubscriptionStatusRevoked := "revoked".

Record UserSubscription := mkSub {
  us_ID : Z;
  us_UserID : Z;
  us_GroupID : Z;
  us_StartsAt : time;
  us_ExpiresAt : time;
  us_Status : string;
  us_DailyWindowStart : option time;
  us_WeeklyWindowStart : option time;
  us_MonthlyWindowStart : option time;
  us_DailyUsageUSD : f64;
  us_WeeklyUsageUSD : f64;
  us_MonthlyUsageUSD : f64;
  us_AssignedBy : option Z;
  us_AssignedAt : time;
  us_Notes : string;
  us_CreatedAt : time;
  us_UpdatedAt : time;
  us_DeletedAt : option time;
}.

(** What the component reads of a group. *)
Record Group := mkGroup {
  g_Name : string;
  g_SubscriptionType : string;
  g_DailyLimitUSD : option f64;
  g_WeeklyLimitUSD : option f64;
  g_MonthlyLimitUSD : option f64;
}.

Definition SubscriptionTypeSubscription := "subscription".

Definition IsSubscriptionType (g : Group) : bool :=
  g_SubscriptionType g ==? SubscriptionTypeSubscription.

Definition positive_limit (l : option f64) : bool :=
  match l with Some x => fltb f0 x | None => false end.

Definition HasDailyLimit (g : Group) : bool := positive_limit (g_DailyLimitUSD g).
Definition HasWeeklyLimit (g : Group) : bool := positive_limit (g_WeeklyLimitUSD g).
Definition HasMonthlyLimit (g : Group) : bool := positive_limit (g_MonthlyLimitUSD g).

(** ** Status and remaining days *)

Definition subscriptionDayDuration : duration := 24 * hour.

Definition IsActive (now : time) (s : UserSubscription) : bool :=
  (us_Status s ==? SubscriptionStatusActive) && Before now (us_ExpiresAt s).

Definition IsExpired (now : time) (s : UserSubscription) : bool := After now (us_ExpiresAt s).

Definition daysRemainingAt (now : time) (s : UserSubscription) : Z :=
  let remaining := Sub (us_ExpiresAt s) now in
  if remaining <=? 0 then 0
  else
    let days := Z.quot remaining subscriptionDayDuration in
    if negb (Z.rem remaining subscriptionDayDuration =? 0) then days + 1 else days.

Definition is_some {A} (o : option A) : bool := match o with Some _ => true | None => false end.

Definition IsWindowActivated (s : UserSubscription) : bool :=
  is_some (us_DailyWindowStart s) || is_some (us_WeeklyWindowStart s)
  || is_some (us_MonthlyWindowStart s).

(** ** The usage windows *)

Definition week : duration := 7 * 24 * hour.
Definition month : duration := 30 * 24 * hour.

Section Windows.
Variables loc dloc : Location.

(** [timezone.StartOfDay] and the service's [startOfDay]. *)
Definition StartOfDay (t : time) : time := midnight loc t.
Definition startOfDay (t : time) : time := midnight dloc t.

Definition HasOneTimeDailyQuota (s : UserSubscription) : bool :=
  if IsZero (us_StartsAt s) || IsZero (us_ExpiresAt s) then false
  else negb (After (us_ExpiresAt s) (AddDate_days dloc (us_StartsAt s) 1)).

Definition automaticDailyWindowStartAt (now : time) (s : UserSubscription) : option time :=
  match us_DailyWindowStart s with
  | None => None
  | Some start =>
      if HasOneTimeDailyQuota s then None
      else let today := StartOfDay now in
           if negb (After today (StartOfDay start)) then None else Some today
  end.

Definition canAutomaticallyResetDailyAt (now : time) (s : UserSubscription) : bool :=
  is_some (automaticDailyWindowStartAt now s).
Definition NeedsDailyResetAt (now : time) (s : UserSubscription) : bool :=
  is_some (automaticDailyWindowStartAt now s).

Definition NeedsWeeklyResetAt (now : time) (s : UserSubscription) : bool :=
  match us_WeeklyWindowStart s with
  | None => false
  | Some w => negb (Before now (w + week))
  end.

Definition NeedsMonthlyResetAt (now : time) (s : UserSubscription) : bool :=
  match us_MonthlyWindowStart s with
  | None => false
  | Some w => negb (Before now (w + month))
  end.

Definition windowResetAnchor (s : UserSubscription) (previous : time) : time :=
  let legacyAnchor := startOfDay (us_StartsAt s) in
  if Before legacyAnchor (us_StartsAt s) && (previous =? legacyAnchor) then us_StartsAt s
  else previous.

Definition automaticWindowStartAt (s : UserSubscription) (previous : option time)
    (period : duration) (now : time) : option time :=
  match previous with
  | None => None
  | Some previous =>
      let anchor := windowResetAnchor s previous in
      let next := anchor + period in
      if Before now next || negb (Before next (us_ExpiresAt s)) then None
      else
        let periods := Z.quot (Sub now anchor) period in
        let lastPeriodBeforeExpiry := Z.quot (wrap64 (Sub (us_ExpiresAt s) anchor - 1)) period in
        let periods := if lastPeriodBeforeExpiry <? periods then lastPeriodBeforeExpiry
                       else periods in
        Some (anchor + wrap64 (periods * period))
  end.

Definition weekly_window_at (now : time) (s : UserSubscription) : option time :=
  automaticWindowStartAt s (us_WeeklyWindowStart s) week now.
Definition monthly_window_at (now : time) (s : UserSubscription) : option time :=
  automaticWindowStartAt s (us_MonthlyWindowStart s) month now.

Definition canAutomaticallyResetWeeklyAt (now : time) (s : UserSubscription) : bool :=
  is_some (weekly_window_at now s).
Definition canAutomaticallyResetMonthlyAt (now : time) (s : UserSubscription) : bool :=
  is_some (monthly_window_at now s).

Definition DailyResetTime (s : UserSubscription) : option time :=
  match us_DailyWindowStart s with
  | None => None
  | Some start =>
      if HasOneTimeDailyQuota s then Some (us_ExpiresAt s)
      else Some (AddDate_days loc (StartOfDay start) 1)
  end.

Definition WeeklyResetTime (s : UserSubscription) : option time :=
  match us_WeeklyWindowStart s with
  | None => None
  | Some w => Some (windowResetAnchor s w + week)
  end.

Definition MonthlyResetTime (s : UserSubscription) : option time :=
  match us_MonthlyWindowStart s with
  | None => None
  | Some w => Some (windowResetAnchor s w + month)
  end.

(** ** The usage limits *)

Definition check_limit (has : bool) (limit : option f64) (usage additionalCost : f64) : bool :=
  if negb has then true
  else match limit with Some l => fleb (fadd usage additionalCost) l | None => true end.

Definition CheckDailyLimit (g : Group) (cost : f64) (s : UserSubscription) : bool :=
  check_limit (HasDailyLimit g) (g_DailyLimitUSD g) (us_DailyUsageUSD s) cost.
Definition CheckWeeklyLimit (g : Group) (cost : f64) (s : UserSubscription) : bool :=
  check_limit (HasWeeklyLimit g) (g_WeeklyLimitUSD g) (us_WeeklyUsageUSD s) cost.
Definition CheckMonthlyLimit (g : Group) (cost : f64) (s : UserSubscription) : bool :=
  check_limit (HasMonthlyLimit g) (g_MonthlyLimitUSD g) (us_MonthlyUsageUSD s) cost.

Definition CheckAllLimits (g : Group) (cost : f64) (s : UserSubscription) : bool * bool * bool :=
  (CheckDailyLimit g cost s, CheckWeeklyLimit g cost s, CheckMonthlyLimit g cost s).

Inductive SubscriptionError :=
| ErrSubscriptionNotFound | ErrSubscriptionExpired | ErrSubscriptionSuspended
| ErrSubscriptionAlreadyExists | ErrSubscriptionAssignConflict (reason : string)
| ErrSubscriptionNotRevoked | ErrSubscriptionRestoreConflict | ErrGroupNotSubscriptionType
| ErrInvalidInput | ErrDailyLimitExceeded | ErrWeeklyLimitExceeded | ErrMonthlyLimitExceeded
| ErrAdjustWouldExpire | ErrCannotShortenExpired | ErrGroupNotFound | ErrStatement.

#[export] Instance SubscriptionError_eq_dec : EqDecision SubscriptionError.
Proof. solve_decision. Defined.

Definition CheckUsageLimits (g : Group) (cost : f64) (s : UserSubscription)
    : option SubscriptionError :=
  if negb (CheckDailyLimit g cost s) then Some ErrDailyLimitExceeded
  else if negb (CheckWeeklyLimit g cost s) then Some ErrWeeklyLimitExceeded
  else if negb (CheckMonthlyLimit g cost s) then Some ErrMonthlyLimitExceeded
  else None.

(** Field updates shared by the statements and the in-memory corrections. *)
Definition set_daily (w : option time) (u : f64) (s : UserSubscription) : UserSubscription :=
  mkSub (us_ID s) (us_UserID s) (us_GroupID s) (us_StartsAt s) (us_ExpiresAt s) (us_Status s)
    w (us_WeeklyWindowStart s) (us_MonthlyWindowStart s) u (us_WeeklyUsageUSD s)
    (us_MonthlyUsageUSD s) (us_AssignedBy s) (us_AssignedAt s) (us_Notes s) (us_CreatedAt s)
    (us_UpdatedAt s) (us_DeletedAt s).
Definition set_weekly (w : option time) (u : f64) (s : UserSubscription) : UserSubscription :=
  mkSub (us_ID s) (us_UserID s) (us_GroupID s) (us_StartsAt s) (us_ExpiresAt s) (us_Status s)
    (us_DailyWindowStart s) w (us_MonthlyWindowStart s) (us_DailyUsageUSD s) u
    (us_MonthlyUsageUSD s) (us_AssignedBy s) (us_AssignedAt s) (us_Notes s) (us_CreatedAt s)
    (us_UpdatedAt s) (us_DeletedAt s).
Definition set_monthly (w : option time) (u : f64) (s : UserSubscription) : UserSubscription :=
  mkSub (us_ID s) (us_UserID s) (us_GroupID s) (us_StartsAt s) (us_ExpiresAt s) (us_Status s)
    (us_DailyWindowStart s) (us_WeeklyWindowStart s) w (us_DailyUsageUSD s) (us_WeeklyUsageUSD s)
    u (us_AssignedBy s) (us_AssignedAt s) (us_Notes s) (us_CreatedAt s)
    (us_UpdatedAt s) (us_DeletedAt s).
Definition set_sub_status (st : string) (s : UserSubscription) : UserSubscription :=
  mkSub (us_ID s) (us_UserID s) (us_GroupID s) (us_StartsAt s) (us_ExpiresAt s) st
    (us_DailyWindowStart s) (us_WeeklyWindowStart s) (us_MonthlyWindowStart s)
    (us_DailyUsageUSD s) (us_WeeklyUsageUSD s) (us_MonthlyUsageUSD s) (us_AssignedBy s)
    (us_AssignedAt s) (us_Notes s) (us_CreatedAt s) (us_UpdatedAt s) (us_DeletedAt s).

(** [ValidateAndCheckLimits]: it zeroes the usage of stale windows in the
    subscription it is given, which it returns here. *)
Definition ValidateAndCheckLimits (now : time) (g : Group) (s : UserSubscription)
    : UserSubscription * bool * option SubscriptionError :=
  if us_Status s ==? SubscriptionStatusExpired then (s, false, Some ErrSubscriptionExpired)
  else if us_Status s ==? SubscriptionStatusSuspended then (s, false, Some ErrSubscriptionSuspended)
  else if negb (After (us_ExpiresAt s) now) then (s, false, Some ErrSubscriptionExpired)
  else
    let d := canAutomaticallyResetDailyAt now s in
    let s1 := if d then set_daily (us_DailyWindowStart s) f0 s else s in
    let w := canAutomaticallyResetWeeklyAt now s1 in
    let s2 := if w then set_weekly (us_WeeklyWindowStart s1) f0 s1 else s1 in
    let m := canAutomaticallyResetMonthlyAt now s2 in
    let s3 := if m then set_monthly (us_MonthlyWindowStart s2) f0 s2 else s2 in
    let needsMaintenance := d || w || m || negb (IsWindowActivated s3) in
    (s3, needsMaintenance,
     if negb (CheckDailyLimit g f0 s3) then Some ErrDailyLimitExceeded
     else if negb (CheckWeeklyLimit g f0 s3) then Some ErrWeeklyLimitExceeded
     else if negb (CheckMonthlyLimit g f0 s3) then Some ErrMonthlyLimitExceeded
     else None).

(** The subscriptions as the lists show them. *)
Definition normalizeExpiredWindowAt (now : time) (s : UserSubscription) : UserSubscription :=
  let s := if canAutomaticallyResetDailyAt now s then set_daily None f0 s else s in
  let s := if canAutomaticallyResetWeeklyAt now s then set_weekly None f0 s else s in
  if canAutomaticallyResetMonthlyAt now s then set_monthly None f0 s else s.

Definition normalizeExpiredWindowsAt (now : time) : list UserSubscription -> list UserSubscription :=
  map (normalizeExpiredWindowAt now).

Definition normalizeSubscriptionStatus (now : time) : list UserSubscription -> list UserSubscription :=
  map (fun s => if (us_Status s ==? SubscriptionStatusActive) && negb (After (us_ExpiresAt s) now)
                then set_sub_status SubscriptionStatusExpired s else s).

(** ** Progress of the windows ([calculateProgress]) *)

Record UsageWindowProgress := mkProgress {
  LimitUSD : f64;
  UsedUSD : f64;
  RemainingUSD : f64;
  Percentage : f64;
  WindowStart : time;
  ResetsAt : time;
  ResetsInSeconds : Z;
}.

Record SubscriptionProgress := mkSubProgress {
  sp_ID : Z;
  sp_GroupName : string;
  sp_ExpiresAt : time;
  sp_ExpiresInDays : Z;
  sp_Daily : option UsageWindowProgress;
  sp_Weekly : option UsageWindowProgress;
  sp_Monthly : option UsageWindowProgress;
}.

(** [int64(d.Seconds())]. *)
Definition whole_seconds (d : duration) : Z :=
  f64_to_int64 (fadd (f64_of_Z (Z.quot d second)) (fdiv (f64_of_Z (Z.rem d second)) (f64_of_Z (10 ^ 9)))).

(** The three branches of the source differ in the fields they read only. *)
Definition window_progress (now : time) (has : bool) (limit : option f64) (start : option time)
    (used : f64) (resetsAt : option time) (default : duration) : option UsageWindowProgress :=
  match start, limit with
  | Some w, Some l =>
      if negb has then None
      else
        let r := match resetsAt with Some r => r | None => w + default end in
        let remaining := fsub l used in
        let percentage := fmul (fdiv used l) (f64_of_Z 100) in
        let seconds := whole_seconds (Sub r now) in
        Some (mkProgress l used
                (if fltb remaining f0 then f0 else remaining)
                (if fltb (f64_of_Z 100) percentage then f64_of_Z 100 else percentage)
                w r (if seconds <? 0 then 0 else seconds))
  | _, _ => None
  end.

Definition calculateProgress (now : time) (g : Group) (s : UserSubscription) : SubscriptionProgress :=
  mkSubProgress (us_ID s) (g_Name g) (us_ExpiresAt s) (daysRemainingAt now s)
    (window_progress now (HasDailyLimit g) (g_DailyLimitUSD g) (us_DailyWindowStart s)
       (us_DailyUsageUSD s) (DailyResetTime s) (24 * hour))
    (window_progress now (HasWeeklyLimit g) (g_WeeklyLimitUSD g) (us_WeeklyWindowStart s)
       (us_WeeklyUsageUSD s) (WeeklyResetTime s) week)
    (window_progress now (HasMonthlyLimit g) (g_MonthlyLimitUSD g) (us_MonthlyWindowStart s)
       (us_MonthlyUsageUSD s) (MonthlyResetTime s) month).

(** ** Terms *)

Definition MaxExpiresAt : time := Date UTC 2099 12 31 23 59 59.
Definition MaxValidityDays : Z := 36500.

Record AssignSubscriptionInput := mkAssign {
  in_UserID : Z;
  in_GroupID : Z;
  in_ValidityDays : Z;
  in_AssignedBy : Z;
  in_Notes : string;
}.

Definition normalizeAssignValidityDays (days : Z) : Z :=
  let days := if days <=? 0 then 30 else days in
  if MaxValidityDays <? days then MaxValidityDays else days.

Definition appendSubscriptionNotes (existingNotes newNotes : string) : string :=
  if newNotes ==? "" then existingNotes
  else if existingNotes ==? "" then newNotes
  else existingNotes +:+ bytes [10%nat] +:+ newNotes.

(** The clamp that every new expiry goes through. *)
Definition clamp_expiry (t : time) : time := if After t MaxExpiresAt then MaxExpiresAt else t.

Definition renewedSubscriptionTerm (s : UserSubscription) (notes : string)
    (startsAt expiresAt : time) : UserSubscription :=
  mkSub (us_ID s) (us_UserID s) (us_GroupID s) startsAt expiresAt SubscriptionStatusActive
    (Some (StartOfDay startsAt)) (Some startsAt) (Some startsAt) f0 f0 f0
    (us_AssignedBy s) (us_AssignedAt s) (appendSubscriptionNotes (us_Notes s) notes)
    (us_CreatedAt s) (us_UpdatedAt s) (us_DeletedAt s).

(** [updateExistingSubscriptionTerm]: whether the term is over, and the new expiry. *)
Definition term_is_over (assignmentSemantics : bool) (now : time) (s : UserSubscription) : bool :=
  if assignmentSemantics
  then (us_Status s ==? SubscriptionStatusExpired)
       || ((us_Status s !=? SubscriptionStatusSuspended) && negb (After (us_ExpiresAt s) now))
  else negb (After (us_ExpiresAt s) now).

Definition term_expiry (isExpired : bool) (now : time) (days : Z) (s : UserSubscription) : time :=
  clamp_expiry (if isExpired then AddDate_days loc now days
                else AddDate_days dloc (us_ExpiresAt s) days).

(** The row [createSubscription] inserts; [id] is the sequence's. *)
Definition new_subscription (id : Z) (now : time) (input : AssignSubscriptionInput) : UserSubscription :=
  mkSub id (in_UserID input) (in_GroupID input) now
    (clamp_expiry (AddDate_days loc now (normalizeAssignValidityDays (in_ValidityDays input))))
    SubscriptionStatusActive None None None f0 f0 f0
    (if 0 <? in_AssignedBy input then Some (in_AssignedBy input) else None)
    now (in_Notes input) now now None.

Definition detectAssignSemanticConflict (s : UserSubscription) (input : AssignSubscriptionInput)
    : option string :=
  let expected := clamp_expiry (AddDate_days dloc (us_StartsAt s)
                                  (normalizeAssignValidityDays (in_ValidityDays input))) in
  if negb (IsZero (us_StartsAt s)) && negb (us_ExpiresAt s =? expected)
  then Some "validity_days_mismatch"
  else if TrimSpace (us_Notes s) !=? TrimSpace (in_Notes input) then Some "notes_mismatch"
  else None.

(** [ExtendSubscription] up to its first update: the new expiry, or the refusal. *)
Definition adjusted_expiry (now : time) (days : Z) (s : UserSubscription)
    : result SubscriptionError time :=
  let days := if MaxValidityDays <? days then MaxValidityDays else days in
  let days := if days <? - MaxValidityDays then - MaxValidityDays else days in
  let isExpired := negb (After (us_ExpiresAt s) now) in
  if isExpired && (days <? 0) then Err ErrCannotShortenExpired
  else
    let newExpiresAt :=
      clamp_expiry (if isExpired then AddDate_days loc now days
                    else AddDate_days dloc (us_ExpiresAt s) days) in
    if negb (After newExpiresAt now) then Err ErrAdjustWouldExpire else Ok newExpiresAt.

(** ** The windows move forward, by whole periods, inside the term *)

Lemma anchor_after s w : w <= windowResetAnchor s w.
Proof.
  unfold windowResetAnchor, Before. destruct (_ && _) eqn:E; [|lia].
  apply andb_true_iff in E as [E1 E2]. apply Z.eqb_eq in E2. apply Z.ltb_lt in E1. lia.
Qed.

Lemma Sub_le t u : t - u >= 0 -> 0 <= Sub t u <= t - u.
Proof. unfold Sub, int64_min, int64_max. lia. Qed.

Lemma Sub_exact t u : 0 <= t - u <= int64_max -> Sub t u = t - u.
Proof. unfold Sub, int64_min, int64_max. lia. Qed.

Lemma quot_step a p : 0 < p -> p <= a -> 1 <= Z.quot a p /\ Z.quot a p * p <= a.
Proof.
  intros Hp Ha. rewrite Z.quot_div_nonneg by lia. split.
  - apply Z.div_le_lower_bound; lia.
  - rewrite Z.mul_comm. apply Z.mul_div_le. done.
Qed.

(** A step of a window: from the anchor by whole periods, to an instant that
    has come and that the term still covers; and it is the last such instant
    unless the differences saturate. *)
Lemma window_step s w p now w' :
  0 < p < int64_max -> automaticWindowStartAt s (Some w) p now = Some w' ->
  let a := windowResetAnchor s w in
  (exists k, 1 <= k /\ w' = a + k * p) /\ w' <= now /\ w' < us_ExpiresAt s /\
  (now - a <= int64_max -> us_ExpiresAt s - a <= int64_max ->
   now < w' + p \/ us_ExpiresAt s <= w' + p).
Proof.
  intros Hp H a. unfold automaticWindowStartAt in H. fold a in H.
  destruct (_ || _) eqn:E; [done|]. apply orb_false_iff in E as [E1 E2].
  apply negb_false_iff in E2. unfold Before in *. apply Z.ltb_ge in E1. apply Z.ltb_lt in E2.
  pose proof (Sub_le now a ltac:(lia)) as Hn. pose proof (Sub_le (us_ExpiresAt s) a ltac:(lia)) as He.
  assert (p <= Sub now a <= int64_max /\ p <= Sub (us_ExpiresAt s) a - 1 < int64_max) as [Hn' He']
    by (unfold Sub, int64_min, int64_max in *; lia).
  rewrite (wrap64_id (_ - 1)) in H by (unfold int64_min, int64_max in *; lia).
  destruct (quot_step (Sub now a) p) as [Kn1 Kn2]; [lia..|].
  destruct (quot_step (Sub (us_ExpiresAt s) a - 1) p) as [Ke1 Ke2]; [lia..|].
  assert (forall b, p <= b -> b < (Z.quot b p + 1) * p) as Hup.
  { intros b Hb. rewrite Z.quot_div_nonneg by lia. pose proof (Z.mul_succ_div_gt b p ltac:(lia)). lia. }
  pose proof (Hup (Sub now a) ltac:(lia)) as Un.
  pose proof (Hup (Sub (us_ExpiresAt s) a - 1) ltac:(lia)) as Ue. clear Hup.
  set (kn := Z.quot (Sub now a) p) in *. set (ke := Z.quot (Sub (us_ExpiresAt s) a - 1) p) in *.
  injection H as <-. split_and!.
  - exists (if ke <? kn then ke else kn).
    rewrite wrap64_id by (destruct (ke <? kn); unfold int64_min, int64_max in *; lia).
    split; [|done]. destruct (ke <? kn); lia.
  - rewrite wrap64_id by (destruct (ke <? kn); unfold int64_min, int64_max in *; lia).
    destruct (Z.ltb_spec ke kn); [|lia]. nia.
  - rewrite wrap64_id by (destruct (ke <? kn); unfold int64_min, int64_max in *; lia).
    destruct (Z.ltb_spec ke kn); [lia|]. nia.
  - intros R1 R2. rewrite (Sub_exact now a), (Sub_exact (us_ExpiresAt s) a) in * by lia.
    rewrite wrap64_id by (destruct (ke <? kn); unfold int64_min, int64_max in *; lia).
    destruct (ke <? kn); [right|left]; lia.
Qed.

Lemma window_none s w p now :
  automaticWindowStartAt s (Some w) p now = None <->
  now < windowResetAnchor s w + p \/ us_ExpiresAt s <= windowResetAnchor s w + p.
Proof.
  unfold automaticWindowStartAt. cbv zeta. unfold Before.
  destruct (Z.ltb_spec now (windowResetAnchor s w + p)); cbn [orb]; [split; intros; [tauto|done]|].
  destruct (Z.ltb_spec (windowResetAnchor s w + p) (us_ExpiresAt s)); cbn [negb];
    (split; intros; [done || tauto|]); lia || done.
Qed.

(** ** How many windows a term grants *)

(** The window start after maintenance at the instants [nows], and how often
    it moved (each move zeroes the usage). *)
Fixpoint window_run (s : UserSubscription) (p : duration) (w : time) (nows : list time)
    : time * Z :=
  match nows with
  | [] => (w, 0)
  | now :: rest =>
      match automaticWindowStartAt s (Some w) p now with
      | Some w' => let '(v, n) := window_run s p w' rest in (v, n + 1)
      | None => window_run s p w rest
      end
  end.

Lemma window_run_bound s p w nows :
  0 < p < int64_max ->
  let '(v, n) := window_run s p w nows in
  0 <= n /\ w + n * p <= v /\ (n = 0 /\ v = w \/ v < us_ExpiresAt s).
Proof.
  intros Hp. revert w. induction nows as [|now rest IH]; intros w; cbn [window_run]; [lia|].
  destruct (automaticWindowStartAt s (Some w) p now) as [w'|] eqn:E; [|apply IH].
  specialize (IH w'). destruct (window_run s p w' rest) as [v n].
  destruct (window_step s w p now w' Hp E) as ((k & Hk & Hw) & _ & Hx & _).
  pose proof (anchor_after s w). nia.
Qed.

(** ** The announced reset times *)

Lemma daily_reset_calm lo hi off s start now :
  calm loc lo hi off -> inside lo hi (start - day) -> inside lo hi now -> inside lo hi (start + day) ->
  us_DailyWindowStart s = Some start -> HasOneTimeDailyQuota s = false ->
  DailyResetTime s = Some (day_floor off start + day) /\
  (canAutomaticallyResetDailyAt now s = true <-> day_floor off start + day <= now) /\
  (forall w, automaticDailyWindowStartAt now s = Some w -> w = day_floor off now).
Proof.
  intros Hc Hs Hn Hd Hw Ho. unfold DailyResetTime, canAutomaticallyResetDailyAt, automaticDailyWindowStartAt.
  rewrite Hw, Ho. unfold StartOfDay. pose proof (day_floor_bounds off start) as Hb.
  assert (0 < day) as Hpos by done.
  rewrite !(midnight_calm _ _ _ _ _ Hc) by (done || (eapply inside_between; [exact Hs|exact Hd|lia])).
  split_and!.
  - replace (day_floor off start + day) with (day_floor off start + 1 * day) by lia.
    by rewrite (AddDate_days_calm _ _ _ _ _ _ Hc) by (eapply inside_between; [exact Hs|exact Hd|lia]).
  - unfold After. rewrite <- day_floor_lt. destruct (Z.ltb_spec (day_floor off start) (day_floor off now)); cbn [negb is_some].
    + tauto.
    + split; [done|lia].
  - intros w. destruct (negb _); congruence.
Qed.

(** The reset times shown to the user are the instants at which the
    windows really roll over: the daily window at the next local midnight, the
    weekly and monthly ones a whole period after their anchor; and a period
    that the term would not outlive is never started. *)
Theorem announced_resets_happen lo hi off s now :
  calm loc lo hi off -> inside lo hi now ->
  (forall start, us_DailyWindowStart s = Some start ->
     inside lo hi (start - day) /\ inside lo hi (start + day)) ->
  (HasOneTimeDailyQuota s = false ->
   canAutomaticallyResetDailyAt now s = true <-> exists r, DailyResetTime s = Some r /\ r <= now) /\
  (HasOneTimeDailyQuota s = true -> canAutomaticallyResetDailyAt now s = false) /\
  (canAutomaticallyResetWeeklyAt now s = true <->
   exists r, WeeklyResetTime s = Some r /\ r <= now /\ r < us_ExpiresAt s) /\
  (canAutomaticallyResetMonthlyAt now s = true <->
   exists r, MonthlyResetTime s = Some r /\ r <= now /\ r < us_ExpiresAt s).
Proof.
  intros Hc Hn Hs.
  assert (forall o p, is_some (automaticWindowStartAt s o p now) = true <->
    exists r, (match o with Some w => Some (windowResetAnchor s w + p) | None => None end) = Some r /\
      r <= now /\ r < us_ExpiresAt s) as Hper.
  { intros [w|] p; [|cbn; naive_solver].
    destruct (automaticWindowStartAt s (Some w) p now) as [w'|] eqn:E.
    - cbn [is_some]. split; [intros _|intros _; reflexivity]. eexists. split; [reflexivity|].
      destruct (decide (now < windowResetAnchor s w + p \/ us_ExpiresAt s <= windowResetAnchor s w + p)) as [Hd|Hd]; [|lia].
      apply window_none in Hd. congruence.
    - apply window_none in E. cbn [is_some]. split; [intros [=]|]. intros (r & [= <-] & ?). lia. }
  split_and!; [| |apply Hper|apply Hper].
  - intros Ho. destruct (us_DailyWindowStart s) as [start|] eqn:E.
    + destruct (Hs start eq_refl) as [H1 H2].
      destruct (daily_reset_calm lo hi off s start now Hc H1 Hn H2 E Ho) as (-> & -> & _). naive_solver.
    + unfold canAutomaticallyResetDailyAt, automaticDailyWindowStartAt, DailyResetTime. rewrite E.
      cbn [is_some]. naive_solver.
  - intros Ho. unfold canAutomaticallyResetDailyAt, automaticDailyWindowStartAt.
    destruct (us_DailyWindowStart s); [by rewrite Ho|done].
Qed.

(** However often and at whatever clock readings the maintenance runs, a
    weekly or monthly window moves only forward and never past the term: from
    a window that starts at [w] the quota is renewed [n] times only if [n]
    whole periods fit strictly between [w] and the expiry. *)
Theorem window_grants_bounded s p w nows :
  p = week \/ p = month ->
  let '(v, n) := window_run s p w nows in
  0 <= n /\ w + n * p <= v /\ (0 < n -> v < us_ExpiresAt s /\ n * p < us_ExpiresAt s - w).
Proof.
  intros Hp. assert (0 < p < int64_max) as Hp' by (destruct Hp as [-> | ->]; vm_compute; done).
  pose proof (window_run_bound s p w nows Hp'). destruct (window_run s p w nows) as [v n]. lia.
Qed.

(** A value clamped at a bound from either side. *)
Lemma clamp_above a x : fltb a a = false -> fltb a (if fltb a x then a else x) = false.
Proof. intros Ha. by destruct (fltb a x) eqn:E. Qed.

Lemma clamp_below a x : fltb a a = false -> fltb (if fltb x a then a else x) a = false.
Proof. intros Ha. by destruct (fltb x a) eqn:E. Qed.

(** The number of days shown as remaining is the smallest that covers
    the rest of the term, and the progress of a window is within its bounds. *)
Theorem progress_bounds now g s :
  us_ExpiresAt s - now <= int64_max ->
  let d := daysRemainingAt now s in
  (us_ExpiresAt s <= now -> d = 0) /\
  (now < us_ExpiresAt s -> 0 < d /\ (d - 1) * day < us_ExpiresAt s - now <= d * day) /\
  (forall u, sp_Daily (calculateProgress now g s) = Some u \/ sp_Weekly (calculateProgress now g s) = Some u \/
     sp_Monthly (calculateProgress now g s) = Some u ->
     fltb (RemainingUSD u) f0 = false /\ fltb (f64_of_Z 100) (Percentage u) = false /\
     0 <= ResetsInSeconds u).
Proof.
  intros Hmax d. subst d. unfold daysRemainingAt. cbv zeta. split_and!.
  - intros H. destruct (Z.leb_spec (Sub (us_ExpiresAt s) now) 0); [done|].
    unfold Sub, int64_min, int64_max in *. lia.
  - intros H. rewrite Sub_exact by lia. destruct (Z.leb_spec (us_ExpiresAt s - now) 0); [lia|].
    unfold subscriptionDayDuration, day. set (x := us_ExpiresAt s - now) in *. set (p := 24 * hour).
    assert (0 < p) by done. pose proof (Z.quot_rem x p ltac:(lia)) as Hq.
    pose proof (Z.rem_bound_pos x p ltac:(lia) ltac:(lia)) as Hb.
    destruct (Z.eqb_spec (Z.rem x p) 0); cbn [negb]; nia.
  - assert (forall h l w us r p u, window_progress now h l w us r p = Some u ->
      fltb (RemainingUSD u) f0 = false /\ fltb (f64_of_Z 100) (Percentage u) = false /\
      0 <= ResetsInSeconds u) as Hw.
    { intros h l w us r p u H. unfold window_progress in H.
      destruct w as [w|]; [|done]. destruct l as [l|]; [|done]. destruct (negb h); [done|].
      cbv zeta in H. set (secs := whole_seconds _) in H. injection H as <-.
      cbn [RemainingUSD Percentage ResetsInSeconds]. split_and!.
      - apply clamp_below. vm_compute. reflexivity.
      - apply clamp_above. vm_compute. reflexivity.
      - destruct (Z.ltb_spec secs 0); lia. }
    intros u [H|[H|H]]; exact (Hw _ _ _ _ _ _ u H).
Qed.

End Windows.

(** ** A concrete subscription *)

(** Thirty days from 2025-01-01T10:00Z. *)
Definition ex_start : time := Date UTC 2025 1 1 10 0 0.
Definition ex_sub : UserSubscription :=
  mkSub 1 7 3 ex_start (ex_start + 30 * day) SubscriptionStatusActive
    (Some (Date UTC 2025 1 1 0 0 0)) (Some ex_start) (Some ex_start) f1 f1 f1 None ex_start ""
    ex_start ex_start None.

Example ex_weekly :
  weekly_window_at UTC (ex_start + 22 * day) ex_sub = Some (ex_start + 21 * day) /\
  monthly_window_at UTC (ex_start + 40 * day) ex_sub = None /\
  automaticDailyWindowStartAt UTC UTC (ex_start + day) ex_sub = Some (Date UTC 2025 1 2 0 0 0).
Proof. vm_compute. repeat split. Qed.

Lemma announced_resets_happen_witness :
  canAutomaticallyResetWeeklyAt UTC (ex_start + 7 * day) ex_sub = true.
Proof.
  destruct (announced_resets_happen UTC UTC 0 (10 ^ 10) 0 ex_sub (ex_start + 7 * day)) as (_ & _ & H & _).
  - apply calm_UTC.
  - vm_compute. split; discriminate.
  - intros start [= <-]. vm_compute. repeat split; discriminate.
  - apply H. exists (ex_start + 7 * day). vm_compute. repeat split; discriminate.
Defined.

Lemma window_grants_bounded_witness :
  (window_run UTC ex_sub week ex_start [ex_start + 8 * day; ex_start + 8 * day; ex_start + 400 * day]).2 * week
  < us_ExpiresAt ex_sub - ex_start.
Proof.
  pose proof (window_grants_bounded UTC ex_sub week ex_start
    [ex_start + 8 * day; ex_start + 8 * day; ex_start + 400 * day] (or_introl eq_refl)) as H.
  destruct (window_run _ _ _ _ _) as [v n] eqn:E. vm_compute in E. injection E as <- <-.
  apply H. done.
Defined.

Lemma progress_bounds_witness :
  0 < daysRemainingAt (ex_start + 29 * day + hour) ex_sub.
Proof.
  destruct (progress_bounds UTC UTC (ex_start + 29 * day + hour)
    (mkGroup "g" SubscriptionTypeSubscription (Some f1) None None) ex_sub) as (_ & H & _).
  - vm_compute. discriminate.
  - apply H. vm_compute. reflexivity.
Defined.
