(* ===== verification/SubscriptionStore.v ===== *)
(** * The subscription table and the subscription service:
    internal/repository/user_subscription_repo.go and
    internal/service/subscription_service.go

    Every statement of the repository is a function on the table, and every
    service operation the sequence of statements and clock readings it makes.
    The surroundings [env] say when each clock reading happens and whether
    each statement works, fails, or takes effect with its reply lost; both are
    indexed by a counter of the steps made.  The in-memory caches are left
    out: their invalidation is a step that may fail where the code returns
    its error. *)

From S2P Require Import Prelude Float64 GoTime Subscription.
Local Open Scope Z_scope.

Abbreviation subscriptions := (gmap Z UserSubscription).

Record store := mkStore {
  st_subs : subscriptions;
  st_next : Z;                 (** the id the next insert gets *)
  st_groups : gmap Z Group;    (** the groups that are not deleted *)
}.

Definition with_subs (m : subscriptions) (st : store) : store :=
  mkStore m (st_next st) (st_groups st).

Record env := mkEnv { e_fault : nat -> fault; e_now : nat -> time }.

(** ** Sequences of statements *)

Definition M (A : Type) : Type := nat -> store -> result SubscriptionError A * nat * store.

Definition ret {A} (a : A) : M A := fun n st => (Ok a, n, st).
Definition throw {A} (e : SubscriptionError) : M A := fun n st => (Err e, n, st).
Definition bind {A B} (m : M A) (k : A -> M B) : M B := fun n st =>
  match m n st with
  | (Ok a, n', st') => k a n' st'
  | (Err e, n', st') => (Err e, n', st')
  end.
(** The reply as a value, for code that looks at the error. *)
Definition attempt {A} (m : M A) : M (result SubscriptionError A) := fun n st =>
  let '(r, n', st') := m n st in (Ok r, n', st').

Notation "'let*' x := m 'in' k" := (bind m (fun x => k))
  (at level 200, x name, m at level 100, k at level 200, right associativity) : go_scope.
Notation "m ;; k" := (bind m (fun _ => k)) (at level 100, right associativity) : go_scope.

Section Service.
Variable env : env.
Variables loc dloc : Location.

Definition clock : M time := fun n st => (Ok (e_now env n), S n, st).

Definition statement {A} (f : time -> store -> result SubscriptionError A * store) : M A := fun n st =>
  match e_fault env n with
  | Fine => let '(r, st') := f (e_now env n) st in (r, S n, st')
  | LostBefore => (Err ErrStatement, S n, st)
  | LostAfter => (Err ErrStatement, S n, (f (e_now env n) st).2)
  end.

(** [withSubscriptionUpdateTx] without an outer transaction: begin, the body,
    commit or rollback. *)
Definition transaction {A} (body : M A) : M A := fun n st =>
  match e_fault env n with
  | Fine =>
      match body (S n) st with
      | (Err e, n', _) => (Err e, n', st)
      | (Ok a, n', st') =>
          match e_fault env n' with
          | Fine => (Ok a, S n', st')
          | LostBefore => (Err ErrStatement, S n', st)
          | LostAfter => (Err ErrStatement, S n', st')
          end
      end
  | _ => (Err ErrStatement, S n, st)
  end.

(** ** The statements *)

(** Queries see the rows that are not soft-deleted. *)
Definition live (s : UserSubscription) : bool := negb (is_some (us_DeletedAt s)).

Definition get_live (id : Z) (st : store) : option UserSubscription :=
  match st_subs st !! id with
  | Some s => if live s then Some s else None
  | None => None
  end.

Definition of_user_group (userID groupID : Z) (s : UserSubscription) : bool :=
  (us_UserID s =? userID) && (us_GroupID s =? groupID).

Definition live_of (userID groupID : Z) (st : store) : list UserSubscription :=
  List.filter (fun s => live s && of_user_group userID groupID s) (map_to_list (st_subs st)).*2.

Definition found {A} (e : SubscriptionError) (o : option A) : result SubscriptionError A :=
  match o with Some a => Ok a | None => Err e end.

(** [Only]: a second match is an error of its own. *)
Definition only (l : list UserSubscription) : result SubscriptionError UserSubscription :=
  match l with
  | [] => Err ErrSubscriptionNotFound
  | [s] => Ok s
  | _ => Err ErrStatement
  end.

Definition repo_GetByID (id : Z) : M UserSubscription :=
  statement (fun _ st => (found ErrSubscriptionNotFound (get_live id st), st)).
Definition repo_GetByIDForUpdate (id : Z) : M UserSubscription := repo_GetByID id.
Definition repo_GetByIDIncludeDeleted (id : Z) : M UserSubscription :=
  statement (fun _ st => (found ErrSubscriptionNotFound (st_subs st !! id), st)).
Definition repo_GetByUserIDAndGroupID (userID groupID : Z) : M UserSubscription :=
  statement (fun _ st => (only (live_of userID groupID st), st)).
Definition repo_GetActiveByUserIDAndGroupID (userID groupID : Z) : M UserSubscription :=
  statement (fun now st =>
    (only (List.filter (fun s => (us_Status s ==? SubscriptionStatusActive) && After (us_ExpiresAt s) now)
             (live_of userID groupID st)), st)).
Definition repo_ExistsByUserIDAndGroupID (userID groupID : Z) : M bool :=
  statement (fun _ st =>
    (Ok (match live_of userID groupID st with [] => false | _ => true end), st)).
Definition group_GetByID (groupID : Z) : M Group :=
  statement (fun _ st => (found ErrGroupNotFound (st_groups st !! groupID), st)).

(** The row as the insert leaves it. *)
Definition inserted (id : Z) (now : time) (s : UserSubscription) : UserSubscription :=
  mkSub id (us_UserID s) (us_GroupID s)
    (if IsZero (us_StartsAt s) then now else us_StartsAt s) (us_ExpiresAt s)
    (if us_Status s ==? "" then SubscriptionStatusActive else us_Status s)
    (us_DailyWindowStart s) (us_WeeklyWindowStart s) (us_MonthlyWindowStart s)
    (us_DailyUsageUSD s) (us_WeeklyUsageUSD s) (us_MonthlyUsageUSD s) (us_AssignedBy s)
    (if IsZero (us_AssignedAt s) then now else us_AssignedAt s) (us_Notes s) now now None.

(** The partial unique index on [(user_id, group_id)] guards the insert; the
    id of the row is written back to the caller. *)
Definition repo_Create (s : UserSubscription) : M Z :=
  statement (fun now st =>
    match live_of (us_UserID s) (us_GroupID s) st with
    | [] => (Ok (st_next st),
             mkStore (<[st_next st := inserted (st_next st) now s]> (st_subs st))
               (st_next st + 1) (st_groups st))
    | _ => (Err ErrSubscriptionAlreadyExists, st)
    end).

(** [UpdateOneID]: soft-deleted rows are found too. *)
Definition update_row (id : Z) (f : UserSubscription -> UserSubscription) (st : store)
    : result SubscriptionError unit * store :=
  match st_subs st !! id with
  | Some s => (Ok tt, with_subs (<[id := f s]> (st_subs st)) st)
  | None => (Err ErrSubscriptionNotFound, st)
  end.

Definition or_old {A} (new old : option A) : option A :=
  match new with Some _ => new | None => old end.

(** [Update]: a nil pointer leaves its column alone. *)
Definition updated_row (now : time) (s old : UserSubscription) : UserSubscription :=
  mkSub (us_ID old) (us_UserID s) (us_GroupID s) (us_StartsAt s) (us_ExpiresAt s) (us_Status s)
    (or_old (us_DailyWindowStart s) (us_DailyWindowStart old))
    (or_old (us_WeeklyWindowStart s) (us_WeeklyWindowStart old))
    (or_old (us_MonthlyWindowStart s) (us_MonthlyWindowStart old))
    (us_DailyUsageUSD s) (us_WeeklyUsageUSD s) (us_MonthlyUsageUSD s)
    (or_old (us_AssignedBy s) (us_AssignedBy old)) (us_AssignedAt s) (us_Notes s)
    (us_CreatedAt old) now (us_DeletedAt old).

Definition repo_Update (s : UserSubscription) : M unit :=
  statement (fun now st => update_row (us_ID s) (updated_row now s) st).

(** One column and [updated_at]. *)
Definition touched (now : time) (s : UserSubscription) : UserSubscription :=
  mkSub (us_ID s) (us_UserID s) (us_GroupID s) (us_StartsAt s) (us_ExpiresAt s) (us_Status s)
    (us_DailyWindowStart s) (us_WeeklyWindowStart s) (us_MonthlyWindowStart s)
    (us_DailyUsageUSD s) (us_WeeklyUsageUSD s) (us_MonthlyUsageUSD s) (us_AssignedBy s)
    (us_AssignedAt s) (us_Notes s) (us_CreatedAt s) now (us_DeletedAt s).
Definition set_expiry (t : time) (s : UserSubscription) : UserSubscription :=
  mkSub (us_ID s) (us_UserID s) (us_GroupID s) (us_StartsAt s) t (us_Status s)
    (us_DailyWindowStart s) (us_WeeklyWindowStart s) (us_MonthlyWindowStart s)
    (us_DailyUsageUSD s) (us_WeeklyUsageUSD s) (us_MonthlyUsageUSD s) (us_AssignedBy s)
    (us_AssignedAt s) (us_Notes s) (us_CreatedAt s) (us_UpdatedAt s) (us_DeletedAt s).
Definition set_notes (notes : string) (s : UserSubscription) : UserSubscription :=
  mkSub (us_ID s) (us_UserID s) (us_GroupID s) (us_StartsAt s) (us_ExpiresAt s) (us_Status s)
    (us_DailyWindowStart s) (us_WeeklyWindowStart s) (us_MonthlyWindowStart s)
    (us_DailyUsageUSD s) (us_WeeklyUsageUSD s) (us_MonthlyUsageUSD s) (us_AssignedBy s)
    (us_AssignedAt s) notes (us_CreatedAt s) (us_UpdatedAt s) (us_DeletedAt s).
Definition set_deleted (d : option time) (s : UserSubscription) : UserSubscription :=
  mkSub (us_ID s) (us_UserID s) (us_GroupID s) (us_StartsAt s) (us_ExpiresAt s) (us_Status s)
    (us_DailyWindowStart s) (us_WeeklyWindowStart s) (us_MonthlyWindowStart s)
    (us_DailyUsageUSD s) (us_WeeklyUsageUSD s) (us_MonthlyUsageUSD s) (us_AssignedBy s)
    (us_AssignedAt s) (us_Notes s) (us_CreatedAt s) (us_UpdatedAt s) d.

Definition repo_ExtendExpiry (id : Z) (t : time) : M unit :=
  statement (fun now st => update_row id (fun s => touched now (set_expiry t s)) st).
Definition repo_UpdateStatus (id : Z) (status : string) : M unit :=
  statement (fun now st => update_row id (fun s => touched now (set_sub_status status s)) st).
Definition repo_UpdateNotes (id : Z) (notes : string) : M unit :=
  statement (fun now st => update_row id (fun s => touched now (set_notes notes s)) st).

(** [Delete] hides the row, and a missing row is no error. *)
Definition repo_Delete (id : Z) : M unit :=
  statement (fun now st =>
    match get_live id st with
    | Some s => (Ok tt, with_subs (<[id := set_deleted (Some now) s]> (st_subs st)) st)
    | None => (Ok tt, st)
    end).

(** [Restore]: the unique index refuses a second live row. *)
Definition repo_Restore (id : Z) (status : string) : M UserSubscription :=
  statement (fun now st =>
    match st_subs st !! id with
    | None => (Err ErrSubscriptionNotFound, st)
    | Some s =>
        match List.filter (fun s' => negb (us_ID s' =? id)) (live_of (us_UserID s) (us_GroupID s) st) with
        | [] => (Ok tt, with_subs (<[id := touched now (set_deleted None (set_sub_status status s))]>
                                     (st_subs st)) st)
        | _ => (Err ErrSubscriptionRestoreConflict, st)
        end
    end) ;; repo_GetByID id.

(** Conditional updates of the windows, by id: the rows affected. *)
Definition update_when (id : Z) (cond : UserSubscription -> bool)
    (f : UserSubscription -> UserSubscription) (st : store) : result SubscriptionError Z * store :=
  match st_subs st !! id with
  | Some s => if cond s then (Ok 1, with_subs (<[id := f s]> (st_subs st)) st) else (Ok 0, st)
  | None => (Ok 0, st)
  end.

(** A stale reset is a no-op; a missing row is an error. *)
Definition translateConditionalWindowReset (id : Z) (affected : Z) : M unit :=
  if 0 <? affected then ret tt
  else statement (fun _ st => (match get_live id st with
                               | Some _ => Ok tt
                               | None => Err ErrSubscriptionNotFound
                               end, st)).

Definition conditional (id : Z) (cond : UserSubscription -> bool)
    (f : time -> UserSubscription -> UserSubscription) : M unit :=
  let* n := statement (fun now st => update_when id cond (f now) st) in
  translateConditionalWindowReset id n.

Definition repo_ActivateWindows (id : Z) (dailyStart periodicStart : time) : M unit :=
  conditional id (fun s => negb (IsWindowActivated s))
    (fun now s => touched now
       (set_daily (Some dailyStart) (us_DailyUsageUSD s)
         (set_weekly (Some periodicStart) (us_WeeklyUsageUSD s)
           (set_monthly (Some periodicStart) (us_MonthlyUsageUSD s) s)))).

(** [WHERE window = expected], NULL when there is none. *)
Definition repo_ResetDailyUsage (id : Z) (expected : option time) (start : time) : M unit :=
  conditional id (fun s => us_DailyWindowStart s ==? expected)
    (fun now s => touched now (set_daily (Some start) f0 s)).
Definition repo_ResetWeeklyUsage (id : Z) (expected : option time) (start : time) : M unit :=
  conditional id (fun s => us_WeeklyWindowStart s ==? expected)
    (fun now s => touched now (set_weekly (Some start) f0 s)).
Definition repo_ResetMonthlyUsage (id : Z) (expected : option time) (start : time) : M unit :=
  conditional id (fun s => us_MonthlyWindowStart s ==? expected)
    (fun now s => touched now (set_monthly (Some start) f0 s)).

Definition reset_windows (d w m : bool) (dailyStart periodicStart : time) (s : UserSubscription)
    : UserSubscription :=
  let s := if d then set_daily (Some dailyStart) f0 s else s in
  let s := if w then set_weekly (Some periodicStart) f0 s else s in
  if m then set_monthly (Some periodicStart) f0 s else s.

Definition repo_ResetUsageWindows (id : Z) (d w m : bool) (dailyStart periodicStart : time) : M unit :=
  statement (fun now st =>
    update_row id (fun s => touched now (reset_windows d w m dailyStart periodicStart s)) st).

Definition add_usage (cost : f64) (s : UserSubscription) : UserSubscription :=
  set_daily (us_DailyWindowStart s) (fadd (us_DailyUsageUSD s) cost)
    (set_weekly (us_WeeklyWindowStart s) (fadd (us_WeeklyUsageUSD s) cost)
      (set_monthly (us_MonthlyWindowStart s) (fadd (us_MonthlyUsageUSD s) cost) s)).

(** The update joins the groups table: the group must not be deleted. *)
Definition repo_IncrementUsage (id : Z) (cost : f64) : M unit :=
  statement (fun now st =>
    match get_live id st with
    | Some s => if is_some (st_groups st !! us_GroupID s)
                then (Ok tt, with_subs (<[id := touched now (add_usage cost s)]> (st_subs st)) st)
                else (Err ErrSubscriptionNotFound, st)
    | None => (Err ErrSubscriptionNotFound, st)
    end).

Definition overdue (now : time) (s : UserSubscription) : bool :=
  (us_Status s ==? SubscriptionStatusActive) && (us_ExpiresAt s <=? now).

Definition repo_BatchUpdateExpiredStatus : M Z :=
  statement (fun now st =>
    (Ok (Z.of_nat (length (List.filter (overdue now) (map_to_list (st_subs st)).*2))),
     with_subs ((fun s => if overdue now s then touched now (set_sub_status SubscriptionStatusExpired s) else s)
                <$> st_subs st) st)).

(** The steps outside the table that can fail: cache invalidation. *)
Definition invalidateSubscriptionCaches : M unit := statement (fun _ st => (Ok tt, st)).

(** ** The service *)

(** [in_tx]: the caller owns a transaction already. *)
Definition withSubscriptionUpdateTx {A} (in_tx : bool) (body : M A) : M A :=
  if in_tx then body else transaction body.

Definition updateExistingSubscriptionTerm (in_tx : bool) (id days : Z) (notes : string)
    (assignmentSemantics : bool) : M unit :=
  withSubscriptionUpdateTx in_tx (
    let* s := repo_GetByIDForUpdate id in
    if assignmentSemantics && (us_Status s ==? SubscriptionStatusSuspended) then ret tt
    else
      let* now := clock in
      let isExpired := term_is_over assignmentSemantics now s in
      let newExpiresAt := term_expiry loc dloc isExpired now days s in
      let notes := if assignmentSemantics && (TrimSpace (us_Notes s) ==? TrimSpace notes)
                   then "" else notes in
      if isExpired then repo_Update (renewedSubscriptionTerm loc s notes now newExpiresAt)
      else
        repo_ExtendExpiry (us_ID s) newExpiresAt ;;
        (if us_Status s !=? SubscriptionStatusActive
         then repo_UpdateStatus (us_ID s) SubscriptionStatusActive else ret tt) ;;
        (if notes !=? "" then repo_UpdateNotes (us_ID s) (appendSubscriptionNotes (us_Notes s) notes)
         else ret tt)).

(** The row to insert is built with the clock read before it. *)
Definition createSubscription (input : AssignSubscriptionInput) : M UserSubscription :=
  let* now := clock in
  let* id := repo_Create (new_subscription loc 0 now input) in
  repo_GetByID id.

Definition group_guard (groupID : Z) : M unit :=
  let* g := group_GetByID groupID in
  if negb (IsSubscriptionType g) then throw ErrGroupNotSubscriptionType else ret tt.

(** The subscription and whether an existing one was extended. *)
Definition assignOrExtendSubscription (in_tx : bool) (input : AssignSubscriptionInput)
    : M (UserSubscription * bool) :=
  group_guard (in_GroupID input) ;;
  let* existing := attempt (repo_GetByUserIDAndGroupID (in_UserID input) (in_GroupID input)) in
  match existing with
  | Ok s =>
      updateExistingSubscriptionTerm in_tx (us_ID s)
        (normalizeAssignValidityDays (in_ValidityDays input)) (in_Notes input) false ;;
      let* s' := repo_GetByID (us_ID s) in ret (s', true)
  | Err _ => let* s := createSubscription input in ret (s, false)
  end.

Definition assignSubscriptionWithReuse (input : AssignSubscriptionInput)
    : M (UserSubscription * bool) :=
  group_guard (in_GroupID input) ;;
  let* exists_ := repo_ExistsByUserIDAndGroupID (in_UserID input) (in_GroupID input) in
  if exists_ : bool then
    let* s := repo_GetByUserIDAndGroupID (in_UserID input) (in_GroupID input) in
    let* now := clock in
    if term_is_over true now s then
      updateExistingSubscriptionTerm false (us_ID s)
        (normalizeAssignValidityDays (in_ValidityDays input)) (in_Notes input) true ;;
      let* s' := repo_GetByID (us_ID s) in ret (s', true)
    else match detectAssignSemanticConflict dloc s input with
         | Some reason => throw (ErrSubscriptionAssignConflict reason)
         | None => ret (s, true)
         end
  else let* s := createSubscription input in ret (s, false).

Record BulkAssignResult := mkBulk {
  SuccessCount : Z; CreatedCount : Z; ReusedCount : Z; FailedCount : Z;
  Statuses : gmap Z string;
}.

Definition bulk_add (userID : Z) (r : result SubscriptionError (UserSubscription * bool))
    (b : BulkAssignResult) : BulkAssignResult :=
  match r with
  | Err _ => mkBulk (SuccessCount b) (CreatedCount b) (ReusedCount b) (FailedCount b + 1)
               (<[userID := "failed"]> (Statuses b))
  | Ok (_, true) => mkBulk (SuccessCount b + 1) (CreatedCount b) (ReusedCount b + 1) (FailedCount b)
               (<[userID := "reused"]> (Statuses b))
  | Ok (_, false) => mkBulk (SuccessCount b + 1) (CreatedCount b + 1) (ReusedCount b) (FailedCount b)
               (<[userID := "created"]> (Statuses b))
  end.

Fixpoint bulk_loop (userIDs : list Z) (groupID days by_ : Z) (notes : string) (b : BulkAssignResult)
    : M BulkAssignResult :=
  match userIDs with
  | [] => ret b
  | u :: rest =>
      let* r := attempt (assignSubscriptionWithReuse (mkAssign u groupID days by_ notes)) in
      bulk_loop rest groupID days by_ notes (bulk_add u r b)
  end.

Definition BulkAssignSubscription (userIDs : list Z) (groupID days by_ : Z) (notes : string)
    : M BulkAssignResult :=
  bulk_loop userIDs groupID days by_ notes (mkBulk 0 0 0 0 ∅).

Definition RevokeSubscription (id : Z) : M unit :=
  let* s := repo_GetByID id in
  repo_Delete id ;; invalidateSubscriptionCaches.

Definition RestoreSubscription (id : Z) : M UserSubscription :=
  let* s := repo_GetByIDIncludeDeleted id in
  if negb (is_some (us_DeletedAt s)) then throw ErrSubscriptionNotRevoked
  else
    let* exists_ := repo_ExistsByUserIDAndGroupID (us_UserID s) (us_GroupID s) in
    if exists_ : bool then throw ErrSubscriptionRestoreConflict
    else
      let* now := clock in
      let status := if (us_Status s ==? SubscriptionStatusActive) && negb (After (us_ExpiresAt s) now)
                    then SubscriptionStatusExpired else us_Status s in
      let* restored := repo_Restore id status in
      invalidateSubscriptionCaches ;; ret restored.

Definition ExtendSubscription (id days : Z) : M UserSubscription :=
  let* r := attempt (repo_GetByID id) in
  match r with
  | Err _ => throw ErrSubscriptionNotFound
  | Ok s =>
      let* now := clock in
      match adjusted_expiry loc dloc now days s with
      | Err e => throw e
      | Ok newExpiresAt =>
          repo_ExtendExpiry id newExpiresAt ;;
          (if us_Status s ==? SubscriptionStatusExpired
           then repo_UpdateStatus id SubscriptionStatusActive else ret tt) ;;
          repo_GetByID id
      end
  end.

Definition CheckAndActivateWindow (s : UserSubscription) : M unit :=
  let* now := clock in
  if IsWindowActivated s then ret tt
  else repo_ActivateWindows (us_ID s) (StartOfDay loc now) now.

Definition AdminResetQuota (id : Z) (d w m : bool) : M UserSubscription :=
  if negb d && negb w && negb m then throw ErrInvalidInput
  else
    let* s := repo_GetByID id in
    let* now := clock in
    repo_ResetUsageWindows (us_ID s) d w m (StartOfDay loc now) now ;;
    repo_GetByID id.

(** The subscription the caller holds is advanced along with the row. *)
Definition CheckAndResetWindows (s : UserSubscription) : M UserSubscription :=
  let* now := clock in
  let* s := match automaticDailyWindowStartAt loc dloc now s with
            | Some w => repo_ResetDailyUsage (us_ID s) (us_DailyWindowStart s) w ;;
                        ret (set_daily (Some w) f0 s)
            | None => ret s
            end in
  let* s := match weekly_window_at dloc now s with
            | Some w => repo_ResetWeeklyUsage (us_ID s) (us_WeeklyWindowStart s) w ;;
                        ret (set_weekly (Some w) f0 s)
            | None => ret s
            end in
  match monthly_window_at dloc now s with
  | Some w => repo_ResetMonthlyUsage (us_ID s) (us_MonthlyWindowStart s) w ;;
              ret (set_monthly (Some w) f0 s)
  | None => ret s
  end.

Definition EnsureWindowMaintenance (s : UserSubscription) : M UserSubscription :=
  (if IsWindowActivated s then ret tt else CheckAndActivateWindow s) ;;
  let* s' := CheckAndResetWindows s in
  repo_GetByID (us_ID s').

(** Errors are logged only; the second part runs whatever the first did. *)
Definition doWindowMaintenance (s : UserSubscription) : M unit :=
  (if IsWindowActivated s then ret (Ok tt) else attempt (CheckAndActivateWindow s)) ;;
  let* r := attempt (CheckAndResetWindows s) in ret tt.

Definition RecordUsage (id : Z) (cost : f64) : M unit := repo_IncrementUsage id cost.

Definition ValidateSubscription (s : UserSubscription) : M unit :=
  if us_Status s ==? SubscriptionStatusExpired then throw ErrSubscriptionExpired
  else if us_Status s ==? SubscriptionStatusSuspended then throw ErrSubscriptionSuspended
  else
    let* now := clock in
    if IsExpired now s then
      let* r := attempt (repo_UpdateStatus (us_ID s) SubscriptionStatusExpired) in
      throw ErrSubscriptionExpired
    else ret tt.

(** ** The table's invariant *)

Definition statuses : list string :=
  [SubscriptionStatusActive; SubscriptionStatusExpired; SubscriptionStatusSuspended].

Record row_ok (s : UserSubscription) : Prop := {
  rok_expiry : us_ExpiresAt s <= MaxExpiresAt;
  rok_status : us_Status s ∈ statuses;
}.

Record ok (st : store) : Prop := {
  ok_keyed : forall i s, st_subs st !! i = Some s -> us_ID s = i /\ i < st_next st;
  ok_row : forall i s, st_subs st !! i = Some s -> row_ok s;
  ok_unique : forall i j s t, st_subs st !! i = Some s -> st_subs st !! j = Some t ->
    live s = true -> live t = true -> us_UserID s = us_UserID t -> us_GroupID s = us_GroupID t -> i = j;
}.

(** Rows stay, with the user and the group they were created for. *)
Definition ext (st st' : store) : Prop :=
  forall i s, st_subs st !! i = Some s ->
    exists s', st_subs st' !! i = Some s' /\ us_UserID s' = us_UserID s /\ us_GroupID s' = us_GroupID s.

#[local] Instance ext_preorder : PreOrder ext.
Proof.
  split; [intros st i s; eauto|]. intros a b c H1 H2 i s H.
  destruct (H1 i s H) as (s1 & E1 & ? & ?). destruct (H2 i s1 E1) as (s2 & ? & ? & ?).
  exists s2. split_and!; congruence.
Qed.

(** What a piece of the service promises: from a good table (and [P]) it
    leaves a good table, and if it returns a value, [Q] of it. *)
Definition safe {A} (P : store -> Prop) (m : M A) (Q : A -> store -> Prop) : Prop :=
  forall n st, ok st -> P st ->
    let '(r, _, st') := m n st in
    ok st' /\ ext st st' /\ forall a, r = Ok a -> Q a st'.

Definition any (st : store) : Prop := True.
Definition whatever {A} (a : A) (st : store) : Prop := True.

Lemma safe_ret {A} (P : store -> Prop) (a : A) Q : (forall st, P st -> Q a st) -> safe P (ret a) Q.
Proof. intros H n st Hok HP. split_and!; [done|reflexivity|]. intros ? [= <-]. auto. Qed.

Lemma safe_throw {A} P e (Q : A -> store -> Prop) : safe P (throw e) Q.
Proof. intros n st Hok _. split_and!; [done|reflexivity|done]. Qed.

Lemma safe_clock P Q : (forall t st, P st -> Q t st) -> safe P clock Q.
Proof. intros H n st Hok HP. split_and!; [done|reflexivity|]. intros a [= <-]. auto. Qed.

Lemma safe_bind {A B} P (m : M A) (k : A -> M B) Q R :
  safe P m Q -> (forall a, safe (Q a) (k a) R) -> safe P (bind m k) R.
Proof.
  intros Hm Hk n st Hok HP. unfold bind. specialize (Hm n st Hok HP).
  destruct (m n st) as [[[a|e] n'] st']; destruct Hm as (Ho & He & HQ); [|done].
  specialize (Hk a n' st' Ho (HQ a eq_refl)). destruct (k a n' st') as [[r n2] st2].
  destruct Hk as (? & ? & ?). split_and!; [done| |done]. by trans st'.
Qed.

Lemma safe_attempt {A} P (m : M A) (Q : A -> store -> Prop) :
  safe P m Q -> safe P (attempt m) (fun r st => forall a, r = Ok a -> Q a st).
Proof.
  intros Hm n st Hok HP. unfold attempt. specialize (Hm n st Hok HP).
  destruct (m n st) as [[r n'] st']; destruct Hm as (? & ? & HQ).
  split_and!; [done..|]. by intros ? [= <-].
Qed.

Lemma safe_weaken {A} (P P' : store -> Prop) (m : M A) (Q Q' : A -> store -> Prop) :
  safe P m Q -> (forall st, P' st -> P st) -> (forall a st, Q a st -> Q' a st) -> safe P' m Q'.
Proof.
  intros Hm HP HQ n st Hok H. specialize (Hm n st Hok (HP st H)).
  destruct (m n st) as [[r n'] st']. destruct Hm as (? & ? & ?). split_and!; auto.
Qed.

Lemma safe_statement {A} P (f : time -> store -> result SubscriptionError A * store) Q :
  (forall now st, ok st -> P st ->
     ok (f now st).2 /\ ext st (f now st).2 /\ forall a, (f now st).1 = Ok a -> Q a (f now st).2) ->
  safe P (statement f) Q.
Proof.
  intros H n st Hok HP. unfold statement. specialize (H (e_now env n) st Hok HP).
  destruct (e_fault env n).
  - destruct (f (e_now env n) st) as [r st']. exact H.
  - split_and!; [done|reflexivity|done].
  - destruct (f (e_now env n) st) as [r st']. cbn in *. destruct H as (? & ? & _). done.
Qed.

Lemma safe_transaction {A} P (m : M A) Q :
  safe P m Q -> safe P (transaction m) Q.
Proof.
  intros Hm n st Hok HP. unfold transaction.
  destruct (e_fault env n); [|split_and!; [done|reflexivity|done]..].
  specialize (Hm (S n) st Hok HP). destruct (m (S n) st) as [[[a|e] n'] st'].
  - destruct Hm as (Ho & He & HQ).
    destruct (e_fault env n'); split_and!; done || reflexivity.
  - split_and!; [done|reflexivity|done].
Qed.

Lemma safe_tx {A} b P (m : M A) Q : safe P m Q -> safe P (withSubscriptionUpdateTx b m) Q.
Proof. destruct b; [done|apply safe_transaction]. Qed.

(** A query: it looks at the table and leaves it. *)
Lemma safe_query {A} P (f : time -> store -> result SubscriptionError A) Q :
  (forall now st a, ok st -> P st -> f now st = Ok a -> Q a st) ->
  safe P (statement (fun now st => (f now st, st))) Q.
Proof.
  intros H. apply safe_statement. intros now st Hok HP. cbn.
  split_and!; [done|reflexivity|]. eauto.
Qed.

(** A change of one row that keeps its identity and does not revive it. *)
Record change_ok (s s' : UserSubscription) : Prop := {
  ch_id : us_ID s' = us_ID s;
  ch_user : us_UserID s' = us_UserID s;
  ch_group : us_GroupID s' = us_GroupID s;
  ch_live : live s' = true -> live s = true;
  ch_row : row_ok s -> row_ok s';
}.

Lemma change_refl s : change_ok s s.
Proof. by split. Qed.

Lemma ok_change st i s s' :
  ok st -> st_subs st !! i = Some s -> change_ok s s' ->
  ok (with_subs (<[i := s']> (st_subs st)) st) /\ ext st (with_subs (<[i := s']> (st_subs st)) st).
Proof.
  intros [Hk Hr Hu] Hi [C1 C2 C3 C4 C5]. split.
  - split; cbn [st_subs st_next with_subs].
    + intros j t Hj. apply lookup_insert_Some in Hj as [[<- <-]|[_ Hj]]; [|eauto].
      rewrite C1. eauto.
    + intros j t Hj. apply lookup_insert_Some in Hj as [[<- <-]|[_ Hj]]; eauto.
    + intros j k t u Hj Hk' Lt Lu EU EG.
      apply lookup_insert_Some in Hj as [[<- <-]|[Nj Hj]];
      apply lookup_insert_Some in Hk' as [[<- <-]|[Nk Hk']]; try done.
      * eapply (Hu i k s u); eauto; congruence.
      * eapply (Hu j i t s); eauto; congruence.
      * eauto.
  - intros j t Hj. cbn [st_subs with_subs]. destruct (decide (i = j)) as [<-|Hne].
    + rewrite lookup_insert_eq. exists s'. simplify_eq. done.
    + rewrite lookup_insert_ne by done. eauto.
Qed.

Lemma get_live_Some id st s :
  get_live id st = Some s <-> st_subs st !! id = Some s /\ live s = true.
Proof.
  unfold get_live. destruct (st_subs st !! id) as [t|]; [|by split; [|intros [[=] _]]].
  destruct (live t) eqn:E; split; [by intros [= <-]|by intros [[= <-] _]|done|].
  intros [[= <-] H]. congruence.
Qed.

Lemma safe_GetByID P id : safe P (repo_GetByID id) (fun s st => P st /\ get_live id st = Some s).
Proof.
  apply safe_query. intros now st s Hok HP H. destruct (get_live id st); [|done].
  by injection H as <-.
Qed.

(** A statement that changes one row. *)
Lemma safe_update_row P id (f : time -> UserSubscription -> UserSubscription) :
  (forall now st s, P st -> st_subs st !! id = Some s -> ok st -> change_ok s (f now s)) ->
  safe P (statement (fun now st => update_row id (f now) st)) whatever.
Proof.
  intros H. apply safe_statement. intros now st Hok HP. unfold update_row.
  destruct (st_subs st !! id) as [s|] eqn:E; cbn; [|split_and!; [done|reflexivity|done]].
  destruct (ok_change st id s (f now s) Hok E) as [??]; [eauto|]. done.
Qed.

Lemma clamp_expiry_max t : clamp_expiry t <= MaxExpiresAt.
Proof. unfold clamp_expiry, After. destruct (Z.ltb_spec MaxExpiresAt t); lia. Qed.

Lemma adjusted_expiry_max now days s t : adjusted_expiry loc dloc now days s = Ok t -> t <= MaxExpiresAt.
Proof.
  unfold adjusted_expiry. cbv zeta. intros H. destruct (_ && _); [done|].
  match goal with H : (if negb (After ?c _) then _ else _) = _ |- _ => destruct (negb (After c now)) end;
    [done|]. injection H as <-. apply clamp_expiry_max.
Qed.

(** Changes of the columns that no invariant is about. *)
Ltac plain_change :=
  split; try done; intros [??]; split; try done; cbn; try apply clamp_expiry_max.

Lemma change_status now st s : st ∈ statuses -> change_ok s (touched now (set_sub_status st s)).
Proof. intros H. plain_change. Qed.
Lemma change_expiry now t s : t <= MaxExpiresAt -> change_ok s (touched now (set_expiry t s)).
Proof. intros H. plain_change. Qed.
Lemma change_notes now t s : change_ok s (touched now (set_notes t s)).
Proof. plain_change. Qed.
Lemma change_usage now c s : change_ok s (touched now (add_usage c s)).
Proof. plain_change. Qed.
Lemma change_reset now d w m a b s : change_ok s (touched now (reset_windows d w m a b s)).
Proof. unfold reset_windows. destruct d, w, m; plain_change. Qed.
Lemma change_daily now w u s : change_ok s (touched now (set_daily w u s)).
Proof. plain_change. Qed.
Lemma change_weekly now w u s : change_ok s (touched now (set_weekly w u s)).
Proof. plain_change. Qed.
Lemma change_monthly now w u s : change_ok s (touched now (set_monthly w u s)).
Proof. plain_change. Qed.

Lemma active_status : SubscriptionStatusActive ∈ statuses.
Proof. by left. Qed.
Lemma expired_status : SubscriptionStatusExpired ∈ statuses.
Proof. right. by left. Qed.

Create HintDb sub discriminated.
#[local] Hint Resolve change_status change_expiry change_notes change_usage change_reset change_daily
  change_weekly change_monthly active_status expired_status clamp_expiry_max adjusted_expiry_max : sub.

Lemma safe_ExtendExpiry P id t : t <= MaxExpiresAt -> safe P (repo_ExtendExpiry id t) whatever.
Proof. intros H. apply (safe_update_row P id (fun now s => touched now (set_expiry t s))). auto with sub. Qed.

Lemma safe_UpdateStatus P id st : st ∈ statuses -> safe P (repo_UpdateStatus id st) whatever.
Proof. intros H. apply (safe_update_row P id (fun now s => touched now (set_sub_status st s))). auto with sub. Qed.

Lemma safe_UpdateNotes P id notes : safe P (repo_UpdateNotes id notes) whatever.
Proof. apply (safe_update_row P id (fun now s => touched now (set_notes notes s))). auto with sub. Qed.

Lemma safe_ResetUsageWindows P id d w m a b : safe P (repo_ResetUsageWindows id d w m a b) whatever.
Proof.
  apply (safe_update_row P id (fun now s => touched now (reset_windows d w m a b s))). auto with sub.
Qed.

Lemma safe_conditional P id c f :
  (forall now s, change_ok s (f now s)) -> safe P (conditional id c f) whatever.
Proof.
  intros Hf. apply (safe_bind _ _ _ (fun _ _ => True)).
  - apply safe_statement. intros now st Hok HP. unfold update_when.
    destruct (st_subs st !! id) as [s|] eqn:E; [destruct (c s)|]; cbn; [|split_and!; done || reflexivity..].
    destruct (ok_change st id s (f now s) Hok E) as [??]; [auto|]. done.
  - intros a. unfold translateConditionalWindowReset. destruct (0 <? a); [by apply safe_ret|].
    by apply safe_query.
Qed.

Lemma safe_IncrementUsage P id c : safe P (repo_IncrementUsage id c) whatever.
Proof.
  apply safe_statement. intros now st Hok HP.
  destruct (get_live id st) as [s|] eqn:E; [|split_and!; done || reflexivity].
  apply get_live_Some in E as [E _]. destruct (is_some _); [|split_and!; done || reflexivity]. cbn.
  destruct (ok_change st id s (touched now (add_usage c s)) Hok E) as [??]; [auto with sub|]. done.
Qed.

Lemma safe_Delete P id : safe P (repo_Delete id) whatever.
Proof.
  apply safe_statement. intros now st Hok HP.
  destruct (get_live id st) as [s|] eqn:E; [|split_and!; done || reflexivity]. cbn.
  apply get_live_Some in E as [E _].
  destruct (ok_change st id s (set_deleted (Some now) s) Hok E) as [??]; [plain_change|]. done.
Qed.

Lemma safe_BatchUpdateExpiredStatus P : safe P repo_BatchUpdateExpiredStatus whatever.
Proof.
  apply safe_statement. intros now st [Hk Hr Hu] HP. cbn.
  set (f := fun s : UserSubscription => if overdue now s then _ else s).
  assert (forall s, change_ok s (f s)) as Hf
    by (intros s; subst f; cbn; destruct (overdue now s); [auto with sub|apply change_refl]).
  split_and!; [split; cbn [st_subs st_next with_subs]| |done].
  - intros i s H. apply lookup_fmap_Some in H as (t & <- & H). rewrite (ch_id _ _ (Hf t)). eauto.
  - intros i s H. apply lookup_fmap_Some in H as (t & <- & H). apply (Hf t). eauto.
  - intros i j s t H1 H2 L1 L2 EU EG.
    apply lookup_fmap_Some in H1 as (s0 & <- & H1). apply lookup_fmap_Some in H2 as (t0 & <- & H2).
    destruct (Hf s0) as [? ? ? Ls _], (Hf t0) as [? ? ? Lt _].
    eapply (Hu i j s0 t0); eauto; congruence.
  - intros i s H. exists (f s). cbn [st_subs with_subs]. rewrite lookup_fmap, H.
    destruct (Hf s). done.
Qed.

Lemma live_of_In u g st s :
  In s (live_of u g st) <->
  exists i, st_subs st !! i = Some s /\ live s = true /\ us_UserID s = u /\ us_GroupID s = g.
Proof.
  unfold live_of. rewrite filter_In, <- list_elem_of_In, list_elem_of_fmap.
  unfold of_user_group. rewrite !andb_true_iff, !Z.eqb_eq. split.
  - intros [([i t] & -> & H) (? & ? & ?)]. apply elem_of_map_to_list in H. by exists i.
  - intros (i & H & ? & ? & ?). split; [|done]. exists (i, s). by rewrite elem_of_map_to_list.
Qed.

Lemma safe_Create P s :
  us_ExpiresAt s <= MaxExpiresAt -> us_Status s = SubscriptionStatusActive ->
  safe P (repo_Create s) whatever.
Proof.
  intros He Hs. apply safe_statement. intros now st Hok HP.
  destruct (live_of _ _ st) as [|x l] eqn:E; [|split_and!; done || reflexivity].
  destruct Hok as [Hk Hr Hu]. cbn.
  assert (st_subs st !! st_next st = None) as Hfresh.
  { destruct (st_subs st !! st_next st) eqn:F; [|done]. apply Hk in F. lia. }
  assert (forall i t, st_subs st !! i = Some t -> live t = true ->
    us_UserID t = us_UserID s -> us_GroupID t = us_GroupID s -> False) as Hno.
  { intros i t Hi Hl EU EG. assert (In t (live_of (us_UserID s) (us_GroupID s) st)) as Hin
      by (apply live_of_In; eauto). by rewrite E in Hin. }
  split_and!; [split; cbn [st_subs st_next]| |done].
  - intros i t H. apply lookup_insert_Some in H as [[<- <-]|[_ H]]; [cbn; lia|].
    destruct (Hk i t H). lia.
  - intros i t H. apply lookup_insert_Some in H as [[<- <-]|[_ H]]; [|eauto].
    split; cbn; [done|]. rewrite Hs. apply active_status.
  - intros i j t u Hi Hj Lt Lu EU EG.
    apply lookup_insert_Some in Hi as [[<- <-]|[Ni Hi]];
    apply lookup_insert_Some in Hj as [[<- <-]|[Nj Hj]]; cbn in *; eauto; exfalso; eauto.
  - intros i t H. exists t. cbn [st_subs]. rewrite lookup_insert_ne; [done|]. congruence.
Qed.

Lemma safe_Restore P id status : status ∈ statuses -> safe P (repo_Restore id status) whatever.
Proof.
  intros Hs. apply (safe_bind _ _ _ (fun _ _ => True));
    [|intros []; eapply safe_weaken; [apply (safe_GetByID any)|done|done]].
  apply safe_statement. intros now st Hok HP.
  destruct (st_subs st !! id) as [s|] eqn:E; [|split_and!; done || reflexivity].
  destruct (List.filter _ _) as [|x l] eqn:F; [|split_and!; done || reflexivity]. cbn.
  set (s' := touched now (set_deleted None (set_sub_status status s))).
  destruct (ok_keyed st Hok id s E) as [Hid _].
  assert (forall i t, st_subs st !! i = Some t -> live t = true ->
    us_UserID t = us_UserID s -> us_GroupID t = us_GroupID s -> i = id) as Hone.
  { intros i t Hi Hl EU EG. destruct (ok_keyed st Hok i t Hi) as [Hti _].
    destruct (decide (i = id)) as [|Hne]; [done|exfalso].
    assert (In t (List.filter (fun s' => negb (us_ID s' =? id)) (live_of (us_UserID s) (us_GroupID s) st))) as Hin.
    { apply filter_In. split; [apply live_of_In; eauto|]. apply negb_true_iff, Z.eqb_neq. congruence. }
    by rewrite F in Hin. }
  split_and!; [|intros i t Hi; cbn [st_subs with_subs]|done].
  - destruct Hok as [Hk Hr Hu]. split; cbn [st_subs st_next with_subs].
    + intros i t H. apply lookup_insert_Some in H as [[<- <-]|[_ H]]; [exact (Hk id s E)|eauto].
    + intros i t H. apply lookup_insert_Some in H as [[<- <-]|[_ H]]; [|eauto].
      destruct (Hr id s E). by split.
    + intros i j t u Hi Hj Lt Lu EU EG.
      apply lookup_insert_Some in Hi as [[<- <-]|[Ni Hi]];
      apply lookup_insert_Some in Hj as [[<- <-]|[Nj Hj]]; cbn in *; eauto; symmetry; eauto.
  - destruct (decide (id = i)) as [<-|Hne].
    + exists s'. rewrite lookup_insert_eq. by simplify_eq.
    + exists t. by rewrite lookup_insert_ne.
Qed.

Lemma term_expiry_max b now days s : term_expiry loc dloc b now days s <= MaxExpiresAt.
Proof. apply clamp_expiry_max. Qed.
#[local] Hint Resolve term_expiry_max safe_ExtendExpiry safe_UpdateStatus safe_UpdateNotes : sub.

Lemma safe_if {A} P (b : bool) (m1 m2 : M A) Q : safe P m1 Q -> safe P m2 Q -> safe P (if b then m1 else m2) Q.
Proof. by destruct b. Qed.

Lemma safe_done {A} P (a : A) : safe P (ret a) whatever.
Proof. by apply safe_ret. Qed.
#[local] Hint Resolve safe_done safe_if safe_throw : sub.

Lemma safe_seq {A B} P (m : M A) (k : M B) Q :
  safe P m whatever -> safe (fun _ => True) k Q -> safe P (m ;; k) Q.
Proof. intros H1 H2. apply (safe_bind _ _ _ (fun _ _ => True)); [|done]. eapply safe_weaken; eauto. Qed.

Lemma safe_updateTerm b P id days notes sem :
  safe P (updateExistingSubscriptionTerm b id days notes sem) whatever.
Proof.
  apply safe_tx. eapply safe_bind; [apply safe_GetByID|]. intros s. cbv beta.
  apply safe_if; [apply safe_done|].
  apply (safe_bind _ _ _ (fun _ st => get_live id st = Some s)); [by apply safe_clock; intros ?? []|].
  intros now. cbv zeta. apply safe_if.
  - eapply (safe_update_row _ _ (fun now' old => updated_row now' _ old)).
    intros now' st old Hg Hold Hok. apply get_live_Some in Hg as [Hg _].
    destruct (ok_keyed st Hok id s Hg) as [Hid _]. cbn [us_ID renewedSubscriptionTerm] in Hold.
    rewrite Hid in Hold. simplify_eq.
    split; try done. intros _. split; [apply term_expiry_max|apply active_status].
  - apply safe_seq; [auto with sub|]. apply safe_seq; auto with sub.
Qed.

Lemma safe_createSubscription P input : safe P (createSubscription input) whatever.
Proof.
  apply (safe_bind _ _ _ (fun _ => any)); [by apply safe_clock|]. intros now.
  apply (safe_bind _ _ _ (fun _ => any)).
  - apply safe_Create; [apply clamp_expiry_max|done].
  - intros id. eapply safe_weaken; [apply (safe_GetByID any)|done|done].
Qed.

Lemma safe_get P id : safe P (repo_GetByID id) whatever.
Proof. eapply safe_weaken; [apply (safe_GetByID P)|done|done]. Qed.

Lemma safe_group_guard P g : safe P (group_guard g) whatever.
Proof.
  apply (safe_bind _ _ _ (fun _ => any)); [by apply safe_query|].
  intros x. auto with sub.
Qed.
#[local] Hint Resolve safe_updateTerm safe_createSubscription safe_get safe_group_guard
  safe_ResetUsageWindows safe_IncrementUsage safe_Delete safe_BatchUpdateExpiredStatus : sub.

(** Sequencing when nothing need be remembered. *)
Lemma safe_then {A B} P (m : M A) (k : A -> M B) Q :
  safe P m whatever -> (forall a, safe (fun _ => True) (k a) Q) -> safe P (bind m k) Q.
Proof. intros H1 H2. apply (safe_bind _ _ _ (fun _ _ => True)); [|done]. eapply safe_weaken; eauto. Qed.

Lemma safe_try {A} P (m : M A) : safe P m whatever -> safe P (attempt m) whatever.
Proof. intros H. eapply safe_weaken; [by apply safe_attempt|done|done]. Qed.

Lemma safe_ask {A} P (f : time -> store -> result SubscriptionError A) :
  safe P (statement (fun now st => (f now st, st))) whatever.
Proof. by apply safe_query. Qed.

Lemma safe_tick P : safe P clock whatever.
Proof. by apply safe_clock. Qed.
#[local] Hint Resolve safe_then safe_try safe_ask safe_tick safe_seq : sub.

Lemma safe_assignOrExtend b P input : safe P (assignOrExtendSubscription b input) whatever.
Proof.
  apply safe_then; [auto with sub|]. intros _. apply safe_then; [apply safe_try, safe_ask|].
  intros [s|e]; (apply safe_then; [auto with sub|]); [intros _; apply safe_then; [auto with sub|]|];
    auto with sub.
Qed.

Lemma safe_assignWithReuse P input : safe P (assignSubscriptionWithReuse input) whatever.
Proof.
  apply safe_then; [auto with sub|]. intros _. apply safe_then; [apply safe_ask|].
  intros b. apply safe_if; apply safe_then; auto with sub; [apply safe_ask|].
  intros s. apply safe_then; [auto with sub|]. intros now. apply safe_if.
  - apply safe_then; [auto with sub|]. intros _. apply safe_then; auto with sub.
  - destruct (detectAssignSemanticConflict _ _ _); auto with sub.
Qed.

Lemma safe_bulk us P g d b notes r : safe P (bulk_loop us g d b notes r) whatever.
Proof.
  revert P r. induction us as [|u us IH]; intros P r; cbn [bulk_loop]; [auto with sub|].
  apply safe_then; [apply safe_try, safe_assignWithReuse|auto].
Qed.

Lemma safe_Revoke P id : safe P (RevokeSubscription id) whatever.
Proof. apply safe_then; [auto with sub|]. intros s. apply safe_seq; [auto with sub|apply safe_ask]. Qed.

Lemma safe_RestoreSubscription P id : safe P (RestoreSubscription id) whatever.
Proof.
  apply (safe_bind _ _ _ (fun s st => us_Status s ∈ statuses)).
  - apply safe_query. intros now st s Hok _ H. destruct (st_subs st !! id) as [t|] eqn:E; [|done].
    injection H as <-. exact (rok_status _ (ok_row st Hok id t E)).
  - intros s. apply safe_if; [apply safe_throw|].
    apply (safe_bind _ _ _ (fun _ st => us_Status s ∈ statuses)); [by apply safe_query|].
    intros b. apply safe_if; [apply safe_throw|].
    apply (safe_bind _ _ _ (fun _ st => us_Status s ∈ statuses)); [by apply safe_clock|].
    intros now.
    assert (us_Status s ∈ statuses -> safe any
      (let* restored := repo_Restore id
         (if (us_Status s ==? SubscriptionStatusActive) && negb (After (us_ExpiresAt s) now)
          then SubscriptionStatusExpired else us_Status s) in
       invalidateSubscriptionCaches ;; ret restored) whatever) as H.
    { intros Hs. apply safe_then.
      - apply safe_Restore. destruct (_ && _); [apply expired_status|done].
      - intros r. apply safe_seq; [apply safe_ask|auto with sub]. }
    intros n st Hok Hs. by apply (H Hs n st Hok).
Qed.

Lemma safe_Extend P id days : safe P (ExtendSubscription id days) whatever.
Proof.
  apply safe_then; [auto with sub|]. intros [s|e]; [|auto with sub].
  apply safe_then; [auto with sub|]. intros now.
  destruct (adjusted_expiry _ _ _ _ _) as [t|e] eqn:E; [|auto with sub].
  apply safe_seq; [eauto with sub|]. apply safe_seq; auto with sub.
Qed.

Lemma safe_CheckAndActivate P s : safe P (CheckAndActivateWindow s) whatever.
Proof.
  apply safe_then; [auto with sub|]. intros now. apply safe_if; [auto with sub|].
  apply safe_conditional. intros now' s'. plain_change.
Qed.

Lemma safe_AdminReset P id d w m : safe P (AdminResetQuota id d w m) whatever.
Proof.
  apply safe_if; [auto with sub|]. apply safe_then; [auto with sub|]. intros s.
  apply safe_then; [auto with sub|]. intros now. apply safe_seq; auto with sub.
Qed.

Lemma safe_CheckAndReset P s : safe P (CheckAndResetWindows s) whatever.
Proof.
  apply safe_then; [auto with sub|]. intros now.
  apply safe_then; [destruct (automaticDailyWindowStartAt _ _ _ _); [apply safe_seq; [apply safe_conditional|]|]; auto with sub|].
  intros s1. apply safe_then; [destruct (weekly_window_at _ _ _); [apply safe_seq; [apply safe_conditional|]|]; auto with sub|].
  intros s2. destruct (monthly_window_at _ _ _); [apply safe_seq; [apply safe_conditional|]|]; auto with sub.
Qed.

Lemma safe_Ensure P s : safe P (EnsureWindowMaintenance s) whatever.
Proof.
  apply safe_seq; [apply safe_if; [auto with sub|apply safe_CheckAndActivate]|].
  apply safe_then; [apply safe_CheckAndReset|auto with sub].
Qed.

Lemma safe_doMaintenance P s : safe P (doWindowMaintenance s) whatever.
Proof.
  apply safe_seq; [apply safe_if; [auto with sub|apply safe_try, safe_CheckAndActivate]|].
  apply safe_then; [apply safe_try, safe_CheckAndReset|auto with sub].
Qed.

Lemma safe_Validate P s : safe P (ValidateSubscription s) whatever.
Proof.
  unfold ValidateSubscription. apply safe_if; [auto with sub|]. apply safe_if; [auto with sub|].
  apply safe_then; [auto with sub|]. intros now. apply safe_if; [|auto with sub].
  apply safe_then; [apply safe_try, safe_UpdateStatus|]; auto with sub.
Qed.

(** ** Every operation of the service, in any order, whatever fails *)

Inductive op :=
| OpAssign (input : AssignSubscriptionInput)
| OpAssignOrExtend (in_tx : bool) (input : AssignSubscriptionInput)
| OpBulk (userIDs : list Z) (groupID days by_ : Z) (notes : string)
| OpRevoke (id : Z)
| OpRestore (id : Z)
| OpExtend (id days : Z)
| OpAdminReset (id : Z) (d w m : bool)
| OpMaintain (s : UserSubscription)
| OpMaintainAsync (s : UserSubscription)
| OpRecordUsage (id : Z) (cost : f64)
| OpValidate (s : UserSubscription)
| OpExpireAll.

Definition perform (o : op) : M unit :=
  match o with
  | OpAssign i => let* r := assignSubscriptionWithReuse i in ret tt
  | OpAssignOrExtend b i => let* r := assignOrExtendSubscription b i in ret tt
  | OpBulk us g d b notes => let* r := BulkAssignSubscription us g d b notes in ret tt
  | OpRevoke id => RevokeSubscription id
  | OpRestore id => let* r := RestoreSubscription id in ret tt
  | OpExtend id days => let* r := ExtendSubscription id days in ret tt
  | OpAdminReset id d w m => let* r := AdminResetQuota id d w m in ret tt
  | OpMaintain s => let* r := EnsureWindowMaintenance s in ret tt
  | OpMaintainAsync s => doWindowMaintenance s
  | OpRecordUsage id c => RecordUsage id c
  | OpValidate s => ValidateSubscription s
  | OpExpireAll => let* r := repo_BatchUpdateExpiredStatus in ret tt
  end.

Fixpoint perform_all (os : list op) : M unit :=
  match os with
  | [] => ret tt
  | o :: rest => let* r := attempt (perform o) in perform_all rest
  end.

Lemma safe_perform P o : safe P (perform o) whatever.
Proof.
  destruct o; cbn [perform]; try (apply safe_then; [|intros; apply safe_done]).
  - apply safe_assignWithReuse.
  - apply safe_assignOrExtend.
  - apply safe_bulk.
  - apply safe_Revoke.
  - apply safe_RestoreSubscription.
  - apply safe_Extend.
  - apply safe_AdminReset.
  - apply safe_Ensure.
  - apply safe_doMaintenance.
  - apply safe_IncrementUsage.
  - apply safe_Validate.
  - apply safe_BatchUpdateExpiredStatus.
Qed.

Lemma safe_perform_all P os : safe P (perform_all os) whatever.
Proof.
  revert P. induction os as [|o os IH]; intros P; cbn [perform_all]; [auto with sub|].
  apply safe_then; [apply safe_try, safe_perform|auto].
Qed.

Lemma live_at_most_one st u g : ok st -> (length (live_of u g st) <= 1)%nat.
Proof.
  intros Hok'.
  assert (NoDup (live_of u g st)) as Hnd.
  { unfold live_of. apply base.NoDup_ListNoDup, List.NoDup_filter, base.NoDup_ListNoDup.
    apply NoDup_fmap_2_strong; [|apply NoDup_map_to_list].
    intros [i s] [j t] H1 H2 E. cbn in E. subst t. apply elem_of_map_to_list in H1, H2.
    destruct (ok_keyed st Hok' i s H1), (ok_keyed st Hok' j s H2). congruence. }
  destruct (live_of u g st) as [|s [|t l]] eqn:E; cbn; [lia..|exfalso].
  assert (In s (live_of u g st) /\ In t (live_of u g st)) as [Hs Ht] by (rewrite E; cbn; tauto).
  apply live_of_In in Hs as (i & Hi & Ls & <- & <-). apply live_of_In in Ht as (j & Hj & Lt & EU & EG).
  assert (i = j) as <- by (eapply (ok_unique st Hok'); eauto). simplify_eq.
  apply NoDup_cons in Hnd as [Hnd _]. apply Hnd. by left.
Qed.

(** C20: whatever the service does, in any order, and whichever statements,
    commits and cache invalidations fail, a user never has two live
    subscriptions to one group, no subscription outlives 2099, every status is
    a known one, and a row never disappears or changes hands. *)
Theorem subscriptions_well_formed os n st :
  ok st ->
  let st' := (perform_all os n st).2 in
  ok st' /\
  (forall i s, st_subs st !! i = Some s -> exists s', st_subs st' !! i = Some s' /\
     us_UserID s' = us_UserID s /\ us_GroupID s' = us_GroupID s) /\
  (forall u g, (length (live_of u g st') <= 1)%nat).
Proof.
  intros Hok st'. subst st'. pose proof (safe_perform_all any os n st Hok I) as H.
  destruct (perform_all os n st) as [[r n'] st']. cbn [snd]. destruct H as (Hok' & He & _).
  split_and!; [done|exact He|]. intros u g. by apply live_at_most_one.
Qed.

(** ** The operations when the database works *)

Definition working : Prop := forall k, e_fault env k = Fine.

Lemma statement_fine {A} (f : time -> store -> result SubscriptionError A * store) n st :
  working -> statement f n st = ((f (e_now env n) st).1, S n, (f (e_now env n) st).2).
Proof. intros Hw. unfold statement. rewrite Hw. by destruct (f _ st). Qed.

Lemma transaction_fine {A} (m : M A) n st a n' st' :
  working -> m (S n) st = (Ok a, n', st') -> transaction m n st = (Ok a, S n', st').
Proof. intros Hw H. unfold transaction. rewrite !Hw, H. cbv iota beta. by rewrite Hw. Qed.

Lemma bind_ok {A B} (m : M A) (k : A -> M B) n st a n' st' :
  m n st = (Ok a, n', st') -> bind m k n st = k a n' st'.
Proof. unfold bind. by intros ->. Qed.

Lemma bind_err {A B} (m : M A) (k : A -> M B) n st e n' st' :
  m n st = (Err e, n', st') -> bind m k n st = (Err e, n', st').
Proof. unfold bind. by intros ->. Qed.

Lemma get_ok id n st s :
  working -> get_live id st = Some s -> repo_GetByID id n st = (Ok s, S n, st).
Proof. intros Hw H. unfold repo_GetByID. rewrite statement_fine by done. cbn. by rewrite H. Qed.

Lemma update_ok (f : time -> UserSubscription -> UserSubscription) id n st s :
  working -> st_subs st !! id = Some s ->
  statement (fun now st => update_row id (f now) st) n st =
  (Ok tt, S n, with_subs (<[id := f (e_now env n) s]> (st_subs st)) st).
Proof. intros Hw H. rewrite statement_fine by done. unfold update_row. by rewrite H. Qed.

Lemma group_ok g gr n st :
  working -> st_groups st !! g = Some gr -> IsSubscriptionType gr = true ->
  group_guard g n st = (Ok tt, S n, st).
Proof.
  intros Hw Hg Ht. unfold group_guard, bind, group_GetByID. rewrite statement_fine by done.
  cbn [fst snd]. rewrite Hg. cbn [found]. by rewrite Ht.
Qed.

(** The row a renewal or an extension leaves, up to [updated_at]. *)
Record term_updated (sem : bool) (now : time) (days : Z) (notes : string) (s s' : UserSubscription) : Prop := {
  tu_id : us_ID s' = us_ID s;
  tu_owner : us_UserID s' = us_UserID s /\ us_GroupID s' = us_GroupID s /\ us_DeletedAt s' = us_DeletedAt s;
  tu_status : us_Status s' = SubscriptionStatusActive;
  tu_notes : us_Notes s' = appendSubscriptionNotes (us_Notes s) notes;
  tu_term :
    if term_is_over sem now s then
      us_StartsAt s' = now /\ us_ExpiresAt s' = clamp_expiry (AddDate_days loc now days) /\
      us_DailyWindowStart s' = Some (StartOfDay loc now) /\ us_WeeklyWindowStart s' = Some now /\
      us_MonthlyWindowStart s' = Some now /\
      us_DailyUsageUSD s' = f0 /\ us_WeeklyUsageUSD s' = f0 /\ us_MonthlyUsageUSD s' = f0
    else
      us_StartsAt s' = us_StartsAt s /\
      us_ExpiresAt s' = clamp_expiry (AddDate_days dloc (us_ExpiresAt s) days) /\
      us_DailyWindowStart s' = us_DailyWindowStart s /\ us_WeeklyWindowStart s' = us_WeeklyWindowStart s /\
      us_MonthlyWindowStart s' = us_MonthlyWindowStart s /\
      us_DailyUsageUSD s' = us_DailyUsageUSD s /\ us_WeeklyUsageUSD s' = us_WeeklyUsageUSD s /\
      us_MonthlyUsageUSD s' = us_MonthlyUsageUSD s
}.

Lemma with_subs_twice m1 m2 st : with_subs m2 (with_subs m1 st) = with_subs m2 st.
Proof. done. Qed.

Lemma append_empty s : appendSubscriptionNotes s "" = s.
Proof. unfold appendSubscriptionNotes. by rewrite bool_decide_true. Qed.

(** The statements of an update on a live row, with the notes it appends. *)
Lemma updateTerm_body id days notes sem n st s :
  working -> ok st -> get_live id st = Some s ->
  (sem = true -> us_Status s <> SubscriptionStatusSuspended) ->
  exists k n' s' notes',
    (if sem && (TrimSpace (us_Notes s) ==? TrimSpace notes) then notes' = "" else notes' = notes) /\
    updateExistingSubscriptionTerm true id days notes sem n st =
      (Ok tt, n', with_subs (<[id := s']> (st_subs st)) st) /\
    term_updated sem (e_now env k) days notes' s s'.
Proof.
  intros Hw Hok Hg Hsus. unfold updateExistingSubscriptionTerm, withSubscriptionUpdateTx.
  pose proof Hg as Hrow. apply get_live_Some in Hrow as [Hrow _].
  destruct (ok_keyed st Hok id s Hrow) as [Hid _].
  erewrite bind_ok by (by apply get_ok). cbv beta.
  assert (sem && (us_Status s ==? SubscriptionStatusSuspended) = false) as ->.
  { destruct sem; [|done]. apply bool_decide_eq_false. auto. }
  erewrite bind_ok by reflexivity. cbv beta zeta.
  exists (S n). set (now := e_now env (S n)).
  set (notes' := if sem && (TrimSpace (us_Notes s) ==? TrimSpace notes) then "" else notes).
  assert (if sem && (TrimSpace (us_Notes s) ==? TrimSpace notes) then notes' = "" else notes' = notes) as Hn'
    by (subst notes'; by destruct (_ && _)).
  destruct (term_is_over sem now s) eqn:Eover.
  - unfold repo_Update. eexists _, _, notes'. split_and!; [exact Hn'| |].
    1:{ rewrite (update_ok _ _ _ _ s); [|done|by cbn; rewrite Hid]. cbn [us_ID renewedSubscriptionTerm].
        rewrite Hid. reflexivity. }
    split; try done. rewrite Eover. unfold term_expiry. done.
  - rewrite Hid. unfold repo_ExtendExpiry.
    erewrite bind_ok by (by apply (update_ok (fun now s => touched now (set_expiry _ s)))).
    set (s1 := touched _ (set_expiry _ s)). cbv beta.
    set (st1 := with_subs _ st).
    assert (st_subs st1 !! id = Some s1) as H1 by apply lookup_insert_eq.
    assert (exists s2 n2, (if us_Status s !=? SubscriptionStatusActive
      then repo_UpdateStatus id SubscriptionStatusActive else ret tt) (S (S (S n))) st1 =
      (Ok tt, n2, with_subs (<[id := s2]> (st_subs st)) st) /\
      us_Status s2 = SubscriptionStatusActive /\ (s2 = s1 \/ exists t, s2 = touched t (set_sub_status SubscriptionStatusActive s1)))
      as (s2 & n2 & E2 & Hst2 & Hs2).
    { destruct (us_Status s !=? SubscriptionStatusActive) eqn:Hst; [|apply negb_false_iff, bool_decide_eq_true in Hst].
      2:{ exists s1, (S (S (S n))). split_and!; [reflexivity|exact Hst|by left]. }
      - unfold repo_UpdateStatus. rewrite (update_ok (fun now s => touched now (set_sub_status _ s)) id _ _ s1) by done.
        exists (touched (e_now env (S (S (S n)))) (set_sub_status SubscriptionStatusActive s1)), (S (S (S (S n)))).
        split_and!; [|reflexivity|right; eexists; reflexivity].
        unfold st1. cbn [st_subs with_subs]. rewrite with_subs_twice, insert_insert_eq. reflexivity. }
    erewrite bind_ok by exact E2. clear E2. cbv beta.
    assert (st_subs (with_subs (<[id := s2]> (st_subs st)) st) !! id = Some s2) as H2 by apply lookup_insert_eq.
    assert (us_ID s2 = us_ID s /\ us_UserID s2 = us_UserID s /\ us_GroupID s2 = us_GroupID s /\
      us_DeletedAt s2 = us_DeletedAt s /\ us_StartsAt s2 = us_StartsAt s /\
      us_ExpiresAt s2 = clamp_expiry (AddDate_days dloc (us_ExpiresAt s) days) /\
      us_DailyWindowStart s2 = us_DailyWindowStart s /\ us_WeeklyWindowStart s2 = us_WeeklyWindowStart s /\
      us_MonthlyWindowStart s2 = us_MonthlyWindowStart s /\
      us_DailyUsageUSD s2 = us_DailyUsageUSD s /\ us_WeeklyUsageUSD s2 = us_WeeklyUsageUSD s /\
      us_MonthlyUsageUSD s2 = us_MonthlyUsageUSD s /\ us_Notes s2 = us_Notes s) as Hf
      by (destruct Hs2 as [-> | [t ->]]; done).
    destruct Hf as (F1 & F2 & F3 & F4 & F5 & F6 & F7 & F8 & F9 & F10 & F11 & F12 & F13).
    destruct (notes' !=? "") eqn:En.
    + unfold repo_UpdateNotes.
      rewrite (update_ok (fun now s => touched now (set_notes _ s)) id _ _ s2) by done.
      eexists _, _, notes'. split_and!; [exact Hn'| |].
      1:{ cbn [st_subs with_subs]. rewrite with_subs_twice, insert_insert_eq. reflexivity. }
      split; try done. rewrite Eover. done.
    + apply negb_false_iff, bool_decide_eq_true in En.
      eexists _, s2, notes'. split_and!; [exact Hn'|reflexivity|].
      split; try done; [by rewrite En, append_empty|]. rewrite Eover. done.
Qed.

Lemma updateTerm_ok b id days notes sem n st s :
  working -> ok st -> get_live id st = Some s ->
  (sem = true -> us_Status s <> SubscriptionStatusSuspended) ->
  exists k n' s' notes',
    (if sem && (TrimSpace (us_Notes s) ==? TrimSpace notes) then notes' = "" else notes' = notes) /\
    updateExistingSubscriptionTerm b id days notes sem n st =
      (Ok tt, n', with_subs (<[id := s']> (st_subs st)) st) /\
    term_updated sem (e_now env k) days notes' s s'.
Proof.
  intros Hw Hok Hg Hsus. destruct b; [by apply updateTerm_body|].
  destruct (updateTerm_body id days notes sem (S n) st s Hw Hok Hg Hsus)
    as (k & n' & s' & notes' & Hn & E & Ht).
  exists k, (S n'), s', notes'. split_and!; [exact Hn| |exact Ht].
  unfold updateExistingSubscriptionTerm, withSubscriptionUpdateTx in *. by apply transaction_fine.
Qed.

Lemma only_live u g n st s :
  working -> live_of u g st = [s] -> repo_GetByUserIDAndGroupID u g n st = (Ok s, S n, st).
Proof. intros Hw H. unfold repo_GetByUserIDAndGroupID. rewrite statement_fine by done. cbn. by rewrite H. Qed.

Lemma live_of_get u g st s :
  ok st -> live_of u g st = [s] -> get_live (us_ID s) st = Some s /\ us_UserID s = u /\ us_GroupID s = g.
Proof.
  intros Hok H. assert (In s (live_of u g st)) as Hin by (rewrite H; by left).
  apply live_of_In in Hin as (i & Hi & Hl & Hu & Hg). destruct (ok_keyed st Hok i s Hi) as [-> _].
  split_and!; [by apply get_live_Some|done..].
Qed.

Lemma created_row input n st :
  working -> ok st -> live_of (in_UserID input) (in_GroupID input) st = [] ->
  let s := inserted (st_next st) (e_now env (S n)) (new_subscription loc 0 (e_now env n) input) in
  exists n', createSubscription input n st =
    (Ok s, n', mkStore (<[st_next st := s]> (st_subs st)) (st_next st + 1) (st_groups st)).
Proof.
  intros Hw Hok Hl s. unfold createSubscription. erewrite bind_ok by reflexivity. cbv beta.
  erewrite bind_ok.
  2:{ unfold repo_Create. rewrite statement_fine by done. cbn [us_UserID us_GroupID new_subscription].
      rewrite Hl. reflexivity. }
  cbn [fst snd]. cbv beta. eexists. apply get_ok; [done|]. unfold get_live. cbn [st_subs].
  by rewrite lookup_insert_eq.
Qed.

(** Assigning or extending a subscription, when the database works.  The
    group must exist and be of the subscription type.  Without a live
    subscription one is created from now; an unexpired one keeps its usage and
    windows and its expiry moves by the days; an expired one starts a fresh
    term with empty usage.  Days are between 1 and 36500 (30 by default), no
    expiry passes the end of 2099, and nothing else in the table changes. *)
Theorem assign_or_extend_spec b input n st gr :
  working -> ok st -> st_groups st !! in_GroupID input = Some gr -> IsSubscriptionType gr = true ->
  let days := normalizeAssignValidityDays (in_ValidityDays input) in
  1 <= days <= MaxValidityDays /\
  (live_of (in_UserID input) (in_GroupID input) st = [] ->
   exists n' s k, assignOrExtendSubscription b input n st =
     (Ok (s, false), n', mkStore (<[st_next st := s]> (st_subs st)) (st_next st + 1) (st_groups st)) /\
     us_UserID s = in_UserID input /\ us_GroupID s = in_GroupID input /\
     us_Status s = SubscriptionStatusActive /\
     us_ExpiresAt s = clamp_expiry (AddDate_days loc (e_now env k) days) /\
     (e_now env k <> zero_time -> us_StartsAt s = e_now env k)) /\
  (forall s, live_of (in_UserID input) (in_GroupID input) st = [s] ->
   exists n' s' k, assignOrExtendSubscription b input n st =
     (Ok (s', true), n', with_subs (<[us_ID s := s']> (st_subs st)) st) /\
     term_updated false (e_now env k) days (in_Notes input) s s').
Proof.
  intros Hw Hok Hg Ht days. split_and!.
  - subst days. unfold normalizeAssignValidityDays, MaxValidityDays. cbv zeta.
    destruct (Z.leb_spec (in_ValidityDays input) 0); [done|].
    destruct (Z.ltb_spec 36500 (in_ValidityDays input)); lia.
  - subst days. unfold normalizeAssignValidityDays, MaxValidityDays.
    cbv zeta. destruct (Z.leb_spec (in_ValidityDays input) 0); [done|].
    destruct (Z.ltb_spec 36500 (in_ValidityDays input)); lia.
  - intros Hl. unfold assignOrExtendSubscription. erewrite bind_ok by (by eapply group_ok). cbv beta.
    erewrite bind_ok.
    2:{ unfold attempt, repo_GetByUserIDAndGroupID. rewrite statement_fine by done. cbn [fst snd].
        rewrite Hl. reflexivity. }
    cbn [only]. destruct (created_row input (S (S n)) st Hw Hok Hl) as (n' & E).
    erewrite bind_ok by exact E. eexists _, _, (S (S n)). split_and!; [reflexivity|done..|].
    cbn [us_StartsAt inserted new_subscription]. unfold IsZero. intros Hz.
    by destruct (Z.eqb_spec (e_now env (S (S n))) zero_time).
  - intros s Hl. destruct (live_of_get _ _ st s Hok Hl) as (Hget & _ & _).
    destruct (updateTerm_ok b (us_ID s) days (in_Notes input) false (S (S n)) st s Hw Hok Hget)
      as (k & n' & s' & notes' & Hn & E & Hterm); [done|]. cbn [andb] in Hn. subst notes'.
    unfold assignOrExtendSubscription. erewrite bind_ok by (by eapply group_ok). cbv beta.
    erewrite bind_ok by (unfold attempt; by rewrite only_live with (s := s)).
    cbv iota beta. erewrite bind_ok by exact E. cbv beta.
    erewrite bind_ok; [exists (S n'), s', k; split; [reflexivity|exact Hterm]|].
    apply get_ok; [done|]. apply get_live_Some. cbn [st_subs with_subs]. rewrite lookup_insert_eq.
    split; [done|]. unfold live. rewrite (proj2 (proj2 (tu_owner _ _ _ _ _ _ Hterm))).
    apply get_live_Some in Hget as [_ Hlive]. exact Hlive.
Qed.

(** An update of a term happens entirely or not at all: when it returns
    an error the table is as it was, unless the reply of the commit itself was
    lost. *)
Theorem term_update_atomic id days notes sem n st :
  let '(r, n', st') := updateExistingSubscriptionTerm false id days notes sem n st in
  match r with
  | Ok _ => True
  | Err e => st' = st \/ (e = ErrStatement /\ exists k, n' = S k /\ e_fault env k = LostAfter)
  end.
Proof.
  unfold updateExistingSubscriptionTerm, withSubscriptionUpdateTx, transaction.
  destruct (e_fault env n); [|by left..].
  match goal with |- context [match ?m (S n) st with _ => _ end] => destruct (m (S n) st) as [[[a|e] n'] st'] end;
    [|by left].
  destruct (e_fault env n') eqn:E; [done|by left|right]. split; [done|]. by exists n'.
Qed.

Lemma extend_ok id days n st s t :
  working -> get_live id st = Some s -> adjusted_expiry loc dloc (e_now env (S n)) days s = Ok t ->
  exists n' s', ExtendSubscription id days n st =
    (Ok s', n', with_subs (<[id := s']> (st_subs st)) st) /\
    get_live id (with_subs (<[id := s']> (st_subs st)) st) = Some s' /\
    us_ExpiresAt s' = t /\ us_UserID s' = us_UserID s /\ us_GroupID s' = us_GroupID s /\
    (us_Status s' = if us_Status s ==? SubscriptionStatusExpired then SubscriptionStatusActive else us_Status s).
Proof.
  intros Hw Hg Ha. pose proof Hg as Hrow. apply get_live_Some in Hrow as [Hrow Hl].
  unfold ExtendSubscription. erewrite bind_ok by (unfold attempt; by rewrite (get_ok id n st s)).
  cbv iota beta. erewrite bind_ok by reflexivity. cbv beta. rewrite Ha.
  unfold repo_ExtendExpiry.
  erewrite bind_ok by (by apply (update_ok (fun now s => touched now (set_expiry t s)) id _ _ s)).
  cbv beta. set (s1 := touched _ (set_expiry t s)). set (st1 := with_subs _ st).
  assert (st_subs st1 !! id = Some s1) as H1 by apply lookup_insert_eq.
  destruct (us_Status s ==? SubscriptionStatusExpired) eqn:Es.
  - unfold repo_UpdateStatus.
    erewrite bind_ok by (by apply (update_ok (fun now s => touched now (set_sub_status _ s)) id _ _ s1)).
    cbv beta. set (s2 := touched _ (set_sub_status _ s1)).
    unfold st1. cbn [st_subs with_subs]. rewrite with_subs_twice, insert_insert_eq.
    assert (get_live id (with_subs (<[id:=s2]> (st_subs st)) st) = Some s2) as H2
      by (apply get_live_Some; cbn [st_subs with_subs]; rewrite lookup_insert_eq; by split).
    eexists _, s2. split_and!; [by apply get_ok|exact H2|done..].
  - erewrite bind_ok by reflexivity.
    assert (get_live id st1 = Some s1) as H2 by (apply get_live_Some; by split).
    eexists _, s1. split_and!; [by apply get_ok|exact H2|done..].
Qed.

Lemma adjusted_calm lo hi off now days s :
  calm dloc lo hi off -> inside lo hi (us_ExpiresAt s) -> inside lo hi (us_ExpiresAt s + days * day) ->
  - MaxValidityDays <= days <= MaxValidityDays -> us_ExpiresAt s + days * day <= MaxExpiresAt ->
  now < us_ExpiresAt s -> now < us_ExpiresAt s + days * day ->
  adjusted_expiry loc dloc now days s = Ok (us_ExpiresAt s + days * day).
Proof.
  intros Hc H1 H2 Hd Hm Hn1 Hn2. unfold adjusted_expiry. cbv zeta.
  destruct (Z.ltb_spec MaxValidityDays days); [lia|].
  destruct (Z.ltb_spec days (- MaxValidityDays)); [lia|].
  unfold After. destruct (Z.ltb_spec now (us_ExpiresAt s)); [|lia]. cbn [negb andb].
  rewrite (AddDate_days_calm _ _ _ _ _ _ Hc H1 H2). unfold clamp_expiry, After.
  destruct (Z.ltb_spec MaxExpiresAt (us_ExpiresAt s + days * day)); [lia|].
  by destruct (Z.ltb_spec now (us_ExpiresAt s + days * day)); [|lia].
Qed.

(** Taking days off a subscription and giving them back restores its
    expiry, which is how a refund is rolled back: as long as the shortened
    term is still running both times, and where no clock change shifts the
    calendar days. *)
Theorem shorten_then_extend lo hi off id d n n2 st s :
  working -> ok st -> get_live id st = Some s ->
  calm dloc lo hi off -> inside lo hi (us_ExpiresAt s) -> inside lo hi (us_ExpiresAt s - d * day) ->
  0 <= d <= MaxValidityDays ->
  e_now env (S n) < us_ExpiresAt s - d * day -> e_now env (S n2) < us_ExpiresAt s - d * day ->
  exists s1 n1 st1 s2 n3 st2,
    ExtendSubscription id (- d) n st = (Ok s1, n1, st1) /\
    us_ExpiresAt s1 = us_ExpiresAt s - d * day /\
    ExtendSubscription id d n2 st1 = (Ok s2, n3, st2) /\
    us_ExpiresAt s2 = us_ExpiresAt s /\ us_UserID s2 = us_UserID s /\ us_GroupID s2 = us_GroupID s.
Proof.
  intros Hw Hok Hg Hc H1 H2 Hd Hn Hn2. assert (0 < day) as Hday by done.
  pose proof Hg as Hrow. apply get_live_Some in Hrow as [Hrow _].
  pose proof (rok_expiry _ (ok_row st Hok id s Hrow)) as Hmax.
  destruct (extend_ok id (- d) n st s (us_ExpiresAt s + - d * day) Hw Hg) as (n1 & s1 & E1 & G1 & X1 & U1 & V1 & _).
  { apply (adjusted_calm lo hi off); try done; try lia.
    by replace (us_ExpiresAt s + - d * day) with (us_ExpiresAt s - d * day) by lia. }
  destruct (extend_ok id d n2 _ s1 (us_ExpiresAt s) Hw G1) as (n3 & s2 & E2 & G2 & X2 & U2 & V2 & _).
  { replace (us_ExpiresAt s) with (us_ExpiresAt s1 + d * day) by lia.
    apply (adjusted_calm lo hi off); try done; try lia.
    - rewrite X1. by replace (us_ExpiresAt s + - d * day) with (us_ExpiresAt s - d * day) by lia.
    - rewrite X1. by replace (us_ExpiresAt s + - d * day + d * day) with (us_ExpiresAt s) by lia. }
  eexists _, _, _, _, _, _. split_and!; [exact E1|lia|exact E2|exact X2|congruence..].
Qed.

(** ** The check before the maintenance and the one after *)

(** The row and the caller's copy differ in [updated_at] at most. *)
Definition same_row (r s : UserSubscription) : Prop := exists t, touched t s = r \/ r = s.

Lemma conditional_ok id c f n st r :
  working -> st_subs st !! id = Some r -> c r = true ->
  conditional id c f n st = (Ok tt, S n, with_subs (<[id := f (e_now env n) r]> (st_subs st)) st).
Proof.
  intros Hw Hr Hc. unfold conditional.
  erewrite bind_ok by (rewrite statement_fine by done; unfold update_when; rewrite Hr, Hc; reflexivity).
  reflexivity.
Qed.

Lemma reset_ok (set : option time -> f64 -> UserSubscription -> UserSubscription)
    (get : UserSubscription -> option time) id n st r s w :
  working -> st_subs st !! id = Some r -> same_row r s ->
  (forall t s, get (touched t s) = get s) ->
  (forall a b w s, touched a (set w f0 (touched b s)) = touched a (set w f0 s)) ->
  exists r', conditional id (fun s' => get s' ==? get s) (fun now s => touched now (set (Some w) f0 s)) n st
    = (Ok tt, S n, with_subs (<[id := r']> (st_subs st)) st) /\ same_row r' (set (Some w) f0 s).
Proof.
  intros Hw Hr Hs Hget Hset. eexists. split.
  - apply conditional_ok; [done|exact Hr|]. apply bool_decide_eq_true.
    destruct Hs as [t [<- | ->]]; [apply Hget|done].
  - destruct Hs as [t [<- | ->]]; eexists; left; [symmetry; apply Hset|reflexivity].
Qed.

(** The windows and usage after the maintenance at [now], alone on the row. *)
Definition maintain_daily (now : time) (s : UserSubscription) : UserSubscription :=
  match automaticDailyWindowStartAt loc dloc now s with Some w => set_daily (Some w) f0 s | None => s end.
Definition maintain_weekly (now : time) (s : UserSubscription) : UserSubscription :=
  match weekly_window_at dloc now s with Some w => set_weekly (Some w) f0 s | None => s end.
Definition maintain_monthly (now : time) (s : UserSubscription) : UserSubscription :=
  match monthly_window_at dloc now s with Some w => set_monthly (Some w) f0 s | None => s end.
Definition maintained (now : time) (s : UserSubscription) : UserSubscription :=
  maintain_monthly now (maintain_weekly now (maintain_daily now s)).

(** One of the three stretches of [CheckAndResetWindows]. *)
Lemma stretch_ok (set : option time -> f64 -> UserSubscription -> UserSubscription)
    (get : UserSubscription -> option time) (o : option time) n st r s :
  working -> st_subs st !! us_ID s = Some r -> same_row r s ->
  (forall t s, get (touched t s) = get s) ->
  (forall a b w s, touched a (set w f0 (touched b s)) = touched a (set w f0 s)) ->
  exists n' r', (match o with
    | Some w => conditional (us_ID s) (fun s' => get s' ==? get s)
                  (fun now s => touched now (set (Some w) f0 s)) ;; ret (set (Some w) f0 s)
    | None => ret s
    end) n st =
    (Ok (match o with Some w => set (Some w) f0 s | None => s end), n',
     with_subs (<[us_ID s := r']> (st_subs st)) st) /\
    same_row r' (match o with Some w => set (Some w) f0 s | None => s end).
Proof.
  intros Hw Hr Hs H1 H2. destruct o as [w|].
  - destruct (reset_ok set get (us_ID s) n st r s w) as (r' & E & Hr'); [done..|].
    exists (S n), r'. split; [|exact Hr']. by erewrite bind_ok by exact E.
  - exists n, r. split; [|done]. unfold ret. by rewrite insert_id; [destruct st|].
Qed.

Lemma same_row_id r s : same_row r s -> us_ID r = us_ID s /\ live r = live s.
Proof. intros [t [<- | ->]]; done. Qed.

Lemma CheckAndReset_ok s n st r :
  working -> st_subs st !! us_ID s = Some r -> same_row r s ->
  exists n' r', CheckAndResetWindows s n st =
    (Ok (maintained (e_now env n) s), n', with_subs (<[us_ID s := r']> (st_subs st)) st) /\
    same_row r' (maintained (e_now env n) s).
Proof.
  intros Hw Hr Hs. unfold CheckAndResetWindows. erewrite bind_ok by reflexivity. cbv beta.
  set (now := e_now env n). unfold maintained, maintain_daily.
  destruct (stretch_ok set_daily us_DailyWindowStart (automaticDailyWindowStartAt loc dloc now s) (S n) st r s)
    as (n1 & r1 & E1 & H1); [done..|].
  erewrite bind_ok by exact E1. clear E1. cbv beta.
  set (s1 := match automaticDailyWindowStartAt loc dloc now s with Some w => _ | None => _ end) in *.
  assert (us_ID s1 = us_ID s) as I1 by (subst s1; by destruct (automaticDailyWindowStartAt _ _ _ _)).
  set (st1 := with_subs (<[us_ID s:=r1]> (st_subs st)) st).
  destruct (stretch_ok set_weekly us_WeeklyWindowStart (weekly_window_at dloc now s1) n1 st1 r1 s1)
    as (n2 & r2 & E2 & H2); [done|by rewrite I1; apply lookup_insert_eq|done..|].
  unfold maintain_weekly. erewrite bind_ok by exact E2. clear E2. cbv beta.
  set (s2 := match weekly_window_at dloc now s1 with Some w => _ | None => _ end) in *.
  assert (us_ID s2 = us_ID s) as I2 by (subst s2; by destruct (weekly_window_at _ _ _)).
  set (st2 := with_subs (<[us_ID s1:=r2]> (st_subs st1)) st1).
  destruct (stretch_ok set_monthly us_MonthlyWindowStart (monthly_window_at dloc now s2) n2 st2 r2 s2)
    as (n3 & r3 & E3 & H3); [done|rewrite I2, <- I1; apply lookup_insert_eq|done..|].
  unfold maintain_monthly. exists n3, r3. split; [|exact H3].
  etrans; [exact E3|]. rewrite I2. unfold st2, st1. cbn [st_subs with_subs]. rewrite I1.
  by rewrite !insert_insert_eq, !with_subs_twice.
Qed.

(** The limits read the usage only, and the precheck computes the usage that
    the maintenance stores. *)
Definition usage (s : UserSubscription) : f64 * f64 * f64 :=
  (us_DailyUsageUSD s, us_WeeklyUsageUSD s, us_MonthlyUsageUSD s).

Lemma CheckUsageLimits_usage g c s s' : usage s = usage s' -> CheckUsageLimits g c s = CheckUsageLimits g c s'.
Proof.
  unfold usage, CheckUsageLimits, CheckDailyLimit, CheckWeeklyLimit, CheckMonthlyLimit.
  by intros [= -> -> ->].
Qed.

Lemma precheck_usage now g s :
  us_Status s <> SubscriptionStatusExpired -> us_Status s <> SubscriptionStatusSuspended ->
  now < us_ExpiresAt s ->
  let '(s', _, r) := ValidateAndCheckLimits loc dloc now g s in
  usage s' = usage (maintained now s) /\ r = CheckUsageLimits g f0 s'.
Proof.
  intros H1 H2 H3. unfold ValidateAndCheckLimits, After.
  rewrite !bool_decide_false by done. destruct (Z.ltb_spec now (us_ExpiresAt s)); [|lia]. cbn [negb].
  cbv zeta. split; [|done].
  unfold maintained, maintain_monthly, maintain_weekly, maintain_daily.
  unfold canAutomaticallyResetDailyAt, canAutomaticallyResetWeeklyAt, canAutomaticallyResetMonthlyAt.
  destruct (automaticDailyWindowStartAt loc dloc now s) as [d|]; cbn [is_some];
  (match goal with |- context [weekly_window_at dloc now (set_daily (us_DailyWindowStart s) f0 s)] =>
     change (weekly_window_at dloc now (set_daily (us_DailyWindowStart s) f0 s)) with (weekly_window_at dloc now s);
     change (weekly_window_at dloc now (set_daily (Some d) f0 s)) with (weekly_window_at dloc now s)
   | _ => idtac end);
  destruct (weekly_window_at dloc now s) as [w|]; cbn [is_some];
  repeat match goal with |- context [monthly_window_at dloc now ?x] =>
    lazymatch x with s => fail | _ => change (monthly_window_at dloc now x) with (monthly_window_at dloc now s) end end;
  destruct (monthly_window_at dloc now s); reflexivity.
Qed.

(** The check made before a request is admitted and the one made on the
    stored row after the maintenance agree: for a running subscription the
    error (or none) that [ValidateAndCheckLimits] reports is the one the
    limits give on the row [EnsureWindowMaintenance] reads back. *)
Theorem precheck_agrees g n st s :
  working -> (forall k, e_now env k = e_now env 0) -> get_live (us_ID s) st = Some s ->
  us_Status s <> SubscriptionStatusExpired -> us_Status s <> SubscriptionStatusSuspended ->
  e_now env 0 < us_ExpiresAt s ->
  exists s' n' st', EnsureWindowMaintenance s n st = (Ok s', n', st') /\
    CheckUsageLimits g f0 s' = (ValidateAndCheckLimits loc dloc (e_now env 0) g s).2.
Proof.
  intros Hw Hclk Hg H1 H2 H3. pose proof (precheck_usage (e_now env 0) g s H1 H2 H3) as Hp.
  destruct (ValidateAndCheckLimits loc dloc (e_now env 0) g s) as [[s1 m] r]. destruct Hp as [Hu ->].
  cbn [snd]. pose proof Hg as Hrow. apply get_live_Some in Hrow as [Hrow Hl].
  assert (exists n1 r1, (if IsWindowActivated s then ret tt else CheckAndActivateWindow s) n st =
    (Ok tt, n1, with_subs (<[us_ID s := r1]> (st_subs st)) st) /\
    live r1 = true /\ usage r1 = usage s /\ (IsWindowActivated s = true -> r1 = s)) as (n1 & r1 & E1 & L1 & U1 & A1).
  { destruct (IsWindowActivated s) eqn:Ea.
    - exists n, s. split_and!; [|done..]. unfold ret. by rewrite insert_id; [destruct st|].
    - unfold CheckAndActivateWindow. erewrite bind_ok by reflexivity. cbv beta. rewrite Ea.
      unfold repo_ActivateWindows. eexists _, _. split_and!;
        [apply conditional_ok; [done|exact Hrow|by rewrite Ea]|exact Hl|done|done]. }
  unfold EnsureWindowMaintenance. erewrite bind_ok by exact E1. cbv beta.
  set (st1 := with_subs _ st).
  destruct (IsWindowActivated s) eqn:Ea.
  - specialize (A1 eq_refl). subst r1.
    destruct (CheckAndReset_ok s n1 st1 s) as (n2 & r2 & E2 & R2);
      [done|apply lookup_insert_eq|exists 0; by right|].
    erewrite bind_ok by exact E2. cbv beta. rewrite Hclk in *.
    assert (us_ID (maintained (e_now env 0) s) = us_ID s /\ live (maintained (e_now env 0) s) = live s) as [I2 L2].
    { unfold maintained, maintain_monthly, maintain_weekly, maintain_daily.
      destruct (automaticDailyWindowStartAt _ _ _ _);
        (match goal with |- context [match weekly_window_at ?a ?b ?c with _ => _ end] =>
           destruct (weekly_window_at a b c) end);
        (match goal with |- context [match monthly_window_at ?a ?b ?c with _ => _ end] =>
           destruct (monthly_window_at a b c) end); done. }
    rewrite I2. eexists r2, _, _. split.
    + apply get_ok; [done|]. apply get_live_Some. cbn [st_subs with_subs]. rewrite lookup_insert_eq.
      split; [done|]. destruct (same_row_id _ _ R2) as [_ ->]. by rewrite L2.
    + apply CheckUsageLimits_usage. rewrite Hu. by destruct R2 as [t [<- | ->]].
  - assert (maintained (e_now env 0) s = s) as Hm.
    { unfold IsWindowActivated, is_some in Ea.
      destruct (us_DailyWindowStart s) eqn:F1, (us_WeeklyWindowStart s) eqn:F2, (us_MonthlyWindowStart s) eqn:F3;
        try done.
      unfold maintained, maintain_daily, automaticDailyWindowStartAt. rewrite F1.
      unfold maintain_weekly, weekly_window_at. rewrite F2. cbn [automaticWindowStartAt].
      unfold maintain_monthly, monthly_window_at. by rewrite F3. }
    assert (CheckAndResetWindows s n1 st1 = (Ok s, S n1, st1)) as E2.
    { unfold IsWindowActivated, is_some in Ea.
      destruct (us_DailyWindowStart s) eqn:F1, (us_WeeklyWindowStart s) eqn:F2, (us_MonthlyWindowStart s) eqn:F3;
        try done.
      unfold CheckAndResetWindows. erewrite bind_ok by reflexivity. cbv beta.
      unfold automaticDailyWindowStartAt. rewrite F1. erewrite bind_ok by reflexivity. cbv beta.
      unfold weekly_window_at. rewrite F2. cbn [automaticWindowStartAt].
      erewrite bind_ok by reflexivity. cbv beta. unfold monthly_window_at. by rewrite F3. }
    erewrite bind_ok by exact E2. cbv beta. eexists r1, _, _. split.
    + apply get_ok; [done|]. apply get_live_Some. split; [apply lookup_insert_eq|done].
    + apply CheckUsageLimits_usage. rewrite Hu, Hm. exact U1.
Qed.

(** Assigning a subscription again with the same input is harmless: once a
    call has created it, the same call made while it runs returns it as it is
    and changes nothing.  (Calendar days must mean the same in the zone of the
    clock and in the driver's.) *)
Theorem assign_idempotent lo hi off off' input n n2 st gr :
  working -> ok st -> st_groups st !! in_GroupID input = Some gr -> IsSubscriptionType gr = true ->
  live_of (in_UserID input) (in_GroupID input) st = [] ->
  calm loc lo hi off -> calm dloc lo hi off' ->
  let now := e_now env (S (S n)) in
  inside lo hi now -> inside lo hi (now + normalizeAssignValidityDays (in_ValidityDays input) * day) ->
  now <> zero_time ->
  exists s n' st', assignSubscriptionWithReuse input n st = (Ok (s, false), n', st') /\
    (e_now env (S (S (S n2))) < us_ExpiresAt s ->
     exists n3, assignSubscriptionWithReuse input n2 st' = (Ok (s, true), n3, st')).
Proof.
  intros Hw Hok Hg Ht Hl Hc Hc' now H1 H2 Hz.
  destruct (created_row input (S (S n)) st Hw Hok Hl) as (n' & E). cbv zeta in E.
  set (s := inserted _ _ _) in E. eexists s, n', _. split.
  - unfold assignSubscriptionWithReuse. erewrite bind_ok by (by eapply group_ok). cbv beta.
    erewrite bind_ok by (unfold repo_ExistsByUserIDAndGroupID; rewrite statement_fine by done;
      cbn [fst snd]; rewrite Hl; reflexivity).
    cbv iota. erewrite bind_ok by exact E. reflexivity.
  - intros Hrun. set (st' := mkStore _ _ _).
    assert (ok st') as Hok'.
    { pose proof (safe_createSubscription any input (S (S n)) st Hok I) as Hs. rewrite E in Hs. apply Hs. }
    assert (live_of (in_UserID input) (in_GroupID input) st' = [s]) as Hl'.
    { pose proof (live_at_most_one st' (in_UserID input) (in_GroupID input) Hok') as Hone.
      assert (In s (live_of (in_UserID input) (in_GroupID input) st')) as Hin.
      { apply live_of_In. exists (st_next st). cbn [st_subs st']. by rewrite lookup_insert_eq. }
      destruct (live_of _ _ st') as [|x [|y l]]; cbn in *; [done| |lia]. by destruct Hin as [-> | []]. }
    unfold assignSubscriptionWithReuse. erewrite bind_ok by (by eapply group_ok). cbv beta.
    erewrite bind_ok by (unfold repo_ExistsByUserIDAndGroupID; rewrite statement_fine by done;
      cbn [fst snd]; rewrite Hl'; reflexivity).
    cbv iota. erewrite bind_ok by (by apply only_live). cbv beta.
    erewrite bind_ok by reflexivity. cbv beta.
    assert (term_is_over true (e_now env (S (S (S n2)))) s = false) as ->.
    { unfold term_is_over. cbn [us_Status s inserted new_subscription].
      unfold After. apply Z.ltb_lt in Hrun. cbn [us_ExpiresAt s inserted] in *. by rewrite Hrun. }
    assert (detectAssignSemanticConflict dloc s input = None) as ->.
    { assert (us_StartsAt s = now) as Es.
      { cbn [us_StartsAt s inserted new_subscription]. unfold IsZero. fold now.
        by destruct (Z.eqb_spec now zero_time). }
      assert (us_ExpiresAt s = clamp_expiry (AddDate_days loc now (normalizeAssignValidityDays (in_ValidityDays input)))) as Ex
        by done.
      assert (us_Notes s = in_Notes input) as En by done.
      unfold detectAssignSemanticConflict. cbv zeta. rewrite Es, Ex, En.
      rewrite (AddDate_days_calm _ _ _ _ _ _ Hc H1 H2), (AddDate_days_calm _ _ _ _ _ _ Hc' H1 H2).
      rewrite Z.eqb_refl, andb_false_r. by rewrite bool_decide_true. }
    eexists. reflexivity.
Qed.

End Service.

(** ** Concrete runs *)

Definition ex_env (now : time) : env := mkEnv (fun _ => Fine) (fun _ => now).
Definition ex_group : Group := mkGroup "pro" SubscriptionTypeSubscription (Some (f64_of_Z 5)) None None.
Definition ex_store : store := mkStore {[1 := ex_sub]} 2 {[3 := ex_group]}.
Definition ex_input : AssignSubscriptionInput := mkAssign 8 3 30 0 "order 12".

Lemma ex_store_ok : ok ex_store.
Proof.
  split; cbn [st_subs st_next ex_store].
  - intros i s H. apply lookup_singleton_Some in H as [<- <-]. done.
  - intros i s H. apply lookup_singleton_Some in H as [<- <-]. split; [by vm_compute|]. by left.
  - intros i j s t H1 H2 _ _ _ _. apply lookup_singleton_Some in H1 as [<- _].
    by apply lookup_singleton_Some in H2 as [<- _].
Qed.

Definition ex_ops : list op := [OpAssign ex_input; OpRevoke 1; OpRestore 1; OpExpireAll].

(** The commit of a renewal is lost, the next one works. *)
Definition ex_faulty : env := mkEnv (fun k => if decide (k = 3)%nat then LostAfter else Fine) (fun _ => ex_start).

Lemma subscriptions_well_formed_witness :
  ok (perform_all ex_faulty UTC UTC ex_ops 0%nat ex_store).2.
Proof.
  destruct (subscriptions_well_formed ex_faulty UTC UTC ex_ops 0%nat ex_store ex_store_ok) as [H _].
  exact H.
Defined.

Lemma assign_or_extend_spec_witness :
  exists n' s', assignOrExtendSubscription (ex_env (ex_start + day)) UTC UTC false (mkAssign 7 3 10 0 "") 0%nat ex_store =
    (Ok (s', true), n', with_subs (<[1 := s']> (st_subs ex_store)) ex_store) /\
    us_ExpiresAt s' = clamp_expiry (AddDate_days UTC (us_ExpiresAt ex_sub) 10).
Proof.
  destruct (assign_or_extend_spec (ex_env (ex_start + day)) UTC UTC false (mkAssign 7 3 10 0 "") 0%nat ex_store ex_group)
    as (_ & _ & H); [intros k; reflexivity|exact ex_store_ok|reflexivity|reflexivity|].
  destruct (H ex_sub) as (n' & s' & k & E & Ht); [vm_compute; reflexivity|].
  exists n', s'. split; [exact E|]. destruct Ht as [_ _ _ _ Ht].
  assert (term_is_over false (e_now (ex_env (ex_start + day)) k) ex_sub = false) as Ho
    by (vm_compute; reflexivity).
  rewrite Ho in Ht. destruct Ht as (_ & Hx & _). exact Hx.
Defined.

Lemma shorten_then_extend_witness :
  exists s1 n1 st1 s2 n3 st2,
    ExtendSubscription (ex_env (ex_start + day)) UTC UTC 1 (- 10) 0%nat ex_store = (Ok s1, n1, st1) /\
    ExtendSubscription (ex_env (ex_start + day)) UTC UTC 1 10 9%nat st1 = (Ok s2, n3, st2) /\
    us_ExpiresAt s2 = us_ExpiresAt ex_sub.
Proof.
  destruct (shorten_then_extend (ex_env (ex_start + day)) UTC UTC 0 (10 ^ 10) 0 1 10 0%nat 9%nat ex_store ex_sub)
    as (s1 & n1 & st1 & s2 & n3 & st2 & E1 & _ & E2 & X & _).
  - intros k. reflexivity.
  - exact ex_store_ok.
  - vm_compute. reflexivity.
  - apply calm_UTC.
  - vm_compute. split; discriminate.
  - vm_compute. split; discriminate.
  - vm_compute. split; discriminate.
  - vm_compute. reflexivity.
  - vm_compute. reflexivity.
  - exists s1, n1, st1, s2, n3, st2. split; [exact E1|]. split; [exact E2|exact X].
Defined.

Lemma precheck_agrees_witness :
  exists s' n' st', EnsureWindowMaintenance (ex_env (ex_start + 8 * day)) UTC UTC ex_sub 0%nat ex_store = (Ok s', n', st') /\
    CheckUsageLimits ex_group f0 s' = None.
Proof.
  destruct (precheck_agrees (ex_env (ex_start + 8 * day)) UTC UTC ex_group 0%nat ex_store ex_sub)
    as (s' & n' & st' & E & H).
  - intros k. reflexivity.
  - intros k. reflexivity.
  - vm_compute. reflexivity.
  - intros [=].
  - intros [=].
  - vm_compute. reflexivity.
  - exists s', n', st'. split; [exact E|]. rewrite H. vm_compute. reflexivity.
Defined.

Lemma assign_idempotent_witness :
  exists s n' st', assignSubscriptionWithReuse (ex_env ex_start) UTC UTC ex_input 0%nat ex_store = (Ok (s, false), n', st') /\
    (ex_start < us_ExpiresAt s ->
     exists n3, assignSubscriptionWithReuse (ex_env ex_start) UTC UTC ex_input 0%nat st' = (Ok (s, true), n3, st')).
Proof.
  apply (assign_idempotent (ex_env ex_start) UTC UTC 0 (10 ^ 10) 0 0 ex_input 0%nat 0%nat ex_store ex_group).
  - intros k. reflexivity.
  - exact ex_store_ok.
  - reflexivity.
  - reflexivity.
  - vm_compute. reflexivity.
  - apply calm_UTC.
  - apply calm_UTC.
  - vm_compute. split; discriminate.
  - vm_compute. split; discriminate.
  - intros E. vm_compute in E. discriminate E.
Defined.

(** Assigning again after a renewal that appended its notes is a conflict,
    not the idempotent success it is after a creation. *)
Example renewed_assign_conflicts :
  let env := ex_env (ex_start + 40 * day) in
  let st := mkStore {[1 := set_notes "trial" ex_sub]} 2 {[3 := ex_group]} in
  let input := mkAssign 7 3 30 0 "renewal" in
  let '(r1, _, st1) := assignSubscriptionWithReuse env UTC UTC input 0%nat st in
  let '(r2, _, _) := assignSubscriptionWithReuse env UTC UTC input 0%nat st1 in
  (match r1 with Ok (s, b) => Some (us_Notes s, b) | Err _ => None end)
    = Some ("trial" +:+ bytes [10%nat] +:+ "renewal", true) /\
  (match r2 with Ok _ => None | Err e => Some e end)
    = Some (ErrSubscriptionAssignConflict "notes_mismatch").
Proof. vm_compute. split; reflexivity. Qed.
