(* ===== verification/SubscriptionRace.v ===== *)
(** * Concurrent maintenance of one subscription

    Requests that hold snapshots of a subscription row of any age activate its
    windows ([CheckAndActivateWindow]) and advance its daily, weekly and monthly
    windows ([CheckAndResetWindows]) while usage is recorded
    ([IncrementUsage]), the term is extended ([ExtendExpiry]) and an
    administrator resets windows by hand ([AdminResetQuota]).  Each statement
    is atomic; the order is arbitrary, the clocks too.  The reset statement
    carries the window start of the snapshot as its condition; a ghost history
    records what each window has seen. *)

From S2P Require Import Prelude Float64 GoTime Subscription SubscriptionStore.
Local Open Scope Z_scope.

Inductive window := Daily | Weekly | Monthly.

#[export] Instance window_eq_dec : EqDecision window.
Proof. solve_decision. Defined.

Definition window_of (k : window) (s : UserSubscription) : option time :=
  match k with
  | Daily => us_DailyWindowStart s
  | Weekly => us_WeeklyWindowStart s
  | Monthly => us_MonthlyWindowStart s
  end.
Definition usage_of (k : window) (s : UserSubscription) : f64 :=
  match k with
  | Daily => us_DailyUsageUSD s
  | Weekly => us_WeeklyUsageUSD s
  | Monthly => us_MonthlyUsageUSD s
  end.
Definition reset_window (k : window) (w : time) (s : UserSubscription) : UserSubscription :=
  match k with
  | Daily => set_daily (Some w) f0 s
  | Weekly => set_weekly (Some w) f0 s
  | Monthly => set_monthly (Some w) f0 s
  end.

(** In the configured zone a later day begins after every instant of an
    earlier one. *)
Class OrderedDays (loc : Location) : Prop :=
  days_in_order a b : StartOfDay loc a < StartOfDay loc b -> a < StartOfDay loc b.

Lemma calm_days loc off :
  (forall lo hi, calm loc lo hi off) -> OrderedDays loc.
Proof.
  intros Hc a b. unfold StartOfDay.
  assert (forall t lo hi, lo + 259200 <= unix_sec t <= hi - 259200 -> midnight loc t = day_floor off t) as Hm
    by (intros t lo hi Ht; by apply (midnight_calm loc lo hi off)).
  rewrite (Hm a (unix_sec a - 259200) (unix_sec a + 259200)) by lia.
  rewrite (Hm b (unix_sec b - 259200) (unix_sec b + 259200)) by lia.
  rewrite day_floor_lt. pose proof (day_floor_bounds off a) as Ha. intros H.
  pose proof (day_floor_mono off (day_floor off a + day) b H) as Hb.
  replace (day_floor off a + day) with (day_floor off a + 1 * day) in Hb by lia.
  rewrite day_floor_add in Hb. assert (day_floor off (day_floor off a) = day_floor off a) as E; [|lia].
  unfold day_floor. rewrite Z.sub_add, Z.div_mul by done. reflexivity.
Qed.

#[export] Instance UTC_days : OrderedDays UTC.
Proof. apply (calm_days UTC 0). intros. apply calm_UTC. Qed.

Lemma FixedZone_days off : -86400 <= off <= 86400 -> OrderedDays (FixedZone off).
Proof. intros H. apply (calm_days _ off). intros. by apply calm_FixedZone. Qed.

Section Race.
Context (loc dloc : Location) `{!OrderedDays loc}.

Definition next_window (k : window) (now : time) (s : UserSubscription) : option time :=
  match k with
  | Daily => automaticDailyWindowStartAt loc dloc now s
  | Weekly => weekly_window_at dloc now s
  | Monthly => monthly_window_at dloc now s
  end.

(** The row, every value it has had (the snapshots callers may hold), and per
    window the starts it was automatically reset to, whether it was reset by
    hand, and the costs recorded since the last reset. *)
Record race := mkRace {
  r_row : UserSubscription;
  r_past : list UserSubscription;
  r_resets : window -> list time;
  r_manual : window -> bool;
  r_costs : window -> list f64;
}.

Definition upd {A} (k : window) (v : A) (f : window -> A) : window -> A :=
  fun j => if decide (j = k) then v else f j.

(** The row moves on to [s], and its present value becomes a snapshot. *)
Definition move (s : UserSubscription) (r : race) : race :=
  mkRace s (r_row r :: r_past r) (r_resets r) (r_manual r) (r_costs r).

Definition do_use (at_ : time) (cost : f64) (r : race) : race :=
  let r' := move (touched at_ (add_usage cost (r_row r))) r in
  mkRace (r_row r') (r_past r') (r_resets r') (r_manual r') (fun k => cost :: r_costs r k).

(** The conditional reset of one window by a caller whose snapshot has the
    window start [expected]. *)
Definition do_reset (at_ : time) (k : window) (expected : option time) (w : time) (r : race) : race :=
  if window_of k (r_row r) ==? expected then
    let r' := move (touched at_ (reset_window k w (r_row r))) r in
    mkRace (r_row r') (r_past r') (upd k (w :: r_resets r k) (r_resets r)) (r_manual r)
      (upd k [] (r_costs r))
  else r.

(** [ActivateWindows]'s row. *)
Definition activated (at_ dailyStart periodicStart : time) (s : UserSubscription) : UserSubscription :=
  touched at_
    (set_daily (Some dailyStart) (us_DailyUsageUSD s)
      (set_weekly (Some periodicStart) (us_WeeklyUsageUSD s)
        (set_monthly (Some periodicStart) (us_MonthlyUsageUSD s) s))).

Definition do_activate (at_ now : time) (r : race) : race :=
  if negb (IsWindowActivated (r_row r)) then move (activated at_ (StartOfDay loc now) now (r_row r)) r
  else r.

(** The windows an administrator resets, and to when. *)
Definition chosen (d w m : bool) (k : window) : bool :=
  match k with Daily => d | Weekly => w | Monthly => m end.
Definition manual_start (now : time) (k : window) : time :=
  match k with Daily => StartOfDay loc now | _ => now end.

Definition do_manual (at_ now : time) (d w m : bool) (r : race) : race :=
  let r' := move (touched at_ (reset_windows d w m (StartOfDay loc now) now (r_row r))) r in
  mkRace (r_row r') (r_past r') (r_resets r') (fun k => chosen d w m k || r_manual r k)
    (fun k => if chosen d w m k then [] else r_costs r k).

(** A window start is no earlier than another; none is the earliest. *)
Definition window_le (o o' : option time) : Prop :=
  match o, o' with Some w, Some w' => w <= w' | Some _, None => False | None, _ => True end.

Inductive race_step : race -> race -> Prop :=
| step_use at_ cost r : race_step r (do_use at_ cost r)
| step_reset at_ now k snapshot w r :
    snapshot ∈ r_row r :: r_past r ->
    next_window k now snapshot = Some w ->
    race_step r (do_reset at_ k (window_of k snapshot) w r)
| step_activate at_ now r : race_step r (do_activate at_ now r)
| step_manual at_ now d w m r :
    (forall k, chosen d w m k = true -> window_le (window_of k (r_row r)) (Some (manual_start now k))) ->
    race_step r (do_manual at_ now d w m r)
| step_extend at_ expiry r : race_step r (move (touched at_ (set_expiry expiry (r_row r))) r).

(** The statement of the store that resets a window. *)
Definition repo_reset (env : env) (k : window) : Z -> option time -> time -> M unit :=
  match k with
  | Daily => repo_ResetDailyUsage env
  | Weekly => repo_ResetWeeklyUsage env
  | Monthly => repo_ResetMonthlyUsage env
  end.

(** It does exactly what [do_reset] says of the row. *)
Lemma do_reset_statement env k id expected w n st r :
  working env -> st_subs st !! id = Some (r_row r) ->
  st_subs (repo_reset env k id expected w n st).2 !! id = Some (r_row (do_reset (e_now env n) k expected w r)).
Proof.
  intros Hw Hr. unfold do_reset.
  destruct (window_of k (r_row r) ==? expected) eqn:E.
  - destruct k; cbn [window_of repo_reset] in *;
      [unfold repo_ResetDailyUsage|unfold repo_ResetWeeklyUsage|unfold repo_ResetMonthlyUsage];
      rewrite (conditional_ok _ _ _ _ _ _ _ Hw Hr E); apply lookup_insert_eq.
  - assert (forall c f, c (r_row r) = false ->
      st_subs (conditional env id c f n st).2 !! id = Some (r_row r)) as Hc.
    { intros c f Ec. unfold conditional.
      erewrite bind_ok by (rewrite statement_fine by done; unfold update_when; rewrite Hr, Ec; reflexivity).
      cbn [fst snd]. unfold translateConditionalWindowReset. cbn [Z.ltb Z.compare].
      rewrite statement_fine by done. exact Hr. }
    destruct k; cbn [window_of] in E; by apply Hc.
Qed.

Lemma do_activate_statement env id now n st r :
  working env -> st_subs st !! id = Some (r_row r) ->
  let '(_, _, st') := repo_ActivateWindows env id (StartOfDay loc now) now n st in
  st_subs st' !! id = Some (r_row (do_activate (e_now env n) now r)).
Proof.
  intros Hw Hr. unfold do_activate, repo_ActivateWindows.
  destruct (negb (IsWindowActivated (r_row r))) eqn:E.
  - rewrite (conditional_ok _ _ _ _ _ _ _ Hw Hr E). apply lookup_insert_eq.
  - unfold conditional.
    erewrite bind_ok by (rewrite statement_fine by done; unfold update_when; rewrite Hr, E; reflexivity).
    cbn [fst snd]. unfold translateConditionalWindowReset. cbn [Z.ltb Z.compare].
    rewrite statement_fine by done. exact Hr.
Qed.

(** ** The invariant *)

#[local] Instance window_le_preorder : PreOrder window_le.
Proof.
  split.
  - intros [w|]; cbn; [lia|done].
  - intros [a|] [b|] [c|]; cbn; intros; done || lia.
Qed.

(** The last automatic reset of a window, or its start at the beginning. *)
Definition latest (k : window) (r : race) (w0 : option time) : option time :=
  match r_resets r k with w :: _ => Some w | [] => w0 end.

(** [row0] is the row at the start. *)
Record race_ok (row0 : UserSubscription) (r : race) : Prop := {
  ro_window : forall k, window_le (latest k r (window_of k row0)) (window_of k (r_row r));
  ro_sorted : forall k, StronglySorted (fun x y => y < x) (r_resets r k);
  ro_first : forall k w0 w, window_of k row0 = Some w0 -> w ∈ r_resets r k -> w0 < w;
  ro_past : forall k s, s ∈ r_past r -> window_le (window_of k s) (window_of k (r_row r));
  ro_usage : forall k, usage_of k (r_row r) =
    fold_right (fun c u => fadd u c)
      (if decide (r_resets r k = [] /\ r_manual r k = false) then usage_of k row0 else f0) (r_costs r k);
}.

Lemma next_window_after k now s w w' :
  window_of k s = Some w -> next_window k now s = Some w' -> w < w'.
Proof.
  assert (forall p, p = week \/ p = month -> automaticWindowStartAt dloc s (Some w) p now = Some w' -> w < w') as H.
  { intros p Hp E. assert (0 < p < int64_max) as Hp' by (destruct Hp as [-> | ->]; vm_compute; done).
    destruct (window_step dloc s w p now w' Hp' E) as ((j & Hj & ->) & _).
    pose proof (anchor_after dloc s w). nia. }
  destruct k; cbn [window_of next_window]; [|unfold weekly_window_at, monthly_window_at; intros ->; apply H; auto..].
  unfold automaticDailyWindowStartAt. intros ->. destruct (HasOneTimeDailyQuota _ _); [done|].
  destruct (After _ _) eqn:E; [|done]. intros [= <-]. apply days_in_order. by apply Z.ltb_lt.
Qed.

Lemma next_window_set k now s w' : next_window k now s = Some w' -> exists w, window_of k s = Some w.
Proof.
  destruct (window_of k s) as [w|] eqn:E; [eauto|]. destruct k; cbn [window_of next_window] in *;
    unfold automaticDailyWindowStartAt, weekly_window_at, monthly_window_at; by rewrite E.
Qed.

(** A move to a row with windows no earlier keeps the snapshots behind. *)
Lemma past_le k (row row' : UserSubscription) (past : list UserSubscription) :
  (forall s, s ∈ past -> window_le (window_of k s) (window_of k row)) ->
  window_le (window_of k row) (window_of k row') ->
  forall s, s ∈ row :: past -> window_le (window_of k s) (window_of k row').
Proof.
  intros Hp Hr s Hs. apply elem_of_cons in Hs as [-> | Hs]; [done|].
  trans (window_of k row); auto.
Qed.

Lemma window_reset_other j k w at_ s :
  window_of j (touched at_ (reset_window k w s)) = if decide (j = k) then Some w else window_of j s.
Proof. by destruct j, k. Qed.
Lemma usage_reset_other j k w at_ s :
  usage_of j (touched at_ (reset_window k w s)) = if decide (j = k) then f0 else usage_of j s.
Proof. by destruct j, k. Qed.
Lemma window_manual j d w m at_ now s :
  window_of j (touched at_ (reset_windows d w m (StartOfDay loc now) now s)) =
  if chosen d w m j then Some (manual_start now j) else window_of j s.
Proof. by destruct j, d, w, m. Qed.
Lemma usage_manual j d w m at_ now s :
  usage_of j (touched at_ (reset_windows d w m (StartOfDay loc now) now s)) =
  if chosen d w m j then f0 else usage_of j s.
Proof. by destruct j, d, w, m. Qed.

(** A move whose windows are no earlier and which no window's history shows. *)
Lemma race_ok_move row0 s r :
  race_ok row0 r -> (forall k, window_le (window_of k (r_row r)) (window_of k s)) ->
  (forall k, usage_of k s = usage_of k (r_row r)) -> race_ok row0 (move s r).
Proof.
  intros [Hw Hs Hf Hp Hu] Hle He.
  split; cbn [move r_row r_past r_resets r_manual r_costs]; [|exact Hs|exact Hf| |].
  - intros k. etrans; [exact (Hw k)|apply Hle].
  - intros k. apply (past_le k); auto.
  - intros k. etrans; [apply He|apply Hu].
Qed.

Lemma race_ok_reset row0 at_ now k snapshot w r :
  race_ok row0 r -> next_window k now snapshot = Some w ->
  race_ok row0 (do_reset at_ k (window_of k snapshot) w r).
Proof.
  intros [Hw Hs Hf Hp Hu] Hnext. unfold do_reset.
  destruct (window_of k (r_row r) ==? window_of k snapshot) eqn:E; [|by split].
  apply bool_decide_eq_true in E. destruct (next_window_set _ _ _ _ Hnext) as [w0 Ew]. rewrite Ew in E.
  pose proof (next_window_after k now snapshot w0 w Ew Hnext) as Hlt.
  assert (forall v, v ∈ r_resets r k -> v < w) as Hv.
  { intros v Hv. pose proof (Hw k) as Hk. pose proof (Hs k) as Hsk. unfold latest in Hk.
    destruct (r_resets r k) as [|v0 l]; [by apply elem_of_nil in Hv|]. rewrite E in Hk. cbn in Hk.
    apply StronglySorted_inv in Hsk as [_ Hall]. apply elem_of_cons in Hv as [->|Hv]; [lia|].
    rewrite Forall_forall in Hall. specialize (Hall v Hv). cbn in Hall. lia. }
  split; cbn [move r_row r_past r_resets r_manual r_costs]; intros j.
  - rewrite window_reset_other. unfold latest, upd. cbn [r_resets].
    destruct (decide (j = k)); [apply Z.le_refl|apply Hw].
  - unfold upd. destruct (decide (j = k)) as [->|]; [|auto]. constructor; [auto|].
    apply Forall_forall. exact Hv.
  - intros v0 v Hv0 Hin. unfold upd in Hin. destruct (decide (j = k)) as [->|]; [|eauto].
    apply elem_of_cons in Hin as [-> | Hin]; [|eauto].
    pose proof (Hw k) as Hk. unfold latest in Hk. destruct (r_resets r k) as [|v l] eqn:El.
    + rewrite E, Hv0 in Hk. cbn in Hk. lia.
    + assert (v0 < v) by (eapply Hf; [done|rewrite El; by left]).
      rewrite E in Hk. cbn in Hk. lia.
  - apply (past_le j (r_row r) (touched at_ (reset_window k w (r_row r))) (r_past r)); [exact (Hp j)|].
    rewrite window_reset_other.
    destruct (decide (j = k)) as [->|]; [|reflexivity]. rewrite E. cbn. lia.
  - rewrite usage_reset_other. unfold upd. destruct (decide (j = k)) as [->|]; [|apply Hu].
    rewrite decide_False; [done|]. by intros [? _].
Qed.

Lemma race_ok_manual row0 at_ now d w m r :
  (forall k, chosen d w m k = true -> window_le (window_of k (r_row r)) (Some (manual_start now k))) ->
  race_ok row0 r -> race_ok row0 (do_manual at_ now d w m r).
Proof.
  intros Hm [Hw Hs Hf Hp Hu].
  assert (forall k, window_le (window_of k (r_row r))
            (window_of k (touched at_ (reset_windows d w m (StartOfDay loc now) now (r_row r))))) as Hle.
  { intros k. rewrite window_manual. destruct (chosen d w m k) eqn:E; [by apply Hm|reflexivity]. }
  split; cbn [do_manual move r_row r_past r_resets r_manual r_costs]; [|exact Hs|exact Hf| |].
  - intros k. etrans; [exact (Hw k)|apply Hle].
  - intros k. apply (past_le k); auto.
  - intros k. rewrite usage_manual. destruct (chosen d w m k); [|apply Hu].
    cbn [orb fold_right]. rewrite decide_False; [done|]. by intros [_ ?].
Qed.

Lemma race_ok_step row0 r r' : race_ok row0 r -> race_step r r' -> race_ok row0 r'.
Proof.
  intros Hok H. destruct H as [at_ cost r|at_ now k snapshot w r Hin Hnext|at_ now r|at_ now d w m r Hm|at_ expiry r].
  - destruct Hok as [Hw Hs Hf Hp Hu].
    assert (forall k, window_of k (touched at_ (add_usage cost (r_row r))) = window_of k (r_row r)) as E
      by (by intros []).
    split; cbn [do_use move r_row r_past r_resets r_manual r_costs]; [|exact Hs|exact Hf| |].
    + intros k. rewrite E. apply Hw.
    + intros k. apply past_le; [apply Hp|by rewrite E].
    + intros k. etrans; [|exact (f_equal (fun u => fadd u cost) (Hu k))]. by destruct k.
  - by eapply race_ok_reset.
  - unfold do_activate. destruct (negb _) eqn:E; [|done]. apply race_ok_move; [done| |by intros []].
    apply negb_true_iff in E. unfold IsWindowActivated in E. rewrite !orb_false_iff in E.
    destruct E as [[E1 E2] E3].
    intros []; cbn [window_of]; [destruct (us_DailyWindowStart _)|destruct (us_WeeklyWindowStart _)|
      destruct (us_MonthlyWindowStart _)]; done.
  - by apply race_ok_manual.
  - apply race_ok_move; [done|intros []; reflexivity|by intros []].
Qed.

Definition race_start (row0 : UserSubscription) : race := mkRace row0 [] (fun _ => []) (fun _ => false) (fun _ => []).

Lemma race_start_ok row0 : race_ok row0 (race_start row0).
Proof.
  split; cbn; try done.
  - intros k. constructor.
  - intros k w0 w _ H. by apply elem_of_nil in H.
  - intros k s H. by apply elem_of_nil in H.
Qed.

Lemma race_ok_reachable row0 r : rtc race_step (race_start row0) r -> race_ok row0 r.
Proof.
  intros H. remember (race_start row0) as r0 eqn:E.
  assert (race_ok row0 r0) as Hok by (subst; apply race_start_ok). clear E.
  induction H as [|r1 r2 r3 H _ IH]; [done|]. apply IH. by apply (race_ok_step row0 r1).
Qed.


End Race.

(** Two requests reset the week with the same snapshot; a cost comes between. *)
Definition ex_race : race :=
  let r0 := race_start ex_sub in
  let now := ex_start + 8 * day in
  let r1 := do_reset now Weekly (Some ex_start) (ex_start + week) r0 in
  do_reset now Weekly (Some ex_start) (ex_start + week) (do_use now f1 r1).

Lemma ex_race_reachable : rtc (race_step UTC UTC) (race_start ex_sub) ex_race.
Proof.
  assert (next_window UTC UTC Weekly (ex_start + 8 * day) ex_sub = Some (ex_start + week)) as E
    by (vm_compute; reflexivity).
  eapply rtc_l; [|eapply rtc_l; [|eapply rtc_l; [|reflexivity]]].
  - apply (step_reset UTC UTC (ex_start + 8 * day) (ex_start + 8 * day) Weekly ex_sub); [by left|exact E].
  - apply step_use.
  - apply (step_reset UTC UTC (ex_start + 8 * day) (ex_start + 8 * day) Weekly ex_sub); [|exact E].
    right. right. by left.
Qed.

