(* ===== verification/Refund.v ===== *)
(** * Refunds: internal/service/payment_refund.go

    The user's request, the administrator's refund (plan, deduction, gateway
    call, rollback) and the settlement of a refund the gateway left pending,
    each as a machine with one transition per statement, call of the provider
    or call of the subscription service: [rpc] names what is about to run,
    [radvance] runs it and the code up to the next one.

    Outside this component, and arguments here: the provider built for the
    order and its replies, the decimal library, the conversion between a
    [float64] and a [decimal(20,8)] column.  A balance is its number of
    1e-8 units.  Calls of the subscription service are those of
    SubscriptionStore.v, each taken as one transition.  Two histories are kept
    that the program does not store: the money moved and the refunds asked of
    the gateway. *)

From S2P Require Import Prelude Float64 GoTime GoAny PaymentHelpers PaymentOrder.
From S2P Require Subscription SubscriptionStore.
#[local] Existing Instance Subscription.SubscriptionError_eq_dec.
Local Open Scope Z_scope.

(** ** Data *)

Record refund_order := mkRefundOrder {
  ro : PaymentOrder;
  ro_RefundAmount : f64;
  ro_RefundReason : option string;
  ro_RefundAt : option time;
  ro_ForceRefund : bool;
  ro_RefundRequestedAt : option time;
  ro_RefundRequestReason : option string;
  ro_RefundRequestedBy : option string;
}.

Record wallet := mkWallet { u_Balance : Z; u_TotalRecharged : Z }.

(** The details of a REFUND_PENDING audit that are read back. *)
Record refundPendingAuditDetail := mkPendingDetail {
  pd_RefundID : string;
  pd_DeductionRollbackOK : bool;
}.

Inductive entry :=
| Deducted (oid user amount : Z)
| RolledBack (oid user amount : Z).

Record rdb := mkRdb {
  rd_orders : gmap Z refund_order;
  rd_wallets : gmap Z wallet;
  rd_subs : SubscriptionStore.store;
  (** one row per order and action, by the unique index *)
  rd_audits : gmap (Z * string) (option refundPendingAuditDetail);
  rd_ledger : list entry;
  rd_gateway : list (Z * f64);
}.

Definition with_orders (m : gmap Z refund_order) (d : rdb) : rdb :=
  mkRdb m (rd_wallets d) (rd_subs d) (rd_audits d) (rd_ledger d) (rd_gateway d).
Definition with_wallets (m : gmap Z wallet) (e : entry) (d : rdb) : rdb :=
  mkRdb (rd_orders d) m (rd_subs d) (rd_audits d) (e :: rd_ledger d) (rd_gateway d).
Definition with_substore (s : SubscriptionStore.store) (d : rdb) : rdb :=
  mkRdb (rd_orders d) (rd_wallets d) s (rd_audits d) (rd_ledger d) (rd_gateway d).
Definition with_audits (m : gmap (Z * string) (option refundPendingAuditDetail)) (d : rdb) : rdb :=
  mkRdb (rd_orders d) (rd_wallets d) (rd_subs d) m (rd_ledger d) (rd_gateway d).
Definition with_gateway (g : Z * f64) (d : rdb) : rdb :=
  mkRdb (rd_orders d) (rd_wallets d) (rd_subs d) (rd_audits d) (rd_ledger d) (g :: rd_gateway d).

Definition DeductionTypeBalance := "balance".
Definition DeductionTypeSubscription := "subscription".
Definition DeductionTypeNone := "none".

Record RefundPlan := mkPlan {
  p_OrderID : Z;
  p_Order : refund_order;
  p_RefundAmount : f64;
  p_GatewayAmount : f64;
  p_Reason : string;
  p_Force : bool;
  p_DeductBalance : bool;
  p_DeductionType : string;
  p_BalanceToDeduct : f64;
  p_SubDaysToDeduct : Z;
  p_SubscriptionID : Z;
}.

Definition with_balance (x : f64) (p : RefundPlan) : RefundPlan :=
  mkPlan (p_OrderID p) (p_Order p) (p_RefundAmount p) (p_GatewayAmount p) (p_Reason p) (p_Force p)
    (p_DeductBalance p) (p_DeductionType p) x (p_SubDaysToDeduct p) (p_SubscriptionID p).
Definition with_days (n : Z) (p : RefundPlan) : RefundPlan :=
  mkPlan (p_OrderID p) (p_Order p) (p_RefundAmount p) (p_GatewayAmount p) (p_Reason p) (p_Force p)
    (p_DeductBalance p) (p_DeductionType p) (p_BalanceToDeduct p) n (p_SubscriptionID p).
Definition with_deduction (ty : string) (x : f64) (days sub : Z) (p : RefundPlan) : RefundPlan :=
  mkPlan (p_OrderID p) (p_Order p) (p_RefundAmount p) (p_GatewayAmount p) (p_Reason p) (p_Force p)
    (p_DeductBalance p) ty x days sub.

Record RefundResult := mkResult {
  rr_Success : bool;
  rr_Warning : string;
  rr_RequireForce : bool;
  rr_BalanceDeducted : f64;
  rr_SubDaysDeducted : Z;
}.

Definition warning (w : string) (force : bool) : RefundResult := mkResult false w force f0 0.

Inductive RefundError :=
| RNotFound | RForbidden | RInvalidOrderType | RInvalidStatus | RUserRefundDisabled
| RGetUser | RBalanceNotEnough | RUpdate | RConflict | RProviderLookup | RRefundDisabled
| RInvalidAmount | RAmountExceeded | RLock | RDeduction | RRevoke | RRefundFailed
| RMarkRefund | RMarkPending | RGetProvider | RQueryUnsupported | RQuery | RFinalize.

(** ** Amounts *)

Definition f_inf (neg : bool) (x : f64) : bool :=
  match x with SpecFloat.S754_infinity s => bool_decide (s = neg) | _ => false end.
Definition f_zero (x : f64) : bool := match x with SpecFloat.S754_zero _ => true | _ => false end.
Definition f_sign (x : f64) : bool := match x with SpecFloat.S754_zero s => s | _ => false end.

(** [math.Max] and [math.Min]. *)
Definition math_Max (x y : f64) : f64 :=
  if f_inf false x || f_inf false y then SpecFloat.S754_infinity false
  else if f_is_nan x || f_is_nan y then SpecFloat.S754_nan
  else if f_zero x && f_zero y then (if f_sign x then y else x)
  else if fltb y x then x else y.

Definition math_Min (x y : f64) : f64 :=
  if f_inf true x || f_inf true y then SpecFloat.S754_infinity true
  else if f_is_nan x || f_is_nan y then SpecFloat.S754_nan
  else if f_zero x && f_zero y then (if f_sign x then x else y)
  else if fltb x y then x else y.

Section Machine.

(** The decimal library: [NewFromFloat(x).Round(n).InexactFloat64()] and
    [NewFromFloat(x).Mul(y).Div(z).Round(n).InexactFloat64()]. *)
Variable decimal_round : Z -> f64 -> f64.
Variable decimal_prorate : Z -> f64 -> f64 -> f64 -> f64.

(** A balance column read into a [float64], and a [float64] as the column's
    units. *)
Variable to_float : Z -> f64.
Variable to_column : f64 -> Z.

(** Calendar locations of the subscription service. *)
Variables loc dloc : Location.

Definition calculateGatewayRefundAmount (orderAmount payAmount refundAmount : f64) (currency : string) : f64 :=
  if fleb orderAmount f0 || fleb payAmount f0 || fleb refundAmount f0 then f0
  else
    let fractionDigits := CurrencyMaxFractionDigits currency in
    if fleb (fabs (fsub refundAmount orderAmount)) (paymentAmountToleranceForCurrency currency)
    then decimal_round fractionDigits payAmount
    else decimal_prorate fractionDigits payAmount refundAmount orderAmount.

(** ** Guards *)

(** No best-effort guess of the instance on refund paths. *)
Definition getRefundOrderProviderInstance (instances : gmap Z ProviderInstance) (o : PaymentOrder)
    : result InstanceError (option ProviderInstance) :=
  match psOrderProviderSnapshot o with
  | Some s => resolveSnapshotOrderProviderInstance instances o s
  | None =>
      let instIDStr := TrimSpace (psStringValue (po_ProviderInstanceID o)) in
      if instIDStr ==? "" then Ok None
      else match ParseInt instIDStr with
           | None => Err ErrSnapshotInstanceInvalid
           | Some instID => match instances !! instID with
                            | Some inst => Ok (Some inst)
                            | None => Err ErrInstanceMissing
                            end
           end
  end.

(** The two refund switches of an instance. *)
Record refund_flags := mkFlags { AllowUserRefund : bool; RefundEnabled : bool }.

(** After the order is read: the checks of [validateRefundRequest]. *)
Definition validateRefundRequest (instances : gmap Z ProviderInstance) (flags : Z -> refund_flags)
    (uid : Z) (o : PaymentOrder) : option RefundError :=
  if negb (po_UserID o =? uid) then Some RForbidden
  else if po_OrderType o !=? OrderTypeBalance then Some RInvalidOrderType
  else if po_Status o !=? OrderStatusCompleted then Some RInvalidStatus
  else match getRefundOrderProviderInstance instances o with
       | Ok (Some inst) => if AllowUserRefund (flags (pi_ID inst)) then None else Some RUserRefundDisabled
       | _ => Some RUserRefundDisabled
       end.

Definition refundable (s : string) : bool :=
  (s ==? OrderStatusCompleted) || (s ==? OrderStatusRefundRequested)
  || (s ==? OrderStatusRefundPending) || (s ==? OrderStatusRefundFailed).

(** [PrepareRefund] up to the deduction. *)
Definition prepare_plan (instances : gmap Z ProviderInstance) (flags : Z -> refund_flags)
    (amt : f64) (reason : string) (force deduct : bool) (oid : Z) (r : refund_order)
    : result RefundError RefundPlan :=
  let o := ro r in
  if negb (refundable (po_Status o)) then Err RInvalidStatus
  else match getRefundOrderProviderInstance instances o with
  | Err _ => Err RProviderLookup
  | Ok None => Err RRefundDisabled
  | Ok (Some inst) =>
      if negb (RefundEnabled (flags (pi_ID inst))) then Err RRefundDisabled
      else if f_is_nan amt || f_is_inf amt then Err RInvalidAmount
      else
        let amt := if fleb amt f0 then po_Amount o else amt in
        let currency := PaymentOrderCurrency o in
        if fltb (paymentAmountToleranceForCurrency currency) (fsub amt (po_Amount o))
        then Err RAmountExceeded
        else
          let rr := TrimSpace reason in
          let rr := match ro_RefundRequestReason r with
                    | Some q => if rr ==? "" then q else rr
                    | None => rr
                    end in
          let rr := if rr ==? "" then "refund order:" +:+ FormatInt (po_ID o) else rr in
          Ok (mkPlan oid r amt
                (calculateGatewayRefundAmount (po_Amount o) (po_PayAmount o) amt currency)
                rr force deduct DeductionTypeNone f0 0 0)
  end.

(** [prepDeduct], after the one lookup it makes. *)
Definition prep_subscription (force : bool) (p : RefundPlan) (sub : option Z) : RefundPlan + RefundResult :=
  let days := default 0 (po_SubscriptionDays (ro (p_Order p))) in
  match sub with
  | Some id => inl (with_deduction DeductionTypeSubscription (p_BalanceToDeduct p) days id p)
  | None =>
      if force then inl (with_deduction DeductionTypeSubscription (p_BalanceToDeduct p) days (p_SubscriptionID p) p)
      else inr (warning "cannot find active subscription for deduction, use force" true)
  end.

Definition prep_balance (force : bool) (p : RefundPlan) (balance : option f64) : RefundPlan + RefundResult :=
  match balance with
  | None => if force then inl p else inr (warning "cannot fetch user balance, use force" true)
  | Some b =>
      if fltb b (p_RefundAmount p) && negb force
      then inr (warning "user balance is insufficient for deduction, use force" true)
      else inl (with_deduction DeductionTypeBalance (math_Max f0 (math_Min (p_RefundAmount p) b))
                  (p_SubDaysToDeduct p) (p_SubscriptionID p) p)
  end.

Definition is_subscription_order (o : PaymentOrder) : bool := po_OrderType o ==? OrderTypeSubscription.

(** The provider's reply to a refund or to a query of one. *)
Record RefundResponse := mkResponse { rs_Status : string; rs_RefundID : string }.

Definition ProviderStatusPending := "pending".
Definition ProviderStatusSuccess := "success".
Definition ProviderStatusFailed := "failed".
Definition ProviderStatusRefunded := "refunded".

Definition validateRefundProviderResponse (resp : option RefundResponse) : bool :=
  match resp with
  | None => false
  | Some r => let s := TrimSpace (rs_Status r) in
              (s ==? ProviderStatusSuccess) || (s ==? ProviderStatusRefunded) || (s ==? ProviderStatusPending)
  end.

(** [gwRefund] on the provider's reply: an error with a pending response
    counts as pending. *)
Definition gateway_reply (failed : bool) (resp : option RefundResponse) : option RefundResponse :=
  if failed then
    match resp with
    | Some r => if TrimSpace (rs_Status r) ==? ProviderStatusPending then Some r else None
    | None => None
    end
  else if validateRefundProviderResponse resp then resp else None.

Definition refundResponseID (resp : RefundResponse) : string := TrimSpace (rs_RefundID resp).

Definition refundFinalizePlan (r : refund_order) : RefundPlan :=
  let o := ro r in
  let reason := TrimSpace (psStringValue (ro_RefundReason r)) in
  let reason := if reason ==? "" then "refund order:" +:+ FormatInt (po_ID o) else reason in
  mkPlan (po_ID o) r (ro_RefundAmount r)
    (calculateGatewayRefundAmount (po_Amount o) (po_PayAmount o) (ro_RefundAmount r) (PaymentOrderCurrency o))
    reason (ro_ForceRefund r) true DeductionTypeBalance
    (if po_OrderType o ==? OrderTypeBalance then ro_RefundAmount r else f0) 0 0.

(** ** Updates of the order row *)

(** A row update that writes a status, [updated_at] and refund columns. *)
Definition put (status : string) (at_ : time) (r : refund_order) : refund_order :=
  mkRefundOrder (set_status status at_ (ro r)) (ro_RefundAmount r) (ro_RefundReason r) (ro_RefundAt r)
    (ro_ForceRefund r) (ro_RefundRequestedAt r) (ro_RefundRequestReason r) (ro_RefundRequestedBy r).

Definition put_failed (now at_ : time) (reason : string) (r : refund_order) : refund_order :=
  let o := ro r in
  mkRefundOrder
    (mkOrder (po_ID o) (po_UserID o) (po_Amount o) (po_PayAmount o) (po_RechargeCode o) (po_OutTradeNo o)
       (po_PaymentType o) (po_PaymentTradeNo o) (po_OrderType o) (po_SubscriptionGroupID o)
       (po_SubscriptionDays o) (po_ProviderInstanceID o) (po_ProviderKey o) (po_ProviderSnapshot o)
       OrderStatusRefundFailed at_ (po_PaidAt o) (po_CompletedAt o) (Some now) (Some reason))
    (ro_RefundAmount r) (ro_RefundReason r) (ro_RefundAt r)
    (ro_ForceRefund r) (ro_RefundRequestedAt r) (ro_RefundRequestReason r) (ro_RefundRequestedBy r).

Definition put_requested (now at_ : time) (amount : f64) (reason by_ : string) (r : refund_order) : refund_order :=
  mkRefundOrder (set_status OrderStatusRefundRequested at_ (ro r)) amount (ro_RefundReason r) (ro_RefundAt r)
    (ro_ForceRefund r) (Some now) (Some reason) (Some by_).

Definition put_refunded (status : string) (now at_ : time) (p : RefundPlan) (r : refund_order) : refund_order :=
  mkRefundOrder (set_status status at_ (ro r)) (p_RefundAmount p) (Some (p_Reason p)) (Some now)
    (p_Force p) (ro_RefundRequestedAt r) (ro_RefundRequestReason r) (ro_RefundRequestedBy r).

Definition put_pending (at_ : time) (p : RefundPlan) (r : refund_order) : refund_order :=
  let o := ro r in
  mkRefundOrder
    (mkOrder (po_ID o) (po_UserID o) (po_Amount o) (po_PayAmount o) (po_RechargeCode o) (po_OutTradeNo o)
       (po_PaymentType o) (po_PaymentTradeNo o) (po_OrderType o) (po_SubscriptionGroupID o)
       (po_SubscriptionDays o) (po_ProviderInstanceID o) (po_ProviderKey o) (po_ProviderSnapshot o)
       OrderStatusRefundPending at_ (po_PaidAt o) (po_CompletedAt o) None None)
    (p_RefundAmount p) (Some (p_Reason p)) None (p_Force p)
    (ro_RefundRequestedAt r) (ro_RefundRequestReason r) (ro_RefundRequestedBy r).

(** [markRefundOk]'s final status. *)
Definition final_status (p : RefundPlan) : string :=
  if fltb (p_RefundAmount p) (po_Amount (ro (p_Order p))) then OrderStatusPartiallyRefunded
  else OrderStatusRefunded.

(** [restoreStatus]'s target. *)
Definition restored_status (p : RefundPlan) : string :=
  if po_Status (ro (p_Order p)) ==? OrderStatusRefundRequested then OrderStatusRefundRequested
  else OrderStatusCompleted.

(** ** What the surroundings answer at a transition *)

Record renv := mkRenv {
  r_fault : fault;
  r_now : time;
  r_at : time;
  r_instances : gmap Z ProviderInstance;
  r_flags : Z -> refund_flags;
  r_provider : option (string * gmap string string);  (** key and identity of the provider built *)
  r_failed : bool;                                    (** the provider's call returns an error *)
  r_reply : option RefundResponse;
  r_queries : bool;                                   (** the provider can query refunds *)
  r_sub : SubscriptionStore.env;
  r_sub_cached : option Subscription.UserSubscription;  (** the L1 cache *)
  r_audit : bool;                                     (** best-effort audit inserts work *)
  r_text : string;                                    (** text of the error recorded *)
}.

(** [getRefundProvider]: the provider of the order's own instance. *)
Definition getRefundProvider (v : renv) (o : PaymentOrder) : option (string * gmap string string) :=
  match getRefundOrderProviderInstance (r_instances v) o with
  | Ok (Some _) => r_provider v
  | _ => None
  end.

(** The reply of a conditional update: the rows changed, unless it failed. *)
Definition update_rows (v : renv) (id : Z) (cond : refund_order -> bool)
    (f : refund_order -> refund_order) (d : rdb) : option Z * rdb :=
  let '(n, d') := match rd_orders d !! id with
                  | Some r => if cond r then (1, with_orders (<[id := f r]> (rd_orders d)) d) else (0, d)
                  | None => (0, d)
                  end in
  match r_fault v with
  | Fine => (Some n, d')
  | LostBefore => (None, d)
  | LostAfter => (None, d')
  end.

(** [UpdateOneID]: no row is an error. *)
Definition update_one (v : renv) (id : Z) (f : refund_order -> refund_order) (d : rdb) : bool * rdb :=
  match update_rows v id (fun _ => true) f d with
  | (Some n, d') => (0 <? n, d')
  | (None, d') => (false, d')
  end.

(** [writeAuditLog]: an insert refused by the unique index is only logged. *)
Definition audit (v : renv) (oid : Z) (action : string) (detail : option refundPendingAuditDetail) (d : rdb) : rdb :=
  if r_audit v && negb (Subscription.is_some (rd_audits d !! (oid, action)))
  then with_audits (<[(oid, action) := detail]> (rd_audits d)) d else d.

Definition has_audit (oid : Z) (action : string) (d : rdb) : bool :=
  Subscription.is_some (rd_audits d !! (oid, action)).

Definition ROLLBACK_FAILED := "REFUND_ROLLBACK_FAILED".
Definition PENDING := "REFUND_PENDING".

(** A read: its value, unless the statement failed. *)
Definition read {A} (v : renv) (o : option A) : option A :=
  match r_fault v with Fine => o | _ => None end.

(** [DeductAvailableBalance]: min(amount, max(balance, 0)), in column units. *)
Definition DeductAvailableBalance (oid user : Z) (amount : f64) (d : rdb) : option f64 * rdb :=
  if fltb amount f0 then (None, d)
  else match rd_wallets d !! user with
  | None => (None, d)
  | Some w =>
      let taken := Z.min (to_column amount) (Z.max (u_Balance w) 0) in
      (Some (to_float taken),
       with_wallets (<[user := mkWallet (u_Balance w - taken) (u_TotalRecharged w)]> (rd_wallets d))
         (Deducted oid user taken) d)
  end.

(** [UpdateBalance] with a positive amount counts it as recharged as well. *)
Definition UpdateBalance (oid user : Z) (amount : f64) (d : rdb) : option unit * rdb :=
  match rd_wallets d !! user with
  | None => (None, d)
  | Some w =>
      let units := to_column amount in
      (Some tt,
       with_wallets (<[user := mkWallet (u_Balance w + units)
                                 (if fltb f0 amount then u_TotalRecharged w + units else u_TotalRecharged w)]>
                       (rd_wallets d))
         (RolledBack oid user units) d)
  end.

(** A statement with a result under the step's fault. *)
Definition faulty {A} (v : renv) (f : rdb -> option A * rdb) (d : rdb) : option A * rdb :=
  match r_fault v with
  | Fine => f d
  | LostBefore => (None, d)
  | LostAfter => (None, (f d).2)
  end.

Definition extend_sub (v : renv) (id days : Z) (d : rdb)
    : result Subscription.SubscriptionError unit * rdb :=
  match SubscriptionStore.ExtendSubscription (r_sub v) loc dloc id days 0%nat (rd_subs d) with
  | (Ok _, _, st) => (Ok tt, with_substore st d)
  | (Err e, _, st) => (Err e, with_substore st d)
  end.

Definition revoke_sub (v : renv) (id : Z) (d : rdb) : bool * rdb :=
  match SubscriptionStore.RevokeSubscription (r_sub v) id 0%nat (rd_subs d) with
  | (Ok _, _, st) => (true, with_substore st d)
  | (Err _, _, st) => (false, with_substore st d)
  end.

(** [GetActiveSubscription]: the cache, then the table. *)
Definition active_sub (v : renv) (user group : Z) (d : rdb) : option Z :=
  match r_sub_cached v with
  | Some s => Some (Subscription.us_ID s)
  | None =>
      match SubscriptionStore.repo_GetActiveByUserIDAndGroupID (r_sub v) user group 0%nat (rd_subs d) with
      | (Ok s, _, _) => Some (Subscription.us_ID s)
      | (Err _, _, _) => None
      end
  end.

(** ** The program counter *)

(** What follows a rollback: the gateway failed, or left the refund pending. *)
Inductive after_rollback := GatewayFailed | GatewayPending (refundID : string).

Inductive rpc :=
(* RequestRefund *)
| RqGet (oid uid : Z) (reason : string)
| RqUser (r : refund_order) (uid : Z) (reason : string)
| RqUpdate (r : refund_order) (uid : Z) (reason : string)
(* PrepareRefund, then ExecuteRefund *)
| PrGet (oid : Z) (amt : f64) (reason : string) (force deduct : bool)
| PrDeduct (p : RefundPlan)
| ExLock (p : RefundPlan)
| ExAudit (p : RefundPlan)
| ExDeduct (p : RefundPlan)
| ExSubAudit (p : RefundPlan)
| ExExtend (p : RefundPlan)
| ExRevoke (p : RefundPlan)
| ExRestore (p : RefundPlan) (e : RefundError)
| ExGateway (p : RefundPlan)
| RbBalance (p : RefundPlan) (k : after_rollback)
| RbSub (p : RefundPlan) (k : after_rollback)
| FailRestore (p : RefundPlan)
| FailMark (p : RefundPlan)
| MkOk (p : RefundPlan)
| MkPending (p : RefundPlan) (refundID : string) (rollbackOK : bool)
(* QueryAndFinalizeRefund *)
| QfGet (oid : Z)
| QfDetail (r : refund_order)
| QfQuery (r : refund_order) (detail : refundPendingAuditDetail)
| QfFail (oid : Z)
| QfPrep (p : RefundPlan) (resp : RefundResponse)
| QfTx (p : RefundPlan)
| RFinished (r : RefundResult + RefundError).

(** After the lock and after each deduction: what [ExecuteRefund] does next. *)
Definition after_lock (p : RefundPlan) : rpc :=
  if (p_DeductionType p ==? DeductionTypeBalance) && fltb f0 (p_BalanceToDeduct p) then ExAudit p
  else if (p_DeductionType p ==? DeductionTypeSubscription) && (0 <? p_SubDaysToDeduct p)
          && (0 <? p_SubscriptionID p) then ExSubAudit p
  else ExGateway p.

Definition after_balance (p : RefundPlan) : rpc :=
  if (p_DeductionType p ==? DeductionTypeSubscription) && (0 <? p_SubDaysToDeduct p)
     && (0 <? p_SubscriptionID p) then ExSubAudit p
  else ExGateway p.

(** [RollbackRefund]: which of its two parts there is to do. *)
Definition rolled_back (p : RefundPlan) (k : after_rollback) : rpc :=
  match k with
  | GatewayFailed => FailRestore p
  | GatewayPending id => MkPending (with_days 0 (with_balance f0 p)) id true
  end.
Definition not_rolled_back (p : RefundPlan) (k : after_rollback) : rpc :=
  match k with
  | GatewayFailed => FailMark p
  | GatewayPending id => MkPending p id false
  end.
Definition rollback_sub (p : RefundPlan) (k : after_rollback) : rpc :=
  if (p_DeductionType p ==? DeductionTypeSubscription) && (0 <? p_SubDaysToDeduct p)
     && (0 <? p_SubscriptionID p) then RbSub p k
  else rolled_back p k.
Definition rollback (p : RefundPlan) (k : after_rollback) : rpc :=
  if (p_DeductionType p ==? DeductionTypeBalance) && fltb f0 (p_BalanceToDeduct p) then RbBalance p k
  else rollback_sub p k.

(** [finishRefund] on an accepted response. *)
Definition finishRefund (p : RefundPlan) (resp : RefundResponse) : rpc :=
  let s := TrimSpace (rs_Status resp) in
  if (s ==? ProviderStatusSuccess) || (s ==? ProviderStatusRefunded) then MkOk p
  else if s ==? ProviderStatusPending then rollback p (GatewayPending (refundResponseID resp))
  else rollback p GatewayFailed.

(** [QueryAndFinalizeRefund] on an accepted response. *)
Definition finalize (v : renv) (p : RefundPlan) (resp : RefundResponse) (oid : Z) (d : rdb) : rpc * rdb :=
  let s := TrimSpace (rs_Status resp) in
  if (s ==? ProviderStatusSuccess) || (s ==? ProviderStatusRefunded) then (QfTx p, d)
  else if s ==? ProviderStatusPending
  then (RFinished (inl (warning "gateway refund is still pending confirmation" false)),
        audit v oid "REFUND_QUERY_PENDING" None d)
  else (QfFail oid, d).

(** ** One transition *)

(** The three parts of the finalisation's transaction. *)
Definition apply_final_deduction (v : renv) (p : RefundPlan) (d : rdb) : option RefundPlan * rdb :=
  let user := po_UserID (ro (p_Order p)) in
  match (if (p_DeductionType p ==? DeductionTypeBalance) && fltb f0 (p_BalanceToDeduct p)
         then match DeductAvailableBalance (p_OrderID p) user (p_BalanceToDeduct p) d with
              | (Some x, d') => (Some (with_balance x p), d')
              | (None, d') => (None, d')
              end
         else (Some p, d)) with
  | (None, d') => (None, d')
  | (Some p, d') =>
      if (p_DeductionType p ==? DeductionTypeSubscription) && (0 <? p_SubDaysToDeduct p)
         && (0 <? p_SubscriptionID p)
      then match extend_sub v (p_SubscriptionID p) (- p_SubDaysToDeduct p) d' with
           | (Ok _, d2) => (Some p, d2)
           | (Err e, d2) =>
               if e ==? Subscription.ErrAdjustWouldExpire
               then match revoke_sub v (p_SubscriptionID p) d2 with
                    | (true, d3) => (Some p, d3)
                    | (false, d3) => (None, d3)
                    end
               else (None, d2)
           end
      else (Some p, d')
  end.

Definition refund_result (p : RefundPlan) : RefundResult :=
  mkResult true "" false (p_BalanceToDeduct p) (p_SubDaysToDeduct p).

(** [finalizePendingRefundSuccess]: the body, [None] when it rolls back. *)
Definition finalize_body (v : renv) (p : RefundPlan) (d : rdb) : (RefundResult + RefundError) * option rdb :=
  match rd_orders d !! p_OrderID p with
  | None => (inr RConflict, None)
  | Some r =>
      if negb (po_Status (ro r) ==? OrderStatusRefundPending) then (inr RConflict, None)
      else
        let d1 := with_orders (<[p_OrderID p := put OrderStatusRefunding (r_at v) r]> (rd_orders d)) d in
        match apply_final_deduction v p d1 with
        | (None, _) => (inr RFinalize, None)
        | (Some p, d2) =>
            if has_audit (p_OrderID p) "REFUND_SUCCESS" d2 then (inr RFinalize, None)
            else
              let d3 := with_orders (<[p_OrderID p :=
                          put_refunded (final_status p) (r_now v) (r_at v) p
                            (put OrderStatusRefunding (r_at v) r)]> (rd_orders d2)) d2 in
              (inl (refund_result p),
               Some (with_audits (<[(p_OrderID p, "REFUND_SUCCESS") := None]> (rd_audits d3)) d3))
        end
  end.

Definition finalize_tx (v : renv) (p : RefundPlan) (d : rdb) : rpc * rdb :=
  match r_fault v with
  | LostBefore => (RFinished (inr RFinalize), d)
  | f =>
      match finalize_body v p d with
      | (r, None) => (RFinished r, d)
      | (r, Some d') => (RFinished (if f ==? Fine then r else inr RFinalize), d')
      end
  end.

Definition radvance (v : renv) (c : rpc) (d : rdb) : rpc * rdb :=
  match c with
  | RqGet oid uid reason =>
      match read v (rd_orders d !! oid) with
      | None => (RFinished (inr RNotFound), d)
      | Some r => match validateRefundRequest (r_instances v) (r_flags v) uid (ro r) with
                  | Some e => (RFinished (inr e), d)
                  | None => (RqUser r uid reason, d)
                  end
      end
  | RqUser r uid reason =>
      match read v (rd_wallets d !! po_UserID (ro r)) with
      | None => (RFinished (inr RGetUser), d)
      | Some w => if fltb (to_float (u_Balance w)) (po_Amount (ro r))
                  then (RFinished (inr RBalanceNotEnough), d)
                  else (RqUpdate r uid reason, d)
      end
  | RqUpdate r uid reason =>
      let oid := po_ID (ro r) in
      match update_rows v oid
              (fun r => (po_UserID (ro r) =? uid) && (po_Status (ro r) ==? OrderStatusCompleted)
                        && (po_OrderType (ro r) ==? OrderTypeBalance))
              (put_requested (r_now v) (r_at v) (po_Amount (ro r)) (TrimSpace reason) (FormatInt uid)) d with
      | (None, d') => (RFinished (inr RUpdate), d')
      | (Some n, d') =>
          if n =? 0 then (RFinished (inr RConflict), d')
          else (RFinished (inl (mkResult true "" false f0 0)), audit v oid "REFUND_REQUESTED" None d')
      end
  | PrGet oid amt reason force deduct =>
      match read v (rd_orders d !! oid) with
      | None => (RFinished (inr RNotFound), d)
      | Some r =>
          match prepare_plan (r_instances v) (r_flags v) amt reason force deduct oid r with
          | Err e => (RFinished (inr e), d)
          | Ok p => if deduct then (PrDeduct p, d) else (ExLock p, d)
          end
      end
  | PrDeduct p =>
      let o := ro (p_Order p) in
      match (if is_subscription_order o
             then match po_SubscriptionGroupID o, po_SubscriptionDays o with
                  | Some g, Some _ => prep_subscription (p_Force p) p (active_sub v (po_UserID o) g d)
                  | _, _ => inl (with_deduction DeductionTypeSubscription (p_BalanceToDeduct p)
                                   (p_SubDaysToDeduct p) (p_SubscriptionID p) p)
                  end
             else prep_balance (p_Force p) p
                    ((fun w => to_float (u_Balance w)) <$> read v (rd_wallets d !! po_UserID o))) with
      | inl p => (ExLock p, d)
      | inr r => (RFinished (inl r), d)
      end
  | ExLock p =>
      match update_rows v (p_OrderID p) (fun r => refundable (po_Status (ro r)))
              (put OrderStatusRefunding (r_at v)) d with
      | (None, d') => (RFinished (inr RLock), d')
      | (Some n, d') => if n =? 0 then (RFinished (inr RConflict), d') else (after_lock p, d')
      end
  | ExAudit p =>
      (** a failed count reads as no audit *)
      if match r_fault v with Fine => has_audit (p_OrderID p) ROLLBACK_FAILED d | _ => false end
      then (after_balance (with_balance f0 p), d) else (ExDeduct p, d)
  | ExDeduct p =>
      match faulty v (DeductAvailableBalance (p_OrderID p) (po_UserID (ro (p_Order p))) (p_BalanceToDeduct p)) d with
      | (None, d') => (ExRestore p RDeduction, d')
      | (Some x, d') => (after_balance (with_balance x p), d')
      end
  | ExSubAudit p =>
      if match r_fault v with Fine => has_audit (p_OrderID p) ROLLBACK_FAILED d | _ => false end
      then (ExGateway (with_days 0 p), d) else (ExExtend p, d)
  | ExExtend p =>
      match extend_sub v (p_SubscriptionID p) (- p_SubDaysToDeduct p) d with
      | (Ok _, d') => (ExGateway p, d')
      | (Err e, d') => if e ==? Subscription.ErrAdjustWouldExpire then (ExRevoke p, d')
                       else (ExRestore p RDeduction, d')
      end
  | ExRevoke p =>
      match revoke_sub v (p_SubscriptionID p) d with
      | (true, d') => (ExGateway p, d')
      | (false, d') => (ExRestore p RRevoke, d')
      end
  | ExRestore p e =>
      (RFinished (inr e), (update_one v (p_OrderID p) (put (restored_status p) (r_at v)) d).2)
  | ExGateway p =>
      let o := ro (p_Order p) in
      if po_PaymentTradeNo o ==? ""
      then (finishRefund p (mkResponse ProviderStatusSuccess ""), audit v (po_ID o) "REFUND_NO_TRADE_NO" None d)
      else match getRefundProvider v o with
      | None => (rollback p GatewayFailed, d)
      | Some (pk, metadata) =>
          match validateProviderSnapshotMetadata o pk metadata with
          | Some _ => (rollback p GatewayFailed, audit v (po_ID o) "REFUND_PROVIDER_METADATA_MISMATCH" None d)
          | None =>
              let d' := with_gateway (p_OrderID p, p_GatewayAmount p) d in
              match gateway_reply (r_failed v) (r_reply v) with
              | None => (rollback p GatewayFailed, d')
              | Some resp => (finishRefund p resp, d')
              end
          end
      end
  | RbBalance p k =>
      match faulty v (UpdateBalance (p_OrderID p) (po_UserID (ro (p_Order p))) (p_BalanceToDeduct p)) d with
      | (Some _, d') => (rollback_sub p k, d')
      | (None, d') => (not_rolled_back p k, audit v (p_OrderID p) ROLLBACK_FAILED None d')
      end
  | RbSub p k =>
      match extend_sub v (p_SubscriptionID p) (p_SubDaysToDeduct p) d with
      | (Ok _, d') => (rolled_back p k, d')
      | (Err _, d') => (not_rolled_back p k, audit v (p_OrderID p) ROLLBACK_FAILED None d')
      end
  | FailRestore p =>
      let '(_, d') := update_one v (p_OrderID p) (put (restored_status p) (r_at v)) d in
      (RFinished (inl (warning ("gateway failed: " +:+ r_text v +:+ ", rolled back") false)),
       audit v (p_OrderID p) "REFUND_GATEWAY_FAILED" None d')
  | FailMark p =>
      let '(_, d') := update_one v (p_OrderID p) (put_failed (r_now v) (r_at v) (r_text v)) d in
      (RFinished (inr RRefundFailed), audit v (p_OrderID p) "REFUND_FAILED" None d')
  | MkOk p =>
      match update_one v (p_OrderID p) (put_refunded (final_status p) (r_now v) (r_at v) p) d with
      | (false, d') => (RFinished (inr RMarkRefund), d')
      | (true, d') => (RFinished (inl (refund_result p)), audit v (p_OrderID p) "REFUND_SUCCESS" None d')
      end
  | MkPending p id rollbackOK =>
      match update_one v (p_OrderID p) (put_pending (r_at v) p) d with
      | (false, d') => (RFinished (inr RMarkPending), d')
      | (true, d') =>
          (RFinished (inl (warning ("gateway refund is pending confirmation" +:+
             (if rollbackOK then "" else "; refund deduction rollback failed")) false)),
           audit v (p_OrderID p) PENDING (Some (mkPendingDetail id rollbackOK)) d')
      end
  | QfGet oid =>
      match read v (rd_orders d !! oid) with
      | None => (RFinished (inr RNotFound), d)
      | Some r =>
          if po_Status (ro r) !=? OrderStatusRefundPending then (RFinished (inr RInvalidStatus), d)
          else match getRefundProvider v (ro r) with
               | None => (RFinished (inr RGetProvider), d)
               | Some _ => if r_queries v then (QfDetail r, d) else (RFinished (inr RQueryUnsupported), d)
               end
      end
  | QfDetail r =>
      let detail := match read v (rd_audits d !! (po_ID (ro r), PENDING)) with
                    | Some (Some x) => mkPendingDetail (TrimSpace (pd_RefundID x)) (pd_DeductionRollbackOK x)
                    | _ => mkPendingDetail "" true
                    end in
      (QfQuery r detail, d)
  | QfQuery r detail =>
      if r_failed v then (RFinished (inr RQuery), d)
      else if negb (validateRefundProviderResponse (r_reply v)) then (QfFail (po_ID (ro r)), d)
      else match r_reply v with
      | None => (QfFail (po_ID (ro r)), d)
      | Some resp =>
          let plan := refundFinalizePlan r in
          if negb (pd_DeductionRollbackOK detail)
          then finalize v (with_days 0 (with_balance f0 plan)) resp (po_ID (ro r)) d
          else if is_subscription_order (ro r) then (QfPrep plan resp, d)
          else finalize v plan resp (po_ID (ro r)) d
      end
  | QfPrep p resp =>
      let o := ro (p_Order p) in
      match (match po_SubscriptionGroupID o, po_SubscriptionDays o with
             | Some g, Some _ => prep_subscription true p (active_sub v (po_UserID o) g d)
             | _, _ => inl (with_deduction DeductionTypeSubscription (p_BalanceToDeduct p)
                              (p_SubDaysToDeduct p) (p_SubscriptionID p) p)
             end) with
      | inl p => finalize v p resp (p_OrderID p) d
      | inr r => (RFinished (inl r), d)
      end
  | QfFail oid =>
      let '(_, d') := update_one v oid (put_failed (r_now v) (r_at v) (r_text v)) d in
      (RFinished (inl (warning ("gateway refund failed: " +:+ r_text v) false)),
       audit v oid "REFUND_FAILED" None d')
  | QfTx p => finalize_tx v p d
  | RFinished _ => (c, d)
  end.

Fixpoint rrun (fuel : nat) (vs : nat -> renv) (c : rpc) (d : rdb) : rpc * rdb :=
  match fuel with
  | O => (c, d)
  | S n => let '(c', d') := radvance (vs 0%nat) c d in rrun n (fun k => vs (S k)) c' d'
  end.

(** ** Every call ends *)

Definition rrank (c : rpc) : nat :=
  match c with
  | RqGet _ _ _ => 3 | RqUser _ _ _ => 2 | RqUpdate _ _ _ => 1
  | PrGet _ _ _ _ _ => 13 | PrDeduct _ => 12 | ExLock _ => 11 | ExAudit _ => 10 | ExDeduct _ => 9
  | ExSubAudit _ => 8 | ExExtend _ => 7 | ExRevoke _ => 6 | ExGateway _ => 5
  | RbBalance _ _ => 3 | RbSub _ _ => 2
  | ExRestore _ _ | FailRestore _ | FailMark _ | MkOk _ | MkPending _ _ _ => 1
  | QfGet _ => 5 | QfDetail _ => 4 | QfQuery _ _ => 3 | QfPrep _ _ => 2 | QfTx _ | QfFail _ => 1
  | RFinished _ => 0
  end.

Lemma rollback_rank p k : (rrank (rollback p k) <= 3)%nat.
Proof.
  unfold rollback, rollback_sub, rolled_back. destruct (_ && _); [cbn; lia|].
  destruct (_ && _); [cbn; lia|]. destruct k; cbn; lia.
Qed.
Lemma rollback_sub_rank p k : (rrank (rollback_sub p k) <= 2)%nat.
Proof. unfold rollback_sub, rolled_back. destruct (_ && _); [cbn; lia|]. destruct k; cbn; lia. Qed.
Lemma not_rolled_back_rank p k : (rrank (not_rolled_back p k) <= 1)%nat.
Proof. destruct k; cbn; lia. Qed.
Lemma rolled_back_rank p k : (rrank (rolled_back p k) <= 1)%nat.
Proof. destruct k; cbn; lia. Qed.
Lemma finishRefund_rank p r : (rrank (finishRefund p r) <= 3)%nat.
Proof.
  unfold finishRefund. destruct (_ || _); [cbn; lia|].
  destruct (_ ==? _); apply rollback_rank.
Qed.
Lemma after_balance_rank p : (rrank (after_balance p) <= 8)%nat.
Proof. unfold after_balance. destruct (_ && _); cbn; lia. Qed.
Lemma after_lock_rank p : (rrank (after_lock p) <= 10)%nat.
Proof. unfold after_lock. destruct (_ && _); [cbn; lia|]. destruct (_ && _); cbn; lia. Qed.
Lemma finalize_rank v p r oid d : (rrank (finalize v p r oid d).1 <= 1)%nat.
Proof. unfold finalize. destruct (_ || _); [cbn; lia|]. destruct (_ ==? _); cbn; lia. Qed.
Lemma finalize_tx_rank v p d : rrank (finalize_tx v p d).1 = 0%nat.
Proof. unfold finalize_tx. destruct (r_fault v); try done; destruct (finalize_body v p d) as [r [d'|]]; done. Qed.

Create HintDb refund discriminated.
#[local] Hint Resolve rollback_rank rollback_sub_rank not_rolled_back_rank rolled_back_rank finishRefund_rank
  after_balance_rank after_lock_rank finalize_rank finalize_tx_rank : refund.

Lemma radvance_rank v c d : (rrank (radvance v c d).1 <= pred (rrank c))%nat.
Proof.
  destruct c; cbn [radvance rrank pred];
  repeat match goal with
  | |- context [match ?x with _ => _ end] =>
      lazymatch x with
      | context [match _ with _ => _ end] => fail
      | _ => lazymatch type of x with
             | (_ * _)%type => destruct x
             | _ => destruct x
             end
      end
  end; cbn [fst rrank]; try lia;
  try match goal with
  | |- (rrank (rollback ?p ?k) <= _)%nat => pose proof (rollback_rank p k); lia
  | |- (rrank (rollback_sub ?p ?k) <= _)%nat => pose proof (rollback_sub_rank p k); lia
  | |- (rrank (not_rolled_back ?p ?k) <= _)%nat => pose proof (not_rolled_back_rank p k); lia
  | |- (rrank (rolled_back ?p ?k) <= _)%nat => pose proof (rolled_back_rank p k); lia
  | |- (rrank (finishRefund ?p ?k) <= _)%nat => pose proof (finishRefund_rank p k); lia
  | |- (rrank (after_balance ?p) <= _)%nat => pose proof (after_balance_rank p); lia
  | |- (rrank (after_lock ?p) <= _)%nat => pose proof (after_lock_rank p); lia
  | |- (rrank (finalize ?v ?p ?r ?o ?d).1 <= _)%nat => pose proof (finalize_rank v p r o d); lia
  | |- (rrank (finalize_tx ?v ?p ?d).1 <= _)%nat => pose proof (finalize_tx_rank v p d); lia
  end.
Qed.

Lemma rrun_finishes n vs c d : (rrank c <= n)%nat -> exists r, (rrun n vs c d).1 = RFinished r.
Proof.
  revert vs c d. induction n as [|n IH]; intros vs c d H; cbn [rrun].
  - destruct c; cbn in H; try lia. by eexists.
  - pose proof (radvance_rank (vs 0%nat) c d). destruct (radvance (vs 0%nat) c d) as [c' d'].
    apply IH. cbn [fst] in *. lia.
Qed.

(** Every refund call returns: a request, a refund and the settlement of a
    pending one all reach their result, whatever the database holds, the
    provider answers and the statements do, within 3, 13 and 5 transitions. *)
Theorem refund_terminates vs d :
  (forall oid uid reason, exists r, (rrun 3 vs (RqGet oid uid reason) d).1 = RFinished r) /\
  (forall oid amt reason force deduct, exists r, (rrun 13 vs (PrGet oid amt reason force deduct) d).1 = RFinished r) /\
  (forall oid, exists r, (rrun 5 vs (QfGet oid) d).1 = RFinished r).
Proof. split_and!; intros; apply rrun_finishes; cbn; lia. Qed.

(** ** One refund, alone and with a working database *)

Inductive ends : (nat -> renv) -> rpc -> rdb -> RefundResult + RefundError -> rdb -> Prop :=
| ends_done vs r d : ends vs (RFinished r) d r d
| ends_step vs c d c' d' r d2 :
    radvance (vs 0%nat) c d = (c', d') -> ends (fun k => vs (S k)) c' d' r d2 -> ends vs c d r d2.

Lemma rrun_done n vs r d : rrun n vs (RFinished r) d = (RFinished r, d).
Proof. revert vs. induction n; intros; cbn [rrun radvance]; auto. Qed.

Lemma ends_rrun vs c d r d' n : ends vs c d r d' -> (rrank c <= n)%nat -> rrun n vs c d = (RFinished r, d').
Proof.
  intros H. revert n. induction H as [vs r d|vs c d c' d' r d2 E H IH]; intros n Hn; [apply rrun_done|].
  pose proof (radvance_rank (vs 0%nat) c d) as Hr. rewrite E in Hr. cbn [fst] in Hr.
  destruct n as [|n].
  - destruct c; cbn [rrank] in Hn; try lia. cbn in E. injection E as <- <-. apply (IH 0%nat). lia.
  - cbn [rrun]. rewrite E. apply IH. lia.
Qed.

Definition status_of (oid : Z) (d : rdb) : option string := (fun r => po_Status (ro r)) <$> rd_orders d !! oid.
Definition balance_of (user : Z) (d : rdb) : option Z := u_Balance <$> rd_wallets d !! user.

Lemma update_rows_fine v id cond f d r :
  r_fault v = Fine -> rd_orders d !! id = Some r -> cond r = true ->
  update_rows v id cond f d = (Some 1, with_orders (<[id := f r]> (rd_orders d)) d).
Proof. intros Hf Hr Hc. unfold update_rows. by rewrite Hr, Hc, Hf. Qed.

Lemma update_one_fine v id f d r :
  r_fault v = Fine -> rd_orders d !! id = Some r ->
  update_one v id f d = (true, with_orders (<[id := f r]> (rd_orders d)) d).
Proof. intros Hf Hr. unfold update_one. by rewrite (update_rows_fine v id _ f d r). Qed.

Lemma audit_keeps_orders v oid a x d : rd_orders (audit v oid a x d) = rd_orders d.
Proof. unfold audit. by destruct (_ && _). Qed.
Lemma audit_keeps_wallets v oid a x d : rd_wallets (audit v oid a x d) = rd_wallets d.
Proof. unfold audit. by destruct (_ && _). Qed.
Lemma audit_keeps_gateway v oid a x d : rd_gateway (audit v oid a x d) = rd_gateway d.
Proof. unfold audit. by destruct (_ && _). Qed.
Lemma audit_keeps_ledger v oid a x d : rd_ledger (audit v oid a x d) = rd_ledger d.
Proof. unfold audit. by destruct (_ && _). Qed.

(** The money taken can be given back to the unit: the conversions between
    [float64] and the column are exact on it. *)
Definition exact_units (z : Z) : Prop := to_column (to_float z) = z /\ fltb f0 (to_float z) = (0 <? z).

Definition fine (vs : nat -> renv) : Prop := forall n, r_fault (vs n) = Fine.

Lemma fine_shift vs : fine vs -> fine (fun k => vs (S k)).
Proof. intros H n. apply H. Qed.
#[local] Hint Resolve fine_shift : refund.

(** The end of a call whose order is being refunded, once the money is back. *)
Lemma end_rolled_back vs p k d r :
  fine vs -> rd_orders d !! p_OrderID p = Some r ->
  exists res d', ends vs (rolled_back p k) d res d' /\ rd_gateway d' = rd_gateway d /\
    rd_wallets d' = rd_wallets d /\
    status_of (p_OrderID p) d' =
      Some (match k with GatewayFailed => restored_status p | GatewayPending _ => OrderStatusRefundPending end).
Proof.
  intros Hf Hr. destruct k; cbn [rolled_back].
  - eexists _, _. split; [eapply ends_step; [|apply ends_done]; cbn [radvance];
      rewrite (update_one_fine _ _ _ _ r) by done; reflexivity|].
    rewrite audit_keeps_gateway, audit_keeps_wallets. unfold status_of. rewrite audit_keeps_orders. cbn [rd_orders with_orders].
    by rewrite lookup_insert_eq.
  - eexists _, _. split; [eapply ends_step; [|apply ends_done]; cbn [radvance];
      rewrite (update_one_fine _ _ _ _ r) by done; reflexivity|].
    rewrite audit_keeps_gateway, audit_keeps_wallets. unfold status_of. rewrite audit_keeps_orders. cbn [rd_orders with_orders].
    cbn [with_days with_balance p_OrderID]. by rewrite lookup_insert_eq.
Qed.

(** The rollback of a balance deduction gives back what was taken. *)
Lemma end_rollback vs p k d r w taken :
  fine vs -> exact_units taken -> 0 <= taken ->
  p_DeductionType p = DeductionTypeBalance -> p_BalanceToDeduct p = to_float taken ->
  rd_orders d !! p_OrderID p = Some r -> rd_wallets d !! po_UserID (ro (p_Order p)) = Some w ->
  exists res d', ends vs (rollback p k) d res d' /\ rd_gateway d' = rd_gateway d /\
    balance_of (po_UserID (ro (p_Order p))) d' = Some (u_Balance w + taken) /\
    status_of (p_OrderID p) d' =
      Some (match k with GatewayFailed => restored_status p | GatewayPending _ => OrderStatusRefundPending end).
Proof.
  intros Hf [E1 E2] Hpos Ht Hb Hr Hw. unfold rollback. rewrite bool_decide_true by done. rewrite Hb, E2.
  cbn [andb].
  assert (rollback_sub p k = rolled_back p k) as Hsub
    by (unfold rollback_sub; rewrite Ht; by rewrite bool_decide_false).
  destruct (Z.ltb_spec 0 taken) as [Hlt|Hge].
  - set (d1 := with_wallets (<[po_UserID (ro (p_Order p)) := mkWallet (u_Balance w + taken)
        (u_TotalRecharged w + taken)]> (rd_wallets d)) (RolledBack (p_OrderID p) (po_UserID (ro (p_Order p))) taken) d).
    destruct (end_rolled_back (fun k => vs (S k)) p k d1 r) as (res & d' & He & Hg & Hwl & Hst);
      [auto with refund|done|].
    exists res, d'. split_and!; [|exact Hg| |exact Hst].
    + eapply ends_step; [|exact He]. cbn [radvance]. unfold faulty, UpdateBalance.
      rewrite Hf, Hw, Hb, E1, E2. destruct (Z.ltb_spec 0 taken); [|lia]. by rewrite Hsub.
    + unfold balance_of. rewrite Hwl. cbn [rd_wallets with_wallets d1]. by rewrite lookup_insert_eq.
  - rewrite Hsub. destruct (end_rolled_back vs p k d r) as (res & d' & He & Hg & Hwl & Hst); [done..|].
    exists res, d'. split_and!; [exact He|exact Hg| |exact Hst].
    unfold balance_of. rewrite Hwl, Hw. cbn. f_equal. lia.
Qed.

(** Only a reply with one of the three accepted statuses goes through. *)
Lemma gateway_reply_accepted failed reply resp :
  gateway_reply failed reply = Some resp ->
  (TrimSpace (rs_Status resp) ==? ProviderStatusSuccess)
  || (TrimSpace (rs_Status resp) ==? ProviderStatusRefunded)
  || (TrimSpace (rs_Status resp) ==? ProviderStatusPending) = true.
Proof.
  unfold gateway_reply. destruct failed.
  - destruct reply as [x|]; [|discriminate].
    destruct (TrimSpace (rs_Status x) ==? ProviderStatusPending) eqn:E; [|discriminate].
    intros [= <-]. rewrite E. apply orb_true_r.
  - destruct (validateRefundProviderResponse reply) eqn:E; [|discriminate].
    intros ->. exact E.
Qed.

(** How a refund ends, by the gateway's reply: the order's status and the
    user's balance, when [taken] was deducted from [before]. *)
Definition refund_outcome (p : RefundPlan) (reply : option RefundResponse) (before taken : Z) : string * Z :=
  match reply with
  | None => (restored_status p, before)
  | Some resp =>
      if (TrimSpace (rs_Status resp) ==? ProviderStatusSuccess)
         || (TrimSpace (rs_Status resp) ==? ProviderStatusRefunded)
      then (final_status p, before - taken)
      else (OrderStatusRefundPending, before)
  end.

(** From the gateway call to the end, with [taken] deducted. *)
Lemma end_gateway vs p d r w taken pk metadata :
  let oid := p_OrderID p in let user := po_UserID (ro (p_Order p)) in
  let v := vs 0%nat in let reply := gateway_reply (r_failed v) (r_reply v) in
  fine vs -> exact_units taken -> 0 <= taken ->
  p_DeductionType p = DeductionTypeBalance -> p_BalanceToDeduct p = to_float taken ->
  po_PaymentTradeNo (ro (p_Order p)) <> "" -> getRefundProvider v (ro (p_Order p)) = Some (pk, metadata) ->
  validateProviderSnapshotMetadata (ro (p_Order p)) pk metadata = None ->
  rd_orders d !! oid = Some r -> rd_wallets d !! user = Some w ->
  exists res d', ends vs (ExGateway p) d res d' /\ rd_gateway d' = (oid, p_GatewayAmount p) :: rd_gateway d /\
    status_of oid d' = Some (refund_outcome p reply (u_Balance w + taken) taken).1 /\
    balance_of user d' = Some (refund_outcome p reply (u_Balance w + taken) taken).2.
Proof.
  intros oid user v reply Hf Hex Hpos Ht Hb Htn Hprov Hval Hr Hw. set (d3 := with_gateway (oid, p_GatewayAmount p) d).
  assert (exists c, radvance v (ExGateway p) d = (c, d3) /\
    c = match reply with None => rollback p GatewayFailed | Some resp => finishRefund p resp end) as (c & Hc & ->).
  { eexists. split; [|reflexivity]. cbn [radvance]. rewrite (bool_decide_false _ Htn), Hprov, Hval. cbv zeta.
    fold oid d3 reply. by destruct reply. }
  assert (forall k, exists res d', ends (fun k => vs (S k)) (rollback p k) d3 res d' /\ rd_gateway d' = rd_gateway d3 /\
    balance_of user d' = Some (u_Balance w + taken) /\
    status_of oid d' = Some (match k with GatewayFailed => restored_status p | GatewayPending _ => OrderStatusRefundPending end))
    as Hrb by (intros k; by apply (end_rollback _ p k d3 r w taken (fine_shift _ Hf))).
  unfold refund_outcome. destruct reply as [resp|] eqn:Eg.
  - apply gateway_reply_accepted in Eg. unfold finishRefund in Hc. destruct ((TrimSpace (rs_Status resp) ==? ProviderStatusSuccess)
      || (TrimSpace (rs_Status resp) ==? ProviderStatusRefunded)) eqn:Es.
    + eexists _, _. split.
      { eapply ends_step; [exact Hc|]. eapply ends_step; [|apply ends_done]. cbn [radvance].
        rewrite (update_one_fine _ _ _ d3 r (Hf 1%nat) Hr). reflexivity. }
      rewrite audit_keeps_gateway. split; [reflexivity|]. unfold status_of, balance_of.
      rewrite audit_keeps_orders, audit_keeps_wallets. cbn [rd_orders rd_wallets with_orders fst snd]. fold oid.
      rewrite lookup_insert_eq. split; [reflexivity|]. change (rd_wallets d3) with (rd_wallets d).
      rewrite Hw. cbn. f_equal. lia.
    + cbn [orb] in Eg. rewrite Eg in Hc. destruct (Hrb (GatewayPending (refundResponseID resp))) as (res & d' & He & ? & ? & ?).
      exists res, d'. split_and!; [by eapply ends_step|done..].
  - destruct (Hrb GatewayFailed) as (res & d' & He & ? & ? & ?). exists res, d'. split_and!; [by eapply ends_step|done..].
Qed.

(** C34: a refund that deducts a balance, when the database works, for an
    order with a trade number and a provider that can be built and whose
    metadata agrees with the order's, of which no earlier rollback failed (no
    ROLLBACK_FAILED audit), and a deduction that a float carries exactly.  The
    gateway is asked once, for the planned amount.  If it confirms, the order
    becomes REFUNDED (or PARTIALLY_REFUNDED below the order's amount) and the
    user has paid min(planned, what was available).  If it leaves the refund
    pending, or fails, the user's balance is what it was before, to the unit;
    the order is REFUND_PENDING in the first case and, in the second,
    REFUND_REQUESTED if that was its status when the refund was prepared and
    COMPLETED otherwise, also when it had been REFUND_FAILED or
    REFUND_PENDING. *)
Theorem execute_refund_outcome vs p d r w pk metadata :
  fine vs ->
  rd_orders d !! p_OrderID p = Some r -> p_Order p = r -> refundable (po_Status (ro r)) = true ->
  p_DeductionType p = DeductionTypeBalance -> fltb f0 (p_BalanceToDeduct p) = true ->
  rd_wallets d !! po_UserID (ro r) = Some w -> has_audit (p_OrderID p) ROLLBACK_FAILED d = false ->
  po_PaymentTradeNo (ro r) <> "" ->
  getRefundProvider (vs 3%nat) (ro r) = Some (pk, metadata) ->
  validateProviderSnapshotMetadata (ro r) pk metadata = None ->
  0 <= to_column (p_BalanceToDeduct p) -> fltb (p_BalanceToDeduct p) f0 = false ->
  let taken := Z.min (to_column (p_BalanceToDeduct p)) (Z.max (u_Balance w) 0) in
  let outcome := refund_outcome p (gateway_reply (r_failed (vs 3%nat)) (r_reply (vs 3%nat))) (u_Balance w) taken in
  exact_units taken ->
  exists res d', rrun 11 vs (ExLock p) d = (RFinished res, d') /\
    rd_gateway d' = (p_OrderID p, p_GatewayAmount p) :: rd_gateway d /\
    status_of (p_OrderID p) d' = Some outcome.1 /\ balance_of (po_UserID (ro r)) d' = Some outcome.2.
Proof.
  intros Hf Hr Hpr Href Ht Hb Hw Ha Htn Hprov Hval Hcol Hneg taken outcome Hex.
  set (row := put OrderStatusRefunding (r_at (vs 0%nat)) r).
  set (d1 := with_orders (<[p_OrderID p := row]> (rd_orders d)) d).
  set (w2 := mkWallet (u_Balance w - taken) (u_TotalRecharged w)).
  set (d2 := with_wallets (<[po_UserID (ro r) := w2]> (rd_wallets d1)) (Deducted (p_OrderID p) (po_UserID (ro r)) taken) d1).
  set (p1 := with_balance (to_float taken) p).
  destruct (end_gateway (fun k => vs (S (S (S k)))) p1 d2 row w2 taken pk metadata) as (res & d' & He & Hg & Hs & Hbal);
    change (p_OrderID p1) with (p_OrderID p) in *; change (p_Order p1) with (p_Order p) in *;
    rewrite ?Hpr in *; try assumption; try reflexivity; [by intros n; apply Hf|unfold taken; lia|apply lookup_insert_eq..|].
  exists res, d'. assert (u_Balance w2 + taken = u_Balance w) as Hback by (cbn [w2 u_Balance]; lia). rewrite Hback in Hs, Hbal.
  split; [|split; [exact Hg|split; [exact Hs|exact Hbal]]]. apply ends_rrun; [|cbn; lia].
  eapply ends_step; [cbn [radvance]; rewrite (update_rows_fine _ _ _ _ _ r) by done; reflexivity|].
  cbn [Z.eqb]. fold row d1. unfold after_lock. rewrite (bool_decide_true _ Ht), Hb. cbn [andb].
  eapply ends_step.
  { cbn [radvance]. rewrite Hf. change (has_audit (p_OrderID p) ROLLBACK_FAILED d1) with
      (has_audit (p_OrderID p) ROLLBACK_FAILED d). rewrite Ha. reflexivity. }
  eapply ends_step; [|exact He].
  cbn [radvance]. unfold faulty, DeductAvailableBalance. rewrite Hf, Hneg, Hpr.
  change (rd_wallets d1) with (rd_wallets d). rewrite Hw. cbv zeta. fold taken w2 p1.
  assert (after_balance p1 = ExGateway p1) as ->; [|reflexivity].
  unfold after_balance, p1. cbn [with_balance p_DeductionType]. by rewrite Ht, bool_decide_false.
Qed.

(** ** The settlement of a pending refund *)

Definition pending_detail (oid : Z) (d : rdb) : refundPendingAuditDetail :=
  match rd_audits d !! (oid, PENDING) with
  | Some (Some x) => mkPendingDetail (TrimSpace (pd_RefundID x)) (pd_DeductionRollbackOK x)
  | _ => mkPendingDetail "" true
  end.

(** What the settlement takes from the balance, in column units. *)
Definition settled_units (oid : Z) (r : refund_order) (w : wallet) (d : rdb) : Z :=
  if pd_DeductionRollbackOK (pending_detail oid d) && fltb f0 (ro_RefundAmount r)
  then Z.min (to_column (ro_RefundAmount r)) (Z.max (u_Balance w) 0) else 0.

Lemma finalize_tx_balance v d r w p :
  let oid := p_OrderID p in
  r_fault v = Fine -> rd_orders d !! oid = Some r -> po_Status (ro r) = OrderStatusRefundPending ->
  rd_wallets d !! po_UserID (ro (p_Order p)) = Some w -> p_DeductionType p = DeductionTypeBalance ->
  fltb (p_BalanceToDeduct p) f0 = false -> has_audit oid "REFUND_SUCCESS" d = false ->
  exists res d', finalize_tx v p d = (RFinished (inl res), d') /\ rd_gateway d' = rd_gateway d /\
    status_of oid d' = Some (final_status p) /\
    balance_of (po_UserID (ro (p_Order p))) d' = Some (u_Balance w -
      (if fltb f0 (p_BalanceToDeduct p) then Z.min (to_column (p_BalanceToDeduct p)) (Z.max (u_Balance w) 0) else 0)).
Proof.
  intros oid Hf Hr Hs Hw Ht Hneg Ha. unfold finalize_tx, finalize_body. rewrite Hf. fold oid. rewrite Hr, Hs. cbv zeta.
  rewrite bool_decide_true by reflexivity. cbn [negb]. unfold apply_final_deduction.
  rewrite (bool_decide_true (p_DeductionType p = DeductionTypeBalance)) by exact Ht. cbn [andb].
  assert ((p_DeductionType p ==? DeductionTypeSubscription) = false) as Hsub
    by (rewrite Ht; by apply bool_decide_false).
  destruct (fltb f0 (p_BalanceToDeduct p)).
  - unfold DeductAvailableBalance. rewrite Hneg. cbn [rd_wallets with_orders]. rewrite Hw. cbv zeta.
    set (x := to_float _). change (p_DeductionType (with_balance x p)) with (p_DeductionType p).
    rewrite Hsub. cbn [andb].
    match goal with |- context [has_audit ?o ?s ?d'] => assert (has_audit o s d' = false) as -> by exact Ha end. eexists _, _. split; [reflexivity|].
    unfold status_of, balance_of. cbn [rd_gateway rd_orders rd_wallets with_audits with_orders with_wallets].
    change (p_OrderID (with_balance x p)) with (p_OrderID p). subst oid.
    rewrite !lookup_insert_eq. split_and!; reflexivity.
  - rewrite Hsub. cbn [andb]. fold oid.
    match goal with |- context [has_audit ?o ?s ?d'] => assert (has_audit o s d' = false) as -> by exact Ha end. eexists _, _. split; [reflexivity|].
    unfold status_of, balance_of. cbn [rd_gateway rd_orders rd_wallets with_audits with_orders].
    rewrite !lookup_insert_eq, Hw. split_and!; [reflexivity..|]. cbn. f_equal. lia.
Qed.

(** The plan of the settlement, as the recorded detail leaves it. *)
Definition settle_plan (oid : Z) (r : refund_order) (d : rdb) : RefundPlan :=
  let plan := refundFinalizePlan r in
  if negb (pd_DeductionRollbackOK (pending_detail oid d)) then with_days 0 (with_balance f0 plan) else plan.

Lemma settle_plan_fields oid d r :
  po_ID (ro r) = oid -> po_OrderType (ro r) = OrderTypeBalance ->
  let p := settle_plan oid r d in
  p_OrderID p = oid /\ p_Order p = r /\ p_DeductionType p = DeductionTypeBalance /\
  final_status p = final_status (refundFinalizePlan r) /\
  p_BalanceToDeduct p = (if pd_DeductionRollbackOK (pending_detail oid d) then ro_RefundAmount r else f0).
Proof.
  intros Hid Ht p. assert ((po_OrderType (ro r) ==? OrderTypeBalance) = true) as Hty by (by apply bool_decide_true).
  unfold p, settle_plan. destruct (pd_DeductionRollbackOK _); cbn [negb];
    cbn [with_days with_balance p_OrderID p_Order p_DeductionType p_BalanceToDeduct refundFinalizePlan];
    rewrite ?Hty; (split_and!; [exact Hid|reflexivity..]).
Qed.

(** From the start of the settlement to the decision on the provider's answer. *)
Lemma settle_query vs oid d r pk metadata c1 d1 res d' :
  fine vs -> rd_orders d !! oid = Some r -> po_ID (ro r) = oid ->
  po_Status (ro r) = OrderStatusRefundPending -> po_OrderType (ro r) = OrderTypeBalance ->
  getRefundProvider (vs 0%nat) (ro r) = Some (pk, metadata) -> r_queries (vs 0%nat) = true ->
  r_failed (vs 2%nat) = false ->
  match gateway_reply false (r_reply (vs 2%nat)) with
  | None => (QfFail oid, d)
  | Some resp => finalize (vs 2%nat) (settle_plan oid r d) resp oid d
  end = (c1, d1) ->
  ends (fun k => vs (S (S (S k)))) c1 d1 res d' -> rrun 5 vs (QfGet oid) d = (RFinished res, d').
Proof.
  intros Hf Hr Hid Hs Ht Hprov Hq Hfail E He. apply ends_rrun; [|cbn; lia].
  assert (is_subscription_order (ro r) = false) as Hnsub
    by (unfold is_subscription_order; rewrite Ht; by apply bool_decide_false).
  eapply (ends_step vs _ d (QfDetail r) d).
  { cbn [radvance]. unfold read. rewrite Hf, Hr, Hs, Hprov, Hq. by rewrite bool_decide_true by reflexivity. }
  eapply (ends_step _ _ d (QfQuery r (pending_detail oid d)) d).
  { cbn [radvance]. unfold read. rewrite Hf, Hid. reflexivity. }
  eapply ends_step; [|exact He]. rewrite <- E. cbn [radvance]. rewrite Hfail, Hid. unfold gateway_reply, settle_plan.
  destruct (validateRefundProviderResponse (r_reply (vs 2%nat))); cbn [negb]; [|reflexivity].
  destruct (r_reply (vs 2%nat)) as [resp|]; [|reflexivity]. cbv zeta. rewrite Hnsub. by destruct (negb _).
Qed.

(** The settlement of the pending refund of a balance order, when the
    database works and the provider answers the query.  Confirmed: the order
    is REFUNDED (or PARTIALLY_REFUNDED) and the refund amount is deducted as
    far as the balance goes, unless the record says that the earlier deduction
    was never given back.  Still pending: nothing changes.  Anything else: the
    order is REFUND_FAILED and the balance untouched.  The gateway is not asked
    for money again. *)
Theorem settle_refund_outcome vs oid d r w pk metadata :
  fine vs -> rd_orders d !! oid = Some r -> po_ID (ro r) = oid ->
  po_Status (ro r) = OrderStatusRefundPending -> po_OrderType (ro r) = OrderTypeBalance ->
  rd_wallets d !! po_UserID (ro r) = Some w ->
  getRefundProvider (vs 0%nat) (ro r) = Some (pk, metadata) -> r_queries (vs 0%nat) = true ->
  r_failed (vs 2%nat) = false -> fltb (ro_RefundAmount r) f0 = false ->
  has_audit oid "REFUND_SUCCESS" d = false ->
  exists res d', rrun 5 vs (QfGet oid) d = (RFinished res, d') /\ rd_gateway d' = rd_gateway d /\
    let '(status, balance) :=
      match gateway_reply false (r_reply (vs 2%nat)) with
      | None => (OrderStatusRefundFailed, u_Balance w)
      | Some resp => if (TrimSpace (rs_Status resp) ==? ProviderStatusSuccess)
                        || (TrimSpace (rs_Status resp) ==? ProviderStatusRefunded)
                     then (final_status (refundFinalizePlan r), u_Balance w - settled_units oid r w d)
                     else (OrderStatusRefundPending, u_Balance w)
      end in
    status_of oid d' = Some status /\ balance_of (po_UserID (ro r)) d' = Some balance.
Proof.
  intros Hf Hr Hid Hs Ht Hw Hprov Hq Hfail Hneg Ha.
  destruct (settle_plan_fields oid d r Hid Ht) as (Hp1 & Hp2 & Hp3 & Hp4 & Hp5). set (p := settle_plan oid r d) in *.
  pose proof (fun c1 d1 res d' => settle_query vs oid d r pk metadata c1 d1 res d' Hf Hr Hid Hs Ht Hprov Hq Hfail) as Hrun.
  destruct (gateway_reply false (r_reply (vs 2%nat))) as [resp|] eqn:Eg.
  - apply gateway_reply_accepted in Eg. unfold finalize in Hrun. cbv zeta in Hrun.
    destruct ((TrimSpace (rs_Status resp) ==? ProviderStatusSuccess)
      || (TrimSpace (rs_Status resp) ==? ProviderStatusRefunded)) eqn:Es.
    + destruct (finalize_tx_balance (vs 3%nat) d r w p) as (res & d' & He & Hg & Hst & Hb); rewrite ?Hp1, ?Hp2, ?Hp5; auto.
      { by destruct (pd_DeductionRollbackOK _). }
      rewrite Hp1, Hp4 in Hst. rewrite Hp2, Hp5 in Hb.
      exists (inl res), d'. split_and!; [|exact Hg|exact Hst|].
      * eapply Hrun; [reflexivity|]. eapply ends_step; [exact He|apply ends_done].
      * rewrite Hb. unfold settled_units. by destruct (pd_DeductionRollbackOK _).
    + cbn [orb] in Eg. rewrite Eg in Hrun. eexists _, _. split_and!; [eapply Hrun; [reflexivity|apply ends_done]|..].
      * apply audit_keeps_gateway.
      * unfold status_of. by rewrite audit_keeps_orders, Hr, <- Hs.
      * unfold balance_of. by rewrite audit_keeps_wallets, Hw.
  - eexists _, _. split_and!.
    + eapply Hrun; [reflexivity|]. eapply ends_step; [|apply ends_done]. cbn [radvance].
      rewrite (update_one_fine _ _ _ _ r) by (try exact Hr; apply Hf). reflexivity.
    + by rewrite audit_keeps_gateway.
    + unfold status_of. rewrite audit_keeps_orders. cbn [rd_orders with_orders]. by rewrite lookup_insert_eq.
    + unfold balance_of. rewrite audit_keeps_wallets. cbn [rd_wallets with_orders]. by rewrite Hw.
Qed.

End Machine.

(** ** Concrete refunds *)

(** A column of 1e-8 units, read by rounding to nearest and written by
    rounding half away from zero. *)
Definition ex_to_float (z : Z) : f64 :=
  match z with
  | Z0 => f0
  | Zpos n => f64_of_ratio false n 100000000
  | Zneg n => f64_of_ratio true n 100000000
  end.

Definition ex_to_column (x : f64) : Z :=
  match x with
  | SpecFloat.S754_finite s m e =>
      let u := if 0 <=? e then Z.pos m * 2 ^ e * 100000000
               else (Z.pos m * 100000000 + 2 ^ (- e - 1)) / 2 ^ (- e) in
      if s then - u else u
  | _ => 0
  end.

Definition ex_round (_ : Z) (x : f64) : f64 := x.
Definition ex_prorate (_ : Z) (x y z : f64) : f64 := fdiv (fmul x y) z.

(** Order 5 of user 1: 20 paid through instance 3. *)
Definition ex_order (status : string) : refund_order :=
  mkRefundOrder
    (mkOrder 5 1 (f64_of_Z 20) (f64_of_Z 20) "PAY-5-1" "sub2_x" "stripe" "pi_1" "balance" None None
       (Some "3") (Some "stripe") None status 0 None None None None)
    f0 None None false None None None.

Definition ex_db (balance : Z) (status : string) : rdb :=
  mkRdb {[ 5 := ex_order status ]} {[ 1 := mkWallet balance balance ]}
    (SubscriptionStore.mkStore ∅ 1 ∅) ∅ [] [].

(** A step's surroundings: a fault, and whether and what the provider replies. *)
Definition ex_env (f : fault) (failed : bool) (status : string) : renv :=
  mkRenv f 1000 1000 {[ 3 := mkInstance 3 "stripe" "stripe" ]} (fun _ => mkFlags true true)
    (Some ("stripe", ∅)) failed (Some (mkResponse status "re_1")) true
    (SubscriptionStore.mkEnv (fun _ => Fine) (fun _ => 1000)) None true "gateway".

Definition ex_run (n : nat) (vs : nat -> renv) (c : rpc) (d : rdb) : rpc * rdb :=
  rrun ex_round ex_prorate ex_to_float ex_to_column UTC UTC n vs c d.

Definition ex_plan : RefundPlan :=
  mkPlan 5 (ex_order OrderStatusCompleted) (f64_of_Z 20) (f64_of_Z 20) "refund order:5" false true
    DeductionTypeBalance (f64_of_Z 20) 0 0.

Example ex_prepared :
  ex_run 2 (fun _ => ex_env Fine false "success") (PrGet 5 f0 " " false true) (ex_db 3000000000 OrderStatusCompleted)
  = (ExLock ex_plan, ex_db 3000000000 OrderStatusCompleted).
Proof. by vm_compute. Qed.

(** 30 on the account, 20 taken, and the gateway's failure gives them back. *)
Lemma execute_refund_outcome_witness :
  exists res d', ex_run 11 (fun _ => ex_env Fine true "failed") (ExLock ex_plan)
      (ex_db 3000000000 OrderStatusCompleted) = (RFinished res, d') /\
    rd_gateway d' = [(5, f64_of_Z 20)] /\
    status_of 5 d' = Some OrderStatusCompleted /\ balance_of 1 d' = Some 3000000000.
Proof.
  unshelve epose proof (execute_refund_outcome ex_round ex_prorate ex_to_float ex_to_column UTC UTC
    (fun _ => ex_env Fine true "failed") ex_plan
    (ex_db 3000000000 OrderStatusCompleted) (ex_order OrderStatusCompleted) (mkWallet 3000000000 3000000000)
    "stripe" ∅ _ _ _ _ _ _ _ _ _ _ _ _ _ _) as (res & d' & E & Hg & Hs & Hb).
  1: intros n; reflexivity.
  1-13: vm_compute; first [reflexivity | discriminate | split; reflexivity].
  exists res, d'. split_and!; [exact E|exact Hg|exact Hs|exact Hb].
Defined.

(** A pending refund of 20 with 10 on the account: the settlement takes 10. *)
Definition ex_pending : rdb :=
  (ex_run 13 (fun _ => ex_env Fine false "pending") (PrGet 5 f0 "" true true) (ex_db 1000000000 OrderStatusCompleted)).2.

Lemma settle_refund_outcome_witness :
  exists r res d', rd_orders ex_pending !! 5 = Some r /\
    ex_run 5 (fun _ => ex_env Fine false " success ") (QfGet 5) ex_pending = (RFinished res, d') /\
    status_of 5 d' = Some OrderStatusRefunded /\ balance_of 1 d' = Some 0.
Proof.
  destruct (rd_orders ex_pending !! 5) as [r|] eqn:Er; [|vm_compute in Er; discriminate].
  assert (Er' := Er). vm_compute in Er'. injection Er' as Er'.
  unshelve epose proof (settle_refund_outcome ex_round ex_prorate ex_to_float ex_to_column UTC UTC
    (fun _ => ex_env Fine false " success ") 5 ex_pending r (mkWallet 1000000000 2000000000) "stripe" ∅
    _ Er _ _ _ _ _ _ _ _ _) as (res & d' & E & Hg & Hs & Hb).
  1: intros n; reflexivity.
  1-9: rewrite <- ?Er'; vm_compute; reflexivity.
  exists r, res, d'. rewrite <- Er' in Hs, Hb. split_and!; [reflexivity|exact E|exact Hs|exact Hb].
Defined.

(** ** Deductions the settlement repeats *)

(** The gateway fails, the rollback fails as well (REFUND_ROLLBACK_FAILED) and
    the order is REFUND_FAILED with 20 of 60 taken. *)
Definition ex_failed : rdb :=
  (ex_run 11 (fun n => if (n =? 4)%nat then ex_env LostBefore true "" else ex_env Fine true "failed")
     (ExLock ex_plan) (ex_db 6000000000 OrderStatusCompleted)).2.

(** The retry takes nothing, as it should, and is left pending. *)
Definition ex_retried : rdb :=
  (ex_run 13 (fun _ => ex_env Fine false "pending") (PrGet 5 f0 "" false true) ex_failed).2.

(** Its settlement takes the 20 again. *)
Example settlement_deducts_twice :
  balance_of 1 ex_failed = Some 4000000000 /\ balance_of 1 ex_retried = Some 4000000000 /\
  let d := (ex_run 5 (fun _ => ex_env Fine false "success") (QfGet 5) ex_retried).2 in
  balance_of 1 d = Some 2000000000 /\ status_of 5 d = Some OrderStatusRefunded /\
  rd_ledger d = [Deducted 5 1 2000000000; Deducted 5 1 2000000000].
Proof. vm_compute. split_and!; reflexivity. Qed.

(** A refund the administrator asked to make without a deduction: pending at
    the gateway, its settlement deducts it all the same. *)
Example settlement_deducts_unasked :
  let d1 := (ex_run 13 (fun _ => ex_env Fine false "pending") (PrGet 5 f0 "" false false)
               (ex_db 6000000000 OrderStatusCompleted)).2 in
  let d2 := (ex_run 5 (fun _ => ex_env Fine false "success") (QfGet 5) d1).2 in
  rd_ledger d1 = [] /\ rd_ledger d2 = [Deducted 5 1 2000000000].
Proof. vm_compute. split; reflexivity. Qed.

(** The money given back by a rollback counts as recharged. *)
Example rollback_counts_as_recharge :
  let d := (ex_run 11 (fun _ => ex_env Fine true "failed") (ExLock ex_plan) (ex_db 6000000000 OrderStatusCompleted)).2 in
  rd_wallets d !! 1 = Some (mkWallet 6000000000 8000000000).
Proof. vm_compute. reflexivity. Qed.
