(* ===== verification/RefundSafety.v ===== *)
(** * Interleaved refunds: the lock on an order and the money taken for it

    Any number of calls of payment_refund.go run interleaved, transition by
    transition, with faults at any statement, crashes at any point and other
    parts of the program changing orders that are not being refunded.  A call
    [holds] an order from its successful lock (the conditional update to
    REFUNDING) to its last transition.  Two conditions are put on runs where a
    theorem needs them: [in_time] (the settlement's unconditional update to
    REFUND_FAILED comes while the order is still open) and [money_safe] (the
    deduction's effect is not lost to its caller, and the rollback works). *)

From S2P Require Import Prelude Float64 GoTime GoAny PaymentHelpers PaymentOrder Refund.
From S2P Require Subscription SubscriptionStore.
#[local] Existing Instance Subscription.SubscriptionError_eq_dec.
Local Open Scope Z_scope.

Section Safety.
Variable decimal_round : Z -> f64 -> f64.
Variable decimal_prorate : Z -> f64 -> f64 -> f64 -> f64.
Variable to_float : Z -> f64.
Variable to_column : f64 -> Z.
Variables loc dloc : Location.

#[local] Abbreviation advance := (radvance decimal_round decimal_prorate to_float to_column loc dloc).

(** ** Who holds an order *)

Definition holds (c : rpc) : option Z :=
  match c with
  | ExAudit p | ExDeduct p | ExSubAudit p | ExExtend p | ExRevoke p | ExRestore p _ | ExGateway p
  | RbBalance p _ | RbSub p _ | FailRestore p | FailMark p | MkOk p | MkPending p _ _ => Some (p_OrderID p)
  | _ => None
  end.

(** Statuses a refund has closed: in progress, or done. *)
Definition closed (s : option string) : bool :=
  match s with
  | Some s => (s ==? OrderStatusRefunding) || (s ==? OrderStatusRefunded) || (s ==? OrderStatusPartiallyRefunded)
  | None => false
  end.

(** ** The money taken for an order *)

Definition entry_order (e : entry) : Z := match e with Deducted o _ _ | RolledBack o _ _ => o end.
Definition of_order (o : Z) (l : list entry) : list entry := filter (fun e => entry_order e = o) l.
Fixpoint net (l : list entry) : Z :=
  match l with
  | [] => 0
  | Deducted _ _ x :: l => net l + x
  | RolledBack _ _ x :: l => net l - x
  end.

Definition taken (o : Z) (d : rdb) : list entry := of_order o (rd_ledger d).

(** Nothing outstanding, or exactly the last deduction. *)
Definition once (l : list entry) : Prop :=
  net l = 0 \/ exists o u x l', l = Deducted o u x :: l' /\ net l' = 0.

(** ** What one transition does *)

Definition same (o : Z) (d d' : rdb) : Prop := status_of o d' = status_of o d /\ taken o d' = taken o d.
Definition others (o : Z) (d d' : rdb) : Prop := forall o', o' <> o -> same o' d d'.

(** The amount a call owes for the order it holds: what it would give back. *)
Definition is_balance (p : RefundPlan) : bool := p_DeductionType p ==? DeductionTypeBalance.
Definition is_days (p : RefundPlan) : bool := p_DeductionType p ==? DeductionTypeSubscription.

Definition exact_at (p : RefundPlan) (t : Z) : Prop :=
  is_balance p = true /\ p_BalanceToDeduct p = to_float t /\ 0 <= t /\ exact_units to_float to_column t.

Definition carries (c : rpc) (t : Z) : Prop :=
  match c with
  | ExAudit p | ExDeduct p => t = 0 /\ is_balance p = true /\ fltb f0 (p_BalanceToDeduct p) = true
  | ExSubAudit p | ExExtend p | ExRevoke p | RbSub p _ => t = 0 /\ is_days p = true
  | ExGateway p | MkOk p => exact_at p t \/ t = 0 /\ (is_balance p && fltb f0 (p_BalanceToDeduct p)) = false
  | RbBalance p _ => exact_at p t
  | _ => t = 0
  end.

Definition money_safe (v : renv) (c : rpc) (d : rdb) : Prop :=
  match c with
  | ExDeduct p =>
      r_fault v <> LostAfter /\
      forall w, rd_wallets d !! po_UserID (ro (p_Order p)) = Some w ->
        let t := Z.min (to_column (p_BalanceToDeduct p)) (Z.max (u_Balance w) 0) in
        0 <= t /\ exact_units to_float to_column t
  | RbBalance p _ =>
      (faulty v (UpdateBalance to_column (p_OrderID p) (po_UserID (ro (p_Order p))) (p_BalanceToDeduct p)) d).1
      = Some tt
  | _ => True
  end.

Definition in_time (c : rpc) (d : rdb) : Prop :=
  match c with QfFail o => closed (status_of o d) = false | _ => True end.

Inductive effect (v : renv) (c : rpc) (d : rdb) (c' : rpc) (d' : rdb) : Prop :=
(** the order's status and money stay *)
| eff_quiet :
    (forall o, same o d d') ->
    (forall o, holds c' = Some o -> holds c = Some o /\ forall t, carries c t -> carries c' t) ->
    effect v c d c' d'
(** an open order gets another open status *)
| eff_open o :
    holds c' = None -> closed (status_of o d) = false -> closed (status_of o d') = false ->
    taken o d' = taken o d -> others o d d' -> effect v c d c' d'
(** the lock *)
| eff_lock o :
    closed (status_of o d) = false -> status_of o d' = Some OrderStatusRefunding ->
    taken o d' = taken o d -> others o d d' ->
    holds c' = None \/ holds c' = Some o /\ carries c' 0 -> effect v c d c' d'
(** the settlement's transaction *)
| eff_settle o s :
    closed (status_of o d) = false -> holds c' = None ->
    status_of o d' = Some s -> closed (Some s) = true ->
    (taken o d' = taken o d \/ exists u x, taken o d' = Deducted o u x :: taken o d) ->
    others o d d' -> effect v c d c' d'
(** the money of an order that is held *)
| eff_money o :
    holds c = Some o -> holds c' = Some o -> status_of o d' = status_of o d -> others o d d' ->
    (money_safe v c d -> carries c (net (taken o d)) ->
       carries c' (net (taken o d')) /\
       (net (taken o d') = 0 \/ net (taken o d) = 0 /\ exists u x, taken o d' = Deducted o u x :: taken o d)) ->
    effect v c d c' d'
(** the last update of a call that holds the order *)
| eff_release o :
    holds c = Some o -> holds c' = None -> taken o d' = taken o d -> others o d d' ->
    closed (status_of o d') = true \/ (forall t, carries c t -> t = 0) -> effect v c d c' d'.

Lemma same_refl o d : same o d d.
Proof. done. Qed.
Lemma others_refl o d : others o d d.
Proof. done. Qed.
#[local] Hint Resolve same_refl others_refl : refund.

Lemma audit_same v id a x d o : same o d (audit v id a x d).
Proof. unfold same, status_of, taken. by rewrite audit_keeps_orders, audit_keeps_ledger. Qed.

Lemma same_trans o d1 d2 d3 : same o d1 d2 -> same o d2 d3 -> same o d1 d3.
Proof. intros [E1 E2] [E3 E4]. split; congruence. Qed.

(** ** Row updates *)

(** Nothing but the row's status may change; [Some 1] says that it did. *)
Lemma update_rows_effect v id cond f d n d' :
  update_rows v id cond f d = (n, d') ->
  rd_ledger d' = rd_ledger d /\ others id d d' /\
  (rd_orders d' = rd_orders d /\ (n = None \/ n = Some 0) \/
   exists r, rd_orders d !! id = Some r /\ cond r = true /\
     status_of id d' = Some (po_Status (ro (f r))) /\ (n = None \/ n = Some 1)).
Proof.
  unfold update_rows, others, same, status_of, taken.
  destruct (rd_orders d !! id) as [r|] eqn:Er; [destruct (cond r) eqn:Ec|];
    destruct (r_fault v); intros [= <- <-]; cbn [rd_ledger rd_orders with_orders];
    (split; [reflexivity|]); (split; [intros o' Ho; by rewrite ?lookup_insert_ne by congruence|]);
    try (left; split; [reflexivity|]; by auto); right; exists r; rewrite lookup_insert_eq; auto.
Qed.

Lemma update_one_effect v id f d b d' :
  update_one v id f d = (b, d') ->
  rd_ledger d' = rd_ledger d /\ others id d d' /\
  (rd_orders d' = rd_orders d \/
   exists r, rd_orders d !! id = Some r /\ status_of id d' = Some (po_Status (ro (f r)))).
Proof.
  unfold update_one. destruct (update_rows v id _ f d) as [n d1] eqn:E.
  apply update_rows_effect in E as (Hl & Ho & H). intros Hb.
  assert (d1 = d') as -> by (by destruct n; injection Hb).
  split_and!; [exact Hl|exact Ho|]. destruct H as [[? _]|(r & ? & _ & ? & _)]; eauto.
Qed.

(** ** What the pieces of code between two transitions hold and carry *)

Definition keeps (o t : Z) (c : rpc) : Prop := holds c = Some o /\ carries c t.

Lemma deduction_types p : is_balance p = true -> is_days p = false.
Proof. unfold is_balance, is_days. intros H%bool_decide_eq_true. by rewrite H. Qed.

Lemma exact_positive p t : exact_at p t -> fltb f0 (p_BalanceToDeduct p) = (0 <? t).
Proof. intros (_ & -> & _ & _ & E). exact E. Qed.

Lemma owed_none p t :
  exact_at p t \/ t = 0 /\ (is_balance p && fltb f0 (p_BalanceToDeduct p)) = false ->
  (is_balance p && fltb f0 (p_BalanceToDeduct p)) = false -> t = 0.
Proof.
  intros [H|[? _]] Hb; [|assumption]. assert (H' := H). destruct H as (E & _ & Hpos & _).
  rewrite (exact_positive _ _ H'), E in Hb. cbn [andb] in Hb. destruct (Z.ltb_spec 0 t); [discriminate|lia].
Qed.

Lemma after_lock_keeps p : keeps (p_OrderID p) 0 (after_lock p).
Proof.
  unfold after_lock, keeps. fold (is_balance p) (is_days p).
  destruct (is_balance p && fltb f0 (p_BalanceToDeduct p)) eqn:Eb.
  - apply andb_true_iff in Eb. cbn. tauto.
  - destruct (is_days p && _ && _) eqn:Es; cbn; [|by auto].
    apply andb_true_iff in Es as [[Es _]%andb_true_iff _]. auto.
Qed.

Lemma rolled_back_keeps p k : keeps (p_OrderID p) 0 (rolled_back p k).
Proof. destruct k; done. Qed.
Lemma not_rolled_back_keeps p k : keeps (p_OrderID p) 0 (not_rolled_back p k).
Proof. destruct k; done. Qed.

Lemma rollback_sub_keeps p k : keeps (p_OrderID p) 0 (rollback_sub p k).
Proof.
  unfold rollback_sub. fold (is_days p). destruct (is_days p && _ && _) eqn:Es; [|apply rolled_back_keeps].
  apply andb_true_iff in Es as [[Es _]%andb_true_iff _]. done.
Qed.

Lemma rollback_keeps p k t :
  exact_at p t \/ t = 0 /\ (is_balance p && fltb f0 (p_BalanceToDeduct p)) = false ->
  keeps (p_OrderID p) t (rollback p k).
Proof.
  intros H. unfold rollback. fold (is_balance p).
  destruct (is_balance p && fltb f0 (p_BalanceToDeduct p)) eqn:Eb.
  - split; [reflexivity|]. destruct H as [H|[_ ?]]; [exact H|discriminate].
  - rewrite (owed_none p t) by (try rewrite Eb; auto). apply rollback_sub_keeps.
Qed.

Lemma finishRefund_keeps p resp t :
  exact_at p t \/ t = 0 /\ (is_balance p && fltb f0 (p_BalanceToDeduct p)) = false ->
  keeps (p_OrderID p) t (finishRefund p resp).
Proof.
  intros H. unfold finishRefund. destruct (_ || _); [done|].
  destruct (_ ==? _); by apply rollback_keeps.
Qed.

Lemma rollback_holds p k : holds (rollback p k) = Some (p_OrderID p).
Proof. unfold rollback. destruct (_ && _); [reflexivity|apply rollback_sub_keeps]. Qed.

Lemma finishRefund_holds p resp : holds (finishRefund p resp) = Some (p_OrderID p).
Proof. unfold finishRefund. destruct (_ || _); [done|]. destruct (_ ==? _); apply rollback_holds. Qed.

(** After a balance deduction: no days to deduct are left to the same plan. *)
Lemma after_balance_keeps p x t :
  is_balance p = true -> exact_at (with_balance x p) t \/ t = 0 /\ fltb f0 x = false ->
  keeps (p_OrderID p) t (after_balance (with_balance x p)).
Proof.
  intros Hb H. unfold after_balance. fold (is_days (with_balance x p)).
  assert (is_days (with_balance x p) = false) as -> by (by apply (deduction_types (with_balance x p))).
  cbn [andb]. split; [reflexivity|]. destruct H as [H|[-> H]]; [by left|right].
  split; [reflexivity|]. change (p_BalanceToDeduct (with_balance x p)) with x. by rewrite H, andb_false_r.
Qed.

Lemma after_balance_keeps_holds p x : holds (after_balance (with_balance x p)) = Some (p_OrderID p).
Proof. unfold after_balance. by destruct (_ && _). Qed.

(** ** The effect of each group of transitions *)

Lemma ledger_taken o d d' : rd_ledger d' = rd_ledger d -> taken o d' = taken o d.
Proof. unfold taken. by intros ->. Qed.

Lemma quiet_keeps v c d c' d' p :
  (forall o, same o d d') -> holds c = Some (p_OrderID p) ->
  (forall t, carries c t -> keeps (p_OrderID p) t c') -> holds c' = Some (p_OrderID p) ->
  effect v c d c' d'.
Proof.
  intros Hs Hc H Hc'. apply eff_quiet; [exact Hs|]. intros o Ho. rewrite Hc' in Ho. injection Ho as <-.
  split; [exact Hc|]. intros t Ht. by apply (H t Ht).
Qed.

Lemma quiet_finished v c d r d' : (forall o, same o d d') -> effect v c d (RFinished r) d'.
Proof. intros Hs. apply eff_quiet; [exact Hs|]. by intros o H. Qed.

Lemma quiet_free v c d c' d' : (forall o, same o d d') -> holds c' = None -> effect v c d c' d'.
Proof. intros Hs Hc. apply eff_quiet; [exact Hs|]. intros o H. by rewrite Hc in H. Qed.

(** The last update of a holder: it either happens or not. *)
Lemma release_effect v c d r d1 d' p f b :
  holds c = Some (p_OrderID p) -> status_of (p_OrderID p) d = Some OrderStatusRefunding ->
  update_one v (p_OrderID p) f d = (b, d1) -> (forall o, same o d1 d') ->
  (forall r, closed (Some (po_Status (ro (f r)))) = true) \/ (forall t, carries c t -> t = 0) ->
  effect v c d (RFinished r) d'.
Proof.
  intros Hc Hst (Hl & Ho & Hr)%update_one_effect Ha Hf.
  apply (eff_release v c d (RFinished r) d' (p_OrderID p)); [exact Hc|reflexivity| | |].
  - destruct (Ha (p_OrderID p)) as [_ ->]. by apply ledger_taken.
  - intros o' Ho'. eapply same_trans; [by apply Ho|apply Ha].
  - destruct Hf as [Hf|Hf]; [left|by right]. destruct (Ha (p_OrderID p)) as [-> _].
    destruct Hr as [Hr|(x & _ & ->)]; [|apply Hf]. unfold status_of in *. by rewrite Hr, Hst.
Qed.

Lemma extend_sub_same v id days d o : same o d (extend_sub loc dloc v id days d).2.
Proof. unfold extend_sub. by destruct (SubscriptionStore.ExtendSubscription _ _ _ _ _ _ _) as [[[?|?] ?] ?]. Qed.
Lemma revoke_sub_same v id d o : same o d (revoke_sub v id d).2.
Proof. unfold revoke_sub. by destruct (SubscriptionStore.RevokeSubscription _ _ _ _) as [[[?|?] ?] ?]. Qed.

Lemma finalize_effect v c p resp oid d :
  effect v c d (finalize v p resp oid d).1 (finalize v p resp oid d).2.
Proof.
  unfold finalize. destruct (_ || _); [by apply quiet_free|].
  destruct (_ ==? _); [apply quiet_finished; intros; apply audit_same|by apply quiet_free].
Qed.

(** The settlement's deduction, inside its transaction. *)
Lemma final_deduction_effect v p d q d' :
  apply_final_deduction to_float to_column loc dloc v p d = (Some q, d') ->
  p_OrderID q = p_OrderID p /\ final_status q = final_status p /\ rd_orders d' = rd_orders d /\
  (rd_ledger d' = rd_ledger d \/ exists u x, rd_ledger d' = Deducted (p_OrderID p) u x :: rd_ledger d).
Proof.
  unfold apply_final_deduction.
  assert (forall q0 d0, p_OrderID q0 = p_OrderID p -> final_status q0 = final_status p -> rd_orders d0 = rd_orders d ->
    (rd_ledger d0 = rd_ledger d \/ exists u x, rd_ledger d0 = Deducted (p_OrderID p) u x :: rd_ledger d) ->
    (if (p_DeductionType q0 ==? DeductionTypeSubscription) && (0 <? p_SubDaysToDeduct q0) && (0 <? p_SubscriptionID q0)
     then match extend_sub loc dloc v (p_SubscriptionID q0) (- p_SubDaysToDeduct q0) d0 with
          | (Ok _, d2) => (Some q0, d2)
          | (Err e, d2) =>
              if e ==? Subscription.ErrAdjustWouldExpire
              then match revoke_sub v (p_SubscriptionID q0) d2 with
                   | (true, d3) => (Some q0, d3) | (false, d3) => (None, d3) end
              else (None, d2)
          end
     else (Some q0, d0)) = (Some q, d') ->
    p_OrderID q = p_OrderID p /\ final_status q = final_status p /\ rd_orders d' = rd_orders d /\
    (rd_ledger d' = rd_ledger d \/ exists u x, rd_ledger d' = Deducted (p_OrderID p) u x :: rd_ledger d)) as Hsub.
  { intros q0 d0 H1 H2 H3 H4. unfold extend_sub, revoke_sub.
    destruct (_ && _ && _); [|by intros [= <- <-]].
    destruct (SubscriptionStore.ExtendSubscription _ _ _ _ _ _ _) as [[[?|e] ?] st]; [by intros [= <- <-]|].
    destruct (e ==? _); [|done].
    destruct (SubscriptionStore.RevokeSubscription _ _ _ _) as [[[?|?] ?] st']; [by intros [= <- <-]|done]. }
  destruct (_ && fltb _ _); [|intros E; eapply Hsub; [..|exact E]; auto].
  unfold DeductAvailableBalance. destruct (fltb (p_BalanceToDeduct p) f0); [done|].
  destruct (rd_wallets d !! _); [|done]. intros E. eapply Hsub; [..|exact E]; eauto.
Qed.

Lemma taken_cons o e d d' : rd_ledger d' = e :: rd_ledger d ->
  taken o d' = if decide (entry_order e = o) then e :: taken o d else taken o d.
Proof. intros E. unfold taken, of_order. by rewrite E, filter_cons. Qed.

Lemma others_ledger e d d' :
  rd_orders d' = rd_orders d -> rd_ledger d' = e :: rd_ledger d -> others (entry_order e) d d'.
Proof.
  intros E1 E2 o Ho. split; [unfold status_of; by rewrite E1|].
  rewrite (taken_cons o e d d' E2). by rewrite decide_False by congruence.
Qed.

Lemma final_closed p : closed (Some (final_status p)) = true.
Proof. unfold final_status. by destruct (fltb _ _). Qed.

Lemma finalize_body_effect v p d r d' :
  finalize_body to_float to_column loc dloc v p d = (r, Some d') ->
  closed (status_of (p_OrderID p) d) = false /\ status_of (p_OrderID p) d' = Some (final_status p) /\
  (taken (p_OrderID p) d' = taken (p_OrderID p) d \/
   exists u x, taken (p_OrderID p) d' = Deducted (p_OrderID p) u x :: taken (p_OrderID p) d) /\
  others (p_OrderID p) d d'.
Proof.
  unfold finalize_body. destruct (rd_orders d !! p_OrderID p) as [row|] eqn:Er; [|done].
  destruct (po_Status (ro row) ==? OrderStatusRefundPending) eqn:Es; cbn [negb]; [|done].
  apply bool_decide_eq_true in Es. cbv zeta.
  destruct (apply_final_deduction _ _ _ _ _ _ _) as [[q|] d2] eqn:E; [|done].
  apply final_deduction_effect in E as (E1 & E2 & Ho & Hl). destruct (has_audit _ _ _); [done|].
  intros [= _ <-]. cbn [rd_orders rd_ledger with_orders] in Ho, Hl. split_and!.
  - unfold status_of. rewrite Er. cbn. by rewrite Es.
  - unfold status_of. cbn [rd_orders with_audits with_orders]. rewrite E1, lookup_insert_eq. cbn. by rewrite E2.
  - destruct Hl as [Hl|(u & x & Hl)]; [left; by apply ledger_taken|right; exists u, x].
    etransitivity; [apply (taken_cons _ _ d _ Hl)|]. by rewrite decide_True by reflexivity.
  - intros o' Hne. split.
    + unfold status_of. cbn [rd_orders with_audits with_orders].
      by rewrite E1, lookup_insert_ne, Ho, lookup_insert_ne by congruence.
    + destruct Hl as [Hl|(u & x & Hl)]; [by apply ledger_taken|].
      etransitivity; [apply (taken_cons _ _ d _ Hl)|]. by rewrite decide_False by (cbn; congruence).
Qed.

Lemma finalize_tx_effect v c p d :
  effect v c d (finalize_tx to_float to_column loc dloc v p d).1 (finalize_tx to_float to_column loc dloc v p d).2.
Proof.
  unfold finalize_tx. assert (forall r d', finalize_body to_float to_column loc dloc v p d = (r, Some d') ->
    forall r', effect v c d (RFinished r') d') as H.
  { intros r d' (Hc & Hs & Ht & Ho)%finalize_body_effect r'.
    eapply (eff_settle v c d _ d' (p_OrderID p)); eauto using final_closed. }
  destruct (r_fault v); [| by apply quiet_free|]; (destruct (finalize_body _ _ _ _ v p d) as [r [d'|]] eqn:E;
    [by eapply H|by apply quiet_finished]).
Qed.

(** The deduction of a holder. *)
Lemma deduct_effect v p d :
  effect v (ExDeduct p) d (advance v (ExDeduct p) d).1 (advance v (ExDeduct p) d).2.
Proof.
  cbn [radvance]. unfold DeductAvailableBalance, faulty.
  set (user := po_UserID (ro (p_Order p))).
  assert (forall e, effect v (ExDeduct p) d (ExRestore p e) d) as Hno.
  { intros e. apply (quiet_keeps v _ d _ d p); try done. by intros t (-> & _). }
  destruct (fltb (p_BalanceToDeduct p) f0) eqn:Hneg; [by destruct (r_fault v); apply Hno|].
  destruct (rd_wallets d !! user) as [w|] eqn:Hw; [|by destruct (r_fault v); apply Hno]. cbv zeta.
  set (t := Z.min (to_column (p_BalanceToDeduct p)) (Z.max (u_Balance w) 0)).
  set (d' := with_wallets _ (Deducted _ _ t) d).
  assert (forall c', holds c' = Some (p_OrderID p) ->
    (money_safe v (ExDeduct p) d -> carries (ExDeduct p) 0 -> carries c' t) ->
    effect v (ExDeduct p) d c' d') as Hd.
  { intros c' Hc' H. apply (eff_money v _ d c' d' (p_OrderID p)); [reflexivity|exact Hc'|reflexivity| |].
    - apply (others_ledger (Deducted (p_OrderID p) user t)); reflexivity.
    - rewrite (taken_cons _ (Deducted (p_OrderID p) user t) d d') by reflexivity.
      rewrite decide_True by reflexivity. intros Hm Hc. assert (net (taken (p_OrderID p) d) = 0) as E by apply Hc.
      rewrite E in Hc. cbn [net]. rewrite E. split; [rewrite Z.add_0_l; by apply H|].
      right. split; [reflexivity|]. by exists user, t. }
  destruct (r_fault v) eqn:Ef; [|apply Hno|].
  - apply Hd; [by apply after_balance_keeps_holds|].
    intros [_ Hm] (_ & Hb & _). destruct (Hm w Hw) as [Hpos Hex]. fold t in Hpos, Hex.
    apply after_balance_keeps; [exact Hb|]. left. by split_and!.
  - apply Hd; [reflexivity|]. intros [Hm _]. by rewrite Ef in Hm.
Qed.

(** The rollback of a holder: all of what it carries. *)
Lemma rollback_effect v p k d :
  effect v (RbBalance p k) d (advance v (RbBalance p k) d).1 (advance v (RbBalance p k) d).2.
Proof.
  assert (forall c' d1, (money_safe v (RbBalance p k) d -> False) -> holds c' = Some (p_OrderID p) ->
    status_of (p_OrderID p) d1 = status_of (p_OrderID p) d -> others (p_OrderID p) d d1 ->
    effect v (RbBalance p k) d c' d1) as Hlost.
  { intros c' d1 Hm Hc' Hs Ho. apply (eff_money v _ d c' d1 (p_OrderID p)); [reflexivity|done..|].
    intros Hm'. by apply Hm in Hm'. }
  assert (forall d1, others (p_OrderID p) d d1 -> others (p_OrderID p) d (audit v (p_OrderID p) ROLLBACK_FAILED None d1)) as Haud.
  { intros d1 H o Ho. eapply same_trans; [by apply H|apply audit_same]. }
  cbn [radvance]. destruct (faulty v _ d) as [[u|] d1] eqn:E.
  - apply (eff_money v _ d _ _ (p_OrderID p)); cbn [fst snd]; [reflexivity|apply rollback_sub_keeps| | |];
      unfold faulty, UpdateBalance in E; destruct (r_fault v); try done;
      destruct (rd_wallets d !! po_UserID (ro (p_Order p))) as [w|]; try done; injection E as _ <-.
    + done.
    + eapply (others_ledger (RolledBack _ _ _)); reflexivity.
    + intros _ Hc. assert (Hc' := Hc). destruct Hc' as (Hb & Ht & Hpos & Hex & _). rewrite Ht, Hex.
      rewrite (taken_cons _ (RolledBack (p_OrderID p) (po_UserID (ro (p_Order p))) (net (taken (p_OrderID p) d))) d)
        by reflexivity.
      rewrite decide_True by reflexivity. cbn [net]. rewrite Z.sub_diag. split; [apply rollback_sub_keeps|by left].
  - cbn [fst snd]. apply Hlost; [| apply not_rolled_back_keeps| |apply Haud].
    + cbn [money_safe]. rewrite E. done.
    + rewrite (proj1 (audit_same _ _ _ _ _ _)). unfold faulty, UpdateBalance in E.
      destruct (r_fault v), (rd_wallets d !! po_UserID (ro (p_Order p))); try done; by injection E as <-.
    + unfold faulty, UpdateBalance in E.
      destruct (r_fault v), (rd_wallets d !! po_UserID (ro (p_Order p))) as [w|]; try done; injection E as <-; try done.
      eapply (others_ledger (RolledBack _ _ _)); reflexivity.
Qed.

Lemma closed_refunding : closed (Some OrderStatusRefunding) = true.
Proof. reflexivity. Qed.

Lemma lock_effect v p d :
  effect v (ExLock p) d (advance v (ExLock p) d).1 (advance v (ExLock p) d).2.
Proof.
  cbn [radvance]. destruct (update_rows _ _ _ _ d) as [n d1] eqn:E.
  apply update_rows_effect in E as (Hl & Ho & [[Hr Hn]|(r & Hr & Hc & Hs & Hn)]).
  - assert (forall o, same o d d1) as Hq.
    { intros o. split; [unfold status_of; by rewrite Hr|by apply ledger_taken]. }
    destruct Hn as [-> | ->]; by apply quiet_finished.
  - assert (forall c', holds c' = None \/ keeps (p_OrderID p) 0 c' -> effect v (ExLock p) d c' d1) as H.
    { intros c' Hc'. apply (eff_lock v _ d c' d1 (p_OrderID p)); [|exact Hs|by apply ledger_taken|exact Ho|exact Hc'].
      unfold status_of. rewrite Hr. cbn. unfold refundable in Hc. destruct (po_Status (ro r) ==? OrderStatusRefunding) eqn:E1.
      - apply bool_decide_eq_true in E1. rewrite E1 in Hc. done.
      - destruct (po_Status (ro r) ==? OrderStatusRefunded) eqn:E2; [apply bool_decide_eq_true in E2; by rewrite E2 in Hc|].
        destruct (po_Status (ro r) ==? OrderStatusPartiallyRefunded) eqn:E3; [|done].
        apply bool_decide_eq_true in E3. by rewrite E3 in Hc. }
    destruct Hn as [-> | ->]; apply H; [by left|right; apply after_lock_keeps].
Qed.

Lemma request_effect v r uid reason d :
  effect v (RqUpdate r uid reason) d (advance v (RqUpdate r uid reason) d).1 (advance v (RqUpdate r uid reason) d).2.
Proof.
  cbn [radvance]. destruct (update_rows _ _ _ _ d) as [n d1] eqn:E.
  apply update_rows_effect in E as (Hl & Ho & [[Hr Hn]|(x & Hr & Hc & Hs & Hn)]).
  - assert (forall o, same o d d1) as Hq.
    { intros o. split; [unfold status_of; by rewrite Hr|by apply ledger_taken]. }
    destruct Hn as [-> | ->]; by apply quiet_finished.
  - assert (forall r' d2, (forall o, same o d1 d2) -> effect v (RqUpdate r uid reason) d (RFinished r') d2) as H.
    { intros r' d2 Ha. destruct (Ha (po_ID (ro r))) as [E1 E2].
      apply (eff_open v _ d _ d2 (po_ID (ro r))); [reflexivity| | | |].
      - unfold status_of. rewrite Hr. cbn. apply andb_true_iff in Hc as [[_ Hc]%andb_true_iff _].
        apply bool_decide_eq_true in Hc. by rewrite Hc.
      - by rewrite E1, Hs.
      - rewrite E2. by apply ledger_taken.
      - intros o Hne. eapply same_trans; [by apply Ho|apply Ha]. }
    destruct Hn as [-> | ->]; apply H; intros; [apply same_refl|apply audit_same].
Qed.

Lemma gateway_effect v p d :
  effect v (ExGateway p) d (advance v (ExGateway p) d).1 (advance v (ExGateway p) d).2.
Proof.
  assert (forall c' d1, (forall o, same o d d1) -> (forall t, carries (ExGateway p) t -> keeps (p_OrderID p) t c') ->
    holds c' = Some (p_OrderID p) -> effect v (ExGateway p) d c' d1) as Hq.
  { intros c' d1 Hs H Hc'. by apply (quiet_keeps v _ d c' d1 p). }
  assert (forall k d1, (forall o, same o d d1) -> effect v (ExGateway p) d (rollback p k) d1) as Hrb.
  { intros k d1 Hs. apply Hq; [exact Hs|intros t; apply rollback_keeps|apply rollback_holds]. }
  assert (forall resp d1, (forall o, same o d d1) -> effect v (ExGateway p) d (finishRefund p resp) d1) as Hfin.
  { intros resp d1 Hs. apply Hq; [exact Hs|intros t; apply finishRefund_keeps|apply finishRefund_holds]. }
  cbn [radvance]. destruct (po_PaymentTradeNo _ ==? ""); [apply Hfin; intros; apply audit_same|].
  destruct (getRefundProvider _ _) as [[pk md]|]; [|by apply Hrb].
  destruct (validateProviderSnapshotMetadata _ _ _); [apply Hrb; intros; apply audit_same|].
  cbv zeta. destruct (gateway_reply _ _); [by apply Hfin|by apply Hrb].
Qed.

Lemma days_effect v p d :
  effect v (ExExtend p) d (advance v (ExExtend p) d).1 (advance v (ExExtend p) d).2 /\
  effect v (ExRevoke p) d (advance v (ExRevoke p) d).1 (advance v (ExRevoke p) d).2 /\
  forall k, effect v (RbSub p k) d (advance v (RbSub p k) d).1 (advance v (RbSub p k) d).2.
Proof.
  assert (is_days p = true -> is_balance p = false) as Hty.
  { unfold is_balance, is_days. intros H%bool_decide_eq_true. rewrite H. reflexivity. }
  cbn [radvance]. split_and!.
  - pose proof (extend_sub_same v (p_SubscriptionID p) (- p_SubDaysToDeduct p) d) as Hs.
    destruct (extend_sub _ _ _ _ _ d) as [[u|e] d1]; [|destruct (e ==? _)];
      apply (quiet_keeps v _ d _ d1 p); try exact Hs; try reflexivity; intros t [-> H]; try done.
    split; [reflexivity|right]. by rewrite (Hty H).
  - pose proof (revoke_sub_same v (p_SubscriptionID p) d) as Hs.
    destruct (revoke_sub _ _ d) as [[|] d1];
      apply (quiet_keeps v _ d _ d1 p); try exact Hs; try reflexivity; intros t [-> H]; try done.
    split; [reflexivity|right]. by rewrite (Hty H).
  - intros k. pose proof (extend_sub_same v (p_SubscriptionID p) (p_SubDaysToDeduct p) d) as Hs.
    destruct (extend_sub _ _ _ _ _ d) as [[u|e] d1]; cbn [fst snd] in *.
    + apply (quiet_keeps v _ d _ d1 p); [exact Hs|reflexivity| |apply rolled_back_keeps].
      intros t [-> _]. apply rolled_back_keeps.
    + apply (quiet_keeps v _ d _ _ p); [|reflexivity| |apply not_rolled_back_keeps].
      * intros o. eapply same_trans; [apply Hs|apply audit_same].
      * intros t [-> _]. apply not_rolled_back_keeps.
Qed.

(** Every transition has one of the effects. *)
Lemma radvance_effect v c d :
  (forall o, holds c = Some o -> status_of o d = Some OrderStatusRefunding) -> in_time c d ->
  effect v c d (advance v c d).1 (advance v c d).2.
Proof.
  intros Hst Htime.
  assert (forall p f b d1 d2 r, holds c = Some (p_OrderID p) -> update_one v (p_OrderID p) f d = (b, d1) ->
    (forall o, same o d1 d2) ->
    (forall r, closed (Some (po_Status (ro (f r)))) = true) \/ (forall t, carries c t -> t = 0) ->
    effect v c d (RFinished r) d2) as Hrel.
  { intros p f b d1 d2 r Hc E Ha Hf. eapply release_effect; eauto. }
  destruct c as [oid uid reason|r uid reason|r uid reason|oid amt reason force deduct|p|p|p|p|p|p|p|p e|p|p k|p k
    |p|p|p|p id ok|oid|r|r detail|oid|p resp|p|r];
    try (apply lock_effect || apply request_effect || apply deduct_effect || apply rollback_effect
         || apply gateway_effect || apply days_effect || apply finalize_tx_effect); cbn [radvance].
  - destruct (read _ _); [|by apply quiet_free]. by destruct (validateRefundRequest _ _ _ _); apply quiet_free.
  - destruct (read _ _); [|by apply quiet_free]. by destruct (fltb _ _); apply quiet_free.
  - destruct (read _ _); [|by apply quiet_free]. destruct (prepare_plan _ _ _ _ _ _ _ _ _ _); [|by apply quiet_free].
    by destruct deduct; apply quiet_free.
  - by destruct (if is_subscription_order _ then _ else _); apply quiet_free.
  - destruct (match r_fault v with Fine => _ | _ => _ end).
    + apply (quiet_keeps v _ d _ d p); [done|reflexivity| |apply after_balance_keeps_holds].
      intros t (-> & Hb & _). apply after_balance_keeps; [exact Hb|]. by right.
    + by apply (quiet_keeps v _ d _ d p).
  - destruct (match r_fault v with Fine => _ | _ => _ end).
    + apply (quiet_keeps v _ d _ d p); [done|reflexivity| |reflexivity].
      intros t [-> Hd]. split; [reflexivity|right; split; [reflexivity|]].
      change (is_balance (with_days 0 p)) with (is_balance p).
      destruct (is_balance p) eqn:Eb; [|reflexivity]. apply deduction_types in Eb. congruence.
    + by apply (quiet_keeps v _ d _ d p).
  - destruct (update_one _ _ _ d) as [b d1] eqn:E. eapply (Hrel p); [reflexivity|exact E|done|by right].
  - destruct (update_one _ _ _ d) as [b d1] eqn:E. eapply (Hrel p); [reflexivity|exact E| |by right].
    intros; apply audit_same.
  - destruct (update_one _ _ _ d) as [b d1] eqn:E. eapply (Hrel p); [reflexivity|exact E| |by right].
    intros; apply audit_same.
  - destruct (update_one _ _ _ d) as [b d1] eqn:E.
    destruct b; (eapply (Hrel p); [reflexivity|exact E| |left; intros; apply final_closed]); [|done].
    intros; apply audit_same.
  - destruct (update_one _ _ _ d) as [b d1] eqn:E.
    destruct b; (eapply (Hrel p); [reflexivity|exact E| |by right]); [|done].
    intros; apply audit_same.
  - destruct (read _ _); [|by apply quiet_free]. destruct (_ !=? _); [by apply quiet_free|].
    destruct (getRefundProvider _ _); [|by apply quiet_free]. by destruct (r_queries v); apply quiet_free.
  - by apply quiet_free.
  - destruct (r_failed v); [by apply quiet_free|].
    destruct (validateRefundProviderResponse _); cbn [negb]; [|by apply quiet_free].
    destruct (r_reply v); [|by apply quiet_free]. cbv zeta.
    destruct (negb _); [apply finalize_effect|].
    destruct (is_subscription_order _); [by apply quiet_free|apply finalize_effect].
  - destruct (update_one _ _ _ d) as [b d1] eqn:E. apply update_one_effect in E as (Hl & Ho & Hr).
    destruct Hr as [Hr|(r & Hr & Hs)].
    + apply quiet_finished. intros o. eapply same_trans; [|apply audit_same].
      split; [unfold status_of; by rewrite Hr|by apply ledger_taken].
    + destruct (audit_same v oid "REFUND_FAILED" None d1 oid) as [E1 E2].
      apply (eff_open v _ d _ _ oid); cbn [fst snd]; [reflexivity|exact Htime|by rewrite E1, Hs| |].
      * rewrite E2. by apply ledger_taken.
      * intros o Hne. eapply same_trans; [by apply Ho|apply audit_same].
  - match goal with |- context [match ?x with inl _ => _ | inr _ => _ end] => destruct x end;
      [apply finalize_effect|by apply quiet_free].
  - by apply quiet_finished.
Qed.

(** ** Interleaved calls *)

Record rworld := mkWorld { w_db : rdb; w_calls : gmap nat rpc }.

Definition starts (c : rpc) : bool :=
  match c with RqGet _ _ _ | PrGet _ _ _ _ _ | QfGet _ => true | _ => false end.

(** The rest of the program: orders that no refund has closed may change
    status, users' balances may change. *)
Definition outside (d d' : rdb) : Prop :=
  forall o, taken o d' = taken o d /\
    (status_of o d' = status_of o d \/ closed (status_of o d) = false /\ closed (status_of o d') = false).

Inductive rstep (ok : renv -> rpc -> rdb -> Prop) : rworld -> rworld -> Prop :=
| step_start d cs i c : cs !! i = None -> starts c = true -> rstep ok (mkWorld d cs) (mkWorld d (<[i := c]> cs))
| step_call d cs i c v c' d' :
    cs !! i = Some c -> ok v c d -> advance v c d = (c', d') ->
    rstep ok (mkWorld d cs) (mkWorld d' (<[i := c']> cs))
| step_crash d cs i : rstep ok (mkWorld d cs) (mkWorld d (delete i cs))
| step_outside d d' cs : outside d d' -> rstep ok (mkWorld d cs) (mkWorld d' cs).

Inductive reach (ok : renv -> rpc -> rdb -> Prop) : rworld -> Prop :=
| reach_init d : rd_ledger d = [] -> reach ok (mkWorld d ∅)
| reach_step w w' : reach ok w -> rstep ok w w' -> reach ok w'.

Definition lock_inv (w : rworld) : Prop :=
  (forall i c o, w_calls w !! i = Some c -> holds c = Some o -> status_of o (w_db w) = Some OrderStatusRefunding) /\
  (forall i j c c' o, w_calls w !! i = Some c -> w_calls w !! j = Some c' ->
     holds c = Some o -> holds c' = Some o -> i = j).

Definition order_inv (o : Z) (d : rdb) : Prop :=
  (closed (status_of o d) = false -> net (taken o d) = 0) /\ once (taken o d).

Definition money_inv (w : rworld) : Prop :=
  (forall o, order_inv o (w_db w)) /\
  (forall i c o, w_calls w !! i = Some c -> holds c = Some o -> carries c (net (taken o (w_db w)))).

Lemma starts_free c : starts c = true -> holds c = None.
Proof. by destruct c. Qed.

(** A transition only comes to hold an order that is open, and leaves the
    orders that others hold alone. *)
Lemma effect_lock v c d c' d' :
  effect v c d c' d' -> (forall o, holds c = Some o -> status_of o d = Some OrderStatusRefunding) ->
  (forall o, holds c' = Some o -> status_of o d' = Some OrderStatusRefunding /\
     (holds c = Some o \/ closed (status_of o d) = false)) /\
  (forall o, status_of o d = Some OrderStatusRefunding -> holds c <> Some o -> same o d d').
Proof.
  intros H Hst. assert (forall o o', closed (status_of o d) = false -> others o d d' ->
    status_of o' d = Some OrderStatusRefunding -> same o' d d') as Hoth.
  { intros o o' Hc Ho Hs. apply Ho. intros ->. by rewrite Hs in Hc. }
  destruct H as [Hs Hk|o Hn Hc Hc' Ht Ho|o Hc Hs Ht Ho Hn|o s Hc Hn Hs Hc' Ht Ho|o Hc Hc' Hs Ho _|o Hc Hn Ht Ho _].
  - split; [|by auto]. intros o Ho. destruct (Hk o Ho) as [Hc _]. destruct (Hs o) as [-> _]. auto.
  - split; [by rewrite Hn|eauto].
  - split; [|eauto]. intros o' Ho'. destruct Hn as [Hn|[Hn _]]; rewrite Hn in Ho'; [done|].
    injection Ho' as <-. auto.
  - split; [by rewrite Hn|eauto].
  - split.
    + intros o' Ho'. rewrite Hc' in Ho'. injection Ho' as <-. rewrite Hs. auto.
    + intros o' _ Hne. apply Ho. congruence.
  - split; [by rewrite Hn|]. intros o' _ Hne. apply Ho. congruence.
Qed.

(** A transition keeps the account of an order right, its own included. *)
Lemma effect_money v c d c' d' :
  effect v c d c' d' -> money_safe v c d ->
  (forall o, holds c = Some o -> status_of o d = Some OrderStatusRefunding) ->
  (forall o, holds c = Some o -> carries c (net (taken o d))) -> (forall o, order_inv o d) ->
  (forall o, holds c' = Some o -> carries c' (net (taken o d'))) /\ (forall o, order_inv o d').
Proof.
  intros H Hm Hst Hk Hi.
  assert (forall o, same o d d' -> order_inv o d') as Hsame.
  { intros o [E1 E2]. unfold order_inv. rewrite E1, E2. apply Hi. }
  assert (forall o, others o d d' -> order_inv o d' -> forall o', order_inv o' d') as Hrest.
  { intros o Ho Hio o'. destruct (decide (o' = o)) as [->|Hne]; [exact Hio|by apply Hsame, Ho]. }
  destruct H as [Hs Hq|o Hn Hc Hc' Ht Ho|o Hc Hs Ht Ho Hn|o s Hc Hn Hs Hc' Ht Ho|o Hc Hc' Hs Ho Hmoney|o Hc Hn Ht Ho Hfin].
  - split; [|by auto]. intros o Ho. destruct (Hq o Ho) as [Hc Hq']. destruct (Hs o) as [_ ->]. auto.
  - split; [by rewrite Hn|]. apply (Hrest o); [exact Ho|]. unfold order_inv. rewrite Ht.
    split; [intros _; by apply Hi|apply Hi].
  - split.
    + intros o' Ho'. destruct Hn as [Hn|[Hn Hc']]; rewrite Hn in Ho'; [done|]. injection Ho' as <-.
      rewrite Ht. by rewrite (proj1 (Hi o) Hc).
    + apply (Hrest o); [exact Ho|]. unfold order_inv. rewrite Ht, Hs. split; [done|apply Hi].
  - split; [by rewrite Hn|]. apply (Hrest o); [exact Ho|]. split; [by rewrite Hs, Hc'|].
    destruct Ht as [->|(u & x & ->)]; [apply Hi|]. right. exists o, u, x, (taken o d). split; [reflexivity|].
    by apply Hi.
  - destruct (Hmoney Hm (Hk o Hc)) as [Hc2 Hn]. split.
    + intros o' Ho'. rewrite Hc' in Ho'. by injection Ho' as <-.
    + apply (Hrest o); [exact Ho|]. destruct Hn as [Hn|[Hn (u & x & Ht)]].
      * split; [by intros _|by left].
      * split; [|right; by exists o, u, x, (taken o d)]. by rewrite Hs, (Hst o Hc).
  - split; [by rewrite Hn|]. apply (Hrest o); [exact Ho|]. unfold order_inv. rewrite Ht. split; [|apply Hi].
    intros Hcl. destruct Hfin as [Hfin|Hfin]; [congruence|]. by apply Hfin, Hk.
Qed.

Lemma step_lock (ok : renv -> rpc -> rdb -> Prop) w w' :
  (forall v c d, ok v c d -> in_time c d) -> lock_inv w -> rstep ok w w' -> lock_inv w'.
Proof.
  intros Hok [Hst Huq] H. destruct H as [d cs i c Hn Hs|d cs i c v c' d' Hc Hv Ha|d cs i|d d' cs Ho];
    cbn [w_db w_calls] in *.
  - apply starts_free in Hs. split; cbn [w_db w_calls].
    + intros j x o [[-> <-]|[_ Hj]]%lookup_insert_Some Hx; [congruence|eauto].
    + intros j k x y o [[-> <-]|[_ Hj]]%lookup_insert_Some [[-> <-]|[_ Hk]]%lookup_insert_Some; try congruence; eauto.
  - pose proof (radvance_effect v c d (fun o => Hst i c o Hc) (Hok v c d Hv)) as He. rewrite Ha in He. cbn [fst snd] in He.
    apply effect_lock in He as [Hnew Hkeep]; [|by intros o; apply (Hst i)]. split; cbn [w_db w_calls].
    + intros j x o [[-> <-]|[Hne Hj]]%lookup_insert_Some Hx; [by apply Hnew|].
      assert (holds c <> Some o) as Hno by (intros E; apply Hne; by eapply Huq).
      by destruct (Hkeep o (Hst j x o Hj Hx) Hno) as [-> _]; apply (Hst j x).
    + assert (forall k y o, i <> k -> cs !! k = Some y -> holds y = Some o -> holds c' = Some o -> False) as Hx.
      { intros k y o Hne Hk Hy Hc'. destruct (Hnew o Hc') as [_ [E|E]].
        - apply Hne. by eapply Huq.
        - by rewrite (Hst k y o Hk Hy) in E. }
      intros j k x y o [[-> <-]|[Hne Hj]]%lookup_insert_Some [[-> <-]|[Hne' Hk]]%lookup_insert_Some Hjo Hko;
        try reflexivity; [exfalso; eauto..|eauto].
  - split; cbn [w_db w_calls].
    + intros j x o [_ Hj]%lookup_delete_Some. eauto.
    + intros j k x y o [_ Hj]%lookup_delete_Some [_ Hk]%lookup_delete_Some. eauto.
  - split; cbn [w_db w_calls]; [|eauto]. intros j x o Hj Hx. specialize (Hst j x o Hj Hx).
    destruct (Ho o) as [_ [->|[E _]]]; [exact Hst|by rewrite Hst in E].
Qed.

Lemma step_money (ok : renv -> rpc -> rdb -> Prop) w w' :
  (forall v c d, ok v c d -> in_time c d /\ money_safe v c d) -> lock_inv w -> money_inv w -> rstep ok w w' ->
  money_inv w'.
Proof.
  intros Hok [Hst Huq] [Hi Hc] H. destruct H as [d cs i c Hn Hs|d cs i c v c' d' Hci Hv Ha|d cs i|d d' cs Ho];
    cbn [w_db w_calls] in *.
  - apply starts_free in Hs. split; cbn [w_db w_calls]; [exact Hi|].
    intros j x o [[-> <-]|[_ Hj]]%lookup_insert_Some Hx; [congruence|eauto].
  - destruct (Hok v c d Hv) as [Ht Hm].
    pose proof (radvance_effect v c d (fun o => Hst i c o Hci) Ht) as He. rewrite Ha in He. cbn [fst snd] in He.
    destruct (effect_lock _ _ _ _ _ He (fun o => Hst i c o Hci)) as [_ Hkeep].
    destruct (effect_money _ _ _ _ _ He Hm (fun o => Hst i c o Hci) (fun o => Hc i c o Hci) Hi) as [Hc' Hi'].
    split; cbn [w_db w_calls]; [exact Hi'|].
    intros j x o [[-> <-]|[Hne Hj]]%lookup_insert_Some Hx; [by apply Hc'|].
    assert (holds c <> Some o) as Hno by (intros E; apply Hne; by eapply Huq).
    destruct (Hkeep o (Hst j x o Hj Hx) Hno) as [_ ->]. eauto.
  - split; cbn [w_db w_calls]; [exact Hi|]. intros j x o [_ Hj]%lookup_delete_Some. eauto.
  - split; cbn [w_db w_calls].
    + intros o. destruct (Ho o) as [E1 E2]. unfold order_inv. rewrite E1. destruct (Hi o) as [H1 H2].
      split; [|exact H2]. destruct E2 as [->|[E _]]; [exact H1|by intros _; apply H1].
    + intros j x o Hj Hx. destruct (Ho o) as [-> _]. eauto.
Qed.

Lemma reach_lock (ok : renv -> rpc -> rdb -> Prop) w :
  (forall v c d, ok v c d -> in_time c d) -> reach ok w -> lock_inv w.
Proof.
  intros Hok H. induction H as [d Hl|w w' _ IH Hs]; [|by eapply step_lock].
  by split; cbn [w_db w_calls]; intros ? *; rewrite lookup_empty.
Qed.

Lemma reach_money (ok : renv -> rpc -> rdb -> Prop) w :
  (forall v c d, ok v c d -> in_time c d /\ money_safe v c d) -> reach ok w -> money_inv w.
Proof.
  intros Hok H. induction H as [d Hl|w w' Hr IH Hs].
  - split; cbn [w_db w_calls]; [|by intros ? *; rewrite lookup_empty].
    intros o. unfold order_inv, taken. rewrite Hl. split; [done|by left].
  - eapply step_money; [exact Hok| |exact IH|exact Hs]. eapply reach_lock; [|exact Hr]. intros; by apply (Hok v).
Qed.

(** C22: the update to REFUNDING is a lock.  Whatever the interleaving of refund
    calls, faults of statements, crashes and changes by the rest of the
    program, at most one call is between the lock of an order and its last
    update, and the order reads REFUNDING for as long, provided that no
    settlement writes its unconditional REFUND_FAILED on an order that another
    call has taken or closed meanwhile. *)
Theorem refund_lock_exclusive w i j c c' o :
  reach (fun _ => in_time) w ->
  w_calls w !! i = Some c -> w_calls w !! j = Some c' -> holds c = Some o -> holds c' = Some o ->
  i = j /\ status_of o (w_db w) = Some OrderStatusRefunding.
Proof.
  intros H Hi Hj Hc Hc'. apply reach_lock in H as [Hst Huq]; [|auto]. split; [by eapply Huq|by eapply Hst].
Qed.

(** C9: a user pays for the refund of an order at most once.  Under any
    interleaving of refunds, settlements, retries and crashes in which
    rollbacks work, the deduction's reply is not lost, the amounts deducted
    survive their conversion to a float, and no settlement writes its
    unconditional REFUND_FAILED on an order that another call has locked or
    closed meanwhile ([settlement_breaks_lock] is what happens when one does),
    all money taken for an order has been given back, to the unit, while the
    order is open (completed, requested, pending or failed); otherwise at most
    its last deduction is outstanding, nothing having been outstanding before
    it. *)
Theorem refund_deducted_once w o :
  reach (fun v c d => in_time c d /\ money_safe v c d) w ->
  (closed (status_of o (w_db w)) = false -> net (taken o (w_db w)) = 0) /\ once (taken o (w_db w)).
Proof. intros H. apply reach_money in H as [Hi _]; [|auto]. apply Hi. Qed.

(** ** Runs *)

Definition exec (v : renv) (i : nat) (w : rworld) : rworld :=
  match w_calls w !! i with
  | Some c => let '(c', d') := advance v c (w_db w) in mkWorld d' (<[i := c']> (w_calls w))
  | None => w
  end.

Definition call (i : nat) (c : rpc) (w : rworld) : rworld := mkWorld (w_db w) (<[i := c]> (w_calls w)).

Lemma exec_reach ok v i w :
  reach ok w -> (forall c, w_calls w !! i = Some c -> ok v c (w_db w)) -> reach ok (exec v i w).
Proof.
  intros H Hok. unfold exec. destruct (w_calls w !! i) as [c|] eqn:Ec; [|exact H].
  destruct (advance v c (w_db w)) as [c' d'] eqn:Ea. eapply reach_step; [exact H|].
  destruct w as [d cs]. cbn [w_db w_calls] in *. eapply step_call; [exact Ec|by apply Hok|exact Ea].
Qed.

Lemma call_reach ok i c w :
  reach ok w -> w_calls w !! i = None -> starts c = true -> reach ok (call i c w).
Proof.
  intros H Hn Hs. eapply reach_step; [exact H|]. destruct w as [d cs]. by apply step_start.
Qed.

End Safety.

(** ** Concrete runs *)

#[local] Abbreviation ex_exec := (exec ex_round ex_prorate ex_to_float ex_to_column UTC UTC).
#[local] Abbreviation ex_reach := (reach ex_round ex_prorate ex_to_float ex_to_column UTC UTC).

Fixpoint ex_execs (n : nat) (v : renv) (i : nat) (w : rworld) : rworld :=
  match n with O => w | S n => ex_execs n v i (ex_exec v i w) end.

Lemma ex_execs_reach (ok : renv -> rpc -> rdb -> Prop) n v i w :
  ex_reach ok w ->
  (forall k c, (k < n)%nat -> w_calls (ex_execs k v i w) !! i = Some c -> ok v c (w_db (ex_execs k v i w))) ->
  ex_reach ok (ex_execs n v i w).
Proof.
  revert w. induction n as [|n IH]; intros w H Hok; [exact H|]. cbn [ex_execs]. apply IH.
  - apply exec_reach; [exact H|]. intros c Hc. apply (Hok 0%nat c); [lia|exact Hc].
  - intros k c Hk Hc. apply (Hok (S k) c); [lia|exact Hc].
Qed.

(** Two refunds of order 5 are prepared; the first takes the lock and the
    money, the second is refused. *)
Definition ex_prepared_both : rworld :=
  call 1 (PrGet 5 f0 "" false true) (call 0 (PrGet 5 f0 "" false true)
    (mkWorld (ex_db 6000000000 OrderStatusCompleted) ∅)).
Definition ex_locked : rworld :=
  ex_execs 5 (ex_env Fine true "failed") 0 (ex_execs 2 (ex_env Fine true "failed") 1 ex_prepared_both).
Definition ex_refused : rworld := ex_execs 1 (ex_env Fine true "failed") 1 ex_locked.
(** The gateway fails the first one, which gives the money back. *)
Definition ex_given_back : rworld := ex_execs 3 (ex_env Fine true "failed") 0 ex_refused.

Definition ex_ok (v : renv) (c : rpc) (d : rdb) : Prop := in_time c d /\ money_safe ex_to_float ex_to_column v c d.

Lemma reach_weaken (ok ok' : renv -> rpc -> rdb -> Prop) w :
  (forall v c d, ok v c d -> ok' v c d) -> ex_reach ok w -> ex_reach ok' w.
Proof.
  intros Hw H. induction H as [d Hl|w w' _ IH Hs]; [by apply reach_init|].
  eapply reach_step; [exact IH|]. destruct Hs; [by apply step_start|by eapply step_call; eauto|by apply step_crash|].
  by apply step_outside.
Qed.

(** Discharges [ex_ok] at each transition of a run by computing it. *)
Ltac run_ok :=
  let k := fresh in let c := fresh in let Hk := fresh in let Hc := fresh in
  intros k c Hk Hc; repeat (destruct k as [|k]; [|try lia]); try lia;
  vm_compute in Hc; injection Hc as <-; split;
  lazymatch goal with
  | |- money_safe _ _ _ (ExDeduct _) _ =>
      split; [discriminate|]; let w := fresh in let Hw := fresh in intros w Hw; vm_compute in Hw;
      injection Hw as <-; vm_compute; split_and!; first [reflexivity|discriminate]
  | |- money_safe _ _ _ (RbBalance _ _) _ => vm_compute; reflexivity
  | |- _ => exact I
  end.

Lemma ex_locked_reach : ex_reach ex_ok ex_locked.
Proof.
  apply ex_execs_reach; [apply ex_execs_reach|]; [|run_ok..].
  apply call_reach; [apply call_reach; [by apply reach_init|reflexivity..]|reflexivity..].
Qed.

Lemma ex_given_back_reach : ex_reach ex_ok ex_given_back.
Proof. apply ex_execs_reach; [apply ex_execs_reach; [apply ex_locked_reach|]|]; run_ok. Qed.

Lemma refund_lock_exclusive_witness :
  status_of 5 (w_db ex_locked) = Some OrderStatusRefunding /\
  w_calls ex_refused !! 1%nat = Some (RFinished (inr RConflict)).
Proof.
  split; [|vm_compute; reflexivity].
  apply (refund_lock_exclusive ex_round ex_prorate ex_to_float ex_to_column UTC UTC ex_locked 0 0
    (ExGateway ex_plan) (ExGateway ex_plan) 5).
  - eapply reach_weaken; [|exact ex_locked_reach]. intros v c d H. exact (proj1 H).
  - vm_compute. reflexivity.
  - vm_compute. reflexivity.
  - reflexivity.
  - reflexivity.
Defined.

Lemma refund_deducted_once_witness :
  net (taken 5 (w_db ex_given_back)) = 0 /\ length (taken 5 (w_db ex_given_back)) = 2%nat.
Proof.
  split; [|vm_compute; reflexivity].
  apply (refund_deducted_once ex_round ex_prorate ex_to_float ex_to_column UTC UTC ex_given_back 5).
  - exact ex_given_back_reach.
  - vm_compute. reflexivity.
Defined.

(** ** Without the two conditions *)

(** The settlement of the pending order 5 has read a failure but not written it;
    a retry locks the order and takes the money; the write reopens the order,
    and a third call locks it too: two calls hold it, and two refunds are asked
    of the gateway. *)
Definition ex_broken : rworld :=
  let pending := (ex_run 13 (fun _ => ex_env Fine false "pending") (PrGet 5 f0 "" false true)
                    (ex_db 6000000000 OrderStatusCompleted)).2 in
  let settling := ex_execs 3 (ex_env Fine false "failed") 0 (call 0 (QfGet 5) (mkWorld pending ∅)) in
  let retried := ex_execs 5 (ex_env Fine false "success") 1 (call 1 (PrGet 5 f0 "" false true) settling) in
  let reopened := ex_execs 1 (ex_env Fine false "failed") 0 retried in
  ex_execs 5 (ex_env Fine false "success") 2 (call 2 (PrGet 5 f0 "" false true) reopened).

Example settlement_breaks_lock :
  (w_calls ex_broken !! 1%nat ≫= holds) = Some 5 /\ (w_calls ex_broken !! 2%nat ≫= holds) = Some 5 /\
  let w := ex_execs 2 (ex_env Fine false "success") 2 (ex_execs 2 (ex_env Fine false "success") 1 ex_broken) in
  length (rd_gateway (w_db w)) = 3%nat /\ net (taken 5 (w_db w)) = 4000000000.
Proof. vm_compute. split_and!; reflexivity. Qed.
