(* ===== verification/Concurrency.v ===== *)
(** * Concurrency slots, leases and wait queues:
    internal/repository/concurrency_cache.go and
    internal/service/concurrency_service.go

    The state is a Redis server: sorted sets and counters under string keys,
    each key with an optional expiry, and the server's clock in milliseconds.
    The sorted sets are an interface ([SortedSet] with its laws, the documented
    behaviour of the commands); [GSet] below is one implementation of it.  Every
    script of the file is a function on the state, and every operation of the
    cache the sequence of round trips it makes, each of which may fail or have
    its reply lost.  A pipeline counts as one round trip. *)

From S2P Require Import Prelude GoTime.
Local Open Scope Z_scope.

(** ** Sorted sets *)

Class SortedSet (S : Type) := {
  zempty : S;
  zadd : Z -> string -> S -> S;
  zrem : string -> S -> S;
  ztrim : Z -> S -> S;           (** ZREMRANGEBYSCORE -inf .. hi *)
  zscore : string -> S -> option Z;
  zmembers : S -> list string;   (** ZRANGE 0 -1: by increasing score *)
}.

Class SortedSetLaws (S : Type) `{SortedSet S} := {
  zscore_empty m : zscore m zempty = None;
  zscore_zadd s m m' z : zscore m' (zadd s m z) = if m ==? m' then Some s else zscore m' z;
  zscore_zrem m m' z : zscore m' (zrem m z) = if m ==? m' then None else zscore m' z;
  zscore_ztrim hi m z : zscore m (ztrim hi z) =
    match zscore m z with Some s => if s <=? hi then None else Some s | None => None end;
  zmembers_spec m z : m ∈ zmembers z <-> is_Some (zscore m z);
  zmembers_nodup z : NoDup (zmembers z);
  zmembers_sorted z :
    Sorted (fun m m' => default 0 (zscore m z) <= default 0 (zscore m' z)) (zmembers z);
}.

(** The interface as a finite map from members to scores. *)
Definition GSet := gmap string Z.
Definition by_score (p q : string * Z) : Prop := p.2 <= q.2.
#[global] Instance by_score_dec p q : Decision (by_score p q).
Proof. unfold by_score. apply _. Defined.
#[global] Instance by_score_total : Total by_score.
Proof. intros p q. unfold by_score. lia. Qed.

Definition GSet_members (z : GSet) : list string := (merge_sort by_score (map_to_list z)).*1.

#[global] Instance GSet_SortedSet : SortedSet GSet := {
  zempty := ∅;
  zadd s m z := <[m := s]> z;
  zrem m z := delete m z;
  ztrim hi z := filter (fun p => hi < p.2) z;
  zscore m z := z !! m;
  zmembers := GSet_members;
}.

Lemma GSet_members_perm z : GSet_members z ≡ₚ (map_to_list z).*1.
Proof. unfold GSet_members. by rewrite merge_sort_Permutation. Qed.

Lemma GSet_members_sorted (z : GSet) :
  Sorted (fun m m' => default 0 (z !! m) <= default 0 (z !! m')) (GSet_members z).
Proof.
  unfold GSet_members. assert (Forall (fun p => z !! p.1 = Some p.2) (merge_sort by_score (map_to_list z))) as Hall.
  { apply Forall_forall. intros [m s]. rewrite merge_sort_Permutation. cbn. apply elem_of_map_to_list. }
  pose proof (Sorted_merge_sort by_score (map_to_list z)) as Hs. revert Hall.
  induction Hs as [|p l Hs IH Hd]; intros Hall; [constructor|].
  apply Forall_cons in Hall as [Hp Hall]. constructor; [by apply IH|].
  destruct Hd as [|q l' Hle]; [constructor|]. cbn. constructor.
  apply Forall_cons in Hall as [Hq _]. by rewrite Hp, Hq.
Qed.

#[global] Instance GSet_laws : SortedSetLaws GSet.
Proof.
  split; cbn.
  - intros. apply lookup_empty.
  - intros s m m' z. destruct (m ==? m') eqn:E.
    + apply bool_decide_eq_true in E as ->. apply lookup_insert_eq.
    + apply bool_decide_eq_false in E. by apply lookup_insert_ne.
  - intros m m' z. destruct (m ==? m') eqn:E.
    + apply bool_decide_eq_true in E as ->. apply lookup_delete_eq.
    + apply bool_decide_eq_false in E. by apply lookup_delete_ne.
  - intros hi m z. destruct (z !! m) as [s|] eqn:E.
    + destruct (Z.leb_spec s hi).
      * apply map_lookup_filter_None. right. intros s' E'. pose proof (eq_trans (eq_sym E) E') as [= <-]. cbn. lia.
      * apply map_lookup_filter_Some. split; [exact E|cbn; lia].
    + apply map_lookup_filter_None. by left.
  - intros m z. rewrite GSet_members_perm, list_elem_of_fmap. split.
    + intros ([m' s] & -> & Hs%elem_of_map_to_list). by exists s.
    + intros [s Hs]. exists (m, s). split; [reflexivity|by apply elem_of_map_to_list].
  - intros z. rewrite GSet_members_perm. apply NoDup_fst_map_to_list.
  - apply GSet_members_sorted.
Qed.

(** ** Keys *)

Definition accountSlotKeyPrefix := "concurrency:account:".
Definition userSlotKeyPrefix := "concurrency:user:".
Definition apiKeySlotKeyPrefix := "concurrency:api_key:".
Definition liveAccountSlotKeyPrefix := "concurrency:live:account:".
Definition liveUserSlotKeyPrefix := "concurrency:live:user:".
Definition liveAPIKeySlotKeyPrefix := "concurrency:live:api_key:".
Definition openAIWSIngressLeaseKeyPrefix := "concurrency:openai_ws_ingress:api_key:".
Definition openAIWSIngressLeaseTTLSeconds : Z := 60.
Definition liveLeaseTTLSeconds : Z := 60.
Definition waitQueueKeyPrefix := "concurrency:wait:".
Definition accountWaitKeyPrefix := "wait:account:".
Definition defaultSlotTTLMinutes : Z := 15.
Definition accountActiveIndexKey := "concurrency:account:active_index".
Definition userActiveIndexKey := "concurrency:user:active_index".
Definition activeIndexCleanupBatchSize : nat := 1000.
Definition activeIndexPipelineChunkSize : nat := 500.
Definition legacyWaitSweepMarkerKey := "concurrency:startup:legacy_wait_sweep:v1".

Definition accountSlotKey (id : Z) : string := accountSlotKeyPrefix +:+ FormatInt id.
Definition userSlotKey (id : Z) : string := userSlotKeyPrefix +:+ FormatInt id.
Definition apiKeySlotKey (id : Z) : string := apiKeySlotKeyPrefix +:+ FormatInt id.
Definition liveAccountSlotKey (id : Z) : string := liveAccountSlotKeyPrefix +:+ FormatInt id.
Definition liveUserSlotKey (id : Z) : string := liveUserSlotKeyPrefix +:+ FormatInt id.
Definition liveAPIKeySlotKey (id : Z) : string := liveAPIKeySlotKeyPrefix +:+ FormatInt id.
Definition openAIWSIngressLeaseKey (id : Z) : string := openAIWSIngressLeaseKeyPrefix +:+ FormatInt id.
Definition waitQueueKey (id : Z) : string := waitQueueKeyPrefix +:+ FormatInt id.
Definition accountWaitKey (id : Z) : string := accountWaitKeyPrefix +:+ FormatInt id.

(** ** The server *)

Section Redis.
Context {S : Type} `{SortedSet S}.

Record redis := mkRedis {
  r_clock : Z;                                  (** milliseconds *)
  r_sets : gmap string (S * option Z);          (** the set and when its key expires *)
  r_counts : gmap string (Z * option Z);
}.

Definition expired (r : redis) (e : option Z) : bool :=
  match e with Some t => t <=? r_clock r | None => false end.

Definition zset (k : string) (r : redis) : S :=
  match r_sets r !! k with Some (z, e) => if expired r e then zempty else z | None => zempty end.
Definition set_expiry (k : string) (r : redis) : option Z :=
  match r_sets r !! k with Some (z, e) => if expired r e then None else e | None => None end.
Definition set_exists (k : string) (r : redis) : bool :=
  match r_sets r !! k with Some (z, e) => negb (expired r e) | None => false end.

Definition with_sets (m : gmap string (S * option Z)) (r : redis) : redis := mkRedis (r_clock r) m (r_counts r).
Definition with_counts (m : gmap string (Z * option Z)) (r : redis) : redis := mkRedis (r_clock r) (r_sets r) m.

(** A key whose set becomes empty is removed. *)
Definition put_set (k : string) (z : S) (e : option Z) (r : redis) : redis :=
  with_sets (match zmembers z with [] => delete k (r_sets r) | _ => <[k := (z, e)]> (r_sets r) end) r.

Definition TIME (r : redis) : Z := r_clock r / 1000.
Definition ZADD (k : string) (s : Z) (m : string) (r : redis) : redis :=
  put_set k (zadd s m (zset k r)) (set_expiry k r) r.
Definition ZREM (k m : string) (r : redis) : redis := put_set k (zrem m (zset k r)) (set_expiry k r) r.
Definition ZREMRANGEBYSCORE (k : string) (hi : Z) (r : redis) : redis :=
  put_set k (ztrim hi (zset k r)) (set_expiry k r) r.
Definition ZSCORE (k m : string) (r : redis) : option Z := zscore m (zset k r).
Definition ZCARD (k : string) (r : redis) : Z := Z.of_nat (length (zmembers (zset k r))).
Definition DEL_set (k : string) (r : redis) : redis := with_sets (delete k (r_sets r)) r.
Definition EXPIRE (k : string) (secs : Z) (r : redis) : redis :=
  if negb (set_exists k r) then r
  else if secs <=? 0 then DEL_set k r
  else with_sets (<[k := (zset k r, Some (r_clock r + secs * 1000))]> (r_sets r)) r.

Definition GET (k : string) (r : redis) : option Z :=
  match r_counts r !! k with Some (n, e) => if expired r e then None else Some n | None => None end.
Definition count_expiry (k : string) (r : redis) : option Z :=
  match r_counts r !! k with Some (n, e) => if expired r e then None else e | None => None end.
Definition SET_count (k : string) (n : Z) (r : redis) : redis :=
  with_counts (<[k := (n, count_expiry k r)]> (r_counts r)) r.
Definition INCR (k : string) (r : redis) : redis := SET_count k (default 0 (GET k r) + 1) r.
Definition DECR (k : string) (r : redis) : redis := SET_count k (default 0 (GET k r) - 1) r.
Definition DEL_count (k : string) (r : redis) : redis := with_counts (delete k (r_counts r)) r.
Definition EXPIRE_count (k : string) (secs : Z) (r : redis) : redis :=
  match GET k r with
  | None => r
  | Some n => if secs <=? 0 then DEL_count k r
              else with_counts (<[k := (n, Some (r_clock r + secs * 1000))]> (r_counts r)) r
  end.

(** ** The scripts *)

Definition acquireScript (key liveKey : string) (maxConcurrency ttl : Z) (requestID : string) (r : redis)
    : Z * Z * redis :=
  let now := TIME r in
  let r := ZREMRANGEBYSCORE key (now - ttl) r in
  let r := ZREMRANGEBYSCORE liveKey (now - 60) r in
  match ZSCORE key requestID r with
  | Some _ => (1, now, EXPIRE key ttl (ZADD key now requestID r))
  | None => if ZCARD key r + ZCARD liveKey r <? maxConcurrency
            then (1, now, EXPIRE key ttl (ZADD key now requestID r))
            else (0, now, r)
  end.

Definition getCountScript (key liveKey : string) (ttl : Z) (r : redis) : Z * redis :=
  let now := TIME r in
  let r := ZREMRANGEBYSCORE key (now - ttl) r in
  let r := ZREMRANGEBYSCORE liveKey (now - 60) r in
  (ZCARD key r + ZCARD liveKey r, r).

Definition acquireLiveLeaseScript (accountRegular accountLive userRegular userLive apiLive : string)
    (accountMax userMax ttl : Z) (leaseID : string) (replacing : Z) (r : redis) : Z * redis :=
  let now := TIME r in
  let r := ZREMRANGEBYSCORE accountLive (now - ttl) r in
  let r := ZREMRANGEBYSCORE userLive (now - ttl) r in
  let r := ZREMRANGEBYSCORE apiLive (now - ttl) r in
  match ZSCORE accountLive leaseID r with
  | Some _ => (1, r)
  | None =>
      let accountCount := ZCARD accountRegular r + ZCARD accountLive r in
      let userCount := ZCARD userRegular r + ZCARD userLive r in
      let allowance := if replacing =? 1 then 1 else 0 in
      if (0 <? accountMax) && (accountMax + allowance <=? accountCount) then (0, r)
      else if (0 <? userMax) && (userMax + allowance <=? userCount) then (0, r)
      else
        let r := ZADD accountLive now leaseID r in
        let r := ZADD userLive now leaseID r in
        let r := ZADD apiLive now leaseID r in
        (1, EXPIRE apiLive ttl (EXPIRE userLive ttl (EXPIRE accountLive ttl r)))
  end.

(** The first loop over the keys: trims each and stops at the first that
    misses the lease. *)
Fixpoint refresh_check (keys : list string) (expireBefore : Z) (leaseID : string) (r : redis) : bool * redis :=
  match keys with
  | [] => (true, r)
  | k :: keys =>
      let r := ZREMRANGEBYSCORE k expireBefore r in
      match ZSCORE k leaseID r with
      | None => (false, r)
      | Some _ => refresh_check keys expireBefore leaseID r
      end
  end.

Definition refreshLiveLeaseScript (keys : list string) (ttl : Z) (leaseID : string) (r : redis) : Z * redis :=
  let now := TIME r in
  match refresh_check keys (now - ttl) leaseID r with
  | (false, r) => (0, r)
  | (true, r) => (1, foldl (fun r k => EXPIRE k ttl (ZADD k now leaseID r)) r keys)
  end.

Definition trackSlotScript (key : string) (ttl : Z) (requestID : string) (r : redis) : Z * redis :=
  let now := TIME r in
  let r := ZREMRANGEBYSCORE key (now - ttl) r in
  (1, EXPIRE key ttl (ZADD key now requestID r)).

Definition acquireOpenAIWSIngressLeaseScript (key : string) (maxConnections ttl : Z) (leaseID : string) (r : redis)
    : Z * redis :=
  let now := TIME r in
  let r := ZREMRANGEBYSCORE key (now - ttl) r in
  match ZSCORE key leaseID r with
  | Some _ => (1, EXPIRE key ttl (ZADD key now leaseID r))
  | None => if ZCARD key r <? maxConnections then (1, EXPIRE key ttl (ZADD key now leaseID r)) else (0, r)
  end.

Definition refreshOpenAIWSIngressLeaseScript (key : string) (ttl : Z) (leaseID : string) (r : redis) : Z * redis :=
  let now := TIME r in
  let r := ZREMRANGEBYSCORE key (now - ttl) r in
  match ZSCORE key leaseID r with
  | None => (0, r)
  | Some _ => (1, EXPIRE key ttl (ZADD key now leaseID r))
  end.

Definition incrementWaitScript (key : string) (maxWait ttl : Z) (r : redis) : Z * Z * redis :=
  let current := default 0 (GET key r) in
  let now := TIME r in
  if maxWait <=? current then (0, now, r)
  else (1, now, EXPIRE_count key ttl (INCR key r)).

(** The script for accounts has the same text. *)
Definition incrementAccountWaitScript := incrementWaitScript.

Definition decrementWaitScript (key : string) (r : redis) : Z * redis :=
  match GET key r with
  | Some n => if 0 <? n then (1, DECR key r) else (1, r)
  | None => (1, r)
  end.

Definition cleanupExpiredSlotsScript (key : string) (ttl : Z) (r : redis) : Z * redis :=
  let now := TIME r in
  let r := ZREMRANGEBYSCORE key (now - ttl) r in
  if ZCARD key r =? 0 then (1, DEL_set key r) else (1, EXPIRE key ttl r).

Definition startupCleanupSlotScript (key activePrefix : string) (slotTTL : Z) (r : redis) : Z * Z * redis :=
  let dead := base.filter (fun m => HasPrefix m activePrefix = false) (zmembers (zset key r)) in
  let r := foldl (fun r m => ZREM key m r) r dead in
  let remaining := ZCARD key r in
  (Z.of_nat (length dead), remaining, if remaining =? 0 then DEL_set key r else EXPIRE key slotTTL r).

End Redis.

Arguments redis : clear implicits.
