(* ===== verification/ConcurrencyCache.v ===== *)
(** * The cache operations and the concurrency service

    The methods of [concurrencyCache] as the sequences of Redis round trips
    they make, and the service on top of them: unlimited accounts, wait queues
    that fail open, the ingress lease's refresh, and the short-lived cache of
    account loads.  The environment says how much time passes before each round
    trip and whether it fails or loses its reply.  Logging is left out. *)

From S2P Require Import Prelude GoTime Concurrency.
Local Open Scope Z_scope.

Section Cache.
Context {S : Type} `{SortedSet S}.

Record rtenv := mkRt { rt_fault : nat -> fault; rt_wait : nat -> N }.

(** ** Round trips *)

Definition RM (A : Type) : Type := nat -> redis S -> option A * nat * redis S.

Definition rret {A} (a : A) : RM A := fun n r => (Some a, n, r).
Definition rfail {A} : RM A := fun n r => (None, n, r).
Definition rbind {A B} (m : RM A) (k : A -> RM B) : RM B := fun n r =>
  match m n r with
  | (Some a, n', r') => k a n' r'
  | (None, n', r') => (None, n', r')
  end.
(** A failure that is only logged. *)
Definition best_effort (m : RM unit) : RM unit := fun n r => let '(_, n', r') := m n r in (Some tt, n', r').
Definition tryM {A} (m : RM A) : RM (option A) := fun n r => let '(a, n', r') := m n r in (Some a, n', r').

Notation "'let!' x := m 'in' k" := (rbind m (fun x => k))
  (at level 200, x pattern, m at level 100, k at level 200, right associativity).

Variable env : rtenv.

Definition pass (n : nat) (r : redis S) : redis S :=
  mkRedis (r_clock r + Z.of_N (rt_wait env n)) (r_sets r) (r_counts r).

Definition trip {A} (f : redis S -> A * redis S) : RM A := fun n r =>
  let r := pass n r in
  match rt_fault env n with
  | Fine => let '(a, r') := f r in (Some a, Datatypes.S n, r')
  | LostBefore => (None, Datatypes.S n, r)
  | LostAfter => (None, Datatypes.S n, (f r).2)
  end.

Definition silent (f : redis S -> redis S) : redis S -> unit * redis S := fun r => (tt, f r).

(** ** The configuration *)

Record concurrencyCache := mkCache { slotTTLSeconds : Z; waitQueueTTLSeconds : Z }.

Definition NewConcurrencyCache (slotTTLMinutes waitTTL : Z) : concurrencyCache :=
  let slotTTLMinutes := if slotTTLMinutes <=? 0 then defaultSlotTTLMinutes else slotTTLMinutes in
  let waitTTL := if waitTTL <=? 0 then slotTTLMinutes * 60 else waitTTL in
  mkCache (slotTTLMinutes * 60) waitTTL.

Variable c : concurrencyCache.

(** ** The active index *)

Definition redisUnixSeconds : RM Z := trip (fun r => (TIME r, r)).

Definition touchActiveIndexAt (indexKey : string) (id expireAt : Z) : RM unit :=
  if (id <=? 0) || (expireAt <=? 0) then rret tt
  else best_effort (trip (silent (ZADD indexKey expireAt (FormatInt id)))).

Record activeIndexLoad := mkLoad { al_id : Z; al_member : string; slotCount : Z; waitCount : Z }.

Definition activeIndexTTL (slots waits : Z) : Z :=
  let ttl := if 0 <? slots then slotTTLSeconds c else 0 in
  if (0 <? waits) && (ttl <? waitQueueTTLSeconds c) then waitQueueTTLSeconds c else ttl.

(** The pipeline of one id: trim, count, read the wait counter. *)
Definition load_of (id : Z) (member slotKey waitKey : string) (now : Z) (r : redis S) : activeIndexLoad * redis S :=
  let r := ZREMRANGEBYSCORE slotKey (now - slotTTLSeconds c) r in
  let waits := match GET waitKey r with Some v => if 0 <? v then v else 0 | None => 0 end in
  (mkLoad id member (ZCARD slotKey r) waits, r).

Definition readActiveLoadForKey (id : Z) (slotKey waitKey : string) (now : Z) : RM activeIndexLoad :=
  trip (load_of id (FormatInt id) slotKey waitKey now).

Definition idle (l : activeIndexLoad) : bool := (slotCount l =? 0) && (waitCount l <=? 0).

Definition refreshActiveIndex (indexKey : string) (id : Z) (slotKey waitKey : string) : RM unit :=
  if id <=? 0 then rret tt
  else best_effort (
    let! now := redisUnixSeconds in
    let! load := readActiveLoadForKey id slotKey waitKey now in
    if idle load then best_effort (trip (silent (ZREM indexKey (FormatInt id))))
    else
      let ttl := activeIndexTTL (slotCount load) (waitCount load) in
      if ttl <=? 0 then rret tt else touchActiveIndexAt indexKey id (now + ttl)).

Definition refreshAccountActiveIndex (id : Z) : RM unit :=
  refreshActiveIndex accountActiveIndexKey id (accountSlotKey id) (accountWaitKey id).
Definition refreshUserActiveIndex (id : Z) : RM unit :=
  refreshActiveIndex userActiveIndexKey id (userSlotKey id) (waitQueueKey id).

Record slotIndexSpec := mkSpec { indexKey : string; slotKey : Z -> string; waitKey : Z -> string }.
Definition accountSlotIndex := mkSpec accountActiveIndexKey accountSlotKey accountWaitKey.
Definition userSlotIndex := mkSpec userActiveIndexKey userSlotKey waitQueueKey.

(** Members that are positive ids, and the others. *)
Definition index_id (member : string) : option Z :=
  match ParseInt member with
  | Some id => if id <=? 0 then None else Some id
  | None => None
  end.

Definition candidates (members : list string) : list (string * Z) :=
  omap (fun m => pair m <$> index_id m) members.

(** The pipeline of one chunk. *)
Fixpoint loads_of (spec : slotIndexSpec) (chunk : list (string * Z)) (now : Z) (r : redis S)
    : list activeIndexLoad * redis S :=
  match chunk with
  | [] => ([], r)
  | (m, id) :: chunk =>
      let '(l, r) := load_of id m (slotKey spec id) (waitKey spec id) now r in
      let '(ls, r) := loads_of spec chunk now r in (l :: ls, r)
  end.

(** [k] chunks, a round trip each. *)
Fixpoint load_chunks (spec : slotIndexSpec) (k : nat) (cands : list (string * Z)) (now : Z)
    : RM (list activeIndexLoad) :=
  match k with
  | O => rret []
  | Datatypes.S k =>
      let! ls := trip (loads_of spec (take activeIndexPipelineChunkSize cands) now) in
      let! rest := load_chunks spec k (drop activeIndexPipelineChunkSize cands) now in
      rret (ls ++ rest)
  end.

Definition readIndexLoads (spec : slotIndexSpec) (members : list string) (now : Z)
    : RM (list activeIndexLoad * list string) :=
  let cands := candidates members in
  let! loads := load_chunks spec
    ((length cands + (activeIndexPipelineChunkSize - 1)) / activeIndexPipelineChunkSize)%nat cands now in
  rret (loads, base.filter (fun m => index_id m = None) members).

Definition removeActiveIndexMembers (key : string) (members : list string) : RM unit :=
  match members with
  | [] => rret tt
  | _ => best_effort (trip (silent (fun r => foldl (fun r m => ZREM key m r) r members)))
  end.

Definition addActiveIndexMembers (key : string) (zs : list (Z * string)) : RM unit :=
  match zs with
  | [] => rret tt
  | _ => best_effort (trip (silent (fun r => foldl (fun r p => ZADD key p.1 p.2 r) r zs)))
  end.

(** ** Slots *)

Definition acquire_slot (key liveKey idxKey : string) (id maxConcurrency : Z) (requestID : string) : RM bool :=
  let! (result, now) := trip (acquireScript key liveKey maxConcurrency (slotTTLSeconds c) requestID) in
  let! _ := if result =? 1 then touchActiveIndexAt idxKey id (now + slotTTLSeconds c) else rret tt in
  rret (result =? 1).

Definition cache_AcquireAccountSlot (id maxConcurrency : Z) (requestID : string) : RM bool :=
  acquire_slot (accountSlotKey id) (liveAccountSlotKey id) accountActiveIndexKey id maxConcurrency requestID.
Definition cache_AcquireUserSlot (id maxConcurrency : Z) (requestID : string) : RM bool :=
  acquire_slot (userSlotKey id) (liveUserSlotKey id) userActiveIndexKey id maxConcurrency requestID.

Definition ReleaseAccountSlot (id : Z) (requestID : string) : RM unit :=
  let! _ := trip (silent (ZREM (accountSlotKey id) requestID)) in refreshAccountActiveIndex id.
Definition ReleaseUserSlot (id : Z) (requestID : string) : RM unit :=
  let! _ := trip (silent (ZREM (userSlotKey id) requestID)) in refreshUserActiveIndex id.

Definition GetAccountConcurrency (id : Z) : RM Z :=
  trip (getCountScript (accountSlotKey id) (liveAccountSlotKey id) (slotTTLSeconds c)).
Definition GetUserConcurrency (id : Z) : RM Z :=
  trip (getCountScript (userSlotKey id) (liveUserSlotKey id) (slotTTLSeconds c)).

Definition cache_TrackAPIKeySlot (id : Z) (requestID : string) : RM unit :=
  let! _ := trip (trackSlotScript (apiKeySlotKey id) (slotTTLSeconds c) requestID) in rret tt.
Definition ReleaseAPIKeySlot (id : Z) (requestID : string) : RM unit :=
  trip (silent (ZREM (apiKeySlotKey id) requestID)).

(** The batch reads: both sets of every id, trimmed at the time read before. *)
Definition count_pair (key liveKey : string) (now : Z) (r : redis S) : Z * redis S :=
  let r := ZREMRANGEBYSCORE key (now - slotTTLSeconds c) r in
  let r := ZREMRANGEBYSCORE liveKey (now - liveLeaseTTLSeconds) r in
  (ZCARD key r + ZCARD liveKey r, r).

Fixpoint count_batch (keyOf liveOf : Z -> string) (now : Z) (ids : list Z) (acc : gmap Z Z) (r : redis S)
    : gmap Z Z * redis S :=
  match ids with
  | [] => (acc, r)
  | id :: ids =>
      let '(n, r) := count_pair (keyOf id) (liveOf id) now r in
      count_batch keyOf liveOf now ids (<[id := n]> acc) r
  end.

Definition get_counts (keyOf liveOf : Z -> string) (ids : list Z) : RM (gmap Z Z) :=
  match ids with
  | [] => rret ∅
  | _ => let! now := redisUnixSeconds in trip (count_batch keyOf liveOf now ids ∅)
  end.

Definition cache_GetAccountConcurrencyBatch : list Z -> RM (gmap Z Z) := get_counts accountSlotKey liveAccountSlotKey.
Definition cache_GetAPIKeyConcurrencyBatch : list Z -> RM (gmap Z Z) := get_counts apiKeySlotKey liveAPIKeySlotKey.

(** ** Leases *)

Definition cache_AcquireOpenAIWSIngressLease (apiKeyID maxConnections : Z) (leaseID : string) : RM bool :=
  if (apiKeyID <=? 0) || (maxConnections <=? 0) || (leaseID ==? "") then rret false
  else let! result := trip (acquireOpenAIWSIngressLeaseScript (openAIWSIngressLeaseKey apiKeyID)
                              maxConnections openAIWSIngressLeaseTTLSeconds leaseID) in
       rret (result =? 1).

Definition RefreshOpenAIWSIngressLease (apiKeyID : Z) (leaseID : string) : RM bool :=
  if (apiKeyID <=? 0) || (leaseID ==? "") then rret false
  else let! result := trip (refreshOpenAIWSIngressLeaseScript (openAIWSIngressLeaseKey apiKeyID)
                              openAIWSIngressLeaseTTLSeconds leaseID) in
       rret (result =? 1).

Definition ReleaseOpenAIWSIngressLease (apiKeyID : Z) (leaseID : string) : RM unit :=
  if (apiKeyID <=? 0) || (leaseID ==? "") then rret tt
  else trip (silent (ZREM (openAIWSIngressLeaseKey apiKeyID) leaseID)).

Definition AcquireLiveLease (accountID accountMax userID userMax apiKeyID : Z) (leaseID : string)
    (replacingRegularSlots : bool) : RM bool :=
  if (accountID <=? 0) || (userID <=? 0) || (apiKeyID <=? 0) || (leaseID ==? "") then rret false
  else let! result := trip (acquireLiveLeaseScript (accountSlotKey accountID) (liveAccountSlotKey accountID)
                              (userSlotKey userID) (liveUserSlotKey userID) (liveAPIKeySlotKey apiKeyID)
                              accountMax userMax liveLeaseTTLSeconds leaseID
                              (if replacingRegularSlots then 1 else 0)) in
       rret (result =? 1).

Definition RefreshLiveLease (accountID userID apiKeyID : Z) (leaseID : string) : RM bool :=
  if leaseID ==? "" then rret false
  else let! result := trip (refreshLiveLeaseScript
                              [liveAccountSlotKey accountID; liveUserSlotKey userID; liveAPIKeySlotKey apiKeyID]
                              liveLeaseTTLSeconds leaseID) in
       rret (result =? 1).

(** A transactional pipeline. *)
Definition ReleaseLiveLease (accountID userID apiKeyID : Z) (leaseID : string) : RM unit :=
  if leaseID ==? "" then rret tt
  else trip (silent (fun r => ZREM (liveAPIKeySlotKey apiKeyID) leaseID
                                (ZREM (liveUserSlotKey userID) leaseID
                                   (ZREM (liveAccountSlotKey accountID) leaseID r)))).

(** ** Wait queues *)

Definition increment_wait (key idxKey : string) (id maxWait : Z) : RM bool :=
  let! (result, now) := trip (incrementWaitScript key maxWait (waitQueueTTLSeconds c)) in
  let! _ := if result =? 1 then touchActiveIndexAt idxKey id (now + waitQueueTTLSeconds c) else rret tt in
  rret (result =? 1).

Definition cache_IncrementWaitCount (userID maxWait : Z) : RM bool :=
  increment_wait (waitQueueKey userID) userActiveIndexKey userID maxWait.
Definition cache_IncrementAccountWaitCount (accountID maxWait : Z) : RM bool :=
  increment_wait (accountWaitKey accountID) accountActiveIndexKey accountID maxWait.

Definition cache_DecrementWaitCount (userID : Z) : RM unit :=
  let! _ := trip (decrementWaitScript (waitQueueKey userID)) in refreshUserActiveIndex userID.
Definition cache_DecrementAccountWaitCount (accountID : Z) : RM unit :=
  let! _ := trip (decrementWaitScript (accountWaitKey accountID)) in refreshAccountActiveIndex accountID.

Definition cache_GetAccountWaitingCount (accountID : Z) : RM Z :=
  trip (fun r => (default 0 (GET (accountWaitKey accountID) r), r)).

(** ** Loads *)

Record WithConcurrency := mkWith { wc_ID : Z; wc_MaxConcurrency : Z }.
Record LoadInfo := mkInfo { li_ID : Z; CurrentConcurrency : Z; WaitingCount : Z; LoadRate : Z }.

Definition load_info (w : WithConcurrency) (current waiting : Z) : LoadInfo :=
  mkInfo (wc_ID w) current waiting
    (if 0 <? wc_MaxConcurrency w then Z.quot (wrap64 (wrap64 (current + waiting) * 100)) (wc_MaxConcurrency w) else 0).

Fixpoint load_batch (keyOf liveOf waitOf : Z -> string) (now : Z) (ws : list WithConcurrency)
    (acc : gmap Z LoadInfo) (r : redis S) : gmap Z LoadInfo * redis S :=
  match ws with
  | [] => (acc, r)
  | w :: ws =>
      let '(n, r) := count_pair (keyOf (wc_ID w)) (liveOf (wc_ID w)) now r in
      let waiting := default 0 (GET (waitOf (wc_ID w)) r) in
      load_batch keyOf liveOf waitOf now ws (<[wc_ID w := load_info w n waiting]> acc) r
  end.

Definition get_loads (keyOf liveOf waitOf : Z -> string) (ws : list WithConcurrency) : RM (gmap Z LoadInfo) :=
  match ws with
  | [] => rret ∅
  | _ => let! now := redisUnixSeconds in trip (load_batch keyOf liveOf waitOf now ws ∅)
  end.

Definition cache_GetAccountsLoadBatch := get_loads accountSlotKey liveAccountSlotKey accountWaitKey.
Definition cache_GetUsersLoadBatch := get_loads userSlotKey liveUserSlotKey waitQueueKey.

(** ** Cleaning up *)

Definition CleanupExpiredAccountSlots (accountID : Z) : RM unit :=
  let! _ := trip (cleanupExpiredSlotsScript (accountSlotKey accountID) (slotTTLSeconds c)) in
  refreshAccountActiveIndex accountID.

(** ZRANGEBYSCORE -inf .. now LIMIT 0 1000. *)
Definition due_members (key : string) (now : Z) (r : redis S) : list string :=
  take activeIndexCleanupBatchSize
    (base.filter (fun m => default 0 (ZSCORE key m r) <= now) (zmembers (zset key r))).

Definition reconcileExpiredIndexCandidates (spec : slotIndexSpec) : RM unit :=
  let! now := redisUnixSeconds in
  let! members := trip (fun r => (due_members (indexKey spec) now r, r)) in
  let! (loads, staleMembers) := readIndexLoads spec members now in
  let refreshed := (fun l => (now + activeIndexTTL (slotCount l) (waitCount l), al_member l))
                     <$> base.filter (fun l => idle l = false) loads in
  let staleMembers := staleMembers ++ (al_member <$> base.filter (fun l => idle l = true) loads) in
  let! _ := addActiveIndexMembers (indexKey spec) refreshed in
  removeActiveIndexMembers (indexKey spec) staleMembers.

Definition CleanupExpiredAccountSlotKeys : RM unit :=
  let! _ := reconcileExpiredIndexCandidates accountSlotIndex in
  reconcileExpiredIndexCandidates userSlotIndex.

(** The pages that SCAN answers for the two patterns. *)
Variable scan_pages : string -> list (list string).

Fixpoint delete_pages (pages : list (list string)) : RM unit :=
  match pages with
  | [] => rret tt
  | keys :: pages =>
      let! _ := trip (silent id) in
      let! _ := match keys with
                | [] => rret tt
                | _ => trip (silent (fun r => foldl (fun r k => DEL_count k r) r keys))
                end in
      delete_pages pages
  end.

Definition sweepLegacyWaitKeysOnce : RM unit :=
  let! exists_ := trip (fun r => (Z.eqb 1 (default 0 (GET legacyWaitSweepMarkerKey r)), r)) in
  if exists_ then rret tt
  else
    let! _ := delete_pages (scan_pages accountWaitKeyPrefix) in
    let! _ := delete_pages (scan_pages waitQueueKeyPrefix) in
    trip (silent (fun r => with_counts (<[legacyWaitSweepMarkerKey := (1, None)]> (r_counts r)) r)).

Definition allIndexMembers (key : string) : RM (list string) := trip (fun r => (zmembers (zset key r), r)).

(** The loop over the members: those to refresh and those to remove. *)
Fixpoint cleanup_members (spec : slotIndexSpec) (members : list string) (prefix : string) (now : Z)
    (refreshed : list (Z * string)) (stale : list string) : RM (list (Z * string) * list string) :=
  match members with
  | [] => rret (refreshed, stale)
  | m :: members =>
      match index_id m with
      | None => cleanup_members spec members prefix now refreshed (stale ++ [m])
      | Some id =>
          let! (_, remaining) := trip (startupCleanupSlotScript (slotKey spec id) prefix (slotTTLSeconds c)) in
          let! _ := trip (silent (DEL_count (waitKey spec id))) in
          if 0 <? remaining
          then cleanup_members spec members prefix now (refreshed ++ [(now + slotTTLSeconds c, m)]) stale
          else cleanup_members spec members prefix now refreshed (stale ++ [m])
      end
  end.

Definition cleanupStaleProcessSlotsForIndex (spec : slotIndexSpec) (members : list string) (prefix : string) (now : Z)
    : RM unit :=
  let! (refreshed, stale) := cleanup_members spec members prefix now [] [] in
  let! _ := addActiveIndexMembers (indexKey spec) refreshed in
  removeActiveIndexMembers (indexKey spec) stale.

Definition CleanupStaleProcessSlots (activeRequestPrefix : string) : RM unit :=
  if activeRequestPrefix ==? "" then rret tt
  else
    let! _ := sweepLegacyWaitKeysOnce in
    let! now := redisUnixSeconds in
    let! accountMembers := allIndexMembers accountActiveIndexKey in
    let! _ := cleanupStaleProcessSlotsForIndex accountSlotIndex accountMembers activeRequestPrefix now in
    let! userMembers := allIndexMembers userActiveIndexKey in
    cleanupStaleProcessSlotsForIndex userSlotIndex userMembers activeRequestPrefix now.

(** ** The service *)

(** What a caller gets: refused, granted without a slot, or a slot whose
    release removes this request from this key. *)
Inductive AcquireResult :=
| NotAcquired
| Unlimited
| Slot (requestID : string).

Definition service_acquire (cache_acquire : Z -> Z -> string -> RM bool) (id maxConcurrency : Z) (requestID : string)
    : RM AcquireResult :=
  if maxConcurrency <=? 0 then rret Unlimited
  else let! acquired := cache_acquire id maxConcurrency requestID in
       rret (if acquired then Slot requestID else NotAcquired).

Definition AcquireAccountSlot := service_acquire cache_AcquireAccountSlot.
Definition AcquireUserSlot := service_acquire cache_AcquireUserSlot.

(** The release function handed out. *)
Definition ReleaseFunc (release : Z -> string -> RM unit) (id : Z) (res : AcquireResult) : RM unit :=
  match res with
  | Slot requestID => best_effort (release id requestID)
  | _ => rret tt
  end.

(** [TrackAPIKeySlot]: the request tracked, if any. *)
Definition TrackAPIKeySlot (apiKeyID : Z) (requestID : string) : RM (option string) :=
  if apiKeyID <=? 0 then rret None
  else let! ok := tryM (cache_TrackAPIKeySlot apiKeyID requestID) in
       rret (match ok with Some _ => Some requestID | None => None end).

Definition GetAPIKeyConcurrencyBatch (ids : list Z) : RM (gmap Z Z) :=
  let zeroes := list_to_map ((fun id => (id, 0)) <$> ids) : gmap Z Z in
  match ids with
  | [] => rret zeroes
  | _ => let! counts := tryM (cache_GetAPIKeyConcurrencyBatch ids) in
         rret (match counts with
               | None => zeroes
               | Some m => list_to_map ((fun id => (id, default 0 (m !! id))) <$> ids)
               end)
  end.

(** The wait counters fail open. *)
Definition service_increment (increment : Z -> Z -> RM bool) (id maxWait : Z) : RM bool :=
  let! r := tryM (increment id maxWait) in rret (default true r).
Definition IncrementWaitCount := service_increment cache_IncrementWaitCount.
Definition IncrementAccountWaitCount := service_increment cache_IncrementAccountWaitCount.
Definition DecrementWaitCount (userID : Z) : RM unit := best_effort (cache_DecrementWaitCount userID).
Definition DecrementAccountWaitCount (accountID : Z) : RM unit := best_effort (cache_DecrementAccountWaitCount accountID).

Definition defaultExtraWaitSlots : Z := 20.
Definition CalculateMaxWait (userConcurrency : Z) : Z :=
  let userConcurrency := if userConcurrency <=? 0 then 1 else userConcurrency in
  add64 userConcurrency defaultExtraWaitSlots.

(** An ingress lease: a limit that is not positive disables the protection. *)
Inductive ingress := NoLease | Refused | Leased (leaseID : string).

Definition AcquireOpenAIWSIngressLease (apiKeyID maxConnections : Z) (leaseID : string) : RM ingress :=
  if maxConnections <=? 0 then rret NoLease
  else if apiKeyID <=? 0 then rfail
  else let! acquired := cache_AcquireOpenAIWSIngressLease apiKeyID maxConnections leaseID in
       rret (if acquired then Leased leaseID else Refused).

Definition openAIWSIngressLeaseTTL : duration := 60 * second.
Definition openAIWSIngressLeaseRefreshInterval : duration := 20 * second.

(** [refresh]: the new confirmation time and whether the lease is lost, on the
    cache's answer and the clock after it. *)
Definition refresh (lastConfirmedAt now : time) (reply : option bool) : time * bool :=
  match reply with
  | Some true => (now, false)
  | Some false => (lastConfirmedAt, true)
  | None => (lastConfirmedAt, openAIWSIngressLeaseTTL <=? Sub now lastConfirmedAt)
  end.

(** [refreshLoop] over the ticks it gets: the time of each and its answer;
    the time at which the session was cancelled as lost, if it was. *)
Fixpoint refreshLoop (lastConfirmedAt : time) (ticks : list (time * option bool)) : option time :=
  match ticks with
  | [] => None
  | (now, reply) :: ticks =>
      match refresh lastConfirmedAt now reply with
      | (_, true) => Some now
      | (last, false) => refreshLoop last ticks
      end
  end.

(** ** The cache of account loads *)

Definition maxAccountLoadBatchCacheEntries : nat := 256.
Record cachedAccountLoadBatch := mkCached { loadMap : gmap Z LoadInfo; expiresAt : time }.
Abbreviation load_cache := (gmap string cachedAccountLoadBatch).

Definition getCachedAccountLoadBatch (key : string) (now : time) (m : load_cache)
    : option (gmap Z LoadInfo) * load_cache :=
  match m !! key with
  | None => (None, m)
  | Some e => if negb (Before now (expiresAt e)) then (None, delete key m) else (Some (loadMap e), m)
  end.

(** The map's iteration order picks the entry evicted: an argument. *)
Variable first_key : load_cache -> string.

Fixpoint evict (fuel : nat) (m : load_cache) : load_cache :=
  match fuel with
  | O => m
  | Datatypes.S fuel => if (maxAccountLoadBatchCacheEntries <=? size m)%nat then evict fuel (delete (first_key m) m) else m
  end.

Definition storeCachedAccountLoadBatch (key : string) (value : gmap Z LoadInfo) (expires now : time) (m : load_cache)
    : load_cache :=
  let m := if (maxAccountLoadBatchCacheEntries <=? size m)%nat
           then let m := filter (fun p => Before now (expiresAt p.2) = true) m in evict (size m) m
           else m in
  <[key := mkCached value expires]> m.

End Cache.
