(* ===== verification/ConcurrencySafety.v ===== *)
(** * The concurrency limit

    Requests of any number of processes, scripts and pipelines interleaved in
    any order, time passing and keys expiring in between: the slots that are
    held never exceed the limit, and a slot granted is kept until it is
    released or its time to live has passed. *)

From S2P Require Import Prelude GoTime Concurrency ConcurrencyCache.
Local Open Scope Z_scope.

Section Safety.
Context {S : Type} `{SortedSetLaws S}.
Implicit Types r : redis S.

(** ** Scores and expiries after each command *)

Lemma set_expiry_live k r e : set_expiry k r = Some e -> expired r (Some e) = false.
Proof.
  unfold set_expiry. destruct (r_sets r !! k) as [[z e']|]; [|done].
  destruct (expired r e') eqn:E; [done|]. by intros ->.
Qed.

Lemma expired_expiry k r : expired r (set_expiry k r) = false.
Proof. destruct (set_expiry k r) as [e|] eqn:E; [by apply set_expiry_live in E|done]. Qed.

Lemma members_nil m (z : S) : zmembers z = [] -> zscore m z = None.
Proof.
  intros E. destruct (zscore m z) as [s|] eqn:Es; [|done].
  assert (m ∈ zmembers z) as Hm by (apply zmembers_spec; by exists s).
  rewrite E in Hm. by apply elem_of_nil in Hm.
Qed.

Lemma zscore_put k k' m z r :
  zscore m (zset k' (put_set k z (set_expiry k r) r)) = if k ==? k' then zscore m z else ZSCORE k' m r.
Proof.
  unfold ZSCORE, zset, put_set. cbn [r_sets with_sets].
  destruct (k ==? k') eqn:Ek.
  - apply bool_decide_eq_true in Ek as <-. destruct (zmembers z) eqn:Ez.
    + rewrite lookup_delete_eq, zscore_empty. symmetry. by apply members_nil.
    + rewrite lookup_insert_eq. change (expired (with_sets _ r) ?e) with (expired r e). by rewrite expired_expiry.
  - apply bool_decide_eq_false in Ek. destruct (zmembers z); by rewrite ?lookup_delete_ne, ?lookup_insert_ne by done.
Qed.

Lemma ZSCORE_ZADD k s m k' m' r :
  ZSCORE k' m' (ZADD k s m r) = if (k ==? k') && (m ==? m') then Some s else ZSCORE k' m' r.
Proof.
  unfold ZADD. unfold ZSCORE at 1. rewrite zscore_put. destruct (k ==? k') eqn:Ek; cbn [andb]; [|done].
  apply bool_decide_eq_true in Ek as <-. by rewrite zscore_zadd.
Qed.

Lemma ZSCORE_ZREM k m k' m' r :
  ZSCORE k' m' (ZREM k m r) = if (k ==? k') && (m ==? m') then None else ZSCORE k' m' r.
Proof.
  unfold ZREM. unfold ZSCORE at 1. rewrite zscore_put. destruct (k ==? k') eqn:Ek; cbn [andb]; [|done].
  apply bool_decide_eq_true in Ek as <-. by rewrite zscore_zrem.
Qed.

Lemma ZSCORE_trim k hi k' m' r :
  ZSCORE k' m' (ZREMRANGEBYSCORE k hi r) =
  if k ==? k' then match ZSCORE k m' r with Some s => if s <=? hi then None else Some s | None => None end
  else ZSCORE k' m' r.
Proof.
  unfold ZREMRANGEBYSCORE. unfold ZSCORE at 1. rewrite zscore_put. destruct (k ==? k') eqn:Ek; [|done].
  by rewrite zscore_ztrim.
Qed.

Lemma zset_missing k r : set_exists k r = false -> zset k r = zempty.
Proof.
  unfold set_exists, zset. destruct (r_sets r !! k) as [[z e]|]; [|done]. by destruct (expired r e).
Qed.

Lemma ZSCORE_EXPIRE k secs k' m r : 0 < secs -> ZSCORE k' m (EXPIRE k secs r) = ZSCORE k' m r.
Proof.
  intros Hs. unfold EXPIRE. destruct (set_exists k r) eqn:E; [|done]. cbn [negb].
  destruct (Z.leb_spec secs 0); [lia|]. unfold ZSCORE, zset at 1. cbn [r_sets with_sets].
  destruct (k ==? k') eqn:Ek.
  - apply bool_decide_eq_true in Ek as <-. rewrite lookup_insert_eq. unfold expired at 1. cbn [r_clock with_sets].
    destruct (Z.leb_spec (r_clock r + secs * 1000) (r_clock r)); [lia|done].
  - apply bool_decide_eq_false in Ek. by rewrite lookup_insert_ne.
Qed.

Lemma clock_put k z e r : r_clock (put_set k z e r) = r_clock r.
Proof. reflexivity. Qed.
Lemma clock_EXPIRE k secs r : r_clock (EXPIRE k secs r) = r_clock r.
Proof. unfold EXPIRE. destruct (negb _); [done|]. by destruct (_ <=? _). Qed.

(** The expiry after a write: as before, or none. *)
Lemma expiry_put k k' z r e :
  set_expiry k' (put_set k z (set_expiry k r) r) = Some e -> set_expiry k' r = Some e.
Proof.
  unfold put_set. unfold set_expiry at 1. cbn [r_sets with_sets]. destruct (k ==? k') eqn:Ek.
  - apply bool_decide_eq_true in Ek as <-. destruct (zmembers z); [by rewrite lookup_delete_eq|].
    rewrite lookup_insert_eq. change (expired (with_sets _ r) ?e) with (expired r e). by rewrite expired_expiry.
  - apply bool_decide_eq_false in Ek. unfold set_expiry.
    destruct (zmembers z); by rewrite ?lookup_delete_ne, ?lookup_insert_ne by done.
Qed.

Lemma expiry_EXPIRE k secs k' r e :
  0 < secs -> set_expiry k' (EXPIRE k secs r) = Some e ->
  set_expiry k' r = Some e \/ k' = k /\ e = r_clock r + secs * 1000.
Proof.
  intros Hs. unfold EXPIRE. destruct (set_exists k r) eqn:E; [|by left]. cbn [negb].
  destruct (Z.leb_spec secs 0); [lia|]. unfold set_expiry at 1. cbn [r_sets with_sets].
  destruct (k ==? k') eqn:Ek.
  - apply bool_decide_eq_true in Ek as <-. rewrite lookup_insert_eq. unfold expired. cbn [r_clock with_sets].
    destruct (_ <=? _); [done|]. intros [= <-]. by right.
  - apply bool_decide_eq_false in Ek. rewrite lookup_insert_ne by done. by left.
Qed.

(** ** Slots that are alive *)

Definition alive (ttl : Z) (k : string) (r : redis S) : gset string :=
  list_to_set (base.filter (fun m => TIME r - ttl < default 0 (ZSCORE k m r)) (zmembers (zset k r))).

Lemma alive_spec ttl k r m : m ∈ alive ttl k r <-> exists s, ZSCORE k m r = Some s /\ TIME r - ttl < s.
Proof.
  unfold alive. rewrite elem_of_list_to_set, list_elem_of_filter, zmembers_spec. unfold ZSCORE. split.
  - intros [Hs [s E]]. exists s. rewrite E in Hs. done.
  - intros (s & E & Hs). rewrite E. split; [done|by exists s].
Qed.

Lemma alive_card ttl k r : Z.of_nat (size (alive ttl k r)) <= ZCARD k r.
Proof.
  unfold alive, ZCARD. rewrite size_list_to_set by (apply NoDup_filter, zmembers_nodup).
  apply inj_le, length_filter.
Qed.

Lemma alive_mono ttl k r r' :
  TIME r <= TIME r' ->
  (forall m s, ZSCORE k m r' = Some s -> TIME r' - ttl < s -> ZSCORE k m r = Some s) ->
  (size (alive ttl k r') <= size (alive ttl k r))%nat.
Proof.
  intros Ht Hs. apply subseteq_size. intros m. rewrite !alive_spec. intros (s & E & Hlt).
  exists s. split; [by apply Hs|lia].
Qed.

Lemma alive_add ttl k r r' m0 :
  TIME r <= TIME r' ->
  (forall m s, m <> m0 -> ZSCORE k m r' = Some s -> TIME r' - ttl < s -> ZSCORE k m r = Some s) ->
  (size (alive ttl k r') <= Datatypes.S (size (alive ttl k r)))%nat.
Proof.
  intros Ht Hs. transitivity (size ({[m0]} ∪ alive ttl k r)).
  - apply subseteq_size. intros m. rewrite elem_of_union, elem_of_singleton, !alive_spec. intros (s & E & Hlt).
    destruct (decide (m = m0)); [by left|right]. exists s. split; [by apply Hs|lia].
  - rewrite size_union_alt. rewrite size_singleton. enough (size (alive ttl k r ∖ {[m0]}) <= size (alive ttl k r))%nat by lia.
    apply subseteq_size. set_solver.
Qed.

(** Scores are not in the future, and a key does not expire before its
    members do. *)
Definition key_ok (ttl : Z) (k : string) (r : redis S) : Prop :=
  forall m s, ZSCORE k m r = Some s ->
    s <= TIME r /\ forall e, set_expiry k r = Some e -> (s + ttl) * 1000 <= e.

(** ** Transitions of one key *)

(** At the same time or later: no new member, and a new expiry leaves a whole
    time to live. *)
Definition shrinks (ttl : Z) (k : string) (r r' : redis S) : Prop :=
  r_clock r <= r_clock r' /\
  (forall m s, ZSCORE k m r' = Some s -> ZSCORE k m r = Some s) /\
  (forall e, set_expiry k r' = Some e -> set_expiry k r = Some e \/ (TIME r + ttl) * 1000 <= e).

(** At the same time: [m0] has the present score, and the key's expiry, if
    any, is new. *)
Definition added (ttl : Z) (k m0 : string) (r r' : redis S) : Prop :=
  r_clock r' = r_clock r /\
  (forall m s, ZSCORE k m r' = Some s -> ZSCORE k m r = Some s \/ m = m0 /\ s = TIME r) /\
  (forall e, set_expiry k r' = Some e -> (TIME r + ttl) * 1000 <= e).

Lemma TIME_mono r r' : r_clock r <= r_clock r' -> TIME r <= TIME r'.
Proof. apply Z.div_le_mono. lia. Qed.

Lemma TIME_same r r' : r_clock r' = r_clock r -> TIME r' = TIME r.
Proof. unfold TIME. by intros ->. Qed.

Lemma shrinks_refl ttl k r : shrinks ttl k r r.
Proof. split_and!; auto with lia. Qed.

Lemma shrinks_trans ttl k r1 r2 r3 :
  r_clock r2 = r_clock r1 -> shrinks ttl k r1 r2 -> shrinks ttl k r2 r3 -> shrinks ttl k r1 r3.
Proof.
  intros Hc (_ & S1 & E1) (T2 & S2 & E2). pose proof (TIME_same _ _ Hc) as Ht. split_and!; [lia|auto|].
  intros e [He|He]%E2; [by apply E1|right]. by rewrite <- Ht.
Qed.

Lemma shrinks_added ttl k m0 r1 r2 r3 :
  r_clock r2 = r_clock r1 -> shrinks ttl k r1 r2 -> added ttl k m0 r2 r3 -> added ttl k m0 r1 r3.
Proof.
  intros Hc (_ & S1 & E1) (T2 & S2 & E2). pose proof (TIME_same _ _ Hc) as Ht. split_and!; [lia| |].
  - intros m s [Hs|[-> ->]]%S2; [left; auto|right]. by rewrite Ht.
  - intros e He%E2. by rewrite <- Ht.
Qed.

Lemma added_shrinks ttl k m0 r1 r2 r3 :
  r_clock r3 = r_clock r2 -> added ttl k m0 r1 r2 -> shrinks ttl k r2 r3 -> added ttl k m0 r1 r3.
Proof.
  intros Hc (T1 & S1 & E1) (_ & S2 & E2). pose proof (TIME_same _ _ T1) as Ht. split_and!; [lia|auto|].
  intros e [He|He]%E2; [by apply E1|]. by rewrite <- Ht.
Qed.

Lemma clock_TIME r : TIME r * 1000 <= r_clock r.
Proof. unfold TIME. pose proof (Z.mul_div_le (r_clock r) 1000). lia. Qed.

Lemma shrinks_ok ttl k r r' : shrinks ttl k r r' -> key_ok ttl k r -> key_ok ttl k r'.
Proof.
  intros (Hc & Hs & He) Hk m s Hm. pose proof (TIME_mono _ _ Hc) as Ht. destruct (Hk m s (Hs m s Hm)) as [Hle Hx].
  split; [lia|]. intros e [E|E]%He; [by apply Hx|lia].
Qed.

Lemma added_ok ttl k m0 r r' : added ttl k m0 r r' -> key_ok ttl k r -> key_ok ttl k r'.
Proof.
  intros (Hc & Hs & He) Hk m s Hm. pose proof (TIME_same _ _ Hc) as Ht.
  assert (s <= TIME r) by (destruct (Hs m s Hm) as [Ho|[_ ->]]; [by apply (Hk m)|lia]).
  split; [lia|]. intros e E%He. lia.
Qed.

Lemma shrinks_alive ttl k r r' : shrinks ttl k r r' -> (size (alive ttl k r') <= size (alive ttl k r))%nat.
Proof. intros (Hc & Hs & _). apply alive_mono; [by apply TIME_mono|auto]. Qed.

Lemma added_alive ttl k m0 r r' : added ttl k m0 r r' -> (size (alive ttl k r') <= Datatypes.S (size (alive ttl k r)))%nat.
Proof.
  intros (Hc & Hs & _). apply (alive_add ttl k r r' m0); [rewrite (TIME_same _ _ Hc); lia|].
  intros m s Hne [Ho|[? _]]%Hs; [done|congruence].
Qed.

Lemma added_alive_old ttl k m0 r r' :
  m0 ∈ alive ttl k r -> added ttl k m0 r r' -> (size (alive ttl k r') <= size (alive ttl k r))%nat.
Proof.
  intros Hm (Hc & Hs & _). apply subseteq_size. intros m. rewrite !alive_spec, (TIME_same _ _ Hc).
  intros (s & E & Hlt). destruct (Hs m s E) as [Ho|[-> _]]; [by exists s|]. by apply alive_spec in Hm.
Qed.

(** ** What the commands do to a key *)

Lemma shrinks_trim ttl k k' hi r : shrinks ttl k r (ZREMRANGEBYSCORE k' hi r).
Proof.
  split_and!; [apply Z.le_refl| |].
  - intros m s. rewrite ZSCORE_trim. destruct (k' ==? k) eqn:E; [|done]. apply bool_decide_eq_true in E as <-.
    destruct (ZSCORE k' m r); [|done]. by destruct (_ <=? _).
  - intros e He. left. by apply expiry_put in He.
Qed.

Lemma shrinks_ZREM ttl k k' m' r : shrinks ttl k r (ZREM k' m' r).
Proof.
  split_and!; [apply Z.le_refl| |].
  - intros m s. rewrite ZSCORE_ZREM. by destruct (_ && _).
  - intros e He. left. by apply expiry_put in He.
Qed.

Lemma shrinks_EXPIRE ttl k k' secs r : 0 < secs -> (k' = k -> ttl <= secs) -> shrinks ttl k r (EXPIRE k' secs r).
Proof.
  intros Hp Hs. split_and!; [by rewrite clock_EXPIRE| |].
  - intros m s. by rewrite ZSCORE_EXPIRE.
  - intros e [He|[-> ->]]%expiry_EXPIRE; [by left|right|done]. pose proof (clock_TIME r). specialize (Hs eq_refl). lia.
Qed.

Lemma shrinks_DEL ttl k k' r : shrinks ttl k r (DEL_set k' r).
Proof.
  unfold DEL_set, shrinks, ZSCORE, zset, set_expiry. cbn [r_sets r_clock with_sets].
  destruct (decide (k = k')) as [->|Hne].
  - rewrite lookup_delete_eq. split_and!; [lia| |done]. intros m s. by rewrite zscore_empty.
  - rewrite lookup_delete_ne by done. split_and!; [lia|done|]. intros e He. by left.
Qed.

Lemma shrinks_ZADD_other ttl k k' s m r : k <> k' -> shrinks ttl k r (ZADD k' s m r).
Proof.
  intros Hne. split_and!; [apply Z.le_refl| |].
  - intros m' s'. rewrite ZSCORE_ZADD. by rewrite bool_decide_false by done.
  - intros e He. left. by apply expiry_put in He.
Qed.

(** A fresh expiry on a key that has a member. *)
Lemma added_EXPIRE ttl k m0 m r r' :
  0 < ttl -> r_clock r' = r_clock r -> is_Some (ZSCORE k m r') ->
  (forall m s, ZSCORE k m r' = Some s -> ZSCORE k m r = Some s \/ m = m0 /\ s = TIME r) ->
  added ttl k m0 r (EXPIRE k ttl r').
Proof.
  intros Ht Hc [sm Hm] Hs. split_and!; [by rewrite clock_EXPIRE| |].
  - intros m' s. rewrite ZSCORE_EXPIRE by done. apply Hs.
  - intros e He. unfold EXPIRE in He. destruct (set_exists k r') eqn:Ex.
    + cbn [negb] in He. destruct (Z.leb_spec ttl 0); [lia|]. unfold set_expiry in He. cbn [r_sets with_sets] in He.
      rewrite lookup_insert_eq in He. destruct (expired _ _); [done|]. injection He as <-.
      pose proof (clock_TIME r). lia.
    + apply zset_missing in Ex. unfold ZSCORE in Hm. rewrite Ex, zscore_empty in Hm. done.
Qed.

Lemma ZSCORE_ZADD_eq k s m r : ZSCORE k m (ZADD k s m r) = Some s.
Proof. rewrite ZSCORE_ZADD, !bool_decide_true by done. reflexivity. Qed.

Lemma ZADD_scores k m r m' s :
  ZSCORE k m' (ZADD k (TIME r) m r) = Some s -> ZSCORE k m' r = Some s \/ m' = m /\ s = TIME r.
Proof.
  rewrite ZSCORE_ZADD. destruct (k ==? k) eqn:Ek; cbn [andb]; [|by left].
  destruct (m ==? m') eqn:Em; [|by left]. apply bool_decide_eq_true in Em as ->. intros [= <-]. by right.
Qed.

Lemma ZSCORE_ZADD_other k k' s m m' r : k' <> k -> ZSCORE k m' (ZADD k' s m r) = ZSCORE k m' r.
Proof. intros Hne. by rewrite ZSCORE_ZADD, bool_decide_false by done. Qed.

Lemma added_ZADD ttl k m r :
  0 < ttl -> added ttl k m r (EXPIRE k ttl (ZADD k (TIME r) m r)).
Proof.
  intros Ht. apply (added_EXPIRE ttl k m m); [done|reflexivity|rewrite ZSCORE_ZADD_eq; by eexists|].
  intros m' s. apply ZADD_scores.
Qed.

Lemma trim_keeps k k' m hi s r :
  ZSCORE k m r = Some s -> hi < s -> ZSCORE k m (ZREMRANGEBYSCORE k' hi r) = Some s.
Proof.
  intros E Hlt. rewrite ZSCORE_trim. destruct (k' ==? k) eqn:Ek; [|done]. apply bool_decide_eq_true in Ek as ->.
  rewrite E. destruct (Z.leb_spec s hi); [lia|done].
Qed.

(** Commands on other keys, one after the other, from the outside in. *)
Definition quiet (k : string) (r r' : redis S) : Prop :=
  r_clock r' = r_clock r /\ forall t, shrinks t k r r'.

Lemma quiet_refl k r : quiet k r r.
Proof. split; [reflexivity|]. intros; apply shrinks_refl. Qed.
Lemma quiet_trans k r1 r2 r3 : quiet k r1 r2 -> quiet k r2 r3 -> quiet k r1 r3.
Proof. intros [E1 S1] [E2 S2]. split; [congruence|]. intros t. by eapply shrinks_trans. Qed.
Lemma quiet_ZADD k k' s m r r' : k' <> k -> quiet k r r' -> quiet k r (ZADD k' s m r').
Proof.
  intros Hne Hq. eapply quiet_trans; [exact Hq|]. split; [reflexivity|]. intros t.
  apply shrinks_ZADD_other. congruence.
Qed.
Lemma quiet_EXPIRE k k' secs r r' : 0 < secs -> k' <> k -> quiet k r r' -> quiet k r (EXPIRE k' secs r').
Proof.
  intros Hp Hne Hq. eapply quiet_trans; [exact Hq|]. split; [apply clock_EXPIRE|]. intros t.
  apply shrinks_EXPIRE; [done|congruence].
Qed.
Lemma quiet_trim k k' hi r r' : quiet k r r' -> quiet k r (ZREMRANGEBYSCORE k' hi r').
Proof. intros Hq. eapply quiet_trans; [exact Hq|]. split; [reflexivity|]. intros t. apply shrinks_trim. Qed.
Lemma quiet_ZREM k k' m r r' : quiet k r r' -> quiet k r (ZREM k' m r').
Proof. intros Hq. eapply quiet_trans; [exact Hq|]. split; [reflexivity|]. intros t. apply shrinks_ZREM. Qed.

Create HintDb quiet discriminated.
#[local] Hint Resolve quiet_refl quiet_ZADD quiet_EXPIRE quiet_trim quiet_ZREM : quiet.

(** ** Commands *)

Inductive kind := Acct | Usr.
Definition slotK (kd : kind) (id : Z) : string := match kd with Acct => accountSlotKey id | Usr => userSlotKey id end.
Definition liveK (kd : kind) (id : Z) : string := match kd with Acct => liveAccountSlotKey id | Usr => liveUserSlotKey id end.

Lemma slotK_inj kd id kd' id' : slotK kd id = slotK kd' id' -> kd = kd' /\ id = id'.
Proof.
  destruct kd, kd'; cbn [slotK]; intros E; try discriminate E;
    (split; [reflexivity|]); apply (inj (String.append _)) in E; by apply (inj pretty) in E.
Qed.

Lemma liveK_inj kd id kd' id' : liveK kd id = liveK kd' id' -> kd = kd' /\ id = id'.
Proof.
  destruct kd, kd'; cbn [liveK]; intros E; try discriminate E;
    (split; [reflexivity|]); apply (inj (String.append _)) in E; by apply (inj pretty) in E.
Qed.

Lemma slotK_liveK kd id kd' id' : slotK kd id <> liveK kd' id'.
Proof. destruct kd, kd'; discriminate. Qed.
Lemma slotK_api kd id id' : slotK kd id <> liveAPIKeySlotKey id'.
Proof. destruct kd; discriminate. Qed.
Lemma liveK_api kd id id' : liveK kd id <> liveAPIKeySlotKey id'.
Proof. destruct kd; discriminate. Qed.

Variable ttl : Z.
Hypothesis ttl_pos : 0 < ttl.

Inductive command :=
| Tick (ms : N)
| Acquire (kd : kind) (id maxConcurrency : Z) (requestID : string)
| Release (kd : kind) (id : Z) (requestID : string)
| Trim (kd : kind) (id now : Z)
| TrimLive (kd : kind) (id now : Z)
| AcquireLive (accountID accountMax userID userMax apiKeyID : Z) (leaseID : string) (replacing : Z)
| RefreshLive (accountID userID apiKeyID : Z) (leaseID : string)
| ReleaseLive (accountID userID apiKeyID : Z) (leaseID : string)
| Cleanup (kd : kind) (id : Z)
| Startup (kd : kind) (id : Z) (prefix : string)
(** any write of a key that is neither a slot nor a live key of an account or user *)
| Foreign (key : string) (v : option (S * option Z))
| Counters (m : gmap string (Z * option Z)).

Definition liveKeys (a u api : Z) : list string := [liveK Acct a; liveK Usr u; liveAPIKeySlotKey api].

Definition exec (c : command) (r : redis S) : redis S :=
  match c with
  | Tick ms => mkRedis (r_clock r + Z.of_N ms) (r_sets r) (r_counts r)
  | Acquire kd id max req => (acquireScript (slotK kd id) (liveK kd id) max ttl req r).2
  | Release kd id req => ZREM (slotK kd id) req r
  | Trim kd id now => ZREMRANGEBYSCORE (slotK kd id) (now - ttl) r
  | TrimLive kd id now => ZREMRANGEBYSCORE (liveK kd id) (now - 60) r
  | AcquireLive a amax u umax api lease repl =>
      (acquireLiveLeaseScript (slotK Acct a) (liveK Acct a) (slotK Usr u) (liveK Usr u) (liveAPIKeySlotKey api)
         amax umax 60 lease repl r).2
  | RefreshLive a u api lease => (refreshLiveLeaseScript (liveKeys a u api) 60 lease r).2
  | ReleaseLive a u api lease => ZREM (liveAPIKeySlotKey api) lease (ZREM (liveK Usr u) lease (ZREM (liveK Acct a) lease r))
  | Cleanup kd id => (cleanupExpiredSlotsScript (slotK kd id) ttl r).2
  | Startup kd id prefix => (startupCleanupSlotScript (slotK kd id) prefix ttl r).2
  | Foreign key v => with_sets (match v with Some x => <[key := x]> (r_sets r) | None => delete key (r_sets r) end) r
  | Counters m => with_counts m r
  end.

Definition foreign (key : string) : Prop := forall kd id, key <> slotK kd id /\ key <> liveK kd id.

(** What is asked of the commands on one account or user: the limits passed
    are at most [C], and a lease that replaces regular slots may go [extra]
    beyond. *)
Definition allowed (kd : kind) (id C : Z) (extra : nat) (r : redis S) (c : command) : Prop :=
  match c with
  | Acquire kd' id' max _ => kd' = kd -> id' = id -> max <= C
  | AcquireLive a amax u umax _ _ repl =>
      (kd = Acct -> a = id -> 0 < amax <= C /\ (repl = 1 -> extra = 1%nat)) /\
      (kd = Usr -> u = id -> 0 < umax <= C /\ (repl = 1 -> extra = 1%nat))
  | Trim _ _ now | TrimLive _ _ now => now <= TIME r
  | Foreign key _ => foreign key
  | _ => True
  end.

Inductive steps (P : redis S -> command -> Prop) : redis S -> redis S -> Prop :=
| steps_refl r : steps P r r
| steps_cons r c r' : P r c -> steps P (exec c r) r' -> steps P r r'.

Lemma steps_trans P r1 r2 r3 : steps P r1 r2 -> steps P r2 r3 -> steps P r1 r3.
Proof. induction 1; [done|]. intros. eapply steps_cons; eauto. Qed.
Lemma steps_one P r c : P r c -> steps P r (exec c r).
Proof. intros. eapply steps_cons; [eassumption|apply steps_refl]. Qed.
Lemma steps_impl (P Q : redis S -> command -> Prop) r r' :
  (forall r c, P r c -> Q r c) -> steps P r r' -> steps Q r r'.
Proof. intros Hpq. induction 1; [apply steps_refl|]. eapply steps_cons; eauto. Qed.

(** ** Effects *)

Lemma acquire_cases kd id max req r :
  exists r2, r_clock r2 = r_clock r /\ (forall t k, shrinks t k r r2) /\
    (forall m s, ZSCORE (slotK kd id) m r2 = Some s -> TIME r - ttl < s) /\
    (acquireScript (slotK kd id) (liveK kd id) max ttl req r = (0, TIME r, r2) /\
       ZSCORE (slotK kd id) req r2 = None /\ max <= ZCARD (slotK kd id) r2 + ZCARD (liveK kd id) r2 \/
     acquireScript (slotK kd id) (liveK kd id) max ttl req r =
       (1, TIME r, EXPIRE (slotK kd id) ttl (ZADD (slotK kd id) (TIME r2) req r2)) /\
       (is_Some (ZSCORE (slotK kd id) req r2) \/ ZCARD (slotK kd id) r2 + ZCARD (liveK kd id) r2 < max)).
Proof.
  set (r2 := ZREMRANGEBYSCORE (liveK kd id) (TIME r - 60) (ZREMRANGEBYSCORE (slotK kd id) (TIME r - ttl) r)).
  exists r2. split; [reflexivity|]. split; [|split].
  - intros t k. eapply shrinks_trans; [|apply shrinks_trim|apply shrinks_trim]. reflexivity.
  - intros m s. unfold r2. rewrite !ZSCORE_trim. rewrite (bool_decide_false _ (not_eq_sym (slotK_liveK kd id kd id))).
    rewrite bool_decide_true by done. destruct (ZSCORE _ m r); [|done]. destruct (Z.leb_spec z (TIME r - ttl)); [done|].
    by intros [= <-].
  - unfold acquireScript. fold r2. change (TIME r2) with (TIME r).
    destruct (ZSCORE (slotK kd id) req r2); [right; split; [done|left; by eexists]|].
    destruct (Z.ltb_spec (ZCARD (slotK kd id) r2 + ZCARD (liveK kd id) r2) max); [right|left]; auto.
Qed.

Lemma shrinks_set_other t k k' secs s m r :
  0 < secs -> k <> k' -> shrinks t k r (EXPIRE k' secs (ZADD k' s m r)).
Proof.
  intros. eapply shrinks_trans; [|by apply (shrinks_ZADD_other _ _ k' s m)|]; [reflexivity|].
  apply shrinks_EXPIRE; [done|congruence].
Qed.

Lemma shrinks_foldl {A} t k (f : redis S -> A -> redis S) l r :
  (forall a r, r_clock (f r a) = r_clock r /\ shrinks t k r (f r a)) ->
  r_clock (foldl f r l) = r_clock r /\ shrinks t k r (foldl f r l).
Proof.
  intros Hf. revert r. induction l as [|a l IH]; intros r; cbn [foldl]; [split; [done|apply shrinks_refl]|].
  destruct (Hf a r) as [Hc Hs]. destruct (IH (f r a)) as [Hc' Hs']. split; [congruence|].
  by eapply shrinks_trans.
Qed.

Lemma startup_shrinks t k kd id prefix r : (slotK kd id = k -> t <= ttl) -> shrinks t k r (exec (Startup kd id prefix) r).
Proof.
  intros Ht. cbn [exec]. unfold startupCleanupSlotScript. cbn [snd].
  match goal with |- context [foldl ?f ?r ?l] => destruct (shrinks_foldl t k f l r) as [Hc Hs] end.
  { intros m r'. split; [reflexivity|apply shrinks_ZREM]. }
  eapply shrinks_trans; [exact Hc|exact Hs|]. destruct (_ =? _); [apply shrinks_DEL|by apply shrinks_EXPIRE].
Qed.

Lemma cleanup_shrinks t k kd id r : (slotK kd id = k -> t <= ttl) -> shrinks t k r (exec (Cleanup kd id) r).
Proof.
  intros Ht. cbn [exec]. unfold cleanupExpiredSlotsScript. set (r1 := ZREMRANGEBYSCORE _ _ r).
  eapply (shrinks_trans _ _ _ r1); [reflexivity|apply shrinks_trim|].
  destruct (_ =? _); cbn [snd]; [apply shrinks_DEL|by apply shrinks_EXPIRE].
Qed.

Lemma tick_shrinks t k ms r : shrinks t k r (exec (Tick ms) r).
Proof.
  cbn [exec]. set (r' := mkRedis _ _ _). assert (r_clock r <= r_clock r') as Hc by (cbn; lia).
  assert (forall e, expired r' e = false -> expired r e = false) as He.
  { intros [e|]; [|done]. unfold expired. destruct (Z.leb_spec e (r_clock r')), (Z.leb_spec e (r_clock r)); done || lia. }
  split_and!; [exact Hc| |].
  - intros m s. unfold ZSCORE, zset. change (r_sets r') with (r_sets r). destruct (r_sets r !! k) as [[z e]|]; [|done].
    destruct (expired r' e) eqn:E; [by rewrite zscore_empty|]. by rewrite (He e E).
  - intros e. unfold set_expiry. change (r_sets r') with (r_sets r). destruct (r_sets r !! k) as [[z e']|]; [|done].
    destruct (expired r' e') eqn:E; [done|]. rewrite (He e' E). by left.
Qed.

Lemma foreign_shrinks t kd id k key v r : (k = slotK kd id \/ k = liveK kd id) -> foreign key ->
  shrinks t k r (exec (Foreign key v) r).
Proof.
  intros Hk Hf. assert (key <> k) as Hne by (destruct (Hf kd id), Hk as [-> | ->]; done).
  cbn [exec]. unfold shrinks, ZSCORE, zset, set_expiry. cbn [r_sets r_clock with_sets].
  destruct v; rewrite ?lookup_insert_ne, ?lookup_delete_ne by done; (split_and!; [lia|done|by intros; left]).
Qed.

Lemma live_trims t k a u api before r :
  let r2 := ZREMRANGEBYSCORE (liveAPIKeySlotKey api) before
              (ZREMRANGEBYSCORE (liveK Usr u) before (ZREMRANGEBYSCORE (liveK Acct a) before r)) in
  r_clock r2 = r_clock r /\ shrinks t k r r2.
Proof.
  intros r2. split; [reflexivity|]. eapply shrinks_trans; [|apply shrinks_trim|]; [reflexivity|].
  eapply shrinks_trans; [|apply shrinks_trim|apply shrinks_trim]. reflexivity.
Qed.

(** The writes of an acquired live lease. *)
Definition lease_writes (a u api : Z) (now : Z) (lease : string) (r : redis S) : redis S :=
  EXPIRE (liveAPIKeySlotKey api) 60 (EXPIRE (liveK Usr u) 60 (EXPIRE (liveK Acct a) 60
    (ZADD (liveAPIKeySlotKey api) now lease (ZADD (liveK Usr u) now lease (ZADD (liveK Acct a) now lease r))))).

Lemma acquireLive_cases a amax u umax api lease repl r :
  let extra := if repl =? 1 then 1 else 0 in
  let res := acquireLiveLeaseScript (slotK Acct a) (liveK Acct a) (slotK Usr u) (liveK Usr u)
               (liveAPIKeySlotKey api) amax umax 60 lease repl r in
  exists r2, r_clock r2 = r_clock r /\ (forall t k, shrinks t k r r2) /\
    (res.2 = r2 \/
     res.1 = 1 /\ res.2 = lease_writes a u api (TIME r2) lease r2 /\
     (0 < amax -> ZCARD (slotK Acct a) r2 + ZCARD (liveK Acct a) r2 < amax + extra) /\
     (0 < umax -> ZCARD (slotK Usr u) r2 + ZCARD (liveK Usr u) r2 < umax + extra)).
Proof.
  cbv zeta. unfold acquireLiveLeaseScript. set (before := TIME r - 60).
  pose proof (fun t k => live_trims t k a u api before r) as Ht. cbv zeta in Ht.
  set (r2 := ZREMRANGEBYSCORE (liveAPIKeySlotKey api) before _) in *.
  exists r2. split; [reflexivity|]. split; [intros; apply Ht|].
  destruct (ZSCORE (liveK Acct a) lease r2); [by left|].
  destruct (Z.ltb_spec 0 amax), (Z.ltb_spec 0 umax); cbn [andb];
    repeat match goal with |- context [?x <=? ?y] => destruct (Z.leb_spec x y); try (by left) end;
    right; split_and!; try reflexivity; intros; lia.
Qed.

Lemma lease_writes_slot kd id a u api lease r :
  quiet (slotK kd id) r (lease_writes a u api (TIME r) lease r).
Proof.
  pose proof (slotK_liveK kd id) as H1. pose proof (slotK_api kd id api) as H2.
  unfold lease_writes. repeat (apply quiet_EXPIRE; [done|by auto|]).
  repeat (apply quiet_ZADD; [by auto|]). apply quiet_refl.
Qed.

(** The lease is added to the live keys of its account and user; the others
    see nothing. *)
Lemma lease_writes_live kd id a u api lease r :
  let r' := lease_writes a u api (TIME r) lease r in
  quiet (liveK kd id) r r' \/
  (kd = Acct /\ a = id \/ kd = Usr /\ u = id) /\ added 60 (liveK kd id) lease r r'.
Proof.
  cbv zeta. unfold lease_writes. pose proof (liveK_api kd id api) as Hapi.
  assert (liveK Acct a <> liveK Usr u) as Hau by (intros [E _]%liveK_inj; done).
  destruct (decide (liveK Acct a = liveK kd id)) as [E|Ha]; [|destruct (decide (liveK Usr u = liveK kd id)) as [E|Hu]].
  - right. split; [left; apply liveK_inj in E as [<- <-]; done|]. rewrite <- E in *.
    eapply added_shrinks; [| |apply shrinks_EXPIRE; [done|congruence]]; [by rewrite ?clock_EXPIRE|].
    eapply added_shrinks; [| |apply shrinks_EXPIRE; [done|congruence]]; [by rewrite ?clock_EXPIRE|].
    apply (added_EXPIRE 60 (liveK Acct a) lease lease); [done|reflexivity| |].
    + rewrite !ZSCORE_ZADD_other by congruence. rewrite ZSCORE_ZADD_eq. by eexists.
    + intros m s. rewrite !ZSCORE_ZADD_other by congruence. apply ZADD_scores.
  - right. split; [right; apply liveK_inj in E as [<- <-]; done|]. rewrite <- E in *.
    eapply added_shrinks; [| |apply shrinks_EXPIRE; [done|congruence]]; [by rewrite ?clock_EXPIRE|].
    apply (added_EXPIRE 60 (liveK Usr u) lease lease); [done|by rewrite ?clock_EXPIRE| |].
    + rewrite ZSCORE_EXPIRE by done. rewrite ZSCORE_ZADD_other by congruence. rewrite ZSCORE_ZADD_eq. by eexists.
    + intros m s. rewrite ZSCORE_EXPIRE by done. rewrite ZSCORE_ZADD_other by congruence. intros Hs.
      apply (ZADD_scores _ _ (ZADD (liveK Acct a) (TIME r) lease r)) in Hs as [Hs|Hs]; [|by right].
      left. revert Hs. by rewrite ZSCORE_ZADD_other by congruence.
  - left. repeat (apply quiet_EXPIRE; [done|by auto|]). repeat (apply quiet_ZADD; [by auto|]). apply quiet_refl.
Qed.

(** The refresh of a lease: trims, and new scores for a lease that every key
    still has. *)
Lemma refresh_check_spec keys before lease r b r' :
  refresh_check keys before lease r = (b, r') ->
  (forall k, quiet k r r') /\
  (forall k s, ZSCORE k lease r = Some s -> before < s -> ZSCORE k lease r' = Some s) /\
  (b = true -> forall k, k ∈ keys -> exists s, ZSCORE k lease r' = Some s /\ before < s).
Proof.
  revert r. induction keys as [|k0 keys IH]; intros r; cbn [refresh_check].
  - intros [= <- <-]. split_and!; [intros k; apply quiet_refl|done|]. intros _ k Hk. by apply elem_of_nil in Hk.
  - set (r1 := ZREMRANGEBYSCORE k0 before r).
    assert (forall k, quiet k r r1) as Hq by (intros k; apply quiet_trim, quiet_refl).
    assert (forall k s, ZSCORE k lease r = Some s -> before < s -> ZSCORE k lease r1 = Some s) as Hk1
      by (intros; by apply trim_keeps).
    destruct (ZSCORE k0 lease r1) as [s0|] eqn:E0.
    + intros (Hq' & Hk' & Hb)%IH. split_and!.
      * intros k. by eapply quiet_trans.
      * intros k s Hs Hlt. by apply Hk'; [apply Hk1|].
      * intros Hbt k [->|Hk]%elem_of_cons; [|by apply Hb]. exists s0.
        assert (before < s0) as Hlt; [|split; [by apply Hk'|done]].
        unfold r1 in E0. rewrite ZSCORE_trim, bool_decide_true in E0 by done.
        destruct (ZSCORE k0 lease r) as [s1|]; [|done]. destruct (Z.leb_spec s1 before); [done|].
        by injection E0 as <-.
    + intros [= <- <-]. split_and!; [exact Hq|exact Hk1|done].
Qed.

Definition slot_write (k : string) (m : string) (r : redis S) : redis S := EXPIRE k 60 (ZADD k (TIME r) m r).

Lemma slot_write_clock k m r : r_clock (slot_write k m r) = r_clock r.
Proof. unfold slot_write. by rewrite clock_EXPIRE. Qed.

Lemma slot_write_quiet k k' m r r' : k' <> k -> quiet k r r' -> quiet k r (slot_write k' m r').
Proof. intros Hne Hq. unfold slot_write. apply quiet_EXPIRE; [lia|exact Hne|]. by apply quiet_ZADD. Qed.

Lemma added_quiet t k m r1 r2 r3 : added t k m r1 r2 -> quiet k r2 r3 -> added t k m r1 r3.
Proof. intros Ha [Hc Hs]. eapply added_shrinks; [exact Hc|exact Ha|apply Hs]. Qed.
Lemma quiet_added t k m r1 r2 r3 : quiet k r1 r2 -> added t k m r2 r3 -> added t k m r1 r3.
Proof. intros [Hc Hs] Ha. eapply shrinks_added; [exact Hc|apply Hs|exact Ha]. Qed.

Lemma refresh_effect a u api lease r :
  let r' := exec (RefreshLive a u api lease) r in
  (forall kd id, quiet (slotK kd id) r r') /\
  forall kd id, quiet (liveK kd id) r r' \/
    exists r2, quiet (liveK kd id) r r2 /\ added 60 (liveK kd id) lease r2 r' /\ lease ∈ alive 60 (liveK kd id) r2.
Proof.
  cbn [exec]. unfold refreshLiveLeaseScript. destruct (refresh_check _ _ _ r) as [b r2] eqn:E.
  apply refresh_check_spec in E as (Hq & _ & Hb). destruct b; cbn [snd]; [|split; [auto|by left; auto]].
  assert (TIME r = TIME r2) as -> by (symmetry; apply TIME_same, (Hq "")).
  cbn [liveKeys foldl]. fold (slot_write (liveK Acct a) lease r2). set (r3 := slot_write (liveK Acct a) lease r2).
  replace (TIME r2) with (TIME r3) by (apply TIME_same, slot_write_clock).
  fold (slot_write (liveK Usr u) lease r3). set (r4 := slot_write (liveK Usr u) lease r3).
  replace (TIME r3) with (TIME r4) by (apply TIME_same, slot_write_clock).
  fold (slot_write (liveAPIKeySlotKey api) lease r4).
  assert (liveK Acct a <> liveK Usr u) as Hau by (intros [Ex _]%liveK_inj; done).
  split.
  - intros kd id. pose proof (slotK_liveK kd id) as H1. pose proof (slotK_api kd id api) as H2.
    apply slot_write_quiet; [exact (not_eq_sym H2)|]. apply slot_write_quiet; [exact (not_eq_sym (H1 Usr u))|].
    apply slot_write_quiet; [exact (not_eq_sym (H1 Acct a))|apply Hq].
  - intros kd id. pose proof (liveK_api kd id api) as Hapi.
    assert (forall k, k ∈ liveKeys a u api -> lease ∈ alive 60 k r2) as Hal.
    { intros k Hk. destruct (Hb eq_refl k Hk) as (s & Es & Hlt). apply alive_spec. exists s.
      rewrite (TIME_same r r2) by apply (Hq ""). auto. }
    destruct (decide (liveK Acct a = liveK kd id)) as [Ea|Ha]; [|destruct (decide (liveK Usr u = liveK kd id)) as [Eu|Hu]].
    + right. exists r2. rewrite <- Ea in *. split_and!; [apply Hq| |apply Hal; left].
      eapply added_quiet; [|apply slot_write_quiet; [exact (not_eq_sym Hapi)|apply quiet_refl]].
      eapply added_quiet; [|apply slot_write_quiet; [exact (not_eq_sym Hau)|apply quiet_refl]].
      apply added_ZADD. lia.
    + right. exists r2. rewrite <- Eu in *. split_and!; [apply Hq| |apply Hal; right; left].
      eapply added_quiet; [|apply slot_write_quiet; [exact (not_eq_sym Hapi)|apply quiet_refl]].
      eapply quiet_added; [apply slot_write_quiet; [exact Hau|apply quiet_refl]|apply added_ZADD; lia].
    + left. apply slot_write_quiet; [exact (not_eq_sym Hapi)|]. apply slot_write_quiet; [exact Hu|].
      apply slot_write_quiet; [exact Ha|apply Hq].
Qed.

(** ** The limit *)

Section Limit.
Variables (kd : kind) (id C : Z) (extra : nat).
Hypothesis C_pos : 0 <= C.
#[local] Abbreviation K := (slotK kd id).
#[local] Abbreviation L := (liveK kd id).

Definition busy (r : redis S) : nat := (size (alive ttl K r) + size (alive 60 L r))%nat.

Definition within (r : redis S) : Prop :=
  key_ok ttl K r /\ key_ok 60 L r /\ Z.of_nat (busy r) <= C + Z.of_nat extra.

Lemma within_shrinks r r' : shrinks ttl K r r' -> shrinks 60 L r r' -> within r -> within r'.
Proof.
  intros H1 H2 (W1 & W2 & W3). split_and!; [by eapply shrinks_ok|by eapply shrinks_ok|].
  pose proof (shrinks_alive _ _ _ _ H1). pose proof (shrinks_alive _ _ _ _ H2). unfold busy in *. lia.
Qed.

Lemma within_quiet r r' : quiet K r r' -> quiet L r r' -> within r -> within r'.
Proof. intros [_ H1] [_ H2]. by apply within_shrinks. Qed.

Lemma busy_card r : Z.of_nat (busy r) <= ZCARD K r + ZCARD L r.
Proof. unfold busy. pose proof (alive_card ttl K r). pose proof (alive_card 60 L r). lia. Qed.

Lemma acquire_within kd' id' max req r :
  allowed kd id C extra r (Acquire kd' id' max req) -> within r -> within (exec (Acquire kd' id' max req) r).
Proof.
  cbn [allowed exec]. intros Hal W.
  destruct (acquire_cases kd' id' max req r) as (r2 & Hc & Hs & Hfresh & Hcase).
  assert (within r2) as W2 by (by eapply within_shrinks).
  destruct Hcase as [[-> _]|[-> Hroom]]; cbn [snd]; [exact W2|].
  destruct (decide (slotK kd' id' = K)) as [E|Hne].
  - apply slotK_inj in E as [-> ->]. specialize (Hal eq_refl eq_refl).
    set (r3 := EXPIRE _ _ _). assert (added ttl K req r2 r3) as Ha by (by apply added_ZADD).
    assert (shrinks 60 L r2 r3) as Hl by (apply shrinks_set_other; [done|apply not_eq_sym, slotK_liveK]).
    destruct W2 as (W1 & W2 & W3). split_and!; [by eapply added_ok|by eapply shrinks_ok|].
    pose proof (shrinks_alive _ _ _ _ Hl). unfold busy in *. destruct Hroom as [[s Es]|Hroom].
    + assert (req ∈ alive ttl K r2) as Hm.
      { apply alive_spec. exists s. split; [done|]. rewrite (TIME_same _ _ Hc). by eapply Hfresh. }
      pose proof (added_alive_old _ _ _ _ _ Hm Ha). lia.
    + pose proof (added_alive _ _ _ _ _ Ha). pose proof (busy_card r2). unfold busy in *. lia.
  - eapply within_shrinks; [|apply shrinks_set_other; [done|apply not_eq_sym, slotK_liveK]|exact W2].
    apply shrinks_set_other; [done|congruence].
Qed.

Lemma live_within a amax u umax api lease repl r :
  allowed kd id C extra r (AcquireLive a amax u umax api lease repl) -> within r ->
  within (exec (AcquireLive a amax u umax api lease repl) r).
Proof.
  cbn [allowed exec]. intros [Hal Hau] W.
  destruct (acquireLive_cases a amax u umax api lease repl r) as (r2 & Hc & Hs & Hcase).
  assert (within r2) as W2 by (by eapply within_shrinks).
  destruct Hcase as [->|(_ & -> & Hma & Hmu)]; [exact W2|].
  pose proof (lease_writes_slot kd id a u api lease r2) as Hslot.
  destruct (lease_writes_live kd id a u api lease r2) as [Hq|[Hwho Ha]]; [by eapply within_quiet|].
  destruct W2 as (W1 & W2 & W3). split_and!; [by eapply shrinks_ok; [apply Hslot|]|by eapply added_ok|].
  pose proof (shrinks_alive _ _ _ _ (proj2 Hslot ttl)). pose proof (added_alive _ _ _ _ _ Ha).
  assert (ZCARD K r2 + ZCARD L r2 < C + Z.of_nat extra) as Hroom.
  { destruct Hwho as [[-> ->]|[-> ->]].
    - destruct (Hal eq_refl eq_refl) as [Hm Hr]. specialize (Hma (proj1 Hm)). cbn [slotK liveK] in *.
      destruct (Z.eqb_spec repl 1) as [E|_]; [specialize (Hr E); lia|lia].
    - destruct (Hau eq_refl eq_refl) as [Hm Hr]. specialize (Hmu (proj1 Hm)). cbn [slotK liveK] in *.
      destruct (Z.eqb_spec repl 1) as [E|_]; [specialize (Hr E); lia|lia]. }
  pose proof (busy_card r2). unfold busy in *. lia.
Qed.

Lemma exec_within r c : allowed kd id C extra r c -> within r -> within (exec c r).
Proof.
  intros Hal W. destruct c as [ms|kd' id' max req|kd' id' req|kd' id' now|kd' id' now|a amax u umax api lease repl
    |a u api lease|a u api lease|kd' id'|kd' id' prefix|key v|m].
  - eapply within_shrinks; [apply tick_shrinks..|exact W].
  - by apply acquire_within.
  - by eapply within_quiet; [apply quiet_ZREM, quiet_refl..|].
  - by eapply within_quiet; [apply quiet_trim, quiet_refl..|].
  - by eapply within_quiet; [apply quiet_trim, quiet_refl..|].
  - by apply live_within.
  - destruct (refresh_effect a u api lease r) as [Hs Hl].
    destruct (Hl kd id) as [Hq|(r2 & Hq & Ha & Hm)]; [by eapply within_quiet|].
    destruct W as (W1 & W2 & W3). split_and!; [by eapply shrinks_ok; [apply Hs|]|
      by eapply added_ok; [exact Ha|eapply shrinks_ok; [apply Hq|]]|].
    pose proof (shrinks_alive _ _ _ _ (proj2 (Hs kd id) ttl)). pose proof (shrinks_alive _ _ _ _ (proj2 Hq 60)).
    pose proof (added_alive_old _ _ _ _ _ Hm Ha). unfold busy in *. lia.
  - by eapply within_quiet; [repeat apply quiet_ZREM; apply quiet_refl..|].
  - eapply within_shrinks; [by apply cleanup_shrinks| |exact W]. apply cleanup_shrinks.
    intros E. by apply slotK_liveK in E.
  - eapply within_shrinks; [by apply startup_shrinks| |exact W]. apply startup_shrinks.
    intros E. by apply slotK_liveK in E.
  - eapply within_shrinks; [apply (foreign_shrinks _ kd id); [by left|exact Hal]|
      apply (foreign_shrinks _ kd id); [by right|exact Hal]|exact W].
  - exact W.
Qed.

(** ** A slot granted is kept *)

Definition spares (req : string) (c : command) : Prop :=
  match c with
  | Release kd' id' req' => kd' = kd -> id' = id -> req' <> req
  | Startup kd' id' prefix => kd' = kd -> id' = id -> HasPrefix req prefix = true
  | _ => True
  end.

Definition keeps_slot (req : string) (r r' : redis S) : Prop :=
  forall s, ZSCORE K req r = Some s -> TIME r' - ttl < s -> exists s', s <= s' /\ ZSCORE K req r' = Some s'.

Lemma keeps_same req r r' : ZSCORE K req r' = ZSCORE K req r -> keeps_slot req r r'.
Proof. intros E s Hs _. exists s. rewrite E. split; [lia|exact Hs]. Qed.

Lemma slot_cases kd' id' : (kd' = kd /\ id' = id) \/ slotK kd' id' <> K.
Proof.
  destruct (decide (slotK kd' id' = K)) as [E|Hne]; [left; by apply slotK_inj in E|by right].
Qed.

Lemma ZSCORE_trim_other k k' hi m r : k' <> k -> ZSCORE k m (ZREMRANGEBYSCORE k' hi r) = ZSCORE k m r.
Proof. intros Hne. by rewrite ZSCORE_trim, bool_decide_false by exact Hne. Qed.
Lemma ZSCORE_ZREM_other k k' m m' r : k' <> k -> ZSCORE k m (ZREM k' m' r) = ZSCORE k m r.
Proof. intros Hne. by rewrite ZSCORE_ZREM, bool_decide_false by exact Hne. Qed.
Lemma ZSCORE_DEL_other k k' m r : k' <> k -> ZSCORE k m (DEL_set k' r) = ZSCORE k m r.
Proof. intros Hne. unfold ZSCORE, zset, DEL_set. cbn [r_sets with_sets]. by rewrite lookup_delete_ne. Qed.

Lemma live_not_slot kd' id' : liveK kd' id' <> K.
Proof. apply not_eq_sym, slotK_liveK. Qed.
Lemma api_not_slot id' : liveAPIKeySlotKey id' <> K.
Proof. apply not_eq_sym, slotK_api. Qed.
Lemma pos60 : 0 < 60.
Proof. lia. Qed.
#[local] Hint Resolve live_not_slot api_not_slot pos60 : quiet.
#[local] Hint Rewrite ZSCORE_trim_other ZSCORE_ZREM_other ZSCORE_ZADD_other ZSCORE_EXPIRE
  using (solve [auto with quiet]) : scores.

Lemma refresh_check_slot keys before lease m r :
  (forall k, k ∈ keys -> k <> K) ->
  ZSCORE K m (refresh_check keys before lease r).2 = ZSCORE K m r.
Proof.
  revert r. induction keys as [|k0 keys IH]; intros r Hk; cbn [refresh_check]; [reflexivity|].
  assert (k0 <> K) as Hne by (apply Hk; left).
  destruct (ZSCORE k0 lease _); [rewrite IH by (intros k' ?; apply Hk; by right)|]; by apply ZSCORE_trim_other.
Qed.

Lemma acquire_keeps kd' id' max req' req r :
  key_ok ttl K r -> keeps_slot req r (exec (Acquire kd' id' max req') r).
Proof.
  intros Hok. cbn [exec]. unfold acquireScript.
  set (r2 := ZREMRANGEBYSCORE (liveK kd' id') _ _). destruct (slot_cases kd' id') as [[-> ->]|Hne].
  - intros s Hs Hlt.
    match goal with |- context [ZSCORE _ _ ?r'] => assert (TIME r' = TIME r) as Ht end.
    { destruct (ZSCORE K req' r2); [|destruct (_ <? _)]; cbn [snd]; apply TIME_same; by rewrite ?clock_EXPIRE. }
    rewrite Ht in Hlt. assert (ZSCORE K req r2 = Some s) as H2.
    { unfold r2. rewrite ZSCORE_trim_other by apply live_not_slot. apply trim_keeps; [exact Hs|exact Hlt]. }
    assert (exists s', s <= s' /\ ZSCORE K req (EXPIRE K ttl (ZADD K (TIME r) req' r2)) = Some s') as Hw.
    { rewrite ZSCORE_EXPIRE, ZSCORE_ZADD by exact ttl_pos.
      destruct ((K ==? K) && (req' ==? req)); [exists (TIME r); split; [by apply (Hok req)|done]|].
      exists s. split; [lia|exact H2]. }
    destruct (ZSCORE K req' r2); [|destruct (_ <? _)]; cbn [snd]; [exact Hw|exact Hw|]. exists s. split; [lia|exact H2].
  - apply keeps_same. assert (ZSCORE K req r2 = ZSCORE K req r) as H2.
    { unfold r2. rewrite ZSCORE_trim_other by apply live_not_slot. by apply ZSCORE_trim_other. }
    destruct (ZSCORE (slotK kd' id') req' r2); [|destruct (_ <? _)]; cbn [snd];
      rewrite ?ZSCORE_EXPIRE, ?ZSCORE_ZADD_other by first [exact Hne|exact ttl_pos]; exact H2.
Qed.

Lemma foldl_ZREM_score k k' m l r :
  (k' = k -> m ∉ l) -> ZSCORE k m (foldl (fun r m => ZREM k' m r) r l) = ZSCORE k m r.
Proof.
  revert r. induction l as [|a l IH]; intros r Hl; cbn [foldl]; [reflexivity|].
  rewrite IH by (intros E Hin; apply (Hl E); by right). rewrite ZSCORE_ZREM.
  destruct (k' ==? k) eqn:Ek; [|done]. apply bool_decide_eq_true in Ek.
  rewrite bool_decide_false; [done|]. intros ->. apply (Hl Ek). left.
Qed.

Lemma startup_keeps kd' id' prefix req r :
  spares req (Startup kd' id' prefix) -> keeps_slot req r (exec (Startup kd' id' prefix) r).
Proof.
  cbn [spares exec]. intros Hp s Hs _. exists s. split; [lia|]. unfold startupCleanupSlotScript. cbv zeta. cbn [snd].
  set (dead := base.filter _ _). set (r2 := foldl _ r dead).
  assert (ZSCORE K req r2 = Some s) as H2.
  { unfold r2. rewrite foldl_ZREM_score; [exact Hs|]. intros [-> ->]%slotK_inj.
    unfold dead. rewrite list_elem_of_filter. rewrite (Hp eq_refl eq_refl). by intros [? _]. }
  destruct (ZCARD (slotK kd' id') r2 =? 0) eqn:Ez.
  - destruct (slot_cases kd' id') as [[-> ->]|Hne]; [|by rewrite ZSCORE_DEL_other].
    exfalso. apply Z.eqb_eq in Ez. unfold ZCARD in Ez.
    assert (zmembers (zset K r2) = []) as En by (apply nil_length_inv; lia).
    unfold ZSCORE in H2. by rewrite (members_nil req _ En) in H2.
  - by rewrite ZSCORE_EXPIRE.
Qed.

Lemma cleanup_keeps kd' id' req r : keeps_slot req r (exec (Cleanup kd' id') r).
Proof.
  cbn [exec]. unfold cleanupExpiredSlotsScript. set (r1 := ZREMRANGEBYSCORE _ _ r).
  intros s Hs Hlt. exists s. split; [lia|].
  assert (ZSCORE K req r1 = Some s) as H1.
  { unfold r1. destruct (slot_cases kd' id') as [[-> ->]|Hne]; [|by rewrite ZSCORE_trim_other].
    apply trim_keeps; [exact Hs|]. revert Hlt. destruct (_ =? _); cbn [snd];
      rewrite (TIME_same r) by (by rewrite ?clock_EXPIRE); done. }
  destruct (ZCARD (slotK kd' id') r1 =? 0) eqn:Ez; cbn [snd].
  - destruct (slot_cases kd' id') as [[-> ->]|Hne]; [|by rewrite ZSCORE_DEL_other].
    exfalso. apply Z.eqb_eq in Ez. unfold ZCARD in Ez.
    assert (zmembers (zset K r1) = []) as En by (apply nil_length_inv; lia).
    unfold ZSCORE in H1. by rewrite (members_nil req _ En) in H1.
  - by rewrite ZSCORE_EXPIRE.
Qed.

Lemma tick_keeps ms req r : key_ok ttl K r -> keeps_slot req r (exec (Tick ms) r).
Proof.
  intros Hok s Hs Hlt. exists s. split; [lia|]. cbn [exec] in *. set (r' := mkRedis _ _ _) in *.
  assert (Hs' := Hs). unfold ZSCORE, zset in Hs |- *. change (r_sets r') with (r_sets r).
  destruct (r_sets r !! K) as [[z e]|] eqn:Er; [|exact Hs].
  destruct (expired r e) eqn:Ee; [by rewrite zscore_empty in Hs|].
  destruct (expired r' e) eqn:Ee'; [|exact Hs]. exfalso. destruct e as [e|]; [|done].
  assert (set_expiry K r = Some e) as Hx by (unfold set_expiry; by rewrite Er, Ee).
  destruct (Hok req s Hs') as [_ He]. specialize (He e Hx). unfold expired in Ee'.
  destruct (Z.leb_spec e (r_clock r')) as [Hle|]; [|done].
  assert (s + ttl <= TIME r') by (unfold TIME; apply Z.div_le_lower_bound; lia). lia.
Qed.

Lemma exec_keeps req r c :
  allowed kd id C extra r c -> spares req c -> key_ok ttl K r -> keeps_slot req r (exec c r).
Proof.
  intros Hal Hsp Hok. destruct c as [ms|kd' id' max req'|kd' id' req'|kd' id' now|kd' id' now|a amax u umax api lease repl
    |a u api lease|a u api lease|kd' id'|kd' id' prefix|key v|m].
  - by apply tick_keeps.
  - by apply acquire_keeps.
  - apply keeps_same. cbn [exec]. destruct (slot_cases kd' id') as [[-> ->]|Hne]; [|by apply ZSCORE_ZREM_other].
    rewrite ZSCORE_ZREM. rewrite (bool_decide_false (req' = req)) by (by apply Hsp). by rewrite andb_false_r.
  - cbn [exec]. destruct (slot_cases kd' id') as [[-> ->]|Hne]; [|by apply keeps_same, ZSCORE_trim_other].
    intros s Hs Hlt. exists s. split; [lia|]. apply trim_keeps; [exact Hs|]. cbn [allowed] in Hal.
    change (TIME (ZREMRANGEBYSCORE _ _ r)) with (TIME r) in Hlt. lia.
  - apply keeps_same, ZSCORE_trim_other, live_not_slot.
  - apply keeps_same. cbn [exec]. unfold acquireLiveLeaseScript. cbv zeta.
    destruct (ZSCORE _ lease _); [|destruct (_ && _); [|destruct (_ && _)]]; cbn [snd]; by autorewrite with scores.
  - apply keeps_same. cbn [exec]. unfold refreshLiveLeaseScript.
    pose proof (refresh_check_slot (liveKeys a u api) (TIME r - 60) lease req r) as Hc.
    destruct (refresh_check _ _ _ r) as [b r2]. cbn [snd] in Hc. assert (ZSCORE K req r2 = ZSCORE K req r) as E.
    { apply Hc. intros k Hk. unfold liveKeys in Hk. rewrite !elem_of_cons, elem_of_nil in Hk.
      destruct Hk as [->|[->|[->|[]]]]; auto with quiet. }
    destruct b; cbn [snd]; [|exact E]. cbn [liveKeys foldl]. by autorewrite with scores.
  - apply keeps_same. cbn [exec]. by autorewrite with scores.
  - apply cleanup_keeps.
  - by apply startup_keeps.
  - apply keeps_same. cbn [exec]. unfold ZSCORE, zset. cbn [r_sets with_sets]. destruct (Hal kd id) as [Hk _].
    destruct v; by rewrite ?lookup_insert_ne, ?lookup_delete_ne by exact Hk.
  - by apply keeps_same.
Qed.

(** ** Runs *)

Definition reachable (r : redis S) : Prop :=
  exists r0, r_sets r0 = ∅ /\ steps (allowed kd id C extra) r0 r.

Lemma empty_within r : r_sets r = ∅ -> within r.
Proof.
  intros E. assert (forall k m, ZSCORE k m r = None) as Hn.
  { intros k m. unfold ZSCORE, zset. rewrite E, lookup_empty. apply zscore_empty. }
  assert (forall t k, size (alive t k r) = 0%nat) as Hz.
  { intros t k. apply size_empty_iff. intros m. rewrite alive_spec. split; [|by intros ?%elem_of_empty].
    intros (s & Hs & _). by rewrite Hn in Hs. }
  split_and!; [intros m s Hs; by rewrite Hn in Hs..|]. unfold busy. rewrite !Hz. lia.
Qed.

Lemma reachable_within r : reachable r -> within r.
Proof.
  intros (r0 & E & Hs). apply empty_within in E. induction Hs as [|r c r' Hc _ IH]; [exact E|].
  apply IH. by apply exec_within.
Qed.

Lemma steps_clock P r r' : steps P r r' -> r_clock r <= r_clock r'.
Proof.
  induction 1 as [|r c r' _ _ IH]; [lia|]. enough (r_clock r <= r_clock (exec c r)) by lia.
  destruct c as [ms|kd' id' max req|? ? ?|? ? ?|? ? ?|a amax u umax api lease repl|a u api lease|? ? ? ?
    |kd' id'|kd' id' pre|? ?|?]; try exact (Z.le_refl _).
  - cbn. lia.
  - destruct (acquire_cases kd' id' max req r) as (r2 & Hc & _ & _ & [[E _]|[E _]]); cbn [exec];
      rewrite E; cbn [snd]; rewrite ?clock_EXPIRE; change (r_clock (ZADD _ _ _ r2)) with (r_clock r2); lia.
  - destruct (acquireLive_cases a amax u umax api lease repl r) as (r2 & Hc & _ & [E|(_ & E & _)]); cbn [exec];
      [rewrite E; lia|].
    destruct (lease_writes_slot Acct a a u api lease r2) as [E2 _]. rewrite E. lia.
  - destruct (refresh_effect a u api lease r) as [Hq _]. destruct (Hq Acct 0) as [E _]. lia.
  - apply (cleanup_shrinks 0 (slotK kd' id')). lia.
  - apply (startup_shrinks 0 (slotK kd' id')). lia.
Qed.

Lemma run_keeps_slot req r r' :
  within r -> steps (fun r c => allowed kd id C extra r c /\ spares req c) r r' -> keeps_slot req r r'.
Proof.
  intros W Hs. induction Hs as [r|r c r' [Hal Hsp] Hs IH]; [by apply keeps_same|].
  intros s Es Hlt. pose proof (steps_clock _ _ _ Hs) as Hclk. apply TIME_mono in Hclk.
  destruct (exec_keeps req r c Hal Hsp (proj1 W) s Es) as (s1 & Hle & E1); [lia|].
  destruct (IH (exec_within r c Hal W) s1 E1) as (s2 & Hle2 & E2); [lia|]. exists s2. split; [lia|exact E2].
Qed.

(** A request holds a slot: granted in some reachable state at [s], neither
    released nor cleaned up by another process's start since. *)
Definition holds_slot (req : string) (r' : redis S) : Prop :=
  exists r max s, reachable r /\ max <= C /\
    (acquireScript K L max ttl req r).1 = (1, s) /\
    steps (fun r c => allowed kd id C extra r c /\ spares req c) (exec (Acquire kd id max req) r) r' /\
    TIME r' - ttl < s.

Lemma holds_alive req r' : holds_slot req r' -> req ∈ alive ttl K r'.
Proof.
  intros (r & max & s & Hr & Hm & Hg & Hs & Hlt). apply alive_spec.
  assert (ZSCORE K req (exec (Acquire kd id max req) r) = Some s) as Es.
  { cbn [exec]. destruct (acquire_cases kd id max req r) as (r2 & Hc & _ & _ & [[E _]|[E _]]);
      rewrite E in Hg |- *; cbn [fst snd] in *; [done|]. injection Hg as <-.
    rewrite ZSCORE_EXPIRE by exact ttl_pos. rewrite (TIME_same _ _ Hc). apply ZSCORE_ZADD_eq. }
  destruct (run_keeps_slot req _ _ (exec_within _ (Acquire kd id max req) (fun _ _ => Hm) (reachable_within _ Hr)) Hs s Es Hlt)
    as (s' & Hle & E'). exists s'. split; [exact E'|lia].
Qed.

End Limit.

(** C27: the concurrency limit of an account or user is kept.  However scripts,
    pipelines, releases, crashes, cleanups and the expiry of keys interleave,
    the requests that were granted a slot less than its time to live ago, have
    not released it and did not lose it to the startup cleanup of a process
    with another prefix, together with the live leases, are at most the limit,
    or one more when leases may replace regular slots.  The slots such a
    cleanup takes from running requests are not counted: [startup_breaks_limit]
    exceeds the limit that way. *)
Theorem slots_within_limit kd id C extra r reqs :
  0 <= C -> reachable kd id C extra r -> NoDup reqs ->
  (forall req, req ∈ reqs -> holds_slot kd id C extra req r) ->
  Z.of_nat (length reqs) + Z.of_nat (size (alive 60 (liveK kd id) r)) <= C + Z.of_nat extra.
Proof.
  intros HC Hr Hnd Hh. destruct (reachable_within kd id C extra HC r Hr) as (_ & _ & Hb). unfold busy in Hb.
  enough (length reqs <= size (alive ttl (slotK kd id) r))%nat by lia.
  rewrite <- (size_list_to_set (C := gset string) reqs Hnd). apply subseteq_size. intros m Hm%elem_of_list_to_set.
  eapply holds_alive; [exact HC|by apply Hh].
Qed.

Lemma ZCARD_alive t k r r2 :
  (forall m s, ZSCORE k m r2 = Some s <-> ZSCORE k m r = Some s /\ TIME r - t < s) ->
  ZCARD k r2 = Z.of_nat (size (alive t k r)).
Proof.
  intros Hm. unfold ZCARD. f_equal. rewrite <- (size_list_to_set (C := gset string)) by apply zmembers_nodup.
  f_equal. apply set_eq. intros m. rewrite elem_of_list_to_set, zmembers_spec, alive_spec. unfold is_Some.
  split; intros [s Hs]; exists s; by apply Hm.
Qed.

Lemma trimmed_scores k hi m s r :
  ZSCORE k m (ZREMRANGEBYSCORE k hi r) = Some s <-> ZSCORE k m r = Some s /\ hi < s.
Proof.
  rewrite ZSCORE_trim, bool_decide_true by reflexivity. destruct (ZSCORE k m r) as [s'|]; [|split; [done|by intros [? _]]].
  destruct (Z.leb_spec s' hi); split; [done|intros [[= <-] ?]; lia|by intros [= <-]|by intros [[= <-] _]].
Qed.

(** A slot is refused only when the limit is reached.  The acquire script
    grants a request that still has its slot, and otherwise exactly when the
    slots and leases that have not run out are fewer than the limit; a request
    granted has the present time as its score, and no slot of another request
    that has not run out is touched. *)
Theorem acquire_script_spec kd id max req r :
  let res := acquireScript (slotK kd id) (liveK kd id) max ttl req r in
  (res.1.1 = 1 <-> req ∈ alive ttl (slotK kd id) r \/
     Z.of_nat (size (alive ttl (slotK kd id) r)) + Z.of_nat (size (alive 60 (liveK kd id) r)) < max) /\
  (res.1.1 = 1 -> ZSCORE (slotK kd id) req res.2 = Some (TIME r)) /\
  (forall req', req' <> req -> req' ∈ alive ttl (slotK kd id) res.2 <-> req' ∈ alive ttl (slotK kd id) r).
Proof.
  cbv zeta. unfold acquireScript. set (r2 := ZREMRANGEBYSCORE (liveK kd id) _ _).
  pose proof (slotK_liveK kd id kd id) as Hne.
  assert (forall m s, ZSCORE (slotK kd id) m r2 = Some s <-> ZSCORE (slotK kd id) m r = Some s /\ TIME r - ttl < s) as Hk.
  { intros m s. unfold r2. rewrite ZSCORE_trim, bool_decide_false by (exact (not_eq_sym Hne)). apply trimmed_scores. }
  assert (forall m s, ZSCORE (liveK kd id) m r2 = Some s <-> ZSCORE (liveK kd id) m r = Some s /\ TIME r - 60 < s) as Hl.
  { intros m s. unfold r2. rewrite trimmed_scores. by rewrite (ZSCORE_trim (slotK kd id)), bool_decide_false by exact Hne. }
  rewrite (ZCARD_alive _ _ _ _ Hk), (ZCARD_alive _ _ _ _ Hl).
  assert (req ∈ alive ttl (slotK kd id) r <-> is_Some (ZSCORE (slotK kd id) req r2)) as Hreq.
  { rewrite alive_spec. unfold is_Some. split; intros [s Hs]; exists s; by apply Hk. }
  set (r3 := EXPIRE _ _ _). assert (ZSCORE (slotK kd id) req r3 = Some (TIME r)) as H3.
  { unfold r3. rewrite ZSCORE_EXPIRE by exact ttl_pos. apply ZSCORE_ZADD_eq. }
  assert (forall req' rx, (rx = r2 \/ rx = r3) -> req' <> req ->
    req' ∈ alive ttl (slotK kd id) rx <-> req' ∈ alive ttl (slotK kd id) r) as Hoth.
  { intros req' rx Hrx Hnr. rewrite !alive_spec. assert (TIME rx = TIME r) as ->.
    { apply TIME_same. destruct Hrx as [-> | ->]; [reflexivity|]. unfold r3. by rewrite clock_EXPIRE. }
    assert (ZSCORE (slotK kd id) req' rx = ZSCORE (slotK kd id) req' r2) as ->.
    { destruct Hrx as [-> | ->]; [reflexivity|]. unfold r3. rewrite ZSCORE_EXPIRE, ZSCORE_ZADD by exact ttl_pos.
      by rewrite (bool_decide_false (req = req')), andb_false_r by congruence. }
    split; intros (s & Hs & Hlt); exists s; (split; [|exact Hlt]); by apply Hk. }
  destruct (ZSCORE (slotK kd id) req r2) as [s|] eqn:Es.
  - cbn [fst snd]. split_and!; [|by intros _|intros; apply Hoth; auto]. split; [intros _; left; by apply Hreq|done].
  - assert (req ∉ alive ttl (slotK kd id) r) as Hn by (rewrite Hreq; by intros [? ?]).
    destruct (Z.ltb_spec (Z.of_nat (size (alive ttl (slotK kd id) r)) + Z.of_nat (size (alive 60 (liveK kd id) r))) max);
      cbn [fst snd]; (split_and!; [|by intros|intros; apply Hoth; auto]); (split; [try done; by right|]); [done|].
    intros [?|?]; [contradiction|lia].
Qed.

End Safety.

(** * Concrete servers *)

Definition cx_server : redis GSet := mkRedis 1000000 ∅ ∅.

(** The first of two requests for account 7, limited to one, gets the slot. *)
Definition cx_taken : redis GSet := exec 900 (Acquire Acct 7 1 "rA-1") cx_server.

Lemma acquire_script_spec_witness :
  (acquireScript (accountSlotKey 7) (liveAccountSlotKey 7) 1 900 "rA-1" cx_server).1.1 = 1.
Proof.
  apply (acquire_script_spec 900 ltac:(lia) Acct 7 1 "rA-1" cx_server). right. vm_compute. reflexivity.
Defined.

Lemma slots_within_limit_witness :
  Z.of_nat (length ["rA-1"]) + Z.of_nat (size (alive 60 (liveAccountSlotKey 7) cx_taken)) <= 1 + Z.of_nat 0.
Proof.
  assert (reachable 900 Acct 7 1 0 cx_server) as Hr0 by (exists cx_server; split; [reflexivity|apply steps_refl]).
  apply (slots_within_limit 900 ltac:(lia) Acct 7 1 0 cx_taken ["rA-1"]).
  - lia.
  - exists cx_server. split; [reflexivity|]. apply steps_one. intros _ _. lia.
  - apply NoDup_singleton.
  - intros req Hin. apply list_elem_of_singleton in Hin as ->. exists cx_server, 1, 1000.
    split; [exact Hr0|]. split; [lia|]. split; [vm_compute; reflexivity|]. split; [apply steps_refl|vm_compute; reflexivity].
Defined.
