(* ===== verification/ConcurrencyRefinement.v ===== *)
(** * The operations issue the commands

    Every method of the cache and of the service, whatever fails on the way,
    changes the server only by the commands of ConcurrencySafety.v, in the
    order the code issues them, so that the limit holds of the program and not
    only of its scripts.  Bounds on the wait counters, and concrete runs. *)

From S2P Require Import Prelude GoTime PaymentHelpers Concurrency ConcurrencyCache ConcurrencySafety.
Local Open Scope Z_scope.

(** ** Keys that are not slots *)

Lemma FormatInt_not_word id s : HasPrefix s "a" = true -> FormatInt id <> s.
Proof.
  intros [rest ->]%HasPrefix_spec E.
  destruct (Z.leb_spec 0 id) as [Hp|Hn].
  - pose proof (FormatInt_digits id Hp) as Hd. rewrite E in Hd. discriminate Hd.
  - destruct id; [lia|lia|]. discriminate E.
Qed.

Lemma index_not_slot prefix id : prefix +:+ "active_index" <> prefix +:+ FormatInt id.
Proof. intros E. apply (inj (String.append _)) in E. by apply (FormatInt_not_word id "active_index"). Qed.

Lemma foreign_account_index : foreign accountActiveIndexKey.
Proof. intros kd id. split; destruct kd; try discriminate. apply (index_not_slot accountSlotKeyPrefix). Qed.
Lemma foreign_user_index : foreign userActiveIndexKey.
Proof. intros kd id. split; destruct kd; try discriminate. apply (index_not_slot userSlotKeyPrefix). Qed.
Lemma foreign_api id : foreign (apiKeySlotKey id).
Proof. intros kd id'. split; destruct kd; discriminate. Qed.
Lemma foreign_live_api id : foreign (liveAPIKeySlotKey id).
Proof. intros kd id'. split; destruct kd; discriminate. Qed.
Lemma foreign_ingress id : foreign (openAIWSIngressLeaseKey id).
Proof. intros kd id'. split; destruct kd; discriminate. Qed.

Create HintDb commands discriminated.
#[export] Hint Resolve foreign_account_index foreign_user_index foreign_api foreign_live_api foreign_ingress : commands.

Section Refinement.
Context {S : Type} `{SortedSetLaws S}.
Variable env : rtenv.
Variable c : concurrencyCache.
Hypothesis ttl_pos : 0 < slotTTLSeconds c.
#[local] Abbreviation ttl := (slotTTLSeconds c).

Variables (kd : kind) (id C : Z) (extra : nat).
#[local] Abbreviation cstep := (allowed (S := S) kd id C extra).
#[local] Abbreviation csteps := (steps ttl cstep).

(** From any state not before [t], an operation only makes allowed commands,
    and its result [a], at a server time [u], satisfies [Q a u]. *)
Definition issues {A} (t : Z) (m : RM (S := S) A) (Q : A -> Z -> Prop) : Prop :=
  forall n (r : redis S), t <= TIME r ->
    csteps r (m n r).2 /\ forall a, (m n r).1.1 = Some a -> Q a (TIME (m n r).2).

Lemma csteps_time r r' : csteps r r' -> TIME r <= TIME r'.
Proof. intros Hs. apply TIME_mono. by eapply steps_clock. Qed.

Lemma issues_ret {A} t (a : A) (Q : A -> Z -> Prop) : (forall u, t <= u -> Q a u) -> issues t (rret a) Q.
Proof. intros HQ n r Ht. split; [apply steps_refl|]. cbn. intros a' [= <-]. by apply HQ. Qed.

Lemma issues_fail {A} t (Q : A -> Z -> Prop) : issues t rfail Q.
Proof. intros n r Ht. split; [apply steps_refl|done]. Qed.

Lemma issues_bind {A B} t (m : RM A) (k : A -> RM B) Q R :
  issues t m Q -> (forall a u, t <= u -> Q a u -> issues u (k a) R) -> issues t (rbind m k) R.
Proof.
  intros Hm Hk n r Ht. destruct (Hm n r Ht) as [Hs HQ]. unfold rbind. destruct (m n r) as [[[a|] n'] r']; cbn in *.
  - pose proof (csteps_time _ _ Hs). destruct (Hk a (TIME r') ltac:(lia) (HQ a eq_refl) n' r' (Z.le_refl _)) as [Hs' HR].
    split; [by eapply steps_trans|exact HR].
  - split; [exact Hs|done].
Qed.

Lemma issues_weaken {A} t u (m : RM A) (Q R : A -> Z -> Prop) :
  issues t m Q -> t <= u -> (forall a v, Q a v -> R a v) -> issues u m R.
Proof. intros Hm Htu HQR n r Hu. destruct (Hm n r ltac:(lia)) as [Hs HQ]. split; [exact Hs|auto]. Qed.

Lemma issues_effort t (m : RM unit) Q : issues t m Q -> issues t (best_effort m) (fun _ _ => True).
Proof.
  intros Hm n r Ht. destruct (Hm n r Ht) as [Hs _]. unfold best_effort.
  destruct (m n r) as [[a n'] r']. split; [exact Hs|done].
Qed.

Lemma issues_try {A} t (m : RM A) Q : issues t m Q -> issues t (tryM m) (fun _ _ => True).
Proof.
  intros Hm n r Ht. destruct (Hm n r Ht) as [Hs _]. unfold tryM.
  destruct (m n r) as [[a n'] r']. split; [exact Hs|done].
Qed.

(** A round trip: time passes, then the effect of [f]. *)
Lemma issues_trip {A} t (f : redis S -> A * redis S) (Q : A -> Z -> Prop) :
  (forall r, t <= TIME r -> csteps r (f r).2 /\ Q (f r).1 (TIME (f r).2)) -> issues t (trip env f) Q.
Proof.
  intros Hf n r Ht. unfold trip. set (r1 := pass env n r).
  assert (csteps r r1) as H1 by (apply (steps_one ttl cstep r (Tick (rt_wait env n))); exact I).
  pose proof (csteps_time _ _ H1). destruct (Hf r1 ltac:(lia)) as [Hs HQ].
  destruct (rt_fault env n).
  - destruct (f r1) as [a r']. cbn in *. split; [by eapply steps_trans|]. by intros a' [= <-].
  - split; [exact H1|done].
  - split; [by eapply steps_trans|done].
Qed.

(** ** Effects that are allowed commands *)

Lemma csteps_cmd r cmd : cstep r cmd -> csteps r (exec ttl cmd r).
Proof. apply steps_one. Qed.

Lemma csteps_trim kd' id' now r : now <= TIME r -> csteps r (ZREMRANGEBYSCORE (slotK kd' id') (now - ttl) r).
Proof. exact (csteps_cmd r (Trim kd' id' now)). Qed.
Lemma csteps_trim_live kd' id' now r : now <= TIME r -> csteps r (ZREMRANGEBYSCORE (liveK kd' id') (now - 60) r).
Proof. exact (csteps_cmd r (TrimLive kd' id' now)). Qed.

Lemma csteps_put k z e r : foreign k -> csteps r (put_set k z e r).
Proof.
  intros Hk. unfold put_set. destruct (zmembers z).
  - exact (csteps_cmd r (Foreign k None) Hk).
  - exact (csteps_cmd r (Foreign k (Some (z, e))) Hk).
Qed.
Lemma csteps_ZADD k s m r : foreign k -> csteps r (ZADD k s m r).
Proof. apply csteps_put. Qed.
Lemma csteps_ZREM k m r : foreign k -> csteps r (ZREM k m r).
Proof. apply csteps_put. Qed.
Lemma csteps_trim_foreign k hi r : foreign k -> csteps r (ZREMRANGEBYSCORE k hi r).
Proof. apply csteps_put. Qed.
Lemma csteps_EXPIRE k secs r : foreign k -> csteps r (EXPIRE k secs r).
Proof.
  intros Hk. unfold EXPIRE. destruct (negb _); [apply steps_refl|]. destruct (_ <=? _).
  - exact (csteps_cmd r (Foreign k None) Hk).
  - exact (csteps_cmd r (Foreign k (Some _)) Hk).
Qed.
Lemma csteps_counts m r : csteps r (with_counts m r).
Proof. exact (csteps_cmd r (Counters m) I). Qed.

Lemma csteps_INCR k r : csteps r (INCR k r).
Proof. apply csteps_counts. Qed.
Lemma csteps_DECR k r : csteps r (DECR k r).
Proof. apply csteps_counts. Qed.
Lemma csteps_DEL_count k r : csteps r (DEL_count k r).
Proof. apply csteps_counts. Qed.
Lemma csteps_EXPIRE_count k secs r : csteps r (EXPIRE_count k secs r).
Proof.
  unfold EXPIRE_count. destruct (GET k r); [|apply steps_refl]. destruct (_ <=? _); apply csteps_counts.
Qed.

Lemma csteps_foldl {A} (f : redis S -> A -> redis S) l r :
  (forall a r, csteps r (f r a)) -> csteps r (foldl f r l).
Proof.
  intros Hf. revert r. induction l as [|a l IH]; intros r; cbn [foldl]; [apply steps_refl|].
  eapply steps_trans; [apply Hf|apply IH].
Qed.

#[local] Hint Resolve csteps_ZADD csteps_ZREM csteps_trim_foreign csteps_EXPIRE csteps_counts csteps_DEL_count
  csteps_EXPIRE_count csteps_INCR csteps_DECR steps_refl : commands.

(** An operation that never fails to be allowed, with nothing to say of its
    result. *)
Definition fine_op {A} (m : RM (S := S) A) : Prop := forall t, issues t m (fun _ _ => True).

Lemma fine_silent (f : redis S -> redis S) : (forall r, csteps r (f r)) -> fine_op (trip env (silent f)).
Proof. intros Hf t. apply issues_trip. intros r _. split; [apply Hf|done]. Qed.

Lemma fine_trip {A} (f : redis S -> A * redis S) : (forall r, csteps r (f r).2) -> fine_op (trip env f).
Proof. intros Hf t. apply issues_trip. intros r _. split; [apply Hf|done]. Qed.

Lemma fine_bind {A B} (m : RM A) (k : A -> RM B) : fine_op m -> (forall a, fine_op (k a)) -> fine_op (rbind m k).
Proof. intros Hm Hk t. eapply issues_bind; [apply Hm|]. intros a u _ _. apply Hk. Qed.

Lemma fine_ret {A} (a : A) : fine_op (rret a).
Proof. intros t. by apply issues_ret. Qed.
Lemma fine_fail {A} : fine_op (rfail (A := A)).
Proof. intros t. apply issues_fail. Qed.
Lemma fine_effort m : fine_op m -> fine_op (best_effort m).
Proof. intros Hm t. eapply issues_effort, Hm. Qed.
Lemma fine_try {A} (m : RM A) : fine_op m -> fine_op (tryM m).
Proof. intros Hm t. eapply issues_try, Hm. Qed.

(** The server's time, read and used later: it is not in the future. *)
Lemma issues_now t : issues t (redisUnixSeconds env) (fun now u => now <= u).
Proof. apply issues_trip. intros r _. split; [apply steps_refl|cbn; lia]. Qed.

Lemma fine_now {A} (k : Z -> RM A) :
  (forall now, issues now (k now) (fun _ _ => True)) -> fine_op (rbind (redisUnixSeconds env) k).
Proof.
  intros Hk t. eapply issues_bind; [apply issues_now|]. intros now u _ Hle. eapply issues_weaken; [apply Hk|exact Hle|done].
Qed.

Lemma issues_fine {A} t (m : RM A) : fine_op m -> issues t m (fun _ _ => True).
Proof. intros Hm. apply Hm. Qed.

Ltac fine :=
  repeat first
    [ apply fine_ret | apply fine_fail | apply fine_effort | apply fine_try
    | apply fine_bind; [|intros ?]
    | match goal with |- fine_op (if ?b then _ else _) => destruct b end
    | match goal with |- fine_op (match ?x with _ => _ end) => destruct x end ].

Lemma touch_fine key i e : foreign key -> fine_op (touchActiveIndexAt env key i e).
Proof. intros Hk. unfold touchActiveIndexAt. fine. apply fine_silent. auto with commands. Qed.

Lemma load_of_steps kd' i member wk now r :
  now <= TIME r -> csteps r (load_of c i member (slotK kd' i) wk now r).2.
Proof. intros Hn. by apply csteps_trim. Qed.

Lemma refresh_index_fine key kd' i wk : foreign key -> fine_op (refreshActiveIndex env c key i (slotK kd' i) wk).
Proof.
  intros Hk. unfold refreshActiveIndex. destruct (i <=? 0); [apply fine_ret|]. apply fine_effort, fine_now.
  intros now. apply (issues_bind _ _ _ (fun _ _ => True)).
  - apply issues_trip. intros r Hr. split; [by apply load_of_steps|exact I].
  - intros load u _ _. apply issues_fine. destruct (idle load).
    + apply fine_effort, fine_silent. auto with commands.
    + destruct (_ <=? 0); [apply fine_ret|by apply touch_fine].
Qed.

Lemma refresh_account_fine i : fine_op (refreshAccountActiveIndex env c i).
Proof. apply (refresh_index_fine _ Acct), foreign_account_index. Qed.
Lemma refresh_user_fine i : fine_op (refreshUserActiveIndex env c i).
Proof. apply (refresh_index_fine _ Usr), foreign_user_index. Qed.
#[local] Hint Resolve refresh_account_fine refresh_user_fine touch_fine : commands.

Lemma acquire_fine kd' i max req key :
  (kd' = kd -> i = id -> max <= C) -> foreign key -> fine_op (acquire_slot env c (slotK kd' i) (liveK kd' i) key i max req).
Proof.
  intros Hm Hk. unfold acquire_slot. apply fine_bind.
  - apply fine_trip. intros r. exact (csteps_cmd r (Acquire kd' i max req) Hm).
  - intros [result now]. fine. by apply touch_fine.
Qed.

Lemma release_fine kd' i req : fine_op (trip env (silent (ZREM (slotK kd' i) req))).
Proof. apply fine_silent. intros r. exact (csteps_cmd r (Release kd' i req) I). Qed.

Lemma count_fine kd' i : fine_op (trip env (getCountScript (slotK kd' i) (liveK kd' i) ttl)).
Proof.
  apply fine_trip. intros r. cbn [getCountScript snd]. eapply steps_trans; [apply (csteps_trim kd' i (TIME r)), Z.le_refl|].
  apply (csteps_trim_live kd' i (TIME r)), Z.le_refl.
Qed.

Lemma live_fine a amax u umax api lease (repl : bool) :
  (forall r : redis S, cstep r (AcquireLive a amax u umax api lease (if repl then 1 else 0))) ->
  fine_op (AcquireLiveLease env a amax u umax api lease repl).
Proof.
  intros Hal. unfold AcquireLiveLease. destruct (_ || _); [apply fine_ret|]. apply fine_bind; [|intros; apply fine_ret].
  apply fine_trip. intros r. exact (csteps_cmd r (AcquireLive a amax u umax api lease (if repl then 1 else 0)) (Hal r)).
Qed.

Lemma live_refresh_fine a u api lease : fine_op (RefreshLiveLease env a u api lease).
Proof.
  unfold RefreshLiveLease. destruct (_ ==? _); [apply fine_ret|]. apply fine_bind; [|intros; apply fine_ret].
  apply fine_trip. intros r. exact (csteps_cmd r (RefreshLive a u api lease) I).
Qed.

Lemma live_release_fine a u api lease : fine_op (ReleaseLiveLease env a u api lease).
Proof.
  unfold ReleaseLiveLease. destruct (_ ==? _); [apply fine_ret|].
  apply fine_silent. intros r. exact (csteps_cmd r (ReleaseLive a u api lease) I).
Qed.

Lemma ingress_fine : forall api max lease,
  fine_op (cache_AcquireOpenAIWSIngressLease env api max lease) /\
  fine_op (RefreshOpenAIWSIngressLease env api lease) /\ fine_op (ReleaseOpenAIWSIngressLease env api lease).
Proof.
  intros api max lease. pose proof (foreign_ingress api) as Hk.
  unfold cache_AcquireOpenAIWSIngressLease, RefreshOpenAIWSIngressLease, ReleaseOpenAIWSIngressLease.
  split_and!; fine; [apply fine_trip|apply fine_trip|apply fine_silent; auto with commands]; intros r.
  - unfold acquireOpenAIWSIngressLeaseScript. cbv zeta. set (r1 := ZREMRANGEBYSCORE _ _ r).
    assert (csteps r r1) by (by apply csteps_trim_foreign).
    assert (csteps r (EXPIRE (openAIWSIngressLeaseKey api) openAIWSIngressLeaseTTLSeconds
      (ZADD (openAIWSIngressLeaseKey api) (TIME r) lease r1))).
    { eapply steps_trans; [eassumption|]. eapply steps_trans; [by apply csteps_ZADD|by apply csteps_EXPIRE]. }
    destruct (ZSCORE _ _ r1); [done|]. by destruct (_ <? _).
  - unfold refreshOpenAIWSIngressLeaseScript. cbv zeta. set (r1 := ZREMRANGEBYSCORE _ _ r).
    assert (csteps r r1) by (by apply csteps_trim_foreign). destruct (ZSCORE _ _ r1); [|done]. cbn [snd].
    eapply steps_trans; [eassumption|]. eapply steps_trans; [by apply csteps_ZADD|by apply csteps_EXPIRE].
Qed.

Lemma track_fine i req : fine_op (cache_TrackAPIKeySlot env c i req) /\ fine_op (ReleaseAPIKeySlot env i req).
Proof.
  pose proof (foreign_api i) as Hk. unfold cache_TrackAPIKeySlot, ReleaseAPIKeySlot. split.
  - apply fine_bind; [|intros; apply fine_ret]. apply fine_trip. intros r. cbn [trackSlotScript snd].
    eapply steps_trans; [by apply csteps_trim_foreign|]. eapply steps_trans; [by apply csteps_ZADD|by apply csteps_EXPIRE].
  - apply fine_silent. auto with commands.
Qed.

Lemma wait_fine key idx i max : foreign idx -> fine_op (increment_wait env c key idx i max).
Proof.
  intros Hk. unfold increment_wait. apply fine_bind.
  - apply fine_trip. intros r. unfold incrementWaitScript. destruct (_ <=? _); [apply steps_refl|].
    cbn [snd]. eapply steps_trans; [apply csteps_INCR|apply csteps_EXPIRE_count].
  - intros [result now]. fine. by apply touch_fine.
Qed.

Lemma unwait_fine key : fine_op (trip env (decrementWaitScript key)).
Proof.
  apply fine_trip. intros r. unfold decrementWaitScript. destruct (GET key r) as [n|]; [|apply steps_refl].
  destruct (0 <? n); [apply csteps_DECR|apply steps_refl].
Qed.

(** ** Batches *)

Lemma count_pair_steps kd' i now r :
  now <= TIME r -> csteps r (count_pair c (slotK kd' i) (liveK kd' i) now r).2.
Proof.
  intros Hn. unfold count_pair. cbn [snd]. eapply steps_trans; [by apply csteps_trim|]. by apply csteps_trim_live.
Qed.

Lemma count_pair_foreign k k' now r : foreign k -> foreign k' -> csteps r (count_pair c k k' now r).2.
Proof.
  intros Hk Hk'. unfold count_pair. cbn [snd].
  exact (steps_trans _ _ _ _ _ (csteps_trim_foreign k _ r Hk) (csteps_trim_foreign k' _ _ Hk')).
Qed.

Lemma count_batch_steps keyOf liveOf now ids acc r :
  (forall i r, now <= TIME r -> csteps r (count_pair c (keyOf i) (liveOf i) now r).2) ->
  now <= TIME r -> csteps r (count_batch c keyOf liveOf now ids acc r).2.
Proof.
  intros Hp. revert acc r. induction ids as [|i ids IH]; intros acc r Hn; cbn [count_batch]; [apply steps_refl|].
  specialize (Hp i r Hn). destruct (count_pair _ _ _ _ r) as [n r1]. cbn [snd] in Hp.
  pose proof (csteps_time _ _ Hp). eapply steps_trans; [exact Hp|]. apply IH. lia.
Qed.

Lemma load_batch_steps keyOf liveOf waitOf now ws acc r :
  (forall i r, now <= TIME r -> csteps r (count_pair c (keyOf i) (liveOf i) now r).2) ->
  now <= TIME r -> csteps r (load_batch c keyOf liveOf waitOf now ws acc r).2.
Proof.
  intros Hp. revert acc r. induction ws as [|w ws IH]; intros acc r Hn; cbn [load_batch]; [apply steps_refl|].
  specialize (Hp (wc_ID w) r Hn). destruct (count_pair _ _ _ _ r) as [n r1]. cbn [snd] in Hp.
  pose proof (csteps_time _ _ Hp). eapply steps_trans; [exact Hp|]. apply IH. lia.
Qed.

Lemma fine_at_now {A} (f : Z -> redis S -> A * redis S) :
  (forall now r, now <= TIME r -> csteps r (f now r).2) ->
  fine_op (rbind (redisUnixSeconds env) (fun now => trip env (f now))).
Proof. intros Hf. apply fine_now. intros now. apply issues_trip. intros r Hr. split; [by apply Hf|done]. Qed.

Lemma batches_fine ids ws :
  fine_op (cache_GetAccountConcurrencyBatch env c ids) /\ fine_op (cache_GetAPIKeyConcurrencyBatch env c ids) /\
  fine_op (cache_GetAccountsLoadBatch env c ws) /\ fine_op (cache_GetUsersLoadBatch env c ws).
Proof.
  unfold cache_GetAccountConcurrencyBatch, cache_GetAPIKeyConcurrencyBatch, cache_GetAccountsLoadBatch,
    cache_GetUsersLoadBatch, get_counts, get_loads.
  split_and!; (match goal with |- fine_op (match ?l with _ => _ end) => destruct l end; [apply fine_ret|]);
    apply fine_at_now; intros now r Hn;
    first [apply count_batch_steps | apply load_batch_steps]; try exact Hn; intros j r' Hr.
  - by apply (count_pair_steps Acct).
  - apply count_pair_foreign; auto with commands.
  - by apply (count_pair_steps Acct).
  - by apply (count_pair_steps Usr).
Qed.

(** ** Cleaning up *)

Lemma cleanup_fine i : fine_op (CleanupExpiredAccountSlots env c i).
Proof.
  unfold CleanupExpiredAccountSlots. apply fine_bind; [|intros; apply refresh_account_fine].
  apply fine_trip. intros r. exact (csteps_cmd r (Cleanup Acct i) I).
Qed.

(** The spec of an index whose slots are those of [kd']. *)
Definition spec_ok (spec : slotIndexSpec) : Prop :=
  foreign (indexKey spec) /\ exists kd', forall i, slotKey spec i = slotK kd' i.
Lemma account_spec_ok : spec_ok accountSlotIndex.
Proof. split; [apply foreign_account_index|by exists Acct]. Qed.
Lemma user_spec_ok : spec_ok userSlotIndex.
Proof. split; [apply foreign_user_index|by exists Usr]. Qed.

Lemma loads_of_steps spec chunk now r :
  spec_ok spec -> now <= TIME r -> csteps r (loads_of c spec chunk now r).2.
Proof.
  intros [_ [kd' Hk]]. revert r. induction chunk as [|[m i] chunk IH]; intros r Hn; cbn [loads_of]; [apply steps_refl|]. rewrite Hk.
  pose proof (load_of_steps kd' i m (waitKey spec i) now r Hn) as H1. destruct (load_of _ _ _ _ _ _ r) as [l r1].
  cbn [snd] in H1. pose proof (csteps_time _ _ H1). specialize (IH r1 ltac:(lia)).
  destruct (loads_of _ _ _ _ r1) as [ls r2]. by eapply steps_trans.
Qed.

Lemma load_chunks_issues spec k cands now t :
  spec_ok spec -> now <= t -> issues t (load_chunks env c spec k cands now) (fun _ _ => True).
Proof.
  intros Hsp. revert cands t. induction k as [|k IH]; intros cands t Ht; cbn [load_chunks]; [by apply issues_ret|].
  apply (issues_bind _ _ _ (fun _ u => t <= u)).
  - apply issues_trip. intros r Hr. pose proof (loads_of_steps spec (take activeIndexPipelineChunkSize cands) now r Hsp ltac:(lia)) as Hl.
    split; [exact Hl|]. pose proof (csteps_time _ _ Hl). lia.
  - intros ls u Hu Htu. apply (issues_bind _ _ _ (fun _ _ => True)); [apply IH; lia|intros; by apply issues_ret].
Qed.

Lemma index_add_fine key zs : foreign key -> fine_op (addActiveIndexMembers env key zs).
Proof.
  intros Hk. unfold addActiveIndexMembers. destruct zs; [apply fine_ret|].
  apply fine_effort, fine_silent; intros r; apply csteps_foldl; intros; auto with commands.
Qed.
Lemma index_remove_fine key ms : foreign key -> fine_op (removeActiveIndexMembers env key ms).
Proof.
  intros Hk. unfold removeActiveIndexMembers. destruct ms; [apply fine_ret|].
  apply fine_effort, fine_silent; intros r; apply csteps_foldl; intros; auto with commands.
Qed.

Lemma reconcile_fine spec : spec_ok spec -> fine_op (reconcileExpiredIndexCandidates env c spec).
Proof.
  intros Hsp. unfold reconcileExpiredIndexCandidates. apply fine_now. intros now.
  apply (issues_bind _ _ _ (fun _ _ => True)); [apply issues_trip; intros r _; split; [apply steps_refl|exact I]|].
  intros members u Hu _. apply (issues_bind _ _ _ (fun _ _ => True)).
  - apply (issues_bind _ _ _ (fun _ _ => True)); [|intros; by apply issues_ret].
    apply load_chunks_issues; [exact Hsp|lia].
  - intros [loads stale] v _ _. apply issues_fine. apply fine_bind; [by apply index_add_fine, Hsp|intros _; by apply index_remove_fine, Hsp].
Qed.

(** Marker key and wait keys are counters; the startup script is a command. *)
Lemma delete_pages_fine pages : fine_op (delete_pages env pages).
Proof.
  induction pages as [|keys pages IH]; cbn [delete_pages]; [apply fine_ret|].
  apply fine_bind; [apply fine_silent; intros r; apply steps_refl|intros _]. apply fine_bind; [|intros _; exact IH].
  destruct keys; [apply fine_ret|]. apply fine_silent. intros r. apply csteps_foldl. intros; apply csteps_DEL_count.
Qed.

Lemma cleanup_members_fine spec members prefix now refreshed stale :
  spec_ok spec -> fine_op (cleanup_members env c spec members prefix now refreshed stale).
Proof.
  intros Hsp. destruct Hsp as [_ [kd' Hk]]. revert refreshed stale.
  induction members as [|m members IH]; intros refreshed stale; cbn [cleanup_members]; [apply fine_ret|].
  destruct (index_id m) as [i|]; [|apply IH]. rewrite Hk. apply fine_bind.
  - apply fine_trip. intros r. exact (csteps_cmd r (Startup kd' i prefix) I).
  - intros [removed remaining]. apply fine_bind; [apply fine_silent; intros; apply csteps_DEL_count|intros _].
    destruct (0 <? remaining); apply IH.
Qed.

Lemma stale_index_fine spec members prefix now :
  spec_ok spec -> fine_op (cleanupStaleProcessSlotsForIndex env c spec members prefix now).
Proof.
  intros Hsp. apply fine_bind; [by apply cleanup_members_fine|]. intros [refreshed stale].
  apply fine_bind; [by apply index_add_fine, Hsp|intros _; by apply index_remove_fine, Hsp].
Qed.

Lemma read_fine {A} (f : redis S -> A) : fine_op (trip env (fun r => (f r, r))).
Proof. apply fine_trip. intros r. apply steps_refl. Qed.

Lemma sweep_fine pages : fine_op (sweepLegacyWaitKeysOnce env pages).
Proof.
  unfold sweepLegacyWaitKeysOnce. apply fine_bind; [apply read_fine|intros swept]. destruct swept; [apply fine_ret|].
  apply fine_bind; [apply delete_pages_fine|intros _]. apply fine_bind; [apply delete_pages_fine|intros _].
  apply fine_silent. intros r. apply csteps_counts.
Qed.

Lemma startup_fine pages prefix : fine_op (CleanupStaleProcessSlots env c pages prefix).
Proof.
  unfold CleanupStaleProcessSlots. destruct (prefix ==? ""); [apply fine_ret|].
  apply fine_bind; [apply sweep_fine|intros _]. apply fine_bind; [apply read_fine|intros now].
  apply fine_bind; [apply read_fine|intros members]. apply fine_bind; [apply stale_index_fine, account_spec_ok|intros _].
  apply fine_bind; [apply read_fine|intros members2]. apply stale_index_fine, user_spec_ok.
Qed.

(** C28: the program touches the server only through the commands whose
    interleavings keep the limit.  Each operation of the cache, whatever round
    trips fail or lose their replies, is a sequence of allowed commands; the
    two that take a limit are allowed when the limit they pass is. *)
Theorem operations_issue_commands :
  let safe {A} (m : RM (S := S) A) := forall n r, csteps r (m n r).2 in
  (forall i max req, (kd = Acct -> i = id -> max <= C) -> safe (cache_AcquireAccountSlot env c i max req)) /\
  (forall i max req, (kd = Usr -> i = id -> max <= C) -> safe (cache_AcquireUserSlot env c i max req)) /\
  (forall a amax u umax api lease (repl : bool),
     (kd = Acct -> a = id -> 0 < amax <= C /\ (repl = true -> extra = 1%nat)) ->
     (kd = Usr -> u = id -> 0 < umax <= C /\ (repl = true -> extra = 1%nat)) ->
     safe (AcquireLiveLease env a amax u umax api lease repl)) /\
  (forall i req, safe (ReleaseAccountSlot env c i req) /\ safe (ReleaseUserSlot env c i req)) /\
  (forall i, safe (GetAccountConcurrency env c i) /\ safe (GetUserConcurrency env c i)) /\
  (forall i req, safe (cache_TrackAPIKeySlot env c i req) /\ safe (ReleaseAPIKeySlot env i req)) /\
  (forall a u api lease, safe (RefreshLiveLease env a u api lease) /\ safe (ReleaseLiveLease env a u api lease)) /\
  (forall api max lease, safe (cache_AcquireOpenAIWSIngressLease env api max lease) /\
     safe (RefreshOpenAIWSIngressLease env api lease) /\ safe (ReleaseOpenAIWSIngressLease env api lease)) /\
  (forall i max, safe (cache_IncrementWaitCount env c i max) /\ safe (cache_IncrementAccountWaitCount env c i max)) /\
  (forall i, safe (cache_DecrementWaitCount env c i) /\ safe (cache_DecrementAccountWaitCount env c i)) /\
  (forall ids ws, safe (cache_GetAccountConcurrencyBatch env c ids) /\ safe (cache_GetAPIKeyConcurrencyBatch env c ids) /\
     safe (cache_GetAccountsLoadBatch env c ws) /\ safe (cache_GetUsersLoadBatch env c ws)) /\
  (forall i, safe (CleanupExpiredAccountSlots env c i)) /\ safe (CleanupExpiredAccountSlotKeys env c) /\
  (forall pages prefix, safe (CleanupStaleProcessSlots env c pages prefix)).
Proof.
  assert (forall A (m : RM (S := S) A), fine_op m -> forall n r, csteps r (m n r).2) as Hf
    by (intros A m Hm n r; by apply (Hm (TIME r) n r)).
  cbv zeta. split_and!.
  - intros i max req Hm. apply Hf, (acquire_fine Acct); [|apply foreign_account_index]. intros Ek Ei. by apply Hm.
  - intros i max req Hm. apply Hf, (acquire_fine Usr); [|apply foreign_user_index]. intros Ek Ei. by apply Hm.
  - intros a amax u umax api lease repl Ha Hu. apply Hf, live_fine. intros r.
    split; [intros Ek Ei; destruct (Ha Ek Ei) as [Hm Hx]|intros Ek Ei; destruct (Hu Ek Ei) as [Hm Hx]];
      (split; [exact Hm|]); destruct repl; [by intros _; apply Hx|done|by intros _; apply Hx|done].
  - intros i req. split; apply Hf; (apply fine_bind; [|intros _]).
    + apply (release_fine Acct).
    + apply refresh_account_fine.
    + apply (release_fine Usr).
    + apply refresh_user_fine.
  - intros i. split; apply Hf; [apply (count_fine Acct)|apply (count_fine Usr)].
  - intros i req. split; apply Hf; apply track_fine.
  - intros a u api lease. split; apply Hf; [apply live_refresh_fine|apply live_release_fine].
  - intros api max lease. split_and!; apply Hf; by apply ingress_fine.
  - intros i max. split; apply Hf, wait_fine; auto with commands.
  - intros i. split; apply Hf; (apply fine_bind; [apply unwait_fine|intros _]);
      [apply refresh_user_fine|apply refresh_account_fine].
  - intros ids ws. split_and!; apply Hf; apply (batches_fine ids ws).
  - intros i. apply Hf, cleanup_fine.
  - apply Hf. apply fine_bind; [apply reconcile_fine, account_spec_ok|intros _; apply reconcile_fine, user_spec_ok].
  - intros pages prefix. apply Hf, startup_fine.
Qed.

End Refinement.

(** ** Wait queues *)

Section Waiting.
Context {S : Type} `{SortedSetLaws S}.
Variables (key : string) (M wttl : Z).
Hypothesis M_pos : 0 <= M.
Hypothesis wttl_pos : 0 < wttl.

(** The server and how many are waiting. *)
Inductive waiting_step : redis S * nat -> redis S * nat -> Prop :=
| wait_joins r n max :
    max <= M -> (incrementWaitScript key max wttl r).1.1 = 1 ->
    waiting_step (r, n) ((incrementWaitScript key max wttl r).2, Datatypes.S n)
| wait_refused r n max :
    (incrementWaitScript key max wttl r).1.1 = 0 ->
    waiting_step (r, n) ((incrementWaitScript key max wttl r).2, n)
| wait_leaves r n : waiting_step (r, Datatypes.S n) ((decrementWaitScript key r).2, n)
| wait_passes r n ms : waiting_step (r, n) (mkRedis (r_clock r + Z.of_N ms) (r_sets r) (r_counts r), n)
| wait_reset r n : waiting_step (r, n) (DEL_count key r, n).

Definition wait_count (r : redis S) : Z := default 0 (GET key r).

Lemma GET_SET n (r : redis S) : GET key (SET_count key n r) = Some n.
Proof.
  unfold SET_count, GET. cbn [r_counts with_counts]. rewrite lookup_insert_eq.
  assert (expired r (count_expiry key r) = false) as E.
  { unfold count_expiry. destruct (r_counts r !! key) as [[m e]|]; [|done]. by destruct (expired r e) eqn:E. }
  unfold expired in *. cbn [r_clock with_counts]. by rewrite E.
Qed.

Lemma GET_EXPIRE (r : redis S) : GET key (EXPIRE_count key wttl r) = GET key r.
Proof.
  unfold EXPIRE_count. destruct (GET key r) as [n|] eqn:E; [|done]. destruct (Z.leb_spec wttl 0); [lia|].
  unfold GET. cbn [r_counts with_counts]. rewrite lookup_insert_eq. unfold expired. cbn [r_clock with_counts].
  by destruct (Z.leb_spec (r_clock r + wttl * 1000) (r_clock r)); [lia|].
Qed.

Lemma GET_passes ms (r : redis S) :
  let r' := mkRedis (r_clock r + Z.of_N ms) (r_sets r) (r_counts r) in
  GET key r' = GET key r \/ GET key r' = None.
Proof.
  cbv zeta. unfold GET. cbn [r_counts]. destruct (r_counts r !! key) as [[n e]|]; [|by left].
  destruct (expired (mkRedis _ _ _) e) eqn:E'; [by right|left]. destruct (expired r e) eqn:E; [|done].
  destruct e as [e|]; [|done]. unfold expired in *. cbn [r_clock] in E'.
  destruct (Z.leb_spec e (r_clock r + Z.of_N ms)), (Z.leb_spec e (r_clock r)); done || lia.
Qed.

(** The wait counter never says more than are waiting, nor more than the
    largest queue allowed, and is never negative, whatever the expiries and
    resets of its key; so nobody is turned away while fewer than the maximum
    wait. *)
Theorem wait_count_bounds r0 w :
  GET key r0 = None -> rtc waiting_step (r0, 0%nat) w ->
  0 <= wait_count w.1 <= Z.min M (Z.of_nat w.2) /\
  forall max, (incrementWaitScript key max wttl w.1).1.1 = 0 -> max <= Z.of_nat w.2.
Proof.
  intros H0' Hs.
  assert (0 <= wait_count w.1 <= Z.min M (Z.of_nat w.2)) as Hinv.
  { remember (r0, 0%nat) as w0 eqn:E0. assert (0 <= wait_count w0.1 <= Z.min M (Z.of_nat w0.2)) as Hi.
    { subst w0. unfold wait_count. cbn. rewrite H0'. cbn. lia. }
    clear E0 H0'. induction Hs as [|w1 w2 w3 H1 _ IH]; [exact Hi|]. apply IH. clear IH.
    destruct H1 as [r n max Hm Hr|r n max Hr|r n|r n ms|r n]; cbn [fst snd] in *; unfold wait_count in *.
    - unfold incrementWaitScript in *. destruct (Z.leb_spec max (default 0 (GET key r))); cbn [fst snd] in *; [done|].
      rewrite GET_EXPIRE. unfold INCR. rewrite GET_SET. set (k := default 0 (GET key r)) in *. cbn [default from_option]; unfold id; lia.
    - unfold incrementWaitScript in *. destruct (Z.leb_spec max (default 0 (GET key r))); cbn [fst snd] in *; [exact Hi|done].
    - unfold decrementWaitScript. destruct (GET key r) as [k|] eqn:Eg; cbn [default from_option] in Hi; unfold id in Hi; [|cbn [snd]; rewrite Eg; cbn [default from_option]; unfold id; lia].
      destruct (Z.ltb_spec 0 k); cbn [snd].
      + unfold DECR. rewrite GET_SET, Eg. cbn [default from_option]; unfold id; lia.
      + rewrite Eg. cbn [default from_option]; unfold id; lia.
    - destruct (GET_passes ms r) as [-> | ->]; [exact Hi|cbn [default from_option]; unfold id; lia].
    - unfold GET, DEL_count. cbn [r_counts with_counts]. rewrite lookup_delete_eq. cbn [default from_option]; unfold id; lia. }
  split; [exact Hinv|]. intros max. unfold incrementWaitScript. fold (wait_count w.1).
  destruct (Z.leb_spec max (wait_count w.1)); cbn [fst]; [lia|done].
Qed.

End Waiting.

(** ** Loads and their cache *)

(** The load rate is the percentage of the limit in use, waiting requests
    included, rounded down; it reaches 100 exactly when the limit is used up. *)
Theorem load_rate_spec w current waiting :
  0 <= current -> 0 <= waiting -> (current + waiting) * 100 <= int64_max -> 0 < wc_MaxConcurrency w ->
  let rate := LoadRate (load_info w current waiting) in
  rate * wc_MaxConcurrency w <= (current + waiting) * 100 < (rate + 1) * wc_MaxConcurrency w /\
  (100 <= rate <-> wc_MaxConcurrency w <= current + waiting).
Proof.
  intros Hc Hw Hb Hm. cbv zeta. unfold load_info. cbn [LoadRate]. destruct (Z.ltb_spec 0 (wc_MaxConcurrency w)); [|lia].
  rewrite !wrap64_id by (rewrite ?wrap64_id; unfold int64_min, int64_max in *; lia).
  rewrite Z.quot_div_nonneg by lia. set (m := wc_MaxConcurrency w) in *. set (t := (current + waiting) * 100).
  pose proof (Z.div_mod t m ltac:(lia)) as E. pose proof (Z.mod_pos_bound t m ltac:(lia)).
  split; [nia|]. split; intros; [|apply Z.div_le_lower_bound]; nia.
Qed.

Section LoadCache.
Variable first_key : gmap string cachedAccountLoadBatch -> string.
Hypothesis first_key_in : forall m, m <> ∅ -> is_Some (m !! first_key m).

Lemma evict_size fuel m :
  (size m <= fuel)%nat -> (size (evict first_key fuel m) < maxAccountLoadBatchCacheEntries)%nat.
Proof.
  revert m. unfold maxAccountLoadBatchCacheEntries. induction fuel as [|fuel IH]; intros m Hs; cbn [evict]; [lia|].
  unfold maxAccountLoadBatchCacheEntries. destruct (Nat.leb_spec 256 (size m)); [|lia]. apply IH.
  destruct (first_key_in m) as [x Hx]; [intros ->; rewrite map_size_empty in *; lia|].
  pose proof (map_size_delete_Some (first_key m) m ltac:(by exists x)). lia.
Qed.

(** The cache of account loads stays within its bound and never answers
    with an entry past its time: a store keeps at most 256 entries, however
    the map is iterated, and makes its own entry available; a read returns
    only what has not expired, and forgets what has. *)
Theorem load_cache_bounded key value expires now m :
  (size m <= maxAccountLoadBatchCacheEntries)%nat ->
  let m' := storeCachedAccountLoadBatch first_key key value expires now m in
  (size m' <= maxAccountLoadBatchCacheEntries)%nat /\
  (Before now expires = true -> getCachedAccountLoadBatch key now m' = (Some value, m')) /\
  (forall k t, match getCachedAccountLoadBatch k t m' with
     | (Some v, _) => exists e, m' !! k = Some e /\ loadMap e = v /\ t < expiresAt e
     | (None, m2) => m2 !! k = None
     end).
Proof.
  intros Hs. cbv zeta. unfold storeCachedAccountLoadBatch. set (m1 := if (_ <=? _)%nat then _ else m).
  assert (size m1 < maxAccountLoadBatchCacheEntries)%nat as Hm1.
  { unfold m1. destruct (Nat.leb_spec maxAccountLoadBatchCacheEntries (size m)); [|done].
    by apply evict_size. }
  split_and!.
  - rewrite map_size_insert. destruct (m1 !! key); unfold id; lia.
  - intros Hb. unfold getCachedAccountLoadBatch. rewrite lookup_insert_eq. cbn [expiresAt]. by rewrite Hb.
  - intros k t. unfold getCachedAccountLoadBatch. destruct (<[_ := _]> m1 !! k) as [e|] eqn:E; [|exact E].
    destruct (Before t (expiresAt e)) eqn:Et; cbn [negb].
    + exists e. unfold Before in Et. split_and!; [done..|]. by apply Z.ltb_lt in Et.
    + apply lookup_delete_eq.
Qed.

End LoadCache.

(** ** Concrete runs *)

Definition cx_cache : concurrencyCache := NewConcurrencyCache 15 0.
Definition cx_env : rtenv := mkRt (fun _ => Fine) (fun _ => 10%N).

Lemma operations_issue_commands_witness :
  steps 900 (allowed Acct 7 1 0) cx_server
    (cache_AcquireAccountSlot cx_env cx_cache 7 1 "rA-1" 0%nat cx_server).2.
Proof.
  apply (proj1 (operations_issue_commands cx_env cx_cache ltac:(reflexivity) Acct 7 1 0%nat)). intros _ _. lia.
Defined.

Lemma wait_count_bounds_witness :
  let r := (incrementWaitScript "concurrency:wait:3" 2 900 cx_server).2 in
  0 <= wait_count "concurrency:wait:3" r <= Z.min 2 (Z.of_nat 1).
Proof.
  cbv zeta.
  apply (wait_count_bounds "concurrency:wait:3" 2 900 ltac:(lia) ltac:(lia) cx_server
    ((incrementWaitScript "concurrency:wait:3" 2 900 cx_server).2, 1%nat)).
  - reflexivity.
  - apply rtc_once. apply (wait_joins "concurrency:wait:3" 2 900 cx_server 0 2); [lia|vm_compute; reflexivity].
Defined.

Lemma load_rate_spec_witness :
  LoadRate (load_info (mkWith 7 4) 3 2) = 125 /\
  (100 <= LoadRate (load_info (mkWith 7 4) 3 2) <-> 4 <= 3 + 2).
Proof.
  split; [vm_compute; reflexivity|].
  apply (load_rate_spec (mkWith 7 4) 3 2); [lia|lia|unfold int64_max; lia|reflexivity].
Defined.

Definition cx_first (m : gmap string cachedAccountLoadBatch) : string :=
  match map_to_list m with (k, _) :: _ => k | [] => "" end.

Lemma cx_first_in m : m <> ∅ -> is_Some (m !! cx_first m).
Proof.
  intros Hm. unfold cx_first. destruct (map_to_list m) as [|[k e] l] eqn:E.
  - by apply map_to_list_empty_iff in E.
  - exists e. apply elem_of_map_to_list. rewrite E. left.
Qed.

Lemma load_cache_bounded_witness :
  let m := storeCachedAccountLoadBatch cx_first "1:ab" ∅ 200 0 ∅ in
  (size m <= 256)%nat /\ getCachedAccountLoadBatch "1:ab" 0 m = (Some ∅, m).
Proof.
  destruct (load_cache_bounded cx_first cx_first_in "1:ab" ∅ 200 0 ∅) as (H1 & H2 & _).
  - rewrite map_size_empty. unfold maxAccountLoadBatchCacheEntries. lia.
  - cbv zeta. split; [exact H1|]. apply H2. reflexivity.
Defined.

(** A second process starts while the first serves a request: its startup
    cleanup removes the slot of the first, and account 7 serves two requests
    with a limit of one. *)
Example startup_breaks_limit :
  let (a, r1) := (fun x => (x.1.1, x.2)) (cache_AcquireAccountSlot cx_env cx_cache 7 1 "rA-1" 0%nat cx_server) in
  let r2 := (CleanupStaleProcessSlots cx_env cx_cache (fun _ => []) "rB" 0%nat r1).2 in
  let b := (cache_AcquireAccountSlot cx_env cx_cache 7 1 "rB-1" 0%nat r2).1.1 in
  a = Some true /\ b = Some true /\
  (cache_AcquireAccountSlot cx_env cx_cache 7 1 "rB-1" 0%nat r1).1.1 = Some false.
Proof. vm_compute. split_and!; reflexivity. Qed.

(** The refresh of the index after a release reads no load, another request
    takes a slot and marks the account, and the refresh removes the mark: the
    account has a slot and the index does not know it. *)
Example index_forgets_active_account :
  let r1 := ZREM (accountSlotKey 7) "rA-1" cx_taken in
  let idle_seen := idle (load_of cx_cache 7 "7" (accountSlotKey 7) (accountWaitKey 7) (TIME r1) r1).1 in
  let r2 := (cache_AcquireAccountSlot cx_env cx_cache 7 1 "rA-2" 0%nat r1).2 in
  let r3 := ZREM accountActiveIndexKey "7" r2 in
  idle_seen = true /\ ZCARD (accountSlotKey 7) r3 = 1 /\ zmembers (zset accountActiveIndexKey r3) = [].
Proof. vm_compute. split_and!; reflexivity. Qed.

(** The lease script does not trim the regular slots: one that has run out,
    in a set that a later slot keeps alive, still counts against the lease,
    though not against a regular request. *)
Example live_lease_counts_expired :
  let later ms (r : redis GSet) := mkRedis (r_clock r + ms) (r_sets r) (r_counts r) in
  let r := later 450000 (exec 900 (Acquire Acct 7 2 "rA-2") (later 500000 cx_taken)) in
  size (alive 900 (accountSlotKey 7) r) = 1%nat /\
  (AcquireLiveLease cx_env 7 2 1 5 9 "lease" false 0%nat r).1.1 = Some false /\
  (cache_AcquireAccountSlot cx_env cx_cache 7 2 "rA-3" 0%nat r).1.1 = Some true.
Proof. vm_compute. split_and!; reflexivity. Qed.
