(* ===== verification/Float64Exact.v ===== *)
(** * Exactness and signs of binary64 arithmetic

    [math.Round] and [math.Abs], the exact representation of the integers below
    2^53, and closure of the values that are not negative under the operations:
    what the bounds on charges and token counts rest on. *)

From S2P Require Import Prelude Float64.
Local Open Scope Z_scope.

(** [math.Round]: half away from zero. *)
Definition fround (x : f64) : f64 :=
  match x with
  | S754_finite s m e =>
      if 0 <=? e then x
      else let k := (2 * Z.pos m + 2 ^ (- e)) / 2 ^ (1 - e) in
           binary_normalize 53 1024 (if s then - k else k) 0 s
  | _ => x
  end.

Example fround_ex :
  fround (fdiv (f64_of_Z 5) (f64_of_Z 2)) = f64_of_Z 3 /\ fround (fdiv (f64_of_Z (-5)) (f64_of_Z 2)) = f64_of_Z (-3) /\
  fround (fdiv (f64_of_Z 1) (f64_of_Z 3)) = f0 /\ fround (f64_of_Z (2 ^ 60)) = f64_of_Z (2 ^ 60).
Proof. vm_compute. repeat split. Qed.

(** ** Mantissas stay below 2^53 *)

Lemma digits2_log2 p : Z.pos (digits2_pos p) = Z.log2 (Z.pos p) + 1.
Proof.
  induction p as [p IH|p IH|]; [| |reflexivity]; cbn [digits2_pos]; rewrite Pos2Z.inj_succ, IH.
  - rewrite (Pos2Z.inj_xI p), Z.log2_succ_double by lia. lia.
  - rewrite (Pos2Z.inj_xO p), Z.log2_double by lia. lia.
Qed.

Lemma shr_1_m mrs : 0 <= shr_m mrs -> shr_m (shr_1 mrs) = shr_m mrs / 2.
Proof.
  destruct mrs as [[|[p|p|]|p] r s]; cbn; intros H; try lia; try reflexivity.
  - rewrite Pos2Z.inj_xI. apply (Z.div_unique_pos _ _ _ 1); lia.
  - rewrite Pos2Z.inj_xO. apply (Z.div_unique_pos _ _ _ 0); lia.
Qed.

Lemma iter_shr_m p mrs : 0 <= shr_m mrs -> shr_m (iter_pos shr_1 p mrs) = shr_m mrs / 2 ^ Z.pos p.
Proof.
  assert (Hpos : forall z q, 0 <= z -> 0 <= z / 2 ^ Z.pos q) by (intros; apply Z.div_pos; [done|apply Z.pow_pos_nonneg; lia]).
  assert (Hne : forall q, 0 < 2 ^ Z.pos q) by (intros; apply Z.pow_pos_nonneg; lia).
  revert mrs. induction p as [p IH|p IH|]; intros mrs Hm; cbn [iter_pos].
  - assert (0 <= shr_m (shr_1 mrs)) as H1 by (rewrite shr_1_m by done; apply Z.div_pos; lia).
    pose proof (IH _ H1) as E1. rewrite IH by (rewrite E1; auto). rewrite E1, shr_1_m by done.
    pose proof (Hne p). rewrite !Z.div_div by lia. f_equal.
    replace (Z.pos p~1) with (Z.pos p + Z.pos p + 1) by lia. rewrite !Z.pow_add_r by lia. lia.
  - pose proof (IH _ Hm) as E1. rewrite IH by (rewrite E1; auto). rewrite E1.
    pose proof (Hne p). rewrite !Z.div_div by lia. f_equal.
    replace (Z.pos p~0) with (Z.pos p + Z.pos p) by lia. by rewrite Z.pow_add_r by lia.
  - rewrite shr_1_m by done. reflexivity.
Qed.

Lemma shr_fexp_bound m e l : 0 <= m -> 0 <= shr_m (shr_fexp 53 1024 m e l).1 < 2 ^ 53.
Proof.
  intros Hm. unfold shr_fexp, shr. set (n := fexp 53 1024 (Zdigits2 m + e) - e).
  assert (Hrec : shr_m (shr_record_of_loc m l) = m) by (by destruct l as [|[]]).
  assert (Hn : m = 0 \/ Z.log2 m + 1 - 53 <= n).
  { destruct m as [|p|p]; [by left| |lia]. right. unfold n, fexp. cbn [Zdigits2]. rewrite digits2_log2. lia. }
  destruct n as [|p|p] eqn:En; cbn [fst].
  - rewrite Hrec. destruct Hn as [-> |Hn]; [split; [lia|reflexivity]|].
    destruct (Z.eq_dec m 0) as [-> |]; [split; [lia|reflexivity]|]. split; [lia|]. apply Z.log2_lt_pow2; lia.
  - rewrite iter_shr_m, Hrec by (by rewrite Hrec). split; [apply Z.div_pos; [lia|apply Z.pow_pos_nonneg; lia]|].
    destruct (Z.eq_dec m 0) as [-> |]; [rewrite Z.div_0_l by (apply Z.pow_nonzero; lia); reflexivity|].
    apply Z.div_lt_upper_bound; [apply Z.pow_pos_nonneg; lia|].
    rewrite <-Z.pow_add_r by lia. apply Z.log2_lt_pow2; lia.
  - rewrite Hrec. destruct Hn as [-> |Hn]; [split; [lia|reflexivity]|].
    destruct (Z.eq_dec m 0) as [-> |]; [split; [lia|reflexivity]|]. split; [lia|].
    apply Z.log2_lt_pow2; lia.
Qed.

Definition short (x : f64) : Prop := match x with S754_finite _ m _ => Z.pos m < 2 ^ 53 | _ => True end.

Lemma round_short s m e l : 0 <= m -> short (binary_round_aux 53 1024 s m e l).
Proof.
  intros Hm. unfold binary_round_aux. pose proof (shr_fexp_bound m e l Hm) as H1.
  destruct (shr_fexp 53 1024 m e l) as [m1 e1]. cbn [fst] in H1.
  assert (0 <= round_nearest_even (shr_m m1) (loc_of_shr_record m1)) as H2.
  { unfold round_nearest_even. destruct (loc_of_shr_record m1) as [|[]]; try lia. destruct (Z.even _); lia. }
  pose proof (shr_fexp_bound _ e1 loc_Exact H2) as H3. destruct (shr_fexp 53 1024 _ e1 loc_Exact) as [m2 e2].
  cbn [fst] in H3. destruct (shr_m m2) as [|p|p]; [exact I| |exact I].
  destruct (_ <=? _); [exact (proj2 H3)|exact I].
Qed.

Lemma div_core_nonneg m1 e1 m2 e2 : 0 < m1 -> 0 < m2 -> 0 <= (SFdiv_core_binary 53 1024 m1 e1 m2 e2).1.1.
Proof.
  intros H1 H2. unfold SFdiv_core_binary. set (m' := match _ with Z0 => _ | Zpos _ => _ | Zneg _ => _ end).
  assert (0 <= m') as Hm.
  { unfold m'. destruct (_ - _)%Z; [lia| |lia]. apply Z.shiftl_nonneg. lia. }
  pose proof (Z.div_pos m' m2 Hm ltac:(lia)) as Hq. unfold Z.div in Hq. by destruct (Z.div_eucl m' m2) as [q r].
Qed.

Lemma fdiv_short x y : short (fdiv x y).
Proof.
  destruct x as [s|s| |s mx ex], y as [s'|s'| |s' my ey]; try exact I. unfold fdiv, SFdiv.
  pose proof (div_core_nonneg (Z.pos mx) ex (Z.pos my) ey eq_refl eq_refl) as H.
  destruct (SFdiv_core_binary _ _ _ _ _ _) as [[mz ez] lz]. by apply round_short.
Qed.

(** ** The integers below 2^53 are exact *)

Lemma shr_fexp_fits m e :
  0 < m -> Z.log2 m = 52 -> -1074 <= e -> shr_fexp 53 1024 m e loc_Exact = (Build_shr_record m false false, e).
Proof.
  intros Hm Hl He. unfold shr_fexp, shr. destruct m as [|p|p]; [lia| |lia]. cbn [Zdigits2].
  rewrite digits2_log2, Hl. unfold fexp, emin. replace (Z.max _ _ - e) with 0 by lia. reflexivity.
Qed.

Lemma iter_xO m d : Z.pos (Pos.iter xO m d) = Z.pos m * 2 ^ Z.pos d.
Proof.
  induction d as [|d IH] using Pos.peano_ind; [cbn; lia|].
  rewrite Pos.iter_succ, Pos2Z.inj_succ, Z.pow_succ_r, Pos2Z.inj_xO, IH by lia. lia.
Qed.

Lemma of_Z_exact n : 0 < n < 2 ^ 53 ->
  f64_of_Z n = S754_finite false (Z.to_pos (n * 2 ^ (52 - Z.log2 n))) (Z.log2 n - 52).
Proof.
  intros [Hn Hlt]. assert (0 <= Z.log2 n <= 52) as Hl by (split; [apply Z.log2_nonneg|]; apply Z.log2_lt_pow2 in Hlt; lia).
  destruct n as [|p|p]; [lia| |lia]. unfold f64_of_Z, binary_normalize, binary_round, shl_align.
  rewrite digits2_log2. replace (fexp 53 1024 (Z.log2 (Z.pos p) + 1 + 0) - 0) with (Z.log2 (Z.pos p) - 52)
    by (unfold fexp, emin; lia).
  assert (exists mz, match Z.log2 (Z.pos p) - 52 with
    | Z.neg d => (Pos.iter xO p d, fexp 53 1024 (Z.log2 (Z.pos p) + 1 + 0))
    | _ => (p, 0) end = (mz, Z.log2 (Z.pos p) - 52) /\ Z.pos mz = Z.pos p * 2 ^ (52 - Z.log2 (Z.pos p))) as (mz & -> & Hmz).
  { destruct (Z.log2 (Z.pos p) - 52) as [|d|d] eqn:Ed; [|lia|].
    - exists p. replace (52 - _) with 0 by lia. split; [done|lia].
    - exists (Pos.iter xO p d). split; [|rewrite iter_xO; do 2 f_equal; lia]. f_equal. unfold fexp, emin. lia. }
  assert (Z.log2 (Z.pos mz) = 52) as Hlog.
  { rewrite Hmz, Z.log2_mul_pow2 by lia. lia. }
  unfold binary_round_aux. rewrite shr_fexp_fits by lia. cbn [shr_m loc_of_shr_record round_nearest_even].
  rewrite shr_fexp_fits by lia. cbn [shr_m]. rewrite (proj2 (Z.leb_le _ _)) by lia. rewrite <-Hmz. reflexivity.
Qed.

Lemma trunc_of_Z n : 0 <= n < 2 ^ 53 -> f64_trunc (f64_of_Z n) = Some n.
Proof.
  intros [Hn Hlt]. destruct (Z.eq_dec n 0) as [-> |]; [reflexivity|]. rewrite of_Z_exact by lia. cbn [f64_trunc].
  assert (0 <= Z.log2 n <= 52) as Hl by (split; [apply Z.log2_nonneg|]; apply Z.log2_lt_pow2 in Hlt; lia).
  assert (0 < 2 ^ (52 - Z.log2 n)) as Hp by (apply Z.pow_pos_nonneg; lia).
  rewrite Z2Pos.id by nia. f_equal. destruct (Z.leb_spec 0 (Z.log2 n - 52)) as [H|H].
  - replace (52 - Z.log2 n) with 0 by lia. replace (Z.log2 n - 52) with 0 by lia. lia.
  - replace (- (Z.log2 n - 52)) with (52 - Z.log2 n) by lia. apply Z.div_mul. lia.
Qed.

Lemma fltb_of_Z n k : 0 < n < 2 ^ 53 -> 0 < k < 2 ^ 53 -> fltb (f64_of_Z n) (f64_of_Z k) = (n <? k).
Proof.
  intros Hn Hk. rewrite !of_Z_exact by done. unfold fltb. rewrite SFcompare_finite.
  pose proof (Z.log2_spec n ltac:(lia)) as [Hn1 Hn2]. pose proof (Z.log2_spec k ltac:(lia)) as [Hk1 Hk2].
  pose proof (Z.log2_nonneg n). pose proof (Z.log2_nonneg k).
  assert (Z.log2 n <= 52) by (apply Z.lt_succ_r, Z.log2_lt_pow2; lia).
  destruct (Z.compare_spec (Z.log2 n - 52) (Z.log2 k - 52)) as [E|E|E].
  - replace (Z.log2 k) with (Z.log2 n) by lia. set (c := 2 ^ (52 - Z.log2 n)). assert (0 < c) by (apply Z.pow_pos_nonneg; lia).
    destruct (Pos.compare_spec (Z.to_pos (n * c)) (Z.to_pos (k * c))) as [F|F|F]; destruct (Z.ltb_spec n k); try done; exfalso; nia.
  - symmetry. apply Z.ltb_lt. pose proof (Z.pow_le_mono_r 2 (Z.succ (Z.log2 n)) (Z.log2 k)). lia.
  - symmetry. apply Z.ltb_ge. pose proof (Z.pow_le_mono_r 2 (Z.succ (Z.log2 k)) (Z.log2 n)). lia.
Qed.

(** ** Values that are not negative (NaN included) *)

Definition nonneg (x : f64) : Prop :=
  match x with S754_finite s _ _ | S754_infinity s => s = false | _ => True end.

Lemma nonneg_fltb x : nonneg x -> fltb x f0 = false.
Proof. destruct x as [[]|[]| |[] m e]; done. Qed.
Lemma fltb_nonneg x : fltb x f0 = false -> nonneg x.
Proof. destruct x as [[]|[]| |[] m e]; done. Qed.

Lemma round_nonneg mx ex lx : nonneg (binary_round_aux 53 1024 false mx ex lx).
Proof.
  unfold binary_round_aux. destruct (shr_fexp _ _ mx ex lx) as [m1 e1].
  destruct (shr_fexp _ _ _ _ _) as [m2 e2]. destruct (shr_m m2); simpl; try done.
  by destruct (_ <=? _).
Qed.

Lemma normalize_nonneg m e s : 0 <= m -> nonneg (binary_normalize 53 1024 m e s).
Proof.
  intros Hm. destruct m as [|p|p]; simpl; [done| |lia]. unfold binary_round.
  destruct (shl_align _ _ _). apply round_nonneg.
Qed.

Lemma fadd_nonneg x y : nonneg x -> nonneg y -> nonneg (fadd x y).
Proof.
  destruct x as [[]|[]| |[] mx ex], y as [[]|[]| |[] my ey]; try done; intros _ _.
  unfold fadd, SFadd. cbv zeta. apply normalize_nonneg. simpl. lia.
Qed.
Lemma fmul_nonneg x y : nonneg x -> nonneg y -> nonneg (fmul x y).
Proof.
  destruct x as [[]|[]| |[] mx ex], y as [[]|[]| |[] my ey]; try done; intros _ _; apply round_nonneg.
Qed.
Lemma fdiv_nonneg x y : nonneg x -> nonneg y -> y <> S754_zero true -> nonneg (fdiv x y).
Proof.
  destruct x as [[]|[]| |[] mx ex], y as [[]|[]| |[] my ey]; try done; intros _ _ _; unfold fdiv, SFdiv;
    destruct (SFdiv_core_binary _ _ _ _ _ _) as [[mz ez] lz]; apply round_nonneg.
Qed.
Lemma f64_of_Z_nonneg n : 0 <= n -> nonneg (f64_of_Z n).
Proof. apply normalize_nonneg. Qed.

#[export] Hint Resolve fadd_nonneg fmul_nonneg f64_of_Z_nonneg : go.

(** A rounded value below an integer is truncated to a smaller integer. *)
Lemma fround_below x a : short x -> nonneg x -> 0 < a < 2 ^ 53 ->
  fltb (fround x) (f64_of_Z a) = true -> exists k, f64_trunc (fround x) = Some k /\ 0 <= k < a.
Proof.
  intros Hs Hn Ha Hlt. destruct x as [s|[]| |[] m e]; try done.
  - exists 0. split; [reflexivity|lia].
  - exfalso. revert Hlt. rewrite of_Z_exact by done. done.
  - unfold fround in *. cbn [short] in Hs. destruct (Z.leb_spec 0 e) as [He|He].
    + revert Hlt. rewrite of_Z_exact by done. unfold fltb. rewrite SFcompare_finite.
      assert (Z.log2 a <= 52) by (apply Z.lt_succ_r, Z.log2_lt_pow2; lia).
      destruct (Z.compare_spec e (Z.log2 a - 52)) as [E|E|E]; [|lia|done].
      assert (e = 0) as -> by lia. replace (52 - Z.log2 a) with 0 by lia.
      destruct (Pos.compare_spec m (Z.to_pos (a * 2 ^ 0))) as [F|F|F]; [done| |done]. intros _.
      exists (Z.pos m). cbn. split; [f_equal; lia|]. split; [lia|]. lia.
    + set (k := (2 * Z.pos m + 2 ^ (- e)) / 2 ^ (1 - e)) in *.
      assert (0 < 2 ^ (- e)) as Hp by (apply Z.pow_pos_nonneg; lia).
      assert (2 ^ (1 - e) = 2 * 2 ^ (- e)) as Hq by (rewrite <-Z.pow_succ_r by lia; f_equal; lia).
      assert (2 <= 2 ^ (- e)) as Hp2 by (change 2 with (2 ^ 1) at 1; apply Z.pow_le_mono_r; lia).
      assert (0 <= k < 2 ^ 53) as Hk.
      { unfold k. split; [apply Z.div_pos; lia|]. apply Z.div_lt_upper_bound; nia. }
      change (binary_normalize 53 1024 k 0 false) with (f64_of_Z k) in *.
      exists k. split; [by apply trunc_of_Z|]. split; [lia|].
      destruct (Z.eq_dec k 0) as [-> |]; [lia|]. rewrite fltb_of_Z in Hlt by lia. by apply Z.ltb_lt.
Qed.

(** ** When rounding gives a finite value *)

Lemma round_not_nan s m e l : 0 <= m -> f_is_nan (binary_round_aux 53 1024 s m e l) = false.
Proof.
  intros Hm. unfold binary_round_aux. pose proof (shr_fexp_bound m e l Hm) as H1.
  destruct (shr_fexp 53 1024 m e l) as [m1 e1]. cbn [fst] in H1.
  assert (0 <= round_nearest_even (shr_m m1) (loc_of_shr_record m1)) as H2.
  { unfold round_nearest_even. destruct (loc_of_shr_record m1) as [|[]]; try lia. destruct (Z.even _); lia. }
  pose proof (shr_fexp_bound _ e1 loc_Exact H2) as H3. destruct (shr_fexp 53 1024 _ e1 loc_Exact) as [m2 e2].
  cbn [fst] in H3. destruct (shr_m m2) as [|p|p]; [done| |lia]. by destruct (_ <=? _).
Qed.

Lemma normalize_not_nan m e s : f_is_nan (binary_normalize 53 1024 m e s) = false.
Proof.
  destruct m as [|p|p]; [done| |]; simpl; unfold binary_round; destruct (shl_align _ _ _); by apply round_not_nan.
Qed.

Lemma fround_not_nan x : f_is_nan x = false -> f_is_nan (fround x) = false.
Proof.
  destruct x as [s|s| |s m e]; try done. intros _. unfold fround. destruct (0 <=? e); [done|]. apply normalize_not_nan.
Qed.

Definition finite_pos (x : f64) : Prop := match x with S754_finite false _ _ => True | _ => False end.

Lemma fdiv_not_nan x y : finite_pos x \/ x = f0 -> finite_pos y -> f_is_nan (fdiv x y) = false.
Proof.
  intros [Hx| ->] Hy; destruct y as [s'|s'| |[] my ey]; try done. destruct x as [s|s| |[] mx ex]; try done.
  unfold fdiv, SFdiv. pose proof (div_core_nonneg (Z.pos mx) ex (Z.pos my) ey eq_refl eq_refl) as H.
  destruct (SFdiv_core_binary _ _ _ _ _ _) as [[mz ez] lz]. by apply round_not_nan.
Qed.

Lemma finite_pos_nonneg x : finite_pos x -> nonneg x.
Proof. by destruct x as [[]|[]| |[] m e]. Qed.

Lemma shr_fexp_large m e : 0 < m -> -1074 <= e ->
  exists k, 0 <= k /\ (shr_fexp 53 1024 m e loc_Exact).2 = e + k /\
    (k = 0 -> shr_m (shr_fexp 53 1024 m e loc_Exact).1 = m) /\
    0 < shr_m (shr_fexp 53 1024 m e loc_Exact).1 /\ k <= Z.max 0 (Z.log2 m - 52).
Proof.
  intros Hm He. unfold shr_fexp, shr. destruct m as [|p|p]; [lia| |lia]. cbn [Zdigits2]. rewrite digits2_log2.
  pose proof (Z.log2_nonneg (Z.pos p)). set (n := fexp 53 1024 (Z.log2 (Z.pos p) + 1 + e) - e).
  assert (n <= 0 \/ n = Z.log2 (Z.pos p) - 52) as Hn by (unfold n, fexp, emin; lia).
  destruct n as [|q|q] eqn:En; cbn [fst snd shr_m shr_record_of_loc].
  - exists 0. repeat split; lia.
  - exists (Z.pos q). rewrite iter_shr_m by (cbn; lia). cbn [shr_m]. split_and!; try lia.
    apply Z.div_str_pos. split; [apply Z.pow_pos_nonneg; lia|]. apply Z.log2_le_pow2; lia.
  - exists 0. repeat split; lia.
Qed.

Lemma round_finite m e : 0 < m -> -1074 <= e -> Z.log2 m + e <= 900 -> finite_pos (binary_round_aux 53 1024 false m e loc_Exact).
Proof.
  intros Hm He Hl. unfold binary_round_aux. destruct (shr_fexp_large m e Hm He) as (k & Hk & E1 & _ & Hp & Hkl).
  pose proof (shr_fexp_bound m e loc_Exact ltac:(lia)) as Hb.
  destruct (shr_fexp 53 1024 m e loc_Exact) as [m1 e1]. cbn [fst snd] in *. subst e1.
  set (m2 := round_nearest_even (shr_m m1) (loc_of_shr_record m1)).
  assert (0 < m2 <= 2 ^ 53) as Hm2.
  { unfold m2, round_nearest_even. destruct (loc_of_shr_record m1) as [|[]]; try lia. destruct (Z.even _); lia. }
  destruct (shr_fexp_large m2 (e + k) ltac:(lia) ltac:(lia)) as (k2 & Hk2 & E2 & _ & Hp2 & Hkl2).
  assert (Z.log2 m2 <= 53) by (transitivity (Z.log2 (2 ^ 53)); [apply Z.log2_le_mono; lia|reflexivity]).
  destruct (shr_fexp 53 1024 m2 (e + k) loc_Exact) as [m3 e3]. cbn [fst snd] in *. subst e3.
  pose proof (Z.log2_nonneg m). destruct (shr_m m3) as [|p|p]; [lia| |lia].
  rewrite (proj2 (Z.leb_le _ _)) by lia. exact I.
Qed.

Lemma of_Z_parts n : 0 < n < 2 ^ 53 -> exists m e, f64_of_Z n = S754_finite false m e /\
  -52 <= e <= 0 /\ Z.log2 (Z.pos m) = 52 /\ Z.pos m * 2 ^ (52 + e) = n * 2 ^ 52.
Proof.
  intros Hn. rewrite of_Z_exact by done. eexists _, _. split; [reflexivity|].
  assert (0 <= Z.log2 n <= 52) as Hl by (split; [apply Z.log2_nonneg|apply Z.lt_succ_r, Z.log2_lt_pow2; lia]).
  assert (0 < 2 ^ (52 - Z.log2 n)) as Hp by (apply Z.pow_pos_nonneg; lia).
  rewrite Z2Pos.id by nia. split; [lia|]. split; [rewrite Z.log2_mul_pow2; lia|].
  rewrite <-Z.mul_assoc, <-Z.pow_add_r by lia. do 2 f_equal. lia.
Qed.

Lemma fmul_ints a b : 0 < a < 2 ^ 53 -> 0 < b < 2 ^ 53 -> finite_pos (fmul (f64_of_Z a) (f64_of_Z b)).
Proof.
  intros Ha Hb. destruct (of_Z_parts a Ha) as (ma & ea & -> & Hea & Hma & _).
  destruct (of_Z_parts b Hb) as (mb & eb & -> & Heb & Hmb & _). unfold fmul, SFmul. cbn [xorb].
  apply round_finite; [lia|lia|]. rewrite Pos2Z.inj_mul. pose proof (Z.log2_mul_above (Z.pos ma) (Z.pos mb)). lia.
Qed.

Lemma fadd_ints a b : 0 < a < 2 ^ 53 -> 0 < b < 2 ^ 53 -> finite_pos (fadd (f64_of_Z a) (f64_of_Z b)).
Proof.
  intros Ha Hb. destruct (of_Z_parts a Ha) as (ma & ea & -> & Hea & Hma & _).
  destruct (of_Z_parts b Hb) as (mb & eb & -> & Heb & Hmb & _). unfold fadd, SFadd. cbn [cond_Zopp].
  set (ez := Z.min ea eb). assert (forall m e, -52 <= e <= 0 -> ez <= e -> Z.log2 (Z.pos m) = 52 ->
    Z.log2 (Z.pos (shl_align m e ez).1) <= 104) as Hsh.
  { intros m e He Hez Hl. unfold shl_align. destruct (ez - e) as [|d|d] eqn:Ed; cbn [fst]; [lia|lia|].
    rewrite iter_xO, Z.log2_mul_pow2 by lia. lia. }
  specialize (Hsh ma ea Hea ltac:(lia) Hma) as H1. specialize (Hsh mb eb Heb ltac:(lia) Hmb) as H2.
  set (p := (shl_align ma ea ez).1) in *. set (q := (shl_align mb eb ez).1) in *. clearbody p q.
  change (Z.pos p + Z.pos q) with (Z.pos (p + q)). unfold binary_normalize, binary_round.
  assert (Z.log2 (Z.pos (p + q)) <= 105) as Hl.
  { apply Z.lt_succ_r, Z.log2_lt_pow2; [lia|]. rewrite Pos2Z.inj_add.
    assert (forall r, Z.log2 (Z.pos r) <= 104 -> Z.pos r < 2 ^ 105) as Hr by (intros; apply Z.log2_lt_pow2; lia).
    pose proof (Hr p H1). pose proof (Hr q H2). change (2 ^ Z.succ 105) with (2 * 2 ^ 105). lia. }
  rewrite digits2_log2. unfold shl_align. destruct (fexp _ _ _ - ez) as [|d|d] eqn:Ed.
  - apply round_finite; lia.
  - apply round_finite; lia.
  - unfold fexp, emin in *. pose proof (Z.log2_nonneg (Z.pos (p + q))).
    apply round_finite; [lia|lia|]. rewrite iter_xO, Z.log2_mul_pow2 by lia. lia.
Qed.

(** Counts that may be zero. *)
Lemma fmul_counts a b : 0 < a < 2 ^ 53 -> 0 <= b < 2 ^ 53 ->
  finite_pos (fmul (f64_of_Z a) (f64_of_Z b)) \/ fmul (f64_of_Z a) (f64_of_Z b) = f0.
Proof.
  intros Ha Hb. destruct (Z.eq_dec b 0) as [-> |]; [right|left; apply fmul_ints; lia].
  rewrite of_Z_exact by done. reflexivity.
Qed.

Lemma fadd_counts a b : 0 <= a < 2 ^ 53 -> 0 <= b < 2 ^ 53 -> 0 < a + b -> finite_pos (fadd (f64_of_Z a) (f64_of_Z b)).
Proof.
  intros Ha Hb Hs. destruct (Z.eq_dec a 0) as [-> |]; [rewrite (of_Z_exact b) by lia; exact I|].
  destruct (Z.eq_dec b 0) as [-> |]; [rewrite (of_Z_exact a) by lia; exact I|]. apply fadd_ints; lia.
Qed.

(** ** Differences

    A double is canonical, so that comparing exponents first compares the
    values; the difference of two of them has the sign of the comparison. *)

Definition is_f64 (x : f64) : Prop := valid_binary 53 1024 x = true.

Lemma shl_align_Z m e e' : e' <= e -> Z.pos (shl_align m e e').1 = Z.pos m * 2 ^ (e - e').
Proof.
  intros He. unfold shl_align. destruct (e' - e) as [|p|p] eqn:Hd; [|lia|].
  - replace (e - e') with 0 by lia. simpl. lia.
  - replace (e - e') with (Z.pos p) by lia. simpl fst. unfold shift_pos.
    apply iter_xO.
Qed.

(** Of two canonical mantissas the one with the larger exponent is larger. *)
Lemma canonical_lt mx ex my ey :
  is_f64 (S754_finite false mx ex) -> is_f64 (S754_finite false my ey) -> ex < ey ->
  Z.pos mx < Z.pos my * 2 ^ (ey - ex).
Proof.
  unfold is_f64, valid_binary, bounded, canonical_mantissa, fexp, emin. intros Hx Hy Hlt.
  apply andb_true_iff in Hx as [Hx _], Hy as [Hy _]. apply Zeq_bool_eq in Hx, Hy.
  rewrite !digits2_log2 in *.
  assert (Hmx : Z.pos mx < 2 ^ 53).
  { apply Z.log2_lt_pow2; lia. }
  assert (Hmy : 2 ^ 52 <= Z.pos my).
  { apply Z.log2_le_pow2; lia. }
  assert (2 ^ 1 <= 2 ^ (ey - ex)) by (apply Z.pow_le_mono_r; lia).
  change (2 ^ 53) with (2 ^ 52 * 2) in Hmx. nia.
Qed.

Lemma fsub_nonpos x y : is_f64 x -> is_f64 y -> fleb x y = true -> nonpos (fsub x y).
Proof.
  destruct x as [[]|[]| |sx mx ex], y as [[]|[]| |sy my ey]; try done;
    try (destruct sx; done); try (destruct sy; done).
  intros Hx Hy Hle. unfold fsub, SFsub. cbv zeta. apply normalize_nonpos.
  set (z := Z.min ex ey). unfold fleb in Hle. rewrite SFcompare_finite in Hle.
  pose proof (shl_align_Z mx ex z ltac:(lia)) as Ax. pose proof (shl_align_Z my ey z ltac:(lia)) as Ay.
  assert (Hxy : ex < ey -> Z.pos (shl_align mx ex z).1 < Z.pos (shl_align my ey z).1).
  { intros H. rewrite Ax, Ay. replace z with ex by lia. rewrite Z.sub_diag, Z.mul_1_r. by apply canonical_lt. }
  assert (Hyx : ey < ex -> Z.pos (shl_align my ey z).1 < Z.pos (shl_align mx ex z).1).
  { intros H. rewrite Ax, Ay. replace z with ey by lia. rewrite Z.sub_diag, Z.mul_1_r. by apply canonical_lt. }
  assert (Heq : ex = ey -> ((mx ?= my)%positive = (Z.pos (shl_align mx ex z).1 ?= Z.pos (shl_align my ey z).1))).
  { intros ->. rewrite Ax, Ay. replace z with ey by lia. by rewrite Z.sub_diag, !Z.mul_1_r. }
  unfold fst in *. destruct (shl_align mx ex z) as [ax ?], (shl_align my ey z) as [ay ?].
  destruct sx, sy; simpl; [|lia|done|].
  - destruct (Z.compare_spec ex ey) as [->|H|H]; [|done|specialize (Hyx H); lia].
    rewrite Heq in Hle by done. simpl in Hle. destruct (Pos.compare_spec ax ay); simpl in Hle; try done; lia.
  - destruct (Z.compare_spec ex ey) as [->|H|H]; [|specialize (Hxy H); lia|done].
    rewrite Heq in Hle by done. simpl in Hle. destruct (Pos.compare_spec ax ay); simpl in Hle; try done; lia.
Qed.

(** ** The order of the values that are not NaN *)

Lemma fleb_trans x y z : fleb x y = true -> fleb y z = true -> fleb x z = true.
Proof.
  unfold fleb.
  destruct x as [sx|sx| |sx mx ex], y as [sy|sy| |sy my ey], z as [sz|sz| |sz mz ez];
    try (rewrite SFcompare_finite); try (rewrite SFcompare_finite);
    try (rewrite SFcompare_finite);
    try (destruct sx); try (destruct sy); try (destruct sz); simpl; try done; intros; float_cmp.
Qed.

Lemma fltb_fleb_trans x y z : fltb x y = true -> fleb y z = true -> fltb x z = true.
Proof.
  unfold fleb, fltb.
  destruct x as [sx|sx| |sx mx ex], y as [sy|sy| |sy my ey], z as [sz|sz| |sz mz ez];
    try (rewrite SFcompare_finite); try (rewrite SFcompare_finite);
    try (rewrite SFcompare_finite);
    try (destruct sx); try (destruct sy); try (destruct sz); simpl; try done; intros; float_cmp.
Qed.

Lemma fltb_not_nan x y : fltb x y = true -> f_is_nan x = false /\ f_is_nan y = false.
Proof. by destruct x as [[]|[]| |[] mx ex], y as [[]|[]| |[] my ey]. Qed.

Lemma feqb_not_nan x y : feqb x y = true -> f_is_nan x = false /\ f_is_nan y = false.
Proof. by destruct x as [[]|[]| |[] mx ex], y as [[]|[]| |[] my ey]. Qed.

Lemma feqb_fleb x y : feqb x y = true -> fleb x y = true.
Proof. unfold feqb, fleb. by destruct (SFcompare x y) as [[]|]. Qed.

Lemma feqb_fltb x y : feqb x y = true -> fltb x y = false.
Proof. unfold feqb, fltb. by destruct (SFcompare x y) as [[]|]. Qed.

Lemma feqb_iff x y : feqb x y = true <-> fleb x y = true /\ fleb y x = true.
Proof.
  split.
  - intros H. destruct (feqb_not_nan _ _ H) as [Hx Hy]. split; [by apply feqb_fleb|].
    pose proof (fltb_negb_fleb x y Hx Hy) as Hn. rewrite (feqb_fltb _ _ H) in Hn. by destruct (fleb y x).
  - intros [H1 H2]. unfold feqb. unfold fleb in H1. destruct (SFcompare x y) as [[]|] eqn:E; try done.
    assert (fltb x y = true) as Hl by (unfold fltb; by rewrite E).
    destruct (fltb_not_nan _ _ Hl) as [Hx Hy]. rewrite (fltb_negb_fleb x y Hx Hy), H2 in Hl. done.
Qed.

Lemma feqb_sym x y : feqb x y = feqb y x.
Proof. apply eq_true_iff_eq. rewrite !feqb_iff. tauto. Qed.

Lemma feqb_trans x y z : feqb x y = true -> feqb y z = true -> feqb x z = true.
Proof. rewrite !feqb_iff. intros [? ?] [? ?]. split; by eapply fleb_trans. Qed.

Lemma fltb_asym x y : fltb x y = true -> fltb y x = false.
Proof.
  intros H. destruct (fltb y x) eqn:E; [|done]. by rewrite <- (fltb_irrefl x), (fltb_trans x y x H E).
Qed.

(** Of two values, one is less or they are equal. *)
Lemma fltb_total x y : f_is_nan x = false -> f_is_nan y = false ->
  fltb x y = false -> feqb x y = false -> fltb y x = true.
Proof.
  intros Hx Hy Hl He. rewrite (fltb_negb_fleb y x Hy Hx). unfold fleb, fltb, feqb in *.
  by destruct (SFcompare x y) as [[]|].
Qed.
