(* ===== verification/Billing.v ===== *)
(** * Prices and costs

    internal/service/billing_service.go: the price card of a model, the service
    tiers, the cost of a request by tokens, and the unit prices of searches,
    audio, images and video (image_billing_size.go, video_billing_resolution.go,
    video_billing.go).  Prices are [float64], computed bit by bit; token counts
    are Go [int]s. *)

From S2P Require Import Prelude GoStrings Float64 Float64Exact GoTime ModelMapping.
Local Open Scope Z_scope.

(** A decimal literal of the source. *)
Definition lit (s : string) : f64 := default f0 (ParseFloat s).
Definition f2 : f64 := f64_of_Z 2.

(** ** The price card *)

Record ModelPricing := mkPricing {
  InputPricePerToken : f64;
  InputPricePerTokenPriority : f64;
  ImageInputPricePerToken : f64;
  OutputPricePerToken : f64;
  OutputPricePerTokenPriority : f64;
  CacheCreationPricePerToken : f64;
  CacheCreationPricePerTokenPriority : f64;
  CacheCreationPriceExplicit : bool;
  CacheReadPricePerToken : f64;
  CacheReadPricePerTokenPriority : f64;
  FastMultiplier : option f64;
  FlexMultiplier : option f64;
  MaxReasoningEffortMultiplier : option f64;
  CacheCreation5mPrice : f64;
  CacheCreation1hPrice : f64;
  SupportsCacheBreakdown : bool;
  LongContextInputThreshold : Z;
  LongContextThresholdInclusive : bool;
  LongContextInputMultiplier : f64;
  LongContextOutputMultiplier : f64;
  ImageOutputPricePerToken : f64;
  ImageOutputPriceExplicit : bool;
}.

Definition no_pricing : ModelPricing :=
  mkPricing f0 f0 f0 f0 f0 f0 f0 false f0 f0 None None None f0 f0 false 0 false f0 f0 f0 false.

Definition set_InputPricePerToken (v : f64) (p : ModelPricing) : ModelPricing :=
  mkPricing v (InputPricePerTokenPriority p) (ImageInputPricePerToken p) (OutputPricePerToken p)
    (OutputPricePerTokenPriority p) (CacheCreationPricePerToken p)
    (CacheCreationPricePerTokenPriority p) (CacheCreationPriceExplicit p) (CacheReadPricePerToken p)
    (CacheReadPricePerTokenPriority p) (FastMultiplier p) (FlexMultiplier p)
    (MaxReasoningEffortMultiplier p) (CacheCreation5mPrice p) (CacheCreation1hPrice p)
    (SupportsCacheBreakdown p) (LongContextInputThreshold p) (LongContextThresholdInclusive p)
    (LongContextInputMultiplier p) (LongContextOutputMultiplier p) (ImageOutputPricePerToken p)
    (ImageOutputPriceExplicit p).
Definition set_InputPricePerTokenPriority (v : f64) (p : ModelPricing) : ModelPricing :=
  mkPricing (InputPricePerToken p) v (ImageInputPricePerToken p) (OutputPricePerToken p)
    (OutputPricePerTokenPriority p) (CacheCreationPricePerToken p)
    (CacheCreationPricePerTokenPriority p) (CacheCreationPriceExplicit p) (CacheReadPricePerToken p)
    (CacheReadPricePerTokenPriority p) (FastMultiplier p) (FlexMultiplier p)
    (MaxReasoningEffortMultiplier p) (CacheCreation5mPrice p) (CacheCreation1hPrice p)
    (SupportsCacheBreakdown p) (LongContextInputThreshold p) (LongContextThresholdInclusive p)
    (LongContextInputMultiplier p) (LongContextOutputMultiplier p) (ImageOutputPricePerToken p)
    (ImageOutputPriceExplicit p).
Definition set_ImageInputPricePerToken (v : f64) (p : ModelPricing) : ModelPricing :=
  mkPricing (InputPricePerToken p) (InputPricePerTokenPriority p) v (OutputPricePerToken p)
    (OutputPricePerTokenPriority p) (CacheCreationPricePerToken p)
    (CacheCreationPricePerTokenPriority p) (CacheCreationPriceExplicit p) (CacheReadPricePerToken p)
    (CacheReadPricePerTokenPriority p) (FastMultiplier p) (FlexMultiplier p)
    (MaxReasoningEffortMultiplier p) (CacheCreation5mPrice p) (CacheCreation1hPrice p)
    (SupportsCacheBreakdown p) (LongContextInputThreshold p) (LongContextThresholdInclusive p)
    (LongContextInputMultiplier p) (LongContextOutputMultiplier p) (ImageOutputPricePerToken p)
    (ImageOutputPriceExplicit p).
Definition set_OutputPricePerToken (v : f64) (p : ModelPricing) : ModelPricing :=
  mkPricing (InputPricePerToken p) (InputPricePerTokenPriority p) (ImageInputPricePerToken p) v
    (OutputPricePerTokenPriority p) (CacheCreationPricePerToken p)
    (CacheCreationPricePerTokenPriority p) (CacheCreationPriceExplicit p) (CacheReadPricePerToken p)
    (CacheReadPricePerTokenPriority p) (FastMultiplier p) (FlexMultiplier p)
    (MaxReasoningEffortMultiplier p) (CacheCreation5mPrice p) (CacheCreation1hPrice p)
    (SupportsCacheBreakdown p) (LongContextInputThreshold p) (LongContextThresholdInclusive p)
    (LongContextInputMultiplier p) (LongContextOutputMultiplier p) (ImageOutputPricePerToken p)
    (ImageOutputPriceExplicit p).
Definition set_OutputPricePerTokenPriority (v : f64) (p : ModelPricing) : ModelPricing :=
  mkPricing (InputPricePerToken p) (InputPricePerTokenPriority p) (ImageInputPricePerToken p)
    (OutputPricePerToken p) v (CacheCreationPricePerToken p) (CacheCreationPricePerTokenPriority p)
    (CacheCreationPriceExplicit p) (CacheReadPricePerToken p) (CacheReadPricePerTokenPriority p)
    (FastMultiplier p) (FlexMultiplier p) (MaxReasoningEffortMultiplier p) (CacheCreation5mPrice p)
    (CacheCreation1hPrice p) (SupportsCacheBreakdown p) (LongContextInputThreshold p)
    (LongContextThresholdInclusive p) (LongContextInputMultiplier p) (LongContextOutputMultiplier p)
    (ImageOutputPricePerToken p) (ImageOutputPriceExplicit p).
Definition set_CacheCreationPricePerToken (v : f64) (p : ModelPricing) : ModelPricing :=
  mkPricing (InputPricePerToken p) (InputPricePerTokenPriority p) (ImageInputPricePerToken p)
    (OutputPricePerToken p) (OutputPricePerTokenPriority p) v (CacheCreationPricePerTokenPriority p)
    (CacheCreationPriceExplicit p) (CacheReadPricePerToken p) (CacheReadPricePerTokenPriority p)
    (FastMultiplier p) (FlexMultiplier p) (MaxReasoningEffortMultiplier p) (CacheCreation5mPrice p)
    (CacheCreation1hPrice p) (SupportsCacheBreakdown p) (LongContextInputThreshold p)
    (LongContextThresholdInclusive p) (LongContextInputMultiplier p) (LongContextOutputMultiplier p)
    (ImageOutputPricePerToken p) (ImageOutputPriceExplicit p).
Definition set_CacheCreationPricePerTokenPriority (v : f64) (p : ModelPricing) : ModelPricing :=
  mkPricing (InputPricePerToken p) (InputPricePerTokenPriority p) (ImageInputPricePerToken p)
    (OutputPricePerToken p) (OutputPricePerTokenPriority p) (CacheCreationPricePerToken p) v
    (CacheCreationPriceExplicit p) (CacheReadPricePerToken p) (CacheReadPricePerTokenPriority p)
    (FastMultiplier p) (FlexMultiplier p) (MaxReasoningEffortMultiplier p) (CacheCreation5mPrice p)
    (CacheCreation1hPrice p) (SupportsCacheBreakdown p) (LongContextInputThreshold p)
    (LongContextThresholdInclusive p) (LongContextInputMultiplier p) (LongContextOutputMultiplier p)
    (ImageOutputPricePerToken p) (ImageOutputPriceExplicit p).
Definition set_CacheCreationPriceExplicit (v : bool) (p : ModelPricing) : ModelPricing :=
  mkPricing (InputPricePerToken p) (InputPricePerTokenPriority p) (ImageInputPricePerToken p)
    (OutputPricePerToken p) (OutputPricePerTokenPriority p) (CacheCreationPricePerToken p)
    (CacheCreationPricePerTokenPriority p) v (CacheReadPricePerToken p)
    (CacheReadPricePerTokenPriority p) (FastMultiplier p) (FlexMultiplier p)
    (MaxReasoningEffortMultiplier p) (CacheCreation5mPrice p) (CacheCreation1hPrice p)
    (SupportsCacheBreakdown p) (LongContextInputThreshold p) (LongContextThresholdInclusive p)
    (LongContextInputMultiplier p) (LongContextOutputMultiplier p) (ImageOutputPricePerToken p)
    (ImageOutputPriceExplicit p).
Definition set_CacheReadPricePerToken (v : f64) (p : ModelPricing) : ModelPricing :=
  mkPricing (InputPricePerToken p) (InputPricePerTokenPriority p) (ImageInputPricePerToken p)
    (OutputPricePerToken p) (OutputPricePerTokenPriority p) (CacheCreationPricePerToken p)
    (CacheCreationPricePerTokenPriority p) (CacheCreationPriceExplicit p) v
    (CacheReadPricePerTokenPriority p) (FastMultiplier p) (FlexMultiplier p)
    (MaxReasoningEffortMultiplier p) (CacheCreation5mPrice p) (CacheCreation1hPrice p)
    (SupportsCacheBreakdown p) (LongContextInputThreshold p) (LongContextThresholdInclusive p)
    (LongContextInputMultiplier p) (LongContextOutputMultiplier p) (ImageOutputPricePerToken p)
    (ImageOutputPriceExplicit p).
Definition set_CacheReadPricePerTokenPriority (v : f64) (p : ModelPricing) : ModelPricing :=
  mkPricing (InputPricePerToken p) (InputPricePerTokenPriority p) (ImageInputPricePerToken p)
    (OutputPricePerToken p) (OutputPricePerTokenPriority p) (CacheCreationPricePerToken p)
    (CacheCreationPricePerTokenPriority p) (CacheCreationPriceExplicit p) (CacheReadPricePerToken p)
    v (FastMultiplier p) (FlexMultiplier p) (MaxReasoningEffortMultiplier p) (CacheCreation5mPrice
    p) (CacheCreation1hPrice p) (SupportsCacheBreakdown p) (LongContextInputThreshold p)
    (LongContextThresholdInclusive p) (LongContextInputMultiplier p) (LongContextOutputMultiplier p)
    (ImageOutputPricePerToken p) (ImageOutputPriceExplicit p).
Definition set_FastMultiplier (v : option f64) (p : ModelPricing) : ModelPricing :=
  mkPricing (InputPricePerToken p) (InputPricePerTokenPriority p) (ImageInputPricePerToken p)
    (OutputPricePerToken p) (OutputPricePerTokenPriority p) (CacheCreationPricePerToken p)
    (CacheCreationPricePerTokenPriority p) (CacheCreationPriceExplicit p) (CacheReadPricePerToken p)
    (CacheReadPricePerTokenPriority p) v (FlexMultiplier p) (MaxReasoningEffortMultiplier p)
    (CacheCreation5mPrice p) (CacheCreation1hPrice p) (SupportsCacheBreakdown p)
    (LongContextInputThreshold p) (LongContextThresholdInclusive p) (LongContextInputMultiplier p)
    (LongContextOutputMultiplier p) (ImageOutputPricePerToken p) (ImageOutputPriceExplicit p).
Definition set_FlexMultiplier (v : option f64) (p : ModelPricing) : ModelPricing :=
  mkPricing (InputPricePerToken p) (InputPricePerTokenPriority p) (ImageInputPricePerToken p)
    (OutputPricePerToken p) (OutputPricePerTokenPriority p) (CacheCreationPricePerToken p)
    (CacheCreationPricePerTokenPriority p) (CacheCreationPriceExplicit p) (CacheReadPricePerToken p)
    (CacheReadPricePerTokenPriority p) (FastMultiplier p) v (MaxReasoningEffortMultiplier p)
    (CacheCreation5mPrice p) (CacheCreation1hPrice p) (SupportsCacheBreakdown p)
    (LongContextInputThreshold p) (LongContextThresholdInclusive p) (LongContextInputMultiplier p)
    (LongContextOutputMultiplier p) (ImageOutputPricePerToken p) (ImageOutputPriceExplicit p).
Definition set_MaxReasoningEffortMultiplier (v : option f64) (p : ModelPricing) : ModelPricing :=
  mkPricing (InputPricePerToken p) (InputPricePerTokenPriority p) (ImageInputPricePerToken p)
    (OutputPricePerToken p) (OutputPricePerTokenPriority p) (CacheCreationPricePerToken p)
    (CacheCreationPricePerTokenPriority p) (CacheCreationPriceExplicit p) (CacheReadPricePerToken p)
    (CacheReadPricePerTokenPriority p) (FastMultiplier p) (FlexMultiplier p) v (CacheCreation5mPrice
    p) (CacheCreation1hPrice p) (SupportsCacheBreakdown p) (LongContextInputThreshold p)
    (LongContextThresholdInclusive p) (LongContextInputMultiplier p) (LongContextOutputMultiplier p)
    (ImageOutputPricePerToken p) (ImageOutputPriceExplicit p).
Definition set_CacheCreation5mPrice (v : f64) (p : ModelPricing) : ModelPricing :=
  mkPricing (InputPricePerToken p) (InputPricePerTokenPriority p) (ImageInputPricePerToken p)
    (OutputPricePerToken p) (OutputPricePerTokenPriority p) (CacheCreationPricePerToken p)
    (CacheCreationPricePerTokenPriority p) (CacheCreationPriceExplicit p) (CacheReadPricePerToken p)
    (CacheReadPricePerTokenPriority p) (FastMultiplier p) (FlexMultiplier p)
    (MaxReasoningEffortMultiplier p) v (CacheCreation1hPrice p) (SupportsCacheBreakdown p)
    (LongContextInputThreshold p) (LongContextThresholdInclusive p) (LongContextInputMultiplier p)
    (LongContextOutputMultiplier p) (ImageOutputPricePerToken p) (ImageOutputPriceExplicit p).
Definition set_CacheCreation1hPrice (v : f64) (p : ModelPricing) : ModelPricing :=
  mkPricing (InputPricePerToken p) (InputPricePerTokenPriority p) (ImageInputPricePerToken p)
    (OutputPricePerToken p) (OutputPricePerTokenPriority p) (CacheCreationPricePerToken p)
    (CacheCreationPricePerTokenPriority p) (CacheCreationPriceExplicit p) (CacheReadPricePerToken p)
    (CacheReadPricePerTokenPriority p) (FastMultiplier p) (FlexMultiplier p)
    (MaxReasoningEffortMultiplier p) (CacheCreation5mPrice p) v (SupportsCacheBreakdown p)
    (LongContextInputThreshold p) (LongContextThresholdInclusive p) (LongContextInputMultiplier p)
    (LongContextOutputMultiplier p) (ImageOutputPricePerToken p) (ImageOutputPriceExplicit p).
Definition set_SupportsCacheBreakdown (v : bool) (p : ModelPricing) : ModelPricing :=
  mkPricing (InputPricePerToken p) (InputPricePerTokenPriority p) (ImageInputPricePerToken p)
    (OutputPricePerToken p) (OutputPricePerTokenPriority p) (CacheCreationPricePerToken p)
    (CacheCreationPricePerTokenPriority p) (CacheCreationPriceExplicit p) (CacheReadPricePerToken p)
    (CacheReadPricePerTokenPriority p) (FastMultiplier p) (FlexMultiplier p)
    (MaxReasoningEffortMultiplier p) (CacheCreation5mPrice p) (CacheCreation1hPrice p) v
    (LongContextInputThreshold p) (LongContextThresholdInclusive p) (LongContextInputMultiplier p)
    (LongContextOutputMultiplier p) (ImageOutputPricePerToken p) (ImageOutputPriceExplicit p).
Definition set_ImageOutputPricePerToken (v : f64) (p : ModelPricing) : ModelPricing :=
  mkPricing (InputPricePerToken p) (InputPricePerTokenPriority p) (ImageInputPricePerToken p)
    (OutputPricePerToken p) (OutputPricePerTokenPriority p) (CacheCreationPricePerToken p)
    (CacheCreationPricePerTokenPriority p) (CacheCreationPriceExplicit p) (CacheReadPricePerToken p)
    (CacheReadPricePerTokenPriority p) (FastMultiplier p) (FlexMultiplier p)
    (MaxReasoningEffortMultiplier p) (CacheCreation5mPrice p) (CacheCreation1hPrice p)
    (SupportsCacheBreakdown p) (LongContextInputThreshold p) (LongContextThresholdInclusive p)
    (LongContextInputMultiplier p) (LongContextOutputMultiplier p) v (ImageOutputPriceExplicit p).
Definition set_ImageOutputPriceExplicit (v : bool) (p : ModelPricing) : ModelPricing :=
  mkPricing (InputPricePerToken p) (InputPricePerTokenPriority p) (ImageInputPricePerToken p)
    (OutputPricePerToken p) (OutputPricePerTokenPriority p) (CacheCreationPricePerToken p)
    (CacheCreationPricePerTokenPriority p) (CacheCreationPriceExplicit p) (CacheReadPricePerToken p)
    (CacheReadPricePerTokenPriority p) (FastMultiplier p) (FlexMultiplier p)
    (MaxReasoningEffortMultiplier p) (CacheCreation5mPrice p) (CacheCreation1hPrice p)
    (SupportsCacheBreakdown p) (LongContextInputThreshold p) (LongContextThresholdInclusive p)
    (LongContextInputMultiplier p) (LongContextOutputMultiplier p) (ImageOutputPricePerToken p) v.

(** ** Service tiers *)

Definition OpenAIFastTierUltrafast := "ultrafast".

Definition normalizeBillingServiceTier (serviceTier : string) : string := ToLower (TrimSpace serviceTier).

Definition usePriorityServiceTierPricing (serviceTier : string) (p : ModelPricing) : bool :=
  let tier := normalizeBillingServiceTier serviceTier in
  if (tier !=? "priority") && (tier !=? "fast") then false
  else match FastMultiplier p with
       | Some _ => false
       | None => fltb f0 (InputPricePerTokenPriority p) || fltb f0 (OutputPricePerTokenPriority p) ||
                 fltb f0 (CacheCreationPricePerTokenPriority p) || fltb f0 (CacheReadPricePerTokenPriority p)
       end.

Definition serviceTierCostMultiplier (serviceTier : string) : f64 :=
  let tier := normalizeBillingServiceTier serviceTier in
  if (tier ==? "priority") || (tier ==? "fast") || (tier ==? OpenAIFastTierUltrafast) then f2
  else if tier ==? "flex" then lit "0.5"
  else f1.

Definition configuredServiceTierMultiplier (serviceTier : string) (p : ModelPricing) : f64 :=
  let tier := normalizeBillingServiceTier serviceTier in
  let configured := if (tier ==? "priority") || (tier ==? "fast") then FastMultiplier p
                    else if tier ==? "flex" then FlexMultiplier p else None in
  match configured with Some m => m | None => serviceTierCostMultiplier serviceTier end.

(** ** Token counts and the breakdown of a cost *)

Record UsageTokens := mkTokens {
  InputTokens : Z;
  ImageInputTokens : Z;
  OutputTokens : Z;
  CacheCreationTokens : Z;
  CacheReadTokens : Z;
  CacheCreation5mTokens : Z;
  CacheCreation1hTokens : Z;
  ImageOutputTokens : Z;
}.

Record CostBreakdown := mkCost {
  InputCost : f64;
  ImageInputCost : f64;
  OutputCost : f64;
  ImageOutputCost : f64;
  CacheCreationCost : f64;
  CacheReadCost : f64;
  TotalCost : f64;
  ActualCost : f64;
  BillingMode : string;
  LongContextBillingApplied : bool;
}.

Definition no_cost : CostBreakdown := mkCost f0 f0 f0 f0 f0 f0 f0 f0 "" false.

Definition applyCostBreakdownMultiplier (c : CostBreakdown) (m : f64) : CostBreakdown :=
  if feqb m f1 then c
  else mkCost (fmul (InputCost c) m) (fmul (ImageInputCost c) m) (fmul (OutputCost c) m) (fmul (ImageOutputCost c) m)
         (fmul (CacheCreationCost c) m) (fmul (CacheReadCost c) m) (fmul (TotalCost c) m) (fmul (ActualCost c) m)
         (BillingMode c) (LongContextBillingApplied c).

Definition with_mode (m : string) (c : CostBreakdown) : CostBreakdown :=
  mkCost (InputCost c) (ImageInputCost c) (OutputCost c) (ImageOutputCost c) (CacheCreationCost c) (CacheReadCost c)
    (TotalCost c) (ActualCost c) m (LongContextBillingApplied c).

(** A rate multiplier below zero counts as zero. *)
Definition clamp_rate (r : f64) : f64 := if fltb r f0 then f0 else r.

(** ** Long contexts *)

Definition longContextMultiplierOrOne (m : f64) : f64 := if fleb m f0 then f1 else m.

Definition total_context (t : UsageTokens) : Z :=
  add64 (add64 (InputTokens t) (CacheCreationTokens t)) (CacheReadTokens t).

Definition shouldApplySessionLongContextPricing (t : UsageTokens) (p : ModelPricing) : bool :=
  if LongContextInputThreshold p <=? 0 then false
  else if fleb (LongContextInputMultiplier p) f1 && fleb (LongContextOutputMultiplier p) f1 then false
  else if LongContextThresholdInclusive p then LongContextInputThreshold p <=? total_context t
  else LongContextInputThreshold p <? total_context t.

(** ** Cache creation *)

Definition normalizeCacheCreationBreakdown (t : UsageTokens) : Z * Z :=
  let c5m := if CacheCreation5mTokens t <? 0 then 0 else CacheCreation5mTokens t in
  let c1h := if CacheCreation1hTokens t <? 0 then 0 else CacheCreation1hTokens t in
  let aggregate := CacheCreationTokens t in
  if (aggregate <=? 0) || ((c5m <=? aggregate) && (c1h <=? wrap64 (aggregate - c5m))) then (c5m, c1h)
  else
    let detailTotal := fadd (f64_of_Z c5m) (f64_of_Z c1h) in
    let normalized5m := fround (fdiv (fmul (f64_of_Z aggregate) (f64_of_Z c5m)) detailTotal) in
    let c5m := if fleb (f64_of_Z aggregate) normalized5m then aggregate else f64_to_int64 normalized5m in
    (c5m, wrap64 (aggregate - c5m)).

Definition computeCacheCreationCost (p : ModelPricing) (t : UsageTokens) (price multiplier : f64) : f64 :=
  if SupportsCacheBreakdown p && (fltb f0 (CacheCreation5mPrice p) || fltb f0 (CacheCreation1hPrice p)) then
    let '(c5m, c1h) := normalizeCacheCreationBreakdown t in
    if (c5m =? 0) && (c1h =? 0) && (0 <? CacheCreationTokens t)
    then fmul (fmul (f64_of_Z (CacheCreationTokens t)) (CacheCreation5mPrice p)) multiplier
    else fadd (fmul (fmul (f64_of_Z c5m) (CacheCreation5mPrice p)) multiplier)
              (fmul (fmul (f64_of_Z c1h) (CacheCreation1hPrice p)) multiplier)
  else fmul (fmul (f64_of_Z (CacheCreationTokens t)) price) multiplier.

(** ** The cost of the tokens *)

(** The unit prices in force and the tier multiplier. *)
Record unit_prices := mkUnits {
  u_input : f64; u_output : f64; u_cacheRead : f64; u_cacheCreation : f64; u_tier : f64; }.

Definition priority_or (priority standard : f64) : f64 := if fltb f0 priority then priority else standard.

Definition tier_prices (p : ModelPricing) (serviceTier : string) : unit_prices :=
  if usePriorityServiceTierPricing serviceTier p
  then mkUnits (priority_or (InputPricePerTokenPriority p) (InputPricePerToken p))
         (priority_or (OutputPricePerTokenPriority p) (OutputPricePerToken p))
         (priority_or (CacheReadPricePerTokenPriority p) (CacheReadPricePerToken p))
         (priority_or (CacheCreationPricePerTokenPriority p) (CacheCreationPricePerToken p)) f1
  else mkUnits (InputPricePerToken p) (OutputPricePerToken p) (CacheReadPricePerToken p)
         (CacheCreationPricePerToken p) (configuredServiceTierMultiplier serviceTier p).

(** Text and image tokens of the input. *)
Definition split_input (t : UsageTokens) : Z * Z :=
  if 0 <? ImageInputTokens t then
    let text := wrap64 (InputTokens t - ImageInputTokens t) in
    if text <? 0 then (0, InputTokens t) else (text, ImageInputTokens t)
  else (InputTokens t, 0).

Definition text_output (t : UsageTokens) : Z := Z.max 0 (wrap64 (OutputTokens t - ImageOutputTokens t)).

(** A component under the multiplier of the tier. *)
Definition tiered (m c : f64) : f64 := if feqb m f1 then c else fmul c m.

(** The body of [computeTokenBreakdown] once the unit prices are known;
    [baseline] is the cost without the long-context multipliers, when they
    are applied. *)
Definition breakdown_with (p : ModelPricing) (t : UsageTokens) (rate : f64) (u : unit_prices)
    (cacheCreationMultiplier : f64) (baseline : option CostBreakdown) : CostBreakdown :=
  let '(textInput, imageInput) := split_input t in
  let input := fmul (f64_of_Z textInput) (u_input u) in
  let imageIn :=
    if 0 <? ImageInputTokens t
    then fmul (f64_of_Z imageInput)
           (if feqb (ImageInputPricePerToken p) f0 then u_input u else ImageInputPricePerToken p)
    else f0 in
  let output := fmul (f64_of_Z (text_output t)) (u_output u) in
  let imageOut :=
    if 0 <? ImageOutputTokens t
    then fmul (f64_of_Z (ImageOutputTokens t))
           (if feqb (ImageOutputPricePerToken p) f0 && negb (ImageOutputPriceExplicit p)
            then u_output u else ImageOutputPricePerToken p)
    else f0 in
  let creation := computeCacheCreationCost p t (u_cacheCreation u) cacheCreationMultiplier in
  let read := fmul (f64_of_Z (CacheReadTokens t)) (u_cacheRead u) in
  let tiered := tiered (u_tier u) in
  let '(input, imageIn, output) := (tiered input, tiered imageIn, tiered output) in
  let '(imageOut, creation, read) := (tiered imageOut, tiered creation, tiered read) in
  let total := fadd (fadd (fadd (fadd (fadd input imageIn) output) imageOut) creation) read in
  let actual := fmul total rate in
  mkCost input imageIn output imageOut creation read total actual ""
    match baseline with Some b => fltb (ActualCost b) actual | None => false end.

Definition long_prices (p : ModelPricing) (u : unit_prices) : unit_prices :=
  let inM := longContextMultiplierOrOne (LongContextInputMultiplier p) in
  let outM := longContextMultiplierOrOne (LongContextOutputMultiplier p) in
  mkUnits (fmul (u_input u) inM) (fmul (u_output u) outM) (fmul (u_cacheRead u) inM) (u_cacheCreation u) (u_tier u).

Definition computeTokenBreakdown (p : ModelPricing) (t : UsageTokens) (rateMultiplier : f64) (serviceTier : string)
    (applyLongCtx : bool) : CostBreakdown :=
  let rate := clamp_rate rateMultiplier in
  let u := tier_prices p serviceTier in
  let base := breakdown_with p t rate u f1 None in
  if applyLongCtx && shouldApplySessionLongContextPricing t p
  then breakdown_with p t rate (long_prices p u) (longContextMultiplierOrOne (LongContextInputMultiplier p)) (Some base)
  else base.

(** ** Sizes of images and videos *)

Definition ImageBillingSize1K := "1K".
Definition ImageBillingSize2K := "2K".
Definition ImageBillingSize4K := "4K".

Definition parseImageBillingDimensions (size : string) : option (Z * Z) :=
  match Split (ToLower (TrimSpace size)) "x" with
  | [w; h] =>
      match ParseInt (TrimSpace w), ParseInt (TrimSpace h) with
      | Some w, Some h => if (w <=? 0) || (h <=? 0) then None else Some (w, h)
      | _, _ => None
      end
  | _ => None
  end.

Definition ClassifyImageBillingTier (size : string) : option string :=
  let trimmed := TrimSpace size in
  let n := ToLower trimmed in
  if (n ==? "") || (n ==? "auto") then None
  else if n ==? "1k" then Some ImageBillingSize1K
  else if n ==? "2k" then Some ImageBillingSize2K
  else if n ==? "4k" then Some ImageBillingSize4K
  else if (n ==? "2048x2048") || (n ==? "2048x1152") then Some ImageBillingSize2K
  else if (n ==? "3840x2160") || (n ==? "2160x3840") then Some ImageBillingSize4K
  else match parseImageBillingDimensions trimmed with
       | None => None
       | Some (w, h) =>
           let maxEdge := if w <? h then h else w in
           Some (if maxEdge <=? 1024 then ImageBillingSize1K
                 else if maxEdge <=? 2048 then ImageBillingSize2K else ImageBillingSize4K)
       end.

Definition NormalizeImageBillingTierOrDefault (size : string) : string :=
  default ImageBillingSize2K (ClassifyImageBillingTier size).

Definition imageTierRank (tier : string) : Z :=
  let t := ToUpper (TrimSpace tier) in
  if t ==? ImageBillingSize1K then 1 else if t ==? ImageBillingSize2K then 2
  else if t ==? ImageBillingSize4K then 3 else 0.

Record ImageBillingSizeResolution := mkSizeResolution {
  BillingSize : string; InputSize : string; OutputSize : string; SizeSource : string;
  SizeBreakdown : gmap string Z;
}.

Definition compactTrimmedStrings (l : list string) : list string :=
  base.filter (fun s => s <> "") (TrimSpace <$> l).

(** The loop over the output sizes: the counts and the largest tier. *)
Definition count_tier (acc : gmap string Z * string) (output : string) : gmap string Z * string :=
  match ClassifyImageBillingTier output with
  | None => acc
  | Some tier =>
      (<[tier := add64 (default 0 (acc.1 !! tier)) 1]> acc.1,
       if imageTierRank acc.2 <? imageTierRank tier then tier else acc.2)
  end.

Definition normalizeImageSizeBreakdown (m : gmap string Z) : gmap string Z :=
  base.filter (fun kv => (kv.1 = ImageBillingSize1K \/ kv.1 = ImageBillingSize2K \/ kv.1 = ImageBillingSize4K) /\ 0 < kv.2) m.

Definition ResolveImageBillingSize (inputSize : string) (outputSizes : list string) : ImageBillingSizeResolution :=
  let inputSize := TrimSpace inputSize in
  let outputSizes := compactTrimmedStrings outputSizes in
  let outputSize := default "" (head outputSizes) in
  let '(breakdown, outputTier) := foldl count_tier (∅, "") outputSizes in
  if outputTier !=? ""
  then mkSizeResolution outputTier inputSize outputSize "output" (normalizeImageSizeBreakdown breakdown)
  else match ClassifyImageBillingTier inputSize with
       | Some tier => mkSizeResolution tier inputSize outputSize "input" ∅
       | None => mkSizeResolution ImageBillingSize2K inputSize outputSize "default" ∅
       end.

Definition VideoBillingResolution480P := "480p".
Definition VideoBillingResolution720P := "720p".
Definition VideoBillingResolution1080P := "1080p".
Definition VideoBillingMinDurationSeconds : Z := 1.
Definition VideoBillingMaxDurationSeconds : Z := 15.
Definition VideoBillingDefaultDurationSeconds : Z := 8.

Definition NormalizeVideoBillingDurationSecondsOrDefault (d : Z) : Z :=
  if d <=? 0 then VideoBillingDefaultDurationSeconds
  else if d <? VideoBillingMinDurationSeconds then VideoBillingMinDurationSeconds
  else if VideoBillingMaxDurationSeconds <? d then VideoBillingMaxDurationSeconds
  else d.

Definition LookupVideoBillingResolution (resolution : string) : option string :=
  let r := ToLower (TrimSpace resolution) in
  if bool_decide (r ∈ ["480"; "480p"; "sd"]) then Some VideoBillingResolution480P
  else if bool_decide (r ∈ ["720"; "720p"; "hd"]) then Some VideoBillingResolution720P
  else if bool_decide (r ∈ ["1080"; "1080p"; "full_hd"; "full-hd"; "fhd"]) then Some VideoBillingResolution1080P
  else None.

Definition NormalizeVideoBillingResolutionOrDefault (resolution : string) : string :=
  default VideoBillingResolution480P (LookupVideoBillingResolution resolution).

Definition StripGrokProviderPrefix (model : string) : string :=
  let trimmed := TrimSpace model in
  let lower := ToLower trimmed in
  let strip p := TrimSpace (Strings.String.substring (Strings.String.length p) (Strings.String.length trimmed) trimmed) in
  if HasPrefix lower "xai/" then strip "xai/"
  else if HasPrefix lower "x-ai/" then strip "x-ai/"
  else if HasPrefix lower "grok/" then strip "grok/"
  else trimmed.

Definition CanonicalImagineVideoModel (model : string) : string :=
  let m := ToLower (StripGrokProviderPrefix model) in
  if (m ==? "") || (m ==? DefaultImagineVideoModel) || (m ==? "grok-imagine-video-preview") then DefaultImagineVideoModel
  else if HasPrefix m "grok-imagine-video-1.5" || (m ==? "grok-video-1.5") then DefaultImagineVideo15Model
  else m.

Definition VideoPriceFamilyGrokImagineVideo := "grok-imagine-video".
Definition VideoPriceFamilyGrokImagineVideo15 := "grok-imagine-video-1.5".

(** The loop over the provider prefixes drops the first that matches. *)
Definition trim_grok_prefix (m : string) : string :=
  if HasPrefix m "xai/" then TrimPrefix m "xai/"
  else if HasPrefix m "x-ai/" then TrimPrefix m "x-ai/"
  else if HasPrefix m "grok/" then TrimPrefix m "grok/" else m.

Definition CanonicalGrokImagineVideoPriceFamily (model : string) : string :=
  if model ==? "" then ""
  else
    let c := CanonicalImagineVideoModel model in
    if c ==? DefaultImagineVideo15Model then VideoPriceFamilyGrokImagineVideo15
    else if c ==? DefaultImagineVideoModel then VideoPriceFamilyGrokImagineVideo
    else if HasPrefix c "grok-imagine-video-" then c
    else
      let m := trim_grok_prefix (ToLower (TrimSpace model)) in
      if (m ==? "grok-imagine-video-1.5") || (m ==? "grok-imagine-video-1.5-preview") ||
         (m ==? "grok-video-1.5") || Contains m "video-1.5" then VideoPriceFamilyGrokImagineVideo15
      else if (m ==? "grok-imagine-video") || (m ==? "grok-imagine-video-preview") ||
              (m ==? "grok-video") || (m ==? "grok-video-latest") then VideoPriceFamilyGrokImagineVideo
      else "".

Definition LookupVideoModelPrice (prices : gmap string (gmap string f64)) (model resolution : string) : option f64 :=
  let family := CanonicalGrokImagineVideoPriceFamily model in
  let family := if family ==? "" then ToLower (TrimSpace model) else family in
  if family ==? "" then None
  else prices !! family ≫= fun tiers => tiers !! NormalizeVideoBillingResolutionOrDefault resolution.

(** ** Unit prices *)

Definition BillingModeToken := "token".
Definition BillingModePerRequest := "per_request".
Definition BillingModeImage := "image".
Definition BillingModeVideo := "video".

Definition charge (total rate : f64) (mode : string) : CostBreakdown :=
  mkCost f0 f0 f0 f0 f0 f0 total (fmul total (clamp_rate rate)) mode false.

Definition defaultWebSearchPricePerCall : f64 := lit "0.01".
Definition defaultSearchPricePer1k : f64 := f64_of_Z 5.
Definition defaultAudioRealtimePricePerMin : f64 := lit "0.05".
Definition defaultAudioTTSPricePerMillionChars : f64 := f64_of_Z 15.
Definition defaultAudioSTTPricePerHour : f64 := lit "0.10".

Definition CalculateWebSearchCost (callCount : Z) (groupPrice : option f64) (rate : f64) : CostBreakdown :=
  if callCount <=? 0 then no_cost
  else
    let unitPrice := match groupPrice with
                     | Some p => if fleb f0 p then p else defaultWebSearchPricePerCall
                     | None => defaultWebSearchPricePerCall
                     end in
    charge (fmul unitPrice (f64_of_Z callCount)) rate BillingModePerRequest.

Definition CalculateSearchCost (numCalls : Z) (groupPricePer1k : option f64) (rate : f64) : CostBreakdown :=
  if numCalls <=? 0 then no_cost
  else
    let pricePer1k := default defaultSearchPricePer1k groupPricePer1k in
    if fltb pricePer1k f0 || feqb pricePer1k f0 then no_cost
    else charge (fmul (fdiv pricePer1k (f64_of_Z 1000)) (f64_of_Z numCalls)) rate BillingModePerRequest.

Record audioPriceConfig := mkAudio {
  RealtimePerMin : option f64; TTSPerMChars : option f64; STTPerHour : option f64; }.

Definition CalculateAudioCost (mode : string) (durationOrUnits : f64) (groupConfig : option audioPriceConfig) (rate : f64)
    : CostBreakdown :=
  if fleb durationOrUnits f0 then no_cost
  else
    let m := ToLower mode in
    let unitPrice :=
      if m ==? "realtime" then Some (default defaultAudioRealtimePricePerMin (groupConfig ≫= RealtimePerMin))
      else if m ==? "tts" then Some (default defaultAudioTTSPricePerMillionChars (groupConfig ≫= TTSPerMChars))
      else if m ==? "stt" then Some (default defaultAudioSTTPricePerHour (groupConfig ≫= STTPerHour))
      else None in
    match unitPrice with
    | None => no_cost
    | Some u => if fleb u f0 then no_cost else charge (fmul u durationOrUnits) rate BillingModePerRequest
    end.

Record ImagePriceConfig := mkImagePrices {
  Price1K : option f64; Price2K : option f64; Price4K : option f64; }.
Record VideoPriceConfig := mkVideoPrices {
  Price480P : option f64; Price720P : option f64; Price1080P : option f64;
  ModelPrices : gmap string (gmap string f64); }.

Definition getGrokImagineImageTierPrice (imageSize : string) (price1K price2K : f64) : f64 :=
  if NormalizeImageBillingTierOrDefault imageSize ==? ImageBillingSize1K then price1K else price2K.

Definition getDefaultGrokImagineImagePrice (model imageSize : string) : option f64 :=
  let m := ToLower (TrimSpace model) in
  if m ==? "grok-imagine-image-2.0" then Some (getGrokImagineImageTierPrice imageSize (lit "0.06") (lit "0.08"))
  else if m ==? "grok-imagine-image-quality" then Some (getGrokImagineImageTierPrice imageSize (lit "0.05") (lit "0.07"))
  else if (m ==? "grok-imagine") || (m ==? "grok-imagine-image") || (m ==? "grok-imagine-edit")
  then Some (getGrokImagineImageTierPrice imageSize (lit "0.02") (lit "0.02"))
  else None.

Definition getDefaultGrokImagineVideoPrice (model resolution : string) : option f64 :=
  let m := ToLower (TrimSpace model) in
  let r := NormalizeVideoBillingResolutionOrDefault resolution in
  if HasPrefix m "grok-imagine-video-1.5"
  then Some (if r ==? VideoBillingResolution480P then lit "0.08"
             else if r ==? VideoBillingResolution720P then lit "0.14"
             else if r ==? VideoBillingResolution1080P then lit "0.25" else lit "0.08")
  else if HasPrefix m "grok-imagine-video"
  then Some (if r ==? VideoBillingResolution480P then lit "0.05"
             else if (r ==? VideoBillingResolution720P) || (r ==? VideoBillingResolution1080P) then lit "0.07"
             else lit "0.05")
  else None.

Definition defaultImageGenerationPrice : f64 := lit "0.134".

Section UnitPrices.
(** [OutputCostPerImage] of the catalogue's entry for a model. *)
Variable image_cost : string -> option f64.

Definition getDefaultImagePrice (model imageSize : string) : f64 :=
  match getDefaultGrokImagineImagePrice model imageSize with
  | Some p => p
  | None =>
      let basePrice := match image_cost model with Some c => if fltb f0 c then c else f0 | None => f0 end in
      let basePrice := if fleb basePrice f0 then defaultImageGenerationPrice else basePrice in
      if imageSize ==? "2K" then fmul basePrice (lit "1.5")
      else if imageSize ==? "4K" then fmul basePrice f2 else basePrice
  end.

Definition getDefaultVideoPrice (model resolution : string) : f64 :=
  match getDefaultGrokImagineVideoPrice model resolution with
  | Some p => p
  | None => getDefaultImagePrice model ImageBillingSize2K
  end.

Definition getImageUnitPrice (model imageSize : string) (groupConfig : option ImagePriceConfig) : f64 :=
  let configured := groupConfig ≫= fun c =>
    if imageSize ==? "1K" then Price1K c else if imageSize ==? "2K" then Price2K c
    else if imageSize ==? "4K" then Price4K c else None in
  default (getDefaultImagePrice model imageSize) configured.

Definition getVideoUnitPrice (model resolution : string) (groupConfig : option VideoPriceConfig) : f64 :=
  let r := NormalizeVideoBillingResolutionOrDefault resolution in
  let configured := groupConfig ≫= fun c =>
    match LookupVideoModelPrice (ModelPrices c) model resolution with
    | Some p => Some p
    | None => if r ==? VideoBillingResolution480P then Price480P c
              else if r ==? VideoBillingResolution720P then Price720P c
              else if r ==? VideoBillingResolution1080P then Price1080P c else None
    end in
  default (getDefaultVideoPrice model resolution) configured.

Definition CalculateImageCost (model imageSize : string) (imageCount : Z) (groupConfig : option ImagePriceConfig)
    (rate : f64) : CostBreakdown :=
  if imageCount <=? 0 then no_cost
  else
    let imageSize := NormalizeImageBillingTierOrDefault imageSize in
    charge (fmul (getImageUnitPrice model imageSize groupConfig) (f64_of_Z imageCount)) rate BillingModeImage.

Definition CalculateVideoCost (model resolution : string) (videoCount durationSeconds : Z)
    (groupConfig : option VideoPriceConfig) (rate : f64) : CostBreakdown :=
  if videoCount <=? 0 then no_cost
  else
    let resolution := NormalizeVideoBillingResolutionOrDefault resolution in
    let d := NormalizeVideoBillingDurationSecondsOrDefault durationSeconds in
    let perSecond := getVideoUnitPrice model resolution groupConfig in
    charge (fmul (fmul perSecond (f64_of_Z d)) (f64_of_Z videoCount)) rate BillingModeVideo.

End UnitPrices.

Example image_cost_ex :
  TotalCost (CalculateImageCost (fun _ => None) "gemini-3-pro-image" "2048x1024" 2 None f1) =
    fmul (fmul (lit "0.134") (lit "1.5")) f2 /\
  ActualCost (CalculateVideoCost (fun _ => None) "xai/grok-imagine-video-1.5" "1080p" 1 99 None (f64_of_Z (-3))) =
    fmul (fmul (fmul (fmul (lit "0.134") (lit "1.5")) (f64_of_Z 15)) f1) f0.
Proof. vm_compute. split; reflexivity. Qed.
