(* ===== verification/PricingCatalog.v ===== *)
(** * The price catalogue

    internal/service/pricing_service.go and the price lookups of
    internal/service/billing_service.go: the spelling of OpenAI model names
    (openai_model_alias.go, openai_codex_transform.go), the catalogue's
    identified and fuzzy lookups, the hard-coded fallback cards and the
    corrections every card gets.  The catalogue's content is state (it is
    downloaded); a loop over its map meets the entries in an order the runtime
    picks, an argument here. *)

From S2P Require Import Prelude GoStrings Float64 Float64Exact GoTime ModelMapping Billing.
Local Open Scope Z_scope.
Local Notation "$ s" := (lit s) (at level 0, s constr at level 0, only parsing).

(** ** Names of OpenAI models *)

Fixpoint collapse_dashes (fuel : nat) (s : string) : string :=
  match fuel with
  | O => s
  | S n => if Contains s "--" then collapse_dashes n (ReplaceAll s "--" "-") else s
  end.

Definition spelling_replacements : list (string * string) :=
  [("gpt-5.4mini", "gpt-5.4-mini"); ("gpt-5.4nano", "gpt-5.4-nano"); ("gpt-5.3-codexspark", "gpt-5.3-codex-spark");
   ("gpt-5.3codexspark", "gpt-5.3-codex-spark"); ("gpt-5.3codex", "gpt-5.3-codex")].

Definition canonicalizeOpenAIModelAliasSpelling (model : string) : string :=
  let model := ToLower (lastOpenAIModelSegment model) in
  if model ==? "" then ""
  else
    let n := Join (Fields (ReplaceAll model "_" "-")) "-" in
    let n := collapse_dashes (Strings.String.length n) n in
    let n := if HasPrefix n "gpt5" then "gpt-5" +:+ TrimPrefix n "gpt5" else n in
    if negb (HasPrefix n "gpt-") && negb (Contains n "codex") then ""
    else foldl (fun n r => ReplaceAll n r.1 r.2) n spelling_replacements.

Definition codexModelMap : list (string * string) :=
  [("gpt-6-astra", "gpt-6-astra");
   ("gpt-5.6-sol", "gpt-5.6-sol");
   ("gpt-5.6-terra", "gpt-5.6-terra");
   ("gpt-5.6-luna", "gpt-5.6-luna");
   ("gpt-5.5", "gpt-5.5");
   ("gpt-5.5-pro", "gpt-5.5-pro");
   ("codex-auto-review", "codex-auto-review");
   ("gpt-5.4", "gpt-5.4");
   ("gpt-5.4-mini", "gpt-5.4-mini");
   ("gpt-5.4-none", "gpt-5.4");
   ("gpt-5.4-low", "gpt-5.4");
   ("gpt-5.4-medium", "gpt-5.4");
   ("gpt-5.4-high", "gpt-5.4");
   ("gpt-5.4-xhigh", "gpt-5.4");
   ("gpt-5.4-chat-latest", "gpt-5.4");
   ("gpt-5.3", "gpt-5.3-codex");
   ("gpt-5.3-none", "gpt-5.3-codex");
   ("gpt-5.3-low", "gpt-5.3-codex");
   ("gpt-5.3-medium", "gpt-5.3-codex");
   ("gpt-5.3-high", "gpt-5.3-codex");
   ("gpt-5.3-xhigh", "gpt-5.3-codex");
   ("gpt-5.3-codex", "gpt-5.3-codex");
   ("gpt-5.3-codex-spark", "gpt-5.3-codex-spark");
   ("gpt-5.3-codex-low", "gpt-5.3-codex");
   ("gpt-5.3-codex-medium", "gpt-5.3-codex");
   ("gpt-5.3-codex-high", "gpt-5.3-codex");
   ("gpt-5.3-codex-xhigh", "gpt-5.3-codex");
   ("gpt-5.2", "gpt-5.2");
   ("gpt-5.2-none", "gpt-5.2");
   ("gpt-5.2-low", "gpt-5.2");
   ("gpt-5.2-medium", "gpt-5.2");
   ("gpt-5.2-high", "gpt-5.2");
   ("gpt-5.2-xhigh", "gpt-5.2");
   ("gpt-5", "gpt-5.4");
   ("gpt-5-mini", "gpt-5.4");
   ("gpt-5-nano", "gpt-5.4");
   ("gpt-5.1", "gpt-5.4");
   ("gpt-5.1-codex", "gpt-5.3-codex");
   ("gpt-5.1-codex-max", "gpt-5.3-codex");
   ("gpt-5.1-codex-mini", "gpt-5.3-codex");
   ("gpt-5.2-codex", "gpt-5.2");
   ("codex-mini-latest", "gpt-5.3-codex");
   ("gpt-5-codex", "gpt-5.3-codex")].

Definition codexModelLookupKey (modelID : string) : string :=
  let m := TrimSpace modelID in
  if m ==? "" then "" else ToLower (Join (Fields (last_segment "" m)) "-").

Definition assoc {A} (l : list (string * A)) (k : string) : option A := (fun x => x.2.2) <$> list_find (fun p => p.1 = k) l.

Definition getNormalizedCodexModel (modelID : string) : option string :=
  let key := codexModelLookupKey modelID in
  if key ==? "" then None else assoc codexModelMap key.

Definition isCodexDateSuffix (suffix : string) : bool :=
  match Split suffix "-" with
  | [y; m; d] => (Strings.String.length y =? 4)%nat && (Strings.String.length m =? 2)%nat &&
                 (Strings.String.length d =? 2)%nat && string_forall is_digit y && string_forall is_digit m &&
                 string_forall is_digit d
  | _ => false
  end.

Definition isKnownCodexModelSuffix (suffix : string) : bool :=
  bool_decide (suffix ∈ ["none"; "minimal"; "low"; "medium"; "high"; "xhigh"]) || isCodexDateSuffix suffix.

(** The [switch] on the canonical spelling. *)
Definition known_codex_family (n : string) : option string :=
  if (n ==? "gpt-6") || (n ==? "gpt-6-astra") then Some "gpt-6-astra"
  else if Contains n "gpt-5.6-sol" then Some "gpt-5.6-sol"
  else if Contains n "gpt-5.6-terra" then Some "gpt-5.6-terra"
  else if Contains n "gpt-5.6-luna" then Some "gpt-5.6-luna"
  else if n ==? "gpt-5.6" then Some "gpt-5.6-sol"
  else if HasPrefix n "gpt-5.6-" then
    let suffix := TrimPrefix n "gpt-5.6-" in
    if (suffix ==? "max") || isKnownCodexModelSuffix suffix then Some "gpt-5.6-sol" else None
  else if Contains n "gpt-5.5-pro" then Some "gpt-5.5-pro"
  else if Contains n "gpt-5.5" then Some "gpt-5.5"
  else if Contains n "gpt-5.4-mini" then Some "gpt-5.4-mini"
  else if Contains n "gpt-5.4-nano" then Some "gpt-5.4-nano"
  else if Contains n "gpt-5.4" then Some "gpt-5.4"
  else if Contains n "gpt-5.2" then Some "gpt-5.2"
  else if Contains n "gpt-5.3-codex-spark" then Some "gpt-5.3-codex-spark"
  else if Contains n "gpt-5.3-codex" then Some "gpt-5.3-codex"
  else if Contains n "gpt-5.3" then Some "gpt-5.3-codex"
  else if Contains n "codex" then Some "gpt-5.3-codex"
  else if Contains n "gpt-5" then Some "gpt-5.4"
  else None.

(** [None] for the empty answer. *)
Definition normalizeKnownOpenAICodexModel (model : string) : option string :=
  let n := canonicalizeOpenAIModelAliasSpelling model in
  if n ==? "" then None
  else match getNormalizedCodexModel n with
       | Some mapped => Some mapped
       | None =>
           match (if HasSuffix n "-openai-compact"
                  then getNormalizedCodexModel (TrimSuffix n "-openai-compact") else None) with
           | Some mapped => Some mapped
           | None => known_codex_family n
           end
       end.

Definition isOpenAIGPT56Model (model : string) : bool :=
  let n := canonicalizeOpenAIModelAliasSpelling model in
  (n ==? "gpt-5.6") ||
  match strip_prefix "gpt-5.6-" n with
  | Some suffix => (suffix ==? "max") || isKnownCodexModelSuffix suffix
  | None => false
  end ||
  existsb (fun p => (n ==? p) || HasPrefix n (p +:+ "-")) ["gpt-5.6-sol"; "gpt-5.6-terra"; "gpt-5.6-luna"].

Definition isOpenAIGPT6AstraModel (model : string) : bool :=
  let n := canonicalizeOpenAIModelAliasSpelling model in
  (n ==? "gpt-6") || (n ==? "gpt-6-astra") || HasPrefix n "gpt-6-astra-".

(** ** Other names *)

(** Whether a marker of Fable 5.1 occurs without a digit after it; of each
    marker the first occurrence is tested. *)
Definition isClaudeFable51Model (model : string) : bool :=
  let m := ToLower (TrimSpace model) in
  existsb (fun marker => match head (after_each marker m) with
                         | Some (String c _) => negb (is_digit c)
                         | Some EmptyString => true
                         | None => false
                         end) ["fable-5-1"; "fable-5.1"; "fable5.1"; "fable51"].

Definition isDeepSeekModel (model : string) : bool := HasPrefix (ToLower (TrimSpace model)) "deepseek-".

Definition NormalizeMaxReasoningEffort (raw : string) : string :=
  let v := string_filter (fun c => negb (bool_decide (c ∈ ["-"%char; "_"%char; " "%char]))) (ToLower (TrimSpace raw)) in
  if bool_decide (v ∈ ["minimal"; "low"; "medium"; "high"; "xhigh"; "max"]) then v
  else if v ==? "extrahigh" then "xhigh" else "".

Definition claudeFable51MaxReasoningEffortMultiplier : f64 := f64_of_Z 3.
Definition defaultMaxReasoningEffortMultiplier (model : string) : option f64 :=
  if isClaudeFable51Model model then Some claudeFable51MaxReasoningEffortMultiplier else None.

Definition maxReasoningEffortBillingMultiplier (model effort : string) (p : option ModelPricing) : f64 :=
  if NormalizeMaxReasoningEffort effort !=? "max" then f1
  else
    let configured := (p ≫= MaxReasoningEffortMultiplier) ≫= fun m => if fltb f0 m then Some m else None in
    match configured with
    | Some m => m
    | None => default f1 (defaultMaxReasoningEffortMultiplier model)
    end.

(** ** The fallback cards *)

Definition pricingWithPriorityMultiplier (p : ModelPricing) (m : f64) : ModelPricing :=
  set_CacheReadPricePerTokenPriority (fmul (CacheReadPricePerToken p) m)
    (set_CacheCreationPricePerTokenPriority (fmul (CacheCreationPricePerToken p) m)
       (set_OutputPricePerTokenPriority (fmul (OutputPricePerToken p) m)
          (set_InputPricePerTokenPriority (fmul (InputPricePerToken p) m) p))).

Definition deepseekFlashOffPeakInputPrice : f64 := $"2.2e-7".
Definition deepseekFlashOffPeakOutputPrice : f64 := $"6.6e-7".
Definition deepseekFlashOffPeakCacheRead : f64 := $"7e-9".
Definition deepseekProOffPeakInputPrice : f64 := $"6.6e-7".
Definition deepseekProOffPeakOutputPrice : f64 := $"1.98e-6".
Definition deepseekProOffPeakCacheRead : f64 := $"2.2e-8".

(** Input, output and cache-read prices; the other fields are zero. *)
Definition card (input output cacheRead : f64) : ModelPricing :=
  set_CacheReadPricePerToken cacheRead (set_OutputPricePerToken output (set_InputPricePerToken input no_pricing)).
Definition priority (input output cacheCreation cacheRead : f64) (p : ModelPricing) : ModelPricing :=
  set_CacheReadPricePerTokenPriority cacheRead (set_CacheCreationPricePerTokenPriority cacheCreation
    (set_OutputPricePerTokenPriority output (set_InputPricePerTokenPriority input p))).
Definition long_context (threshold : Z) (inclusive : bool) (inM outM : f64) (p : ModelPricing) : ModelPricing :=
  mkPricing (InputPricePerToken p) (InputPricePerTokenPriority p) (ImageInputPricePerToken p) (OutputPricePerToken p)
    (OutputPricePerTokenPriority p) (CacheCreationPricePerToken p) (CacheCreationPricePerTokenPriority p)
    (CacheCreationPriceExplicit p) (CacheReadPricePerToken p) (CacheReadPricePerTokenPriority p) (FastMultiplier p)
    (FlexMultiplier p) (MaxReasoningEffortMultiplier p) (CacheCreation5mPrice p) (CacheCreation1hPrice p)
    (SupportsCacheBreakdown p) threshold inclusive inM outM (ImageOutputPricePerToken p) (ImageOutputPriceExplicit p).

Definition opus45 : ModelPricing := set_CacheCreationPricePerToken ($"6.25e-6") (card ($"5e-6") ($"25e-6") ($"0.5e-6")).

Definition claude_cards : list (string * ModelPricing) :=
  [("claude-opus-4.5", opus45);
   ("claude-sonnet-4", set_CacheCreationPricePerToken ($"3.75e-6") (card ($"3e-6") ($"15e-6") ($"0.3e-6")));
   ("claude-3-5-sonnet", set_CacheCreationPricePerToken ($"3.75e-6") (card ($"3e-6") ($"15e-6") ($"0.3e-6")));
   ("claude-3-5-haiku", set_CacheCreationPricePerToken ($"1.25e-6") (card ($"1e-6") ($"5e-6") ($"0.1e-6")));
   ("claude-3-opus", set_CacheCreationPricePerToken ($"18.75e-6") (card ($"15e-6") ($"75e-6") ($"1.5e-6")));
   ("claude-3-haiku", set_CacheCreationPricePerToken ($"0.3e-6") (card ($"0.25e-6") ($"1.25e-6") ($"0.03e-6")));
   ("claude-opus-4.6", opus45);
   ("claude-opus-4.7", opus45);
   ("claude-opus-4.8", pricingWithPriorityMultiplier opus45 f2);
   ("claude-opus-5", pricingWithPriorityMultiplier (pricingWithPriorityMultiplier opus45 f2) f2);
   ("claude-fable-5", set_SupportsCacheBreakdown true (set_CacheCreation1hPrice ($"20e-6") (set_CacheCreation5mPrice ($"12.5e-6") (set_CacheCreationPricePerToken ($"12.5e-6") (card ($"10e-6") ($"50e-6") ($"1e-6"))))));
   ("claude-fable-5-1", set_SupportsCacheBreakdown true (set_CacheCreation1hPrice ($"20e-6") (set_CacheCreation5mPrice ($"12.5e-6") (set_CacheCreationPricePerToken ($"12.5e-6") (card ($"10e-6") ($"50e-6") ($"0.25e-6"))))))].

Definition gemini_cards : list (string * ModelPricing) :=
  [("gemini-3.1-pro", set_CacheCreationPricePerToken ($"2e-6") (card ($"2e-6") ($"12e-6") ($"0.2e-6")));
   ("gemini-3.6-flash", card ($"1.5e-6") ($"7.5e-6") ($"0.15e-6"))].

Definition openai_cards : list (string * ModelPricing) :=
  [("gpt-5.4", priority ($"5e-6") ($"30e-6") f0 ($"0.5e-6") (set_CacheCreationPricePerToken ($"2.5e-6") (card ($"2.5e-6") ($"15e-6") ($"0.25e-6"))));
   ("gpt-5.5", pricingWithPriorityMultiplier (set_CacheCreationPricePerToken ($"5e-6") (card ($"5e-6") ($"30e-6") ($"0.5e-6"))) ($"2.5"));
   ("gpt-5.5-pro", set_CacheCreationPricePerToken ($"30e-6") (card ($"30e-6") ($"180e-6") ($"30e-6")));
   ("gpt-6-astra", long_context 272000 false f2 ($"1.5") (priority ($"20e-6") ($"100e-6") ($"25e-6") ($"2e-6") (set_CacheCreationPricePerToken ($"12.5e-6") (card ($"10e-6") ($"50e-6") ($"1e-6")))));
   ("gpt-5.6-sol", priority ($"10e-6") ($"60e-6") ($"12.5e-6") ($"1e-6") (set_CacheCreationPricePerToken ($"6.25e-6") (card ($"5e-6") ($"30e-6") ($"0.5e-6"))));
   ("gpt-5.6-terra", priority ($"4e-6") ($"24e-6") ($"5e-6") ($"0.4e-6") (set_CacheCreationPricePerToken ($"2.5e-6") (card ($"2e-6") ($"12e-6") ($"0.2e-6"))));
   ("gpt-5.6-luna", priority ($"0.4e-6") ($"2.4e-6") ($"0.5e-6") ($"0.04e-6") (set_CacheCreationPricePerToken ($"0.25e-6") (card ($"0.2e-6") ($"1.2e-6") ($"0.02e-6"))));
   ("gpt-5.4-mini", card ($"7.5e-7") ($"4.5e-6") ($"7.5e-8"));
   ("gpt-5.4-nano", card ($"2e-7") ($"1.25e-6") ($"2e-8"));
   ("gpt-5.2", priority ($"3.5e-6") ($"28e-6") f0 ($"0.35e-6") (set_CacheCreationPricePerToken ($"1.75e-6") (card ($"1.75e-6") ($"14e-6") ($"0.175e-6"))));
   ("gpt-5.3-codex", priority ($"3e-6") ($"24e-6") f0 ($"0.3e-6") (set_CacheCreationPricePerToken ($"1.5e-6") (card ($"1.5e-6") ($"12e-6") ($"0.15e-6"))))].

Definition deepseek_cards : list (string * ModelPricing) :=
  [("deepseek-v4-pro", card deepseekProOffPeakInputPrice deepseekProOffPeakOutputPrice deepseekProOffPeakCacheRead);
   ("deepseek-v4-flash", card deepseekFlashOffPeakInputPrice deepseekFlashOffPeakOutputPrice deepseekFlashOffPeakCacheRead);
   ("deepseek-v4-flash-vision-exp", card deepseekFlashOffPeakInputPrice deepseekFlashOffPeakOutputPrice deepseekFlashOffPeakCacheRead)].

Definition glm_cards : list (string * ModelPricing) :=
  [("glm-5.2", card ($"1.4e-6") ($"4.4e-6") ($"0.26e-6"));
   ("glm-5.1", card ($"1.4e-6") ($"4.4e-6") ($"0.26e-6"));
   ("glm-5", card ($"1e-6") ($"3.2e-6") ($"0.2e-6"));
   ("glm-5-turbo", card ($"1.2e-6") ($"4e-6") ($"0.24e-6"));
   ("glm-4.7", card ($"0.6e-6") ($"2.2e-6") ($"0.11e-6"));
   ("glm-4.7-flashx", card ($"0.07e-6") ($"0.4e-6") ($"0.01e-6"));
   ("glm-4.6", card ($"0.6e-6") ($"2.2e-6") ($"0.11e-6"));
   ("glm-4.5", card ($"0.6e-6") ($"2.2e-6") ($"0.11e-6"));
   ("glm-4.5-x", card ($"2.2e-6") ($"8.9e-6") ($"0.45e-6"));
   ("glm-4.5-air", card ($"0.2e-6") ($"1.1e-6") ($"0.03e-6"));
   ("glm-4.5-airx", card ($"1.1e-6") ($"4.5e-6") ($"0.22e-6"));
   ("glm-4-32b-0414-128k", card ($"0.1e-6") ($"0.1e-6") f0);
   ("glm-4.5-flash", card f0 f0 f0);
   ("glm-4.7-flash", card f0 f0 f0)].

Definition kimi_cards : list (string * ModelPricing) :=
  [("kimi-k3", card ($"3e-6") ($"15e-6") ($"0.30e-6"));
   ("kimi-k2.6", card ($"0.95e-6") ($"4e-6") ($"0.15e-6"));
   ("kimi-for-coding", card ($"0.95e-6") ($"4e-6") ($"0.15e-6"));
   ("kimi-k2.5", card ($"0.60e-6") ($"3e-6") ($"0.098e-6"));
   ("kimi-k2-thinking", card ($"0.56e-6") ($"2.24e-6") ($"0.14e-6"));
   ("kimi-k2", card ($"0.56e-6") ($"2.24e-6") ($"0.14e-6"))].

Definition minimax_cards : list (string * ModelPricing) :=
  [("minimax-m3", card ($"0.60e-6") ($"2.40e-6") ($"0.12e-6"));
   ("minimax-m2.7", card ($"0.30e-6") ($"1.20e-6") ($"0.06e-6"));
   ("minimax-m2.7-highspeed", card ($"0.60e-6") ($"2.40e-6") ($"0.06e-6"));
   ("minimax-m2.5", card ($"0.30e-6") ($"1.20e-6") ($"0.03e-6"));
   ("minimax-m2.1", card ($"0.30e-6") ($"1.20e-6") ($"0.03e-6"));
   ("minimax-m2", card ($"0.30e-6") ($"1.20e-6") ($"0.03e-6"));
   ("doubao-embedding-vision", set_ImageInputPricePerToken ($"0.252e-6") (card ($"0.098e-6") f0 f0))].

Definition grok_cards : list (string * ModelPricing) :=
  [("grok-4.5", long_context 200000 true f2 f2 (card ($"2e-6") ($"6e-6") ($"0.3e-6")));
   ("grok-4.6", long_context 200000 true f2 f2 (card ($"2e-6") ($"6e-6") ($"0.5e-6")));
   ("grok-4.3", long_context 200000 true f2 f2 (card ($"1.25e-6") ($"2.5e-6") ($"0.2e-6")));
   ("grok-4.20", long_context 200000 true f2 f2 (card ($"1.25e-6") ($"2.5e-6") ($"0.2e-6")));
   ("grok-3-mini", card ($"0.30e-6") ($"0.50e-6") ($"0.075e-6"));
   ("grok-3-mini-fast", card ($"0.60e-6") ($"4e-6") ($"0.15e-6"));
   ("grok-build-0.1", long_context 200000 true f2 f2 (card ($"1e-6") ($"2e-6") ($"0.2e-6")))].

Definition fallback_cards : list (string * ModelPricing) :=
  claude_cards ++ gemini_cards ++ openai_cards ++ deepseek_cards ++ glm_cards ++ kimi_cards ++ minimax_cards ++ grok_cards.
Definition fallbackPrices : gmap string ModelPricing := list_to_map fallback_cards.

Definition has (m : string) (subs : list string) : bool := existsb (Contains m) subs.

Definition isGrokMediaFamilyModel (native : string) : bool :=
  has native ["imagine"; "image"; "video"; "audio"; "speech"; "tts"; "transcribe"; "realtime"].

Definition isGrokUnknownTextFamilyModel (model : string) : bool :=
  let native := ToLower (TrimSpace (StripGrokProviderPrefix model)) in
  if isGrokMediaFamilyModel native then false
  else if (native ==? "grok") || (native ==? "grok-latest") then true
  else if HasPrefix native "grok-build" || HasPrefix native "grok-composer" || HasPrefix native "composer-" then true
  else match strip_prefix "grok-" native with
       | Some (String c _) => is_digit c
       | _ => false
       end.

Definition claude_key (m : string) : option string :=
  if isClaudeFable51Model m then Some "claude-fable-5-1"
  else if has m ["fable-5"; "fable5"] then Some "claude-fable-5"
  else if has m ["opus"] then
    Some (if has m ["opus-5"; "opus5"] then "claude-opus-5"
          else if has m ["4.8"; "4-8"] then "claude-opus-4.8"
          else if has m ["4.7"; "4-7"] then "claude-opus-4.7"
          else if has m ["4.6"; "4-6"] then "claude-opus-4.6"
          else if has m ["4.5"; "4-5"] then "claude-opus-4.5"
          else "claude-3-opus")
  else if has m ["sonnet"] then
    Some (if has m ["4"] && negb (has m ["3"]) then "claude-sonnet-4" else "claude-3-5-sonnet")
  else if has m ["haiku"] then
    Some (if has m ["3-5"; "3.5"] then "claude-3-5-haiku" else "claude-3-haiku")
  else if has m ["claude"] then Some "claude-sonnet-4"
  else None.

(** Rules tried in order: substrings and the key they stand for. *)
Fixpoint first_rule (rules : list (list string * string)) (m : string) : option string :=
  match rules with
  | [] => None
  | (subs, k) :: rules => if has m subs then Some k else first_rule rules m
  end.

Definition gemini_deepseek_key (m : string) : option string :=
  match first_rule
    [(["gemini-3.1-pro"; "gemini-3-1-pro"], "gemini-3.1-pro"); (["gemini-3.6-flash"; "gemini-3-6-flash"], "gemini-3.6-flash");
     (["deepseek-v4-flash-vision-exp"], "deepseek-v4-flash-vision-exp"); (["deepseek-v4-flash"], "deepseek-v4-flash");
     (["deepseek-v4-pro"], "deepseek-v4-pro")] m with
  | Some k => Some k
  | None => if HasPrefix m "deepseek-" then Some "deepseek-v4-flash" else None
  end.

Definition glm_key : string -> option string := first_rule
  [(["glm-5.2"], "glm-5.2"); (["glm-5.1"], "glm-5.1"); (["glm-5-turbo"; "glm-5turbo"], "glm-5-turbo"); (["glm-5"], "glm-5");
   (["glm-4.7-flashx"], "glm-4.7-flashx"); (["glm-4.7-flash"], "glm-4.7-flash"); (["glm-4.7"], "glm-4.7"); (["glm-4.6"], "glm-4.6");
   (["glm-4.5-flash"], "glm-4.5-flash"); (["glm-4.5-x"; "glm-4.5x"], "glm-4.5-x"); (["glm-4.5-airx"; "glm-4.5airx"], "glm-4.5-airx");
   (["glm-4.5-air"; "glm-4.5air"], "glm-4.5-air"); (["glm-4.5"], "glm-4.5"); (["glm-4-32b"], "glm-4-32b-0414-128k")].

Definition kimi_key (m : string) : option string :=
  if has m ["kimi-for-coding"] then Some "kimi-for-coding"
  else if (m ==? "kimi-k3") || HasSuffix m "/kimi-k3" || (m ==? "k3") || (m ==? "k3-256k") ||
          HasSuffix m "/k3" || HasSuffix m "/k3-256k" then Some "kimi-k3"
  else first_rule
    [(["kimi-k2.6"; "kimi-k2-6"], "kimi-k2.6"); (["kimi-k2.5"; "kimi-k2-5"], "kimi-k2.5");
     (["kimi-k2-thinking"; "kimi-k2-thinking-"], "kimi-k2-thinking"); (["kimi-k2"; "kimi/k2"], "kimi-k2")] m.

Definition minimax_doubao_key : string -> option string := first_rule
  [(["minimax-m3"], "minimax-m3"); (["minimax-m2.7-highspeed"; "minimax-m2-7-highspeed"], "minimax-m2.7-highspeed");
   (["minimax-m2.7"; "minimax-m2-7"], "minimax-m2.7"); (["minimax-m2.5"; "minimax-m2-5"], "minimax-m2.5");
   (["minimax-m2.1"; "minimax-m2-1"], "minimax-m2.1"); (["minimax-m2"; "minimax-m-2"], "minimax-m2");
   (["doubao-embedding-vision"], "doubao-embedding-vision")].

Definition openai_key (m : string) : option string :=
  match normalizeKnownOpenAICodexModel m with
  | Some n => if bool_decide (n ∈ ["gpt-6-astra"; "gpt-5.6-sol"; "gpt-5.6-terra"; "gpt-5.6-luna"; "gpt-5.5-pro"; "gpt-5.5";
                                   "gpt-5.4-mini"; "gpt-5.4-nano"; "gpt-5.4"; "gpt-5.2"]) then Some n
              else if bool_decide (n ∈ ["gpt-5.3-codex"; "gpt-5.3-codex-spark"]) then Some "gpt-5.3-codex"
              else None
  | None => None
  end.

Definition grok_key (m : string) : option string :=
  if bool_decide (m ∈ ["grok"; "grok-latest"; "grok-4.6"; "grok-4.6-latest"]) then Some "grok-4.6"
  else if bool_decide (m ∈ ["grok-4.5"; "grok-4.5-latest"]) then Some "grok-4.5"
  else if m ==? "grok-3-mini" then Some "grok-3-mini"
  else if m ==? "grok-3-mini-fast" then Some "grok-3-mini-fast"
  else if m ==? "grok-4.3" then Some "grok-4.3"
  else if bool_decide (m ∈ ["grok-4.20-0309-reasoning"; "grok-4.20-0309-non-reasoning"; "grok-4.20-multi-agent-0309";
                            "grok-4.20-reasoning"; "grok-4.20-non-reasoning"]) then Some "grok-4.20"
  else if bool_decide (m ∈ ["grok-build"; "grok-build-latest"; "grok-build-0.1"; "grok-composer"; "grok-composer-2.5-fast";
                            "composer-2.5"]) then Some "grok-build-0.1"
  else if isGrokUnknownTextFamilyModel m then Some "grok-4.6" else None.

Fixpoint first_some (fs : list (string -> option string)) (m : string) : option string :=
  match fs with [] => None | f :: fs => match f m with Some k => Some k | None => first_some fs m end end.

(** The key of the card [getFallbackPricing] returns. *)
Definition fallback_key (model : string) : option string :=
  first_some [claude_key; gemini_deepseek_key; glm_key; kimi_key; minimax_doubao_key; openai_key; grok_key] (ToLower model).

Definition getFallbackPricing (model : string) : option ModelPricing := fallback_key model ≫= fun k => fallbackPrices !! k.

(** ** The catalogue *)

Record LiteLLMModelPricing := mkLiteLLM {
  InputCostPerToken : f64;
  InputCostPerTokenPriority : f64;
  OutputCostPerToken : f64;
  OutputCostPerTokenPriority : f64;
  CacheCreationInputTokenCost : f64;
  CacheCreationInputTokenCostPriority : f64;
  CacheCreationInputTokenCostAbove1hr : f64;
  CacheReadInputTokenCost : f64;
  CacheReadInputTokenCostPriority : f64;
  LongContextInputTokenThreshold : Z;
  LongContextInputCostMultiplier : f64;
  LongContextOutputCostMultiplier : f64;
  LiteLLMProvider : string;
  OutputCostPerImage : f64;
  OutputCostPerImageToken : f64;
  InputCostPerImageToken : f64;
  TokenPricingAbsent : bool;
}.

Definition openAIGPT54FallbackPricing : LiteLLMModelPricing :=
  mkLiteLLM ($"2.5e-06") f0 ($"1.5e-05") f0 f0 f0 f0 ($"2.5e-07") f0 0 f0 f0 "openai" f0 f0 f0 false.
Definition openAIGPT6AstraFallbackPricing : LiteLLMModelPricing :=
  mkLiteLLM ($"1e-05") ($"2e-05") ($"5e-05") ($"1e-04") ($"1.25e-05") ($"2.5e-05") f0 ($"1e-06") ($"2e-06") 272000 f2 ($"1.5") "openai" f0 f0 f0 false.
Definition openAIGPT56SolFallbackPricing : LiteLLMModelPricing :=
  mkLiteLLM ($"5e-06") ($"1e-05") ($"3e-05") ($"6e-05") ($"6.25e-06") ($"1.25e-05") f0 ($"5e-07") ($"1e-06") 0 f0 f0 "openai" f0 f0 f0 false.
Definition openAIGPT56TerraFallbackPricing : LiteLLMModelPricing :=
  mkLiteLLM ($"2e-06") ($"4e-06") ($"1.2e-05") ($"2.4e-05") ($"2.5e-06") ($"5e-06") f0 ($"2e-07") ($"4e-07") 0 f0 f0 "openai" f0 f0 f0 false.
Definition openAIGPT56LunaFallbackPricing : LiteLLMModelPricing :=
  mkLiteLLM ($"2e-07") ($"4e-07") ($"1.2e-06") ($"2.4e-06") ($"2.5e-07") ($"5e-07") f0 ($"2e-08") ($"4e-08") 0 f0 f0 "openai" f0 f0 f0 false.
Definition openAIGPT54MiniFallbackPricing : LiteLLMModelPricing :=
  mkLiteLLM ($"7.5e-07") f0 ($"4.5e-06") f0 f0 f0 f0 ($"7.5e-08") f0 0 f0 f0 "openai" f0 f0 f0 false.
Definition openAIGPT54NanoFallbackPricing : LiteLLMModelPricing :=
  mkLiteLLM ($"2e-07") f0 ($"1.25e-06") f0 f0 f0 f0 ($"2e-08") f0 0 f0 f0 "openai" f0 f0 f0 false.

(** The elements in order, each once. *)
Fixpoint dedup (seen l : list string) : list string :=
  match l with
  | [] => []
  | x :: l => if bool_decide (x ∈ seen) then dedup seen l else x :: dedup (x :: seen) l
  end.

(** [openAIModelDatePattern] cuts an ending of a dash and eight digits;
    [openAIModelBasePattern] captures gpt-MAJOR or gpt-MAJOR.MINOR when a dash
    or the end follows. *)
Definition without_date (model : string) : string :=
  let n := Strings.String.length model in
  let tail := Strings.String.substring (n - 9) 9 model in
  match strip_prefix "-" tail with
  | Some d => if (9 <=? n)%nat && (Strings.String.length d =? 8)%nat && string_forall is_digit d
              then Strings.String.substring 0 (n - 9) model else model
  | None => model
  end.

Fixpoint take_digits (s : string) : string * string :=
  match s with
  | String c t => if is_digit c then let '(d, r) := take_digits t in (String c d, r) else ("", s)
  | EmptyString => ("", "")
  end.

Definition openai_base (model : string) : option string :=
  match strip_prefix "gpt-" model with
  | None => None
  | Some r =>
      let '(major, r) := take_digits r in
      if major ==? "" then None
      else
        let '(version, r) :=
          match r with
          | String "." t => let '(minor, r') := take_digits t in
                            if minor ==? "" then (major, r) else (major +:+ "." +:+ minor, r')
          | _ => (major, r)
          end in
        match r with
        | EmptyString | String "-" _ => Some ("gpt-" +:+ version)
        | _ => None
        end
  end.

Definition generateOpenAIModelVariants (model : string) : list string :=
  let withoutDate := without_date model in
  let variants := (if withoutDate !=? model then [withoutDate] else [])
    ++ option_list (openai_base model)
    ++ (if withoutDate !=? model then option_list (openai_base withoutDate) else []) in
  dedup [] (base.filter (fun v => v <> model) variants).

Definition DefaultTestModel := "gpt-5.4".

Definition isGrokImageGenerationModel (model : string) : bool :=
  let m := ToLower (TrimSpace model) in
  (m ==? "grok-imagine") || (m ==? "grok-imagine-edit") || HasPrefix m "grok-imagine-image".

Definition IsGPTImageGenerationModel (model : string) : bool := HasPrefix (ToLower (TrimSpace model)) "gpt-image-".
Definition isOpenAIImageGenerationModel (model : string) : bool :=
  IsGPTImageGenerationModel model || isGrokImageGenerationModel model.

Definition isNumeric8 (part : string) : bool := (Strings.String.length part =? 8)%nat && string_forall is_digit part.

Definition extractBaseName (model : string) : string :=
  Join (base.filter (fun part => isNumeric8 part = false /\ Contains part ":" = false) (Split model "-")) "-".

Definition lastSegment (model : string) : string := last_segment "" model.

Definition normalizeGeminiThinkingTierAlias (model : string) : string :=
  if bool_decide (model ∈ ["gemini-3.6-flash-high"; "gemini-3.6-flash-low"; "gemini-3.6-flash-medium"; "gemini-3.6-flash-tiered"])
  then "gemini-3.6-flash" else model.

Definition normalizeModelNameForPricing (model : string) : string :=
  let m := TrimLeft (TrimSpace model) ["/"%char] in
  let m := TrimPrefix (TrimPrefix m "models/") "publishers/google/models/" in
  let m := default m (after_last "/publishers/google/models/" m) in
  let m := default m (after_last "/models/" m) in
  let m := TrimLeft m ["/"%char] in
  let canonical := canonicalizeOpenAIModelAliasSpelling m in
  if canonical !=? "" then
    if canonical ==? "gpt-6" then "gpt-6-astra"
    else if canonical ==? "gpt-5.6" then "gpt-5.6-sol"
    else match strip_prefix "gpt-5.6-" canonical with
         | Some suffix => if (suffix ==? "max") || isKnownCodexModelSuffix suffix then "gpt-5.6-sol" else canonical
         | None => canonical
         end
  else normalizeGeminiThinkingTierAlias m.

Definition buildModelLookupCandidates (modelLower : string) : list string :=
  let raw := [modelLower; TrimPrefix modelLower "models/"; lastSegment modelLower; lastSegment (TrimPrefix modelLower "models/")] in
  let normalized := normalizeModelNameForPricing modelLower in
  let seg := lastSegment modelLower in
  let candidates := if normalizeGeminiThinkingTierAlias seg !=? seg then raw ++ [normalized] else normalized :: raw in
  let out := dedup [] (base.filter (fun c => c <> "") (TrimSpace <$> candidates)) in
  match out with [] => [modelLower] | _ => out end.

Record modelFamily := mkFamily { fam_name : string; fam_match : list string; fam_pricing : option (list string) }.

Definition families : list modelFamily :=
  [mkFamily "opus-5" ["claude-opus-5"] (Some ["claude-opus-5"; "claude-opus-4-8"]);
   mkFamily "opus-4.8" ["claude-opus-4-8"; "claude-opus-4.8"] (Some ["claude-opus-4-8"; "claude-opus-4.8"; "claude-opus-4-7"]);
   mkFamily "opus-4.7" ["claude-opus-4-7"; "claude-opus-4.7"] (Some ["claude-opus-4-7"; "claude-opus-4.7"; "claude-opus-4-6"]);
   mkFamily "opus-4.6" ["claude-opus-4-6"; "claude-opus-4.6"] None;
   mkFamily "opus-4.5" ["claude-opus-4-5"; "claude-opus-4.5"] None;
   mkFamily "opus-4" ["claude-opus-4"; "claude-3-opus"] None;
   mkFamily "sonnet-4.5" ["claude-sonnet-4-5"; "claude-sonnet-4.5"] None;
   mkFamily "sonnet-4" ["claude-sonnet-4"; "claude-3-5-sonnet"] None;
   mkFamily "sonnet-3.5" ["claude-3-5-sonnet"; "claude-3.5-sonnet"] None;
   mkFamily "sonnet-3" ["claude-3-sonnet"] None;
   mkFamily "haiku-3.5" ["claude-3-5-haiku"; "claude-3.5-haiku"] None;
   mkFamily "haiku-3" ["claude-3-haiku"] None].

Definition family_matches (model : string) (f : modelFamily) : bool :=
  existsb (fun p => Contains model p || Contains model (ReplaceAll p "-" "")) (fam_match f).

Definition family_keyword (m : string) : option string :=
  if has m ["opus"] then
    Some (if has m ["opus-5"; "opus5"] then "opus-5" else if has m ["4.8"; "4-8"] then "opus-4.8"
          else if has m ["4.7"; "4-7"] then "opus-4.7" else if has m ["4.6"; "4-6"] then "opus-4.6"
          else if has m ["4.5"; "4-5"] then "opus-4.5" else "opus-4")
  else if has m ["sonnet"] then
    Some (if has m ["4.5"; "4-5"] then "sonnet-4.5" else if has m ["3-5"; "3.5"] then "sonnet-3.5" else "sonnet-4")
  else if has m ["haiku"] then Some (if has m ["3-5"; "3.5"] then "haiku-3.5" else "haiku-3")
  else None.

Definition family_of (model : string) : option modelFamily :=
  match list_find (fun f => family_matches model f = true) families with
  | Some (_, f) => Some f
  | None => family_keyword model ≫= fun name => snd <$> list_find (fun f => fam_name f = name) families
  end.

Section Catalogue.
Variable pricingData : gmap string LiteLLMModelPricing.
(** The order in which a loop over the map meets its entries; the loops are
    told apart by what they look for. *)
Variable range : string -> list (string * LiteLLMModelPricing).

Definition lookup_first (names : list string) : option LiteLLMModelPricing :=
  head (omap (fun n => pricingData !! n) names).

Definition loop (label : string) (f : string -> bool) : option LiteLLMModelPricing :=
  (fun x => x.2.2) <$> list_find (fun kv => f kv.1 = true) (range label).

Definition or_else {A} (x y : option A) : option A := match x with Some _ => x | None => y end.

Definition lookupIdentifiedModelPricingLocked (candidates : list string) : option LiteLLMModelPricing :=
  match candidates with
  | [] => None
  | c :: _ =>
      or_else (lookup_first (base.filter (fun c => c <> "") candidates))
        (or_else (lookup_first ((fun c => ReplaceAll c "-4-5-" "-4.5-") <$> candidates))
           (let baseName := extractBaseName c in
            loop "" (fun key => extractBaseName (ToLower key) ==? baseName)))
  end.

Definition GetIdentifiedModelPricing (modelName : string) : option LiteLLMModelPricing :=
  let m := ToLower (TrimSpace modelName) in
  if m ==? "" then None else lookupIdentifiedModelPricingLocked (buildModelLookupCandidates m).

Fixpoint first_pattern (patterns : list string) : option LiteLLMModelPricing :=
  match patterns with
  | [] => None
  | p :: patterns => or_else (loop p (fun key => Contains (ToLower key) p)) (first_pattern patterns)
  end.

Definition matchByModelFamily (model : string) : option LiteLLMModelPricing :=
  family_of model ≫= fun f => first_pattern (default (fam_match f) (fam_pricing f)).

Definition matchOpenAIModel (model : string) : option LiteLLMModelPricing :=
  let prefixed p (k : option LiteLLMModelPricing) := if HasPrefix model p then k else None in
  or_else (prefixed "gpt-5.3-codex-spark" (pricingData !! "gpt-5.1-codex"))
    (or_else (lookup_first (generateOpenAIModelVariants model))
      (or_else (prefixed "gpt-5.3-codex" (pricingData !! "gpt-5.2-codex"))
        (if isOpenAIGPT6AstraModel model then Some openAIGPT6AstraFallbackPricing
         else if HasPrefix model "gpt-5.6-sol" then Some openAIGPT56SolFallbackPricing
         else if HasPrefix model "gpt-5.6-terra" then Some openAIGPT56TerraFallbackPricing
         else if HasPrefix model "gpt-5.6-luna" then Some openAIGPT56LunaFallbackPricing
         else if HasPrefix model "gpt-5.5" then Some openAIGPT54FallbackPricing
         else if HasPrefix model "gpt-5.4-mini" then Some openAIGPT54MiniFallbackPricing
         else if HasPrefix model "gpt-5.4-nano" then Some openAIGPT54NanoFallbackPricing
         else if HasPrefix model "gpt-5.4" then Some openAIGPT54FallbackPricing
         else if isOpenAIImageGenerationModel model then lookup_first ["gpt-image-2"; "gpt-image-1.5"; "gpt-image-1"]
         else pricingData !! ToLower DefaultTestModel))).

Definition catalog_GetModelPricing (modelName : string) : option LiteLLMModelPricing :=
  if modelName ==? "" then None
  else
    let candidates := buildModelLookupCandidates (ToLower (TrimSpace modelName)) in
    let c := default "" (head candidates) in
    or_else (lookupIdentifiedModelPricingLocked candidates)
      (or_else (matchByModelFamily c) (if HasPrefix c "gpt-" then matchOpenAIModel c else None)).

End Catalogue.

(** ** The corrections a card gets *)

Definition openAIModelFastPricingRatio (normalized : string) : f64 :=
  if bool_decide (normalized ∈ ["gpt-5.4"; "gpt-5.6-sol"; "gpt-5.6-terra"; "gpt-5.6-luna"; "gpt-6-astra"]) then f2
  else if normalized ==? "gpt-5.5" then $"2.5"
  else if isOpenAIGPT6AstraModel normalized then f2 else f0.

Definition enforceOpenAIFastPricingRatio (p : ModelPricing) (ratio : f64) : ModelPricing :=
  if fleb ratio f0 then p
  else
    let p := set_InputPricePerTokenPriority (fmul (InputPricePerToken p) ratio) p in
    let p := set_OutputPricePerTokenPriority (fmul (OutputPricePerToken p) ratio) p in
    let p := if fltb f0 (CacheReadPricePerToken p)
             then set_CacheReadPricePerTokenPriority (fmul (CacheReadPricePerToken p) ratio) p else p in
    if fltb f0 (CacheCreationPricePerToken p)
    then set_CacheCreationPricePerTokenPriority (fmul (CacheCreationPricePerToken p) ratio) p else p.

Definition force_deepseek (model : string) (p : ModelPricing) : ModelPricing :=
  let set i o r := set_CacheReadPricePerToken r (set_OutputPricePerToken o (set_InputPricePerToken i p)) in
  if Contains (ToLower (TrimSpace model)) "deepseek-v4-pro"
  then set deepseekProOffPeakInputPrice deepseekProOffPeakOutputPrice deepseekProOffPeakCacheRead
  else set deepseekFlashOffPeakInputPrice deepseekFlashOffPeakOutputPrice deepseekFlashOffPeakCacheRead.

(** The missing cache-creation prices of a GPT-5.6 card. *)
Definition fill_cache_creation (p : ModelPricing) : ModelPricing :=
  let p := if fleb (CacheCreationPricePerToken p) f0
           then set_CacheCreationPricePerToken (fmul (InputPricePerToken p) ($"1.25")) p else p in
  if fleb (CacheCreationPricePerTokenPriority p) f0
  then set_CacheCreationPricePerTokenPriority (fmul (InputPricePerTokenPriority p) ($"1.25")) p else p.

Definition applyModelSpecificPricingPolicyEx (model : string) (p : ModelPricing) (forceDeepSeekRates : bool) : ModelPricing :=
  if forceDeepSeekRates && isDeepSeekModel model then force_deepseek model p
  else
    let normalized := default "" (normalizeKnownOpenAICodexModel model) in
    let isGPT56 := isOpenAIGPT56Model normalized in
    let needsEffort := isClaudeFable51Model model && match MaxReasoningEffortMultiplier p with None => true | _ => false end in
    let needsCreation := isGPT56 && negb (CacheCreationPriceExplicit p) &&
      (fleb (CacheCreationPricePerToken p) f0 ||
       (fltb f0 (InputPricePerTokenPriority p) && fleb (CacheCreationPricePerTokenPriority p) f0)) in
    let fastRatio := openAIModelFastPricingRatio normalized in
    if negb needsCreation && fleb fastRatio f0 && negb needsEffort then p
    else
      let p := if needsEffort then set_MaxReasoningEffortMultiplier (defaultMaxReasoningEffortMultiplier model) p else p in
      let p := if isGPT56 && negb (CacheCreationPriceExplicit p) then fill_cache_creation p else p in
      if fltb f0 fastRatio then enforceOpenAIFastPricingRatio p fastRatio else p.

Definition applyModelSpecificPricingPolicy (model : string) (p : ModelPricing) : ModelPricing :=
  applyModelSpecificPricingPolicyEx model p true.

(** ** The price card of a model *)

Definition card_of_entry (l : LiteLLMModelPricing) : ModelPricing :=
  let price5m := CacheCreationInputTokenCost l in
  let price1h := CacheCreationInputTokenCostAbove1hr l in
  let enableBreakdown := fltb f0 price1h && fltb price5m price1h in
  mkPricing (InputCostPerToken l) (InputCostPerTokenPriority l) (InputCostPerImageToken l) (OutputCostPerToken l)
    (OutputCostPerTokenPriority l) (CacheCreationInputTokenCost l) (CacheCreationInputTokenCostPriority l) false
    (CacheReadInputTokenCost l) (CacheReadInputTokenCostPriority l) None None None price5m price1h enableBreakdown
    (LongContextInputTokenThreshold l) (EqualFold (LiteLLMProvider l) "xai") (LongContextInputCostMultiplier l)
    (LongContextOutputCostMultiplier l) (OutputCostPerImageToken l) false.

Section Prices.
(** The catalogue, when the service has one. *)
Variable catalog : option (gmap string LiteLLMModelPricing * (string -> list (string * LiteLLMModelPricing))).

Definition priced (l : option LiteLLMModelPricing) : option LiteLLMModelPricing :=
  match l with Some e => if TokenPricingAbsent e then None else Some e | None => None end.

Definition GetModelPricing (model : string) : option ModelPricing :=
  let model := ToLower model in
  match catalog ≫= fun '(data, range) => priced (catalog_GetModelPricing data range model) with
  | Some e => Some (applyModelSpecificPricingPolicy model (card_of_entry e))
  | None => applyModelSpecificPricingPolicy model <$> getFallbackPricing model
  end.

Definition HasIdentifiedTokenPricing (model : string) : bool :=
  let m := ToLower (TrimSpace model) in
  if m ==? "" then false
  else match catalog ≫= fun '(data, range) => priced (GetIdentifiedModelPricing data range m) with
       | Some _ => true
       | None => match fallbackPrices !! m with Some _ => true | None => false end
       end.

End Prices.

Definition fx_entry_at (input : string) : LiteLLMModelPricing :=
  mkLiteLLM (lit input) f0 f0 f0 f0 f0 f0 f0 f0 0 f0 f0 "anthropic" f0 f0 f0 false.
Definition fx_regional : list (string * LiteLLMModelPricing) :=
  [("us.claude-opus-4-6-v1", fx_entry_at "5e-6"); ("eu.claude-opus-4-6-v1", fx_entry_at "5.5e-6")].

(** With two keys that contain the pattern of a family, the price of a model
    that is neither depends on the order the loop meets them in. *)
Example family_price_depends_on_order :
  catalog_GetModelPricing (list_to_map fx_regional) (fun _ => fx_regional) "claude-opus-4-6-fast" = Some (fx_entry_at "5e-6") /\
  catalog_GetModelPricing (list_to_map fx_regional) (fun _ => rev fx_regional) "claude-opus-4-6-fast" = Some (fx_entry_at "5.5e-6").
Proof. vm_compute. split; reflexivity. Qed.
