(* ===== verification/ChannelPricing.v ===== *)
(** * Channel prices

    internal/service/channel.go, channel_service.go and
    custom_channel_time_pricing.go: the prices an operator configures for a
    channel, their validation, the cache the hot path looks them up in, and the
    multipliers by time of day.  Errors carry no text. *)

From S2P Require Import Prelude GoStrings Float64 Float64Exact GoTime Account Billing.
Local Open Scope Z_scope.

(** ** Configuration *)

Record PricingInterval := mkInterval {
  iv_MinTokens : Z;
  iv_MaxTokens : option Z;
  iv_TierLabel : string;
  iv_InputPrice : option f64;
  iv_OutputPrice : option f64;
  iv_CacheWritePrice : option f64;
  iv_CacheWrite1hPrice : option f64;
  iv_CacheReadPrice : option f64;
  iv_InputMultiplier : option f64;
  iv_OutputMultiplier : option f64;
  iv_CacheWriteMultiplier : option f64;
  iv_CacheReadMultiplier : option f64;
  iv_PerRequestPrice : option f64;
}.

Record ChannelTimePricingPeriod := mkPeriod { StartTime : string; EndTime : string; Multiplier : f64 }.
Record ChannelTimePricing := mkTimePricing {
  Timezone : string; WeekdaysOnly : bool; Periods : list ChannelTimePricingPeriod; }.

Record ChannelModelPricing := mkChannelPricing {
  cp_Platform : string;
  cp_Models : list string;
  cp_BillingMode : string;
  cp_InputPrice : option f64;
  cp_OutputPrice : option f64;
  cp_CacheWritePrice : option f64;
  cp_CacheWrite1hPrice : option f64;
  cp_CacheReadPrice : option f64;
  cp_FastMultiplier : option f64;
  cp_FlexMultiplier : option f64;
  cp_MaxReasoningEffortMultiplier : option f64;
  cp_ImageInputPrice : option f64;
  cp_ImageOutputPrice : option f64;
  cp_PerRequestPrice : option f64;
  cp_Intervals : list PricingInterval;
  cp_TimePricing : option ChannelTimePricing;
}.

Record Channel := mkChannel {
  ch_ID : Z;
  ch_Status : string;
  ch_RestrictModels : bool;
  ch_GroupIDs : list Z;
  ch_ModelPricing : list ChannelModelPricing;
}.

(** ** Intervals *)

Definition in_interval (totalTokens : Z) (iv : PricingInterval) : bool :=
  (iv_MinTokens iv <? totalTokens) &&
  match iv_MaxTokens iv with None => true | Some m => totalTokens <=? m end.

Definition FindMatchingInterval (ivs : list PricingInterval) (totalTokens : Z) : option PricingInterval :=
  snd <$> list_find (fun iv => in_interval totalTokens iv = true) ivs.

Inductive ConfigError :=
| ErrMinTokens | ErrMaxTokens | ErrNegativePrice | ErrMultiplier | ErrUnboundedNotLast | ErrOverlap
| ErrModelConflict | ErrMissingPrice | ErrIntervalMissingPrice | ErrTimePricingMode | ErrTimePricing.

#[global] Instance ConfigError_eq_dec : EqDecision ConfigError.
Proof. solve_decision. Defined.

(** The first check that fails. *)
Fixpoint first_error {A} (check : A -> option ConfigError) (l : list A) : option ConfigError :=
  match l with
  | [] => None
  | x :: l => match check x with Some e => Some e | None => first_error check l end
  end.
Definition and_then (e : option ConfigError) (k : option ConfigError) : option ConfigError :=
  match e with Some e => Some e | None => k end.

Definition negative (p : option f64) : bool := match p with Some v => fltb v f0 | None => false end.
Definition not_positive (m : option f64) : bool := match m with Some v => fleb v f0 | None => false end.

Definition validateIntervalPrices (iv : PricingInterval) : option ConfigError :=
  if existsb negative [iv_InputPrice iv; iv_OutputPrice iv; iv_CacheWritePrice iv; iv_CacheWrite1hPrice iv;
                       iv_CacheReadPrice iv; iv_PerRequestPrice iv] then Some ErrNegativePrice
  else if existsb not_positive [iv_InputMultiplier iv; iv_OutputMultiplier iv; iv_CacheWriteMultiplier iv;
                                iv_CacheReadMultiplier iv] then Some ErrMultiplier
  else None.

Definition validateSingleInterval (iv : PricingInterval) : option ConfigError :=
  if iv_MinTokens iv <? 0 then Some ErrMinTokens
  else match iv_MaxTokens iv with
       | Some m => if (m <=? 0) || (m <=? iv_MinTokens iv) then Some ErrMaxTokens else validateIntervalPrices iv
       | None => validateIntervalPrices iv
       end.

(** [prev] is the interval before the rest. *)
Fixpoint validateIntervalOverlap_from (prev : option PricingInterval) (sorted : list PricingInterval) : option ConfigError :=
  match sorted with
  | [] => None
  | iv :: rest =>
      match iv_MaxTokens iv, rest with
      | None, _ :: _ => Some ErrUnboundedNotLast
      | _, _ =>
          match prev with
          | None => validateIntervalOverlap_from (Some iv) rest
          | Some p =>
              match iv_MaxTokens p with
              | None => Some ErrOverlap
              | Some m => if iv_MinTokens iv <? m then Some ErrOverlap else validateIntervalOverlap_from (Some iv) rest
              end
          end
      end
  end.
Definition validateIntervalOverlap := validateIntervalOverlap_from None.

Definition by_min (a b : PricingInterval) : Prop := iv_MinTokens a <= iv_MinTokens b.
#[global] Instance by_min_dec a b : Decision (by_min a b).
Proof. unfold by_min. apply _. Defined.
#[global] Instance by_min_total : Total by_min.
Proof. intros a b. unfold by_min. lia. Qed.

Definition per_unit_mode (mode : string) : bool :=
  (mode ==? BillingModePerRequest) || (mode ==? BillingModeImage) || (mode ==? BillingModeVideo).

(** [sort.Slice] may order intervals of equal lower bound either way; in token
    mode both orders are refused. *)
Definition ValidateIntervals (ivs : list PricingInterval) (mode : string) : option ConfigError :=
  let sorted := merge_sort by_min ivs in
  and_then (first_error validateSingleInterval sorted)
    (if per_unit_mode mode then None else validateIntervalOverlap sorted).

Definition GetTierByLabel (p : ChannelModelPricing) (label : string) : option PricingInterval :=
  snd <$> list_find (fun iv => ToLower (iv_TierLabel iv) = ToLower label) (cp_Intervals p).

(** Whether an interval has a price or a multiplier. *)
Definition interval_priced (iv : PricingInterval) : bool :=
  existsb (fun p => match p with Some _ => true | None => false end)
    [iv_InputPrice iv; iv_OutputPrice iv; iv_CacheWritePrice iv; iv_CacheWrite1hPrice iv; iv_CacheReadPrice iv;
     iv_PerRequestPrice iv; iv_InputMultiplier iv; iv_OutputMultiplier iv; iv_CacheWriteMultiplier iv; iv_CacheReadMultiplier iv].

Definition filterValidIntervals (ivs : list PricingInterval) : list PricingInterval :=
  base.filter (fun iv => interval_priced iv = true) ivs.

(** ** Multipliers by time of day *)

Section TimePricing.
Variable tzdb : string -> option Location.

Definition loadChannelTimePricingLocation (name : string) : option Location :=
  if TrimSpace name ==? "" then None
  else if name ==? "Local" then None
  else LoadLocation tzdb name.

(** Two digits within a bound. *)
Definition two_digits (bound : Z) (s : string) : option (Z * string) :=
  match s with
  | String a (String b t) =>
      match digit_val a, digit_val b with
      | Some x, Some y => if 10 * x + y <? bound then Some (10 * x + y, t) else None
      | _, _ => None
      end
  | _ => None
  end.

(** HH:mm for a text of five bytes, HH:mm:ss for the others; every field has
    two digits, because the parsed time must print as the text. *)
Definition parseChannelTime (value : string) (is_end : bool) : option Z :=
  if is_end && ((value ==? "00:00") || (value ==? "00:00:00")) then Some (24 * 60 * 60)
  else
    match two_digits 24 value with
    | Some (h, String ":" r) =>
        match two_digits 60 r with
        | Some (m, r) =>
            if (Strings.String.length value =? 5)%nat
            then match r with EmptyString => Some (h * 3600 + m * 60) | _ => None end
            else match r with
                 | String ":" r => match two_digits 60 r with
                                   | Some (s, EmptyString) => Some (h * 3600 + m * 60 + s)
                                   | _ => None
                                   end
                 | _ => None
                 end
        | None => None
        end
    | _ => None
    end.

Record parsedChannelTimePeriod := mkParsed { pp_start : Z; pp_end : Z; pp_multiplier : f64 }.

Definition multiplier_ok (m : f64) : bool :=
  if f_is_nan m || f_is_inf m || fleb m f0 then false
  else if fltb m (lit "0.01") then false
  else
    let scaled := fmul m (f64_of_Z 100) in
    if f_is_nan scaled || f_is_inf scaled then false
    else negb (fltb (lit "1e-9") (SpecFloat.SFabs (fsub scaled (fround scaled)))).

Definition parse_period (p : ChannelTimePricingPeriod) : option parsedChannelTimePeriod :=
  if negb (multiplier_ok (Multiplier p)) then None
  else match parseChannelTime (StartTime p) false with
       | None => None
       | Some start =>
           match parseChannelTime (EndTime p) true with
           | None => None
           | Some end_ => if (StartTime p ==? EndTime p) || (end_ <=? start) then None
                          else Some (mkParsed start end_ (Multiplier p))
           end
       end.

Definition by_start (a b : parsedChannelTimePeriod) : Prop := pp_start a <= pp_start b.
#[global] Instance by_start_dec a b : Decision (by_start a b).
Proof. unfold by_start. apply _. Defined.
#[global] Instance by_start_total : Total by_start.
Proof. intros a b. unfold by_start. lia. Qed.

Fixpoint periods_apart (l : list parsedChannelTimePeriod) : bool :=
  match l with
  | p :: (q :: _) as rest => negb (pp_start q <? pp_end p) && periods_apart rest
  | _ => true
  end.

Definition parseChannelTimePeriods (periods : list ChannelTimePricingPeriod) : option (list parsedChannelTimePeriod) :=
  match mapM parse_period periods with
  | None => None
  | Some parsed => let sorted := merge_sort by_start parsed in
                   if periods_apart sorted then Some sorted else None
  end.

(** Whether the configuration is accepted; no periods mean no configuration. *)
Definition validateChannelTimePricing (config : ChannelTimePricing) : bool :=
  match Periods config with
  | [] => true
  | _ => match loadChannelTimePricingLocation (Timezone config), parseChannelTimePeriods (Periods config) with
         | Some _, Some _ => true
         | _, _ => false
         end
  end.

Definition in_period (s : Z) (p : parsedChannelTimePeriod) : bool := (pp_start p <=? s) && (s <? pp_end p).

Definition MultiplierAt (config : option ChannelTimePricing) (at_ : time) : f64 :=
  match config with
  | None => f1
  | Some c =>
      if bool_decide (Periods c = []) || IsZero at_ then f1
      else match loadChannelTimePricingLocation (Timezone c), parseChannelTimePeriods (Periods c) with
           | Some loc, Some periods =>
               let wd := Weekday loc at_ in
               if WeekdaysOnly c && ((wd =? 6) || (wd =? 0)) then f1
               else match list_find (fun p => in_period (local_tod loc at_) p = true) periods with
                    | Some (_, p) => pp_multiplier p
                    | None => f1
                    end
           | _, _ => f1
           end
  end.
End TimePricing.

(** ** Patterns of model names *)

Definition wildcardSuffix := "*".

Definition splitWildcardSuffix (pattern : string) : string * bool :=
  match strip_suffix wildcardSuffix pattern with Some p => (p, true) | None => (pattern, false) end.

Definition normalizeChannelPricingModelName (model : string) : string :=
  let m := ToLower (TrimSpace model) in
  if HasPrefix m "claude-" then ReplaceAll m "." "-" else m.

Record modelEntry := mkEntry { me_prefix : string; me_wildcard : bool }.

#[global] Instance modelEntry_eq_dec : EqDecision modelEntry.
Proof. solve_decision. Defined.

Definition conflictsBetween (a b : modelEntry) : bool :=
  match me_wildcard a, me_wildcard b with
  | false, false => me_prefix a ==? me_prefix b
  | true, false => HasPrefix (me_prefix b) (me_prefix a)
  | false, true => HasPrefix (me_prefix a) (me_prefix b)
  | true, true => HasPrefix (me_prefix a) (me_prefix b) || HasPrefix (me_prefix b) (me_prefix a)
  end.

Definition toPricingModelEntry (pattern : string) : modelEntry :=
  let '(prefix, isWild) := splitWildcardSuffix pattern in
  mkEntry (normalizeChannelPricingModelName prefix) isWild.

Fixpoint detectConflicts (entries : list modelEntry) : bool :=
  match entries with
  | [] => false
  | e :: es => existsb (conflictsBetween e) es || detectConflicts es
  end.

Definition platform_entries (platform : string) (l : list ChannelModelPricing) : list modelEntry :=
  toPricingModelEntry <$> (base.filter (fun p => cp_Platform p = platform) l ≫= cp_Models).

Definition validateNoConflictingModels (l : list ChannelModelPricing) : option ConfigError :=
  if existsb (fun p => detectConflicts (platform_entries (cp_Platform p) l)) l then Some ErrModelConflict else None.

Definition checkBillingModeRequirements (p : ChannelModelPricing) : option ConfigError :=
  if per_unit_mode (cp_BillingMode p) then
    match cp_PerRequestPrice p, cp_Intervals p with None, [] => Some ErrMissingPrice | _, _ => None end
  else None.

Definition checkPricesNotNegative (p : ChannelModelPricing) : option ConfigError :=
  if existsb negative [cp_InputPrice p; cp_OutputPrice p; cp_CacheWritePrice p; cp_CacheWrite1hPrice p; cp_CacheReadPrice p;
                       cp_ImageInputPrice p; cp_ImageOutputPrice p; cp_PerRequestPrice p] then Some ErrNegativePrice
  else if existsb not_positive [cp_FastMultiplier p; cp_FlexMultiplier p] then Some ErrMultiplier
  else None.

Definition checkIntervalsHavePrices (p : ChannelModelPricing) : option ConfigError :=
  if forallb interval_priced (cp_Intervals p) then None else Some ErrIntervalMissingPrice.

Definition validatePricingBillingMode : list ChannelModelPricing -> option ConfigError :=
  first_error (fun p => and_then (checkBillingModeRequirements p)
                          (and_then (checkPricesNotNegative p) (checkIntervalsHavePrices p))).

Definition validatePricingIntervals : list ChannelModelPricing -> option ConfigError :=
  first_error (fun p => ValidateIntervals (cp_Intervals p) (cp_BillingMode p)).

Definition validatePricingTimePricing (tzdb : string -> option Location) : list ChannelModelPricing -> option ConfigError :=
  first_error (fun p =>
    match cp_TimePricing p with
    | None => None
    | Some c =>
        if bool_decide (Periods c = []) then None
        else if (cp_BillingMode p !=? "") && (cp_BillingMode p !=? BillingModeToken) then Some ErrTimePricingMode
        else if validateChannelTimePricing tzdb c then None else Some ErrTimePricing
    end).

Definition validatePricingEntries (tzdb : string -> option Location) (l : list ChannelModelPricing) : option ConfigError :=
  and_then (validateNoConflictingModels l)
    (and_then (validatePricingIntervals l)
       (and_then (validatePricingBillingMode l) (validatePricingTimePricing tzdb l))).

(** ** The cache *)

Definition PlatformComposite := "composite".

Definition isConcreteRequestPlatform (platform : string) : bool :=
  bool_decide (platform ∈ [PlatformAnthropic; PlatformOpenAI; PlatformGemini; PlatformAntigravity; PlatformGrok;
                           PlatformKimi; PlatformZhipu; PlatformDeepseek]).

Definition isPlatformPricingMatch (groupPlatform pricingPlatform : string) : bool :=
  if groupPlatform ==? PlatformComposite then isConcreteRequestPlatform pricingPlatform
  else groupPlatform ==? pricingPlatform.

Definition matchingPlatforms (groupPlatform : string) : list string :=
  if groupPlatform ==? PlatformComposite
  then [PlatformAnthropic; PlatformGemini; PlatformOpenAI; PlatformAntigravity; PlatformGrok; PlatformKimi;
        PlatformZhipu; PlatformDeepseek]
  else [groupPlatform].

Record channelCache := mkChannelCache {
  pricingByGroupModel : gmap (Z * string * string) ChannelModelPricing;
  wildcardByGroupPlatform : gmap (Z * string) (list (string * ChannelModelPricing));
  channelByGroupID : gmap Z Channel;
  groupPlatform : gmap Z string;
}.

Definition newEmptyChannelCache : channelCache := mkChannelCache ∅ ∅ ∅ ∅.

(** One pattern of one pricing entry. *)
Definition expand_model (gid : Z) (pricing : ChannelModelPricing) (cache : channelCache) (model : string) : channelCache :=
  let pf := cp_Platform pricing in
  match strip_suffix "*" model with
  | Some prefix =>
      mkChannelCache (pricingByGroupModel cache)
        (<[(gid, pf) := default [] (wildcardByGroupPlatform cache !! (gid, pf)) ++
                          [(normalizeChannelPricingModelName prefix, pricing)]]> (wildcardByGroupPlatform cache))
        (channelByGroupID cache) (groupPlatform cache)
  | None =>
      mkChannelCache (<[(gid, pf, normalizeChannelPricingModelName model) := pricing]> (pricingByGroupModel cache))
        (wildcardByGroupPlatform cache) (channelByGroupID cache) (groupPlatform cache)
  end.

Definition expandPricingToCache (ch : Channel) (gid : Z) (platform : string) (cache : channelCache) : channelCache :=
  foldl (fun cache pricing =>
           if isPlatformPricingMatch platform (cp_Platform pricing)
           then foldl (expand_model gid pricing) cache (cp_Models pricing) else cache)
    cache (ch_ModelPricing ch).

Definition populate_group (groupPlatforms : gmap Z string) (ch : Channel) (cache : channelCache) (gid : Z) : channelCache :=
  expandPricingToCache ch gid (default "" (groupPlatforms !! gid))
    (mkChannelCache (pricingByGroupModel cache) (wildcardByGroupPlatform cache)
       (<[gid := ch]> (channelByGroupID cache)) (groupPlatform cache)).

Definition populateChannelCache (channels : list Channel) (groupPlatforms : gmap Z string) : channelCache :=
  foldl (fun cache ch => foldl (populate_group groupPlatforms ch) cache (ch_GroupIDs ch))
    (mkChannelCache ∅ ∅ ∅ groupPlatforms) channels.

Definition matchWildcard (cache : channelCache) (gid : Z) (platform modelLower : string) : option ChannelModelPricing :=
  (fun x => x.2.2) <$> list_find (fun w => HasPrefix modelLower w.1 = true)
                         (default [] (wildcardByGroupPlatform cache !! (gid, platform))).

Definition lookupPricingAcrossPlatforms (cache : channelCache) (gid : Z) (groupPlatform modelLower : string)
    : option ChannelModelPricing :=
  let m := normalizeChannelPricingModelName modelLower in
  match head (omap (fun p => pricingByGroupModel cache !! (gid, p, m)) (matchingPlatforms groupPlatform)) with
  | Some pricing => Some pricing
  | None => head (omap (fun p => matchWildcard cache gid p m) (matchingPlatforms groupPlatform))
  end.

(** What the request's context says of the platform. *)
Record platform_ctx := mkPlatformCtx { ForcePlatform : string; ResolvedTargetPlatform : string }.

Definition channelLookupPlatform (c : platform_ctx) (groupPlatform : string) : string :=
  if TrimSpace (ForcePlatform c) !=? "" then TrimSpace (ForcePlatform c)
  else if (groupPlatform ==? PlatformComposite) && (TrimSpace (ResolvedTargetPlatform c) !=? "")
       then TrimSpace (ResolvedTargetPlatform c) else groupPlatform.

Definition IsActive (ch : Channel) : bool := ch_Status ch ==? StatusActive.

(** The channel of the group and the platform to look in. *)
Definition lookupGroupChannel (cache : channelCache) (c : platform_ctx) (gid : Z) : option (Channel * string) :=
  match channelByGroupID cache !! gid with
  | Some ch => if IsActive ch then Some (ch, channelLookupPlatform c (default "" (groupPlatform cache !! gid))) else None
  | None => None
  end.

(** [None] for the cache when it could not be loaded. *)
Definition GetChannelModelPricing (cache : option channelCache) (c : platform_ctx) (gid : Z) (model : string)
    : option ChannelModelPricing :=
  cache ≫= fun cache =>
  lookupGroupChannel cache c gid ≫= fun '(_, platform) =>
  lookupPricingAcrossPlatforms cache gid platform (ToLower model).

Definition checkRestricted (cache : channelCache) (ch : Channel) (platform : string) (gid : Z) (model : string) : bool :=
  if negb (ch_RestrictModels ch) then false
  else match lookupPricingAcrossPlatforms cache gid platform (ToLower model) with Some _ => false | None => true end.

Definition IsModelRestricted (cache : option channelCache) (c : platform_ctx) (gid : Z) (model : string) : bool :=
  match cache ≫= fun cache => pair cache <$> lookupGroupChannel cache c gid with
  | Some (cache, (ch, platform)) => checkRestricted cache ch platform gid model
  | None => false
  end.
