(* ===== verification/PricingResolver.v ===== *)
(** * Resolving a price and charging a request

    internal/service/model_pricing_resolver.go and the entry points of
    internal/service/billing_service.go: the price that applies to a request
    (group, then channel, then the catalogue), the interval of its context, and
    the cost in each billing mode. *)

From S2P Require Import Prelude GoStrings Float64 Float64Exact GoTime Billing PricingCatalog ChannelPricing.
Local Open Scope Z_scope.
Local Notation "$ s" := (lit s) (at level 0, s constr at level 0, only parsing).

(** ** Overrides *)

Definition channelTierOverridePrice (baseStandard baseTier channelStandard : f64) : f64 :=
  if fltb f0 baseStandard && fltb f0 baseTier then fmul channelStandard (fdiv baseTier baseStandard) else f0.

Definition override_input (v : f64) (p : ModelPricing) : ModelPricing :=
  let priority := channelTierOverridePrice (InputPricePerToken p) (InputPricePerTokenPriority p) v in
  set_InputPricePerTokenPriority priority (set_InputPricePerToken v p).
Definition override_output (v : f64) (p : ModelPricing) : ModelPricing :=
  let priority := channelTierOverridePrice (OutputPricePerToken p) (OutputPricePerTokenPriority p) v in
  set_OutputPricePerTokenPriority priority (set_OutputPricePerToken v p).
Definition override_cacheRead (v : f64) (p : ModelPricing) : ModelPricing :=
  let priority := channelTierOverridePrice (CacheReadPricePerToken p) (CacheReadPricePerTokenPriority p) v in
  set_CacheReadPricePerTokenPriority priority (set_CacheReadPricePerToken v p).
(** A cache-write price also sets the price of the 5-minute tier, and that of
    the 1-hour tier unless it has a price of its own. *)
Definition override_cacheWrite (v : f64) (write1h : option f64) (p : ModelPricing) : ModelPricing :=
  let priority := channelTierOverridePrice (CacheCreationPricePerToken p) (CacheCreationPricePerTokenPriority p) v in
  let p := set_CacheCreation5mPrice v (set_CacheCreationPriceExplicit true
             (set_CacheCreationPricePerTokenPriority priority (set_CacheCreationPricePerToken v p))) in
  match write1h with None => set_CacheCreation1hPrice v p | Some _ => p end.
Definition override_cacheWrite1h (v : f64) (p : ModelPricing) : ModelPricing :=
  set_SupportsCacheBreakdown true (set_CacheCreation1hPrice v p).

Definition optionally {A} (f : A -> ModelPricing -> ModelPricing) (v : option A) (p : ModelPricing) : ModelPricing :=
  match v with Some v => f v p | None => p end.

Definition applyChannelTokenPriceOverrides (p : ModelPricing) (c : ChannelModelPricing) : ModelPricing :=
  let p := optionally override_input (cp_InputPrice c) p in
  let p := optionally override_output (cp_OutputPrice c) p in
  let p := optionally (fun v => override_cacheWrite v (cp_CacheWrite1hPrice c)) (cp_CacheWritePrice c) p in
  let p := optionally override_cacheWrite1h (cp_CacheWrite1hPrice c) p in
  optionally override_cacheRead (cp_CacheReadPrice c) p.

Definition applyChannelImageInputPrice (c : option ChannelModelPricing) (p : ModelPricing) : ModelPricing :=
  set_ImageInputPricePerToken (default f0 (c ≫= cp_ImageInputPrice)) p.

(** What a channel entry does to a card beyond its token prices. *)
Definition channel_extras (c : ChannelModelPricing) (p : ModelPricing) : ModelPricing :=
  let p := set_FlexMultiplier (cp_FlexMultiplier c) (set_FastMultiplier (cp_FastMultiplier c) p) in
  let p := match cp_MaxReasoningEffortMultiplier c with
           | Some m => set_MaxReasoningEffortMultiplier (Some m) p | None => p end in
  let p := set_ImageOutputPriceExplicit true (set_ImageOutputPricePerToken (default f0 (cp_ImageOutputPrice c)) p) in
  applyChannelImageInputPrice (Some c) p.

Definition GetModelPricingWithChannel (catalog : option (gmap string LiteLLMModelPricing *
    (string -> list (string * LiteLLMModelPricing)))) (model : string) (c : option ChannelModelPricing) : option ModelPricing :=
  match GetModelPricing catalog model, c with
  | Some p, Some c => Some (channel_extras c (applyChannelTokenPriceOverrides p c))
  | r, _ => r
  end.

(** ** Resolution *)

Definition PricingSourceGroup := "group".
Definition PricingSourceChannel := "channel".
Definition PricingSourceLiteLLM := "litellm".
Definition PricingSourceFallback := "fallback".

Record ResolvedPricing := mkResolved {
  rp_Mode : string;
  rp_BasePricing : option ModelPricing;
  rp_Intervals : list PricingInterval;
  rp_RequestTiers : list PricingInterval;
  rp_DefaultPerRequestPrice : f64;
  rp_Source : string;
  rp_SupportsCacheBreakdown : bool;
  rp_channelPricing : option ChannelModelPricing;
  rp_longContextPricingEnabled : bool;
}.

(** The part of a group the resolver reads. *)
Record PricedGroup := mkPricedGroup {
  pg_LongContextPricingEnabled : bool; pg_ModelPricing : list ChannelModelPricing; }.

Definition strip_intervals (c : ChannelModelPricing) : ChannelModelPricing :=
  mkChannelPricing (cp_Platform c) (cp_Models c) (cp_BillingMode c) (cp_InputPrice c) (cp_OutputPrice c)
    (cp_CacheWritePrice c) (cp_CacheWrite1hPrice c) (cp_CacheReadPrice c) (cp_FastMultiplier c) (cp_FlexMultiplier c)
    (cp_MaxReasoningEffortMultiplier c) (cp_ImageInputPrice c) (cp_ImageOutputPrice c) (cp_PerRequestPrice c) []
    (cp_TimePricing c).

Definition mode_or_token (m : string) : string := if m ==? "" then BillingModeToken else m.

Definition group_pattern (model pattern : string) : bool :=
  match strip_suffix "*" pattern with Some prefix => HasPrefix model prefix | None => false end.

(** The two loops: an exact name returns at once, the first wildcard is kept. *)
Fixpoint match_entries (model : string) (wildcard : option ChannelModelPricing)
    (l : list (ChannelModelPricing * string)) : option ChannelModelPricing :=
  match l with
  | [] => wildcard
  | (entry, pattern) :: l =>
      let n := normalizeChannelPricingModelName pattern in
      if n ==? model then Some entry
      else match_entries model
             (match wildcard with
              | None => if group_pattern model n then Some entry else None
              | Some w => Some w
              end) l
  end.

Definition matchGroupModelPricing (g : option PricedGroup) (model : string) : option ChannelModelPricing :=
  g ≫= fun g =>
  match_entries (normalizeChannelPricingModelName model) None
    (pg_ModelPricing g ≫= fun e => pair e <$> cp_Models e).

Section Resolver.
Variable catalog : option (gmap string LiteLLMModelPricing * (string -> list (string * LiteLLMModelPricing))).
(** The channel service: absent, or its lookup for a group and a model. *)
Variable channels : option (Z -> string -> option ChannelModelPricing).

Definition resolveBasePricing (model : string) : option ModelPricing * string :=
  match GetModelPricing catalog model with
  | Some p => (Some p, PricingSourceLiteLLM)
  | None => (None, PricingSourceFallback)
  end.

Definition lookupChannelPricingNormalized (gid : Z) (model : string) : option ChannelModelPricing :=
  channels ≫= fun lookup =>
  match lookup gid model with
  | Some c => Some c
  | None => match normalizeKnownOpenAICodexModel model with
            | None => None
            | Some n => if (n ==? "") || EqualFold n (TrimSpace model) then None else lookup gid n
            end
  end.

Definition applyTokenOverrides (c : ChannelModelPricing) (r : ResolvedPricing) : ResolvedPricing :=
  let p := applyChannelTokenPriceOverrides (default no_pricing (rp_BasePricing r)) c in
  let has1h := existsb (fun o : option f64 => match o with Some _ => true | None => false end)
                 (cp_CacheWrite1hPrice c :: (iv_CacheWrite1hPrice <$> cp_Intervals c)) in
  let p := if has1h then set_SupportsCacheBreakdown true p else p in
  mkResolved (rp_Mode r) (Some (channel_extras c p)) (filterValidIntervals (cp_Intervals c)) (rp_RequestTiers r)
    (rp_DefaultPerRequestPrice r) (rp_Source r) (rp_SupportsCacheBreakdown r || has1h) (rp_channelPricing r)
    (rp_longContextPricingEnabled r).

Definition applyRequestTierOverrides (c : ChannelModelPricing) (r : ResolvedPricing) : ResolvedPricing :=
  mkResolved (rp_Mode r) (rp_BasePricing r) (rp_Intervals r) (filterValidIntervals (cp_Intervals c))
    (default (rp_DefaultPerRequestPrice r) (cp_PerRequestPrice c)) (rp_Source r) (rp_SupportsCacheBreakdown r)
    (rp_channelPricing r) (rp_longContextPricingEnabled r).

Definition supports (p : option ModelPricing) : bool := match p with Some p => SupportsCacheBreakdown p | None => false end.

Definition resolveConfiguredPricing (c : ChannelModelPricing) (model source : string) (long : bool) : ResolvedPricing :=
  let mode := mode_or_token (cp_BillingMode c) in
  if per_unit_mode mode
  then applyRequestTierOverrides c (mkResolved mode None [] [] f0 source false (Some c) long)
  else
    let '(base, _) := resolveBasePricing model in
    applyTokenOverrides c (mkResolved mode base [] [] f0 source (supports base) (Some c) long).

(** The code looks the channel up a second time when it found nothing; the
    answer is the same from the same cache. *)
Definition Resolve (model : string) (groupID : option Z) (group : option PricedGroup) : ResolvedPricing :=
  let long := match group with Some g => pg_LongContextPricingEnabled g | None => true end in
  match matchGroupModelPricing group model with
  | Some gp =>
      let gp := if (cp_BillingMode gp ==? "") || (cp_BillingMode gp ==? BillingModeToken) then strip_intervals gp else gp in
      resolveConfiguredPricing gp model PricingSourceGroup long
  | None =>
      let chPricing := groupID ≫= fun gid => lookupChannelPricingNormalized gid model in
      match chPricing with
      | Some c =>
          let mode := mode_or_token (cp_BillingMode c) in
          if per_unit_mode mode
          then applyRequestTierOverrides c (mkResolved mode None [] [] f0 PricingSourceChannel false (Some c) long)
          else
            let '(base, _) := resolveBasePricing model in
            applyTokenOverrides c (mkResolved BillingModeToken base [] [] f0 PricingSourceChannel (supports base) (Some c) long)
      | None =>
          let '(base, source) := resolveBasePricing model in
          mkResolved BillingModeToken base [] [] f0 source (supports base) None long
      end
  end.

(** ** The card of an interval *)

Definition scale (m : f64) (get : ModelPricing -> f64) (set : f64 -> ModelPricing -> ModelPricing) (p : ModelPricing) :=
  set (fmul (get p) m) p.

Definition override_or_scale (price mult : option f64) (ov sc : f64 -> ModelPricing -> ModelPricing) (p : ModelPricing) :=
  match price with
  | Some v => ov v p
  | None => optionally sc mult p
  end.

Definition scale_input (m : f64) (p : ModelPricing) : ModelPricing :=
  scale m InputPricePerTokenPriority set_InputPricePerTokenPriority (scale m InputPricePerToken set_InputPricePerToken p).
Definition scale_output (m : f64) (p : ModelPricing) : ModelPricing :=
  scale m OutputPricePerTokenPriority set_OutputPricePerTokenPriority (scale m OutputPricePerToken set_OutputPricePerToken p).
Definition scale_cacheRead (m : f64) (p : ModelPricing) : ModelPricing :=
  scale m CacheReadPricePerTokenPriority set_CacheReadPricePerTokenPriority
    (scale m CacheReadPricePerToken set_CacheReadPricePerToken p).
Definition scale_cacheWrite (m : f64) (p : ModelPricing) : ModelPricing :=
  scale m CacheCreation1hPrice set_CacheCreation1hPrice
    (scale m CacheCreation5mPrice set_CacheCreation5mPrice
       (scale m CacheCreationPricePerTokenPriority set_CacheCreationPricePerTokenPriority
          (scale m CacheCreationPricePerToken set_CacheCreationPricePerToken p))).

Definition intervalToModelPricing (iv : PricingInterval) (base : option ModelPricing) (c : option ChannelModelPricing)
    : ModelPricing :=
  let p := default no_pricing base in
  let p := override_or_scale (iv_InputPrice iv) (iv_InputMultiplier iv) override_input scale_input p in
  let p := override_or_scale (iv_OutputPrice iv) (iv_OutputMultiplier iv) override_output scale_output p in
  let p := override_or_scale (iv_CacheWritePrice iv) (iv_CacheWriteMultiplier iv)
             (fun v => override_cacheWrite v (iv_CacheWrite1hPrice iv)) scale_cacheWrite p in
  let p := optionally override_cacheWrite1h (iv_CacheWrite1hPrice iv) p in
  let p := override_or_scale (iv_CacheReadPrice iv) (iv_CacheReadMultiplier iv) override_cacheRead scale_cacheRead p in
  match c with
  | None => p
  | Some c =>
      let p := set_ImageOutputPriceExplicit true p in
      let p := match cp_ImageOutputPrice c with Some v => set_ImageOutputPricePerToken v p | None => p end in
      applyChannelImageInputPrice (Some c) p
  end.

Definition GetIntervalPricing (r : ResolvedPricing) (totalContextTokens : Z) : option ModelPricing :=
  match FindMatchingInterval (rp_Intervals r) totalContextTokens with
  | None => rp_BasePricing r
  | Some iv => Some (set_SupportsCacheBreakdown (rp_SupportsCacheBreakdown r)
                       (intervalToModelPricing iv (rp_BasePricing r) (rp_channelPricing r)))
  end.

Definition GetRequestTierPrice (r : ResolvedPricing) (tierLabel : string) : f64 :=
  default f0 (head (omap (fun iv => if iv_TierLabel iv ==? tierLabel then iv_PerRequestPrice iv else None) (rp_RequestTiers r))).

Definition GetRequestTierPriceByContext (r : ResolvedPricing) (totalContextTokens : Z) : f64 :=
  default f0 (FindMatchingInterval (rp_RequestTiers r) totalContextTokens ≫= iv_PerRequestPrice).

(** ** Charging *)

Record CostInput := mkInput {
  ci_Model : string;
  ci_GroupID : option Z;
  ci_Group : option PricedGroup;
  ci_Tokens : UsageTokens;
  ci_RequestCount : Z;
  ci_UsageUnits : f64;
  ci_SizeTier : string;
  ci_RateMultiplier : f64;
  ci_PricingAt : time;
  ci_ServiceTier : string;
  ci_ReasoningEffort : string;
  ci_LongContextBillingEnabled : option bool;
}.

(** The hour of the UTC clock and the weekday in UTC+8. *)
Definition deepseekPeakMultiplierAt (now : time) : f64 :=
  let wd := Weekday (FixedZone (8 * 3600)) now in
  if (wd =? 6) || (wd =? 0) then f1
  else
    let h := local_tod UTC now / 3600 in
    if ((1 <=? h) && (h <? 4)) || ((6 <=? h) && (h <? 10)) then f2 else f1.

Variable tzdb : string -> option Location.
(** [timezone.Now()], for an input without an instant. *)
Variable now : time.

Definition resolvedChannelTimeMultiplier (r : ResolvedPricing) (at_ : time) : f64 :=
  if rp_Source r !=? PricingSourceChannel then f1
  else match rp_channelPricing r with
       | None => f1
       | Some c => MultiplierAt tzdb (cp_TimePricing c) at_
       end.

Definition context_tiers_enabled (r : ResolvedPricing) (i : CostInput) : bool :=
  rp_longContextPricingEnabled r || bool_decide (ci_LongContextBillingEnabled i = Some true).

(** The card the tokens are charged with. *)
Definition token_card (r : ResolvedPricing) (i : CostInput) : option ModelPricing :=
  let ctx := if context_tiers_enabled r i then total_context (ci_Tokens i) else 1 in
  match GetIntervalPricing r ctx with
  | None => None
  | Some p =>
      let p := applyModelSpecificPricingPolicyEx (ci_Model i) p (rp_Source r ==? PricingSourceLiteLLM) in
      Some (if (rp_Source r ==? PricingSourceLiteLLM) && isDeepSeekModel (ci_Model i) then
              let at_ := if IsZero (ci_PricingAt i) then now else ci_PricingAt i in
              let mult := deepseekPeakMultiplierAt at_ in
              if fltb f1 mult then
                set_CacheReadPricePerToken (fmul (CacheReadPricePerToken p) mult)
                  (set_OutputPricePerToken (fmul (OutputPricePerToken p) mult)
                     (set_InputPricePerToken (fmul (InputPricePerToken p) mult) p))
              else p
            else p)
  end.

Definition calculateTokenCost (r : ResolvedPricing) (i : CostInput) : option CostBreakdown :=
  match token_card r i with
  | None => None
  | Some p =>
      let applyLongCtx := bool_decide (rp_Intervals r = []) && context_tiers_enabled r i in
      let b := computeTokenBreakdown p (ci_Tokens i) (ci_RateMultiplier i) (ci_ServiceTier i) applyLongCtx in
      let b := applyCostBreakdownMultiplier b (resolvedChannelTimeMultiplier r (ci_PricingAt i)) in
      Some (applyCostBreakdownMultiplier b (maxReasoningEffortBillingMultiplier (ci_Model i) (ci_ReasoningEffort i) (Some p)))
  end.

Definition per_request_unit (r : ResolvedPricing) (i : CostInput) : f64 :=
  let unitPrice := if ci_SizeTier i !=? "" then GetRequestTierPrice r (ci_SizeTier i) else f0 in
  let unitPrice := if feqb unitPrice f0 then GetRequestTierPriceByContext r (total_context (ci_Tokens i)) else unitPrice in
  if feqb unitPrice f0 then rp_DefaultPerRequestPrice r else unitPrice.

Definition calculatePerRequestCost (r : ResolvedPricing) (i : CostInput) : CostBreakdown :=
  let units := if fleb (ci_UsageUnits i) f0
               then f64_of_Z (if ci_RequestCount i <=? 0 then 1 else ci_RequestCount i) else ci_UsageUnits i in
  let total := fmul (per_request_unit r i) units in
  mkCost f0 f0 f0 f0 f0 f0 total (fmul total (ci_RateMultiplier i)) "" false.

Definition with_rate (rate : f64) (i : CostInput) : CostInput :=
  mkInput (ci_Model i) (ci_GroupID i) (ci_Group i) (ci_Tokens i) (ci_RequestCount i) (ci_UsageUnits i) (ci_SizeTier i) rate
    (ci_PricingAt i) (ci_ServiceTier i) (ci_ReasoningEffort i) (ci_LongContextBillingEnabled i).

(** [calculateCostInternalWithPolicy]; [None] is the error of an unpriced
    model. *)
Definition calculateCostInternalWithPolicy (model : string) (t : UsageTokens) (rate : f64) (tier : string)
    (c : option ChannelModelPricing) (longContextBillingEnabled : bool) : option CostBreakdown :=
  (fun p => computeTokenBreakdown p t rate tier longContextBillingEnabled) <$> GetModelPricingWithChannel catalog model c.

Definition CalculateCost (model : string) (t : UsageTokens) (rate : f64) : option CostBreakdown :=
  calculateCostInternalWithPolicy model t rate "" None true.

(** With a resolver ([resolver] true), on a result resolved before if there is
    one; without, the old path. *)
Definition CalculateCostUnified (resolver : bool) (resolved : option ResolvedPricing) (i : CostInput) : option CostBreakdown :=
  if negb resolver then
    (fun b => applyCostBreakdownMultiplier b (maxReasoningEffortBillingMultiplier (ci_Model i) (ci_ReasoningEffort i) None))
      <$> calculateCostInternalWithPolicy (ci_Model i) (ci_Tokens i) (ci_RateMultiplier i) (ci_ServiceTier i) None
            (default true (ci_LongContextBillingEnabled i))
  else
    let r := default (Resolve (ci_Model i) (ci_GroupID i) (ci_Group i)) resolved in
    let i := with_rate (clamp_rate (ci_RateMultiplier i)) i in
    let b := if per_unit_mode (rp_Mode r) then Some (calculatePerRequestCost r i) else calculateTokenCost r i in
    with_mode (mode_or_token (rp_Mode r)) <$> b.

End Resolver.
