(* ===== verification/BillingProperties.v ===== *)
(** * What billing promises

    The cost of tokens is never negative; contradictory cache counts are cut to
    the aggregate; every fallback card exists and is priced; images and videos
    are charged in bounded units. *)

From S2P Require Import Prelude GoStrings Float64 Float64Exact GoTime ModelMapping Billing PricingCatalog ChannelPricing PricingResolver.
Local Open Scope Z_scope.

(** ** Token counts *)

Definition count_ok (n : Z) : Prop := 0 <= n < 2 ^ 53.

Record tokens_ok (t : UsageTokens) : Prop := {
  ok_input : count_ok (InputTokens t);
  ok_imageInput : count_ok (ImageInputTokens t);
  ok_output : count_ok (OutputTokens t);
  ok_imageOutput : count_ok (ImageOutputTokens t);
  ok_creation : count_ok (CacheCreationTokens t);
  ok_read : count_ok (CacheReadTokens t);
  ok_5m : count_ok (CacheCreation5mTokens t);
  ok_1h : count_ok (CacheCreation1hTokens t);
}.

Lemma wrap_small n : - 2 ^ 53 < n < 2 ^ 53 -> wrap64 n = n.
Proof. intros H. apply wrap64_id. unfold int64_min, int64_max. lia. Qed.

Lemma trunc_small x k : f64_trunc x = Some k -> 0 <= k < 2 ^ 53 -> f64_to_int64 x = k.
Proof.
  intros E Hk. unfold f64_to_int64. rewrite E. replace (in_int64 k) with true; [done|].
  symmetry. unfold in_int64, int64_min, int64_max. apply andb_true_intro. split; apply Z.leb_le; lia.
Qed.

Lemma fleb_false_fltb x a : 0 < a < 2 ^ 53 -> fleb (f64_of_Z a) x = false -> f_is_nan x = false -> fltb x (f64_of_Z a) = true.
Proof.
  intros Ha E Hn. rewrite fltb_negb_fleb, E; [done|exact Hn|]. by rewrite of_Z_exact by done.
Qed.

(** The 5-minute share of a contradictory breakdown. *)
Lemma normalized_share agg c5 c1 : 0 < agg < 2 ^ 53 -> count_ok c5 -> count_ok c1 -> 0 < c5 + c1 ->
  let x := fround (fdiv (fmul (f64_of_Z agg) (f64_of_Z c5)) (fadd (f64_of_Z c5) (f64_of_Z c1))) in
  0 <= (if fleb (f64_of_Z agg) x then agg else f64_to_int64 x) <= agg.
Proof.
  intros Ha H5 H1 Hs. cbv zeta. set (y := fdiv _ _). pose proof (fadd_counts c5 c1 H5 H1 Hs) as Hd.
  destruct (fleb (f64_of_Z agg) (fround y)) eqn:E; [lia|].
  assert (f_is_nan (fround y) = false) as Hn by (apply fround_not_nan, fdiv_not_nan; [by apply fmul_counts|done]).
  apply fleb_false_fltb in E; [|done..].
  destruct (fround_below y agg) as (k & Ek & Hk); [apply fdiv_short| |done|exact E|].
  { apply fdiv_nonneg; [apply fmul_nonneg; apply f64_of_Z_nonneg; unfold count_ok in *; lia|by apply finite_pos_nonneg|].
    intros F. by rewrite F in Hd. }
  rewrite (trunc_small _ _ Ek) by lia. lia.
Qed.

Definition agrees (t : UsageTokens) : Prop :=
  CacheCreationTokens t <= 0 \/ CacheCreation5mTokens t + CacheCreation1hTokens t <= CacheCreationTokens t.

(** The counts that are charged: those reported, or scaled to the aggregate. *)
Lemma cache_breakdown_cases t : tokens_ok t ->
  (agrees t /\ normalizeCacheCreationBreakdown t = (CacheCreation5mTokens t, CacheCreation1hTokens t)) \/
  (~ agrees t /\ exists c5m, 0 <= c5m <= CacheCreationTokens t /\
     normalizeCacheCreationBreakdown t = (c5m, CacheCreationTokens t - c5m)).
Proof.
  intros H. destruct (ok_5m t H) as [H5 H5'], (ok_1h t H) as [H1 H1'], (ok_creation t H) as [Hc Hc'].
  unfold normalizeCacheCreationBreakdown. cbv zeta.
  rewrite (proj2 (Z.ltb_ge _ _) H5), (proj2 (Z.ltb_ge _ _) H1). unfold agrees.
  rewrite (wrap_small (CacheCreationTokens t - CacheCreation5mTokens t)) by lia.
  destruct (Z.leb_spec (CacheCreationTokens t) 0); cbn [orb]; [left; split; [lia|done]|].
  destruct (Z.leb_spec (CacheCreation5mTokens t) (CacheCreationTokens t)); cbn [andb].
  1: destruct (Z.leb_spec (CacheCreation1hTokens t) (CacheCreationTokens t - CacheCreation5mTokens t)); [left; split; [lia|done]|].
  all: right; split; [lia|];
    pose proof (normalized_share (CacheCreationTokens t) (CacheCreation5mTokens t) (CacheCreation1hTokens t)
      ltac:(lia) (conj H5 H5') (conj H1 H1') ltac:(lia)) as Hn; cbv zeta in Hn;
    eexists; (split; [exact Hn|]); rewrite wrap_small by lia; reflexivity.
Qed.

Lemma cache_breakdown_nonneg t : tokens_ok t ->
  0 <= (normalizeCacheCreationBreakdown t).1 /\ 0 <= (normalizeCacheCreationBreakdown t).2.
Proof.
  intros H. destruct (ok_5m t H) as [H5 _], (ok_1h t H) as [H1 _].
  destruct (cache_breakdown_cases t H) as [[_ ->] | (_ & c & Hc & ->)]; cbn; lia.
Qed.

(** The two cache-creation counts that are charged are never negative.  When
    they agree with the aggregate, or there is none, they are the reported
    ones; when they exceed it they are scaled down to add up to it. *)
Theorem cache_breakdown t : tokens_ok t ->
  let '(c5m, c1h) := normalizeCacheCreationBreakdown t in
  0 <= c5m /\ 0 <= c1h /\
  (agrees t -> c5m = CacheCreation5mTokens t /\ c1h = CacheCreation1hTokens t) /\
  (~ agrees t -> c5m + c1h = CacheCreationTokens t).
Proof.
  intros H. pose proof (cache_breakdown_nonneg t H) as Hn.
  destruct (cache_breakdown_cases t H) as [[Ha E] | (Ha & c & Hc & E)]; rewrite E in *; cbn in Hn; repeat split; lia || tauto.
Qed.

Definition fx_tokens : UsageTokens := mkTokens 1000 10 500 100 40 200 100 0.

Lemma fx_tokens_ok : tokens_ok fx_tokens.
Proof. constructor; by (vm_compute; split). Qed.

(** 200 and 100 reported against 100 created are charged as 67 and 33. *)
Lemma cache_breakdown_witness :
  normalizeCacheCreationBreakdown fx_tokens = (67, 33) /\
  (let '(c5m, c1h) := normalizeCacheCreationBreakdown fx_tokens in c5m + c1h = 100).
Proof.
  split; [by vm_compute|]. pose proof (cache_breakdown fx_tokens fx_tokens_ok) as H.
  destruct (normalizeCacheCreationBreakdown fx_tokens). destruct H as (_ & _ & _ & H). apply H.
  unfold agrees. cbn. lia.
Defined.

(** ** Charges are never negative *)

(** Every price of the card, and its configured multipliers, are not negative;
    the validation of channel prices and the catalogue see to that. *)
Record card_nonneg (p : ModelPricing) : Prop := {
  cn_input : nonneg (InputPricePerToken p);
  cn_inputP : nonneg (InputPricePerTokenPriority p);
  cn_imageIn : nonneg (ImageInputPricePerToken p);
  cn_output : nonneg (OutputPricePerToken p);
  cn_outputP : nonneg (OutputPricePerTokenPriority p);
  cn_creation : nonneg (CacheCreationPricePerToken p);
  cn_creationP : nonneg (CacheCreationPricePerTokenPriority p);
  cn_read : nonneg (CacheReadPricePerToken p);
  cn_readP : nonneg (CacheReadPricePerTokenPriority p);
  cn_5m : nonneg (CacheCreation5mPrice p);
  cn_1h : nonneg (CacheCreation1hPrice p);
  cn_imageOut : nonneg (ImageOutputPricePerToken p);
  cn_fast : forall m, FastMultiplier p = Some m -> nonneg m;
  cn_flex : forall m, FlexMultiplier p = Some m -> nonneg m;
}.

Record units_nonneg (u : unit_prices) : Prop := {
  un_input : nonneg (u_input u); un_output : nonneg (u_output u); un_read : nonneg (u_cacheRead u);
  un_creation : nonneg (u_cacheCreation u); un_tier : nonneg (u_tier u);
}.

Record cost_nonneg (c : CostBreakdown) : Prop := {
  co_input : nonneg (InputCost c); co_imageIn : nonneg (ImageInputCost c); co_output : nonneg (OutputCost c);
  co_imageOut : nonneg (ImageOutputCost c); co_creation : nonneg (CacheCreationCost c);
  co_read : nonneg (CacheReadCost c); co_total : nonneg (TotalCost c); co_actual : nonneg (ActualCost c);
}.

#[export] Hint Resolve cn_input cn_inputP cn_imageIn cn_output cn_outputP cn_creation cn_creationP cn_read cn_readP
  cn_5m cn_1h cn_imageOut un_input un_output un_read un_creation un_tier : go.

Lemma clamp_rate_nonneg r : nonneg (clamp_rate r).
Proof. unfold clamp_rate. destruct (fltb r f0) eqn:E; [exact I|by apply fltb_nonneg]. Qed.

Lemma priority_or_nonneg a b : nonneg a -> nonneg b -> nonneg (priority_or a b).
Proof. unfold priority_or. by destruct (fltb f0 a). Qed.

Lemma tier_multiplier_nonneg tier : nonneg (serviceTierCostMultiplier tier).
Proof. unfold serviceTierCostMultiplier. cbv zeta. repeat case_match; reflexivity. Qed.

Lemma long_multiplier_nonneg m : nonneg (longContextMultiplierOrOne m).
Proof.
  unfold longContextMultiplierOrOne. destruct (fleb m f0) eqn:E; [reflexivity|].
  destruct m as [[]|[]| |[] m e]; done.
Qed.
#[export] Hint Resolve clamp_rate_nonneg priority_or_nonneg tier_multiplier_nonneg long_multiplier_nonneg : go.

Lemma configured_nonneg tier p : card_nonneg p -> nonneg (configuredServiceTierMultiplier tier p).
Proof.
  intros H. unfold configuredServiceTierMultiplier. cbv zeta.
  destruct (_ || _); [|destruct (_ ==? _)]; [destruct (FastMultiplier p) eqn:E|destruct (FlexMultiplier p) eqn:E|];
    first [by apply (cn_fast p H)|by apply (cn_flex p H)|auto with go].
Qed.
#[export] Hint Resolve configured_nonneg : go.

Lemma tier_prices_nonneg p tier : card_nonneg p -> units_nonneg (tier_prices p tier).
Proof.
  intros H. unfold tier_prices. destruct (usePriorityServiceTierPricing tier p); constructor; cbn; eauto with go.
  reflexivity.
Qed.

Lemma long_prices_nonneg p u : units_nonneg u -> units_nonneg (long_prices p u).
Proof. intros H. constructor; cbn; auto with go. Qed.

Lemma split_input_nonneg t : tokens_ok t -> 0 <= (split_input t).1 /\ 0 <= (split_input t).2.
Proof.
  intros H. destruct (ok_input t H), (ok_imageInput t H). unfold split_input.
  destruct (Z.ltb_spec 0 (ImageInputTokens t)); [|cbn; lia]. rewrite wrap_small by lia.
  destruct (Z.ltb_spec (InputTokens t - ImageInputTokens t) 0); cbn; lia.
Qed.

Lemma cache_creation_nonneg p t price m : tokens_ok t -> card_nonneg p -> nonneg price -> nonneg m ->
  nonneg (computeCacheCreationCost p t price m).
Proof.
  intros Ht Hp H1 H2. unfold computeCacheCreationCost. pose proof (ok_creation t Ht) as [Hc _].
  pose proof (cache_breakdown_nonneg t Ht) as [Ha Hb]. destruct (normalizeCacheCreationBreakdown t) as [a b].
  destruct (_ && _); [destruct (_ && _)|]; auto 8 with go.
Qed.
#[export] Hint Resolve cache_creation_nonneg : go.

Lemma tiered_nonneg m c : nonneg m -> nonneg c -> nonneg (tiered m c).
Proof. unfold tiered. destruct (feqb m f1); auto with go. Qed.
#[export] Hint Resolve tiered_nonneg : go.

Lemma breakdown_nonneg p t rate u m b : tokens_ok t -> card_nonneg p -> units_nonneg u -> nonneg rate -> nonneg m ->
  cost_nonneg (breakdown_with p t rate u m b).
Proof.
  intros Ht Hp Hu Hr Hm. unfold breakdown_with. pose proof (split_input_nonneg t Ht) as [Hi1 Hi2].
  destruct (split_input t) as [text image]. cbn [fst snd] in *. cbv zeta.
  assert (0 <= text_output t) as Ho by (unfold text_output; lia).
  pose proof (ok_imageOutput t Ht) as [Hio _]. pose proof (ok_read t Ht) as [Hrd _].
  set (imageIn := if 0 <? ImageInputTokens t then _ else f0).
  assert (nonneg imageIn) by (unfold imageIn; repeat case_match; first [exact I|auto with go]).
  set (imageOut := if 0 <? ImageOutputTokens t then _ else f0).
  assert (nonneg imageOut) by (unfold imageOut; repeat case_match; first [exact I|auto with go]).
  constructor; cbn [InputCost ImageInputCost OutputCost ImageOutputCost CacheCreationCost CacheReadCost TotalCost ActualCost];
    auto 12 with go.
Qed.

Lemma token_breakdown_nonneg p t rate tier long : card_nonneg p -> tokens_ok t ->
  cost_nonneg (computeTokenBreakdown p t rate tier long).
Proof.
  intros Hp Ht. unfold computeTokenBreakdown. cbv zeta. pose proof (tier_prices_nonneg p tier Hp) as Hu.
  destruct (_ && _); apply breakdown_nonneg; auto using long_prices_nonneg with go. reflexivity.
Qed.

(** ** The fallback cards *)

Definition card_nonnegb (p : ModelPricing) : bool :=
  forallb (fun get => negb (fltb (get p) f0))
    [InputPricePerToken; InputPricePerTokenPriority; ImageInputPricePerToken; OutputPricePerToken; OutputPricePerTokenPriority;
     CacheCreationPricePerToken; CacheCreationPricePerTokenPriority; CacheReadPricePerToken; CacheReadPricePerTokenPriority;
     CacheCreation5mPrice; CacheCreation1hPrice; ImageOutputPricePerToken] &&
  forallb (fun o => match o with Some m => negb (fltb m f0) | None => true end) [FastMultiplier p; FlexMultiplier p].

Lemma card_nonnegb_true p : card_nonnegb p = true -> card_nonneg p.
Proof.
  unfold card_nonnegb. intros [H1 H2]%andb_true_iff. rewrite forallb_forall in H1, H2.
  assert (Hget : forall get, In get _ -> nonneg (get p)) by (intros get Hin; apply fltb_nonneg, negb_true_iff, (H1 _ Hin)).
  constructor; try (intros m Hm; apply fltb_nonneg, negb_true_iff; rewrite Hm in H2; apply (H2 (Some m)); cbn; auto);
    apply Hget; cbn; auto 15.
Qed.

(** The models whose fallback card is free. *)
Definition free_models := ["glm-4.5-flash"; "glm-4.7-flash"].

Definition fallback_card_ok (kv : string * ModelPricing) : bool :=
  card_nonnegb kv.2 &&
  (bool_decide (kv.1 ∈ free_models) || fltb f0 (InputPricePerToken kv.2)) &&
  (bool_decide (kv.1 ∈ "doubao-embedding-vision" :: free_models) || fltb f0 (OutputPricePerToken kv.2)).

Lemma fallback_cards_ok : forallb fallback_card_ok fallback_cards = true.
Proof. vm_compute. reflexivity. Qed.

Lemma fallback_cards_nodup : NoDup fallback_cards.*1.
Proof. apply (bool_decide_unpack _). vm_compute. exact I. Qed.

Lemma first_rule_in rules m k : first_rule rules m = Some k -> k ∈ rules.*2.
Proof.
  induction rules as [|[subs k'] rules IH]; [done|]. cbn. destruct (has m subs).
  - intros [= ->]. constructor.
  - intros H. constructor. auto.
Qed.

Lemma first_some_ind (P : string -> Prop) fs m k : first_some fs m = Some k ->
  Forall (fun f => forall k, f m = Some k -> P k) fs -> P k.
Proof.
  induction fs as [|f fs IH]; [done|]. cbn. intros H HF. apply Forall_cons in HF as [Hf HF].
  destruct (f m) eqn:E; [|by apply IH]. injection H as <-. by apply Hf.
Qed.

Lemma in_keys k : existsb (String.eqb k) fallback_cards.*1 = true -> k ∈ fallback_cards.*1.
Proof.
  intros (x & Hx & E)%existsb_exists. apply String.eqb_eq in E as ->. by apply list_elem_of_In.
Qed.

Lemma rule_in_keys rules m k : first_rule rules m = Some k ->
  forallb (fun r => existsb (String.eqb r.2) fallback_cards.*1) rules = true -> k ∈ fallback_cards.*1.
Proof.
  intros Hk%first_rule_in H. apply in_keys. rewrite forallb_forall in H.
  apply list_elem_of_fmap in Hk as (r & -> & Hr). apply H. by apply list_elem_of_In.
Qed.

Ltac listed := apply in_keys; vm_compute; reflexivity.
(** A key given by a cascade of tests. *)
Ltac key_case := intros ?; repeat case_match; intros [= <-]; listed.

Lemma fallback_key_listed model k : fallback_key model = Some k -> k ∈ fallback_cards.*1.
Proof.
  intros H. apply (first_some_ind (fun k => k ∈ fallback_cards.*1) _ _ _ H). clear H. generalize (ToLower model). intros m. repeat (apply Forall_cons; split); [| | | | | | |by apply Forall_nil]; cbn beta.
  - unfold claude_key. key_case.
  - intros k'. unfold gemini_deepseek_key. destruct (first_rule _ _) eqn:E.
    + intros [= <-]. apply (rule_in_keys _ _ _ E); vm_compute; reflexivity.
    + destruct (HasPrefix _ _); [|done]. intros [= <-]. listed.
  - intros k' E. apply (rule_in_keys _ _ _ E); vm_compute; reflexivity.
  - intros k'. unfold kimi_key. destruct (has _ _); [intros [= <-]; listed|].
    destruct (_ || _); [intros [= <-]; listed|]. intros E. apply (rule_in_keys _ _ _ E); vm_compute; reflexivity.
  - intros k' E. apply (rule_in_keys _ _ _ E); vm_compute; reflexivity.
  - intros k'. unfold openai_key. destruct (normalizeKnownOpenAICodexModel m) as [n|]; [|done].
    destruct (bool_decide_reflect (n ∈ ["gpt-6-astra"; "gpt-5.6-sol"; "gpt-5.6-terra"; "gpt-5.6-luna"; "gpt-5.5-pro"; "gpt-5.5";
      "gpt-5.4-mini"; "gpt-5.4-nano"; "gpt-5.4"; "gpt-5.2"])) as [Hn|Hn].
    + intros [= <-]. repeat (apply elem_of_cons in Hn as [-> |Hn]; [listed|]). by apply not_elem_of_nil in Hn.
    + destruct (bool_decide _); [intros [= <-]; listed|done].
  - unfold grok_key. key_case.
Qed.

Lemma fallback_key_card model k : fallback_key model = Some k ->
  exists p, getFallbackPricing model = Some p /\ fallback_card_ok (k, p) = true.
Proof.
  intros H. pose proof (fallback_key_listed _ _ H) as Hk. unfold getFallbackPricing. rewrite H. cbn [mbind option_bind].
  apply list_elem_of_fmap in Hk as ([k' p] & -> & Hp). cbn [fst].
  exists p. split; [apply elem_of_list_to_map; [apply fallback_cards_nodup|done]|].
  pose proof fallback_cards_ok as Hok. rewrite forallb_forall in Hok. by apply list_elem_of_In, Hok in Hp.
Qed.

Lemma fallback_nonneg model p : getFallbackPricing model = Some p -> card_nonneg p.
Proof.
  intros H. destruct (fallback_key model) as [k|] eqn:E; [|unfold getFallbackPricing in H; by rewrite E in H].
  destruct (fallback_key_card _ _ E) as (q & Eq & Hq). rewrite H in Eq. injection Eq as <-.
  unfold fallback_card_ok in Hq. apply andb_true_iff in Hq as [[Hn _]%andb_true_iff _]. by apply card_nonnegb_true.
Qed.

(** Every model a rule recognises has a fallback card: the key of the rule is a
    key of the table, no price of the card is negative, and only the models
    published as free have a zero price for input, and those and the embedding
    model for output. *)
Theorem fallback_complete model k : fallback_key model = Some k ->
  exists p, getFallbackPricing model = Some p /\ card_nonneg p /\
    (k ∉ free_models -> fltb f0 (InputPricePerToken p) = true) /\
    (k ∉ "doubao-embedding-vision" :: free_models -> fltb f0 (OutputPricePerToken p) = true).
Proof.
  intros H. destruct (fallback_key_card _ _ H) as (p & E & Hok). exists p. split; [done|].
  split; [by eapply fallback_nonneg|]. unfold fallback_card_ok in Hok. cbn [fst snd] in Hok.
  apply andb_true_iff in Hok as [[_ Hi]%andb_true_iff Ho].
  apply orb_true_iff in Hi as [Hi|Hi], Ho as [Ho|Ho];
    (split; intros Hnot; [first [exact Hi|by apply bool_decide_eq_true in Hi]|
      first [exact Ho|by apply bool_decide_eq_true in Ho]]).
Qed.

Lemma fallback_complete_witness :
  fallback_key "anthropic/claude-opus-4-8-20260101" = Some "claude-opus-4.8" /\
  exists p, getFallbackPricing "anthropic/claude-opus-4-8-20260101" = Some p /\ fltb f0 (InputPricePerToken p) = true.
Proof.
  split; [by vm_compute|]. destruct (fallback_complete "anthropic/claude-opus-4-8-20260101" "claude-opus-4.8") as (p & E & _ & H & _);
    [by vm_compute|]. exists p. split; [exact E|]. apply H. apply (bool_decide_unpack _). by vm_compute.
Defined.

(** [grok-4.20] has a card of its own, but its own name selects the card of
    [grok-4.6], which costs more. *)
Example grok_420_key : fallback_key "grok-4.20" = Some "grok-4.6" /\ fallback_key "grok-4.20-reasoning" = Some "grok-4.20".
Proof. vm_compute. split; reflexivity. Qed.

(** ** Sizes and durations *)

Definition image_tiers := [ImageBillingSize1K; ImageBillingSize2K; ImageBillingSize4K].

Lemma classify_tier s t : ClassifyImageBillingTier s = Some t -> t ∈ image_tiers.
Proof.
  unfold ClassifyImageBillingTier. cbv zeta.
  repeat match goal with |- context [if ?b then _ else _] => destruct b end; try done;
    try (intros [= <-]; apply (bool_decide_unpack _); vm_compute; exact I).
  all: destruct (parseImageBillingDimensions _) as [[w h]|]; [|done];
    intros [= <-]; repeat match goal with |- context [if ?b then _ else _] => destruct b end;
    apply (bool_decide_unpack _); vm_compute; exact I.
Qed.

(** The loop over the outputs keeps the largest tier met. *)
Lemma count_tiers outputs acc : acc.2 = "" \/ acc.2 ∈ image_tiers ->
  let r := foldl count_tier acc outputs in
  (r.2 = "" \/ r.2 ∈ image_tiers) /\ imageTierRank acc.2 <= imageTierRank r.2 /\
  (forall o t, o ∈ outputs -> ClassifyImageBillingTier o = Some t -> imageTierRank t <= imageTierRank r.2).
Proof.
  revert acc. induction outputs as [|o outputs IH]; intros acc Ha; cbn [foldl].
  { split; [done|]. split; [lia|]. by intros o t ?%elem_of_nil. }
  assert ((count_tier acc o).2 = "" \/ (count_tier acc o).2 ∈ image_tiers) as Hn.
  { unfold count_tier. destruct (ClassifyImageBillingTier o) eqn:E; [|done]. apply classify_tier in E. cbn. destruct (_ <? _); auto. }
  assert (imageTierRank acc.2 <= imageTierRank (count_tier acc o).2 /\
    forall t, ClassifyImageBillingTier o = Some t -> imageTierRank t <= imageTierRank (count_tier acc o).2) as [H1 H2].
  { unfold count_tier. destruct (ClassifyImageBillingTier o) as [t|]; cbn; [|split; [lia|done]].
    destruct (Z.ltb_spec (imageTierRank acc.2) (imageTierRank t)); split; try lia; intros t' [= <-]; lia. }
  destruct (IH _ Hn) as (I1 & I2 & I3). cbv zeta. split; [exact I1|]. split; [lia|].
  intros o' t [-> |Hin]%elem_of_cons E; [specialize (H2 t E); lia|by apply (I3 o')].
Qed.

(** An image is charged in one of three tiers and a video for one to fifteen
    seconds, whatever the request and the response say; and of several images
    returned none has a tier above the one charged. *)
Theorem media_units_bounded size outputs d :
  BillingSize (ResolveImageBillingSize size outputs) ∈ image_tiers /\
  (forall o t, o ∈ outputs -> ClassifyImageBillingTier (TrimSpace o) = Some t -> TrimSpace o <> "" ->
     imageTierRank t <= imageTierRank (BillingSize (ResolveImageBillingSize size outputs))) /\
  1 <= NormalizeVideoBillingDurationSecondsOrDefault d <= 15.
Proof.
  split; [|split].
  - unfold ResolveImageBillingSize. cbv zeta. destruct (count_tiers (compactTrimmedStrings outputs) (∅, "") (or_introl eq_refl)) as (H & _).
    destruct (foldl _ _ _) as [b tier]. cbn [snd] in H. case_bool_decide; cbn [negb].
    + destruct (ClassifyImageBillingTier (TrimSpace size)) eqn:E; [by apply classify_tier in E|].
      apply (bool_decide_unpack _). by vm_compute.
    + destruct H; done.
  - intros o t Ho E Hne. unfold ResolveImageBillingSize. cbv zeta.
    destruct (count_tiers (compactTrimmedStrings outputs) (∅, "") (or_introl eq_refl)) as (_ & _ & H).
    assert (TrimSpace o ∈ compactTrimmedStrings outputs) as Hin.
    { apply list_elem_of_filter. split; [done|]. by apply list_elem_of_fmap_2. }
    specialize (H _ _ Hin E). destruct (foldl _ _ _) as [b tier]. cbn [snd] in H. case_bool_decide as Hb; cbn [negb BillingSize]; [|done].
    subst tier. pose proof (classify_tier _ _ E) as Ht. exfalso. revert H.
    repeat (apply elem_of_cons in Ht as [-> |Ht]; [by vm_compute|]). by apply elem_of_nil in Ht.
  - unfold NormalizeVideoBillingDurationSecondsOrDefault, VideoBillingDefaultDurationSeconds, VideoBillingMinDurationSeconds, VideoBillingMaxDurationSeconds.
    destruct (Z.leb_spec d 0), (Z.ltb_spec d 1), (Z.ltb_spec 15 d); lia.
Qed.
