(* ===== verification/ChannelPricingProperties.v ===== *)
(** * What the channel prices promise

    Accepted intervals do not overlap; the cache answers exactly what the
    configuration says; accepted multipliers are positive. *)

From S2P Require Import Prelude GoStrings Float64 Float64Exact GoTime Account Billing ChannelPricing.
Local Open Scope Z_scope.

(** ** Validated intervals *)

Definition ends_before (a b : PricingInterval) : Prop :=
  match iv_MaxTokens a with Some m => m <= iv_MinTokens b | None => False end.

Lemma overlap_from_spec sorted : forall prev, validateIntervalOverlap_from prev sorted = None ->
  Forall (fun iv => match iv_MaxTokens iv with Some m => iv_MinTokens iv < m | None => True end) sorted ->
  (forall p, prev = Some p -> Forall (ends_before p) sorted) /\ ForallOrdPairs ends_before sorted.
Proof.
  induction sorted as [|iv rest IH]; intros prev H Hv.
  - split; [intros; constructor|constructor].
  - apply Forall_cons in Hv as [Hiv Hv]. cbn in H.
    assert ((forall p, prev = Some p -> ends_before p iv) /\ validateIntervalOverlap_from (Some iv) rest = None) as [Hp Hr].
    { unfold ends_before. destruct (iv_MaxTokens iv), rest as [|iv2 rest], prev as [q|]; try done;
        try (destruct (iv_MaxTokens q) as [m|] eqn:Eq; [|done]; destruct (Z.ltb_spec (iv_MinTokens iv) m); [done|]);
        (split; [|exact H]); intros p0 [= <-]; rewrite Eq; lia. }
    destruct (IH (Some iv) Hr Hv) as [H1 H2]. specialize (H1 iv eq_refl).
    split; [|constructor; done]. intros p0 ->. specialize (Hp p0 eq_refl). constructor; [done|].
    apply (Forall_impl _ _ _ H1). intros q Hq. unfold ends_before in *.
    destruct (iv_MaxTokens p0), (iv_MaxTokens iv); try done. lia.
Qed.

Lemma config_first_error_None {A} (check : A -> option ConfigError) l : first_error check l = None <-> Forall (fun x => check x = None) l.
Proof.
  induction l as [|x l IH]; cbn; [by split|]. rewrite Forall_cons, <-IH. destruct (check x); naive_solver.
Qed.

Lemma and_then_None e k : and_then e k = None <-> e = None /\ k = None.
Proof. destruct e; cbn; naive_solver. Qed.

Lemma single_interval_None iv : validateSingleInterval iv = None ->
  0 <= iv_MinTokens iv /\ match iv_MaxTokens iv with Some m => iv_MinTokens iv < m | None => True end /\
  validateIntervalPrices iv = None.
Proof.
  unfold validateSingleInterval. destruct (Z.ltb_spec (iv_MinTokens iv) 0); [done|].
  destruct (iv_MaxTokens iv) as [m|]; [|done]. destruct (Z.leb_spec m 0), (Z.leb_spec m (iv_MinTokens iv)); done.
Qed.

Lemma merge_sort_in ivs (iv : PricingInterval) : iv ∈ merge_sort by_min ivs <-> iv ∈ ivs.
Proof. by rewrite merge_sort_Permutation. Qed.

Lemma validated_intervals ivs mode : ValidateIntervals ivs mode = None -> Forall (fun iv => validateSingleInterval iv = None) ivs.
Proof.
  unfold ValidateIntervals. intros [H _]%and_then_None. apply config_first_error_None in H. by rewrite merge_sort_Permutation in H.
Qed.

Lemma validated_apart ivs mode : per_unit_mode mode = false -> ValidateIntervals ivs mode = None ->
  forall x y, x ∈ ivs -> y ∈ ivs -> x = y \/ ends_before x y \/ ends_before y x.
Proof.
  intros Hm H x y Hx Hy. unfold ValidateIntervals in H. rewrite Hm in H. apply and_then_None in H as [H1 H2].
  apply config_first_error_None in H1. apply overlap_from_spec in H2 as [_ H2].
  2: { eapply Forall_impl; [exact H1|]. intros iv (_ & ? & _)%single_interval_None. done. }
  rewrite <-merge_sort_in in Hx, Hy. apply list_elem_of_In in Hx, Hy.
  exact (ForallOrdPairs_In H2 x y Hx Hy).
Qed.

Lemma apart_no_common n x y : ends_before x y -> in_interval n x = true -> in_interval n y = true -> False.
Proof. unfold ends_before, in_interval. destruct (iv_MaxTokens x); [|done]. intros ? [_ ?]%andb_true_iff [? _]%andb_true_iff. blia. Qed.

(** Once the intervals of an entry charged by tokens are accepted, a count of
    tokens falls in at most one of them, so the interval the hot path finds is
    the one that contains the count, whatever the order they are stored in. *)
Theorem matching_interval_unique ivs mode n iv :
  per_unit_mode mode = false -> ValidateIntervals ivs mode = None ->
  FindMatchingInterval ivs n = Some iv <-> iv ∈ ivs /\ in_interval n iv = true.
Proof.
  intros Hm H. unfold FindMatchingInterval. split.
  - intros ([i x] & E & [= <-])%fmap_Some. apply list_find_Some in E as (Hi & Hx & _).
    split; [by eapply list_elem_of_lookup_2|done].
  - intros [Hin Hn]. destruct (list_find_elem_of (fun iv => in_interval n iv = true) ivs iv Hin Hn) as [[i x] E].
    rewrite E. cbn. f_equal. apply list_find_Some in E as (Hi & Hx & _). apply list_elem_of_lookup_2 in Hi.
    destruct (validated_apart _ _ Hm H x iv Hi Hin) as [-> | [A|A]]; [done| |]; exfalso; eapply apart_no_common; eauto.
Qed.

Definition fx_interval (lo : Z) (hi : option Z) (price : string) : PricingInterval :=
  mkInterval lo hi "" (Some (lit price)) None None None None None None None None None.
Definition fx_intervals := [fx_interval 200000 None "2e-6"; fx_interval 0 (Some 128000) "5e-7"; fx_interval 128000 (Some 200000) "1e-6"].

Lemma matching_interval_unique_witness :
  ValidateIntervals fx_intervals "token" = None /\
  FindMatchingInterval fx_intervals 128000 = Some (fx_interval 0 (Some 128000) "5e-7").
Proof.
  split; [by vm_compute|]. apply (matching_interval_unique fx_intervals "token"); [by vm_compute|by vm_compute|].
  split; [do 2 constructor|by vm_compute].
Defined.

(** ** The cache and the configuration *)

(** Whether a normalized name falls under a pattern. *)
Definition entry_matches (e : modelEntry) (m : string) : bool :=
  if me_wildcard e then HasPrefix m (me_prefix e) else me_prefix e ==? m.

Lemma prefixes_nested a b m : HasPrefix m a = true -> HasPrefix m b = true -> HasPrefix a b = true \/ HasPrefix b a = true.
Proof.
  unfold HasPrefix. revert b m. induction a as [|c a IH]; intros b m; [right; by destruct b|].
  destruct b as [|d b]; [left; done|]. destruct m as [|x m]; [done|]. cbn [strip_prefix].
  destruct (Strings.Ascii.eqb_spec c x) as [-> |]; [|done]. destruct (Strings.Ascii.eqb_spec d x) as [-> |]; [|done].
  rewrite Strings.Ascii.eqb_refl. apply IH.
Qed.

(** Two patterns that a common name falls under are reported as conflicting. *)
Lemma common_conflict a b m : entry_matches a m = true -> entry_matches b m = true -> conflictsBetween a b = true.
Proof.
  unfold entry_matches, conflictsBetween. destruct (me_wildcard a), (me_wildcard b); intros Ha Hb.
  - apply orb_true_iff. by apply (prefixes_nested _ _ m).
  - apply bool_decide_eq_true in Hb as ->. done.
  - apply bool_decide_eq_true in Ha as ->. done.
  - apply bool_decide_eq_true in Ha as ->, Hb as ->. by apply bool_decide_eq_true.
Qed.

(** What a cache holds: the (group, entry, pattern) triples satisfying [P]. *)
Definition exact_pattern (pat m : string) : Prop :=
  strip_suffix "*" pat = None /\ normalizeChannelPricingModelName pat = m.
Definition wild_pattern (pat prefix : string) : Prop :=
  exists pre, strip_suffix "*" pat = Some pre /\ normalizeChannelPricingModelName pre = prefix.

Definition triples := Z -> ChannelModelPricing -> string -> Prop.

Record holds (c : channelCache) (P : triples) : Prop := {
  h_exact_sound : forall gid pf m p, pricingByGroupModel c !! (gid, pf, m) = Some p ->
    exists pat, P gid p pat /\ cp_Platform p = pf /\ exact_pattern pat m;
  h_exact_complete : forall gid p pat m, P gid p pat -> exact_pattern pat m ->
    is_Some (pricingByGroupModel c !! (gid, cp_Platform p, m));
  h_wild : forall gid pf pre p, (pre, p) ∈ default [] (wildcardByGroupPlatform c !! (gid, pf)) <->
    exists pat, P gid p pat /\ cp_Platform p = pf /\ wild_pattern pat pre;
}.

Lemma holds_iff c (P Q : triples) : (forall g p m, P g p m <-> Q g p m) -> holds c P -> holds c Q.
Proof.
  intros E [H1 H2 H3]. split.
  - intros gid pf m p H. destruct (H1 _ _ _ _ H) as (pat & Hp & ?). exists pat. by rewrite <-E.
  - intros gid p pat m Hq. rewrite <-E in Hq. by apply H2.
  - intros gid pf pre p. rewrite H3. by setoid_rewrite E.
Qed.

Lemma expand_model_holds gid p c m (P : triples) :
  holds c P -> holds (expand_model gid p c m) (fun g q pat => P g q pat \/ (g = gid /\ q = p /\ pat = m)).
Proof.
  intros [H1 H2 H3]. unfold expand_model. destruct (strip_suffix "*" m) as [pre|] eqn:E; split; cbn.
  - intros g pf k q H. destruct (H1 _ _ _ _ H) as (pat & Hp & ?). exists pat. auto.
  - intros g q pat k [Hq|(-> & -> & ->)] Hk; [by apply (H2 _ _ pat)|]. destruct Hk. congruence.
  - intros g pf k q. destruct (decide ((g, pf) = (gid, cp_Platform p))) as [[= -> ->]|Hne].
    + rewrite lookup_insert_eq. cbn. rewrite elem_of_app, H3, list_elem_of_singleton. split.
      * intros [(pat & ? & ?)|[= -> ->]]; [exists pat; auto|]. exists m. split; [by right|]. split; [done|]. by exists pre.
      * intros (pat & [?|(_ & -> & ->)] & Hpf & Hw); [left; by exists pat|right].
        destruct Hw as (pre' & E' & <-). rewrite E in E'. by injection E' as <-.
    + rewrite lookup_insert_ne by done. rewrite H3. split; intros (pat & Hpat & Hpf & Hw); exists pat; [by auto|].
      destruct Hpat as [?|(-> & -> & ->)]; [done|]. by rewrite <-Hpf in Hne.
  - intros g pf k q. destruct (decide ((g, pf, k) = (gid, cp_Platform p, normalizeChannelPricingModelName m))) as [[= -> -> ->]|Hne].
    + rewrite lookup_insert_eq. intros [= <-]. exists m. split; [by right|]. done.
    + rewrite lookup_insert_ne by done. intros H. destruct (H1 _ _ _ _ H) as (pat & ? & ?). exists pat. auto.
  - intros g q pat k Hq Hk. destruct (decide ((g, cp_Platform q, k) = (gid, cp_Platform p, normalizeChannelPricingModelName m))) as [-> |Hne].
    + rewrite lookup_insert_eq. done.
    + rewrite lookup_insert_ne by done. destruct Hq as [Hq|(-> & -> & ->)]; [by apply (H2 _ _ pat)|].
      exfalso. apply Hne. by destruct Hk as [_ <-].
  - intros g pf k q. rewrite H3. split; intros (pat & Hpat & Hpf & Hw); exists pat; [by auto|].
    destruct Hpat as [?|(-> & -> & ->)]; [done|]. destruct Hw as (pre & E' & _). congruence.
Qed.

Lemma foldl_holds {A} (step : channelCache -> A -> channelCache) (Q : A -> triples) l :
  (forall c P a, holds c P -> holds (step c a) (fun g p m => P g p m \/ Q a g p m)) ->
  forall c P, holds c P -> holds (foldl step c l) (fun g p m => P g p m \/ exists a, a ∈ l /\ Q a g p m).
Proof.
  intros Hstep. induction l as [|a l IH]; intros c P H.
  - apply (holds_iff _ P); [|done]. intros g p m. split; [auto|]. intros [?|(a & ?%elem_of_nil & _)]; done.
  - eapply holds_iff; [|apply IH, Hstep, H]. intros g p m. setoid_rewrite elem_of_cons. naive_solver.
Qed.

(** What one channel configures for a group of a platform. *)
Definition configured (platform : string) (ch : Channel) (p : ChannelModelPricing) (pat : string) : Prop :=
  p ∈ ch_ModelPricing ch /\ isPlatformPricingMatch platform (cp_Platform p) = true /\ pat ∈ cp_Models p.

Lemma expand_holds ch gid platform c P : holds c P ->
  holds (expandPricingToCache ch gid platform c) (fun g p m => P g p m \/ (g = gid /\ configured platform ch p m)).
Proof.
  intros H. unfold expandPricingToCache. eapply holds_iff.
  2: { apply (foldl_holds _ (fun pr g p m => g = gid /\ p = pr /\ isPlatformPricingMatch platform (cp_Platform p) = true /\
         m ∈ cp_Models p)); [|exact H]. clear. intros c P pr H.
       destruct (isPlatformPricingMatch platform (cp_Platform pr)) eqn:E.
       - eapply holds_iff; [|apply (foldl_holds _ (fun pat g p m => g = gid /\ p = pr /\ m = pat)); [|exact H]].
         + intros g p m. naive_solver.
         + intros. by apply expand_model_holds.
       - eapply holds_iff; [|exact H]. intros g p m. split; [by left|]. intros [?|(-> & -> & F & _)]; [done|congruence]. }
  intros g p m. unfold configured. naive_solver.
Qed.

Definition platform_of (gps : gmap Z string) (gid : Z) : string := default "" (gps !! gid).

Lemma populate_holds chs gps : holds (populateChannelCache chs gps)
  (fun gid p m => exists ch, ch ∈ chs /\ gid ∈ ch_GroupIDs ch /\ configured (platform_of gps gid) ch p m).
Proof.
  unfold populateChannelCache. eapply holds_iff.
  2: { apply (foldl_holds _ (fun ch g p m => g ∈ ch_GroupIDs ch /\ configured (platform_of gps g) ch p m) chs) with (P := fun _ _ _ => False).
       - clear. intros c P ch H. eapply holds_iff.
         2: { apply (foldl_holds (populate_group gps ch) (fun gid g p m => g = gid /\ configured (platform_of gps g) ch p m)); [|exact H].
              clear. intros c P gid [H1 H2 H3]. unfold populate_group. eapply holds_iff; [|apply expand_holds; split; cbn; [exact H1|exact H2|exact H3]].
              intros g p m. unfold platform_of. naive_solver. }
         intros g p m. naive_solver.
       - split; cbn.
         + intros gid pf m p. by rewrite lookup_empty.
         + done.
         + intros gid pf pre p. rewrite lookup_empty. cbn. rewrite elem_of_nil. naive_solver. }
  intros g p m. naive_solver.
Qed.

(** The channel of each group. *)
Lemma expand_model_channel gid p c m : channelByGroupID (expand_model gid p c m) = channelByGroupID c.
Proof. unfold expand_model. by destruct (strip_suffix "*" m). Qed.
Lemma expand_model_platform gid p c m : groupPlatform (expand_model gid p c m) = groupPlatform c.
Proof. unfold expand_model. by destruct (strip_suffix "*" m). Qed.

Lemma foldl_keeps {A B C} (f : B -> A -> B) (get : B -> C) l : (forall b a, get (f b a) = get b) -> forall b, get (foldl f b l) = get b.
Proof. intros H. induction l as [|a l IH]; intros b; cbn; [done|]. by rewrite IH. Qed.

Lemma expand_channel ch gid platform c : channelByGroupID (expandPricingToCache ch gid platform c) = channelByGroupID c.
Proof.
  unfold expandPricingToCache. apply foldl_keeps. intros b a. destruct (isPlatformPricingMatch _ _); [|done].
  apply foldl_keeps. intros. apply expand_model_channel.
Qed.
Lemma expand_platform ch gid platform c : groupPlatform (expandPricingToCache ch gid platform c) = groupPlatform c.
Proof.
  unfold expandPricingToCache. apply foldl_keeps. intros b a. destruct (isPlatformPricingMatch _ _); [|done].
  apply foldl_keeps. intros. apply expand_model_platform.
Qed.

Lemma populate_platform chs gps : groupPlatform (populateChannelCache chs gps) = gps.
Proof.
  unfold populateChannelCache. rewrite foldl_keeps; [done|]. intros c ch. apply foldl_keeps. intros. unfold populate_group.
  by rewrite expand_platform.
Qed.

Lemma populate_channel chs gps gid ch : ch ∈ chs -> gid ∈ ch_GroupIDs ch ->
  (forall ch', ch' ∈ chs -> gid ∈ ch_GroupIDs ch' -> ch' = ch) ->
  channelByGroupID (populateChannelCache chs gps) !! gid = Some ch.
Proof.
  intros Hch Hgid Huniq. unfold populateChannelCache.
  assert (Hgroups : forall x gids c, channelByGroupID (foldl (populate_group gps x) c gids) !! gid =
    if bool_decide (gid ∈ gids) then Some x else channelByGroupID c !! gid).
  { intros x gids. induction gids as [|g gids IH]; intros c; cbn [foldl]; [done|].
    rewrite IH. unfold populate_group. rewrite expand_channel. cbn [channelByGroupID].
    destruct (decide (gid ∈ gids)) as [Hin|Hin]; [by rewrite !bool_decide_true by (try constructor; done)|].
    rewrite (bool_decide_false (gid ∈ gids)) by done. destruct (decide (gid = g)) as [-> |Hne].
    - rewrite lookup_insert_eq, bool_decide_true; [done|constructor].
    - rewrite lookup_insert_ne by done. by rewrite bool_decide_false by (by intros [?|?]%elem_of_cons). }
  generalize (mkChannelCache ∅ ∅ ∅ gps). induction chs as [|x chs IH] using rev_ind; intros c; [by apply elem_of_nil in Hch|].
  rewrite foldl_app. cbn [foldl]. rewrite Hgroups. case_bool_decide as Hx.
  - f_equal. apply Huniq; [|done]. apply elem_of_app. right. constructor.
  - apply IH; [|intros; apply Huniq; [apply elem_of_app; by left|done]].
    apply elem_of_app in Hch as [?| ->%list_elem_of_singleton]; done.
Qed.

Lemma pattern_matches pat m : entry_matches (toPricingModelEntry pat) m = true <->
  exact_pattern pat m \/ exists pre, wild_pattern pat pre /\ HasPrefix m pre = true.
Proof.
  unfold entry_matches, toPricingModelEntry, splitWildcardSuffix, exact_pattern, wild_pattern, wildcardSuffix.
  destruct (strip_suffix "*" pat) as [pre|] eqn:E; cbn.
  - split.
    + intros H. right. exists (normalizeChannelPricingModelName pre). split; [by exists pre|done].
    + intros [[? _]|(pre' & (q & Eq & <-) & Hm)]; [congruence|]. by injection Eq as ->.
  - rewrite bool_decide_eq_true. split; [auto|]. intros [[_ ?]|(pre' & (q & ? & _) & _)]; [done|congruence].
Qed.

Lemma no_conflicts {A} (f : A -> modelEntry) l : detectConflicts (f <$> l) = false ->
  ForallOrdPairs (fun x y => conflictsBetween (f x) (f y) = false) l.
Proof.
  induction l as [|x l IH]; [constructor|]. cbn. intros [H1 H2]%orb_false_iff. constructor; [|by apply IH].
  apply Forall_forall. intros y Hy. apply not_true_iff_false. intros F. revert H1. apply not_false_iff_true.
  apply existsb_exists. exists (f y). split; [|done]. apply in_map. by apply list_elem_of_In.
Qed.

(** What any lookup finds is configured in some channel of the group. *)
Lemma lookup_configured chs gps gid platform name p :
  lookupPricingAcrossPlatforms (populateChannelCache chs gps) gid platform name = Some p ->
  exists ch, ch ∈ chs /\ gid ∈ ch_GroupIDs ch /\ p ∈ ch_ModelPricing ch.
Proof.
  pose proof (populate_holds chs gps) as H. unfold lookupPricingAcrossPlatforms.
  set (m := normalizeChannelPricingModelName name). set (c := populateChannelCache chs gps) in *. clearbody c m.
  destruct (head (omap _ _)) as [q|] eqn:E.
  - intros [= <-]. apply head_Some_elem_of, list_elem_of_omap in E as (pf & _ & E).
    apply (h_exact_sound _ _ H) in E as (pat & (ch & ? & ? & ? & _) & _). by exists ch.
  - clear E. intros E. apply head_Some_elem_of, list_elem_of_omap in E as (pf & _ & E).
    unfold matchWildcard in E. apply fmap_Some in E as ([i [pre q]] & E & [= ->]).
    apply list_find_Some in E as (Hi%list_elem_of_lookup_2 & _ & _). rewrite (h_wild _ _ H) in Hi.
    destruct Hi as (pat & (ch & ? & ? & ? & _) & _). by exists ch.
Qed.

(** Accepted entries of one platform: a name falls under patterns of one. *)
Lemma accepted_unique l p q pat pat' m : validateNoConflictingModels l = None ->
  p ∈ l -> q ∈ l -> cp_Platform p = cp_Platform q -> pat ∈ cp_Models p -> pat' ∈ cp_Models q ->
  entry_matches (toPricingModelEntry pat) m = true -> entry_matches (toPricingModelEntry pat') m = true -> p = q.
Proof.
  unfold validateNoConflictingModels. intros H Hp Hq Hpf Hpat Hpat' Hm Hm'.
  destruct (existsb _ l) eqn:E; [done|].
  assert (detectConflicts (platform_entries (cp_Platform p) l) = false) as Hd.
  { apply not_true_iff_false. intros F. apply not_true_iff_false in E. apply E, existsb_exists. exists p.
    split; [by apply list_elem_of_In|done]. }
  set (F := base.filter (fun p' => cp_Platform p' = cp_Platform p) l ≫= fun e => pair e <$> cp_Models e).
  assert (platform_entries (cp_Platform p) l = (fun x => toPricingModelEntry x.2) <$> F) as HF.
  { unfold platform_entries, F. induction (base.filter _ l) as [|e es IH]; [done|].
    cbn [mbind list_bind]. by rewrite !fmap_app, IH, <-list_fmap_compose. }
  rewrite HF in Hd. apply no_conflicts in Hd.
  assert (forall e pt, e ∈ l -> cp_Platform e = cp_Platform p -> pt ∈ cp_Models e -> In (e, pt) F) as Hin.
  { intros e pt He Hpe Hpt. apply list_elem_of_In, list_elem_of_bind. exists e. split.
    - apply list_elem_of_fmap. by exists pt.
    - by apply list_elem_of_filter. }
  destruct (ForallOrdPairs_In Hd (p, pat) (q, pat') (Hin _ _ Hp eq_refl Hpat) (Hin _ _ Hq (eq_sym Hpf) Hpat')) as [F1|[F1|F1]].
  - by injection F1.
  - cbn in F1. by rewrite (common_conflict _ _ m) in F1.
  - cbn in F1. by rewrite (common_conflict _ _ m) in F1.
Qed.

Lemma matchWildcard_content c P gid pf m : holds c P ->
  (forall p, matchWildcard c gid pf m = Some p -> exists pat pre, P gid p pat /\ cp_Platform p = pf /\ wild_pattern pat pre /\ HasPrefix m pre = true) /\
  (forall p pat pre, P gid p pat -> cp_Platform p = pf -> wild_pattern pat pre -> HasPrefix m pre = true -> is_Some (matchWildcard c gid pf m)).
Proof.
  intros H. unfold matchWildcard. split.
  - intros p ([i [pre p']] & E & [= <-])%fmap_Some. apply list_find_Some in E as (Hi & Hpre & _). cbn in *.
    apply list_elem_of_lookup_2 in Hi. rewrite (h_wild _ _ H) in Hi. destruct Hi as (pat & ? & ? & ?). exists pat, pre. done.
  - intros p pat pre HP Hpf Hw Hm. assert ((pre, p) ∈ default [] (wildcardByGroupPlatform c !! (gid, pf))) as Hin.
    { rewrite (h_wild _ _ H). by exists pat. }
    destruct (list_find_elem_of (fun w => HasPrefix m w.1 = true) _ _ Hin Hm) as [x ->]. done.
Qed.

Definition covers (pat name : string) : Prop :=
  entry_matches (toPricingModelEntry pat) (normalizeChannelPricingModelName name) = true.

(** The lookup on a platform that is not composite, for any content. *)
Lemma lookup_content c P gid platform name : holds c P -> platform <> PlatformComposite ->
  (forall p, lookupPricingAcrossPlatforms c gid platform name = Some p ->
     cp_Platform p = platform /\ exists pat, P gid p pat /\ covers pat name) /\
  (forall p pat, P gid p pat -> cp_Platform p = platform -> covers pat name ->
     is_Some (lookupPricingAcrossPlatforms c gid platform name)).
Proof.
  intros H Hpf. unfold lookupPricingAcrossPlatforms, matchingPlatforms, covers. rewrite bool_decide_false by done. cbn.
  set (m := normalizeChannelPricingModelName name). destruct (matchWildcard_content c P gid platform m H) as [W1 W2].
  destruct (pricingByGroupModel c !! (gid, platform, m)) as [q|] eqn:E; cbn.
  - split; [|done]. intros p [= <-]. apply (h_exact_sound _ _ H) in E as (pat & Hc & Hq & He). split; [done|].
    exists pat. split; [done|]. apply pattern_matches. by left.
  - split.
    + destruct (matchWildcard c gid platform m) as [q|] eqn:E'; cbn; [|done]. intros p [= <-].
      destruct (W1 q eq_refl) as (pat & pre & Hc & Hq & Hw & Hpre). split; [done|].
      exists pat. split; [done|]. apply pattern_matches. right. by exists pre.
    + intros p pat Hc Hq [He|(pre & Hw & Hpre)]%pattern_matches.
      * pose proof (h_exact_complete _ _ H _ _ _ _ Hc He) as Hs. rewrite Hq, E in Hs. by destruct Hs.
      * destruct (W2 p pat pre Hc Hq Hw Hpre) as [x ->]. done.
Qed.

(** C19: the cache the hot path reads answers what the configuration says.  For a
    group of one channel whose entries were accepted, on a platform that is
    not composite, an entry is found exactly when the channel is active, the
    entry is configured for a platform the group may use and is the requested
    one, and one of its patterns covers the requested name; as accepted
    patterns do not overlap, there is at most one such entry. *)
Theorem channel_lookup_refines chs gps ctx gid ch model p :
  let platform := channelLookupPlatform ctx (platform_of gps gid) in
  ch ∈ chs -> gid ∈ ch_GroupIDs ch -> (forall ch', ch' ∈ chs -> gid ∈ ch_GroupIDs ch' -> ch' = ch) ->
  validateNoConflictingModels (ch_ModelPricing ch) = None -> platform <> PlatformComposite ->
  GetChannelModelPricing (Some (populateChannelCache chs gps)) ctx gid model = Some p <->
  IsActive ch = true /\ cp_Platform p = platform /\
  exists pat, configured (platform_of gps gid) ch p pat /\ covers pat (ToLower model).
Proof.
  intros platform Hch Hgid Huniq Hok Hpf. unfold GetChannelModelPricing, lookupGroupChannel. cbn [mbind option_bind].
  rewrite (populate_channel chs gps gid ch Hch Hgid Huniq), populate_platform.
  destruct (IsActive ch); cbn [mbind option_bind]; [|split; [done|by intros [? _]]].
  change (channelLookupPlatform ctx (default "" (gps !! gid))) with platform.
  destruct (lookup_content _ _ gid platform (ToLower model) (populate_holds chs gps) Hpf) as [L1 L2].
  assert (HP : forall q pat, (exists ch', ch' ∈ chs /\ gid ∈ ch_GroupIDs ch' /\ configured (platform_of gps gid) ch' q pat) <->
    configured (platform_of gps gid) ch q pat).
  { intros q pat. split; [|by exists ch]. intros (ch' & H1 & H2 & H3). by rewrite <-(Huniq ch' H1 H2). }
  setoid_rewrite HP in L1. setoid_rewrite HP in L2. split; [intros E; split; [done|by apply L1]|].
  intros (_ & Hp & pat & Hc & Hm). destruct (L2 p pat Hc Hp Hm) as [q Eq]. rewrite Eq. f_equal.
  destruct (L1 q Eq) as (Hq & pat' & (Hq1 & _ & Hq2) & Hm'). destruct Hc as (Hp1 & _ & Hp2).
  apply (accepted_unique _ q p pat' pat (normalizeChannelPricingModelName (ToLower model)) Hok); congruence || done.
Qed.

Definition fx_entry (platform : string) (models : list string) (input : string) : ChannelModelPricing :=
  mkChannelPricing platform models "token" (Some (lit input)) None None None None None None None None None None [] None.
Definition fx_channel : Channel := mkChannel 1 "active" true [7]
  [fx_entry "anthropic" ["Claude-Opus-4.5"; "claude-sonnet-*"] "3e-6"; fx_entry "openai" ["gpt-*"] "1e-6"].
Definition fx_ctx : platform_ctx := mkPlatformCtx "" "".

Lemma channel_lookup_refines_witness :
  GetChannelModelPricing (Some (populateChannelCache [fx_channel] {[7 := "anthropic"]})) fx_ctx 7 "claude-opus-4-5" =
    Some (fx_entry "anthropic" ["Claude-Opus-4.5"; "claude-sonnet-*"] "3e-6").
Proof.
  apply (channel_lookup_refines [fx_channel] {[7 := "anthropic"]} fx_ctx 7 fx_channel); [constructor|constructor|..].
  - by intros ch' ->%list_elem_of_singleton.
  - by vm_compute.
  - by vm_compute.
  - split; [by vm_compute|]. split; [by vm_compute|]. exists "Claude-Opus-4.5". split; [|by vm_compute].
    split; [constructor|]. split; [by vm_compute|constructor].
Defined.

(** ** Multipliers by time of day *)

Lemma multiplier_ok_positive m : multiplier_ok m = true -> fltb f0 m = true /\ fltb m (lit "0.01") = false /\ f_is_inf m = false.
Proof.
  unfold multiplier_ok. destruct (f_is_nan m) eqn:En; [done|]. destruct (f_is_inf m) eqn:Ei; [done|].
  destruct (fleb m f0) eqn:E0; [done|]. destruct (fltb m (lit "0.01")) eqn:El; [done|]. intros _.
  split; [|done]. by destruct m as [[]|[]| |[] mm e].
Qed.

Lemma parse_period_Some p q : parse_period p = Some q -> pp_start q < pp_end q /\ multiplier_ok (pp_multiplier q) = true.
Proof.
  unfold parse_period. destruct (multiplier_ok (Multiplier p)) eqn:E; cbn [negb]; [|done].
  destruct (parseChannelTime (StartTime p) false) as [a|]; [|done].
  destruct (parseChannelTime (EndTime p) true) as [b|]; [|done].
  destruct (Z.leb_spec b a); [by rewrite orb_true_r|]. destruct (_ || _); [done|]. intros [= <-]. done.
Qed.

Lemma parse_periods_Some l ps : parseChannelTimePeriods l = Some ps ->
  Forall (fun p => pp_start p < pp_end p /\ multiplier_ok (pp_multiplier p) = true) ps /\ periods_apart ps = true.
Proof.
  unfold parseChannelTimePeriods. destruct (mapM parse_period l) as [qs|] eqn:E; [|done].
  destruct (periods_apart _) eqn:Ea; [|done]. intros [= <-]. split; [|done]. rewrite merge_sort_Permutation.
  apply mapM_Some_1 in E. clear Ea. induction E as [|p q l' qs Hpq _ IH]; [constructor|].
  constructor; [by apply (parse_period_Some p)|done].
Qed.

Lemma periods_apart_pairs ps : Forall (fun p => pp_start p < pp_end p) ps -> periods_apart ps = true ->
  ForallOrdPairs (fun p q => pp_end p <= pp_start q) ps.
Proof.
  induction ps as [|p ps IH]; [constructor|]. intros [Hp Hps]%Forall_cons H.
  assert (periods_apart ps = true /\ match ps with q :: _ => pp_end p <= pp_start q | [] => True end) as [Ha Hq].
  { destruct ps as [|q ps]; [done|]. cbn [periods_apart] in H. apply andb_true_iff in H as [?%negb_true_iff ?]. split; [done|blia]. }
  specialize (IH Hps Ha). constructor; [|done]. destruct ps as [|q ps]; [constructor|].
  constructor; [done|]. inversion IH as [|? ? Hall _]; subst. apply Forall_cons in Hps as [? _].
  apply (Forall_impl _ _ _ Hall). intros r Hr. cbn in Hr. lia.
Qed.

Section TimeOfDay.
Variable tzdb : string -> option Location.

Lemma multiplier_at_cases c at_ : MultiplierAt tzdb c at_ = f1 \/ multiplier_ok (MultiplierAt tzdb c at_) = true.
Proof.
  unfold MultiplierAt. destruct c as [c|]; [|by left]. destruct (_ || _); [by left|].
  destruct (loadChannelTimePricingLocation tzdb (Timezone c)) as [loc|]; [|by left].
  destruct (parseChannelTimePeriods (Periods c)) as [ps|] eqn:E; [|by left].
  destruct (_ && _); [by left|]. destruct (list_find _ ps) as [[i p]|] eqn:F; [|by left].
  right. apply parse_periods_Some in E as [H _]. apply list_find_Some in F as (Hi & _ & _).
  by pose proof (Forall_lookup_1 _ _ _ _ H Hi) as [_ Hm].
Qed.

(** The multiplier of the hour is 1 or one of those accepted: at least 0.01,
    finite; so it never turns a charge negative or makes it vanish. *)
Theorem time_multiplier_bounds c at_ :
  MultiplierAt tzdb c at_ = f1 \/
  fltb (MultiplierAt tzdb c at_) (lit "0.01") = false /\ fltb f0 (MultiplierAt tzdb c at_) = true /\
  f_is_inf (MultiplierAt tzdb c at_) = false.
Proof.
  destruct (multiplier_at_cases c at_) as [H|H]; [by left|right]. destruct (multiplier_ok_positive _ H) as (? & ? & ?). done.
Qed.

(** Accepted periods do not overlap: at an instant that falls in one, on a day
    the configuration applies to, its multiplier is the one charged, wherever
    the period stands in the configuration. *)
Theorem time_period_selected c loc ps p at_ :
  loadChannelTimePricingLocation tzdb (Timezone c) = Some loc -> parseChannelTimePeriods (Periods c) = Some ps ->
  Periods c <> [] -> IsZero at_ = false ->
  (WeekdaysOnly c = true -> Weekday loc at_ <> 6 /\ Weekday loc at_ <> 0) ->
  p ∈ ps -> in_period (local_tod loc at_) p = true -> MultiplierAt tzdb (Some c) at_ = pp_multiplier p.
Proof.
  intros El Ep Hne Hz Hw Hp Hin. unfold MultiplierAt. rewrite bool_decide_false, Hz, El, Ep by done. cbn [orb].
  assert (WeekdaysOnly c && ((Weekday loc at_ =? 6) || (Weekday loc at_ =? 0)) = false) as ->.
  { destruct (WeekdaysOnly c); [|done]. destruct (Hw eq_refl). destruct (Z.eqb_spec (Weekday loc at_) 6), (Z.eqb_spec (Weekday loc at_) 0); done. }
  destruct (list_find_elem_of (fun p => in_period (local_tod loc at_) p = true) ps p Hp Hin) as [[i q] F]. rewrite F.
  apply list_find_Some in F as (Hi & Hq & _). apply list_elem_of_lookup_2 in Hi.
  apply parse_periods_Some in Ep as [Hall Ha]. apply periods_apart_pairs in Ha; [|eapply Forall_impl; [exact Hall|naive_solver]].
  apply list_elem_of_In in Hp, Hi. destruct (ForallOrdPairs_In Ha p q Hp Hi) as [-> |H]; [done|exfalso].
  unfold in_period in *. apply andb_true_iff in Hin as [? ?], Hq as [? ?]. destruct H; blia.
Qed.
End TimeOfDay.

Definition fx_time_pricing : ChannelTimePricing :=
  mkTimePricing "Asia/Shanghai" true [mkPeriod "18:00" "22:00" (lit "2"); mkPeriod "14:00" "18:00" (lit "1.5"); mkPeriod "22:00:30" "00:00" (lit "0.5")].

(** 2026-01-05 10:00 UTC is Monday 18:00 in UTC+8. *)
Lemma time_period_selected_witness :
  MultiplierAt (fun _ => Some (FixedZone 28800)) (Some fx_time_pricing) (Date UTC 2026 1 5 10 0 0) = lit "2".
Proof.
  apply (time_period_selected (fun _ => Some (FixedZone 28800)) fx_time_pricing (FixedZone 28800)
    [mkParsed 50400 64800 (lit "1.5"); mkParsed 64800 79200 (lit "2"); mkParsed 79230 86400 (lit "0.5")]
    (mkParsed 64800 79200 (lit "2")));
    [by vm_compute|by vm_compute|done|by vm_compute|by vm_compute|do 2 constructor|by vm_compute].
Defined.
