(* ===== verification/PricingResolverProperties.v ===== *)
(** * What the resolver promises

    An operator's prices are the ones charged, only unpriced models are
    refused, and DeepSeek's peak hours are Beijing's office hours. *)

From S2P Require Import Prelude GoStrings Float64 Float64Exact GoTime Billing PricingCatalog ChannelPricing PricingResolver.
Local Open Scope Z_scope.

(** ** The operator's prices *)

(** The standard prices of two cards agree, those of the two tiers of cache
    creation included; the single cache-creation price counts when the second
    card has it explicitly. *)
Record same_standard (p q : ModelPricing) : Prop := {
  ss_input : InputPricePerToken p = InputPricePerToken q;
  ss_output : OutputPricePerToken p = OutputPricePerToken q;
  ss_read : CacheReadPricePerToken p = CacheReadPricePerToken q;
  ss_explicit : CacheCreationPriceExplicit p = CacheCreationPriceExplicit q;
  ss_creation : CacheCreationPriceExplicit q = true -> CacheCreationPricePerToken p = CacheCreationPricePerToken q;
  ss_5m : CacheCreation5mPrice p = CacheCreation5mPrice q;
  ss_1h : CacheCreation1hPrice p = CacheCreation1hPrice q;
  ss_breakdown : SupportsCacheBreakdown p = SupportsCacheBreakdown q;
}.

#[export] Instance same_standard_preorder : PreOrder same_standard.
Proof.
  split; [done|]. intros p q r [H1 H2 H3 H4 H5 H6 H7 H8] [G1 G2 G3 G4 G5 G6 G7 G8].
  split; [congruence..| |congruence|congruence|congruence]. intros H. rewrite H5, G5; congruence.
Qed.

Ltac cases := repeat match goal with |- context [if ?b then _ else _] => destruct b end.

Lemma fast_ratio_standard p ratio : same_standard (enforceOpenAIFastPricingRatio p ratio) p.
Proof. unfold enforceOpenAIFastPricingRatio. cbv zeta. cases; done. Qed.

Lemma fill_standard (b : bool) p : same_standard (if b && negb (CacheCreationPriceExplicit p) then fill_cache_creation p else p) p.
Proof.
  destruct b; [|done]. destruct (CacheCreationPriceExplicit p) eqn:E; [done|]. cbn [andb negb]. unfold fill_cache_creation. cbv zeta.
  split; [cases; done..|congruence|cases; done|cases; done|cases; done].
Qed.

Lemma effort_standard (b : bool) o p : same_standard (if b then set_MaxReasoningEffortMultiplier o p else p) p.
Proof. by destruct b. Qed.

(** Outside DeepSeek's fixed rates, the corrections leave the standard prices. *)
Lemma policy_standard model p : same_standard (applyModelSpecificPricingPolicyEx model p false) p.
Proof.
  unfold applyModelSpecificPricingPolicyEx. cbn [andb]. cbv zeta. destruct (_ && _ && _); [done|].
  destruct (fltb f0 _); [etransitivity; [apply fast_ratio_standard|]|];
    (etransitivity; [apply fill_standard|apply effort_standard]).
Qed.

(** What an operator's entry says of the standard prices of a card.  A
    cache-write price is that of both tiers of cache creation, but for a price
    of its own of the one-hour tier, which is then charged by tier. *)
Record prices_of (c : ChannelModelPricing) (p : ModelPricing) : Prop := {
  po_input : forall v, cp_InputPrice c = Some v -> InputPricePerToken p = v;
  po_output : forall v, cp_OutputPrice c = Some v -> OutputPricePerToken p = v;
  po_read : forall v, cp_CacheReadPrice c = Some v -> CacheReadPricePerToken p = v;
  po_creation : forall v, cp_CacheWritePrice c = Some v ->
    CacheCreationPricePerToken p = v /\ CacheCreationPriceExplicit p = true /\ CacheCreation5mPrice p = v /\
    (cp_CacheWrite1hPrice c = None -> CacheCreation1hPrice p = v);
  po_creation_1h : forall v, cp_CacheWrite1hPrice c = Some v ->
    CacheCreation1hPrice p = v /\ SupportsCacheBreakdown p = true;
}.

Lemma overrides_prices p c : prices_of c (applyChannelTokenPriceOverrides p c).
Proof.
  unfold applyChannelTokenPriceOverrides, optionally.
  split; intros v ->; destruct (cp_InputPrice c), (cp_OutputPrice c), (cp_CacheReadPrice c);
    cbn; try destruct (cp_CacheWrite1hPrice c); try destruct (cp_CacheWritePrice c); by split_and?.
Qed.

Lemma prices_of_standard c p q : prices_of c q -> same_standard p q -> prices_of c p.
Proof.
  intros [H1 H2 H3 H4 H5] [G1 G2 G3 G4 G5 G6 G7 G8]. split; [naive_solver congruence..| |].
  - intros v Hv. destruct (H4 v Hv) as (Ha & Hb & Hc & Hd). rewrite G5, G4, G6, G7 by done. by split_and!.
  - intros v Hv. rewrite G7, G8. auto.
Qed.

Lemma prices_of_breakdown c (b : bool) p : prices_of c p -> prices_of c (if b then set_SupportsCacheBreakdown true p else p).
Proof. destruct b; [|done]. intros [H1 H2 H3 H4 H5]. split; try done. intros v Hv. by destruct (H5 v Hv). Qed.

Lemma prices_of_stripped c (b : bool) p : prices_of (if b then strip_intervals c else c) p -> prices_of c p.
Proof. destruct b; [|done]. by intros []. Qed.

Section Resolver.
Variable catalog : option (gmap string LiteLLMModelPricing * (string -> list (string * LiteLLMModelPricing))).
Variable channels : option (Z -> string -> option ChannelModelPricing).
Variable tzdb : string -> option Location.
Variable now : time.

Lemma extras_standard c p : same_standard (channel_extras c p) p.
Proof. unfold channel_extras. cbv zeta. destruct (cp_MaxReasoningEffortMultiplier c); done. Qed.

Lemma token_overrides_prices c r : exists p, rp_BasePricing (applyTokenOverrides c r) = Some p /\ prices_of c p.
Proof.
  eexists. split; [reflexivity|]. eapply prices_of_standard; [|apply extras_standard].
  apply prices_of_breakdown, overrides_prices.
Qed.

(** A card without intervals, from configured prices. *)
Lemma configured_card mode source c base sup cp long i :
  cp_Intervals c = [] -> source <> PricingSourceLiteLLM ->
  exists p, token_card now (applyTokenOverrides c (mkResolved mode base [] [] f0 source sup cp long)) i = Some p /\
    prices_of c p.
Proof.
  intros Hi Hs. set (r0 := mkResolved _ _ _ _ _ _ _ _ _). set (r := applyTokenOverrides c r0).
  destruct (token_overrides_prices c r0) as (p & Ep & Hp). fold r in Ep.
  assert (rp_Intervals r = []) as Hr by (unfold r; cbn; by rewrite Hi).
  assert (rp_Source r = source) as Hsrc by done. clearbody r.
  unfold token_card, GetIntervalPricing, FindMatchingInterval. cbv zeta. rewrite Hr, Ep, Hsrc.
  cbn [list_find fmap option_fmap option_map]. rewrite bool_decide_false by done. cbn [andb].
  eexists. split; [reflexivity|]. eapply prices_of_standard; [exact Hp|apply policy_standard].
Qed.

(** C33: an operator's prices are the ones charged: when the group configures a
    model by tokens, or the group does not but its channel does, without
    intervals, each standard price the entry gives is, unchanged, that of the
    card the request is charged with: input, output, cache read, and cache
    creation in the single price and in those of its two tiers.  A group's own
    entry goes before the channel's. *)
Theorem operator_prices_charged i c :
  matchGroupModelPricing (ci_Group i) (ci_Model i) = Some c \/
  matchGroupModelPricing (ci_Group i) (ci_Model i) = None /\
    (exists gid, ci_GroupID i = Some gid /\ lookupChannelPricingNormalized channels gid (ci_Model i) = Some c) ->
  per_unit_mode (mode_or_token (cp_BillingMode c)) = false -> cp_Intervals c = [] ->
  exists p, token_card now (Resolve catalog channels (ci_Model i) (ci_GroupID i) (ci_Group i)) i = Some p /\ prices_of c p.
Proof.
  intros Hc Hm Hi. unfold Resolve. cbv zeta. destruct Hc as [Hg|(Hg & gid & Hgid & Hc)]; rewrite Hg.
  - set (b := _ || _). assert (cp_Intervals (if b then strip_intervals c else c) = []) as Hi' by (by destruct b).
    assert (cp_BillingMode (if b then strip_intervals c else c) = cp_BillingMode c) as Hm' by (by destruct b).
    unfold resolveConfiguredPricing. cbv zeta. rewrite Hm', Hm.
    destruct (resolveBasePricing catalog (ci_Model i)) as [base src].
    edestruct (configured_card (mode_or_token (cp_BillingMode c)) PricingSourceGroup (if b then strip_intervals c else c))
      as (p & Ep & Hp); [exact Hi'|done|]. exists p. split; [exact Ep|]. by eapply prices_of_stripped.
  - rewrite Hgid. cbn [mbind option_bind]. rewrite Hc, Hm.
    destruct (resolveBasePricing catalog (ci_Model i)) as [base src]. by apply configured_card.
Qed.

(** ** Unpriced models *)

Lemma configured_base c r : is_Some (rp_BasePricing (applyTokenOverrides c r)).
Proof. by eexists. Qed.

Lemma token_card_None r i : token_card now r i = None <->
  rp_BasePricing r = None /\ FindMatchingInterval (rp_Intervals r)
    (if context_tiers_enabled r i then total_context (ci_Tokens i) else 1) = None.
Proof.
  unfold token_card, GetIntervalPricing. cbv zeta. destruct (FindMatchingInterval _ _); [split; [done|by intros [_ ?]]|].
  destruct (rp_BasePricing r); [split; [done|by intros [? _]]|done].
Qed.

Lemma cost_None r i : is_Some (rp_BasePricing r) -> calculateTokenCost tzdb now r i <> None.
Proof.
  intros [p Hp] H. unfold calculateTokenCost in H. destruct (token_card now r i) eqn:E; [done|].
  apply token_card_None in E as [E _]. congruence.
Qed.

(** A request is refused for want of a price exactly when neither the group nor
    its channel configures the model and the catalogue, with its fallback
    cards, does not know it either. *)
Theorem unpriced_refused i :
  CalculateCostUnified catalog channels tzdb now true None i = None <->
  matchGroupModelPricing (ci_Group i) (ci_Model i) = None /\
  (ci_GroupID i ≫= fun gid => lookupChannelPricingNormalized channels gid (ci_Model i)) = None /\
  GetModelPricing catalog (ci_Model i) = None.
Proof.
  unfold CalculateCostUnified. cbn [negb default]. rewrite fmap_None. unfold Resolve. cbv zeta.
  destruct (matchGroupModelPricing (ci_Group i) (ci_Model i)) as [c|].
  - split; [|by intros [? _]]. set (c' := if _ || _ then _ else c). unfold resolveConfiguredPricing. cbv zeta.
    destruct (per_unit_mode (mode_or_token (cp_BillingMode c'))) eqn:E; [cbn [rp_Mode applyRequestTierOverrides]; by rewrite E|].
    destruct (resolveBasePricing catalog (ci_Model i)) as [base src]. cbn [rp_Mode applyTokenOverrides]. rewrite E.
    intros H. by apply cost_None in H.
  - destruct (ci_GroupID i ≫= _) as [c|].
    + split; [|by intros (_ & ? & _)]. destruct (per_unit_mode (mode_or_token (cp_BillingMode c))) eqn:E;
        [cbn [rp_Mode applyRequestTierOverrides]; by rewrite E|].
      destruct (resolveBasePricing catalog (ci_Model i)) as [base src]. cbn [rp_Mode applyTokenOverrides].
      intros H. by apply cost_None in H.
    + unfold resolveBasePricing. destruct (GetModelPricing catalog (ci_Model i)) as [p|].
      * split; [|by intros (_ & _ & ?)]. cbn [rp_Mode]. intros H. by apply cost_None in H.
      * split; [done|]. intros _. cbn [rp_Mode]. change (per_unit_mode BillingModeToken) with false. cbv iota.
        unfold calculateTokenCost. by rewrite (proj2 (token_card_None _ _)).
Qed.

End Resolver.

(** ** DeepSeek's peak hours *)

Definition Beijing : Location := FixedZone (8 * 3600).
(** Monday to Friday, nine to twelve and fourteen to eighteen. *)
Definition beijing_office_hours (t : time) : bool :=
  let h := local_tod Beijing t / 3600 in
  (1 <=? Weekday Beijing t) && (Weekday Beijing t <=? 5) && (((9 <=? h) && (h <? 12)) || ((14 <=? h) && (h <? 18))).

(** The code reads the hour off the UTC clock and the weekday in UTC+8; that is
    the published schedule, in Beijing time, at every instant. *)
Theorem deepseek_peak_beijing t :
  deepseekPeakMultiplierAt t = if beijing_office_hours t then f2 else f1.
Proof.
  unfold deepseekPeakMultiplierAt, beijing_office_hours, Beijing. cbv zeta.
  assert (0 <= Weekday (FixedZone (8 * 3600)) t < 7) as Hw by (unfold Weekday; apply Z.mod_pos_bound; lia).
  set (w := Weekday _ t) in *. clearbody w. unfold local_tod, local_sec. cbn [zone_offset UTC FixedZone].
  set (u := unix_sec t). clearbody u. replace (u + 0) with u by lia.
  assert ((u + 8 * 3600) mod 86400 / 3600 = (u mod 86400 / 3600 + 8) mod 24) as ->.
  { Z.div_mod_to_equations. lia. }
  assert (0 <= u mod 86400 / 3600 < 24) as Hh by (Z.div_mod_to_equations; lia).
  set (h := u mod 86400 / 3600) in *. clearbody h.
  assert ((h + 8) mod 24 = if h <? 16 then h + 8 else h - 16) as -> by (destruct (Z.ltb_spec h 16); Z.div_mod_to_equations; lia).
  destruct (Z.ltb_spec h 16); repeat match goal with |- context [?a =? ?b] => destruct (Z.eqb_spec a b)
    | |- context [?a <? ?b] => destruct (Z.ltb_spec a b) | |- context [?a <=? ?b] => destruct (Z.leb_spec a b) end;
    cbn [andb orb]; first [reflexivity|lia].
Qed.

Definition fx_operator : ChannelModelPricing :=
  mkChannelPricing "openai" ["gpt-5.6-*"] "" (Some (lit "9e-6")) None (Some f0) None None None None None None None None [] None.
Definition fx_request : CostInput :=
  mkInput "gpt-5.6-sol" (Some 7) None (mkTokens 1000 0 500 0 0 0 0 0) 1 f0 "" f1 zero_time "" "" None.

(** A cache write the operator gives away stays free on a model whose missing
    price the code would fill in. *)
Lemma operator_prices_charged_witness : exists p,
  token_card zero_time (Resolve None (Some (fun _ _ => Some fx_operator)) "gpt-5.6-sol" (Some 7) None) fx_request = Some p /\
  InputPricePerToken p = lit "9e-6" /\ CacheCreationPricePerToken p = f0.
Proof.
  destruct (operator_prices_charged None (Some (fun _ _ => Some fx_operator)) zero_time fx_request fx_operator) as (p & E & Hp);
    [right; split; [reflexivity|exists 7; split; reflexivity]|by vm_compute|reflexivity|].
  exists p. split; [exact E|]. split; [by apply (po_input _ _ Hp)|]. by apply (po_creation _ _ Hp).
Defined.
