(* ===== verification/BillingSafety.v ===== *)
(** * From an accepted configuration to a charge

    The composition of the catalogue, the channel prices and the resolver: with
    prices that passed validation, no request is charged a negative amount. *)

From S2P Require Import Prelude GoStrings Float64 Float64Exact GoTime Billing PricingCatalog ChannelPricing PricingResolver ChannelPricingProperties BillingProperties.
Local Open Scope Z_scope.

(** ** Changes that keep a card free of negative prices *)

Ltac setter := intros Hv []; constructor; cbn; auto.

Lemma set_input_nn v p : nonneg v -> card_nonneg p -> card_nonneg (set_InputPricePerToken v p). Proof. setter. Qed.
Lemma set_inputP_nn v p : nonneg v -> card_nonneg p -> card_nonneg (set_InputPricePerTokenPriority v p). Proof. setter. Qed.
Lemma set_imageIn_nn v p : nonneg v -> card_nonneg p -> card_nonneg (set_ImageInputPricePerToken v p). Proof. setter. Qed.
Lemma set_output_nn v p : nonneg v -> card_nonneg p -> card_nonneg (set_OutputPricePerToken v p). Proof. setter. Qed.
Lemma set_outputP_nn v p : nonneg v -> card_nonneg p -> card_nonneg (set_OutputPricePerTokenPriority v p). Proof. setter. Qed.
Lemma set_creation_nn v p : nonneg v -> card_nonneg p -> card_nonneg (set_CacheCreationPricePerToken v p). Proof. setter. Qed.
Lemma set_creationP_nn v p : nonneg v -> card_nonneg p -> card_nonneg (set_CacheCreationPricePerTokenPriority v p). Proof. setter. Qed.
Lemma set_read_nn v p : nonneg v -> card_nonneg p -> card_nonneg (set_CacheReadPricePerToken v p). Proof. setter. Qed.
Lemma set_readP_nn v p : nonneg v -> card_nonneg p -> card_nonneg (set_CacheReadPricePerTokenPriority v p). Proof. setter. Qed.
Lemma set_5m_nn v p : nonneg v -> card_nonneg p -> card_nonneg (set_CacheCreation5mPrice v p). Proof. setter. Qed.
Lemma set_1h_nn v p : nonneg v -> card_nonneg p -> card_nonneg (set_CacheCreation1hPrice v p). Proof. setter. Qed.
Lemma set_imageOut_nn v p : nonneg v -> card_nonneg p -> card_nonneg (set_ImageOutputPricePerToken v p). Proof. setter. Qed.
Lemma set_fast_nn o p : (forall m, o = Some m -> nonneg m) -> card_nonneg p -> card_nonneg (set_FastMultiplier o p). Proof. setter. Qed.
Lemma set_flex_nn o p : (forall m, o = Some m -> nonneg m) -> card_nonneg p -> card_nonneg (set_FlexMultiplier o p). Proof. setter. Qed.
Lemma set_max_nn o p : card_nonneg p -> card_nonneg (set_MaxReasoningEffortMultiplier o p). Proof. intros []; constructor; cbn; auto. Qed.
Lemma set_explicit_nn b p : card_nonneg p -> card_nonneg (set_CacheCreationPriceExplicit b p). Proof. intros []; constructor; cbn; auto. Qed.
Lemma set_imageExplicit_nn b p : card_nonneg p -> card_nonneg (set_ImageOutputPriceExplicit b p). Proof. intros []; constructor; cbn; auto. Qed.
Lemma set_breakdown_nn b p : card_nonneg p -> card_nonneg (set_SupportsCacheBreakdown b p). Proof. intros []; constructor; cbn; auto. Qed.

Create HintDb card discriminated.
#[export] Hint Constants Opaque : card.
#[export] Hint Resolve set_input_nn set_inputP_nn set_imageIn_nn set_output_nn set_outputP_nn set_creation_nn set_creationP_nn
  set_read_nn set_readP_nn set_5m_nn set_1h_nn set_imageOut_nn set_fast_nn set_flex_nn set_max_nn set_explicit_nn
  set_imageExplicit_nn set_breakdown_nn : card.
#[export] Hint Resolve fmul_nonneg cn_input cn_inputP cn_output cn_outputP cn_creation cn_creationP cn_read cn_readP cn_5m cn_1h : card.

Definition opt_nonneg (o : option f64) : Prop := forall v, o = Some v -> nonneg v.

Lemma optionally_nn (f : f64 -> ModelPricing -> ModelPricing) o p :
  (forall v q, nonneg v -> card_nonneg q -> card_nonneg (f v q)) -> opt_nonneg o -> card_nonneg p ->
  card_nonneg (optionally f o p).
Proof. intros Hf Ho Hp. destruct o as [v|]; [|done]. exact (Hf v p (Ho v eq_refl) Hp). Qed.

Lemma positive_nonneg x : fltb f0 x = true -> nonneg x.
Proof. by destruct x as [[]|[]| |[] m e]. Qed.
Lemma not_positive_nonneg x : fleb x f0 = false -> nonneg x.
Proof. by destruct x as [[]|[]| |[] m e]. Qed.

Lemma tier_override_nn a b v : nonneg v -> nonneg (channelTierOverridePrice a b v).
Proof.
  intros Hv. unfold channelTierOverridePrice. destruct (fltb f0 a) eqn:Ea, (fltb f0 b) eqn:Eb; try exact I. cbn [andb].
  apply fmul_nonneg; [done|]. apply fdiv_nonneg; [by apply positive_nonneg..|]. intros ->. done.
Qed.
#[export] Hint Resolve tier_override_nn : card.

Lemma override_input_nn v p : nonneg v -> card_nonneg p -> card_nonneg (override_input v p).
Proof. intros Hv Hp. unfold override_input. auto 6 with card. Qed.
Lemma override_output_nn v p : nonneg v -> card_nonneg p -> card_nonneg (override_output v p).
Proof. intros Hv Hp. unfold override_output. auto 6 with card. Qed.
Lemma override_cacheRead_nn v p : nonneg v -> card_nonneg p -> card_nonneg (override_cacheRead v p).
Proof. intros Hv Hp. unfold override_cacheRead. auto 6 with card. Qed.
Lemma override_cacheWrite_nn o v p : nonneg v -> card_nonneg p -> card_nonneg (override_cacheWrite v o p).
Proof. intros Hv Hp. unfold override_cacheWrite. destruct o; auto 8 with card. Qed.
Lemma override_cacheWrite1h_nn v p : nonneg v -> card_nonneg p -> card_nonneg (override_cacheWrite1h v p).
Proof. intros Hv Hp. unfold override_cacheWrite1h. auto 6 with card. Qed.
#[export] Hint Resolve override_input_nn override_output_nn override_cacheRead_nn override_cacheWrite_nn override_cacheWrite1h_nn
  optionally_nn : card.

Lemma scale_nn m get set p : (forall v q, nonneg v -> card_nonneg q -> card_nonneg (set v q)) -> nonneg m -> nonneg (get p) -> card_nonneg p ->
  card_nonneg (scale m get set p).
Proof. intros H Hm Hg Hp. unfold scale. apply H; [by apply fmul_nonneg|done]. Qed.
#[export] Hint Resolve scale_nn : card.

Lemma scale_input_nn m p : nonneg m -> card_nonneg p -> card_nonneg (scale_input m p).
Proof. intros Hm Hp. unfold scale_input. auto 8 with card. Qed.
Lemma scale_output_nn m p : nonneg m -> card_nonneg p -> card_nonneg (scale_output m p).
Proof. intros Hm Hp. unfold scale_output. auto 8 with card. Qed.
Lemma scale_cacheRead_nn m p : nonneg m -> card_nonneg p -> card_nonneg (scale_cacheRead m p).
Proof. intros Hm Hp. unfold scale_cacheRead. auto 8 with card. Qed.
Lemma scale_cacheWrite_nn m p : nonneg m -> card_nonneg p -> card_nonneg (scale_cacheWrite m p).
Proof. intros Hm Hp. unfold scale_cacheWrite. auto 12 with card. Qed.
#[export] Hint Resolve scale_input_nn scale_output_nn scale_cacheRead_nn scale_cacheWrite_nn : card.

(** ** The catalogue *)

Lemma force_deepseek_nn model p : card_nonneg p -> card_nonneg (force_deepseek model p).
Proof.
  intros Hp. unfold force_deepseek. cbv beta zeta.
  assert (Forall nonneg [deepseekProOffPeakInputPrice; deepseekProOffPeakOutputPrice; deepseekProOffPeakCacheRead;
    deepseekFlashOffPeakInputPrice; deepseekFlashOffPeakOutputPrice; deepseekFlashOffPeakCacheRead]) as H
    by (vm_compute; repeat constructor).
  rewrite !Forall_cons in H. destruct (Contains _ _); apply set_read_nn, set_output_nn, set_input_nn; tauto.
Qed.

Lemma fast_ratio_nn p ratio : card_nonneg p -> card_nonneg (enforceOpenAIFastPricingRatio p ratio).
Proof.
  intros Hp. unfold enforceOpenAIFastPricingRatio. destruct (fleb ratio f0) eqn:E; [done|]. cbv zeta.
  apply not_positive_nonneg in E.
  assert (card_nonneg (set_OutputPricePerTokenPriority (fmul (OutputPricePerToken p) ratio)
    (set_InputPricePerTokenPriority (fmul (InputPricePerToken p) ratio) p))) as H1 by auto 6 with card.
  change (OutputPricePerToken (set_InputPricePerTokenPriority _ p)) with (OutputPricePerToken p).
  set (q := set_OutputPricePerTokenPriority _ _) in *. clearbody q.
  repeat match goal with |- context [if ?b then _ else _] => destruct b end; auto 8 with card.
Qed.

Lemma fill_creation_nn p : card_nonneg p -> card_nonneg (fill_cache_creation p).
Proof.
  intros Hp. unfold fill_cache_creation. assert (nonneg (lit "1.25")) by reflexivity.
  repeat match goal with |- context [if ?b then _ else _] => destruct b end; auto 8 with card.
Qed.

Lemma policy_nn model p force : card_nonneg p -> card_nonneg (applyModelSpecificPricingPolicyEx model p force).
Proof.
  intros Hp. unfold applyModelSpecificPricingPolicyEx. destruct (_ && _); [by apply force_deepseek_nn|]. cbv zeta.
  destruct (_ && _ && _); [done|].
  repeat match goal with |- context [if ?b then _ else _] => destruct b end;
    auto using fast_ratio_nn, fill_creation_nn with card.
Qed.

(** A catalogue entry without a negative price. *)
Definition entry_prices_nonneg (l : LiteLLMModelPricing) : Prop :=
  Forall nonneg [InputCostPerToken l; InputCostPerTokenPriority l; OutputCostPerToken l; OutputCostPerTokenPriority l;
    CacheCreationInputTokenCost l; CacheCreationInputTokenCostPriority l; CacheCreationInputTokenCostAbove1hr l;
    CacheReadInputTokenCost l; CacheReadInputTokenCostPriority l; OutputCostPerImageToken l; InputCostPerImageToken l].

Lemma card_of_entry_nn l : entry_prices_nonneg l -> card_nonneg (card_of_entry l).
Proof. unfold entry_prices_nonneg. rewrite !Forall_cons. intros H. constructor; cbn; (done || tauto). Qed.

(** The catalogue's content; the loops only meet entries of the map. *)
Definition catalog_nonneg (catalog : option (gmap string LiteLLMModelPricing * (string -> list (string * LiteLLMModelPricing)))) : Prop :=
  forall data range, catalog = Some (data, range) ->
    (forall k e, data !! k = Some e -> entry_prices_nonneg e) /\
    (forall label k e, (k, e) ∈ range label -> data !! k = Some e).

Section Lookup.
Variable data : gmap string LiteLLMModelPricing.
Variable range : string -> list (string * LiteLLMModelPricing).
Hypothesis data_nn : forall k e, data !! k = Some e -> entry_prices_nonneg e.
Hypothesis range_in : forall label k e, (k, e) ∈ range label -> data !! k = Some e.

Definition yields_nn (o : option LiteLLMModelPricing) : Prop := forall e, o = Some e -> entry_prices_nonneg e.

Lemma yields_or a b : yields_nn a -> yields_nn b -> yields_nn (or_else a b).
Proof. intros Ha Hb e. destruct a; [intros [= <-]; by apply Ha|apply Hb]. Qed.
Lemma yields_get k : yields_nn (data !! k).
Proof. intros e. apply data_nn. Qed.
Lemma yields_first names : yields_nn (lookup_first data names).
Proof. intros e H%head_Some_elem_of. apply list_elem_of_omap in H as (k & _ & H). by eapply data_nn. Qed.
Lemma yields_loop label f : yields_nn (loop range label f).
Proof.
  intros e ([i [k e']] & H & [= <-])%fmap_Some. apply list_find_Some in H as (H%list_elem_of_lookup_2 & _ & _).
  by eapply data_nn, range_in.
Qed.
Lemma yields_patterns l : yields_nn (first_pattern range l).
Proof. induction l; [done|]. by apply yields_or; [apply yields_loop|]. Qed.
Lemma yields_if (b : bool) x y : yields_nn x -> yields_nn y -> yields_nn (if b then x else y).
Proof. by destruct b. Qed.
Lemma yields_static l : entry_prices_nonneg l -> yields_nn (Some l).
Proof. by intros ? e [= <-]. Qed.
Lemma yields_none : yields_nn None.
Proof. done. Qed.

Lemma statics_nn : Forall entry_prices_nonneg [openAIGPT54FallbackPricing; openAIGPT6AstraFallbackPricing; openAIGPT56SolFallbackPricing;
  openAIGPT56TerraFallbackPricing; openAIGPT56LunaFallbackPricing; openAIGPT54MiniFallbackPricing; openAIGPT54NanoFallbackPricing].
Proof. vm_compute. repeat constructor. Qed.

Ltac yields_step := match goal with
  | |- yields_nn (or_else _ _) => apply yields_or
  | |- yields_nn (if _ then _ else _) => apply yields_if
  | |- yields_nn (lookup_first _ _) => apply yields_first
  | |- yields_nn (_ !! _) => apply yields_get
  | |- yields_nn None => apply yields_none
  | |- yields_nn (Some ?l) => apply yields_static; exact (proj1 (List.Forall_forall _ _) statics_nn l ltac:(cbn; tauto))
  end.

Lemma catalog_yields model : yields_nn (catalog_GetModelPricing data range model).
Proof.
  unfold catalog_GetModelPricing. apply yields_if; [apply yields_none|]. cbv zeta.
  apply yields_or; [|apply yields_or].
  - unfold lookupIdentifiedModelPricingLocked. destruct (buildModelLookupCandidates _); [apply yields_none|].
    apply yields_or; [apply yields_first|]. apply yields_or; [apply yields_first|apply yields_loop].
  - unfold matchByModelFamily. destruct (family_of _); [apply yields_patterns|apply yields_none].
  - unfold matchOpenAIModel. cbv beta zeta. repeat yields_step.
Qed.
End Lookup.

Lemma GetModelPricing_nn catalog model p : catalog_nonneg catalog -> GetModelPricing catalog model = Some p -> card_nonneg p.
Proof.
  intros Hc. unfold GetModelPricing, applyModelSpecificPricingPolicy. destruct (catalog ≫= _) as [e|] eqn:E.
  - intros [= <-]. apply policy_nn, card_of_entry_nn. destruct catalog as [[data range]|]; [|done].
    destruct (Hc data range eq_refl) as [H1 H2]. cbn in E. unfold priced in E.
    destruct (catalog_GetModelPricing data range (ToLower model)) as [e'|] eqn:E'; [|done].
    destruct (TokenPricingAbsent e'); [done|]. injection E as <-. by apply (catalog_yields data range H1 H2 _ _ E').
  - intros (q & Hq & ->)%fmap_Some. apply policy_nn. by eapply fallback_nonneg.
Qed.

(** ** Accepted entries *)

Definition interval_nonneg (iv : PricingInterval) : Prop :=
  Forall opt_nonneg [iv_InputPrice iv; iv_OutputPrice iv; iv_CacheWritePrice iv; iv_CacheWrite1hPrice iv; iv_CacheReadPrice iv;
    iv_PerRequestPrice iv; iv_InputMultiplier iv; iv_OutputMultiplier iv; iv_CacheWriteMultiplier iv; iv_CacheReadMultiplier iv].

Definition entry_nonneg (c : ChannelModelPricing) : Prop :=
  Forall opt_nonneg [cp_InputPrice c; cp_OutputPrice c; cp_CacheWritePrice c; cp_CacheWrite1hPrice c; cp_CacheReadPrice c;
    cp_ImageInputPrice c; cp_ImageOutputPrice c; cp_PerRequestPrice c; cp_FastMultiplier c; cp_FlexMultiplier c] /\
  Forall interval_nonneg (cp_Intervals c).

Lemma not_negative l : existsb negative l = false -> Forall opt_nonneg l.
Proof.
  intros H. apply Forall_forall. intros o Ho v ->. apply fltb_nonneg, not_true_iff_false. intros F.
  apply not_true_iff_false in H. apply H, existsb_exists. exists (Some v). split; [by apply list_elem_of_In|done].
Qed.
Lemma all_positive l : existsb not_positive l = false -> Forall opt_nonneg l.
Proof.
  intros H. apply Forall_forall. intros o Ho v ->. apply not_positive_nonneg, not_true_iff_false. intros F.
  apply not_true_iff_false in H. apply H, existsb_exists. exists (Some v). split; [by apply list_elem_of_In|done].
Qed.

Lemma interval_prices_nn iv : validateIntervalPrices iv = None -> interval_nonneg iv.
Proof.
  unfold validateIntervalPrices. destruct (existsb negative _) eqn:E1; [done|]. destruct (existsb not_positive _) eqn:E2; [done|].
  intros _. apply not_negative in E1. apply all_positive in E2. unfold interval_nonneg. rewrite !Forall_cons in *. tauto.
Qed.

(** Every entry of an accepted configuration. *)
Lemma accepted_entries tzdb l : validatePricingEntries tzdb l = None -> Forall entry_nonneg l.
Proof.
  unfold validatePricingEntries. intros (_ & (Hi & (Hm & _)%and_then_None)%and_then_None)%and_then_None.
  apply config_first_error_None in Hi, Hm. rewrite Forall_forall in *. intros c Hc.
  specialize (Hi c Hc). specialize (Hm c Hc). cbn in Hm. apply and_then_None in Hm as [_ [Hp _]%and_then_None].
  split.
  - unfold checkPricesNotNegative in Hp. destruct (existsb negative _) eqn:E1; [done|].
    destruct (existsb not_positive _) eqn:E2; [done|]. apply not_negative in E1. apply all_positive in E2.
    rewrite !Forall_cons in *. tauto.
  - apply validated_intervals in Hi. eapply Forall_impl; [exact Hi|]. intros iv (_ & _ & H)%single_interval_None.
    by apply interval_prices_nn.
Qed.

Lemma default_nn o : opt_nonneg o -> nonneg (default f0 o).
Proof. destruct o as [v|]; intros H; [by apply H|exact I]. Qed.

Ltac entry_facts H := unfold entry_nonneg, interval_nonneg in H; rewrite !Forall_cons in H; decompose [and] H; clear H.

Lemma overrides_nn p c : entry_nonneg c -> card_nonneg p -> card_nonneg (applyChannelTokenPriceOverrides p c).
Proof.
  intros H Hp. entry_facts H. unfold applyChannelTokenPriceOverrides. cbv zeta.
  repeat (apply optionally_nn; [auto with card|done|]). done.
Qed.

Lemma image_input_nn c p : entry_nonneg c -> card_nonneg p -> card_nonneg (applyChannelImageInputPrice (Some c) p).
Proof. intros H Hp. entry_facts H. unfold applyChannelImageInputPrice. cbn. auto using default_nn with card. Qed.

Lemma extras_nn c p : entry_nonneg c -> card_nonneg p -> card_nonneg (channel_extras c p).
Proof.
  intros H Hp. unfold channel_extras. cbv zeta. apply image_input_nn; [done|]. entry_facts H.
  apply set_imageExplicit_nn, set_imageOut_nn; [by apply default_nn|].
  destruct (cp_MaxReasoningEffortMultiplier c); auto 6 with card.
Qed.

Lemma override_or_scale_nn price mult ov sc p :
  (forall v q, nonneg v -> card_nonneg q -> card_nonneg (ov v q)) -> (forall v q, nonneg v -> card_nonneg q -> card_nonneg (sc v q)) ->
  opt_nonneg price -> opt_nonneg mult -> card_nonneg p -> card_nonneg (override_or_scale price mult ov sc p).
Proof. intros H1 H2 Hp Hm Hc. destruct price as [v|]; cbn; [by apply H1; [apply Hp|]|]. by apply optionally_nn. Qed.

Lemma no_pricing_nn : card_nonneg no_pricing.
Proof. constructor; done. Qed.

Definition base_nonneg (o : option ModelPricing) : Prop := forall p, o = Some p -> card_nonneg p.
Lemma base_default_nn o : base_nonneg o -> card_nonneg (default no_pricing o).
Proof. destruct o as [p|]; intros H; [by apply H|exact no_pricing_nn]. Qed.

Lemma interval_card_nn iv base c : interval_nonneg iv -> base_nonneg base -> (forall c', c = Some c' -> entry_nonneg c') ->
  card_nonneg (intervalToModelPricing iv base c).
Proof.
  intros H Hb Hc. unfold intervalToModelPricing. cbv zeta. entry_facts H.
  set (p := override_or_scale (iv_CacheReadPrice iv) _ _ _ _). assert (card_nonneg p) as Hp.
  { apply base_default_nn in Hb. unfold p.
    repeat first [apply override_or_scale_nn; [auto with card|auto with card|done|done|]|apply optionally_nn; [auto with card|done|]]. done. }
  clearbody p. destruct c as [c|]; [|done]. specialize (Hc c eq_refl). apply image_input_nn; [done|].
  assert (opt_nonneg (cp_ImageOutputPrice c)) as Ho by (entry_facts Hc; done).
  destruct (cp_ImageOutputPrice c) as [v|]; [apply set_imageOut_nn; [by apply Ho|]|]; by apply set_imageExplicit_nn.
Qed.

(** ** The resolver *)

Record resolved_nonneg (r : ResolvedPricing) : Prop := {
  rn_base : base_nonneg (rp_BasePricing r);
  rn_intervals : Forall interval_nonneg (rp_Intervals r);
  rn_tiers : Forall interval_nonneg (rp_RequestTiers r);
  rn_default : nonneg (rp_DefaultPerRequestPrice r);
  rn_channel : forall c, rp_channelPricing r = Some c -> entry_nonneg c;
}.

Lemma filter_valid_nn l : Forall interval_nonneg l -> Forall interval_nonneg (filterValidIntervals l).
Proof. rewrite !Forall_forall. intros H iv [_ Hin]%list_elem_of_filter. by apply H. Qed.

Lemma per_request_price_nn c d : entry_nonneg c -> nonneg d -> nonneg (default d (cp_PerRequestPrice c)).
Proof. intros H Hd. assert (opt_nonneg (cp_PerRequestPrice c)) as Ho by (entry_facts H; done). destruct (cp_PerRequestPrice c); [by apply Ho|done]. Qed.

Lemma tier_overrides_nn c r : entry_nonneg c -> resolved_nonneg r -> resolved_nonneg (applyRequestTierOverrides c r).
Proof.
  intros Hc [H1 H2 H3 H4 H5]. split; cbn; [done|done| | |done].
  - apply filter_valid_nn. by destruct Hc.
  - by apply per_request_price_nn.
Qed.

Lemma token_overrides_nn c r : entry_nonneg c -> resolved_nonneg r -> resolved_nonneg (applyTokenOverrides c r).
Proof.
  intros Hc [H1 H2 H3 H4 H5]. split; cbn; [|apply filter_valid_nn; by destruct Hc|done|done|done].
  intros p [= <-]. apply extras_nn; [done|]. pose proof (overrides_nn _ _ Hc (base_default_nn _ H1)).
  destruct (_ || _); auto with card.
Qed.

Lemma strip_intervals_nn c : entry_nonneg c -> entry_nonneg (strip_intervals c).
Proof. intros [H _]. split; [exact H|constructor]. Qed.

Section Resolution.
Variable catalog : option (gmap string LiteLLMModelPricing * (string -> list (string * LiteLLMModelPricing))).
Variable channels : option (Z -> string -> option ChannelModelPricing).
Hypothesis catalog_ok : catalog_nonneg catalog.
Hypothesis channels_ok : forall lookup gid model c, channels = Some lookup -> lookup gid model = Some c -> entry_nonneg c.

Lemma base_nn model : base_nonneg (resolveBasePricing catalog model).1.
Proof.
  unfold resolveBasePricing. destruct (GetModelPricing catalog model) eqn:E; [|done].
  intros p [= <-]. by apply (GetModelPricing_nn catalog model).
Qed.

Lemma plain_nn mode base source b c long : base_nonneg base -> (forall c', c = Some c' -> entry_nonneg c') ->
  resolved_nonneg (mkResolved mode base [] [] f0 source b c long).
Proof. by split. Qed.

Lemma configured_nn c model source long : entry_nonneg c ->
  resolved_nonneg (resolveConfiguredPricing catalog c model source long).
Proof.
  intros Hc. unfold resolveConfiguredPricing. cbv zeta. assert (forall c', Some c = Some c' -> entry_nonneg c') by naive_solver.
  pose proof (base_nn model) as Hb. destruct (resolveBasePricing catalog model) as [base src].
  destruct (per_unit_mode _); [apply tier_overrides_nn|apply token_overrides_nn]; auto using plain_nn.
  apply plain_nn; done.
Qed.

Lemma channel_lookup_nn gid model c : lookupChannelPricingNormalized channels gid model = Some c -> entry_nonneg c.
Proof.
  unfold lookupChannelPricingNormalized. destruct channels as [lookup|] eqn:Ec; cbn; [|done].
  destruct (lookup gid model) eqn:E; [intros [= <-]; by eapply channels_ok|].
  destruct (normalizeKnownOpenAICodexModel model); [|done]. destruct (_ || _); [done|]. by apply channels_ok.
Qed.

Lemma match_entries_in model w l c : match_entries model w l = Some c -> w = Some c \/ c ∈ l.*1.
Proof.
  revert w. induction l as [|[e pat] l IH]; intros w; cbn; [by left|]. destruct (_ ==? _); [intros [= ->]; right; constructor|].
  intros [H|H]%IH; [|right; by constructor]. destruct w; [by left|]. destruct (group_pattern _ _); [|done].
  right. injection H as ->. constructor.
Qed.

Lemma group_match_nn g model c : (forall g', g = Some g' -> Forall entry_nonneg (pg_ModelPricing g')) ->
  matchGroupModelPricing g model = Some c -> entry_nonneg c.
Proof.
  intros H. destruct g as [g|]; [|done]. unfold matchGroupModelPricing. cbn. intros [?|Hin]%match_entries_in; [done|].
  specialize (H g eq_refl). rewrite Forall_forall in H. apply H.
  apply list_elem_of_fmap in Hin as ([e pat] & -> & Hin). apply list_elem_of_bind in Hin as (x & Hx & Hl).
  by apply list_elem_of_fmap in Hx as (y & [= -> ->] & _).
Qed.

Lemma Resolve_nn model gid g : (forall g', g = Some g' -> Forall entry_nonneg (pg_ModelPricing g')) ->
  resolved_nonneg (Resolve catalog channels model gid g).
Proof.
  intros Hg. unfold Resolve. cbv zeta. destruct (matchGroupModelPricing g model) as [c|] eqn:E.
  - apply (group_match_nn g model c Hg) in E. apply configured_nn. destruct (_ || _); auto using strip_intervals_nn.
  - destruct (gid ≫= _) as [c|] eqn:Ec.
    + apply bind_Some in Ec as (id & -> & Ec). apply channel_lookup_nn in Ec.
      pose proof (base_nn model) as Hb. destruct (resolveBasePricing catalog model) as [base src].
      assert (forall c', Some c = Some c' -> entry_nonneg c') by naive_solver.
      destruct (per_unit_mode _); [apply tier_overrides_nn|apply token_overrides_nn]; try done; by apply plain_nn.
    + pose proof (base_nn model) as Hb. destruct (resolveBasePricing catalog model) as [base src]. by apply plain_nn.
Qed.
End Resolution.

(** ** The charge *)

Lemma apply_multiplier_nn c m : cost_nonneg c -> nonneg m -> cost_nonneg (applyCostBreakdownMultiplier c m).
Proof. intros [] Hm. unfold applyCostBreakdownMultiplier. destruct (feqb m f1); split; cbn; auto using fmul_nonneg. Qed.

Lemma with_mode_nn m c : cost_nonneg c -> cost_nonneg (with_mode m c).
Proof. by intros []. Qed.

Lemma effort_multiplier_nn model effort p : nonneg (maxReasoningEffortBillingMultiplier model effort p).
Proof.
  unfold maxReasoningEffortBillingMultiplier. destruct (_ !=? _); [reflexivity|].
  assert (nonneg (default f1 (defaultMaxReasoningEffortMultiplier model))) as Hd.
  { unfold defaultMaxReasoningEffortMultiplier. by destruct (isClaudeFable51Model model). }
  destruct (p ≫= MaxReasoningEffortMultiplier) as [m|]; cbn; [|done]. destruct (fltb f0 m) eqn:E; [by apply positive_nonneg|done].
Qed.

Section Charge.
Variable tzdb : string -> option Location.
Variable now : time.

Lemma time_multiplier_nn r at_ : nonneg (resolvedChannelTimeMultiplier tzdb r at_).
Proof.
  unfold resolvedChannelTimeMultiplier. destruct (_ !=? _); [reflexivity|]. destruct (rp_channelPricing r) as [c|]; [|reflexivity].
  destruct (multiplier_at_cases tzdb (cp_TimePricing c) at_) as [-> |H]; [reflexivity|].
  apply positive_nonneg. by destruct (multiplier_ok_positive _ H).
Qed.

Lemma interval_pricing_nn r n : resolved_nonneg r -> base_nonneg (GetIntervalPricing r n).
Proof.
  intros H. unfold GetIntervalPricing, FindMatchingInterval. destruct (list_find _ _) as [[i iv]|] eqn:E; cbn; [|by apply rn_base].
  intros p [= <-]. apply set_breakdown_nn, interval_card_nn; [|by apply rn_base|by apply rn_channel].
  apply list_find_Some in E as (Hi & _ & _). by apply (Forall_lookup_1 _ _ _ _ (rn_intervals r H) Hi).
Qed.

Lemma peak_nn at_ : nonneg (deepseekPeakMultiplierAt at_).
Proof. unfold deepseekPeakMultiplierAt. cbv zeta. destruct (_ || _); [reflexivity|]. by destruct (_ || _). Qed.

Lemma token_card_nn r i : resolved_nonneg r -> base_nonneg (token_card now r i).
Proof.
  intros H. unfold token_card. cbv zeta.
  destruct (GetIntervalPricing r _) as [p|] eqn:E; [|done]. apply (interval_pricing_nn r _ H) in E. intros q [= <-].
  apply (policy_nn (ci_Model i) _ (rp_Source r ==? PricingSourceLiteLLM)) in E.
  set (p' := applyModelSpecificPricingPolicyEx _ _ _) in *. clearbody p'.
  destruct (_ && _); [|done]. set (m := deepseekPeakMultiplierAt _). assert (nonneg m) by apply peak_nn. clearbody m.
  destruct (fltb f1 m); auto 10 with card.
Qed.

Lemma token_cost_nn r i b : resolved_nonneg r -> tokens_ok (ci_Tokens i) ->
  calculateTokenCost tzdb now r i = Some b -> cost_nonneg b.
Proof.
  intros H Ht. unfold calculateTokenCost. cbv zeta. destruct (token_card now r i) as [p|] eqn:E; [|done].
  apply token_card_nn in E; [|done]. intros [= <-]. apply apply_multiplier_nn; [|apply effort_multiplier_nn].
  apply apply_multiplier_nn; [by apply token_breakdown_nonneg|apply time_multiplier_nn].
Qed.

Lemma tier_price_nn l (f : PricingInterval -> option f64) : Forall interval_nonneg l ->
  (forall iv v, f iv = Some v -> iv_PerRequestPrice iv = Some v) -> nonneg (default f0 (head (omap f l))).
Proof.
  intros Hl Hf. apply default_nn. intros v Hv. apply head_Some_elem_of, list_elem_of_omap in Hv as (iv & Hiv & Hv%Hf).
  rewrite Forall_forall in Hl. specialize (Hl iv Hiv). entry_facts Hl. auto.
Qed.

Lemma per_request_nn r i : resolved_nonneg r -> nonneg (ci_RateMultiplier i) -> cost_nonneg (calculatePerRequestCost r i).
Proof.
  intros H Hr. unfold calculatePerRequestCost. cbv zeta. set (u := per_request_unit r i).
  assert (nonneg u) as Hu.
  { unfold u, per_request_unit. cbv zeta.
    assert (nonneg (GetRequestTierPrice r (ci_SizeTier i))) as H1.
    { apply tier_price_nn; [by apply rn_tiers|]. intros iv v. by destruct (_ ==? _). }
    assert (nonneg (GetRequestTierPriceByContext r (total_context (ci_Tokens i)))) as H2.
    { apply default_nn. intros v (iv & E & Hv)%bind_Some. unfold FindMatchingInterval in E.
      apply fmap_Some in E as ([j iv'] & E & ->). apply list_find_Some in E as (Hj & _ & _).
      pose proof (Forall_lookup_1 _ _ _ _ (rn_tiers r H) Hj) as Hiv. entry_facts Hiv. auto. }
    pose proof (rn_default r H) as H3. set (a := if ci_SizeTier i !=? "" then _ else f0).
    assert (nonneg a) by (unfold a; by destruct (ci_SizeTier i !=? "")). clearbody a.
    set (b := if feqb a f0 then _ else a). assert (nonneg b) by (unfold b; by destruct (feqb a f0)).
    by destruct (feqb b f0). }
  set (n := if fleb (ci_UsageUnits i) f0 then _ else _). assert (nonneg n) as Hn.
  { unfold n. destruct (fleb (ci_UsageUnits i) f0) eqn:E; [|by apply not_positive_nonneg].
    apply f64_of_Z_nonneg. destruct (Z.leb_spec (ci_RequestCount i) 0); lia. }
  clearbody u n. split; cbn; auto using fmul_nonneg; exact I.
Qed.
End Charge.

(** C18: nothing is ever charged below zero.  The entries of the channels and of the
    group went through validation, the catalogue's prices are not negative and
    the reported token counts are in range: then whatever the model, the
    platform, the rate multiplier, the service tier, the effort, the hour and
    the billing mode, a computed cost has no negative component. *)
Theorem accepted_charges_nonneg catalog chs gps ctx tzdb now resolver i b :
  catalog_nonneg catalog ->
  (forall ch, ch ∈ chs -> validatePricingEntries tzdb (ch_ModelPricing ch) = None) ->
  (forall g, ci_Group i = Some g -> validatePricingEntries tzdb (pg_ModelPricing g) = None) ->
  tokens_ok (ci_Tokens i) ->
  CalculateCostUnified catalog (Some (GetChannelModelPricing (Some (populateChannelCache chs gps)) ctx)) tzdb now resolver None i
    = Some b -> cost_nonneg b.
Proof.
  intros Hcat Hchs Hg Ht. unfold CalculateCostUnified. destruct resolver; cbn [negb].
  - intros (c & Hc & ->)%fmap_Some. apply with_mode_nn. cbn [default] in Hc. revert Hc. set (r := Resolve _ _ _ _ _).
    assert (resolved_nonneg r) as Hr.
    { apply Resolve_nn; [done| |intros g Eg; by eapply accepted_entries, Hg].
      intros lookup gid model e [= <-] He. unfold GetChannelModelPricing in He. cbn in He.
      apply bind_Some in He as ([ch pf] & _ & He). apply lookup_configured in He as (ch' & Hin & _ & He).
      pose proof (accepted_entries _ _ (Hchs ch' Hin)) as Hall. rewrite Forall_forall in Hall. by apply Hall. }
    destruct (per_unit_mode (rp_Mode r)).
    + intros [= <-]. apply per_request_nn; [done|]. apply clamp_rate_nonneg.
    + by apply token_cost_nn.
  - intros (c & Hc & ->)%fmap_Some. apply apply_multiplier_nn; [|apply effort_multiplier_nn].
    unfold calculateCostInternalWithPolicy, GetModelPricingWithChannel in Hc. apply fmap_Some in Hc as (p & Hp & ->).
    destruct (GetModelPricing catalog (ci_Model i)) eqn:E; [|done]. injection Hp as <-.
    apply token_breakdown_nonneg; [by apply (GetModelPricing_nn catalog (ci_Model i))|done].
Qed.

Definition fx_input (model : string) : CostInput :=
  mkInput model (Some 7) None fx_tokens 1 f0 "" (f64_of_Z (-2)) (Date UTC 2026 1 5 2 0 0) "priority" "max" None.

Lemma fx_channel_accepted tzdb : validatePricingEntries tzdb (ch_ModelPricing fx_channel) = None.
Proof. vm_compute. reflexivity. Qed.

Lemma accepted_charges_nonneg_witness : exists b,
  CalculateCostUnified None (Some (GetChannelModelPricing (Some (populateChannelCache [fx_channel] {[7 := "anthropic"]})) fx_ctx))
    (fun _ => None) zero_time true None (fx_input "claude-opus-4-5") = Some b /\ cost_nonneg b.
Proof.
  destruct (CalculateCostUnified _ _ _ _ _ _ _) as [b|] eqn:E; [|exfalso; by vm_compute in E].
  exists b. split; [done|]. apply (accepted_charges_nonneg None [fx_channel] {[7 := "anthropic"]} fx_ctx (fun _ => None) zero_time true
    (fx_input "claude-opus-4-5")); [done| |done|exact fx_tokens_ok|exact E].
  intros ch ->%list_elem_of_singleton. apply fx_channel_accepted.
Defined.
