(* ===== verification/ModelAvailability.v ===== *)
(** * Which models an account serves now: model_rate_limit.go,
    antigravity_quota_scope.go, the model checks of gateway_scheduling.go and
    the Bedrock and Vertex model identifiers

    The keys under which a request for a model is rate limited, the limits
    stored under [Extra["model_rate_limits"]], and whether an account supports
    a model at all.  A reading of the clock is an argument. *)

From S2P Require Import Prelude GoStrings Float64 GoTime GoAny Account ModelMapping.
Local Open Scope Z_scope.

(** What these functions read of the request's context; the two strings are
    raw, before [TrimSpace]. *)
Record ModelCtx := mkModelCtx {
  ThinkingEnabled : option bool;
  CompositeRouteSource : option string;
  RequestedPublicModel : option string;
  OpenAIImageGenerationIntent : bool;
}.

(** [context.Background()]. *)
Definition Background : ModelCtx := mkModelCtx None None None false.

Definition trimmed_value (v : option string) : option string :=
  v ← v; let t := TrimSpace v in if t ==? "" then None else Some t.

Definition CompositeRouteSourceFromContext (c : ModelCtx) : option string :=
  trimmed_value (CompositeRouteSource c).
Definition RequestedPublicModelFromContext (c : ModelCtx) : option string :=
  trimmed_value (RequestedPublicModel c).

Definition CompositeRouteSourceAccount := "account_model".
Definition AccountTypeServiceAccount := "service_account".

(** ** Names *)

Definition normalizeAntigravityModelName (model : string) : string :=
  let normalized := ToLower (TrimSpace model) in
  match after_last "/publishers/google/models/" normalized with
  | Some r => r
  | None =>
      match after_last "/publishers/anthropic/models/" normalized with
      | Some r => r
      | None =>
          match after_last "/models/" normalized with
          | Some r => r
          | None => TrimPrefix (TrimPrefix (TrimPrefix normalized "publishers/google/models/")
                      "publishers/anthropic/models/") "models/"
          end
      end
  end.

Definition resolveAntigravityModelKey (requestedModel : string) : string :=
  normalizeAntigravityModelName requestedModel.

Definition isAntigravityGeminiModel (model : string) : bool :=
  HasPrefix (normalizeAntigravityModelName model) "gemini-".

Definition isAnthropicFableModel (model : string) : bool := Contains (ToLower model) "fable".

Definition IsGPTImageGenerationModel (model : string) : bool :=
  HasPrefix (ToLower (TrimSpace model)) "gpt-image-".

Definition isGrokImageGenerationModel (model : string) : bool :=
  let model := ToLower (TrimSpace model) in
  (model ==? "grok-imagine") || (model ==? "grok-imagine-edit")
  || HasPrefix model "grok-imagine-image".

Definition isOpenAIImageGenerationModel (model : string) : bool :=
  IsGPTImageGenerationModel model || isGrokImageGenerationModel model.

Definition openAIImageGenerationRateLimitApplies (c : ModelCtx) (requestedModel modelKey : string)
    : bool :=
  if isOpenAIImageGenerationModel requestedModel || isOpenAIImageGenerationModel modelKey
  then true else OpenAIImageGenerationIntent c.

Definition applyThinkingModelSuffix (mappedModel : string) (thinkingEnabled : bool) : string :=
  if negb thinkingEnabled then mappedModel
  else if mappedModel ==? "claude-sonnet-4-5" then "claude-sonnet-4-5-thinking"
  else mappedModel.

(** ** Claude, Vertex and Bedrock identifiers *)

Definition ModelIDOverrides : mapping := list_to_map
  [("claude-sonnet-4-5", "claude-sonnet-4-5-20250929");
   ("claude-opus-4-5", "claude-opus-4-5-20251101");
   ("claude-haiku-4-5", "claude-haiku-4-5-20251001")].

Definition ModelIDReverseOverrides : mapping := list_to_map
  [("claude-sonnet-4-5-20250929", "claude-sonnet-4-5");
   ("claude-opus-4-5-20251101", "claude-opus-4-5");
   ("claude-haiku-4-5-20251001", "claude-haiku-4-5")].

Definition NormalizeModelID (id : string) : string :=
  if id ==? "" then id else default id (ModelIDOverrides !! id).
Definition DenormalizeModelID (id : string) : string :=
  if id ==? "" then id else default id (ModelIDReverseOverrides !! id).

(** The last nine bytes of [s]: the byte before the eight last ones, the
    eight, and what comes before. *)
Definition dated_tail (s : string) : option (string * ascii * string) :=
  let l := list_ascii_of_string s in
  let n := (length l - 9)%nat in
  match drop n l with
  | sep :: d => if (length d =? 8)%nat
                then Some (string_of_list_ascii (take n l), sep, string_of_list_ascii d) else None
  | [] => None
  end.

(** The patterns [^.+@[0-9]{8}$] and [^(.+)-([0-9]{8})$]; [.] is any byte
    but a newline. *)
Definition dated_with (sep : ascii) (s : string) : option (string * string) :=
  match dated_tail s with
  | Some (p, c, d) =>
      if (c ==? sep) && string_forall is_digit d && (p !=? "")
         && string_forall (fun b => b !=? byte_of 10) p
      then Some (p, d) else None
  | None => None
  end.

Definition normalizeVertexAnthropicModelID (model : string) : string :=
  let model := TrimSpace model in
  if (model ==? "") || (if dated_with "@" model then true else false) then model
  else match dated_with "-" model with
       | Some (p, d) => p +:+ "@" +:+ d
       | None => model
       end.

Definition defaultBedrockRegion := "us-east-1".
Definition bedrockCrossRegionPrefixes : list string :=
  ["us."; "eu."; "apac."; "jp."; "au."; "us-gov."; "global."].

Definition BedrockCrossRegionPrefix (region : string) : string :=
  if HasPrefix region "us-gov" then "us-gov"
  else if HasPrefix region "us-" then "us"
  else if HasPrefix region "eu-" then "eu"
  else if region ==? "ap-northeast-1" then "jp"
  else if region ==? "ap-southeast-2" then "au"
  else if HasPrefix region "ap-" then "apac"
  else if HasPrefix region "ca-" then "us"
  else if HasPrefix region "sa-" then "us"
  else "us".

(** The first cross-region prefix of an identifier, and the rest. *)
Fixpoint region_prefix (ps : list string) (modelID : string) : option (string * string) :=
  match ps with
  | [] => None
  | p :: ps => match strip_prefix p modelID with
               | Some r => Some (p, r)
               | None => region_prefix ps modelID
               end
  end.

Definition AdjustBedrockModelRegionPrefix (modelID region : string) : string :=
  let targetPrefix := if region ==? "global" then "global" else BedrockCrossRegionPrefix region in
  match region_prefix bedrockCrossRegionPrefixes modelID with
  | Some (p, r) => if p ==? targetPrefix +:+ "." then modelID else targetPrefix +:+ "." +:+ r
  | None => modelID
  end.

Definition bedrockRuntimeRegion (a : Account) : string :=
  let region := GetCredential a "aws_region" in
  if region !=? "" then region else defaultBedrockRegion.

Definition shouldForceBedrockGlobal (a : Account) : bool :=
  GetCredential a "aws_force_global" ==? "true".

Definition isRegionalBedrockModelID (modelID : string) : bool :=
  existsb (HasPrefix modelID) bedrockCrossRegionPrefixes.

Definition isLikelyBedrockModelID (modelID : string) : bool :=
  let lower := ToLower (TrimSpace modelID) in
  if lower ==? "" then false
  else if HasPrefix lower "arn:" then true
  else existsb (HasPrefix lower)
         ["anthropic."; "amazon."; "meta."; "mistral."; "cohere."; "ai21."; "deepseek.";
          "stability."; "writer."; "nova."]
       || isRegionalBedrockModelID lower.

Definition DefaultBedrockModelMapping : mapping := list_to_map
  [("claude-fable-5-1", "anthropic.claude-fable-5-1");
   ("claude-fable-5", "anthropic.claude-fable-5");
   ("claude-opus-5", "us.anthropic.claude-opus-5-v1");
   ("claude-opus-4-8", "us.anthropic.claude-opus-4-8-v1");
   ("claude-opus-4-7", "us.anthropic.claude-opus-4-7-v1");
   ("claude-opus-4-6-thinking", "us.anthropic.claude-opus-4-6-v1");
   ("claude-opus-4-6", "us.anthropic.claude-opus-4-6-v1");
   ("claude-opus-4-5-thinking", "us.anthropic.claude-opus-4-5-20251101-v1:0");
   ("claude-opus-4-5-20251101", "us.anthropic.claude-opus-4-5-20251101-v1:0");
   ("claude-opus-4-1", "us.anthropic.claude-opus-4-1-20250805-v1:0");
   ("claude-opus-4-20250514", "us.anthropic.claude-opus-4-20250514-v1:0");
   ("claude-sonnet-5", "us.anthropic.claude-sonnet-5-v1");
   ("claude-sonnet-4-6-thinking", "us.anthropic.claude-sonnet-4-6");
   ("claude-sonnet-4-6", "us.anthropic.claude-sonnet-4-6");
   ("claude-sonnet-4-5", "us.anthropic.claude-sonnet-4-5-20250929-v1:0");
   ("claude-sonnet-4-5-thinking", "us.anthropic.claude-sonnet-4-5-20250929-v1:0");
   ("claude-sonnet-4-5-20250929", "us.anthropic.claude-sonnet-4-5-20250929-v1:0");
   ("claude-sonnet-4-20250514", "us.anthropic.claude-sonnet-4-20250514-v1:0");
   ("claude-haiku-4-5", "us.anthropic.claude-haiku-4-5-20251001-v1:0");
   ("claude-haiku-4-5-20251001", "us.anthropic.claude-haiku-4-5-20251001-v1:0")].

(** The identifier and whether its region is to be adjusted. *)
Definition normalizeBedrockModelID (modelID : string) : option (string * bool) :=
  let modelID := TrimSpace modelID in
  if modelID ==? "" then None
  else match DefaultBedrockModelMapping !! modelID with
       | Some mapped => Some (mapped, true)
       | None => if isRegionalBedrockModelID modelID then Some (modelID, true)
                 else if isLikelyBedrockModelID modelID then Some (modelID, false)
                 else None
       end.

Section Models.
Context (opts : ModelMappingOptions).

Definition ResolveBedrockModelID (a : Account) (requestedModel : string) : option string :=
  match normalizeBedrockModelID (GetMappedModel opts a requestedModel) with
  | None => None
  | Some (modelID, shouldAdjustRegion) =>
      Some (if shouldAdjustRegion
            then AdjustBedrockModelRegionPrefix modelID
                   (if shouldForceBedrockGlobal a then "global" else bedrockRuntimeRegion a)
            else modelID)
  end.

(** ** Support *)

Definition mapAntigravityModel (a : Account) (requestedModel : string) : string :=
  let requestedModel := TrimPrefix requestedModel "models/" in
  if bool_decide (mapping_or_empty (GetModelMapping opts a) = ∅) then ""
  else
    let mapped := GetMappedModel opts a requestedModel in
    if mapped !=? requestedModel then mapped
    else if IsModelSupported opts a requestedModel then requestedModel
    else "".

Definition explicitModelMappingClaims (a : Account) (model : string) : bool :=
  match Credentials a with
  | None => false
  | Some _ =>
      if model ==? "" then false
      else match mapping_or_empty (stringMappingFromRaw (index_key (Credentials a) "model_mapping"))
                   !! model with
           | Some mapped => TrimSpace mapped !=? ""
           | None => false
           end
  end.

Definition isModelSupportedByAccount (a : Account) (requestedModel : string) : bool :=
  if Platform a ==? PlatformAntigravity then
    if TrimSpace requestedModel ==? "" then true
    else mapAntigravityModel a requestedModel !=? ""
  else if IsBedrock a then
    match ResolveBedrockModelID a requestedModel with Some _ => true | None => false end
  else if (Platform a ==? PlatformOpenAI) && IsOpenAIPassthroughEnabled a then true
  else
    let requestedModel :=
      if (Platform a ==? PlatformAnthropic) && (AType a !=? AccountTypeAPIKey) then
        if AType a ==? AccountTypeServiceAccount
        then normalizeVertexAnthropicModelID (NormalizeModelID requestedModel)
        else NormalizeModelID requestedModel
      else requestedModel in
    IsModelSupported opts a requestedModel.

Definition isModelSupportedByAccountWithContext (c : ModelCtx) (a : Account)
    (requestedModel : string) : bool :=
  let foreign :=
    match CompositeRouteSourceFromContext c, RequestedPublicModelFromContext c with
    | Some source, Some publicModel =>
        (source ==? CompositeRouteSourceAccount) && negb (explicitModelMappingClaims a publicModel)
    | _, _ => false
    end in
  if foreign then false
  else if Platform a ==? PlatformAntigravity then
    if TrimSpace requestedModel ==? "" then true
    else
      let mapped := mapAntigravityModel a requestedModel in
      if mapped ==? "" then false
      else match ThinkingEnabled c with
           | Some enabled =>
               let finalModel := applyThinkingModelSuffix mapped enabled in
               if finalModel ==? mapped then true else IsModelSupported opts a finalModel
           | None => true
           end
  else isModelSupportedByAccount a requestedModel.

(** ** Rate limits per model *)

Definition modelRateLimitsKey := "model_rate_limits".
Definition antigravityGeminiModelRateLimitKey := "antigravity:gemini".
Definition openAIImageGenerationRateLimitKey := "openai:image_generation".
Definition anthropicFableRateLimitKey := "claude-fable-5".
Definition creditsExhaustedKey := "AICredits".

Definition resolveFinalAntigravityModelKey (c : ModelCtx) (a : Account) (requestedModel : string)
    : string :=
  let modelKey := mapAntigravityModel a requestedModel in
  if modelKey ==? "" then ""
  else match ThinkingEnabled c with
       | Some enabled => applyThinkingModelSuffix modelKey enabled
       | None => modelKey
       end.

Definition antigravityModelRateLimitKeys (model : string) : list string :=
  let model := TrimSpace model in
  if model ==? "" then []
  else model :: (if isAntigravityGeminiModel model && (model !=? antigravityGeminiModelRateLimitKey)
                 then [antigravityGeminiModelRateLimitKey] else []).

Definition modelRateLimitKeysForRequest (c : ModelCtx) (a : Account) (requestedModel : string)
    : list string :=
  let modelKey := if Platform a ==? PlatformAntigravity
                  then resolveFinalAntigravityModelKey c a requestedModel
                  else GetMappedModel opts a requestedModel in
  let modelKey := TrimSpace modelKey in
  if modelKey ==? "" then []
  else
    modelKey ::
    (if Platform a ==? PlatformAntigravity then
       if isAntigravityGeminiModel modelKey && (modelKey !=? antigravityGeminiModelRateLimitKey)
       then [antigravityGeminiModelRateLimitKey] else []
     else if Platform a ==? PlatformOpenAI then
       if openAIImageGenerationRateLimitApplies c requestedModel modelKey
          && (modelKey !=? openAIImageGenerationRateLimitKey)
       then [openAIImageGenerationRateLimitKey] else []
     else if Platform a ==? PlatformAnthropic then
       if isAnthropicFableModel modelKey && (modelKey !=? anthropicFableRateLimitKey)
       then [anthropicFableRateLimitKey] else []
     else []).

Definition modelRateLimitResetAt (a : Account) (scope : string) : option time :=
  if scope ==? "" then None
  else
    rawLimits ← as_map (index_key (Extra a) modelRateLimitsKey);
    rawLimit ← as_map (default ANil (rawLimits !! scope));
    resetAtRaw ← as_string (default ANil (rawLimit !! "rate_limit_reset_at"));
    if TrimSpace resetAtRaw ==? "" then None else ParseRFC3339 resetAtRaw.

Definition isRateLimitActiveForKey (now : time) (a : Account) (key : string) : bool :=
  match modelRateLimitResetAt a key with Some resetAt => Before now resetAt | None => false end.

Definition getRateLimitRemainingForKey (now : time) (a : Account) (key : string) : duration :=
  match modelRateLimitResetAt a key with
  | None => 0
  | Some resetAt => let remaining := Sub resetAt now in if 0 <? remaining then remaining else 0
  end.

Definition isCreditsExhausted (now : time) (a : Account) : bool :=
  isRateLimitActiveForKey now a creditsExhaustedKey.

(** [setAccountModelRateLimitSnapshot]: the account's copy of a limit. *)
Definition setAccountModelRateLimitSnapshot (a : Account) (scope : string) (resetAt : time)
    (reason : string) (now : time) : Account :=
  if TrimSpace scope ==? "" then a
  else
    let extra := default ∅ (Extra a) in
    let limits := default ∅ (as_map (default ANil (extra !! modelRateLimitsKey))) in
    let payload : gmap string any :=
      {[ "rate_limited_at" := AString (FormatRFC3339 now);
         "rate_limit_reset_at" := AString (FormatRFC3339 resetAt) ]} in
    let reason := TrimSpace reason in
    let payload := if reason !=? "" then <["reason" := AString reason]> payload else payload in
    mkAccount (ID a) (Platform a) (AType a) (Credentials a)
      (Some (<[modelRateLimitsKey := AMap (<[scope := AMap payload]> limits)]> extra))
      (Concurrency a) (Priority a) (RateMultiplier a) (LoadFactor a) (Status a) (ExpiresAt a)
      (AutoPauseOnExpired a) (Schedulable a) (RateLimitResetAt a) (OverloadUntil a)
      (TempUnschedulableUntil a) (SessionWindowStart a) (SessionWindowEnd a)
      (ParentAccountID a) (QuotaDimension a) (LastUsedAt a) (AccountGroups a).

End Models.
