(* ===== verification/GroupRouting.v ===== *)
(** * Groups as the scheduler sees them: internal/service/group.go and the
    profit gate of openai_profit_control.go and gateway_profit_control.go

    Model routing rules, peak windows and the profit-control settings of a
    group, and the gate that keeps accounts whose upstream rate leaves too
    little margin out of the candidates. *)

From S2P Require Import Prelude GoStrings Float64 GoTime Account.
Local Open Scope Z_scope.

(** A group; [ModelRouting] lists the rules in the order a [range] over the
    map visits them.  [Platform] of a group is [GPlatform], as [Account] has a
    field of that name. *)
Record Group := mkGroup {
  GID : Z;
  GPlatform : string;
  GStatus : string;
  Hydrated : bool;
  SubscriptionType : string;
  GRateMultiplier : f64;
  ClaudeCodeOnly : bool;
  FallbackGroupID : option Z;
  ModelRoutingEnabled : bool;
  ModelRouting : list (string * list Z);
  RequirePrivacySet : bool;
  PeakRateEnabled : bool;
  PeakStart : string;
  PeakEnd : string;
  PeakRateMultiplier : f64;
  ProfitControlEnabled : bool;
  ProfitMinMargin : f64;
  ProfitSafetyBuffer : f64;
}.

Definition PlatformComposite := "composite".
Definition SubscriptionTypeSubscription := "subscription".

Definition IsSubscriptionType (g : Group) : bool := SubscriptionType g ==? SubscriptionTypeSubscription.

(** A group of the context is usable for routing. *)
Definition IsGroupContextValid (group : option Group) : bool :=
  match group with
  | None => false
  | Some g => if GID g <=? 0 then false
              else if negb (Hydrated g) then false
              else if (GPlatform g ==? "") || (GStatus g ==? "") then false
              else true
  end.

(** ** Model routing *)

Definition matchModelPattern (pattern model : string) : bool :=
  if pattern ==? model then true
  else match strip_suffix "*" pattern with
       | Some prefix => HasPrefix model prefix
       | None => false
       end.

Definition GetRoutingAccountIDs (g : Group) (requestedModel : string) : list Z :=
  if negb (ModelRoutingEnabled g) || bool_decide (ModelRouting g = []) || (requestedModel ==? "")
  then []
  else
    match list_find (fun r : string * list Z => r.1 = requestedModel) (ModelRouting g) with
    | Some (_, (_, (_ :: _) as ids)) => ids
    | _ =>
        match list_find (fun r : string * list Z =>
                 matchModelPattern r.1 requestedModel = true /\ r.2 <> []) (ModelRouting g) with
        | Some (_, (_, ids)) => ids
        | None => []
        end
    end.

Definition containsInt64 (values : list Z) (target : Z) : bool :=
  existsb (fun v => v ==? target) values.

(** ** Peak windows *)

Definition two_digits (c1 c2 : ascii) : option Z :=
  d1 ← digit_val c1; d2 ← digit_val c2; Some (d1 * 10 + d2).

(** ["HH:MM"] or ["H:MM"] as the minute of the day. *)
Definition parseMinutes (hhmm : string) : option Z :=
  '(h, m) ←
    match list_ascii_of_string hhmm with
    | [h; ":"; m1; m2] => h ← digit_val h; m ← two_digits m1 m2; Some (h, m)
    | [h1; h2; ":"; m1; m2] => h ← two_digits h1 h2; m ← two_digits m1 m2; Some (h, m)
    | _ => None
    end%char;
  if (23 <? h) || (59 <? m) then None else Some (h * 60 + m).

(** The peak factor at an instant, in the zone [loc] of the process. *)
Definition PeakMultiplierAt (loc : Location) (g : Group) (now : time) : f64 :=
  if negb (IsSubscriptionType g) || negb (PeakRateEnabled g) || (PeakStart g ==? "")
     || (PeakEnd g ==? "") then f1
  else match parseMinutes (PeakStart g), parseMinutes (PeakEnd g) with
       | Some start, Some end_ =>
           if end_ <=? start then f1
           else let cur := local_tod loc now / 60 in
                if (start <=? cur) && (cur <? end_) then PeakRateMultiplier g else f1
       | _, _ => f1
       end.

Inductive PeakConfigError :=
| PeakNotSubscription | PeakWindowMissing | PeakStartFormat | PeakEndFormat
| PeakWindowOrder | PeakNegative.

Definition ValidatePeakRateConfig (subscriptionType : string) (enabled : bool)
    (start end_ : string) (multiplier : f64) : option PeakConfigError :=
  if negb enabled then None
  else if subscriptionType !=? SubscriptionTypeSubscription then Some PeakNotSubscription
  else if (start ==? "") || (end_ ==? "") then Some PeakWindowMissing
  else match parseMinutes start with
       | None => Some PeakStartFormat
       | Some st =>
           match parseMinutes end_ with
           | None => Some PeakEndFormat
           | Some en => if en <=? st then Some PeakWindowOrder
                        else if fltb multiplier f0 then Some PeakNegative else None
           end
       end.

Definition NormalizePeakRateConfig (subscriptionType : string) (enabled : bool)
    (start end_ : string) (multiplier : f64) : bool * string * string * f64 :=
  if subscriptionType !=? SubscriptionTypeSubscription then (false, "", "", f1)
  else if negb enabled then
    (enabled, (if parseMinutes start then start else ""), (if parseMinutes end_ then end_ else ""),
     if fltb multiplier f0 then f1 else multiplier)
  else (enabled, start, end_, multiplier).

(** ** Profit control *)

Definition fabs : f64 -> f64 := SpecFloat.SFabs.

(** [math.Max(1, x)]. *)
Definition max_1 (x : f64) : f64 :=
  if f_is_nan x then x else if fltb f1 x then x else f1.

Definition f_valid (v : f64) : bool := negb (f_is_nan v) && negb (f_is_inf v).

Definition validProfitControlRatio (v : f64) : bool := f_valid v && fleb f0 v && fltb v f1.

Definition profitControlPlatformSupported (platform : string) : bool :=
  (platform ==? PlatformOpenAI) || (platform ==? PlatformAnthropic) || (platform ==? PlatformGemini)
  || (platform ==? PlatformGrok) || (platform ==? PlatformAntigravity).

Definition NormalizeGroupPlatform (platform : string) : string :=
  if platform ==? "" then PlatformAnthropic else platform.

Inductive ProfitConfigError :=
| ProfitPlatform | ProfitMarginRange | ProfitBufferRange | ProfitSumRange.

Definition ValidateProfitControlConfig (platform : string) (enabled : bool)
    (minMargin safetyBuffer : f64) : option ProfitConfigError :=
  if negb enabled then None
  else if negb (profitControlPlatformSupported platform) then Some ProfitPlatform
  else if negb (validProfitControlRatio minMargin) then Some ProfitMarginRange
  else if negb (validProfitControlRatio safetyBuffer) then Some ProfitBufferRange
  else if fleb f1 (fadd minMargin safetyBuffer) then Some ProfitSumRange
  else None.

Definition NormalizeProfitControlConfig (platform : string) (enabled : bool)
    (minMargin safetyBuffer : f64) : bool * f64 * f64 :=
  if negb (profitControlPlatformSupported platform) then (false, f0, f0)
  else if negb enabled then
    (enabled, (if validProfitControlRatio minMargin then minMargin else f0),
     (if validProfitControlRatio safetyBuffer then safetyBuffer else f0))
  else (enabled, minMargin, safetyBuffer).

(** [openAIProfitControlGate]. *)
Record openAIProfitControlGate := mkGate {
  gate_groupID : Z;
  gate_platform : string;
  gate_threshold : f64;
  gate_pricingAt : time;
}.

Definition profitControlRateEpsilon : f64 := f64_of_ratio false 1 1000000000.

Definition clampProfitControlThreshold (threshold : f64) : f64 :=
  if f_is_nan threshold || f_is_inf threshold || fltb threshold f0 then f0 else threshold.

Definition profitControlOverThreshold (upstream threshold : f64) : bool :=
  fltb (fmul profitControlRateEpsilon (max_1 (fabs threshold))) (fsub upstream threshold).

Inductive ProfitVeto := VetoInvalidAccountRate | VetoThreshold.

Definition openAIProfitControlVetoReason (gate : option openAIProfitControlGate) (a : Account)
    : option ProfitVeto :=
  match gate with
  | None => None
  | Some gate =>
      match RateMultiplier a with
      | None => Some VetoInvalidAccountRate
      | Some upstream =>
          if f_is_nan upstream || f_is_inf upstream || fltb upstream f0
          then Some VetoInvalidAccountRate
          else if profitControlOverThreshold upstream (gate_threshold gate) then Some VetoThreshold
          else None
      end
  end.

Definition isGatewayAccountProfitEligible (gate : option openAIProfitControlGate) (a : Account) : bool :=
  match openAIProfitControlVetoReason gate a with Some _ => false | None => true end.

(** The threshold of a gate: the downstream rate at [pricingAt], less margin
    and buffer.  The gateway subtracts them one after the other, the OpenAI
    service their sum. *)
Definition gateway_threshold (downstream minMargin safetyBuffer : f64) : f64 :=
  clampProfitControlThreshold (fmul downstream (fsub (fsub f1 minMargin) safetyBuffer)).

Definition openai_threshold (downstream minMargin safetyBuffer : f64) : f64 :=
  clampProfitControlThreshold (fmul downstream (fsub f1 (fadd minMargin safetyBuffer))).
