(* ===== verification/GroupRoutingProperties.v ===== *)
(** * Groups: what the profit gate admits and when the peak rate applies *)

From S2P Require Import Prelude GoStrings Float64 Float64Exact GoTime Account GroupRouting.
Local Open Scope Z_scope.

(** ** The profit gate *)

Lemma nonneg_nonpos_fltb x y : nonneg x -> nonpos y -> fltb x y = false.
Proof. destruct x as [[]|[]| |[] mx ex], y as [[]|[]| |[] my ey]; done. Qed.

Lemma tolerance_nonneg t : nonneg (fmul profitControlRateEpsilon (max_1 (fabs t))).
Proof.
  apply fmul_nonneg; [vm_compute; reflexivity|]. unfold max_1.
  destruct (f_is_nan (fabs t)); [by destruct t|]. destruct (fltb f1 (fabs t)); [by destruct t|].
  by apply f64_of_Z_nonneg.
Qed.

Lemma over_threshold_false u t :
  is_f64 u -> is_f64 t -> fleb u t = true -> profitControlOverThreshold u t = false.
Proof.
  intros Hu Ht Hle. apply nonneg_nonpos_fltb; [apply tolerance_nonneg|by apply fsub_nonpos].
Qed.

Lemma clamp_spec t :
  nonneg (clampProfitControlThreshold t) /\ f_valid (clampProfitControlThreshold t) = true.
Proof.
  unfold clampProfitControlThreshold. destruct (f_is_nan t || f_is_inf t || fltb t f0) eqn:E; [done|].
  apply orb_false_iff in E as [[Hn Hi]%orb_false_iff Hlt]. split; [by apply fltb_nonneg|].
  unfold f_valid. by rewrite Hn, Hi.
Qed.

(** A usable upstream rate: a finite double that is not negative. *)
Definition usable_rate (u : f64) : Prop := is_f64 u /\ f_valid u = true /\ fltb u f0 = false.

Lemma usable_zero_le u t : u = S754_zero false \/ u = S754_zero true -> nonneg t -> f_valid t = true ->
  fleb u t = true.
Proof. intros [->| ->]; destruct t as [[]|[]| |[] m e]; done. Qed.

(** Under a profit gate only an account with a finite rate that is not
    negative is eligible; one whose rate is at most the threshold always is,
    so a free one is under every downstream rate, margin and buffer. *)
Theorem profit_gate_admits gid platform downstream margin buffer at_ a :
  let t := gateway_threshold downstream margin buffer in
  let eligible := isGatewayAccountProfitEligible (Some (mkGate gid platform t at_)) a in
  is_f64 t ->
  (eligible = true -> exists u, RateMultiplier a = Some u /\ f_valid u = true /\ fltb u f0 = false) /\
  (forall u, RateMultiplier a = Some u -> usable_rate u ->
     fleb u t = true \/ u = S754_zero false \/ u = S754_zero true -> eligible = true).
Proof.
  intros t eligible Ht. unfold eligible, isGatewayAccountProfitEligible, openAIProfitControlVetoReason.
  simpl gate_threshold. split.
  - destruct (RateMultiplier a) as [u|]; [|done]. intros H. exists u. split; [done|]. unfold f_valid.
    destruct (f_is_nan u), (f_is_inf u), (fltb u f0); try done.
  - intros u -> (Hu & Hv & Hn) Hle. unfold f_valid in Hv.
    rewrite Hn. destruct (f_is_nan u), (f_is_inf u); try done. simpl.
    rewrite over_threshold_false; [done|done|done|].
    destruct Hle as [Hle|Hz]; [done|]. apply usable_zero_le; [done|apply clamp_spec..].
Qed.

Lemma profit_gate_admits_witness :
  let a u := mkAccount 1 PlatformOpenAI AccountTypeAPIKey None None 1 0 (Some u) None StatusActive None
               false true None None None None None None "" None [] in
  let gate := Some (mkGate 7 PlatformOpenAI (gateway_threshold f1 (f64_of_ratio false 1 5) f0) 0) in
  isGatewayAccountProfitEligible gate (a f0) = true /\
  isGatewayAccountProfitEligible gate (a (f64_of_ratio false 4 5)) = true /\
  isGatewayAccountProfitEligible gate (a f1) = false.
Proof.
  intros a gate. split_and!; [|vm_compute; reflexivity..].
  apply (profit_gate_admits 7 PlatformOpenAI f1 (f64_of_ratio false 1 5) f0 0 (a f0)) with (u := f0);
    [vm_compute; reflexivity|done|by vm_compute|right; by left].
Defined.

(** ** Peak windows *)

Lemma digit_val_range c d : digit_val c = Some d -> 0 <= d <= 9.
Proof.
  unfold digit_val. cbv zeta. destruct (_ && _) eqn:E; [|done]. intros [= <-].
  apply andb_true_iff in E as [E1%Nat.leb_le E2%Nat.leb_le]. lia.
Qed.

Lemma parseMinutes_range s n : parseMinutes s = Some n -> 0 <= n < 1440.
Proof.
  unfold parseMinutes. intros H. apply bind_Some in H as ([h m] & Hd & H).
  destruct ((23 <? h) || (59 <? m)) eqn:Er; [done|]. injection H as <-.
  apply orb_false_iff in Er as [Hh%Z.ltb_ge Hm%Z.ltb_ge].
  enough (0 <= h /\ 0 <= m) by lia. clear Hh Hm. unfold two_digits in Hd.
  repeat case_match; try done;
  repeat match goal with H : _ ≫= _ = Some _ |- _ => apply bind_Some in H as (? & ? & H) end;
  simplify_eq;
  repeat match goal with H : digit_val _ = Some _ |- _ => apply digit_val_range in H end; lia.
Qed.

(** A peak window that was accepted is two minutes of the day in order;
    its factor, which is not negative, applies exactly from the first minute
    to the last, excluded, of the zone's clock, and outside it the factor
    is 1. *)
Theorem peak_window loc g now :
  ValidatePeakRateConfig (SubscriptionType g) (PeakRateEnabled g) (PeakStart g) (PeakEnd g)
    (PeakRateMultiplier g) = None ->
  PeakRateEnabled g = true ->
  exists st en, parseMinutes (PeakStart g) = Some st /\ parseMinutes (PeakEnd g) = Some en /\
    0 <= st < en /\ en < 1440 /\ fltb (PeakRateMultiplier g) f0 = false /\
    (st * 60 <= local_tod loc now < en * 60 -> PeakMultiplierAt loc g now = PeakRateMultiplier g) /\
    (~ st * 60 <= local_tod loc now < en * 60 -> PeakMultiplierAt loc g now = f1).
Proof.
  unfold ValidatePeakRateConfig, PeakMultiplierAt, IsSubscriptionType. intros Hv Hen. rewrite Hen in *.
  cbn [negb] in *. destruct (SubscriptionType g ==? SubscriptionTypeSubscription); [|done]. cbn [negb orb] in *.
  destruct (_ || _); [done|].
  destruct (parseMinutes (PeakStart g)) as [st|] eqn:Hst; [|done].
  destruct (parseMinutes (PeakEnd g)) as [en|] eqn:Hend; [|done].
  destruct (Z.leb_spec en st); [done|]. destruct (fltb _ f0) eqn:Hneg; [done|].
  apply parseMinutes_range in Hst, Hend. exists st, en. split_and!; try lia; try done.
  all: pose proof (Z.div_mod (local_tod loc now) 60 ltac:(lia));
    pose proof (Z.mod_pos_bound (local_tod loc now) 60 ltac:(lia)).
  - intros Hin. destruct (Z.leb_spec st (local_tod loc now / 60)), (Z.ltb_spec (local_tod loc now / 60) en);
      simpl; [done|lia..].
  - intros Hout. destruct (Z.leb_spec st (local_tod loc now / 60)), (Z.ltb_spec (local_tod loc now / 60) en);
      simpl; [lia|done..].
Qed.

Lemma peak_window_witness :
  let g := mkGroup 7 PlatformOpenAI StatusActive true SubscriptionTypeSubscription f1 false None false []
             false true "9:30" "18:00" (f64_of_Z 2) false f0 f0 in
  exists st en, parseMinutes "9:30" = Some st /\ parseMinutes "18:00" = Some en /\ 0 <= st < en /\ en < 1440 /\
    fltb (f64_of_Z 2) f0 = false /\
    (st * 60 <= local_tod UTC (34200 * second) < en * 60 ->
       PeakMultiplierAt UTC g (34200 * second) = f64_of_Z 2) /\
    (~ st * 60 <= local_tod UTC (34200 * second) < en * 60 -> PeakMultiplierAt UTC g (34200 * second) = f1).
Proof.
  intros g. apply (peak_window UTC g); [vm_compute; reflexivity|reflexivity].
Defined.
