(* ===== verification/GatewayCalls.v ===== *)
(** * The calls of the gateway scheduler

    [gateway_scheduling.go] as programs (GoProgram.v): the request's context,
    the settings, the calls to Redis, Postgres, the clock and [math/rand], and
    which of them move no slot and no session. *)

From S2P Require Import Prelude GoProgram Float64 GoTime Account ModelAvailability GroupRouting.
Local Open Scope Z_scope.

(** ** Requests, settings and errors *)

Record CompositeRouteDecision := mkDecision {
  Matched : bool;
  dec_Source : string;
  PublicModel : string;
  TargetPlatform : string;
  UpstreamModel : string;
}.

(** What scheduling reads of the request's context.  [ctx_ForcePlatform] is
    the value if it is a string; [TokenPricingAt] is [None] for the zero time;
    [CtxUserID] is 0 when absent; the prefetched costs and counts are those
    [withWindowCostPrefetch] and [withRPMPrefetch] install. *)
Record Ctx := mkCtx {
  ctx_Models : ModelCtx;
  ctx_ForcePlatform : option string;
  ctx_ResolvedTargetPlatform : option string;
  ctx_ResolvedUpstreamModel : option string;
  ctx_Group : option Group;
  CtxUserID : Z;
  TokenPricingAt : option time;
  BillingGroup : option Group;
  ctx_PrefetchedStickyGroupID : option Z;
  ctx_PrefetchedStickyAccountID : option Z;
  ClaudeCodeClient : bool;
  ProfitGate : option openAIProfitControlGate;
  WindowCosts : option (gmap Z f64);
  RPMCounts : option (gmap Z Z);
}.

(** Updates of the context, as [context.WithValue] makes them. *)
Definition with_group (c : Ctx) (g : Group) : Ctx :=
  mkCtx (ctx_Models c) (ctx_ForcePlatform c) (ctx_ResolvedTargetPlatform c)
    (ctx_ResolvedUpstreamModel c) (Some g) (CtxUserID c) (TokenPricingAt c) (BillingGroup c)
    (ctx_PrefetchedStickyGroupID c) (ctx_PrefetchedStickyAccountID c) (ClaudeCodeClient c)
    (ProfitGate c) (WindowCosts c) (RPMCounts c).
Definition with_gate (c : Ctx) (g : option openAIProfitControlGate) : Ctx :=
  mkCtx (ctx_Models c) (ctx_ForcePlatform c) (ctx_ResolvedTargetPlatform c)
    (ctx_ResolvedUpstreamModel c) (ctx_Group c) (CtxUserID c) (TokenPricingAt c) (BillingGroup c)
    (ctx_PrefetchedStickyGroupID c) (ctx_PrefetchedStickyAccountID c) (ClaudeCodeClient c)
    g (WindowCosts c) (RPMCounts c).
Definition with_costs (c : Ctx) (m : gmap Z f64) : Ctx :=
  mkCtx (ctx_Models c) (ctx_ForcePlatform c) (ctx_ResolvedTargetPlatform c)
    (ctx_ResolvedUpstreamModel c) (ctx_Group c) (CtxUserID c) (TokenPricingAt c) (BillingGroup c)
    (ctx_PrefetchedStickyGroupID c) (ctx_PrefetchedStickyAccountID c) (ClaudeCodeClient c)
    (ProfitGate c) (Some m) (RPMCounts c).
Definition with_rpm (c : Ctx) (m : gmap Z Z) : Ctx :=
  mkCtx (ctx_Models c) (ctx_ForcePlatform c) (ctx_ResolvedTargetPlatform c)
    (ctx_ResolvedUpstreamModel c) (ctx_Group c) (CtxUserID c) (TokenPricingAt c) (BillingGroup c)
    (ctx_PrefetchedStickyGroupID c) (ctx_PrefetchedStickyAccountID c) (ClaudeCodeClient c)
    (ProfitGate c) (WindowCosts c) (Some m).

Definition ResolvedTargetPlatformFromContext (c : Ctx) : option string :=
  trimmed_value (ctx_ResolvedTargetPlatform c).
Definition ResolvedUpstreamModelFromContext (c : Ctx) : option string :=
  trimmed_value (ctx_ResolvedUpstreamModel c).

(** A new value of a trimmed context key, or the old one when it is empty. *)
Definition set_trimmed (new : string) (old : option string) : option string :=
  let t := TrimSpace new in if t !=? "" then Some t else old.

Definition WithCompositeRouteDecision (c : Ctx) (d : CompositeRouteDecision) : Ctx :=
  if negb (Matched d) then c
  else
    let m := ctx_Models c in
    mkCtx (mkModelCtx (ThinkingEnabled m) (set_trimmed (dec_Source d) (CompositeRouteSource m))
             (set_trimmed (PublicModel d) (RequestedPublicModel m)) (OpenAIImageGenerationIntent m))
      (ctx_ForcePlatform c) (set_trimmed (TargetPlatform d) (ctx_ResolvedTargetPlatform c))
      (set_trimmed (UpstreamModel d) (ctx_ResolvedUpstreamModel c)) (ctx_Group c) (CtxUserID c)
      (TokenPricingAt c) (BillingGroup c) (ctx_PrefetchedStickyGroupID c)
      (ctx_PrefetchedStickyAccountID c) (ClaudeCodeClient c) (ProfitGate c) (WindowCosts c)
      (RPMCounts c).

(** [config.GatewaySchedulingConfig]: the fields selection reads. *)
Record GatewaySchedulingConfig := mkSchedulingConfig {
  StickySessionMaxWaiting : Z;
  StickySessionWaitTimeout : duration;
  FallbackWaitTimeout : duration;
  FallbackMaxWaiting : Z;
  FallbackSelectionMode : string;
  PreferSoonestReset : bool;
  LoadBatchEnabled : bool;
}.

(** Which of the optional collaborators of [GatewayService] are configured,
    and the settings it reads. *)
Record Services := mkServices {
  concurrencyService : bool;
  cache : bool;
  sessionLimitCache : bool;
  rpmCache : bool;
  usageLogRepo : bool;
  usageLogBatch : bool;          (** [usageLogRepo] has the batch method *)
  schedulerSnapshot : bool;
  rateLimitService : bool;
  channelService : bool;
  groupRepo : bool;
  cfg : option GatewaySchedulingConfig;
  RunModeSimple : bool;
}.

Inductive SelectionError :=
| ErrNoAvailableAccounts
| ErrNoAccountsForModel (model : string)      (** with the failure statistics *)
| ErrChannelRestriction (model : string)
| ErrCompositeUnknown (model : string)
| ErrGroupNotFound
| ErrClaudeCodeOnly
| ErrFallbackCycle
| ErrGroupLookup
| ErrCompositeResolve
| ErrQueryAccounts
| ErrHydrate (id : Z).

(** ** Calls and replies *)

Inductive ListQuery :=
| ByGroupIDAndPlatforms (gid : Z) (ps : list string)
| ByPlatforms (ps : list string)
| UngroupedByPlatforms (ps : list string)
| ByPlatform (p : string)
| ByGroupIDAndPlatform (gid : Z) (p : string)
| UngroupedByPlatform (p : string).

(** Why a sticky binding was not read. *)
Inductive StickyError := ErrStickySessionNotFound | StickyReadFailed.

Inductive call :=
| Now
| Intn (n : nat)
| RandShuffle (n : nat)
| AcquireAccountSlot (id maxConcurrency : Z)
| ReleaseSlot (id : Z)
| RegisterSession (id : Z) (sessionID : string) (maxSessions : Z) (idle : duration)
| GetAccountWaitingCount (id : Z)
| GetAccountsLoadBatch (accounts : list (Z * Z))
| GetSessionAccountID (gid : Z) (hash : string)
| SetSessionAccountID (gid : Z) (hash : string) (id : Z)
| DeleteSessionAccountID (gid : Z) (hash : string)
| RefreshSessionTTL (gid : Z) (hash : string)
| GetWindowCost (id : Z)
| SetWindowCost (id : Z) (cost : f64)
| GetWindowCostBatch (ids : list Z)
| GetAccountWindowStats (id : Z) (start : time)
| GetAccountWindowStatsBatch (ids : list Z) (start : time)
| GetRPM (id : Z)
| GetRPMBatch (ids : list Z)
| SnapshotGetAccount (id : Z)
| GetByID (id : Z)
| SnapshotListSchedulable (gid : option Z) (platform : string) (force : bool)
| RepoList (q : ListQuery)
| ApplyAccountSchedulingThreshold (a : Account)
| FilterGrokFreeQuota (l : list Account)
| GetByIDLite (gid : Z)
| GroupGetByID (gid : Z)
| SnapshotGroupLite (gid : Z)
| ResolveUserGroupRateMultiplier (user gid : Z) (dflt : f64)
| CompositeResolve (gid : Z) (model : string)
| ResolveChannelMapping (gid : Z) (model : string)
| IsModelRestricted (gid : Z) (model : string)
| GetChannelForGroup (gid : Z)
| SetError (id : Z).

(** A reply; the outer option of a fallible call is [None] on error.  A found
    channel is its [RestrictModels] and [BillingModelSource]; a channel
    mapping its [BillingModelSource] and [MappedModel]; a threshold call
    answers whether the account is blocked and the account as it left it. *)
Definition reply (c : call) : Type :=
  match c with
  | Now => time
  | Intn _ => nat
  | RandShuffle _ => list nat
  | AcquireAccountSlot _ _ => option bool
  | ReleaseSlot _ => unit
  | RegisterSession _ _ _ _ => option bool
  | GetAccountWaitingCount _ => Z
  | GetAccountsLoadBatch _ => gmap Z Z * bool
  | GetSessionAccountID _ _ => result StickyError Z
  | SetSessionAccountID _ _ _ => bool
  | DeleteSessionAccountID _ _ => unit
  | RefreshSessionTTL _ _ => unit
  | GetWindowCost _ => option f64
  | SetWindowCost _ _ => unit
  | GetWindowCostBatch _ => option (gmap Z f64)
  | GetAccountWindowStats _ _ => option f64
  | GetAccountWindowStatsBatch _ _ => option (gmap Z f64)
  | GetRPM _ => option Z
  | GetRPMBatch _ => option (gmap Z Z)
  | SnapshotGetAccount _ => option (option Account)
  | GetByID _ => option (option Account)
  | SnapshotListSchedulable _ _ _ => option (list Account * bool)
  | RepoList _ => option (list Account)
  | ApplyAccountSchedulingThreshold _ => bool * Account
  | FilterGrokFreeQuota _ => list Account
  | GetByIDLite _ => option Group
  | GroupGetByID _ => option Group
  | SnapshotGroupLite _ => option (option Group)
  | ResolveUserGroupRateMultiplier _ _ _ => f64
  | CompositeResolve _ _ => option CompositeRouteDecision
  | ResolveChannelMapping _ _ => string * string
  | IsModelRestricted _ _ => bool
  | GetChannelForGroup _ => option (option (bool * string))
  | SetError _ => unit
  end.

(** ** Programs over these calls *)

Abbreviation prog := (GoProgram.prog reply).
Abbreviation event := (GoProgram.event reply).

Definition do (c : call) : prog (reply c) := Call c Return.

(** [rand.Intn], which panics on 0. *)
Definition intn (n : nat) : prog nat := match n with O => Panic | _ => do (Intn n) end.

(** The calls that move no slot and no session. *)
Definition quiet (c : call) : bool :=
  match c with AcquireAccountSlot _ _ | ReleaseSlot _ | RegisterSession _ _ _ _ => false | _ => true end.

(** A ghost state that quiet calls do not move. *)
Class QuietStep {S : Type} (step : forall c, reply c -> S -> S) : Prop :=
  quiet_step : forall c r s, quiet c = true -> step c r s = s.

Lemma returns_do {S} (step : forall c, reply c -> S -> S) ok `{!QuietStep step} c (P : reply c -> Prop) :
  quiet c = true -> (forall r, ok c r -> P r) -> returns step ok (do c) P.
Proof. intros Hc HP s Q HQ r Hr. simpl. rewrite quiet_step by done. auto. Qed.

(** Any quiet program, whatever it returns. *)
Notation silent step ok p := (returns step ok p (fun _ => True)).

(** Proves that a call, or a program of quiet calls, is quiet. *)
Ltac quiet_call :=
  lazymatch goal with |- returns ?st ?ok (do ?c) ?P => refine (returns_do st ok c P eq_refl _); try done end.

Ltac silently :=
  repeat first
    [ apply returns_Return; done
    | quiet_call
    | apply (returns_bind _ _ _ _ (fun _ => True)); [|intros ? _]
    | apply (returns_fmap _ _ _ _ (fun _ => True)); [|done]
    | lazymatch goal with
      | |- returns _ _ (match ?x with _ => _ end) _ => destruct x
      end ].
