(* ===== verification/AccountOrder.v ===== *)
(** * The order of candidates: the filters, sorts and shuffles of
    gateway_scheduling.go

    Accounts are tried by priority, then load, then the time they were last
    used, and equal ones in random order, so that concurrent requests reading
    one snapshot do not all pick the same account. *)

From S2P Require Import Prelude GoSort Float64 GoTime Account ModelAvailability GroupRouting GoProgram GatewayCalls.
Local Open Scope Z_scope.

(** ** Shuffling *)

(** [rand.Shuffle]: position [i], from the last down to 1, is swapped with the
    position the generator draws for it. *)
Fixpoint swaps {A} (i : nat) (js : list nat) (l : list A) : list A :=
  match i, js with
  | S i', j :: js => swaps i' js (swap_at i j l)
  | _, _ => l
  end.

Definition Shuffle {A} (l : list A) : prog (list A) :=
  js ← do (RandShuffle (length l)); Return (swaps (length l - 1) js l).

(** [if len > 1 { Shuffle }]. *)
Definition shuffle_many {A} (l : list A) : prog (list A) :=
  if (1 <? length l)%nat then Shuffle l else Return l.

(** The longest prefix whose elements all satisfy [f], and the rest. *)
Fixpoint span {A} (f : A -> bool) (l : list A) : list A * list A :=
  match l with
  | [] => ([], [])
  | a :: l' => if f a then let '(g, r) := span f l' in (a :: g, r) else ([], l)
  end.

(** Each maximal run of elements in the group of its first is rearranged by
    [part]; the length of the list is enough fuel. *)
Fixpoint shuffle_groups {A} (same : A -> A -> bool) (part : list A -> prog (list A))
    (fuel : nat) (l : list A) : prog (list A) :=
  match fuel, l with
  | S n, a :: l' =>
      let '(g, rest) := span (same a) l' in
      g' ← (if (0 <? length g)%nat then part (a :: g) else Return [a]);
      r ← shuffle_groups same part n rest;
      Return (g' ++ r)
  | _, _ => Return l
  end.

(** ** The time of last use *)

(** A nil time is earlier than any. *)
Definition last_used_before (a b : option time) : bool :=
  match a, b with
  | None, Some _ => true
  | Some x, Some y => Before x y
  | _, None => false
  end.

(** Equal to the second. *)
Definition sameLastUsedAt (a b : option time) : bool :=
  match a, b with
  | None, None => true
  | Some x, Some y => unix_sec x =? unix_sec y
  | _, _ => false
  end.

(** ** Filters on candidates with their load *)

Record accountWithLoad := mkWithLoad { account : Account; LoadRate : Z }.

Definition min_of {A} (f : A -> Z) (a : A) (l : list A) : Z :=
  foldl (fun m b => if f b <? m then f b else m) (f a) l.

Definition keep_min {A} (f : A -> Z) (accounts : list A) : list A :=
  match accounts with
  | [] => []
  | a :: l => base.filter (fun b => f b = min_of f a l) accounts
  end.

Definition filterByMinPriority (accounts : list accountWithLoad) : list accountWithLoad :=
  keep_min (fun x => Priority (account x)) accounts.

Definition filterByMinLoadRate (accounts : list accountWithLoad) : list accountWithLoad :=
  keep_min LoadRate accounts.

(** The end of a session window that is still ahead. *)
Definition future_reset (now : time) (x : accountWithLoad) : option time :=
  match SessionWindowEnd (account x) with
  | Some e => if Before now e then Some e else None
  | None => None
  end.

Definition earliest (m e : option time) : option time :=
  match m, e with
  | None, _ => e
  | Some _, None => m
  | Some t, Some u => if Before u t then e else m
  end.

Definition filterBySoonestReset (now : time) (accounts : list accountWithLoad)
    : list accountWithLoad :=
  if (length accounts <=? 1)%nat then accounts
  else match foldl (fun m x => earliest m (future_reset now x)) None accounts with
       | None => accounts
       | Some minEnd => base.filter (fun x => future_reset now x = Some minEnd) accounts
       end.

Definition is_oauth (a : Account) : bool := AType a ==? AccountTypeOAuth.

(** The accounts last used earliest; the never used ones if there are any. *)
Definition least_recent (accounts : list accountWithLoad) : list accountWithLoad :=
  if existsb (fun x => LastUsedAt (account x) ==? None) accounts
  then base.filter (fun x => LastUsedAt (account x) = None) accounts
  else base.filter (fun x => LastUsedAt (account x) =
         foldl (fun m y => earliest m (LastUsedAt (account y))) None accounts) accounts.

Definition selectByLRU (accounts : list accountWithLoad) (preferOAuth : bool)
    : prog (option accountWithLoad) :=
  match accounts with
  | [] => Return None
  | [a] => Return (Some a)
  | _ =>
      let idx := least_recent accounts in
      match idx with
      | [a] => Return (Some a)
      | _ =>
          let idx := if preferOAuth then
                       match base.filter (fun x => is_oauth (account x) = true) idx with
                       | [] => idx
                       | oauth => oauth
                       end
                     else idx in
          r ← intn (length idx);
          match idx !! (r : nat) with Some a => Return (Some a) | None => Panic end
      end
  end.

(** ** Sorts *)

Definition less_last_used (preferOAuth : bool) (a b : Account) : bool :=
  if Priority a =? Priority b then
    match LastUsedAt a, LastUsedAt b with
    | None, None => preferOAuth && (AType a !=? AType b) && is_oauth a
    | _, _ => last_used_before (LastUsedAt a) (LastUsedAt b)
    end
  else Priority a <? Priority b.

Definition less_priority (preferOAuth : bool) (a b : Account) : bool :=
  if Priority a =? Priority b then preferOAuth && (AType a !=? AType b) && is_oauth a
  else Priority a <? Priority b.

Definition less_with_load (a b : accountWithLoad) : bool :=
  if Priority (account a) =? Priority (account b) then
    if LoadRate a =? LoadRate b
    then last_used_before (LastUsedAt (account a)) (LastUsedAt (account b))
    else LoadRate a <? LoadRate b
  else Priority (account a) <? Priority (account b).

Definition sameAccountGroup (a b : Account) : bool :=
  if Priority a =? Priority b then sameLastUsedAt (LastUsedAt a) (LastUsedAt b) else false.

Definition sameAccountWithLoadGroup (a b : accountWithLoad) : bool :=
  if Priority (account a) =? Priority (account b) then
    if LoadRate a =? LoadRate b
    then sameLastUsedAt (LastUsedAt (account a)) (LastUsedAt (account b)) else false
  else false.

Definition shuffleWithinSortGroups (accounts : list accountWithLoad) : prog (list accountWithLoad) :=
  shuffle_groups sameAccountWithLoadGroup Shuffle (length accounts) accounts.

(** A group with its OAuth accounts first, each part shuffled. *)
Definition shuffle_oauth_first (g : list Account) : prog (list Account) :=
  oauth ← shuffle_many (base.filter (fun a => is_oauth a = true) g);
  others ← shuffle_many (base.filter (fun a => is_oauth a = false) g);
  Return (oauth ++ others).

Definition shuffleWithinPriorityAndLastUsed (accounts : list Account) (preferOAuth : bool)
    : prog (list Account) :=
  shuffle_groups sameAccountGroup (if preferOAuth then shuffle_oauth_first else Shuffle)
    (length accounts) accounts.

Definition shuffleWithinPriority (accounts : list Account) : prog (list Account) :=
  shuffle_groups (fun a b => Priority b =? Priority a) Shuffle (length accounts) accounts.

Definition sortAccountsByPriorityAndLastUsed (accounts : list Account) (preferOAuth : bool)
    : prog (list Account) :=
  shuffleWithinPriorityAndLastUsed (SliceStable (less_last_used preferOAuth) accounts) preferOAuth.

Definition sortAccountsByPriorityOnly (accounts : list Account) (preferOAuth : bool) : list Account :=
  SliceStable (less_priority preferOAuth) accounts.

Definition sortCandidatesForFallback (accounts : list Account) (preferOAuth : bool) (mode : string)
    : prog (list Account) :=
  if mode ==? "random" then shuffleWithinPriority (sortAccountsByPriorityOnly accounts preferOAuth)
  else sortAccountsByPriorityAndLastUsed accounts preferOAuth.
