(* ===== verification/AccountOrderProperties.v ===== *)
(** * The order of candidates: properties of [AccountOrder]

    Every rearrangement is a permutation that keeps the list sorted by
    priority and last use (to the second), with OAuth accounts first where
    they are preferred; the layered choice is a lexicographic minimum. *)

From S2P Require Import Prelude GoSort Float64 GoTime Account ModelAvailability GroupRouting GoProgram GatewayCalls AccountOrder.
Local Open Scope Z_scope.

(** ** Shuffling *)

Lemma swaps_perm {A} i js (l : list A) : swaps i js l ≡ₚ l.
Proof.
  revert i l. induction js as [|j js IH]; intros [|i] l; simpl; [done..|].
  rewrite IH. apply swap_at_perm.
Qed.

Lemma span_app {A} (f : A -> bool) l g r : span f l = (g, r) ->
  l = g ++ r /\ Forall (fun a => f a = true) g /\ (forall z r', r = z :: r' -> f z = false).
Proof.
  revert g r. induction l as [|a l IH]; simpl; intros g r H; [by simplify_eq|].
  destruct (f a) eqn:E; [|naive_solver].
  destruct (span f l) as [g' r']. simplify_eq. destruct (IH g' r) as (-> & Hg & Hz); [done|].
  split; [done|]. split; [by constructor|done].
Qed.

Section Shuffles.
Context {S : Type} (step : forall c, reply c -> S -> S) (ok : forall c, reply c -> Prop).
Context `{!QuietStep step}.

Lemma returns_Shuffle {A} (l : list A) : returns step ok (Shuffle l) (fun l' => l' ≡ₚ l).
Proof.
  unfold Shuffle.
  eapply returns_bind;
    [by apply (returns_do step ok (RandShuffle (length l)) (fun _ => True))|].
  intros js _. apply returns_Return, swaps_perm.
Qed.

Lemma returns_shuffle_many {A} (l : list A) : returns step ok (shuffle_many l) (fun l' => l' ≡ₚ l).
Proof. unfold shuffle_many. destruct (1 <? length l)%nat; [apply returns_Shuffle|by apply returns_Return]. Qed.

(** The groups of [R0], a preorder the list is sorted by, are the runs of
    [same].  When [part] sorts each by [R], which refines the strict part of
    [R0], the whole is sorted by [R]. *)
Section Groups.
Context {A : Type} (same : A -> A -> bool) (part : list A -> prog (list A)).
Context (R0 R : A -> A -> Prop).
Hypothesis R0_trans : forall x y z, R0 x y -> R0 y z -> R0 x z.
Hypothesis same_spec : forall a b, same a b = true <-> R0 a b /\ R0 b a.
Hypothesis R_strict : forall x y, R0 x y -> ~ R0 y x -> R x y.
Hypothesis part_spec : forall a g, Forall (fun b => same a b = true) g ->
  returns step ok (part (a :: g)) (fun g' => g' ≡ₚ a :: g /\ StronglySorted R g').

Lemma group_before a g rest x y :
  StronglySorted R0 (a :: g ++ rest) -> Forall (fun b => same a b = true) g ->
  (forall z r', rest = z :: r' -> same a z = false) ->
  x ∈ a :: g -> y ∈ rest -> R x y.
Proof.
  intros Hs Hg Hz Hx Hy. rewrite app_comm_cons, StronglySorted_app in Hs.
  destruct Hs as (Hxy & _ & Hr). assert (Hxa : x = a \/ R0 x a).
  { apply elem_of_cons in Hx as [->|Hx]; [by left|right].
    rewrite Forall_forall in Hg. by apply same_spec, Hg. }
  apply R_strict; [by apply Hxy|]. intros Hyx.
  destruct rest as [|z r']; [by apply elem_of_nil in Hy|].
  specialize (Hz z r' eq_refl). apply not_true_iff_false in Hz. apply Hz, same_spec.
  split; [apply Hxy; [by left|by left]|].
  assert (Hzx : R0 z x).
  { apply elem_of_cons in Hy as [->|Hy]; [done|]. apply R0_trans with y; [|done].
    apply StronglySorted_cons in Hr as [Hr _]. rewrite Forall_forall in Hr. by apply Hr. }
  destruct Hxa as [->|Hxa]; [done|]. by apply R0_trans with x.
Qed.

Lemma returns_groups fuel l :
  (length l <= fuel)%nat -> StronglySorted R0 l ->
  returns step ok (shuffle_groups same part fuel l) (fun l' => l' ≡ₚ l /\ StronglySorted R l').
Proof.
  revert l. induction fuel as [|n IH]; intros l Hlen Hs.
  { destruct l; [|simpl in Hlen; lia]. apply returns_Return. split; [done|constructor]. }
  destruct l as [|a l]; simpl; [apply returns_Return; split; [done|constructor]|].
  destruct (span (same a) l) as [g rest] eqn:E. apply span_app in E as (-> & Hg & Hz).
  eapply (returns_bind step ok _ _ (fun g' => g' ≡ₚ a :: g /\ StronglySorted R g')).
  - destruct (0 <? length g)%nat eqn:El; [by apply part_spec|]. apply returns_Return.
    apply Nat.ltb_ge in El. destruct g; [|simpl in El; lia]. split; [done|repeat constructor].
  - intros g' [Hg' Sg']. eapply returns_bind.
    + apply (IH rest); [simpl in Hlen; rewrite length_app in Hlen; lia|].
      rewrite app_comm_cons, StronglySorted_app in Hs. apply Hs.
    + intros r [Hr Sr]. apply returns_Return. split; [by rewrite Hg', Hr|].
      apply StronglySorted_app. split; [|done]. intros x y Hx Hy.
      eapply group_before; [exact Hs|done|done|by rewrite <- Hg'|by rewrite <- Hr].
Qed.

End Groups.

(** A class of [R0] shuffled is sorted by [R0]. *)
Lemma shuffled_class {A} (same : A -> A -> bool) (R0 : A -> A -> Prop) a g :
  (forall x y z, R0 x y -> R0 y z -> R0 x z) ->
  (forall a b, same a b = true <-> R0 a b /\ R0 b a) -> R0 a a ->
  Forall (fun b => same a b = true) g ->
  returns step ok (Shuffle (a :: g)) (fun g' => g' ≡ₚ a :: g /\ StronglySorted R0 g').
Proof.
  intros Htr Hsame Hrefl Hg. eapply returns_mono; [apply returns_Shuffle|].
  intros g' Hg'. split; [done|].
  assert (Hall : forall x, x ∈ g' -> R0 a x /\ R0 x a).
  { intros x Hx. rewrite Hg' in Hx. apply elem_of_cons in Hx as [->|Hx]; [done|].
    rewrite Forall_forall in Hg. by apply Hsame, Hg. }
  clear Hg'. induction g' as [|x g' IH]; constructor.
  - apply IH. intros y Hy. apply Hall. by right.
  - apply Forall_forall. intros y Hy. apply Htr with a; [apply Hall; by left|apply Hall; by right].
Qed.

End Shuffles.

(** ** The coarse orders *)

Lemma sorted_coarser {A} (R R' : A -> A -> Prop) l :
  (forall x y, R x y -> R' x y) -> StronglySorted R l -> StronglySorted R' l.
Proof.
  intros HR. induction 1 as [|x l Hl IH Hx]; constructor; [done|].
  eapply Forall_impl; [exact Hx|auto].
Qed.

(** Earlier or in the same second; a nil time comes first. *)
Definition sec_le (a b : option time) : Prop :=
  match a, b with
  | None, _ => True
  | Some _, None => False
  | Some x, Some y => unix_sec x <= unix_sec y
  end.

(** By priority, then last use to the second. *)
Definition account_le (a b : Account) : Prop :=
  Priority a < Priority b \/ Priority a = Priority b /\ sec_le (LastUsedAt a) (LastUsedAt b).

(** By priority, load, then last use to the second. *)
Definition loaded_le (a b : accountWithLoad) : Prop :=
  Priority (account a) < Priority (account b) \/
  Priority (account a) = Priority (account b) /\
  (LoadRate a < LoadRate b \/
   LoadRate a = LoadRate b /\ sec_le (LastUsedAt (account a)) (LastUsedAt (account b))).

Definition priority_le (a b : Account) : Prop := Priority a <= Priority b.

(** [account_le], and within a second, when OAuth is preferred, no OAuth
    account after another. *)
Definition tried_no_later (preferOAuth : bool) (a b : Account) : Prop :=
  account_le a b /\
  (account_le b a -> preferOAuth = true -> is_oauth b = true -> is_oauth a = true).

Lemma sec_le_refl a : sec_le a a.
Proof. destruct a; simpl; [lia|done]. Qed.
Lemma sec_le_trans a b c : sec_le a b -> sec_le b c -> sec_le a c.
Proof. destruct a, b, c; simpl; try done. lia. Qed.
Lemma same_sec a b : sameLastUsedAt a b = true <-> sec_le a b /\ sec_le b a.
Proof. destruct a, b; simpl; rewrite ?Z.eqb_eq; intuition (lia || done). Qed.
Lemma last_used_sec a b : last_used_before b a = false -> sec_le a b.
Proof.
  destruct a as [x|], b as [y|]; simpl; try done. unfold Before. rewrite Z.ltb_ge.
  intros H. unfold unix_sec. apply Z.div_le_mono; [unfold second; lia|done].
Qed.

Lemma account_le_trans x y z : account_le x y -> account_le y z -> account_le x z.
Proof.
  unfold account_le. intros [H|[H Hs]] [H'|[H' Hs']]; [left; lia..|].
  right. split; [lia|]. by eapply sec_le_trans.
Qed.
Lemma account_le_refl x : account_le x x.
Proof. right. split; [done|apply sec_le_refl]. Qed.
Lemma loaded_le_trans x y z : loaded_le x y -> loaded_le y z -> loaded_le x z.
Proof.
  unfold loaded_le. intros [H|[H [Hl|[Hl Hs]]]] [H'|[H' [Hl'|[Hl' Hs']]]]; try (left; lia);
    right; (split; [lia|]); try (left; lia).
  right. split; [lia|]. by eapply sec_le_trans.
Qed.
Lemma loaded_le_refl x : loaded_le x x.
Proof. right. split; [done|]. right. split; [done|apply sec_le_refl]. Qed.

Lemma same_account a b : sameAccountGroup a b = true <-> account_le a b /\ account_le b a.
Proof.
  unfold sameAccountGroup, account_le. destruct (Z.eqb_spec (Priority a) (Priority b)).
  - rewrite same_sec. intuition lia.
  - split; [done|]. intuition lia.
Qed.

Lemma same_loaded a b : sameAccountWithLoadGroup a b = true <-> loaded_le a b /\ loaded_le b a.
Proof.
  unfold sameAccountWithLoadGroup, loaded_le.
  destruct (Z.eqb_spec (Priority (account a)) (Priority (account b)));
    [destruct (Z.eqb_spec (LoadRate a) (LoadRate b))|].
  - rewrite same_sec. intuition lia.
  - split; [done|]. intuition lia.
  - split; [done|]. intuition lia.
Qed.

(** ** The comparison functions *)

Lemma oauth_tie a b : (AType a !=? AType b) && is_oauth a = is_oauth a && negb (is_oauth b).
Proof.
  unfold is_oauth. repeat case_bool_decide; simpl; try done; congruence.
Qed.

Lemma last_used_irrefl_asym a b : last_used_before a b = true -> last_used_before b a = false.
Proof. destruct a, b; simpl; try done. unfold Before. rewrite Z.ltb_lt, Z.ltb_ge. lia. Qed.

Lemma last_used_not_trans a b c :
  last_used_before b a = false -> last_used_before c b = false -> last_used_before c a = false.
Proof. destruct a, b, c; simpl; try done. unfold Before. rewrite !Z.ltb_ge. lia. Qed.

(** A comparison by a first key, then by [l] where it ties, is a strict weak
    order when [l] is. *)
Lemma lex_asym {A} (k : A -> Z) (l : A -> A -> bool) x y :
  (forall x y, l x y = true -> l y x = false) ->
  (if k x =? k y then l x y else k x <? k y) = true ->
  (if k y =? k x then l y x else k y <? k x) = false.
Proof.
  intros Hl. rewrite (Z.eqb_sym (k y)). destruct (Z.eqb_spec (k x) (k y)); [apply Hl|].
  rewrite Z.ltb_lt, Z.ltb_ge. lia.
Qed.

Lemma lex_trans {A} (k : A -> Z) (l : A -> A -> bool) x y z :
  (forall x y z, l y x = false -> l z y = false -> l z x = false) ->
  (if k y =? k x then l y x else k y <? k x) = false ->
  (if k z =? k y then l z y else k z <? k y) = false ->
  (if k z =? k x then l z x else k z <? k x) = false.
Proof.
  intros Hl. destruct (Z.eqb_spec (k y) (k x)), (Z.eqb_spec (k z) (k y)), (Z.eqb_spec (k z) (k x));
    rewrite ?Z.ltb_ge; try lia. apply Hl.
Qed.

Definition nil_tie (preferOAuth : bool) (a b : Account) : bool :=
  match LastUsedAt a, LastUsedAt b with
  | None, None => preferOAuth && (AType a !=? AType b) && is_oauth a
  | _, _ => last_used_before (LastUsedAt a) (LastUsedAt b)
  end.

Lemma nil_tie_asym p a b : nil_tie p a b = true -> nil_tie p b a = false.
Proof.
  unfold nil_tie. rewrite <- !andb_assoc, !oauth_tie.
  destruct (LastUsedAt a) as [x|], (LastUsedAt b) as [y|]; simpl; try done.
  - apply (last_used_irrefl_asym (Some x) (Some y)).
  - destruct p, (is_oauth a), (is_oauth b); done.
Qed.

Lemma nil_tie_trans p a b c :
  nil_tie p b a = false -> nil_tie p c b = false -> nil_tie p c a = false.
Proof.
  unfold nil_tie. rewrite <- !andb_assoc, !oauth_tie.
  destruct (LastUsedAt a) as [x|], (LastUsedAt b) as [y|], (LastUsedAt c) as [z|]; simpl; try done.
  - apply (last_used_not_trans (Some x) (Some y) (Some z)).
  - destruct p, (is_oauth a), (is_oauth b), (is_oauth c); done.
Qed.

Lemma less_last_used_sorted p l :
  StronglySorted account_le (SliceStable (less_last_used p) l).
Proof.
  eapply sorted_coarser; [|apply SliceStable_sorted].
  - intros x y. unfold not_after, less_last_used, account_le.
    destruct (Z.eqb_spec (Priority y) (Priority x)) as [E|E]; rewrite ?Z.ltb_ge; [|lia].
    intros H. right. split; [done|]. destruct (LastUsedAt x), (LastUsedAt y); try done.
    by apply last_used_sec.
  - intros x y. apply (lex_asym Priority (nil_tie p)), nil_tie_asym.
  - intros x y z. apply (lex_trans Priority (nil_tie p)), nil_tie_trans.
Qed.

Lemma less_with_load_sorted l : StronglySorted loaded_le (SliceStable less_with_load l).
Proof.
  set (k := fun a b : accountWithLoad => last_used_before (LastUsedAt (account a)) (LastUsedAt (account b))).
  set (k2 := fun a b => if LoadRate a =? LoadRate b then k a b else LoadRate a <? LoadRate b).
  eapply sorted_coarser; [|apply SliceStable_sorted].
  - intros x y. unfold not_after, less_with_load, loaded_le.
    destruct (Z.eqb_spec (Priority (account y)) (Priority (account x))) as [E|E]; rewrite ?Z.ltb_ge; [|lia].
    destruct (Z.eqb_spec (LoadRate y) (LoadRate x)) as [E'|E']; rewrite ?Z.ltb_ge; [|lia].
    intros H. right. split; [done|]. right. split; [done|]. by apply last_used_sec.
  - intros x y. apply (lex_asym (fun a => Priority (account a)) k2).
    intros a b. apply (lex_asym LoadRate k). intros ??. apply last_used_irrefl_asym.
  - intros x y z. apply (lex_trans (fun a => Priority (account a)) k2).
    intros a b c. apply (lex_trans LoadRate k). intros ???. apply last_used_not_trans.
Qed.

Lemma less_priority_sorted p l :
  StronglySorted priority_le (SliceStable (less_priority p) l).
Proof.
  set (k := fun a b : Account => p && (AType a !=? AType b) && is_oauth a).
  eapply sorted_coarser; [|apply SliceStable_sorted].
  - intros x y. unfold not_after, less_priority, priority_le.
    destruct (Z.eqb_spec (Priority y) (Priority x)); rewrite ?Z.ltb_ge; lia.
  - intros x y. apply (lex_asym Priority k). unfold k. intros a b.
    rewrite <- !andb_assoc, !oauth_tie. destruct p, (is_oauth a), (is_oauth b); done.
  - intros x y z. apply (lex_trans Priority k). unfold k. intros a b c.
    rewrite <- !andb_assoc, !oauth_tie. destruct p, (is_oauth a), (is_oauth b), (is_oauth c); done.
Qed.

(** ** The rearranged lists *)

Section Orders.
Context {S : Type} (step : forall c, reply c -> S -> S) (ok : forall c, reply c -> Prop).
Context `{!QuietStep step}.

Lemma oauth_part_sorted a g :
  Forall (fun b => sameAccountGroup a b = true) g ->
  returns step ok (shuffle_oauth_first (a :: g))
    (fun g' => g' ≡ₚ a :: g /\ StronglySorted (tried_no_later true) g').
Proof.
  intros Hg. unfold shuffle_oauth_first.
  eapply returns_bind; [by apply returns_shuffle_many|]. intros oauth Ho.
  eapply returns_bind; [by apply returns_shuffle_many|]. intros others Hn. apply returns_Return.
  assert (Hperm : oauth ++ others ≡ₚ a :: g).
  { rewrite Ho, Hn. etransitivity;
      [|apply (filter_app_complement (fun x : Account => is_oauth x = true))].
    apply Permutation_app; [done|]. apply reflexive_eq, list_filter_iff. intros x.
    by rewrite not_true_iff_false. }
  split; [done|].
  assert (Hall : forall x, x ∈ oauth ++ others -> account_le a x /\ account_le x a).
  { intros x Hx. rewrite Hperm in Hx. apply elem_of_cons in Hx as [->|Hx].
    - split; apply account_le_refl.
    - rewrite Forall_forall in Hg. by apply same_account, Hg. }
  assert (Hle : forall x y, x ∈ oauth ++ others -> y ∈ oauth ++ others -> account_le x y).
  { intros x y Hx Hy. apply account_le_trans with a; apply Hall; done. }
  assert (HO : forall x, x ∈ oauth -> is_oauth x = true).
  { intros x Hx. rewrite Ho in Hx. by apply list_elem_of_filter in Hx as [? _]. }
  assert (HN : forall x, x ∈ others -> is_oauth x = false).
  { intros x Hx. rewrite Hn in Hx. by apply list_elem_of_filter in Hx as [? _]. }
  clear Ho Hn Hperm Hall Hg. apply StronglySorted_app. split; [|split].
  - intros x y Hx Hy. split; [apply Hle; apply elem_of_app; auto|]. intros _ _ _. by apply HO.
  - induction oauth as [|x l IH]; constructor.
    + apply IH; [|intros u Hu; apply HO; by right]. intros u v Hu Hv.
      apply Hle; simpl; by right.
    + apply Forall_forall. intros y Hy. split; [apply Hle; apply elem_of_app; left; [by left|by right]|].
      intros _ _ _. apply HO. by left.
  - induction others as [|x l IH]; constructor.
    + apply IH; [|intros u Hu; apply HN; by right]. intros u v Hu Hv.
      apply Hle; apply elem_of_app; apply elem_of_app in Hu as [|], Hv as [|]; auto; right; by right.
    + apply Forall_forall. intros y Hy.
      split; [apply Hle; apply elem_of_app; right; [by left|by right]|].
      intros _ _ H. rewrite HN in H; [done|by right].
Qed.

Lemma returns_by_last_used l p :
  returns step ok (sortAccountsByPriorityAndLastUsed l p)
    (fun l' => l' ≡ₚ l /\ StronglySorted (tried_no_later p) l').
Proof.
  unfold sortAccountsByPriorityAndLastUsed, shuffleWithinPriorityAndLastUsed.
  eapply returns_mono; [apply (returns_groups step ok sameAccountGroup _ account_le (tried_no_later p))|].
  - exact account_le_trans.
  - exact same_account.
  - intros x y H1 H2. split; [done|]. intros H3. by destruct H2.
  - intros a g Hg. destruct p; [by apply oauth_part_sorted|].
    eapply returns_mono.
    + apply (shuffled_class step ok sameAccountGroup account_le a g);
        [exact account_le_trans|exact same_account|apply account_le_refl|done].
    + intros g' [? Hs]. split; [done|]. eapply sorted_coarser; [|exact Hs].
      intros x y Hxy. by split.
  - done.
  - apply less_last_used_sorted.
  - intros l' [Hl Hs]. split; [|done]. rewrite Hl. apply SliceStable_perm.
Qed.

Lemma returns_random l p :
  returns step ok (shuffleWithinPriority (sortAccountsByPriorityOnly l p))
    (fun l' => l' ≡ₚ l /\ StronglySorted priority_le l').
Proof.
  assert (Hsame : forall a b : Account, (Priority b =? Priority a) = true <-> priority_le a b /\ priority_le b a).
  { intros a b. unfold priority_le. rewrite Z.eqb_eq. lia. }
  assert (Htr : forall x y z, priority_le x y -> priority_le y z -> priority_le x z).
  { unfold priority_le. lia. }
  eapply returns_mono;
    [apply (returns_groups step ok (fun a b => Priority b =? Priority a) _ priority_le priority_le)|].
  - exact Htr.
  - exact Hsame.
  - done.
  - intros a g Hg. apply (shuffled_class step ok (fun a b => Priority b =? Priority a));
      [exact Htr|exact Hsame|unfold priority_le; lia|done].
  - done.
  - apply less_priority_sorted.
  - intros l' [Hl Hs]. split; [|done]. rewrite Hl. apply SliceStable_perm.
Qed.

Lemma returns_by_load l :
  returns step ok (shuffleWithinSortGroups (SliceStable less_with_load l))
    (fun l' => l' ≡ₚ l /\ StronglySorted loaded_le l').
Proof.
  unfold shuffleWithinSortGroups. eapply returns_mono;
    [apply (returns_groups step ok sameAccountWithLoadGroup _ loaded_le loaded_le)|].
  - exact loaded_le_trans.
  - exact same_loaded.
  - done.
  - intros a g Hg. apply (shuffled_class step ok sameAccountWithLoadGroup);
      [exact loaded_le_trans|exact same_loaded|apply loaded_le_refl|done].
  - done.
  - apply less_with_load_sorted.
  - intros l' [Hl Hs]. split; [|done]. rewrite Hl. apply SliceStable_perm.
Qed.

(** The order of a mode. *)
Definition fallback_le (preferOAuth : bool) (mode : string) : Account -> Account -> Prop :=
  if mode ==? "random" then priority_le else tried_no_later preferOAuth.

Lemma returns_fallback l p mode :
  returns step ok (sortCandidatesForFallback l p mode)
    (fun l' => l' ≡ₚ l /\ StronglySorted (fallback_le p mode) l').
Proof.
  unfold sortCandidatesForFallback, fallback_le. case_bool_decide;
    [apply returns_random|apply returns_by_last_used].
Qed.

End Orders.

(** ** The layered filters *)

Lemma min_of_spec {A} (f : A -> Z) a l :
  (forall x, x ∈ a :: l -> min_of f a l <= f x) /\ exists x, x ∈ a :: l /\ f x = min_of f a l.
Proof.
  unfold min_of. cut (forall m, (exists x, x ∈ a :: l /\ f x = m) -> m <= f a ->
    let r := foldl (fun m b => if f b <? m then f b else m) m l in
    r <= f a /\ (forall x, x ∈ l -> r <= f x) /\ exists x, x ∈ a :: l /\ f x = r).
  { intros H. destruct (H (f a)) as (H1 & H2 & H3); [exists a; split; [by left|done]|lia|].
    split; [|done]. intros x [->|Hx]%elem_of_cons; [done|by apply H2]. }
  assert (forall l' m, (forall x, x ∈ l' -> x ∈ a :: l) -> (exists x, x ∈ a :: l /\ f x = m) -> m <= f a ->
    let r := foldl (fun m b => if f b <? m then f b else m) m l' in
    r <= m /\ (forall x, x ∈ l' -> r <= f x) /\ exists x, x ∈ a :: l /\ f x = r) as G.
  { induction l' as [|b l' IH]; intros m Hsub Hm Ha; simpl; [split_and!; [lia|set_solver|done]|].
    destruct (Z.ltb_spec (f b) m).
    - destruct (IH (f b)) as (H1 & H2 & H3); [set_solver|exists b; split; [apply Hsub; by left|done]|lia|].
      split_and!; [lia| |done]. intros x [->|Hx]%elem_of_cons; [done|by apply H2].
    - destruct (IH m) as (H1 & H2 & H3); [set_solver|done|done|].
      split_and!; [done| |done]. intros x [->|Hx]%elem_of_cons; [lia|by apply H2]. }
  intros m Hm Ha. destruct (G l m) as (H1 & H2 & H3); [set_solver|done|done|].
  split_and!; [lia|done|done].
Qed.

Lemma elem_of_keep_min {A} (f : A -> Z) (l : list A) x :
  x ∈ keep_min f l <-> x ∈ l /\ forall y, y ∈ l -> f x <= f y.
Proof.
  destruct l as [|a l]; [set_solver|]. unfold keep_min. rewrite list_elem_of_filter.
  destruct (min_of_spec f a l) as [Hle [m [Hm Hfm]]]. split.
  - intros [-> Hx]. split; [done|exact Hle].
  - intros [Hx Hmin]. split; [|done]. apply Z.le_antisymm; [|by apply Hle].
    rewrite <- Hfm. by apply Hmin.
Qed.

Lemma keep_min_nonempty {A} (f : A -> Z) (l : list A) : l <> [] -> keep_min f l <> [].
Proof.
  destruct l as [|a l]; [done|]. intros _ He. destruct (min_of_spec f a l) as [Hle [m [Hm Hfm]]].
  assert (m ∈ keep_min f (a :: l)) as Hin; [|rewrite He in Hin; by apply elem_of_nil in Hin].
  apply elem_of_keep_min. split; [done|]. intros y Hy. rewrite Hfm. by apply Hle.
Qed.

(** [earliest] over a list: [None] when there is no time, otherwise one of
    the times and none later. *)
Definition before_or_absent (m e : option time) : Prop :=
  match e with None => True | Some u => exists t, m = Some t /\ t <= u end.

Lemma fold_earliest {A} (f : A -> option time) l m :
  let r := foldl (fun m x => earliest m (f x)) m l in
  before_or_absent r m /\ (forall x, x ∈ l -> before_or_absent r (f x)) /\
  (r = m \/ exists x, x ∈ l /\ f x = r).
Proof.
  assert (Htr : forall a b c, before_or_absent a b -> before_or_absent b c -> before_or_absent a c).
  { intros a b [w|]; [|done]. simpl. intros Hab (u & -> & Hu). destruct Hab as (t & -> & Ht).
    exists t. split; [done|lia]. }
  revert m. induction l as [|x l IH]; intros m; simpl.
  - split_and!; [destruct m; simpl; [eauto with lia|done]|set_solver|by left].
  - destruct (IH (earliest m (f x))) as (H1 & H2 & H3).
    assert (He : before_or_absent (earliest m (f x)) m /\ before_or_absent (earliest m (f x)) (f x)
                 /\ (earliest m (f x) = m \/ earliest m (f x) = f x)).
    { destruct m as [t|], (f x) as [u|]; simpl; unfold Before;
        [destruct (Z.ltb_spec u t)|..]; split_and!; eauto with lia. }
    destruct He as (Hm & Hx & Hc). split_and!.
    + by eapply Htr.
    + intros y [->|Hy]%elem_of_cons; [by eapply Htr|by apply H2].
    + destruct H3 as [->|(y & Hy & <-)]; [|right; exists y; split; [by right|done]].
      destruct Hc as [->| ->]; [by left|right; exists x; split; [by left|done]].
Qed.

Definition reset_before (a b : option time) : Prop :=
  match a, b with Some t, Some u => t < u | Some _, None => True | None, _ => False end.

Lemma soonest_spec now l :
  (forall x, x ∈ filterBySoonestReset now l -> x ∈ l /\ forall y, y ∈ l ->
     reset_before (future_reset now x) (future_reset now y) \/
     (future_reset now x = future_reset now y /\ y ∈ filterBySoonestReset now l)) /\
  (l <> [] -> filterBySoonestReset now l <> []).
Proof.
  unfold filterBySoonestReset. destruct (length l <=? 1)%nat eqn:El.
  { apply Nat.leb_le in El. destruct l as [|a [|b l]]; simpl in El; [set_solver| |lia].
    split; [|done]. intros x ->%list_elem_of_singleton. split; [by left|].
    intros y ->%list_elem_of_singleton. right. split; [done|by left]. }
  destruct (fold_earliest (future_reset now) l None) as (_ & H2 & H3).
  destruct (foldl _ None l) as [m|] eqn:Ef.
  - split.
    + intros x [Hx Hin]%list_elem_of_filter. split; [done|]. intros y Hy.
      destruct (decide (future_reset now y = Some m)) as [Hym|Hym].
      * right. split; [congruence|]. by apply list_elem_of_filter.
      * left. rewrite Hx. specialize (H2 y Hy). destruct (future_reset now y) as [u|]; [|done].
        destruct H2 as (t & [= <-] & Ht). simpl. assert (m <> u) by congruence. lia.
    + intros _ He. destruct H3 as [[=]|(x & Hx & Hfx)].
      assert (x ∈ base.filter (fun x => future_reset now x = Some m) l) as Hin by (by apply list_elem_of_filter).
      rewrite He in Hin. by apply elem_of_nil in Hin.
  - split; [|done]. intros x Hx. split; [done|]. intros y Hy. right.
    assert (Hn : forall z, z ∈ l -> future_reset now z = None).
    { intros z Hz. specialize (H2 z Hz). destruct (future_reset now z); [|done]. by destruct H2 as (? & [=] & _). }
    by rewrite !Hn.
Qed.

Lemma least_recent_spec l :
  (forall x, x ∈ least_recent l -> x ∈ l /\ forall y, y ∈ l ->
     last_used_before (LastUsedAt (account x)) (LastUsedAt (account y)) = true \/
     (LastUsedAt (account x) = LastUsedAt (account y) /\ y ∈ least_recent l)) /\
  (l <> [] -> least_recent l <> []).
Proof.
  unfold least_recent. destruct (existsb _ l) eqn:En.
  - split.
    + intros x [Hx Hin]%list_elem_of_filter. split; [done|]. intros y Hy. rewrite Hx.
      destruct (LastUsedAt (account y)) as [u|] eqn:Ey; [by left|right].
      split; [done|]. by apply list_elem_of_filter.
    + intros _ He. apply existsb_exists in En as (x & Hx & Hb). apply bool_decide_eq_true in Hb.
      assert (x ∈ base.filter (fun x => LastUsedAt (account x) = None) l) as Hin.
      { apply list_elem_of_filter. split; [done|]. by apply list_elem_of_In. }
      rewrite He in Hin. by apply elem_of_nil in Hin.
  - assert (Hn : forall x, x ∈ l -> LastUsedAt (account x) <> None).
    { intros x Hx Hnil. apply not_true_iff_false in En. apply En, existsb_exists. exists x.
      split; [by apply list_elem_of_In|by apply bool_decide_eq_true]. }
    destruct (fold_earliest (fun x => LastUsedAt (account x)) l None) as (_ & H2 & H3).
    set (m := foldl _ None l) in *. split.
    + intros x [Hx Hin]%list_elem_of_filter. split; [done|]. intros y Hy.
      destruct (decide (LastUsedAt (account y) = m)) as [Hym|Hym].
      * right. split; [congruence|]. by apply list_elem_of_filter.
      * left. rewrite Hx. specialize (H2 y Hy). specialize (Hn y Hy).
        destruct (LastUsedAt (account y)) as [u|]; [|done]. destruct H2 as (t & -> & Ht). simpl.
        unfold Before. apply Z.ltb_lt. assert (t <> u) by congruence. lia.
    + intros Hl He. destruct H3 as [Hm|(x & Hx & Hfx)].
      * destruct l as [|a l]; [done|]. specialize (H2 a ltac:(by left)).
        specialize (Hn a ltac:(by left)). destruct (LastUsedAt (account a)); [|done].
        destruct H2 as (t & Ht & _). congruence.
      * assert (x ∈ base.filter (fun x => LastUsedAt (account x) = m) l) as Hin by (by apply list_elem_of_filter).
        rewrite He in Hin. by apply elem_of_nil in Hin.
Qed.

Section LRU.
Context {S : Type} (step : forall c, reply c -> S -> S) (ok : forall c, reply c -> Prop).
Context `{!QuietStep step}.
Hypothesis intn_ok : forall n r, ok (Intn n) r -> n <> O -> (r < n)%nat.

(** Of the accounts last used earliest, an OAuth one if they are preferred
    and there is one. *)
Lemma returns_LRU l p :
  returns step ok (selectByLRU l p) (fun r =>
    match r with
    | None => l = []
    | Some x => x ∈ l /\ forall y, y ∈ l ->
        last_used_before (LastUsedAt (account x)) (LastUsedAt (account y)) = true \/
        (LastUsedAt (account x) = LastUsedAt (account y) /\
         (p = true -> is_oauth (account y) = true -> is_oauth (account x) = true))
    end).
Proof.
  destruct l as [|a [|b l']]; [by apply returns_Return| |].
  { apply returns_Return. split; [by left|]. intros y ->%list_elem_of_singleton. by right. }
  unfold selectByLRU. set (l := a :: b :: l'). destruct (least_recent_spec l) as [Hspec Hne].
  specialize (Hne ltac:(done)). destruct (least_recent l) as [|x [|x' idx']] eqn:Ei; [done| |].
  { apply returns_Return. destruct (Hspec x ltac:(by left)) as [Hx Hy]. split; [done|].
    intros y Hin. destruct (Hy y Hin) as [|[? ->%list_elem_of_singleton]]; [by left|by right]. }
  set (idx := x :: x' :: idx') in *.
  set (chosen := if p then _ else _).
  assert (Hc : chosen <> [] /\ forall z, z ∈ chosen -> z ∈ idx /\
            (p = true -> forall y, y ∈ idx -> is_oauth (account y) = true -> is_oauth (account z) = true)).
  { unfold chosen. destruct p; [|by split]. destruct (base.filter _ idx) as [|o os] eqn:Ef.
    - split; [done|]. intros z Hz. split; [done|]. intros _ y Hy Ho.
      assert (y ∈ base.filter (fun x => is_oauth (account x) = true) idx) as Hin by (by apply list_elem_of_filter).
      rewrite Ef in Hin. by apply elem_of_nil in Hin.
    - split; [done|]. rewrite <- Ef. intros z [Hz Hin]%list_elem_of_filter. split; [done|]. by intros. }
  clearbody chosen. destruct Hc as [Hcne Hcz].
  eapply returns_bind.
  - instantiate (1 := fun r => (r < length chosen)%nat). destruct chosen as [|z zs]; [done|].
    apply (returns_do step ok (Intn (length (z :: zs)))); [done|]. intros r Hr. by apply intn_ok.
  - intros r Hr. destruct (lookup_lt_is_Some_2 chosen r Hr) as [z Hz]. rewrite Hz.
    apply returns_Return. destruct (Hcz z) as [Hzi Hzo]; [by apply list_elem_of_lookup_2 with r|].
    destruct (Hspec z Hzi) as [Hzl Hzy]. split; [done|]. intros y Hy.
    destruct (Hzy y Hy) as [|[He Hyi]]; [by left|right]. split; [done|].
    intros Hp Ho. by apply (Hzo Hp y).
Qed.

End LRU.
