(* ===== verification/SelectionGates.v ===== *)
(** * The gates of account selection: the checks of gateway_scheduling.go,
    model_rate_limit.go and gateway_forward.go an account must pass, as
    programs

    Schedulability, support for the model, limits per model, the channel's
    restrictions, quota, window cost, requests per minute and the number of
    sessions.  Each clock reading and cache lookup is a call. *)

From S2P Require Import Prelude GoStrings Float64 GoTime GoAny Account ModelMapping AccountQuota AccountScheduling ModelAvailability GroupRouting GoProgram GatewayCalls AccountOrder.
Local Open Scope Z_scope.

Section Gates.
Context (opts : ModelMappingOptions) (tzdb : string -> option Location) (loc : Location).
Context (svc : Services).

(** ** Schedulability *)

(** [account.IsSchedulable()]. *)
Definition isAccountSchedulableForSelection (a : Account) : prog bool :=
  now ← do Now; nd ← do Now; nw ← do Now; ret (IsSchedulable tzdb now nd nw a).

Fixpoint any_limit_active (a : Account) (keys : list string) : prog bool :=
  match keys with
  | [] => ret false
  | key :: keys => now ← do Now;
                   if isRateLimitActiveForKey now a key then ret true else any_limit_active a keys
  end.

Definition isModelRateLimitedWithContext (c : ModelCtx) (a : Account) (requestedModel : string)
    : prog bool :=
  any_limit_active a (modelRateLimitKeysForRequest opts c a requestedModel).

Fixpoint longest_remaining (a : Account) (keys : list string) (remaining : duration)
    : prog duration :=
  match keys with
  | [] => ret remaining
  | key :: keys =>
      now ← do Now;
      let keyRemaining := getRateLimitRemainingForKey now a key in
      longest_remaining a keys (if remaining <? keyRemaining then keyRemaining else remaining)
  end.

Definition GetModelRateLimitRemainingTimeWithContext (c : ModelCtx) (a : Account)
    (requestedModel : string) : prog duration :=
  longest_remaining a (modelRateLimitKeysForRequest opts c a requestedModel) 0.

Definition IsSchedulableForModelWithContext (c : ModelCtx) (a : Account) (requestedModel : string)
    : prog bool :=
  s ← isAccountSchedulableForSelection a;
  if negb s then ret false
  else
    limited ← isModelRateLimitedWithContext c a requestedModel;
    if (limited : bool) then
      if (Platform a ==? PlatformAntigravity) && IsOveragesEnabled a
      then now ← do Now; ret (negb (isCreditsExhausted now a))
      else ret false
    else ret true.

Definition isAccountSchedulableForModelSelection (c : Ctx) (a : Account) (requestedModel : string)
    : prog bool :=
  IsSchedulableForModelWithContext (ctx_Models c) a requestedModel.

(** The binding of a session to an account that cannot serve now is cleared;
    a missing account's is not. *)
Definition shouldClearStickySession (a : option Account) (requestedModel : string) : prog bool :=
  match a with
  | None => ret false
  | Some a =>
      s ← isAccountSchedulableForSelection a;
      if negb s then ret true
      else remaining ← GetModelRateLimitRemainingTimeWithContext Background a requestedModel;
           ret (0 <? remaining)
  end.

Definition isAccountAllowedForPlatform (a : Account) (platform : string) (useMixed : bool) : bool :=
  if useMixed then
    if Platform a ==? platform then true
    else (Platform a ==? PlatformAntigravity) && IsMixedSchedulingEnabled a
  else Platform a ==? platform.

Definition isAccountInGroup (a : Account) (groupID : option Z) : bool :=
  match groupID with
  | None => bool_decide (AccountGroups a = [])
  | Some gid => existsb (fun g => g ==? gid) (AccountGroups a)
  end.

Definition isAccountSchedulableForQuota (a : Account) : prog bool :=
  if negb (IsAPIKeyOrBedrock a) then ret true
  else nd ← do Now; nw ← do Now; ret (negb (IsQuotaExceeded tzdb nd nw a)).

(** ** Window cost and requests per minute *)

Definition windowCostFromPrefetchContext (c : Ctx) (id : Z) : option f64 :=
  if id <=? 0 then None else m ← WindowCosts c; m !! id.

Definition rpmFromPrefetchContext (c : Ctx) (id : Z) : option Z :=
  m ← RPMCounts c; m !! id.

(** A zone as a verdict. *)
Definition zone_allows (z : WindowCostSchedulability) (isSticky : bool) : bool :=
  match z with
  | WindowCostSchedulable => true
  | WindowCostStickyOnly => isSticky
  | WindowCostNotSchedulable => false
  end.

(** The cost of the window read from the database and cached; [None] when the
    query fails. *)
Definition window_cost_from_db (a : Account) : prog (option f64) :=
  now ← do Now;
  if negb (usageLogRepo svc) then Panic
  else
    stats ← do (GetAccountWindowStats (ID a) (GetCurrentWindowStartTime loc now a));
    match (stats : option f64) with
    | None => ret None
    | Some cost =>
        _ ← (if sessionLimitCache svc then do (SetWindowCost (ID a) cost) else ret tt);
        ret (Some cost)
    end.

Definition window_cost (c : Ctx) (a : Account) : prog (option f64) :=
  match windowCostFromPrefetchContext c (ID a) with
  | Some cost => ret (Some cost)
  | None =>
      hit ← (if sessionLimitCache svc then do (GetWindowCost (ID a)) else ret None);
      match (hit : option f64) with
      | Some cost => ret (Some cost)
      | None => window_cost_from_db a
      end
  end.

Definition isAccountSchedulableForWindowCost (c : Ctx) (a : Account) (isSticky : bool) : prog bool :=
  if negb (IsAnthropicOAuthOrSetupToken a) then ret true
  else if fleb (GetWindowCostLimit a) f0 then ret true
  else
    cost ← window_cost c a;
    match cost with
    | None => ret true
    | Some currentCost => ret (zone_allows (CheckWindowCostSchedulability a currentCost) isSticky)
    end.

Definition isAccountSchedulableForRPM (c : Ctx) (a : Account) (isSticky : bool) : prog bool :=
  if negb (IsAnthropicOAuthOrSetupToken a) then ret true
  else if GetBaseRPM a <=? 0 then ret true
  else
    currentRPM ← match rpmFromPrefetchContext c (ID a) with
                 | Some count => ret count
                 | None => if rpmCache svc then
                             r ← do (GetRPM (ID a)); ret (default 0 (r : option Z))
                           else ret 0
                 end;
    ret (zone_allows (CheckRPMSchedulability a currentRPM) isSticky).

(** ** Prefetching *)

Definition window_limited (a : Account) : bool :=
  IsAnthropicOAuthOrSetupToken a && negb (fleb (GetWindowCostLimit a) f0).

(** The accounts without a cached cost, by the second their window started. *)
Fixpoint missing_by_start (costs : gmap Z f64) (l : list Account)
    : prog (list (Z * (time * list Z))) :=
  match l with
  | [] => ret []
  | a :: l =>
      rest ← missing_by_start costs l;
      if costs !! ID a then ret rest
      else
        now ← do Now;
        let start := GetCurrentWindowStartTime loc now a in
        let key := unix_sec start in
        match list_find (fun e : Z * (time * list Z) => e.1 = key) rest with
        | Some (i, (_, (t, ids))) => ret (<[i := (key, (t, ID a :: ids))]> rest)
        | None => ret ((key, (start, [ID a])) :: rest)
        end
  end.

(** Costs queried one account at a time; a failed query leaves no cost. *)
Fixpoint costs_one_by_one (start : time) (ids : list Z) (costs : gmap Z f64) : prog (gmap Z f64) :=
  match ids with
  | [] => ret costs
  | id :: ids =>
      stats ← do (GetAccountWindowStats id start);
      match (stats : option f64) with
      | None => costs_one_by_one start ids costs
      | Some cost => _ ← do (SetWindowCost id cost); costs_one_by_one start ids (<[id := cost]> costs)
      end
  end.

(** Costs of one batch reply: an account without statistics costs nothing. *)
Fixpoint costs_of_batch (stats : gmap Z f64) (ids : list Z) (costs : gmap Z f64)
    : prog (gmap Z f64) :=
  match ids with
  | [] => ret costs
  | id :: ids =>
      let cost := default f0 (stats !! id) in
      _ ← do (SetWindowCost id cost); costs_of_batch stats ids (<[id := cost]> costs)
  end.

Fixpoint costs_by_start (groups : list (Z * (time * list Z))) (costs : gmap Z f64)
    : prog (gmap Z f64) :=
  match groups with
  | [] => ret costs
  | (_, (start, ids)) :: groups =>
      batch ← (if usageLogBatch svc then do (GetAccountWindowStatsBatch ids start) else ret None);
      costs ← match (batch : option (gmap Z f64)) with
              | Some stats => costs_of_batch stats ids costs
              | None => costs_one_by_one start ids costs
              end;
      costs_by_start groups costs
  end.

(** The groups are visited in the order of a map, which is unspecified. *)
Definition withWindowCostPrefetch (c : Ctx) (accounts : list Account) : prog Ctx :=
  if bool_decide (accounts = []) || negb (sessionLimitCache svc) || negb (usageLogRepo svc) then ret c
  else
    let limited := base.filter (fun a => window_limited a = true) accounts in
    if bool_decide (limited = []) then ret c
    else
      cached ← do (GetWindowCostBatch (map ID limited));
      let costs := default ∅ (cached : option (gmap Z f64)) in
      groups ← missing_by_start costs limited;
      groups ← shuffle_many groups;
      costs ← costs_by_start groups costs;
      ret (with_costs c costs).

Definition withRPMPrefetch (c : Ctx) (accounts : list Account) : prog Ctx :=
  if negb (rpmCache svc) then ret c
  else
    let ids := map ID (base.filter (fun a =>
                 IsAnthropicOAuthOrSetupToken a && (0 <? GetBaseRPM a) = true) accounts) in
    if bool_decide (ids = []) then ret c
    else counts ← do (GetRPMBatch ids);
         match (counts : option (gmap Z Z)) with
         | None => ret c
         | Some counts => ret (with_rpm c counts)
         end.

(** ** Sessions and slots *)

Definition checkAndRegisterSession (a : Account) (sessionID : string) : prog bool :=
  if negb (IsAnthropicOAuthOrSetupToken a) then ret true
  else
    let maxSessions := GetMaxSessions a in
    if (maxSessions <=? 0) || (sessionID ==? "") then ret true
    else if negb (sessionLimitCache svc) then ret true
    else
      r ← do (RegisterSession (ID a) sessionID maxSessions
                (wrap64 (GetSessionIdleTimeoutMinutes a * minute)));
      ret (default true (r : option bool)).

(** A release function: [None] for the empty one. *)
Definition ReleaseFunc := option Z.

Definition release (f : ReleaseFunc) : prog unit :=
  match f with Some id => do (ReleaseSlot id) | None => ret tt end.

(** [None] when the call fails or acquires nothing. *)
Definition tryAcquireAccountSlot (id maxConcurrency : Z) : prog (option ReleaseFunc) :=
  if negb (concurrencyService svc) then ret (Some None)
  else
    r ← do (AcquireAccountSlot id maxConcurrency);
    ret (if bool_decide ((r : option bool) = Some true) then Some (Some id) else None).

(** ** Sticky sessions *)

Definition derefGroupID (groupID : option Z) : Z := default 0 groupID.

Definition prefetchedStickyAccountIDFromContext (c : Ctx) (groupID : option Z) : Z :=
  match ctx_PrefetchedStickyGroupID c with
  | Some g => if g ==? derefGroupID groupID then
                match ctx_PrefetchedStickyAccountID c with
                | Some id => if 0 <? id then id else 0
                | None => 0
                end
              else 0
  | None => 0
  end.

(** The result is whether the write succeeded. *)
Definition BindStickySession (groupID : option Z) (sessionHash : string) (id : Z) : prog bool :=
  if (sessionHash ==? "") || (id <=? 0) || negb (cache svc) then ret true
  else do (SetSessionAccountID (derefGroupID groupID) sessionHash id).

Definition gatewayProfitControlGateActive (c : Ctx) : bool :=
  match ProfitGate c with Some _ => true | None => false end.

Definition bindGatewayStickySessionDuringSelection (c : Ctx) (groupID : option Z)
    (sessionHash : string) (id : Z) : prog bool :=
  if gatewayProfitControlGateActive c then ret true else BindStickySession groupID sessionHash id.

(** Under a gate, an existing binding to another account stays, and so does
    one that cannot be read. *)
Definition BindStickySessionAfterProfitAdmission (c : Ctx) (groupID : option Z)
    (sessionHash : string) (id : Z) : prog bool :=
  if (sessionHash ==? "") || (id <=? 0) || negb (cache svc) then ret true
  else if negb (gatewayProfitControlGateActive c) then BindStickySession groupID sessionHash id
  else
    existing ← do (GetSessionAccountID (derefGroupID groupID) sessionHash);
    match (existing : result StickyError Z) with
    | Err StickyReadFailed => ret true
    | Err ErrStickySessionNotFound => BindStickySession groupID sessionHash id
    | Ok e => if (0 <? e) && (e !=? id) then ret true else BindStickySession groupID sessionHash id
    end.

(** ** The selected account *)

Definition hydrateSelectedAccount (a : Account) : prog (result SelectionError Account) :=
  if negb (schedulerSnapshot svc) then ret (Ok a)
  else
    r ← do (SnapshotGetAccount (ID a));
    ret match (r : option (option Account)) with
        | Some (Some hydrated) => Ok hydrated
        | _ => Err (ErrHydrate (ID a))
        end.

Record AccountWaitPlan := mkWaitPlan {
  wp_AccountID : Z;
  wp_MaxConcurrency : Z;
  wp_Timeout : duration;
  wp_MaxWaiting : Z;
}.

Record AccountSelectionResult := mkSelection {
  sel_Account : Account;
  sel_Acquired : bool;
  sel_ReleaseFunc : option ReleaseFunc;       (** [None]: the nil function *)
  sel_WaitPlan : option AccountWaitPlan;
  sel_profitGate : option openAIProfitControlGate;
}.

Definition Selected := result SelectionError AccountSelectionResult.

Definition newSelectionResult (c : Ctx) (a : Account) (acquired : bool)
    (f : option ReleaseFunc) (plan : option AccountWaitPlan) : prog Selected :=
  h ← hydrateSelectedAccount a;
  ret match h with
      | Ok hydrated => Ok (mkSelection hydrated acquired f plan (ProfitGate c))
      | Err e => Err e
      end.

(** ** Channel restrictions *)

Definition BillingModelSourceRequested := "requested".
Definition BillingModelSourceUpstream := "upstream".

(** Empty for the upstream basis, which is checked account by account; the
    mapped model for every other basis. *)
Definition billingModelForRestriction (source requestedModel channelMappedModel : string) : string :=
  if source ==? BillingModelSourceRequested then requestedModel
  else if source ==? BillingModelSourceUpstream then ""
  else channelMappedModel.

Definition checkChannelPricingRestriction (groupID : option Z) (requestedModel : string) : prog bool :=
  match groupID with
  | None => ret false
  | Some gid =>
      if negb (channelService svc) || (requestedModel ==? "") then ret false
      else
        m ← do (ResolveChannelMapping gid requestedModel);
        let '(source, mapped) := (m : string * string) in
        let billingModel := billingModelForRestriction source requestedModel mapped in
        if billingModel ==? "" then ret false else do (IsModelRestricted gid billingModel)
  end.

Definition resolveAccountUpstreamModel (a : Account) (requestedModel : string) : string :=
  if Platform a ==? PlatformAntigravity then mapAntigravityModel opts a requestedModel
  else GetMappedModel opts a requestedModel.

Definition isUpstreamModelRestrictedByChannel (gid : Z) (a : Account) (requestedModel : string)
    : prog bool :=
  if negb (channelService svc) then ret false
  else
    let upstreamModel := resolveAccountUpstreamModel a requestedModel in
    if upstreamModel ==? "" then ret false else do (IsModelRestricted gid upstreamModel).

Definition needsUpstreamChannelRestrictionCheck (groupID : option Z) : prog bool :=
  match groupID with
  | None => ret false
  | Some gid =>
      if negb (channelService svc) then ret false
      else
        ch ← do (GetChannelForGroup gid);
        ret match (ch : option (option (bool * string))) with
            | Some (Some (restrictModels, source)) =>
                restrictModels && (source ==? BillingModelSourceUpstream)
            | _ => false
            end
  end.

Definition isStickyAccountUpstreamRestricted (groupID : option Z) (a : Account)
    (requestedModel : string) : prog bool :=
  match groupID with
  | None => ret false
  | Some gid =>
      needs ← needsUpstreamChannelRestrictionCheck groupID;
      if negb needs then ret false else isUpstreamModelRestrictedByChannel gid a requestedModel
  end.

(** The closure [isChannelRestricted], and the test of the legacy loops. *)
Definition isChannelRestricted (needsUpstreamCheck : bool) (groupID : option Z) (a : Account)
    (requestedModel : string) : prog bool :=
  if negb needsUpstreamCheck then ret false
  else match groupID with
       | Some gid => isUpstreamModelRestrictedByChannel gid a requestedModel
       | None => Panic
       end.

(** ** Groups *)

Definition valid_group_with_id (g : option Group) (gid : Z) : option Group :=
  match g with
  | Some h => if IsGroupContextValid g && (GID h ==? gid) then Some h else None
  | None => None
  end.

Definition groupFromContext (c : Ctx) (gid : Z) : option Group := valid_group_with_id (ctx_Group c) gid.

Definition withGroupContext (c : Ctx) (group : option Group) : Ctx :=
  match group with
  | Some g => if negb (IsGroupContextValid group) then c
              else if groupFromContext c (GID g) then c else with_group c g
  | None => c
  end.

Definition resolveGroupByID (c : Ctx) (gid : Z) : prog (result SelectionError Group) :=
  match groupFromContext c gid with
  | Some g => ret (Ok g)
  | None =>
      r ← do (GetByIDLite gid);
      ret match (r : option Group) with Some g => Ok g | None => Err ErrGroupLookup end
  end.

(** The group that serves: the first of the fallback chain open to the
    client.  [visited] holds the groups already seen. *)
Fixpoint resolve_fallbacks (fuel : nat) (c : Ctx) (visited : list Z) (currentID : Z)
    : prog (option (result SelectionError (Group * Z))) :=
  match fuel with
  | O => ret None
  | S n =>
      if bool_decide (currentID ∈ visited) then ret (Some (Err ErrFallbackCycle))
      else
        r ← resolveGroupByID c currentID;
        match r with
        | Err e => ret (Some (Err e))
        | Ok group =>
            if negb (ClaudeCodeOnly group) || ClaudeCodeClient c then ret (Some (Ok (group, currentID)))
            else match FallbackGroupID group with
                 | None => ret (Some (Err ErrClaudeCodeOnly))
                 | Some next => resolve_fallbacks n c (currentID :: visited) next
                 end
        end
  end.

(** [resolveGatewayGroup]; [None] only when the fuel runs out. *)
Definition resolveGatewayGroup (fuel : nat) (c : Ctx) (groupID : option Z)
    : prog (option (result SelectionError (option Group * option Z))) :=
  match groupID with
  | None => ret (Some (Ok (None, None)))
  | Some gid =>
      r ← resolve_fallbacks fuel c [] gid;
      ret match r with
          | None => None
          | Some (Err e) => Some (Err e)
          | Some (Ok (g, id)) => Some (Ok (Some g, Some id))
          end
  end.

(** A forced platform that is not the empty string. *)
Definition forced_platform (c : Ctx) : option string :=
  match ctx_ForcePlatform c with
  | Some p => if p ==? "" then None else Some p
  | None => None
  end.

Definition checkClaudeCodeRestriction (fuel : nat) (c : Ctx) (groupID : option Z)
    : prog (option (result SelectionError (option Group * option Z))) :=
  match groupID with
  | None => ret (Some (Ok (None, None)))
  | Some _ => match forced_platform c with
              | Some _ => ret (Some (Ok (None, groupID)))
              | None => resolveGatewayGroup fuel c groupID
              end
  end.

(** The decision for a composite group; [None] when nothing matches. *)
Definition resolveCompositeRouteDecision (c : Ctx) (group : Group) (requestedModel : string)
    : prog (result SelectionError (option CompositeRouteDecision)) :=
  if GPlatform group !=? PlatformComposite then ret (Ok None)
  else match ResolvedTargetPlatformFromContext c with
       | Some platform =>
           ret (Ok (Some (mkDecision true
             (default "detector" (CompositeRouteSourceFromContext (ctx_Models c))) requestedModel
             platform (default requestedModel (ResolvedUpstreamModelFromContext c)))))
       | None =>
           r ← do (CompositeResolve (GID group) requestedModel);
           ret match (r : option CompositeRouteDecision) with
               | None => Err ErrCompositeResolve
               | Some d => Ok (if Matched d then Some d else None)
               end
       end.

Definition group_platform (c : Ctx) (group : Group) (requestedModel : string)
    : prog (result SelectionError string) :=
  if GPlatform group ==? PlatformComposite then
    r ← resolveCompositeRouteDecision c group requestedModel;
    ret match r with
        | Err e => Err e
        | Ok None => Err (ErrCompositeUnknown requestedModel)
        | Ok (Some d) => Ok (TargetPlatform d)
        end
  else ret (Ok (GPlatform group)).

(** The platform and whether it is forced. *)
Definition resolvePlatform (c : Ctx) (groupID : option Z) (group : option Group)
    (requestedModel : string) : prog (result SelectionError (string * bool)) :=
  let unforced (r : result SelectionError string) :=
    match r with Ok p => Ok (p, false) | Err e => Err e end in
  match forced_platform c with
  | Some p => ret (Ok (p, true))
  | None =>
      match ResolvedTargetPlatformFromContext c with
      | Some p => ret (Ok (p, false))
      | None =>
          match group, groupID with
          | Some g, _ => r ← group_platform c g requestedModel; ret (unforced r)
          | None, Some gid =>
              g ← resolveGroupByID c gid;
              match g with
              | Err e => ret (Err e)
              | Ok g => r ← group_platform c g requestedModel; ret (unforced r)
              end
          | None, None => ret (Ok (PlatformAnthropic, false))
          end
      end
  end.

Definition routingAccountIDsForRequest (c : Ctx) (groupID : option Z)
    (requestedModel platform : string) : prog (list Z) :=
  match groupID with
  | None => ret []
  | Some gid =>
      if (requestedModel ==? "") || (platform !=? PlatformAnthropic) then ret []
      else
        r ← resolveGroupByID c gid;
        ret match r with
            | Err _ => []
            | Ok group =>
                if (GPlatform group !=? PlatformAnthropic) && (GPlatform group !=? PlatformComposite)
                then [] else GetRoutingAccountIDs group requestedModel
            end
  end.

(** ** The profit gate of a request *)

Definition clearForeignProfitControlGate (c : Ctx) (groupID : option Z) : Ctx :=
  match ProfitGate c, groupID with
  | Some existing, Some gid => if gate_groupID existing ==? gid then c else with_gate c None
  | _, _ => c
  end.

(** [None] on error, [Some None] for a nil group. *)
Definition resolveProfitControlGroup (c : Ctx) (gid : Z) : prog (option (option Group)) :=
  match groupFromContext c gid with
  | Some g => ret (Some (Some g))
  | None =>
      if schedulerSnapshot svc then do (SnapshotGroupLite gid)
      else r ← resolveGroupByID c gid;
           ret match r with Ok g => Some (Some g) | Err _ => None end
  end.

Definition valid_group (g : option Group) : option Group := if IsGroupContextValid g then g else None.

(** The group whose rates bill the request. *)
Definition billing_group (c : Ctx) (group : Group) : Group :=
  match valid_group (BillingGroup c) with
  | Some g => g
  | None => default group (valid_group (ctx_Group c))
  end.

Definition withGatewayProfitControlGate (c : Ctx) (groupID : option Z) : prog Ctx :=
  match TokenPricingAt c, groupID with
  | Some pricingAt, Some gid =>
      if gid <=? 0 then ret c
      else if match ProfitGate c with Some g => gate_groupID g ==? gid | None => false end then ret c
      else
        r ← resolveProfitControlGroup c gid;
        match r with
        | Some (Some group) =>
            if negb (ProfitControlEnabled group)
               || negb (profitControlPlatformSupported (GPlatform group))
            then ret (clearForeignProfitControlGate c groupID)
            else
              let billing := billing_group c group in
              downstream ← (if 0 <? CtxUserID c
                            then do (ResolveUserGroupRateMultiplier (CtxUserID c) (GID billing)
                                       (GRateMultiplier billing))
                            else ret (GRateMultiplier billing));
              let downstream := fmul downstream (PeakMultiplierAt loc billing pricingAt) in
              ret (with_gate c (Some (mkGate (GID group) (GPlatform group)
                     (gateway_threshold downstream (ProfitMinMargin group) (ProfitSafetyBuffer group))
                     pricingAt)))
        | _ => ret (clearForeignProfitControlGate c groupID)
        end
  | _, _ => ret c
  end.

(** ** The accounts of a group *)

Definition isAccountBlockedBySchedulingThreshold (a : Account) : prog (bool * Account) :=
  if negb (rateLimitService svc) then ret (false, a) else do (ApplyAccountSchedulingThreshold a).

Fixpoint filterAccountsBySchedulingThreshold (accounts : list Account) : prog (list Account) :=
  match accounts with
  | [] => ret []
  | a :: l =>
      r ← isAccountBlockedBySchedulingThreshold a;
      let '(blocked, a) := (r : bool * Account) in
      rest ← filterAccountsBySchedulingThreshold l;
      ret (if blocked then rest else a :: rest)
  end.

Definition list_query (groupID : option Z) (platform : string) (useMixed : bool) : ListQuery :=
  if useMixed then
    let platforms := [platform; PlatformAntigravity] in
    match groupID with
    | Some gid => ByGroupIDAndPlatforms gid platforms
    | None => if RunModeSimple svc then ByPlatforms platforms else UngroupedByPlatforms platforms
    end
  else if RunModeSimple svc then ByPlatform platform
  else match groupID with
       | Some gid => ByGroupIDAndPlatform gid platform
       | None => UngroupedByPlatform platform
       end.

(** The accounts and whether antigravity accounts are mixed in; [None] on
    error. *)
Definition listSchedulableAccounts (groupID : option Z) (platform : string) (force : bool)
    : prog (option (list Account * bool)) :=
  let grok := (platform ==? PlatformGrok) || EqualFold platform PlatformGrok in
  if schedulerSnapshot svc then
    r ← do (SnapshotListSchedulable groupID platform force);
    match (r : option (list Account * bool)) with
    | None => ret None
    | Some (accounts, useMixed) =>
        accounts ← filterAccountsBySchedulingThreshold accounts;
        accounts ← (if grok then do (FilterGrokFreeQuota accounts) else ret accounts);
        ret (Some (accounts, useMixed))
    end
  else
    let useMixed := ((platform ==? PlatformAnthropic) || (platform ==? PlatformGemini)) && negb force in
    r ← do (RepoList (list_query groupID platform useMixed));
    match (r : option (list Account)) with
    | None => ret None
    | Some accounts =>
        if useMixed then
          accounts ← filterAccountsBySchedulingThreshold (base.filter (fun a =>
            negb ((Platform a ==? PlatformAntigravity) && negb (IsMixedSchedulingEnabled a)) = true)
            accounts);
          ret (Some (accounts, true))
        else
          accounts ← filterAccountsBySchedulingThreshold accounts;
          accounts ← (if grok then do (FilterGrokFreeQuota accounts) else ret accounts);
          ret (Some (accounts, false))
    end.

(** An account by its identifier; [None] on error, [Some None] when it is
    missing, blocked by a threshold or gated by the free quota. *)
Definition getSchedulableAccount (id : Z) : prog (option (option Account)) :=
  r ← (if schedulerSnapshot svc then do (SnapshotGetAccount id) else do (GetByID id));
  match (r : option (option Account)) with
  | Some (Some a) =>
      b ← isAccountBlockedBySchedulingThreshold a;
      let '(blocked, a) := (b : bool * Account) in
      if blocked then ret (Some None)
      else if IsGrok a then
        gated ← do (FilterGrokFreeQuota [a]);
        ret (Some (if bool_decide ((gated : list Account) = []) then None else Some a))
      else ret (Some (Some a))
  | r => ret r
  end.

End Gates.
