(* ===== verification/AccountSelection.v ===== *)
(** * Selecting an account: internal/service/gateway_scheduling.go

    [SelectAccountWithLoadAwareness] and the two selections without load it
    falls back to: the layers in the order of the code (model routing, sticky
    session, load, waiting), each a program over the calls of
    [GatewayCalls]. *)

From S2P Require Import GoSort Prelude GoStrings Float64 GoTime GoAny Account ModelMapping ModelAvailability GroupRouting GoProgram GatewayCalls AccountOrder SelectionGates.
Local Open Scope Z_scope.

Section Selection.
Context (opts : ModelMappingOptions) (tzdb : string -> option Location) (loc : Location).
Context (svc : Services).

Definition schedulingConfig : GatewaySchedulingConfig :=
  default (mkSchedulingConfig 3 (45 * second) (30 * second) 100 "" false true) (cfg svc).

(** The last account of the list with an identifier, as the map
    [accountByID] holds it. *)
Definition accountByID (accounts : list Account) (id : Z) : option Account :=
  snd <$> list_find (fun a => ID a = id) (rev accounts).

(** ** Selection without load: selectAccountForModelWithPlatform and
    selectAccountWithMixedScheduling *)

(** The fold of both: [better] for two accounts of the same priority never
    used, among which the OAuth one may win. *)
Definition prefer_over (oauth_tie : Account -> Account -> bool) (selected acc : Account) : bool :=
  if Priority acc <? Priority selected then true
  else if Priority acc =? Priority selected then
    match LastUsedAt acc, LastUsedAt selected with
    | None, Some _ => true
    | Some _, None => false
    | None, None => oauth_tie acc selected
    | Some t, Some u => Before t u
    end
  else false.

Definition platform_tie (preferOAuth : bool) (acc selected : Account) : bool :=
  preferOAuth && (AType acc !=? AType selected) && (AType acc ==? AccountTypeOAuth).

Definition mixed_tie (preferOAuth : bool) (acc selected : Account) : bool :=
  preferOAuth && (Platform acc ==? PlatformGemini) && (Platform selected ==? PlatformGemini)
  && (AType acc !=? AType selected) && (AType acc ==? AccountTypeOAuth).

(** The first account that passes is selected, then any that beats it. *)
Fixpoint pick_best (better : Account -> Account -> bool) (gate : Account -> prog bool)
    (l : list Account) (selected : option Account) : prog (option Account) :=
  match l with
  | [] => ret selected
  | acc :: l =>
      b ← gate acc;
      if negb b then pick_best better gate l selected
      else match selected with
           | None => pick_best better gate l (Some acc)
           | Some s => pick_best better gate l (Some (if better s acc then acc else s))
           end
  end.

(** The group requires a privacy setting the account lacks: the account is
    marked and skipped. *)
Definition privacy_gate (schedGroup : option Group) (a : Account) : prog bool :=
  match schedGroup with
  | Some g => if RequirePrivacySet g && negb (IsPrivacySet a)
              then _ ← do (SetError (ID a)); ret false else ret true
  | None => ret true
  end.

Definition model_supported (c : Ctx) (a : Account) (requestedModel : string) : bool :=
  (requestedModel ==? "") || isModelSupportedByAccountWithContext opts (ctx_Models c) a requestedModel.

(** The loop body of both selections up to the comparison. *)
Definition legacy_gate (mixed needsUpstreamCheck : bool) (c : Ctx) (groupID : option Z)
    (schedGroup : option Group) (requestedModel : string) (excludedIDs : gset Z) (a : Account)
    : prog bool :=
  if bool_decide (ID a ∈ excludedIDs) then ret false
  else
    isAccountSchedulableForSelection tzdb a
    &&& ret (isGatewayAccountProfitEligible (ProfitGate c) a)
    &&& privacy_gate schedGroup a
    &&& ret (negb (mixed && (Platform a ==? PlatformAntigravity) && negb (IsMixedSchedulingEnabled a)))
    &&& ret (model_supported c a requestedModel)
    &&& (negb <$> isChannelRestricted opts svc needsUpstreamCheck groupID a requestedModel)
    &&& isAccountSchedulableForModelSelection opts tzdb c a requestedModel
    &&& isAccountSchedulableForQuota tzdb a
    &&& isAccountSchedulableForWindowCost loc svc c a false
    &&& isAccountSchedulableForRPM svc c a false.

(** The conditions on the account of a sticky session, after
    [shouldClearStickySession]; [upstream] when the channel is checked. *)
Definition legacy_sticky_gate (mixed upstream : bool) (c : Ctx) (groupID : option Z)
    (requestedModel platform : string) (a : Account) : prog bool :=
  ret (isGatewayAccountProfitEligible (ProfitGate c) a)
  &&& ret (isAccountInGroup a groupID)
  &&& ret (mixed || (Platform a ==? platform))
  &&& ret (model_supported c a requestedModel)
  &&& isAccountSchedulableForModelSelection opts tzdb c a requestedModel
  &&& isAccountSchedulableForQuota tzdb a
  &&& isAccountSchedulableForWindowCost loc svc c a true
  &&& isAccountSchedulableForRPM svc c a true
  &&& (if upstream then negb <$> isStickyAccountUpstreamRestricted opts svc groupID a requestedModel
       else ret true)
  &&& ret (negb mixed || (Platform a ==? platform)
           || ((Platform a ==? PlatformAntigravity) && IsMixedSchedulingEnabled a)).

(** The account bound to the session, if it passes. *)
Definition legacy_sticky (mixed upstream : bool) (c : Ctx) (groupID : option Z)
    (sessionHash requestedModel platform : string) (excludedIDs : gset Z)
    (in_scope : Z -> bool) : prog (option Account) :=
  if (sessionHash ==? "") || negb (cache svc) then ret None
  else
    r ← do (GetSessionAccountID (derefGroupID groupID) sessionHash);
    match (r : result StickyError Z) with
    | Err _ => ret None
    | Ok id =>
        if (id <=? 0) || negb (in_scope id) || bool_decide (id ∈ excludedIDs) then ret None
        else
          r ← getSchedulableAccount svc id;
          match r with
          | None => ret None
          | Some account =>
              clear ← shouldClearStickySession opts tzdb account requestedModel;
              _ ← (if (clear : bool) then do (DeleteSessionAccountID (derefGroupID groupID) sessionHash)
                   else ret tt);
              match account with
              | Some a =>
                  if (clear : bool) then ret None
                  else b ← legacy_sticky_gate mixed upstream c groupID requestedModel platform a;
                       ret (if (b : bool) then Some a else None)
              | None => ret None
              end
          end
    end.

Definition bind_selected (c : Ctx) (groupID : option Z) (sessionHash : string) (a : Account)
    : prog unit :=
  if (sessionHash !=? "") && cache svc
  then _ ← bindGatewayStickySessionDuringSelection svc c groupID sessionHash (ID a); ret tt
  else ret tt.

(** [isPlatformFilteredForSelection] and the diagnosis of a failed selection. *)
Definition isPlatformFilteredForSelection (a : Account) (platform : string)
    (allowMixedScheduling : bool) : bool :=
  if allowMixedScheduling then
    if Platform a ==? PlatformAntigravity then negb (IsMixedSchedulingEnabled a)
    else Platform a !=? platform
  else if TrimSpace platform ==? "" then false
  else Platform a !=? platform.

Inductive FailureCategory :=
| Excluded | Unschedulable | PlatformFiltered | ModelUnsupported | ModelRateLimited
| ProfitThreshold | ProfitInvalidRate | Eligible.

#[export] Instance category_eq_dec : EqDecision FailureCategory.
Proof. solve_decision. Defined.

Definition diagnoseSelectionFailure (c : Ctx) (a : Account) (requestedModel platform : string)
    (excludedIDs : gset Z) (allowMixedScheduling : bool) : prog FailureCategory :=
  if bool_decide (ID a ∈ excludedIDs) then ret Excluded
  else
    s ← isAccountSchedulableForSelection tzdb a;
    if negb s then ret Unschedulable
    else if isPlatformFilteredForSelection a platform allowMixedScheduling then ret PlatformFiltered
    else if negb (model_supported c a requestedModel) then ret ModelUnsupported
    else
      m ← isAccountSchedulableForModelSelection opts tzdb c a requestedModel;
      if negb m then
        _ ← GetModelRateLimitRemainingTimeWithContext opts (ctx_Models c) a requestedModel;
        ret ModelRateLimited
      else ret match openAIProfitControlVetoReason (ProfitGate c) a with
               | Some VetoThreshold => ProfitThreshold
               | Some VetoInvalidAccountRate => ProfitInvalidRate
               | None => Eligible
               end.

(** [selectionFailureStats]: the category of each account, in order. *)
Fixpoint collectSelectionFailureStats (c : Ctx) (accounts : list Account)
    (requestedModel platform : string) (excludedIDs : gset Z) (allowMixedScheduling : bool)
    : prog (list FailureCategory) :=
  match accounts with
  | [] => ret []
  | a :: l =>
      d ← diagnoseSelectionFailure c a requestedModel platform excludedIDs allowMixedScheduling;
      _ ← (if bool_decide (d = ModelRateLimited)
           then GetModelRateLimitRemainingTimeWithContext opts (ctx_Models c) a requestedModel
           else ret 0);
      rest ← collectSelectionFailureStats c l requestedModel platform excludedIDs allowMixedScheduling;
      ret (d :: rest)
  end.

(** The routed part: the sticky account within the routing set, then the best
    routed account. *)
Definition select_routed (mixed : bool) (c : Ctx) (groupID : option Z)
    (sessionHash requestedModel platform : string) (excludedIDs : gset Z)
    (schedGroup : option Group) (routingAccountIDs : list Z) (force : bool)
    : prog (result SelectionError (Account + (Ctx * list Account))) :=
  sticky ← legacy_sticky mixed (negb mixed) c groupID sessionHash requestedModel platform
             excludedIDs (containsInt64 routingAccountIDs);
  match sticky with
  | Some a => ret (Ok (inl a))
  | None =>
      r ← listSchedulableAccounts svc groupID platform force;
      match r with
      | None => ret (Err ErrQueryAccounts)
      | Some (accounts, _) =>
          c ← withWindowCostPrefetch loc svc c accounts;
          c ← withRPMPrefetch svc c accounts;
          let routed := base.filter (fun a =>
            (0 <? ID a) && containsInt64 routingAccountIDs (ID a) = true) accounts in
          let tie := if mixed then mixed_tie else platform_tie in
          selected ← pick_best (prefer_over (tie (platform ==? PlatformGemini)))
            (legacy_gate mixed false c groupID schedGroup requestedModel excludedIDs) routed None;
          match selected with
          | Some a => _ ← bind_selected c groupID sessionHash a; ret (Ok (inl a))
          | None => ret (Ok (inr (c, accounts)))
          end
      end
  end.

Definition sched_group (groupID : option Z) : prog (option Group) :=
  match groupID with
  | Some gid => if groupRepo svc then do (GroupGetByID gid) else ret None
  | None => ret None
  end.

(** The main loop, over the accounts of the group. *)
Definition select_best (mixed : bool) (c : Ctx) (groupID : option Z)
    (sessionHash requestedModel : string) (excludedIDs : gset Z) (platform : string)
    (schedGroup : option Group) (accounts : list Account) : prog (result SelectionError Account) :=
  c ← withWindowCostPrefetch loc svc c accounts;
  c ← withRPMPrefetch svc c accounts;
  needsUpstreamCheck ← needsUpstreamChannelRestrictionCheck svc groupID;
  let tie := if mixed then mixed_tie else platform_tie in
  selected ← pick_best (prefer_over (tie (platform ==? PlatformGemini)))
    (legacy_gate mixed needsUpstreamCheck c groupID schedGroup requestedModel excludedIDs)
    accounts None;
  match selected with
  | None =>
      _ ← collectSelectionFailureStats c accounts requestedModel platform excludedIDs mixed;
      ret (Err (if requestedModel ==? "" then ErrNoAvailableAccounts
                else ErrNoAccountsForModel requestedModel))
  | Some a => _ ← bind_selected c groupID sessionHash a; ret (Ok a)
  end.

(** The sticky account, or the best of the accounts, which are listed unless
    the routed part has listed them. *)
Definition select_unrouted (mixed : bool) (c : Ctx) (groupID : option Z)
    (sessionHash requestedModel : string) (excludedIDs : gset Z) (platform : string)
    (schedGroup : option Group) (force : bool) (loaded : option (list Account))
    : prog (result SelectionError Account) :=
  sticky ← legacy_sticky mixed mixed c groupID sessionHash requestedModel platform excludedIDs
             (fun _ => true);
  match sticky with
  | Some a => ret (Ok a)
  | None =>
      accounts ← match loaded with
                 | Some l => ret (Some l)
                 | None => r ← listSchedulableAccounts svc groupID platform force;
                           ret (fst <$> (r : option (list Account * bool)))
                 end : prog (option (list Account));
      match accounts with
      | None => ret (Err ErrQueryAccounts)
      | Some accounts =>
          select_best mixed c groupID sessionHash requestedModel excludedIDs platform schedGroup
            accounts
      end
  end.

(** Both selections: [mixed] tells them apart. *)
Definition select_without_load (mixed : bool) (c : Ctx) (groupID : option Z)
    (sessionHash requestedModel : string) (excludedIDs : gset Z) (platform : string)
    : prog (result SelectionError Account) :=
  let force := negb mixed && (if forced_platform c then true else false) in
  routingAccountIDs ← routingAccountIDsForRequest c groupID requestedModel platform;
  schedGroup ← sched_group groupID;
  match routingAccountIDs : list Z with
  | [] => select_unrouted mixed c groupID sessionHash requestedModel excludedIDs platform
            schedGroup force None
  | _ =>
      r ← select_routed mixed c groupID sessionHash requestedModel platform excludedIDs schedGroup
            routingAccountIDs force;
      match r with
      | Err e => ret (Err e)
      | Ok (inl a) => ret (Ok a)
      | Ok (inr (c, accounts)) =>
          select_unrouted mixed c groupID sessionHash requestedModel excludedIDs platform
            schedGroup force (Some accounts)
      end
  end.

Definition selectAccountForModelWithPlatform := select_without_load false.
Definition selectAccountWithMixedScheduling := select_without_load true.

Definition hydrated (r : result SelectionError Account) : prog (result SelectionError Account) :=
  match r with Err e => ret (Err e) | Ok a => hydrateSelectedAccount svc a end.

(** From the gate onwards, once platform, group and model are resolved. *)
Definition select_resolved (c : Ctx) (groupID : option Z) (sessionHash requestedModel : string)
    (excludedIDs : gset Z) (platform : string) : prog (result SelectionError Account) :=
  c ← withGatewayProfitControlGate loc svc c groupID;
  restricted ← checkChannelPricingRestriction svc groupID requestedModel;
  if (restricted : bool) then ret (Err (ErrChannelRestriction requestedModel))
  else
    let forced := match ctx_ForcePlatform c with Some _ => true | None => false end in
    if ((platform ==? PlatformAnthropic) || (platform ==? PlatformGemini)) && negb forced
    then r ← selectAccountWithMixedScheduling c groupID sessionHash requestedModel excludedIDs platform;
         hydrated r
    else r ← selectAccountForModelWithPlatform c groupID sessionHash requestedModel excludedIDs platform;
         hydrated r.

(** [None] only when the fuel of the fallback chain runs out. *)
Definition SelectAccountForModelWithExclusions (fuel : nat) (c : Ctx) (groupID : option Z)
    (sessionHash requestedModel : string) (excludedIDs : gset Z)
    : prog (option (result SelectionError Account)) :=
  match forced_platform c, groupID with
  | Some p, _ => Some <$> select_resolved c groupID sessionHash requestedModel excludedIDs p
  | None, None => Some <$> select_resolved c None sessionHash requestedModel excludedIDs PlatformAnthropic
  | None, Some _ =>
      r ← resolveGatewayGroup fuel c groupID;
      match r with
      | None => ret None
      | Some (Err e) => ret (Some (Err e))
      | Some (Ok (None, _)) => ret (Some (Err ErrGroupNotFound))
      | Some (Ok (Some group, groupID)) =>
          let c := withGroupContext c (Some group) in
          if GPlatform group ==? PlatformComposite then
            d ← resolveCompositeRouteDecision c group requestedModel;
            match d with
            | Err e => ret (Some (Err e))
            | Ok None => ret (Some (Err (ErrCompositeUnknown requestedModel)))
            | Ok (Some d) =>
                Some <$> select_resolved (WithCompositeRouteDecision c d) groupID sessionHash
                           (UpstreamModel d) excludedIDs (TargetPlatform d)
            end
          else Some <$> select_resolved c groupID sessionHash requestedModel excludedIDs
                          (GPlatform group)
      end
  end.

Definition SelectAccountForModel (fuel : nat) (c : Ctx) (groupID : option Z)
    (sessionHash requestedModel : string) : prog (option (result SelectionError Account)) :=
  SelectAccountForModelWithExclusions fuel c groupID sessionHash requestedModel ∅.

Definition SelectAccount (fuel : nat) (c : Ctx) (groupID : option Z) (sessionHash : string)
    : prog (option (result SelectionError Account)) :=
  SelectAccountForModel fuel c groupID sessionHash "".

(** ** Selection with load *)

Definition sticky_plan (a : Account) : AccountWaitPlan :=
  mkWaitPlan (ID a) (Concurrency a) (StickySessionWaitTimeout schedulingConfig)
    (StickySessionMaxWaiting schedulingConfig).

Definition fallback_plan (a : Account) : AccountWaitPlan :=
  mkWaitPlan (ID a) (Concurrency a) (FallbackWaitTimeout schedulingConfig)
    (FallbackMaxWaiting schedulingConfig).

(** An answer without a slot and with a place in the queue. *)
Definition wait_on (c : Ctx) (a : Account) (plan : AccountWaitPlan) : prog Selected :=
  newSelectionResult svc c a false None (Some plan).

(** Without the concurrency service or with the batch off: select, acquire,
    register, and select again without the account when its sessions are full.
    [None] only when the fuel runs out. *)
Fixpoint select_and_acquire (fuel gfuel : nat) (c : Ctx) (groupID : option Z)
    (sessionHash requestedModel : string) (stickyAccountID : Z) (localExcluded : gset Z)
    : prog (option Selected) :=
  match fuel with
  | O => ret None
  | S n =>
      r ← SelectAccountForModelWithExclusions gfuel c groupID sessionHash requestedModel localExcluded;
      match r with
      | None => ret None
      | Some (Err e) => ret (Some (Err e))
      | Some (Ok a) =>
          let again := select_and_acquire n gfuel c groupID sessionHash requestedModel
                         stickyAccountID ({[ID a]} ∪ localExcluded) in
          acquired ← tryAcquireAccountSlot svc (ID a) (Concurrency a);
          ok ← checkAndRegisterSession svc a sessionHash;
          match acquired with
          | Some f =>
              if negb ok then _ ← release f; again
              else Some <$> newSelectionResult svc c a true (Some f) None
          | None =>
              if negb ok then again
              else if (0 <? stickyAccountID) && (stickyAccountID ==? ID a) && concurrencyService svc then
                waiting ← do (GetAccountWaitingCount (ID a));
                if (waiting : Z) <? StickySessionMaxWaiting schedulingConfig
                then Some <$> wait_on c a (sticky_plan a)
                else Some <$> wait_on c a (fallback_plan a)
              else Some <$> wait_on c a (fallback_plan a)
          end
      end
  end.

(** The verdict of the gates of the load-aware layers. *)
Inductive verdict := Passed | ChannelRestricted | Filtered.

#[export] Instance verdict_eq_dec : EqDecision verdict.
Proof. solve_decision. Defined.

(** What the layers share: the request after its group and platform are
    resolved. *)
Record Request := mkRequest {
  rq_ctx : Ctx;
  rq_groupID : option Z;
  rq_hash : string;
  rq_model : string;
  rq_platform : string;
  rq_useMixed : bool;
  rq_needsUpstream : bool;
  rq_excluded : gset Z;
  rq_sticky : Z;                    (** [stickyAccountID] *)
  rq_preferOAuth : bool;
}.

Definition selection_gates (q : Request) (a : Account) (isSticky : bool) : prog verdict :=
  let c := rq_ctx q in
  first ← (isAccountSchedulableForSelection tzdb a
           &&& ret (isGatewayAccountProfitEligible (ProfitGate c) a)
           &&& ret (isAccountAllowedForPlatform a (rq_platform q) (rq_useMixed q))
           &&& ret (model_supported c a (rq_model q)));
  if negb first then ret Filtered
  else
    restricted ← isChannelRestricted opts svc (rq_needsUpstream q) (rq_groupID q) a (rq_model q);
    if (restricted : bool) then ret ChannelRestricted
    else
      rest ← (isAccountSchedulableForModelSelection opts tzdb c a (rq_model q)
              &&& isAccountSchedulableForQuota tzdb a
              &&& isAccountSchedulableForWindowCost loc svc c a isSticky
              &&& isAccountSchedulableForRPM svc c a isSticky);
      ret (if (rest : bool) then Passed else Filtered).

Definition bind_sticky (q : Request) (a : Account) : prog unit :=
  bind_selected (rq_ctx q) (rq_groupID q) (rq_hash q) a.

(** One attempt: acquire, register, and release when the sessions are full.
    [Some f] when both succeed. *)
Definition acquire_and_register (q : Request) (a : Account) : prog (option ReleaseFunc * bool) :=
  acquired ← tryAcquireAccountSlot svc (ID a) (Concurrency a);
  match acquired with
  | None => ret (None, false)
  | Some f =>
      ok ← checkAndRegisterSession svc a (rq_hash q);
      if negb ok then _ ← release f; ret (None, true) else ret (Some f, false)
  end.

(** *** Layer 1: routed accounts *)

Fixpoint routing_candidates (q : Request) (accounts : list Account) (ids : list Z)
    : prog (list Account) :=
  match ids with
  | [] => ret []
  | id :: ids =>
      if bool_decide (id ∈ rq_excluded q) then routing_candidates q accounts ids
      else match accountByID accounts id with
           | None => routing_candidates q accounts ids
           | Some a => v ← selection_gates q a false;
                       rest ← routing_candidates q accounts ids;
                       ret (if bool_decide (v = Passed) then a :: rest else rest)
           end
  end.

(** The bound account, when it is among the routed ones. *)
Definition routed_sticky (q : Request) (accounts : list Account) (routingAccountIDs : list Z)
    : prog (option Selected) :=
  let id := rq_sticky q in
  if (rq_hash q ==? "") || (id <=? 0) || negb (containsInt64 routingAccountIDs id)
     || bool_decide (id ∈ rq_excluded q) then ret None
  else match accountByID accounts id with
       | None => if negb (cache svc) then Panic
                 else _ ← do (DeleteSessionAccountID (derefGroupID (rq_groupID q)) (rq_hash q)); ret None
       | Some a =>
           v ← selection_gates q a true;
           if negb (bool_decide (v = Passed)) then ret None
           else
             r ← acquire_and_register q a;
             match r with
             | (Some f, _) => Some <$> newSelectionResult svc (rq_ctx q) a true (Some f) None
             | (None, true) => ret None
             | (None, false) =>
                 waiting ← do (GetAccountWaitingCount id);
                 if (waiting : Z) <? StickySessionMaxWaiting schedulingConfig then
                   ok ← checkAndRegisterSession svc a (rq_hash q);
                   if negb ok then ret None else Some <$> wait_on (rq_ctx q) a (sticky_plan a)
                 else ret None
             end
       end.

(** The first account whose slot and session are both granted. *)
Fixpoint try_in_order (q : Request) (l : list Account) : prog (option Selected) :=
  match l with
  | [] => ret None
  | a :: l =>
      r ← acquire_and_register q a;
      match r with
      | (Some f, _) => _ ← bind_sticky q a;
                       Some <$> newSelectionResult svc (rq_ctx q) a true (Some f) None
      | (None, _) => try_in_order q l
      end
  end.

(** The first account whose session is granted, to wait on. *)
Fixpoint wait_in_order (q : Request) (plan : Account -> AccountWaitPlan) (l : list Account)
    : prog (option Selected) :=
  match l with
  | [] => ret None
  | a :: l => ok ← checkAndRegisterSession svc a (rq_hash q);
              if negb ok then wait_in_order q plan l else Some <$> wait_on (rq_ctx q) a (plan a)
  end.

Definition load_request (accounts : list Account) : list (Z * Z) :=
  map (fun a => (ID a, EffectiveLoadFactor a)) accounts.

(** The accounts below full load; one without load information has load 0. *)
Definition with_load (loads : gmap Z Z) (accounts : list Account) : list accountWithLoad :=
  base.filter (fun x => LoadRate x < 100)
    (map (fun a => mkWithLoad a (default 0 (loads !! ID a))) accounts).

(** The first program's answer, or the second's. *)
Definition or_else (p q : prog (option Selected)) : prog (option Selected) :=
  r ← p; match r with Some s => ret (Some s) | None => q end.

Definition routed_by_load (q : Request) (candidates : list Account) : prog (option Selected) :=
  r ← do (GetAccountsLoadBatch (load_request candidates));
  let '(loads, _) := (r : gmap Z Z * bool) in
  ordered ← shuffleWithinSortGroups (SliceStable less_with_load (with_load loads candidates));
  let l := map account ordered in
  or_else (try_in_order q l) (wait_in_order q sticky_plan l).

Definition layer1 (q : Request) (accounts : list Account) (routingAccountIDs : list Z)
    : prog (option Selected) :=
  if bool_decide (routingAccountIDs = []) || negb (concurrencyService svc) then ret None
  else
    candidates ← routing_candidates q accounts routingAccountIDs;
    if bool_decide (candidates = []) then ret None
    else or_else (routed_sticky q accounts routingAccountIDs) (routed_by_load q candidates).

(** *** Layer 1.5: the sticky account, without routing rules

    Every check is made, whatever the others say. *)
Definition sticky_checks (q : Request) (a : Account) : prog bool :=
  let c := rq_ctx q in
  clear ← shouldClearStickySession opts tzdb (Some a) (rq_model q);
  _ ← (if negb clear then ret tt
       else if negb (cache svc) then Panic
       else do (DeleteSessionAccountID (derefGroupID (rq_groupID q)) (rq_hash q)));
  restricted ← isChannelRestricted opts svc (rq_needsUpstream q) (rq_groupID q) a (rq_model q);
  modelOK ← isAccountSchedulableForModelSelection opts tzdb c a (rq_model q);
  quotaOK ← isAccountSchedulableForQuota tzdb a;
  windowCostOK ← isAccountSchedulableForWindowCost loc svc c a true;
  rpmOK ← isAccountSchedulableForRPM svc c a true;
  schedulable ← isAccountSchedulableForSelection tzdb a;
  ret (negb clear && isAccountAllowedForPlatform a (rq_platform q) (rq_useMixed q)
       && isGatewayAccountProfitEligible (ProfitGate c) a && model_supported c a (rq_model q)
       && negb restricted && modelOK && quotaOK && windowCostOK && rpmOK && schedulable).

Definition layer1_5 (q : Request) (accounts : list Account) (routingAccountIDs : list Z)
    : prog (option Selected) :=
  let id := rq_sticky q in
  if negb (bool_decide (routingAccountIDs = [])) || (rq_hash q ==? "") || (id <=? 0)
     || bool_decide (id ∈ rq_excluded q) then ret None
  else match accountByID accounts id with
       | None => ret None
       | Some a =>
           ok ← sticky_checks q a;
           if negb ok then ret None
           else
             r ← acquire_and_register q a;
             match r with
             | (Some f, _) =>
                 _ ← (if cache svc
                      then do (RefreshSessionTTL (derefGroupID (rq_groupID q)) (rq_hash q)) else ret tt);
                 Some <$> newSelectionResult svc (rq_ctx q) a true (Some f) None
             | (None, _) =>
                 waiting ← do (GetAccountWaitingCount id);
                 if (waiting : Z) <? StickySessionMaxWaiting schedulingConfig then
                   ok ← checkAndRegisterSession svc a (rq_hash q);
                   if negb ok then ret None else Some <$> wait_on (rq_ctx q) a (sticky_plan a)
                 else ret None
             end
       end.

(** *** Layer 2: by load *)

(** The candidates and the number the channel restricts. *)
Fixpoint load_candidates (q : Request) (accounts : list Account) : prog (list Account * nat) :=
  match accounts with
  | [] => ret ([], O)
  | a :: l =>
      if bool_decide (ID a ∈ rq_excluded q) then load_candidates q l
      else
        v ← selection_gates q a false;
        rest ← load_candidates q l;
        let '(cs, n) := (rest : list Account * nat) in
        ret match v with
            | Passed => (a :: cs, n)
            | ChannelRestricted => (cs, S n)
            | Filtered => (cs, n)
            end
  end.

(** Priority, then the soonest reset if so configured, then load, then last
    use. *)
Definition pick_layered (q : Request) (available : list accountWithLoad)
    : prog (option accountWithLoad) :=
  let candidates := filterByMinPriority available in
  candidates ← (if PreferSoonestReset schedulingConfig
                then if (length candidates <=? 1)%nat then ret candidates
                     else now ← do Now; ret (filterBySoonestReset now candidates)
                else ret candidates);
  selectByLRU (filterByMinLoadRate candidates) (rq_preferOAuth q).

(** Each round removes the account it tried, so the number of accounts is
    enough fuel. *)
Fixpoint layered_loop (fuel : nat) (q : Request) (available : list accountWithLoad)
    : prog (option Selected) :=
  match fuel, available with
  | _, [] => ret None
  | O, _ => ret None
  | S n, _ =>
      selected ← pick_layered q available;
      match selected with
      | None => ret None
      | Some x =>
          let a := account x in
          r ← acquire_and_register q a;
          match r with
          | (Some f, _) => _ ← bind_sticky q a;
                           Some <$> newSelectionResult svc (rq_ctx q) a true (Some f) None
          | (None, _) =>
              layered_loop n q (base.filter (fun y => ID (account y) <> ID a) available)
          end
      end
  end.

(** When the loads cannot be read. *)
Definition tryAcquireByLegacyOrder (q : Request) (candidates : list Account) : prog (option Selected) :=
  ordered ← sortAccountsByPriorityAndLastUsed candidates (rq_preferOAuth q);
  try_in_order q ordered.

Definition layer2 (q : Request) (candidates : list Account) : prog (option Selected) :=
  r ← do (GetAccountsLoadBatch (load_request candidates));
  let '(loads, failed) := (r : gmap Z Z * bool) in
  if (failed : bool) then tryAcquireByLegacyOrder q candidates
  else let available := with_load loads candidates in
       layered_loop (length available) q available.

(** *** Layer 3: waiting *)

Definition layer3 (q : Request) (candidates : list Account) : prog Selected :=
  ordered ← sortCandidatesForFallback candidates (rq_preferOAuth q)
              (FallbackSelectionMode schedulingConfig);
  r ← wait_in_order q fallback_plan ordered;
  ret (default (Err ErrNoAvailableAccounts) r).

Definition layers23 (q : Request) (accounts : list Account) : prog Selected :=
  r ← load_candidates q accounts;
  let '(candidates, restricted) := (r : list Account * nat) in
  match candidates with
  | [] => ret (Err (if (0 <? restricted)%nat then ErrChannelRestriction (rq_model q)
                    else ErrNoAvailableAccounts))
  | _ =>
      s ← layer2 q candidates;
      match s with
      | Some s => ret s
      | None => layer3 q candidates
      end
  end.

(** The layers in order. *)
Definition select_layers (q : Request) (accounts : list Account) (routingAccountIDs : list Z)
    : prog Selected :=
  s ← or_else (layer1 q accounts routingAccountIDs) (layer1_5 q accounts routingAccountIDs);
  match s with
  | Some s => ret s
  | None => layers23 q accounts
  end.

(** The account the session is bound to: prefetched, or read from the cache. *)
Definition sticky_account (c : Ctx) (groupID : option Z) (sessionHash : string) : prog Z :=
  let prefetch := prefetchedStickyAccountIDFromContext c groupID in
  if 0 <? prefetch then ret prefetch
  else if (sessionHash !=? "") && cache svc then
    r ← do (GetSessionAccountID (derefGroupID groupID) sessionHash);
    ret match (r : result StickyError Z) with Ok id => id | Err _ => 0 end
  else ret 0.

Definition routing_ids (group : option Group) (requestedModel platform : string) : list Z :=
  match group with
  | Some g => if (requestedModel !=? "") && (platform ==? PlatformAnthropic)
                 && ((GPlatform g ==? PlatformAnthropic) || (GPlatform g ==? PlatformComposite))
              then GetRoutingAccountIDs g requestedModel else []
  | None => []
  end.

(** The load-aware part, from the resolution of the platform. *)
Definition select_with_load (c : Ctx) (group : option Group) (groupID : option Z)
    (sessionHash requestedModel : string) (excludedIDs : gset Z) (stickyAccountID : Z)
    : prog Selected :=
  p ← resolvePlatform c groupID group requestedModel;
  match p with
  | Err e => ret (Err e)
  | Ok (platform, force) =>
      r ← listSchedulableAccounts svc groupID platform force;
      match r with
      | None => ret (Err ErrQueryAccounts)
      | Some ([], _) => ret (Err ErrNoAvailableAccounts)
      | Some (accounts, useMixed) =>
          c ← withWindowCostPrefetch loc svc c accounts;
          c ← withRPMPrefetch svc c accounts;
          needsUpstream ← needsUpstreamChannelRestrictionCheck svc groupID;
          let q := mkRequest c groupID sessionHash requestedModel platform useMixed needsUpstream
                     excludedIDs stickyAccountID (platform ==? PlatformGemini) in
          select_layers q accounts (routing_ids group requestedModel platform)
      end
  end.

(** [None] only when a fuel runs out: [gfuel] of the fallback groups, [fuel]
    of the selections without load. *)
Definition SelectAccountWithLoadAwareness (fuel gfuel : nat) (c : Ctx) (groupID : option Z)
    (sessionHash requestedModel : string) (excludedIDs : gset Z) : prog (option Selected) :=
  r ← checkClaudeCodeRestriction gfuel c groupID;
  match r with
  | None => ret None
  | Some (Err e) => ret (Some (Err e))
  | Some (Ok (group, groupID)) =>
      let c := withGroupContext c group in
      c ← withGatewayProfitControlGate loc svc c groupID;
      restricted ← checkChannelPricingRestriction svc groupID requestedModel;
      if (restricted : bool) then ret (Some (Err (ErrChannelRestriction requestedModel)))
      else
        stickyAccountID ← sticky_account c groupID sessionHash;
        if negb (concurrencyService svc) || negb (LoadBatchEnabled schedulingConfig)
        then select_and_acquire fuel gfuel c groupID sessionHash requestedModel stickyAccountID
               excludedIDs
        else Some <$> select_with_load c group groupID sessionHash requestedModel excludedIDs
                        stickyAccountID
  end.

End Selection.
