(* ===== verification/AccountSelectionProperties.v ===== *)
(** * Selecting an account: what every run of [AccountSelection] does

    Whatever the clock, the caches and the database answer: the slots and
    sessions a selection holds when it returns are those of the account it
    returns, that account passed the gates, the load layers try accounts in
    their order, and the loops end. *)

From S2P Require Import Prelude Float64 GoTime GoAny Account ModelMapping AccountQuota AccountScheduling ModelAvailability GroupRouting GoProgram GatewayCalls AccountOrder AccountOrderProperties SelectionGates AccountSelection.
Local Open Scope Z_scope.

(** What is assumed of replies: the clock reads times of [clock_ok],
    [rand.Intn] is below its bound, an account found by its identifier, or
    left by the threshold check, has that identifier, the accounts offered are
    those of [account_ok], and the groups read fall back to groups of
    [fallback_ok]. *)
Record Env := mkEnv {
  clock_ok : time -> Prop;
  account_ok : Z -> Prop;
  fallback_ok : Z -> Prop;
}.

(** Nothing assumed of times, accounts and groups. *)
Definition any_env : Env := mkEnv (fun _ => True) (fun _ => True) (fun _ => True).

Definition falls_back (E : Env) (g : Group) : Prop :=
  match FallbackGroupID g with Some f => fallback_ok E f | None => True end.

Definition env_ok (E : Env) (c : call) : reply c -> Prop :=
  match c with
  | Now => clock_ok E
  | Intn n => fun r => n <> O -> (r < n)%nat
  | SnapshotGetAccount id | GetByID id => fun r =>
      forall a, r = Some (Some a) -> ID a = id /\ account_ok E (ID a)
  | SnapshotListSchedulable _ _ _ => fun r =>
      forall l m, r = Some (l, m) -> Forall (fun a => account_ok E (ID a)) l
  | RepoList _ => fun r => forall l, r = Some l -> Forall (fun a => account_ok E (ID a)) l
  | FilterGrokFreeQuota _ => Forall (fun a => account_ok E (ID a))
  | ApplyAccountSchedulingThreshold a => fun r => ID r.2 = ID a
  | GetByIDLite _ => fun r => forall g, r = Some g -> falls_back E g
  | _ => fun _ => True
  end.

(** What any environment assumes, [any_env] does. *)
Lemma env_ok_any E c r : env_ok E c r -> env_ok any_env c r.
Proof.
  assert (Hl : forall l : list Account, Forall (fun a => account_ok any_env (ID a)) l).
  { intros l. by apply Forall_true. }
  destruct c; simpl; try done; try naive_solver.
  intros _ g _. unfold falls_back. by destruct (FallbackGroupID g).
Qed.

Lemma Forall_subset {A} (P : A -> Prop) l l' : l' ⊆ l -> Forall P l -> Forall P l'.
Proof. rewrite !Forall_forall. set_solver. Qed.

Section Gates.
Context {S : Type} (step : forall c, reply c -> S -> S) `{!QuietStep step}.
Context (opts : ModelMappingOptions) (tzdb : string -> option Location) (loc : Location).
Context (svc : Services) (E : Env).

Abbreviation returns' p P := (returns step (env_ok E) p P).

(** ** The gates leave slots and sessions alone *)

Definition schedulable_in (a : Account) : Prop :=
  exists now nd nw, clock_ok E now /\ clock_ok E nd /\ clock_ok E nw /\ IsSchedulable tzdb now nd nw a = true.

(** No limit on the model is active, or an antigravity account has credits
    left. *)
Definition model_open (c : ModelCtx) (a : Account) (requestedModel : string) : Prop :=
  (forall key, key ∈ modelRateLimitKeysForRequest opts c a requestedModel ->
     exists now, clock_ok E now /\ isRateLimitActiveForKey now a key = false) \/
  (Platform a = PlatformAntigravity /\ IsOveragesEnabled a = true /\
   exists now, clock_ok E now /\ isCreditsExhausted now a = false).

Definition quota_open (a : Account) : Prop :=
  IsAPIKeyOrBedrock a = true -> exists nd nw, clock_ok E nd /\ clock_ok E nw /\ IsQuotaExceeded tzdb nd nw a = false.

Lemma returns_schedulable a :
  returns' (isAccountSchedulableForSelection tzdb a) (fun b => b = true -> schedulable_in a).
Proof.
  unfold isAccountSchedulableForSelection.
  eapply returns_bind; [quiet_call; exact (fun _ H => H)|]. intros now Hnow.
  eapply returns_bind; [quiet_call; exact (fun _ H => H)|]. intros nd Hnd.
  eapply returns_bind; [quiet_call; exact (fun _ H => H)|]. intros nw Hnw.
  apply returns_Return. intros Hs. by exists now, nd, nw.
Qed.

Lemma returns_limits a keys :
  returns' (any_limit_active a keys) (fun b => b = false -> forall key, key ∈ keys ->
    exists now, clock_ok E now /\ isRateLimitActiveForKey now a key = false).
Proof.
  induction keys as [|k keys IH]; cbn [any_limit_active]; [apply returns_Return; set_solver|].
  eapply returns_bind; [quiet_call; exact (fun _ H => H)|]. intros now Hnow.
  destruct (isRateLimitActiveForKey now a k) eqn:Ek; [by apply returns_Return|].
  eapply returns_mono; [exact IH|]. intros b Hb H key [->|Hk]%elem_of_cons; eauto.
Qed.

Lemma returns_model_schedulable c a m :
  returns' (IsSchedulableForModelWithContext opts tzdb c a m)
    (fun b => b = true -> schedulable_in a /\ model_open c a m).
Proof.
  unfold IsSchedulableForModelWithContext.
  eapply returns_bind; [apply returns_schedulable|]. intros [] Hs; cbn [negb andb]; [|by apply returns_Return].
  eapply returns_bind; [apply returns_limits|]. intros [] Hl.
  - destruct (Platform a ==? PlatformAntigravity) eqn:Hp; cbn [negb andb]; [|by apply returns_Return].
    destruct (IsOveragesEnabled a) eqn:Ho; [|by apply returns_Return].
    eapply returns_bind; [quiet_call; exact (fun _ H => H)|]. intros now Hnow. apply returns_Return.
    intros Hc%negb_true_iff. split; [by apply Hs|]. right. apply bool_decide_eq_true in Hp. eauto.
  - apply returns_Return. intros _. split; [by apply Hs|]. left. by apply Hl.
Qed.

Lemma returns_remaining a keys r : silent step (env_ok E) (longest_remaining a keys r).
Proof.
  revert r. induction keys as [|k keys IH]; intros r; cbn [longest_remaining]; [by apply returns_Return|].
  eapply returns_bind; [quiet_call|]. intros now _. apply IH.
Qed.

Lemma returns_should_clear a m : silent step (env_ok E) (shouldClearStickySession opts tzdb a m).
Proof.
  destruct a as [a|]; cbn [shouldClearStickySession]; [|by apply returns_Return].
  eapply returns_bind; [apply returns_schedulable|]. intros [] _; cbn [negb andb]; [|by apply returns_Return].
  eapply returns_bind; [apply returns_remaining|]. intros. by apply returns_Return.
Qed.

Lemma returns_quota a :
  returns' (isAccountSchedulableForQuota tzdb a) (fun b => b = true -> quota_open a).
Proof.
  unfold isAccountSchedulableForQuota, quota_open.
  destruct (IsAPIKeyOrBedrock a) eqn:Ek; cbn [negb andb]; [|by apply returns_Return].
  do 2 (eapply returns_bind; [quiet_call; exact (fun _ H => H)|]; intros ??).
  apply returns_Return. intros Hq%negb_true_iff. eauto.
Qed.

(** The zone of a prefetched count or cost. *)
Definition rpm_open (c : Ctx) (a : Account) (isSticky : bool) : Prop :=
  forall n, IsAnthropicOAuthOrSetupToken a = true -> 0 < GetBaseRPM a ->
    rpmFromPrefetchContext c (ID a) = Some n -> zone_allows (CheckRPMSchedulability a n) isSticky = true.

Definition cost_open (c : Ctx) (a : Account) (isSticky : bool) : Prop :=
  forall cost, IsAnthropicOAuthOrSetupToken a = true -> fleb (GetWindowCostLimit a) f0 = false ->
    windowCostFromPrefetchContext c (ID a) = Some cost ->
    zone_allows (CheckWindowCostSchedulability a cost) isSticky = true.

Lemma returns_rpm c a st :
  returns' (isAccountSchedulableForRPM svc c a st) (fun b => b = true -> rpm_open c a st).
Proof.
  unfold isAccountSchedulableForRPM, rpm_open.
  destruct (IsAnthropicOAuthOrSetupToken a); cbn [negb andb]; [|by apply returns_Return].
  destruct (Z.leb_spec (GetBaseRPM a) 0); [apply returns_Return; intros; lia|].
  destruct (rpmFromPrefetchContext c (ID a)) as [n|] eqn:Ek.
  - apply returns_Return. intros Hz m _ _ [= <-]. done.
  - eapply (returns_bind _ _ _ _ (fun _ => True)).
    + destruct (rpmCache svc); [|by apply returns_Return].
      eapply returns_bind; [quiet_call|]. intros. by apply returns_Return.
    + intros. apply returns_Return. by intros.
Qed.

Hypothesis has_db : usageLogRepo svc = true.

Lemma returns_cost c a st :
  returns' (isAccountSchedulableForWindowCost loc svc c a st) (fun b => b = true -> cost_open c a st).
Proof.
  unfold isAccountSchedulableForWindowCost, cost_open.
  destruct (IsAnthropicOAuthOrSetupToken a); cbn [negb andb]; [|by apply returns_Return].
  destruct (fleb (GetWindowCostLimit a) f0) eqn:El; [by apply returns_Return|].
  unfold window_cost. destruct (windowCostFromPrefetchContext c (ID a)) as [n|] eqn:Ek.
  - apply returns_Return. intros Hz m _ _ [= <-]. done.
  - eapply (returns_bind _ _ _ _ (fun _ => True)).
    + eapply (returns_bind _ _ _ _ (fun _ => True)).
      { destruct (sessionLimitCache svc); [quiet_call|by apply returns_Return]. }
      intros hit _. destruct (hit : option f64); [by apply returns_Return|].
      unfold window_cost_from_db. rewrite has_db.
      eapply returns_bind; [quiet_call|]. intros now _. cbn [negb].
      eapply returns_bind; [quiet_call|].
      intros stats _. destruct (stats : option f64); [|by apply returns_Return].
      eapply (returns_bind _ _ _ _ (fun _ => True)); [|intros; by apply returns_Return].
      destruct (sessionLimitCache svc); [quiet_call|by apply returns_Return].
    + intros [cost|] _; apply returns_Return; by intros.
Qed.

Lemma returns_upstream gid a m :
  silent step (env_ok E) (isUpstreamModelRestrictedByChannel opts svc gid a m).
Proof.
  unfold isUpstreamModelRestrictedByChannel. destruct (channelService svc); cbn [negb andb]; [|by apply returns_Return].
  case_bool_decide; [by apply returns_Return|quiet_call].
Qed.

(** The channel is only asked when the request has a group. *)
Lemma returns_channel (needs : bool) groupID a m :
  (needs = true -> groupID <> None) ->
  silent step (env_ok E) (isChannelRestricted opts svc needs groupID a m).
Proof.
  intros H. unfold isChannelRestricted. destruct needs; cbn [negb andb]; [|by apply returns_Return].
  destruct groupID; [apply returns_upstream|by destruct (H eq_refl)].
Qed.

(** ** What an account that passes the gates satisfies *)

Record passes (q : Request) (a : Account) (isSticky : bool) : Prop := {
  pass_schedulable : schedulable_in a;
  pass_profit : isGatewayAccountProfitEligible (ProfitGate (rq_ctx q)) a = true;
  pass_platform : isAccountAllowedForPlatform a (rq_platform q) (rq_useMixed q) = true;
  pass_model : model_supported opts (rq_ctx q) a (rq_model q) = true;
  pass_limits : model_open (ctx_Models (rq_ctx q)) a (rq_model q);
  pass_quota : quota_open a;
  pass_cost : cost_open (rq_ctx q) a isSticky;
  pass_rpm : rpm_open (rq_ctx q) a isSticky;
}.

Lemma returns_ret (b : bool) : returns' (ret b) (fun r => r = true -> b = true).
Proof. by apply returns_Return. Qed.

Context (q : Request).
Hypothesis upstream_grouped : rq_needsUpstream q = true -> rq_groupID q <> None.

Lemma returns_gates a st :
  returns' (selection_gates opts tzdb loc svc q a st) (fun v => v = Passed -> passes q a st).
Proof.
  unfold selection_gates. eapply returns_bind.
  { do 3 (apply returns_andb; [|apply returns_ret]). apply returns_schedulable. }
  intros [] Hf; cbn [negb]; [|by apply returns_Return].
  eapply returns_bind; [by apply returns_channel|]. intros [] _; [by apply returns_Return|].
  eapply returns_bind.
  { do 2 (apply returns_andb; [|apply returns_cost || apply returns_rpm]).
    apply returns_andb; [apply returns_model_schedulable|apply returns_quota]. }
  intros [] Hr; apply returns_Return; [|done]. intros _.
  destruct (Hf eq_refl) as [[[? ?] ?] ?]. destruct (Hr eq_refl) as [[[[? ?] ?] ?] ?]. by constructor.
Qed.

Lemma returns_sticky_checks a :
  cache svc = true ->
  returns' (sticky_checks opts tzdb loc svc q a) (fun b => b = true -> passes q a true).
Proof.
  intros Hc. unfold sticky_checks. eapply returns_bind; [apply returns_should_clear|]. intros clear _.
  eapply (returns_bind _ _ _ _ (fun _ => True)).
  { rewrite Hc. destruct clear; cbn [negb]; [quiet_call|by apply returns_Return]. }
  intros _ _. eapply returns_bind; [by apply returns_channel|]. intros restricted _.
  eapply returns_bind; [apply returns_model_schedulable|]. intros m Hm.
  eapply returns_bind; [apply returns_quota|]. intros qt Hq.
  eapply returns_bind; [apply returns_cost|]. intros w Hw.
  eapply returns_bind; [apply returns_rpm|]. intros r Hr.
  eapply returns_bind; [apply returns_schedulable|]. intros s Hs. apply returns_Return.
  intros Hb. repeat (apply andb_true_iff in Hb as [Hb ?]). constructor; auto.
  by apply Hm.
Qed.

(** ** The answer, the binding and the candidates *)

Lemma returns_result c a acquired f plan :
  returns' (newSelectionResult svc c a acquired f plan) (fun r =>
    match r with
    | Ok sel => ID (sel_Account sel) = ID a /\ sel_Acquired sel = acquired /\
                sel_ReleaseFunc sel = f /\ sel_WaitPlan sel = plan
    | Err e => e = ErrHydrate (ID a) /\ schedulerSnapshot svc = true
    end).
Proof.
  unfold newSelectionResult. eapply (returns_bind _ _ _ _ (fun h =>
    match h with Ok b => ID b = ID a | Err e => e = ErrHydrate (ID a) /\ schedulerSnapshot svc = true end)).
  - unfold hydrateSelectedAccount. destruct (schedulerSnapshot svc) eqn:Es; cbn [negb]; [|by apply returns_Return].
    eapply returns_bind; [quiet_call; exact (fun _ H => H)|]. intros r Hr. apply returns_Return.
    destruct r as [[b|]|]; [by apply Hr|done|done].
  - intros [b|e] Hb; by apply returns_Return.
Qed.

Lemma silent_bind_selected c gid h a : silent step (env_ok E) (bind_selected svc c gid h a).
Proof.
  unfold bind_selected, bindGatewayStickySessionDuringSelection, BindStickySession.
  destruct (_ && _); [|by apply returns_Return].
  apply (returns_bind _ _ _ _ (fun _ => True)); [|intros; by apply returns_Return].
  destruct (gatewayProfitControlGateActive _); [by apply returns_Return|].
  destruct (_ || _ || _); [by apply returns_Return|quiet_call].
Qed.

Lemma returns_bind_sticky a : silent step (env_ok E) (bind_sticky svc q a).
Proof. apply silent_bind_selected. Qed.

(** The account the session is bound to. *)
Definition bound (a : Account) : Prop := rq_hash q <> "" /\ 0 < rq_sticky q /\ ID a = rq_sticky q.

(** An account of the list, not excluded, that passed the gates, as a sticky
    one only if it is the bound one. *)
Definition candidate (accounts : list Account) (a : Account) : Prop :=
  a ∈ accounts /\ ID a ∉ rq_excluded q /\
  exists isSticky : bool, passes q a isSticky /\ (isSticky = true -> bound a).

Lemma accountByID_spec accounts id a : accountByID accounts id = Some a -> a ∈ accounts /\ ID a = id.
Proof.
  unfold accountByID. intros ([i b] & Hf & [= ->])%fmap_Some.
  apply list_find_Some in Hf as (Hl & Hid & _). split; [|done].
  apply list_elem_of_In, in_rev, list_elem_of_In. by apply list_elem_of_lookup_2 in Hl.
Qed.

Lemma returns_routing_candidates accounts ids :
  returns' (routing_candidates opts tzdb loc svc q accounts ids) (Forall (candidate accounts)).
Proof.
  induction ids as [|id ids IH]; cbn [routing_candidates]; [by apply returns_Return|].
  case_bool_decide as He; [done|]. destruct (accountByID accounts id) as [a|] eqn:Ea; [|done].
  apply accountByID_spec in Ea as [Ha Hid].
  eapply returns_bind; [apply returns_gates|]. intros v Hv.
  eapply returns_bind; [exact IH|]. intros rest Hr. apply returns_Return.
  case_bool_decide as Hp; [|done]. constructor; [|done]. rewrite <- Hid in He.
  split_and!; [done|done|exists false; split; [by apply Hv|done]].
Qed.

Lemma returns_load_candidates accounts :
  returns' (load_candidates opts tzdb loc svc q accounts) (fun r => Forall (candidate accounts) r.1).
Proof.
  assert (H : forall l, l ⊆ accounts ->
    returns' (load_candidates opts tzdb loc svc q l) (fun r => Forall (candidate accounts) r.1)).
  { induction l as [|a l IH]; intros Hsub; cbn [load_candidates]; [by apply returns_Return|].
    assert (Hl : l ⊆ accounts) by set_solver. specialize (IH Hl).
    case_bool_decide as He; [done|].
    eapply returns_bind; [apply returns_gates|]. intros v Hv.
    eapply returns_bind; [exact IH|]. intros [cs n] Hr. apply returns_Return.
    destruct v; [|done..]. constructor; [|done]. split_and!; [set_solver|done|exists false; split; [by apply Hv|done]]. }
  by apply H.
Qed.

Lemma with_load_accounts loads l : map account (with_load loads l) ⊆ l.
Proof.
  intros a (x & -> & Hx)%list_elem_of_fmap. apply list_elem_of_filter in Hx as [_ Hx].
  by apply list_elem_of_fmap in Hx as (b & -> & Hb).
Qed.

(** ** What precedes the layers *)

Lemma silent_resolveGroupByID c gid : silent step (env_ok E) (resolveGroupByID c gid).
Proof. unfold resolveGroupByID. silently. Qed.

Lemma silent_fallbacks n c visited gid : silent step (env_ok E) (resolve_fallbacks n c visited gid).
Proof.
  revert visited gid. induction n as [|n IH]; intros visited gid; cbn [resolve_fallbacks]; [silently|].
  case_bool_decide; [silently|].
  eapply returns_bind; [apply silent_resolveGroupByID|]. intros [g|e] _; [|silently].
  destruct (_ || _); [silently|]. destruct (FallbackGroupID g); [apply IH|silently].
Qed.

Lemma silent_gateway_group n c gid : silent step (env_ok E) (resolveGatewayGroup n c gid).
Proof.
  destruct gid as [gid|]; cbn [resolveGatewayGroup]; [|silently].
  eapply returns_bind; [apply silent_fallbacks|]. intros. silently.
Qed.

Lemma silent_restriction n c gid : silent step (env_ok E) (checkClaudeCodeRestriction n c gid).
Proof.
  unfold checkClaudeCodeRestriction. destruct gid; [|silently].
  destruct (forced_platform c); [silently|apply silent_gateway_group].
Qed.

Lemma silent_composite c g m : silent step (env_ok E) (resolveCompositeRouteDecision c g m).
Proof. unfold resolveCompositeRouteDecision. silently. Qed.

Lemma silent_group_platform c g m : silent step (env_ok E) (group_platform c g m).
Proof.
  unfold group_platform. case_bool_decide; [|silently].
  eapply returns_bind; [apply silent_composite|]. intros. silently.
Qed.

Lemma silent_platform c gid g m : silent step (env_ok E) (resolvePlatform c gid g m).
Proof.
  unfold resolvePlatform. destruct (forced_platform c); [silently|].
  destruct (ResolvedTargetPlatformFromContext c); [silently|].
  destruct g as [g|]; [|destruct gid as [gid|]; [|silently]].
  - eapply returns_bind; [apply silent_group_platform|]. intros. silently.
  - eapply returns_bind; [apply silent_resolveGroupByID|]. intros [g|] _; [|silently].
    eapply returns_bind; [apply silent_group_platform|]. intros. silently.
Qed.

Lemma silent_profit_gate c gid : silent step (env_ok E) (withGatewayProfitControlGate loc svc c gid).
Proof.
  unfold withGatewayProfitControlGate, resolveProfitControlGroup.
  destruct (TokenPricingAt c); [|silently]. destruct gid as [gid|]; [|silently].
  destruct (gid <=? 0); [silently|].
  destruct (match ProfitGate c with Some g => _ | None => _ end); [silently|].
  apply (returns_bind _ _ _ _ (fun _ => True)).
  - destruct (groupFromContext c gid); [silently|]. destruct (schedulerSnapshot svc); [silently|].
    eapply returns_bind; [apply silent_resolveGroupByID|]. intros. silently.
  - intros r _. silently.
Qed.

Lemma silent_pricing gid m : silent step (env_ok E) (checkChannelPricingRestriction svc gid m).
Proof. unfold checkChannelPricingRestriction. silently. Qed.

Lemma silent_sticky_account c gid h : silent step (env_ok E) (sticky_account svc c gid h).
Proof. unfold sticky_account. silently. Qed.

Lemma returns_needs gid :
  returns' (needsUpstreamChannelRestrictionCheck svc gid) (fun b => b = true -> gid <> None).
Proof.
  unfold needsUpstreamChannelRestrictionCheck. destruct gid as [gid|]; [|by apply returns_Return].
  apply (returns_mono _ _ _ (fun _ => True)); [silently|done].
Qed.

Lemma silent_missing costs l : silent step (env_ok E) (missing_by_start loc costs l).
Proof.
  induction l as [|a l IH]; cbn [missing_by_start]; [silently|].
  eapply returns_bind; [exact IH|]. intros rest _. destruct (costs !! ID a); [silently|].
  eapply returns_bind; [quiet_call; exact (fun _ _ => I)|]. intros now _.
  destruct (list_find _ rest) as [[i [k [t ids]]]|]; silently.
Qed.

Lemma silent_one_by_one start ids costs : silent step (env_ok E) (costs_one_by_one start ids costs).
Proof.
  revert costs. induction ids as [|id ids IH]; intros costs; cbn [costs_one_by_one]; [silently|].
  eapply returns_bind; [quiet_call; exact (fun _ _ => I)|]. intros stats _.
  destruct (stats : option f64); [|apply IH].
  eapply returns_bind; [quiet_call; exact (fun _ _ => I)|]. intros. apply IH.
Qed.

Lemma silent_of_batch stats ids costs : silent step (env_ok E) (costs_of_batch stats ids costs).
Proof.
  revert costs. induction ids as [|id ids IH]; intros costs; cbn [costs_of_batch]; [silently|].
  eapply returns_bind; [quiet_call; exact (fun _ _ => I)|]. intros. apply IH.
Qed.

Lemma silent_by_start groups costs : silent step (env_ok E) (costs_by_start svc groups costs).
Proof.
  revert costs. induction groups as [|[k [start ids]] groups IH]; intros costs;
    cbn [costs_by_start]; [silently|].
  apply (returns_bind _ _ _ _ (fun _ => True)); [silently|]. intros batch _.
  apply (returns_bind _ _ _ _ (fun _ => True)).
  - destruct (batch : option (gmap Z f64)); [apply silent_of_batch|apply silent_one_by_one].
  - intros. apply IH.
Qed.

Lemma silent_costs c l : silent step (env_ok E) (withWindowCostPrefetch loc svc c l).
Proof.
  unfold withWindowCostPrefetch. destruct (_ || _); [silently|]. case_bool_decide; [silently|].
  eapply returns_bind; [quiet_call; exact (fun _ _ => I)|]. intros cached _.
  eapply returns_bind; [apply silent_missing|]. intros groups _.
  apply (returns_bind _ _ _ _ (fun _ => True));
    [by eapply returns_mono; [apply (returns_shuffle_many step)|]|]. intros groups' _.
  eapply returns_bind; [apply silent_by_start|]. intros. silently.
Qed.

Lemma silent_rpm c l : silent step (env_ok E) (withRPMPrefetch svc c l).
Proof. unfold withRPMPrefetch. silently. Qed.

Abbreviation offered l := (Forall (fun a => account_ok E (ID a)) l).

Lemma returns_threshold l :
  offered l -> returns' (filterAccountsBySchedulingThreshold svc l) (fun l' => offered l').
Proof.
  induction 1 as [|a l Ha Hl IH]; cbn [filterAccountsBySchedulingThreshold]; [by apply returns_Return|].
  apply (returns_bind _ _ _ _ (fun r : bool * Account => ID r.2 = ID a)).
  { unfold isAccountBlockedBySchedulingThreshold. destruct (rateLimitService svc); cbn [negb];
      [by quiet_call|by apply returns_Return]. }
  intros [b a'] Hid. eapply returns_bind; [exact IH|]. intros rest Hr. apply returns_Return.
  simpl in Hid. destruct b; [done|]. constructor; [by rewrite Hid|done].
Qed.

Lemma returns_grok (b : bool) l :
  offered l -> returns' (if b then do (FilterGrokFreeQuota l) else ret l) (fun l' => offered l').
Proof. intros Hl. destruct b; [by quiet_call|by apply returns_Return]. Qed.

Lemma returns_list gid p f :
  returns' (listSchedulableAccounts svc gid p f) (fun r => forall l m, r = Some (l, m) -> offered l).
Proof.
  unfold listSchedulableAccounts.
  destruct (schedulerSnapshot svc);
    (eapply returns_bind; [quiet_call; exact (fun _ H => H)|]); intros r Hr; simpl in Hr.
  - destruct (r : option (list Account * bool)) as [[l m]|]; [|by apply returns_Return].
    eapply returns_bind; [by apply returns_threshold, (Hr l m)|]. intros l1 H1.
    eapply returns_bind; [by apply returns_grok|]. intros l2 H2. apply returns_Return. naive_solver.
  - destruct (r : option (list Account)) as [l|]; [|by apply returns_Return].
    specialize (Hr l eq_refl). destruct (_ && _).
    + eapply returns_bind.
      { apply returns_threshold. eapply Forall_subset; [|exact Hr]. intros a.
        rewrite list_elem_of_filter. tauto. }
      intros l1 H1. apply returns_Return. naive_solver.
    + eapply returns_bind; [by apply returns_threshold|]. intros l1 H1.
      eapply returns_bind; [by apply returns_grok|]. intros l2 H2. apply returns_Return. naive_solver.
Qed.

(** ** Selection without load returns no excluded account *)

Section Legacy.
Context (excludedIDs : gset Z).

Definition allowed (a : Account) : Prop := ID a ∉ excludedIDs /\ account_ok E (ID a).

Lemma returns_getSchedulable id :
  returns' (getSchedulableAccount svc id)
    (fun r => forall a, r = Some (Some a) -> ID a = id /\ account_ok E (ID a)).
Proof.
  unfold getSchedulableAccount.
  apply (returns_bind _ _ _ _ (fun r : option (option Account) =>
    forall a, r = Some (Some a) -> ID a = id /\ account_ok E (ID a))).
  { destruct (schedulerSnapshot svc); by quiet_call. }
  intros [[a|]|] Hr; [|by apply returns_Return..]. destruct (Hr a eq_refl) as [Hid Hu].
  apply (returns_bind _ _ _ _ (fun r : bool * Account => ID r.2 = id)).
  { unfold isAccountBlockedBySchedulingThreshold. destruct (rateLimitService svc); cbn [negb].
    - quiet_call. intros r Hr'. simpl in Hr'. congruence.
    - by apply returns_Return. }
  intros [blocked b] Hb. destruct blocked; [by apply returns_Return|].
  simpl in Hb. assert (Hb' : ID b = id /\ account_ok E (ID b)) by (split; congruence).
  destruct (IsGrok b); [|apply returns_Return; naive_solver].
  apply (returns_bind _ _ _ _ (fun _ => True)); [quiet_call|]. intros gated _. apply returns_Return.
  intros a' Ha'. case_bool_decide; naive_solver.
Qed.

Lemma silent_ret_gate (b : bool) : silent step (env_ok E) (ret b).
Proof. by apply returns_Return. Qed.

Lemma silent_and p1 p2 :
  silent step (env_ok E) p1 -> silent step (env_ok E) p2 -> silent step (env_ok E) (p1 &&& p2).
Proof. intros H1 H2. eapply returns_bind; [exact H1|]. intros [] _; [exact H2|apply silent_ret_gate]. Qed.

Lemma silent_of {A} (p : prog A) P : returns' p P -> silent step (env_ok E) p.
Proof. intros H. by eapply returns_mono. Qed.

Lemma silent_not p : silent step (env_ok E) p -> silent step (env_ok E) (negb <$> p).
Proof. intros H. by eapply returns_fmap. Qed.

Lemma silent_sticky_upstream gid a m :
  silent step (env_ok E) (isStickyAccountUpstreamRestricted opts svc gid a m).
Proof.
  unfold isStickyAccountUpstreamRestricted. destruct gid as [gid|]; [|silently].
  eapply returns_bind; [apply returns_needs|]. intros [] _; [apply returns_upstream|silently].
Qed.

Lemma silent_privacy g a : silent step (env_ok E) (privacy_gate g a).
Proof. unfold privacy_gate. silently. Qed.

Lemma silent_sticky_gate mixed up c gid m p a :
  silent step (env_ok E) (legacy_sticky_gate opts tzdb loc svc mixed up c gid m p a).
Proof.
  unfold legacy_sticky_gate.
  repeat lazymatch goal with
  | |- returns _ _ (andb_prog _ _) _ => apply silent_and
  | |- returns _ _ (ret _) _ => apply silent_ret_gate
  end.
  - by eapply silent_of, returns_model_schedulable.
  - by eapply silent_of, returns_quota.
  - by eapply silent_of, returns_cost.
  - by eapply silent_of, returns_rpm.
  - destruct up; [apply silent_not, silent_sticky_upstream|apply silent_ret_gate].
Qed.

Lemma returns_legacy_gate mixed needs c gid g m a :
  (needs = true -> gid <> None) ->
  returns' (legacy_gate opts tzdb loc svc mixed needs c gid g m excludedIDs a)
    (fun b => b = true -> ID a ∉ excludedIDs).
Proof.
  intros Hn. unfold legacy_gate. case_bool_decide as He; [by apply returns_Return|].
  apply (returns_mono _ _ _ (fun _ => True)); [|done].
  repeat lazymatch goal with
  | |- returns _ _ (andb_prog _ _) _ => apply silent_and
  | |- returns _ _ (ret _) _ => apply silent_ret_gate
  end.
  - by eapply silent_of, returns_schedulable.
  - apply silent_privacy.
  - by apply silent_not, returns_channel.
  - by eapply silent_of, returns_model_schedulable.
  - by eapply silent_of, returns_quota.
  - by eapply silent_of, returns_cost.
  - by eapply silent_of, returns_rpm.
Qed.

Definition some_allowed (r : option Account) : Prop := forall a, r = Some a -> allowed a.

Lemma returns_best better gate l sel :
  (forall a, returns' (gate a) (fun b => b = true -> ID a ∉ excludedIDs)) ->
  offered l -> some_allowed sel ->
  returns' (pick_best better gate l sel) some_allowed.
Proof.
  intros Hg Hl. revert sel. induction Hl as [|a l Hu Hl IH]; intros sel Hs; cbn [pick_best];
    [by apply returns_Return|].
  eapply returns_bind; [apply Hg|]. intros [] Ha; cbn [negb]; [|by apply IH].
  specialize (Ha eq_refl). destruct sel as [s|]; apply IH; intros x [= <-]; [|by split].
  destruct (better s a); [by split|by apply Hs].
Qed.

Lemma returns_legacy_sticky mixed up c gid h m p scope :
  returns' (legacy_sticky opts tzdb loc svc mixed up c gid h m p excludedIDs scope) some_allowed.
Proof.
  unfold legacy_sticky. destruct (_ || _); [by apply returns_Return|].
  eapply returns_bind; [quiet_call; exact (fun _ _ => I)|]. intros r _.
  destruct (r : result StickyError Z) as [id|]; [|by apply returns_Return].
  destruct (_ || _) eqn:Eg; [by apply returns_Return|].
  apply orb_false_iff in Eg as [_ Ex%bool_decide_eq_false].
  eapply returns_bind; [apply returns_getSchedulable|]. intros [a|] Ha; [|by apply returns_Return].
  eapply returns_bind; [apply returns_should_clear|]. intros clear _.
  apply (returns_bind _ _ _ _ (fun _ => True)); [silently|]. intros _ _.
  destruct a as [a|]; [|by apply returns_Return]. specialize (Ha a eq_refl).
  destruct clear; [by apply returns_Return|].
  eapply returns_bind; [apply silent_sticky_gate|]. intros b _. apply returns_Return.
  intros x Hx. destruct b; [|done]. simplify_eq. destruct Ha as [<- Hu]. by split.
Qed.

Lemma silent_diagnose c a m p mixed :
  silent step (env_ok E) (diagnoseSelectionFailure opts tzdb c a m p excludedIDs mixed).
Proof.
  unfold diagnoseSelectionFailure. case_bool_decide; [silently|].
  eapply returns_bind; [apply returns_schedulable|]. intros [] _; cbn [negb]; [|silently].
  destruct (isPlatformFilteredForSelection a p mixed); [silently|].
  destruct (model_supported opts c a m); cbn [negb]; [|silently].
  eapply returns_bind; [apply returns_model_schedulable|]. intros [] _; cbn [negb]; [silently|].
  eapply returns_bind; [apply returns_remaining|]. intros. silently.
Qed.

Lemma silent_stats c l m p mixed :
  silent step (env_ok E) (collectSelectionFailureStats opts tzdb c l m p excludedIDs mixed).
Proof.
  induction l as [|a l IH]; cbn [collectSelectionFailureStats]; [silently|].
  eapply returns_bind; [apply silent_diagnose|]. intros d _.
  apply (returns_bind _ _ _ _ (fun _ => True)).
  { case_bool_decide; [apply returns_remaining|silently]. }
  intros _ _. eapply returns_bind; [exact IH|]. intros. silently.
Qed.

Definition ok_allowed (r : result SelectionError Account) : Prop := forall a, r = Ok a -> allowed a.

Lemma returns_select_best mixed c gid h m p g l :
  offered l -> returns' (select_best opts tzdb loc svc mixed c gid h m excludedIDs p g l) ok_allowed.
Proof.
  intros Hl. unfold select_best. eapply returns_bind; [apply silent_costs|]. intros c1 _.
  eapply returns_bind; [apply silent_rpm|]. intros c2 _.
  eapply returns_bind; [apply returns_needs|]. intros needs Hneeds. cbv zeta.
  eapply returns_bind; [apply returns_best; [intros a; by apply returns_legacy_gate|done|by intros a]|].
  intros [a|] Ha.
  - eapply returns_bind; [apply silent_bind_selected|]. intros _ _. apply returns_Return.
    intros x [= <-]. by apply Ha.
  - eapply returns_bind; [apply silent_stats|]. intros. by apply returns_Return.
Qed.

Lemma returns_select_unrouted mixed c gid h m p g f loaded :
  (forall l, loaded = Some l -> offered l) ->
  returns' (select_unrouted opts tzdb loc svc mixed c gid h m excludedIDs p g f loaded) ok_allowed.
Proof.
  intros Hl. unfold select_unrouted.
  eapply returns_bind; [apply returns_legacy_sticky|]. intros [a|] Ha.
  - apply returns_Return. intros x [= <-]. by apply Ha.
  - apply (returns_bind _ _ _ _ (fun r => forall l, r = Some l -> offered l)).
    { destruct loaded; [by apply returns_Return|].
      eapply returns_bind; [apply returns_list|]. intros r Hr. apply returns_Return.
      intros l Hx. destruct (r : option (list Account * bool)) as [[l' mx]|]; [|done].
      simpl in Hx. simplify_eq. by eapply Hr. }
    intros [l|] Hr; [by apply returns_select_best, Hr|by apply returns_Return].
Qed.

Lemma returns_select_without_load mixed c gid h m p :
  returns' (select_without_load opts tzdb loc svc mixed c gid h m excludedIDs p) ok_allowed.
Proof.
  unfold select_without_load. eapply (returns_bind _ _ _ _ (fun _ => True)).
  { unfold routingAccountIDsForRequest. destruct gid; [|silently]. destruct (_ || _); [silently|].
    eapply returns_bind; [apply silent_resolveGroupByID|]. intros. silently. }
  intros ids _. apply (returns_bind _ _ _ _ (fun _ => True)).
  { unfold sched_group. silently. }
  intros g _. destruct ids as [|i ids]; [by apply returns_select_unrouted|].
  eapply (returns_bind _ _ _ _ (fun r => match r with
    | Ok (inl a) => allowed a | Ok (inr (_, l)) => offered l | Err _ => True end)).
  - unfold select_routed. eapply returns_bind; [apply returns_legacy_sticky|]. intros [a|] Ha.
    + apply returns_Return. by apply Ha.
    + eapply returns_bind; [apply returns_list|]. intros [[l mx]|] Hl; [|by apply returns_Return].
      specialize (Hl l mx eq_refl).
      eapply returns_bind; [apply silent_costs|]. intros c1 _.
      eapply returns_bind; [apply silent_rpm|]. intros c2 _. cbv zeta.
      eapply returns_bind.
      { apply returns_best; [intros a; by apply returns_legacy_gate| |by intros a].
        eapply Forall_subset; [|exact Hl]. intros a. rewrite list_elem_of_filter. tauto. }
      intros [a|] Hb; [|by apply returns_Return].
      eapply returns_bind; [apply silent_bind_selected|]. intros _ _. apply returns_Return. by apply Hb.
  - intros [[a|[c' l]]|e] Hr.
    + apply returns_Return. by intros x [= <-].
    + apply returns_select_unrouted. by intros l' [= <-].
    + by apply returns_Return.
Qed.

Lemma returns_select_resolved c gid h m p :
  returns' (select_resolved opts tzdb loc svc c gid h m excludedIDs p) ok_allowed.
Proof.
  assert (Hh : forall r, ok_allowed r -> returns' (hydrated svc r) ok_allowed).
  { intros [a|e] Hr; cbn [hydrated]; [|by apply returns_Return]. specialize (Hr a eq_refl).
    unfold hydrateSelectedAccount. destruct (schedulerSnapshot svc); cbn [negb].
    - eapply returns_bind; [quiet_call; exact (fun _ H => H)|]. intros r Hid. apply returns_Return.
      intros x Hx. destruct (r : option (option Account)) as [[b|]|]; try done. simplify_eq.
      simpl in Hid. destruct (Hid x eq_refl) as [Heq Hu], Hr as [Hr _]. split; [by rewrite Heq|done].
    - apply returns_Return. intros x [= <-]. done. }
  unfold select_resolved. eapply returns_bind; [apply silent_profit_gate|]. intros c1 _.
  eapply returns_bind; [apply silent_pricing|]. intros [] _; [by apply returns_Return|]. cbv zeta.
  destruct (_ && _); (eapply returns_bind; [apply returns_select_without_load|]); intros r Hr; by apply Hh.
Qed.

Lemma returns_exclusions n c gid h m :
  returns' (SelectAccountForModelWithExclusions opts tzdb loc svc n c gid h m excludedIDs)
    (fun r => forall a, r = Some (Ok a) -> allowed a).
Proof.
  assert (Hs : forall c gid m p,
    returns' (Some <$> select_resolved opts tzdb loc svc c gid h m excludedIDs p)
      (fun r => forall a, r = Some (Ok a) -> allowed a)).
  { intros. eapply returns_fmap; [apply returns_select_resolved|]. intros r Hr a [= ->]. by apply Hr. }
  unfold SelectAccountForModelWithExclusions. destruct (forced_platform c); [apply Hs|].
  destruct gid as [gid|]; [|apply Hs].
  eapply returns_bind; [apply silent_gateway_group|]. intros [[[[g|] gid']|e]|] _;
    [|by apply returns_Return..].
  case_bool_decide; [|apply Hs].
  eapply returns_bind; [apply silent_composite|]. intros [[d|]|e] _;
    [apply Hs|by apply returns_Return..].
Qed.

End Legacy.

End Gates.

(** ** The layered choice *)

Section Choice.
Context {S : Type} (step : forall c, reply c -> S -> S) `{!QuietStep step}.
Context (svc : Services) (E : Env) (q : Request).

Abbreviation returns' p P := (returns step (env_ok E) p P).

(** [x] is chosen rather than [y]: by priority, then (if so configured) by the
    window that resets sooner, then by load, then by last use; last, an OAuth
    account where they are preferred. *)
Definition chosen_over (now : time) (x y : accountWithLoad) : Prop :=
  let by_use :=
    last_used_before (LastUsedAt (account x)) (LastUsedAt (account y)) = true \/
    (LastUsedAt (account x) = LastUsedAt (account y) /\
     (rq_preferOAuth q = true -> is_oauth (account y) = true -> is_oauth (account x) = true)) in
  let by_load := LoadRate x < LoadRate y \/ (LoadRate x = LoadRate y /\ by_use) in
  Priority (account x) < Priority (account y) \/
  (Priority (account x) = Priority (account y) /\
   (if PreferSoonestReset (schedulingConfig svc)
    then reset_before (future_reset now x) (future_reset now y) \/
         (future_reset now x = future_reset now y /\ by_load)
    else by_load)).

(** What the optional second filter keeps. *)
Definition soonest_kept (now : time) (l l' : list accountWithLoad) : Prop :=
  (l <> [] -> l' <> []) /\
  forall x, x ∈ l' -> x ∈ l /\ forall y, y ∈ l ->
    (if PreferSoonestReset (schedulingConfig svc)
     then reset_before (future_reset now x) (future_reset now y) \/
          (future_reset now x = future_reset now y /\ y ∈ l')
     else y ∈ l').

Lemma returns_soonest l :
  returns' (if PreferSoonestReset (schedulingConfig svc)
            then if (length l <=? 1)%nat then ret l
                 else now ← do Now; ret (filterBySoonestReset now l)
            else ret l) (fun l' => exists now, soonest_kept now l l').
Proof.
  unfold soonest_kept. destruct (PreferSoonestReset _); [destruct (length l <=? 1)%nat eqn:El|].
  - apply returns_Return. exists 0. split; [done|]. intros x Hx. split; [done|]. intros y Hy. right.
    apply Nat.leb_le in El. destruct l as [|a [|b l]]; simpl in El; [set_solver| |lia].
    apply list_elem_of_singleton in Hx, Hy. subst. split; [done|by left].
  - eapply returns_bind; [quiet_call; exact (fun _ H => H)|]. intros now _. apply returns_Return.
    exists now. destruct (soonest_spec now l) as [H1 H2]. by split.
  - apply returns_Return. exists 0. split; [done|]. by intros x Hx.
Qed.

(** The last choice, of those used least recently. *)
Definition least_recent_kept (l : list accountWithLoad) (r : option accountWithLoad) : Prop :=
  match r with
  | None => l = []
  | Some x => x ∈ l /\ forall y, y ∈ l ->
      last_used_before (LastUsedAt (account x)) (LastUsedAt (account y)) = true \/
      (LastUsedAt (account x) = LastUsedAt (account y) /\
       (rq_preferOAuth q = true -> is_oauth (account y) = true -> is_oauth (account x) = true))
  end.

Lemma chosen_of_filters now l l2 r :
  soonest_kept now (filterByMinPriority l) l2 -> least_recent_kept (filterByMinLoadRate l2) r ->
  match r with
  | None => l = []
  | Some x => x ∈ l /\ forall y, y ∈ l -> chosen_over now x y
  end.
Proof.
  intros [Hne2 H2] Hx. set (l1 := filterByMinPriority l) in *. set (l3 := filterByMinLoadRate l2) in *.
  destruct r as [x|].
  - destruct Hx as [Hx3 Hlru]. apply elem_of_keep_min in Hx3 as [Hx2 Hload].
    destruct (H2 x Hx2) as [Hx1 Hreset]. apply elem_of_keep_min in Hx1 as [Hxl Hprio].
    split; [done|]. intros y Hy.
    destruct (decide (Priority (account x) < Priority (account y))) as [|Hge]; [by left|right].
    specialize (Hprio y Hy). split; [lia|]. assert (Hy1 : y ∈ l1).
    { apply elem_of_keep_min. split; [done|]. intros z Hz.
      assert (y' : x ∈ l1) by (by apply H2). apply elem_of_keep_min in y' as [_ Hmin].
      specialize (Hmin z Hz). simpl in *. lia. }
    assert (Hby : y ∈ l2 -> LoadRate x < LoadRate y \/ LoadRate x = LoadRate y /\
      (last_used_before (LastUsedAt (account x)) (LastUsedAt (account y)) = true \/
       LastUsedAt (account x) = LastUsedAt (account y) /\
       (rq_preferOAuth q = true -> is_oauth (account y) = true -> is_oauth (account x) = true))).
    { intros Hy2. destruct (decide (LoadRate x < LoadRate y)) as [|Hge']; [by left|right].
      pose proof (Hload y Hy2). split; [lia|]. apply Hlru. apply elem_of_keep_min.
      split; [done|]. intros z Hz. specialize (Hload z Hz). lia. }
    specialize (Hreset y Hy1). destruct (PreferSoonestReset _); [|by apply Hby].
    destruct Hreset as [|[? ?]]; [by left|right; auto].
  - destruct l as [|a l']; [done|]. exfalso. eapply keep_min_nonempty; [|exact Hx].
    apply Hne2, keep_min_nonempty. done.
Qed.

Lemma returns_pick l :
  returns' (pick_layered svc q l) (fun r =>
    match r with
    | None => l = []
    | Some x => x ∈ l /\ exists now, forall y, y ∈ l -> chosen_over now x y
    end).
Proof.
  unfold pick_layered. eapply returns_bind; [apply returns_soonest|]. intros l2 (now & H2).
  eapply returns_mono; [by apply (returns_LRU step (env_ok E))|]. intros r Hr.
  pose proof (chosen_of_filters now l l2 r H2 Hr) as H. destruct r; [|done]. destruct H. eauto.
Qed.

End Choice.

(** ** The ghost state: slots held and sessions registered *)

Record ghost := mkGhost { held : list Z; sessions : list Z }.

Definition nothing : ghost := mkGhost [] [].

Fixpoint remove_one (id : Z) (l : list Z) : list Z :=
  match l with
  | [] => []
  | x :: l => if decide (x = id) then l else x :: remove_one id l
  end.

Definition move (c : call) : reply c -> ghost -> ghost :=
  match c with
  | AcquireAccountSlot id _ => fun r g =>
      if decide (r = Some true) then mkGhost (id :: held g) (sessions g) else g
  | ReleaseSlot id => fun _ g => mkGhost (remove_one id (held g)) (sessions g)
  | RegisterSession id _ _ _ => fun r g =>
      if decide (r = Some true) then mkGhost (held g) (id :: sessions g) else g
  | _ => fun _ g => g
  end.

#[export] Instance move_quiet : QuietStep move.
Proof. intros c r g Hc. by destruct c. Qed.


Section Properties.
Context (opts : ModelMappingOptions) (tzdb : string -> option Location) (loc : Location).
Context (svc : Services) (E : Env) (q : Request).
Hypothesis has_db : usageLogRepo svc = true.
Hypothesis upstream_grouped : rq_needsUpstream q = true -> rq_groupID q <> None.

Abbreviation wp' p g Q := (wp move (env_ok E) p g Q).
Abbreviation candidate' := (candidate opts tzdb E q).

(** The slots of a release function. *)
Definition slots (f : option ReleaseFunc) : list Z :=
  match f with Some (Some id) => [id] | _ => [] end.

Definition slot_of (f : option ReleaseFunc) (a : Account) : Prop := slots f = [] \/ slots f = [ID a].

Lemma wp_session a hash g (Q : bool -> ghost -> Prop) :
  (forall b, Q b g) ->
  Q true (mkGhost (held g) (ID a :: sessions g)) ->
  wp' (checkAndRegisterSession svc a hash) g Q.
Proof.
  intros H1 H2. unfold checkAndRegisterSession.
  destruct (IsAnthropicOAuthOrSetupToken a); [|apply H1]. cbn [negb].
  destruct (_ || _); [apply H1|]. destruct (sessionLimitCache svc); [|apply H1]. cbn [negb].
  intros r _. simpl. case_decide as Hr; [by rewrite Hr|apply H1].
Qed.

Lemma remove_one_head id l : remove_one id (id :: l) = l.
Proof. simpl. by rewrite decide_True. Qed.

(** An attempt that fails leaves nothing behind. *)
Lemma wp_attempt a g (Q : option ReleaseFunc * bool -> ghost -> Prop) :
  (forall b, Q (None, b) g) ->
  (forall f g', slot_of (Some f) a -> held g' = slots (Some f) ++ held g ->
     (sessions g' = sessions g \/ sessions g' = ID a :: sessions g) -> Q (Some f, false) g') ->
  wp' (acquire_and_register svc q a) g Q.
Proof.
  intros H1 H2. unfold acquire_and_register, tryAcquireAccountSlot.
  destruct (concurrencyService svc); cbn [negb].
  - apply wp_bind, wp_bind. intros r _. simpl.
    case_decide as Hr.
    + rewrite bool_decide_true by done. apply wp_bind, wp_session.
      * intros [|]; simpl; [|by rewrite decide_True by done; destruct g].
        apply H2; [by right|done|by left].
      * apply H2; [by right|done|by right].
    + rewrite bool_decide_false by done. apply H1.
  - apply wp_bind. change (wp' (ok ← checkAndRegisterSession svc a (rq_hash q);
      if negb ok then _ ← release None; ret (None, true) else ret (Some None, false)) g Q).
    apply wp_bind, wp_session.
    + intros [|]; simpl; [|apply H1]. apply H2; [by left|done|by left].
    + apply H2; [by left|done|by right].
Qed.

(** ** Answers *)

Definition at_most (l : list Z) (id : Z) : Prop := l = [] \/ l = [id].

(** An answer for an account of [P] with the slots and sessions it accounts
    for.  Only a failed hydration may leave something held by nobody. *)
Definition settled (P : Account -> Prop) (r : Selected) (g : ghost) : Prop :=
  match r with
  | Ok sel => exists a, P a /\ ID (sel_Account sel) = ID a /\
      slot_of (sel_ReleaseFunc sel) a /\ held g = slots (sel_ReleaseFunc sel) /\
      at_most (sessions g) (ID a) /\
      (if sel_Acquired sel
       then sel_ReleaseFunc sel <> None /\ sel_WaitPlan sel = None
       else sel_ReleaseFunc sel = None /\
            exists plan, sel_WaitPlan sel = Some plan /\ wp_AccountID plan = ID a /\
                         wp_MaxConcurrency plan = Concurrency a)
  | Err (ErrHydrate id) => at_most (held g) id /\ at_most (sessions g) id
  | Err _ => g = nothing
  end.

Definition maybe_settled (P : Account -> Prop) (r : option Selected) (g : ghost) : Prop :=
  match r with Some s => settled P s g | None => g = nothing end.

Lemma wp_acquired (P : Account -> Prop) a f g' :
  P a -> slot_of (Some f) a -> held g' = slots (Some f) -> at_most (sessions g') (ID a) ->
  wp' (newSelectionResult svc (rq_ctx q) a true (Some f) None) g' (settled P).
Proof.
  intros HP Hs Hh Hg. apply (returns_result move). intros [sel|e].
  - intros (Hid & Ha & Hf & Hp). exists a. rewrite Ha, Hf, Hp. by split_and!.
  - intros [-> Hsnap]. split; [|done]. unfold at_most. by rewrite Hh.
Qed.

Definition plan_for (plan : AccountWaitPlan) (a : Account) : Prop :=
  wp_AccountID plan = ID a /\ wp_MaxConcurrency plan = Concurrency a.

Lemma wp_wait (P : Account -> Prop) a plan g' :
  P a -> plan_for plan a -> held g' = [] -> at_most (sessions g') (ID a) ->
  wp' (wait_on svc (rq_ctx q) a plan) g' (settled P).
Proof.
  intros HP [Hp1 Hp2] Hh Hg. apply (returns_result move). intros [sel|e].
  - intros (Hid & Ha & Hf & Hp). exists a. rewrite Ha, Hf, Hp. split_and!; try done; [by left|].
    by eexists.
  - intros [-> Hsnap]. split; [by left|done].
Qed.

Lemma wp_some {A} (p : prog A) g (Q : option A -> ghost -> Prop) :
  wp' p g (fun a g => Q (Some a) g) -> wp' (Some <$> p) g Q.
Proof. apply wp_fmap. Qed.

(** An attempt from nothing, and what follows. *)
Lemma wp_try (P : Account -> Prop) a (done_ : ReleaseFunc -> prog (option Selected)) (next : bool -> prog (option Selected)) :
  P a ->
  (forall f g', slot_of (Some f) a -> held g' = slots (Some f) -> at_most (sessions g') (ID a) ->
     wp' (done_ f) g' (maybe_settled P)) ->
  (forall b, wp' (next b) nothing (maybe_settled P)) ->
  wp' (r ← acquire_and_register svc q a;
       match r with (Some f, _) => done_ f | (None, b) => next b end) nothing (maybe_settled P).
Proof.
  intros HP Hd Hn. apply wp_bind, wp_attempt; [done|]. intros f g' Hs Hh Hg.
  apply Hd; [done|by rewrite Hh, app_nil_r|]. destruct Hg as [->| ->]; [by left|by right].
Qed.

Lemma wp_bind_acquired (P : Account -> Prop) a f g' :
  P a -> slot_of (Some f) a -> held g' = slots (Some f) -> at_most (sessions g') (ID a) ->
  wp' (_ ← bind_sticky svc q a; Some <$> newSelectionResult svc (rq_ctx q) a true (Some f) None) g'
    (maybe_settled P).
Proof.
  intros. eapply wp_returns; [apply (returns_bind_sticky move)|]. intros _ _.
  by apply wp_some, wp_acquired.
Qed.

Lemma wp_try_in_order (P : Account -> Prop) l :
  Forall P l -> wp' (try_in_order svc q l) nothing (maybe_settled P).
Proof.
  induction 1 as [|a l Ha Hl IH]; [done|]. cbn [try_in_order].
  apply (wp_try P a _ (fun _ => try_in_order svc q l)); [done| |done].
  intros. by apply wp_bind_acquired.
Qed.

Lemma wp_wait_in_order (P : Account -> Prop) plan l :
  (forall a, plan_for (plan a) a) ->
  Forall P l -> wp' (wait_in_order svc q plan l) nothing (maybe_settled P).
Proof.
  intros Hplan. induction 1 as [|a l Ha Hl IH]; [done|]. cbn [wait_in_order].
  apply wp_bind, wp_session.
  - intros [|]; cbn [negb]; [|done]. apply wp_some, wp_wait; [done..|by left].
  - cbn [negb]. apply wp_some, wp_wait; [done..|by right].
Qed.

Lemma wp_or_else (P : Account -> Prop) p1 p2 :
  wp' p1 nothing (maybe_settled P) -> wp' p2 nothing (maybe_settled P) ->
  wp' (or_else p1 p2) nothing (maybe_settled P).
Proof.
  intros H1 H2. apply wp_bind. eapply wp_mono; [exact H1|]. intros [s|] g Hg; [exact Hg|].
  simpl in Hg. by subst g.
Qed.

(** The queue of a sticky account. *)
Lemma wp_sticky_wait (P : Account -> Prop) a id :
  P a ->
  wp' (waiting ← do (GetAccountWaitingCount id);
       if (waiting : Z) <? StickySessionMaxWaiting (schedulingConfig svc) then
         ok ← checkAndRegisterSession svc a (rq_hash q);
         if negb ok then ret None else Some <$> wait_on svc (rq_ctx q) a (sticky_plan svc a)
       else ret None) nothing (maybe_settled P).
Proof.
  intros HP. eapply wp_returns; [quiet_call; exact (fun _ _ => I)|]. intros waiting _.
  destruct (_ <? _); [|done]. apply wp_bind, wp_session.
  - intros [|]; cbn [negb]; [|done]. apply wp_some, wp_wait; [done|done|done|by left].
  - cbn [negb]. apply wp_some, wp_wait; [done|done|done|by right].
Qed.

Hypothesis has_cache : cache svc = true.

Lemma wp_layer1 accounts ids :
  wp' (layer1 opts tzdb loc svc q accounts ids) nothing (maybe_settled (candidate' accounts)).
Proof.
  unfold layer1. destruct (_ || _); [done|].
  eapply wp_returns; [by apply (returns_routing_candidates move)|]. intros cs Hcs.
  case_bool_decide; [done|]. apply wp_or_else.
  - unfold routed_sticky. case_bool_decide; [done|]. destruct (Z.leb_spec (rq_sticky q) 0); [done|].
    destruct (containsInt64 _ _); cbn [negb orb]; [|done]. case_bool_decide as He; cbn [negb orb]; [done|].
    destruct (accountByID _ _) as [a|] eqn:Ea.
    + apply accountByID_spec in Ea as [Ha Hid].
      eapply wp_returns; [by apply (returns_gates move)|]. intros v Hv.
      case_bool_decide as Hp; cbn [negb]; [|done].
      assert (HP : candidate' accounts a).
      { split_and!; [done|by rewrite Hid|exists true]. split; [by apply Hv|]. by intros _. }
      apply wp_bind, wp_attempt.
      * intros [|]; [done|]. by apply wp_sticky_wait.
      * intros f g' Hs Hh Hg. apply wp_some, wp_acquired; [done|done|by rewrite Hh, app_nil_r|].
        destruct Hg as [->| ->]; [by left|by right].
    + rewrite has_cache. cbn [negb]. eapply wp_returns; [quiet_call; exact (fun _ _ => I)|]. done.
  - unfold routed_by_load. eapply wp_returns; [quiet_call; exact (fun _ _ => I)|]. intros [loads e] _.
    eapply wp_returns; [apply (returns_by_load move (env_ok E))|]. intros ordered [Hperm _].
    assert (HF : Forall (candidate' accounts) (map account ordered)).
    { eapply Forall_subset; [|exact Hcs]. etransitivity; [|apply (with_load_accounts loads)].
      intros a Ha. apply (list_elem_of_fmap account) in Ha as (x & -> & Hx).
      rewrite Hperm in Hx. by apply list_elem_of_fmap_2. }
    apply wp_or_else; [by apply wp_try_in_order|]. apply wp_wait_in_order; [|done]. by intros a.
Qed.

Lemma wp_layer1_5 accounts ids :
  wp' (layer1_5 opts tzdb loc svc q accounts ids) nothing (maybe_settled (candidate' accounts)).
Proof.
  unfold layer1_5. destruct (negb _); [done|]. cbn [orb]. case_bool_decide; [done|]. cbn [orb].
  destruct (Z.leb_spec (rq_sticky q) 0); [done|]. cbn [orb]. case_bool_decide as He; [done|].
  destruct (accountByID _ _) as [a|] eqn:Ea; [|done]. apply accountByID_spec in Ea as [Ha Hid].
  eapply wp_returns; [by apply (returns_sticky_checks move)|]. intros [] Hp; cbn [negb]; [|done].
  assert (HP : candidate' accounts a).
  { split_and!; [done|by rewrite Hid|exists true]. split; [by apply Hp|]. by intros _. }
  apply wp_bind, wp_attempt.
  - intros b. by apply wp_sticky_wait.
  - intros f g' Hs Hh Hg. rewrite has_cache.
    eapply wp_returns; [quiet_call; exact (fun _ _ => I)|]. intros _ _.
    apply wp_some, wp_acquired; [done|done|by rewrite Hh, app_nil_r|].
    destruct Hg as [->| ->]; [by left|by right].
Qed.


(** Each round tries the account chosen over all that are left. *)
Lemma wp_layered_loop (P : Account -> Prop) n l :
  Forall P (map account l) -> wp' (layered_loop svc n q l) nothing (maybe_settled P).
Proof.
  revert l. induction n as [|n IH]; intros [|x l] Hl; [done..|]. cbn [layered_loop].
  set (l' := x :: l) in *. eapply wp_returns; [apply (returns_pick move)|]. intros [y|] Hy; [|done].
  destruct Hy as [Hy _].
  apply (wp_try P (account y) _
    (fun _ => layered_loop svc n q (base.filter (fun z => ID (account z) <> ID (account y)) l'))).
  - rewrite Forall_forall in Hl. by apply Hl, list_elem_of_fmap_2.
  - intros f g' Hs Hh Hg. apply wp_bind_acquired; [|done..].
    rewrite Forall_forall in Hl. by apply Hl, list_elem_of_fmap_2.
  - intros _. apply IH. eapply Forall_subset; [|exact Hl].
    intros a (z & -> & Hz)%list_elem_of_fmap. apply list_elem_of_filter in Hz as [_ Hz].
    by apply list_elem_of_fmap_2.
Qed.

Lemma wp_layers23 accounts :
  wp' (layers23 opts tzdb loc svc q accounts) nothing (settled (candidate' accounts)).
Proof.
  unfold layers23. eapply wp_returns; [by apply (returns_load_candidates move)|].
  intros [cs n] Hcs. cbn [fst] in Hcs. destruct cs as [|a cs]; [by destruct (0 <? n)%nat|].
  set (l := a :: cs) in *. apply wp_bind.
  assert (H2 : wp' (layer2 svc q l) nothing (maybe_settled (candidate' accounts))).
  { unfold layer2. eapply wp_returns; [quiet_call; exact (fun _ _ => I)|]. intros [loads failed] _.
    destruct failed.
    - eapply wp_returns; [apply (returns_by_last_used move (env_ok E))|]. intros ordered [Hperm _].
      apply wp_try_in_order. by rewrite Hperm.
    - apply wp_layered_loop. eapply Forall_subset; [apply with_load_accounts|done]. }
  eapply wp_mono; [exact H2|]. intros [s|] g Hg; [exact Hg|]. simpl in Hg. subst g.
  unfold layer3. eapply wp_returns; [apply (returns_fallback move (env_ok E))|]. intros ordered [Hperm _].
  apply wp_bind. eapply wp_mono; [apply (wp_wait_in_order (candidate' accounts))|].
  - by intros b.
  - by rewrite Hperm.
  - intros [s|] g Hg; [exact Hg|]. simpl in Hg. by subst g.
Qed.

Lemma wp_select_layers accounts ids :
  wp' (select_layers opts tzdb loc svc q accounts ids) nothing (settled (candidate' accounts)).
Proof.
  apply wp_bind. eapply wp_mono; [apply wp_or_else; [apply wp_layer1|apply wp_layer1_5]|].
  intros [s|] g Hg; [exact Hg|]. simpl in Hg. subst g. apply wp_layers23.
Qed.

End Properties.
