(* ===== verification/SelectionSafety.v ===== *)
(** * Selecting an account: the theorems

    What a caller of [SelectAccountWithLoadAwareness] may rely on, over every
    run: which slot and session it holds afterwards, which accounts can be
    returned, in what order the load layer tries them, and that the loops
    end. *)

From S2P Require Import Prelude Float64 GoTime GoAny Account ModelMapping AccountQuota AccountScheduling ModelAvailability GroupRouting GoProgram GatewayCalls AccountOrder AccountOrderProperties SelectionGates AccountSelection AccountSelectionProperties.
Local Open Scope Z_scope.

(** ** The order of the load layer *)

Section Order.
Context (svc : Services) (E : Env) (q : Request).
Hypothesis has_slots : concurrencyService svc = true.

(** A round picks an account over all that are left, by the time it reads, if
    it reads any, and draws from the random source. *)
Definition picked (l : list accountWithLoad) (clock : list event) (x : accountWithLoad) : Prop :=
  x ∈ l /\
  ((clock = [] /\ forall now y, y ∈ l -> chosen_over svc q now x y) \/
   exists now, clock = [Ev (reply := reply) Now now] /\ forall y, y ∈ l -> chosen_over svc q now x y).

Definition draws_only (c : call) : Prop := match c with Intn _ => True | _ => False end.
Definition is_draw (e : event) : Prop := draws_only (projT1 e).

(** The account's sessions are limited. *)
Definition session_needed (a : Account) : bool :=
  IsAnthropicOAuthOrSetupToken a && negb ((GetMaxSessions a <=? 0) || (rq_hash q ==? "")) && sessionLimitCache svc.

Definition asks (a : Account) (r : option bool) : event :=
  Ev (reply := reply) (AcquireAccountSlot (ID a) (Concurrency a)) r.
Definition registers (a : Account) (r : option bool) : event :=
  Ev (reply := reply) (RegisterSession (ID a) (rq_hash q) (GetMaxSessions a)
    (wrap64 (GetSessionIdleTimeoutMinutes a * minute))) r.

(** Both granted; a session that cannot be registered for an error is. *)
Inductive granted (a : Account) : list event -> Prop :=
| granted_slot : session_needed a = false -> granted a [asks a (Some true)]
| granted_session r : session_needed a = true -> r <> Some false ->
    granted a [asks a (Some true); registers a r].

Inductive refused (a : Account) : list event -> Prop :=
| refused_slot r : r <> Some true -> refused a [asks a r]
| refused_session : session_needed a = true ->
    refused a [asks a (Some true); registers a (Some false); Ev (reply := reply) (ReleaseSlot (ID a)) tt].

(** The answer for an account that was granted both. *)
Definition answers (a : Account) (s : Selected) : Prop :=
  match s with
  | Ok sel => ID (sel_Account sel) = ID a /\ sel_Acquired sel = true /\ sel_ReleaseFunc sel = Some (Some (ID a))
  | Err e => e = ErrHydrate (ID a)
  end.

Definition is_quiet (e : event) : Prop := quiet (projT1 e) = true.

(** The rounds of a run over the accounts of [l]. *)
Inductive rounds : list accountWithLoad -> list event -> option Selected -> Prop :=
| rounds_over : rounds [] [] None
| rounds_granted l x clock draws attempt rest s :
    picked l clock x -> Forall is_draw draws -> granted (account x) attempt ->
    Forall is_quiet rest -> answers (account x) s ->
    rounds l (clock ++ draws ++ attempt ++ rest) (Some s)
| rounds_refused l x clock draws attempt rest r :
    picked l clock x -> Forall is_draw draws -> refused (account x) attempt ->
    rounds (base.filter (fun y => ID (account y) <> ID (account x)) l) rest r ->
    rounds l (clock ++ draws ++ attempt ++ rest) r.

Lemma only_LRU l p : only draws_only (selectByLRU l p).
Proof.
  unfold selectByLRU, intn. destruct l as [|? []]; [done..|]. cbv zeta.
  destruct (least_recent _) as [|? []]; try done;
    (apply only_bind; [by destruct (length _)|intros; by destruct (_ !! _)]).
Qed.

Lemma runs_pick l tr r :
  replies (env_ok E) tr -> runs (pick_layered svc q l) tr r ->
  exists clock draws, tr = clock ++ draws /\ Forall is_draw draws /\
    match r with None => l = [] | Some x => picked l clock x end.
Proof.
  intros Hok Hr. unfold pick_layered in Hr. apply runs_bind in Hr as (clock & l2 & draws & -> & Hc & Hr).
  apply Forall_app in Hok as [_ Hok]. exists clock, draws. split; [done|].
  split; [exact (only_runs draws_only _ _ _ (only_LRU _ _) Hr)|].
  assert (least_recent_kept q (filterByMinLoadRate l2) r) as Hlru.
  { apply (returns_runs move (env_ok E) (selectByLRU (filterByMinLoadRate l2) (rq_preferOAuth q))
      (least_recent_kept q (filterByMinLoadRate l2)) nothing draws); [|done..].
    by apply (returns_LRU move (env_ok E)). }
  assert ((clock = [] /\ forall now, soonest_kept svc now (filterByMinPriority l) l2) \/
          exists now, clock = [Ev (reply := reply) Now now] /\ soonest_kept svc now (filterByMinPriority l) l2) as Hk.
  { unfold soonest_kept. destruct (PreferSoonestReset _); [destruct (length _ <=? 1)%nat eqn:El|].
    - destruct Hc as [-> ->]. left. split; [done|]. intros now. split; [done|]. intros x Hx. split; [done|].
      intros y Hy. right. apply Nat.leb_le in El. destruct (filterByMinPriority l) as [|a [|b l1]]; simpl in El; [set_solver| |lia].
      apply list_elem_of_singleton in Hx, Hy. subst. split; [done|by left].
    - destruct Hc as (now & tr' & -> & -> & ->). right. exists now. split; [done|].
      by destruct (soonest_spec now (filterByMinPriority l)).
    - destruct Hc as [-> ->]. left. split; [done|]. intros now. split; [done|]. by intros x Hx. }
  destruct r as [x|].
  - destruct Hk as [[-> Hk]|(now & -> & Hk)].
    + split; [by apply (chosen_of_filters _ _ 0 _ _ _ (Hk 0) Hlru)|]. left. split; [done|].
      intros now. by apply (chosen_of_filters _ _ now _ _ _ (Hk now) Hlru).
    + pose proof (chosen_of_filters _ _ now _ _ _ Hk Hlru) as [??]. split; [done|]. right. by exists now.
  - destruct Hk as [[_ Hk]|(now & _ & Hk)];
      [exact (chosen_of_filters _ _ 0 _ _ _ (Hk 0) Hlru)|exact (chosen_of_filters _ _ now _ _ _ Hk Hlru)].
Qed.

Lemma runs_session a tr b :
  runs (checkAndRegisterSession svc a (rq_hash q)) tr b ->
  session_needed a = false /\ tr = [] /\ b = true \/
  session_needed a = true /\ exists r, tr = [registers a r] /\ b = default true r.
Proof.
  unfold checkAndRegisterSession, session_needed. cbv zeta.
  destruct (IsAnthropicOAuthOrSetupToken a); cbn [negb andb]; [|intros [-> ->]; by left].
  destruct (_ || _); cbn [negb andb]; [intros [-> ->]; by left|].
  destruct (sessionLimitCache svc); cbn [negb andb]; [|intros [-> ->]; by left].
  intros (r & tr' & -> & -> & ->). right. split; [done|]. by exists r.
Qed.

Lemma runs_attempt a tr r :
  runs (acquire_and_register svc q a) tr r ->
  (exists b, r = (None, b) /\ refused a tr) \/ (r = (Some (Some (ID a)), false) /\ granted a tr).
Proof.
  unfold acquire_and_register, tryAcquireAccountSlot. rewrite has_slots. cbn [negb].
  intros (s & tr' & -> & Hr). fold (asks a s). simpl in Hr.
  case_bool_decide as Hs; simpl in Hr.
  2:{ destruct Hr as [-> ->]. left. exists false. split; [done|by constructor]. }
  subst s. apply runs_bind in Hr as (tr1 & b & tr2 & -> & Hses & Hr).
  destruct (runs_session _ _ _ Hses) as [(Hn & -> & ->)|(Hn & s & -> & ->)].
  - destruct Hr as [-> ->]. right. split; [done|by constructor].
  - destruct s as [[]|]; cbn [default negb] in Hr.
    + destruct Hr as [-> ->]. right. split; [done|by constructor].
    + destruct Hr as ([] & tr' & -> & -> & ->). left. exists true. split; [done|by constructor].
    + destruct Hr as [-> ->]. right. split; [done|by constructor].
Qed.

Lemma only_quiet_ask c : quiet c = true -> only (fun c => quiet c = true) (do c).
Proof. by split. Qed.

Lemma only_finish a f :
  only (fun c => quiet c = true)
    (_ ← bind_sticky svc q a; Some <$> newSelectionResult svc (rq_ctx q) a true f None).
Proof.
  apply only_bind.
  - unfold bind_sticky, bind_selected, bindGatewayStickySessionDuringSelection, BindStickySession.
    destruct (_ && _); [|done]. apply only_bind; [|done].
    destruct (gatewayProfitControlGateActive _); [done|]. destruct (_ || _); [done|by apply only_quiet_ask].
  - intros _. apply only_bind; [|done]. unfold newSelectionResult, hydrateSelectedAccount.
    apply only_bind; [|done]. destruct (negb _); [done|]. apply only_bind; [by apply only_quiet_ask|done].
Qed.

Lemma returns_finish a :
  returns move (env_ok E)
    (_ ← bind_sticky svc q a; Some <$> newSelectionResult svc (rq_ctx q) a true (Some (Some (ID a))) None)
    (fun r => exists s, r = Some s /\ answers a s).
Proof.
  eapply returns_bind; [apply (returns_bind_sticky move)|]. intros _ _.
  eapply returns_fmap; [apply (returns_result move)|]. intros s Hs. exists s. split; [done|].
  destruct s; naive_solver.
Qed.

Lemma filter_shorter x (l : list accountWithLoad) :
  x ∈ l -> (length (base.filter (fun y => ID (account y) <> ID (account x)) l) < length l)%nat.
Proof. intros Hx. apply (length_filter_lt _ l x); [done|]. by intros H. Qed.

Lemma runs_layered_loop n l tr r :
  (length l <= n)%nat -> replies (env_ok E) tr -> runs (layered_loop svc n q l) tr r -> rounds l tr r.
Proof.
  revert l tr. induction n as [|n IH]; intros [|x l] tr Hl Hok Hr.
  1, 3: destruct Hr as [-> ->]; constructor.
  { simpl in Hl. lia. }
  cbn [layered_loop] in Hr. set (l' := x :: l) in *.
  apply runs_bind in Hr as (tr1 & y & tr2 & -> & Hp & Hr). apply Forall_app in Hok as [Hok1 Hok2].
  destruct (runs_pick l' tr1 y Hok1 Hp) as (clock & draws & -> & Hd & Hy).
  destruct y as [y|]; [|done]. rewrite <- app_assoc.
  apply runs_bind in Hr as (tr1' & res & tr3 & -> & Ha & Hr). apply Forall_app in Hok2 as [_ Hok3].
  destruct (runs_attempt _ _ _ Ha) as [(b & -> & Href)|[-> Hgr]].
  - apply (rounds_refused l' y); [done..|]. apply IH; [|done|done].
    pose proof (filter_shorter y l' (proj1 Hy)). lia.
  - destruct (returns_runs move (env_ok E) _ _ nothing _ _ (returns_finish (account y)) Hok3 Hr)
      as (s & -> & Hs).
    apply (rounds_granted l' y); [done..| |done].
    exact (only_runs (fun c => quiet c = true) _ _ _ (only_finish _ _) Hr).
Qed.

End Order.

(** ** The slots of the rounds *)

Lemma after_app (tr tr' : list event) g : after move (tr ++ tr') g = after move tr' (after move tr g).
Proof. apply foldl_app. Qed.

Lemma after_quiet tr g : Forall is_quiet tr -> after move tr g = g.
Proof.
  intros H. revert g. induction H as [|[c r] tr Hc _ IH]; intros g; [done|]. simpl.
  rewrite (move_quiet c r g Hc). apply IH.
Qed.

Lemma draws_quiet tr : Forall is_draw tr -> Forall is_quiet tr.
Proof. intros H. eapply Forall_impl; [exact H|]. by intros [[] r]. Qed.

Lemma picked_quiet svc q l clock x : picked svc q l clock x -> Forall is_quiet clock.
Proof. intros [_ [[-> _]|(now & -> & _)]]; by repeat constructor. Qed.

Lemma after_refused svc q a att g : refused svc q a att -> after move att g = g.
Proof.
  intros [r Hr|_]; cbn.
  - by destruct (decide (r = Some true)).
  - destruct (decide (Some true = Some true)), (decide (Some false = Some true)); try done.
    cbn [held sessions]. rewrite remove_one_head. by destruct g.
Qed.

Lemma after_granted svc q a att g : granted svc q a att -> held (after move att g) = ID a :: held g.
Proof. intros [_|r _ _]; cbn; [done|]. by destruct (decide (r = Some true)). Qed.

(** A round that ends with an account leaves its slot held, whatever the
    answer. *)
Lemma rounds_held svc q l tr r g :
  rounds svc q l tr r ->
  match r with
  | None => after move tr g = g
  | Some s => exists x, x ∈ l /\ answers (account x) s /\ held (after move tr g) = ID (account x) :: held g
  end.
Proof.
  intros H. revert g. induction H as [|l x clock draws att rest s Hp Hd Ha Hq Hs|l x clock draws att rest r Hp Hd Ha H IH];
    intros g; [done|..]; rewrite !after_app, (after_quiet clock), (after_quiet draws)
      by eauto using picked_quiet, draws_quiet.
  - exists x. rewrite (after_quiet rest) by done. split_and!; [apply Hp|done|]. by eapply after_granted.
  - rewrite (after_refused _ _ _ _ _ Ha). specialize (IH g). destruct r as [s|]; [|done].
    destruct IH as (y & Hy & ?). exists y. split; [|done]. by apply list_elem_of_filter in Hy as [_ ?].
Qed.

Section Whole.
Context (opts : ModelMappingOptions) (tzdb : string -> option Location) (loc : Location).
Context (svc : Services) (E : Env).
Hypothesis has_db : usageLogRepo svc = true.
Hypothesis has_cache : cache svc = true.

Abbreviation wp' p g Q := (wp move (env_ok E) p g Q).

Lemma settled_mono (P P' : Account -> Prop) r g :
  (forall a, P a -> P' a) -> settled P r g -> settled P' r g.
Proof.
  intros H. destruct r as [sel|[| | | | | | | | | |id]]; simpl; try done.
  intros (a & Ha & ?). exists a. auto.
Qed.

Lemma wp_slot a mx g (Q : option ReleaseFunc -> ghost -> Prop) :
  Q None g ->
  (Q (Some None) g) -> Q (Some (Some (ID a))) (mkGhost (ID a :: held g) (sessions g)) ->
  wp' (tryAcquireAccountSlot svc (ID a) mx) g Q.
Proof.
  intros H1 H2 H3. unfold tryAcquireAccountSlot. destruct (concurrencyService svc); [|exact H2].
  apply wp_bind. intros r _. simpl. case_decide as Hr.
  - by rewrite bool_decide_true.
  - by rewrite bool_decide_false.
Qed.

(** The answer, or [N] when there is none. *)
Definition round_post (N : Prop) (excluded : gset Z) (r : option Selected) (g : ghost) : Prop :=
  match r with Some s => settled (allowed E excluded) s g | None => N /\ g = nothing end.

Lemma wp_some_settled N ex p g :
  wp' p g (settled (allowed E ex)) -> wp' (Some <$> p) g (round_post N ex).
Proof. intros H. apply wp_bind. exact H. Qed.

(** A round of the selection without load, from nothing. *)
Lemma wp_round N excluded c a again sticky h :
  allowed E excluded a -> wp' again nothing (round_post N excluded) ->
  wp' (acquired ← tryAcquireAccountSlot svc (ID a) (Concurrency a);
       ok ← checkAndRegisterSession svc a h;
       match acquired with
       | Some f => if negb ok then _ ← release f; again
                   else Some <$> newSelectionResult svc c a true (Some f) None
       | None => if negb ok then again
                 else if (0 <? sticky) && (sticky ==? ID a) && concurrencyService svc then
                   waiting ← do (GetAccountWaitingCount (ID a));
                   if (waiting : Z) <? StickySessionMaxWaiting (schedulingConfig svc)
                   then Some <$> wait_on svc c a (sticky_plan svc a)
                   else Some <$> wait_on svc c a (fallback_plan svc a)
                 else Some <$> wait_on svc c a (fallback_plan svc a)
       end) nothing (round_post N excluded).
Proof.
  intros Ha Hagain. set (q := mkRequest c None h "" "" false false ∅ 0 false).
  assert (Hw : forall g, held g = [] -> at_most (sessions g) (ID a) ->
    wp' (if (0 <? sticky) && (sticky ==? ID a) && concurrencyService svc then
           waiting ← do (GetAccountWaitingCount (ID a));
           if (waiting : Z) <? StickySessionMaxWaiting (schedulingConfig svc)
           then Some <$> wait_on svc c a (sticky_plan svc a)
           else Some <$> wait_on svc c a (fallback_plan svc a)
         else Some <$> wait_on svc c a (fallback_plan svc a)) g (round_post N excluded)).
  { intros g Hh Hs. destruct (_ && _ && _).
    - eapply wp_returns; [quiet_call; exact (fun _ _ => I)|]. intros w _.
      destruct (_ <? _); by apply wp_some_settled, (wp_wait svc E q (allowed E excluded)).
    - by apply wp_some_settled, (wp_wait svc E q (allowed E excluded)). }
  assert (Hr : forall f g, slot_of (Some f) a -> held g = slots (Some f) -> at_most (sessions g) (ID a) ->
    wp' (Some <$> newSelectionResult svc c a true (Some f) None) g (round_post N excluded)).
  { intros f g H1 H2 H3. by apply wp_some_settled, (wp_acquired svc E q (allowed E excluded)). }
  apply wp_bind, wp_slot; apply wp_bind, wp_session.
  - intros []; [apply Hw; [done|by left]|exact Hagain].
  - apply Hw; [done|by right].
  - intros []; [apply Hr; [by left|done|by left]|exact Hagain].
  - apply Hr; [by left|done|by right].
  - intros []; [apply Hr; [by right|done|by left]|]. cbn [negb]. apply wp_bind. intros r _. simpl.
    by rewrite decide_True by done.
  - apply Hr; [by right|done|by right].
Qed.

(** [M n ex] must hold when [n] rounds find no account out of [ex]. *)
Lemma wp_select_and_acquire (M : nat -> gset Z -> Prop) n gfuel c gid h m sticky excluded (ex0 : gset Z) :
  (forall ex, M O ex) ->
  (forall n a ex, allowed E ex a -> M n ({[ID a]} ∪ ex) -> M (S n) ex) ->
  (forall n ex, returns move (env_ok E)
     (SelectAccountForModelWithExclusions opts tzdb loc svc gfuel c gid h m ex)
     (fun r => r = None -> M n ex)) ->
  ex0 ⊆ excluded ->
  wp' (select_and_acquire opts tzdb loc svc n gfuel c gid h m sticky excluded) nothing
    (round_post (M n excluded) ex0).
Proof.
  intros H0 HS Hx. revert excluded. induction n as [|n IH]; intros excluded Hsub; [by split|].
  cbn [select_and_acquire].
  eapply wp_returns; [apply returns_and;
    [apply (returns_exclusions move opts tzdb loc svc E has_db excluded)|apply (Hx (S n))]|].
  intros [[a|e]|] [Ha Hn]; [|destruct e; simpl; try done; split; by left|split; [auto|done]].
  specialize (Ha a eq_refl). cbv zeta.
  apply wp_round; [split; [destruct Ha; set_solver|apply Ha]|].
  eapply wp_mono; [apply IH; set_solver|]. intros [s|] g Hr; [done|]. destruct Hr as [Hr ->].
  split; [|done]. by apply (HS n a).
Qed.

(** The load-aware part. *)
Lemma wp_select_with_load c g gid h m excluded sticky :
  wp' (select_with_load opts tzdb loc svc c g gid h m excluded sticky) nothing (settled (allowed E excluded)).
Proof.
  unfold select_with_load. eapply wp_returns; [apply (silent_platform move)|].
  intros [[p f]|e] _; [|destruct e; simpl; try done; split; by left].
  eapply wp_returns; [by apply (returns_list move)|]. intros [[[|a l] mx]|] Hl; [done| |done].
  specialize (Hl _ _ eq_refl). rewrite Forall_forall in Hl.
  eapply wp_returns; [by apply (silent_costs move)|]. intros c1 _.
  eapply wp_returns; [by apply (silent_rpm move)|]. intros c2 _.
  eapply wp_returns; [by apply (returns_needs move)|]. intros needs Hn. cbv zeta.
  eapply wp_mono; [by apply (wp_select_layers opts tzdb loc svc E)|].
  intros r g' Hr. eapply settled_mono; [|exact Hr]. intros b (Hb & He & _).
  split; [done|by apply Hl].
Qed.

(** Whatever the fuel. *)
Lemma wp_load_awareness_safe n gfuel c gid h m excluded :
  wp' (SelectAccountWithLoadAwareness opts tzdb loc svc n gfuel c gid h m excluded) nothing
    (round_post True excluded).
Proof.
  unfold SelectAccountWithLoadAwareness. eapply wp_returns; [by apply (silent_restriction move)|].
  intros [[[g gid']|e]|] _; [|destruct e; simpl; try done; split; by left|done]. cbv zeta.
  eapply wp_returns; [by apply (silent_profit_gate move)|]. intros c1 _.
  eapply wp_returns; [by apply (silent_pricing move)|]. intros [] _; [done|].
  eapply wp_returns; [by apply (silent_sticky_account move)|]. intros sticky _.
  destruct (_ || _); [|apply wp_some_settled, wp_select_with_load].
  apply (wp_select_and_acquire (fun _ _ => True)); [done..| |done].
  intros. by eapply returns_mono; [by apply (returns_exclusions move)|].
Qed.

(** ** Fuel

    The accounts offered are those of [A], the groups fall back within [G]. *)
Section Fuel.
Context (A G : gset Z).
Hypothesis offered_A : forall id, account_ok E id -> id ∈ A.
Hypothesis fallback_G : forall id, fallback_ok E id -> id ∈ G.

(** A group the request's context carries is one whose fallback is known. *)
Definition ctx_falls_back (c : Ctx) : Prop := forall g, ctx_Group c = Some g -> falls_back E g.

Lemma falls_back_G g f : falls_back E g -> FallbackGroupID g = Some f -> f ∈ G.
Proof. unfold falls_back. intros H Hf. rewrite Hf in H. auto. Qed.

Lemma returns_group_by_id c gid :
  ctx_falls_back c ->
  returns move (env_ok E) (resolveGroupByID c gid)
    (fun r => forall g, r = Ok g -> falls_back E g).
Proof.
  intros Hc. unfold resolveGroupByID. destruct (groupFromContext c gid) as [g|] eqn:Eg.
  - apply returns_Return. intros ? [= <-]. apply Hc. unfold groupFromContext, valid_group_with_id in Eg.
    destruct (ctx_Group c) as [h|]; [|done]. destruct (_ && _); naive_solver.
  - eapply returns_bind; [quiet_call; exact (fun _ H => H)|]. intros r Hr. apply returns_Return.
    intros g Hg. destruct (r : option Group); [|done]. simplify_eq. by apply Hr.
Qed.

(** The chain visits a group of [G] once: more fuel than groups never runs
    out. *)
Lemma returns_fallbacks n c visited gid :
  ctx_falls_back c -> gid ∈ G ->
  returns move (env_ok E) (resolve_fallbacks n c visited gid) (fun r =>
    match r with
    | None => (n <= size (G ∖ list_to_set visited))%nat
    | Some (Ok (g, id)) => falls_back E g /\ id ∈ G
    | Some (Err _) => True
    end).
Proof.
  intros Hc. revert visited gid. induction n as [|n IH]; intros visited gid Hgid; cbn [resolve_fallbacks].
  { apply returns_Return. lia. }
  case_bool_decide as Hv; [by apply returns_Return|].
  eapply returns_bind; [by apply returns_group_by_id|]. intros [g|e] Hg; [|by apply returns_Return].
  specialize (Hg g eq_refl). destruct (_ || _); [by apply returns_Return|].
  destruct (FallbackGroupID g) as [f|] eqn:Ef; [|by apply returns_Return].
  eapply returns_mono; [apply IH, (falls_back_G g); done|]. intros [[?|?]|]; [done..|]. intros Hn.
  enough (size (G ∖ list_to_set (gid :: visited)) < size (G ∖ list_to_set visited))%nat by lia.
  apply subset_size. rewrite list_to_set_cons. split; [set_solver|]. intros Hs.
  assert (gid ∈ G ∖ list_to_set visited) as Hin%Hs by set_solver. set_solver.
Qed.

Definition in_G (gid : option Z) : Prop := forall id, gid = Some id -> id ∈ G.

(** The resolved group. *)
Definition group_post (n : nat) (r : option (result SelectionError (option Group * option Z))) : Prop :=
  match r with
  | None => (n <= size G)%nat
  | Some (Ok (g, gid)) => (forall h, g = Some h -> falls_back E h) /\ in_G gid
  | Some (Err _) => True
  end.

Lemma returns_gateway_group n c gid :
  ctx_falls_back c -> in_G gid ->
  returns move (env_ok E) (resolveGatewayGroup n c gid) (group_post n).
Proof.
  intros Hc Hg. destruct gid as [gid|]; cbn [resolveGatewayGroup]; [|by apply returns_Return].
  eapply returns_bind; [apply returns_fallbacks; auto|]. intros r Hr. apply returns_Return.
  unfold group_post, in_G. destruct r as [[[g id]|e]|]; [naive_solver|done|].
  simpl in Hr. by rewrite difference_empty_L in Hr.
Qed.

Lemma returns_restriction n c gid :
  ctx_falls_back c -> in_G gid ->
  returns move (env_ok E) (checkClaudeCodeRestriction n c gid) (group_post n).
Proof.
  intros Hc Hg. unfold checkClaudeCodeRestriction. destruct gid; [|by apply returns_Return].
  destruct (forced_platform c); [by apply returns_Return|by apply returns_gateway_group].
Qed.

Lemma ctx_falls_back_with c g :
  ctx_falls_back c -> (forall h, g = Some h -> falls_back E h) -> ctx_falls_back (withGroupContext c g).
Proof.
  intros Hc Hg. destruct g as [g|]; [|done]. unfold withGroupContext.
  destruct (negb _); [done|]. destruct (groupFromContext _ _); [done|].
  intros h [= <-]. by apply Hg.
Qed.

Lemma returns_profit_gate c gid :
  ctx_falls_back c ->
  returns move (env_ok E) (withGatewayProfitControlGate loc svc c gid) ctx_falls_back.
Proof.
  intros Hc. assert (Hclear : ctx_falls_back (clearForeignProfitControlGate c gid)).
  { unfold clearForeignProfitControlGate. destruct (ProfitGate c), gid; [|done..]. by destruct (_ ==? _). }
  unfold withGatewayProfitControlGate. destruct (TokenPricingAt c); [|by apply returns_Return].
  destruct gid as [gid|]; [|by apply returns_Return]. destruct (gid <=? 0); [by apply returns_Return|].
  destruct (match ProfitGate c with Some g => _ | None => _ end); [by apply returns_Return|].
  apply (returns_bind _ _ _ _ (fun _ => True)).
  - unfold resolveProfitControlGroup. destruct (groupFromContext c gid); [silently|].
    destruct (schedulerSnapshot svc); [silently|].
    eapply returns_bind; [by apply (silent_resolveGroupByID move)|]. intros. silently.
  - intros [[g|]|] _; [|by apply returns_Return..]. destruct (_ || _); [by apply returns_Return|].
    apply (returns_bind _ _ _ _ (fun _ => True)); [silently|]. intros m _. by apply returns_Return.
Qed.

Lemma returns_exclusions_fuel n c gid h m ex :
  ctx_falls_back c -> in_G gid ->
  returns move (env_ok E) (SelectAccountForModelWithExclusions opts tzdb loc svc n c gid h m ex)
    (fun r => r = None -> (n <= size G)%nat).
Proof.
  intros Hc Hg.
  assert (Hs : forall c gid m p,
    returns move (env_ok E) (Some <$> select_resolved opts tzdb loc svc c gid h m ex p)
      (fun r => r = None -> (n <= size G)%nat)).
  { intros. eapply returns_fmap; [by apply (returns_select_resolved move)|done]. }
  unfold SelectAccountForModelWithExclusions. destruct (forced_platform c); [apply Hs|].
  destruct gid as [gid|]; [|apply Hs].
  eapply returns_bind; [by apply returns_gateway_group|]. intros [[[[g|] gid']|e]|] Hr;
    [|by apply returns_Return..].
  case_bool_decide; [|apply Hs].
  eapply returns_bind; [apply (silent_composite move)|]. intros [[d|]|e] _;
    [apply Hs|by apply returns_Return..].
Qed.

(** No answer only when a fuel runs out. *)
Definition out_of_fuel (n gfuel : nat) (excluded : gset Z) : Prop :=
  (n <= size (A ∖ excluded))%nat \/ (gfuel <= size G)%nat.

Lemma wp_load_awareness n gfuel c gid h m excluded :
  ctx_falls_back c -> in_G gid ->
  wp' (SelectAccountWithLoadAwareness opts tzdb loc svc n gfuel c gid h m excluded) nothing
    (round_post (out_of_fuel n gfuel excluded) excluded).
Proof.
  intros Hc Hg. unfold SelectAccountWithLoadAwareness.
  eapply wp_returns; [by apply returns_restriction|].
  intros [[[g gid']|e]|] Hr; [|destruct e; simpl; try done; split; by left|split; [by right|done]].
  cbv zeta. destruct Hr as [Hgg Hgid].
  eapply wp_returns; [by apply returns_profit_gate, ctx_falls_back_with|]. intros c1 Hc1.
  eapply wp_returns; [by apply (silent_pricing move)|]. intros [] _; [done|].
  eapply wp_returns; [by apply (silent_sticky_account move)|]. intros sticky _.
  destruct (_ || _); [|apply wp_some_settled, wp_select_with_load].
  apply (wp_select_and_acquire (fun n ex => out_of_fuel n gfuel ex)); [| | |done].
  - intros ex. left. lia.
  - intros n' a ex [Hex Hok%offered_A] [Hr|Hr]; [left|by right].
    enough (size (A ∖ ({[ID a]} ∪ ex)) < size (A ∖ ex))%nat by lia.
    apply subset_size. split; [set_solver|]. intros Hs.
    assert (ID a ∈ A ∖ ex) as Hin%Hs by set_solver. set_solver.
  - intros n' ex. eapply returns_mono; [by apply returns_exclusions_fuel|]. intros r Hrn Heq.
    right. auto.
Qed.

End Fuel.
End Whole.
