(* ===== verification/SelectionTheorems.v ===== *)
(** * Selecting an account: the theorems

    What a caller of [SelectAccountWithLoadAwareness] may rely on, over every
    run, each with a run that shows its hypotheses can hold. *)

From S2P Require Import Prelude Float64 GoTime GoAny Account ModelMapping AccountQuota AccountScheduling ModelAvailability GroupRouting GoProgram GatewayCalls AccountOrder AccountOrderProperties SelectionGates AccountSelection AccountSelectionProperties SelectionSafety.
Local Open Scope Z_scope.

(** ** A concrete environment

    Three OAuth accounts of priorities 2, 1 and 1, in a group that may require
    a privacy setting; the accounts of [busy] have no free slot, and the
    snapshot has lost the accounts of [lost]. *)
Module Sample.
Section Sample.
Context (platform : string) (private : bool) (busy lost : gset Z).

Definition opts : ModelMappingOptions := mkOptions "" false.
Definition zones : string -> option Location := fun _ => None.
Definition acct (id prio : Z) (used : option time) : Account :=
  mkAccount id platform AccountTypeOAuth None None 1 prio None None StatusActive None false
    true None None None None None None "" used [7].
Definition accounts : list Account :=
  [acct 11 2 None; acct 12 1 (Some (60 * second)); acct 13 1 (Some second)].
Definition find_account (id : Z) : option Account := snd <$> list_find (fun a => ID a = id) accounts.

Definition group : Group :=
  mkGroup 7 platform StatusActive true "standard" f1 false None false [] private false "" "" f1
    false f0 f0.

Definition svc (load snapshot : bool) : Services :=
  mkServices true true true false true false snapshot false false true
    (Some (mkSchedulingConfig 3 (45 * second) (30 * second) 100 "" false load)) false.

Definition ctx : Ctx :=
  mkCtx Background None None None (Some group) 0 None None None None false None None None.

Definition answer (c : call) (w : unit) : reply c * unit :=
  (match c return reply c with
   | Now => 0
   | Intn _ => O
   | RandShuffle _ => []
   | AcquireAccountSlot id _ => Some (bool_decide (id ∉ busy))
   | ReleaseSlot _ => tt
   | RegisterSession _ _ _ _ => Some true
   | GetAccountWaitingCount _ => 0
   | GetAccountsLoadBatch _ => ({[12 := 40; 13 := 40]}, false)
   | GetSessionAccountID _ _ => Err ErrStickySessionNotFound
   | SetSessionAccountID _ _ _ => true
   | DeleteSessionAccountID _ _ => tt
   | RefreshSessionTTL _ _ => tt
   | GetWindowCost _ => None
   | SetWindowCost _ _ => tt
   | GetWindowCostBatch _ => None
   | GetAccountWindowStats _ _ => None
   | GetAccountWindowStatsBatch _ _ => None
   | GetRPM _ => None
   | GetRPMBatch _ => None
   | SnapshotGetAccount id => Some (if bool_decide (id ∈ lost) then None else find_account id)
   | GetByID id => Some (find_account id)
   | SnapshotListSchedulable _ _ _ => Some (accounts, false)
   | RepoList _ => Some accounts
   | ApplyAccountSchedulingThreshold a => (false, a)
   | FilterGrokFreeQuota l => base.filter (fun a => ID a ∈ ({[11; 12; 13]} : gset Z)) l
   | GetByIDLite _ => Some group
   | GroupGetByID _ => Some group
   | SnapshotGroupLite _ => Some (Some group)
   | ResolveUserGroupRateMultiplier _ _ d => d
   | CompositeResolve _ _ => None
   | ResolveChannelMapping _ m => ("", m)
   | IsModelRestricted _ _ => false
   | GetChannelForGroup _ => Some None
   | SetError _ => tt
   end, tt).

(** The accounts and the group of the sample. *)
Definition env : Env :=
  mkEnv (fun _ => True) (fun id => id ∈ ({[11; 12; 13]} : gset Z)) (fun _ => False).

Definition selection (load snapshot : bool) (n : nat) : prog (option Selected) :=
  SelectAccountWithLoadAwareness opts zones UTC (svc load snapshot) n 2 ctx (Some 7) "session" ""
    {[13]}.

(** What a run against [answer] leads to. *)
Definition run {A} (p : prog A) : option (A * list event) :=
  exec (answer) tt p.

Definition outcome {A} (p : prog A) : option A := fst <$> run p.
Definition trace {A} (p : prog A) : list event := default [] (snd <$> run p).

(** The sample's replies are those of [env], and so of [any_env]. *)
Lemma find_account_ok id a : find_account id = Some a -> ID a = id /\ ID a ∈ ({[11; 12; 13]} : gset Z).
Proof.
  unfold find_account. intros ([i b] & Hf & [= ->])%fmap_Some.
  apply list_find_Some in Hf as (Hl & Hid & _). split; [done|].
  apply list_elem_of_lookup_2 in Hl. unfold accounts in Hl. rewrite !elem_of_cons in Hl.
  destruct Hl as [->|[->|[->|Hl]]]; [set_solver..|]. by apply elem_of_nil in Hl.
Qed.

End Sample.
End Sample.

#[export] Hint Resolve Sample.find_account_ok : core.

Section Witness.
Context (platform : string) (private : bool) (busy lost : gset Z).

Lemma answer_ok c w : env_ok Sample.env c (Sample.answer platform private busy lost c w).1.
Proof.
  assert (Hl : Forall (fun a => account_ok Sample.env (ID a)) (Sample.accounts platform)).
  { repeat constructor; set_solver. }
  destruct c; simpl; try done; try lia.
  - case_bool_decide; [done|]. intros a [= Ha]. by eapply Sample.find_account_ok.
  - intros a [= Ha]. by eapply Sample.find_account_ok.
  - by intros l m [= <- <-].
  - by intros l [= <-].
  - apply Forall_forall. intros a. rewrite list_elem_of_filter. tauto.
  - by intros g [= <-].
Qed.

Lemma answer_any c w : env_ok any_env c (Sample.answer platform private busy lost c w).1.
Proof. apply (env_ok_any Sample.env), answer_ok. Qed.

Lemma exec_sample {A} (p : prog A) a :
  Sample.outcome platform private busy lost p = Some a ->
  let tr := Sample.trace platform private busy lost p in
  runs p tr a /\ replies (env_ok Sample.env) tr /\ replies (env_ok any_env) tr.
Proof.
  unfold Sample.outcome, Sample.trace. intros Ho. cbv zeta.
  destruct (Sample.run platform private busy lost p) as [[b tr]|] eqn:H; simplify_eq/=.
  split_and!; [by eapply exec_runs|eapply exec_ok..]; try exact H; [apply answer_ok|apply answer_any].
Qed.

End Witness.

(** ** Theorems *)

(** C5: whatever the caches, the database, the clock and the random source
    answer, a selection that returns an account holds exactly the slot it
    hands over and at most one session of that account, which is not one of
    the excluded; without a slot it hands over a wait plan for it; and an
    error leaves no slot and no session behind, unless it is the failure to
    read the selected account back. *)
Theorem selection_settled opts tzdb loc svc n gfuel c gid h m excluded tr r :
  usageLogRepo svc = true -> cache svc = true -> replies (env_ok any_env) tr ->
  runs (SelectAccountWithLoadAwareness opts tzdb loc svc n gfuel c gid h m excluded) tr (Some r) ->
  settled (fun a => ID a ∉ excluded) r (after move tr nothing).
Proof.
  intros Hdb Hc Hok Hr.
  pose proof (wp_runs move (env_ok any_env) _ _ _ _ _
    (wp_load_awareness_safe opts tzdb loc svc any_env Hdb Hc n gfuel c gid h m excluded) Hok Hr) as H.
  eapply settled_mono; [|exact H]. by intros a [Ha _].
Qed.

(** Account 12 is free; or it is busy, 13 is excluded and 11 has a slot. *)
Lemma selection_settled_witness :
  let p := Sample.selection PlatformAnthropic false true false 4 in
  let tr busy := Sample.trace PlatformAnthropic false busy ∅ p in
  after move (tr ∅) nothing = mkGhost [12] [] /\
  settled (fun a => ID a ∉ ({[13]} : gset Z))
    (Ok (mkSelection (Sample.acct PlatformAnthropic 11 2 None) true (Some (Some 11)) None None))
    (after move (tr {[12]}) nothing).
Proof.
  intros p tr. split; [by vm_compute|].
  destruct (exec_sample PlatformAnthropic false {[12]} ∅ p
    (Some (Ok (mkSelection (Sample.acct PlatformAnthropic 11 2 None) true (Some (Some 11)) None None))))
    as (Hr & _ & Hok); [by vm_compute|].
  apply (selection_settled Sample.opts Sample.zones UTC (Sample.svc true false) 4 2
    (Sample.ctx PlatformAnthropic false) (Some 7) "session" "" {[13]}); [done|done|exact Hok|exact Hr].
Defined.

(** C23: when the accounts offered and the groups to fall back to are known
    and finite, and the fuels exceed their numbers, a selection of a service
    that has its usage-log repository and its cache (without them some paths
    would call through nil) never panics and always answers. *)
Theorem selection_answers opts tzdb loc svc E (A G : gset Z) n gfuel c gid h m excluded :
  usageLogRepo svc = true -> cache svc = true ->
  (forall id, account_ok E id -> id ∈ A) -> (forall id, fallback_ok E id -> id ∈ G) ->
  ctx_falls_back E c -> in_G G gid ->
  (size (A ∖ excluded) < n)%nat -> (size G < gfuel)%nat ->
  let p := SelectAccountWithLoadAwareness opts tzdb loc svc n gfuel c gid h m excluded in
  ~ panics (env_ok E) p /\
  forall tr r, replies (env_ok E) tr -> runs p tr r -> exists s, r = Some s.
Proof.
  intros Hdb Hc HA HG Hctx Hgid Hn Hg p.
  pose proof (wp_load_awareness opts tzdb loc svc E Hdb Hc A G HA HG n gfuel c gid h m excluded Hctx Hgid) as H.
  split; [by eapply wp_no_panic|]. intros tr r Hok Hr.
  pose proof (wp_runs _ _ _ _ _ _ _ H Hok Hr) as Hp. destruct r as [s|]; [eauto|].
  destruct Hp as [[?|?] _]; lia.
Qed.

Lemma selection_answers_witness :
  ~ panics (env_ok Sample.env) (Sample.selection PlatformAnthropic false false false 3) /\
  Sample.outcome PlatformAnthropic false ∅ ∅ (Sample.selection PlatformAnthropic false false false 3) =
    Some (Some (Ok (mkSelection (Sample.acct PlatformAnthropic 12 1 (Some (60 * second))) true
                      (Some (Some 12)) None None))).
Proof.
  split; [|by vm_compute].
  apply (selection_answers Sample.opts Sample.zones UTC (Sample.svc false false) Sample.env
    {[11; 12; 13]} {[7]} 3 2); [done|done|by intros|by intros| | | |].
  - by intros g [= <-].
  - intros id [= <-]. set_solver.
  - vm_compute. lia.
  - vm_compute. lia.
Defined.

(** C24: the load layer runs in rounds.  Each picks one account over all not
    yet tried (by priority, soonest reset at the time it read if so configured,
    load, last use and, where preferred, OAuth) and asks for its slot, and then
    for its session where the account limits them.  A slot that is not granted
    leads to the next round; a session that is refused gives the slot back and
    leads to the next round; a session that could not be registered for an
    error counts as registered.  The first account granted both is answered,
    with its slot, or with the error of reading it back, and no slot or session
    call follows; there is no answer only when every account was tried.
    Assumed: the concurrency service is there, random indices are in range and
    an account read back has the id asked for. *)
Theorem load_layer_order svc q l tr r :
  concurrencyService svc = true -> replies (env_ok any_env) tr ->
  runs (layered_loop svc (length l) q l) tr r -> rounds svc q l tr r.
Proof. intros Hs Hok Hr. by eapply runs_layered_loop. Qed.

(** 13 was used before 12, and 11 comes after both. *)
Lemma load_layer_order_witness :
  let q := mkRequest (Sample.ctx PlatformAnthropic false) (Some 7) "session" "" PlatformAnthropic false false ∅ 0 false in
  let l := map (fun a => mkWithLoad a 0) (Sample.accounts PlatformAnthropic) in
  let p := layered_loop (Sample.svc true false) 3 q l in
  let tr := Sample.trace PlatformAnthropic false {[11; 12; 13]} ∅ p in
  map (fun e => projT1 e) tr = [AcquireAccountSlot 13 1; AcquireAccountSlot 12 1; AcquireAccountSlot 11 1] /\
  rounds (Sample.svc true false) q l tr None.
Proof.
  intros q l p tr. split; [by vm_compute|].
  destruct (exec_sample PlatformAnthropic false {[11; 12; 13]} ∅ p None) as (Hr & _ & Hok); [by vm_compute|].
  eapply load_layer_order; [|exact Hok|exact Hr]. done.
Defined.

(** The times read in a trace. *)
Definition trace_env (tr : list event) : Env :=
  mkEnv (fun t => Ev (reply := reply) Now t ∈ tr) (fun _ => True) (fun _ => True).

Lemma replies_trace tr : replies (env_ok any_env) tr -> replies (env_ok (trace_env tr)) tr.
Proof.
  unfold replies. rewrite !Forall_forall. intros H [c r] Hin. specialize (H _ Hin). by destruct c.
Qed.

(** C25: the layers return only an account that was offered, is not excluded
    and passed every gate at times the run read: schedulable, profitable, of an
    allowed platform, supporting the model, each limit on its model over (or,
    for an antigravity account with overages, credits left), its quota not
    exceeded, and the prefetched window cost and requests per minute, where
    there are any, in a zone open to it.  A zone open only to sticky requests
    counts only for the account the session is bound to.  Assumed: there is a
    usage-log repository and a cache, the request has a group when the upstream
    restriction is checked, and an account read back has the id asked for. *)
Theorem layers_return_candidate opts tzdb loc svc q accounts ids tr sel :
  usageLogRepo svc = true -> cache svc = true -> (rq_needsUpstream q = true -> rq_groupID q <> None) ->
  replies (env_ok any_env) tr ->
  runs (select_layers opts tzdb loc svc q accounts ids) tr (Ok sel) ->
  exists a (isSticky : bool), a ∈ accounts /\ ID (sel_Account sel) = ID a /\ ID a ∉ rq_excluded q /\
    (isSticky = true -> rq_hash q <> "" /\ 0 < rq_sticky q /\ ID a = rq_sticky q) /\
    passes opts tzdb (trace_env tr) q a isSticky.
Proof.
  intros Hdb Hc Hup Hok%replies_trace Hr.
  destruct (wp_runs move (env_ok (trace_env tr)) _ _ _ _ _
    (wp_select_layers opts tzdb loc svc (trace_env tr) q Hdb Hup Hc accounts ids) Hok Hr)
    as (a & (Ha & He & st & Hp & Hst) & Hid & _).
  by exists a, st.
Qed.

Lemma layers_return_candidate_witness :
  let q := mkRequest (Sample.ctx PlatformAnthropic false) (Some 7) "session" "" PlatformAnthropic false false {[13]} 11 false in
  exists a (isSticky : bool) tr, a ∈ Sample.accounts PlatformAnthropic /\ 11 = ID a /\ ID a ∉ rq_excluded q /\
    passes Sample.opts Sample.zones (trace_env tr) q a isSticky.
Proof.
  intros q. set (sel := mkSelection (Sample.acct PlatformAnthropic 11 2 None) true (Some (Some 11)) None None).
  change 11 with (ID (sel_Account sel)).
  set (p := select_layers Sample.opts Sample.zones UTC (Sample.svc true false) q (Sample.accounts PlatformAnthropic) []).
  destruct (exec_sample PlatformAnthropic false ∅ ∅ p (Ok sel)) as (Hr & _ & Hok); [by vm_compute|].
  destruct (layers_return_candidate Sample.opts Sample.zones UTC (Sample.svc true false) q
    (Sample.accounts PlatformAnthropic) [] _ sel eq_refl eq_refl ltac:(done) Hok Hr)
    as (a & st & Ha & Hid & He & _ & Hp).
  by exists a, st, (Sample.trace PlatformAnthropic false ∅ ∅ p).
Defined.

(** The accounts to wait on are tried in a rearrangement of the
    candidates in which none comes after one of a worse priority, nor, unless
    the mode is "random", after one of the same priority used later. *)
Theorem fallback_order l preferOAuth mode tr l' :
  replies (env_ok any_env) tr -> runs (sortCandidatesForFallback l preferOAuth mode) tr l' ->
  l' ≡ₚ l /\ StronglySorted (fallback_le preferOAuth mode) l'.
Proof.
  apply (returns_runs move (env_ok any_env) _
    (fun l' => l' ≡ₚ l /\ StronglySorted (fallback_le preferOAuth mode) l') nothing).
  by apply (returns_fallback move (env_ok any_env)).
Qed.

Lemma fallback_order_witness :
  let l := Sample.accounts PlatformAnthropic in
  let l' := [Sample.acct PlatformAnthropic 13 1 (Some second);
             Sample.acct PlatformAnthropic 12 1 (Some (60 * second)); Sample.acct PlatformAnthropic 11 2 None] in
  l' ≡ₚ l /\ StronglySorted (fallback_le false "") l'.
Proof.
  intros l l'.
  destruct (exec_sample PlatformAnthropic false ∅ ∅ (sortCandidatesForFallback l false "") l')
    as (Hr & _ & Hok); [by vm_compute|].
  by apply (fallback_order l false "" _ l' Hok).
Defined.

(** C36: when the load layer answers with an error, that is the failure to
    read back an account it was offered and whose slot it had acquired, and
    nobody has released the slot: it is all that is held afterwards.  Assumed:
    as for C24. *)
Theorem unread_account_keeps_slot svc q l tr e :
  concurrencyService svc = true -> replies (env_ok any_env) tr ->
  runs (layered_loop svc (length l) q l) tr (Some (Err e)) ->
  exists x, x ∈ l /\ e = ErrHydrate (ID (account x)) /\ held (after move tr nothing) = [ID (account x)].
Proof.
  intros Hs Hok Hr. apply (runs_layered_loop svc any_env q Hs) in Hr; [|lia|done].
  exact (rounds_held _ _ _ _ _ nothing Hr).
Qed.

(** The snapshot has lost account 13. *)
Lemma unread_account_keeps_slot_witness :
  let q := mkRequest (Sample.ctx PlatformAnthropic false) (Some 7) "session" "" PlatformAnthropic false false ∅ 0 false in
  let l := map (fun a => mkWithLoad a 0) (Sample.accounts PlatformAnthropic) in
  let p := layered_loop (Sample.svc true true) 3 q l in
  let tr := Sample.trace PlatformAnthropic false ∅ {[13]} p in
  exists x, x ∈ l /\ ErrHydrate 13 = ErrHydrate (ID (account x)) /\ held (after move tr nothing) = [ID (account x)].
Proof.
  intros q l p tr.
  destruct (exec_sample PlatformAnthropic false ∅ {[13]} p (Some (Err (ErrHydrate 13)))) as (Hr & _ & Hok); [by vm_compute|].
  exact (unread_account_keeps_slot (Sample.svc true true) q l tr (ErrHydrate 13) eq_refl Hok Hr).
Defined.

(** In a group that requires a privacy setting, the selection with load
    returns an account without it, which the selection without load
    refuses. *)
Example privacy_unchecked_with_load :
  let a := Sample.acct PlatformAntigravity 12 1 (Some (60 * second)) in
  let answer load := Sample.outcome PlatformAntigravity true ∅ ∅
                       (Sample.selection PlatformAntigravity true load false 4) in
  RequirePrivacySet (Sample.group PlatformAntigravity true) = true /\ IsPrivacySet a = false /\
  answer true = Some (Some (Ok (mkSelection a true (Some (Some 12)) None None))) /\
  answer false = Some (Some (Err ErrNoAvailableAccounts)).
Proof. split_and!; by vm_compute. Qed.
