(* ===== verification/OpenAIQuota.v ===== *)
(** * OpenAI accounts: usage windows, automatic pause, reset-credit settings

    The part of [openai_gateway_scheduling.go], [openai_gateway_usage.go],
    [openai_gateway_service.go] and [openai_quota_auto_reset_config.go] that
    reads and writes the [codex_*] and [auto_*] keys of an account's [Extra]:
    how a usage snapshot becomes keys, when a window counts as rolled over or a
    snapshot as stale, and when an account is paused by its utilization. *)

From S2P Require Import Prelude GoStrings Float64 GoTime GoAny Account AccountProtocol AccountQuota.
Local Open Scope Z_scope.

(** ** Numbers, flags and times in [Extra] *)

Definition number_of_any (v : any) : option f64 :=
  match v with
  | AFloat64 f | AFloat32 f => Some f
  | AInt n | AInt64 n => Some (f64_of_Z n)
  | ANumber s => number_Float64 s
  | AString s => ParseFloat (TrimSpace s)
  | _ => None
  end.

(** The first of the keys that holds a number. *)
Fixpoint resolveAccountExtraNumber (extra : anymap) (keys : list string) : option f64 :=
  match keys with
  | [] => None
  | key :: keys =>
      match lookup_key extra key with
      | Some v => match number_of_any v with Some f => Some f | None => resolveAccountExtraNumber extra keys end
      | None => resolveAccountExtraNumber extra keys
      end
  end.

(** [n != 0] of a NaN is true. *)
Definition resolveAccountExtraBool (extra : anymap) (key : string) : bool :=
  match index_key extra key with
  | ABool b => b
  | AString s => default false (ParseBool (TrimSpace s))
  | AFloat64 f | AFloat32 f => negb (feqb f f0)
  | AInt n | AInt64 n => negb (n =? 0)
  | ANumber s => match number_Int64 s with Some n => negb (n =? 0) | None => false end
  | _ => false
  end.

(** [parseTime(fmt.Sprint(v))].  Every layout [parseTime] tries after RFC 3339
    accepts fewer texts; only a string prints as one of them. *)
Definition parse_time_any (v : any) : option time :=
  match v with AString s | ANumber s => ParseRFC3339 s | _ => None end.

(** [time.Duration(n) * time.Second]. *)
Definition seconds (n : Z) : duration := wrap64 (n * second).

(** A case of a [switch] on a float: of a NaN, the value itself. *)
Definition clamp01 (value : f64) : f64 :=
  if fltb value f0 then f0 else if fltb f1 value then f1 else value.

Definition f100 : f64 := f64_of_Z 100.

(** ** The windows *)

Definition codex_key (window suffix : string) : string := "codex_" +:+ window +:+ suffix.

Definition readOpenAIQuotaUsedPercent (extra : anymap) (window : string) : f64 :=
  default f0 (resolveAccountExtraNumber extra [codex_key window "_used_percent"]).

Definition codex_updated_at (extra : anymap) : option time :=
  match lookup_key extra "codex_usage_updated_at" with Some v => parse_time_any v | None => None end.

Definition openAIQuotaWindowReset (extra : anymap) (window : string) (now : time) : bool :=
  match lookup_key extra (codex_key window "_reset_at") ≫= parse_time_any with
  | Some resetAt => negb (Before now resetAt)
  | None =>
      let resetAfter := parseExtraInt (index_key extra (codex_key window "_reset_after_seconds")) in
      if resetAfter <=? 0 then false
      else let base := default now (codex_updated_at extra) in
           negb (Before now (base + seconds resetAfter))
  end.

Definition openAICodexAutoPauseStaleAfter : duration := 2 * hour.

(** A snapshot without a readable time does not go stale. *)
Definition openAICodexSnapshotStaleForPause (extra : anymap) (now : time) : bool :=
  match codex_updated_at extra with
  | Some updatedAt => openAICodexAutoPauseStaleAfter <=? Sub now updatedAt
  | None => false
  end.

Definition resolveOpenAIQuotaUtilization (extra : anymap) (window : string) (now : time) : option f64 :=
  let usedPercent := readOpenAIQuotaUsedPercent extra window in
  if fleb usedPercent f0 then None
  else if openAIQuotaWindowReset extra window now then None
  else if openAICodexSnapshotStaleForPause extra now then None
  else Some (fdiv usedPercent f100).

(** ** Thresholds *)

Record OpsOpenAIAccountQuotaAutoPauseSettings := mkPauseSettings {
  DefaultThreshold5h : f64;
  DefaultThreshold7d : f64;
}.

(** The settings the context carries, the zero value when it carries none. *)
Definition no_pause_settings : OpsOpenAIAccountQuotaAutoPauseSettings := mkPauseSettings f0 f0.

Definition resolveOpenAIQuotaAutoPauseThresholds (settings : OpsOpenAIAccountQuotaAutoPauseSettings)
    (a : Account) : f64 * f64 :=
  let own key := clamp01 (default f0 (resolveAccountExtraNumber (Extra a) [key])) in
  let threshold5h := own "auto_pause_5h_threshold" in
  let threshold7d := own "auto_pause_7d_threshold" in
  if fltb f0 threshold5h && fltb f0 threshold7d then (threshold5h, threshold7d)
  else (if fleb threshold5h f0 then clamp01 (DefaultThreshold5h settings) else threshold5h,
        if fleb threshold7d f0 then clamp01 (DefaultThreshold7d settings) else threshold7d).

(** ** Reset-credit settings *)

Record OpenAIAutoResetCreditConfig := mkResetConfig {
  rc_Enabled : bool;
  Threshold5h : f64;
  Threshold7d : f64;
}.

Definition openAIAutoResetCreditMinimumThreshold : f64 := f64_of_ratio false 1 1000.

Definition isValidOpenAIAutoResetThreshold (value : f64) : bool :=
  negb (f_is_nan value) && negb (f_is_inf value)
  && fleb openAIAutoResetCreditMinimumThreshold value && fleb value f1.

Definition isOpenAIAutoResetCreditAccount (a : Account) : bool :=
  (Platform a ==? PlatformOpenAI) && (AType a ==? AccountTypeOAuth) && negb (IsShadow a).

Definition OpenAIAutoResetCreditEnabledExtraKey := "auto_reset_credit_enabled".
Definition OpenAIAutoResetCredit5hThresholdExtraKey := "auto_reset_credit_5h_threshold".
Definition OpenAIAutoResetCredit7dThresholdExtraKey := "auto_reset_credit_7d_threshold".
Definition OpenAIAutoResetCreditStateExtraKey := "codex_auto_reset_credit_state".

(** A valid threshold, the default 1.0 otherwise. *)
Definition reset_threshold (extra : anymap) (key : string) : f64 :=
  match resolveAccountExtraNumber extra [key] with
  | Some value => if isValidOpenAIAutoResetThreshold value then value else f1
  | None => f1
  end.

Definition ResolveOpenAIAutoResetCreditConfig (a : Account) : OpenAIAutoResetCreditConfig :=
  match isOpenAIAutoResetCreditAccount a, Extra a with
  | true, Some _ =>
      mkResetConfig (resolveAccountExtraBool (Extra a) OpenAIAutoResetCreditEnabledExtraKey)
        (reset_threshold (Extra a) OpenAIAutoResetCredit5hThresholdExtraKey)
        (reset_threshold (Extra a) OpenAIAutoResetCredit7dThresholdExtraKey)
  | _, _ => mkResetConfig false f1 f1
  end.

Inductive ResetConfigError :=
| AccountInvalid                     (** OPENAI_AUTO_RESET_CREDIT_ACCOUNT_INVALID *)
| EnabledInvalid                     (** OPENAI_AUTO_RESET_CREDIT_ENABLED_INVALID *)
| ThresholdInvalid.                  (** OPENAI_AUTO_RESET_CREDIT_THRESHOLD_INVALID *)

(** [parseOpenAIAutoResetThreshold] reads the same dynamic types. *)
Definition parseOpenAIAutoResetThreshold (v : any) : option f64 := number_of_any v.

(** One round of the loop over the two thresholds, whose order does not show:
    both failures carry the same code. *)
Definition normalize_threshold (enabled : bool) (key : string) (m : gmap string any)
    : result ResetConfigError (gmap string any) :=
  match m !! key with
  | None => Ok (if enabled then <[key := AFloat64 f1]> m else m)
  | Some v =>
      match parseOpenAIAutoResetThreshold v with
      | Some value => if isValidOpenAIAutoResetThreshold value then Ok (<[key := AFloat64 value]> m)
                      else Err ThresholdInvalid
      | None => Err ThresholdInvalid
      end
  end.

Definition normalizeOpenAIAutoResetCreditExtra (platform accountType : string) (isShadow : bool)
    (extra : anymap) : result ResetConfigError anymap :=
  match extra with
  | None => Ok None
  | Some m =>
      let m := delete OpenAIAutoResetCreditStateExtraKey m in
      let has key := bool_decide (is_Some (m !! key)) in
      if negb (has OpenAIAutoResetCreditEnabledExtraKey)
         && negb (has OpenAIAutoResetCredit5hThresholdExtraKey)
         && negb (has OpenAIAutoResetCredit7dThresholdExtraKey) then Ok (Some m)
      else if (platform !=? PlatformOpenAI) || (accountType !=? AccountTypeOAuth) || isShadow
      then Err AccountInvalid
      else
        match (match m !! OpenAIAutoResetCreditEnabledExtraKey with
               | None => Some false
               | Some v => as_bool v
               end) with
        | None => Err EnabledInvalid
        | Some enabled =>
            match normalize_threshold enabled OpenAIAutoResetCredit5hThresholdExtraKey m with
            | Err e => Err e
            | Ok m =>
                match normalize_threshold enabled OpenAIAutoResetCredit7dThresholdExtraKey m with
                | Err e => Err e
                | Ok m => Ok (Some m)
                end
            end
        end
  end.

Definition stripOpenAIAutoResetCreditManagedExtra (extra : anymap) (stripConfig : bool) : anymap :=
  match extra with
  | None => None
  | Some m =>
      let m := delete OpenAIAutoResetCreditStateExtraKey m in
      Some (if stripConfig
            then delete OpenAIAutoResetCredit7dThresholdExtraKey
                   (delete OpenAIAutoResetCredit5hThresholdExtraKey
                      (delete OpenAIAutoResetCreditEnabledExtraKey m))
            else m)
  end.

(** ** The state of the automatic reset *)

Definition OpenAIAutoResetStatusChecking := "checking".
Definition OpenAIAutoResetStatusAvailable := "available".
Definition OpenAIAutoResetStatusResetting := "resetting".
Definition OpenAIAutoResetStatusSuccess := "success".
Definition OpenAIAutoResetStatusNoCredit := "no_credit".
Definition OpenAIAutoResetStatusFailed := "failed".

Record OpenAIAutoResetCreditState := mkResetState {
  rs_Status : string;
  TriggerWindow : string;
  AvailableCount : Z;
  CheckedAt : string;
  LastResultAt : string;
  ErrorCode : string;
  AttemptCycleHash : string;
  AttemptCreditHash : string;
}.

(** A JSON member decoded into a string or an int field: absent and null leave
    the zero value, another type is an error.  A float is one that JSON prints
    as an integer of 64 bits.  Keys are matched exactly, as the struct's own
    encoding writes them. *)
Definition decode_string (v : any) : option string :=
  match v with AString s => Some s | ANil => Some "" | _ => None end.
Definition decode_int (v : any) : option Z :=
  match v with
  | AInt n | AInt64 n => Some n
  | AFloat64 f =>
      match f64_trunc f with
      | Some n => if feqb (f64_of_Z n) f && (int64_min <=? n) && (n <=? int64_max) then Some n else None
      | None => None
      end
  | ANumber s => number_Int64 s
  | ANil => Some 0
  | _ => None
  end.

Definition openAIAutoResetStateFromExtra (extra : anymap) : option OpenAIAutoResetCreditState :=
  match lookup_key extra OpenAIAutoResetCreditStateExtraKey with
  | Some (AMap m) =>
      let str key := decode_string (index_key (Some m) key) in
      st ← str "status"; tw ← str "trigger_window";
      n ← decode_int (index_key (Some m) "available_count");
      ca ← str "checked_at"; lr ← str "last_result_at"; ec ← str "error_code";
      cy ← str "attempt_cycle_hash"; cr ← str "attempt_credit_hash";
      if st ==? "" then None else Some (mkResetState st tw n ca lr ec cy cr)
  | _ => None
  end.

(** What a state is once written as JSON and read back: the fields tagged
    [omitempty] are absent when empty. *)
Definition put_string (key s : string) (m : gmap string any) : gmap string any :=
  if s ==? "" then m else <[key := AString s]> m.

Definition state_json (s : OpenAIAutoResetCreditState) : any :=
  AMap (put_string "trigger_window" (TriggerWindow s)
    (put_string "checked_at" (CheckedAt s)
      (put_string "last_result_at" (LastResultAt s)
        (put_string "error_code" (ErrorCode s)
          (put_string "attempt_cycle_hash" (AttemptCycleHash s)
            (put_string "attempt_credit_hash" (AttemptCreditHash s)
              (<["status" := AString (rs_Status s)]>
                (<["available_count" := AFloat64 (f64_of_Z (AvailableCount s))]> ∅)))))))).

Definition openAIAutoResetSnapshotTTL : duration := 10 * minute.

Definition openAIAutoResetStateStale (state : option OpenAIAutoResetCreditState) (now : time) : bool :=
  match state with
  | None => true
  | Some s => if CheckedAt s ==? "" then true
              else match ParseRFC3339 (CheckedAt s) with
                   | None => true
                   | Some checkedAt => openAIAutoResetSnapshotTTL <=? Sub now checkedAt
                   end
  end.

(** ** The automatic pause *)

Record openAIQuotaAutoPauseDecision := mkPause {
  pd_window : string;
  pd_threshold : f64;
  pd_utilization : f64;
  pd_reason : string;
}.

Definition reaches (utilization : option f64) (threshold : f64) : bool :=
  match utilization with Some u => fleb threshold u | None => false end.

(** A pause, and whether the reset worker is notified of the account. *)
Record pause_result := mkPauseResult {
  paused : option openAIQuotaAutoPauseDecision;
  notified : bool;
}.

Definition not_paused : pause_result := mkPauseResult None false.
Definition pause_at (window : string) (threshold : f64) (u : option f64) (reason : string) :=
  Some (mkPause window threshold (default f0 u) reason).

(** The thresholds alone, as accounts without automatic resets are paused. *)
Definition pause_by_threshold (settings : OpsOpenAIAccountQuotaAutoPauseSettings) (a : Account) (now : time)
    : option openAIQuotaAutoPauseDecision :=
  let disabled5h := resolveAccountExtraBool (Extra a) "auto_pause_5h_disabled" in
  let disabled7d := resolveAccountExtraBool (Extra a) "auto_pause_7d_disabled" in
  let '(threshold5h, threshold7d) := resolveOpenAIQuotaAutoPauseThresholds settings a in
  let u5h := resolveOpenAIQuotaUtilization (Extra a) "5h" now in
  let u7d := resolveOpenAIQuotaUtilization (Extra a) "7d" now in
  if negb disabled5h && fltb f0 threshold5h && reaches u5h threshold5h
  then pause_at "5h" threshold5h u5h ""
  else if negb disabled7d && fltb f0 threshold7d && reaches u7d threshold7d
  then pause_at "7d" threshold7d u7d ""
  else None.

(** The branch of an account with automatic resets: [None] goes on to the
    thresholds. *)
Definition pause_for_reset (settings : OpsOpenAIAccountQuotaAutoPauseSettings) (a : Account)
    (config : OpenAIAutoResetCreditConfig) (now : time) : option pause_result :=
  let u5h := resolveOpenAIQuotaUtilization (Extra a) "5h" now in
  let u7d := resolveOpenAIQuotaUtilization (Extra a) "7d" now in
  if reaches u5h (Threshold5h config)
  then Some (mkPauseResult (pause_at "5h" (Threshold5h config) u5h "quota_auto_reset_pending_5h") true)
  else if reaches u7d (Threshold7d config)
  then Some (mkPauseResult (pause_at "7d" (Threshold7d config) u7d "quota_auto_reset_pending_7d") true)
  else
    let disabled5h := resolveAccountExtraBool (Extra a) "auto_pause_5h_disabled" in
    let disabled7d := resolveAccountExtraBool (Extra a) "auto_pause_7d_disabled" in
    let '(pause5h, pause7d) := resolveOpenAIQuotaAutoPauseThresholds settings a in
    let pauseReached5h := negb disabled5h && fltb f0 pause5h && reaches u5h pause5h in
    let pauseReached7d := negb disabled7d && fltb f0 pause7d && reaches u7d pause7d in
    let check := Some (mkPauseResult
      (if pauseReached5h then pause_at "5h" pause5h u5h "quota_auto_reset_credit_check_5h"
       else pause_at "7d" pause7d u7d "quota_auto_reset_credit_check_7d") true) in
    if pauseReached5h || pauseReached7d then
      match openAIAutoResetStateFromExtra (Extra a) with
      | Some s =>
          if (rs_Status s ==? OpenAIAutoResetStatusAvailable) && (0 <? AvailableCount s)
             && negb (openAIAutoResetStateStale (Some s) now)
          then Some not_paused else check
      | None => check
      end
    else None.

(** [now] and [now'] are the two readings of the clock. *)
Definition shouldAutoPauseOpenAIAccountByQuota (settings : OpsOpenAIAccountQuotaAutoPauseSettings)
    (a : Account) (now now' : time) : pause_result :=
  if negb (IsOpenAI a) then not_paused
  else
    let config := ResolveOpenAIAutoResetCreditConfig a in
    match (if rc_Enabled config then pause_for_reset settings a config now else None) with
    | Some r => r
    | None => mkPauseResult (pause_by_threshold settings a now') false
    end.

(** ** Quota headroom *)

Definition f_half : f64 := f64_of_ratio false 1 2.
Definition openAIQuotaHeadroomNeutralFactor : f64 := f_half.
Definition openAIQuotaHeadroomSecondaryLowRemain : f64 := f64_of_ratio false 1 10.
Definition openAIQuotaHeadroomSnapshotStaleAfter : duration := 8 * hour.

Definition openAIQuotaHeadroomSnapshotStale (extra : anymap) (now : time) : bool :=
  match codex_updated_at extra with
  | None => true
  | Some updatedAt => openAIQuotaHeadroomSnapshotStaleAfter <=? Sub now updatedAt
  end.

Definition openAIQuotaWindowResetAny (extra : anymap) (now : time) (windows : list string) : bool :=
  existsb (fun window => openAIQuotaWindowReset extra window now) windows.

(** An empty [Extra] has no snapshot time: it is stale too. *)
Definition openAIQuotaHeadroomFactor (a : Account) (now : time) : f64 :=
  if openAIQuotaHeadroomSnapshotStale (Extra a) now then openAIQuotaHeadroomNeutralFactor
  else
    match resolveAccountExtraNumber (Extra a) ["codex_primary_used_percent"; "codex_7d_used_percent"] with
    | None => openAIQuotaHeadroomNeutralFactor
    | Some primaryUsedPercent =>
        if openAIQuotaWindowResetAny (Extra a) now ["primary"; "7d"] then openAIQuotaHeadroomNeutralFactor
        else
          let factor := fsub f1 (clamp01 (fdiv primaryUsedPercent f100)) in
          match resolveAccountExtraNumber (Extra a)
                  ["codex_secondary_used_percent"; "codex_5h_used_percent"] with
          | None => factor
          | Some secondaryUsedPercent =>
              if openAIQuotaWindowResetAny (Extra a) now ["secondary"; "5h"] then factor
              else if fltb (fsub f1 (clamp01 (fdiv secondaryUsedPercent f100)))
                        openAIQuotaHeadroomSecondaryLowRemain
              then fmul factor openAIQuotaHeadroomNeutralFactor else factor
          end
    end.

(** ** Snapshots *)

Record OpenAICodexUsageSnapshot := mkSnapshot {
  PrimaryUsedPercent : option f64;
  PrimaryResetAfterSeconds : option Z;
  PrimaryWindowMinutes : option Z;
  SecondaryUsedPercent : option f64;
  SecondaryResetAfterSeconds : option Z;
  SecondaryWindowMinutes : option Z;
  PrimaryOverSecondaryPercent : option f64;
  sn_UpdatedAt : string;
}.

Record NormalizedCodexLimits := mkLimits {
  Used5hPercent : option f64;
  Reset5hSeconds : option Z;
  Window5hMinutes : option Z;
  Used7dPercent : option f64;
  Reset7dSeconds : option Z;
  Window7dMinutes : option Z;
}.

(** Whether the primary window is the five-hour one. *)
Definition use5hFromPrimary (s : OpenAICodexUsageSnapshot) : bool :=
  match PrimaryWindowMinutes s, SecondaryWindowMinutes s with
  | Some p, Some q => p <? q
  | Some p, None => p <=? 360
  | None, Some q => negb (q <=? 360)
  | None, None => false
  end.

Definition Normalize (s : OpenAICodexUsageSnapshot) : NormalizedCodexLimits :=
  if use5hFromPrimary s
  then mkLimits (PrimaryUsedPercent s) (PrimaryResetAfterSeconds s) (PrimaryWindowMinutes s)
         (SecondaryUsedPercent s) (SecondaryResetAfterSeconds s) (SecondaryWindowMinutes s)
  else mkLimits (SecondaryUsedPercent s) (SecondaryResetAfterSeconds s) (SecondaryWindowMinutes s)
         (PrimaryUsedPercent s) (PrimaryResetAfterSeconds s) (PrimaryWindowMinutes s).

(** Times that are written as text come with their location; the fallback is
    a reading of the clock, in [time.Local]. *)
Definition codexSnapshotBaseTime `{LocalZone} (s : OpenAICodexUsageSnapshot) (fallback : time)
    : time * Location :=
  if sn_UpdatedAt s ==? "" then (fallback, time_Local)
  else match ParseRFC3339_zone (sn_UpdatedAt s) with
       | Some (base, zone) => (base, parsed_location base zone)
       | None => (fallback, time_Local)
       end.

Definition codexResetAtRFC3339 (base : time * Location) (resetAfterSeconds : option Z) : option string :=
  (fun sec => FormatRFC3339_in base.2 (base.1 + seconds (Z.max 0 sec))) <$> resetAfterSeconds.

Definition put_float (key : string) (v : option f64) (m : gmap string any) : gmap string any :=
  match v with Some f => <[key := AFloat64 f]> m | None => m end.
Definition put_int (key : string) (v : option Z) (m : gmap string any) : gmap string any :=
  match v with Some n => <[key := AInt n]> m | None => m end.
Definition put_text (key : string) (v : option string) (m : gmap string any) : gmap string any :=
  match v with Some s => <[key := AString s]> m | None => m end.

(** The raw fields, then the five-hour and seven-day ones. *)
Definition raw_updates (s : OpenAICodexUsageSnapshot) (baseTime : time * Location) : gmap string any :=
  <["codex_usage_updated_at" := AString (FormatRFC3339_in baseTime.2 baseTime.1)]>
    (put_float "codex_primary_over_secondary_percent" (PrimaryOverSecondaryPercent s)
    (put_int "codex_secondary_window_minutes" (SecondaryWindowMinutes s)
    (put_int "codex_secondary_reset_after_seconds" (SecondaryResetAfterSeconds s)
    (put_float "codex_secondary_used_percent" (SecondaryUsedPercent s)
    (put_int "codex_primary_window_minutes" (PrimaryWindowMinutes s)
    (put_int "codex_primary_reset_after_seconds" (PrimaryResetAfterSeconds s)
    (put_float "codex_primary_used_percent" (PrimaryUsedPercent s) ∅))))))).

Definition buildCodexUsageExtraUpdates `{LocalZone} (s : OpenAICodexUsageSnapshot) (fallbackNow : time) : gmap string any :=
  let baseTime := codexSnapshotBaseTime s fallbackNow in
  let n := Normalize s in
  put_text "codex_7d_reset_at" (codexResetAtRFC3339 baseTime (Reset7dSeconds n))
  (put_text "codex_5h_reset_at" (codexResetAtRFC3339 baseTime (Reset5hSeconds n))
  (put_int "codex_7d_window_minutes" (Window7dMinutes n)
  (put_int "codex_7d_reset_after_seconds" (Reset7dSeconds n)
  (put_float "codex_7d_used_percent" (Used7dPercent n)
  (put_int "codex_5h_window_minutes" (Window5hMinutes n)
  (put_int "codex_5h_reset_after_seconds" (Reset5hSeconds n)
  (put_float "codex_5h_used_percent" (Used5hPercent n) (raw_updates s baseTime)))))))).

(** ** The pause of a Grok account *)

(** The members of [xai.QuotaSnapshot] the pause reads. *)
Record QuotaWindow := mkQuotaWindow {
  qw_Limit : option Z;
  Remaining : option Z;
  ResetUnix : option Z;
}.

Record QuotaSnapshot := mkQuotaSnapshot {
  Requests : option QuotaWindow;
  Tokens : option QuotaWindow;
  RetryAfterSeconds : option Z;
  qs_UpdatedAt : string;
}.

Definition grokQuotaSnapshotStaleForPause (s : QuotaSnapshot) (now : time) : bool :=
  if TrimSpace (qs_UpdatedAt s) ==? "" then false
  else match ParseRFC3339 (qs_UpdatedAt s) with
       | Some updatedAt => openAICodexAutoPauseStaleAfter <=? Sub now updatedAt
       | None => false
       end.

Definition grokQuotaRetryAfterActive (s : QuotaSnapshot) (now : time) : bool :=
  match RetryAfterSeconds s with
  | Some n =>
      if n <=? 0 then false
      else if TrimSpace (qs_UpdatedAt s) ==? "" then true
      else match ParseRFC3339 (qs_UpdatedAt s) with
           | Some updatedAt => Before now (updatedAt + seconds n)
           | None => true
           end
  | None => false
  end.

Definition shouldAutoPauseGrokQuotaWindow (name : string) (w : option QuotaWindow) (now : time)
    : option openAIQuotaAutoPauseDecision :=
  match w with
  | Some (mkQuotaWindow (Some limit) (Some remaining) resetUnix) =>
      if limit <=? 0 then None
      else if match resetUnix with Some r => (0 <? r) && negb (Before now (of_unix r)) | None => false end
      then None
      else
        let utilization := fdiv (f64_of_Z (wrap64 (limit - remaining))) (f64_of_Z limit) in
        if (remaining <=? 0) || fleb f1 utilization then Some (mkPause name f1 utilization "") else None
  | _ => None
  end.

(** [snapshot] is what [grokQuotaSnapshotFromExtra] decodes. *)
Definition shouldAutoPauseGrokAccountByQuota (a : Account) (snapshot : option QuotaSnapshot) (now : time)
    : option openAIQuotaAutoPauseDecision :=
  if negb (IsGrok a) || (AType a !=? AccountTypeOAuth) then None
  else match snapshot with
       | None => None
       | Some s =>
           if grokQuotaSnapshotStaleForPause s now then None
           else if grokQuotaRetryAfterActive s now then Some (mkPause "retry_after" f1 f1 "")
           else match shouldAutoPauseGrokQuotaWindow "requests" (Requests s) now with
                | Some d => Some d
                | None => shouldAutoPauseGrokQuotaWindow "tokens" (Tokens s) now
                end
       end.

(** ** The tier of compact support *)

Definition openAICompactSupportTier (a : Account) : Z :=
  if IsGrok a then 2
  else if negb (IsOpenAI a) then 0
  else let '(supported, known) := OpenAICompactSupportKnown a in
       if negb known then 1 else if supported then 2 else 0.
