(* ===== verification/OpenAIQuotaProperties.v ===== *)
(** * What the usage keys and the automatic pause promise *)

From S2P Require Import Prelude GoStrings Float64 Float64Exact GoTime GoAny Account AccountProtocol AccountQuota OpenAIQuota.
Local Open Scope Z_scope.

(** ** Reading what was written *)

Lemma put_float_ne key v m k : key <> k -> put_float key v m !! k = m !! k.
Proof. intros. destruct v; simpl; [|done]. by rewrite lookup_insert_ne. Qed.
Lemma put_int_ne key v m k : key <> k -> put_int key v m !! k = m !! k.
Proof. intros. destruct v; simpl; [|done]. by rewrite lookup_insert_ne. Qed.
Lemma put_text_ne key v m k : key <> k -> put_text key v m !! k = m !! k.
Proof. intros. destruct v; simpl; [|done]. by rewrite lookup_insert_ne. Qed.
Lemma put_string_ne key s m k : key <> k -> put_string key s m !! k = m !! k.
Proof. intros. unfold put_string. destruct (_ ==? _); [done|]. by rewrite lookup_insert_ne. Qed.

(** Looks a constant key up through writes of other keys. *)
Ltac look_up :=
  repeat first [ rewrite put_float_ne by discriminate | rewrite put_int_ne by discriminate
               | rewrite put_text_ne by discriminate | rewrite put_string_ne by discriminate
               | rewrite lookup_insert_ne by discriminate ].

Lemma modern_plus t d : modern t -> 0 <= d <= 2 ^ 33 * second -> unix_sec t < 2 ^ 37 -> modern (t + d).
Proof. unfold modern, unix_sec, second. intros. Z.to_euclidean_division_equations. lia. Qed.

(** A location whose offsets the text can carry. *)
Definition carried (loc : Location) : Prop := forall s, whole_minutes (zone_offset loc s).

Lemma carried_FixedZone off : whole_minutes off -> carried (FixedZone off).
Proof. by intros H s. Qed.

Lemma unix_of_unix s : unix_sec (of_unix s) = s.
Proof. unfold unix_sec, of_unix. by rewrite Z.div_mul. Qed.

(** The text of a time keeps its whole seconds. *)
Definition whole (t : time) : time := of_unix (unix_sec t).

Lemma unix_whole t : unix_sec (whole t) = unix_sec t.
Proof. apply unix_of_unix. Qed.

Lemma format_whole loc t : FormatRFC3339_in loc (whole t) = FormatRFC3339_in loc t.
Proof. unfold FormatRFC3339_in, DateOf, local_day, local_tod, local_sec. by rewrite unix_whole. Qed.

(** The text depends on the location's offset at that time only. *)
Lemma format_offset loc loc' t :
  zone_offset loc (unix_sec t) = zone_offset loc' (unix_sec t) -> FormatRFC3339_in loc t = FormatRFC3339_in loc' t.
Proof. intros H. unfold FormatRFC3339_in, DateOf, local_day, local_tod, local_sec. by rewrite H. Qed.

Lemma parse_zone_whole loc t :
  modern t -> carried loc ->
  ParseRFC3339_zone (FormatRFC3339_in loc t) =
  Some (whole t, if zone_offset loc (unix_sec t) =? 0 then None else Some (zone_offset loc (unix_sec t))).
Proof.
  intros Hm Hc. rewrite <- format_whole, <- (unix_whole t). apply parse_format_zone.
  - unfold whole, of_unix. by rewrite Z.mod_mul.
  - apply year_in_modern; [|apply Hc]. unfold modern in *. by rewrite unix_whole.
  - apply Hc.
Qed.

Lemma parse_format_whole loc t :
  modern t -> carried loc -> ParseRFC3339 (FormatRFC3339_in loc t) = Some (whole t).
Proof. intros Hm Hc. unfold ParseRFC3339. by rewrite parse_zone_whole. Qed.

Section Written.
Context `{LocalZone} (s : OpenAICodexUsageSnapshot) (zone : Location) (at_ now : time) (old : gmap string any).
Hypothesis Hlocal : carried time_Local.
Hypothesis Hzone : carried zone.
Hypothesis Hat : 0 <= unix_sec at_ < 2 ^ 37.
Hypothesis Hupdated : sn_UpdatedAt s = FormatRFC3339_in zone at_.

Notation keys := (buildCodexUsageExtraUpdates s now).
Definition updated : anymap := Some (keys ∪ old).

Lemma at_modern : modern at_.
Proof. unfold modern. lia. Qed.
#[local] Hint Resolve at_modern : core.

(** The location the text is read in writes the same offset. *)
Lemma base_time : exists loc, codexSnapshotBaseTime s now = (whole at_, loc) /\ carried loc /\
  zone_offset loc (unix_sec at_) = zone_offset zone (unix_sec at_).
Proof.
  unfold codexSnapshotBaseTime. rewrite Hupdated, parse_zone_whole by done.
  rewrite bool_decide_false.
  2:{ intros E. pose proof (parse_format_whole zone at_ at_modern Hzone) as Hp. rewrite E in Hp. discriminate Hp. }
  eexists. split; [done|]. unfold parsed_location.
  destruct (Z.eqb_spec (zone_offset zone (unix_sec at_)) 0) as [->|]; [by split|]. rewrite unix_whole.
  destruct (Z.eqb_spec (zone_offset time_Local (unix_sec at_)) (zone_offset zone (unix_sec at_))); [done|].
  split; [apply carried_FixedZone, Hzone|done].
Qed.

Lemma updated_lookup k v : keys !! k = Some v -> lookup_key updated k = Some v.
Proof. intros Hk. unfold updated, lookup_key. by apply lookup_union_Some_l. Qed.

Lemma kept_lookup k : keys !! k = None -> lookup_key updated k = old !! k.
Proof. intros Hk. unfold updated, lookup_key. by apply lookup_union_r. Qed.

Lemma updated_at_text : keys !! "codex_usage_updated_at" = Some (AString (sn_UpdatedAt s)).
Proof.
  unfold buildCodexUsageExtraUpdates, raw_updates. destruct base_time as (loc & -> & _ & Hoff). look_up.
  rewrite lookup_insert_eq, Hupdated. cbn [fst snd]. rewrite format_whole. do 2 f_equal. by apply format_offset.
Qed.

Lemma updated_at : codex_updated_at updated = Some (whole at_).
Proof.
  unfold codex_updated_at. rewrite (updated_lookup _ _ updated_at_text), Hupdated. by apply parse_format_whole.
Qed.

(** The instant a window rolls over. *)
Definition rolls_over (r : Z) : time := whole at_ + Z.max 0 r * second.

Lemma rolls_over_whole r : whole (rolls_over r) = rolls_over r.
Proof. unfold rolls_over, whole, unix_sec, of_unix. rewrite <- Z.mul_add_distr_r. by rewrite Z.div_mul. Qed.

(** The keys of the windows. *)
Definition fields (window : string) : option f64 * option Z :=
  let n := Normalize s in
  if window ==? "5h" then (Used5hPercent n, Reset5hSeconds n) else (Used7dPercent n, Reset7dSeconds n).

Lemma window_lookups w : w = "5h" \/ w = "7d" ->
  keys !! codex_key w "_used_percent" = AFloat64 <$> (fields w).1 /\
  keys !! codex_key w "_reset_after_seconds" = AInt <$> (fields w).2 /\
  keys !! codex_key w "_reset_at" = AString <$> codexResetAtRFC3339 (codexSnapshotBaseTime s now) (fields w).2.
Proof.
  unfold buildCodexUsageExtraUpdates, raw_updates, codex_key, fields.
  intros [-> | ->]; simpl String.app; rewrite ?bool_decide_true by done;
    rewrite ?bool_decide_false by done; cbn [fst snd];
    [destruct (Used5hPercent _), (Reset5hSeconds _)|destruct (Used7dPercent _), (Reset7dSeconds _)];
    split_and!; cbn [put_float put_int put_text codexResetAtRFC3339 fmap option_fmap option_map]; look_up;
    by rewrite ?lookup_insert_eq, ?lookup_empty.
Qed.

Lemma used_written w : w = "5h" \/ w = "7d" ->
  readOpenAIQuotaUsedPercent updated w =
  match (fields w).1 with Some u => u | None => readOpenAIQuotaUsedPercent (Some old) w end.
Proof.
  intros Hw. destruct (window_lookups w Hw) as (Hu & _). unfold readOpenAIQuotaUsedPercent.
  cbn [resolveAccountExtraNumber]. destruct (fields w).1 as [u|].
  - by rewrite (updated_lookup _ _ Hu).
  - by rewrite (kept_lookup _ Hu).
Qed.

Lemma reset_written w t : w = "5h" \/ w = "7d" ->
  (forall r, (fields w).2 = Some r -> r <= 2 ^ 33) ->
  openAIQuotaWindowReset updated w t =
  match (fields w).2 with
  | Some r => negb (Before t (rolls_over r))
  | None => openAIQuotaWindowReset (Some (<["codex_usage_updated_at" := AString (sn_UpdatedAt s)]> old)) w t
  end.
Proof.
  intros Hw Hr. destruct (window_lookups w Hw) as (_ & Ha & Hres). unfold openAIQuotaWindowReset.
  destruct (fields w).2 as [r|].
  - specialize (Hr r eq_refl). destruct base_time as (loc & Eb & Hc & _). rewrite Eb in Hres. simpl in Hres.
    assert (whole at_ + seconds (Z.max 0 r) = rolls_over r) as E.
    { unfold seconds, rolls_over. rewrite wrap64_id; [done|]. unfold int64_min, int64_max, second. lia. }
    rewrite E in Hres. rewrite (updated_lookup _ _ Hres). cbn [mbind option_bind parse_time_any].
    cbn [fmap option_fmap option_map]. rewrite parse_format_whole, rolls_over_whole; [done| |done].
    apply modern_plus; [unfold modern; rewrite unix_whole; apply at_modern| |rewrite unix_whole; lia].
    unfold second. lia.
  - assert (forall k, k <> "codex_usage_updated_at" -> keys !! k = None ->
      lookup_key updated k = lookup_key (Some (<["codex_usage_updated_at" := AString (sn_UpdatedAt s)]> old)) k) as Hkept.
    { intros k Hne Hk. rewrite (kept_lookup _ Hk). unfold lookup_key. by rewrite lookup_insert_ne. }
    assert (codex_key w "_reset_at" <> "codex_usage_updated_at" /\
            codex_key w "_reset_after_seconds" <> "codex_usage_updated_at") as [N1 N2]
      by (by destruct Hw as [-> | ->]).
    unfold index_key. rewrite (Hkept _ N1 Hres), (Hkept _ N2 Ha), updated_at.
    assert (codex_updated_at (Some (<["codex_usage_updated_at" := AString (sn_UpdatedAt s)]> old)) = Some (whole at_)) as ->.
    { unfold codex_updated_at, lookup_key. rewrite lookup_insert_eq, Hupdated. by apply parse_format_whole. }
    done.
Qed.
End Written.

(** C30: A snapshot written into [Extra] reads back, over whatever was there
    before, for either window: the utilization is the percentage over 100 until
    the window rolls over or the snapshot is two hours old, and nothing
    afterwards, nor when nothing was used.  The window rolls over its reset
    seconds after the instant the snapshot's own time names.  A percentage the
    snapshot leaves out is the one stored before; so is a reset time it leaves
    out, an old count of seconds then running from the snapshot's time.  The
    snapshot's time is the text of an instant in any zone, as the response
    headers write it in [time.Local] and the usage query in UTC.  Assumed:
    zone offsets of whole minutes below a day, instants from 1970 to the year
    6300, and reset seconds up to 2^33, about 270 years. *)
Theorem usage_reads_back `{LocalZone} (s : OpenAICodexUsageSnapshot) zone at_ now old t w :
  carried time_Local -> carried zone -> 0 <= unix_sec at_ < 2 ^ 37 ->
  sn_UpdatedAt s = FormatRFC3339_in zone at_ ->
  w = "5h" \/ w = "7d" -> (forall r, (fields s w).2 = Some r -> r <= 2 ^ 33) ->
  let used := match (fields s w).1 with
              | Some u => u
              | None => readOpenAIQuotaUsedPercent (Some old) w
              end in
  let over := match (fields s w).2 with
              | Some r => whole at_ + Z.max 0 r * second <=? t
              | None => openAIQuotaWindowReset
                          (Some (<["codex_usage_updated_at" := AString (sn_UpdatedAt s)]> old)) w t
              end in
  resolveOpenAIQuotaUtilization (Some (buildCodexUsageExtraUpdates s now ∪ old)) w t =
    (if fleb used f0 || over || (2 * hour <=? Sub t (whole at_)) then None else Some (fdiv used f100)).
Proof.
  intros Hl Hz Hat Hup Hw Hr. cbv zeta.
  pose proof (reset_written s zone at_ now old Hl Hz Hat Hup w t Hw Hr) as Ereset.
  pose proof (used_written s now old w Hw) as Eused.
  pose proof (updated_at s zone at_ now old Hl Hz Hat Hup) as Eat.
  unfold updated in *. unfold resolveOpenAIQuotaUtilization, openAICodexSnapshotStaleForPause.
  rewrite Ereset, Eused, Eat. destruct (fields s w) as [u r]; cbn [fst snd].
  change openAICodexAutoPauseStaleAfter with (2 * hour). destruct (fleb _ f0); [done|]. cbn [orb].
  clear Ereset Eused Eat. destruct r as [r|].
  - unfold Before, rolls_over. rewrite <- Z.leb_antisym. destruct (_ <=? t); reflexivity.
  - destruct (openAIQuotaWindowReset _ w t); reflexivity.
Qed.

Lemma usage_reads_back_witness :
  let zone := FixedZone 28800 in
  let now := of_unix 1735689600 in
  let s := mkSnapshot (Some (f64_of_Z 80)) (Some 600) (Some 300) (Some (f64_of_Z 50)) None (Some 10080)
             None (FormatRFC3339_in zone now) in
  let extra := Some (@buildCodexUsageExtraUpdates zone s now ∪ {["codex_7d_reset_after_seconds" := AInt 6000]}) in
  resolveOpenAIQuotaUtilization extra "5h" (now + hour) = None /\
  resolveOpenAIQuotaUtilization extra "7d" (now + hour) = Some (fdiv (f64_of_Z 50) f100).
Proof.
  intros zone now s extra.
  assert (carried zone) as Hz by (apply carried_FixedZone; split; [reflexivity|lia]).
  assert (0 <= unix_sec now < 2 ^ 37) as Hat by (change (unix_sec now) with 1735689600; lia).
  split.
  - etransitivity; [apply (@usage_reads_back zone s zone now now _ (now + hour) "5h" Hz Hz Hat eq_refl (or_introl eq_refl))|].
    + intros r [= <-]. lia.
    + vm_compute. reflexivity.
  - etransitivity; [apply (@usage_reads_back zone s zone now now _ (now + hour) "7d" Hz Hz Hat eq_refl (or_intror eq_refl))|].
    + intros r [= ].
    + vm_compute. reflexivity.
Defined.

(** ** The state of the automatic reset *)

Lemma decode_absent k : decode_string (index_key (Some ∅) k) = Some "".
Proof. done. Qed.

Lemma decode_put_ne key s m k : key <> k -> index_key (Some (put_string key s m)) k = index_key (Some m) k.
Proof. intros. unfold index_key, lookup_key. by rewrite put_string_ne. Qed.

Lemma decode_put_eq key s m :
  m !! key = None -> decode_string (index_key (Some (put_string key s m)) key) = Some s.
Proof.
  intros Hm. unfold put_string, index_key, lookup_key.
  destruct (bool_decide_reflect (s = "")) as [->|]; [by rewrite Hm|]. by rewrite lookup_insert_eq.
Qed.

Lemma decode_count n : 0 <= n < 2 ^ 53 -> decode_int (AFloat64 (f64_of_Z n)) = Some n.
Proof.
  intros Hn. simpl. rewrite trunc_of_Z by done.
  assert (feqb (f64_of_Z n) (f64_of_Z n) = true) as ->.
  { destruct (decide (n = 0)) as [->|]; [done|].
    destruct (of_Z_parts n ltac:(lia)) as (m & e & -> & _). unfold feqb. simpl.
    by rewrite Z.compare_refl, Pos.compare_cont_refl. }
  simpl. unfold int64_min, int64_max. rewrite (proj2 (Z.leb_le _ _)) by lia.
  by rewrite (proj2 (Z.leb_le _ _)) by lia.
Qed.

(** The state stored under its key is the state read back. *)
Theorem reset_state_roundtrip s m :
  rs_Status s <> "" -> 0 <= AvailableCount s < 2 ^ 53 ->
  openAIAutoResetStateFromExtra (Some (<[OpenAIAutoResetCreditStateExtraKey := state_json s]> m)) = Some s.
Proof.
  intros Hst Hn. unfold openAIAutoResetStateFromExtra, lookup_key. rewrite lookup_insert_eq. unfold state_json.
  assert (forall k, k <> "status" -> k <> "available_count" ->
    (<["status" := AString (rs_Status s)]> (<["available_count" := AFloat64 (f64_of_Z (AvailableCount s))]> (∅ : gmap string any)))
      !! k = None) as Hbase.
  { intros k H1 H2. by rewrite !lookup_insert_ne. }
  set (base := <["status" := _]> _) in *.
  assert (Hs : index_key (Some base) "status" = AString (rs_Status s)).
  { unfold index_key, lookup_key, base. by rewrite lookup_insert_eq. }
  assert (Hc : index_key (Some base) "available_count" = AFloat64 (f64_of_Z (AvailableCount s))).
  { unfold index_key, lookup_key, base. by rewrite lookup_insert_ne, lookup_insert_eq. }
  repeat first [ rewrite decode_put_ne by discriminate
               | rewrite decode_put_eq by (look_up; by apply Hbase) ].
  rewrite Hs, Hc, (decode_count _ Hn). simpl. rewrite bool_decide_false by done. by destruct s.
Qed.

Lemma reset_state_roundtrip_witness :
  let s := mkResetState OpenAIAutoResetStatusFailed "7d" 2 "2025-01-01T00:00:00Z" "" "NO_RESET_CREDIT" "c1" "h1" in
  openAIAutoResetStateFromExtra (Some (<[OpenAIAutoResetCreditStateExtraKey := state_json s]> ∅)) = Some s.
Proof. intros s. apply (reset_state_roundtrip s ∅); [done|simpl; lia]. Defined.

(** ** The automatic pause *)

(** Window [w] has a utilization to go by, and it is [u]: something was used,
    the window has not rolled over, and the snapshot, if its time is readable,
    is less than two hours old.  A window rolls over at its reset time, or when
    there is none, a positive number of seconds after the snapshot. *)
Record fresh (a : Account) (now : time) (w : string) (u : f64) : Prop := {
  fresh_used : let p := readOpenAIQuotaUsedPercent (Extra a) w in fleb p f0 = false /\ u = fdiv p f100;
  fresh_open : match lookup_key (Extra a) (codex_key w "_reset_at") ≫= parse_time_any with
               | Some resetAt => now < resetAt
               | None =>
                   let n := parseExtraInt (index_key (Extra a) (codex_key w "_reset_after_seconds")) in
                   0 < n -> now < default now (codex_updated_at (Extra a)) + seconds n
               end;
  fresh_recent : forall updatedAt, codex_updated_at (Extra a) = Some updatedAt -> Sub now updatedAt < 2 * hour;
}.

(** The utilization stands at [t] or above. *)
Definition due (a : Account) (now : time) (w : string) (t : f64) : Prop :=
  exists u, fresh a now w u /\ fleb t u = true.

(** The pause threshold of a window: the account's own when positive, the
    default otherwise, between 0 and 1. *)
Definition pause_threshold (settings : OpsOpenAIAccountQuotaAutoPauseSettings) (a : Account) (w : string) : f64 :=
  let own := clamp01 (default f0 (resolveAccountExtraNumber (Extra a) ["auto_pause_" +:+ w +:+ "_threshold"])) in
  if fleb own f0
  then clamp01 (if w ==? "5h" then DefaultThreshold5h settings else DefaultThreshold7d settings)
  else own.

Record pause_due settings (a : Account) (now : time) (w : string) : Prop := {
  pause_enabled : resolveAccountExtraBool (Extra a) ("auto_pause_" +:+ w +:+ "_disabled") = false;
  pause_positive : fltb f0 (pause_threshold settings a w) = true;
  pause_reached : due a now w (pause_threshold settings a w);
}.

(** The threshold a card is consumed at. *)
Definition card_threshold (a : Account) (w : string) : f64 :=
  let c := ResolveOpenAIAutoResetCreditConfig a in if w ==? "5h" then Threshold5h c else Threshold7d c.

(** A card seen available less than ten minutes ago. *)
Definition card_seen (a : Account) (now : time) : Prop :=
  exists s checkedAt, openAIAutoResetStateFromExtra (Extra a) = Some s /\
    rs_Status s = "available" /\ 0 < AvailableCount s /\
    ParseRFC3339 (CheckedAt s) = Some checkedAt /\ Sub now checkedAt < 10 * minute.

Lemma not_rolled_over extra w now :
  openAIQuotaWindowReset extra w now = false <->
  match lookup_key extra (codex_key w "_reset_at") ≫= parse_time_any with
  | Some resetAt => now < resetAt
  | None =>
      let n := parseExtraInt (index_key extra (codex_key w "_reset_after_seconds")) in
      0 < n -> now < default now (codex_updated_at extra) + seconds n
  end.
Proof.
  unfold openAIQuotaWindowReset, Before. destruct (lookup_key _ _ ≫= _) as [r|].
  - by rewrite negb_false_iff, Z.ltb_lt.
  - cbv zeta. destruct (Z.leb_spec (parseExtraInt (index_key extra (codex_key w "_reset_after_seconds"))) 0).
    + split; [lia|done].
    + rewrite negb_false_iff, Z.ltb_lt. tauto.
Qed.

Lemma utilization_fresh a now w u :
  resolveOpenAIQuotaUtilization (Extra a) w now = Some u <-> fresh a now w u.
Proof.
  unfold resolveOpenAIQuotaUtilization, openAICodexSnapshotStaleForPause. cbv zeta.
  pose proof (not_rolled_over (Extra a) w now) as Hr.
  assert ((match codex_updated_at (Extra a) with
           | Some updatedAt => openAICodexAutoPauseStaleAfter <=? Sub now updatedAt
           | None => false
           end) = false <-> forall updatedAt, codex_updated_at (Extra a) = Some updatedAt -> Sub now updatedAt < 2 * hour) as Hs.
  { destruct (codex_updated_at (Extra a)) as [x|]; [|by split].
    rewrite Z.leb_gt. split; [by intros ? ? [= <-]|auto]. }
  destruct (fleb _ f0) eqn:Ep; [split; [done|intros [[E _] _ _]; congruence]|].
  destruct (openAIQuotaWindowReset (Extra a) w now).
  { split; [done|]. intros [_ Ho _]. by apply Hr in Ho. }
  destruct (match codex_updated_at (Extra a) with Some _ => _ | None => _ end).
  { split; [done|]. intros [_ _ Ho]. by apply Hs in Ho. }
  split; [intros [= <-]; constructor; [done|by apply Hr|by apply Hs]|]. by intros [[_ ->] _ _].
Qed.

Lemma fresh_unique a now w u u' : fresh a now w u -> fresh a now w u' -> u = u'.
Proof. rewrite <- !utilization_fresh. congruence. Qed.

Lemma reaches_due a now w t : reaches (resolveOpenAIQuotaUtilization (Extra a) w now) t = true <-> due a now w t.
Proof.
  unfold due. destruct (resolveOpenAIQuotaUtilization (Extra a) w now) as [u|] eqn:E; simpl.
  - apply utilization_fresh in E. split; [eauto|]. intros (u' & Hu & Ht). by rewrite (fresh_unique _ _ _ _ _ E Hu).
  - split; [done|]. intros (u & Hu%utilization_fresh & _). congruence.
Qed.

Lemma positive_not_nonpos x : fltb f0 x = true -> fleb x f0 = false.
Proof.
  intros H. destruct (fleb x f0) eqn:E; [|done].
  pose proof (fltb_fleb_trans f0 x f0 H E) as F. by rewrite fltb_irrefl in F.
Qed.

Lemma thresholds_eq settings a :
  resolveOpenAIQuotaAutoPauseThresholds settings a = (pause_threshold settings a "5h", pause_threshold settings a "7d").
Proof.
  unfold resolveOpenAIQuotaAutoPauseThresholds, pause_threshold. cbv zeta.
  change ("auto_pause_" +:+ "5h" +:+ "_threshold") with "auto_pause_5h_threshold".
  change ("auto_pause_" +:+ "7d" +:+ "_threshold") with "auto_pause_7d_threshold".
  rewrite (bool_decide_true ("5h" = "5h")) by done. rewrite (bool_decide_false ("7d" = "5h")) by done.
  destruct (fltb f0 _ && fltb f0 _) eqn:E; [|done].
  apply andb_true_iff in E as [E5 E7]. by rewrite !positive_not_nonpos.
Qed.

(** The conditions as the code computes them. *)
Definition pause_due_b settings (a : Account) (now : time) (w : string) : bool :=
  negb (resolveAccountExtraBool (Extra a) ("auto_pause_" +:+ w +:+ "_disabled"))
  && fltb f0 (pause_threshold settings a w)
  && reaches (resolveOpenAIQuotaUtilization (Extra a) w now) (pause_threshold settings a w).

Definition card_due_b (a : Account) (now : time) (w : string) : bool :=
  reaches (resolveOpenAIQuotaUtilization (Extra a) w now) (card_threshold a w).

Definition card_seen_b (a : Account) (now : time) : bool :=
  match openAIAutoResetStateFromExtra (Extra a) with
  | Some s => (rs_Status s ==? OpenAIAutoResetStatusAvailable) && (0 <? AvailableCount s)
              && negb (openAIAutoResetStateStale (Some s) now)
  | None => false
  end.

Lemma pause_due_bool settings a now w : pause_due_b settings a now w = true <-> pause_due settings a now w.
Proof.
  unfold pause_due_b. rewrite !andb_true_iff, negb_true_iff, reaches_due.
  split; [intros [[??]?]; by constructor|by intros [???]].
Qed.

Lemma card_seen_bool a now : card_seen_b a now = true <-> card_seen a now.
Proof.
  unfold card_seen, card_seen_b, openAIAutoResetStateStale. destruct (openAIAutoResetStateFromExtra (Extra a)) as [s|].
  2:{ split; [done|]. by intros (? & ? & ? & _). }
  rewrite !andb_true_iff, bool_decide_eq_true, Z.ltb_lt, negb_true_iff. split.
  - intros [[Hs Hn] Hst]. destruct (CheckedAt s ==? ""); [done|].
    destruct (ParseRFC3339 (CheckedAt s)) as [c|] eqn:Ec; [|done]. apply Z.leb_gt in Hst. by exists s, c.
  - intros (s' & c & [= <-] & Hs & Hn & Hc & Hl). split; [done|].
    rewrite bool_decide_false, Hc by (intros E; by rewrite E in Hc). by apply Z.leb_gt.
Qed.

Definition a_window (w : string) : Prop := w = "5h" \/ w = "7d".

Definition card_due (a : Account) (now : time) (w : string) : Prop :=
  rc_Enabled (ResolveOpenAIAutoResetCreditConfig a) = true /\ due a now w (card_threshold a w).

(** What a pause says of itself. *)
Definition grounded settings (a : Account) (now : time) (d : openAIQuotaAutoPauseDecision) : Prop :=
  let w := pd_window d in
  a_window w /\ fresh a now w (pd_utilization d) /\ fleb (pd_threshold d) (pd_utilization d) = true /\
  (card_due a now w /\ pd_threshold d = card_threshold a w /\
   pd_reason d = "quota_auto_reset_pending_" +:+ w \/
   pause_due settings a now w /\ pd_threshold d = pause_threshold settings a w /\
   pd_reason d = if rc_Enabled (ResolveOpenAIAutoResetCreditConfig a)
                 then "quota_auto_reset_credit_check_" +:+ w else "").

(** A window whose condition holds, for a decision at its threshold. *)
Lemma grounded_card settings a now w :
  a_window w -> rc_Enabled (ResolveOpenAIAutoResetCreditConfig a) = true ->
  reaches (resolveOpenAIQuotaUtilization (Extra a) w now) (card_threshold a w) = true ->
  grounded settings a now
    (mkPause w (card_threshold a w) (default f0 (resolveOpenAIQuotaUtilization (Extra a) w now))
       ("quota_auto_reset_pending_" +:+ w)).
Proof.
  intros Hw Hc Hr. pose proof (proj1 (reaches_due a now w _) Hr) as Hd. unfold reaches in Hr.
  destruct (resolveOpenAIQuotaUtilization (Extra a) w now) as [u|] eqn:E; [|done].
  apply utilization_fresh in E. by split_and!; [..|left].
Qed.

Lemma grounded_pause settings a now w reason :
  a_window w -> pause_due settings a now w ->
  reason = (if rc_Enabled (ResolveOpenAIAutoResetCreditConfig a)
            then "quota_auto_reset_credit_check_" +:+ w else "") ->
  grounded settings a now
    (mkPause w (pause_threshold settings a w) (default f0 (resolveOpenAIQuotaUtilization (Extra a) w now)) reason).
Proof.
  intros Hw Hp Hreason. pose proof (proj2 (reaches_due a now w _) (pause_reached _ _ _ _ Hp)) as Hr.
  unfold reaches in Hr. destruct (resolveOpenAIQuotaUtilization (Extra a) w now) as [u|] eqn:E; [|done].
  apply utilization_fresh in E. by split_and!; [..|right].
Qed.

Lemma some_window (P : string -> Prop) (b5 b7 : bool) :
  (b5 = true <-> P "5h") -> (b7 = true <-> P "7d") -> (exists w, a_window w /\ P w) <-> b5 || b7 = true.
Proof.
  intros H5 H7. rewrite orb_true_iff, H5, H7. unfold a_window. split; [|naive_solver].
  intros (w & [-> | ->] & H); auto.
Qed.

(** The pause of an OpenAI account, over these conditions. *)
Lemma pause_by_conditions settings a now :
  IsOpenAI a = true ->
  let cards := rc_Enabled (ResolveOpenAIAutoResetCreditConfig a) in
  let pause w t reason :=
    Some (mkPause w t (default f0 (resolveOpenAIQuotaUtilization (Extra a) w now)) reason) in
  let check w := if cards then "quota_auto_reset_credit_check_" +:+ w else "" in
  shouldAutoPauseOpenAIAccountByQuota settings a now now =
  if cards && card_due_b a now "5h"
  then mkPauseResult (pause "5h" (card_threshold a "5h") ("quota_auto_reset_pending_" +:+ "5h")) true
  else if cards && card_due_b a now "7d"
  then mkPauseResult (pause "7d" (card_threshold a "7d") ("quota_auto_reset_pending_" +:+ "7d")) true
  else if cards && card_seen_b a now then not_paused
  else if pause_due_b settings a now "5h"
  then mkPauseResult (pause "5h" (pause_threshold settings a "5h") (check "5h")) cards
  else if pause_due_b settings a now "7d"
  then mkPauseResult (pause "7d" (pause_threshold settings a "7d") (check "7d")) cards
  else not_paused.
Proof.
  intros Ho. cbv zeta. unfold shouldAutoPauseOpenAIAccountByQuota. rewrite Ho. cbv zeta. cbn [negb].
  unfold pause_for_reset, pause_by_threshold, pause_at. rewrite thresholds_eq. cbv zeta.
  set (b5 := negb (resolveAccountExtraBool _ "auto_pause_5h_disabled") && _ && _).
  set (b7 := negb (resolveAccountExtraBool _ "auto_pause_7d_disabled") && _ && _).
  change (pause_due_b settings a now "5h") with b5. change (pause_due_b settings a now "7d") with b7.
  change (reaches _ (Threshold5h _)) with (card_due_b a now "5h").
  change (reaches _ (Threshold7d _)) with (card_due_b a now "7d").
  unfold card_seen_b. destruct (rc_Enabled _); cbn [andb]; [|by destruct b5, b7].
  destruct (card_due_b a now "5h"); [done|]. destruct (card_due_b a now "7d"); [done|].
  destruct (openAIAutoResetStateFromExtra (Extra a)) as [st|]; [|by destruct b5, b7].
  destruct ((rs_Status st ==? _) && _ && _); by destruct b5, b7.
Qed.

(** C29: the pause of an OpenAI account by its utilization, both readings of
    the clock agreeing.  An account is paused exactly when a window stands at
    the threshold a card is consumed at, its resets being automatic, or when a
    window whose pause is not disabled stands at a positive pause threshold,
    unless its resets are automatic and a card was seen available less than ten
    minutes ago.  Only the utilization of a window that has not rolled over
    counts, from a snapshot less than two hours old if its time is readable;
    so those release the account.  The pause names such a window, its
    utilization, the threshold configured for that window and the reason; and
    the reset worker is notified exactly of the paused accounts whose resets
    are automatic. *)
Theorem auto_pause_spec settings a now :
  let r := shouldAutoPauseOpenAIAccountByQuota settings a now now in
  let cards := rc_Enabled (ResolveOpenAIAutoResetCreditConfig a) in
  (forall d, paused r = Some d -> grounded settings a now d) /\
  (paused r <> None <-> IsOpenAI a = true /\
     ((exists w, a_window w /\ card_due a now w) \/
      (exists w, a_window w /\ pause_due settings a now w) /\ ~ (cards = true /\ card_seen a now))) /\
  (notified r = true <-> cards = true /\ paused r <> None).
Proof.
  cbv zeta. rewrite (some_window (card_due a now)
    (rc_Enabled (ResolveOpenAIAutoResetCreditConfig a) && card_due_b a now "5h")
    (rc_Enabled (ResolveOpenAIAutoResetCreditConfig a) && card_due_b a now "7d"))
    by (unfold card_due, card_due_b; by rewrite andb_true_iff, reaches_due).
  rewrite (some_window (pause_due settings a now) _ _ (pause_due_bool settings a now "5h")
    (pause_due_bool settings a now "7d")), <- card_seen_bool.
  destruct (IsOpenAI a) eqn:Ho.
  2:{ unfold shouldAutoPauseOpenAIAccountByQuota. rewrite Ho. simpl. by intuition. }
  rewrite (pause_by_conditions _ _ _ Ho). cbv zeta.
  destruct (rc_Enabled _) eqn:Hc; cbn [andb];
    [destruct (card_due_b a now "5h") eqn:E5; [|destruct (card_due_b a now "7d") eqn:E7;
      [|destruct (card_seen_b a now)]]|];
    try destruct (pause_due_b settings a now "5h") eqn:P5; try destruct (pause_due_b settings a now "7d") eqn:P7;
    simpl; (split; [intros d [= <-]|first [by intuition | by intuition congruence]]);
    first [ by apply grounded_card; [by left|..] | by apply grounded_card; [by right|..]
          | apply grounded_pause; [by left|by apply pause_due_bool|by rewrite Hc]
          | apply grounded_pause; [by right|by apply pause_due_bool|by rewrite Hc] ].
Qed.

(** ** Settings *)

Lemma valid_f1 : isValidOpenAIAutoResetThreshold f1 = true.
Proof. vm_compute. reflexivity. Qed.

Definition threshold_key (key : string) : Prop :=
  key = OpenAIAutoResetCredit5hThresholdExtraKey \/ key = OpenAIAutoResetCredit7dThresholdExtraKey.

(** What is stored for a threshold, given what was submitted. *)
Definition stored_threshold (enabled : bool) (submitted : option any) : option any :=
  match submitted with
  | Some v => AFloat64 <$> number_of_any v
  | None => if enabled then Some (AFloat64 f1) else None
  end.

Lemma normalize_threshold_lookup enabled key m m' :
  normalize_threshold enabled key m = Ok m' ->
  (forall k, k <> key -> m' !! k = m !! k) /\ m' !! key = stored_threshold enabled (m !! key) /\
  match m' !! key with
  | Some v => exists f, v = AFloat64 f /\ isValidOpenAIAutoResetThreshold f = true
  | None => m !! key = None /\ enabled = false
  end.
Proof.
  unfold normalize_threshold, stored_threshold, parseOpenAIAutoResetThreshold. destruct (m !! key) as [v|] eqn:E.
  - destruct (number_of_any v) as [f|]; [|done].
    destruct (isValidOpenAIAutoResetThreshold f) eqn:Ev; [|done]. intros [= <-].
    rewrite lookup_insert_eq. split_and!; [by intros; rewrite lookup_insert_ne|done|eauto].
  - destruct enabled; intros [= <-].
    + rewrite lookup_insert_eq. split_and!; [by intros; rewrite lookup_insert_ne|done|eauto using valid_f1].
    + rewrite E. by split_and!.
Qed.

(** The switch as submitted, off when it is not. *)
Definition submitted_switch (m : gmap string any) : bool :=
  match m !! OpenAIAutoResetCreditEnabledExtraKey with Some (ABool b) => b | _ => false end.

(** The stored form of accepted settings. *)
Definition settled (m : gmap string any) (enabled : bool) : Prop :=
  m !! OpenAIAutoResetCreditStateExtraKey = None /\
  (m !! OpenAIAutoResetCreditEnabledExtraKey = Some (ABool enabled) \/
   m !! OpenAIAutoResetCreditEnabledExtraKey = None /\ enabled = false) /\
  forall key, threshold_key key ->
    match m !! key with
    | Some v => exists f, v = AFloat64 f /\ isValidOpenAIAutoResetThreshold f = true
    | None => enabled = false
    end.

Lemma accepted_settled m0 m :
  normalizeOpenAIAutoResetCreditExtra PlatformOpenAI AccountTypeOAuth false (Some m0) = Ok (Some m) ->
  settled m (submitted_switch m0) /\
  (forall key, threshold_key key -> m !! key = stored_threshold (submitted_switch m0) (m0 !! key) /\
     (m !! key = None -> m0 !! key = None)) /\
  (forall k, ~ threshold_key k -> k <> OpenAIAutoResetCreditStateExtraKey -> m !! k = m0 !! k).
Proof.
  unfold normalizeOpenAIAutoResetCreditExtra. cbv zeta.
  set (m1 := delete _ m0).
  assert (forall k, k <> OpenAIAutoResetCreditStateExtraKey -> m1 !! k = m0 !! k) as Hm1
    by (intros k Hk; by apply lookup_delete_ne).
  assert (m1 !! OpenAIAutoResetCreditStateExtraKey = None) as Hst by apply lookup_delete_eq.
  unfold submitted_switch. rewrite <- (Hm1 OpenAIAutoResetCreditEnabledExtraKey) by done.
  assert (forall key, threshold_key key -> m0 !! key = m1 !! key) as Hkey
    by (intros key [-> | ->]; symmetry; by apply Hm1).
  destruct (_ && _ && _) eqn:Hnone.
  - intros [= <-]. apply andb_true_iff in Hnone as [[He H5]%andb_true_iff H7].
    rewrite negb_true_iff, bool_decide_eq_false, <- eq_None_not_Some in He, H5, H7. rewrite He.
    assert (forall key, threshold_key key -> m1 !! key = None) as Hn by (by intros key [-> | ->]).
    split_and!; [split_and!; [done|by right|]| |by auto]; intros key Hk.
    + by rewrite (Hn _ Hk).
    + by rewrite (Hkey _ Hk), (Hn _ Hk).
  - rewrite bool_decide_true by done. cbn [negb orb].
    rewrite bool_decide_true by done. cbn [negb orb].
    destruct (match m1 !! OpenAIAutoResetCreditEnabledExtraKey with None => Some false | Some v => as_bool v end)
      as [enabled|] eqn:Hen; [|done].
    destruct (normalize_threshold enabled _ m1) as [m2|e] eqn:E5; [|done].
    destruct (normalize_threshold enabled _ m2) as [m3|e] eqn:E7; [|done]. intros [= <-].
    destruct (normalize_threshold_lookup _ _ _ _ E5) as (Ho5 & Hv5 & Hf5).
    destruct (normalize_threshold_lookup _ _ _ _ E7) as (Ho7 & Hv7 & Hf7).
    assert (m1 !! OpenAIAutoResetCreditEnabledExtraKey = Some (ABool enabled) \/
            m1 !! OpenAIAutoResetCreditEnabledExtraKey = None /\ enabled = false) as Hsw.
    { destruct (m1 !! OpenAIAutoResetCreditEnabledExtraKey) as [v|]; [|by injection Hen as <-; right].
      left. destruct v; try done. by injection Hen as <-. }
    assert ((match m1 !! OpenAIAutoResetCreditEnabledExtraKey with Some (ABool b) => b | _ => false end) = enabled) as ->
      by (by destruct Hsw as [-> | [-> ->]]).
    rewrite Ho5 in Hv7 by done.
    assert (forall key, threshold_key key -> m3 !! key = stored_threshold enabled (m1 !! key)) as Hstored.
    { intros key [-> | ->]; [|done]. by rewrite Ho7. }
    split_and!; [split_and!|..].
    + by rewrite Ho7, Ho5 by done.
    + by rewrite Ho7, Ho5 by done.
    + intros key [-> | ->].
      * rewrite Ho7 by done. destruct (m2 !! _); [done|by destruct Hf5].
      * destruct (m3 !! _); [done|by destruct Hf7].
    + intros key Hk. rewrite (Hkey _ Hk), Hstored by done. split; [done|]. rewrite <- Hstored by done. intros Hno.
      destruct Hk as [-> | ->].
      * rewrite Ho7 in Hno by done. rewrite Hno in Hf5. by destruct Hf5.
      * rewrite Hno in Hf7. rewrite <- Ho5 by done. by destruct Hf7.
    + intros k Hk Hs. unfold threshold_key in Hk. rewrite Ho7, Ho5 by tauto. by apply Hm1.
Qed.

Lemma settled_threshold m enabled key : settled m enabled ->
  key = OpenAIAutoResetCredit5hThresholdExtraKey \/ key = OpenAIAutoResetCredit7dThresholdExtraKey ->
  normalize_threshold enabled key m = Ok m /\
  isValidOpenAIAutoResetThreshold (reset_threshold (Some m) key) = true /\
  (enabled = true -> m !! key = Some (AFloat64 (reset_threshold (Some m) key))).
Proof.
  intros (_ & _ & H) Hk. specialize (H key Hk). unfold normalize_threshold, reset_threshold.
  cbn [resolveAccountExtraNumber]. unfold lookup_key. destruct (m !! key) as [v|] eqn:E.
  - destruct H as (f & -> & Hf). unfold parseOpenAIAutoResetThreshold. cbn [number_of_any]. rewrite Hf.
    split_and!; [by rewrite insert_id|done|done].
  - subst enabled. split_and!; [done|apply valid_f1|done].
Qed.

Lemma settled_fixed m enabled : settled m enabled ->
  normalizeOpenAIAutoResetCreditExtra PlatformOpenAI AccountTypeOAuth false (Some m) = Ok (Some m).
Proof.
  intros Hs. pose proof Hs as (Hst & He & Hk). unfold normalizeOpenAIAutoResetCreditExtra. cbv zeta.
  rewrite delete_id by done. destruct (_ && _ && _); [done|].
  rewrite bool_decide_true by done. cbn [negb orb].
  rewrite bool_decide_true by done. cbn [negb orb].
  assert ((match m !! OpenAIAutoResetCreditEnabledExtraKey with None => Some false | Some v => as_bool v end) = Some enabled) as ->.
  { destruct He as [-> | [-> ->]]; done. }
  destruct (settled_threshold m enabled OpenAIAutoResetCredit5hThresholdExtraKey Hs) as (-> & _); [by left|].
  by destruct (settled_threshold m enabled OpenAIAutoResetCredit7dThresholdExtraKey Hs) as (-> & _); [right|].
Qed.

Lemma valid_range t : isValidOpenAIAutoResetThreshold t = true ->
  fleb (f64_of_ratio false 1 1000) t = true /\ fleb t f1 = true.
Proof. unfold isValidOpenAIAutoResetThreshold. rewrite !andb_true_iff. tauto. Qed.

(** The threshold read is the one submitted. *)
Lemma read_threshold m0 m key :
  normalizeOpenAIAutoResetCreditExtra PlatformOpenAI AccountTypeOAuth false (Some m0) = Ok (Some m) ->
  threshold_key key ->
  match m0 !! key with Some v => number_of_any v | None => Some f1 end = Some (reset_threshold (Some m) key) /\
  isValidOpenAIAutoResetThreshold (reset_threshold (Some m) key) = true.
Proof.
  intros Hn Hk. destruct (accepted_settled _ _ Hn) as (Hset & Hthr & _).
  split; [|by eapply settled_threshold]. destruct Hset as (_ & _ & Hset). specialize (Hset key Hk).
  unfold reset_threshold, lookup_key. cbn [resolveAccountExtraNumber]. unfold lookup_key.
  destruct (Hthr key Hk) as [Hs Hno]. clear Hthr. rename Hs into Hthr. unfold stored_threshold in Hthr. destruct (m !! key) as [v|].
  - destruct Hset as (f & -> & Hf). cbn [number_of_any]. rewrite Hf.
    destruct (m0 !! key) as [v0|]; [by destruct (number_of_any v0); simplify_eq/=|].
    by destruct (submitted_switch m0); simplify_eq/=.
  - by rewrite (Hno eq_refl).
Qed.

(** C39: settings accepted for an OpenAI OAuth account that is no shadow are
    stored as submitted: a threshold as its number, 1 for one left out when
    the switch is on, every other key unchanged and the service's own state
    dropped; the switch, if submitted, is a boolean.  The stored form is a fixed
    point of the check, and what the scheduler reads from it is the switch as
    submitted, off when left out, and the thresholds as submitted, 1 when left
    out, all from 0.001 to 1. *)
Theorem reset_settings_accepted a m0 m :
  normalizeOpenAIAutoResetCreditExtra PlatformOpenAI AccountTypeOAuth false (Some m0) = Ok (Some m) ->
  Platform a = PlatformOpenAI -> AType a = AccountTypeOAuth -> ParentAccountID a = None -> Extra a = Some m ->
  let c := ResolveOpenAIAutoResetCreditConfig a in
  let read key := match m0 !! key with Some v => number_of_any v | None => Some f1 end in
  (forall key, m !! key =
     if key ==? "codex_auto_reset_credit_state" then None
     else if (key ==? "auto_reset_credit_5h_threshold") || (key ==? "auto_reset_credit_7d_threshold")
     then match m0 !! key with
          | Some v => AFloat64 <$> number_of_any v
          | None => if rc_Enabled c then Some (AFloat64 f1) else None
          end
     else m0 !! key) /\
  normalizeOpenAIAutoResetCreditExtra PlatformOpenAI AccountTypeOAuth false (Some m) = Ok (Some m) /\
  match m0 !! "auto_reset_credit_enabled" with
  | Some v => v = ABool (rc_Enabled c)
  | None => rc_Enabled c = false
  end /\
  read "auto_reset_credit_5h_threshold" = Some (Threshold5h c) /\
  read "auto_reset_credit_7d_threshold" = Some (Threshold7d c) /\
  forall t, t = Threshold5h c \/ t = Threshold7d c -> fleb (f64_of_ratio false 1 1000) t = true /\ fleb t f1 = true.
Proof.
  intros Hn Hp Ht Hs Hx. cbv zeta. destruct (accepted_settled _ _ Hn) as (Hset & Hthr & Hrest).
  pose proof Hset as (Hst & He & _). set (enabled := submitted_switch m0) in *.
  destruct (read_threshold m0 m _ Hn (or_introl eq_refl)) as (Hr5 & Hv5).
  destruct (read_threshold m0 m _ Hn (or_intror eq_refl)) as (Hr7 & Hv7).
  assert (ResolveOpenAIAutoResetCreditConfig a =
    mkResetConfig enabled (reset_threshold (Some m) OpenAIAutoResetCredit5hThresholdExtraKey)
      (reset_threshold (Some m) OpenAIAutoResetCredit7dThresholdExtraKey)) as ->.
  { unfold ResolveOpenAIAutoResetCreditConfig, isOpenAIAutoResetCreditAccount, IsShadow. rewrite Hp, Ht, Hs, Hx.
    rewrite !bool_decide_true by done. cbn [andb negb]. f_equal.
    unfold resolveAccountExtraBool, index_key, lookup_key. destruct He as [-> | [-> ->]]; done. }
  cbn [rc_Enabled Threshold5h Threshold7d].
  split_and!; [|by eapply settled_fixed| |done|done|by intros t [-> | ->]; apply valid_range].
  - intros key. destruct (bool_decide_reflect (key = "codex_auto_reset_credit_state")) as [->|N]; [done|].
    destruct (bool_decide_reflect (key = "auto_reset_credit_5h_threshold")) as [->|N5]; [by apply Hthr; left|].
    destruct (bool_decide_reflect (key = "auto_reset_credit_7d_threshold")) as [->|N7]; [by apply Hthr; right|].
    apply Hrest; [|done]. by intros [-> | ->].
  - change "auto_reset_credit_enabled" with OpenAIAutoResetCreditEnabledExtraKey.
    rewrite <- (Hrest OpenAIAutoResetCreditEnabledExtraKey) by (try done; by intros [|]).
    destruct He as [-> | [-> E]]; done.
Qed.

Lemma reset_settings_accepted_witness :
  let m := {[OpenAIAutoResetCreditEnabledExtraKey := ABool true;
             OpenAIAutoResetCredit5hThresholdExtraKey := AString " 0.9 "]} : gmap string any in
  exists m', normalizeOpenAIAutoResetCreditExtra PlatformOpenAI AccountTypeOAuth false (Some m) = Ok (Some m') /\
    m' !! OpenAIAutoResetCreditEnabledExtraKey = Some (ABool true) /\
    m' !! OpenAIAutoResetCredit5hThresholdExtraKey = Some (AFloat64 (f64_of_ratio false 9 10)).
Proof.
  intros m.
  set (m' := <[OpenAIAutoResetCredit7dThresholdExtraKey := AFloat64 f1]>
    (<[OpenAIAutoResetCredit5hThresholdExtraKey := AFloat64 (f64_of_ratio false 9 10)]> m)).
  assert (normalizeOpenAIAutoResetCreditExtra PlatformOpenAI AccountTypeOAuth false (Some m) = Ok (Some m')) as Hn
    by (vm_compute; reflexivity).
  exists m'. split; [exact Hn|].
  set (a := mkAccount 1 PlatformOpenAI AccountTypeOAuth None (Some m') 1 1 None None StatusActive None false true
              None None None None None None "" None []).
  destruct (reset_settings_accepted a m m' Hn eq_refl eq_refl eq_refl eq_refl) as (Hm & _).
  split; (etransitivity; [apply Hm|]; vm_compute; reflexivity).
Defined.
