(* ===== verification/OpenAIAutoReset.v ===== *)
(** * Automatic consumption of OpenAI reset credits

    [openai_quota_auto_reset.go] and [openai_quota_reset_workflow.go]: the
    evaluation of one account as a program over its calls.  The guarded
    consumption goes through the idempotency coordinator (Idempotency.v) and is
    one call here, [Execute]. *)

From S2P Require Import Prelude GoSort GoProgram GoStrings Float64 GoTime GoAny Account AccountScheduling OpenAIQuota.
Local Open Scope Z_scope.

(** ** Usage *)

Record OpenAIRateLimitWindow := mkWindow {
  UsedPercent : f64;
  LimitWindowSeconds : Z;
  ResetAfterSeconds : Z;
  ResetAt : Z;
}.

Record OpenAIRateLimit := mkRateLimit {
  PrimaryWindow : option OpenAIRateLimitWindow;
  SecondaryWindow : option OpenAIRateLimitWindow;
}.

(** The [expires_at] texts of the details. *)
Record OpenAIRateLimitResetCredits := mkCredits {
  cr_AvailableCount : Z;
  Credits : list string;
}.

Record openAIAutoResetCreditCandidate := mkCandidate {
  cand_ID : string;
  cand_ExpiresAt : string;
}.

Record OpenAIQuotaUsage := mkUsage {
  RateLimit : option OpenAIRateLimit;
  RateLimitResetCredits : option OpenAIRateLimitResetCredits;
  FetchedAt : Z;
  autoResetCandidates : list openAIAutoResetCreditCandidate;
}.

(** The conversions to [int] are of 64 bits. *)
Definition window_fields (w : option OpenAIRateLimitWindow) : option f64 * option Z * option Z :=
  match w with
  | None => (None, None, None)
  | Some w => (Some (UsedPercent w), Some (ResetAfterSeconds w), Some (Z.quot (LimitWindowSeconds w) 60))
  end.

Definition buildOpenAIAutoResetUsageUpdates `{LocalZone} (u : OpenAIQuotaUsage) (now : time) : anymap :=
  match RateLimit u with
  | None => None
  | Some rl =>
      let '(pu, pr, pw) := window_fields (PrimaryWindow rl) in
      let '(su, sr, sw) := window_fields (SecondaryWindow rl) in
      Some (buildCodexUsageExtraUpdates
              (mkSnapshot pu pr pw su sr sw None (FormatRFC3339 now)) now)
  end.

(** ** Assessment *)

Record openAIAutoResetAssessment := mkAssessment {
  triggerWindow : string;
  resetReached : bool;
  pauseReached : bool;
}.

Definition joinOpenAIAutoResetWindows (fiveHour sevenDay : bool) : string :=
  match fiveHour, sevenDay with
  | true, true => "5h+7d" | true, false => "5h" | false, true => "7d" | false, false => ""
  end.

(** [settings] is the zero value without a settings service. *)
Definition buildAssessment (settings : OpsOpenAIAccountQuotaAutoPauseSettings) (a : Account)
    (config : OpenAIAutoResetCreditConfig) (utilization5h utilization7d : f64) : openAIAutoResetAssessment :=
  let reset5h := fleb (Threshold5h config) utilization5h in
  let reset7d := fleb (Threshold7d config) utilization7d in
  let '(pause5h, pause7d) := resolveOpenAIQuotaAutoPauseThresholds settings a in
  let pauseReached5h := negb (resolveAccountExtraBool (Extra a) "auto_pause_5h_disabled")
                        && fltb f0 pause5h && fleb pause5h utilization5h in
  let pauseReached7d := negb (resolveAccountExtraBool (Extra a) "auto_pause_7d_disabled")
                        && fltb f0 pause7d && fleb pause7d utilization7d in
  let trigger := joinOpenAIAutoResetWindows reset5h reset7d in
  mkAssessment
    (if trigger ==? "" then joinOpenAIAutoResetWindows pauseReached5h pauseReached7d else trigger)
    (reset5h || reset7d) (pauseReached5h || pauseReached7d || (reset5h || reset7d)).

Definition assessExtra (settings : OpsOpenAIAccountQuotaAutoPauseSettings) (a : Account)
    (config : OpenAIAutoResetCreditConfig) (now : time) : openAIAutoResetAssessment :=
  buildAssessment settings a config
    (default f0 (resolveOpenAIQuotaUtilization (Extra a) "5h" now))
    (default f0 (resolveOpenAIQuotaUtilization (Extra a) "7d" now)).

Definition assessUsage `{LocalZone} (settings : OpsOpenAIAccountQuotaAutoPauseSettings) (u : OpenAIQuotaUsage) (a : Account)
    (config : OpenAIAutoResetCreditConfig) (now : time) : openAIAutoResetAssessment :=
  let updates := buildOpenAIAutoResetUsageUpdates u now in
  buildAssessment settings a config
    (fdiv (readOpenAIQuotaUsedPercent updates "5h") f100)
    (fdiv (readOpenAIQuotaUsedPercent updates "7d") f100).

Definition openAIAutoResetSnapshotStale (extra : anymap) (now : time) : bool :=
  match codex_updated_at extra with
  | None => true
  | Some updatedAt => openAIAutoResetSnapshotTTL <=? Sub now updatedAt
  end.

Definition stateAvailableCount (state : option OpenAIAutoResetCreditState) : Z :=
  match state with Some s => AvailableCount s | None => 0 end.

(** ** Cycles and cards *)

Section Hashing.
(** [sha256.Sum256], its 32 bytes as a string. *)
Context (sha256 : string -> string).

Definition hex_digit (n : nat) : ascii := byte_of (if (n <? 10)%nat then 48 + n else 87 + n).

(** [hex.EncodeToString]. *)
Fixpoint hex_encode (s : string) : string :=
  match s with
  | EmptyString => ""
  | String c s =>
      let n := Ascii.nat_of_ascii c in
      String (hex_digit (n / 16)) (String (hex_digit (n mod 16)) (hex_encode s))
  end.

Definition shortOpenAIAutoResetHash (value : string) : string :=
  hex_encode (Strings.String.substring 0 12 (sha256 value)).

Definition window_reset_at (u : OpenAIQuotaUsage) (w : OpenAIRateLimitWindow) : Z :=
  if ResetAt w <=? 0 then wrap64 (FetchedAt u + ResetAfterSeconds w) else ResetAt w.

(** One round of the loop over the two windows, on (fiveHour, sevenDay). *)
Definition cycle_window (u : OpenAIQuotaUsage) (w : option OpenAIRateLimitWindow) (acc : Z * Z) : Z * Z :=
  match w with
  | None => acc
  | Some w => if LimitWindowSeconds w <=? 6 * 60 * 60 then (window_reset_at u w, acc.2)
              else (acc.1, window_reset_at u w)
  end.

Definition openAIAutoResetCycleSeed (u : OpenAIQuotaUsage) : string :=
  match RateLimit u with
  | None => "5h:0|7d:0"
  | Some rl =>
      let '(fiveHour, sevenDay) := cycle_window u (SecondaryWindow rl)
                                     (cycle_window u (PrimaryWindow rl) (0, 0)) in
      "5h:" +:+ FormatInt fiveHour +:+ "|7d:" +:+ FormatInt sevenDay
  end.

(** The reasons of the refusals. *)
Definition NoCredit := "OPENAI_AUTO_RESET_NO_CREDIT".
Definition DetailsIncomplete := "OPENAI_AUTO_RESET_CREDIT_DETAILS_INCOMPLETE".
Definition ExpiryInvalid := "OPENAI_AUTO_RESET_CREDIT_EXPIRY_INVALID".
Definition OriginalUnavailable := "OPENAI_AUTO_RESET_ORIGINAL_CREDIT_UNAVAILABLE".
Definition IDMissing := "OPENAI_AUTO_RESET_CREDIT_ID_MISSING".

Definition expiry (c : openAIAutoResetCreditCandidate) : option time := ParseRFC3339 (cand_ExpiresAt c).

Definition expires_before (left right : openAIAutoResetCreditCandidate) : bool :=
  match expiry left, expiry right with
  | None, _ => false
  | Some _, None => true
  | Some l, Some r => Before l r
  end.

Definition selectOpenAIAutoResetCandidate (candidates : list openAIAutoResetCreditCandidate) (available : Z)
    (previous : option OpenAIAutoResetCreditState) (cycleHash : string)
    : result string openAIAutoResetCreditCandidate :=
  if available <=? 0 then Err NoCredit
  else if Z.of_nat (length candidates) <? available then Err DetailsIncomplete
  else if existsb (fun c => negb (bool_decide (is_Some (expiry c)))) candidates then Err ExpiryInvalid
  else
    let sorted := SliceStable expires_before candidates in
    let earliest :=
      match sorted with
      | c :: _ => if TrimSpace (cand_ID c) ==? "" then Err IDMissing else Ok c
      | [] => Err IDMissing
      end in
    match previous with
    | Some p =>
        if (AttemptCycleHash p ==? cycleHash) && (AttemptCreditHash p !=? "") then
          match find (fun c => shortOpenAIAutoResetHash (cand_ID c) ==? AttemptCreditHash p) sorted with
          | Some c => if TrimSpace (cand_ID c) ==? "" then Err OriginalUnavailable else Ok c
          | None => Err OriginalUnavailable
          end
        else earliest
    | None => earliest
    end.
End Hashing.

(** ** Calls *)

Record openAIAutoResetConsumeResult := mkConsume { cs_Code : string; WindowsReset : Z }.

(** What the coordinator is asked: the options that vary, the card and the
    redeem id the guarded operation consumes it with. *)
Record reset_order := mkOrder {
  ro_account : Z;
  ro_credit_hash : string;
  ro_cycle_hash : string;
  ro_key : string;
  ro_credit : string;
  ro_redeem : string;
}.

Inductive reset_call :=
| Now
| PauseSettings
| GetByID (id : Z)
| UpdateExtra (id : Z) (updates : gmap string any)
| PersistState (id : Z) (state : OpenAIAutoResetCreditState)  (** [UpdateExtra] of the state's key *)
| QueryUsage (id : Z)
| Execute (o : reset_order)
| RecoverAccountState (id : Z)
| Audit (id : Z) (available : Z) (resultCode : string) (windowsReset : Z) (errorCode : string)
| Notify (id : Z).

(** An error is its [infraerrors.Reason], empty for an error without one. *)
Definition reset_reply (c : reset_call) : Type :=
  match c with
  | Now => time
  | PauseSettings => OpsOpenAIAccountQuotaAutoPauseSettings
  | GetByID _ => result string (option Account)
  | UpdateExtra _ _ | PersistState _ _ => option string
  | QueryUsage _ => result string (option OpenAIQuotaUsage)
  | Execute _ => result string openAIAutoResetConsumeResult
  | RecoverAccountState _ => option string
  | Audit _ _ _ _ _ => unit
  | Notify _ => unit
  end.

Abbreviation rprog := (prog reset_reply).

Definition ask (c : reset_call) : rprog (reset_reply c) := Call c Return.

(** ** Writing *)

Definition persistState (id : Z) (s : OpenAIAutoResetCreditState) : rprog (option string) :=
  ask (PersistState id s).

(** The error code a state shows. *)
Definition fail_code (code : string) : string :=
  if TrimSpace code ==? "" then "OPENAI_AUTO_RESET_FAILED" else code.

Definition failed_state (s : OpenAIAutoResetCreditState) (code : string) (now : time) :=
  mkResetState OpenAIAutoResetStatusFailed (TriggerWindow s) (AvailableCount s) (CheckedAt s)
    (FormatRFC3339 now) (fail_code code) (AttemptCycleHash s) (AttemptCreditHash s).

(** Without a cause, the error is a conflict under the code. *)
Definition failState (id : Z) (s : OpenAIAutoResetCreditState) (code : string) (cause : option string)
    : rprog (option string) :=
  now ← ask Now;
  e ← persistState id (failed_state s code now);
  match e with
  | Some err => Return (Some err)
  | None => Return (Some (default (fail_code code) cause))
  end.

(** [recordAudit], which does nothing without an audit service. *)
Definition recordAudit (audit : bool) (id available : Z) (resultCode : string) (windowsReset : Z)
    (errorCode : string) : rprog unit :=
  if audit then ask (Audit id available resultCode windowsReset errorCode) else Return tt.

Definition openaiQuotaResetCreditsKey := "codex_reset_credit_snapshot".

Definition credits_json (c : OpenAIRateLimitResetCredits) : any :=
  AMap (<["available_count" := AInt (cr_AvailableCount c)]>
    (match Credits c with
     | [] => ∅
     | l => {["credits" := AList (map (fun e => AMap (put_string "expires_at" e ∅)) l)]}
     end)).

Definition RefreshFailed := "OPENAI_QUOTA_RESET_CREDITS_REFRESH_FAILED".

Definition cacheResetCreditsSnapshot (id : Z) (credits : option OpenAIRateLimitResetCredits) (updates : anymap)
    : rprog (option string) :=
  match credits with
  | None => Return (Some RefreshFailed)
  | Some c =>
      if (0 <? cr_AvailableCount c) && match Credits c with [] => true | _ => false end
      then Return (Some RefreshFailed)
      else
        e ← ask (UpdateExtra id (<[openaiQuotaResetCreditsKey := credits_json c]> (default ∅ updates)));
        match e with
        | Some _ => Return (Some "OPENAI_QUOTA_CACHE_WRITE_FAILED")
        | None => Return None
        end
  end.

Definition CacheResetCreditsSnapshot (id : Z) (credits : option OpenAIRateLimitResetCredits) :=
  cacheResetCreditsSnapshot id credits None.

Definition CachePostResetSnapshot `{LocalZone} (id : Z) (u : OpenAIQuotaUsage) : rprog (option string) :=
  now ← ask Now;
  cacheResetCreditsSnapshot id (RateLimitResetCredits u) (buildOpenAIAutoResetUsageUpdates u now).

Definition persistFreshUsage `{LocalZone} (id : Z) (u : OpenAIQuotaUsage) (now : time) : rprog (option string) :=
  match buildOpenAIAutoResetUsageUpdates u now with
  | Some updates =>
      if (size updates =? 0)%nat then CacheResetCreditsSnapshot id (RateLimitResetCredits u)
      else
        e ← ask (UpdateExtra id updates);
        match e with
        | Some err => Return (Some err)
        | None => CacheResetCreditsSnapshot id (RateLimitResetCredits u)
        end
  | None => CacheResetCreditsSnapshot id (RateLimitResetCredits u)
  end.

(** ** After a consumption *)

Definition WarningCacheRefreshFailed := "reset_credit_cache_refresh_failed".
Definition WarningAccountRecoveryFailed := "account_state_recovery_failed".
Definition WarningAccountRefreshFailed := "account_state_refresh_failed".

Record OpenAIQuotaResetPostProcessResult := mkPost {
  post_Quota : option OpenAIQuotaUsage;
  post_Account : option Account;
  CacheRefreshed : bool;
  AccountStateRecovered : bool;
  WarningCode : string;
}.

(** The refresh of the quota cache: the usage, or the warning. *)
Definition refresh_quota `{LocalZone} (id : Z) : rprog (option OpenAIQuotaUsage) :=
  q ← ask (QueryUsage id);
  match q with
  | Ok (Some usage) =>
      e ← CachePostResetSnapshot id usage;
      match e with Some _ => Return None | None => Return (Some usage) end
  | _ => Return None
  end.

(** [recoverer] says whether one is configured; the quota service and the
    account loader are. *)
Definition RunOpenAIQuotaResetPostProcess `{LocalZone} (recoverer : bool) (id : Z)
    : rprog OpenAIQuotaResetPostProcessResult :=
  if negb recoverer then Return (mkPost None None false false WarningAccountRecoveryFailed)
  else
    e ← ask (RecoverAccountState id);
    match e with
    | Some _ => Return (mkPost None None false false WarningAccountRecoveryFailed)
    | None =>
        quota ← refresh_quota id;
        let refreshed := match quota with Some _ => true | None => false end in
        let warning := if refreshed then "" else WarningCacheRefreshFailed in
        a ← ask (GetByID id);
        match a with
        | Err _ => Return (mkPost quota None refreshed true
                     (if warning ==? "" then WarningAccountRefreshFailed else warning))
        | Ok account => Return (mkPost quota account refreshed true warning)
        end
    end.

(** ** The evaluation *)

Section Evaluation.
(** The hash, the name-based UUID of a key, and which optional services there
    are. *)
Context `{local : LocalZone} (sha256 uuid_sha1 : string -> string) (recoverer audit : bool).

Definition stable_key (id : Z) (creditHash cycleHash : string) : string :=
  "oarc:" +:+ FormatInt id +:+ ":" +:+ creditHash +:+ ":" +:+ cycleHash.

Definition order_of (id : Z) (c : openAIAutoResetCreditCandidate) (cycleHash : string) : reset_order :=
  let creditHash := shortOpenAIAutoResetHash sha256 (cand_ID c) in
  let key := stable_key id creditHash cycleHash in
  mkOrder id creditHash cycleHash key (cand_ID c) (uuid_sha1 key).

(** The state while the card is being consumed. *)
Definition resetting_state (trigger : string) (available : Z) (now : time) (cycleHash creditHash : string) :=
  mkResetState OpenAIAutoResetStatusResetting trigger available (FormatRFC3339 now) "" ""
    cycleHash creditHash.

(** What follows a consumption that the upstream did not refuse. *)
Definition after_consumption (id : Z) (resetting : OpenAIAutoResetCreditState) (windowsReset : Z)
    : rprog (option string) :=
  post ← RunOpenAIQuotaResetPostProcess recoverer id;
  if negb (AccountStateRecovered post) || (WarningCode post !=? "") then
    let code := if WarningCode post ==? "" then WarningAccountRecoveryFailed else WarningCode post in
    _ ← recordAudit audit id (AvailableCount resetting) "recovery_failed" windowsReset code;
    failState id resetting code None
  else
    now ← ask Now;
    let at_ := FormatRFC3339 now in
    let count := match post_Quota post ≫= RateLimitResetCredits with
                 | Some c => cr_AvailableCount c
                 | None => Z.max 0 (AvailableCount resetting - 1)
                 end in
    e ← persistState id (mkResetState OpenAIAutoResetStatusSuccess (TriggerWindow resetting) count at_ at_ ""
           (AttemptCycleHash resetting) (AttemptCreditHash resetting));
    match e with
    | Some err => Return (Some err)
    | None => _ ← recordAudit audit id (AvailableCount resetting) "success" windowsReset "";
              Return None
    end.

(** What follows the coordinator's answer. *)
Definition after_execute (id : Z) (resetting : OpenAIAutoResetCreditState)
    (reply : result string openAIAutoResetConsumeResult) : rprog (option string) :=
  match reply with
  | Err reason =>
      if (reason ==? "IDEMPOTENCY_IN_PROGRESS") || (reason ==? "IDEMPOTENCY_RETRY_BACKOFF") then Return None
      else
        _ ← recordAudit audit id (AvailableCount resetting) "failed" 0 reason;
        failState id resetting reason (Some reason)
  | Ok consumed =>
      if ToLower (TrimSpace (cs_Code consumed)) ==? "no_credit" then
        now ← ask Now;
        let at_ := FormatRFC3339 now in
        _ ← recordAudit audit id (AvailableCount resetting) "no_credit" 0 "NO_RESET_CREDIT";
        persistState id (mkResetState OpenAIAutoResetStatusNoCredit (TriggerWindow resetting) 0 at_ at_
          "NO_RESET_CREDIT" (AttemptCycleHash resetting) (AttemptCreditHash resetting))
      else after_consumption id resetting (WindowsReset consumed)
  end.

(** From the choice of a card on.  [checking] is the state last written,
    [state] the one the evaluation found. *)
Definition consume (id : Z) (now : time) (usage : OpenAIQuotaUsage) (available : Z) (trigger : string)
    (checking : OpenAIAutoResetCreditState) (state : option OpenAIAutoResetCreditState)
    : rprog (option string) :=
  let cycleHash := shortOpenAIAutoResetHash sha256 (openAIAutoResetCycleSeed usage) in
  match selectOpenAIAutoResetCandidate sha256 (autoResetCandidates usage) available state cycleHash with
  | Err reason =>
      failState id (mkResetState (rs_Status checking) trigger available (CheckedAt checking)
        (LastResultAt checking) (ErrorCode checking) cycleHash (AttemptCreditHash checking))
        reason (Some reason)
  | Ok candidate =>
      let o := order_of id candidate cycleHash in
      let resetting := resetting_state trigger available now cycleHash (ro_credit_hash o) in
      e ← persistState id resetting;
      match e with
      | Some err => Return (Some err)
      | None =>
          a ← ask (GetByID id);
          match a with
          | Err err => Return (Some err)
          | Ok None => Return None
          | Ok (Some account) =>
              if negb (rc_Enabled (ResolveOpenAIAutoResetCreditConfig account)) then Return None
              else r ← ask (Execute o); after_execute id resetting r
          end
      end
  end.

(** From the fresh usage on. *)
Definition with_usage (id : Z) (now : time) (usage : OpenAIQuotaUsage)
    (checking : OpenAIAutoResetCreditState) (state : option OpenAIAutoResetCreditState)
    : rprog (option string) :=
  e ← persistFreshUsage id usage now;
  match e with
  | Some err => failState id checking "USAGE_SNAPSHOT_WRITE_FAILED" (Some err)
  | None =>
      match RateLimitResetCredits usage with
      | None => failState id checking "RESET_CREDIT_DETAILS_UNAVAILABLE" None
      | Some credits =>
          a ← ask (GetByID id);
          match a with
          | Err err => Return (Some err)
          | Ok None => Return None
          | Ok (Some account) =>
              let config := ResolveOpenAIAutoResetCreditConfig account in
              if negb (rc_Enabled config) then Return None
              else
                settings ← ask PauseSettings;
                let assessment := assessUsage settings usage account config now in
                let available := cr_AvailableCount credits in
                let at_ := FormatRFC3339 now in
                if negb (resetReached assessment) then
                  persistState id (mkResetState
                    (if 0 <? available then OpenAIAutoResetStatusAvailable else OpenAIAutoResetStatusNoCredit)
                    (triggerWindow assessment) available at_ "" "" "" "")
                else if available <=? 0 then
                  persistState id (mkResetState OpenAIAutoResetStatusNoCredit (triggerWindow assessment) 0
                    at_ at_ "NO_RESET_CREDIT" "" "")
                else consume id now usage available (triggerWindow assessment) checking state
          end
      end
  end.

(** Whether the upstream must be asked. *)
Definition needs_query (extra : anymap) (assessment : openAIAutoResetAssessment)
    (state : option OpenAIAutoResetCreditState) (now : time) : bool :=
  openAIAutoResetSnapshotStale extra now || resetReached assessment
  || (pauseReached assessment && negb (resetReached assessment)
      && (match state with
          | None => true
          | Some s => (rs_Status s ==? OpenAIAutoResetStatusChecking)
                      || (rs_Status s ==? OpenAIAutoResetStatusFailed)
          end || openAIAutoResetStateStale state now)).

(** A state whose trigger is over is closed. *)
Definition close_state (id : Z) (assessment : openAIAutoResetAssessment)
    (state : option OpenAIAutoResetCreditState) (now : time) : rprog (option string) :=
  match state with
  | Some s =>
      if negb (pauseReached assessment) && (TriggerWindow s !=? "") then
        persistState id (mkResetState
          (if 0 <? AvailableCount s then OpenAIAutoResetStatusAvailable else OpenAIAutoResetStatusNoCredit)
          "" (AvailableCount s) (FormatRFC3339 now) (LastResultAt s) ""
          (AttemptCycleHash s) (AttemptCreditHash s))
      else Return None
  | None => Return None
  end.

(** The state written before the upstream is asked keeps the attempt. *)
Definition checking_state (assessment : openAIAutoResetAssessment)
    (state : option OpenAIAutoResetCreditState) (now : time) : OpenAIAutoResetCreditState :=
  mkResetState OpenAIAutoResetStatusChecking (triggerWindow assessment) (stateAvailableCount state)
    (FormatRFC3339 now) "" ""
    (match state with Some s => AttemptCycleHash s | None => "" end)
    (match state with Some s => AttemptCreditHash s | None => "" end).

Definition evaluateAccount (id : Z) : rprog (option string) :=
  a ← ask (GetByID id);
  match a with
  | Err err => Return (Some err)
  | Ok None => Return None
  | Ok (Some account) =>
      match ParentAccountID account with
      | Some parent => _ ← ask (Notify parent); Return None
      | None =>
          let config := ResolveOpenAIAutoResetCreditConfig account in
          if negb (rc_Enabled config) || negb (IsActive account) || negb (Schedulable account) then Return None
          else
            now ← ask Now;
            settings ← ask PauseSettings;
            let assessment := assessExtra settings account config now in
            let state := openAIAutoResetStateFromExtra (Extra account) in
            if negb (needs_query (Extra account) assessment state now)
            then close_state id assessment state now
            else
              let checking := checking_state assessment state now in
              e ← persistState id checking;
              match e with
              | Some err => Return (Some err)
              | None =>
                  q ← ask (QueryUsage id);
                  match q with
                  | Err err => failState id checking "RESET_CREDIT_QUERY_FAILED" (Some err)
                  | Ok None => failState id checking "RESET_CREDIT_QUERY_FAILED" None
                  | Ok (Some usage) => with_usage id now usage checking state
                  end
              end
      end
  end.
End Evaluation.

(** ** The scan *)

Inductive scan_call :=
| ListPage (page : Z)
| ScanNotify (id : Z).

(** A page and the number of pages, if the repository reports it. *)
Definition scan_reply (c : scan_call) : Type :=
  match c with
  | ListPage _ => option (list Account * option Z)
  | ScanNotify _ => unit
  end.

Definition openAIAutoResetBatchSize : nat := 100.

Definition scan_wanted (a : Account) : bool :=
  Schedulable a && rc_Enabled (ResolveOpenAIAutoResetCreditConfig a).

Fixpoint notify_all (l : list Account) : prog scan_reply unit :=
  match l with
  | [] => Return tt
  | a :: l => if scan_wanted a then _ ← Call (ScanNotify (ID a)) Return; notify_all l else notify_all l
  end.

(** The loop over the pages, for at most [fuel] of them: [false] when it did
    not end. *)
Fixpoint scan_pages (fuel : nat) (page : Z) : prog scan_reply bool :=
  match fuel with
  | O => Return false
  | S n =>
      r ← Call (ListPage page) Return;
      match r with
      | None => Return true
      | Some (accounts, pages) =>
          _ ← notify_all accounts;
          if (length accounts <? openAIAutoResetBatchSize)%nat
             || match pages with None => true | Some p => p <=? page end
          then Return true
          else scan_pages n (page + 1)
      end
  end.
