(* ===== verification/OpenAIAutoResetProperties.v ===== *)
(** * What the automatic reset promises

    Lemmas on the choice of a card and on the traces of an evaluation. *)

From S2P Require Import Prelude GoSort GoProgram GoStrings Float64 GoTime GoAny Account AccountScheduling OpenAIQuota OpenAIAutoReset.
Local Open Scope Z_scope.

(** ** The choice of a card *)

Section Choice.
Context (sha256 : string -> string).
Notation hash := (shortOpenAIAutoResetHash sha256).

Lemma expires_before_asym x y : expires_before x y = true -> expires_before y x = false.
Proof. unfold expires_before, Before. destruct (expiry x), (expiry y); try done. blia. Qed.

Lemma expires_before_trans x y z :
  not_after expires_before x y -> not_after expires_before y z -> not_after expires_before x z.
Proof.
  unfold not_after, expires_before, Before. destruct (expiry x), (expiry y), (expiry z); try done; blia.
Qed.

Definition sorted_cards (l : list openAIAutoResetCreditCandidate) := SliceStable expires_before l.

Lemma sorted_cards_perm l : sorted_cards l ≡ₚ l.
Proof. apply SliceStable_perm. Qed.

(** The first card expires no later than any other. *)
Lemma earliest_card l c cs : sorted_cards l = c :: cs -> forall d, d ∈ l -> expires_before d c = false.
Proof.
  intros Hs d Hd. pose proof (SliceStable_sorted expires_before l expires_before_asym expires_before_trans) as Hst.
  change (SliceStable _ l) with (sorted_cards l) in Hst. rewrite Hs in Hst.
  apply StronglySorted_inv in Hst as [_ Hc].
  rewrite <- sorted_cards_perm, Hs in Hd. apply elem_of_cons in Hd as [-> |Hd].
  - destruct (expires_before c c) eqn:E; [|done]. by rewrite (expires_before_asym _ _ E) in E.
  - rewrite Forall_forall in Hc. by apply Hc.
Qed.

(** Whether an attempt of this cycle is on record. *)
Definition attempted (previous : option OpenAIAutoResetCreditState) (cycleHash : string) : option string :=
  match previous with
  | Some p => if (AttemptCycleHash p ==? cycleHash) && (AttemptCreditHash p !=? "")
              then Some (AttemptCreditHash p) else None
  | None => None
  end.

Lemma select_ok candidates available previous cycleHash c :
  selectOpenAIAutoResetCandidate sha256 candidates available previous cycleHash = Ok c ->
  0 < available <= Z.of_nat (length candidates) /\ c ∈ candidates /\ TrimSpace (cand_ID c) <> "" /\
  (forall d, d ∈ candidates -> is_Some (expiry d)) /\
  match attempted previous cycleHash with
  | Some h => hash (cand_ID c) = h
  | None => forall d, d ∈ candidates -> expires_before d c = false
  end.
Proof.
  unfold selectOpenAIAutoResetCandidate.
  destruct (Z.leb_spec available 0); [done|]. destruct (Z.ltb_spec (Z.of_nat (length candidates)) available); [done|].
  destruct (existsb _ candidates) eqn:Ex; [done|]. intros Hsel.
  assert (Hexp : forall d, d ∈ candidates -> is_Some (expiry d)).
  { intros d Hd. destruct (decide (is_Some (expiry d))) as [|Hn]; [done|].
    assert (existsb (fun c => negb (bool_decide (is_Some (expiry c)))) candidates = true); [|congruence].
    apply existsb_exists. exists d. split; [by apply list_elem_of_In|]. by rewrite bool_decide_false. }
  split; [lia|]. change (SliceStable expires_before candidates) with (sorted_cards candidates) in Hsel.
  assert (Hearly : (match sorted_cards candidates with
                    | c :: _ => if TrimSpace (cand_ID c) ==? "" then Err IDMissing else Ok c
                    | [] => Err IDMissing end) = Ok c ->
    c ∈ candidates /\ TrimSpace (cand_ID c) <> "" /\ forall d, d ∈ candidates -> expires_before d c = false).
  { destruct (sorted_cards candidates) as [|c' cs] eqn:Es; [done|].
    destruct (bool_decide_reflect (TrimSpace (cand_ID c') = "")); [done|]. intros [= ->].
    split; [rewrite <- sorted_cards_perm, Es; left|]. split; [done|]. by eapply earliest_card. }
  unfold attempted. destruct previous as [p|]; [|destruct (Hearly Hsel) as (? & ? & ?); done].
  destruct (_ && _) eqn:E; [|destruct (Hearly Hsel) as (? & ? & ?); done].
  destruct (find _ _) as [c'|] eqn:Ef; [|done].
  destruct (bool_decide_reflect (TrimSpace (cand_ID c') = "")); [done|]. injection Hsel as ->.
  apply find_some in Ef as [Hin Hh]. apply list_elem_of_In in Hin. rewrite sorted_cards_perm in Hin.
  apply bool_decide_eq_true in Hh. done.
Qed.

(** A recorded card that is not listed is never replaced. *)
Lemma select_refuses candidates available previous cycleHash h :
  attempted previous cycleHash = Some h -> (forall c, c ∈ candidates -> hash (cand_ID c) <> h) ->
  exists reason, selectOpenAIAutoResetCandidate sha256 candidates available previous cycleHash = Err reason.
Proof.
  intros Ha Hc. destruct (selectOpenAIAutoResetCandidate _ _ _ _ _) as [c|e] eqn:E; [|eauto].
  destruct (select_ok _ _ _ _ _ E) as (_ & Hin & _ & _ & Hh). rewrite Ha in Hh. by destruct (Hc c Hin).
Qed.
End Choice.

(** ** Traces *)

Notation rtrace := (list (event reset_reply)).

Lemma runs_ask {A} c (f : reset_reply c -> rprog A) tr a :
  runs (ask c ≫= f) tr a -> exists r tr', tr = Ev c r :: tr' /\ runs (f r) tr' a.
Proof. done. Qed.

(** Takes the first call of a run. *)
Ltac next_call H r tr := apply runs_ask in H as (r & tr & -> & H).

Lemma runs_Return {A} (a b : A) (tr : rtrace) : runs (Return a) tr b -> tr = [] /\ b = a.
Proof. intros [-> ->]. done. Qed.

Definition no_execute (c : reset_call) : Prop := match c with Execute _ => False | _ => True end.

(** Calls that write no state and consume nothing. *)
Definition no_state (c : reset_call) : Prop :=
  match c with Execute _ | PersistState _ _ => False | _ => True end.

(** The states written keep the attempt. *)
Definition keeps (cycleHash creditHash : string) (c : reset_call) : Prop :=
  match c with
  | Execute _ => False
  | PersistState _ s => AttemptCycleHash s = cycleHash /\ AttemptCreditHash s = creditHash
  | _ => True
  end.

Lemma only_weaken {A} (P Q : reset_call -> Prop) (p : rprog A) :
  (forall c, P c -> Q c) -> only P p -> only Q p.
Proof. intros HPQ. induction p as [|c k IH|]; simpl; [done| |done]. intros [Hc Hk]. split; auto. Qed.

Lemma only_ask (P : reset_call -> Prop) c : P c -> only P (ask c).
Proof. by split. Qed.

Lemma only_audit (P : reset_call -> Prop) audit id n rc w ec :
  (forall id n rc w ec, P (Audit id n rc w ec)) -> only P (recordAudit audit id n rc w ec).
Proof. intros H. unfold recordAudit. destruct audit; [by apply only_ask|done]. Qed.

Lemma only_failState (P : reset_call -> Prop) id s code cause :
  P Now -> (forall now, P (PersistState id (failed_state s code now))) -> only P (failState id s code cause).
Proof.
  intros Hn Hp. apply only_bind; [by apply only_ask|]. intros now.
  apply only_bind; [by apply only_ask|]. by intros [].
Qed.

Lemma only_cache id credits updates : only no_state (cacheResetCreditsSnapshot id credits updates).
Proof.
  unfold cacheResetCreditsSnapshot. destruct credits as [c|]; [|done]. destruct (_ && _); [done|].
  apply only_bind; [by apply only_ask|]. by intros [].
Qed.

Lemma only_fresh_usage `{LocalZone} id u now : only no_state (persistFreshUsage id u now).
Proof.
  unfold persistFreshUsage, CacheResetCreditsSnapshot.
  destruct (buildOpenAIAutoResetUsageUpdates u now) as [m|]; [|apply only_cache].
  destruct (size m =? 0)%nat; [apply only_cache|].
  apply only_bind; [by apply only_ask|]. intros []; [done|apply only_cache].
Qed.

Lemma only_post `{LocalZone} recoverer id : only no_state (RunOpenAIQuotaResetPostProcess recoverer id).
Proof.
  unfold RunOpenAIQuotaResetPostProcess. destruct recoverer; [|done]. cbn [negb].
  apply only_bind; [by apply only_ask|]. intros [e|]; [done|].
  apply only_bind.
  - apply only_bind; [by apply only_ask|]. intros [[u|]|e]; try done.
    apply only_bind; [|by intros []]. apply only_bind; [by apply only_ask|]. intros now. apply only_cache.
  - intros q. apply only_bind; [by apply only_ask|]. by intros [].
Qed.

Lemma no_state_keeps x y c : no_state c -> keeps x y c.
Proof. by destruct c. Qed.

Lemma keeps_no_execute x y c : keeps x y c -> no_execute c.
Proof. by destruct c. Qed.

(** After the coordinator's answer, every state written keeps the attempt. *)
Lemma only_after_execute `{LocalZone} recoverer audit id resetting reply :
  only (keeps (AttemptCycleHash resetting) (AttemptCreditHash resetting))
    (after_execute recoverer audit id resetting reply).
Proof.
  unfold after_execute. destruct reply as [consumed|reason].
  - destruct (_ ==? _).
    + apply only_bind; [by apply only_ask|]. intros now.
      apply only_bind; [by apply only_audit|]. intros _. by apply only_ask.
    + unfold after_consumption.
      apply only_bind; [eapply only_weaken; [|apply only_post]; apply no_state_keeps|]. intros post.
      destruct (_ || _).
      * apply only_bind; [by apply only_audit|]. intros _. by apply only_failState.
      * apply only_bind; [by apply only_ask|]. intros now.
        apply only_bind; [by apply only_ask|]. intros [e|]; [done|].
        apply only_bind; [by apply only_audit|done].
  - destruct (_ || _); [done|].
    apply only_bind; [by apply only_audit|]. intros _. by apply only_failState.
Qed.

Definition executes (tr : rtrace) (o : reset_order) : Prop := exists r, Ev (Execute o) r ∈ tr.

Lemma no_execute_trace (tr : rtrace) o :
  Forall (fun e => no_execute (projT1 e)) tr -> ~ executes tr o.
Proof. intros H [r Hr]. rewrite Forall_forall in H. by apply (H _ Hr). Qed.

Lemma only_no_execute {A} (p : rprog A) tr a o : only no_execute p -> runs p tr a -> ~ executes tr o.
Proof. intros Ho Hr. by eapply no_execute_trace, only_runs. Qed.

Lemma executes_cons c r tr o : no_execute c -> executes (Ev c r :: tr) o -> executes tr o.
Proof.
  intros Hc [r' Hr]. apply elem_of_cons in Hr as [Heq|Hr]; [|by exists r'].
  assert (projT1 (Ev (Execute o) r') = c) as <- by (by rewrite Heq). done.
Qed.

Lemma executes_app (tr1 tr2 : rtrace) o :
  Forall (fun e => no_execute (projT1 e)) tr1 -> executes (tr1 ++ tr2) o -> executes tr2 o.
Proof.
  intros H1 [r Hr]. apply elem_of_app in Hr as [Hr|Hr]; [|by exists r].
  by destruct (no_execute_trace tr1 o H1); exists r.
Qed.

Lemma failState_no_execute id s code cause : only no_execute (failState id s code cause).
Proof. by apply only_failState. Qed.

(** ** The consumption *)

Section Consumption.
Context `{local : LocalZone} (sha256 uuid_sha1 : string -> string) (recoverer audit : bool).
Notation cycle_of u := (shortOpenAIAutoResetHash sha256 (openAIAutoResetCycleSeed u)).

(** The calls around a consumption: the account read once more and still
    enabled, the state of the attempt stored before. *)
Record consumed_by (id : Z) (now : time) (usage : OpenAIQuotaUsage) (available : Z) (trigger : string)
    (state : option OpenAIAutoResetCreditState) (o : reset_order) (tr : rtrace) : Prop := {
  cb_card : openAIAutoResetCreditCandidate;
  cb_account : Account;
  cb_reply : reset_reply (Execute o);
  cb_rest : rtrace;
  cb_selected : selectOpenAIAutoResetCandidate sha256 (autoResetCandidates usage) available state
                  (cycle_of usage) = Ok cb_card;
  cb_order : o = order_of sha256 uuid_sha1 id cb_card (cycle_of usage);
  cb_enabled : rc_Enabled (ResolveOpenAIAutoResetCreditConfig cb_account) = true;
  cb_trace : tr = [Ev (PersistState id (resetting_state trigger available now (cycle_of usage)
                     (ro_credit_hash o))) None;
                   Ev (GetByID id) (Ok (Some cb_account)); Ev (Execute o) cb_reply] ++ cb_rest;
  cb_kept : Forall (fun e => keeps (cycle_of usage) (ro_credit_hash o) (projT1 e)) cb_rest;
}.

Lemma consume_spec id now usage available trigger checking state tr res o :
  runs (consume sha256 uuid_sha1 recoverer audit id now usage available trigger checking state) tr res ->
  executes tr o -> consumed_by id now usage available trigger state o tr.
Proof.
  unfold consume. intros Hr Ho. destruct (selectOpenAIAutoResetCandidate _ _ _ _ _) as [card|reason] eqn:Es.
  - cbv zeta in Hr. next_call Hr e tr1. destruct e as [err|].
    { destruct Hr as [-> _]. by apply executes_cons, no_execute_trace in Ho. }
    next_call Hr a tr2. do 2 (apply executes_cons in Ho; [|done]).
    destruct a as [[account|]|err]; [|destruct Hr as [-> _]; by apply no_execute_trace in Ho..].
    destruct (rc_Enabled _) eqn:He; cbn [negb] in Hr; [|destruct Hr as [-> _]; by apply no_execute_trace in Ho].
    next_call Hr r tr3.
    pose proof (only_runs _ _ _ _ (only_after_execute recoverer audit id _ r) Hr) as Hk. cbn in Hk.
    assert (o = order_of sha256 uuid_sha1 id card (cycle_of usage)) as ->.
    { destruct Ho as [r' Hin]. apply elem_of_cons in Hin as [Heq|Hin].
      - assert (projT1 (Ev (Execute o) r') = Execute (order_of sha256 uuid_sha1 id card (cycle_of usage)))
          as H by (by rewrite Heq). by injection H.
      - exfalso. apply (no_execute_trace tr3 o); [|by exists r'].
        eapply Forall_impl; [exact Hk|]. intros e. apply keeps_no_execute. }
    by exists card account r tr3.
  - by apply only_no_execute with (o := o) in Hr; [|apply failState_no_execute].
Qed.
End Consumption.
