(* ===== verification/OpenAIAutoResetTheorems.v ===== *)
(** * Theorems of the automatic reset *)

From S2P Require Import Prelude GoSort GoProgram GoStrings Float64 GoTime GoAny Account AccountScheduling Idempotency OpenAIQuota OpenAIAutoReset OpenAIAutoResetProperties.
Local Open Scope Z_scope.

Section Evaluations.
Context `{local : LocalZone} (sha256 uuid_sha1 : string -> string) (recoverer audit : bool).
Notation evaluate := (evaluateAccount sha256 uuid_sha1 recoverer audit).
Notation cycle_of u := (shortOpenAIAutoResetHash sha256 (openAIAutoResetCycleSeed u)).
Notation consumed_in := (consumed_by sha256 uuid_sha1).

(** What an account must be for its cards to be touched. *)
Definition eligible (a : Account) : Prop :=
  ParentAccountID a = None /\ IsActive a = true /\ Schedulable a = true /\
  rc_Enabled (ResolveOpenAIAutoResetCreditConfig a) = true.

(** The writes of the fresh usage. *)
Definition usage_writes (tr : list (event reset_reply)) : Prop :=
  Forall (fun e => no_state (projT1 e)) tr.

Lemma with_usage_spec id now usage checking state tr res o :
  runs (with_usage sha256 uuid_sha1 recoverer audit id now usage checking state) tr res ->
  executes tr o ->
  exists writes account settings credits rest,
    tr = writes ++ [Ev (GetByID id) (Ok (Some account)); Ev PauseSettings settings] ++ rest /\
    usage_writes writes /\ rc_Enabled (ResolveOpenAIAutoResetCreditConfig account) = true /\
    RateLimitResetCredits usage = Some credits /\ 0 < cr_AvailableCount credits /\
    let assessment := assessUsage settings usage account (ResolveOpenAIAutoResetCreditConfig account) now in
    resetReached assessment = true /\
    consumed_in id now usage (cr_AvailableCount credits) (triggerWindow assessment) state o rest.
Proof.
  unfold with_usage. intros Hr Ho. apply runs_bind in Hr as (writes & e & tr1 & -> & Hw & Hr).
  pose proof (only_runs _ _ _ _ (only_fresh_usage id usage now) Hw) as Hwr.
  apply executes_app in Ho; [|eapply Forall_impl; [exact Hwr|]; intros [[] ?]; done].
  destruct e as [err|]; [by apply only_no_execute with (o := o) in Hr; [|apply failState_no_execute]|].
  destruct (RateLimitResetCredits usage) as [credits|];
    [|by apply only_no_execute with (o := o) in Hr; [|apply failState_no_execute]].
  next_call Hr a tr2. apply executes_cons in Ho; [|done].
  destruct a as [[account|]|err]; [|destruct Hr as [-> _]; by apply no_execute_trace in Ho..].
  cbv zeta in Hr. destruct (rc_Enabled _) eqn:He; cbn [negb] in Hr; [|destruct Hr as [-> _]; by apply no_execute_trace in Ho].
  next_call Hr settings tr3. apply executes_cons in Ho; [|done].
  destruct (resetReached _) eqn:Hreset; cbn [negb] in Hr;
    [|by apply only_no_execute with (o := o) in Hr; [|by apply only_ask]].
  destruct (Z.leb_spec (cr_AvailableCount credits) 0) as [|Hav];
    [by apply only_no_execute with (o := o) in Hr; [|by apply only_ask]|].
  apply (consume_spec _ _ _ _ _ _ _ _ _ _ _ _ _ o) in Hr; [|done].
  exists writes, account, settings, credits, tr3. done.
Qed.

(** C13: A card is consumed only for an active, schedulable account that is no
    shadow and has the switch on, when the usage just read from the upstream
    reaches a threshold and a card is available; the switch is read again after
    the query and once more right before the consumption, and the attempt is
    stored before it.  The card is listed with an id, all the cards available
    are listed, and every listed card, this one too, has a valid expiry; it is
    the one on record for the cycle if there is one, and otherwise expires
    first. *)
Theorem reset_justified id tr res o :
  runs (evaluate id) tr res -> executes tr o ->
  exists account now settings usage account' settings' credits card writes account'' reply rest,
    let config' := ResolveOpenAIAutoResetCreditConfig account' in
    let assessment := assessUsage settings' usage account' config' now in
    let state := openAIAutoResetStateFromExtra (Extra account) in
    tr = [Ev (GetByID id) (Ok (Some account)); Ev Now now; Ev PauseSettings settings;
          Ev (PersistState id (checking_state (assessExtra settings account
                (ResolveOpenAIAutoResetCreditConfig account) now) state now)) None;
          Ev (QueryUsage id) (Ok (Some usage))] ++ writes ++
         [Ev (GetByID id) (Ok (Some account')); Ev PauseSettings settings';
          Ev (PersistState id (resetting_state (triggerWindow assessment) (cr_AvailableCount credits) now
                (cycle_of usage) (ro_credit_hash o))) None;
          Ev (GetByID id) (Ok (Some account'')); Ev (Execute o) reply] ++ rest /\
    eligible account /\ rc_Enabled config' = true /\
    rc_Enabled (ResolveOpenAIAutoResetCreditConfig account'') = true /\
    resetReached assessment = true /\
    RateLimitResetCredits usage = Some credits /\ 0 < cr_AvailableCount credits /\
    o = order_of sha256 uuid_sha1 id card (cycle_of usage) /\
    card ∈ autoResetCandidates usage /\ TrimSpace (cand_ID card) <> "" /\
    cr_AvailableCount credits <= Z.of_nat (length (autoResetCandidates usage)) /\
    (forall d, d ∈ autoResetCandidates usage -> is_Some (expiry d)) /\
    match attempted state (cycle_of usage) with
    | Some h => ro_credit_hash o = h
    | None => forall d, d ∈ autoResetCandidates usage -> expires_before d card = false
    end /\
    usage_writes writes /\
    Forall (fun e => keeps (cycle_of usage) (ro_credit_hash o) (projT1 e)) rest.
Proof.
  unfold evaluateAccount. intros Hr Ho. next_call Hr a tr1. apply executes_cons in Ho; [|done].
  destruct a as [[account|]|err]; [|destruct Hr as [-> _]; by apply no_execute_trace in Ho..].
  destruct (ParentAccountID account) as [parent|] eqn:Hp.
  { next_call Hr u tr2. destruct Hr as [-> _]. by apply executes_cons, no_execute_trace in Ho. }
  cbv zeta in Hr. destruct (_ || _) eqn:Hel; [destruct Hr as [-> _]; by apply no_execute_trace in Ho|].
  apply orb_false_iff in Hel as [[He Ha]%orb_false_iff Hsch].
  rewrite negb_false_iff in He, Ha, Hsch.
  next_call Hr now tr2. next_call Hr settings tr3. do 2 (apply executes_cons in Ho; [|done]).
  destruct (negb _).
  { apply only_no_execute with (o := o) in Hr; [done|]. unfold close_state.
    destruct (openAIAutoResetStateFromExtra _); [|done]. destruct (_ && _); [by apply only_ask|done]. }
  next_call Hr e tr4. apply executes_cons in Ho; [|done].
  destruct e as [err|]; [destruct Hr as [-> _]; by apply no_execute_trace in Ho|].
  next_call Hr q tr5. apply executes_cons in Ho; [|done].
  destruct q as [[usage|]|err];
    [|by apply only_no_execute with (o := o) in Hr; [|apply failState_no_execute]..].
  destruct (with_usage_spec _ _ _ _ _ _ _ _ Hr Ho)
    as (writes & account' & settings' & credits & rest & -> & Hw & He' & Hc & Hav & Hreset & Hcb).
  destruct Hcb as [card account'' reply rest' Hsel Horder He'' Htr Hkept].
  destruct (select_ok _ _ _ _ _ _ Hsel) as ([_ Hlisted] & Hin & Hid & Hexp & Hchoice).
  exists account, now, settings, usage, account', settings', credits, card, writes, account'', reply, rest'.
  cbv zeta. split; [by rewrite Htr|]. split; [done|]. subst o. by split_and!.
Qed.
End Evaluations.

(** ** The key of an attempt *)

Lemma string_app_cancel (p r s : string) : p +:+ r = p +:+ s -> r = s.
Proof. unfold String.app. induction p as [|a p IH]; simpl; [done|]. intros [= H]. auto. Qed.

Lemma pretty_digits n s :
  list_ascii_of_string (pretty_N_go n s) = list_ascii_of_string (pretty_N_go n "") ++ list_ascii_of_string s.
Proof. by rewrite pretty_N_go_app, list_ascii_app. Qed.

Lemma digit_char_visible d : (d < 10)%N -> visible (pretty_N_char d) = true.
Proof. intros H. destruct d as [|p]; [done|]. do 4 (destruct p as [p|p|]; try done; try lia). Qed.

Lemma pretty_visible n : Forall (fun c => visible c = true) (list_ascii_of_string (pretty_N_go n "")).
Proof.
  induction (N.lt_wf_0 n) as [n _ IH]. destruct (decide (n = 0)%N) as [->|Hn]; [by rewrite pretty_N_go_0|].
  rewrite pretty_N_go_step, pretty_digits by lia. apply Forall_app. split; [apply IH, N.div_lt; lia|].
  repeat constructor. by apply digit_char_visible, N.mod_lt.
Qed.

Lemma pretty_length k n : (n < 10 ^ N.of_nat k)%N -> (Strings.String.length (pretty_N_go n "") <= k)%nat.
Proof.
  revert n. induction k as [|k IH]; intros n Hn.
  { rewrite N.pow_0_r in Hn. assert (n = 0%N) as -> by lia. by rewrite pretty_N_go_0. }
  destruct (decide (n = 0)%N) as [->|Hz]; [rewrite pretty_N_go_0; simpl; lia|].
  rewrite pretty_N_go_step, pretty_N_go_app, string_length_app by lia. simpl.
  assert (n / 10 < 10 ^ N.of_nat k)%N as Hd.
  { apply N.Div0.div_lt_upper_bound. rewrite Nat2N.inj_succ, N.pow_succ_r' in Hn. lia. }
  apply IH in Hd. lia.
Qed.

Section Key.
Context (sha256 : string -> string).
Hypothesis digest_length : forall s, Strings.String.length (sha256 s) = 32%nat.
Notation hash := (shortOpenAIAutoResetHash sha256).

Lemma hex_digit_visible n : (n < 16)%nat -> visible (hex_digit n) = true.
Proof. intros H. do 16 (destruct n as [|n]; [done|]). lia. Qed.

Lemma hex_encode_visible s : Forall (fun c => visible c = true) (list_ascii_of_string (hex_encode s)).
Proof.
  induction s as [|c s IH]; [constructor|]. cbn [hex_encode Strings.String.list_ascii_of_string].
  pose proof (Strings.Ascii.nat_ascii_bounded c).
  constructor; [|constructor; [|done]]; apply hex_digit_visible.
  - apply Nat.Div0.div_lt_upper_bound. lia.
  - apply Nat.mod_upper_bound. lia.
Qed.

Lemma hex_encode_length s : Strings.String.length (hex_encode s) = (2 * Strings.String.length s)%nat.
Proof. induction s as [|c s IH]; [done|]. cbn [hex_encode Strings.String.length]. rewrite IH. lia. Qed.

Lemma substring_length n s : (n <= Strings.String.length s)%nat ->
  Strings.String.length (Strings.String.substring 0 n s) = n.
Proof.
  revert n. induction s as [|c s IH]; intros [|n] Hn; simpl in *; try done; [lia|].
  rewrite IH; lia.
Qed.

Lemma hash_length v : Strings.String.length (hash v) = 24%nat.
Proof.
  unfold shortOpenAIAutoResetHash. rewrite hex_encode_length, substring_length; [done|].
  rewrite digest_length. lia.
Qed.

(** The key of an attempt passes the coordinator's check of keys, and tells
    accounts, cards and cycles apart: two attempts share a key exactly when
    they are on the same account and their cards and cycles have the same
    hashes. *)
Theorem attempt_key id id' v v' w w' :
  0 < id <= int64_max -> 0 < id' <= int64_max ->
  let key := stable_key id (hash v) (hash w) in
  NormalizeIdempotencyKey key = Ok key /\
  (key = stable_key id' (hash v') (hash w') -> id = id' /\ hash v = hash v' /\ hash w = hash w').
Proof.
  intros Hid Hid' key. split.
  - assert (Hvis : Forall (fun c => visible c = true) (list_ascii_of_string key)).
    { unfold key, stable_key, FormatInt. rewrite !list_ascii_app, !Forall_app.
      destruct id as [|p|p]; try lia.
      change (pretty (Z.pos p)) with (pretty_N_go (N.pos p) "").
      split; [by repeat constructor|]. split; [apply pretty_visible|].
      split; [by repeat constructor|]. split; [apply hex_encode_visible|].
      split; [by repeat constructor|apply hex_encode_visible]. }
    unfold NormalizeIdempotencyKey. rewrite (TrimSpace_visible key Hvis). cbv zeta.
    assert (Hlen : (Strings.String.length key <= 78)%nat).
    { unfold key, stable_key. rewrite !string_length_app, !hash_length.
      destruct id as [|p|p]; try lia. unfold FormatInt.
      change (pretty (Z.pos p)) with (pretty_N_go (N.pos p) "").
      pose proof (pretty_length 19 (N.pos p)) as H. simpl. unfold int64_max in Hid.
      change (10 ^ N.of_nat 19)%N with 10000000000000000000%N in H. lia. }
    rewrite bool_decide_false by done.
    rewrite (proj2 (Nat.ltb_ge 128 _)) by lia.
    assert (printable key = true) as ->; [|done].
    apply printable_spec. eapply Forall_impl; [exact Hvis|].
    intros c. unfold visible, byte_ok. rewrite andb_true_iff, !Nat.leb_le. done.
  - unfold key, stable_key. intros H.
    pose proof (f_equal Strings.String.length H) as Hl. rewrite !string_length_app, !hash_length in Hl.
    apply string_app_cancel in H.
    assert (FormatInt id = FormatInt id') as Hf.
    { eapply string_app_inj_length; [|exact H]. lia. }
    assert (id = id') as <-.
    { unfold int64_min in *. pose proof (ParseInt_FormatInt id ltac:(unfold int64_min; lia)) as H1.
      pose proof (ParseInt_FormatInt id' ltac:(unfold int64_min; lia)) as H2. rewrite Hf in H1. congruence. }
    split; [done|]. do 2 apply string_app_cancel in H.
    assert (hash v = hash v') as Hv by (eapply string_app_inj_length; [|exact H]; by rewrite !hash_length).
    split; [done|]. rewrite Hv in H. by do 2 apply string_app_cancel in H.
Qed.
End Key.

(** ** One card per cycle *)

(** The state last written in a trace, whatever became of the write. *)
Definition written (e : event reset_reply) : option OpenAIAutoResetCreditState :=
  match projT1 e with PersistState _ s => Some s | _ => None end.

Fixpoint last_state (tr : list (event reset_reply)) : option OpenAIAutoResetCreditState :=
  match tr with
  | [] => None
  | e :: tr => match last_state tr with Some s => Some s | None => written e end
  end.

Lemma last_state_app tr1 tr2 :
  last_state (tr1 ++ tr2) = match last_state tr2 with Some s => Some s | None => last_state tr1 end.
Proof.
  induction tr1 as [|e tr1 IH]; simpl; [by destruct (last_state tr2)|].
  rewrite IH. by destruct (last_state tr2).
Qed.

Lemma last_state_keeps x y tr s :
  Forall (fun e => keeps x y (projT1 e)) tr -> last_state tr = Some s ->
  AttemptCycleHash s = x /\ AttemptCreditHash s = y.
Proof.
  induction 1 as [|e tr He _ IH]; simpl; [done|]. destruct (last_state tr) as [s'|]; [auto|].
  unfold written. destruct e as [[] r]; try done. simpl in He. by intros [= <-].
Qed.

(** The account the evaluation starts from. *)
Definition account_read (tr : list (event reset_reply)) : option Account :=
  match tr with
  | existT (GetByID _) (Ok (Some a)) :: _ => Some a
  | _ => None
  end.

(** The usage the upstream answered first. *)
Fixpoint usage_read (tr : list (event reset_reply)) : option OpenAIQuotaUsage :=
  match tr with
  | [] => None
  | existT (QueryUsage _) (Ok (Some u)) :: _ => Some u
  | _ :: tr => usage_read tr
  end.

(** The ids of the cards listed in it. *)
Definition listed (tr : list (event reset_reply)) : list string :=
  match usage_read tr with Some u => map cand_ID (autoResetCandidates u) | None => [] end.

Section OneCard.
Context `{local : LocalZone} (sha256 uuid_sha1 : string -> string) (recoverer audit : bool).
Hypothesis digest_length : forall s, Strings.String.length (sha256 s) = 32%nat.
Notation evaluate := (evaluateAccount sha256 uuid_sha1 recoverer audit).
Notation hash := (shortOpenAIAutoResetHash sha256).
Notation cycle_of u := (hash (openAIAutoResetCycleSeed u)).

(** What an evaluation that consumed leaves on record. *)
Lemma attempt_on_record id tr res o :
  runs (evaluate id) tr res -> executes tr o ->
  exists s, last_state tr = Some s /\ AttemptCycleHash s = ro_cycle_hash o /\
            AttemptCreditHash s = ro_credit_hash o.
Proof.
  intros Hr Ho. destruct (reset_justified _ _ _ _ _ _ _ _ Hr Ho)
    as (account & now & settings & usage & account' & settings' & credits & card & writes & account'' & reply
        & rest & Htr & _ & _ & _ & _ & _ & _ & Hoeq & _ & _ & _ & _ & _ & _ & Hk).
  assert (ro_cycle_hash o = shortOpenAIAutoResetHash sha256 (openAIAutoResetCycleSeed usage)) as Hc by by subst o.
  rewrite Htr, !last_state_app. destruct (last_state rest) as [s|] eqn:El.
  - exists s. split; [done|]. rewrite Hc. by eapply last_state_keeps.
  - eexists. split; [reflexivity|]. by rewrite Hc.
Qed.

Lemma order_made id tr res o :
  runs (evaluate id) tr res -> executes tr o ->
  (exists card cycle, o = order_of sha256 uuid_sha1 id card cycle) /\
  ro_credit o ∈ listed tr /\ ro_credit_hash o = hash (ro_credit o).
Proof.
  intros Hr Ho. destruct (reset_justified _ _ _ _ _ _ _ _ Hr Ho)
    as (account & now & settings & usage & account' & settings' & credits & card & writes & account'' & reply
        & rest & Htr & _ & _ & _ & _ & _ & _ & -> & Hin & _).
  split; [eauto|]. split; [|done]. rewrite Htr. unfold listed. cbn.
  apply list_elem_of_In. apply (in_map cand_ID). by apply list_elem_of_In.
Qed.

(** An evaluation that finds an attempt of the cycle on record consumes that
    card or none. *)
Lemma never_switches_card id account tr res o s :
  runs (evaluate id) tr res -> executes tr o -> account_read tr = Some account ->
  openAIAutoResetStateFromExtra (Extra account) = Some s ->
  AttemptCycleHash s = ro_cycle_hash o -> AttemptCreditHash s <> "" ->
  ro_credit_hash o = AttemptCreditHash s.
Proof.
  intros Hr Ho Ha Hs Hc Hne. destruct (reset_justified _ _ _ _ _ _ _ _ Hr Ho)
    as (account1 & now & settings & usage & account' & settings' & credits & card & writes & account'' & reply
        & rest' & Htr & _ & _ & _ & _ & _ & _ & Hoeq & _ & _ & _ & _ & Hh & _ & _).
  assert (account1 = account) as ->.
  { rewrite Htr in Ha. by injection Ha. }
  rewrite Hs in Hh. unfold attempted in Hh.
  assert (ro_cycle_hash o = shortOpenAIAutoResetHash sha256 (openAIAutoResetCycleSeed usage)) as Hcu by by subst o.
  rewrite Hc, Hcu in Hh. rewrite (bool_decide_true (_ = _)) in Hh by done.
  rewrite bool_decide_false in Hh by done. done.
Qed.

(** C14: two evaluations of one account in one cycle, the second starting from
    the state the first left: if both consume, the card ids they send are those
    of listed cards with the same hash, under the same key and with the same
    redeem id; so they are the same id, unless the 12-byte hash confuses a card
    listed to the first with another listed to the second. *)
Theorem same_cycle_same_order id tr1 res1 o1 tr2 res2 o2 account s :
  runs (evaluate id) tr1 res1 -> executes tr1 o1 ->
  runs (evaluate id) tr2 res2 -> executes tr2 o2 ->
  last_state tr1 = Some s -> account_read tr2 = Some account ->
  openAIAutoResetStateFromExtra (Extra account) = Some s ->
  ro_cycle_hash o1 = ro_cycle_hash o2 ->
  ro_credit o1 ∈ listed tr1 /\ ro_credit o2 ∈ listed tr2 /\
  hash (ro_credit o1) = hash (ro_credit o2) /\
  ro_credit_hash o1 = hash (ro_credit o1) /\ ro_credit_hash o2 = hash (ro_credit o2) /\
  ro_key o1 = ro_key o2 /\ ro_redeem o1 = ro_redeem o2 /\
  ((forall x y, x ∈ listed tr1 -> y ∈ listed tr2 -> hash x = hash y -> x = y) -> ro_credit o1 = ro_credit o2).
Proof.
  intros Hr1 Ho1 Hr2 Ho2 Hl Ha Hs Hc.
  destruct (attempt_on_record _ _ _ _ Hr1 Ho1) as (s' & Hl' & Hcy & Hcr).
  assert (s' = s) as -> by congruence.
  destruct (order_made _ _ _ _ Hr1 Ho1) as ((card1 & cy1 & Heq1) & Hl1 & E1).
  destruct (order_made _ _ _ _ Hr2 Ho2) as ((card2 & cy2 & Heq2) & Hl2 & E2).
  assert (ro_credit_hash o1 = ro_credit_hash o2) as Hcredit.
  { rewrite <- Hcr. symmetry. eapply (never_switches_card id account _ res2 o2 s Hr2 Ho2 Ha Hs); [congruence|].
    rewrite Hcr, E1. intros H. pose proof (hash_length sha256 digest_length (ro_credit o1)) as Hlen.
    by rewrite H in Hlen. }
  assert (hash (ro_credit o1) = hash (ro_credit o2)) as Hh by congruence.
  assert (ro_key o1 = ro_key o2 /\ ro_redeem o1 = ro_redeem o2) as [Hk Hrd]; [|by split_and!; auto].
  clear E1 E2 Hl1 Hl2. rewrite Heq1, Heq2 in *. simpl in *. by rewrite Hcredit, Hc.
Qed.

(** ** A card of an earlier cycle

    The failure of a selection stores the new cycle next to the card on record
    from before. *)

Lemma failState_trace id x code cause tr res :
  runs (failState id x code cause) tr res ->
  last_state tr = Some (failed_state x code match tr with existT Now now :: _ => now | _ => 0 end).
Proof.
  unfold failState. intros Hr. next_call Hr now tr1. next_call Hr e tr2.
  by destruct e; apply runs_Return in Hr as [-> _].
Qed.

(** A selection that fails for its details keeps the card on record. *)
Lemma incomplete_recorded id now usage checking state tr res s :
  runs (with_usage sha256 uuid_sha1 recoverer audit id now usage checking state) tr res ->
  (forall o, ~ executes tr o) -> last_state tr = Some s -> ErrorCode s = DetailsIncomplete ->
  AttemptCycleHash s = cycle_of usage /\ AttemptCreditHash s = AttemptCreditHash checking.
Proof.
  unfold with_usage. intros Hr Hno Hl Hc. apply runs_bind in Hr as (writes & e & tr1 & -> & Hw & Hr).
  pose proof (only_runs _ _ _ _ (only_fresh_usage id usage now) Hw) as Hwr.
  assert (last_state writes = None) as Hwn.
  { clear -Hwr. induction Hwr as [|[c r] l Hx _ IH]; [done|]. cbn. rewrite IH. by destruct c. }
  rewrite last_state_app, Hwn in Hl.
  assert (last_state tr1 = Some s) as Hl1 by (by destruct (last_state tr1)). clear Hl.
  destruct e as [err|]; [rewrite (failState_trace _ _ _ _ _ _ Hr) in Hl1; injection Hl1 as <-; by vm_compute in Hc|].
  destruct (RateLimitResetCredits usage) as [credits|];
    [|rewrite (failState_trace _ _ _ _ _ _ Hr) in Hl1; injection Hl1 as <-; by vm_compute in Hc].
  next_call Hr a tr2. destruct a as [[account|]|err]; [|by apply runs_Return in Hr as [-> _]..].
  cbv zeta in Hr. destruct (negb (rc_Enabled _)); [by apply runs_Return in Hr as [-> _]|].
  next_call Hr settings tr3. cbn in Hl1.
  assert (forall x e, runs (persistState id x) tr3 e -> last_state tr3 = Some x) as Hp.
  { intros x e' H. unfold persistState, ask in H. destruct H as (r' & tr' & -> & -> & _). done. }
  destruct (negb (resetReached _)); [rewrite (Hp _ _ Hr) in Hl1; injection Hl1 as <-; by vm_compute in Hc|].
  destruct (_ <=? 0); [rewrite (Hp _ _ Hr) in Hl1; injection Hl1 as <-; by vm_compute in Hc|].
  unfold consume in Hr. destruct (selectOpenAIAutoResetCandidate _ _ _ _ _) as [card|reason].
  - exfalso. cbv zeta in Hr. next_call Hr e tr4.
    assert (forall x, last_state [Ev (PersistState id x) e] = Some s -> ErrorCode x = "" -> False) as Hx
      by (cbn; intros x [= ->] E; by rewrite E in Hc).
    destruct e as [err|]; [apply runs_Return in Hr as [-> _]; by apply (Hx _ Hl1)|].
    next_call Hr a tr5. destruct a as [[account'|]|err];
      [|apply runs_Return in Hr as [-> _]; by apply (Hx _ Hl1)..].
    destruct (negb _); [apply runs_Return in Hr as [-> _]; by apply (Hx _ Hl1)|].
    next_call Hr reply tr6. eapply Hno. exists reply.
    apply elem_of_app. right. do 4 right. left.
  - rewrite (failState_trace _ _ _ _ _ _ Hr) in Hl1. by injection Hl1 as <-.
Qed.

(** C32: when an account whose state names a card of an earlier attempt is
    evaluated without consuming, and the failure stored is that of incomplete
    card details, the state then names the cycle of the usage read together
    with that earlier card; and from that state no evaluation in the same
    cycle consumes anything while no listed card has the earlier card's hash,
    however complete the details are and although nothing was consumed in the
    cycle. *)
Theorem earlier_card_blocks_cycle id tr1 res1 account1 before usage s :
  runs (evaluate id) tr1 res1 -> (forall o, ~ executes tr1 o) ->
  account_read tr1 = Some account1 -> openAIAutoResetStateFromExtra (Extra account1) = Some before ->
  AttemptCreditHash before <> "" -> usage_read tr1 = Some usage ->
  last_state tr1 = Some s -> ErrorCode s = DetailsIncomplete ->
  AttemptCycleHash s = cycle_of usage /\ AttemptCreditHash s = AttemptCreditHash before /\
  forall tr2 res2 account2 usage2 o,
    runs (evaluate id) tr2 res2 -> account_read tr2 = Some account2 ->
    openAIAutoResetStateFromExtra (Extra account2) = Some s ->
    usage_read tr2 = Some usage2 -> cycle_of usage2 = cycle_of usage ->
    (forall x, x ∈ listed tr2 -> hash x <> AttemptCreditHash before) -> ~ executes tr2 o.
Proof.
  intros Hr Hno Ha Hb Hne Hu Hl Hc.
  assert (AttemptCycleHash s = cycle_of usage /\ AttemptCreditHash s = AttemptCreditHash before) as [H1 H2].
  { unfold evaluateAccount in Hr. next_call Hr a tr2. destruct a as [[account|]|err];
      [|by apply runs_Return in Hr as [-> _]..]. injection Ha as ->.
    destruct (ParentAccountID account1); [next_call Hr u tr3; by apply runs_Return in Hr as [-> _]|].
    cbv zeta in Hr. destruct (_ || _); [by apply runs_Return in Hr as [-> _]|].
    next_call Hr now tr3. next_call Hr settings tr4. rewrite Hb in Hr.
    destruct (negb (needs_query _ _ _ _)).
    { exfalso. unfold close_state in Hr. destruct (_ && _); [|by apply runs_Return in Hr as [-> _]].
      destruct Hr as (e & tr' & -> & -> & _). cbn in Hl. injection Hl as <-. by vm_compute in Hc. }
    next_call Hr e tr5. destruct e as [err|].
    { exfalso. apply runs_Return in Hr as [-> _]. cbn in Hl. injection Hl as <-. by vm_compute in Hc. }
    next_call Hr q tr6. cbn in Hl.
    assert (forall x code cause, runs (failState id x code cause) tr6 res1 -> fail_code code <> DetailsIncomplete -> False) as Hfail.
    { intros x code cause H Hcode. rewrite (failState_trace _ _ _ _ _ _ H) in Hl. injection Hl as <-. by apply Hcode. }
    destruct q as [[u|]|err]; [|exfalso; eapply Hfail; [exact Hr|by vm_compute]..].
    cbn in Hu. injection Hu as ->.
    destruct (last_state tr6) as [s'|] eqn:El; [injection Hl as ->|exfalso; injection Hl as <-; by vm_compute in Hc].
    destruct (incomplete_recorded _ _ _ _ _ _ _ s Hr) as [E1 E2]; [|done..|by split].
    intros o [r' Hin]. apply (Hno o). exists r'. do 5 right. exact Hin. }
  split_and!; [done..|]. intros tr2 res2 account2 usage2 o Hr2 Ha2 Hs2 Hu2 Hcy Hlisted Ho.
  destruct (order_made _ _ _ _ Hr2 Ho) as (_ & Hin & Hh). apply (Hlisted _ Hin). rewrite <- Hh, <- H2.
  apply (never_switches_card id account2 tr2 res2 o s); try done; [|congruence].
  destruct (reset_justified _ _ _ _ _ _ _ _ Hr2 Ho)
    as (account & now & settings & usage' & account' & settings' & credits & card & writes & account'' & reply
        & rest & Htr & _ & _ & _ & _ & _ & _ & -> & _).
  rewrite Htr in Hu2. cbn in Hu2. injection Hu2 as <-. cbn [order_of ro_cycle_hash]. congruence.
Qed.

End OneCard.

(** ** A concrete account

    One OAuth account with the switch on, and an upstream whose answers are a
    list. *)

Module Sample.
#[export] Instance local_zone : LocalZone := FixedZone 28800.

Definition sha256 (s : string) : string :=
  Strings.String.substring 0 32 (s +:+ "00000000000000000000000000000000").

Lemma digest_length s : Strings.String.length (sha256 s) = 32%nat.
Proof. apply substring_length. rewrite string_length_app. simpl. lia. Qed.

Definition account : Account :=
  mkAccount 7 PlatformOpenAI AccountTypeOAuth None
    (Some {[OpenAIAutoResetCreditEnabledExtraKey := ABool true]}) 1 1 None None StatusActive None
    false true None None None None None None "" None [].

Definition week (used : Z) (resetAt : Z) : option OpenAIRateLimit :=
  Some (mkRateLimit (Some (mkWindow (f64_of_Z used) 604800 3600 resetAt)) None).

Definition card_A := mkCandidate "card-A" "2025-02-01T00:00:00Z".
Definition card_B := mkCandidate "card-B" "2025-03-01T00:00:00Z".

Definition usage (used resetAt available : Z) (cards : list openAIAutoResetCreditCandidate) : OpenAIQuotaUsage :=
  mkUsage (week used resetAt) (Some (mkCredits available (map cand_ExpiresAt cards))) 0 cards.

(** The account row, the answers to come and the clock. *)
Record state := mkState { row : Account; answers : list OpenAIQuotaUsage; clock : time }.

Definition with_extra (a : Account) (e : anymap) : Account :=
  mkAccount (ID a) (Platform a) (AType a) (Credentials a) e (Concurrency a) (Priority a) (RateMultiplier a)
    (LoadFactor a) (Status a) (ExpiresAt a) (AutoPauseOnExpired a) (Schedulable a) (RateLimitResetAt a)
    (OverloadUntil a) (TempUnschedulableUntil a) (SessionWindowStart a) (SessionWindowEnd a)
    (ParentAccountID a) (QuotaDimension a) (LastUsedAt a) (AccountGroups a).

Definition put (w : state) (m : gmap string any) : state :=
  mkState (with_extra (row w) (Some (m ∪ default ∅ (Extra (row w))))) (answers w) (clock w).

Definition env (c : reset_call) (w : state) : reset_reply c * state :=
  match c return reset_reply c * state with
  | Now => (clock w, w)
  | PauseSettings => (no_pause_settings, w)
  | GetByID _ => (Ok (Some (row w)), w)
  | UpdateExtra _ m => (None, put w m)
  | PersistState _ s => (None, put w {[OpenAIAutoResetCreditStateExtraKey := state_json s]})
  | QueryUsage _ => match answers w with
                    | [] => (Err "OPENAI_QUOTA_REQUEST_FAILED", w)
                    | u :: us => (Ok (Some u), mkState (row w) us (clock w))
                    end
  | Execute _ => (Ok (mkConsume "reset" 1), w)
  | RecoverAccountState _ => (None, w)
  | Audit _ _ _ _ _ => (tt, w)
  | Notify _ => (tt, w)
  end.

Definition program := evaluateAccount sha256 (fun s => "uuid:" +:+ s) true true 7.

Definition run (w : state) : option string * list (event reset_reply) :=
  default (None, []) (exec env w program).

(** The state after a trace, an hour or a day later. *)
Definition later (w : state) (d : duration) (us : list OpenAIQuotaUsage) : state :=
  let w' := foldl (fun w e => (env (projT1 e) w).2) w (run w).2 in
  mkState (row w') us (clock w' + d).

Definition order_in (tr : list (event reset_reply)) : option reset_order :=
  foldr (fun e acc => match projT1 e with Execute o => Some o | _ => acc end) None tr.

Lemma order_in_executes tr o : order_in tr = Some o -> executes tr o.
Proof.
  induction tr as [|[c r] tr IH]; simpl; [done|]. intros H.
  assert (order_in tr = Some o -> executes (Ev c r :: tr) o) as Hl.
  { intros H'. destruct (IH H') as [r' Hr]. exists r'. by right. }
  destruct c; try by apply Hl. injection H as ->. exists r. by left.
Qed.

(** The week of the first cycle is used up; two cards are there. *)
Definition start : state :=
  mkState account [usage 100 100 2 [card_B; card_A]; usage 0 100 1 [card_B]] (of_unix 1735689600).

(** The same cycle seen again, the card still listed: as after a consumption
    whose answer was lost. *)
Definition again : state := later start hour [usage 100 100 2 [card_B; card_A]].

(** The next cycle: first the details come incomplete, then in full. *)
Definition next_cycle : state := later start (24 * hour) [usage 100 200 2 [card_B]].
Definition full_details : state := later next_cycle hour [usage 100 200 1 [card_B]].

Definition ends (w : state) : bool := match exec env w program with Some _ => true | None => false end.

Lemma runs_sample w : ends w = true -> runs program (run w).2 (run w).1.
Proof.
  unfold ends, run. intros H. destruct (exec env w program) as [[a tr]|] eqn:E; [|done].
  by eapply exec_runs.
Qed.

Definition is_some {A} (o : option A) : bool := match o with Some _ => true | None => false end.

Lemma is_some_Some {A} (o : option A) : is_some o = true -> exists a, o = Some a.
Proof. destruct o; [eauto|done]. Qed.
End Sample.

(** After a card was consumed in one cycle, the details come incomplete early in
    the next and then in full: the remaining card is refused; without the
    failure it is chosen. *)
Lemma earlier_card_blocks_cycle_witness :
  let r1 := Sample.run Sample.next_cycle in
  let r2 := Sample.run Sample.full_details in
  r1.1 = Some DetailsIncomplete /\ r2.1 = Some OriginalUnavailable /\ (forall o, ~ executes r2.2 o) /\
  selectOpenAIAutoResetCandidate Sample.sha256 [Sample.card_B] 1 (last_state (Sample.run Sample.start).2)
    (shortOpenAIAutoResetHash Sample.sha256 (openAIAutoResetCycleSeed (Sample.usage 100 200 1 [Sample.card_B]))) =
    Ok Sample.card_B.
Proof.
  cbv zeta. set (r1 := Sample.run Sample.next_cycle). set (r2 := Sample.run Sample.full_details).
  split; [by vm_compute|]. split; [by vm_compute|]. split; [|by vm_compute].
  assert (Hr1 : runs Sample.program r1.2 r1.1) by (apply Sample.runs_sample; vm_compute; reflexivity).
  assert (Hr2 : runs Sample.program r2.2 r2.1) by (apply Sample.runs_sample; vm_compute; reflexivity).
  assert (exists s, last_state r1.2 = Some s) as [s Hs] by (apply Sample.is_some_Some; vm_compute; reflexivity).
  assert (exists b, openAIAutoResetStateFromExtra (Extra (Sample.row Sample.next_cycle)) = Some b) as [b Hb]
    by (apply Sample.is_some_Some; vm_compute; reflexivity).
  assert (AttemptCreditHash <$> openAIAutoResetStateFromExtra (Extra (Sample.row Sample.next_cycle)) =
            Some (shortOpenAIAutoResetHash Sample.sha256 "card-A")) as Hcard by (by vm_compute).
  rewrite Hb in Hcard. injection Hcard as Hcard.
  assert (ErrorCode <$> last_state r1.2 = Some DetailsIncomplete) as Hcode by (by vm_compute).
  rewrite Hs in Hcode. injection Hcode as Hcode.
  assert (openAIAutoResetStateFromExtra (Extra (Sample.row Sample.full_details)) = last_state r1.2) as Hx
    by (vm_compute; reflexivity).
  rewrite Hs in Hx.
  assert (forall o, ~ executes r1.2 o) as Hno.
  { intros o. apply no_execute_trace. vm_compute. repeat constructor. }
  destruct (earlier_card_blocks_cycle Sample.sha256 (fun s => "uuid:" +:+ s) true true 7 r1.2 r1.1
    (Sample.row Sample.next_cycle) b (Sample.usage 100 200 2 [Sample.card_B]) s Hr1 Hno) as (_ & _ & H);
    [by vm_compute|exact Hb|by rewrite Hcard|by vm_compute|exact Hs|exact Hcode|].
  intros o. apply (H r2.2 r2.1 (Sample.row Sample.full_details) (Sample.usage 100 200 1 [Sample.card_B]) o Hr2);
    [by vm_compute|exact Hx|by vm_compute|by vm_compute|].
  assert (listed r2.2 = ["card-B"]) as Hlisted by (vm_compute; reflexivity).
  rewrite Hcard, Hlisted. intros x ->%list_elem_of_singleton Hh. vm_compute in Hh. discriminate Hh.
Defined.

Lemma reset_justified_witness :
  let r := Sample.run Sample.start in
  let cycle := shortOpenAIAutoResetHash Sample.sha256 (openAIAutoResetCycleSeed (Sample.usage 100 100 2 [Sample.card_B; Sample.card_A])) in
  let o := order_of Sample.sha256 (fun s => "uuid:" +:+ s) 7 Sample.card_A cycle in
  exists account'' reply, Ev (GetByID 7) (Ok (Some account'')) ∈ r.2 /\ Ev (Execute o) reply ∈ r.2 /\
    rc_Enabled (ResolveOpenAIAutoResetCreditConfig account'') = true.
Proof.
  set (r := Sample.run Sample.start).
  set (cycle := shortOpenAIAutoResetHash Sample.sha256 (openAIAutoResetCycleSeed (Sample.usage 100 100 2 [Sample.card_B; Sample.card_A]))).
  set (o := order_of Sample.sha256 (fun s => "uuid:" +:+ s) 7 Sample.card_A cycle).
  assert (Hr : runs Sample.program r.2 r.1) by (apply Sample.runs_sample; vm_compute; reflexivity).
  assert (Ho : executes r.2 o) by (apply Sample.order_in_executes; vm_compute; reflexivity).
  destruct (reset_justified Sample.sha256 (fun s => "uuid:" +:+ s) true true 7 r.2 r.1 o Hr Ho)
    as (account & now & settings & usage & account' & settings' & credits & card & writes & account'' & reply
        & rest & Htr & _ & _ & He & _).
  exists account'', reply. rewrite Htr. split_and!; [|..|done].
  - apply elem_of_app; right. apply elem_of_app; right. apply elem_of_app; left. do 3 right. left.
  - apply elem_of_app; right. apply elem_of_app; right. apply elem_of_app; left. do 4 right. left.
Defined.

Lemma attempt_key_witness :
  let h := shortOpenAIAutoResetHash Sample.sha256 in
  NormalizeIdempotencyKey (stable_key 7 (h "card-A") (h "5h:0|7d:100")) =
    Ok (stable_key 7 (h "card-A") (h "5h:0|7d:100")) /\
  stable_key 7 (h "card-A") (h "5h:0|7d:100") <> stable_key 7 (h "card-B") (h "5h:0|7d:100").
Proof.
  assert (0 < 7 <= int64_max) as H7 by (unfold int64_max; lia).
  destruct (attempt_key Sample.sha256 Sample.digest_length 7 7 "card-A" "card-B" "5h:0|7d:100" "5h:0|7d:100" H7 H7)
    as [Hn Hi].
  split; [exact Hn|]. intros H. destruct (Hi H) as (_ & Hh & _). vm_compute in Hh. discriminate Hh.
Defined.

Lemma same_cycle_same_order_witness :
  let r1 := Sample.run Sample.start in
  let r2 := Sample.run Sample.again in
  exists o1 o2, Sample.order_in r1.2 = Some o1 /\ Sample.order_in r2.2 = Some o2 /\
    ro_redeem o1 = ro_redeem o2 /\ ro_credit o1 = ro_credit o2.
Proof.
  set (r1 := Sample.run Sample.start). set (r2 := Sample.run Sample.again).
  assert (exists o1, Sample.order_in r1.2 = Some o1) as [o1 E1] by (apply Sample.is_some_Some; vm_compute; reflexivity).
  assert (exists o2, Sample.order_in r2.2 = Some o2) as [o2 E2] by (apply Sample.is_some_Some; vm_compute; reflexivity).
  exists o1, o2. split; [done|]. split; [done|].
  assert (Hr1 : runs Sample.program r1.2 r1.1) by (apply Sample.runs_sample; vm_compute; reflexivity).
  assert (Hr2 : runs Sample.program r2.2 r2.1) by (apply Sample.runs_sample; vm_compute; reflexivity).
  assert (exists s, last_state r1.2 = Some s) as [s Hs] by (apply Sample.is_some_Some; vm_compute; reflexivity).
  assert (openAIAutoResetStateFromExtra (Extra (Sample.row Sample.again)) = last_state r1.2) as Hx
    by (vm_compute; reflexivity).
  rewrite Hs in Hx.
  assert (ro_cycle_hash <$> Sample.order_in r1.2 = ro_cycle_hash <$> Sample.order_in r2.2) as Hc
    by (vm_compute; reflexivity).
  rewrite E1, E2 in Hc. injection Hc as Hc.
  destruct (same_cycle_same_order Sample.sha256 (fun s => "uuid:" +:+ s) true true Sample.digest_length
    7 r1.2 r1.1 o1 r2.2 r2.1 o2 (Sample.row Sample.again) s Hr1) as (_ & _ & _ & _ & _ & _ & Hrd & Hcr).
  - by apply Sample.order_in_executes.
  - exact Hr2.
  - by apply Sample.order_in_executes.
  - exact Hs.
  - vm_compute. reflexivity.
  - exact Hx.
  - exact Hc.
  - split; [exact Hrd|]. apply Hcr.
    assert (listed r1.2 = ["card-B"; "card-A"]) as -> by (vm_compute; reflexivity).
    assert (listed r2.2 = ["card-B"; "card-A"]) as -> by (vm_compute; reflexivity).
    assert (shortOpenAIAutoResetHash Sample.sha256 "card-A" <> shortOpenAIAutoResetHash Sample.sha256 "card-B") as Hn
      by (intros H; vm_compute in H; discriminate H).
    intros x y. rewrite !elem_of_cons, !elem_of_nil. intros [->|[->|[]]] [->|[->|[]]] H; congruence.
Defined.
