(* ===== verification/OpenAIResetQueue.v ===== *)
(** * The queue of the automatic reset

    [Notify], the workers and [Stop] of [OpenAIQuotaAutoResetService]: the set
    [pending] and the channel [queue], with the steps of concurrent notifiers
    and workers interleaved.  A notifier is between its [LoadOrStore] and its
    [select] while its account is in [sending]. *)

From S2P Require Import Prelude.
Local Open Scope Z_scope.

Definition openAIAutoResetQueueCapacity : nat := 1024.
Definition openAIAutoResetWorkerCount : nat := 4.

Record service := mkService {
  pending : gset Z;
  sending : list Z;
  queue : list Z;
  working : list Z;
  cancelled : bool;
}.

(** The first occurrence taken out. *)
Fixpoint take_out (id : Z) (l : list Z) : list Z :=
  match l with [] => [] | x :: l => if x =? id then l else x :: take_out id l end.

(** [Notify] up to the [select]: an account already pending is left to the
    task that is under way. *)
Definition notify_begin (id : Z) (s : service) : service :=
  if id <=? 0 then s
  else if bool_decide (id ∈ pending s) then s
  else mkService ({[id]} ∪ pending s) (sending s ++ [id]) (queue s) (working s) (cancelled s).

(** The [select] of [Notify]: [send] says which case is taken when both
    could be. *)
Definition notify_select (id : Z) (send : bool) (s : service) : service :=
  let room := (length (queue s) <? openAIAutoResetQueueCapacity)%nat in
  if room && (send || negb (cancelled s))
  then mkService (pending s) (take_out id (sending s)) (queue s ++ [id]) (working s) (cancelled s)
  else mkService (pending s ∖ {[id]}) (take_out id (sending s)) (queue s) (working s) (cancelled s).

(** A free worker receives. *)
Definition worker_receive (s : service) : service :=
  match queue s with
  | id :: q =>
      if (length (working s) <? openAIAutoResetWorkerCount)%nat
      then mkService (pending s) (sending s) q (working s ++ [id]) (cancelled s) else s
  | [] => s
  end.

(** [evaluateAccount] has returned. *)
Definition worker_finish (id : Z) (s : service) : service :=
  mkService (pending s ∖ {[id]}) (sending s) (queue s) (take_out id (working s)) (cancelled s).

Definition stop (s : service) : service :=
  mkService (pending s) (sending s) (queue s) (working s) true.

Definition idle : service := mkService ∅ [] [] [] false.

Inductive step : service -> service -> Prop :=
| step_begin s id : step s (notify_begin id s)
| step_select s id send : id ∈ sending s -> step s (notify_select id send s)
| step_receive s : step s (worker_receive s)
| step_finish s id : id ∈ working s -> step s (worker_finish id s)
| step_stop s : step s (stop s).

(** ** The invariant *)

Definition tasks (s : service) : list Z := sending s ++ queue s ++ working s.

Record inv (s : service) : Prop := {
  inv_pending : forall id, id ∈ pending s <-> id ∈ tasks s;
  inv_once : NoDup (tasks s);
  inv_positive : Forall (fun id => 0 < id) (tasks s);
  inv_capacity : (length (queue s) <= openAIAutoResetQueueCapacity)%nat;
  inv_workers : (length (working s) <= openAIAutoResetWorkerCount)%nat;
}.

Lemma take_out_perm id l : id ∈ l -> l ≡ₚ id :: take_out id l.
Proof.
  induction l as [|x l IH]; simpl; [by intros H%elem_of_nil|].
  destruct (Z.eqb_spec x id) as [-> |Hx]; [done|].
  intros [-> |Hin]%elem_of_cons; [done|]. by rewrite IH at 1 by done; rewrite perm_swap.
Qed.

Lemma take_out_length id l : id ∈ l -> length l = S (length (take_out id l)).
Proof. intros H. by rewrite (take_out_perm id l H) at 1. Qed.

(** The invariant depends on the tasks up to their order. *)
Lemma inv_perm s s' :
  inv s -> pending s' = pending s -> tasks s' ≡ₚ tasks s ->
  (length (queue s') <= openAIAutoResetQueueCapacity)%nat ->
  (length (working s') <= openAIAutoResetWorkerCount)%nat -> inv s'.
Proof.
  intros [Hp Ho Hpos _ _] Hpe Ht Hc Hw. split; [|by rewrite Ht..|done|done].
  intros id. by rewrite Hpe, Hp, Ht.
Qed.

(** A task that ends. *)
Lemma inv_end s s' id :
  inv s -> tasks s ≡ₚ id :: tasks s' -> pending s' = pending s ∖ {[id]} ->
  (length (queue s') <= openAIAutoResetQueueCapacity)%nat ->
  (length (working s') <= openAIAutoResetWorkerCount)%nat -> inv s'.
Proof.
  intros [Hp Ho Hpos _ _] Ht Hpe Hc Hw. rewrite Ht in Ho. apply NoDup_cons in Ho as [Hid Ho].
  rewrite Ht in Hpos. apply Forall_cons in Hpos as [_ Hpos]. split; [|done..].
  intros x. rewrite Hpe, elem_of_difference, elem_of_singleton, Hp, Ht, elem_of_cons. split; [tauto|].
  intros Hx. split; [by right|]. by intros ->.
Qed.

Lemma queue_step_inv s s' : inv s -> step s s' -> inv s'.
Proof.
  intros Hinv Hs. pose proof (inv_capacity s Hinv) as Hc. pose proof (inv_workers s Hinv) as Hw.
  destruct Hs as [s id|s id send Hin|s|s id Hin|s].
  - unfold notify_begin. destruct (Z.leb_spec id 0); [done|]. destruct (bool_decide_reflect (id ∈ pending s)) as [|Hn]; [done|].
    destruct Hinv as [Hp Ho Hpos _ _]. rewrite Hp in Hn.
    assert (forall s', s' = mkService ({[id]} ∪ pending s) (sending s ++ [id]) (queue s) (working s) (cancelled s) ->
              tasks s' ≡ₚ id :: tasks s) as Ht.
    { intros s' ->. unfold tasks. simpl. rewrite <- app_assoc. simpl. by rewrite <- Permutation_middle. }
    specialize (Ht _ eq_refl). split; [|by rewrite Ht; constructor..|done|done].
    intros x. simpl. rewrite Ht, elem_of_union, elem_of_singleton, elem_of_cons, Hp. done.
  - unfold notify_select. pose proof (take_out_perm id (sending s) Hin) as Ht.
    destruct (Nat.ltb_spec (length (queue s)) openAIAutoResetQueueCapacity) as [Hlt|Hge]; cbn [andb];
      [destruct (send || negb (cancelled s))|].
    + apply (inv_perm s); [done|done| |simpl; rewrite length_app; simpl; lia|done].
      unfold tasks. simpl. rewrite Ht at 2. rewrite <- app_assoc. simpl. by rewrite <- Permutation_middle, app_comm_cons, Permutation_middle.
    + apply (inv_end s _ id); [done|unfold tasks; simpl; by rewrite Ht at 1|done..].
    + apply (inv_end s _ id); [done|unfold tasks; simpl; by rewrite Ht at 1|done..].
  - unfold worker_receive. destruct (queue s) as [|id q] eqn:Eq; [done|].
    destruct (Nat.ltb_spec (length (working s)) openAIAutoResetWorkerCount); [|done].
    apply (inv_perm s); [done|done| |simpl in *; lia|simpl; rewrite length_app; simpl; lia].
    unfold tasks. simpl. rewrite Eq. rewrite (Permutation_app_comm (working s) [id]). simpl.
    by rewrite <- (Permutation_middle q).
  - pose proof (take_out_perm id (working s) Hin) as Ht. pose proof (take_out_length id (working s) Hin).
    apply (inv_end s _ id); [done| |done|done|simpl; lia].
    unfold tasks. simpl. rewrite Ht at 1. by rewrite <- !Permutation_middle.
  - by apply (inv_perm s).
Qed.

Lemma idle_inv : inv idle.
Proof.
  split; simpl; try apply NoDup_nil_2; try constructor; try lia; intros H; try set_solver.
Qed.

(** C31: however notifiers, workers and shutdown interleave: an account is in at
    most one place, a notifier's hands, the queue or a worker's, so it is never
    evaluated twice at the same time; it is marked pending exactly while it is
    in one of them, so a later signal is never swallowed by a stale mark; and
    the queue and the workers stay within their numbers. *)
Theorem reset_queue_safe s :
  rtc step idle s ->
  NoDup (sending s ++ queue s ++ working s) /\
  (forall id, id ∈ pending s <-> id ∈ sending s ++ queue s ++ working s) /\
  (length (queue s) <= openAIAutoResetQueueCapacity)%nat /\
  (length (working s) <= openAIAutoResetWorkerCount)%nat.
Proof.
  intros Hr. assert (inv s) as [Hp Ho _ Hc Hw]; [|by split_and!].
  generalize idle_inv. induction Hr as [|s s1 s2 Hs _ IH]; [done|]. intros Hi. by eapply IH, queue_step_inv.
Qed.

Lemma reset_queue_safe_witness :
  let s := worker_receive (notify_select 7 false (notify_begin 7 (notify_begin 7 idle))) in
  working s = [7] /\ NoDup (sending s ++ queue s ++ working s).
Proof.
  intros s. split; [reflexivity|]. apply (reset_queue_safe s).
  eapply rtc_l; [apply (step_begin _ 7)|]. eapply rtc_l; [apply (step_begin _ 7)|].
  eapply rtc_l; [apply (step_select _ 7 false)|].
  { vm_compute. left. }
  eapply rtc_l; [apply step_receive|]. apply rtc_refl.
Defined.
