(* ===== verification/OpenAIRanking.v ===== *)
(** * The OpenAI account scheduler: scores and orders

    The pure part of [openai_account_scheduler.go]: what it remembers of each
    account, the score of a candidate, the choice of the best few with a heap,
    the weighted order among them, and the order in which accounts are tried.

    Scores are binary64 values.  [math.Log] and [math.Exp], and the rate an
    upstream declared, are arguments. *)

From S2P Require Import Prelude GoSort GoStrings Float64 GoTime GoAny Account Idempotency ConcurrencyCache OpenAIQuota.
Local Open Scope Z_scope.

(** ** What is remembered of an account *)

(** [ttft] is NaN until the first report. *)
Record openAIAccountRuntimeStat := mkStat { errorRateEWMA : f64; ttftEWMA : f64 }.

Definition openAIAccountRuntimeStats : Type := gmap Z openAIAccountRuntimeStat.

Definition f_nan : f64 := S754_nan.

Definition alpha : f64 := f64_of_ratio false 1 5.

(** The loop around [CompareAndSwap] stores this of the value it replaces. *)
Definition updateEWMAAtomic (oldValue sample alpha : f64) : f64 :=
  fadd (fmul alpha sample) (fmul (fsub f1 alpha) oldValue).

(** The loop over the first-token times, where [alpha] and [1-alpha] are
    constants, each rounded once. *)
Definition update_ttft (oldValue ttft : f64) : f64 :=
  if f_is_nan oldValue then ttft
  else fadd (fmul alpha ttft) (fmul (f64_of_ratio false 4 5) oldValue).

Definition loadOrCreate (accountID : Z) (s : openAIAccountRuntimeStats) : openAIAccountRuntimeStat :=
  default (mkStat f0 f_nan) (s !! accountID).

Definition report (accountID : Z) (success : bool) (firstTokenMs : option Z) (s : openAIAccountRuntimeStats)
    : openAIAccountRuntimeStats :=
  if accountID <=? 0 then s
  else
    let stat := loadOrCreate accountID s in
    let errorRate := updateEWMAAtomic (errorRateEWMA stat) (if success then f0 else f1) alpha in
    let ttft := match firstTokenMs with
                | Some ms => if 0 <? ms then update_ttft (ttftEWMA stat) (f64_of_Z ms) else ttftEWMA stat
                | None => ttftEWMA stat
                end in
    <[accountID := mkStat errorRate ttft]> s.

(** [(errorRate, ttft, hasTTFT)]. *)
Definition snapshot (accountID : Z) (s : openAIAccountRuntimeStats) : f64 * f64 * bool :=
  if accountID <=? 0 then (f0, f0, false)
  else match s !! accountID with
       | None => (f0, f0, false)
       | Some stat =>
           let errorRate := clamp01 (errorRateEWMA stat) in
           if f_is_nan (ttftEWMA stat) then (errorRate, f0, false) else (errorRate, ttftEWMA stat, true)
       end.

(** ** Escaping a sticky account *)

Record openAIStickyEscapeConfig := mkEscape { enabled : bool; ttftMs : f64; cfg_errorRate : f64 }.

Record GatewayOpenAISchedulerConfig := mkSchedulerConfig {
  StickyEscapeEnabled : bool;
  StickyEscapeTTFTMs : Z;
  StickyEscapeErrorRate : f64;
}.

(** [OpenAIGatewayService.openAIStickyEscapeConfig]; [None] without a
    configuration. *)
Definition stickyEscapeConfig (cfg : option GatewayOpenAISchedulerConfig) : openAIStickyEscapeConfig :=
  match cfg with
  | None => mkEscape true (f64_of_Z 15000) f_half
  | Some c =>
      let unset := (StickyEscapeTTFTMs c =? 0) && feqb (StickyEscapeErrorRate c) f0 in
      let ms := f64_of_Z (StickyEscapeTTFTMs c) in
      let rate := if fltb (StickyEscapeErrorRate c) f0 || fltb f1 (StickyEscapeErrorRate c)
                  then f_half else StickyEscapeErrorRate c in
      mkEscape (StickyEscapeEnabled c || unset) (if fleb ms f0 then f64_of_Z 15000 else ms)
        (if feqb rate f0 && unset then f_half else rate)
  end.

(** The reason to leave the account. *)
Definition shouldEscapeStickyAccount (stats : openAIAccountRuntimeStats) (accountID : Z)
    (cfg : openAIStickyEscapeConfig) : option string :=
  if negb (enabled cfg) || (accountID <=? 0) then None
  else let '(errorRate, ttft, hasTTFT) := snapshot accountID stats in
       if hasTTFT && fltb (ttftMs cfg) ttft then Some "ttft"
       else if fltb (cfg_errorRate cfg) errorRate then Some "error_rate"
       else None.

(** ** The probe budget *)

Definition openAIAccountSelectionProbeLimit : Z := 64.

Record openAISelectionProbeBudget := mkBudget {
  acquires : Z;
  rechecks : Z;
  attempted : gset Z;
  limited : bool;
}.

Definition newOpenAISelectionProbeBudget : openAISelectionProbeBudget := mkBudget 0 0 ∅ false.

Definition enableLimit (b : openAISelectionProbeBudget) : openAISelectionProbeBudget :=
  mkBudget (acquires b) (rechecks b) (attempted b) true.

Definition recordAcquire (accountID : Z) (b : openAISelectionProbeBudget) : bool * openAISelectionProbeBudget :=
  if negb (limited b) then (true, b)
  else if openAIAccountSelectionProbeLimit <=? acquires b then (false, b)
  else (true, mkBudget (acquires b + 1) (rechecks b) ({[accountID]} ∪ attempted b) (limited b)).

Definition recordRecheck (b : openAISelectionProbeBudget) : bool * openAISelectionProbeBudget :=
  if negb (limited b) then (true, b)
  else if openAIAccountSelectionProbeLimit <=? rechecks b then (false, b)
  else (true, mkBudget (acquires b) (rechecks b + 1) (attempted b) (limited b)).

Definition acquireExhausted (b : openAISelectionProbeBudget) : bool :=
  limited b && (openAIAccountSelectionProbeLimit <=? acquires b).

Definition wasAttempted (accountID : Z) (b : openAISelectionProbeBudget) : bool :=
  bool_decide (accountID ∈ attempted b).

(** ** Candidates *)

Record openAIAccountCandidateScore := mkCandidate {
  account : Account;
  loadInfo : LoadInfo;
  loadKnown : bool;
  score : f64;
  priority : Z;
  errorRate : f64;
  ttft : f64;
  hasTTFT : bool;
}.

Definition with_score (c : openAIAccountCandidateScore) (s : f64) : openAIAccountCandidateScore :=
  mkCandidate (account c) (loadInfo c) (loadKnown c) s (Priority (account c)) (errorRate c) (ttft c) (hasTTFT c).

Definition isOpenAIAccountCandidateBetter (left right : openAIAccountCandidateScore) : bool :=
  if negb (feqb (score left) (score right)) then fltb (score right) (score left)
  else if negb (Priority (account left) =? Priority (account right))
  then Priority (account left) <? Priority (account right)
  else if negb (LoadRate (loadInfo left) =? LoadRate (loadInfo right))
  then LoadRate (loadInfo left) <? LoadRate (loadInfo right)
  else if negb (WaitingCount (loadInfo left) =? WaitingCount (loadInfo right))
  then WaitingCount (loadInfo left) <? WaitingCount (loadInfo right)
  else ID (account left) <? ID (account right).

(** [Less] of the heap, whose root is the worst. *)
Definition heap_less (x y : openAIAccountCandidateScore) : bool := isOpenAIAccountCandidateBetter y x.

(** One round of the loop: the heap of the [topK] best so far. *)
Definition offer (topK : nat) (best : list openAIAccountCandidateScore) (candidate : openAIAccountCandidateScore)
    : list openAIAccountCandidateScore :=
  if (length best <? topK)%nat then heap_Push heap_less best candidate
  else match best !! 0%nat with
       | Some root => if isOpenAIAccountCandidateBetter candidate root
                      then heap_Fix heap_less (<[0%nat := candidate]> best) 0 else best
       | None => best
       end.

(** [sort.Slice] of the candidates: between distinct accounts with scores the
    comparison never ties, so that every sort gives the same list. *)
Definition sort_candidates : list openAIAccountCandidateScore -> list openAIAccountCandidateScore :=
  SliceStable isOpenAIAccountCandidateBetter.

Definition selectTopKOpenAICandidates (candidates : list openAIAccountCandidateScore) (topK : Z)
    : list openAIAccountCandidateScore :=
  match candidates with
  | [] => []
  | _ =>
      let topK := if topK <=? 0 then 1 else topK in
      if Z.of_nat (length candidates) <=? topK then sort_candidates candidates
      else sort_candidates (foldl (offer (Z.to_nat topK)) [] candidates)
  end.

(** ** The weighted order *)

Definition uint64 (n : Z) : Z := n mod 2 ^ 64.

Definition newOpenAISelectionRNG (seed : Z) : Z := if seed =? 0 then 11400714819323198485 else seed.

(** The new state and the number drawn. *)
Definition nextUint64 (state : Z) : Z * Z :=
  let x := Z.lxor state (Z.shiftr state 12) in
  let x := Z.lxor x (uint64 (Z.shiftl x 25)) in
  let x := Z.lxor x (Z.shiftr x 27) in
  (x, uint64 (x * 2685821657736338717)).

Definition nextFloat64 (state : Z) : Z * f64 :=
  let '(state, n) := nextUint64 state in
  (state, fdiv (f64_of_Z (Z.shiftr n 11)) (f64_of_Z (2 ^ 53))).

(** FNV-1a. *)
Definition fnv_write (s : string) (h : Z) : Z :=
  foldl (fun h c => uint64 (Z.lxor h (Z.of_nat (Ascii.nat_of_ascii c)) * 1099511628211)) h
    (list_ascii_of_string s).

Definition write_value (value : string) (h : Z) : Z :=
  let trimmed := TrimSpace value in
  if trimmed ==? "" then h else fnv_write (bytes [0%nat]) (fnv_write trimmed h).

(** What the seed is derived from. *)
Record seed_request := mkSeedRequest {
  SessionHash : string;
  PreviousResponseID : string;
  RequestedModel : string;
  GroupID : option Z;
}.

(** [now] and [now'] are the two readings of the clock. *)
Definition deriveOpenAISelectionSeed (req : seed_request) (now now' : time) : Z :=
  let h := write_value (RequestedModel req)
             (write_value (PreviousResponseID req) (write_value (SessionHash req) 14695981039346656037)) in
  let h := match GroupID req with Some g => fnv_write (FormatInt g) h | None => h end in
  let seed := if (TrimSpace (SessionHash req) ==? "") && (TrimSpace (PreviousResponseID req) ==? "")
              then Z.lxor h (uint64 now) else h in
  if seed =? 0 then Z.lxor (uint64 now') 11400714819323198485 else seed.

(** A score moved into the positive range. *)
Definition selection_weight (minScore s : f64) : f64 :=
  let weight := fadd (fsub s minScore) f1 in
  if f_is_nan weight || f_is_inf weight || fleb weight f0 then f1 else weight.

Definition min_score (first : f64) (rest : list openAIAccountCandidateScore) : f64 :=
  foldl (fun m c => if fltb (score c) m then score c else m) first rest.

(** The first index whose running total reaches [r]; 0 when none does. *)
Fixpoint reach (r acc : f64) (i : nat) (ws : list f64) : nat :=
  match ws with
  | [] => 0%nat
  | w :: ws => let acc := fadd acc w in if fleb r acc then i else reach r acc (S i) ws
  end.

(** The index drawn and the new state. *)
Definition draw (state : Z) (ws : list f64) : nat * Z :=
  let total := foldl fadd f0 ws in
  if fltb f0 total then
    let '(state, f) := nextFloat64 state in (reach (fmul f total) f0 0 ws, state)
  else let '(state, n) := nextUint64 state in (Z.to_nat (n mod Z.of_nat (length ws)), state).

Fixpoint draw_all (fuel : nat) (state : Z) (pool : list openAIAccountCandidateScore) (ws : list f64)
    : list openAIAccountCandidateScore :=
  match fuel, pool with
  | S n, _ :: _ =>
      let '(i, state) := draw state ws in
      match pool !! i with
      | Some c => c :: draw_all n state (delete i pool) (delete i ws)
      | None => []
      end
  | _, _ => []
  end.

(** A round takes one candidate: as many rounds as there are candidates. *)
Definition buildOpenAIWeightedSelectionOrder (candidates : list openAIAccountCandidateScore) (seed : Z)
    : list openAIAccountCandidateScore :=
  match candidates with
  | [] | [_] => candidates
  | c :: rest =>
      let minScore := min_score (score c) rest in
      draw_all (length candidates) (newOpenAISelectionRNG seed) candidates
        (map (fun c => selection_weight minScore (score c)) candidates)
  end.

(** ** Costs *)

Definition openAIUpstreamCostNeutralFactor : f64 := f_half.

Section Costs.
Context (log exp : f64 -> f64).
(** [openAIFreshUpstreamBillingRate] at the time of the request. *)
Context (fresh_rate : Account -> option f64) (oauthSchedulingRateMultiplier : f64).

Definition openAISchedulingRate (a : Account) : option f64 :=
  if IsOpenAIOAuthLike a then Some oauthSchedulingRateMultiplier else fresh_rate a.

Definition cost_eligible (a : Account) : bool := IsOpenAIApiKey a || IsOpenAIOAuthLike a.

(** The samples, in the order of the accounts. *)
Definition rate_samples (accounts : list Account) : list (Z * f64) :=
  omap (fun a => if cost_eligible a then (fun r => (ID a, r)) <$> openAISchedulingRate a else None) accounts.

Definition median (l : list f64) : f64 :=
  let middle := (length l / 2)%nat in
  let at_ i := default f0 (l !! i) in
  if (length l mod 2 =? 0)%nat then fdiv (fadd (at_ (middle - 1)%nat) (at_ middle)) (f64_of_Z 2)
  else at_ middle.

Definition openAIUpstreamCostFactors (accounts : list Account) : gmap Z f64 :=
  let factors := foldl (fun m a => <[ID a := openAIUpstreamCostNeutralFactor]> m) ∅ accounts in
  let eligibleCount := length (filter (fun a => cost_eligible a = true) accounts) in
  let samples := rate_samples accounts in
  if (length samples <? 2)%nat || (eligibleCount =? 0)%nat then factors
  else
    let first := match samples with (_, r) :: _ => r | [] => f0 end in
    let allEqual := forallb (fun s => feqb s.2 first) (tail samples) in
    let positiveLogs := map (fun s => log s.2) (List.filter (fun s => fltb f0 s.2) samples) in
    if allEqual || match positiveLogs with [] => true | _ => false end then factors
    else
      let center := exp (median (SliceStable fltb positiveLogs)) in
      if fleb center f0 || f_is_nan center || f_is_inf center then factors
      else
        let coverage := fdiv (f64_of_Z (Z.of_nat (length samples))) (f64_of_Z (Z.of_nat eligibleCount)) in
        foldl (fun m s =>
          let rawFactor := if fltb f0 s.2 then fdiv f1 (fadd f1 (fdiv s.2 center)) else f1 in
          <[s.1 := clamp01 (fadd openAIUpstreamCostNeutralFactor
                     (fmul coverage (fsub rawFactor openAIUpstreamCostNeutralFactor)))]> m) factors samples.

(** The order of the legacy scheduler. *)
Record openAILegacyUpstreamRateOrder := mkRateOrder { ro_enabled : bool; rates : gmap Z f64 }.

(** One account of the loop, on (rates, first, distinct). *)
Definition rate_order_step (acc : gmap Z f64 * f64 * bool) (a : Account) : gmap Z f64 * f64 * bool :=
  let '(rates, first, distinct) := acc in
  if negb (cost_eligible a) then acc
  else match openAISchedulingRate a with
       | None => acc
       | Some rate =>
           if (size rates =? 0)%nat then (<[ID a := rate]> rates, rate, distinct)
           else (<[ID a := rate]> rates, first, distinct || negb (feqb rate first))
       end.

Definition newOpenAILegacyUpstreamRateOrder (accounts : list Account) : openAILegacyUpstreamRateOrder :=
  let '(rates, _, distinct) := foldl rate_order_step (∅, f0, false) accounts in
  mkRateOrder ((2 <=? size rates)%nat && distinct) rates.
End Costs.

(** -1, 0 or 1. *)
Definition rate_compare (o : openAILegacyUpstreamRateOrder) (a b : Account) : Z :=
  if negb (ro_enabled o) then 0
  else match rates o !! ID a, rates o !! ID b with
       | Some _, None => -1
       | None, Some _ => 1
       | None, None => 0
       | Some x, Some y => if feqb x y then 0 else if fltb x y then -1 else 1
       end.

(** ** The load plan *)

Record GatewayOpenAIWSSchedulerScoreWeightsView := mkWeights {
  w_Priority : f64;
  w_Load : f64;
  w_Queue : f64;
  w_ErrorRate : f64;
  w_TTFT : f64;
  w_Reset : f64;
  w_QuotaHeadroom : f64;
  w_UpstreamCost : f64;
  w_Previous : f64;
  w_SessionSticky : f64;
}.

Definition BaseWeightSum (w : GatewayOpenAIWSSchedulerScoreWeightsView) : f64 :=
  fadd (fadd (fadd (fadd (fadd (fadd (fadd (w_Priority w) (w_Load w)) (w_Queue w)) (w_ErrorRate w))
    (w_TTFT w)) (w_Reset w)) (w_QuotaHeadroom w)) (w_UpstreamCost w).

Definition TotalWeightSum (w : GatewayOpenAIWSSchedulerScoreWeightsView) : f64 :=
  fadd (fadd (BaseWeightSum w) (w_Previous w)) (w_SessionSticky w).

Definition IsValid (w : GatewayOpenAIWSSchedulerScoreWeightsView) : bool :=
  forallb (fun weight => negb (fltb weight f0 || f_is_nan weight || f_is_inf weight))
    [w_Priority w; w_Load w; w_Queue w; w_ErrorRate w; w_TTFT w; w_Reset w; w_QuotaHeadroom w;
     w_UpstreamCost w; w_Previous w; w_SessionSticky w]
  && fltb f0 (BaseWeightSum w) && negb (f_is_nan (BaseWeightSum w)) && negb (f_is_inf (BaseWeightSum w))
  && negb (f_is_nan (TotalWeightSum w)) && negb (f_is_inf (TotalWeightSum w)).

(** The weights without a configuration. *)
Definition default_weights : GatewayOpenAIWSSchedulerScoreWeightsView :=
  mkWeights f1 f1 (f64_of_ratio false 7 10) (f64_of_ratio false 4 5) f_half f0 f0 f0 (f64_of_Z 5) (f64_of_Z 3).

(** An override by its name, as the loop over the map applies it. *)
Definition override_weight (w : GatewayOpenAIWSSchedulerScoreWeightsView) (key : string) (v : f64) :=
  let pick name old := if key ==? name then v else old in
  mkWeights (pick "priority" (w_Priority w)) (pick "load" (w_Load w)) (pick "queue" (w_Queue w))
    (pick "error_rate" (w_ErrorRate w)) (pick "ttft" (w_TTFT w)) (pick "reset" (w_Reset w))
    (pick "quota_headroom" (w_QuotaHeadroom w)) (pick "upstream_cost" (w_UpstreamCost w))
    (pick "previous_response" (w_Previous w)) (pick "session_sticky" (w_SessionSticky w)).

Definition applyOpenAIAdvancedSchedulerWeightOverrides (w : GatewayOpenAIWSSchedulerScoreWeightsView)
    (overrides : gmap string f64) : GatewayOpenAIWSSchedulerScoreWeightsView :=
  foldl (fun w kv => override_weight w kv.1 kv.2) w (map_to_list overrides).

(** The settings a request reads. *)
Record openAIAdvancedSchedulerRuntimeSettings := mkRuntimeSettings {
  lowUpstreamRatePriorityEnabled : bool;
  rt_oauthSchedulingRateMultiplier : f64;
  rt_enabled : bool;
  stickyWeightedEnabled : bool;
  subscriptionPriorityEnabled : bool;
  lbTopKOverride : Z;
  weightOverrides : gmap string f64;
}.

Definition openAIWSSchedulerWeightsForRequest (configured : GatewayOpenAIWSSchedulerScoreWeightsView)
    (s : openAIAdvancedSchedulerRuntimeSettings) : GatewayOpenAIWSSchedulerScoreWeightsView :=
  if negb (rt_enabled s) then configured
  else let overridden := applyOpenAIAdvancedSchedulerWeightOverrides configured (weightOverrides s) in
       if IsValid overridden then overridden else configured.

Definition openAIWSLBTopK (cfg : option Z) : Z :=
  match cfg with Some k => if 0 <? k then k else 7 | None => 7 end.

Definition openAIWSLBTopKForRequest (cfg : option Z) (s : openAIAdvancedSchedulerRuntimeSettings) : Z :=
  if negb (rt_enabled s) then openAIWSLBTopK cfg
  else if 0 <? lbTopKOverride s then lbTopKOverride s else openAIWSLBTopK cfg.

Definition parsePositiveIntOverride (raw : string) : Z :=
  let raw := TrimSpace raw in
  if raw ==? "" then 0
  else match ParseInt raw with Some value => if value <=? 0 then 0 else value | None => 0 end.

(** The setting keys of the weights and their names. *)
Definition weight_override_specs : list (string * string) :=
  map (fun name => ("openai_advanced_scheduler_weight_" +:+ name, name))
    ["priority"; "load"; "queue"; "error_rate"; "ttft"; "reset"; "quota_headroom"; "upstream_cost";
     "previous_response"; "session_sticky"].

Definition parseOpenAIAdvancedSchedulerWeightOverrides (values : gmap string string) : gmap string f64 :=
  foldl (fun m spec =>
    let raw := TrimSpace (default "" (values !! spec.1)) in
    if raw ==? "" then m
    else match ParseFloat raw with
         | Some value => if fltb value f0 || f_is_nan value || f_is_inf value then m else <[spec.2 := value]> m
         | None => m
         end) ∅ weight_override_specs.

Definition parseOpenAIOAuthSchedulingRateMultiplier (raw : string) : f64 :=
  match ParseFloat (TrimSpace raw) with
  | Some value => if fltb value f0 || f_is_nan value || f_is_inf value then f1 else value
  | None => f1
  end.

Definition openAIAccountSchedulingPriority (a : Account) : Z := Priority a.

(** What a request asks of the plan. *)
Record plan_request := mkPlanRequest {
  RequireCompact : bool;
  StickyWeighted : bool;
  PreviousResponseCanMove : bool;
  StickyPreviousAccountID : Z;
  StickyAccountID : Z;
  UseUpstreamTokenCost : bool;
  pr_seed : Z;           (** the seeds of the two draws *)
  pr_seed' : Z;
}.

Record openAIAccountLoadPlan := mkPlan {
  allCandidates : list openAIAccountCandidateScore;
  candidates : list openAIAccountCandidateScore;
  staleSnapshotCompactRetry : list openAIAccountCandidateScore;
  selectionOrder : list openAIAccountCandidateScore;
  candidateCount : Z;
  topK : Z;
  loadSkew : f64;
  includeOverflowFallback : bool;
}.

Definition calcLoadSkewByMoments (sum sumSquares : f64) (count : Z) : f64 :=
  if count <=? 1 then f0
  else
    let mean := fdiv sum (f64_of_Z count) in
    let variance := fsub (fdiv sumSquares (f64_of_Z count)) (fmul mean mean) in
    SFsqrt 53 1024 (if fltb variance f0 then f0 else variance).

(** A candidate before it has a score. *)
Definition candidate_of (stats : openAIAccountRuntimeStats) (loadMap : gmap Z LoadInfo) (a : Account)
    : openAIAccountCandidateScore :=
  let '(rate, t, has) := snapshot (ID a) stats in
  match loadMap !! ID a with
  | Some info => mkCandidate a info true f0 0 rate t has
  | None => mkCandidate a (mkInfo (ID a) 0 0 0) false f0 0 rate t has
  end.

(** The extremes and sums over the candidates. *)
Record plan_bounds := mkBounds {
  minPriority : Z;
  maxPriority : Z;
  maxWaiting : Z;
  loadRateSum : f64;
  loadRateSumSquares : f64;
  ttftRange : option (f64 * f64);
}.

Definition widen (range : option (f64 * f64)) (x : f64) : option (f64 * f64) :=
  match range with
  | None => Some (x, x)
  | Some (lo, hi) => Some (if fltb x lo then x else lo, if fltb hi x then x else hi)
  end.

Definition bound_step (b : plan_bounds) (c : openAIAccountCandidateScore) : plan_bounds :=
  let p := openAIAccountSchedulingPriority (account c) in
  let rate := f64_of_Z (LoadRate (loadInfo c)) in
  mkBounds (Z.min p (minPriority b)) (Z.max p (maxPriority b)) (Z.max (WaitingCount (loadInfo c)) (maxWaiting b))
    (fadd (loadRateSum b) rate) (fadd (loadRateSumSquares b) (fmul rate rate))
    (if hasTTFT c && fltb f0 (ttft c) then widen (ttftRange b) (ttft c) else ttftRange b).

Definition bounds_of (first : openAIAccountCandidateScore) (l : list openAIAccountCandidateScore) : plan_bounds :=
  let p := openAIAccountSchedulingPriority (account first) in
  foldl bound_step (mkBounds p p 1 f0 f0 None) l.

(** The time left of a session window that has not ended. *)
Definition reset_remaining (now : time) (a : Account) : option f64 :=
  match SessionWindowEnd a with
  | Some e => if Before now e then Some (Seconds (Sub e now)) else None
  | None => None
  end.

Definition reset_range (now : time) (l : list openAIAccountCandidateScore) : option (f64 * f64) :=
  foldl (fun range c => match reset_remaining now (account c) with Some x => widen range x | None => range end)
    None l.

Section Scores.
Context (w : GatewayOpenAIWSSchedulerScoreWeightsView) (now : time) (factors : option (gmap Z f64)).

Definition priority_factor (b : plan_bounds) (a : Account) : f64 :=
  if minPriority b <? maxPriority b
  then fsub f1 (fdiv (f64_of_Z (wrap64 (Priority a - minPriority b)))
                     (f64_of_Z (wrap64 (maxPriority b - minPriority b))))
  else f1.

Definition load_factor (i : LoadInfo) : f64 := fsub f1 (clamp01 (fdiv (f64_of_Z (LoadRate i)) f100)).

Definition queue_factor (b : plan_bounds) (i : LoadInfo) : f64 :=
  fsub f1 (clamp01 (fdiv (f64_of_Z (WaitingCount i)) (f64_of_Z (maxWaiting b)))).

Definition ttft_factor (b : plan_bounds) (has : bool) (t : f64) : f64 :=
  match ttftRange b with
  | Some (lo, hi) => if has && fltb lo hi then fsub f1 (clamp01 (fdiv (fsub t lo) (fsub hi lo))) else f_half
  | None => f_half
  end.

Definition reset_factor (range : option (f64 * f64)) (a : Account) : f64 :=
  match range, reset_remaining now a with
  | Some (lo, hi), Some x => if fltb lo hi then fsub f1 (clamp01 (fdiv (fsub x lo) (fsub hi lo))) else f1
  | _, _ => f0
  end.

Definition quota_factor (a : Account) : f64 :=
  if fltb f0 (w_QuotaHeadroom w) then openAIQuotaHeadroomFactor a now else f0.

Definition cost_factor (a : Account) : f64 :=
  match factors with
  | Some m => default openAIUpstreamCostNeutralFactor (m !! ID a)
  | None => openAIUpstreamCostNeutralFactor
  end.

(** The weighted sum of the factors, the error and first-token ones given. *)
Definition base_score (b : plan_bounds) (range : option (f64 * f64)) (a : Account) (i : LoadInfo)
    (error_factor ttft_factor : f64) : f64 :=
  fadd (fadd (fadd (fadd (fadd (fadd (fadd
    (fmul (w_Priority w) (priority_factor b a))
    (fmul (w_Load w) (load_factor i)))
    (fmul (w_Queue w) (queue_factor b i)))
    (fmul (w_ErrorRate w) error_factor))
    (fmul (w_TTFT w) ttft_factor))
    (fmul (w_Reset w) (reset_factor range a)))
    (fmul (w_QuotaHeadroom w) (quota_factor a)))
    (fmul (w_UpstreamCost w) (fsub (cost_factor a) openAIUpstreamCostNeutralFactor)).

(** The bonus of a sticky account. *)
Definition sticky_bonus (req : plan_request) (id : Z) (s : f64) : f64 :=
  if negb (StickyWeighted req) then s
  else
    let s := if PreviousResponseCanMove req && (0 <? StickyPreviousAccountID req)
                && (id =? StickyPreviousAccountID req) then fadd s (w_Previous w) else s in
    if (0 <? StickyAccountID req) && (id =? StickyAccountID req) then fadd s (w_SessionSticky w) else s.

Definition candidate_score (req : plan_request) (b : plan_bounds) (range : option (f64 * f64))
    (c : openAIAccountCandidateScore) : openAIAccountCandidateScore :=
  with_score c (sticky_bonus req (ID (account c))
    (base_score b range (account c) (loadInfo c) (fsub f1 (clamp01 (errorRate c)))
       (ttft_factor b (hasTTFT c) (ttft c)))).
End Scores.

(** ** The order of the attempts *)

Definition tier (c : openAIAccountCandidateScore) : Z := openAICompactSupportTier (account c).

(** A candidate moved to the front. *)
Fixpoint move_front (id : Z) (l : list openAIAccountCandidateScore) : option (list openAIAccountCandidateScore) :=
  match l with
  | [] => None
  | c :: l => if ID (account c) =? id then Some (c :: l)
              else match move_front id l with Some (d :: rest) => Some (d :: c :: rest) | _ => None end
  end.

(** The sticky ids in turn. *)
Definition sticky_primary (req : plan_request) (ranked : list openAIAccountCandidateScore)
    : option (list openAIAccountCandidateScore) :=
  let try_ id := if id <=? 0 then None else move_front id ranked in
  if negb (StickyWeighted req) then None
  else match try_ (StickyPreviousAccountID req) with
       | Some l => Some l
       | None => try_ (StickyAccountID req)
       end.

(** The closure [buildSelectionOrder]. *)
Definition pool_order (req : plan_request) (seed topK : Z) (overflow : bool) (pool : list openAIAccountCandidateScore)
    : list openAIAccountCandidateScore :=
  match pool with
  | [] => []
  | _ =>
      if topK <=? 0 then []
      else
        let groupTopK := Z.min topK (Z.of_nat (length pool)) in
        let ranked := selectTopKOpenAICandidates pool groupTopK in
        let primary := match sticky_primary req ranked with
                       | Some l => l
                       | None => buildOpenAIWeightedSelectionOrder ranked seed
                       end in
        if negb overflow || (Z.of_nat (length pool) <=? groupTopK) then primary
        else
          let selected : gset Z := list_to_set (map (fun c => ID (account c)) primary) in
          primary ++ sort_candidates (List.filter (fun c => negb (bool_decide (ID (account c) ∈ selected))) pool)
  end.

(** The comparison of the compact retries. *)
Definition retry_less (a b : openAIAccountCandidateScore) : bool :=
  if negb (Priority (account a) =? Priority (account b)) then Priority (account a) <? Priority (account b)
  else if negb (LoadRate (loadInfo a) =? LoadRate (loadInfo b)) then LoadRate (loadInfo a) <? LoadRate (loadInfo b)
  else if negb (WaitingCount (loadInfo a) =? WaitingCount (loadInfo b))
  then WaitingCount (loadInfo a) <? WaitingCount (loadInfo b)
  else match LastUsedAt (account a), LastUsedAt (account b) with
       | None, Some _ => true
       | Some _, None | None, None => false
       | Some x, Some y => Before x y
       end.

Definition sortOpenAICompactRetryCandidates : list openAIAccountCandidateScore -> list openAIAccountCandidateScore :=
  SliceStable retry_less.

(** [schedulerSnapshot]: whether there is one. *)
Definition buildOpenAISelectionOrder (req : plan_request) (schedulerSnapshot : bool) (topK : Z) (overflow : bool)
    (candidates stale : list openAIAccountCandidateScore) : list openAIAccountCandidateScore :=
  if RequireCompact req then
    pool_order req (pr_seed req) topK overflow (List.filter (fun c => tier c =? 2) candidates)
    ++ pool_order req (pr_seed' req) topK overflow (List.filter (fun c => tier c =? 1) candidates)
    ++ (if schedulerSnapshot then sortOpenAICompactRetryCandidates stale else [])
  else pool_order req (pr_seed req) topK overflow candidates.

Section Plan.
Context (w : GatewayOpenAIWSSchedulerScoreWeightsView) (lbTopK : Z) (schedulerSnapshot : bool).
(** [openAIUpstreamCostFactors] of a list of accounts at the time of the
    request. *)
Context (cost_factors : list Account -> gmap Z f64).

(** The costs are read when the request and the weights use them. *)
Definition plan_costs (req : plan_request) (l : list openAIAccountCandidateScore) : option (gmap Z f64) :=
  if UseUpstreamTokenCost req && fltb f0 (w_UpstreamCost w) then Some (cost_factors (map account l)) else None.

Definition differs (factors : option (gmap Z f64)) : bool :=
  match factors with
  | Some m => existsb (fun kv => negb (feqb kv.2 openAIUpstreamCostNeutralFactor)) (map_to_list m)
  | None => false
  end.

Definition buildOpenAIAccountLoadPlan (req : plan_request) (stats : openAIAccountRuntimeStats) (now : time)
    (filtered : list Account) (loadMap : gmap Z LoadInfo) : openAIAccountLoadPlan :=
  let all := map (candidate_of stats loadMap) filtered in
  let kept := if RequireCompact req then List.filter (fun c => negb (tier c =? 0)) all else all in
  let stale := if RequireCompact req then List.filter (fun c => tier c =? 0) all else [] in
  match kept with
  | [] => mkPlan all [] stale (buildOpenAISelectionOrder req schedulerSnapshot 0 false [] stale) 0 0 f0 false
  | first :: _ =>
      let b := bounds_of first kept in
      let factors := plan_costs req kept in
      let overflow := differs factors in
      let range := if fltb f0 (w_Reset w) then reset_range now kept else None in
      let scored := map (candidate_score w now factors req b range) kept in
      let n := Z.of_nat (length kept) in
      let k := if n <? lbTopK then n else lbTopK in
      let k := if k <=? 0 then 1 else k in
      mkPlan (if RequireCompact req then all else scored) scored stale
        (buildOpenAISelectionOrder req schedulerSnapshot k overflow scored stale) n k
        (calcLoadSkewByMoments (loadRateSum b) (loadRateSumSquares b) n) overflow
  end.

Definition openAICostOverflowExpanded (req : plan_request) (p : openAIAccountLoadPlan) : bool :=
  if negb (includeOverflowFallback p) || (topK p <=? 0) then false
  else if negb (RequireCompact req) then topK p <? Z.of_nat (length (candidates p))
  else
    let count t := Z.of_nat (length (List.filter (fun c => tier c =? t) (candidates p))) in
    (topK p <? count 2) || (topK p <? count 1).
End Plan.

(** ** The scores the admin page shows *)

Record OpenAIAccountSchedulerScoreSnapshot := mkScoreSnapshot {
  BaseScore : f64;
  StickyScore : f64;
  StickyScoreInfinity : bool;
  ss_StickyWeightedEnabled : bool;
}.

Definition shown_score (w : GatewayOpenAIWSSchedulerScoreWeightsView) (now : time) (factors : option (gmap Z f64))
    (stickyWeighted : bool) (b : plan_bounds) (range : option (f64 * f64)) (c : openAIAccountCandidateScore)
    : OpenAIAccountSchedulerScoreSnapshot :=
  let base := base_score w now factors b range (account c) (loadInfo c) f1 f_half in
  mkScoreSnapshot base (if stickyWeighted then fadd (fadd base (w_Previous w)) (w_SessionSticky w) else f0)
    (negb stickyWeighted) stickyWeighted.

(** The nil accounts of the Go slice are absent. *)
Definition buildOpenAIAccountSchedulerScoreSnapshot (w : GatewayOpenAIWSSchedulerScoreWeightsView)
    (cost_factors : list Account -> gmap Z f64) (stickyWeighted : bool) (now : time)
    (accounts : list Account) (loadMap : gmap Z LoadInfo) : gmap Z OpenAIAccountSchedulerScoreSnapshot :=
  let l := map (candidate_of ∅ loadMap) accounts in
  match l with
  | [] => ∅
  | first :: _ =>
      let b := bounds_of first l in
      let factors := if fltb f0 (w_UpstreamCost w) then Some (cost_factors accounts) else None in
      let range := if fltb f0 (w_Reset w) then reset_range now l else None in
      foldl (fun m c => <[ID (account c) := shown_score w now factors stickyWeighted b range c]> m) ∅ l
  end.

(** ** The passes of the fallback *)

Definition known_full (c : openAIAccountCandidateScore) : bool :=
  loadKnown c && (0 <? Concurrency (account c)) && (Concurrency (account c) <=? CurrentConcurrency (loadInfo c)).

(** Who is looked at in a pass of [finishLoadBalanceSelectionFallback]. *)
Definition in_pass (b : openAISelectionProbeBudget) (pass : nat) (c : openAIAccountCandidateScore) : bool :=
  let wantAttempted := (pass =? 1)%nat || (pass =? 3)%nat in
  let wantKnownFull := (2 <=? pass)%nat in
  Bool.eqb (wasAttempted (ID (account c)) b) wantAttempted && Bool.eqb (known_full c) wantKnownFull.

Definition passes (b : openAISelectionProbeBudget) (l : list openAIAccountCandidateScore)
    : list openAIAccountCandidateScore :=
  if limited b then concat (map (fun pass => List.filter (in_pass b pass) l) [0; 1; 2; 3]%nat) else l.

(** ** The accounts with a subscription first *)

Definition partition_subscriptions (subscribed : Account -> bool) (l : list Account) : list Account * list Account :=
  (List.filter subscribed l, List.filter (fun a => negb (subscribed a)) l).

(** ** Metrics *)

Record openAIAccountSchedulerMetrics := mkMetrics {
  selectTotal : Z;
  stickyPreviousHitTotal : Z;
  stickySessionHitTotal : Z;
  loadBalanceSelectTotal : Z;
  accountSwitchTotal : Z;
  latencyMsTotal : Z;
  loadSkewMilliTotal : Z;
}.

Record OpenAIAccountScheduleDecision := mkDecision {
  Layer : string;
  StickyPreviousHit : bool;
  StickySessionHit : bool;
  CandidateCount : Z;
  d_TopK : Z;
  LatencyMs : Z;
  d_LoadSkew : f64;
  SelectedAccountID : Z;
  SelectedAccountType : string;
}.

Definition LayerPreviousResponse := "previous_response_id".
Definition LayerGuardianParent := "guardian_parent".
Definition LayerSessionSticky := "session_hash".
Definition LayerLoadBalance := "load_balance".

(** The counters are 64-bit; [milli] is [int64(math.Round(skew * 1000))]. *)
Definition recordSelect (milli : f64 -> Z) (d : OpenAIAccountScheduleDecision) (m : openAIAccountSchedulerMetrics)
    : openAIAccountSchedulerMetrics :=
  let inc (b : bool) n := if b then wrap64 (n + 1) else n in
  mkMetrics (wrap64 (selectTotal m + 1)) (inc (StickyPreviousHit d) (stickyPreviousHitTotal m))
    (inc (StickySessionHit d) (stickySessionHitTotal m))
    (inc (Layer d ==? LayerLoadBalance) (loadBalanceSelectTotal m)) (accountSwitchTotal m)
    (wrap64 (latencyMsTotal m + LatencyMs d)) (wrap64 (loadSkewMilliTotal m + milli (d_LoadSkew d))).

Definition recordSwitch (m : openAIAccountSchedulerMetrics) : openAIAccountSchedulerMetrics :=
  mkMetrics (selectTotal m) (stickyPreviousHitTotal m) (stickySessionHitTotal m) (loadBalanceSelectTotal m)
    (wrap64 (accountSwitchTotal m + 1)) (latencyMsTotal m) (loadSkewMilliTotal m).
