(* ===== verification/OpenAIRankingProperties.v ===== *)
(** * The OpenAI account scheduler: properties of its orders

    The heap selection is compared with a plain sort, the weighted draw with a
    permutation, and the order of the attempts with the set of the candidates. *)

From S2P Require Import Prelude GoSort GoStrings Float64 Float64Exact GoTime GoAny Account Idempotency ConcurrencyCache OpenAIQuota OpenAIRanking.
Local Open Scope Z_scope.

(** ** Candidates are strictly ordered *)

(** The integer part of the comparison. *)
Definition tie_less (x y : openAIAccountCandidateScore) : Prop :=
  Priority (account x) < Priority (account y) \/
  Priority (account x) = Priority (account y) /\
  (LoadRate (loadInfo x) < LoadRate (loadInfo y) \/
   LoadRate (loadInfo x) = LoadRate (loadInfo y) /\
   (WaitingCount (loadInfo x) < WaitingCount (loadInfo y) \/
    WaitingCount (loadInfo x) = WaitingCount (loadInfo y) /\ ID (account x) < ID (account y))).

Definition has_score (c : openAIAccountCandidateScore) : Prop := f_is_nan (score c) = false.

Definition accountID (c : openAIAccountCandidateScore) : Z := ID (account c).

Lemma better_iff x y : isOpenAIAccountCandidateBetter x y = true <->
  fltb (score y) (score x) = true \/ feqb (score x) (score y) = true /\ tie_less x y.
Proof.
  unfold isOpenAIAccountCandidateBetter, tie_less. destruct (feqb (score x) (score y)) eqn:E; cbn [negb].
  - rewrite feqb_sym in E. rewrite (feqb_fltb _ _ E).
    repeat match goal with |- context [?a =? ?b] => destruct (Z.eqb_spec a b); cbn [negb] end;
      rewrite Z.ltb_lt; (split; [intros ?; right; split; [done|lia]|intros [?|[_ ?]]; [done|lia]]).
  - split; [by left|by intros [|[? _]]].
Qed.

Lemma better_asym x y : isOpenAIAccountCandidateBetter x y = true -> isOpenAIAccountCandidateBetter y x = false.
Proof.
  rewrite better_iff, <- not_true_iff_false, better_iff. intros [H|[H1 H2]] [H'|[H1' H2']].
  - by rewrite (fltb_asym _ _ H) in H'.
  - by rewrite (feqb_fltb _ _ H1') in H.
  - by rewrite (feqb_fltb _ _ H1) in H'.
  - unfold tie_less in *. lia.
Qed.

(** What not being better means when both have scores. *)
Lemma not_better_iff x y : has_score x -> has_score y ->
  isOpenAIAccountCandidateBetter y x = false <->
  fltb (score y) (score x) = true \/ feqb (score x) (score y) = true /\ ~ tie_less y x.
Proof.
  intros Hx Hy. rewrite <- not_true_iff_false, better_iff. rewrite (feqb_sym (score y)). split.
  - intros H. destruct (fltb (score y) (score x)) eqn:E; [by left|right].
    destruct (feqb (score x) (score y)) eqn:E'; [split; [done|tauto]|].
    rewrite feqb_sym in E'. pose proof (fltb_total _ _ Hy Hx E E'). tauto.
  - intros [H|[H1 H2]] [H'|[H1' H2']]; [|by rewrite feqb_sym in H1'; rewrite (feqb_fltb _ _ H1') in H| |tauto].
    + by rewrite (fltb_asym _ _ H) in H'.
    + by rewrite (feqb_fltb _ _ H1) in H'.
Qed.

Lemma not_better_nan x y : ~ has_score x \/ ~ has_score y -> isOpenAIAccountCandidateBetter y x = false.
Proof.
  unfold has_score. intros H. rewrite <- not_true_iff_false, better_iff.
  intros [H'|[H' _]]; [apply fltb_not_nan in H' as [? ?]|apply feqb_not_nan in H' as [? ?]];
    destruct H as [H|H]; congruence.
Qed.

Lemma not_better_trans x y z : has_score y -> isOpenAIAccountCandidateBetter y x = false ->
  isOpenAIAccountCandidateBetter z y = false -> isOpenAIAccountCandidateBetter z x = false.
Proof.
  intros Hy H1 H2.
  destruct (decide (has_score x)) as [Hx|Hx]; [|by apply not_better_nan; left].
  destruct (decide (has_score z)) as [Hz|Hz]; [|by apply not_better_nan; right].
  rewrite not_better_iff in * by done.
  destruct H1 as [H1|[H1 T1]], H2 as [H2|[H2 T2]].
  - left. by eapply fltb_trans.
  - left. rewrite feqb_sym in H2. apply feqb_iff in H2 as [H2 H2']. by eapply fleb_fltb_trans.
  - left. apply feqb_iff in H1 as [H1 H1']. by eapply fltb_fleb_trans.
  - right. split; [by eapply feqb_trans|]. unfold tie_less in *. lia.
Qed.

(** Two candidates of which neither is better are one account. *)
Lemma tie_same_id x y : has_score x -> has_score y -> isOpenAIAccountCandidateBetter x y = false ->
  isOpenAIAccountCandidateBetter y x = false -> accountID x = accountID y.
Proof.
  intros Hx Hy. rewrite !not_better_iff by done. unfold accountID. intros [H1|[H1 T1]] [H2|[H2 T2]].
  - by rewrite (fltb_asym _ _ H1) in H2.
  - rewrite feqb_sym in H2. rewrite (feqb_fltb _ _ ltac:(by rewrite feqb_sym)) in H1. done.
  - by rewrite (feqb_fltb _ _ H1) in H2.
  - unfold tie_less in *. lia.
Qed.

(** ** The best few *)

Lemma offer_top k seen h x : (0 < k)%nat -> Forall has_score (x :: seen) ->
  top_of isOpenAIAccountCandidateBetter k seen h ->
  top_of isOpenAIAccountCandidateBetter k (seen ++ [x]) (offer k h x).
Proof.
  intros Hk Hok Ht. unfold offer. pose proof (Forall_cons_1 _ _ _ Hok) as [_ Hok'].
  destruct (Nat.ltb_spec (length h) k) as [Hl|Hl].
  { by apply (top_of_push _ has_score better_asym not_better_trans). }
  destruct (lookup_lt_is_Some_2 h 0%nat ltac:(lia)) as [r Hr]. rewrite Hr.
  destruct (isOpenAIAccountCandidateBetter x r) eqn:E.
  - by apply (top_of_replace _ has_score better_asym not_better_trans _ _ _ _ r).
  - by apply (top_of_skip _ has_score better_asym not_better_trans _ _ _ _ r).
Qed.

Lemma offers_top k l : forall seen h, (0 < k)%nat -> Forall has_score (seen ++ l) ->
  top_of isOpenAIAccountCandidateBetter k seen h ->
  top_of isOpenAIAccountCandidateBetter k (seen ++ l) (foldl (offer k) h l).
Proof.
  induction l as [|x l IH]; intros seen h Hk Hok Ht; [by rewrite app_nil_r|].
  cbn [foldl]. rewrite (cons_middle x), app_assoc in Hok |- *. apply IH; [done..|].
  apply offer_top; [done| |done]. apply Forall_app in Hok as [Hok _].
  by rewrite Permutation_app_comm in Hok.
Qed.

Lemma distinct_ties l : NoDup (map accountID l) -> Forall has_score l ->
  forall x y, x ∈ l -> y ∈ l -> isOpenAIAccountCandidateBetter x y = false ->
  isOpenAIAccountCandidateBetter y x = false -> x = y.
Proof.
  intros Hnd Hok x y Hx Hy H1 H2.
  assert (Hid : accountID x = accountID y).
  { apply tie_same_id; [rewrite Forall_forall in Hok; by apply Hok..|done|done]. }
  apply list_elem_of_lookup_1 in Hx as [i Hi], Hy as [j Hj].
  assert (i = j) as ->; [|congruence].
  apply (NoDup_lookup (map accountID l) i j (accountID x)); [done|..];
    rewrite list_lookup_fmap; [by rewrite Hi|by rewrite Hj, Hid].
Qed.

(** What the selection leaves of the candidates, as a reference: sort them
    all and keep a prefix. *)
Definition best_prefix (l : list openAIAccountCandidateScore) (topK : Z) : list openAIAccountCandidateScore :=
  take (Z.to_nat (Z.max 1 topK)) (sort_candidates l).

(** C16: the heap keeps exactly the best [topK] candidates: what
    [selectTopKOpenAICandidates] returns is a prefix of the candidates sorted,
    of at least one element, whatever the order they arrive in.  Scores may be
    infinite or equal, not NaN. *)
Theorem top_k_is_sorted_prefix (l : list openAIAccountCandidateScore) (topK : Z)
    (Hids : NoDup (map accountID l)) (Hscores : Forall has_score l) :
  selectTopKOpenAICandidates l topK = best_prefix l topK.
Proof.
  unfold selectTopKOpenAICandidates, best_prefix. destruct l as [|c l'] eqn:El; [by destruct (Z.to_nat _)|].
  rewrite <- El in *. set (k := if topK <=? 0 then 1 else topK).
  assert (Hk : Z.max 1 topK = k) by (unfold k; destruct (Z.leb_spec topK 0); lia). rewrite Hk.
  destruct (Z.leb_spec (Z.of_nat (length l)) k) as [Hle|Hgt].
  { rewrite take_ge; [done|]. unfold sort_candidates. rewrite SliceStable_perm. lia. }
  apply (top_of_sorted _ has_score better_asym not_better_trans).
  - by apply distinct_ties.
  - done.
  - apply (offers_top _ l []); [unfold k; destruct (Z.leb_spec topK 0); lia|done|].
    apply top_of_nil.
Qed.

(** ** Every order holds each candidate once *)

Lemma selectTopK_perm l k : (Z.of_nat (length l) <= k) -> selectTopKOpenAICandidates l k ≡ₚ l.
Proof.
  intros H. unfold selectTopKOpenAICandidates. destruct l as [|c l]; [done|].
  destruct (Z.leb_spec k 0); [cbn [length] in H; lia|].
  destruct (Z.leb_spec (Z.of_nat (length (c :: l))) k); [|lia]. apply SliceStable_perm.
Qed.

Lemma foldl_offer_sub k l h : exists rest, foldl (offer k) h l ++ rest ≡ₚ h ++ l.
Proof.
  revert h. induction l as [|x l IH]; intros h; [by exists []|]. cbn [foldl].
  destruct (IH (offer k h x)) as [rest Hr].
  assert (exists r, offer k h x ++ r ≡ₚ x :: h) as [r Ho].
  { unfold offer. destruct (_ <? _)%nat; [exists []; by rewrite app_nil_r, heap_Push_perm|].
    destruct (h !! 0%nat) as [root|] eqn:E; [|exists [x]; by rewrite Permutation_app_comm].
    destruct (isOpenAIAccountCandidateBetter _ _); [|exists [x]; by rewrite Permutation_app_comm].
    destruct h as [|h0 h]; [done|]. injection E as ->. exists [root]. rewrite heap_Fix_perm.
    cbn. by rewrite (Permutation_app_comm h). }
  exists (rest ++ r). rewrite app_assoc, Hr, <- app_assoc, (Permutation_app_comm l r), app_assoc, Ho.
  by rewrite <- Permutation_middle.
Qed.

Lemma selectTopK_sub l k : exists rest, selectTopKOpenAICandidates l k ++ rest ≡ₚ l.
Proof.
  unfold selectTopKOpenAICandidates. destruct l as [|c l]; [by exists []|].
  generalize (if k <=? 0 then 1 else k). intros k'. destruct (Z.leb_spec (Z.of_nat (length (c :: l))) k').
  - exists []. rewrite app_nil_r. apply SliceStable_perm.
  - destruct (foldl_offer_sub (Z.to_nat k') (c :: l) []) as [rest H'].
    exists rest. unfold sort_candidates. by rewrite SliceStable_perm.
Qed.

Lemma reach_bound r ws : forall acc i, (reach r acc i ws < i + length ws)%nat \/ reach r acc i ws = 0%nat.
Proof.
  induction ws as [|w ws IH]; intros acc i; cbn [reach]; [by right|]. cbn [length].
  destruct (fleb r _); [left; lia|]. destruct (IH (fadd acc w) (S i)); [left; lia|by right].
Qed.

Lemma draw_bound state ws : ws <> [] -> ((draw state ws).1 < length ws)%nat.
Proof.
  intros Hne. assert (0 < length ws)%nat by (destruct ws; [done|simpl; lia]). unfold draw.
  destruct (fltb f0 _).
  - destruct (nextFloat64 state) as [s f]. cbn [fst].
    pose proof (reach_bound (fmul f (foldl fadd f0 ws)) ws f0 0). lia.
  - destruct (nextUint64 state) as [s n]. cbn [fst].
    pose proof (Z.mod_pos_bound n (Z.of_nat (length ws))). lia.
Qed.

Lemma draw_all_perm n : forall state pool ws, length pool = n -> length ws = n -> draw_all n state pool ws ≡ₚ pool.
Proof.
  induction n as [|n IH]; intros state pool ws Hp Hw; [by apply length_zero_iff_nil in Hp as ->|].
  cbn [draw_all]. destruct pool as [|c0 pool0] eqn:Epool; [done|]. rewrite <- Epool in *.
  pose proof (draw_bound state ws ltac:(by intros ->)) as Hi. destruct (draw state ws) as [i s]. cbn [fst] in Hi.
  destruct (lookup_lt_is_Some_2 pool i ltac:(lia)) as [c Hc]. rewrite Hc.
  rewrite IH; [by rewrite <- delete_Permutation|..]; rewrite length_delete; [lia|by eexists|lia|].
  apply lookup_lt_is_Some_2. lia.
Qed.

Lemma weighted_perm l seed : buildOpenAIWeightedSelectionOrder l seed ≡ₚ l.
Proof.
  unfold buildOpenAIWeightedSelectionOrder. destruct l as [|c [|d l]]; [done..|].
  apply draw_all_perm; [done|by rewrite length_map].
Qed.

Lemma move_front_perm id l l' : move_front id l = Some l' -> l' ≡ₚ l.
Proof.
  revert l'. induction l as [|c l IH]; intros l'; [done|]. cbn [move_front].
  destruct (ID (account c) =? id); [by intros [= <-]|].
  destruct (move_front id l) as [[|d rest]|] eqn:E; [done| |done]. intros [= <-].
  specialize (IH _ eq_refl). by rewrite perm_swap, IH.
Qed.

Lemma move_front_head id l l' : move_front id l = Some l' -> accountID <$> head l' = Some id.
Proof.
  revert l'. induction l as [|c l IH]; intros l'; [done|]. cbn [move_front].
  destruct (Z.eqb_spec (ID (account c)) id) as [E|]; [intros [= <-]; cbn; by rewrite <- E|].
  destruct (move_front id l) as [[|d rest]|] eqn:Ef; [done| |done]. intros [= <-]. by apply (IH _ eq_refl).
Qed.

Lemma move_front_some id l : id ∈ map accountID l -> is_Some (move_front id l).
Proof.
  induction l as [|c l IH]; intros H; [by inversion H|]. cbn [move_front].
  destruct (Z.eqb_spec (ID (account c)) id) as [E|E]; [by eexists|].
  cbn in H. apply elem_of_cons in H as [H|H]; [by destruct E|].
  destruct (IH H) as [l' Hl]. rewrite Hl. destruct l' as [|d rest]; [|by eexists].
  apply move_front_head in Hl. done.
Qed.

Lemma sticky_primary_perm req l l' : sticky_primary req l = Some l' -> l' ≡ₚ l.
Proof.
  unfold sticky_primary. destruct (negb _); [done|].
  destruct (StickyPreviousAccountID req <=? 0).
  - destruct (_ <=? 0); [done|]. apply move_front_perm.
  - destruct (move_front (StickyPreviousAccountID req) l) eqn:E; [intros [= <-]; by apply (move_front_perm _ _ _ E)|].
    destruct (_ <=? 0); [done|]. apply move_front_perm.
Qed.

(** The primary order of a pool is one of the ranked candidates. *)
Lemma primary_perm req seed ranked :
  match sticky_primary req ranked with
  | Some l => l
  | None => buildOpenAIWeightedSelectionOrder ranked seed
  end ≡ₚ ranked.
Proof. destruct (sticky_primary req ranked) eqn:E; [by eapply sticky_primary_perm|apply weighted_perm]. Qed.

Lemma NoDup_app_inv {A} (l k : list A) x : NoDup (l ++ k) -> x ∈ k -> x ∉ l.
Proof. rewrite NoDup_app. intros (_ & H & _) Hx Hl. by apply (H x Hl). Qed.

Lemma filter_all {A} (f : A -> bool) l : (forall x, x ∈ l -> f x = true) -> List.filter f l = l.
Proof.
  induction l as [|x l IH]; intros H; [done|]. cbn. rewrite (H x) by left. by rewrite IH by (intros; apply H; by right).
Qed.

Lemma filter_none {A} (f : A -> bool) l : (forall x, x ∈ l -> f x = false) -> List.filter f l = [].
Proof.
  induction l as [|x l IH]; intros H; [done|]. cbn. rewrite (H x) by left. apply IH. intros; apply H; by right.
Qed.

#[local] Instance filter_perm {A} (f : A -> bool) : Proper ((≡ₚ) ==> (≡ₚ)) (List.filter f).
Proof.
  induction 1 as [|x l k _ IH|x y l|l k m _ IH1 _ IH2]; cbn; [done|destruct (f x); [by constructor|done]| |by etransitivity].
  destruct (f x), (f y); [apply perm_swap|done..].
Qed.

(** With the overflow every candidate of the pool is in the order, once. *)
Lemma pool_order_complete req seed topK pool : 0 < topK -> NoDup (map accountID pool) ->
  pool_order req seed topK true pool ≡ₚ pool.
Proof.
  intros Hk Hnd. unfold pool_order. destruct pool as [|c p] eqn:Ep; [done|]. rewrite <- Ep in *.
  destruct (Z.leb_spec topK 0); [lia|]. cbn [negb orb].
  pose proof (primary_perm req seed (selectTopKOpenAICandidates pool (topK `min` Z.of_nat (length pool)))) as Hprim.
  set (primary := match sticky_primary req _ with Some l => l | None => _ end) in *.
  destruct (Z.leb_spec (Z.of_nat (length pool)) (topK `min` Z.of_nat (length pool))) as [Hle|Hgt].
  { rewrite Hprim. by apply selectTopK_perm. }
  destruct (selectTopK_sub pool (topK `min` Z.of_nat (length pool))) as [rest Hrest].
  rewrite <- Hprim in Hrest. unfold sort_candidates. rewrite SliceStable_perm. rewrite <- Hrest at 2.
  apply Permutation_app_head. clearbody primary. clear Hprim Hgt Ep.
  assert (Hnd' : NoDup (map accountID primary ++ map accountID rest)) by (by rewrite <- map_app, Hrest).
  transitivity (List.filter (fun c => negb (bool_decide (ID (account c) ∈
      (list_to_set (map (fun c => ID (account c)) primary) : gset Z)))) (primary ++ rest)).
  { by rewrite Hrest. }
  rewrite List.filter_app.
  rewrite (filter_none _ primary).
  2:{ intros x Hx. apply negb_false_iff, bool_decide_eq_true_2. apply elem_of_list_to_set.
      by apply (list_elem_of_fmap_2 accountID). }
  rewrite (filter_all _ rest); [done|].
  intros x Hx. apply negb_true_iff, bool_decide_eq_false_2. rewrite elem_of_list_to_set.
  apply (NoDup_app_inv _ _ _ Hnd'). by apply (list_elem_of_fmap_2 accountID).
Qed.

(** Without it, the order is of a part of the pool, still without repetition. *)
Lemma pool_order_sub req seed topK overflow pool : NoDup (map accountID pool) ->
  exists rest, pool_order req seed topK overflow pool ++ rest ≡ₚ pool.
Proof.
  intros Hnd. unfold pool_order. destruct pool as [|c p] eqn:Ep; [by exists []|]. rewrite <- Ep in *.
  destruct (Z.leb_spec topK 0); [by exists pool|].
  destruct overflow.
  { exists []. rewrite app_nil_r. transitivity (pool_order req seed topK true pool);
      [|by apply pool_order_complete]. unfold pool_order. rewrite Ep.
    destruct (Z.leb_spec topK 0); [lia|done]. }
  cbn [negb orb]. destruct (selectTopK_sub pool (topK `min` Z.of_nat (length pool))) as [rest Hrest].
  exists rest. by rewrite primary_perm.
Qed.

(** ** The order of a load plan *)

Lemma sub_submseteq {A} (l k : list A) : (exists rest, l ++ rest ≡ₚ k) -> l ⊆+ k.
Proof. intros [rest H]. rewrite <- H. by apply submseteq_inserts_r. Qed.

Lemma filters_submseteq {A} (f g : A -> bool) l : (forall x, f x = true -> g x = false) ->
  List.filter f l ++ List.filter g l ⊆+ l.
Proof.
  intros H. induction l as [|x l IH]; [done|]. cbn. destruct (f x) eqn:Ef.
  - rewrite (H x Ef). cbn. by apply submseteq_skip.
  - destruct (g x); [rewrite <- Permutation_middle; by apply submseteq_skip|by apply submseteq_cons].
Qed.

Lemma NoDup_sub {A} (l k : list A) : l ⊆+ k -> NoDup k -> NoDup l.
Proof. intros [r Hr]%submseteq_Permutation. rewrite Hr, NoDup_app. tauto. Qed.

Lemma filter_ids_NoDup f (l : list openAIAccountCandidateScore) : NoDup (map accountID l) ->
  NoDup (map accountID (List.filter f l)).
Proof.
  apply NoDup_sub. apply fmap_submseteq.
  rewrite <- (app_nil_r (List.filter f l)), <- (filter_none (fun _ => false) l) by done. by apply filters_submseteq.
Qed.

Lemma pool_order_submseteq req seed topK overflow pool : NoDup (map accountID pool) ->
  pool_order req seed topK overflow pool ⊆+ pool.
Proof. intros H. by apply sub_submseteq, pool_order_sub. Qed.

Lemma pool_order_tier req seed topK overflow l t : NoDup (map accountID l) ->
  Forall (fun c => tier c = t) (pool_order req seed topK overflow (List.filter (fun c => tier c =? t) l)).
Proof.
  intros H. apply Forall_forall. intros c Hc.
  eapply elem_of_submseteq in Hc; [|by apply pool_order_submseteq, filter_ids_NoDup].
  apply list_elem_of_In, filter_In in Hc as [_ Hc]. lia.
Qed.

(** The accounts of a tier: 2 supports the compact endpoint, 1 is not known to,
    0 is known not to. *)
Definition of_tier (t : Z) (l : list Account) : list Account :=
  List.filter (fun a => openAICompactSupportTier a =? t) l.

Lemma account_of_tier t (l : list openAIAccountCandidateScore) :
  map account (List.filter (fun c => tier c =? t) l) = of_tier t (map account l).
Proof.
  induction l as [|c l IH]; [done|]. unfold of_tier in *. cbn. unfold tier at 1.
  destruct (_ =? t); cbn; by rewrite IH.
Qed.

Lemma account_not_tier (l : list openAIAccountCandidateScore) :
  map account (List.filter (fun c => negb (tier c =? 0)) l) =
  List.filter (fun a => negb (openAICompactSupportTier a =? 0)) (map account l).
Proof.
  induction l as [|c l IH]; [done|]. cbn. unfold tier at 1. destruct (_ =? 0); cbn; by rewrite IH.
Qed.

Lemma filter_filter_tier t (l : list Account) : t <> 0 ->
  of_tier t (List.filter (fun a => negb (openAICompactSupportTier a =? 0)) l) = of_tier t l.
Proof.
  intros Ht. unfold of_tier. induction l as [|a l IH]; [done|]. cbn.
  destruct (Z.eqb_spec (openAICompactSupportTier a) 0) as [E|E]; cbn; rewrite IH; [|done].
  by rewrite E, (proj2 (Z.eqb_neq 0 t)) by done.
Qed.

(** The parts of an order for the compact endpoint. *)
Definition compact_parts (snap overflow : bool) (filtered : list Account) (order : list openAIAccountCandidateScore) : Prop :=
  exists supported unknown retry, order = supported ++ unknown ++ retry /\
    Forall (fun c => tier c = 2) supported /\ Forall (fun c => tier c = 1) unknown /\
    (overflow = true -> map account supported ≡ₚ of_tier 2 filtered /\ map account unknown ≡ₚ of_tier 1 filtered) /\
    map account retry ≡ₚ (if snap then of_tier 0 filtered else []).

Lemma selection_order_sub req snap k overflow cands stale : NoDup (map accountID cands) ->
  buildOpenAISelectionOrder req snap k overflow cands stale ⊆+ cands ++ (if RequireCompact req then stale else []).
Proof.
  intros Hnd. unfold buildOpenAISelectionOrder. destruct (RequireCompact req).
  - rewrite app_assoc. apply submseteq_app.
    + etransitivity; [|apply (filters_submseteq (fun c => tier c =? 2) (fun c => tier c =? 1)); lia].
      by apply submseteq_app; apply pool_order_submseteq, filter_ids_NoDup.
    + destruct snap; [|apply submseteq_nil_l]. unfold sortOpenAICompactRetryCandidates. by rewrite SliceStable_perm.
  - rewrite app_nil_r. by apply pool_order_submseteq.
Qed.

Lemma selection_order_parts req snap k overflow filtered cands stale : NoDup (map accountID cands) ->
  RequireCompact req = true -> (overflow = true -> 0 < k) ->
  (forall t, t <> 0 -> of_tier t (map account cands) = of_tier t filtered) ->
  map account stale = of_tier 0 filtered ->
  compact_parts snap overflow filtered (buildOpenAISelectionOrder req snap k overflow cands stale).
Proof.
  intros Hnd Hc Hk Hcands Hstale. unfold buildOpenAISelectionOrder. rewrite Hc. do 3 eexists. split; [done|].
  split; [by apply pool_order_tier|]. split; [by apply pool_order_tier|]. split.
  - intros ->. rewrite <- !Hcands, <- !account_of_tier by done.
    split; apply (fmap_Permutation account), pool_order_complete; auto using filter_ids_NoDup.
  - destruct snap; [|done]. rewrite <- Hstale. apply (fmap_Permutation account), SliceStable_perm.
Qed.

Section LoadPlan.
Context (w : GatewayOpenAIWSSchedulerScoreWeightsView) (lbTopK : Z) (snap : bool).
Context (cost_factors : list Account -> gmap Z f64).

Lemma candidate_of_account stats loadMap a : account (candidate_of stats loadMap a) = a.
Proof. unfold candidate_of. destruct (snapshot _ _) as [[? ?] ?]. by destruct (_ !! _). Qed.

Lemma candidates_ids stats loadMap l : map accountID (map (candidate_of stats loadMap) l) = map ID l.
Proof. rewrite map_map. apply map_ext. intros a. unfold accountID. by rewrite candidate_of_account. Qed.

Lemma scored_accounts now factors req b range l :
  map account (map (candidate_score w now factors req b range) l) = map account l.
Proof. by rewrite map_map. Qed.

Lemma candidates_accounts stats loadMap l : map account (map (candidate_of stats loadMap) l) = l.
Proof. rewrite map_map. rewrite <- (map_id l) at 2. apply map_ext. intros a. by rewrite candidate_of_account. Qed.

Lemma account_ids (l k : list openAIAccountCandidateScore) :
  map account l = map account k -> map accountID l = map accountID k.
Proof. intros H. unfold accountID. rewrite <- !(map_map account ID). by rewrite H. Qed.

(** The candidates of a plan, before they are scored. *)
Definition considered (req : plan_request) (all : list openAIAccountCandidateScore) : list openAIAccountCandidateScore :=
  if RequireCompact req then List.filter (fun c => negb (tier c =? 0)) all else all.

Definition set_aside (req : plan_request) (all : list openAIAccountCandidateScore) : list openAIAccountCandidateScore :=
  if RequireCompact req then List.filter (fun c => tier c =? 0) all else [].

Lemma considered_sub req all : considered req all ++ set_aside req all ⊆+ all.
Proof.
  unfold considered, set_aside. destruct (RequireCompact req); [|by rewrite app_nil_r].
  apply filters_submseteq. intros x. lia.
Qed.

Lemma plan_shape req stats now filtered loadMap :
  let p := buildOpenAIAccountLoadPlan w lbTopK snap cost_factors req stats now filtered loadMap in
  let all := map (candidate_of stats loadMap) filtered in
  exists k cands, selectionOrder p =
      buildOpenAISelectionOrder req snap k (includeOverflowFallback p) cands (staleSnapshotCompactRetry p) /\
    map account cands = map account (considered req all) /\
    staleSnapshotCompactRetry p = set_aside req all /\
    (includeOverflowFallback p = true -> 0 < k).
Proof.
  intros p all. subst p. unfold buildOpenAIAccountLoadPlan. fold all. fold (considered req all). fold (set_aside req all).
  destruct (considered req all) as [|first rest] eqn:E.
  - exists 0, []. cbn. by rewrite ?E.
  - do 2 eexists. cbn [selectionOrder includeOverflowFallback staleSnapshotCompactRetry]. split; [done|].
    split; [apply scored_accounts|]. split; [done|]. intros _.
    match goal with |- 0 < (if ?x <=? 0 then _ else _) => destruct (Z.leb_spec x 0); lia end.
Qed.


End LoadPlan.

(** ** The random numbers *)

Definition word (n : Z) : Prop := 0 <= n < 2 ^ 64.

Lemma word_log2 n : word n <-> 0 <= n /\ (n = 0 \/ Z.log2 n < 64).
Proof.
  unfold word. split.
  - intros [H0 H]. split; [done|]. destruct (Z.eq_dec n 0); [by left|right]. apply Z.log2_lt_pow2; lia.
  - intros [H0 [-> |H]]; [done|]. split; [done|]. destruct (Z.eq_dec n 0) as [-> |]; [done|]. apply Z.log2_lt_pow2; lia.
Qed.

Lemma lxor_word a b : word a -> word b -> word (Z.lxor a b).
Proof.
  rewrite !word_log2. intros [Ha Ha'] [Hb Hb']. split; [by apply Z.lxor_nonneg|].
  destruct Ha' as [-> |Ha']; [by rewrite Z.lxor_0_l|]. destruct Hb' as [-> |Hb']; [rewrite Z.lxor_0_r; by right|].
  right. pose proof (Z.log2_lxor a b Ha Hb). lia.
Qed.

Lemma shiftr_word a n : 0 < n -> word a -> word (Z.shiftr a n).
Proof.
  unfold word. intros Hn [H0 H]. rewrite Z.shiftr_div_pow2 by lia.
  assert (1 < 2 ^ n) by (apply Z.pow_gt_1; lia). split; [apply Z.div_pos; lia|].
  assert (a / 2 ^ n <= a) by (apply Z.div_le_upper_bound; nia). lia.
Qed.

Lemma uint64_word n : word (uint64 n).
Proof. apply Z.mod_pos_bound. lia. Qed.

(** The three steps are one-to-one: none takes a non-zero word to zero. *)
Lemma xor_shiftr_nonzero a n : 0 < n -> 0 < a -> Z.lxor a (Z.shiftr a n) <> 0.
Proof.
  intros Hn Ha H. apply Z.lxor_eq in H. rewrite Z.shiftr_div_pow2 in H by lia.
  assert (1 < 2 ^ n) by (apply Z.pow_gt_1; lia).
  assert (a / 2 ^ n < a) by (apply Z.div_lt; lia). lia.
Qed.

Lemma xor_shiftl_nonzero a : word a -> a <> 0 -> Z.lxor a (uint64 (Z.shiftl a 25)) <> 0.
Proof.
  intros [H0 Hw] Ha H. apply Z.lxor_eq in H. rewrite Z.shiftl_mul_pow2 in H by lia. unfold uint64 in H.
  assert (Hd : (2 ^ 64 | a * (2 ^ 25 - 1))).
  { exists (a * 2 ^ 25 / 2 ^ 64). pose proof (Z.div_mod (a * 2 ^ 25) (2 ^ 64)). lia. }
  rewrite Z.mul_comm in Hd. apply Z.gauss in Hd; [|reflexivity]. apply Z.divide_pos_le in Hd; lia.
Qed.

Definition live (state : Z) : Prop := 0 < state < 2 ^ 64.

Lemma next_live state : live state -> live (nextUint64 state).1 /\ word (nextUint64 state).2.
Proof.
  intros Hs. unfold nextUint64. cbn [fst snd]. set (x1 := Z.lxor state (Z.shiftr state 12)).
  assert (H1 : word x1 /\ x1 <> 0).
  { split; [apply lxor_word; [|apply shiftr_word]; unfold word, live in *; lia|].
    apply xor_shiftr_nonzero; unfold live in *; lia. }
  set (x2 := Z.lxor x1 (uint64 (Z.shiftl x1 25))).
  assert (H2 : word x2 /\ x2 <> 0).
  { split; [apply lxor_word; [tauto|apply uint64_word]|apply xor_shiftl_nonzero; tauto]. }
  assert (H3 : word (Z.lxor x2 (Z.shiftr x2 27)) /\ Z.lxor x2 (Z.shiftr x2 27) <> 0).
  { split; [apply lxor_word; [|apply shiftr_word]; [tauto|done|tauto]|apply xor_shiftr_nonzero; unfold word in *; lia]. }
  split; [unfold live, word in *; lia|apply uint64_word].
Qed.

(** The states of the generator. *)
Definition rng_states (seed : Z) (n : nat) : Z := Nat.iter n (fun s => (nextUint64 s).1) (newOpenAISelectionRNG seed).

(** The generator of a request never gets stuck: from any seed, zero
    included, every state is a non-zero 64-bit word (a zero state would draw
    zero for ever), and every number drawn fits in 64 bits. *)
Theorem rng_never_stuck (seed : Z) (n : nat) (Hseed : word seed) :
  live (rng_states seed n) /\ word (nextUint64 (rng_states seed n)).2.
Proof.
  assert (Hl : live (rng_states seed n)); [|split; [done|by apply next_live]].
  unfold rng_states. induction n as [|n IH]; [|by apply next_live].
  unfold live, word in *. simpl Nat.iter. unfold newOpenAISelectionRNG.
  destruct (Z.eqb_spec seed 0); [by vm_compute|lia].
Qed.

(** ** The passes of the fallback *)

Lemma passes_perm b l : passes b l ≡ₚ l.
Proof.
  unfold passes. destruct (limited b); [|done]. cbn [map concat]. rewrite app_nil_r.
  induction l as [|c l IH]; [done|]. cbn [List.filter].
  destruct (in_pass b 0 c) eqn:E0, (in_pass b 1 c) eqn:E1, (in_pass b 2 c) eqn:E2, (in_pass b 3 c) eqn:E3.
  all: try (exfalso; unfold in_pass in *; destruct (wasAttempted (ID (account c)) b), (known_full c); done).
  all: cbn [app]; rewrite <- ?Permutation_middle, ?app_comm_cons; rewrite <- ?Permutation_middle; by constructor.
Qed.

(** ** The theorems at concrete inputs *)

Module RankingSample.
Definition acct (id priority : Z) : Account :=
  mkAccount id PlatformOpenAI AccountTypeOAuth None None 1 priority None None StatusActive None
    false true None None None None None None "" None [].

Definition cand (id priority : Z) (s : f64) : openAIAccountCandidateScore :=
  mkCandidate (acct id priority) (mkInfo id 0 0 0) true s 0 f0 f0 false.

Definition pool := [cand 3 1 f1; cand 1 2 f_half; cand 2 1 f1; cand 4 0 f_half].

Definition request (compact : bool) : plan_request := mkPlanRequest compact false false 0 0 true 5 7.

(** Costs that differ, so that the fallback covers every account. *)
Definition costs (l : list Account) : gmap Z f64 := {[1 := f1; 2 := f0]}.

Definition weights : GatewayOpenAIWSSchedulerScoreWeightsView :=
  mkWeights f1 f1 f1 f1 f1 f0 f0 f1 f0 f0.

Definition plan : openAIAccountLoadPlan :=
  buildOpenAIAccountLoadPlan weights 1 false costs (request false) ∅ 0 [acct 1 1; acct 2 1; acct 3 5] ∅.
End RankingSample.

Lemma top_k_is_sorted_prefix_witness :
  map accountID (selectTopKOpenAICandidates RankingSample.pool 3) = [2; 3; 4].
Proof.
  rewrite (top_k_is_sorted_prefix RankingSample.pool 3).
  - vm_compute. reflexivity.
  - repeat (constructor; [by rewrite ?elem_of_cons, elem_of_nil; cbn; lia|]). constructor.
  - by repeat constructor.
Defined.


Lemma rng_never_stuck_witness : word 0 /\ live (rng_states 0 3).
Proof. split; [by unfold word|]. apply (rng_never_stuck 0 3). by unfold word. Defined.
