(* ===== verification/OpenAICapabilities.v ===== *)
(** * What an OpenAI-compatible account can serve

    Endpoint and image capabilities (account.go), the upstream transport
    ([openai_ws_protocol_resolver.go]) and the transport a request requires
    ([openai_account_scheduler.go]). *)

From S2P Require Import Prelude GoStrings Float64 GoTime GoAny Account AccountProtocol.
Local Open Scope Z_scope.

(** ** Capabilities *)

Definition OpenAIEndpointCapabilityChatCompletions := "chat_completions".
Definition OpenAIEndpointCapabilityEmbeddings := "embeddings".
Definition OpenAIEndpointCapabilityAlphaSearch := "alpha_search".
Definition OpenAIEndpointCapabilityLive := "live".
Definition OpenAIEndpointCapabilityGrokMediaGeneration := "grok_media_generation".
Definition OpenAIEndpointCapabilityResponses := "responses".

Definition IsOpenAIAgentIdentity (a : Account) : bool :=
  IsOpenAIOAuth a && (ToLower (TrimSpace (GetCredential a "auth_mode")) ==? "agentidentity").

(** The fields of [xai.BillingSummary] the decision reads. *)
Record BillingSummary := mkBilling {
  UsagePercent : option f64;
  UsedPercent : option f64;
  MonthlyLimitCents : option f64;
  Plan : string;
  StatusCode : Z;
  WeeklyStatusCode : Z;
  MonthlyStatusCode : Z;
}.

Definition grokBillingHasAuthoritativeQuota (b : BillingSummary) : bool :=
  bool_decide (is_Some (UsagePercent b)) || bool_decide (is_Some (UsedPercent b))
  || match MonthlyLimitCents b with Some c => fltb f0 c | None => false end
  || (TrimSpace (Plan b) !=? "").

(** [(value, ok)]: a value that is no boolean counts as absent. *)
Definition grokMediaEligibilityOverride (extra : anymap) : option bool :=
  match lookup_key extra "grok_media_eligible" with Some (ABool b) => Some b | _ => None end.

Section Capabilities.
(** What decodes the stored billing snapshot of a Grok account, and what its
    token and snapshots tell of a free plan. *)
Context (grok_billing : Account -> option BillingSummary) (known_free : Account -> bool).

(** [(eligible, reason)]. *)
Definition GrokMediaGenerationEligibility (a : Account) : bool * string :=
  if negb (IsGrok a) then (false, "not_grok")
  else match grokMediaEligibilityOverride (Extra a) with
       | Some true => (true, "override_enabled")
       | Some false => (false, "override_disabled")
       | None =>
           if AType a !=? AccountTypeOAuth then (true, "non_oauth")
           else match grok_billing a with
                | None => (false, "billing_unobserved")
                | Some b =>
                    if (StatusCode b =? 403) || (WeeklyStatusCode b =? 403) || (MonthlyStatusCode b =? 403)
                    then (false, "billing_forbidden")
                    else if known_free a then (false, "billing_free_tier")
                    else if negb (grokBillingHasAuthoritativeQuota b) then (false, "billing_inconclusive")
                    else (true, "eligible")
                end
       end.

(** The lookup in the configured set, without which all are granted. *)
Definition configured_capability (a : Account) (capability : string) : bool :=
  match openAIEndpointCapabilitySet a with
  | None => true
  | Some configured =>
      ((capability ==? OpenAIEndpointCapabilityAlphaSearch)
       && bool_decide (OpenAIEndpointCapabilityChatCompletions ∈ configured))
      || bool_decide (capability ∈ configured)
  end.

Definition SupportsOpenAIEndpointCapability (a : Account) (capability : string) : bool :=
  if capability ==? "" then true
  else if negb (IsOpenAICompatible a) then false
  else if IsGrok a then
    if capability ==? OpenAIEndpointCapabilityChatCompletions then true
    else if capability ==? OpenAIEndpointCapabilityGrokMediaGeneration then
      let '(eligible, reason) := GrokMediaGenerationEligibility a in
      eligible || (reason ==? "billing_unobserved")
    else false
  else if capability ==? OpenAIEndpointCapabilityChatCompletions then configured_capability a capability
  else if capability ==? OpenAIEndpointCapabilityLive then
    (Platform a ==? PlatformOpenAI) && (AType a ==? AccountTypeOAuth)
    && negb (IsOpenAIPersonalAccessToken a) && negb (IsOpenAIAgentIdentity a)
  else if capability ==? OpenAIEndpointCapabilityResponses then
    if (AType a ==? AccountTypeAPIKey) && negb (ShouldUseResponsesAPI (Extra a)) then false
    else configured_capability a OpenAIEndpointCapabilityChatCompletions
  else if capability ==? OpenAIEndpointCapabilityAlphaSearch then
    if (AType a !=? AccountTypeOAuth) && (AType a !=? AccountTypeAPIKey) then false
    else configured_capability a capability
  else if capability ==? OpenAIEndpointCapabilityEmbeddings then
    if AType a !=? AccountTypeAPIKey then false else configured_capability a capability
  else false.

Definition SupportsOpenAIImageCapability (a : Account) (capability : string) : bool :=
  if capability ==? "" then true
  else if negb (IsOpenAI a) then false
  else if (capability ==? "images-basic") || (capability ==? "images-native")
  then (AType a ==? AccountTypeOAuth) || (AType a ==? AccountTypeSetupToken) || (AType a ==? AccountTypeAPIKey)
  else true.

Definition accountSupportsOpenAICapabilities (a : Account) (requiredCapability requiredImageCapability : string) : bool :=
  SupportsOpenAIEndpointCapability a requiredCapability && SupportsOpenAIImageCapability a requiredImageCapability.
End Capabilities.

(** ** Transports *)

Definition OpenAIUpstreamTransportAny := "".
Definition OpenAIUpstreamTransportHTTPSSE := "http_sse".
Definition OpenAIUpstreamTransportResponsesWebsocket := "responses_websockets".
Definition OpenAIUpstreamTransportResponsesWebsocketV2 := "responses_websockets_v2".
Definition OpenAIUpstreamTransportResponsesWebsocketV2Ingress := "responses_websockets_v2_ingress".

Record OpenAIWSProtocolDecision := mkProtocolDecision { Transport : string; Reason : string }.

Definition openAIWSHTTPDecision (reason : string) : OpenAIWSProtocolDecision :=
  mkProtocolDecision OpenAIUpstreamTransportHTTPSSE reason.

(** The fields of [GatewayOpenAIWSConfig] that are read here. *)
Record GatewayOpenAIWSConfig := mkWSConfig {
  ForceHTTP : bool;
  Enabled : bool;
  OAuthEnabled : bool;
  APIKeyEnabled : bool;
  ModeRouterV2Enabled : bool;
  IngressModeDefault : string;
  ResponsesWebsocketsV2 : bool;
  ResponsesWebsockets : bool;
}.

(** The version enabled, for a reason that names it. *)
Definition enabled_version (cfg : GatewayOpenAIWSConfig) (v2 v1 : string) : OpenAIWSProtocolDecision :=
  if ResponsesWebsocketsV2 cfg then mkProtocolDecision OpenAIUpstreamTransportResponsesWebsocketV2 v2
  else if ResponsesWebsockets cfg then mkProtocolDecision OpenAIUpstreamTransportResponsesWebsocket v1
  else openAIWSHTTPDecision "feature_disabled".

(** The part under the mode router. *)
Definition resolve_mode (cfg : GatewayOpenAIWSConfig) (a : Account) : OpenAIWSProtocolDecision :=
  let mode := ResolveOpenAIResponsesWebSocketV2Mode a (IngressModeDefault cfg) in
  let go mode :=
    if Concurrency a <=? 0 then openAIWSHTTPDecision "account_concurrency_invalid"
    else enabled_version cfg ("ws_v2_mode_" +:+ mode) ("ws_v1_mode_" +:+ mode) in
  if mode ==? OpenAIWSIngressModeOff then openAIWSHTTPDecision "account_mode_off"
  else if (mode ==? OpenAIWSIngressModeCtxPool) || (mode ==? OpenAIWSIngressModePassthrough) then go mode
  else if mode ==? OpenAIWSIngressModeHTTPBridge then openAIWSHTTPDecision "ws_v2_mode_http_bridge"
  else if (mode ==? OpenAIWSIngressModeShared) || (mode ==? OpenAIWSIngressModeDedicated)
  then go OpenAIWSIngressModeCtxPool
  else openAIWSHTTPDecision "account_mode_off".

Definition Resolve (cfg : option GatewayOpenAIWSConfig) (a : Account) : OpenAIWSProtocolDecision :=
  if negb (IsOpenAI a) then openAIWSHTTPDecision "platform_not_openai"
  else if IsOpenAIWSForceHTTPEnabled a then openAIWSHTTPDecision "account_force_http"
  else match cfg with
  | None => openAIWSHTTPDecision "config_missing"
  | Some cfg =>
      if ForceHTTP cfg then openAIWSHTTPDecision "global_force_http"
      else if negb (Enabled cfg) then openAIWSHTTPDecision "global_disabled"
      else
        let auth :=
          if IsOpenAIOAuthLike a then (if OAuthEnabled cfg then None else Some "oauth_disabled")
          else if IsOpenAIApiKey a then (if APIKeyEnabled cfg then None else Some "apikey_disabled")
          else Some "unknown_auth_type" in
        match auth with
        | Some reason => openAIWSHTTPDecision reason
        | None =>
            if ModeRouterV2Enabled cfg then resolve_mode cfg a
            else if negb (IsOpenAIResponsesWebSocketV2Enabled a) then openAIWSHTTPDecision "account_disabled"
            else enabled_version cfg "ws_v2_enabled" "ws_v1_enabled"
        end
  end.

Definition isOpenAIAccountTransportCompatible (cfg : option GatewayOpenAIWSConfig) (a : Account)
    (requiredTransport : string) : bool :=
  if (requiredTransport ==? OpenAIUpstreamTransportAny) || (requiredTransport ==? OpenAIUpstreamTransportHTTPSSE)
  then true
  else if requiredTransport ==? OpenAIUpstreamTransportResponsesWebsocketV2Ingress then
    match cfg with
    | Some c =>
        if ModeRouterV2Enabled c then
          let mode := ResolveOpenAIResponsesWebSocketV2Mode a (IngressModeDefault c) in
          (mode ==? OpenAIWSIngressModeCtxPool) || (mode ==? OpenAIWSIngressModePassthrough)
          || (mode ==? OpenAIWSIngressModeHTTPBridge) || (mode ==? OpenAIWSIngressModeShared)
          || (mode ==? OpenAIWSIngressModeDedicated)
        else Transport (Resolve cfg a) ==? OpenAIUpstreamTransportResponsesWebsocketV2
    | None => Transport (Resolve cfg a) ==? OpenAIUpstreamTransportResponsesWebsocketV2
    end
  else Transport (Resolve cfg a) ==? requiredTransport.
