(* ===== verification/OpenAICalls.v ===== *)
(** * The calls of the OpenAI scheduler

    Those of the gateway scheduler (GatewayCalls.v) and a few of its own, the
    lifting of the gateway's programs to them, and which of them move a slot. *)

From S2P Require Import Prelude GoProgram Float64 GoTime Account ConcurrencyCache OpenAIQuota OpenAIRanking GatewayCalls.
Local Open Scope Z_scope.

(** [Gateway] is a call of the shared clock, caches and repositories.  The
    others read and write the sticky bindings of sessions and responses (whose
    cache keys and time to live are the callee's), the in-memory circuits, the
    loads, the settings and the statistics of the scheduler. *)
Inductive ocall :=
| Gateway (c : call)
| GetGroupPrivacy (gid : Z)
| RuntimeBlocked (a : Account) (model : string)
| ProxyStreamQuarantined (a : Account)
| NotifyAutoReset (id : Z)
| GrokTeamModelRateLimited (a : Account) (model : string)
| GrokModelQuotaBlocked (id : Z) (model : string)
| GetAccountsLoadBatch' (fresh : bool) (accounts : list (Z * Z))
| GetStickySession (gid : Z) (hash : string)
| SetStickySession (gid : Z) (hash : string) (id : Z)
| DeleteStickySession (gid : Z) (hash : string)
| RefreshStickySession (gid : Z) (hash : string)
| GetResponseAccount (gid : Z) (response : string)
| DeleteResponseAccount (gid : Z) (response : string)
| BindResponseAccount (gid : Z) (response : string) (id : Z)
| ReadStats
| RuntimeSettings
| GetQuotaAutoPauseSettings
| ActiveBlockCount (now : time)
| RecordSelect (d : OpenAIAccountScheduleDecision).

(** The outer option of a fallible call is [None] on error; a group found is
    its [RequirePrivacySet]. *)
Definition oreply (c : ocall) : Type :=
  match c with
  | Gateway c => reply c
  | GetGroupPrivacy _ => option (option bool)
  | RuntimeBlocked _ _ | ProxyStreamQuarantined _ | GrokTeamModelRateLimited _ _ | GrokModelQuotaBlocked _ _ => bool
  | NotifyAutoReset _ => unit
  | GetAccountsLoadBatch' _ _ => option (gmap Z LoadInfo)
  | GetStickySession _ _ => option Z
  | SetStickySession _ _ _ | DeleteStickySession _ _ | RefreshStickySession _ _ => unit
  | GetResponseAccount _ _ => option Z
  | DeleteResponseAccount _ _ | BindResponseAccount _ _ _ => unit
  | ReadStats => openAIAccountRuntimeStats
  | RuntimeSettings => openAIAdvancedSchedulerRuntimeSettings
  | GetQuotaAutoPauseSettings => OpsOpenAIAccountQuotaAutoPauseSettings
  | ActiveBlockCount _ => Z
  | RecordSelect _ => unit
  end.

Abbreviation oprog := (GoProgram.prog oreply).
Abbreviation oevent := (GoProgram.event oreply).

Definition odo (c : ocall) : oprog (oreply c) := Call c Return.
Definition gdo (c : call) : oprog (reply c) := Call (Gateway c : ocall) Return.

(** A program of the gateway as one of the scheduler. *)
Fixpoint lift {A} (p : GatewayCalls.prog A) : oprog A :=
  match p with
  | Return a => Return a
  | Call c k => Call (Gateway c : ocall) (fun r => lift (k r))
  | Panic => Panic
  end.

(** The calls that move no slot and record no decision. *)
Definition oquiet (c : ocall) : bool :=
  match c with Gateway c => quiet c | RecordSelect _ => false | _ => true end.

Class OQuietStep {S : Type} (step : forall c, oreply c -> S -> S) : Prop :=
  oquiet_step : forall c r s, oquiet c = true -> step c r s = s.

(** The steps of a gateway's program. *)
Definition gateway_step {S : Type} (step : forall c, oreply c -> S -> S) (c : call) : reply c -> S -> S :=
  step (Gateway c).

#[export] Instance gateway_quiet {S : Type} (step : forall c, oreply c -> S -> S) :
  OQuietStep step -> QuietStep (gateway_step step).
Proof. intros H c r s Hc. by apply H. Qed.

Lemma wp_lift {S A : Type} (step : forall c, oreply c -> S -> S) (ok : forall c, oreply c -> Prop)
    (p : GatewayCalls.prog A) s (Q : A -> S -> Prop) :
  wp (gateway_step step) (fun c => ok (Gateway c)) p s Q -> wp step ok (lift p) s Q.
Proof. revert s. induction p as [a|c k IH|]; simpl; intros s H; [done|auto|done]. Qed.

Lemma returns_lift {S A : Type} (step : forall c, oreply c -> S -> S) (ok : forall c, oreply c -> Prop)
    (p : GatewayCalls.prog A) (P : A -> Prop) :
  returns (gateway_step step) (fun c => ok (Gateway c)) p P -> returns step ok (lift p) P.
Proof. intros H s Q HQ. apply wp_lift, H, HQ. Qed.

Lemma returns_odo {S : Type} (step : forall c, oreply c -> S -> S) ok `{!OQuietStep step} c (P : oreply c -> Prop) :
  oquiet c = true -> (forall r, ok c r -> P r) -> returns step ok (odo c) P.
Proof. intros Hc HP s Q HQ r Hr. simpl. rewrite oquiet_step by done. auto. Qed.

Lemma returns_gdo {S : Type} (step : forall c, oreply c -> S -> S) ok `{!OQuietStep step} (c : call) (P : reply c -> Prop) :
  quiet c = true -> (forall r : reply c, ok (Gateway c) r -> P r) -> returns step ok (gdo c) P.
Proof. intros Hc HP. exact (returns_odo step ok (Gateway c) P Hc HP). Qed.
