(* ===== verification/OpenAIEligibility.v ===== *)
(** * Which OpenAI-compatible accounts may serve a request

    The vetoes of [openai_gateway_scheduling.go] and
    [openai_account_scheduler.go], and how the scheduler lists accounts and
    reads them again before it returns one, as programs. *)

From S2P Require Import Prelude GoStrings Float64 GoTime GoAny Account AccountProtocol ModelMapping AccountScheduling ModelAvailability GroupRouting GoProgram GatewayCalls SelectionGates OpenAIQuota OpenAIRanking OpenAICapabilities OpenAICalls.
Local Open Scope Z_scope.

(** What the request's context carries: the keys of model limits, the pause
    settings, the privacy requirement of a group if it was loaded, the profit
    gate, whether the proxy circuit is bypassed, the model a forward already
    chose, and the session hashes of a guarded parent. *)
Record OCtx := mkOCtx {
  oc_Models : ModelCtx;
  oc_PauseSettings : OpsOpenAIAccountQuotaAutoPauseSettings;
  oc_Privacy : option (Z * bool);
  oc_Gate : option openAIProfitControlGate;
  oc_QuarantineBypass : bool;
  oc_ForwardModel : option (string * bool);
  oc_Guardian : option (string * string);
}.

(** Which collaborators of [OpenAIGatewayService] are configured, and the
    configuration read. *)
Record OServices := mkOServices {
  os_concurrencyService : bool;
  os_schedulerSnapshot : bool;
  os_accountRepo : bool;
  os_rateLimitService : bool;
  os_cache : bool;
  os_channelService : bool;
  os_RunModeSimple : bool;
  os_scheduling : option GatewaySchedulingConfig;
  os_ws : option GatewayOpenAIWSConfig;
  os_scheduler : option GatewayOpenAISchedulerConfig;
  os_weights : GatewayOpenAIWSSchedulerScoreWeightsView;
  os_topK : option Z;
}.

Record OpenAIAccountScheduleRequest := mkScheduleRequest {
  rq_GroupID : option Z;
  rq_Platform : string;
  rq_SessionHash : string;
  rq_StickyAccountID : Z;
  rq_GuardianParentAccountID : Z;
  rq_StickyPreviousAccountID : Z;
  rq_StickyWeighted : bool;
  rq_SubscriptionPriority : bool;
  rq_PreserveStickyBinding : bool;
  rq_RequirePrivacySet : bool;
  rq_PreviousResponseID : string;
  rq_PreviousResponseCanMove : bool;
  rq_UseUpstreamTokenCost : bool;
  rq_RequestedModel : string;
  rq_RequiredTransport : string;
  rq_RequiredCapability : string;
  rq_RequiredImageCapability : string;
  rq_RequireCompact : bool;
  rq_ExcludedIDs : gset Z;
}.

Definition NormalizeOpenAICompatiblePlatform (platform : string) : string :=
  if (platform ==? PlatformGrok) || (platform ==? PlatformKimi) || (platform ==? PlatformZhipu)
     || (platform ==? PlatformDeepseek)
  then platform else PlatformOpenAI.

(** The reasons of the profit gate. *)
Definition profit_reason (v : ProfitVeto) : string :=
  match v with
  | VetoInvalidAccountRate => "profit_invalid_account_rate"
  | VetoThreshold => "profit_threshold"
  end.

(** The first reason of a list of vetoes tried in order. *)
Fixpoint first_veto (l : list (oprog (option string))) : oprog (option string) :=
  match l with
  | [] => Return None
  | p :: l => r ← p; match r with Some reason => Return (Some reason) | None => first_veto l end
  end.

(** A veto without calls. *)
Definition veto_if (b : bool) (reason : string) : oprog (option string) :=
  Return (if b then Some reason else None).

(** A veto by a call. *)
Definition veto_by (p : oprog bool) (reason : string) : oprog (option string) :=
  b ← p; Return (if (b : bool) then Some reason else None).

Section Eligibility.
Context (opts : ModelMappingOptions) (tzdb : string -> option Location) (svc : OServices).
(** What decodes the stored snapshots of Grok accounts, and tells a free plan. *)
Context (grok_billing : Account -> option BillingSummary) (known_free : Account -> bool).
Context (grok_quota : Account -> option QuotaSnapshot).
(** The model an account sends upstream for a requested one. *)
Context (upstream_model : Account -> string -> bool -> string).
(** The field [GroupIDs]. *)
Context (GroupIDs : Account -> list Z).

(** ** Health, privacy, quota *)

(** [isOpenAIAccountBlockedBySchedulingThreshold], which may update the
    account it is given. *)
Definition blocked_by_threshold (a : Account) : oprog (bool * Account) :=
  if os_rateLimitService svc then gdo (ApplyAccountSchedulingThreshold a) else Return (false, a).

Definition isOpenAIProxyStreamQuarantined (c : OCtx) (a : Account) : oprog bool :=
  if oc_QuarantineBypass c then Return false else odo (ProxyStreamQuarantined a).

Definition parentHealthyForShadow (a : Account) (lookup : Z -> oprog (option Account)) : oprog bool :=
  match ParentAccountID a with
  | None => Return true
  | Some id =>
      parent ← lookup id;
      match parent with
      | None => Return false
      | Some p => now ← gdo Now; Return (IsOpenAIOAuth p && IsCredentialUsableForShadow now p)
      end
  end.

(** The account that was found, errors ignored. *)
Definition found (r : option (option Account)) : option Account :=
  match r with Some a => a | None => None end.

Definition parentAccountLookup (id : Z) : oprog (option Account) :=
  if os_accountRepo svc then r ← gdo (GetByID id); Return (found r) else Return None.

Definition lookupShadowParentAccount (id : Z) : oprog (option Account) :=
  if os_schedulerSnapshot svc then
    r ← gdo (SnapshotGetAccount id);
    match found r with Some a => Return (Some a) | None => parentAccountLookup id end
  else parentAccountLookup id.

Definition loadOpenAIGroupRequiresPrivacySet (groupID : option Z) : oprog bool :=
  match groupID with
  | Some gid =>
      if os_schedulerSnapshot svc then
        r ← odo (GetGroupPrivacy gid);
        Return match r with None => true | Some g => default false g end
      else Return false
  | None => Return false
  end.

Definition openAIGroupRequiresPrivacySet (c : OCtx) (groupID : option Z) : oprog bool :=
  match oc_Privacy c with
  | Some (gid, required) =>
      if gid =? derefGroupID groupID then Return required else loadOpenAIGroupRequiresPrivacySet groupID
  | None => loadOpenAIGroupRequiresPrivacySet groupID
  end.

(** The pause of an OpenAI account and its notification. *)
Definition auto_pause (c : OCtx) (a : Account) : oprog (option openAIQuotaAutoPauseDecision) :=
  if negb (IsOpenAI a) then Return None
  else
    now ← gdo Now; now' ← gdo Now;
    let r := shouldAutoPauseOpenAIAccountByQuota (oc_PauseSettings c) a now now' in
    if notified r then _ ← odo (NotifyAutoReset (ID a)); Return (paused r) else Return (paused r).

Definition pause_suffix (window : string) : string :=
  if window ==? "" then "quota_auto_pause" else "quota_auto_pause_" +:+ window.

Definition pause_veto (p : option openAIQuotaAutoPauseDecision) : option string :=
  (fun d => pause_suffix (pd_window d)) <$> p.

Definition profit_veto (c : OCtx) (a : Account) : oprog (option string) :=
  Return (profit_reason <$> openAIProfitControlVetoReason (oc_Gate c) a).

(** ** Channels and groups *)

Definition needsUpstreamChannelRestrictionCheck (groupID : option Z) : oprog bool :=
  match groupID with
  | Some gid =>
      if os_channelService svc then
        ch ← gdo (GetChannelForGroup gid);
        Return match ch with
               | Some (Some (restrict, source)) => restrict && (source ==? BillingModelSourceUpstream)
               | _ => false
               end
      else Return false
  | None => Return false
  end.

Definition isUpstreamModelRestrictedByChannel (c : OCtx) (gid : Z) (a : Account) (requestedModel : string)
    (requireCompact : bool) : oprog bool :=
  if negb (os_channelService svc) then Return false
  else
    let '(model, compact) := default (requestedModel, requireCompact) (oc_ForwardModel c) in
    let upstream := upstream_model a model compact in
    if upstream ==? "" then Return false else gdo (IsModelRestricted gid upstream).

Definition openAIStickyAccountMatchesGroup (a : Account) (groupID : option Z) : bool :=
  match groupID with
  | None => match AccountGroups a, GroupIDs a with [], [] => true | _, _ => false end
  | Some gid => bool_decide (gid ∈ GroupIDs a) || bool_decide (gid ∈ AccountGroups a)
  end.

Definition openAIAccountMatchesSchedulingGroup (a : Account) (groupID : option Z) : bool :=
  if os_RunModeSimple svc then true else openAIStickyAccountMatchesGroup a groupID.

(** ** The vetoes *)

Definition channel_restricted (c : OCtx) (a : Account) (req : OpenAIAccountScheduleRequest) : oprog bool :=
  match rq_GroupID req with
  | None => Return false
  | Some gid =>
      needed ← needsUpstreamChannelRestrictionCheck (rq_GroupID req);
      if (needed : bool)
      then isUpstreamModelRestrictedByChannel c gid a (rq_RequestedModel req) (rq_RequireCompact req)
      else Return false
  end.

(** [isAccountRequestCompatibleReason]: [None] when compatible. *)
Definition isAccountRequestCompatibleReason (c : OCtx) (a : Account) (req : OpenAIAccountScheduleRequest)
    : oprog (option string) :=
  first_veto [
    veto_if (rq_RequirePrivacySet req && negb (IsPrivacySet a)) "privacy_not_set";
    veto_by (odo (RuntimeBlocked a (rq_RequestedModel req))) "runtime_blocked";
    veto_by (isOpenAIProxyStreamQuarantined c a) "proxy_stream_quarantined";
    (p ← auto_pause c a;
     Return match p with
            | Some d => Some (if pd_reason d !=? "" then pd_reason d else pause_suffix (pd_window d))
            | None => None
            end);
    veto_by (h ← parentHealthyForShadow a lookupShadowParentAccount; Return (negb h)) "shadow_parent_unhealthy";
    veto_if ((rq_RequestedModel req !=? "") && negb (IsModelSupported opts a (rq_RequestedModel req)))
      "model_not_supported";
    veto_by (channel_restricted c a req) "channel_upstream_restricted";
    veto_if (negb (accountSupportsOpenAICapabilities grok_billing known_free a (rq_RequiredCapability req)
                     (rq_RequiredImageCapability req))) "capability_mismatch";
    profit_veto c a].

Definition isAccountRequestCompatible (c : OCtx) (a : Account) (req : OpenAIAccountScheduleRequest) : oprog bool :=
  r ← isAccountRequestCompatibleReason c a req; Return (match r with None => true | Some _ => false end).

Definition isAccountTransportCompatible (a : Account) (requiredTransport : string) : bool :=
  isOpenAIAccountTransportCompatible (os_ws svc) a requiredTransport.

(** [openAICompatibleAccountEligibilityFailureReasonBeforeProfit], [None]
    when eligible. *)
Definition eligibility_failure (c : OCtx) (a : Account) (platform requestedModel : string) (requireCompact : bool)
    (requiredCapability : string) : oprog (option string) :=
  first_veto [
    veto_if ((Platform a !=? NormalizeOpenAICompatiblePlatform platform) || negb (IsOpenAICompatible a))
      "platform_mismatch";
    (ok ← lift (IsSchedulableForModelWithContext opts tzdb (oc_Models c) a requestedModel);
     if (ok : bool) then Return None
     else s ← lift (isAccountSchedulableForSelection tzdb a);
          Return (Some (if (s : bool) then "model_rate_limited" else "not_schedulable")));
    (p ← auto_pause c a; Return (pause_veto p));
    (if IsGrok a then
       now ← gdo Now;
       Return (pause_veto (shouldAutoPauseGrokAccountByQuota a (grok_quota a) now))
     else Return None);
    veto_if ((requestedModel !=? "") && negb (IsModelSupported opts a requestedModel)) "model_not_supported";
    veto_if (negb (SupportsOpenAIEndpointCapability grok_billing known_free a requiredCapability))
      "capability_mismatch";
    veto_if (requireCompact && (openAICompactSupportTier a =? 0)) "compact_unsupported"].

(** ** Reading accounts

    Without a snapshot the accounts are read from the repository; without
    either the code calls through nil. *)

Definition getSchedulableAccount (id : Z) : oprog (option Account) :=
  r ← (if os_schedulerSnapshot svc then gdo (SnapshotGetAccount id)
       else if os_accountRepo svc then gdo (GetByID id) else Panic);
  match found r with
  | None => Return None
  | Some a =>
      b ← blocked_by_threshold a;
      let '(blocked, a) := b in
      if (blocked : bool) then Return None
      else if IsGrok a then
        gated ← gdo (FilterGrokFreeQuota [a]);
        Return match gated with [] => None | _ => Some a end
      else Return (Some a)
  end.

Fixpoint filterOpenAIAccountsBySchedulingThreshold (l : list Account) : oprog (list Account) :=
  match l with
  | [] => Return []
  | a :: l =>
      b ← blocked_by_threshold a;
      let '(blocked, a) := b in
      rest ← filterOpenAIAccountsBySchedulingThreshold l;
      Return (if (blocked : bool) then rest else a :: rest)
  end.

(** The accounts of a group or a platform; [None] on error. *)
Definition query_accounts (groupID : option Z) (platform : string) : oprog (option (list Account)) :=
  if os_schedulerSnapshot svc then
    s ← gdo (SnapshotListSchedulable groupID platform false);
    Return (fst <$> (s : option (list Account * bool)))
  else if os_accountRepo svc then
    gdo (RepoList (if os_RunModeSimple svc then ByPlatform platform
                   else match groupID with
                        | Some gid => ByGroupIDAndPlatform gid platform
                        | None => UngroupedByPlatform platform
                        end))
  else Panic.

(** [None] on error. *)
Definition listSchedulableAccounts (groupID : option Z) (platform : string) : oprog (option (list Account)) :=
  let platform := NormalizeOpenAICompatiblePlatform platform in
  r ← query_accounts groupID platform;
  match r return oprog (option (list Account)) with
  | None => Return None
  | Some accounts =>
      accounts ← filterOpenAIAccountsBySchedulingThreshold accounts;
      if platform ==? PlatformGrok
      then gated ← gdo (FilterGrokFreeQuota accounts); Return (Some gated)
      else Return (Some accounts)
  end.

(** An account that passes [p]; [None] otherwise. *)
Definition keep_if (p : oprog bool) (q : oprog (option Account)) : oprog (option Account) :=
  b ← p; if (b : bool) then q else Return None.

Definition eligible (c : OCtx) (a : Account) (platform requestedModel : string) (requireCompact : bool)
    (requiredCapability : string) : oprog bool :=
  r ← eligibility_failure c a platform requestedModel requireCompact requiredCapability;
  Return (match r with None => true | Some _ => false end).

Definition profit_kept (c : OCtx) (a : option Account) : option Account :=
  match a with
  | Some a => match openAIProfitControlVetoReason (oc_Gate c) a with None => Some a | Some _ => None end
  | None => None
  end.

(** The last check of an account, which may update it. *)
Definition unless_blocked (a : Account) (q : Account -> oprog (option Account)) : oprog (option Account) :=
  b ← blocked_by_threshold a;
  let '(blocked, a) := b in if (blocked : bool) then Return None else q a.

Definition unless_quarantined (c : OCtx) (a : Account) : oprog (option Account) :=
  q ← isOpenAIProxyStreamQuarantined c a; Return (if (q : bool) then None else Some a).

Definition resolveFreshSchedulableOpenAIAccountBeforeProfit (c : OCtx) (a : Account) (platform requestedModel : string)
    (requireCompact : bool) (requiredCapability : string) : oprog (option Account) :=
  fresh ← (if os_schedulerSnapshot svc then getSchedulableAccount (ID a) else Return (Some a));
  match fresh with
  | None => Return None
  | Some fresh =>
      keep_if (eligible c fresh platform requestedModel requireCompact requiredCapability)
        (keep_if (parentHealthyForShadow fresh parentAccountLookup)
          (keep_if (b ← odo (RuntimeBlocked fresh requestedModel); Return (negb b))
            (unless_blocked fresh (fun fresh => unless_quarantined c fresh))))
  end.

Definition resolveFreshSchedulableOpenAIAccount (c : OCtx) (a : Account) (platform requestedModel : string)
    (requireCompact : bool) (requiredCapability : string) : oprog (option Account) :=
  r ← resolveFreshSchedulableOpenAIAccountBeforeProfit c a platform requestedModel requireCompact requiredCapability;
  Return (profit_kept c r).

Definition recheckSelectedOpenAIAccountFromDBBeforeProfit (c : OCtx) (a : Account) (groupID : option Z)
    (platform requestedModel : string) (requireCompact : bool) (requiredCapability : string)
    : oprog (option Account) :=
  let privacy_ok a := (required ← openAIGroupRequiresPrivacySet c groupID;
                       Return (negb (required && negb (IsPrivacySet a)))) in
  if negb (os_schedulerSnapshot svc && os_accountRepo svc) then
    keep_if (privacy_ok a)
      (keep_if (eligible c a platform requestedModel requireCompact requiredCapability)
        (unless_blocked a (fun a =>
          keep_if (parentHealthyForShadow a parentAccountLookup) (unless_quarantined c a))))
  else
    l ← gdo (GetByID (ID a));
    match found l with
    | None => Return None
    | Some latest =>
        keep_if (Return (openAIAccountMatchesSchedulingGroup latest groupID))
          (keep_if (privacy_ok latest)
            (keep_if (eligible c latest platform requestedModel requireCompact requiredCapability)
              (keep_if (parentHealthyForShadow latest parentAccountLookup)
                (keep_if (b ← odo (RuntimeBlocked latest requestedModel); Return (negb b))
                  (unless_blocked latest (fun latest => unless_quarantined c latest))))))
    end.

Definition recheckSelectedOpenAIAccountFromDB (c : OCtx) (a : Account) (groupID : option Z)
    (platform requestedModel : string) (requireCompact : bool) (requiredCapability : string)
    : oprog (option Account) :=
  r ← recheckSelectedOpenAIAccountFromDBBeforeProfit c a groupID platform requestedModel requireCompact requiredCapability;
  Return (profit_kept c r).
End Eligibility.
