(* ===== verification/OpenAIScheduler.v ===== *)
(** * The OpenAI account scheduler: selection

    [Select] of [openai_account_scheduler.go] and everything below it: the
    account bound to the previous response, to a guarded parent, to the
    session, then the accounts ranked by OpenAIRanking.v under a budget of
    probes, and the wait plans when none is free.  The mutable budget is
    passed along; errors carry what distinguishes them. *)

From S2P Require Import Prelude GoSort GoStrings Float64 GoTime GoAny Account AccountProtocol ModelMapping AccountScheduling ModelAvailability GroupRouting GoProgram ConcurrencyCache GatewayCalls SelectionGates OpenAIQuota OpenAIRanking OpenAICapabilities OpenAICalls OpenAIEligibility.
Local Open Scope Z_scope.

(** ** Errors and statistics *)

Inductive OSelectionError :=
| NoAvailableOpenAI (message : string)       (** wraps [ErrNoAvailableAccounts] *)
| ErrNoAvailableCompactAccounts
| ErrNoAvailable                            (** [ErrNoAvailableAccounts] itself *)
| ChannelRestricted (model : string)        (** wraps [ErrNoAvailableAccounts] *)
| HydrationFailed
| ListFailed
| SlotFailed.

(** [openAISelectionFilterStats]. *)
Record openAISelectionFilterStats := mkFilterStats { pool : Z; reasons : gmap string Z }.

Definition no_stats : openAISelectionFilterStats := mkFilterStats 0 ∅.

Definition exclude (reason : string) (s : openAISelectionFilterStats) : openAISelectionFilterStats :=
  mkFilterStats (pool s) (<[reason := default 0 (reasons s !! reason) + 1]> (reasons s)).

Definition summary (extra : string) (s : openAISelectionFilterStats) : string :=
  let names := SliceStable String.ltb (map fst (map_to_list (reasons s))) in
  "pool=" +:+ FormatInt (pool s)
  +:+ (if bool_decide (reasons s = ∅) then ""
       else ", filtered:" +:+ foldr String.append ""
              (map (fun n => " " +:+ n +:+ "=" +:+ FormatInt (default 0 (reasons s !! n))) names))
  +:+ (if extra ==? "" then "" else ", " +:+ extra).

Definition noAvailableOpenAISelectionError (requestedModel : string) (compactBlocked : bool) (details : string)
    : OSelectionError :=
  if compactBlocked then ErrNoAvailableCompactAccounts
  else NoAvailableOpenAI (
    (if requestedModel ==? "" then "no available OpenAI accounts"
     else "no available OpenAI accounts supporting model: " +:+ requestedModel)
    +:+ (if details ==? "" then "" else " (" +:+ details +:+ ")")).

Section Scheduler.
Context (opts : ModelMappingOptions) (tzdb : string -> option Location) (svc : OServices).
Context (grok_billing : Account -> option BillingSummary) (known_free : Account -> bool).
Context (grok_quota : Account -> option QuotaSnapshot).
Context (upstream_model : Account -> string -> bool -> string) (GroupIDs : Account -> list Z).
(** For the costs: the logarithm, the exponential, and the rate an upstream
    declared, at a time. *)
Context (log exp : f64 -> f64) (fresh_rate : time -> Account -> option f64).

Abbreviation compatible := (isAccountRequestCompatible opts svc grok_billing known_free upstream_model).
Abbreviation incompatibility := (isAccountRequestCompatibleReason opts svc grok_billing known_free upstream_model).
Abbreviation resolve_fresh := (resolveFreshSchedulableOpenAIAccount opts tzdb svc grok_billing known_free grok_quota).
Abbreviation recheck := (recheckSelectedOpenAIAccountFromDB opts tzdb svc grok_billing known_free grok_quota GroupIDs).
Abbreviation schedulable_account := (getSchedulableAccount svc).

(** ** Slots, bindings and wait plans *)

(** [tryAcquireAccountSlot]: an error, refused, or the release function. *)
Definition acquire_slot (id maxConcurrency : Z) : oprog (option (option ReleaseFunc)) :=
  if negb (os_concurrencyService svc) then Return (Some (Some None))
  else
    r ← gdo (AcquireAccountSlot id maxConcurrency);
    Return match (r : option bool) with
           | None => None
           | Some true => Some (Some (Some id))
           | Some false => Some None
           end.

Definition release_slot (f : ReleaseFunc) : oprog unit :=
  match f with Some id => gdo (ReleaseSlot id) | None => Return tt end.

(** [tryAcquireOpenAIAccountSlot]: [None] when the budget allows no attempt. *)
Definition tryAcquireOpenAIAccountSlot (id maxConcurrency : Z) (budget : openAISelectionProbeBudget)
    : oprog (option (option (option ReleaseFunc)) * openAISelectionProbeBudget) :=
  let '(allowed, budget') :=
    if os_concurrencyService svc && (0 <? maxConcurrency) then recordAcquire id budget else (true, budget) in
  if negb allowed then Return (None, budget')
  else r ← acquire_slot id maxConcurrency; Return (Some r, budget').

Definition consumeOpenAISelectionDBRecheck (budget : openAISelectionProbeBudget) : bool * openAISelectionProbeBudget :=
  if negb (os_schedulerSnapshot svc && os_accountRepo svc) then (true, budget) else recordRecheck budget.

Definition preserveOpenAIGuardianParentBinding (c : OCtx) (sessionHash : string) : bool :=
  match oc_Guardian c with
  | Some (current, legacy) =>
      let h := TrimSpace sessionHash in (h !=? "") && ((h ==? current) || (h ==? legacy))
  | None => false
  end.

Definition bindOpenAIStickySessionDuringSelection (c : OCtx) (groupID : option Z) (sessionHash : string) (id : Z)
    : oprog unit :=
  let active := match oc_Gate c with Some _ => true | None => false end in
  if active || preserveOpenAIGuardianParentBinding c sessionHash then Return tt
  else if (sessionHash ==? "") || (id <=? 0) || negb (os_cache svc) then Return tt
  else odo (SetStickySession (derefGroupID groupID) sessionHash id).

Definition delete_sticky (groupID : option Z) (sessionHash : string) : oprog unit :=
  if os_cache svc then odo (DeleteStickySession (derefGroupID groupID) sessionHash) else Return tt.

(** [openAIGatewayService.schedulingConfig]: the configuration or its
    defaults. *)
Definition wait_config : GatewaySchedulingConfig :=
  default (mkSchedulingConfig 3 (45 * second) (30 * second) 100 "" false true) (os_scheduling svc).

Definition acquired_result (c : OCtx) (a : Account) (f : ReleaseFunc) : AccountSelectionResult :=
  mkSelection a true (Some f) None (oc_Gate c).

Definition sticky_wait (c : OCtx) (a : Account) : AccountSelectionResult :=
  mkSelection a false None
    (Some (mkWaitPlan (ID a) (Concurrency a) (StickySessionWaitTimeout wait_config) (StickySessionMaxWaiting wait_config)))
    (oc_Gate c).

Definition fallback_wait (c : OCtx) (a : Account) : AccountSelectionResult :=
  mkSelection a false None
    (Some (mkWaitPlan (ID a) (Concurrency a) (FallbackWaitTimeout wait_config) (FallbackMaxWaiting wait_config)))
    (oc_Gate c).

(** The account, when its transport and the request allow it. *)
Definition usable (c : OCtx) (req : OpenAIAccountScheduleRequest) (a : option Account) : oprog (option Account) :=
  match a with
  | None => Return None
  | Some a =>
      if negb (isAccountTransportCompatible svc a (rq_RequiredTransport req)) then Return None
      else ok ← compatible c a req; Return (if (ok : bool) then Some a else None)
  end.

Definition fresh_usable (c : OCtx) (req : OpenAIAccountScheduleRequest) (a : Account) : oprog (option Account) :=
  r ← resolve_fresh c a (rq_Platform req) (rq_RequestedModel req) false (rq_RequiredCapability req); usable c req r.

Definition latest_usable (c : OCtx) (req : OpenAIAccountScheduleRequest) (a : Account) : oprog (option Account) :=
  r ← recheck c a (rq_GroupID req) (rq_Platform req) (rq_RequestedModel req) false (rq_RequiredCapability req);
  usable c req r.

(** ** The order under the budget *)

Definition Attempted : Type :=
  result OSelectionError (option AccountSelectionResult) * bool * openAISelectionProbeBudget.

(** The session is bound to the account returned. *)
Definition return_acquired (c : OCtx) (req : OpenAIAccountScheduleRequest) (a : Account) (f : ReleaseFunc)
    : oprog AccountSelectionResult :=
  _ ← (if (rq_SessionHash req !=? "") && negb (rq_PreserveStickyBinding req)
       then bindOpenAIStickySessionDuringSelection c (rq_GroupID req) (rq_SessionHash req) (ID a) else Return tt);
  Return (acquired_result c a f).

(** [tryAcquireOpenAISelectionOrderWithBudget]. *)
Fixpoint tryAcquireOpenAISelectionOrderWithBudget (c : OCtx) (req : OpenAIAccountScheduleRequest)
    (selectionOrder : list openAIAccountCandidateScore) (compactBlocked : bool) (budget : openAISelectionProbeBudget)
    : oprog Attempted :=
  match selectionOrder with
  | [] => Return (Ok None, compactBlocked, budget)
  | candidate :: rest =>
      let continue := tryAcquireOpenAISelectionOrderWithBudget c req rest in
      if known_full candidate then continue compactBlocked budget
      else
        r ← tryAcquireOpenAIAccountSlot (ID (account candidate)) (Concurrency (account candidate)) budget;
        let '(attempt, budget) := r in
        match attempt with
        | None => Return (Ok None, compactBlocked, budget)
        | Some None => Return (Err SlotFailed, compactBlocked, budget)
        | Some (Some None) => continue compactBlocked budget
        | Some (Some (Some f)) =>
            fresh ← fresh_usable c req (account candidate);
            match fresh with
            | None => _ ← release_slot f; continue compactBlocked budget
            | Some fresh =>
                let '(allowed, budget) := consumeOpenAISelectionDBRecheck budget in
                if negb allowed then _ ← release_slot f; Return (Ok None, compactBlocked, budget)
                else
                  latest ← latest_usable c req fresh;
                  match latest with
                  | None => _ ← release_slot f; continue compactBlocked budget
                  | Some latest =>
                      if rq_RequireCompact req && (openAICompactSupportTier latest =? 0)
                      then _ ← release_slot f; continue true budget
                      else if Concurrency latest =? Concurrency (account candidate) then
                        sel ← return_acquired c req latest f; Return (Ok (Some sel), compactBlocked, budget)
                      else
                        _ ← release_slot f;
                        r ← tryAcquireOpenAIAccountSlot (ID latest) (Concurrency latest) budget;
                        let '(attempt, budget) := r in
                        match attempt with
                        | None => continue compactBlocked budget
                        | Some None => Return (Err SlotFailed, compactBlocked, budget)
                        | Some (Some None) => continue compactBlocked budget
                        | Some (Some (Some f)) =>
                            sel ← return_acquired c req latest f; Return (Ok (Some sel), compactBlocked, budget)
                        end
                  end
            end
        end
  end.

(** ** Sticky accounts *)

Definition canonicalOpenAIAccountSchedulingModel (a : Account) (requestedModel : string) : string :=
  let model := TrimSpace requestedModel in
  if model ==? "" then model
  else if IsOpenAI a then upstream_model a model false
  else let mapped := TrimSpace (GetMappedModel opts a model) in if mapped !=? "" then mapped else model.

Definition isGrokTeamModelRateLimited (a : Account) (model : string) : oprog bool :=
  if IsGrokOAuth a then odo (GrokTeamModelRateLimited a model) else Return false.

(** Either Grok limit on the model the account would send. *)
Definition grok_limited (a : Account) (requestedModel : string) : oprog bool :=
  let model := canonicalOpenAIAccountSchedulingModel a requestedModel in
  b ← isGrokTeamModelRateLimited a model;
  if (b : bool) then Return true else odo (GrokModelQuotaBlocked (ID a) model).

Definition over_free_quota (a : Account) : oprog bool :=
  l ← gdo (FilterGrokFreeQuota [a]); Return (match l with [] => true | _ => false end).

(** One sticky account of [tryFallbackToWeightedSticky]; [Ok None] goes on to
    the next. *)
Definition weighted_sticky_one (c : OCtx) (req : OpenAIAccountScheduleRequest) (id : Z)
    : oprog (result OSelectionError (option AccountSelectionResult)) :=
  if (id <=? 0) || bool_decide (id ∈ rq_ExcludedIDs req) then Return (Ok None)
  else
    let forget : oprog unit := if (id =? rq_StickyAccountID req) && (TrimSpace (rq_SessionHash req) !=? "")
                  then delete_sticky (rq_GroupID req) (rq_SessionHash req) else Return tt in
    a ← schedulable_account id;
    match a with
    | None => Return (Ok None)
    | Some a =>
        ok ← compatible c a req;
        if negb (ok && isAccountTransportCompatible svc a (rq_RequiredTransport req)) then Return (Ok None)
        else
          l ← recheck c a (rq_GroupID req) (rq_Platform req) (rq_RequestedModel req) (rq_RequireCompact req)
                (rq_RequiredCapability req);
          match l with
          | None => _ ← forget; Return (Ok None)
          | Some a =>
              if negb (openAIAccountMatchesSchedulingGroup svc GroupIDs a (rq_GroupID req))
              then _ ← forget; Return (Ok None)
              else
                u ← usable c req (Some a);
                if match u with None => true | Some _ => false end
                   || (rq_RequireCompact req && (openAICompactSupportTier a =? 0)) then Return (Ok None)
                else
                  over ← over_free_quota a;
                  if (over : bool) then Return (Ok None)
                  else
                    limited ← grok_limited a (rq_RequestedModel req);
                    if (limited : bool) then Return (Ok None)
                    else
                      r ← acquire_slot (ID a) (Concurrency a);
                      match r with
                      | None => Return (Err SlotFailed)
                      | Some (Some f) => sel ← return_acquired c req a f; Return (Ok (Some sel))
                      | Some None =>
                          if os_concurrencyService svc then Return (Ok (Some (sticky_wait c a))) else Return (Ok None)
                      end
          end
    end.

Definition tryFallbackToWeightedSticky (c : OCtx) (req : OpenAIAccountScheduleRequest)
    : oprog (result OSelectionError (option AccountSelectionResult)) :=
  if negb (rq_StickyWeighted req) then Return (Ok None)
  else
    r ← weighted_sticky_one c req (rq_StickyPreviousAccountID req);
    match r with
    | Ok None => weighted_sticky_one c req (rq_StickyAccountID req)
    | _ => Return r
    end.

(** The account bound to the session; the error of the read is ignored. *)
Definition bound_account (req : OpenAIAccountScheduleRequest) (sessionHash : string) : oprog Z :=
  if 0 <? rq_StickyAccountID req then Return (rq_StickyAccountID req)
  else r ← odo (GetStickySession (derefGroupID (rq_GroupID req)) sessionHash); Return (default 0 r).

(** The bound account still fits the request, before and after it is read
    again: [Ok] the account; [Err true] clears the binding, [Err false] keeps
    it. *)
Definition sticky_checked (c : OCtx) (req : OpenAIAccountScheduleRequest) (id : Z) : oprog (result bool Account) :=
  a ← schedulable_account id;
  match a with
  | None => Return (Err true)
  | Some a =>
      stale ← lift (shouldClearStickySession opts tzdb (Some a) (rq_RequestedModel req));
      if stale || (Platform a !=? NormalizeOpenAICompatiblePlatform (rq_Platform req)) || negb (IsOpenAICompatible a)
      then Return (Err true)
      else
        s ← lift (isAccountSchedulableForSelection tzdb a);
        if negb s then Return (Err true)
        else
          ok ← compatible c a req;
          if negb ok then Return (Err false)
          else if negb (isAccountTransportCompatible svc a (rq_RequiredTransport req)) then Return (Err true)
          else
            l ← recheck c a (rq_GroupID req) (rq_Platform req) (rq_RequestedModel req) (rq_RequireCompact req)
                  (rq_RequiredCapability req);
            match l with
            | None => Return (Err true)
            | Some a =>
                if negb (openAIAccountMatchesSchedulingGroup svc GroupIDs a (rq_GroupID req)) then Return (Err true)
                else
                  ok ← compatible c a req;
                  if negb (ok && isAccountTransportCompatible svc a (rq_RequiredTransport req)) then Return (Err true)
                  else
                    over ← over_free_quota a;
                    if (over : bool) then Return (Err true)
                    else limited ← grok_limited a (rq_RequestedModel req);
                         Return (if (limited : bool) then Err true else Ok a)
            end
  end.

(** [selectBySessionHash] of a scheduler with the given statistics: the
    result, and whether the binding was escaped. *)
Definition selectBySessionHashWith (read_stats : oprog openAIAccountRuntimeStats) (c : OCtx)
    (req : OpenAIAccountScheduleRequest) : oprog (option AccountSelectionResult * bool) :=
  let sessionHash := TrimSpace (rq_SessionHash req) in
  if (sessionHash ==? "") || negb (os_cache svc) then Return (None, false)
  else
    id ← bound_account req sessionHash;
    if (id <=? 0) || bool_decide (id ∈ rq_ExcludedIDs req) then Return (None, false)
    else
      r ← sticky_checked c req id;
      match r with
      | Err clear =>
          _ ← (if clear && negb (rq_PreserveStickyBinding req) then delete_sticky (rq_GroupID req) sessionHash
               else Return tt);
          Return (None, false)
      | Ok a =>
          let escapeCfg := stickyEscapeConfig (os_scheduler svc) in
          stats ← read_stats;
          match shouldEscapeStickyAccount stats id escapeCfg with
          | Some _ => Return (None, true)
          | None =>
              s ← acquire_slot id (Concurrency a);
              match s with
              | Some (Some f) =>
                  _ ← (if rq_PreserveStickyBinding req then Return tt
                       else odo (RefreshStickySession (derefGroupID (rq_GroupID req)) sessionHash));
                  Return (Some (acquired_result c a f), false)
              | _ =>
                  let refused := match s with Some None => true | _ => false end in
                  if negb (os_concurrencyService svc) then Return (None, false)
                  else if enabled escapeCfg && refused then Return (None, true)
                  else Return (Some (mkSelection a false None
                         (Some (mkWaitPlan id (Concurrency a) (StickySessionWaitTimeout wait_config)
                                  (StickySessionMaxWaiting wait_config))) (oc_Gate c)), false)
              end
          end
      end.

(** [selectBySessionHash] of the shared scheduler. *)
Definition selectBySessionHash : OCtx -> OpenAIAccountScheduleRequest -> oprog (option AccountSelectionResult * bool) :=
  selectBySessionHashWith (odo ReadStats).

(** ** The load-balanced selection *)

(** [openAIAccountLoadSelectionAttempt]. *)
Record openAIAccountLoadSelectionAttempt := mkAttempt {
  at_result : result OSelectionError (option AccountSelectionResult);
  at_selectionOrder : list openAIAccountCandidateScore;
  at_candidateCount : Z;
  at_topK : Z;
  at_loadSkew : f64;
  at_compactBlocked : bool;
  at_noCompactCandidates : bool;
}.

(** What [selectByLoadBalance] returns. *)
Record balanced := mkBalanced {
  bl_result : result OSelectionError (option AccountSelectionResult);
  bl_candidateCount : Z;
  bl_topK : Z;
  bl_loadSkew : f64;
}.

Definition plan_request_of (req : OpenAIAccountScheduleRequest) (seed seed' : Z) : plan_request :=
  mkPlanRequest (rq_RequireCompact req) (rq_StickyWeighted req) (rq_PreviousResponseCanMove req)
    (rq_StickyPreviousAccountID req) (rq_StickyAccountID req) (rq_UseUpstreamTokenCost req) seed seed'.

Definition selection_seed (req : OpenAIAccountScheduleRequest) : oprog Z :=
  now ← gdo Now; now' ← gdo Now;
  Return (deriveOpenAISelectionSeed
            (mkSeedRequest (rq_SessionHash req) (rq_PreviousResponseID req) (rq_RequestedModel req) (rq_GroupID req))
            now now').

(** [buildOpenAIAccountLoadPlan] with what it reads: the settings once, and
    the clock for both seeds even where no draw uses them. *)
Definition load_plan (req : OpenAIAccountScheduleRequest) (filtered : list Account) (loadMap : gmap Z LoadInfo)
    : oprog openAIAccountLoadPlan :=
  stats ← odo ReadStats;
  settings ← odo RuntimeSettings;
  now ← gdo Now;
  seed ← selection_seed req;
  seed' ← selection_seed req;
  Return (buildOpenAIAccountLoadPlan (openAIWSSchedulerWeightsForRequest (os_weights svc) settings)
            (openAIWSLBTopKForRequest (os_topK svc) settings) (os_schedulerSnapshot svc)
            (openAIUpstreamCostFactors log exp (fresh_rate now) (rt_oauthSchedulingRateMultiplier settings))
            (plan_request_of req seed seed') stats now filtered loadMap).

Definition limit_if_expanded (req : OpenAIAccountScheduleRequest) (p : openAIAccountLoadPlan)
    (budget : openAISelectionProbeBudget) : openAISelectionProbeBudget :=
  if openAICostOverflowExpanded (plan_request_of req 0 0) p then enableLimit budget else budget.

Definition buildOpenAIAccountLoadRequest (accounts : list Account) : list (Z * Z) :=
  map (fun a => (ID a, EffectiveLoadFactor a)) accounts.

(** The attempt of a plan. *)
Definition attempt_of (p : openAIAccountLoadPlan) (r : result OSelectionError (option AccountSelectionResult))
    (compactBlocked noCompact : bool) : openAIAccountLoadSelectionAttempt :=
  mkAttempt r (selectionOrder p) (candidateCount p) (topK p) (loadSkew p) compactBlocked noCompact.

(** The second try of [trySelectByLoadBalancePool], with the loads read
    afresh. *)
Definition retry_with_fresh_load (c : OCtx) (req : OpenAIAccountScheduleRequest) (filtered : list Account)
    (p : openAIAccountLoadPlan) (compactBlocked : bool) (budget : openAISelectionProbeBudget)
    : oprog (openAIAccountLoadSelectionAttempt * openAISelectionProbeBudget) :=
  let unchanged := attempt_of p (Ok None) compactBlocked false in
  if negb (os_concurrencyService svc && negb (acquireExhausted budget)) then Return (unchanged, budget)
  else
    loads ← odo (GetAccountsLoadBatch' true (buildOpenAIAccountLoadRequest filtered));
    match (loads : option (gmap Z LoadInfo)) with
    | None => Return (unchanged, budget)
    | Some loadMap =>
        fp ← load_plan req filtered loadMap;
        let budget := limit_if_expanded req fp budget in
        match selectionOrder fp with
        | [] => Return (unchanged, budget)
        | _ =>
            r ← tryAcquireOpenAISelectionOrderWithBudget c req (selectionOrder fp) false budget;
            let '(res, blocked, budget) := r in
            Return match res with
                   | Err e => (attempt_of p (Err e) compactBlocked false, budget)
                   | Ok (Some sel) => (attempt_of fp (Ok (Some sel)) compactBlocked false, budget)
                   | Ok None => (attempt_of fp (Ok None) (compactBlocked || blocked) false, budget)
                   end
        end
    end.

Definition trySelectByLoadBalancePool (c : OCtx) (req : OpenAIAccountScheduleRequest) (filtered : list Account)
    (loadMap : gmap Z LoadInfo) (budget : openAISelectionProbeBudget)
    : oprog (openAIAccountLoadSelectionAttempt * openAISelectionProbeBudget) :=
  p ← load_plan req filtered loadMap;
  let budget := limit_if_expanded req p budget in
  let no_compact := attempt_of p (Err ErrNoAvailableCompactAccounts) false true in
  if rq_RequireCompact req && match candidates p, staleSnapshotCompactRetry p with [], [] => true | _, _ => false end
  then Return (no_compact, budget)
  else
    match selectionOrder p with
    | [] =>
        if rq_RequireCompact req && negb (os_schedulerSnapshot svc) then Return (no_compact, budget)
        else Return (attempt_of p (Ok None)
                       (rq_RequireCompact req && match allCandidates p with [] => false | _ => true end) false, budget)
    | _ =>
        r ← tryAcquireOpenAISelectionOrderWithBudget c req (selectionOrder p) false budget;
        let '(res, blocked, budget) := r in
        match res with
        | Ok None => retry_with_fresh_load c req filtered p blocked budget
        | _ => Return (attempt_of p res blocked false, budget)
        end
    end.

(** The loop of [finishLoadBalanceSelectionFallback]: the first account that
    may be waited for; the flag tells whether compact support was what was
    missing. *)
Fixpoint wait_for_first (c : OCtx) (req : OpenAIAccountScheduleRequest) (l : list openAIAccountCandidateScore)
    (compactBlocked : bool) (budget : openAISelectionProbeBudget)
    : oprog (option AccountSelectionResult * bool * openAISelectionProbeBudget) :=
  match l with
  | [] => Return (None, compactBlocked, budget)
  | candidate :: l =>
      fresh ← fresh_usable c req (account candidate);
      match fresh with
      | None => wait_for_first c req l compactBlocked budget
      | Some fresh =>
          let '(allowed, budget) := consumeOpenAISelectionDBRecheck budget in
          if negb allowed then Return (None, compactBlocked, budget)
          else
            latest ← latest_usable c req fresh;
            match latest with
            | None => wait_for_first c req l compactBlocked budget
            | Some a =>
                if rq_RequireCompact req && (openAICompactSupportTier a =? 0) then wait_for_first c req l true budget
                else Return (Some (fallback_wait c a), compactBlocked, budget)
            end
      end
  end.

Definition finishLoadBalanceSelectionFallback (c : OCtx) (req : OpenAIAccountScheduleRequest)
    (attempt : openAIAccountLoadSelectionAttempt) (budget : openAISelectionProbeBudget)
    (stats : openAISelectionFilterStats) : oprog (balanced * openAISelectionProbeBudget) :=
  let outcome r := mkBalanced r (at_candidateCount attempt) (at_topK attempt) (at_loadSkew attempt) in
  let unavailable compactBlocked why :=
    Err (noAvailableOpenAISelectionError (rq_RequestedModel req) compactBlocked (summary why stats)) in
  match at_selectionOrder attempt with
  | [] => Return (outcome (unavailable (at_compactBlocked attempt) "selection_order_empty"), budget)
  | _ =>
      r ← tryFallbackToWeightedSticky c req;
      match r with
      | Ok None =>
          r ← wait_for_first c req (passes budget (at_selectionOrder attempt)) (at_compactBlocked attempt) budget;
          let '(sel, blocked, budget) := r in
          Return (outcome match sel with
                          | Some sel => Ok (Some sel)
                          | None => unavailable blocked "selection_order_exhausted"
                          end, budget)
      | _ => Return (outcome r, budget)
      end
  end.
End Scheduler.
