(* ===== verification/OpenAISelect.v ===== *)
(** * The OpenAI account scheduler: [Select]

    The accounts admitted to the load-balanced selection
    ([selectByLoadBalance]), the account bound to the previous response
    ([openai_ws_forwarder_support.go]) and [Select] of
    [openai_account_scheduler.go], which tries the layers in turn and records
    its decision. *)

From S2P Require Import Prelude GoSort GoStrings Float64 GoTime GoAny Account AccountProtocol ModelMapping AccountScheduling ModelAvailability GroupRouting GoProgram ConcurrencyCache GatewayCalls SelectionGates OpenAIQuota OpenAIRanking OpenAICapabilities OpenAICalls OpenAIEligibility OpenAIScheduler.
Local Open Scope Z_scope.

(** The first refusal of a list of checks tried in order; it tells whether
    the binding is to be deleted. *)
Fixpoint first_refusal (l : list (oprog (option bool))) : oprog (option bool) :=
  match l with
  | [] => Return None
  | p :: l => r ← p; match r with Some clear => Return (Some clear) | None => first_refusal l end
  end.

Definition refuse_if (clear : bool) (p : oprog bool) : oprog (option bool) :=
  b ← p; Return (if (b : bool) then Some clear else None).

Section Select.
Context (opts : ModelMappingOptions) (tzdb : string -> option Location) (svc : OServices).
Context (grok_billing : Account -> option BillingSummary) (known_free : Account -> bool).
Context (grok_quota : Account -> option QuotaSnapshot).
Context (upstream_model : Account -> string -> bool -> string) (GroupIDs : Account -> list Z).
Context (log exp : f64 -> f64) (fresh_rate : time -> Account -> option f64).

Abbreviation compatible := (isAccountRequestCompatible opts svc grok_billing known_free upstream_model).
Abbreviation incompatibility := (isAccountRequestCompatibleReason opts svc grok_billing known_free upstream_model).
Abbreviation schedulable_account := (getSchedulableAccount svc).
Abbreviation schedulable := (fun a => lift (isAccountSchedulableForSelection tzdb a)).
Abbreviation by_session :=
  (selectBySessionHash opts tzdb svc grok_billing known_free grok_quota upstream_model GroupIDs).
Abbreviation try_pool :=
  (trySelectByLoadBalancePool opts tzdb svc grok_billing known_free grok_quota upstream_model GroupIDs log exp fresh_rate).
Abbreviation finish :=
  (finishLoadBalanceSelectionFallback opts tzdb svc grok_billing known_free grok_quota upstream_model GroupIDs).

(** ** The accounts admitted *)

Definition filterGrokTeamModelRateLimitedAccounts (accounts : list Account) (model : string) : oprog (list Account) :=
  if TrimSpace model ==? "" then Return accounts
  else filter_prog (fun a => b ← isGrokTeamModelRateLimited a (canonicalOpenAIAccountSchedulingModel opts upstream_model a model);
                             Return (negb b)) accounts.

Definition filterGrokModelQuotaBlockedAccounts (accounts : list Account) (model : string) : oprog (list Account) :=
  if TrimSpace model ==? "" then Return accounts
  else filter_prog (fun a => b ← odo (GrokModelQuotaBlocked (ID a) (canonicalOpenAIAccountSchedulingModel opts upstream_model a model));
                             Return (negb b)) accounts.

(** The filters of the Grok platform: [Err] names the one that left no
    account. *)
Definition grok_filtered (req : OpenAIAccountScheduleRequest) (accounts : list Account)
    : oprog (result string (list Account)) :=
  if negb (rq_Platform req ==? PlatformGrok) then Return (Ok accounts)
  else
    kept ← filterGrokTeamModelRateLimitedAccounts accounts (rq_RequestedModel req);
    match (kept : list Account) with
    | [] => Return (Err "grok_team_model_rate_limit")
    | _ =>
        kept ← filterGrokModelQuotaBlockedAccounts kept (rq_RequestedModel req);
        Return match (kept : list Account) with [] => Err "grok_model_quota_block" | _ => Ok kept end
    end.

(** The reason an account is left out of the pool. *)
Definition exclusion (c : OCtx) (req : OpenAIAccountScheduleRequest) (private : bool) (a : Account)
    : oprog (option string) :=
  first_veto [
    veto_if (bool_decide (ID a ∈ rq_ExcludedIDs req)) "excluded";
    veto_by (s ← schedulable a; Return (negb s)) "not_schedulable";
    veto_if ((Platform a !=? NormalizeOpenAICompatiblePlatform (rq_Platform req)) || negb (IsOpenAICompatible a))
      "platform_mismatch";
    veto_by (odo (RuntimeBlocked a (rq_RequestedModel req))) "runtime_blocked";
    veto_if (private && negb (IsPrivacySet a)) "privacy_not_set";
    incompatibility c a req;
    veto_if (negb (isAccountTransportCompatible svc a (rq_RequiredTransport req))) "transport_incompatible"].

(** The loop over the accounts: those kept, in order, and the reasons of the
    others. *)
Fixpoint admit_all (c : OCtx) (req : OpenAIAccountScheduleRequest) (private : bool) (l : list Account)
    (stats : openAISelectionFilterStats) : oprog (list Account * openAISelectionFilterStats) :=
  match l with
  | [] => Return ([], stats)
  | a :: l =>
      r ← exclusion c req private a;
      match r with
      | Some reason => admit_all c req private l (exclude reason stats)
      | None => r ← admit_all c req private l stats; Return (a :: fst r, snd r)
      end
  end.

(** Whether the group read from the snapshot requires privacy. *)
Definition group_private (groupID : option Z) : oprog bool :=
  match groupID with
  | Some gid =>
      if os_schedulerSnapshot svc then
        g ← odo (GetGroupPrivacy gid);
        Return match g with Some (Some required) => required | _ => false end
      else Return false
  | None => Return false
  end.

Definition no_accounts (req : OpenAIAccountScheduleRequest) (details : string) : balanced :=
  mkBalanced (Err (noAvailableOpenAISelectionError (rq_RequestedModel req) false details)) 0 0 f0.

(** The first half of [selectByLoadBalance]: the pool, or why there is none. *)
Definition admitted (c : OCtx) (req : OpenAIAccountScheduleRequest)
    : oprog (result balanced (list Account * openAISelectionFilterStats)) :=
  l ← listSchedulableAccounts svc (rq_GroupID req) (rq_Platform req);
  match l with
  | None => Return (Err (mkBalanced (Err ListFailed) 0 0 f0))
  | Some [] => Return (Err (no_accounts req (summary "" no_stats)))
  | Some accounts =>
      gated ← gdo (FilterGrokFreeQuota accounts);
      match (gated : list Account) with
      | [] => Return (Err (no_accounts req (summary "grok_free_quota_soft_gate" no_stats)))
      | _ =>
          kept ← grok_filtered req gated;
          match kept with
          | Err why => Return (Err (no_accounts req (summary why no_stats)))
          | Ok accounts =>
              private ← group_private (rq_GroupID req);
              r ← admit_all c req private accounts (mkFilterStats (Z.of_nat (length accounts)) ∅);
              Return match fst r with
                     | [] => Err (no_accounts req (summary "" (snd r)))
                     | _ => Ok r
                     end
          end
      end
  end.

(** ** [selectByLoadBalance] *)

Definition attempt_outcome (t : openAIAccountLoadSelectionAttempt) : balanced :=
  mkBalanced (at_result t) (at_candidateCount t) (at_topK t) (at_loadSkew t).

(** The pool of a request without priorities. *)
Definition balance_pool (c : OCtx) (req : OpenAIAccountScheduleRequest) (pool : list Account)
    (loadMap : gmap Z LoadInfo) (stats : openAISelectionFilterStats) : oprog balanced :=
  r ← try_pool c req pool loadMap newOpenAISelectionProbeBudget;
  let '(t, budget) := r in
  match at_result t with
  | Ok None => fst <$> finish c req t budget stats
  | _ => Return (attempt_outcome t)
  end.

(** The regular accounts after the subscriptions [sub] gave nothing. *)
Definition balance_regular (c : OCtx) (req : OpenAIAccountScheduleRequest) (sub : openAIAccountLoadSelectionAttempt)
    (regular : list Account) (loadMap : gmap Z LoadInfo) (budget : openAISelectionProbeBudget)
    (stats : openAISelectionFilterStats) : oprog balanced :=
  r ← try_pool c req regular loadMap budget;
  let '(t, budget) := r in
  let back outcome budget :=
    r ← finish c req sub budget stats;
    Return match bl_result (fst r) with Ok (Some _) => fst r | _ => outcome end in
  match at_result t with
  | Ok (Some _) => Return (attempt_outcome t)
  | Err _ => if at_noCompactCandidates t then back (attempt_outcome t) budget else Return (attempt_outcome t)
  | Ok None =>
      r ← finish c req t budget stats;
      let '(outcome, budget) := r in
      match bl_result outcome with
      | Ok (Some _) => Return outcome
      | _ => back outcome budget
      end
  end.

Definition balance_subscriptions_first (c : OCtx) (req : OpenAIAccountScheduleRequest) (subs regular : list Account)
    (loadMap : gmap Z LoadInfo) (stats : openAISelectionFilterStats) : oprog balanced :=
  r ← try_pool c req subs loadMap newOpenAISelectionProbeBudget;
  let '(t, budget) := r in
  let next := match regular with
              | [] => fst <$> finish c req t budget stats
              | _ => balance_regular c req t regular loadMap budget stats
              end in
  match at_result t with
  | Ok (Some _) => Return (attempt_outcome t)
  | Err _ => if negb (at_noCompactCandidates t) || match regular with [] => true | _ => false end
             then Return (attempt_outcome t) else next
  | Ok None => next
  end.

Definition selectByLoadBalance (c : OCtx) (req : OpenAIAccountScheduleRequest) : oprog balanced :=
  r ← admitted c req;
  match r with
  | Err outcome => Return outcome
  | Ok (filtered, stats) =>
      loadMap ← (if os_concurrencyService svc
                 then r ← odo (GetAccountsLoadBatch' false (buildOpenAIAccountLoadRequest filtered));
                      Return (default ∅ (r : option (gmap Z LoadInfo)))
                 else Return ∅);
      let '(subs, regular) := partition_subscriptions IsOpenAIChatGPTSubscription filtered in
      if rq_SubscriptionPriority req && match subs with [] => false | _ => true end
      then balance_subscriptions_first c req subs regular loadMap stats
      else balance_pool c req filtered loadMap stats
  end.

(** ** The account of the previous response *)

(** The binding no longer suits the account. *)
Definition response_stale (a : Account) (requestedModel : string) : oprog bool :=
  stale ← lift (shouldClearStickySession opts tzdb (Some a) requestedModel);
  if stale || negb (IsOpenAI a) then Return true else s ← schedulable a; Return (negb s).

(** The checks both the cached account and the one read again go through. *)
Definition response_checks (c : OCtx) (a : Account) (requestedModel requiredCapability : string)
    : list (oprog (option bool)) :=
  [ refuse_if true (h ← parentHealthyForShadow a (parentAccountLookup svc); Return (negb h));
    refuse_if false (Return ((requestedModel !=? "") && negb (IsModelSupported opts a requestedModel)));
    refuse_if false (Return (negb (SupportsOpenAIEndpointCapability grok_billing known_free a requiredCapability)));
    refuse_if false (p ← auto_pause c a; Return (match p with Some _ => true | None => false end));
    refuse_if false (p ← profit_veto c a; Return (match p with Some _ => true | None => false end)) ].

(** The account read again from the database: the account to serve, or the
    refusal. *)
Definition response_latest (c : OCtx) (groupID : option Z) (a : Account)
    (requestedModel requiredCapability : string) : oprog (result bool Account) :=
  if negb (os_schedulerSnapshot svc && os_accountRepo svc) then Return (Ok a)
  else
    r ← gdo (GetByID (ID a));
    match found r with
    | None => Return (Err true)
    | Some latest =>
        v ← first_refusal (
          [ refuse_if true (response_stale latest requestedModel);
            refuse_if false (Return (negb (openAIAccountMatchesSchedulingGroup svc GroupIDs latest groupID)));
            refuse_if false (required ← openAIGroupRequiresPrivacySet svc c groupID;
                             Return (required && negb (IsPrivacySet latest))) ]
          ++ response_checks c latest requestedModel requiredCapability
          ++ [ refuse_if true (odo (RuntimeBlocked latest requestedModel)) ]);
        Return match v with Some clear => Err clear | None => Ok latest end
    end.

(** Why the cached account is refused. *)
Definition response_first (c : OCtx) (a : Account) (requestedModel requiredCapability : string) : oprog (option bool) :=
  first_refusal (
    [ refuse_if false (Return (negb (IsOpenAIApiKey a)
        && (Transport (Resolve (os_ws svc) a) !=? OpenAIUpstreamTransportResponsesWebsocketV2)));
      refuse_if true (response_stale a requestedModel) ]
    ++ response_checks c a requestedModel requiredCapability).

Definition response_checked (c : OCtx) (groupID : option Z) (id : Z) (requestedModel requiredCapability : string)
    (requireCompact : bool) : oprog (result bool Account) :=
  a ← schedulable_account id;
  match a with
  | None => Return (Err true)
  | Some a =>
      v ← response_first c a requestedModel requiredCapability;
      match v with
      | Some clear => Return (Err clear)
      | None =>
          r ← response_latest c groupID a requestedModel requiredCapability;
          Return match r with
                 | Ok a => if requireCompact && (openAICompactSupportTier a =? 0) then Err true else Ok a
                 | Err clear => Err clear
                 end
      end
  end.

(** The account bound to the response, and the trimmed identifier. *)
Definition resolveAccountByPreviousResponseIDForCapability (c : OCtx) (groupID : option Z)
    (previousResponseID requestedModel : string) (excludedIDs : gset Z) (requiredCapability : string)
    (requireCompact : bool) : oprog (option (Z * Account * string)) :=
  let responseID := TrimSpace previousResponseID in
  if responseID ==? "" then Return None
  else
    r ← odo (GetResponseAccount (derefGroupID groupID) responseID);
    let id := default 0 r in
    if (id <=? 0) || bool_decide (id ∈ excludedIDs) then Return None
    else
      a ← response_checked c groupID id requestedModel requiredCapability requireCompact;
      match a with
      | Ok a => Return (Some (id, a, responseID))
      | Err clear =>
          _ ← (if (clear : bool) then odo (DeleteResponseAccount (derefGroupID groupID) responseID) else Return tt);
          Return None
      end.

Definition selectAccountByPreviousResponseIDForCapability (c : OCtx) (groupID : option Z)
    (previousResponseID requestedModel : string) (excludedIDs : gset Z) (requiredCapability : string)
    (requireCompact : bool) : oprog (option AccountSelectionResult) :=
  r ← resolveAccountByPreviousResponseIDForCapability c groupID previousResponseID requestedModel excludedIDs
        requiredCapability requireCompact;
  match r with
  | None => Return None
  | Some (id, a, responseID) =>
      s ← acquire_slot svc id (Concurrency a);
      match s with
      | Some (Some f) =>
          _ ← odo (BindResponseAccount (derefGroupID groupID) responseID id);
          Return (Some (acquired_result c a f))
      | _ =>
          if os_concurrencyService svc
          then Return (Some (mkSelection a false None
                 (Some (mkWaitPlan id (Concurrency a) (StickySessionWaitTimeout (wait_config svc))
                          (StickySessionMaxWaiting (wait_config svc)))) (oc_Gate c)))
          else Return None
      end
  end.

(** ** [Select] *)

(** The group of the account of a previous response, when it is known. *)
Definition response_group_ok (a : Account) (groupID : option Z) : bool :=
  match GroupIDs a, AccountGroups a with
  | [], [] => true
  | _, _ => openAIAccountMatchesSchedulingGroup svc GroupIDs a groupID
  end.

(** A decision of a sticky layer. *)
Definition sticky_decision (layer : string) (previous session : bool) (a : Account) : OpenAIAccountScheduleDecision :=
  OpenAIRanking.mkDecision layer previous session 0 0 0 f0 (ID a) (AType a).

Definition with_latency (ms : Z) (d : OpenAIAccountScheduleDecision) : OpenAIAccountScheduleDecision :=
  OpenAIRanking.mkDecision (Layer d) (StickyPreviousHit d) (StickySessionHit d) (CandidateCount d) (d_TopK d) ms
    (d_LoadSkew d) (SelectedAccountID d) (SelectedAccountType d).

(** The request of the layer that follows a session whose account was escaped. *)
Definition preserving (req : OpenAIAccountScheduleRequest) : OpenAIAccountScheduleRequest :=
  mkScheduleRequest (rq_GroupID req) (rq_Platform req) (rq_SessionHash req) (rq_StickyAccountID req)
    (rq_GuardianParentAccountID req) (rq_StickyPreviousAccountID req) (rq_StickyWeighted req)
    (rq_SubscriptionPriority req) true (rq_RequirePrivacySet req) (rq_PreviousResponseID req)
    (rq_PreviousResponseCanMove req) (rq_UseUpstreamTokenCost req) (rq_RequestedModel req)
    (rq_RequiredTransport req) (rq_RequiredCapability req) (rq_RequiredImageCapability req)
    (rq_RequireCompact req) (rq_ExcludedIDs req).

Definition for_parent (req : OpenAIAccountScheduleRequest) : OpenAIAccountScheduleRequest :=
  mkScheduleRequest (rq_GroupID req) (rq_Platform req) (rq_SessionHash req) (rq_GuardianParentAccountID req)
    (rq_GuardianParentAccountID req) (rq_StickyPreviousAccountID req) (rq_StickyWeighted req)
    (rq_SubscriptionPriority req) true (rq_RequirePrivacySet req) (rq_PreviousResponseID req)
    (rq_PreviousResponseCanMove req) (rq_UseUpstreamTokenCost req) (rq_RequestedModel req)
    (rq_RequiredTransport req) (rq_RequiredCapability req) (rq_RequiredImageCapability req)
    (rq_RequireCompact req) (rq_ExcludedIDs req).

Definition requiring_privacy (req : OpenAIAccountScheduleRequest) : OpenAIAccountScheduleRequest :=
  mkScheduleRequest (rq_GroupID req) (rq_Platform req) (rq_SessionHash req) (rq_StickyAccountID req)
    (rq_GuardianParentAccountID req) (rq_StickyPreviousAccountID req) (rq_StickyWeighted req)
    (rq_SubscriptionPriority req) (rq_PreserveStickyBinding req) true (rq_PreviousResponseID req)
    (rq_PreviousResponseCanMove req) (rq_UseUpstreamTokenCost req) (rq_RequestedModel req)
    (rq_RequiredTransport req) (rq_RequiredCapability req) (rq_RequiredImageCapability req)
    (rq_RequireCompact req) (rq_ExcludedIDs req).

(** The first layer: the selection of the previous response, released when
    the account does not suit the whole request. *)
Definition previous_response_layer (c : OCtx) (req : OpenAIAccountScheduleRequest)
    : oprog (option AccountSelectionResult) :=
  let previousResponseID := TrimSpace (rq_PreviousResponseID req) in
  if (previousResponseID !=? "") && (NormalizeOpenAICompatiblePlatform (rq_Platform req) ==? PlatformOpenAI)
     && (negb (rq_StickyWeighted req) || negb (rq_PreviousResponseCanMove req))
  then
    r ← selectAccountByPreviousResponseIDForCapability c (rq_GroupID req) previousResponseID (rq_RequestedModel req)
          (rq_ExcludedIDs req) (rq_RequiredCapability req) (rq_RequireCompact req);
    match r with
    | None => Return None
    | Some sel =>
        let a := sel_Account sel in
        ok ← compatible c a req;
        if negb (response_group_ok a (rq_GroupID req)) || negb ok
           || negb (isAccountTransportCompatible svc a (rq_RequiredTransport req))
        then _ ← (match sel_ReleaseFunc sel with Some f => release_slot f | None => Return tt end); Return None
        else
          _ ← (if rq_SessionHash req !=? ""
               then bindOpenAIStickySessionDuringSelection svc c (rq_GroupID req) (rq_SessionHash req) (ID a)
               else Return tt);
          Return (Some sel)
    end
  else Return None.

Definition Decided : Type := result OSelectionError (option AccountSelectionResult) * OpenAIAccountScheduleDecision.

Definition balance_decision (req : OpenAIAccountScheduleRequest) (b : balanced) : OpenAIAccountScheduleDecision :=
  let d id ty := OpenAIRanking.mkDecision LayerLoadBalance
    (rq_StickyWeighted req && (0 <? rq_StickyPreviousAccountID req) && (id =? rq_StickyPreviousAccountID req))
    (rq_StickyWeighted req && (0 <? rq_StickyAccountID req) && (id =? rq_StickyAccountID req))
    (bl_candidateCount b) (bl_topK b) 0 (bl_loadSkew b) id ty in
  match bl_result b with
  | Ok (Some sel) => d (ID (sel_Account sel)) (AType (sel_Account sel))
  | _ => OpenAIRanking.mkDecision LayerLoadBalance false false (bl_candidateCount b) (bl_topK b) 0 (bl_loadSkew b) 0 ""
  end.

Definition load_balance_layer (c : OCtx) (req : OpenAIAccountScheduleRequest) : oprog Decided :=
  b ← selectByLoadBalance c req; Return (bl_result b, balance_decision req b).

Definition session_layer (c : OCtx) (req : OpenAIAccountScheduleRequest) : oprog Decided :=
  if rq_StickyWeighted req then load_balance_layer c req
  else
    r ← by_session c req;
    match fst r with
    | Some sel => Return (Ok (Some sel), sticky_decision LayerSessionSticky false true (sel_Account sel))
    | None => load_balance_layer c (if (snd r : bool) then preserving req else req)
    end.

Definition guardian_layer (c : OCtx) (req : OpenAIAccountScheduleRequest) : oprog Decided :=
  r ← (if 0 <? rq_GuardianParentAccountID req then fst <$> by_session c (for_parent req) else Return None);
  match r with
  | Some sel => Return (Ok (Some sel), sticky_decision LayerGuardianParent false true (sel_Account sel))
  | None => session_layer c req
  end.

(** The body of [Select], before its deferred call. *)
Definition select_layers (c : OCtx) (req : OpenAIAccountScheduleRequest) : oprog Decided :=
  r ← previous_response_layer c req;
  match r with
  | Some sel => Return (Ok (Some sel), sticky_decision LayerPreviousResponse true false (sel_Account sel))
  | None => guardian_layer c req
  end.

(** [Select].  Its results have no names, so the latency the deferred call
    stores in [decision] reaches the metrics and not the caller. *)
Definition Select (c : OCtx) (req : OpenAIAccountScheduleRequest) : oprog Decided :=
  required ← openAIGroupRequiresPrivacySet svc c (rq_GroupID req);
  let req := if (required : bool) then requiring_privacy req else req in
  start ← gdo Now;
  r ← select_layers c req;
  finished ← gdo Now;
  _ ← odo (RecordSelect (with_latency (Z.quot (Sub finished start) 1000000) (snd r)));
  Return r.
End Select.
