(* ===== verification/OpenAISchedulerProperties.v ===== *)
(** * The OpenAI account scheduler: what its checks leave behind

    The checks of OpenAIEligibility.v move no slot; an account they let
    through fits the request.  The loops that take slots give back those they
    do not hand over, and keep within the budget. *)

From S2P Require Import Prelude GoSort GoStrings Float64 GoTime GoAny Account AccountProtocol ModelMapping AccountScheduling ModelAvailability GroupRouting GoProgram ConcurrencyCache GatewayCalls SelectionGates AccountSelectionProperties OpenAIQuota OpenAIRanking OpenAIRankingProperties OpenAICapabilities OpenAICalls OpenAIEligibility OpenAIScheduler.
Local Open Scope Z_scope.

(** The replies that a run observed, as far as they matter. *)
Class Observed := observed : forall c, oreply c -> Prop.

(** All of them. *)
Definition anything : Observed := fun _ _ => True.

(** The replies of a trace. *)
Definition reads (tr : list oevent) : Observed := fun c r => Ev c r ∈ tr.

(** The replies of the gateway's calls keep the identifiers they are asked
    for; all of them are among those observed. *)
Definition ook {seen : Observed} (c : ocall) (r : oreply c) : Prop :=
  match c return oreply c -> Prop with Gateway c => env_ok any_env c | _ => fun _ => True end r /\ observed c r.

Lemma replies_reads tr : replies (ook (seen := anything)) tr -> replies (ook (seen := reads tr)) tr.
Proof.
  unfold replies. rewrite !Forall_forall. intros H [c r] Hin. destruct (H _ Hin) as [Hb _]. by split.
Qed.

(** A service with somewhere to read accounts from. *)
Class ReadsAccounts (svc : OServices) : Prop := reads_accounts : os_schedulerSnapshot svc || os_accountRepo svc = true.

(** Proves that a call is quiet. *)
Ltac oquiet_call :=
  lazymatch goal with
  | |- returns ?st ?ok (odo ?c) ?P => refine (returns_odo st ok c P eq_refl _); try done; try by intros ? [? _]
  | |- returns ?st ?ok (gdo ?c) ?P => refine (returns_gdo st ok c P eq_refl _); try done; try by intros ? [? _]
  end.

Notation osilent step p := (returns step ook p (fun _ => True)).

(** A silent program, its cases on the way. *)
Ltac osilently :=
  repeat first
    [ apply returns_Return; done
    | oquiet_call
    | apply (returns_bind _ _ _ _ (fun _ => True)); [|intros ? _]
    | lazymatch goal with
      | |- returns _ _ (match ?x with _ => _ end) _ => destruct x
      | |- returns _ _ (let _ := _ in _) _ => cbv zeta
      end ].

Section Checks.
Context {seen : Observed} {S : Type} (step : forall c, oreply c -> S -> S) `{!OQuietStep step}.
Context (opts : ModelMappingOptions) (tzdb : string -> option Location) (svc : OServices).
Context (grok_billing : Account -> option BillingSummary) (known_free : Account -> bool).
Context (grok_quota : Account -> option QuotaSnapshot).
Context (upstream_model : Account -> string -> bool -> string) (GroupIDs : Account -> list Z).

Abbreviation oreturns p P := (returns step ook p P).

Lemma returns_silent {A} (p : oprog A) : osilent step p -> forall P : A -> Prop, (forall a, P a) -> oreturns p P.
Proof. intros Hp P HP. eapply returns_mono; [exact Hp|]. auto. Qed.

Lemma returns_lift_any {A} (p : GatewayCalls.prog A) (P : A -> Prop) :
  returns (gateway_step step) (env_ok any_env) p P -> oreturns (lift p) P.
Proof. intros H. apply returns_lift. eapply returns_stronger; [|exact H]. by intros c r [Hr _]. Qed.

(** ** Lists of vetoes *)

Lemma returns_veto_nil (P : option string -> Prop) : P None -> oreturns (first_veto []) P.
Proof. apply returns_Return. Qed.

Lemma returns_veto_cons p l (P R : Prop) :
  oreturns p (fun r => r = None -> P) -> oreturns (first_veto l) (fun r => r = None -> R) ->
  oreturns (first_veto (p :: l)) (fun r => r = None -> P /\ R).
Proof.
  intros Hp Hl. cbn [first_veto]. eapply returns_bind; [exact Hp|]. intros [s|] HP; [by apply returns_Return|].
  eapply returns_mono; [exact Hl|]. auto.
Qed.

Lemma returns_veto_if b s : oreturns (veto_if b s) (fun r => r = None -> b = false).
Proof. apply returns_Return. by destruct b. Qed.

Lemma returns_veto_by p s (P : Prop) : oreturns p (fun b => b = false -> P) ->
  oreturns (veto_by p s) (fun r => r = None -> P).
Proof.
  intros Hp. eapply returns_bind; [exact Hp|]. intros b Hb. apply returns_Return. destruct b; [done|auto].
Qed.

(** ** The single checks *)

Lemma silent_schedulable a : osilent step (lift (isAccountSchedulableForSelection tzdb a)).
Proof. apply returns_lift_any, returns_mono with (fun b => b = true -> schedulable_in tzdb any_env a); [|done]. apply (returns_schedulable (gateway_step step)). Qed.

Lemma silent_should_clear a m : osilent step (lift (shouldClearStickySession opts tzdb a m)).
Proof. apply returns_lift_any, (returns_should_clear (gateway_step step) opts tzdb any_env). Qed.

Lemma silent_model_schedulable c a m : osilent step (lift (IsSchedulableForModelWithContext opts tzdb c a m)).
Proof.
  apply returns_lift_any. eapply returns_mono; [apply (returns_model_schedulable (gateway_step step) opts tzdb any_env)|done].
Qed.

(** An account was read under an identifier. *)
Definition was_read (id : Z) (p : Account) : Prop :=
  ID p = id /\
  (observed (Gateway (GetByID id)) (Some (Some p)) \/ observed (Gateway (SnapshotGetAccount id)) (Some (Some p))).

Definition read_as (id : Z) (r : option Account) : Prop := match r with Some p => was_read id p | None => True end.

Lemma returns_parent_lookup id : oreturns (parentAccountLookup svc id) (read_as id).
Proof.
  unfold parentAccountLookup. destruct (os_accountRepo svc); [|by apply returns_Return].
  eapply returns_bind; [apply (returns_gdo step ook (GetByID id) (fun r => read_as id (found r)) eq_refl)|].
  - intros [[a|]|] [H Ho]; try done. split; [by destruct (H a eq_refl)|by left].
  - intros r Hr. by apply returns_Return.
Qed.

Lemma returns_shadow_lookup id : oreturns (lookupShadowParentAccount svc id) (read_as id).
Proof.
  unfold lookupShadowParentAccount. destruct (os_schedulerSnapshot svc); [|apply returns_parent_lookup].
  eapply returns_bind; [apply (returns_gdo step ook (SnapshotGetAccount id) (fun r => read_as id (found r)) eq_refl)|].
  - intros [[a|]|] [H Ho]; try done. split; [by destruct (H a eq_refl)|by right].
  - intros r Hr. cbv beta in Hr. destruct (found r); [by apply returns_Return|apply returns_parent_lookup].
Qed.

(** A shadow's parent was read, and its credentials were usable at a reading
    of the clock. *)
Definition parent_healthy (a : Account) : Prop :=
  forall id, ParentAccountID a = Some id ->
  exists p now, was_read id p /\ observed (Gateway Now) now /\
    IsOpenAIOAuth p = true /\ IsCredentialUsableForShadow now p = true.

Lemma returns_parent_healthy a lookup : (forall id, oreturns (lookup id) (read_as id)) ->
  oreturns (parentHealthyForShadow a lookup) (fun b => b = true -> parent_healthy a).
Proof.
  intros Hl. unfold parentHealthyForShadow, parent_healthy.
  destruct (ParentAccountID a) as [id|]; [|by apply returns_Return].
  eapply returns_bind; [apply Hl|]. intros [p|] Hp; [|by apply returns_Return].
  eapply returns_bind with (P := observed (Gateway Now)); [oquiet_call; by intros r [_ Hr]|].
  intros now Hnow. apply returns_Return. intros H%andb_true_iff id' [= <-]. by exists p, now.
Qed.

Lemma silent_parent_healthy a lookup : (forall id, osilent step (lookup id)) ->
  osilent step (parentHealthyForShadow a lookup).
Proof.
  intros Hl. unfold parentHealthyForShadow. destruct (ParentAccountID a); [|by apply returns_Return].
  eapply returns_bind; [apply Hl|]. intros [p|] _; osilently.
Qed.

Lemma silent_parent_lookup id : osilent step (parentAccountLookup svc id).
Proof. eapply returns_mono; [apply returns_parent_lookup|done]. Qed.

(** No quota window paused the account at two readings of the clock. *)
Definition not_paused (c : OCtx) (a : Account) : Prop :=
  IsOpenAI a = true ->
  exists now now', observed (Gateway Now) now /\ observed (Gateway Now) now' /\
    paused (shouldAutoPauseOpenAIAccountByQuota (oc_PauseSettings c) a now now') = None.

Lemma returns_auto_pause c a : oreturns (auto_pause c a) (fun r => r = None -> not_paused c a).
Proof.
  unfold auto_pause, not_paused. destruct (IsOpenAI a); cbn [negb]; [|by apply returns_Return].
  eapply returns_bind with (P := observed (Gateway Now)); [oquiet_call; by intros r [_ Hr]|]. intros now Hnow.
  eapply returns_bind with (P := observed (Gateway Now)); [oquiet_call; by intros r [_ Hr]|]. intros now' Hnow'. cbv zeta.
  destruct (notified _).
  - eapply returns_bind; [oquiet_call; exact (fun _ _ => I)|]. intros _ _. apply returns_Return. eauto 6.
  - apply returns_Return. eauto 6.
Qed.

Lemma silent_auto_pause c a : osilent step (auto_pause c a).
Proof. eapply returns_mono; [apply returns_auto_pause|done]. Qed.

Lemma silent_quarantined c a : osilent step (isOpenAIProxyStreamQuarantined c a).
Proof. unfold isOpenAIProxyStreamQuarantined. osilently. Qed.

Lemma silent_channel c a req : osilent step (channel_restricted svc upstream_model c a req).
Proof.
  unfold channel_restricted, needsUpstreamChannelRestrictionCheck, isUpstreamModelRestrictedByChannel.
  destruct (rq_GroupID req); osilently.
Qed.

Lemma silent_group_privacy c g : osilent step (openAIGroupRequiresPrivacySet svc c g).
Proof. unfold openAIGroupRequiresPrivacySet, loadOpenAIGroupRequiresPrivacySet. osilently. Qed.

(** ** What fits a request *)

Definition fits (c : OCtx) (req : OpenAIAccountScheduleRequest) (a : Account) : Prop :=
  (rq_RequirePrivacySet req = true -> IsPrivacySet a = true) /\
  not_paused c a /\ parent_healthy a /\
  (rq_RequestedModel req <> "" -> IsModelSupported opts a (rq_RequestedModel req) = true) /\
  accountSupportsOpenAICapabilities grok_billing known_free a (rq_RequiredCapability req)
    (rq_RequiredImageCapability req) = true /\
  openAIProfitControlVetoReason (oc_Gate c) a = None.

Abbreviation compatible := (isAccountRequestCompatible opts svc grok_billing known_free upstream_model).
Abbreviation incompatibility := (isAccountRequestCompatibleReason opts svc grok_billing known_free upstream_model).

Lemma returns_incompatibility c a req : oreturns (incompatibility c a req) (fun r => r = None -> fits c req a).
Proof.
  unfold isAccountRequestCompatibleReason, fits.
  eapply returns_mono.
  - apply returns_veto_cons; [apply returns_veto_if|].
    apply returns_veto_cons; [apply (returns_veto_by _ _ True), (returns_silent _ (returns_odo step ook (RuntimeBlocked _ _) _ eq_refl (fun _ _ => I))); done|].
    apply returns_veto_cons; [apply (returns_veto_by _ _ True), (returns_silent _ (silent_quarantined c a)); done|].
    apply returns_veto_cons with (P := not_paused c a).
    { eapply returns_bind; [apply returns_auto_pause|]. intros [d|] H; apply returns_Return; [done|]. exact (fun _ => H eq_refl). }
    apply returns_veto_cons with (P := parent_healthy a).
    { apply returns_veto_by. eapply returns_bind; [apply returns_parent_healthy, returns_shadow_lookup|].
      intros h H. apply returns_Return. intros Hh%negb_false_iff. exact (H Hh). }
    apply returns_veto_cons; [apply returns_veto_if|].
    apply returns_veto_cons; [apply (returns_veto_by _ _ True), (returns_silent _ (silent_channel c a req)); done|].
    apply returns_veto_cons; [apply returns_veto_if|].
    apply returns_veto_cons; [|by apply (returns_veto_nil (fun r => r = None -> True))].
    apply returns_Return with (P := fun r => r = None -> openAIProfitControlVetoReason (oc_Gate c) a = None).
    by destruct (openAIProfitControlVetoReason _ a).
  - simpl. intros r H Hr. destruct (H Hr) as (Hp & _ & _ & Hq & Hs & Hm & _ & Hc & Hv & _).
    split_and!; try done.
    + intros Hreq. rewrite Hreq in Hp. by destruct (IsPrivacySet a).
    + intros Hne. rewrite bool_decide_eq_false_2 in Hm by done. simpl in Hm. by apply negb_false_iff.
    + by apply negb_false_iff.
Qed.

Lemma returns_compatible c a req : oreturns (compatible c a req) (fun b => b = true -> fits c req a).
Proof.
  eapply returns_bind; [apply returns_incompatibility|]. intros [s|] H; apply returns_Return; [done|]. auto.
Qed.

(** ** Accounts read again *)

(** The account answered, if any, has the identifier. *)
Definition id_is (i : Z) (r : option Account) : Prop := match r with Some a => ID a = i | None => True end.

Lemma silent_first_veto l : Forall (fun p => osilent step p) l -> osilent step (first_veto l).
Proof.
  induction 1 as [|p l Hp _ IH]; [by apply returns_Return|]. cbn [first_veto].
  eapply returns_bind; [exact Hp|]. intros [s|] _; [by apply returns_Return|exact IH].
Qed.

Lemma returns_blocked_by_threshold a : oreturns (blocked_by_threshold svc a) (fun r => ID r.2 = ID a).
Proof.
  unfold blocked_by_threshold. destruct (os_rateLimitService svc); [|by apply returns_Return].
  oquiet_call.
Qed.

Lemma returns_get_by_id id : oreturns (gdo (GetByID id)) (fun r => id_is id (found r)).
Proof.
  apply (returns_gdo step ook (GetByID id) (fun r => id_is id (found r)) eq_refl).
  intros [[a|]|] H; try done. by destruct H as [H _]; destruct (H a eq_refl).
Qed.

Lemma returns_snapshot_get id : oreturns (gdo (SnapshotGetAccount id)) (fun r => id_is id (found r)).
Proof.
  apply (returns_gdo step ook (SnapshotGetAccount id) (fun r => id_is id (found r)) eq_refl).
  intros [[a|]|] H; try done. by destruct H as [H _]; destruct (H a eq_refl).
Qed.

Lemma returns_schedulable_account id : os_schedulerSnapshot svc || os_accountRepo svc = true ->
  oreturns (getSchedulableAccount svc id) (id_is id).
Proof.
  intros Hsvc. unfold getSchedulableAccount. eapply returns_bind with (P := fun r => id_is id (found r)).
  { destruct (os_schedulerSnapshot svc); [apply returns_snapshot_get|]. cbn [orb] in Hsvc. rewrite Hsvc. apply returns_get_by_id. }
  intros r Hr. destruct (found r) as [a|]; [|by apply returns_Return].
  eapply returns_bind; [apply returns_blocked_by_threshold|]. intros [[] b] Hb; [by apply returns_Return|].
  cbn [id_is fst snd] in *. destruct (IsGrok b); [|apply returns_Return; simpl; congruence].
  eapply returns_bind; [oquiet_call; exact (fun _ _ => I)|]. intros [|x l] _; apply returns_Return; simpl; [done|congruence].
Qed.

Lemma returns_keep_if p q i : osilent step p -> oreturns q (id_is i) -> oreturns (keep_if p q) (id_is i).
Proof.
  intros Hp Hq. eapply returns_bind; [exact Hp|]. intros [] _; [exact Hq|by apply returns_Return].
Qed.

Lemma returns_unless_blocked a q :
  (forall b, ID b = ID a -> oreturns (q b) (id_is (ID a))) -> oreturns (unless_blocked svc a q) (id_is (ID a)).
Proof.
  intros Hq. eapply returns_bind; [apply returns_blocked_by_threshold|]. intros [[] b] Hb; [by apply returns_Return|]. by apply Hq.
Qed.

Lemma returns_unless_quarantined c a : oreturns (unless_quarantined c a) (id_is (ID a)).
Proof. eapply returns_bind; [apply silent_quarantined|]. intros [] _; by apply returns_Return. Qed.

Lemma silent_eligibility c a pf m rc cap :
  osilent step (eligibility_failure opts tzdb grok_billing known_free grok_quota c a pf m rc cap).
Proof.
  apply silent_first_veto. repeat apply Forall_cons_2; try apply Forall_nil_2; try (by apply returns_Return).
  - eapply returns_bind; [apply silent_model_schedulable|]. intros [] _; [by apply returns_Return|].
    eapply returns_bind; [apply silent_schedulable|]. intros. by apply returns_Return.
  - eapply returns_bind; [apply silent_auto_pause|]. intros. by apply returns_Return.
  - osilently.
Qed.

Lemma silent_eligible c a pf m rc cap :
  osilent step (eligible opts tzdb grok_billing known_free grok_quota c a pf m rc cap).
Proof. eapply returns_bind; [apply silent_eligibility|]. intros. by apply returns_Return. Qed.

Lemma silent_not_blocked a m : osilent step (b ← odo (RuntimeBlocked a m); Return (negb b)).
Proof. osilently. Qed.

Lemma silent_privacy_ok c g a :
  osilent step (required ← openAIGroupRequiresPrivacySet svc c g; Return (negb (required && negb (IsPrivacySet a)))).
Proof. eapply returns_bind; [apply silent_group_privacy|]. intros. by apply returns_Return. Qed.

Lemma id_is_profit c i r : id_is i r -> id_is i (profit_kept c r).
Proof. destruct r as [a|]; [|done]. simpl. by destruct (openAIProfitControlVetoReason _ _). Qed.

(** Checks of an account that end with the quarantine. *)
Lemma returns_tail c a pf m rc cap p i :
  osilent step p -> ID a = i ->
  oreturns (keep_if (eligible opts tzdb grok_billing known_free grok_quota c a pf m rc cap)
    (keep_if (parentHealthyForShadow a (parentAccountLookup svc)) (keep_if p
      (unless_blocked svc a (fun b => unless_quarantined c b))))) (id_is i).
Proof.
  intros Hp <-. apply returns_keep_if; [apply silent_eligible|].
  apply returns_keep_if; [apply silent_parent_healthy, silent_parent_lookup|].
  apply returns_keep_if; [exact Hp|].
  apply returns_unless_blocked. intros b <-. apply returns_unless_quarantined.
Qed.

Lemma returns_resolve_fresh_before c a pf m rc cap :
  oreturns (resolveFreshSchedulableOpenAIAccountBeforeProfit opts tzdb svc grok_billing known_free grok_quota c a pf m rc cap)
    (id_is (ID a)).
Proof.
  unfold resolveFreshSchedulableOpenAIAccountBeforeProfit. eapply returns_bind with (P := id_is (ID a)).
  { destruct (os_schedulerSnapshot svc) eqn:Hs; [apply returns_schedulable_account; by rewrite Hs|by apply returns_Return]. }
  intros [b|] Hb; [|by apply returns_Return]. apply returns_tail; [apply silent_not_blocked|exact Hb].
Qed.

Lemma returns_resolve_fresh c a pf m rc cap :
  oreturns (resolveFreshSchedulableOpenAIAccount opts tzdb svc grok_billing known_free grok_quota c a pf m rc cap)
    (id_is (ID a)).
Proof. eapply returns_bind; [apply returns_resolve_fresh_before|]. intros r Hr. by apply returns_Return, id_is_profit. Qed.

Lemma returns_recheck_before c a g pf m rc cap :
  oreturns (recheckSelectedOpenAIAccountFromDBBeforeProfit opts tzdb svc grok_billing known_free grok_quota GroupIDs
              c a g pf m rc cap) (id_is (ID a)).
Proof.
  unfold recheckSelectedOpenAIAccountFromDBBeforeProfit. cbv zeta. destruct (negb _).
  - apply returns_keep_if; [apply silent_privacy_ok|]. apply returns_keep_if; [apply silent_eligible|].
    apply returns_unless_blocked. intros b Hb. apply returns_keep_if; [apply silent_parent_healthy, silent_parent_lookup|].
    rewrite <- Hb. apply returns_unless_quarantined.
  - eapply returns_bind; [apply returns_get_by_id|]. intros r Hr. cbv beta in Hr.
    destruct (found r) as [latest|]; [|by apply returns_Return].
    apply returns_keep_if; [by apply returns_Return|]. apply returns_keep_if; [apply silent_privacy_ok|].
    apply returns_tail; [apply silent_not_blocked|exact Hr].
Qed.

Lemma returns_recheck c a g pf m rc cap :
  oreturns (recheckSelectedOpenAIAccountFromDB opts tzdb svc grok_billing known_free grok_quota GroupIDs c a g pf m rc cap)
    (id_is (ID a)).
Proof. eapply returns_bind; [apply returns_recheck_before|]. intros r Hr. by apply returns_Return, id_is_profit. Qed.

(** ** The final checks of a candidate *)

Abbreviation transport_ok a req := (isAccountTransportCompatible svc a (rq_RequiredTransport req) = true).

(** An account the request may be sent to. *)
Definition serves (c : OCtx) (req : OpenAIAccountScheduleRequest) (a : Account) : Prop :=
  transport_ok a req /\ fits c req a.

Definition serves_as (c : OCtx) (req : OpenAIAccountScheduleRequest) (i : Z) (r : option Account) : Prop :=
  match r with Some a => ID a = i /\ serves c req a | None => True end.

Lemma returns_usable c req r i : id_is i r ->
  oreturns (usable opts svc grok_billing known_free upstream_model c req r) (serves_as c req i).
Proof.
  intros Hr. unfold usable. destruct r as [a|]; [|by apply returns_Return].
  destruct (isAccountTransportCompatible _ _ _) eqn:Ht; cbn [negb]; [|by apply returns_Return].
  eapply returns_bind; [apply returns_compatible|]. intros [] Hf; apply returns_Return; [|done].
  split; [done|]. split; [done|auto].
Qed.

Lemma returns_usable_same c req a :
  oreturns (usable opts svc grok_billing known_free upstream_model c req (Some a)) (fun r => r <> None -> serves c req a).
Proof.
  unfold usable. destruct (isAccountTransportCompatible _ _ _) eqn:Ht; cbn [negb]; [|by apply returns_Return].
  eapply returns_bind; [apply returns_compatible|]. intros [] Hf; apply returns_Return; [|done]. split; auto.
Qed.

Lemma returns_fresh_usable c req a :
  oreturns (fresh_usable opts tzdb svc grok_billing known_free grok_quota upstream_model c req a) (serves_as c req (ID a)).
Proof. eapply returns_bind; [apply returns_resolve_fresh|]. intros r Hr. by apply returns_usable. Qed.

Lemma returns_latest_usable c req a :
  oreturns (latest_usable opts tzdb svc grok_billing known_free grok_quota upstream_model GroupIDs c req a)
    (serves_as c req (ID a)).
Proof. eapply returns_bind; [apply returns_recheck|]. intros r Hr. by apply returns_usable. Qed.

Lemma silent_bind_sticky c g h id : osilent step (bindOpenAIStickySessionDuringSelection svc c g h id).
Proof. unfold bindOpenAIStickySessionDuringSelection. cbv zeta. osilently. Qed.

Lemma silent_delete_sticky g h : osilent step (delete_sticky svc g h).
Proof. unfold delete_sticky. osilently. Qed.

Lemma silent_over_quota a : osilent step (over_free_quota a).
Proof. unfold over_free_quota. osilently. Qed.

Lemma silent_grok_limited a m : osilent step (grok_limited opts upstream_model a m).
Proof. unfold grok_limited, isGrokTeamModelRateLimited. cbv zeta. destruct (IsGrokOAuth a); osilently. Qed.
End Checks.

(** ** Slots, probes and decisions *)

Record oghost := mkOGhost { oheld : list Z; probes : Z; decisions : list OpenAIAccountScheduleDecision }.

(** Only an account with a limit on its concurrency is probed. *)
Definition omove (c : ocall) : oreply c -> oghost -> oghost :=
  match c with
  | Gateway (AcquireAccountSlot id mx) => fun r g =>
      mkOGhost (if decide (r = Some true) then id :: oheld g else oheld g)
        (if 0 <? mx then probes g + 1 else probes g) (decisions g)
  | Gateway (ReleaseSlot id) => fun _ g => mkOGhost (remove_one id (oheld g)) (probes g) (decisions g)
  | RecordSelect d => fun _ g => mkOGhost (oheld g) (probes g) (d :: decisions g)
  | _ => fun _ g => g
  end.

#[export] Instance omove_quiet : OQuietStep omove.
Proof. intros c r g Hc. destruct c as [c| | | | | | | | | | | | | | | | | | |]; try done. by destruct c. Qed.

Notation owp p g Q := (wp omove ook p g Q).

(** The slots of a result. *)
Definition result_slots (r : option AccountSelectionResult) : list Z :=
  match r with Some sel => slots (sel_ReleaseFunc sel) | None => [] end.

Definition ok_slots {E} (r : result E (option AccountSelectionResult)) : list Z :=
  match r with Ok r => result_slots r | Err _ => [] end.

(** From [g] to [g'] only the slots of [l] were added. *)
Definition adds (l : list Z) (g g' : oghost) : Prop := oheld g' = l ++ oheld g /\ decisions g' = decisions g.

(** A result for an account of [P]: with a slot of it and no plan, or with a
    plan for it and no slot; and the gate of the request. *)
Definition well_formed (c : OCtx) (P : Account -> Prop) (sel : AccountSelectionResult) : Prop :=
  let a := sel_Account sel in
  P a /\ sel_profitGate sel = oc_Gate c /\
  (if sel_Acquired sel
   then sel_ReleaseFunc sel <> None /\ slot_of (sel_ReleaseFunc sel) a /\ sel_WaitPlan sel = None
   else sel_ReleaseFunc sel = None /\ exists plan, sel_WaitPlan sel = Some plan /\ plan_for plan a).

Definition all_well_formed {E} (c : OCtx) (P : Account -> Prop) (r : result E (option AccountSelectionResult)) : Prop :=
  forall sel, r = Ok (Some sel) -> well_formed c P sel.

(** A limited budget counts the probes and stays within its limit. *)
Definition spent (b b' : openAISelectionProbeBudget) (g g' : oghost) : Prop :=
  limited b' = limited b /\
  (limited b = true -> probes g' - probes g = acquires b' - acquires b /\
     acquires b <= acquires b' <= Z.max openAIAccountSelectionProbeLimit (acquires b)).

Lemma spent_refl b g : spent b b g g.
Proof. split; [done|]. lia. Qed.

Lemma spent_trans b1 b2 b3 g1 g2 g3 : spent b1 b2 g1 g2 -> spent b2 b3 g2 g3 -> spent b1 b3 g1 g3.
Proof.
  intros [Hl1 H1] [Hl2 H2]. split; [congruence|]. intros Hl.
  rewrite Hl in *. rewrite Hl1 in H2. specialize (H1 eq_refl). specialize (H2 eq_refl). lia.
Qed.

Lemma adds_nil_trans l g1 g2 g3 : adds [] g1 g2 -> adds l g2 g3 -> adds l g1 g3.
Proof. unfold adds. simpl. intros [-> ->]. done. Qed.

Lemma adds_refl g : adds [] g g.
Proof. done. Qed.

#[export] Hint Resolve spent_refl adds_refl : core.

Section Loops.
Context {seen : Observed} (opts : ModelMappingOptions) (tzdb : string -> option Location).
Context (svc : OServices).
Context (grok_billing : Account -> option BillingSummary) (known_free : Account -> bool).
Context (grok_quota : Account -> option QuotaSnapshot).
Context (upstream_model : Account -> string -> bool -> string) (GroupIDs : Account -> list Z).

Abbreviation serves' := (serves opts svc grok_billing known_free).

(** The slot of a successful attempt. *)
Definition attempt_slots (r : option (option ReleaseFunc)) : list Z :=
  match r with Some f => slots f | None => [] end.

Definition slot_for (id : Z) (r : option (option ReleaseFunc)) : Prop :=
  attempt_slots r = [] \/ attempt_slots r = [id].

Lemma wp_acquire_slot id mx g (Q : option (option ReleaseFunc) -> oghost -> Prop) :
  (forall r g', slot_for id r -> adds (attempt_slots r) g g' ->
     probes g' = probes g + (if os_concurrencyService svc && (0 <? mx) then 1 else 0) -> Q r g') ->
  owp (acquire_slot svc id mx) g Q.
Proof.
  intros HQ. unfold acquire_slot. destruct (os_concurrencyService svc); cbn [negb andb].
  - apply wp_bind. intros r _. cbn. destruct r as [[]|].
    + rewrite decide_True by done. apply HQ; [by right|done|]. cbn. destruct (0 <? mx); lia.
    + rewrite decide_False by done. apply HQ; [by left|done|]. cbn. destruct (0 <? mx); lia.
    + rewrite decide_False by done. apply HQ; [by left|done|]. cbn. destruct (0 <? mx); lia.
  - apply HQ; [by left|done|]. cbn; lia.
Qed.

Lemma wp_release f g h (Q : unit -> oghost -> Prop) :
  oheld g = slots (Some f) ++ h ->
  (forall g', oheld g' = h -> probes g' = probes g -> decisions g' = decisions g -> Q tt g') ->
  owp (release_slot f) g Q.
Proof.
  intros Hg HQ. destruct f as [id|]; cbn in *.
  - intros [] _. apply HQ; [|done..]. cbn. rewrite Hg. apply remove_one_head.
  - by apply HQ.
Qed.

(** What an attempt under the budget leaves. *)
Lemma wp_try_slot id mx b g (Q : option (option (option ReleaseFunc)) * openAISelectionProbeBudget -> oghost -> Prop) :
  (forall r b' g', slot_for id (default None r) -> adds (attempt_slots (default None r)) g g' ->
     spent b b' g g' -> Q (r, b') g') ->
  owp (tryAcquireOpenAIAccountSlot svc id mx b) g Q.
Proof.
  intros HQ. unfold tryAcquireOpenAIAccountSlot.
  destruct (os_concurrencyService svc && (0 <? mx)) eqn:Hc; cycle 1.
  { cbn [negb]. apply wp_bind, wp_acquire_slot. intros r g' Hr Ha Hp. rewrite Hc in Hp.
    apply (HQ (Some r)); [done..|]. split; [done|]. lia. }
  unfold recordAcquire. destruct (limited b) eqn:Hl; cbn [negb].
  - destruct (Z.leb_spec openAIAccountSelectionProbeLimit (acquires b)); cbn [negb].
    { apply (HQ None); [by left|done|done]. }
    apply wp_bind, wp_acquire_slot. intros r g' Hr Ha Hp. rewrite Hc in Hp.
    apply (HQ (Some r)); [done..|]. split; [done|]. cbn [probes acquires limited] in *. lia.
  - apply wp_bind, wp_acquire_slot. intros r g' Hr Ha Hp.
    apply (HQ (Some r)); [done..|]. split; [done|]. rewrite Hl. done.
Qed.

Lemma spent_recheck b g b' ok : consumeOpenAISelectionDBRecheck svc b = (ok, b') -> spent b b' g g.
Proof.
  unfold consumeOpenAISelectionDBRecheck, recordRecheck.
  destruct (negb _); [by intros [= <- <-]|].
  destruct (limited b) eqn:Hl; cbn [negb]; [|by intros [= <- <-]].
  destruct (_ <=? _); intros [= <- <-]; [done|]. split; [done|]. cbn [probes acquires limited] in *. lia.
Qed.

Lemma returns_return_acquired c req a f :
  returns omove ook (return_acquired svc c req a f) (fun sel => sel = acquired_result c a f).
Proof.
  eapply returns_bind with (P := fun _ => True).
  { destruct (_ && _); [apply (silent_bind_sticky omove)|by apply returns_Return]. }
  intros _ _. by apply returns_Return.
Qed.

Lemma acquired_well_formed c (P : Account -> Prop) a f :
  P a -> slot_of (Some f) a -> well_formed c P (acquired_result c a f).
Proof. intros HP Hf. by split_and!. Qed.

(** ** The loops *)

Definition served (c : OCtx) (req : OpenAIAccountScheduleRequest) (N : Z -> Prop) (a : Account) : Prop :=
  serves' c req a /\ N (ID a).

Abbreviation order := (tryAcquireOpenAISelectionOrderWithBudget opts tzdb svc grok_billing known_free grok_quota
  upstream_model GroupIDs).

(** What an order leaves, from [b] and [g]. *)
Definition order_post (c : OCtx) (req : OpenAIAccountScheduleRequest) (N : Z -> Prop) (b : openAISelectionProbeBudget)
    (g : oghost) (t : Attempted) (g' : oghost) : Prop :=
  all_well_formed c (served c req N) t.1.1 /\ adds (ok_slots t.1.1) g g' /\ spent b t.2 g g'.

Lemma order_post_trans c req N b1 b2 g1 g2 t g3 :
  spent b1 b2 g1 g2 -> adds [] g1 g2 -> order_post c req N b2 g2 t g3 -> order_post c req N b1 g1 t g3.
Proof.
  intros Hs Ha (Hw & Ha' & Hs'). split_and!; [done|by eapply adds_nil_trans|by eapply spent_trans].
Qed.

(** The order ends without a result. *)
Lemma order_post_none c req N b b' g g' blocked :
  spent b b' g g' -> adds [] g g' -> order_post c req N b g (Ok None, blocked, b') g'.
Proof. intros Hs Ha. by split_and!. Qed.

Lemma order_post_err c req N b b' g g' e blocked :
  spent b b' g g' -> adds [] g g' -> order_post c req N b g (Err e, blocked, b') g'.
Proof. intros Hs Ha. by split_and!. Qed.

Lemma slots_cases id (f : ReleaseFunc) : slot_for id (Some (Some f)) -> slots (Some f) = [] \/ slots (Some f) = [id].
Proof. done. Qed.

(** A slot is given back and the rest follows. *)
Lemma wp_release_then {A} f (p : oprog A) g1 g2 (Q : A -> oghost -> Prop) :
  adds (slots (Some f)) g1 g2 ->
  (forall g3, adds [] g1 g3 -> probes g3 = probes g2 -> owp p g3 Q) ->
  owp (_ ← release_slot f; p) g2 Q.
Proof.
  intros [Hh Hd] HQ. apply wp_bind, (wp_release f g2 (oheld g1)); [done|]. intros g3 H1 H2 H3.
  apply HQ; [|done]. split; [done|congruence].
Qed.

Lemma spent_same_probes b b' g1 g2 g3 : spent b b' g1 g2 -> probes g3 = probes g2 -> spent b b' g1 g3.
Proof. intros [Hl H] Hp. split; [done|]. by rewrite Hp. Qed.

(** The account is returned with its slot. *)
Lemma wp_return_order c req N b b' g g' a f blocked :
  served c req N a -> slot_for (ID a) (Some (Some f)) -> adds (slots (Some f)) g g' -> spent b b' g g' ->
  owp (sel ← return_acquired svc c req a f; Return (Ok (Some sel), blocked, b')) g'
    (order_post c req N b g).
Proof.
  intros Ha Hf Hadd Hs. eapply wp_returns; [apply returns_return_acquired|]. intros sel ->.
  split_and!; [|done|done]. intros sel [= <-]. by apply acquired_well_formed.
Qed.

(** The end of a candidate: its account was read again, [f] is its slot. *)
Lemma wp_latest c req (N : Z -> Prop) cand latest f b b' g g' blocked (again : bool -> openAISelectionProbeBudget -> oprog Attempted) :
  served c req N latest -> ID latest = ID (account cand) ->
  slot_for (ID (account cand)) (Some (Some f)) -> adds (slots (Some f)) g g' -> spent b b' g g' ->
  (forall blocked b g, owp (again blocked b) g (order_post c req N b g)) ->
  owp (if rq_RequireCompact req && (openAICompactSupportTier latest =? 0)
       then _ ← release_slot f; again true b'
       else if Concurrency latest =? Concurrency (account cand) then
         sel ← return_acquired svc c req latest f; Return (Ok (Some sel), blocked, b')
       else
         _ ← release_slot f;
         r ← tryAcquireOpenAIAccountSlot svc (ID latest) (Concurrency latest) b';
         let '(attempt, budget) := r in
         match attempt with
         | None => again blocked budget
         | Some None => Return (Err SlotFailed, blocked, budget)
         | Some (Some None) => again blocked budget
         | Some (Some (Some f)) => sel ← return_acquired svc c req latest f; Return (Ok (Some sel), blocked, budget)
         end) g' (order_post c req N b g).
Proof.
  intros Hs Hid Hf Ha Hb Hagain.
  destruct (_ && _).
  { apply (wp_release_then f _ g); [done|]. intros g3 Ha3 Hp3. eapply wp_mono; [apply Hagain|].
    intros t g4. apply order_post_trans; [by eapply spent_same_probes|done]. }
  destruct (_ =? _); [apply wp_return_order; try done; by rewrite Hid|].
  apply (wp_release_then f _ g); [done|]. intros g3 Ha3 Hp3.
  apply wp_bind, wp_try_slot. intros r b4 g4 Hr Ha4 Hb4.
  assert (Hb' : spent b b4 g g4) by (eapply spent_trans; [by eapply spent_same_probes|done]).
  assert (Hother : attempt_slots (default None r) = [] -> adds [] g g4).
  { intros E. rewrite E in Ha4. by eapply adds_nil_trans. }
  destruct r as [[[f'|]|]|]; cbn [default] in *.
  - apply wp_return_order; [done..| |done]. by eapply adds_nil_trans.
  - eapply wp_mono; [apply Hagain|]. intros t g5. apply order_post_trans; auto.
  - apply order_post_err; auto.
  - eapply wp_mono; [apply Hagain|]. intros t g5. apply order_post_trans; auto.
Qed.

Lemma wp_order c req N l : Forall (fun cand => N (ID (account cand))) l ->
  forall blocked b g, owp (order c req l blocked b) g (order_post c req N b g).
Proof.
  induction 1 as [|cand l HN Hl IH]; intros blocked b g; cbn [tryAcquireOpenAISelectionOrderWithBudget]; cbv zeta.
  { by apply order_post_none. }
  destruct (known_full cand); [apply IH|].
  apply wp_bind, wp_try_slot. intros r b' g' Hr Ha Hb.
  assert (Hgo : forall blocked, attempt_slots (default None r) = [] -> owp (order c req l blocked b') g' (order_post c req N b g)).
  { intros bl E. rewrite E in Ha. eapply wp_mono; [apply IH|]. intros t g3. by apply order_post_trans. }
  destruct r as [[[f|]|]|]; cbn [default] in *; [|auto|by apply order_post_err|by apply order_post_none].
  assert (Hback : forall blocked b3 g3, spent b b3 g g3 -> adds [] g g3 -> owp (order c req l blocked b3) g3 (order_post c req N b g)).
  { intros bl b3 g3 Hb3 Ha3. eapply wp_mono; [apply IH|]. intros t g4. by apply order_post_trans. }
  eapply wp_returns; [by apply (returns_fresh_usable omove)|]. intros [fresh|] Hfresh; cycle 1.
  { apply (wp_release_then f _ g); [done|]. intros g3 Ha3 Hp3. apply Hback; [by eapply spent_same_probes|done]. }
  destruct (consumeOpenAISelectionDBRecheck svc b') as [allowed b2] eqn:Hc.
  assert (Hb2 : spent b b2 g g') by (eapply spent_trans; [exact Hb|by eapply spent_recheck]).
  destruct allowed; cbn [negb]; cycle 1.
  { apply (wp_release_then f _ g); [done|]. intros g3 Ha3 Hp3.
    apply order_post_none; [by eapply spent_same_probes|done]. }
  eapply wp_returns; [by apply (returns_latest_usable omove)|]. intros [latest|] Hlatest; cycle 1.
  { apply (wp_release_then f _ g); [done|]. intros g3 Ha3 Hp3. apply Hback; [by eapply spent_same_probes|done]. }
  destruct Hfresh as [Hf1 _], Hlatest as [Hl1 Hl2].
  apply wp_latest; try done; [|congruence].
  split; [done|]. by rewrite Hl1, Hf1.
Qed.
End Loops.
