(* ===== verification/OpenAISelectProperties.v ===== *)
(** * The OpenAI account scheduler: what a selection leaves behind

    Every layer of OpenAISelect.v, and the whole of [Select]: the account it
    returns may serve the request and was not excluded, its slot is the only
    one taken, and its decision is recorded once. *)

From S2P Require Import Prelude GoSort GoStrings Float64 GoTime GoAny Account AccountProtocol ModelMapping AccountScheduling ModelAvailability GroupRouting GoProgram ConcurrencyCache GatewayCalls SelectionGates AccountSelectionProperties OpenAIQuota OpenAIRanking OpenAIRankingProperties OpenAICapabilities OpenAICalls OpenAIEligibility OpenAIScheduler OpenAISelect OpenAISchedulerProperties.
Local Open Scope Z_scope.

(** ** The accounts of a plan are those it was given *)

Lemma pool_order_in req seed topK overflow pool x : x ∈ pool_order req seed topK overflow pool -> x ∈ pool.
Proof.
  unfold pool_order. destruct pool as [|c p] eqn:Ep; [done|]. rewrite <- Ep. clear Ep c p. cbv zeta.
  destruct (topK <=? 0); [by intros ?%elem_of_nil|].
  destruct (selectTopK_sub pool (topK `min` Z.of_nat (length pool))) as [rest Hrest].
  set (ranked := selectTopKOpenAICandidates pool _) in *. clearbody ranked.
  pose proof (primary_perm req seed ranked) as Hp. set (primary := match sticky_primary req ranked with Some l => l | None => _ end) in *.
  assert (Hsub : forall y, y ∈ primary -> y ∈ pool) by (intros y; rewrite Hp, <- Hrest, elem_of_app; auto).
  destruct (_ || _); [apply Hsub|]. rewrite elem_of_app. intros [H|H]; [by apply Hsub|].
  unfold sort_candidates in H. rewrite SliceStable_perm in H.
  by apply list_elem_of_In, filter_In in H as [H%list_elem_of_In _].
Qed.

Lemma filter_in {A} (f : A -> bool) l x : x ∈ List.filter f l -> x ∈ l.
Proof. intros H. by apply list_elem_of_In, filter_In in H as [H%list_elem_of_In _]. Qed.

Lemma selection_order_in req snap k overflow cands stale x :
  x ∈ buildOpenAISelectionOrder req snap k overflow cands stale -> x ∈ cands \/ x ∈ stale.
Proof.
  unfold buildOpenAISelectionOrder. destruct (RequireCompact req).
  - rewrite !elem_of_app. intros [H%pool_order_in%filter_in|[H%pool_order_in%filter_in|H]]; [by left..|right].
    destruct snap; [|by apply elem_of_nil in H].
    unfold sortOpenAICompactRetryCandidates in H. by rewrite SliceStable_perm in H.
  - intros H%pool_order_in. by left.
Qed.

Lemma map_candidates_in (f : openAIAccountCandidateScore -> openAIAccountCandidateScore) x l :
  (forall c, account (f c) = account c) -> x ∈ map f l -> account x ∈ map account l.
Proof.
  intros Hf H. apply list_elem_of_In, in_map_iff in H as (c & <- & Hc). rewrite Hf.
  by apply list_elem_of_In, in_map.
Qed.

Lemma plan_members w k snap costs req stats now filtered loadMap x :
  x ∈ selectionOrder (buildOpenAIAccountLoadPlan w k snap costs req stats now filtered loadMap) ->
  account x ∈ filtered.
Proof.
  assert (Hall : map account (map (candidate_of stats loadMap) filtered) = filtered).
  { rewrite map_map. rewrite <- (map_id filtered) at 2. apply map_ext. intros. apply candidate_of_account. }
  assert (Hin : forall y l, (forall z, z ∈ l -> z ∈ map (candidate_of stats loadMap) filtered) ->
      account y ∈ map account l -> account y ∈ filtered).
  { intros y l Hl Hy. rewrite <- Hall. apply list_elem_of_In, in_map_iff in Hy as (c & <- & Hc).
    apply list_elem_of_In, in_map, list_elem_of_In, Hl. by apply list_elem_of_In. }
  assert (Hself : forall y (l : list openAIAccountCandidateScore), (forall z, z ∈ l -> z ∈ map (candidate_of stats loadMap) filtered) -> y ∈ l -> account y ∈ filtered).
  { intros y l Hl Hy. apply (Hin y l Hl). by apply list_elem_of_In, in_map, list_elem_of_In. }
  unfold buildOpenAIAccountLoadPlan. cbv zeta.
  set (stale := if RequireCompact req then List.filter (fun c => tier c =? 0) _ else []).
  set (kept := if RequireCompact req then List.filter _ _ else _).
  assert (Hstale : forall z, z ∈ stale -> z ∈ map (candidate_of stats loadMap) filtered).
  { intros z. unfold stale. destruct (RequireCompact req); [apply filter_in|by intros ?%elem_of_nil]. }
  assert (Hkept : forall z, z ∈ kept -> z ∈ map (candidate_of stats loadMap) filtered).
  { intros z. unfold kept. destruct (RequireCompact req); [apply filter_in|done]. }
  destruct kept as [|first rest] eqn:Ek; rewrite <- ?Ek in *; cbn [selectionOrder];
    intros [H|H]%selection_order_in; [by apply (Hself x kept)|by apply (Hself x stale)| |by apply (Hself x stale)].
  eapply Hin; [exact Hkept|]. eapply map_candidates_in; [|exact H]. done.
Qed.

(** ** Lists of refusals *)

Section Silent.
Context {seen : Observed} {S : Type} (step : forall c, oreply c -> S -> S) `{!OQuietStep step}.
Context (opts : ModelMappingOptions) (tzdb : string -> option Location) (svc : OServices) `{!ReadsAccounts svc}.
Context (grok_billing : Account -> option BillingSummary) (known_free : Account -> bool).
Context (grok_quota : Account -> option QuotaSnapshot).
Context (upstream_model : Account -> string -> bool -> string) (GroupIDs : Account -> list Z).
Context (log exp : f64 -> f64) (fresh_rate : time -> Account -> option f64).

Abbreviation oreturns p P := (returns step ook p P).

Lemma silent_first_refusal l : Forall (fun p => osilent step p) l -> osilent step (first_refusal l).
Proof.
  induction 1 as [|p l Hp _ IH]; [by apply returns_Return|]. cbn [first_refusal].
  eapply returns_bind; [exact Hp|]. intros [s|] _; [by apply returns_Return|exact IH].
Qed.

Lemma silent_refuse_if clear p : osilent step p -> osilent step (refuse_if clear p).
Proof. intros Hp. eapply returns_bind; [exact Hp|]. intros b _. by apply returns_Return. Qed.

Lemma silent_response_stale a m : osilent step (response_stale opts tzdb a m).
Proof.
  unfold response_stale. eapply returns_bind; [by apply silent_should_clear|]. intros stale _.
  destruct (_ || _); [by apply returns_Return|].
  eapply returns_bind; [by apply silent_schedulable|]. intros. by apply returns_Return.
Qed.

Lemma silent_response_checks c a m cap :
  Forall (fun p => osilent step p) (response_checks opts svc grok_billing known_free c a m cap).
Proof.
  unfold response_checks. repeat apply Forall_cons_2; try apply Forall_nil_2; apply silent_refuse_if; try by apply returns_Return.
  - eapply returns_bind; [apply silent_parent_healthy; [done|]; intros; by apply silent_parent_lookup|]. intros. by apply returns_Return.
  - eapply returns_bind; [by apply silent_auto_pause|]. intros. by apply returns_Return.
Qed.

Lemma silent_response_first c a m cap : osilent step (response_first opts tzdb svc grok_billing known_free c a m cap).
Proof.
  apply silent_first_refusal. apply Forall_app. split; [|apply silent_response_checks].
  repeat apply Forall_cons_2; try apply Forall_nil_2; apply silent_refuse_if.
  - by apply returns_Return.
  - apply silent_response_stale.
Qed.

(** The account of a result. *)
Definition ok_id (i : Z) (r : result bool Account) : Prop := match r with Ok a => ID a = i | Err _ => True end.

Lemma returns_response_latest c g a m cap :
  oreturns (response_latest opts tzdb svc grok_billing known_free GroupIDs c g a m cap) (ok_id (ID a)).
Proof.
  unfold response_latest. destruct (negb _); [by apply returns_Return|].
  eapply returns_bind; [by apply returns_get_by_id|]. intros r Hr. cbv beta in Hr.
  destruct (found r) as [latest|]; [|by apply returns_Return].
  eapply returns_bind with (P := fun _ => True); [|intros [clear|] _; by apply returns_Return].
  apply silent_first_refusal. apply Forall_app. split.
  { repeat apply Forall_cons_2; try apply Forall_nil_2; apply silent_refuse_if; [apply silent_response_stale|by apply returns_Return|].
    eapply returns_bind; [by apply silent_group_privacy|]. intros. by apply returns_Return. }
  apply Forall_app. split; [apply silent_response_checks|].
  apply Forall_cons_2; [|apply Forall_nil_2]. apply silent_refuse_if. by oquiet_call.
Qed.

Lemma returns_response_checked c g id m cap rc :
  oreturns (response_checked opts tzdb svc grok_billing known_free GroupIDs c g id m cap rc) (ok_id id).
Proof.
  unfold response_checked. eapply returns_bind; [by apply returns_schedulable_account|].
  intros [a|] Ha; [|by apply returns_Return].
  eapply returns_bind; [apply silent_response_first|]. intros [clear|] _; [by apply returns_Return|].
  eapply returns_bind; [apply returns_response_latest|]. intros [b|clear] Hb; apply returns_Return; [|done].
  destruct (_ && _); [done|]. cbn in *. congruence.
Qed.

(** The account bound to a response that was resolved was not excluded. *)
Lemma returns_resolve_previous c g resp m excluded cap rc :
  oreturns (resolveAccountByPreviousResponseIDForCapability opts tzdb svc grok_billing known_free GroupIDs c g resp m
              excluded cap rc)
    (fun r => forall i a h, r = Some (i, a, h) -> ID a = i /\ i ∉ excluded).
Proof.
  unfold resolveAccountByPreviousResponseIDForCapability. cbv zeta. destruct (_ ==? _); [by apply returns_Return|].
  eapply returns_bind; [oquiet_call; exact (fun _ _ => I)|]. intros r _.
  destruct (_ || _) eqn:He; [by apply returns_Return|]. apply orb_false_iff in He as [_ He].
  eapply returns_bind; [apply returns_response_checked|]. intros [a|clear] Ha.
  - apply returns_Return. intros i b h [= <- <- <-]. split; [done|]. by apply bool_decide_eq_false in He.
  - eapply returns_bind with (P := fun _ => True).
    { destruct clear; [by oquiet_call|by apply returns_Return]. }
    intros _ _. by apply returns_Return.
Qed.

(** ** The pool *)

Lemma silent_threshold_filter l : osilent step (filterOpenAIAccountsBySchedulingThreshold svc l).
Proof.
  induction l as [|a l IH]; [by apply returns_Return|]. cbn [filterOpenAIAccountsBySchedulingThreshold].
  eapply returns_bind; [by apply returns_blocked_by_threshold|]. intros [b a'] _.
  eapply returns_bind; [exact IH|]. intros rest _. by apply returns_Return.
Qed.

Lemma silent_list g pf : osilent step (listSchedulableAccounts svc g pf).
Proof.
  unfold listSchedulableAccounts. cbv zeta. eapply returns_bind with (P := fun _ => True).
  { unfold query_accounts. pose proof reads_accounts as Hr.
    destruct (os_schedulerSnapshot svc); [|cbn [orb] in Hr; rewrite Hr; by oquiet_call].
    eapply returns_bind; [oquiet_call; exact (fun _ _ => I)|]. intros. by apply returns_Return. }
  intros [l|] _; [|by apply returns_Return].
  eapply returns_bind; [apply silent_threshold_filter|]. intros l' _.
  destruct (_ ==? _); [|by apply returns_Return].
  eapply returns_bind; [oquiet_call; exact (fun _ _ => I)|]. intros. by apply returns_Return.
Qed.

Lemma silent_grok_filtered req l : osilent step (grok_filtered opts upstream_model req l).
Proof.
  assert (Hf : forall f : Account -> oprog bool, (forall a, osilent step (f a)) ->
      forall l, osilent step (filter_prog f l)).
  { intros f Hf k. induction k as [|a k IH]; [by apply returns_Return|]. cbn [filter_prog].
    eapply returns_bind; [apply Hf|]. intros b _. eapply returns_bind; [exact IH|]. intros. by apply returns_Return. }
  unfold grok_filtered, filterGrokTeamModelRateLimitedAccounts, filterGrokModelQuotaBlockedAccounts.
  destruct (negb _); [by apply returns_Return|].
  eapply returns_bind with (P := fun _ => True).
  { destruct (_ ==? _); [by apply returns_Return|]. apply Hf. intros a. unfold isGrokTeamModelRateLimited.
    destruct (IsGrokOAuth a); osilently. }
  intros [|x k] _; [by apply returns_Return|].
  eapply returns_bind with (P := fun _ => True).
  { destruct (_ ==? _); [by apply returns_Return|]. apply Hf. intros a. osilently. }
  intros [|y k'] _; by apply returns_Return.
Qed.

Abbreviation exclusion' := (exclusion opts tzdb svc grok_billing known_free upstream_model).
Abbreviation admitted' := (admitted opts tzdb svc grok_billing known_free upstream_model).

Lemma returns_exclusion c req private a :
  oreturns (exclusion' c req private a) (fun r => r = None -> ID a ∉ rq_ExcludedIDs req).
Proof.
  unfold exclusion. eapply returns_mono.
  - eapply (returns_veto_cons step _ _ _ True); [apply returns_veto_if|].
    eapply returns_mono; [|by intros ? _ _]. apply (silent_first_veto step).
    repeat apply Forall_cons_2; try apply Forall_nil_2; try (by apply returns_Return).
    + unfold veto_by. eapply returns_bind with (P := fun _ => True).
      { eapply returns_bind; [by apply silent_schedulable|]. intros. by apply returns_Return. }
      intros. by apply returns_Return.
    + unfold veto_by. osilently.
    + eapply returns_mono; [by apply returns_incompatibility|done].
  - simpl. intros r H Hr. destruct (H Hr) as [He _]. by apply bool_decide_eq_false in He.
Qed.

Lemma returns_admit_all c req private l stats :
  oreturns (admit_all opts tzdb svc grok_billing known_free upstream_model c req private l stats)
    (fun r => Forall (fun a => ID a ∉ rq_ExcludedIDs req) r.1).
Proof.
  revert stats. induction l as [|a l IH]; intros stats; [by apply returns_Return|]. cbn [admit_all].
  eapply returns_bind; [apply returns_exclusion|]. intros [reason|] Ha; [apply IH|].
  eapply returns_bind; [apply IH|]. intros r Hr. apply returns_Return. constructor; auto.
Qed.

Definition no_result (b : balanced) : Prop := exists e, bl_result b = Err e.

Lemma returns_admitted c req :
  oreturns (admitted' c req) (fun r => match r with
    | Ok (l, _) => Forall (fun a => ID a ∉ rq_ExcludedIDs req) l
    | Err b => no_result b
    end).
Proof.
  unfold admitted. eapply returns_bind; [apply silent_list|].
  intros [[|a l]|] _; [by apply returns_Return; eexists| |by apply returns_Return; eexists].
  eapply returns_bind; [oquiet_call; exact (fun _ _ => I)|]. intros [|b k] _; [by apply returns_Return; eexists|].
  eapply returns_bind; [apply silent_grok_filtered|]. intros [accounts|why] _; [|by apply returns_Return; eexists].
  eapply returns_bind with (P := fun _ => True).
  { unfold group_private. destruct (rq_GroupID req); osilently. }
  intros private _. eapply returns_bind; [apply returns_admit_all|]. intros [[|x k'] st] Hr; apply returns_Return.
  - by eexists.
  - exact Hr.
Qed.

(** ** Plans and waits *)

Lemma returns_load_plan req filtered loadMap (N : Z -> Prop) : Forall (fun a => N (ID a)) filtered ->
  oreturns (load_plan svc log exp fresh_rate req filtered loadMap)
    (fun p => Forall (fun x => N (ID (account x))) (selectionOrder p)).
Proof.
  intros HN. unfold load_plan, selection_seed.
  eapply returns_bind; [oquiet_call; exact (fun _ _ => I)|]. intros stats _.
  eapply returns_bind; [oquiet_call; exact (fun _ _ => I)|]. intros settings _.
  eapply returns_bind; [oquiet_call; exact (fun _ _ => I)|]. intros now _.
  do 2 (eapply returns_bind with (P := fun _ => True);
    [do 2 (eapply returns_bind; [oquiet_call; exact (fun _ _ => I)|]; intros ? _); by apply returns_Return|]; intros ? _).
  apply returns_Return, Forall_forall. intros x Hx%plan_members. rewrite Forall_forall in HN. by apply HN.
Qed.

Abbreviation serves' := (serves opts svc grok_billing known_free).
Abbreviation served' := (served opts svc grok_billing known_free).

Lemma fallback_well_formed c (P : Account -> Prop) a : P a -> well_formed c P (fallback_wait svc c a).
Proof. intros HP. split; [exact HP|]. split; [done|]. split; [done|]. by eexists. Qed.

(** An account waited for, of those named, and no slot of it. *)
Definition waits (c : OCtx) (P : Account -> Prop) (r : option AccountSelectionResult) : Prop :=
  result_slots r = [] /\ forall sel, r = Some sel -> well_formed c P sel.

Lemma returns_wait_for_first c req N l : Forall (fun x => N (ID (account x))) l -> forall blocked b,
  oreturns (wait_for_first opts tzdb svc grok_billing known_free grok_quota upstream_model GroupIDs c req l blocked b)
    (fun r => waits c (served' c req N) r.1.1).
Proof.
  assert (Hnone : forall blocked b, oreturns (Return (None, blocked, b)) (fun r : option AccountSelectionResult * bool * openAISelectionProbeBudget => waits c (served' c req N) r.1.1)).
  { intros. apply returns_Return. by split. }
  induction 1 as [|x l HN Hl IH]; intros blocked b; cbn [wait_for_first]; [apply Hnone|].
  eapply returns_bind; [by apply returns_fresh_usable|]. intros [fresh|] Hf; [|apply IH].
  destruct (consumeOpenAISelectionDBRecheck svc b) as [[] b']; cbn [negb]; [|apply Hnone].
  eapply returns_bind; [by apply returns_latest_usable|]. intros [a|] Ha; [|apply IH].
  destruct (_ && _); [apply IH|]. apply returns_Return. split; [done|]. intros sel [= <-].
  apply fallback_well_formed. destruct Hf as [Hf _], Ha as [Ha Hs]. split; [done|]. by rewrite Ha, Hf.
Qed.
End Silent.

(** ** The layers *)

Section Layers.
Context {seen : Observed} (opts : ModelMappingOptions) (tzdb : string -> option Location) (svc : OServices) `{!ReadsAccounts svc}.
Context (grok_billing : Account -> option BillingSummary) (known_free : Account -> bool).
Context (grok_quota : Account -> option QuotaSnapshot).
Context (upstream_model : Account -> string -> bool -> string) (GroupIDs : Account -> list Z).
Context (log exp : f64 -> f64) (fresh_rate : time -> Account -> option f64).

Abbreviation serves' := (serves opts svc grok_billing known_free).

(** The accounts a request may get. *)
Definition may_get (c : OCtx) (req : OpenAIAccountScheduleRequest) : Account -> Prop :=
  served opts svc grok_billing known_free c req (fun i => i ∉ rq_ExcludedIDs req).

(** The result accounts for every slot taken since [g]. *)
Definition handed (c : OCtx) (P : Account -> Prop) (g : oghost) {E} (r : result E (option AccountSelectionResult))
    (g' : oghost) : Prop := all_well_formed c P r /\ adds (ok_slots r) g g'.

Lemma handed_none c P g g' E : adds [] g g' -> handed c P g (Ok None : result E _) g'.
Proof. intros Ha. by split. Qed.

Lemma handed_err c P g g' E (e : E) : adds [] g g' -> handed c P g (Err e) g'.
Proof. intros Ha. by split. Qed.

Lemma handed_some c (P : Account -> Prop) g g' E sel :
  well_formed c P sel -> adds (result_slots (Some sel)) g g' -> handed c P g (Ok (Some sel) : result E _) g'.
Proof. intros Hw Ha. split; [|done]. by intros s [= <-]. Qed.

Lemma handed_trans c P g1 g2 E (r : result E _) g3 : adds [] g1 g2 -> handed c P g2 r g3 -> handed c P g1 r g3.
Proof. intros Ha [Hw Ha']. split; [done|]. by eapply adds_nil_trans. Qed.

#[local] Hint Resolve handed_none handed_err : core.

Lemma wait_well_formed c (P : Account -> Prop) a plan : P a -> plan_for plan a ->
  well_formed c P (mkSelection a false None (Some plan) (oc_Gate c)).
Proof. intros HP Hp. split; [exact HP|]. split; [done|]. split; [done|]. by eexists. Qed.

(** *** The sticky accounts of a weighted request *)

Abbreviation weighted_one := (weighted_sticky_one opts tzdb svc grok_billing known_free grok_quota upstream_model GroupIDs).

Lemma silent_when (b : bool) (p : oprog unit) : osilent omove p -> osilent omove (if b then p else Return tt).
Proof. intros Hp. destruct b; [done|by apply returns_Return]. Qed.

Lemma wp_weighted_one c req id g :
  owp (weighted_one c req id) g (fun r g' => handed c (may_get c req) g r g').
Proof.
  unfold weighted_sticky_one. destruct (_ || _) eqn:He; [by apply handed_none|].
  apply orb_false_iff in He as [_ He%bool_decide_eq_false].
  set (forget := if _ && _ then _ else _).
  assert (Hforget : osilent omove forget) by (apply silent_when, (silent_delete_sticky omove)). clearbody forget. cbv zeta.
  eapply wp_returns; [apply (returns_schedulable_account omove), reads_accounts|]. intros [a|] Ha; [|by apply handed_none].
  eapply wp_returns; [by apply (returns_compatible omove)|]. intros ok _. destruct (negb _); [by apply handed_none|].
  eapply wp_returns; [by apply (returns_recheck omove)|]. intros [b|] Hb.
  2:{ eapply wp_returns; [exact Hforget|]. intros _ _. by apply handed_none. }
  destruct (negb _); [eapply wp_returns; [exact Hforget|]; intros _ _; by apply handed_none|].
  eapply wp_returns; [by apply (returns_usable_same omove)|]. intros u Hu.
  destruct u as [u|]; [|by apply handed_none]. cbn [orb]. destruct (_ && _); [by apply handed_none|].
  eapply wp_returns; [apply (silent_over_quota omove)|]. intros [] _; [by apply handed_none|].
  eapply wp_returns; [apply (silent_grok_limited omove)|]. intros [] _; [by apply handed_none|].
  assert (Hget : may_get c req b).
  { split; [by apply Hu|]. cbn in *. congruence. }
  apply wp_bind, wp_acquire_slot. intros r g' Hr Hadd _. destruct r as [[f|]|].
  - eapply wp_returns; [apply returns_return_acquired|]. intros sel ->. apply handed_some; [|done].
    by apply acquired_well_formed.
  - destruct (os_concurrencyService svc); [|by apply handed_none].
    apply handed_some; [|done]. by apply wait_well_formed.
  - by apply handed_err.
Qed.

Lemma wp_weighted c req g :
  owp (tryFallbackToWeightedSticky opts tzdb svc grok_billing known_free grok_quota upstream_model GroupIDs c req) g
    (fun r g' => handed c (may_get c req) g r g').
Proof.
  unfold tryFallbackToWeightedSticky. destruct (negb _); [by apply handed_none|].
  apply wp_bind. eapply wp_mono; [apply wp_weighted_one|]. intros [[sel|]|e] g' Hr; try exact Hr.
  eapply wp_mono; [apply wp_weighted_one|]. intros r g3. apply handed_trans. by destruct Hr.
Qed.

(** *** The session *)

Lemma returns_sticky_checked c req id :
  returns omove ook
    (sticky_checked opts tzdb svc grok_billing known_free grok_quota upstream_model GroupIDs c req id)
    (fun r => match r with Ok a => ID a = id /\ serves' c req a | Err _ => True end).
Proof.
  assert (Herr : forall clear, returns omove ook (Return (Err clear) : oprog (result bool Account))
    (fun r => match r with Ok a => ID a = id /\ serves' c req a | Err _ => True end)) by (intros; by apply returns_Return).
  unfold sticky_checked. eapply returns_bind; [apply (returns_schedulable_account omove), reads_accounts|]. intros [a|] Ha; [|apply Herr].
  eapply returns_bind; [apply (silent_should_clear omove)|]. intros stale _. destruct (_ || _); [apply Herr|].
  eapply returns_bind; [apply (silent_schedulable omove)|]. intros [] _; cbn [negb]; [|apply Herr].
  eapply returns_bind; [by apply (returns_compatible omove)|]. intros [] _; cbn [negb]; [|apply Herr].
  destruct (negb _); [apply Herr|].
  eapply returns_bind; [by apply (returns_recheck omove)|]. intros [b|] Hb; [|apply Herr].
  destruct (negb _); [apply Herr|].
  eapply returns_bind; [by apply (returns_compatible omove)|]. intros ok Hok.
  destruct (ok && _) eqn:Hs; cbn [negb]; [|apply Herr].
  eapply returns_bind; [apply (silent_over_quota omove)|]. intros [] _; [apply Herr|].
  eapply returns_bind; [apply (silent_grok_limited omove)|]. intros [] _; apply returns_Return; [done|].
  apply andb_true_iff in Hs as [Hok' Ht]. split; [cbn in *; congruence|]. split; auto.
Qed.

Abbreviation by_session_with :=
  (selectBySessionHashWith opts tzdb svc grok_billing known_free grok_quota upstream_model GroupIDs).
Abbreviation by_session := (selectBySessionHash opts tzdb svc grok_billing known_free grok_quota upstream_model GroupIDs).

Lemma wp_session_hash_with read c req g : osilent omove read ->
  owp (by_session_with read c req) g (fun r g' => handed c (may_get c req) g (Ok r.1 : result OSelectionError _) g').
Proof.
  intros Hread. unfold selectBySessionHashWith. cbv zeta. destruct (_ || _); [by apply handed_none|].
  eapply (wp_returns omove) with (P := fun _ => True).
  { unfold bound_account. destruct (_ <? _); [by apply returns_Return|].
    eapply returns_bind; [oquiet_call; exact (fun _ _ => I)|]. intros. by apply returns_Return. }
  intros id _. destruct (_ || _) eqn:He; [by apply handed_none|]. apply orb_false_iff in He as [_ He%bool_decide_eq_false].
  eapply wp_returns; [apply returns_sticky_checked|]. intros [a|clear] Ha; cycle 1.
  { eapply wp_returns; [apply silent_when, (silent_delete_sticky omove)|]. intros _ _. by apply handed_none. }
  destruct Ha as [<- Ha]. assert (Hget : may_get c req a) by (by split).
  eapply (wp_returns omove) with (P := fun _ => True); [exact Hread|]. intros stats _.
  destruct (shouldEscapeStickyAccount _ _ _); [by apply handed_none|].
  apply wp_bind, wp_acquire_slot. intros r g' Hr Hadd _.
  assert (Hwait : forall b, handed c (may_get c req) g'
    (Ok (Some (mkSelection a false None (Some (mkWaitPlan (ID a) (Concurrency a) (StickySessionWaitTimeout (wait_config svc))
       (StickySessionMaxWaiting (wait_config svc)))) (oc_Gate c)), b : bool).1 : result OSelectionError _) g').
  { intros b. apply handed_some; [|done]. by apply wait_well_formed. }
  destruct r as [[f|]|].
  - eapply (wp_returns omove) with (P := fun _ => True).
    { destruct (rq_PreserveStickyBinding req); [by apply returns_Return|by oquiet_call]. }
    intros _ _. apply handed_some; [|done]. by apply acquired_well_formed.
  - destruct (negb _); [by apply handed_none|]. destruct (_ && _); [by apply handed_none|].
    apply (handed_trans c _ g g'); [done|apply (Hwait false)].
  - destruct (negb _); [by apply handed_none|]. destruct (_ && _); [by apply handed_none|].
    apply (handed_trans c _ g g'); [done|apply (Hwait false)].
Qed.

Lemma wp_session_hash c req g :
  owp (by_session c req) g (fun r g' => handed c (may_get c req) g (Ok r.1 : result OSelectionError _) g').
Proof. apply wp_session_hash_with. by oquiet_call. Qed.

(** *** The previous response *)

Abbreviation previous_layer := (previous_response_layer opts tzdb svc grok_billing known_free upstream_model GroupIDs).

Lemma wp_select_previous c g' resp m excluded cap rc g :
  owp (selectAccountByPreviousResponseIDForCapability opts tzdb svc grok_billing known_free GroupIDs c g' resp m excluded cap rc)
    g (fun r g' => handed c (fun a => ID a ∉ excluded) g (Ok r : result OSelectionError _) g').
Proof.
  unfold selectAccountByPreviousResponseIDForCapability.
  eapply wp_returns; [by apply (returns_resolve_previous omove)|]. intros [[[i a] h]|] Hi; [|by apply handed_none].
  destruct (Hi i a h eq_refl) as [<- Hex].
  apply wp_bind, wp_acquire_slot. intros r g2 Hr Hadd _.
  assert (Hwait : adds [] g g2 -> handed c (fun a => ID a ∉ excluded) g
    (Ok (Some (mkSelection a false None (Some (mkWaitPlan (ID a) (Concurrency a) (StickySessionWaitTimeout (wait_config svc))
       (StickySessionMaxWaiting (wait_config svc)))) (oc_Gate c))) : result OSelectionError _) g2).
  { intros Ha. apply handed_some; [|done]. by apply wait_well_formed. }
  destruct r as [[f|]|].
  - eapply (wp_returns omove) with (P := fun _ => True); [by oquiet_call|]. intros _ _.
    apply handed_some; [|done]. by apply acquired_well_formed.
  - destruct (os_concurrencyService svc); [by apply Hwait|by apply handed_none].
  - destruct (os_concurrencyService svc); [by apply Hwait|by apply handed_none].
Qed.

Lemma wp_release_option f g h (Q : unit -> oghost -> Prop) :
  oheld g = slots f ++ h -> (forall g', oheld g' = h -> decisions g' = decisions g -> Q tt g') ->
  owp (match f with Some f => release_slot f | None => Return tt end) g Q.
Proof.
  intros Hg HQ. destruct f as [f|]; [|by apply HQ]. by apply (wp_release f g h); [|auto].
Qed.

Lemma wp_previous_layer c req g :
  owp (previous_layer c req) g (fun r g' => handed c (may_get c req) g (Ok r : result OSelectionError _) g').
Proof.
  unfold previous_response_layer. cbv zeta. destruct (_ && _); [|by apply handed_none].
  apply wp_bind. eapply wp_mono; [apply wp_select_previous|].
  intros [sel|] g2 [Hw [Hh Hd]]; [|by split].
  specialize (Hw sel eq_refl). eapply wp_returns; [by apply (returns_compatible omove)|]. intros ok Hok.
  destruct (negb (response_group_ok svc GroupIDs (sel_Account sel) (rq_GroupID req)) || negb ok || _) eqn:Hbad.
  - apply wp_bind. apply (wp_release_option _ g2 (oheld g)); [done|]. intros g3 H1 H2.
    apply handed_none. split; [done|congruence].
  - apply orb_false_iff in Hbad as [[_ Hok'%negb_false_iff]%orb_false_iff Ht%negb_false_iff].
    eapply (wp_returns omove) with (P := fun _ => True).
    { apply silent_when, (silent_bind_sticky omove). }
    intros _ _. apply handed_some; [|done]. destruct Hw as (Hex & Hrest). split; [|exact Hrest].
    split; [|exact Hex]. split; auto.
Qed.
End Layers.
