(* ===== verification/OpenAISelectTheorems.v ===== *)
(** * The OpenAI account scheduler: the theorems

    What a caller of [Select] may rely on, over every run. *)

From S2P Require Import Prelude GoSort GoStrings Float64 GoTime GoAny Account AccountProtocol ModelMapping AccountScheduling ModelAvailability GroupRouting GoProgram ConcurrencyCache GatewayCalls SelectionGates AccountSelectionProperties OpenAIQuota OpenAIRanking OpenAIRankingProperties OpenAICapabilities OpenAICalls OpenAIEligibility OpenAIScheduler OpenAISelect OpenAISchedulerProperties OpenAISelectProperties SelectionTheorems.
Local Open Scope Z_scope.

#[local] Hint Resolve handed_none handed_err : core.

(** The result accounts for the slots taken, and is an account or an error. *)
Definition settles (c : OCtx) (P : Account -> Prop) (g : oghost) (r : result OSelectionError (option AccountSelectionResult))
    (g' : oghost) : Prop := handed c P g r g' /\ r <> Ok None.

Lemma settles_err c P g e g' : adds [] g g' -> settles c P g (Err e) g'.
Proof. intros H. split; [by apply handed_err|done]. Qed.

Lemma settles_trans c P g1 g2 r g3 : adds [] g1 g2 -> settles c P g2 r g3 -> settles c P g1 r g3.
Proof. intros Ha [Hh Hn]. split; [by eapply handed_trans|done]. Qed.

Section Balance.
Context {seen : Observed} (opts : ModelMappingOptions) (tzdb : string -> option Location) (svc : OServices) `{!ReadsAccounts svc}.
Context (grok_billing : Account -> option BillingSummary) (known_free : Account -> bool).
Context (grok_quota : Account -> option QuotaSnapshot).
Context (upstream_model : Account -> string -> bool -> string) (GroupIDs : Account -> list Z).
Context (log exp : f64 -> f64) (fresh_rate : time -> Account -> option f64).

Abbreviation get c req := (may_get opts svc grok_billing known_free c req).
Abbreviation finish :=
  (finishLoadBalanceSelectionFallback opts tzdb svc grok_billing known_free grok_quota upstream_model GroupIDs).
Abbreviation try_pool :=
  (trySelectByLoadBalancePool opts tzdb svc grok_billing known_free grok_quota upstream_model GroupIDs log exp fresh_rate).
Abbreviation order := (tryAcquireOpenAISelectionOrderWithBudget opts tzdb svc grok_billing known_free grok_quota
  upstream_model GroupIDs).

(** None of the accounts of an order is excluded. *)
Definition all_allowed (req : OpenAIAccountScheduleRequest) (l : list openAIAccountCandidateScore) : Prop :=
  Forall (fun x => ID (account x) ∉ rq_ExcludedIDs req) l.

Lemma wp_finish c req t budget stats g : all_allowed req (at_selectionOrder t) ->
  owp (finish c req t budget stats) g (fun r g' => settles c (get c req) g (bl_result r.1) g').
Proof.
  intros Ht. unfold finishLoadBalanceSelectionFallback. cbv zeta.
  destruct (at_selectionOrder t) as [|x l] eqn:El; [by apply settles_err|]. rewrite <- El in *. clear El x l.
  apply wp_bind. eapply wp_mono; [by apply wp_weighted|]. intros r g2 Hr.
  destruct r as [[sel|]|e]; [by split| |by split].
  eapply wp_returns; [apply (returns_wait_for_first omove) with (N := fun i => i ∉ rq_ExcludedIDs req)|].
  - unfold all_allowed in Ht. rewrite <- (passes_perm budget) in Ht. exact Ht.
  - intros [[[sel|] blocked] b] [Hs Hw]; cbn in *.
    + destruct Hr as [_ [Hh Hd]]. split; [|done]. apply handed_some; [by apply Hw|]. split; [cbn; by rewrite Hs|done].
    + destruct Hr as [_ Hadd]. apply settles_err. exact Hadd.
Qed.

(** What an attempt at a pool leaves. *)
Definition pool_post (c : OCtx) (req : OpenAIAccountScheduleRequest) (g : oghost)
    (r : openAIAccountLoadSelectionAttempt * openAISelectionProbeBudget) (g' : oghost) : Prop :=
  handed c (get c req) g (at_result r.1) g' /\ all_allowed req (at_selectionOrder r.1).

Lemma wp_order_handed c req l blocked b g : all_allowed req l ->
  owp (order c req l blocked b) g (fun t g' => handed c (get c req) g t.1.1 g').
Proof.
  intros Hl. eapply wp_mono; [by apply (wp_order _ _ _ _ _ _ _ _ c req (fun i => i ∉ rq_ExcludedIDs req))|].
  intros t g' (Hw & Ha & _). by split.
Qed.

Lemma wp_retry c req filtered p blocked b g :
  Forall (fun a => ID a ∉ rq_ExcludedIDs req) filtered -> all_allowed req (selectionOrder p) ->
  owp (retry_with_fresh_load opts tzdb svc grok_billing known_free grok_quota upstream_model GroupIDs log exp fresh_rate
         c req filtered p blocked b) g (pool_post c req g).
Proof.
  intros Hf Hp. unfold retry_with_fresh_load. cbv zeta.
  assert (Hsame : forall b, pool_post c req g (attempt_of p (Ok None) blocked false, b) g).
  { intros b'. split; [by apply handed_none|done]. }
  destruct (negb _); [apply Hsame|].
  eapply (wp_returns omove) with (P := fun _ => True); [by oquiet_call|]. intros [loadMap|] _; [|apply Hsame].
  eapply wp_returns; [by apply (returns_load_plan omove _ _ _ _ _ _ _ (fun i => i ∉ rq_ExcludedIDs req))|].
  intros fp Hfp. destruct (selectionOrder fp) as [|x l] eqn:E; [apply Hsame|]. rewrite <- E in *. clear E x l.
  apply wp_bind. eapply wp_mono; [by apply wp_order_handed|]. intros [[[[sel|]|e] bl] b'] g2 Hr; by split.
Qed.

Lemma wp_pool c req filtered loadMap b g : Forall (fun a => ID a ∉ rq_ExcludedIDs req) filtered ->
  owp (try_pool c req filtered loadMap b) g (pool_post c req g).
Proof.
  intros Hf. unfold trySelectByLoadBalancePool. cbv zeta.
  eapply wp_returns; [by apply (returns_load_plan omove _ _ _ _ _ _ _ (fun i => i ∉ rq_ExcludedIDs req))|].
  intros p Hp. destruct (_ && _); [by split; [apply handed_err|]|].
  destruct (selectionOrder p) as [|x l] eqn:E.
  { destruct (_ && _); (split; [by auto|]); unfold all_allowed; cbn; by rewrite E. }
  rewrite <- E in *. clear E x l.
  apply wp_bind. eapply wp_mono; [by apply wp_order_handed|].
  intros [[[[sel|]|e] bl] b'] g2 Hr; [by split| |by split].
  eapply wp_mono; [by apply wp_retry|]. intros r g3 [Hh Ha]. split; [|done].
  eapply handed_trans; [|exact Hh]. by destruct Hr.
Qed.

(** The outcome of the selection by load. *)
Abbreviation bpost c req g := (fun b g' => settles c (get c req) g (bl_result b) g').

Lemma wp_finish_from c req t budget stats g g2 : all_allowed req (at_selectionOrder t) -> adds [] g g2 ->
  owp (fst <$> finish c req t budget stats) g2 (bpost c req g).
Proof.
  intros Ht Ha. apply wp_fmap. eapply wp_mono; [by apply wp_finish|]. intros r g3. by apply settles_trans.
Qed.

Lemma wp_regular c req sub regular loadMap b stats g g2 :
  all_allowed req (at_selectionOrder sub) -> Forall (fun a => ID a ∉ rq_ExcludedIDs req) regular -> adds [] g g2 ->
  owp (balance_regular opts tzdb svc grok_billing known_free grok_quota upstream_model GroupIDs log exp fresh_rate
         c req sub regular loadMap b stats) g2 (bpost c req g).
Proof.
  intros Hsub Hreg Ha. unfold balance_regular. apply wp_bind. eapply wp_mono; [by apply wp_pool|].
  intros [t b'] g3 [Ht Hal]. cbv beta iota zeta. cbn [fst] in *.
  assert (Hback : forall o b g3 e, bl_result o = Err e -> adds [] g g3 ->
      owp (r ← finish c req sub b stats;
        Return match bl_result (fst r) with Ok (Some _) => fst r | _ => o end) g3 (bpost c req g)).
  { intros o b4 g4 e Ho Ha4. apply wp_bind. eapply wp_mono; [by apply wp_finish|]. intros [o' b5] g5 Hr. cbn in *.
    destruct (bl_result o') as [[sel|]|e'] eqn:E; [rewrite E; by eapply settles_trans| |].
    all: rewrite Ho; apply settles_err; eapply adds_nil_trans; [exact Ha4|]; by destruct Hr as [[_ Hr] _]. }
  assert (Ha3 : ok_slots (at_result t) = [] -> adds [] g g3).
  { intros E. destruct Ht as [_ Ht]. rewrite E in Ht. by eapply adds_nil_trans. }
  destruct (at_result t) as [[sel|]|e] eqn:E.
  - cbn. rewrite E. split; [by eapply handed_trans|done].
  - apply wp_bind. eapply wp_mono; [by apply wp_finish|]. intros [o b4] g4 Hr. cbn in *.
    destruct (bl_result o) as [[sel|]|e] eqn:Eo; [cbn; rewrite Eo; eapply settles_trans; [by apply Ha3|done]|by destruct Hr|].
    eapply Hback; [exact Eo|]. eapply adds_nil_trans; [by apply Ha3|]. by destruct Hr as [[_ Hr] _].
  - destruct (at_noCompactCandidates t); [|cbn; rewrite E; apply settles_err; auto].
    eapply Hback; [exact E|auto].
Qed.

Lemma wp_subscriptions_first c req subs regular loadMap stats g :
  Forall (fun a => ID a ∉ rq_ExcludedIDs req) subs -> Forall (fun a => ID a ∉ rq_ExcludedIDs req) regular ->
  owp (balance_subscriptions_first opts tzdb svc grok_billing known_free grok_quota upstream_model GroupIDs log exp fresh_rate
         c req subs regular loadMap stats) g (bpost c req g).
Proof.
  intros Hs Hr. unfold balance_subscriptions_first. apply wp_bind. eapply wp_mono; [by apply wp_pool|].
  intros [t b] g2 [Ht Hal]. cbv beta iota zeta. cbn [fst] in *.
  assert (Hnext : adds [] g g2 -> owp (match regular with
      | [] => fst <$> finish c req t b stats
      | _ => balance_regular opts tzdb svc grok_billing known_free grok_quota upstream_model GroupIDs log exp fresh_rate
               c req t regular loadMap b stats
      end) g2 (bpost c req g)).
  { intros Ha. destruct regular; [by apply wp_finish_from|by apply wp_regular]. }
  destruct (at_result t) as [[sel|]|e] eqn:E.
  - cbn. rewrite E. by split.
  - apply Hnext. by destruct Ht.
  - destruct (_ || _); [cbn; rewrite E; by split|]. apply Hnext. by destruct Ht.
Qed.

Lemma wp_balance c req g :
  owp (selectByLoadBalance opts tzdb svc grok_billing known_free grok_quota upstream_model GroupIDs log exp fresh_rate c req)
    g (bpost c req g).
Proof.
  unfold selectByLoadBalance. eapply wp_returns; [by apply (returns_admitted omove)|].
  intros [[filtered stats]|b] Hf; [|destruct Hf as [e He]; cbn; rewrite He; by apply settles_err].
  eapply (wp_returns omove) with (P := fun _ => True).
  { destruct (os_concurrencyService svc); [|by apply returns_Return].
    eapply returns_bind; [oquiet_call; exact (fun _ _ => I)|]. intros. by apply returns_Return. }
  intros loadMap _. unfold partition_subscriptions.
  assert (Hsub : forall f, Forall (fun a => ID a ∉ rq_ExcludedIDs req) (List.filter f filtered)).
  { intros f. apply Forall_forall. intros a Ha%filter_in. rewrite Forall_forall in Hf. by apply Hf. }
  destruct (_ && _); [by apply wp_subscriptions_first|].
  unfold balance_pool. apply wp_bind. eapply wp_mono; [by apply wp_pool|]. intros [t b] g2 [Ht Hal].
  cbv beta iota. cbn [fst] in *. destruct (at_result t) as [[sel|]|e] eqn:E.
  - cbn. rewrite E. by split.
  - apply wp_finish_from; [done|]. by destruct Ht.
  - cbn. rewrite E. by split.
Qed.

(** ** [Select] *)

Abbreviation select_layers' :=
  (select_layers opts tzdb svc grok_billing known_free grok_quota upstream_model GroupIDs log exp fresh_rate).
Abbreviation select :=
  (Select opts tzdb svc grok_billing known_free grok_quota upstream_model GroupIDs log exp fresh_rate).

(** The decision names the account of the result, and has no latency. *)
Definition names (r : result OSelectionError (option AccountSelectionResult)) (d : OpenAIAccountScheduleDecision) : Prop :=
  LatencyMs d = 0 /\
  match r with
  | Ok (Some sel) => SelectedAccountID d = ID (sel_Account sel) /\ SelectedAccountType d = AType (sel_Account sel)
  | _ => SelectedAccountID d = 0 /\ SelectedAccountType d = ""
  end.

Definition decided (c : OCtx) (req : OpenAIAccountScheduleRequest) (g : oghost) (r : Decided) (g' : oghost) : Prop :=
  settles c (get c req) g r.1 g' /\ names r.1 r.2.

Lemma wp_load_balance_layer c req g g2 : adds [] g g2 ->
  owp (load_balance_layer opts tzdb svc grok_billing known_free grok_quota upstream_model GroupIDs log exp fresh_rate c req)
    g2 (decided c req g).
Proof.
  intros Ha. unfold load_balance_layer. apply wp_bind. eapply wp_mono; [by apply wp_balance|]. intros b g3 Hb. cbn.
  split; [by eapply settles_trans|]. unfold balance_decision, names. by destruct (bl_result b) as [[sel|]|e].
Qed.

(** A sticky layer and what follows. *)
Lemma wp_sticky_layer {A} c req (p : oprog A) (sel_of : A -> option AccountSelectionResult) layer prev sess next g g2 :
  adds [] g g2 ->
  (forall g, owp p g (fun r g' => handed c (get c req) g (Ok (sel_of r) : result OSelectionError _) g')) ->
  (forall r g3, adds [] g g3 -> owp (next r) g3 (decided c req g)) ->
  owp (r ← p; match sel_of r with
              | Some sel => Return (Ok (Some sel), sticky_decision layer prev sess (sel_Account sel))
              | None => next r
              end) g2 (decided c req g).
Proof.
  intros Ha Hp Hnext. apply wp_bind. eapply wp_mono; [apply Hp|]. intros r g3 Hr. cbv beta in Hr.
  destruct (sel_of r) as [sel|].
  - split; [|by unfold names; cbn]. eapply settles_trans; [exact Ha|]. by split.
  - apply Hnext. destruct Hr as [_ Hr]. by eapply adds_nil_trans.
Qed.

Lemma wp_session_layer c req g g2 : adds [] g g2 ->
  owp (session_layer opts tzdb svc grok_billing known_free grok_quota upstream_model GroupIDs log exp fresh_rate c req)
    g2 (decided c req g).
Proof.
  intros Ha. unfold session_layer. destruct (rq_StickyWeighted req); [by apply wp_load_balance_layer|].
  apply (wp_sticky_layer c req _ fst); [done|intros g3; by apply wp_session_hash|].
  intros [sel []] g3 Ha3; cbn [snd]; [|by apply wp_load_balance_layer].
  exact (wp_load_balance_layer c (preserving req) g g3 Ha3).
Qed.

Lemma wp_guardian_layer c req g g2 : adds [] g g2 ->
  owp (guardian_layer opts tzdb svc grok_billing known_free grok_quota upstream_model GroupIDs log exp fresh_rate c req)
    g2 (decided c req g).
Proof.
  intros Ha. unfold guardian_layer.
  apply (wp_sticky_layer c req _ id); [done| |intros r g3 Ha3; by apply wp_session_layer].
  intros g3. destruct (_ <? _); [|by apply handed_none]. apply wp_fmap.
  exact (wp_session_hash opts tzdb svc grok_billing known_free grok_quota upstream_model GroupIDs c (for_parent req) g3).
Qed.

Lemma wp_openai_layers c req g : owp (select_layers' c req) g (decided c req g).
Proof.
  unfold select_layers.
  apply (wp_sticky_layer c req _ id); [done|intros g3; by apply wp_previous_layer|].
  intros r g3 Ha. by apply wp_guardian_layer.
Qed.

(** What a run of [Select] leads to, its decision recorded with the latency
    the caller does not see. *)
Definition select_post (c : OCtx) (req : OpenAIAccountScheduleRequest) (g : oghost) (r : Decided) (g' : oghost) : Prop :=
  all_well_formed c (get c req) r.1 /\ r.1 <> Ok None /\ oheld g' = ok_slots r.1 ++ oheld g /\
  names r.1 r.2 /\ exists ms, decisions g' = with_latency ms r.2 :: decisions g.

Lemma wp_select c req g : owp (select c req) g (select_post c req g).
Proof.
  unfold Select. eapply wp_returns; [apply (silent_group_privacy omove)|]. intros required _. cbv zeta.
  eapply (wp_returns omove) with (P := fun _ => True); [by oquiet_call|]. intros start _.
  apply wp_bind. eapply wp_mono; [by apply wp_openai_layers|]. intros r g2 [[[Hw [Hh Hd]] Hn] Hnames].
  eapply (wp_returns omove) with (P := fun _ => True); [by oquiet_call|]. intros finished _.
  intros [] _. cbn. split_and!; try done; [|eexists; rewrite Hd; reflexivity].
  - intros sel Hsel. destruct (Hw sel Hsel) as ((Hs & Hex) & Hrest). split; [|exact Hrest].
    destruct required; [|by split].
    split; [|done]. destruct Hs as [Ht Hf]. split; [done|]. destruct Hf as [Hp Hf]. split; [by intros _; apply Hp|exact Hf].
Qed.
End Balance.

#[local] Existing Instance anything.

(** ** A concrete environment

    The accounts 11, 12 and 13 of the gateway's sample, without any binding;
    those of [busy] have no free slot. *)
Module OSample.
Definition ctx : OCtx := mkOCtx Background no_pause_settings None None false None None.

Definition svc : OServices :=
  mkOServices true true true false true true false
    (Some (mkSchedulingConfig 3 (45 * second) (30 * second) 100 "" false true)) None None default_weights None.

Definition request : OpenAIAccountScheduleRequest :=
  mkScheduleRequest (Some 7) PlatformOpenAI "session" 0 0 0 false false false false "" false false "" "" "" "" false {[13]}.

Definition answer (busy : gset Z) (c : ocall) (w : unit) : oreply c * unit :=
  (match c return oreply c with
   | Gateway c => fst (Sample.answer PlatformOpenAI false busy ∅ c tt)
   | GetGroupPrivacy _ => Some (Some false)
   | RuntimeBlocked _ _ | ProxyStreamQuarantined _ | GrokTeamModelRateLimited _ _ | GrokModelQuotaBlocked _ _ => false
   | NotifyAutoReset _ => tt
   | GetAccountsLoadBatch' _ _ => None
   | GetStickySession _ _ => None
   | SetStickySession _ _ _ | DeleteStickySession _ _ | RefreshStickySession _ _ => tt
   | GetResponseAccount _ _ => None
   | DeleteResponseAccount _ _ | BindResponseAccount _ _ _ => tt
   | ReadStats => ∅
   | RuntimeSettings => mkRuntimeSettings false f1 false false false 0 ∅
   | GetQuotaAutoPauseSettings => no_pause_settings
   | ActiveBlockCount _ => 0
   | RecordSelect _ => tt
   end, tt).

Definition billing : Account -> option BillingSummary := fun _ => None.
Definition quota : Account -> option QuotaSnapshot := fun _ => None.
Definition free : Account -> bool := fun _ => false.
Definition upstream : Account -> string -> bool -> string := fun _ m _ => m.
Definition groups : Account -> list Z := fun _ => [].
Definition ident : f64 -> f64 := fun x => x.
Definition rate : time -> Account -> option f64 := fun _ _ => None.

Definition selection : oprog Decided :=
  Select Sample.opts Sample.zones svc billing free quota upstream groups ident ident rate ctx request.

Definition order (b : openAISelectionProbeBudget) : oprog Attempted :=
  tryAcquireOpenAISelectionOrderWithBudget Sample.opts Sample.zones svc billing free quota upstream groups ctx request
    (map (candidate_of ∅ ∅) (Sample.accounts PlatformOpenAI)) false b.

Definition outcome {A} (busy : gset Z) (p : oprog A) : option A := fst <$> exec (answer busy) tt p.
Definition trace {A} (busy : gset Z) (p : oprog A) : list oevent := default [] (snd <$> exec (answer busy) tt p).

(** The account and the slot of an answer. *)
Definition chosen (r : option Decided) : option (Z * list Z) :=
  match r with
  | Some (Ok (Some sel), _) => Some (ID (sel_Account sel), slots (sel_ReleaseFunc sel))
  | _ => None
  end.
End OSample.

#[export] Instance OSample_reads : ReadsAccounts OSample.svc.
Proof. reflexivity. Qed.

Lemma oanswer_ok busy c w : ook c (OSample.answer busy c w).1.
Proof. split; [|done]. destruct c; try done. apply (answer_any PlatformOpenAI false busy ∅ _ tt). Qed.

Lemma exec_osample {A} busy (p : oprog A) r : OSample.outcome busy p = Some r ->
  runs p (OSample.trace busy p) r /\ replies ook (OSample.trace busy p).
Proof.
  unfold OSample.outcome, OSample.trace. intros Ho.
  destruct (exec (OSample.answer busy) tt p) as [[a tr]|] eqn:H; simplify_eq/=.
  split; [by eapply exec_runs|eapply exec_ok; [apply oanswer_ok|exact H]].
Qed.

(** ** Theorems *)

Definition started : oghost := mkOGhost [] 0 [].

(** C8: for a service that reads accounts from a snapshot or a repository,
    whatever the caches, the database, the clock and the statistics answer,
    [Select] of the OpenAI scheduler never panics and ends with an account or
    an error; an account comes with exactly the slot it hands over or with a
    wait plan and no slot, was not excluded, and passed the checks of the
    request on its transport, model, capabilities, privacy and profit, the
    check of its quota windows at two readings of the clock made during the
    selection, and, for a shadow, the check of the parent that was read under
    the shadow's parent identifier during the selection, at a reading of the
    clock made during it; and an error leaves no slot taken. *)
Theorem openai_select_settles opts tzdb svc billing free quota upstream groups log exp rate c req tr r
    (Hsvc : ReadsAccounts svc) (Hreplies : replies ook tr)
    (Hrun : runs (Select opts tzdb svc billing free quota upstream groups log exp rate c req) tr r) :
  ~ panics ook (Select opts tzdb svc billing free quota upstream groups log exp rate c req) /\
  oheld (after omove tr started) = ok_slots r.1 /\ r.1 <> Ok None /\
  (forall sel, r.1 = Ok (Some sel) ->
     well_formed c (fun a => ID a ∉ rq_ExcludedIDs req /\ serves (seen := reads tr) opts svc billing free c req a) sel).
Proof.
  pose proof (fun seen => wp_select (seen := seen) opts tzdb svc billing free quota upstream groups log exp rate
                            c req started) as H.
  split; [exact (wp_no_panic _ _ _ _ _ (H anything))|].
  destruct (wp_runs _ _ _ _ _ _ _ (H (reads tr)) (replies_reads tr Hreplies) Hrun) as (Hw & Hn & Hh & _).
  split; [by rewrite Hh, app_nil_r|]. split; [done|]. intros sel Hsel.
  destruct (Hw sel Hsel) as ((Hs & Hex) & Hrest). by split.
Qed.

(** Account 11 or 12 is chosen while 12 is free, 11 when it is busy. *)
Lemma openai_select_settles_witness :
  OSample.chosen (OSample.outcome {[12]} OSample.selection) = Some (11, [11]) /\
  exists r : Decided, oheld (after omove (OSample.trace {[12]} OSample.selection) started) = ok_slots r.1 /\ r.1 <> Ok None.
Proof.
  split; [by vm_compute|].
  destruct (OSample.outcome {[12]} OSample.selection) as [r|] eqn:E; [|exfalso; vm_compute in E; discriminate].
  destruct (exec_osample _ _ _ E) as [Hr Hok]. exists r.
  destruct (openai_select_settles Sample.opts Sample.zones OSample.svc OSample.billing OSample.free OSample.quota
    OSample.upstream OSample.groups OSample.ident OSample.ident OSample.rate OSample.ctx OSample.request _ r eq_refl Hok Hr)
    as (_ & Hh & Hn & _). by split.
Defined.

(** C37: a call of [Select], of a service that reads accounts from a snapshot
    or a repository, records one decision in the metrics; it names the
    account returned, or none after an error, and differs from the decision
    the caller gets only in the latency, which the caller always reads as 0. *)
Theorem openai_decision_recorded opts tzdb svc billing free quota upstream groups log exp rate c req tr r
    (Hsvc : ReadsAccounts svc) (Hreplies : replies ook tr)
    (Hrun : runs (Select opts tzdb svc billing free quota upstream groups log exp rate c req) tr r) :
  (exists ms, decisions (after omove tr started) = [with_latency ms r.2]) /\ LatencyMs r.2 = 0 /\
  (forall sel, r.1 = Ok (Some sel) -> SelectedAccountID r.2 = ID (sel_Account sel)) /\
  (forall e, r.1 = Err e -> SelectedAccountID r.2 = 0).
Proof.
  destruct (wp_runs _ _ _ _ _ _ _
    (wp_select opts tzdb svc billing free quota upstream groups log exp rate c req started) Hreplies Hrun)
    as (_ & _ & _ & [Hms Hn] & ms & Hd).
  split; [by exists ms|]. split; [done|]. split; [intros sel Hs|intros e He].
  - rewrite Hs in Hn. by destruct Hn.
  - rewrite He in Hn. by destruct Hn.
Qed.

Lemma openai_decision_recorded_witness :
  exists r : Decided, OSample.chosen (Some r) = Some (11, [11]) /\ LatencyMs r.2 = 0.
Proof.
  assert (Hc : OSample.chosen (OSample.outcome {[12]} OSample.selection) = Some (11, [11])) by (by vm_compute).
  destruct (OSample.outcome {[12]} OSample.selection) as [r|] eqn:E; [|discriminate].
  destruct (exec_osample _ _ _ E) as [Hr Hok]. exists r. split; [exact Hc|].
  apply (openai_decision_recorded Sample.opts Sample.zones OSample.svc OSample.billing OSample.free OSample.quota
    OSample.upstream OSample.groups OSample.ident OSample.ident OSample.rate OSample.ctx OSample.request _ r eq_refl Hok Hr).
Defined.

(** C15: under a limited budget an order of candidates, however long, asks for
    at most 64 slots of accounts with a limit on their concurrency, as the
    budget counts them, and leaves only the slot it returns. *)
Theorem openai_probes_bounded opts tzdb svc billing free quota upstream groups c req l blocked tr t
    (Hreplies : replies ook tr)
    (Hrun : runs (tryAcquireOpenAISelectionOrderWithBudget opts tzdb svc billing free quota upstream groups c req l blocked
                    (enableLimit newOpenAISelectionProbeBudget)) tr t) :
  probes (after omove tr started) = acquires t.2 /\ acquires t.2 <= openAIAccountSelectionProbeLimit /\
  oheld (after omove tr started) = ok_slots t.1.1.
Proof.
  destruct (wp_runs _ _ _ _ _ _ _
    (wp_order opts tzdb svc billing free quota upstream groups c req (fun _ => True) l
       ltac:(by apply Forall_true) blocked (enableLimit newOpenAISelectionProbeBudget) started) Hreplies Hrun)
    as (_ & [Hh _] & [_ Hs]).
  destruct (Hs eq_refl) as [Hp Hb]. cbn [started probes acquires newOpenAISelectionProbeBudget enableLimit] in *.
  split; [lia|]. split; [unfold openAIAccountSelectionProbeLimit in *; lia|]. rewrite Hh. apply app_nil_r.
Qed.

(** All three accounts are busy: three probes and no slot. *)
Lemma openai_probes_bounded_witness :
  let p := OSample.order (enableLimit newOpenAISelectionProbeBudget) in
  exists t : Attempted, OSample.outcome {[11; 12; 13]} p = Some t /\ acquires t.2 = 3 /\
  probes (after omove (OSample.trace {[11; 12; 13]} p) started) = acquires t.2.
Proof.
  intros p. destruct (OSample.outcome {[11; 12; 13]} p) as [t|] eqn:E; [|exfalso; vm_compute in E; discriminate].
  exists t. split; [done|]. split; [apply (f_equal (fun o => (fun t => acquires t.2) <$> o)) in E; vm_compute in E; by simplify_eq|].
  destruct (exec_osample _ _ _ E) as [Hr Hok].
  apply (openai_probes_bounded Sample.opts Sample.zones OSample.svc OSample.billing OSample.free OSample.quota
    OSample.upstream OSample.groups OSample.ctx OSample.request
    (map (candidate_of ∅ ∅) (Sample.accounts PlatformOpenAI)) false _ t Hok Hr).
Defined.
