(* ===== verification/OpenAILegacy.v ===== *)
(** * The OpenAI selection without the scheduler

    [selectAccountWithLoadAwareness] of [openai_gateway_scheduling.go], which
    serves requests while the advanced scheduler is off: the session's
    account, then the accounts by priority and load, or by the rate of their
    upstream, then the first account worth waiting for.  The entry that chooses
    between it and the scheduler is in OpenAIEntry.v. *)

From S2P Require Import Prelude GoSort GoStrings Float64 GoTime GoAny Account AccountProtocol ModelMapping AccountScheduling ModelAvailability GroupRouting GoProgram ConcurrencyCache GatewayCalls AccountOrder SelectionGates OpenAIQuota OpenAIRanking OpenAICapabilities OpenAICalls OpenAIEligibility OpenAIScheduler OpenAISelect.
Local Open Scope Z_scope.

(** What a call asks for; the platform is normalised. *)
Record legacy_request := mkLegacy {
  lq_GroupID : option Z;
  lq_Platform : string;
  lq_SessionHash : string;
  lq_Model : string;
  lq_ExcludedIDs : gset Z;
  lq_RequireCompact : bool;
  lq_Capability : string;
  lq_UseUpstreamTokenCost : bool;
}.

Definition OSelected : Type := result OSelectionError AccountSelectionResult.

(** [prioritizeOpenAICompactAccounts]. *)
Definition prioritizeOpenAICompactAccounts (l : list Account) : list Account :=
  List.filter (fun a => openAICompactSupportTier a =? 2) l
  ++ List.filter (fun a => openAICompactSupportTier a =? 1) l
  ++ List.filter (fun a => negb ((openAICompactSupportTier a =? 2) || (openAICompactSupportTier a =? 1))) l.

Definition isBetterAccount (candidate current : Account) : bool :=
  if Priority candidate <? Priority current then true
  else if Priority current <? Priority candidate then false
  else match LastUsedAt candidate, LastUsedAt current with
       | None, Some _ => true
       | Some _, None | None, None => false
       | Some x, Some y => Before x y
       end.

(** The order by the upstream rates, when it is used. *)
Definition by_rate (o : openAILegacyUpstreamRateOrder) (l : list Account) : list Account :=
  if ro_enabled o then SliceStable (fun a b => rate_compare o a b <? 0) l else l.

Definition no_rates : openAILegacyUpstreamRateOrder := mkRateOrder false ∅.

Section Legacy.
Context (opts : ModelMappingOptions) (tzdb : string -> option Location) (svc : OServices).
Context (grok_billing : Account -> option BillingSummary) (known_free : Account -> bool).
Context (grok_quota : Account -> option QuotaSnapshot).
Context (upstream_model : Account -> string -> bool -> string) (GroupIDs : Account -> list Z).
Context (log exp : f64 -> f64) (fresh_rate : time -> Account -> option f64).

Abbreviation resolve_fresh := (resolveFreshSchedulableOpenAIAccount opts tzdb svc grok_billing known_free grok_quota).
Abbreviation resolve_fresh_before_profit :=
  (resolveFreshSchedulableOpenAIAccountBeforeProfit opts tzdb svc grok_billing known_free grok_quota).
Abbreviation recheck := (recheckSelectedOpenAIAccountFromDB opts tzdb svc grok_billing known_free grok_quota GroupIDs).
Abbreviation recheck_before_profit :=
  (recheckSelectedOpenAIAccountFromDBBeforeProfit opts tzdb svc grok_billing known_free grok_quota GroupIDs).
Abbreviation schedulable_account := (getSchedulableAccount svc).

(** ** Results *)

Definition hydrate (a : Account) : oprog (result OSelectionError Account) :=
  if negb (os_schedulerSnapshot svc) then Return (Ok a)
  else
    r ← gdo (SnapshotGetAccount (ID a));
    Return match found r with Some h => Ok h | None => Err HydrationFailed end.

Definition newSelectionResult (c : OCtx) (a : Account) (acquired : bool) (f : option ReleaseFunc)
    (plan : option AccountWaitPlan) : oprog OSelected :=
  h ← hydrate a;
  Return match h with
         | Ok h => Ok (mkSelection h acquired f plan (oc_Gate c))
         | Err e => Err e
         end.

Definition newAcquiredSelectionResult (c : OCtx) (a : Account) (f : ReleaseFunc) : oprog OSelected :=
  r ← newSelectionResult c a true (Some f) None;
  match r with
  | Ok sel => Return (Ok sel)
  | Err e => _ ← release_slot f; Return (Err e)
  end.

Definition wait_sticky (c : OCtx) (a : Account) : oprog OSelected :=
  newSelectionResult c a false None
    (Some (mkWaitPlan (ID a) (Concurrency a) (StickySessionWaitTimeout (wait_config svc))
             (StickySessionMaxWaiting (wait_config svc)))).

Definition wait_fallback (c : OCtx) (a : Account) : oprog OSelected :=
  newSelectionResult c a false None
    (Some (mkWaitPlan (ID a) (Concurrency a) (FallbackWaitTimeout (wait_config svc))
             (FallbackMaxWaiting (wait_config svc)))).

(** ** Bindings and restrictions *)

Definition set_sticky (groupID : option Z) (sessionHash : string) (id : Z) : oprog unit :=
  if negb (os_cache svc) || (id <=? 0) then Return tt
  else odo (SetStickySession (derefGroupID groupID) sessionHash id).

Definition refresh_sticky (groupID : option Z) (sessionHash : string) : oprog unit :=
  if os_cache svc then odo (RefreshStickySession (derefGroupID groupID) sessionHash) else Return tt.

(** Bound at once only without a profit gate. *)
Definition bind_now (c : OCtx) (q : legacy_request) (id : Z) : oprog unit :=
  if (lq_SessionHash q !=? "") && match oc_Gate c with Some _ => false | None => true end
  then set_sticky (lq_GroupID q) (lq_SessionHash q) id else Return tt.

Definition checkChannelPricingRestriction (groupID : option Z) (requestedModel : string) : oprog bool :=
  match groupID with
  | None => Return false
  | Some gid =>
      if negb (os_channelService svc) || (requestedModel ==? "") then Return false
      else
        m ← gdo (ResolveChannelMapping gid requestedModel);
        let '(source, mapped) := (m : string * string) in
        let billingModel := billingModelForRestriction source requestedModel mapped in
        if billingModel ==? "" then Return false else gdo (IsModelRestricted gid billingModel)
  end.

(** [needsUpstreamCheck && isUpstreamModelRestrictedByChannel], the flag
    being true only for a group. *)
Definition restricted (c : OCtx) (q : legacy_request) (needs : bool) (a : Account) : oprog bool :=
  match lq_GroupID q with
  | Some gid => if needs then isUpstreamModelRestrictedByChannel svc upstream_model c gid a (lq_Model q) (lq_RequireCompact q)
                else Return false
  | None => Return false
  end.

(** [openAICompatibleAccountEligibilityFailureReason]. *)
Definition openAICompatibleAccountEligibilityFailureReason (c : OCtx) (q : legacy_request) (a : Account)
    : oprog (option string) :=
  first_veto [
    eligibility_failure opts tzdb grok_billing known_free grok_quota c a (lq_Platform q) (lq_Model q) false
      (lq_Capability q);
    profit_veto c a].

Definition eligible_for (c : OCtx) (q : legacy_request) (a : Account) : oprog bool :=
  r ← openAICompatibleAccountEligibilityFailureReason c q a;
  Return (match r with None => true | Some _ => false end).

(** ** The session *)

(** The checks of [tryStickySessionHit] after the first ones, in order; a
    refusal deletes the binding. *)
Definition sticky_reread (c : OCtx) (q : legacy_request) (needs : oprog bool) (a : Account) : oprog (option Account) :=
  h ← parentHealthyForShadow a (parentAccountLookup svc);
  if negb h then Return None
  else
    blocked ← odo (RuntimeBlocked a (lq_Model q));
    if (blocked : bool) then Return None
    else
      l ← recheck c a (lq_GroupID q) (lq_Platform q) (lq_Model q) (lq_RequireCompact q) (lq_Capability q);
      match l with
      | None => Return None
      | Some a =>
          if negb (openAIAccountMatchesSchedulingGroup svc GroupIDs a (lq_GroupID q)) then Return None
          else
            n ← needs; r ← restricted c q n a;
            Return (if (r : bool) then None else Some a)
      end.

Definition tryStickySessionHit (c : OCtx) (q : legacy_request) (stickyAccountID : Z) : oprog (option Account) :=
  if lq_SessionHash q ==? "" then Return None
  else
    id ← (if 0 <? stickyAccountID then Return stickyAccountID
          else if os_cache svc
               then r ← odo (GetStickySession (derefGroupID (lq_GroupID q)) (lq_SessionHash q)); Return (default 0 r)
               else Return 0);
    if (id <=? 0) || bool_decide (id ∈ lq_ExcludedIDs q) then Return None
    else
      a ← schedulable_account id;
      match a with
      | None => Return None
      | Some a =>
          let forget := delete_sticky svc (lq_GroupID q) (lq_SessionHash q) in
          stale ← lift (shouldClearStickySession opts tzdb (Some a) (lq_Model q));
          if (stale : bool) then _ ← forget; Return None
          else
            ok ← eligible_for c q a;
            if negb ok then Return None
            else
              r ← sticky_reread c q (needsUpstreamChannelRestrictionCheck svc (lq_GroupID q)) a;
              match r with
              | None => _ ← forget; Return None
              | Some a => _ ← refresh_sticky (lq_GroupID q) (lq_SessionHash q); Return (Some a)
              end
      end.

(** ** The best account *)

(** The reason an account of the list is left out, or the account as it was
    read again. *)
Definition best_candidate (c : OCtx) (q : legacy_request) (needs : bool) (a : Account) : oprog (result string Account) :=
  if bool_decide (ID a ∈ lq_ExcludedIDs q) then Return (Err "excluded")
  else
    fresh ← resolve_fresh_before_profit c a (lq_Platform q) (lq_Model q) false (lq_Capability q);
    match fresh with
    | None => Return (Err "ineligible")
    | Some fresh =>
        l ← recheck_before_profit c fresh (lq_GroupID q) (lq_Platform q) (lq_Model q) false (lq_Capability q);
        match l with
        | None => Return (Err "ineligible")
        | Some fresh =>
            r ← restricted c q needs fresh;
            if (r : bool) then Return (Err "channel_restricted")
            else
              v ← profit_veto c fresh;
              Return match v with
                     | Some reason => Err reason
                     | None => if lq_RequireCompact q && (openAICompactSupportTier fresh =? 0)
                               then Err "compact_unsupported" else Ok fresh
                     end
        end
    end.

(** The loop: the accounts kept, whether one lacked compact support only, and
    the reasons. *)
Fixpoint best_candidates (c : OCtx) (q : legacy_request) (needs : bool) (l : list Account) (compactBlocked : bool)
    (stats : openAISelectionFilterStats) : oprog (list Account * bool * openAISelectionFilterStats) :=
  match l with
  | [] => Return ([], compactBlocked, stats)
  | a :: l =>
      r ← best_candidate c q needs a;
      match r with
      | Err reason => best_candidates c q needs l (compactBlocked || (reason ==? "compact_unsupported")) (exclude reason stats)
      | Ok a =>
          r ← best_candidates c q needs l compactBlocked stats;
          let '(rest, blocked, stats) := r in Return (a :: rest, blocked, stats)
      end
  end.

(** The comparison of the candidates; the tiers are kept by identifier. *)
Definition best_less (requireCompact : bool) (eligible : list Account) (o : openAILegacyUpstreamRateOrder) (a b : Account)
    : bool :=
  let tiers : gmap Z Z := foldl (fun m x => <[ID x := openAICompactSupportTier x]> m) ∅ eligible in
  let t x := default 0 (tiers !! ID x) in
  if requireCompact && negb (t a =? t b) then t b <? t a
  else let cmp := rate_compare o a b in
       if negb (cmp =? 0) then cmp <? 0 else isBetterAccount a b.

Definition rate_order (prefer : bool) (l : list Account) : oprog openAILegacyUpstreamRateOrder :=
  if prefer then
    now ← gdo Now;
    settings ← odo RuntimeSettings;
    Return (newOpenAILegacyUpstreamRateOrder (fresh_rate now) (rt_oauthSchedulingRateMultiplier settings) l)
  else Return no_rates.

Definition selectBestAccount (c : OCtx) (q : legacy_request) (prefer : bool) (accounts : list Account)
    : oprog (option Account * bool * openAISelectionFilterStats) :=
  needs ← needsUpstreamChannelRestrictionCheck svc (lq_GroupID q);
  r ← best_candidates c q needs accounts false (mkFilterStats (Z.of_nat (length accounts)) ∅);
  let '(eligible, blocked, stats) := r in
  match eligible with
  | [] => Return (None, blocked, stats)
  | _ =>
      o ← rate_order prefer eligible;
      Return (head (SliceStable (best_less (lq_RequireCompact q) eligible o) eligible), blocked, stats)
  end.

Definition selectAccountForModelWithExclusions (c : OCtx) (q : legacy_request) (stickyAccountID : Z) (prefer : bool)
    : oprog (result OSelectionError Account) :=
  blocked ← checkChannelPricingRestriction (lq_GroupID q) (lq_Model q);
  if (blocked : bool) then Return (Err (ChannelRestricted (lq_Model q)))
  else
    sticky ← tryStickySessionHit c q stickyAccountID;
    match sticky with
    | Some a => Return (Ok a)
    | None =>
        l ← listSchedulableAccounts svc (lq_GroupID q) (lq_Platform q);
        match l with
        | None => Return (Err ListFailed)
        | Some accounts =>
            r ← selectBestAccount c q prefer accounts;
            let '(selected, compactBlocked, stats) := r in
            match selected with
            | None => Return (Err (noAvailableOpenAISelectionError (lq_Model q) compactBlocked (summary "" stats)))
            | Some a =>
                h ← hydrate a;
                match h with
                | Err e => Return (Err e)
                | Ok h => _ ← bind_now c q (ID a); Return (Ok h)
                end
            end
        end
    end.

(** ** [selectAccountWithLoadAwareness] *)

(** What a layer does: it answers, or goes on, and then tells whether the
    session's account is left for this request only. *)
Definition Layered : Type := result bool OSelected.

(** Without load: one account is chosen and asked. *)
Definition select_without_load (c : OCtx) (q : legacy_request) (stickyAccountID : Z) (prefer : bool) : oprog OSelected :=
  r ← selectAccountForModelWithExclusions c q stickyAccountID prefer;
  match r with
  | Err e => Return (Err e)
  | Ok a =>
      s ← acquire_slot svc (ID a) (Concurrency a);
      match s with
      | Some (Some f) => newAcquiredSelectionResult c a f
      | _ =>
          if (0 <? stickyAccountID) && (stickyAccountID =? ID a) && os_concurrencyService svc then
            waiting ← gdo (GetAccountWaitingCount (ID a));
            if (waiting : Z) <? StickySessionMaxWaiting (wait_config svc) then wait_sticky c a else wait_fallback c a
          else wait_fallback c a
      end
  end.

(** The session's account read again, in the order of the first layer. *)
Definition legacy_sticky_reread (c : OCtx) (q : legacy_request) (needs : bool) (a : Account) : oprog (option Account) :=
  l ← recheck c a (lq_GroupID q) (lq_Platform q) (lq_Model q) (lq_RequireCompact q) (lq_Capability q);
  match l with
  | None => Return None
  | Some a =>
      if negb (openAIAccountMatchesSchedulingGroup svc GroupIDs a (lq_GroupID q)) then Return None
      else
        blocked ← odo (RuntimeBlocked a (lq_Model q));
        if (blocked : bool) then Return None
        else
          r ← restricted c q needs a;
          if (r : bool) then Return None
          else
            h ← parentHealthyForShadow a (parentAccountLookup svc);
            Return (if (h : bool) then Some a else None)
  end.

(** The account of the session is asked for a slot, or waited for. *)
Definition legacy_sticky_try (c : OCtx) (q : legacy_request) (id : Z) (a : Account) : oprog Layered :=
  s ← acquire_slot svc id (Concurrency a);
  match s with
  | Some (Some f) =>
      r ← newAcquiredSelectionResult c a f;
      match r with
      | Err e => Return (Ok (Err e))
      | Ok sel => _ ← refresh_sticky (lq_GroupID q) (lq_SessionHash q); Return (Ok (Ok sel))
      end
  | _ =>
      waiting ← gdo (GetAccountWaitingCount id);
      if (waiting : Z) <? StickySessionMaxWaiting (wait_config svc)
      then r ← newSelectionResult c a false None
                 (Some (mkWaitPlan id (Concurrency a) (StickySessionWaitTimeout (wait_config svc))
                          (StickySessionMaxWaiting (wait_config svc))));
           Return (Ok r)
      else Return (Err true)
  end.

Definition legacy_sticky_layer (c : OCtx) (q : legacy_request) (needs : bool) (id : Z) : oprog Layered :=
  if (lq_SessionHash q ==? "") || (id <=? 0) || bool_decide (id ∈ lq_ExcludedIDs q) then Return (Err false)
  else
    a ← schedulable_account id;
    match a with
    | None => Return (Err false)
    | Some a =>
        let forget := delete_sticky svc (lq_GroupID q) (lq_SessionHash q) in
        stale ← lift (shouldClearStickySession opts tzdb (Some a) (lq_Model q));
        if (stale : bool) then _ ← forget; Return (Err false)
        else
          ok ← eligible_for c q a;
          if negb ok then Return (Err false)
          else
            l ← legacy_sticky_reread c q needs a;
            match l with
            | None => _ ← forget; Return (Err false)
            | Some a => legacy_sticky_try c q id a
            end
    end.

(** The parent of a shadow through the cache of the pass, which keeps what a
    read answered, a failure too. *)
Definition cached_parent (id : Z) (cache : gmap Z (option Account)) : oprog (option Account * gmap Z (option Account)) :=
  match cache !! id with
  | Some p => Return (p, cache)
  | None =>
      if os_accountRepo svc then r ← gdo (GetByID id); Return (found r, <[id := found r]> cache)
      else Return (None, cache)
  end.

Definition cached_parent_healthy (a : Account) (cache : gmap Z (option Account))
    : oprog (bool * gmap Z (option Account)) :=
  match ParentAccountID a with
  | None => Return (true, cache)
  | Some id =>
      r ← cached_parent id cache;
      h ← parentHealthyForShadow a (fun _ => Return (fst r)); Return (h, snd r)
  end.

(** The reason a candidate of the second layer is left out. *)
Definition legacy_exclusion (c : OCtx) (q : legacy_request) (needs : bool) (a : Account) (cache : gmap Z (option Account))
    : oprog (option string * gmap Z (option Account)) :=
  if bool_decide (ID a ∈ lq_ExcludedIDs q) then Return (Some "excluded", cache)
  else
    reason ← openAICompatibleAccountEligibilityFailureReason c q a;
    match reason with
    | Some reason => Return (Some reason, cache)
    | None =>
        h ← cached_parent_healthy a cache;
        if negb (fst h) then Return (Some "shadow_parent_unhealthy", snd h)
        else
          r ← first_veto [veto_by (odo (RuntimeBlocked a (lq_Model q))) "runtime_blocked";
                          veto_by (restricted c q needs a) "channel_upstream_restricted"];
          Return (r, snd h)
    end.

Fixpoint legacy_candidates (c : OCtx) (q : legacy_request) (needs : bool) (l : list Account)
    (cache : gmap Z (option Account)) (stats : openAISelectionFilterStats)
    : oprog (list Account * openAISelectionFilterStats) :=
  match l with
  | [] => Return ([], stats)
  | a :: l =>
      r ← legacy_exclusion c q needs a cache;
      match fst r with
      | Some reason => legacy_candidates c q needs l (snd r) (exclude reason stats)
      | None => rest ← legacy_candidates c q needs l (snd r) stats; Return (a :: fst rest, snd rest)
      end
  end.

(** A candidate read again before it is returned. *)
Definition legacy_fresh (c : OCtx) (q : legacy_request) (needs : bool) (a : Account) : oprog (option Account) :=
  fresh ← resolve_fresh c a (lq_Platform q) (lq_Model q) false (lq_Capability q);
  match fresh with
  | None => Return None
  | Some fresh =>
      l ← recheck c fresh (lq_GroupID q) (lq_Platform q) (lq_Model q) (lq_RequireCompact q) (lq_Capability q);
      match l with
      | None => Return None
      | Some fresh => r ← restricted c q needs fresh; Return (if (r : bool) then None else Some fresh)
      end
  end.

(** The loop that asks accounts for a slot in order. *)
Fixpoint ask_in_order (c : OCtx) (q : legacy_request) (needs spill : bool) (l : list Account)
    : oprog (result OSelectionError (option AccountSelectionResult)) :=
  match l with
  | [] => Return (Ok None)
  | a :: l =>
      fresh ← legacy_fresh c q needs a;
      match fresh with
      | None => ask_in_order c q needs spill l
      | Some fresh =>
          s ← acquire_slot svc (ID fresh) (Concurrency fresh);
          match s with
          | Some (Some f) =>
              r ← newAcquiredSelectionResult c fresh f;
              match r with
              | Err e => Return (Err e)
              | Ok sel => _ ← (if negb spill then bind_now c q (ID fresh) else Return tt); Return (Ok (Some sel))
              end
          | _ => ask_in_order c q needs spill l
          end
      end
  end.

(** The order of [tryAcquireFromLoadMap]: the accounts that are not full. *)
Definition load_order (q : legacy_request) (o : openAILegacyUpstreamRateOrder) (candidates : list Account)
    (loadMap : gmap Z LoadInfo) : oprog (list Account) :=
  let with_load a := mkWithLoad a (match loadMap !! ID a with Some i => ConcurrencyCache.LoadRate i | None => 0 end) in
  let available := List.filter (fun x => AccountOrder.LoadRate x <? 100) (map with_load candidates) in
  shuffled ← lift (shuffleWithinSortGroups (SliceStable less_with_load available));
  let l := by_rate o (map AccountOrder.account shuffled) in
  Return (if lq_RequireCompact q
          then List.filter (fun a => openAICompactSupportTier a =? 2) l
               ++ List.filter (fun a => openAICompactSupportTier a =? 1) l
               ++ List.filter (fun a => openAICompactSupportTier a =? 0) l
          else l).

(** Whether any account is not full. *)
Definition any_available (candidates : list Account) (loadMap : gmap Z LoadInfo) : bool :=
  existsb (fun a => match loadMap !! ID a with Some i => ConcurrencyCache.LoadRate i <? 100 | None => true end) candidates.

Definition tryAcquireFromLoadMap (c : OCtx) (q : legacy_request) (needs spill : bool) (o : openAILegacyUpstreamRateOrder)
    (candidates : list Account) (loadMap : gmap Z LoadInfo)
    : oprog (result OSelectionError (option AccountSelectionResult)) :=
  if any_available candidates loadMap
  then l ← load_order q o candidates loadMap; ask_in_order c q needs spill l
  else Return (Ok None).

(** The candidates by priority, time of use and rate, those with compact
    support first when it is required. *)
Definition fallback_sorted (q : legacy_request) (o : openAILegacyUpstreamRateOrder) (l : list Account)
    : oprog (list Account) :=
  ordered ← lift (sortAccountsByPriorityAndLastUsed l false);
  let ordered := by_rate o ordered in
  Return (if lq_RequireCompact q then prioritizeOpenAICompactAccounts ordered else ordered).

(** The second layer. *)
Definition legacy_load_layer (c : OCtx) (q : legacy_request) (needs spill : bool) (o : openAILegacyUpstreamRateOrder)
    (candidates : list Account) : oprog (result OSelectionError (option AccountSelectionResult)) :=
  loads ← odo (GetAccountsLoadBatch' false (buildOpenAIAccountLoadRequest candidates));
  match (loads : option (gmap Z LoadInfo)) with
  | None => l ← fallback_sorted q o candidates; ask_in_order c q needs spill l
  | Some loadMap =>
      r ← tryAcquireFromLoadMap c q needs spill o candidates loadMap;
      match r with
      | Ok None =>
          if any_available candidates loadMap then
            fresh ← odo (GetAccountsLoadBatch' true (buildOpenAIAccountLoadRequest candidates));
            match (fresh : option (gmap Z LoadInfo)) with
            | None => Return (Ok None)
            | Some loadMap => tryAcquireFromLoadMap c q needs spill o candidates loadMap
            end
          else Return (Ok None)
      | _ => Return r
      end
  end.

(** The third layer. *)
Fixpoint legacy_wait_layer (c : OCtx) (q : legacy_request) (needs : bool) (l : list Account) : oprog OSelected :=
  match l with
  | [] => Return (Err (if lq_RequireCompact q then ErrNoAvailableCompactAccounts else ErrNoAvailable))
  | a :: l =>
      fresh ← legacy_fresh c q needs a;
      match fresh with
      | None => legacy_wait_layer c q needs l
      | Some fresh => wait_fallback c fresh
      end
  end.

Definition legacy_layers23 (c : OCtx) (q : legacy_request) (needs prefer spill : bool) (accounts : list Account)
    : oprog OSelected :=
  r ← legacy_candidates c q needs accounts ∅ (mkFilterStats (Z.of_nat (length accounts)) ∅);
  match fst r with
  | [] => Return (Err (noAvailableOpenAISelectionError (lq_Model q) false (summary "" (snd r))))
  | candidates =>
      o ← rate_order prefer candidates;
      s ← legacy_load_layer c q needs spill o candidates;
      match s with
      | Err e => Return (Err e)
      | Ok (Some sel) => Return (Ok sel)
      | Ok None => l ← fallback_sorted q o candidates; legacy_wait_layer c q needs l
      end
  end.

(** The lower upstream rates first, while the advanced scheduler is off. *)
Definition prefer_low_rate (q : legacy_request) : oprog bool :=
  if lq_UseUpstreamTokenCost q
  then s ← odo RuntimeSettings; Return (negb (rt_enabled s) && lowUpstreamRatePriorityEnabled s)
  else Return false.

Definition read_sticky (groupID : option Z) (sessionHash : string) : oprog Z :=
  if (sessionHash !=? "") && os_cache svc
  then r ← odo (GetStickySession (derefGroupID groupID) sessionHash); Return (default 0 r)
  else Return 0.

Definition selectAccountWithLoadAwareness (c : OCtx) (q : legacy_request) : oprog OSelected :=
  blocked ← checkChannelPricingRestriction (lq_GroupID q) (lq_Model q);
  if (blocked : bool) then Return (Err (ChannelRestricted (lq_Model q)))
  else
    prefer ← prefer_low_rate q;
    needs ← needsUpstreamChannelRestrictionCheck svc (lq_GroupID q);
    sticky ← read_sticky (lq_GroupID q) (lq_SessionHash q);
    if negb (os_concurrencyService svc) || negb (LoadBatchEnabled (wait_config svc))
    then select_without_load c q sticky prefer
    else
      l ← listSchedulableAccounts svc (lq_GroupID q) (lq_Platform q);
      match l with
      | None => Return (Err ListFailed)
      | Some [] => Return (Err (noAvailableOpenAISelectionError (lq_Model q) false (summary "" no_stats)))
      | Some accounts =>
          r ← legacy_sticky_layer c q needs sticky;
          match r with
          | Ok answer => Return answer
          | Err spill => legacy_layers23 c q needs prefer spill accounts
          end
      end.
End Legacy.
