(* ===== verification/OpenAILegacyProperties.v ===== *)
(** * The OpenAI selection without the scheduler: what a run leaves behind

    The accounts of OpenAILegacy.v were not excluded and are those the
    environment offers, the answer accounts for every slot taken, and an
    error leaves none. *)

From S2P Require Import Prelude GoSort GoStrings Float64 GoTime GoAny Account AccountProtocol ModelMapping AccountScheduling ModelAvailability GroupRouting GoProgram ConcurrencyCache GatewayCalls AccountOrder AccountOrderProperties SelectionGates AccountSelectionProperties OpenAIQuota OpenAIRanking OpenAIRankingProperties OpenAICapabilities OpenAICalls OpenAIEligibility OpenAIScheduler OpenAISelect OpenAISchedulerProperties OpenAISelectProperties OpenAILegacy.
Local Open Scope Z_scope.

#[local] Existing Instance anything.

(** ** Environments *)

(** The replies of the gateway's calls are those of [E]. *)
Definition oin (E : Env) (c : ocall) : oreply c -> Prop :=
  match c with Gateway c => env_ok E c | _ => fun _ => True end.

Lemma oin_ook E c r : oin E c r -> ook c r.
Proof. intros H. split; [|done]. destruct c; try done. by apply (env_ok_any E). Qed.

Lemma ook_oin c r : ook c r -> oin any_env c r.
Proof. intros [H _]. by destruct c. Qed.

(** What an answer's account may be. *)
Definition offered (E : Env) (excluded : gset Z) (i : Z) : Prop := i ∉ excluded /\ account_ok E i.

(** An answer: an account that was offered, and its slot or a plan for it.
    The account was read again after the slot was taken, so its limit may
    differ from that of the plan. *)
Definition answers (E : Env) (c : OCtx) (excluded : gset Z) (sel : AccountSelectionResult) : Prop :=
  let a := sel_Account sel in
  offered E excluded (ID a) /\ sel_profitGate sel = oc_Gate c /\
  (if sel_Acquired sel
   then sel_ReleaseFunc sel <> None /\ slot_of (sel_ReleaseFunc sel) a /\ sel_WaitPlan sel = None
   else sel_ReleaseFunc sel = None /\ exists plan, sel_WaitPlan sel = Some plan /\ wp_AccountID plan = ID a).

(** A result since [g]. *)
Definition hands (E : Env) (c : OCtx) (excluded : gset Z) (g : oghost) (r : result OSelectionError (option AccountSelectionResult))
    (g' : oghost) : Prop :=
  (forall sel, r = Ok (Some sel) -> answers E c excluded sel) /\ adds (ok_slots r) g g'.

(** A result that is an answer or an error. *)
Definition some_result (r : OSelected) : result OSelectionError (option AccountSelectionResult) :=
  match r with Ok sel => Ok (Some sel) | Err e => Err e end.

Lemma hands_none E c ex g g' : adds [] g g' -> hands E c ex g (Ok None) g'.
Proof. by split. Qed.

Lemma hands_err E c ex g g' e : adds [] g g' -> hands E c ex g (Err e) g'.
Proof. by split. Qed.

Lemma hands_some E c ex g g' sel : answers E c ex sel -> adds (result_slots (Some sel)) g g' ->
  hands E c ex g (Ok (Some sel)) g'.
Proof. intros Hs Ha. split; [|done]. by intros ? [= <-]. Qed.

Lemma hands_trans E c ex g1 g2 r g3 : adds [] g1 g2 -> hands E c ex g2 r g3 -> hands E c ex g1 r g3.
Proof. intros Ha [Hw Ha']. split; [done|]. by eapply adds_nil_trans. Qed.

#[export] Hint Resolve hands_none hands_err : core.

Section Legacy.
Context (opts : ModelMappingOptions) (tzdb : string -> option Location) (svc : OServices) `{!ReadsAccounts svc}.
Context (grok_billing : Account -> option BillingSummary) (known_free : Account -> bool).
Context (grok_quota : Account -> option QuotaSnapshot).
Context (upstream_model : Account -> string -> bool -> string) (GroupIDs : Account -> list Z).
Context (fresh_rate : time -> Account -> option f64) (E : Env).

Abbreviation lreturns p P := (returns omove (oin E) p P).
Abbreviation lwp p g Q := (wp omove (oin E) p g Q).

Lemma lifted {A} (p : oprog A) (P : A -> Prop) : returns omove ook p P -> lreturns p P.
Proof. apply returns_stronger, oin_ook. Qed.

(** A silent step on the way. *)
Lemma wp_silent {A B} (p : oprog A) (f : A -> oprog B) g Q :
  osilent omove p -> (forall a, lwp (f a) g Q) -> lwp (p ≫= f) g Q.
Proof. intros Hp Hf. eapply wp_returns; [by apply lifted|]. auto. Qed.

Lemma returns_then {A B} (p : oprog A) (f : A -> oprog B) (P : B -> Prop) :
  osilent omove p -> (forall a, lreturns (f a) P) -> lreturns (p ≫= f) P.
Proof. intros Hp Hf. eapply returns_bind; [by apply lifted|]. auto. Qed.

(** ** Silent parts *)

Lemma silent_veto_list l : Forall (fun p => osilent omove p) l -> osilent omove (first_veto l).
Proof. apply silent_first_veto. Qed.

Lemma silent_profit_veto c a : osilent omove (profit_veto c a).
Proof. by apply returns_Return. Qed.

Lemma silent_failure_reason c q a :
  osilent omove (openAICompatibleAccountEligibilityFailureReason opts tzdb grok_billing known_free grok_quota c q a).
Proof.
  apply silent_veto_list. apply Forall_cons_2; [apply (silent_eligibility omove)|].
  apply Forall_cons_2; [apply silent_profit_veto|apply Forall_nil_2].
Qed.

Lemma silent_eligible_for c q a : osilent omove (eligible_for opts tzdb grok_billing known_free grok_quota c q a).
Proof. eapply returns_bind; [apply silent_failure_reason|]. intros r _. by apply returns_Return. Qed.

Lemma silent_needs g : osilent omove (needsUpstreamChannelRestrictionCheck svc g).
Proof. unfold needsUpstreamChannelRestrictionCheck. osilently. Qed.

Lemma silent_restricted c q needs a : osilent omove (restricted svc upstream_model c q needs a).
Proof.
  unfold restricted, isUpstreamModelRestrictedByChannel. destruct (lq_GroupID q), needs; try by apply returns_Return.
  osilently.
Qed.

Lemma silent_pricing_restriction g m : osilent omove (checkChannelPricingRestriction svc g m).
Proof. unfold checkChannelPricingRestriction. cbv zeta. osilently. Qed.

Lemma silent_bind_now c q i : osilent omove (bind_now svc c q i).
Proof. unfold bind_now, set_sticky. osilently. Qed.

Lemma silent_refresh g h : osilent omove (refresh_sticky svc g h).
Proof. unfold refresh_sticky. osilently. Qed.

Lemma silent_read_sticky g h : osilent omove (read_sticky svc g h).
Proof. unfold read_sticky. osilently. Qed.

Lemma silent_prefer q : osilent omove (prefer_low_rate q).
Proof. unfold prefer_low_rate. osilently. Qed.

Lemma silent_rates prefer l : osilent omove (rate_order fresh_rate prefer l).
Proof. unfold rate_order. osilently. Qed.

Lemma silent_blocked a m : osilent omove (odo (RuntimeBlocked a m)).
Proof. by oquiet_call. Qed.

Lemma silent_parent a : osilent omove (parentHealthyForShadow a (parentAccountLookup svc)).
Proof. apply (silent_parent_healthy omove). intros. apply (silent_parent_lookup omove). Qed.

(** ** Accounts read *)

(** An account read by its identifier is one the environment knows. *)
Definition known_as (i : Z) (r : option Account) : Prop := match r with Some a => ID a = i /\ account_ok E i | None => True end.

Lemma returns_schedulable_known i : lreturns (getSchedulableAccount svc i) (known_as i).
Proof.
  eapply returns_mono; [apply returns_and; [apply lifted, (returns_schedulable_account omove svc i), reads_accounts|]|].
  - instantiate (1 := fun r => r <> None -> account_ok E i).
    unfold getSchedulableAccount. eapply returns_bind with (P := fun r => found r <> None -> account_ok E i).
    + assert (Hf : forall r : option (option Account), (forall a, r = Some (Some a) -> ID a = i /\ account_ok E (ID a)) ->
        found r <> None -> account_ok E i).
      { intros [[a|]|] H Hn; try done. by destruct (H a eq_refl) as [<- ?]. }
      pose proof (reads_accounts (svc := svc)) as Hsvc. destruct (os_schedulerSnapshot svc); cbn [orb] in Hsvc;
        [apply (returns_gdo omove (oin E) (SnapshotGetAccount i) _ eq_refl)|
         rewrite Hsvc; apply (returns_gdo omove (oin E) (GetByID i) _ eq_refl)];
        intros r Hr; by apply Hf.
    + intros r Hr. destruct (found r) as [a|]; [|by apply returns_Return].
      assert (Hk : account_ok E i) by (by apply Hr).
      apply returns_then; [eapply returns_mono; [apply (returns_blocked_by_threshold omove)|done]|].
      intros [[] b]; [by apply returns_Return|]. destruct (IsGrok b); [|by apply returns_Return].
      apply returns_then; [oquiet_call; exact (fun _ _ => I)|]. intros l. by apply returns_Return.
  - intros [a|] [H1 H2]; [|done]. split; [done|auto].
Qed.

Lemma returns_hydrate a :
  lreturns (hydrate svc a) (fun r => match r with Ok h => ID h = ID a | Err _ => True end).
Proof.
  unfold hydrate. destruct (os_schedulerSnapshot svc); cbn [negb]; [|by apply returns_Return].
  eapply returns_bind; [apply lifted, (returns_snapshot_get omove)|]. intros r Hr. apply returns_Return.
  cbv beta in Hr. by destruct (found r).
Qed.

Lemma returns_legacy_fresh c q needs a :
  lreturns (legacy_fresh opts tzdb svc grok_billing known_free grok_quota upstream_model GroupIDs c q needs a) (id_is (ID a)).
Proof.
  unfold legacy_fresh. eapply returns_bind; [apply lifted, (returns_resolve_fresh omove)|]. intros [b|] Hb; [|by apply returns_Return].
  eapply returns_bind; [apply lifted, (returns_recheck omove)|]. intros [l|] Hl; [|by apply returns_Return].
  apply returns_then; [apply silent_restricted|]. intros r. apply returns_Return. destruct r; [done|]. cbn in *. congruence.
Qed.

(** The accounts of a list are known. *)
Definition all_known (l : list Account) : Prop := Forall (fun a => account_ok E (ID a)) l.

Lemma returns_threshold_known l : all_known l ->
  lreturns (filterOpenAIAccountsBySchedulingThreshold svc l) all_known.
Proof.
  induction 1 as [|a l Ha _ IH]; [apply returns_Return; constructor|]. cbn [filterOpenAIAccountsBySchedulingThreshold].
  eapply returns_bind; [apply lifted, (returns_blocked_by_threshold omove)|]. intros [b a'] Ha'. cbn in Ha'.
  eapply returns_bind; [exact IH|]. intros rest Hr. apply returns_Return. destruct b; [done|].
  constructor; [by rewrite Ha'|done].
Qed.

Lemma returns_list_known g pf :
  lreturns (listSchedulableAccounts svc g pf) (fun r => match r with Some l => all_known l | None => True end).
Proof.
  unfold listSchedulableAccounts. cbv zeta.
  eapply returns_bind with (P := fun r => match r with Some l => all_known l | None => True end).
  - unfold query_accounts. pose proof (reads_accounts (svc := svc)) as Hsvc.
    destruct (os_schedulerSnapshot svc); [|cbn [orb] in Hsvc; rewrite Hsvc].
    + eapply returns_bind; [apply (returns_gdo omove (oin E) (SnapshotListSchedulable _ _ _)
        (fun r => forall l m, r = Some (l, m) -> all_known l) eq_refl); done|].
      intros [[l m]|] H; apply returns_Return; [by eapply H|done].
    + eapply returns_mono; [apply (returns_gdo omove (oin E) (RepoList _) (fun r => forall l, r = Some l -> all_known l) eq_refl); done|].
      intros [l|] H; [by apply H|done].
  - intros [l|] Hl; [|by apply returns_Return].
    eapply returns_bind; [by apply returns_threshold_known|]. intros l' Hl'.
    destruct (_ ==? _); [|by apply returns_Return].
    eapply returns_bind; [apply (returns_gdo omove (oin E) (FilterGrokFreeQuota l') all_known eq_refl); done|].
    intros k Hk. by apply returns_Return.
Qed.

(** ** The account of the session *)

Abbreviation off q a := (offered E (lq_ExcludedIDs q) (ID a)).

(** The account answered, if any, was offered. *)
Definition off_opt (q : legacy_request) (r : option Account) : Prop := match r with Some a => off q a | None => True end.

Lemma returns_sticky_reread c q needs a : osilent omove needs ->
  lreturns (sticky_reread opts tzdb svc grok_billing known_free grok_quota upstream_model GroupIDs c q needs a) (id_is (ID a)).
Proof.
  intros Hn. unfold sticky_reread. apply returns_then; [apply silent_parent|]. intros [] ; cbn [negb]; [|by apply returns_Return].
  apply returns_then; [apply silent_blocked|]. intros []; [by apply returns_Return|].
  eapply returns_bind; [apply lifted, (returns_recheck omove)|]. intros [b|] Hb; [|by apply returns_Return].
  destruct (negb _); [by apply returns_Return|]. apply returns_then; [exact Hn|]. intros n.
  apply returns_then; [apply silent_restricted|]. intros [] ; by apply returns_Return.
Qed.

Lemma returns_sticky_hit c q sid :
  lreturns (tryStickySessionHit opts tzdb svc grok_billing known_free grok_quota upstream_model GroupIDs c q sid) (off_opt q).
Proof.
  assert (Hforget : lreturns (_ ← delete_sticky svc (lq_GroupID q) (lq_SessionHash q); Return None) (off_opt q)).
  { apply returns_then; [apply (silent_delete_sticky omove)|]. intros u. by apply returns_Return. }
  unfold tryStickySessionHit. cbv zeta. destruct (_ ==? _); [by apply returns_Return|].
  apply returns_then; [osilently|]. intros i.
  destruct (_ || _) eqn:He; [by apply returns_Return|]. apply orb_false_iff in He as [_ He%bool_decide_eq_false].
  eapply returns_bind; [apply returns_schedulable_known|]. intros [a|] Ha; [|by apply returns_Return]. destruct Ha as [<- Ha].
  apply returns_then; [apply (silent_should_clear omove)|]. intros []; [exact Hforget|].
  apply returns_then; [apply silent_eligible_for|]. intros []; cbn [negb]; [|by apply returns_Return].
  eapply returns_bind; [apply returns_sticky_reread, silent_needs|]. intros [b|] Hb; [|exact Hforget].
  apply returns_then; [apply silent_refresh|]. intros u. apply returns_Return. cbn in *. by rewrite Hb.
Qed.

(** ** The best account *)

Lemma returns_best_candidate c q needs a :
  lreturns (best_candidate opts tzdb svc grok_billing known_free grok_quota upstream_model GroupIDs c q needs a)
    (fun r => match r with Ok b => ID b = ID a /\ ID a ∉ lq_ExcludedIDs q | Err _ => True end).
Proof.
  unfold best_candidate. case_bool_decide as He; [by apply returns_Return|].
  eapply returns_bind; [apply lifted, (returns_resolve_fresh_before omove)|]. intros [b|] Hb; [|by apply returns_Return].
  eapply returns_bind; [apply lifted, (returns_recheck_before omove)|]. intros [l|] Hl; [|by apply returns_Return].
  apply returns_then; [apply silent_restricted|]. intros []; [by apply returns_Return|].
  apply returns_then; [apply silent_profit_veto|]. intros [v|]; apply returns_Return; [done|].
  destruct (_ && _); [done|]. cbn in *. split; [congruence|done].
Qed.

Lemma returns_best_candidates c q needs l : all_known l -> forall blocked stats,
  lreturns (best_candidates opts tzdb svc grok_billing known_free grok_quota upstream_model GroupIDs c q needs l blocked stats)
    (fun r => Forall (fun a => off q a) r.1.1).
Proof.
  induction 1 as [|a l Ha _ IH]; intros blocked stats; [apply returns_Return; constructor|]. cbn [best_candidates].
  eapply returns_bind; [apply returns_best_candidate|]. intros [b|reason] Hb; [|apply IH].
  eapply returns_bind; [apply IH|]. intros [[rest bl] st] Hr. apply returns_Return. destruct Hb as [Hb He].
  constructor; [by rewrite Hb|exact Hr].
Qed.

Lemma head_in {A} (l : list A) x : head l = Some x -> x ∈ l.
Proof. destruct l; simpl; [done|]. intros [= ->]. by left. Qed.

Lemma returns_legacy_best c q prefer l : all_known l ->
  lreturns (selectBestAccount opts tzdb svc grok_billing known_free grok_quota upstream_model GroupIDs fresh_rate c q prefer l)
    (fun r => off_opt q r.1.1).
Proof.
  intros Hl. unfold selectBestAccount. apply returns_then; [apply silent_needs|]. intros needs.
  eapply returns_bind; [by apply returns_best_candidates|]. intros [[k bl] st] Hk. cbn [fst] in Hk.
  destruct k as [|x k0] eqn:E0; [by apply returns_Return|]. rewrite <- E0 in *. clear E0 x k0.
  apply returns_then; [apply silent_rates|]. intros o. apply returns_Return. cbn [fst]. unfold off_opt.
  destruct (head _) as [a|] eqn:Eh; [|done]. apply head_in in Eh. rewrite SliceStable_perm in Eh.
  rewrite Forall_forall in Hk. by apply Hk.
Qed.

Lemma returns_for_model c q sid prefer :
  lreturns (selectAccountForModelWithExclusions opts tzdb svc grok_billing known_free grok_quota upstream_model GroupIDs
              fresh_rate c q sid prefer)
    (fun r => match r with Ok a => off q a | Err _ => True end).
Proof.
  unfold selectAccountForModelWithExclusions. apply returns_then; [apply silent_pricing_restriction|].
  intros []; [by apply returns_Return|].
  eapply returns_bind; [apply returns_sticky_hit|]. intros [a|] Ha; [by apply returns_Return|].
  eapply returns_bind; [apply returns_list_known|]. intros [l|] Hl; [|by apply returns_Return].
  eapply returns_bind; [by apply returns_legacy_best|]. intros [[[a|] bl] st] Hb; [|by apply returns_Return].
  eapply returns_bind; [apply returns_hydrate|]. intros [h|e] Hh; [|by apply returns_Return].
  apply returns_then; [apply silent_bind_now|]. intros u. apply returns_Return. cbn in *. by rewrite Hh.
Qed.

(** ** Answers *)

(** A result made of an account that was offered. *)
Lemma wp_waits c q a plan g g' : adds [] g g' -> off q a -> wp_AccountID plan = ID a ->
  lwp (newSelectionResult svc c a false None (Some plan)) g' (fun r g' => hands E c (lq_ExcludedIDs q) g (some_result r) g').
Proof.
  intros Ha Ho Hp. unfold newSelectionResult. eapply wp_returns; [apply returns_hydrate|]. intros [h|e] Hh; [|by apply hands_err].
  apply hands_some; [|done]. unfold answers, slot_of. cbn. rewrite Hh. split_and!; try done. by exists plan.
Qed.

Lemma wp_hands_acquired c q a f g g' (Q : OSelected -> oghost -> Prop) :
  slot_for (ID a) (Some (Some f)) -> adds (slots (Some f)) g g' -> off q a ->
  (forall r g', hands E c (lq_ExcludedIDs q) g (some_result r) g' -> Q r g') ->
  lwp (newAcquiredSelectionResult svc c a f) g' Q.
Proof.
  intros Hs Ha Ho HQ. unfold newAcquiredSelectionResult, newSelectionResult.
  apply wp_bind. eapply wp_returns; [apply returns_hydrate|]. intros [h|e] Hh; cbn [wp].
  - apply HQ, hands_some; [|done]. unfold answers, slot_of. cbn. rewrite Hh. by split_and!.
  - apply (wp_stronger _ _ _ (oin_ook E)), (wp_release_then f _ g); [done|]. intros g3 Ha3 _. by apply HQ, hands_err.
Qed.

(** A slot is asked for. *)
Lemma wp_legacy_slot i mx g (Q : option (option ReleaseFunc) -> oghost -> Prop) :
  (forall r g', slot_for i r -> adds (attempt_slots r) g g' -> Q r g') -> lwp (acquire_slot svc i mx) g Q.
Proof. intros HQ. apply (wp_stronger _ _ _ (oin_ook E)), wp_acquire_slot. auto. Qed.

Lemma wp_without_load c q sid prefer g :
  lwp (select_without_load opts tzdb svc grok_billing known_free grok_quota upstream_model GroupIDs fresh_rate c q sid prefer)
    g (fun r g' => hands E c (lq_ExcludedIDs q) g (some_result r) g').
Proof.
  unfold select_without_load. eapply wp_returns; [apply returns_for_model|]. intros [a|e] Ha; [|by apply hands_err].
  apply wp_bind, wp_legacy_slot. intros r g' Hr Hadd.
  assert (Hwait : adds [] g g' ->
    lwp (if (0 <? sid) && (sid =? ID a) && os_concurrencyService svc then
           waiting ← gdo (GetAccountWaitingCount (ID a));
           if (waiting : Z) <? StickySessionMaxWaiting (wait_config svc) then wait_sticky svc c a else wait_fallback svc c a
         else wait_fallback svc c a) g' (fun r g' => hands E c (lq_ExcludedIDs q) g (some_result r) g')).
  { intros Hg. assert (Hf : forall g'', adds [] g g'' -> lwp (wait_fallback svc c a) g'' (fun r g' => hands E c (lq_ExcludedIDs q) g (some_result r) g')).
    { intros. by apply wp_waits. }
    destruct (_ && _); [|by apply Hf]. apply wp_silent; [by oquiet_call|]. intros w. destruct (_ <? _); [by apply wp_waits|by apply Hf]. }
  destruct r as [[f|]|]; [|by apply Hwait..]. by eapply wp_hands_acquired.
Qed.

(** ** The first layer *)

Definition layered (c : OCtx) (q : legacy_request) (g : oghost) (r : Layered) (g' : oghost) : Prop :=
  match r with Ok answer => hands E c (lq_ExcludedIDs q) g (some_result answer) g' | Err _ => adds [] g g' end.

Lemma wp_sticky_try c q a g : off q a -> lwp (legacy_sticky_try svc c q (ID a) a) g (layered c q g).
Proof.
  intros Ho. unfold legacy_sticky_try. apply wp_bind, wp_legacy_slot. intros r g' Hr Hadd.
  assert (Hwait : adds [] g g' ->
    lwp (waiting ← gdo (GetAccountWaitingCount (ID a));
         if (waiting : Z) <? StickySessionMaxWaiting (wait_config svc)
         then r ← newSelectionResult svc c a false None
                    (Some (mkWaitPlan (ID a) (Concurrency a) (StickySessionWaitTimeout (wait_config svc))
                             (StickySessionMaxWaiting (wait_config svc))));
              Return (Ok r)
         else Return (Err true)) g' (layered c q g)).
  { intros Hg. apply wp_silent; [by oquiet_call|]. intros w. destruct (_ <? _); [|done].
    apply wp_bind. eapply wp_mono; [by apply wp_waits|]. done. }
  destruct r as [[f|]|]; [|by apply Hwait..]. apply wp_bind. eapply wp_hands_acquired; [done..|].
  intros [sel|e] g2 Hs; [|done]. apply wp_silent; [apply silent_refresh|]. by intros.
Qed.

Lemma returns_legacy_reread c q needs a :
  lreturns (legacy_sticky_reread opts tzdb svc grok_billing known_free grok_quota upstream_model GroupIDs c q needs a)
    (id_is (ID a)).
Proof.
  unfold legacy_sticky_reread. eapply returns_bind; [apply lifted, (returns_recheck omove)|].
  intros [b|] Hb; [|by apply returns_Return]. destruct (negb _); [by apply returns_Return|].
  apply returns_then; [apply silent_blocked|]. intros []; [by apply returns_Return|].
  apply returns_then; [apply silent_restricted|]. intros []; [by apply returns_Return|].
  apply returns_then; [apply silent_parent|]. intros []; by apply returns_Return.
Qed.

Lemma wp_legacy_sticky c q needs i g :
  lwp (legacy_sticky_layer opts tzdb svc grok_billing known_free grok_quota upstream_model GroupIDs c q needs i) g (layered c q g).
Proof.
  assert (Hforget : lwp (_ ← delete_sticky svc (lq_GroupID q) (lq_SessionHash q); Return (Err false)) g (layered c q g)).
  { apply wp_silent; [apply (silent_delete_sticky omove)|]. by intros. }
  unfold legacy_sticky_layer. cbv zeta. destruct (_ || _) eqn:He; [done|].
  apply orb_false_iff in He as [_ He%bool_decide_eq_false].
  eapply wp_returns; [apply returns_schedulable_known|]. intros [a|] Ha; [|done]. destruct Ha as [<- Ha].
  apply wp_silent; [apply (silent_should_clear omove)|]. intros []; [exact Hforget|].
  apply wp_silent; [apply silent_eligible_for|]. intros []; cbn [negb]; [|done].
  eapply wp_returns; [apply returns_legacy_reread|]. intros [b|] Hb; [|exact Hforget].
  cbn in Hb. rewrite <- Hb. apply wp_sticky_try. by rewrite Hb.
Qed.

(** ** The candidates *)

Lemma silent_cached_parent a cache : osilent omove (cached_parent_healthy svc a cache).
Proof.
  unfold cached_parent_healthy. destruct (ParentAccountID a) as [i|]; [|by apply returns_Return].
  apply (returns_bind _ _ _ _ (fun _ => True)); [unfold cached_parent; osilently|]. intros r _.
  eapply returns_bind; [apply (silent_parent_healthy omove); intros j; by apply returns_Return|]. intros h _. by apply returns_Return.
Qed.

Lemma returns_legacy_exclusion c q needs a cache :
  lreturns (legacy_exclusion opts tzdb svc grok_billing known_free grok_quota upstream_model c q needs a cache)
    (fun r => r.1 = None -> ID a ∉ lq_ExcludedIDs q).
Proof.
  unfold legacy_exclusion. case_bool_decide as He; [by apply returns_Return|].
  apply returns_then; [apply silent_failure_reason|]. intros [reason|]; [by apply returns_Return|].
  apply returns_then; [apply silent_cached_parent|]. intros [[] m]; cbn [negb fst snd]; [|by apply returns_Return].
  apply returns_then; [|intros r; by apply returns_Return].
  apply silent_veto_list. repeat (apply Forall_cons_2); [| |apply Forall_nil_2].
  - eapply returns_bind; [apply silent_blocked|]. intros b _. by apply returns_Return.
  - eapply returns_bind; [apply silent_restricted|]. intros b _. by apply returns_Return.
Qed.

Lemma returns_legacy_candidates c q needs l : all_known l -> forall cache stats,
  lreturns (legacy_candidates opts tzdb svc grok_billing known_free grok_quota upstream_model c q needs l cache stats)
    (fun r => Forall (fun a => off q a) r.1).
Proof.
  induction 1 as [|a l Ha _ IH]; intros cache stats; [apply returns_Return; constructor|]. cbn [legacy_candidates].
  eapply returns_bind; [apply returns_legacy_exclusion|]. intros [[reason|] m] He; cbn [fst snd] in *; [apply IH|].
  eapply returns_bind; [apply IH|]. intros rest Hr. apply returns_Return. constructor; [|exact Hr]. split; [by apply He|exact Ha].
Qed.

(** ** The orders *)

Lemma by_rate_perm o l : by_rate o l ≡ₚ l.
Proof. unfold by_rate. destruct (ro_enabled o); [apply SliceStable_perm|done]. Qed.

Lemma Forall_filter_sub {A} (P : A -> Prop) f l : Forall P l -> Forall P (List.filter f l).
Proof. rewrite !Forall_forall. intros H x Hx%filter_in. auto. Qed.

Lemma prioritize_off q l : Forall (fun a => off q a) l -> Forall (fun a => off q a) (prioritizeOpenAICompactAccounts l).
Proof. intros H. unfold prioritizeOpenAICompactAccounts. rewrite !Forall_app. split_and!; by apply Forall_filter_sub. Qed.

Lemma returns_fallback_sorted q o l : Forall (fun a => off q a) l ->
  lreturns (fallback_sorted q o l) (Forall (fun a => off q a)).
Proof.
  intros Hl. unfold fallback_sorted.
  eapply returns_bind; [apply returns_lift, (returns_by_last_used (gateway_step omove)), _|]. intros l' Hp. cbv beta in Hp. destruct Hp as [Hp _]. cbv zeta.
  apply returns_Return. assert (Hl' : Forall (fun a => off q a) (by_rate o l')) by (by rewrite by_rate_perm, Hp).
  destruct (lq_RequireCompact q); [by apply prioritize_off|done].
Qed.

Lemma returns_load_order q o l loadMap : Forall (fun a => off q a) l ->
  lreturns (load_order q o l loadMap) (Forall (fun a => off q a)).
Proof.
  intros Hl. unfold load_order. cbv zeta. set (available := List.filter _ _).
  assert (Ha : Forall (fun a => off q a) (map AccountOrder.account available)).
  { apply Forall_forall. intros a (x & -> & Hx)%list_elem_of_fmap. apply filter_in, list_elem_of_fmap in Hx as (b & -> & Hb).
    rewrite Forall_forall in Hl. by apply (Hl b). }
  eapply returns_bind; [apply returns_lift, (returns_by_load (gateway_step omove)), _|]. intros l' Hp. cbv beta in Hp. destruct Hp as [Hp _].
  apply returns_Return. assert (Hl' : Forall (fun a => off q a) (by_rate o (map AccountOrder.account l'))) by (by rewrite by_rate_perm, Hp).
  destruct (lq_RequireCompact q); [|done]. rewrite !Forall_app. split_and!; by apply Forall_filter_sub.
Qed.

(** ** The second and third layers *)

Abbreviation asked c q g := (fun r g' => hands E c (lq_ExcludedIDs q) g r g').

Lemma wp_ask_in_order c q needs spill l : Forall (fun a => off q a) l -> forall g,
  lwp (ask_in_order opts tzdb svc grok_billing known_free grok_quota upstream_model GroupIDs c q needs spill l) g (asked c q g).
Proof.
  induction 1 as [|a l Ha _ IH]; intros g; cbn [ask_in_order]; [by apply hands_none|].
  eapply wp_returns; [apply returns_legacy_fresh|]. intros [b|] Hb; [|apply IH]. cbn in Hb.
  apply wp_bind, wp_legacy_slot. intros r g' Hr Hadd.
  assert (Hgo : adds [] g g' -> lwp (ask_in_order opts tzdb svc grok_billing known_free grok_quota upstream_model GroupIDs
      c q needs spill l) g' (asked c q g)).
  { intros Hg. eapply wp_mono; [apply IH|]. intros r' g3. by apply hands_trans. }
  destruct r as [[f|]|]; [|by apply Hgo..].
  apply wp_bind. eapply wp_hands_acquired; [done..|by rewrite Hb|]. intros [sel|e] g2 Hs; [|exact Hs].
  apply wp_silent; [destruct (negb spill); [apply silent_bind_now|by apply returns_Return]|]. by intros.
Qed.

Lemma wp_try_load c q needs spill o l loadMap g : Forall (fun a => off q a) l ->
  lwp (tryAcquireFromLoadMap opts tzdb svc grok_billing known_free grok_quota upstream_model GroupIDs c q needs spill o l loadMap)
    g (asked c q g).
Proof.
  intros Hl. unfold tryAcquireFromLoadMap. destruct (any_available l loadMap); [|by apply hands_none].
  eapply wp_returns; [by apply returns_load_order|]. intros l' Hl'. by apply wp_ask_in_order.
Qed.

Lemma wp_load_layer c q needs spill o l g : Forall (fun a => off q a) l ->
  lwp (legacy_load_layer opts tzdb svc grok_billing known_free grok_quota upstream_model GroupIDs c q needs spill o l)
    g (asked c q g).
Proof.
  intros Hl. unfold legacy_load_layer. apply wp_silent; [by oquiet_call|]. intros [loadMap|]; cycle 1.
  { eapply wp_returns; [by apply returns_fallback_sorted|]. intros l' Hl'. by apply wp_ask_in_order. }
  apply wp_bind. eapply wp_mono; [by apply wp_try_load|]. intros [[sel|]|e] g2 Hr; [exact Hr| |exact Hr].
  assert (Hg : adds [] g g2) by apply Hr. destruct (any_available l loadMap); [|by apply hands_none].
  apply wp_silent; [by oquiet_call|]. intros [fresh|]; [|by apply hands_none].
  eapply wp_mono; [by apply wp_try_load|]. intros r g3. by apply hands_trans.
Qed.

Lemma wp_wait_layer c q needs l : Forall (fun a => off q a) l -> forall g g', adds [] g g' ->
  lwp (legacy_wait_layer opts tzdb svc grok_billing known_free grok_quota upstream_model GroupIDs c q needs l) g'
    (fun r g' => hands E c (lq_ExcludedIDs q) g (some_result r) g').
Proof.
  induction 1 as [|a l Ha _ IH]; intros g g' Hg; cbn [legacy_wait_layer]; [by apply hands_err|].
  eapply wp_returns; [apply returns_legacy_fresh|]. intros [b|] Hb; [|by apply IH]. cbn in Hb.
  apply wp_waits; [done|by rewrite Hb|done].
Qed.

Lemma wp_legacy_layers23 c q needs prefer spill accounts g g' : all_known accounts -> adds [] g g' ->
  lwp (legacy_layers23 opts tzdb svc grok_billing known_free grok_quota upstream_model GroupIDs fresh_rate c q needs prefer
         spill accounts) g' (fun r g' => hands E c (lq_ExcludedIDs q) g (some_result r) g').
Proof.
  intros Hk Hg. unfold legacy_layers23. eapply wp_returns; [by apply returns_legacy_candidates|]. intros r Hr.
  destruct (fst r) as [|x l] eqn:E0; [by apply hands_err|]. rewrite <- E0 in *. clear E0 x l.
  apply wp_silent; [apply silent_rates|]. intros o. apply wp_bind. eapply wp_mono; [by apply wp_load_layer|].
  intros [[sel|]|e] g2 Hs; [by apply (hands_trans _ _ _ g g')| |by apply (hands_trans _ _ _ g g')].
  eapply wp_returns; [by apply returns_fallback_sorted|]. intros l Hl. apply wp_wait_layer; [exact Hl|].
  eapply adds_nil_trans; [exact Hg|apply Hs].
Qed.

(** ** The whole selection *)

Lemma wp_load_aware c q g :
  lwp (selectAccountWithLoadAwareness opts tzdb svc grok_billing known_free grok_quota upstream_model GroupIDs fresh_rate c q)
    g (fun r g' => hands E c (lq_ExcludedIDs q) g (some_result r) g').
Proof.
  unfold selectAccountWithLoadAwareness. apply wp_silent; [apply silent_pricing_restriction|]. intros []; [by apply hands_err|].
  apply wp_silent; [apply silent_prefer|]. intros prefer. apply wp_silent; [apply silent_needs|]. intros needs.
  apply wp_silent; [apply silent_read_sticky|]. intros sticky. destruct (_ || _); [apply wp_without_load|].
  eapply wp_returns; [apply returns_list_known|]. intros [[|a l]|] Hl; [by apply hands_err| |by apply hands_err].
  apply wp_bind. eapply wp_mono; [apply wp_legacy_sticky|]. intros [answer|spill] g2 Hr; [exact Hr|].
  by apply wp_legacy_layers23.
Qed.
End Legacy.
