(* ===== verification/OpenAIEntry.v ===== *)
(** * The entry of the OpenAI selection

    [selectAccountWithScheduler] of [openai_account_scheduler.go] and what it
    installs in the request's context: the pause settings, the privacy
    requirement of the group, the profit gate ([openai_profit_control.go]) and
    the account of a guarded parent ([openai_guardian_affinity.go]).  It
    selects by the scheduler of OpenAISelect.v when the setting enables it,
    otherwise by OpenAILegacy.v until the account has the capabilities of the
    request, and once more without the proxies' quarantine when no account is
    available.

    The loop over OpenAILegacy.v has fuel: a round adds its account to the
    excluded ones, so that as many rounds as there are accounts are enough
    (OpenAIEntryTheorems.v). *)

From S2P Require Import Prelude GoSort GoStrings Float64 GoTime GoAny Account AccountProtocol ModelMapping AccountScheduling ModelAvailability GroupRouting GoProgram ConcurrencyCache GatewayCalls AccountOrder SelectionGates OpenAIQuota OpenAIRanking OpenAICapabilities OpenAICalls OpenAIEligibility OpenAIScheduler OpenAISelect OpenAILegacy.
Local Open Scope Z_scope.

(** ** Requests *)

(** What the entry reads of the request's context besides [OCtx]: whether the
    profit gate is suppressed, the authenticated group and user, and the
    pricing time, [None] for the zero time. *)
Record EntryCtx := mkEntryCtx {
  ec_ctx : OCtx;
  ec_Suppressed : bool;
  ec_Group : option Group;
  ec_UserID : Z;
  ec_PricingAt : option time;
}.

(** The parameters of [selectAccountWithScheduler]. *)
Record schedule_args := mkArgs {
  sa_GroupID : option Z;
  sa_PreviousResponseID : string;
  sa_SessionHash : string;
  sa_RequestedModel : string;
  sa_ExcludedIDs : gset Z;
  sa_RequiredTransport : string;
  sa_RequiredCapability : string;
  sa_RequiredImageCapability : string;
  sa_RequireCompact : bool;
  sa_Platform : string;
  sa_PreviousResponseCanMove : bool;
  sa_UseUpstreamTokenCost : bool;
}.

(** Updates of the context. *)
Definition with_pause_settings (c : OCtx) (s : OpsOpenAIAccountQuotaAutoPauseSettings) : OCtx :=
  mkOCtx (oc_Models c) s (oc_Privacy c) (oc_Gate c) (oc_QuarantineBypass c) (oc_ForwardModel c) (oc_Guardian c).
Definition with_privacy (c : OCtx) (p : option (Z * bool)) : OCtx :=
  mkOCtx (oc_Models c) (oc_PauseSettings c) p (oc_Gate c) (oc_QuarantineBypass c) (oc_ForwardModel c) (oc_Guardian c).
Definition with_profit_gate (c : OCtx) (g : option openAIProfitControlGate) : OCtx :=
  mkOCtx (oc_Models c) (oc_PauseSettings c) (oc_Privacy c) g (oc_QuarantineBypass c) (oc_ForwardModel c) (oc_Guardian c).
Definition withOpenAIProxyStreamQuarantineBypass (c : OCtx) : OCtx :=
  mkOCtx (oc_Models c) (oc_PauseSettings c) (oc_Privacy c) (oc_Gate c) true (oc_ForwardModel c) (oc_Guardian c).

(** The context [e] with another [OCtx]. *)
Definition with_ctx (e : EntryCtx) (c : OCtx) : EntryCtx :=
  mkEntryCtx c (ec_Suppressed e) (ec_Group e) (ec_UserID e) (ec_PricingAt e).

(** [errors.Is] of the two errors of an exhausted pool. *)
Definition none_available (e : OSelectionError) : bool :=
  match e with
  | NoAvailableOpenAI _ | ErrNoAvailableCompactAccounts | ErrNoAvailable | ChannelRestricted _ => true
  | HydrationFailed | ListFailed | SlotFailed => false
  end.

Definition no_decision : OpenAIAccountScheduleDecision := mkDecision "" false false 0 0 0 f0 0 "".

(** The decision of the legacy selection, which names no account. *)
Definition legacy_decision : OpenAIAccountScheduleDecision := mkDecision LayerLoadBalance false false 0 0 0 f0 0 "".

Section Entry.
Context (opts : ModelMappingOptions) (tzdb : string -> option Location) (loc : Location) (svc : OServices).
(** Whether the settings service is configured. *)
Context (settingService : bool).
Context (grok_billing : Account -> option BillingSummary) (known_free : Account -> bool).
Context (grok_quota : Account -> option QuotaSnapshot).
Context (upstream_model : Account -> string -> bool -> string) (GroupIDs : Account -> list Z).
Context (log exp : f64 -> f64) (fresh_rate : time -> Account -> option f64).

(** ** The context of a selection *)

Definition withOpenAIQuotaAutoPauseContext (c : OCtx) : oprog OCtx :=
  if settingService then s ← odo GetQuotaAutoPauseSettings; Return (with_pause_settings c s) else Return c.

Definition withOpenAIGroupPrivacyRequirement (c : OCtx) (groupID : option Z) : oprog OCtx :=
  required ← loadOpenAIGroupRequiresPrivacySet svc groupID;
  Return (with_privacy c (Some (derefGroupID groupID, required))).

(** The group scheduled: that of the request, or read; errors are ignored. *)
Definition gate_group (e : EntryCtx) (gid : Z) : oprog (option Group) :=
  match valid_group_with_id (ec_Group e) gid with
  | Some g => Return (Some g)
  | None =>
      if os_schedulerSnapshot svc then r ← gdo (SnapshotGroupLite gid); Return (default None r) else Return None
  end.

Definition resolveOpenAIProfitControlGate (e : EntryCtx) (groupID : option Z) : oprog (option openAIProfitControlGate) :=
  match groupID with
  | None => Return None
  | Some gid =>
      if gid <=? 0 then Return None
      else
        g ← gate_group e gid;
        match g with
        | None => Return None
        | Some group =>
            if negb (ProfitControlEnabled group)
               || negb ((GPlatform group ==? PlatformOpenAI) || (GPlatform group ==? PlatformGrok))
            then Return None
            else
              pricingAt ← match ec_PricingAt e with Some t => Return t | None => gdo Now end;
              let billingGroup := default group (valid_group (ec_Group e)) in
              downstream ← (if 0 <? ec_UserID e
                            then gdo (ResolveUserGroupRateMultiplier (ec_UserID e) (GID billingGroup)
                                        (GRateMultiplier billingGroup))
                            else Return (GRateMultiplier billingGroup));
              let downstream := fmul downstream (PeakMultiplierAt loc billingGroup pricingAt) in
              Return (Some (mkGate gid (GPlatform group)
                (openai_threshold downstream (ProfitMinMargin group) (ProfitSafetyBuffer group)) pricingAt))
        end
  end.

Definition gate_is (c : OCtx) (gid : Z) : bool :=
  match oc_Gate c with Some g => gate_groupID g =? gid | None => false end.

Definition withOpenAIProfitControlGate (e : EntryCtx) (groupID : option Z) : oprog OCtx :=
  let c := ec_ctx e in
  if ec_Suppressed e then Return c
  else if match groupID with Some gid => gate_is c gid | None => false end then Return c
  else
    gate ← resolveOpenAIProfitControlGate e groupID;
    Return match gate, groupID with
           | Some gate, _ => with_profit_gate c (Some gate)
           | None, Some gid =>
               match oc_Gate c with
               | Some g => if negb (gate_groupID g =? gid) then with_profit_gate c None else c
               | None => c
               end
           | None, None => c
           end.

(** The account of the guarded parent, 0 if none; the cache also looks under
    the parent's legacy hash. *)
Definition resolveOpenAIGuardianParentAccountID (c : OCtx) (groupID : option Z) : oprog Z :=
  if negb (os_cache svc) then Return 0
  else
    match oc_Guardian c with
    | Some (current, _) =>
        if current ==? "" then Return 0
        else
          r ← odo (GetStickySession (derefGroupID groupID) current);
          let id := default 0 r in Return (if id <=? 0 then 0 else id)
    | None => Return 0
    end.

(** ** Without the scheduler *)

(** The account suits the transport and the capabilities. *)
Definition legacy_accepts (q : schedule_args) (a : Account) : bool :=
  ((sa_RequiredTransport q ==? OpenAIUpstreamTransportAny) || (sa_RequiredTransport q ==? OpenAIUpstreamTransportHTTPSSE)
   || isOpenAIAccountTransportCompatible (os_ws svc) a (sa_RequiredTransport q))
  && accountSupportsOpenAICapabilities grok_billing known_free a (sa_RequiredCapability q) (sa_RequiredImageCapability q).

Definition legacy_args (q : schedule_args) (platform sessionHash : string) (excluded : gset Z) : legacy_request :=
  mkLegacy (sa_GroupID q) platform sessionHash (sa_RequestedModel q) excluded (sa_RequireCompact q)
    (sa_RequiredCapability q) (sa_UseUpstreamTokenCost q).

Abbreviation load_aware := (selectAccountWithLoadAwareness opts tzdb svc grok_billing known_free grok_quota upstream_model
  GroupIDs fresh_rate).

Definition release_option (f : option ReleaseFunc) : oprog unit :=
  match f with Some f => release_slot f | None => Return tt end.

(** The loop of both branches: accounts are asked for until one is accepted;
    those refused are released and excluded.  [None] when out of fuel. *)
Fixpoint legacy_loop (fuel : nat) (c : OCtx) (q : schedule_args) (platform sessionHash : string)
    (effectiveExcludedIDs : gset Z) : oprog (option OSelected) :=
  match fuel with
  | O => Return None
  | Datatypes.S fuel =>
      r ← load_aware c (legacy_args q platform sessionHash effectiveExcludedIDs);
      match r with
      | Err e => Return (Some (Err e))
      | Ok sel =>
          if legacy_accepts q (sel_Account sel) then Return (Some (Ok sel))
          else
            _ ← release_option (sel_ReleaseFunc sel);
            if bool_decide (ID (sel_Account sel) ∈ effectiveExcludedIDs) then Return (Some (Err ErrNoAvailable))
            else legacy_loop fuel c q platform sessionHash ({[ID (sel_Account sel)]} ∪ effectiveExcludedIDs)
      end
  end.

(** The request of the session of a guarded parent, with statistics of its
    own. *)
Definition guardian_request (q : schedule_args) (platform : string) (parent : Z) (private : bool)
    : OpenAIAccountScheduleRequest :=
  mkScheduleRequest (sa_GroupID q) platform (sa_SessionHash q) parent 0 0 false false true private "" false false
    (sa_RequestedModel q) (sa_RequiredTransport q) (sa_RequiredCapability q) (sa_RequiredImageCapability q)
    (sa_RequireCompact q) (sa_ExcludedIDs q).

Definition guardian_parent (c : OCtx) (q : schedule_args) (platform : string) (parent : Z)
    : oprog (result OSelectionError (option AccountSelectionResult)) :=
  if parent <=? 0 then Return (Ok None)
  else
    blocked ← checkChannelPricingRestriction svc (sa_GroupID q) (sa_RequestedModel q);
    if (blocked : bool) then Return (Err (ChannelRestricted (sa_RequestedModel q)))
    else
      private ← openAIGroupRequiresPrivacySet svc c (sa_GroupID q);
      r ← selectBySessionHashWith opts tzdb svc grok_billing known_free grok_quota upstream_model GroupIDs
            (Return ∅) c (guardian_request q platform parent private);
      Return (Ok (fst r)).

(** The branch of [selectAccountWithSchedulerOnce] without a scheduler. *)
Definition select_legacy (fuel : nat) (c : OCtx) (q : schedule_args) (platform : string) (parent : Z)
    : oprog (option Decided) :=
  r ← guardian_parent c q platform parent;
  match r with
  | Err e => Return (Some (Err e, legacy_decision))
  | Ok (Some sel) =>
      let a := sel_Account sel in Return (Some (Ok (Some sel), sticky_decision LayerGuardianParent false true a))
  | Ok None =>
      let hash := if preserveOpenAIGuardianParentBinding c (sa_SessionHash q) then "" else sa_SessionHash q in
      r ← legacy_loop fuel c q platform hash (sa_ExcludedIDs q);
      Return match r with
             | None => None
             | Some (Ok sel) => Some (Ok (Some sel), legacy_decision)
             | Some (Err e) => Some (Err e, legacy_decision)
             end
  end.

(** ** With the scheduler *)

Abbreviation select :=
  (Select opts tzdb svc grok_billing known_free grok_quota upstream_model GroupIDs log exp fresh_rate).

(** The sticky account of the previous response, for a weighted request that
    may move. *)
Definition previous_account (c : OCtx) (q : schedule_args) (platform : string) (stickyWeighted : bool) : oprog Z :=
  if stickyWeighted && sa_PreviousResponseCanMove q && (TrimSpace (sa_PreviousResponseID q) !=? "")
     && (platform ==? PlatformOpenAI)
  then
    r ← resolveAccountByPreviousResponseIDForCapability opts tzdb svc grok_billing known_free GroupIDs c
          (sa_GroupID q) (sa_PreviousResponseID q) (sa_RequestedModel q) (sa_ExcludedIDs q) (sa_RequiredCapability q)
          (sa_RequireCompact q);
    Return (match r with Some (id, _, _) => id | None => 0 end)
  else Return 0.

Definition select_advanced (c : OCtx) (q : schedule_args) (platform : string) (parent : Z) : oprog Decided :=
  blocked ← checkChannelPricingRestriction svc (sa_GroupID q) (sa_RequestedModel q);
  if (blocked : bool) then Return (Err (ChannelRestricted (sa_RequestedModel q)), no_decision)
  else
    sticky ← read_sticky svc (sa_GroupID q) (sa_SessionHash q);
    s ← odo RuntimeSettings;
    let stickyWeighted := rt_enabled s && stickyWeightedEnabled s in
    s ← odo RuntimeSettings;
    let subscriptionPriority := rt_enabled s && subscriptionPriorityEnabled s in
    previous ← previous_account c q platform stickyWeighted;
    private ← openAIGroupRequiresPrivacySet svc c (sa_GroupID q);
    select c (mkScheduleRequest (sa_GroupID q) platform (sa_SessionHash q) (if 0 <? sticky then sticky else 0) parent
      previous stickyWeighted subscriptionPriority (preserveOpenAIGuardianParentBinding c (sa_SessionHash q)) private
      (sa_PreviousResponseID q) (sa_PreviousResponseCanMove q) (sa_UseUpstreamTokenCost q) (sa_RequestedModel q)
      (sa_RequiredTransport q) (sa_RequiredCapability q) (sa_RequiredImageCapability q) (sa_RequireCompact q)
      (sa_ExcludedIDs q)).

(** ** The entry *)

(** The context of [selectAccountWithSchedulerOnce]. *)
Definition once_ctx (e : EntryCtx) (q : schedule_args) : oprog OCtx :=
  c ← withOpenAIQuotaAutoPauseContext (ec_ctx e);
  c ← withOpenAIGroupPrivacyRequirement c (sa_GroupID q);
  if sa_RequiredImageCapability q ==? "" then withOpenAIProfitControlGate (with_ctx e c) (sa_GroupID q) else Return c.

Definition selectAccountWithSchedulerOnce (fuel : nat) (e : EntryCtx) (q : schedule_args) : oprog (option Decided) :=
  c ← once_ctx e q;
  let platform := NormalizeOpenAICompatiblePlatform (sa_Platform q) in
  parent ← (if TrimSpace (sa_PreviousResponseID q) ==? ""
            then resolveOpenAIGuardianParentAccountID c (sa_GroupID q) else Return 0);
  s ← odo RuntimeSettings;
  if rt_enabled s then r ← select_advanced c q platform parent; Return (Some r)
  else select_legacy fuel c q platform parent.

(** The second pass of [selectAccountWithScheduler]: an error of an exhausted
    pool is tried again without the quarantine, when a proxy is blocked. *)
Definition tries_again (e : EntryCtx) (q : schedule_args) (r : result OSelectionError (option AccountSelectionResult))
    : oprog bool :=
  match r with
  | Ok _ => Return false
  | Err err =>
      if oc_QuarantineBypass (ec_ctx e) || negb (none_available err)
         || (NormalizeOpenAICompatiblePlatform (sa_Platform q) !=? PlatformOpenAI)
      then Return false
      else now ← gdo Now; blocked ← odo (ActiveBlockCount now); Return (negb (blocked =? 0))
  end.

Definition selectAccountWithScheduler (fuel : nat) (e : EntryCtx) (q : schedule_args) : oprog (option Decided) :=
  r ← selectAccountWithSchedulerOnce fuel e q;
  match r with
  | None => Return None
  | Some d =>
      again ← tries_again e q (fst d);
      if (again : bool)
      then selectAccountWithSchedulerOnce fuel (with_ctx e (withOpenAIProxyStreamQuarantineBypass (ec_ctx e))) q
      else Return (Some d)
  end.

Definition image_args (groupID : option Z) (sessionHash requestedModel : string) (excludedIDs : gset Z)
    (capability : string) : schedule_args :=
  mkArgs groupID "" sessionHash requestedModel excludedIDs OpenAIUpstreamTransportHTTPSSE "" capability false
    PlatformOpenAI false false.

(** [OpenAIImagesCapability] *)
Definition OpenAIImagesCapabilityBasic := "images-basic".
Definition OpenAIImagesCapabilityNative := "images-native".

(** A native capability that no account has falls back to the basic one. *)
Definition SelectAccountWithSchedulerForImages (fuel : nat) (e : EntryCtx) (groupID : option Z)
    (sessionHash requestedModel : string) (excludedIDs : gset Z) (requiredCapability : string)
    : oprog (option Decided) :=
  r ← selectAccountWithScheduler fuel e (image_args groupID sessionHash requestedModel excludedIDs requiredCapability);
  match r with
  | Some (Ok (Some _), _) | None => Return r
  | _ =>
      if requiredCapability ==? OpenAIImagesCapabilityNative
      then selectAccountWithScheduler fuel e
             (image_args groupID sessionHash requestedModel excludedIDs OpenAIImagesCapabilityBasic)
      else Return r
  end.

(** The legacy entry of callers outside the scheduler. *)
Definition SelectAccountWithLoadAwareness (e : EntryCtx) (groupID : option Z) (sessionHash requestedModel : string)
    (excludedIDs : gset Z) : oprog OSelected :=
  c ← withOpenAIQuotaAutoPauseContext (ec_ctx e);
  c ← withOpenAIGroupPrivacyRequirement c groupID;
  c ← withOpenAIProfitControlGate (with_ctx e c) groupID;
  load_aware c (mkLegacy groupID PlatformOpenAI sessionHash requestedModel excludedIDs false "" true).
End Entry.
