(* ===== verification/OpenAIEntryTheorems.v ===== *)
(** * The entry of the OpenAI selection: the theorems

    Whichever selection serves a request, its answer accounts for every slot
    that was taken, suits the request, and comes after at most as many rounds
    as there are accounts. *)

From S2P Require Import Prelude GoSort GoStrings Float64 GoTime GoAny Account AccountProtocol ModelMapping AccountScheduling ModelAvailability GroupRouting GoProgram ConcurrencyCache GatewayCalls AccountOrder SelectionGates AccountSelectionProperties OpenAIQuota OpenAIRanking OpenAIRankingProperties OpenAICapabilities OpenAICalls OpenAIEligibility OpenAIScheduler OpenAISelect OpenAISchedulerProperties OpenAISelectProperties SelectionTheorems OpenAISelectTheorems OpenAILegacy OpenAILegacyProperties OpenAIEntry.
Local Open Scope Z_scope.

(** More accounts excluded, fewer offered. *)
Lemma answers_mono E c ex ex' sel : ex ⊆ ex' -> answers E c ex' sel -> answers E c ex sel.
Proof. intros Hsub [[He Hk] Hrest]. split; [split; [set_solver|done]|exact Hrest]. Qed.

#[local] Existing Instance anything.

Section Entry.
Context (opts : ModelMappingOptions) (tzdb : string -> option Location) (loc : Location) (svc : OServices) `{!ReadsAccounts svc}.
Context (settingService : bool).
Context (grok_billing : Account -> option BillingSummary) (known_free : Account -> bool).
Context (grok_quota : Account -> option QuotaSnapshot).
Context (upstream_model : Account -> string -> bool -> string) (GroupIDs : Account -> list Z).
Context (log exp : f64 -> f64) (fresh_rate : time -> Account -> option f64) (E : Env).

Abbreviation lreturns p P := (returns omove (oin E) p P).
Abbreviation lwp p g Q := (wp omove (oin E) p g Q).

(** An account that suits the transport and the capabilities asked for. *)
Definition suits (q : schedule_args) (a : Account) : Prop :=
  isOpenAIAccountTransportCompatible (os_ws svc) a (sa_RequiredTransport q) = true /\
  accountSupportsOpenAICapabilities grok_billing known_free a (sa_RequiredCapability q) (sa_RequiredImageCapability q) = true.

(** An answer of the entry, under some gate. *)
Definition entry_answer (q : schedule_args) (sel : AccountSelectionResult) : Prop :=
  suits q (sel_Account sel) /\ exists c, answers any_env c (sa_ExcludedIDs q) sel.

(** The rounds left are fewer than the accounts not excluded. *)
Definition out_of_fuel (fuel : nat) (excluded : gset Z) : Prop :=
  forall U : gset Z, (forall i, account_ok E i -> i ∈ U) -> (fuel <= size (U ∖ excluded))%nat.

Definition entry_post (fuel : nat) (q : schedule_args) (g : oghost) (r : option Decided) (g' : oghost) : Prop :=
  match r with
  | Some d => (forall sel, fst d = Ok (Some sel) -> entry_answer q sel) /\
              oheld g' = ok_slots (fst d) ++ oheld g /\ fst d <> Ok None
  | None => oheld g' = oheld g /\ out_of_fuel fuel (sa_ExcludedIDs q)
  end.

(** ** Without the scheduler *)

Lemma accepts_suits q a : legacy_accepts svc grok_billing known_free q a = true -> suits q a.
Proof.
  unfold legacy_accepts, suits. intros [Ht Hc]%andb_true_iff. split; [|exact Hc].
  apply orb_true_iff in Ht as [Ht|Ht]; [|exact Ht]. unfold isOpenAIAccountTransportCompatible. by rewrite Ht.
Qed.

(** What the loop leaves. *)
Definition loop_post (fuel : nat) (c : OCtx) (q : schedule_args) (excluded : gset Z) (g : oghost) (r : option OSelected)
    (g' : oghost) : Prop :=
  match r with
  | Some r => hands E c excluded g (some_result r) g' /\ forall sel, r = Ok sel -> suits q (sel_Account sel)
  | None => adds [] g g' /\ out_of_fuel fuel excluded
  end.

Lemma loop_post_next fuel c q ex i g r g' : offered E ex i ->
  loop_post fuel c q ({[i]} ∪ ex) g r g' -> loop_post (Datatypes.S fuel) c q ex g r g'.
Proof.
  intros [He Hk]. destruct r as [r|]; cbn.
  - intros [[Hw Ha] Hs]. split; [|exact Hs]. split; [|exact Ha]. intros sel Hsel.
    eapply answers_mono; [|by apply Hw]. set_solver.
  - intros [Ha Hu]. split; [exact Ha|]. intros U HU. specialize (Hu U HU).
    assert (Hsz : (size (U ∖ ({[i]} ∪ ex)) < size (U ∖ ex))%nat).
    { apply subset_size. split; [set_solver|]. intros Hsub. assert (Hi : i ∈ U ∖ ex) by (specialize (HU i Hk); set_solver).
      apply Hsub in Hi. set_solver. }
    lia.
Qed.

Lemma wp_legacy_loop fuel c q pf hash : forall ex g g', adds [] g g' ->
  lwp (legacy_loop opts tzdb svc grok_billing known_free grok_quota upstream_model GroupIDs fresh_rate fuel c q pf hash ex) g'
    (loop_post fuel c q ex g).
Proof.
  induction fuel as [|fuel IH]; intros ex g g' Hg; cbn [legacy_loop].
  { split; [done|]. intros U _. lia. }
  apply wp_bind. eapply wp_mono; [by apply wp_load_aware|]. intros r g2 Hr. cbv beta in Hr.
  apply (hands_trans _ _ _ _ _ _ _ Hg) in Hr. destruct r as [sel|e]; [|by split].
  destruct (legacy_accepts _ _ _ _ _) eqn:Ha.
  { split; [exact Hr|]. intros s [= <-]. by apply accepts_suits. }
  destruct Hr as [Hw [Hh Hd]]. specialize (Hw sel eq_refl) as [[Hex Hk] _].
  apply wp_bind, (wp_stronger _ _ _ (oin_ook E)), (wp_release_option _ g2 (oheld g)); [exact Hh|]. intros g3 H1 H2.
  rewrite bool_decide_eq_false_2 by exact Hex.
  eapply wp_mono; [apply IH; split; [exact H1|congruence]|]. intros r g4. by apply loop_post_next.
Qed.

(** An answer of the scheduler. *)
Lemma served_answer c q req sel :
  rq_RequiredTransport req = sa_RequiredTransport q -> rq_RequiredCapability req = sa_RequiredCapability q ->
  rq_RequiredImageCapability req = sa_RequiredImageCapability q -> rq_ExcludedIDs req = sa_ExcludedIDs q ->
  well_formed c (may_get opts svc grok_billing known_free c req) sel -> entry_answer q sel.
Proof.
  intros Ht Hc Hi He ([[Hts Hf] Hex] & Hg & Hrest). rewrite He in Hex. split.
  - split; [unfold isAccountTransportCompatible in Hts; by rewrite Ht in Hts|].
    destruct Hf as (_ & _ & _ & _ & Hcap & _). by rewrite Hc, Hi in Hcap.
  - exists c. split; [by split|]. split; [exact Hg|]. destruct (sel_Acquired sel); [exact Hrest|].
    destruct Hrest as (Hn & plan & Hp & Hid & _). split; [exact Hn|]. by exists plan.
Qed.

Lemma wp_guardian c q pf parent g :
  lwp (guardian_parent opts tzdb svc grok_billing known_free grok_quota upstream_model GroupIDs c q pf parent) g
    (fun r g' => (forall sel, r = Ok (Some sel) -> entry_answer q sel) /\ adds (ok_slots r) g g').
Proof.
  unfold guardian_parent. destruct (_ <=? _); [by split|].
  eapply wp_returns; [apply lifted, silent_pricing_restriction|]. intros [] _; [by split|].
  eapply wp_returns; [apply lifted, (silent_group_privacy omove)|]. intros private _.
  apply wp_bind, (wp_stronger _ _ _ (oin_ook E)). eapply wp_mono.
  - apply wp_session_hash_with; [done|]. by apply returns_Return.
  - intros r g' [Hw Ha]. split; [|exact Ha]. cbn. intros sel Hsel.
    apply (served_answer c q (guardian_request q pf parent private)); try done. by apply Hw.
Qed.

Lemma wp_select_legacy fuel c q pf parent g :
  lwp (select_legacy opts tzdb svc grok_billing known_free grok_quota upstream_model GroupIDs fresh_rate fuel c q pf parent) g
    (entry_post fuel q g).
Proof.
  unfold select_legacy. apply wp_bind. eapply wp_mono; [by apply wp_guardian|]. intros r g2 [Hw Ha].
  destruct r as [[sel|]|e]; cbn [wp].
  - split_and!; [|by destruct Ha|done]. cbn. intros s [= <-]. by apply Hw.
  - apply wp_bind. eapply wp_mono; [by apply wp_legacy_loop|].
    intros [[sel|e]|] g3 Hr; cbn in *.
    + destruct Hr as [[Hsel [Hh _]] Hs]. split_and!; [|exact Hh|done]. intros s [= <-]. split; [by apply Hs|].
      exists c. destruct (Hsel sel eq_refl) as [[Hex _] Hrest]. by split.
    + destruct Hr as [[_ [Hh _]] _]. by split_and!.
    + destruct Hr as [[Hh _] Hu]. by split.
  - split_and!; [done|by destruct Ha|done].
Qed.

(** ** With the scheduler *)

Lemma wp_select_advanced c q pf parent g :
  lwp (select_advanced opts tzdb svc grok_billing known_free grok_quota upstream_model GroupIDs log exp fresh_rate c q pf parent)
    g (fun d g' => entry_post 0 q g (Some d) g').
Proof.
  unfold select_advanced. eapply wp_returns; [apply lifted, silent_pricing_restriction|]. intros [] _; [by split_and!|].
  eapply wp_returns; [apply lifted, silent_read_sticky|]. intros sticky _.
  eapply wp_returns; [apply lifted; by oquiet_call|]. intros s _. cbv zeta.
  eapply wp_returns; [apply lifted; by oquiet_call|]. intros s' _. cbv zeta.
  eapply (wp_returns omove) with (P := fun _ => True).
  { unfold previous_account. destruct (_ && _); [|by apply returns_Return].
    eapply returns_bind; [apply lifted; by apply (returns_resolve_previous omove)|]. intros r _. by apply returns_Return. }
  intros previous _. eapply wp_returns; [apply lifted, (silent_group_privacy omove)|]. intros private _.
  apply (wp_stronger _ _ _ (oin_ook E)). eapply wp_mono; [by apply wp_select|].
  intros d g' (Hw & Hn & Hh & _). split_and!; [|exact Hh|exact Hn]. intros sel Hsel.
  eapply served_answer; [..|by apply Hw]; done.
Qed.

(** ** The entry *)

Lemma silent_gate e g : osilent omove (withOpenAIProfitControlGate loc svc e g).
Proof.
  unfold withOpenAIProfitControlGate, resolveOpenAIProfitControlGate, gate_group. cbv zeta.
  destruct (ec_Suppressed e); [by apply returns_Return|]. destruct (match g with Some _ => _ | None => _ end); [by apply returns_Return|].
  osilently.
Qed.

Lemma silent_once_ctx e q : osilent omove (once_ctx loc svc settingService e q).
Proof.
  unfold once_ctx, withOpenAIQuotaAutoPauseContext, withOpenAIGroupPrivacyRequirement, loadOpenAIGroupRequiresPrivacySet.
  apply (returns_bind _ _ _ _ (fun _ => True)); [osilently|]. intros c _.
  apply (returns_bind _ _ _ _ (fun _ => True)); [osilently|]. intros c' _.
  destruct (_ ==? _); [apply silent_gate|by apply returns_Return].
Qed.

Lemma silent_guardian_id c g : osilent omove (resolveOpenAIGuardianParentAccountID svc c g).
Proof. unfold resolveOpenAIGuardianParentAccountID. osilently. Qed.

Abbreviation once := (selectAccountWithSchedulerOnce opts tzdb loc svc settingService grok_billing known_free grok_quota
  upstream_model GroupIDs log exp fresh_rate).

Lemma wp_once fuel e q g : lwp (once fuel e q) g (entry_post fuel q g).
Proof.
  unfold selectAccountWithSchedulerOnce. eapply wp_returns; [apply lifted, silent_once_ctx|]. intros c _. cbv zeta.
  eapply (wp_returns omove) with (P := fun _ => True).
  { destruct (_ ==? _); [apply lifted, silent_guardian_id|by apply returns_Return]. }
  intros parent _. eapply wp_returns; [apply lifted; by oquiet_call|]. intros s _.
  destruct (rt_enabled s); [|apply wp_select_legacy]. apply wp_bind. eapply wp_mono; [by apply wp_select_advanced|]. done.
Qed.

Abbreviation entry := (selectAccountWithScheduler opts tzdb loc svc settingService grok_billing known_free grok_quota
  upstream_model GroupIDs log exp fresh_rate).

(** Only an error is tried again. *)
Lemma returns_tries_again e q r :
  returns omove ook (tries_again e q r) (fun b => b = true -> exists err, r = Err err /\ none_available err = true).
Proof.
  unfold tries_again. destruct r as [o|err]; [by apply returns_Return|]. destruct (_ || _) eqn:He; [by apply returns_Return|].
  apply orb_false_iff in He as [[_ He%negb_false_iff]%orb_false_iff _].
  eapply returns_bind; [oquiet_call; exact (fun _ _ => I)|]. intros now _.
  eapply returns_bind; [oquiet_call; exact (fun _ _ => I)|]. intros n _. apply returns_Return. intros _. by exists err.
Qed.

Lemma wp_entry fuel e q g : lwp (entry fuel e q) g (entry_post fuel q g).
Proof.
  unfold selectAccountWithScheduler. apply wp_bind. eapply wp_mono; [by apply wp_once|]. intros [d|] g2 Hd; [|exact Hd].
  eapply wp_returns; [apply lifted, returns_tries_again|]. intros [] Ha; [|exact Hd].
  destruct (Ha eq_refl) as (err & Herr & _). destruct Hd as (_ & Hh & _). rewrite Herr in Hh. cbn in Hh.
  eapply wp_mono; [by apply wp_once|]. intros r g3. unfold entry_post. by rewrite Hh.
Qed.
End Entry.

(** ** A concrete environment

    The accounts of OSample with the scheduler off, asked for over a
    transport; none of them has the second one. *)
Module ESample.
Definition ctx : EntryCtx := mkEntryCtx OSample.ctx false None 0 None.

Definition args (transport : string) : schedule_args :=
  mkArgs (Some 7) "" "session" "" {[13]} transport "" "" false PlatformOpenAI false false.

Definition any := OpenAIUpstreamTransportAny.
Definition websocket := OpenAIUpstreamTransportResponsesWebsocketV2.

Definition entry (fuel : nat) (transport : string) : oprog (option Decided) :=
  selectAccountWithScheduler Sample.opts Sample.zones UTC OSample.svc true OSample.billing OSample.free OSample.quota
    OSample.upstream OSample.groups OSample.ident OSample.ident OSample.rate fuel ctx (args transport).

(** The accounts of the sample. *)
Definition env : Env := mkEnv (fun _ => True) (fun id => id ∈ ({[11; 12; 13]} : gset Z)) (fun _ => True).
End ESample.

Section Theorems.
Context (opts : ModelMappingOptions) (tzdb : string -> option Location) (loc : Location) (svc : OServices) `{!ReadsAccounts svc}.
Context (settingService : bool).
Context (billing : Account -> option BillingSummary) (free : Account -> bool).
Context (quota : Account -> option QuotaSnapshot).
Context (upstream : Account -> string -> bool -> string) (groups : Account -> list Z).
Context (log exp : f64 -> f64) (rate : time -> Account -> option f64).

Abbreviation entry := (selectAccountWithScheduler opts tzdb loc svc settingService billing free quota upstream groups
  log exp rate).

(** C6: in a service that reads accounts from a snapshot or a repository,
    whichever selection serves a request, the advanced scheduler or the older
    one with its rounds and its second pass without the quarantine, and
    whatever the environment answers, the entry never panics; an account
    comes with exactly the slot it hands over, or with a wait plan for it and
    no slot, was not excluded, and suits the transport and the capabilities
    asked for; the accounts that were refused on the way were released, and
    an error leaves no slot taken. *)
Theorem openai_entry_settles fuel e q tr d
    (Hreplies : replies ook tr) (Hrun : runs (entry fuel e q) tr (Some d)) :
  ~ panics ook (entry fuel e q) /\
  oheld (after omove tr started) = ok_slots (fst d) /\ fst d <> Ok None /\
  (forall sel, fst d = Ok (Some sel) ->
     suits svc billing free q (sel_Account sel) /\ exists c, answers any_env c (sa_ExcludedIDs q) sel).
Proof.
  pose proof (wp_stronger _ _ _ ook_oin _ _ _
    (wp_entry opts tzdb loc svc settingService billing free quota upstream groups log exp rate any_env fuel e q started)) as H.
  split; [by eapply wp_no_panic|].
  destruct (wp_runs _ _ _ _ _ _ _ H Hreplies Hrun) as (Hw & Hh & Hn).
  split; [by rewrite Hh, app_nil_r|]. by split.
Qed.

(** C7: when the accounts the environment knows are finitely many, the fuel
    exceeds the number of those not excluded, and the service reads accounts
    from a snapshot or a repository, the entry never panics and
    always answers: every round of the older selection excludes one more
    account, so that no account is tried forever. *)
Theorem openai_entry_answers E (U : gset Z) fuel e q :
  (forall i, account_ok E i -> i ∈ U) -> (size (U ∖ sa_ExcludedIDs q) < fuel)%nat ->
  ~ panics (oin E) (entry fuel e q) /\
  forall tr r, replies (oin E) tr -> runs (entry fuel e q) tr r -> exists d, r = Some d.
Proof.
  intros HU Hf.
  pose proof (wp_entry opts tzdb loc svc settingService billing free quota upstream groups log exp rate E fuel e q started) as H.
  split; [by eapply wp_no_panic|]. intros tr r Hok Hr.
  pose proof (wp_runs _ _ _ _ _ _ _ H Hok Hr) as Hp. destruct r as [d|]; [eauto|].
  destruct Hp as [_ Hp]. specialize (Hp U HU). lia.
Qed.
End Theorems.

(** Account 12 is busy, so that 11 answers. *)
Lemma openai_entry_settles_witness :
  let p := ESample.entry 3 ESample.any in
  exists d : Decided, OSample.chosen (Some d) = Some (11, [11]) /\
    oheld (after omove (OSample.trace {[12]} p) started) = ok_slots (fst d).
Proof.
  intros p.
  assert (Hc : OSample.chosen (default None (OSample.outcome {[12]} p)) = Some (11, [11])) by (by vm_compute).
  destruct (OSample.outcome {[12]} p) as [[d|]|] eqn:E; [|discriminate..].
  exists d. split; [exact Hc|].
  destruct (exec_osample _ _ _ E) as [Hr Hok].
  apply (openai_entry_settles Sample.opts Sample.zones UTC OSample.svc true OSample.billing OSample.free OSample.quota
    OSample.upstream OSample.groups OSample.ident OSample.ident OSample.rate 3 ESample.ctx (ESample.args ESample.any) _ d Hok Hr).
Defined.

(** Over a transport that 11 and 12 lack, both are refused; the third round
    finds none. *)
Lemma openai_entry_answers_witness :
  ~ panics (oin ESample.env) (ESample.entry 3 ESample.websocket) /\
  OSample.outcome ∅ (ESample.entry 3 ESample.websocket) =
    Some (Some (Err (NoAvailableOpenAI "no available OpenAI accounts (pool=3, filtered: excluded=3)"), legacy_decision)).
Proof.
  split; [|by vm_compute].
  apply (openai_entry_answers Sample.opts Sample.zones UTC OSample.svc true OSample.billing OSample.free OSample.quota
    OSample.upstream OSample.groups OSample.ident OSample.ident OSample.rate ESample.env {[11; 12; 13]}); [by intros|].
  vm_compute. lia.
Defined.
