(* ===== verification/OpenAIModelTransient.v ===== *)
(** * The circuit of an account's models

    [openai_account_model_transient.go]: an account whose model failed twice in
    a row is not asked for that model for a while.  Every operation runs under
    the mutex of the state, so that an operation is one step; the readings of
    the clock are arguments.  The search for the entry touched longest ago
    visits a Go map, in an order given by [iter]. *)

From S2P Require Import Prelude GoTime Account.
Local Open Scope Z_scope.

Definition openAIModelTransientStreakTTL : duration := 30 * minute.
Definition openAIModelTransientShortCooldown : duration := 10 * second.
Definition openAIModelTransientLongCooldown : duration := 45 * second.
Definition openAIModelTransientDefaultMax : Z := 4096.
Definition openAIModelTransientMaxModelBytes : nat := 512.

(** [openAIAccountModelTransientEntry]. *)
Record entry := mkEntry {
  failureStreak : Z;
  lastFailure : time;
  blockUntil : time;
  lastTouched : time;
}.

(** [openAIAccountModelTransientDecision]. *)
Record decision := mkDecision { FailureStreak : Z; Cooldown : duration; BlockUntil : time }.

Definition zero_decision : decision := mkDecision 0 0 zero_time.

Definition normalizeOpenAIAccountModelTransientModel (model : string) : string :=
  let model := TrimSpace model in
  if (openAIModelTransientMaxModelBytes <? Strings.String.length model)%nat then "" else ToLower model.

Definition key : Type := Z * string.

Definition openAIAccountModelTransientKey (accountID : Z) (model : string) : option key :=
  let model := normalizeOpenAIAccountModelTransientModel model in
  if (accountID <=? 0) || (model ==? "") then None else Some (accountID, model).

Abbreviation entries := (gmap key entry).

Section State.
Context (maxEntries : Z) (iter : entries -> list (key * entry)).

Definition older (oldest : option (key * time)) (kv : key * entry) : option (key * time) :=
  match oldest with
  | None => Some (kv.1, lastTouched kv.2)
  | Some (_, t) => if Before (lastTouched kv.2) t then Some (kv.1, lastTouched kv.2) else oldest
  end.

Definition evictOldestLocked (m : entries) : entries :=
  if Z.of_nat (size m) <? maxEntries then m
  else match foldl older None (iter m) with Some (k, _) => delete k m | None => m end.

(** The streak goes on. *)
Definition goes_on (now : time) (e : option entry) : bool :=
  match e with
  | Some e => negb (IsZero (lastFailure e) || (openAIModelTransientStreakTTL <? Sub now (lastFailure e))
                    || Before now (lastFailure e))
  | None => false
  end.

Definition cooldown_of (streak : Z) : duration :=
  if 3 <=? streak then openAIModelTransientLongCooldown
  else if streak =? 2 then openAIModelTransientShortCooldown else 0.

Definition failed (now : time) (e : option entry) : entry :=
  let streak := (if goes_on now e then match e with Some e => failureStreak e | None => 0 end else 0) + 1 in
  let cooldown := cooldown_of streak in
  mkEntry streak now (if 0 <? cooldown then now + cooldown else zero_time) now.

(** [now] is not the zero time. *)
Definition recordFailure (accountID : Z) (model : string) (now : time) (m : entries) : decision * entries :=
  match openAIAccountModelTransientKey accountID model with
  | None => (zero_decision, m)
  | Some k =>
      let e := m !! k in
      let m := match e with Some _ => m | None => evictOldestLocked m end in
      let e := failed now e in
      (mkDecision (failureStreak e) (cooldown_of (failureStreak e)) (blockUntil e), <[k := e]> m)
  end.

Definition recordSuccess (accountID : Z) (model : string) (m : entries) : entries :=
  match openAIAccountModelTransientKey accountID model with Some k => delete k m | None => m end.

Definition isBlocked (accountID : Z) (model : string) (now : time) (m : entries) : bool * entries :=
  match openAIAccountModelTransientKey accountID model with
  | None => (false, m)
  | Some k =>
      match m !! k with
      | None => (false, m)
      | Some e =>
          if negb (IsZero (lastFailure e)) && (openAIModelTransientStreakTTL <? Sub now (lastFailure e))
          then (false, delete k m)
          else (negb (IsZero (blockUntil e)) && Before now (blockUntil e),
                <[k := mkEntry (failureStreak e) (lastFailure e) (blockUntil e) now]> m)
      end
  end.

Inductive op :=
| Failure (accountID : Z) (model : string) (now : time)
| Success (accountID : Z) (model : string)
| Ask (accountID : Z) (model : string) (now : time).

Definition apply (m : entries) (o : op) : entries :=
  match o with
  | Failure i model now => (recordFailure i model now m).2
  | Success i model => recordSuccess i model m
  | Ask i model now => (isBlocked i model now m).2
  end.

Definition run (ops : list op) : entries := foldl apply ∅ ops.
End State.

Definition newOpenAIAccountModelTransientState (maxEntries : Z) : Z :=
  if maxEntries <=? 0 then openAIModelTransientDefaultMax else maxEntries.
