(* ===== verification/OpenAIModelTransientProperties.v ===== *)
(** * The circuit of an account's models: the theorem

    A model of an account is cooled down only after failures in a row, and for
    as long as their number says; the table stays within its size. *)

From S2P Require Import Prelude GoTime Account OpenAIModelTransient.
Local Open Scope Z_scope.

(** The failures of a pair since its last success, latest first. *)
Definition note_pair (k : key) (acc : list time) (o : op) : list time :=
  match o with
  | Failure i model t => if bool_decide (openAIAccountModelTransientKey i model = Some k) then t :: acc else acc
  | Success i model => if bool_decide (openAIAccountModelTransientKey i model = Some k) then [] else acc
  | Ask _ _ _ => acc
  end.

Definition failures_in_a_row (k : key) (ops : list op) : list time := foldl (note_pair k) [] ops.

(** Each follows the one before within the life of a streak. *)
Fixpoint streak_of (ts : list time) : Prop :=
  match ts with
  | t' :: ts' => match ts' with t :: _ => t <= t' /\ Sub t' t <= openAIModelTransientStreakTTL | [] => True end
                 /\ streak_of ts'
  | [] => True
  end.

(** The failures an entry stands for. *)
Record stands_for (fails : list time) (e : entry) (ts : list time) : Prop := {
  sf_prefix : ts `prefix_of` fails;
  sf_length : Z.of_nat (length ts) = failureStreak e;
  sf_streak : streak_of ts;
  sf_last : head ts = Some (lastFailure e);
  sf_block : blockUntil e =
    if 0 <? cooldown_of (failureStreak e) then lastFailure e + cooldown_of (failureStreak e) else zero_time;
}.

Definition earned (fails : list time) (e : entry) : Prop := exists ts, stands_for fails e ts.

Lemma earned_touch fails e now : earned fails e ->
  earned fails (mkEntry (failureStreak e) (lastFailure e) (blockUntil e) now).
Proof. intros [ts []]. exists ts. by constructor. Qed.

(** A failure goes on with the streak or starts one. *)
Lemma earned_failed fails e now : (forall e', e = Some e' -> earned fails e') -> earned (now :: fails) (failed now e).
Proof.
  intros He. unfold failed. destruct (goes_on now e) eqn:G.
  - destruct e as [e|]; [|done]. destruct (He e eq_refl) as [ts [H1 H2 H3 H4 H5]]. exists (now :: ts).
    constructor; cbn [failureStreak lastFailure blockUntil length head]; try done; [by apply prefix_cons|lia|].
    split; [|exact H3]. destruct ts as [|t ts]; [done|]. injection H4 as ->.
    unfold goes_on, Before in G. rewrite negb_true_iff, !orb_false_iff in G. lia.
  - exists [now]. constructor; try done. apply prefix_cons, prefix_nil.
Qed.

Section Table.
Context (n : Z) (iter : entries -> list (key * entry)).
Hypothesis iter_perm : forall m, iter m ≡ₚ map_to_list m.
Abbreviation maxEntries := (newOpenAIAccountModelTransientState n).

Definition all_earned (fails : key -> list time) (m : entries) : Prop := map_Forall (fun k e => earned (fails k) e) m.

Lemma evict_sub m : evictOldestLocked maxEntries iter m ⊆ m.
Proof.
  unfold evictOldestLocked. destruct (_ <? _); [done|]. destruct (foldl _ _ _) as [[k t]|]; [apply delete_subseteq|done].
Qed.

(** Another pair's entry is not concerned. *)
Lemma note_other k i model o :
  match o with Failure j mo _ | Success j mo => (j, mo) = (i, model) | Ask _ _ _ => True end ->
  openAIAccountModelTransientKey i model <> Some k -> forall acc, note_pair k acc o = acc.
Proof. intros Ho Hk acc. destruct o; cbn; simplify_eq; try done; by rewrite bool_decide_eq_false_2. Qed.

Lemma earned_apply fails m o : all_earned fails m ->
  all_earned (fun k => note_pair k (fails k) o) (apply maxEntries iter m o).
Proof.
  intros Hm. destruct o as [i model now|i model|i model now]; cbn [apply].
  - unfold recordFailure. destruct (openAIAccountModelTransientKey i model) as [k|] eqn:Hk.
    2:{ intros k' e He. rewrite (note_other k' i model) by (done || congruence). by apply (Hm k'). }
    cbv zeta. cbn [snd]. intros k' e He. rewrite lookup_insert_Some in He. destruct He as [[<- <-]|[Hne He]].
    + cbn. rewrite bool_decide_eq_true_2 by done. apply earned_failed. intros e'. apply Hm.
    + rewrite (note_other k' i model) by (done || congruence). apply (Hm k'). eapply lookup_weaken; [exact He|].
      destruct (m !! k); [done|apply evict_sub].
  - unfold recordSuccess. destruct (openAIAccountModelTransientKey i model) as [k|] eqn:Hk;
      intros k' e He; [apply lookup_delete_Some in He as [Hne He]|];
      (rewrite (note_other k' i model) by (done || congruence)); by apply (Hm k').
  - unfold isBlocked. destruct (openAIAccountModelTransientKey i model) as [k|]; [|done].
    destruct (m !! k) as [e|] eqn:Ek; [|done]. destruct (_ && _); cbn [snd]; intros k' e' He.
    + apply lookup_delete_Some in He as [_ He]. by apply (Hm k').
    + rewrite lookup_insert_Some in He. destruct He as [[<- <-]|[_ He]]; [by apply earned_touch, (Hm k)|by apply (Hm k')].
Qed.

Lemma earned_run ops : all_earned (fun k => failures_in_a_row k ops) (run maxEntries iter ops).
Proof.
  induction ops as [|o ops IH] using rev_ind; [apply map_Forall_empty|].
  unfold run. rewrite foldl_snoc. intros k e He. unfold failures_in_a_row. rewrite foldl_snoc.
  by apply (earned_apply (fun k => failures_in_a_row k ops) _ o IH k e).
Qed.

(** *** Its size *)

Lemma max_positive : 0 < maxEntries.
Proof. unfold newOpenAIAccountModelTransientState, openAIModelTransientDefaultMax. case_match; lia. Qed.

(** The scan of a table that is not empty finds one of its entries. *)
Lemma older_found l : forall kt, exists kt', foldl older (Some kt) l = Some kt' /\
  (kt' = kt \/ exists kv, kv ∈ l /\ kt'.1 = kv.1).
Proof.
  induction l as [|kv l IH]; intros [k t]; cbn [foldl older]; [eauto|].
  destruct (Before _ _); [destruct (IH (kv.1, lastTouched kv.2)) as (kt & -> & [->|(kv' & Hin & Hk)])
                         |destruct (IH (k, t)) as (kt & -> & [->|(kv' & Hin & Hk)])]; eexists; (split; [done|]); auto;
    right; eexists; (split; [by (right; apply Hin) || by left|done]).
Qed.

Lemma evict_makes_room m : Z.of_nat (size m) <= maxEntries -> Z.of_nat (size (evictOldestLocked maxEntries iter m)) < maxEntries.
Proof.
  pose proof max_positive. intros Hs. unfold evictOldestLocked.
  destruct (Z.ltb_spec (Z.of_nat (size m)) maxEntries); [done|]. pose proof (iter_perm m) as Hp.
  destruct (iter m) as [|kv l] eqn:Hi.
  { apply Permutation_length in Hp. rewrite length_map_to_list in Hp. cbn in Hp. lia. }
  cbn [foldl older]. destruct (older_found l (kv.1, lastTouched kv.2)) as ([k t] & -> & Hk).
  assert (Hin : exists e, (k, e) ∈ kv :: l).
  { destruct Hk as [[= -> ->]|([k' e'] & Hin & Hk)]; [exists kv.2; destruct kv; by left|].
    exists e'. right. cbn in Hk. by rewrite Hk. }
  destruct Hin as [e Hin]. rewrite Hp, elem_of_map_to_list in Hin.
  rewrite map_size_delete_Some by (by exists e). lia.
Qed.

Lemma table_size m o : Z.of_nat (size m) <= maxEntries -> Z.of_nat (size (apply maxEntries iter m o)) <= maxEntries.
Proof.
  intros Hs. assert (Hdel : forall k, (size (delete k m) <= size m)%nat) by (intros k; apply map_subseteq_size, delete_subseteq).
  destruct o as [i model now|i model|i model now]; cbn [apply].
  - unfold recordFailure. destruct (openAIAccountModelTransientKey i model) as [k|]; [|done]. cbv zeta. cbn [snd].
    destruct (m !! k) as [e|] eqn:Ek; [by rewrite map_size_insert_Some by (by exists e)|].
    assert (Hk : evictOldestLocked maxEntries iter m !! k = None).
    { rewrite eq_None_not_Some. intros [e He]. apply (lookup_weaken _ m) in He; [congruence|apply evict_sub]. }
    rewrite map_size_insert_None by done. pose proof (evict_makes_room m Hs). lia.
  - unfold recordSuccess. destruct (openAIAccountModelTransientKey i model) as [k|]; [|done]. specialize (Hdel k). lia.
  - unfold isBlocked. destruct (openAIAccountModelTransientKey i model) as [k|]; [|done].
    destruct (m !! k) as [e|] eqn:Ek; [|done]. destruct (_ && _); cbn [snd]; [specialize (Hdel k); lia|].
    by rewrite map_size_insert_Some by (by exists e).
Qed.

Lemma run_table_size ops : Z.of_nat (size (run maxEntries iter ops)) <= maxEntries.
Proof.
  induction ops as [|o ops IH] using rev_ind; [pose proof max_positive; unfold run; cbn [foldl]; rewrite map_size_empty; lia|].
  unfold run. rewrite foldl_snoc. by apply table_size.
Qed.
End Table.

(** The cooldowns, by the number of failures. *)
Lemma cooldown_by_length (n : nat) :
  (n < 2)%nat /\ cooldown_of (Z.of_nat n) = 0 \/
  (2 <= n)%nat /\ cooldown_of (Z.of_nat n) = (if (n =? 2)%nat then 10 * second else 45 * second) /\
  (0 <? cooldown_of (Z.of_nat n)) = true.
Proof.
  destruct n as [|[|[|n]]]; [left; split; [lia|done]..|right; by split_and!; [lia| |]|right].
  assert (cooldown_of (Z.of_nat (S (S (S n)))) = 45 * second) as ->; [|split_and!; [lia|done..]].
  unfold cooldown_of. by rewrite (proj2 (Z.leb_le 3 _)) by lia.
Qed.

(** C12: whatever concurrent requests report and ask, under any spelling of a
    model, and in whatever order Go visits the table, a model of an account is
    cooled down only when its last two reports or more were failures, none more
    than the life of a streak after the one before, and for ten seconds after
    the second, forty-five after a later one; and the table stays within its
    size. *)
Theorem model_cooldown_earned n iter ops account model now :
  (forall m, iter m ≡ₚ map_to_list m) ->
  let m := run (newOpenAIAccountModelTransientState n) iter ops in
  Z.of_nat (size m) <= newOpenAIAccountModelTransientState n /\
  ((isBlocked account model now m).1 = true ->
   exists k ts last, openAIAccountModelTransientKey account model = Some k /\
     ts `prefix_of` failures_in_a_row k ops /\ (2 <= length ts)%nat /\ streak_of ts /\ head ts = Some last /\
     now < last + (if (length ts =? 2)%nat then 10 * second else 45 * second)).
Proof.
  intros Hiter m. split; [by apply run_table_size|]. unfold isBlocked.
  destruct (openAIAccountModelTransientKey account model) as [k|]; [|done].
  destruct (m !! k) as [e|] eqn:He; [|done]. destruct (_ && _); [done|]. cbn [fst]. intros Hb.
  destruct (earned_run n iter ops k e He) as [ts [H1 H2 H3 H4 H5]].
  unfold IsZero, Before in Hb. rewrite H5, <- H2 in Hb.
  apply andb_true_iff in Hb as [Hz Hb]. apply negb_true_iff, Z.eqb_neq in Hz. apply Z.ltb_lt in Hb.
  destruct (cooldown_by_length (length ts)) as [[_ Hc]|(Hn & Hc & Hp)]; [by rewrite Hc in Hz|].
  rewrite Hp, Hc in Hb. exists k, ts, (lastFailure e). by split_and!.
Qed.

(** Two failures, whatever the spelling of the model, and a question within ten
    seconds of the second. *)
Lemma model_cooldown_earned_witness :
  let ops := [Failure 7 "gpt-5" second; Failure 8 "gpt-5" second; Failure 7 " GPT-5 " (600 * second)] in
  let m := run (newOpenAIAccountModelTransientState 0) map_to_list ops in
  (isBlocked 8 "gpt-5" (2 * second) m).1 = false /\
  exists k ts last, openAIAccountModelTransientKey 7 "gpt-5" = Some k /\
    ts `prefix_of` failures_in_a_row k ops /\ (2 <= length ts)%nat /\ streak_of ts /\ head ts = Some last /\
    609 * second < last + (if (length ts =? 2)%nat then 10 * second else 45 * second).
Proof.
  intros ops m. split; [by vm_compute|].
  apply (model_cooldown_earned 0 map_to_list ops 7 "gpt-5" (609 * second)); [done|by vm_compute].
Defined.
