(* ===== verification/OpenAICircuits.v ===== *)
(** * The in-memory circuits of the OpenAI scheduler

    What the scheduler asks about proxies, accounts and models while it
    selects: [openai_proxy_stream_circuit.go],
    [openai_account_runtime_block_fastpath.go] (with the undo of
    [grok_credential_failure.go]), [grok_model_quota_block.go] and
    [grok_team_rate_limit.go].  The one of an account's models is in
    OpenAIModelTransient.  Every operation runs under a mutex, the
    runtime blocks under one per account, so that an operation is one step; the
    readings of the clock are arguments.

    A loop over a Go map visits its entries in any order: the loops whose
    result depends on it take the order from [iter]. *)

From S2P Require Import Prelude GoTime Account.
Local Open Scope Z_scope.

(** ** Proxies *)

Module ProxyCircuit.

Definition defaultOpenAIProxyStreamFailureThreshold : Z := 2.
Definition defaultOpenAIProxyStreamFailureWindow : duration := minute.
Definition defaultOpenAIProxyStreamQuarantineTTL : duration := 10 * minute.
Definition defaultOpenAIProxyStreamCircuitMaxEntries : Z := 4096.
Definition defaultOpenAIProxyStreamFailureCollapse : duration := 3 * second.

(** [openAIProxyStreamCircuitSettings]. *)
Record settings := mkSettings {
  disabled : bool;
  failureThreshold : Z;
  failureWindow : duration;
  quarantineTTL : duration;
  collapseInterval : duration;
  maxEntries : Z;
}.

(** [openAIProxyStreamCircuitEntry], the zero value first. *)
Record entry := mkEntry {
  failureCount : Z;
  windowStart : time;
  lastFailureAt : time;
  blockedUntil : time;
  lastTouched : time;
}.

Definition zero_entry : entry := mkEntry 0 zero_time zero_time zero_time zero_time.

(** [config.GatewayOpenAIProxyStreamCircuitConfig]. *)
Record config := mkConfig { Disabled : bool; FailureThreshold : Z; WindowSeconds : Z; TTLSeconds : Z }.

(** [time.Duration(n) * time.Second]. *)
Definition seconds_of (n : Z) : duration := wrap64 (n * second).

Definition resolveOpenAIProxyStreamCircuitSettings (cfg : option config) : settings :=
  match cfg with
  | None => mkSettings false defaultOpenAIProxyStreamFailureThreshold defaultOpenAIProxyStreamFailureWindow
      defaultOpenAIProxyStreamQuarantineTTL defaultOpenAIProxyStreamFailureCollapse
      defaultOpenAIProxyStreamCircuitMaxEntries
  | Some cfg => mkSettings (Disabled cfg)
      (if 0 <? FailureThreshold cfg then FailureThreshold cfg else defaultOpenAIProxyStreamFailureThreshold)
      (if 0 <? WindowSeconds cfg then seconds_of (WindowSeconds cfg) else defaultOpenAIProxyStreamFailureWindow)
      (if 0 <? TTLSeconds cfg then seconds_of (TTLSeconds cfg) else defaultOpenAIProxyStreamQuarantineTTL)
      defaultOpenAIProxyStreamFailureCollapse defaultOpenAIProxyStreamCircuitMaxEntries
  end.

(** The settings [newOpenAIProxyStreamCircuit] keeps. *)
Definition newOpenAIProxyStreamCircuit (s : settings) : settings :=
  mkSettings (disabled s)
    (if failureThreshold s <=? 0 then defaultOpenAIProxyStreamFailureThreshold else failureThreshold s)
    (if failureWindow s <=? 0 then defaultOpenAIProxyStreamFailureWindow else failureWindow s)
    (if quarantineTTL s <=? 0 then defaultOpenAIProxyStreamQuarantineTTL else quarantineTTL s)
    (if collapseInterval s <? 0 then 0 else collapseInterval s)
    (if maxEntries s <=? 0 then defaultOpenAIProxyStreamCircuitMaxEntries else maxEntries s).

Abbreviation entries := (gmap Z entry).

Section Circuit.
Context (cfg : settings) (iter : entries -> list (Z * entry)).

(** What the pruning drops. *)
Definition staleObservation (now : time) (e : entry) : bool :=
  IsZero (blockedUntil e) && (failureWindow cfg <? Sub now (lastTouched e)).
Definition expiredQuarantine (now : time) (e : entry) : bool :=
  negb (IsZero (blockedUntil e)) && negb (Before now (blockedUntil e)).

Definition prune (now : time) (m : entries) : entries :=
  base.filter (fun kv => (staleObservation now kv.2 || expiredQuarantine now kv.2) = false) m.

(** The scan for the entry touched longest ago. *)
Definition older (oldest : Z * time) (kv : Z * entry) : Z * time :=
  if (oldest.1 =? 0) || Before (lastTouched kv.2) oldest.2 then (kv.1, lastTouched kv.2) else oldest.

Definition ensureCapacityLocked (now : time) (m : entries) : entries :=
  if Z.of_nat (size m) <? maxEntries cfg then m
  else
    let m := prune now m in
    if Z.of_nat (size m) <? maxEntries cfg then m
    else
      let oldestProxyID := (foldl older (0, zero_time) (iter m)).1 in
      if 0 <? oldestProxyID then delete oldestProxyID m else m.

Definition touch (now : time) (e : entry) : entry :=
  mkEntry (failureCount e) (windowStart e) (lastFailureAt e) (blockedUntil e) now.

(** A window that is over, or starts after [now], starts again. *)
Definition windowed (now : time) (e : entry) : entry :=
  if IsZero (windowStart e) || Before now (windowStart e) || (failureWindow cfg <? Sub now (windowStart e))
  then mkEntry 0 now (lastFailureAt e) zero_time (lastTouched e) else e.

(** The failure is of the burst of the last one. *)
Definition collapses (now : time) (e : entry) : bool :=
  (0 <? collapseInterval cfg) && negb (IsZero (lastFailureAt e))
  && (0 <=? Sub now (lastFailureAt e)) && (Sub now (lastFailureAt e) <? collapseInterval cfg).

Definition counted (now : time) (e : entry) : entry :=
  let n := failureCount e + 1 in
  mkEntry n (windowStart e) now
    (if failureThreshold cfg <=? n then now + quarantineTTL cfg else blockedUntil e) now.

(** Whether it tripped, the end of the quarantine, and the entries. *)
Definition recordFailure (proxyID : Z) (now : time) (m : entries) : bool * time * entries :=
  if disabled cfg || (proxyID <=? 0) then (false, zero_time, m)
  else
    match m !! proxyID with
    | Some e =>
        if Before now (blockedUntil e) then (false, blockedUntil e, <[proxyID := touch now e]> m)
        else
          let e := windowed now e in
          if collapses now e then (false, zero_time, <[proxyID := touch now e]> m)
          else let e := counted now e in
               (failureThreshold cfg <=? failureCount e, blockedUntil e, <[proxyID := e]> m)
    | None =>
        let m := ensureCapacityLocked now m in
        let e := windowed now zero_entry in
        if collapses now e then (false, zero_time, <[proxyID := touch now e]> m)
        else let e := counted now e in
             (failureThreshold cfg <=? failureCount e, blockedUntil e, <[proxyID := e]> m)
    end.

Definition recordSuccess (proxyID : Z) (m : entries) : bool * entries :=
  if proxyID <=? 0 then (false, m)
  else match m !! proxyID with Some _ => (true, delete proxyID m) | None => (false, m) end.

Definition isBlocked (proxyID : Z) (now : time) (m : entries) : bool * entries :=
  if disabled cfg || (proxyID <=? 0) then (false, m)
  else
    match m !! proxyID with
    | None => (false, m)
    | Some e =>
        if IsZero (blockedUntil e) then (false, m)
        else if negb (Before now (blockedUntil e)) then (false, delete proxyID m)
        else (true, m)
    end.

Definition active (now : time) (e : entry) : bool := negb (IsZero (blockedUntil e)) && Before now (blockedUntil e).

Definition activeBlockCount (now : time) (m : entries) : Z :=
  if disabled cfg then 0
  else Z.of_nat (length (List.filter (fun kv => active now kv.2) (iter m))).

(** The operations of concurrent requests, in the order of the mutex. *)
Inductive op :=
| Failure (proxyID : Z) (now : time)
| Success (proxyID : Z)
| Ask (proxyID : Z) (now : time).

Definition apply (m : entries) (o : op) : entries :=
  match o with
  | Failure i now => (recordFailure i now m).2
  | Success i => (recordSuccess i m).2
  | Ask i now => (isBlocked i now m).2
  end.

Definition run (ops : list op) : entries := foldl apply ∅ ops.
End Circuit.

(** [openAIProxyStreamCircuitProxyID], [ProxyID] being a field of the account. *)
Definition openAIProxyStreamCircuitProxyID (ProxyID : option Z) (a : Account) : option Z :=
  match ProxyID with
  | Some i => if (Platform a !=? PlatformOpenAI) || (i <=? 0) then None else Some i
  | None => None
  end.

(** The error of the stream. *)
Inductive stream_error := no_error | canceled | deadline_exceeded | disconnected.

Definition recordOpenAIProxyStreamDisconnect (cfg : settings) (iter : entries -> list (Z * entry))
    (ProxyID : option Z) (a : Account) (err : stream_error) (now : time) (m : entries) : entries :=
  match openAIProxyStreamCircuitProxyID ProxyID a, err with
  | Some i, disconnected => (recordFailure cfg iter i now m).2
  | _, _ => m
  end.

Definition clearOpenAIProxyStreamDisconnect (ProxyID : option Z) (a : Account) (m : entries) : entries :=
  match openAIProxyStreamCircuitProxyID ProxyID a with Some i => (recordSuccess i m).2 | None => m end.

(** [bypassed]: the pass ignores the quarantines. *)
Definition isOpenAIProxyStreamQuarantined (cfg : settings) (ProxyID : option Z) (bypassed : bool) (a : Account)
    (now : time) (m : entries) : bool * entries :=
  match openAIProxyStreamCircuitProxyID ProxyID a with
  | None => (false, m)
  | Some i => if bypassed then (false, m) else isBlocked cfg i now m
  end.
End ProxyCircuit.

(** ** Accounts *)

Module RuntimeBlock.

Definition openAIOAuth429FallbackCooldown : duration := 5 * second.
Definition openAIOAuth429RetryWindow : duration := 2 * minute.
Definition openAIOAuth429RetryDelay : duration := 500 * (second / 1000).
Definition openAIOAuth429MaxRetryDelay : duration := 8 * second.
Definition openAIOAuth429MaxAccountAttempts : Z := 3.
Definition openAIStopSchedulingBridgeCooldown : duration := 2 * minute.
Definition openAIOAuth429StormMaxAccountSwitches : Z := 1.

(** The maps of [OpenAIGatewayService]: the end of the block and its
    generation, by account, the sequence of generations, when an account
    began to be tried again after a 429, and the 429s counted since the start
    of a window. *)
Record state := mkState {
  openaiAccountRuntimeBlockUntil : gmap Z time;
  openaiAccountRuntimeBlockGeneration : gmap Z Z;
  openaiAccountRuntimeBlockSequence : Z;
  openaiOAuth429RetryStartedAt : gmap Z time;
  openaiOAuth429WindowStartUnixNano : Z;
  openaiOAuth429WindowCount : Z;
}.

Definition empty_state : state := mkState ∅ ∅ 0 ∅ 0 0.

Definition with_retries (started : gmap Z time) (s : state) : state :=
  mkState (openaiAccountRuntimeBlockUntil s) (openaiAccountRuntimeBlockGeneration s)
    (openaiAccountRuntimeBlockSequence s) started
    (openaiOAuth429WindowStartUnixNano s) (openaiOAuth429WindowCount s).

Definition isOpenAIAccount (a : Account) : bool := (Platform a ==? PlatformOpenAI) || (Platform a ==? PlatformGrok).

(** The generation of the account moves on: [Add] of an unsigned counter. *)
Definition next_sequence (s : state) : Z := (openaiAccountRuntimeBlockSequence s + 1) mod 2 ^ 64.

Definition with_generation (id : Z) (until : gmap Z time) (s : state) : state :=
  mkState until (<[id := next_sequence s]> (openaiAccountRuntimeBlockGeneration s)) (next_sequence s)
    (openaiOAuth429RetryStartedAt s) (openaiOAuth429WindowStartUnixNano s) (openaiOAuth429WindowCount s).

Definition effective_until (until now : time) : time :=
  if IsZero until || negb (After until now) then now + openAIStopSchedulingBridgeCooldown else until.

(** The end the block has afterwards, and whether it changed. *)
Definition extended (current : option time) (blockUntil : time) : option time * bool :=
  match current with
  | None => (Some blockUntil, true)
  | Some c => if IsZero c then (Some blockUntil, true)
              else if negb (After blockUntil c) then (Some c, false) else (Some blockUntil, true)
  end.

(** [blockAccountSchedulingLocked]: the generation, whether the block
    changed, and the state. *)
Definition blockAccountSchedulingLocked (id : Z) (until now : time) (s : state) : Z * bool * state :=
  let e := extended (openaiAccountRuntimeBlockUntil s !! id) (effective_until until now) in
  (next_sequence s, e.2, with_generation id (partial_alter (fun _ => e.1) id (openaiAccountRuntimeBlockUntil s)) s).

Definition BlockAccountScheduling (a : Account) (until now : time) (s : state) : state :=
  if isOpenAIAccount a then (blockAccountSchedulingLocked (ID a) until now s).2 else s.

Definition ClearAccountSchedulingBlock (id : Z) (s : state) : state :=
  if id <=? 0 then s
  else
    let s := with_retries (delete id (openaiOAuth429RetryStartedAt s)) s in
    with_generation id (delete id (openaiAccountRuntimeBlockUntil s)) s.

Definition isOpenAIAccountRuntimeBlocked (a : Account) (now : time) (s : state) : bool * state :=
  if negb (isOpenAIAccount a) then (false, s)
  else
    match openaiAccountRuntimeBlockUntil s !! ID a with
    | None => (false, s)
    | Some until =>
        if negb (IsZero until) && Before now until then (true, s)
        else (false, with_generation (ID a) (delete (ID a) (openaiAccountRuntimeBlockUntil s)) s)
    end.

(** What the undo returned by [blockGrokCredentialRuntime] captures. *)
Record undo := mkUndo { u_id : Z; u_generation : Z; u_installed : time; u_before : option time }.

Definition blockGrokCredentialRuntime (a : Account) (until now : time) (s : state) : option undo * state :=
  let before := openaiAccountRuntimeBlockUntil s !! ID a in
  let '(generation, changed, s) := blockAccountSchedulingLocked (ID a) until now s in
  (match openaiAccountRuntimeBlockUntil s !! ID a with
   | Some installed =>
       if negb changed || bool_decide (before = Some installed) then None
       else Some (mkUndo (ID a) generation installed before)
   | None => None
   end, s).

Definition run_undo (u : undo) (s : state) : state :=
  if bool_decide (openaiAccountRuntimeBlockGeneration s !! u_id u = Some (u_generation u))
     && bool_decide (openaiAccountRuntimeBlockUntil s !! u_id u = Some (u_installed u))
  then with_generation (u_id u) (partial_alter (fun _ => u_before u) (u_id u) (openaiAccountRuntimeBlockUntil s)) s
  else s.

(** *** Retries after a 429 *)

Definition retries_429 (a : Account) : bool := IsOpenAIOAuthLike a && negb (IsShadow a).

Definition openAIOAuth429RetryWindowActive (a : Account) (now : time) (s : state) : bool * state :=
  if negb (retries_429 a) then (false, s)
  else
    let startedAt := default now (openaiOAuth429RetryStartedAt s !! ID a) in
    (Before now (startedAt + openAIOAuth429RetryWindow),
     with_retries (<[ID a := startedAt]> (openaiOAuth429RetryStartedAt s)) s).

Definition openAIOAuth429RetryDeadline (a : Account) (s : state) : time :=
  if negb (retries_429 a) then zero_time
  else match openaiOAuth429RetryStartedAt s !! ID a with
       | Some startedAt => startedAt + openAIOAuth429RetryWindow
       | None => zero_time
       end.

(** [classifyOpenAIOAuth429] answers a disposition and a reset time. *)
Inductive openAIOAuth429Disposition :=
| openAIOAuth429Transient
| openAIOAuth429Quota5h
| openAIOAuth429Quota7d
| openAIOAuth429QuotaReset.

Definition is_transient (d : openAIOAuth429Disposition) : bool :=
  match d with openAIOAuth429Transient => true | _ => false end.

Definition forget_retry (id : Z) (s : state) : state := with_retries (delete id (openaiOAuth429RetryStartedAt s)) s.

Definition openAIOAuth429StormWindow : duration := 10 * second.

(** The count of 429s, for the operators: nothing reads it. *)
Definition recordOpenAIOAuth429 (now : time) (s : state) : state :=
  let windowStart := openaiOAuth429WindowStartUnixNano s in
  let counts := mkState (openaiAccountRuntimeBlockUntil s) (openaiAccountRuntimeBlockGeneration s)
                  (openaiAccountRuntimeBlockSequence s) (openaiOAuth429RetryStartedAt s) in
  if (windowStart =? 0) || (openAIOAuth429StormWindow <=? Sub now windowStart)
  then counts (wrap64 now) 1
  else counts windowStart (wrap64 (openaiOAuth429WindowCount s + 1)).

(** The end of the cooldown; [fallback] is the setting of the rate limit
    service, if it is configured and on. *)
Definition cooldownUntil (resetAt : option time) (fallback : option duration) (now : time) : time :=
  match resetAt with
  | Some r => if After r now then r else match fallback with
                                         | Some d => if 0 <? d then now + d else now + openAIOAuth429FallbackCooldown
                                         | None => now + openAIOAuth429FallbackCooldown
                                         end
  | None => match fallback with
            | Some d => if 0 <? d then now + d else now + openAIOAuth429FallbackCooldown
            | None => now + openAIOAuth429FallbackCooldown
            end
  end.

(** [markOpenAIOAuth429RateLimited], the readings of the clock of one call
    taken as one. *)
Definition markOpenAIOAuth429RateLimited (a : Account) (d : openAIOAuth429Disposition) (resetAt : option time)
    (fallback : option duration) (now : time) (s : state) : state :=
  if negb (retries_429 a) then s
  else
    let s := recordOpenAIOAuth429 now s in
    let '(waits, s) := if is_transient d then openAIOAuth429RetryWindowActive a now s else (false, s) in
    if (waits : bool) then s
    else forget_retry (ID a) (BlockAccountScheduling a (cooldownUntil resetAt fallback now) now s).

Definition shouldRetryOpenAIOAuth429OnSameAccountWithResponse (a : Account) (statusCode : Z) (shouldDisable : bool)
    (d : openAIOAuth429Disposition) (now now' : time) (s : state) : bool * state :=
  if shouldDisable || negb (statusCode =? 429) || negb (retries_429 a) || negb (is_transient d) then (false, s)
  else
    let '(blocked, s) := isOpenAIAccountRuntimeBlocked a now s in
    if (blocked : bool) then (false, s) else openAIOAuth429RetryWindowActive a now' s.

Definition ShouldRetryOpenAIOAuth429 (a : Account) (d : openAIOAuth429Disposition) (now now' : time) (s : state)
    : bool * state :=
  if negb (retries_429 a) then (false, s)
  else
    let '(blocked, s) := isOpenAIAccountRuntimeBlocked a now s in
    if (blocked : bool) || negb (is_transient d) then (false, s) else openAIOAuth429RetryWindowActive a now' s.

(** The reset time of the [Retry-After] header, if any. *)
Definition openAIOAuth429SameAccountRetryDelay (resetAt : option time) (deadline now now' : time) : duration :=
  let delay := match resetAt with
               | Some r => if After r now then Sub r now else openAIOAuth429RetryDelay
               | None => openAIOAuth429RetryDelay
               end in
  let delay := if openAIOAuth429MaxRetryDelay <? delay then openAIOAuth429MaxRetryDelay else delay in
  let remaining := Sub deadline now' in
  let delay := if negb (IsZero deadline) && (remaining <? delay) then remaining else delay in
  if delay <? 0 then 0 else delay.

(** The request's [grokOAuth429FollowupPending], if the caller keeps it. *)
Definition ShouldStopOpenAIOAuth429Failover (a : Account) (statusCode failedSwitches : Z) (pending : option bool)
    : bool * option bool :=
  if failedSwitches <? openAIOAuth429StormMaxAccountSwitches then (false, pending)
  else if default false pending then (true, pending)
  else if IsGrokOAuth a then
    match pending with
    | None => ((statusCode =? 429) && (2 <=? failedSwitches), None)
    | Some _ => (false, if statusCode =? 429 then Some true else pending)
    end
  else if negb (statusCode =? 429) || negb (IsOpenAIOAuthLike a) then (false, pending)
  else (openAIOAuth429MaxAccountAttempts <=? failedSwitches, pending).

(** [isOpenAITransientProcessingError] of the body is an argument. *)
Definition shouldCooldownOpenAITransientUpstreamError (statusCode : Z) (transient : bool) : bool :=
  if existsb (Z.eqb statusCode) [500; 502; 503; 504; 520; 521; 522; 523; 524] then true
  else if statusCode =? 400 then transient else false.
End RuntimeBlock.

(** ** Grok models *)

Module GrokBlocks.

Definition grokModelQuotaBlockDefaultTTL : duration := 2 * hour.
Definition grokModelQuotaBlockMaxTTL : duration := 6 * hour.
Definition grokModelQuotaBlockMinTTL : duration := 20 * minute.
Definition grokModelTransientBlockMinTTL : duration := 500 * (second / 1000).
Definition grokModelTransientBlockMaxTTL : duration := 5 * minute.
Definition grokTeamRateLimitDefaultTTL : duration := 10 * minute.
Definition grokTeamRateLimitMaxTTL : duration := hour.
Definition grokTeamRateLimitMinTTL : duration := 30 * second.

(** Both stores: the end of the block of a key. *)
Abbreviation items := (gmap string time).

(** The block is stored unless one that ends later is; the blocks that are
    over are dropped. *)
Definition store (key : string) (until now : time) (m : items) : items :=
  match m !! key with
  | Some cur => if After cur until then m else base.filter (fun kv => After kv.2 now = true) (<[key := until]> m)
  | None => base.filter (fun kv => After kv.2 now = true) (<[key := until]> m)
  end.

(** A block that is over is dropped as it is read. *)
Definition blocked (key : string) (now : time) (m : items) : bool * items :=
  match m !! key with
  | None => (false, m)
  | Some cur => if negb (After cur now) then (false, delete key m) else (true, m)
  end.

(** The end of a block between [lo] and [hi] from now, [dflt] from now when it
    would be too short. *)
Definition clamp (until now : time) (lo dflt hi : duration) : time :=
  let until := if negb (After until (now + lo)) then now + dflt else until in
  if After until (now + hi) then now + hi else until.

(** *** By account and model *)

Definition grokModelQuotaBlockKey (accountID : Z) (model : string) : string :=
  TrimSpace (ToLower model) +:+ "|" +:+ FormatInt accountID.

Definition mark (lo dflt hi : duration) (accountID : Z) (model : string) (until now : time) (m : items) : items :=
  let model := TrimSpace model in
  if (accountID <=? 0) || (model ==? "") || IsZero until then m
  else store (grokModelQuotaBlockKey accountID model) (clamp until now lo dflt hi) now m.

Definition markGrokModelQuotaBlock : Z -> string -> time -> time -> items -> items :=
  mark grokModelQuotaBlockMinTTL grokModelQuotaBlockDefaultTTL grokModelQuotaBlockMaxTTL.

Definition markGrokModelTransientBlock : Z -> string -> time -> time -> items -> items :=
  mark grokModelTransientBlockMinTTL grokModelTransientBlockMinTTL grokModelTransientBlockMaxTTL.

Definition isGrokModelQuotaBlocked (accountID : Z) (model : string) (now : time) (m : items) : bool * items :=
  let model := TrimSpace model in
  if (accountID <=? 0) || (model ==? "") then (false, m) else blocked (grokModelQuotaBlockKey accountID model) now m.

(** [low] is in lower case. *)
Definition isGrokModelSpecificFreeUsage (low model : string) : bool :=
  let model := ToLower (TrimSpace model) in
  if (model ==? "") || (low ==? "") then false
  else Contains low "for model" || Contains low (bytes [230; 168; 161; 229; 158; 139]%nat)
       || (Contains low "free usage" && Contains low model).

(** *** By team and model *)

Section Team.
(** The first eight bytes of the hash, in hexadecimal. *)
Context (sha256_hex8 : string -> string).

Definition accountGrokTeamID (a : Account) : string := TrimSpace (GetCredential a "team_id").

Definition grokTeamFingerprint (teamID : string) : string :=
  let teamID := TrimSpace teamID in if teamID ==? "" then "" else sha256_hex8 (ToLower teamID).

Definition grokTeamModelRateLimitKey (teamFingerprint model : string) : string :=
  teamFingerprint +:+ "|" +:+ ToLower (TrimSpace model).

(** The key of an account's team and a model. *)
Definition team_key (a : Account) (model : string) : option string :=
  let fp := grokTeamFingerprint (accountGrokTeamID a) in
  let model := TrimSpace model in
  if negb (IsGrokOAuth a) || (fp ==? "") || (model ==? "") then None
  else Some (grokTeamModelRateLimitKey fp model).

Definition markGrokTeamModelRateLimit (a : Account) (model : string) (until now : time) (m : items) : items :=
  match team_key a model with
  | None => m
  | Some key =>
      if IsZero until then m
      else store key (clamp until now 0 grokTeamRateLimitDefaultTTL grokTeamRateLimitMaxTTL) now m
  end.

Definition isGrokTeamModelRateLimited (a : Account) (model : string) (now : time) (m : items) : bool * items :=
  match team_key a model with None => (false, m) | Some key => blocked key now m end.
End Team.

Definition resolveGrokTeamRateLimitUntil (resetAt now : time) : time :=
  if After resetAt (now + grokTeamRateLimitMinTTL) then
    let maxUntil := now + grokTeamRateLimitMaxTTL in if After resetAt maxUntil then maxUntil else resetAt
  else now + grokTeamRateLimitDefaultTTL.
End GrokBlocks.
