(* ===== verification/OpenAICircuitTheorems.v ===== *)
(** * The in-memory circuits: the theorems

    A proxy is quarantined only after enough separate failures, the table of
    proxies stays within its size, and the undo of a runtime block spares the
    blocks of others. *)

From S2P Require Import Prelude GoTime Account OpenAICircuits.
Local Open Scope Z_scope.

(** ** Proxies *)

Module ProxyFacts.
Import ProxyCircuit.

(** The failures of a proxy since its last success, latest first. *)
Definition note (id : Z) (acc : list time) (o : op) : list time :=
  match o with
  | Failure j t => if j =? id then t :: acc else acc
  | Success j => if j =? id then [] else acc
  | Ask _ _ => acc
  end.

Definition failures (id : Z) (ops : list op) : list time := foldl (note id) [] ops.

(** No failure follows the one before it within the interval. *)
Fixpoint apart (interval : duration) (ts : list time) : Prop :=
  match ts with
  | t' :: ts' => match ts' with t :: _ => ~ (0 <= Sub t' t < interval) | [] => True end /\ apart interval ts'
  | [] => True
  end.

(** The clock never reads the zero time. *)
Definition clocked (o : op) : Prop := match o with Failure _ t => t <> zero_time | _ => True end.

Section Circuit.
Context (s : settings).
Abbreviation cfg := (newOpenAIProxyStreamCircuit s).

(** Failures within one window that starts at [w]. *)
Definition within (w : time) (ts : list time) : Prop := Forall (fun t => w <= t /\ Sub t w <= failureWindow cfg) ts.

(** The failures an entry stands for. *)
Record accounts_for (fails : list time) (e : entry) (ts : list time) : Prop := {
  af_sub : ts `sublist_of` fails;
  af_count : Z.of_nat (length ts) = failureCount e;
  af_within : within (windowStart e) ts;
  af_apart : apart (collapseInterval cfg) ts;
  af_last : match ts with t :: _ => lastFailureAt e = t | [] => True end;
  af_blocked : blockedUntil e = zero_time \/
    (failureThreshold cfg <= failureCount e /\ blockedUntil e = lastFailureAt e + quarantineTTL cfg);
}.

Definition justified (fails : list time) (e : entry) : Prop := exists ts, accounts_for fails e ts.

Lemma positive_settings : 0 < failureThreshold cfg /\ 0 < failureWindow cfg /\ 0 < maxEntries cfg.
Proof.
  cbn. unfold defaultOpenAIProxyStreamFailureThreshold, defaultOpenAIProxyStreamFailureWindow, minute, second,
    defaultOpenAIProxyStreamCircuitMaxEntries. repeat split; case_match; lia.
Qed.

Lemma justified_touch now fails e : justified fails e -> justified fails (touch now e).
Proof. intros [ts []]. exists ts. by constructor. Qed.

Lemma justified_later t fails e : justified fails e -> justified (t :: fails) e.
Proof. intros [ts []]. exists ts. constructor; try done. by apply sublist_cons. Qed.

Lemma justified_zero fails : justified fails zero_entry.
Proof. exists []. constructor; try done; [apply sublist_nil_l|constructor|by left]. Qed.

Lemma justified_windowed now fails e : justified fails e -> justified fails (windowed cfg now e).
Proof.
  intros H. unfold windowed. destruct (_ || _); [|exact H]. exists [].
  constructor; try done; [apply sublist_nil_l|constructor|by left].
Qed.

(** A window that goes on contains [now]. *)
Lemma windowed_contains now e :
  windowStart (windowed cfg now e) <= now /\ Sub now (windowStart (windowed cfg now e)) <= failureWindow cfg.
Proof.
  destruct positive_settings as (_ & Hw & _). unfold windowed. destruct (_ || _) eqn:H; cbn [windowStart].
  - unfold Sub. split; [lia|]. unfold int64_min, int64_max. lia.
  - apply orb_false_iff in H as [[_ Hb]%orb_false_iff Hs]. unfold Before in Hb. lia.
Qed.

Lemma justified_counted now fails e : Forall (fun t => t <> zero_time) fails ->
  windowStart e <= now /\ Sub now (windowStart e) <= failureWindow cfg ->
  collapses cfg now e = false -> justified fails e -> justified (now :: fails) (counted cfg now e).
Proof.
  intros Hz Hw Hc [ts [H1 H2 H3 H4 H5 H6]]. exists (now :: ts). unfold counted. cbv zeta.
  constructor; cbn [failureCount windowStart lastFailureAt blockedUntil length]; [by apply sublist_skip|lia| | |done|].
  - by constructor.
  - split; [|exact H4]. destruct ts as [|t ts]; [done|]. intros [Ha Hb].
    assert (Ht : t <> zero_time).
    { rewrite Forall_forall in Hz. apply Hz. eapply elem_of_submseteq; [|by apply sublist_submseteq]. by left. }
    unfold collapses in Hc. rewrite H5 in Hc. unfold IsZero in Hc.
    assert (0 < collapseInterval cfg) by lia. destruct (Z.eqb_spec t zero_time); [done|].
    repeat rewrite andb_false_iff in Hc. cbn [negb] in Hc. lia.
  - destruct (Z.leb_spec (failureThreshold cfg) (failureCount e + 1)); [by right|].
    destruct H6 as [H6|[H6 _]]; [by left|lia].
Qed.

(** *** The table *)

Section Table.
Context (iter : entries -> list (Z * entry)).

Definition good (fails : Z -> list time) (m : entries) : Prop :=
  map_Forall (fun id e => 0 < id /\ justified (fails id) e) m.

Lemma good_sub fails m m' : m' ⊆ m -> good fails m -> good fails m'.
Proof. intros Hsub Hm id e He. apply Hm. by eapply lookup_weaken. Qed.

Lemma prune_sub now m : prune cfg now m ⊆ m.
Proof. apply map_filter_subseteq. Qed.

Lemma ensure_sub now m : ensureCapacityLocked cfg iter now m ⊆ m.
Proof.
  unfold ensureCapacityLocked. destruct (_ <? _); [done|]. cbv zeta. pose proof (prune_sub now m).
  destruct (_ <? _); [done|]. destruct (0 <? _); [|done]. transitivity (prune cfg now m); [apply delete_subseteq|done].
Qed.

Lemma good_insert fails m id e : 0 < id -> justified (fails id) e -> good fails m -> good fails (<[id := e]> m).
Proof. intros Hid He Hm. by apply map_Forall_insert_2. Qed.

(** The failures noted since. *)
Lemma good_note fails m i now : good fails m -> good (fun id => note id (fails id) (Failure i now)) m.
Proof.
  intros Hm id e He. destruct (Hm id e He) as [Hid Hj]. split; [done|]. cbn. destruct (_ =? _); [by apply justified_later|done].
Qed.

(** A failure is collapsed or counted. *)
Lemma justified_failure i now fails e : Forall (fun t => t <> zero_time) fails -> justified fails e ->
  justified (note i fails (Failure i now)) (if collapses cfg now (windowed cfg now e) then touch now (windowed cfg now e)
    else counted cfg now (windowed cfg now e)).
Proof.
  intros Hz He. cbn. rewrite Z.eqb_refl. apply (justified_windowed now) in He.
  destruct (collapses _ _ _) eqn:Hc; [by apply justified_later, justified_touch|].
  apply justified_counted; try done. apply windowed_contains.
Qed.

Lemma good_apply fails m o : (forall id, Forall (fun t => t <> zero_time) (fails id)) -> good fails m ->
  good (fun id => note id (fails id) o) (apply cfg iter m o).
Proof.
  intros Hz Hm. destruct o as [i now|i|i now]; cbn [apply].
  - unfold recordFailure. destruct (_ || _) eqn:Hi; [by apply good_note|].
    assert (Hi' : 0 < i) by (apply orb_false_iff in Hi as [_ Hi]; lia). pose proof Hm as Hm0. apply (good_note _ _ i now) in Hm.
    assert (Hf : forall e m, justified (fails i) e -> good (fun id => note id (fails id) (Failure i now)) m ->
      good (fun id => note id (fails id) (Failure i now))
        (if collapses cfg now (windowed cfg now e) then (false, zero_time, <[i := touch now (windowed cfg now e)]> m)
         else let e := counted cfg now (windowed cfg now e) in
              (failureThreshold cfg <=? failureCount e, blockedUntil e, <[i := e]> m)).2).
    { intros e m' He Hm'. pose proof (justified_failure i now _ e (Hz i) He) as Hj.
      destruct (collapses _ _ _); by apply good_insert. }
    destruct (m !! i) as [e|] eqn:Em.
    + destruct (Hm0 i e Em) as [_ Hj].
      destruct (Before _ _) eqn:Hb; [|by apply Hf].
      apply good_insert; [done| |done]. cbn. rewrite Z.eqb_refl. by apply justified_later, justified_touch.
    + cbv zeta. apply Hf; [apply justified_zero|]. eapply good_sub; [apply ensure_sub|done].
  - unfold recordSuccess. assert (Hout : forall m', m' ⊆ m -> m' !! i = None ->
      good (fun id => note id (fails id) (Success i)) m').
    { intros m' Hsub Hn id e He. destruct (Hm id e) as [Hid Hj]; [by eapply lookup_weaken|]. split; [done|]. cbn.
      destruct (Z.eqb_spec i id); [congruence|done]. }
    destruct (Z.leb_spec i 0).
    + intros id e He. destruct (Hm id e He) as [Hid Hj]. split; [done|]. cbn. destruct (Z.eqb_spec i id); [lia|done].
    + destruct (m !! i) eqn:Em; [apply Hout; [apply delete_subseteq|apply lookup_delete_eq]|by apply Hout].
  - unfold isBlocked. repeat case_match; try done. eapply good_sub; [apply delete_subseteq|done].
Qed.

Lemma failures_clocked id ops : Forall clocked ops -> Forall (fun t => t <> zero_time) (failures id ops).
Proof.
  induction ops as [|o ops IH] using rev_ind; [constructor|]. intros [Hops Ho]%Forall_app.
  unfold failures. rewrite foldl_snoc. apply Forall_cons in Ho as [Ho _]. specialize (IH Hops).
  destruct o as [j t|j|j t]; cbn; [|by destruct (_ =? _)|exact IH]. destruct (_ =? _); [|exact IH]. by constructor.
Qed.

Lemma good_run ops : Forall clocked ops -> good (fun id => failures id ops) (run cfg iter ops).
Proof.
  induction ops as [|o ops IH] using rev_ind; [intros _; apply map_Forall_empty|]. intros [Hops Ho]%Forall_app.
  unfold run. rewrite foldl_snoc. intros id e He.
  destruct (good_apply (fun id => failures id ops) (run cfg iter ops) o) with (i := id) (x := e) as [Hid Hj]; [|by apply IH|exact He|].
  { intros j. by apply failures_clocked. }
  split; [done|]. unfold failures. by rewrite foldl_snoc.
Qed.

(** *** Its size *)

Hypothesis iter_perm : forall m, iter m ≡ₚ map_to_list m.

Lemma older_key l acc : 0 <= acc.1 -> Forall (fun kv : Z * entry => 0 < kv.1) l ->
  (foldl older acc l).1 = acc.1 /\ (l = [] \/ 0 < acc.1) \/ exists kv, kv ∈ l /\ (foldl older acc l).1 = kv.1.
Proof.
  revert acc. induction l as [|kv l IH]; intros acc Ha Hl; [left; auto|]. apply Forall_cons in Hl as [Hkv Hl]. cbn [foldl].
  assert (Hacc : older acc kv = (kv.1, lastTouched kv.2) \/ older acc kv = acc /\ 0 < acc.1).
  { unfold older. destruct (_ || _) eqn:E; [by left|right]. apply orb_false_iff in E as [E _]. split; [done|lia]. }
  destruct Hacc as [->|[-> Hp]].
  - destruct (IH (kv.1, lastTouched kv.2)) as [[Ho _]|(kv' & Hin & Ho)]; [cbn; lia|done| |].
    + right. exists kv. split; [by left|done].
    + right. exists kv'. split; [by right|done].
  - destruct (IH acc Ha Hl) as [[Ho _]|(kv' & Hin & Ho)]; [by left; auto|].
    right. exists kv'. split; [by right|done].
Qed.

Lemma ensure_size fails now m : good fails m -> Z.of_nat (size m) <= maxEntries cfg ->
  Z.of_nat (size (ensureCapacityLocked cfg iter now m)) < maxEntries cfg.
Proof.
  destruct (positive_settings) as (_ & _ & Hmax). intros Hm Hs. unfold ensureCapacityLocked.
  destruct (Z.ltb_spec (Z.of_nat (size m)) (maxEntries cfg)); [done|]. cbv zeta.
  destruct (Z.ltb_spec (Z.of_nat (size (prune cfg now m))) (maxEntries cfg)) as [|Hp]; [done|].
  assert (Hle : (size (prune cfg now m) <= size m)%nat) by (apply map_subseteq_size, prune_sub).
  assert (Hg : good fails (prune cfg now m)) by (eapply good_sub; [apply prune_sub|done]).
  assert (Hne : iter (prune cfg now m) <> []).
  { intros E. pose proof (Permutation_length (iter_perm (prune cfg now m))) as HL. rewrite E, length_map_to_list in HL. cbn in HL. lia. }
  destruct (older_key (iter (prune cfg now m)) (0, zero_time)) as [[_ [?|?]]|(kv & Hin & ->)]; [done| |done|cbn in *; lia|].
  - apply Forall_forall. intros [i e]. rewrite iter_perm, elem_of_map_to_list. intros He. by destruct (Hg i e He).
  - destruct kv as [i e]. rewrite iter_perm, elem_of_map_to_list in Hin. destruct (Hg i e Hin) as [Hi _]. cbn [fst].
    destruct (Z.ltb_spec 0 i); [|lia]. rewrite map_size_delete_Some by (by exists e). lia.
Qed.

Lemma insert_size i e (m : entries) : (size (<[i := e]> m) <= S (size m))%nat.
Proof.
  destruct (m !! i) as [e'|] eqn:E; [rewrite map_size_insert_Some by (by exists e'); lia|].
  by rewrite map_size_insert_None.
Qed.

Lemma insert_size_same i e e' (m : entries) : m !! i = Some e' -> size (<[i := e]> m) = size m.
Proof. intros H. apply map_size_insert_Some. by exists e'. Qed.

Lemma delete_size i (m : entries) : (size (delete i m) <= size m)%nat.
Proof. apply map_subseteq_size, delete_subseteq. Qed.

Lemma apply_size fails m o : good fails m -> Z.of_nat (size m) <= maxEntries cfg ->
  Z.of_nat (size (apply cfg iter m o)) <= maxEntries cfg.
Proof.
  intros Hm Hs. destruct o as [i now|i|i now]; cbn [apply].
  - unfold recordFailure. destruct (_ || _); [done|]. destruct (m !! i) as [e|] eqn:Em.
    + repeat case_match; cbn [snd]; by rewrite (insert_size_same _ _ e).
    + cbv zeta. pose proof (ensure_size fails now m Hm Hs) as He.
      case_match; cbn [snd]; pose proof (insert_size i (touch now (windowed cfg now zero_entry)) (ensureCapacityLocked cfg iter now m));
        pose proof (insert_size i (counted cfg now (windowed cfg now zero_entry)) (ensureCapacityLocked cfg iter now m)); lia.
  - unfold recordSuccess. pose proof (delete_size i m). repeat case_match; cbn [snd]; lia.
  - unfold isBlocked. pose proof (delete_size i m). repeat case_match; cbn [snd]; lia.
Qed.

Lemma run_size ops : Forall clocked ops -> Z.of_nat (size (run cfg iter ops)) <= maxEntries cfg.
Proof.
  induction ops as [|o ops IH] using rev_ind.
  { intros _. destruct positive_settings as (_ & _ & H). unfold run. cbn [foldl]. rewrite map_size_empty. lia. }
  intros [Hops Ho]%Forall_app. unfold run. rewrite foldl_snoc. eapply apply_size; [by apply good_run|by apply IH].
Qed.
End Table.
End Circuit.
End ProxyFacts.

Import ProxyFacts.

(** C10: whatever concurrent requests report and ask, in whatever order, and in
    whatever order Go visits the table, a proxy is quarantined only when since
    its last success enough failures were counted, all within one window, none
    within the collapse interval of the one before, and the last less than the
    quarantine ago; and the table stays within its size. *)
Theorem quarantine_earned s iter ops id now :
  (forall m, iter m ≡ₚ map_to_list m) -> Forall clocked ops ->
  let cfg := ProxyCircuit.newOpenAIProxyStreamCircuit s in
  let m := ProxyCircuit.run cfg iter ops in
  Z.of_nat (size m) <= ProxyCircuit.maxEntries cfg /\
  ((ProxyCircuit.isBlocked cfg id now m).1 = true ->
   exists ts w last, ts `sublist_of` failures id ops /\ ProxyCircuit.failureThreshold cfg <= Z.of_nat (length ts) /\
     within s w ts /\ apart (ProxyCircuit.collapseInterval cfg) ts /\
     head ts = Some last /\ now < last + ProxyCircuit.quarantineTTL cfg).
Proof.
  intros Hiter Hops cfg m. split; [by apply run_size|]. intros Hb.
  unfold ProxyCircuit.isBlocked in Hb. destruct (_ || _); [done|].
  destruct (m !! id) as [e|] eqn:He; [|done]. destruct (good_run s iter ops Hops id e He) as [_ [ts [H1 H2 H3 H4 H5 H6]]].
  destruct (IsZero _) eqn:Hz; [done|]. destruct (Before _ _) eqn:Hn; [|done]. unfold IsZero, Before in *.
  destruct H6 as [H6|[Hc H6]]; [lia|]. destruct (positive_settings s) as (Ht & _ & _).
  destruct ts as [|t ts]; [cbn [length] in H2; lia|].
  exists (t :: ts), (ProxyCircuit.windowStart e), t. split_and!; try done; [by rewrite H2|]. cbv beta iota in H5. rewrite H6, H5 in Hn. by apply Z.ltb_lt.
Qed.

(** Two failures of proxy 7 four seconds apart trip it; a third proxy whose
    two failures are of one burst is not. *)
Lemma quarantine_earned_witness :
  let s := ProxyCircuit.resolveOpenAIProxyStreamCircuitSettings None in
  let cfg := ProxyCircuit.newOpenAIProxyStreamCircuit s in
  let ops := [ProxyCircuit.Failure 7 second; ProxyCircuit.Failure 9 second; ProxyCircuit.Failure 9 (2 * second);
              ProxyCircuit.Failure 7 (5 * second)] in
  let m := ProxyCircuit.run cfg map_to_list ops in
  (ProxyCircuit.isBlocked cfg 9 (6 * second) m).1 = false /\
  exists ts w last, ts `sublist_of` failures 7 ops /\ 2 <= Z.of_nat (length ts) /\ within s w ts /\
    apart (3 * second) ts /\ head ts = Some last /\ 6 * second < last + 10 * minute.
Proof.
  intros s cfg ops m. split; [by vm_compute|].
  apply (quarantine_earned s map_to_list ops 7 (6 * second)); [done| |by vm_compute].
  unfold ops. repeat constructor; by vm_compute.
Defined.

(** ** Accounts *)

Module BlockFacts.
Import RuntimeBlock.

(** What other requests do meanwhile; an undo is one that some of them kept. *)
Inductive op :=
| Block (a : Account) (until now : time)
| CredentialBlock (a : Account) (until now : time)
| Clear (id : Z)
| Ask (a : Account) (now : time)
| Undo (u : undo)
| Retry (a : Account) (now : time)
| Forget (id : Z)
| Count429 (now : time).

Definition apply (s : state) (o : op) : state :=
  match o with
  | Block a until now => BlockAccountScheduling a until now s
  | CredentialBlock a until now => (blockGrokCredentialRuntime a until now s).2
  | Clear id => ClearAccountSchedulingBlock id s
  | Ask a now => (isOpenAIAccountRuntimeBlocked a now s).2
  | Undo u => run_undo u s
  | Retry a now => (openAIOAuth429RetryWindowActive a now s).2
  | Forget id => forget_retry id s
  | Count429 now => recordOpenAIOAuth429 now s
  end.

Abbreviation until_of s := (openaiAccountRuntimeBlockUntil s).
Abbreviation generation_of s := (openaiAccountRuntimeBlockGeneration s).
Abbreviation sequence_of s := (openaiAccountRuntimeBlockSequence s).

(** Another block, or the clearing, of the account. *)
Definition later_block (id : Z) (o : op) : bool :=
  match o with
  | Block a _ _ => isOpenAIAccount a && (ID a =? id)
  | CredentialBlock a _ _ => ID a =? id
  | Clear j => (0 <? id) && (j =? id)
  | _ => false
  end.

(** The account's block is left alone: nothing but a question before its end. *)
Definition leaves_alone (id : Z) (installed : time) (o : op) : bool :=
  match o with
  | Block a _ _ | CredentialBlock a _ _ => negb (ID a =? id)
  | Clear j => negb (j =? id)
  | Ask a now => negb (ID a =? id) || (negb (IsZero installed) && Before now installed)
  | Undo u => negb (u_id u =? id)
  | Retry _ _ | Forget _ | Count429 _ => true
  end.

(** A step keeps the generations, or gives one account the next. *)
Definition moves (s s' : state) (i : Z) : Prop :=
  sequence_of s' = next_sequence s /\ generation_of s' = <[i := next_sequence s]> (generation_of s).

Definition stays (s s' : state) : Prop :=
  sequence_of s' = sequence_of s /\ generation_of s' = generation_of s.

Lemma apply_generation id o s :
  (stays s (apply s o) /\ later_block id o = false) \/
  exists i, moves s (apply s o) i /\ (later_block id o = true -> i = id).
Proof.
  destruct o as [a until now|a until now|j|a now|u|a now|j|now]; cbn [apply later_block].
  - unfold BlockAccountScheduling. destruct (isOpenAIAccount a); [|by left]. right. exists (ID a). split; [done|]. cbn. lia.
  - right. exists (ID a). split; [done|lia].
  - unfold ClearAccountSchedulingBlock. destruct (Z.leb_spec j 0); [left; split; [done|lia]|].
    right. exists j. split; [done|lia].
  - unfold isOpenAIAccountRuntimeBlocked. destruct (negb _); [by left|]. destruct (_ !! _); [|by left].
    destruct (_ && _); [by left|right]. by exists (ID a).
  - unfold run_undo. destruct (_ && _); [right; by exists (u_id u)|by left].
  - left. split; [|done]. unfold openAIOAuth429RetryWindowActive. by destruct (negb _).
  - by left.
  - left. split; [|done]. unfold recordOpenAIOAuth429. cbv zeta. by destruct (_ || _).
Qed.

(** After at most [n] generations since [g], of which the account got one if
    [touched]. *)
Definition since (g n : Z) (id : Z) (touched : bool) (s : state) : Prop :=
  exists k j, 0 <= j <= k /\ k <= n /\ sequence_of s = (g + k) mod 2 ^ 64 /\
    generation_of s !! id = Some ((g + j) mod 2 ^ 64) /\ (touched = true -> 0 < j).

Lemma since_step g n id touched s o : since g n id touched s -> since g (n + 1) id (touched || later_block id o) (apply s o).
Proof.
  intros (k & j & Hj & Hk & Hs & Hg & Ht). destruct (apply_generation id o s) as [[[H1 H2] Hl]|(i & [H1 H2] & Hl)].
  - exists k, j. rewrite H1, H2, Hl, orb_false_r. split_and!; try done; lia.
  - assert (Hn : next_sequence s = (g + (k + 1)) mod 2 ^ 64).
    { unfold next_sequence. rewrite Hs, Zplus_mod_idemp_l. f_equal. lia. }
    rewrite Hn in H1, H2. destruct (decide (i = id)) as [->|Hi].
    + exists (k + 1), (k + 1). rewrite H1, H2, lookup_insert_eq. split_and!; try done; lia.
    + exists (k + 1), j. rewrite H1, H2, lookup_insert_ne by done. split_and!; try done; [lia..|].
      intros [Ht'|Hl']%orb_true_iff; [auto|]. by destruct Hi; apply Hl.
Qed.

Lemma since_run g id ops : forall n touched s, since g n id touched s ->
  since g (n + Z.of_nat (length ops)) id (touched || existsb (later_block id) ops) (foldl apply s ops).
Proof.
  induction ops as [|o ops IH]; intros n touched s Hs; cbn [foldl existsb length].
  - by rewrite orb_false_r, Z.add_0_r.
  - apply (since_step _ _ _ _ _ o), IH in Hs. rewrite <- orb_assoc in Hs.
    by replace (n + Z.of_nat (S (length ops))) with (n + 1 + Z.of_nat (length ops)) by lia.
Qed.

(** What an undo is given. *)
Lemma credential_block a until now s u s1 : blockGrokCredentialRuntime a until now s = (Some u, s1) ->
  u_id u = ID a /\ u_before u = until_of s !! ID a /\ until_of s1 !! ID a = Some (u_installed u) /\
  since (u_generation u) 0 (ID a) false s1 /\ generation_of s1 !! ID a = Some (u_generation u).
Proof.
  unfold blockGrokCredentialRuntime, blockAccountSchedulingLocked. cbn -[partial_alter]. intros H.
  destruct (_ !! ID a) as [installed|] eqn:Hi in H; [|done]. destruct (_ || _); [done|]. simplify_eq. cbn -[partial_alter].
  rewrite lookup_insert_eq. split_and!; try done.
  exists 0, 0. cbn. rewrite lookup_insert_eq, Z.add_0_r. unfold next_sequence. rewrite Zmod_mod. split_and!; try done; lia.
Qed.

(** An undo that finds another generation does nothing. *)
Lemma undo_stale u s j : 0 < j < 2 ^ 64 -> u_generation u = u_generation u mod 2 ^ 64 ->
  generation_of s !! u_id u = Some ((u_generation u + j) mod 2 ^ 64) -> run_undo u s = s.
Proof.
  intros Hj Hu Hg. unfold run_undo. rewrite Hg, bool_decide_eq_false_2; [done|]. intros [= H].
  rewrite Hu in H at 2. apply (f_equal (fun x => (x - u_generation u) mod 2 ^ 64)) in H.
  rewrite Zminus_mod_idemp_l, Zminus_mod_idemp_l in H.
  replace (u_generation u + j - u_generation u) with j in H by lia. rewrite Z.sub_diag, Z.mod_small in H by lia.
  rewrite Z.mod_0_l in H; lia.
Qed.

(** An operation that leaves the account alone changes neither its block nor
    its generation. *)
Lemma alone id installed o s : leaves_alone id installed o = true -> until_of s !! id = Some installed ->
  until_of (apply s o) !! id = Some installed /\ generation_of (apply s o) !! id = generation_of s !! id.
Proof.
  intros Ho Hs.
  assert (Hother : forall i u s', i <> id -> until_of s' = until_of s -> generation_of s' = generation_of s ->
    until_of (with_generation i (partial_alter (fun _ => u) i (until_of s')) s') !! id = Some installed /\
    generation_of (with_generation i (partial_alter (fun _ => u) i (until_of s')) s') !! id = generation_of s !! id).
  { intros i u s' Hi H1 H2. cbn -[partial_alter]. rewrite H1, lookup_partial_alter_ne, lookup_insert_ne, H2 by done. done. }
  destruct o as [a until now|a until now|j|a now|u|a now|j|now]; cbn [apply leaves_alone] in *.
  - unfold BlockAccountScheduling. destruct (isOpenAIAccount a); [|done]. apply Hother; [lia|done..].
  - apply Hother; [lia|done..].
  - unfold ClearAccountSchedulingBlock. destruct (_ <=? _); [done|]. by apply (Hother j None); [lia|..].
  - unfold isOpenAIAccountRuntimeBlocked. destruct (negb (isOpenAIAccount a)); [by split|].
    destruct (decide (ID a = id)) as [Hi|Hi].
    + rewrite Hi, Z.eqb_refl in Ho. cbn [negb orb] in Ho. rewrite Hi, Hs, Ho. by split.
    + destruct (_ !! ID a) as [t|]; [|by split]. destruct (negb (IsZero t) && Before now t); [by split|]. by apply (Hother (ID a) None).
  - unfold run_undo. destruct (_ && _); [|done]. apply Hother; [lia|done..].
  - unfold openAIOAuth429RetryWindowActive. destruct (negb (retries_429 a)); by split.
  - by split.
  - unfold recordOpenAIOAuth429. cbv zeta. destruct (_ || _); by split.
Qed.
End BlockFacts.

Import BlockFacts.

(** C11: the undo of a credential block, run after any interleaving of other
    requests, does nothing when the account was blocked or cleared in between,
    even to the same end; and when the account was left alone, but for
    questions before the end of the block, it puts back the block from before,
    and changes no other account. *)
Theorem undo_spares_later_blocks a until now s u s1 ops :
  RuntimeBlock.blockGrokCredentialRuntime a until now s = (Some u, s1) ->
  Z.of_nat (length ops) < 2 ^ 64 ->
  let s2 := foldl BlockFacts.apply s1 ops in
  let undone := RuntimeBlock.run_undo u s2 in
  (existsb (later_block (ID a)) ops = true -> undone = s2) /\
  (forallb (leaves_alone (ID a) (RuntimeBlock.u_installed u)) ops = true ->
   until_of s2 !! ID a = Some (RuntimeBlock.u_installed u) /\
   until_of undone !! ID a = until_of s !! ID a /\
   forall i, i <> ID a -> until_of undone !! i = until_of s2 !! i).
Proof.
  intros Hu Hlen s2 undone. destruct (credential_block a until now s u s1 Hu) as (Hid & Hb & Hs1 & Hsince & Hg).
  split.
  - intros Hl. destruct (since_run _ _ ops _ _ _ Hsince) as (k & j & Hj & Hk & _ & Hgen & Ht). rewrite Hl in Ht.
    destruct Hsince as (k0 & j0 & H0 & Hk0 & _ & Hg0 & _). assert (j0 = 0) as -> by lia.
    rewrite Hg, Z.add_0_r in Hg0. injection Hg0 as Hg0.
    apply (undo_stale u s2 j); [specialize (Ht eq_refl); lia|done|]. by rewrite Hid.
  - intros Hl. assert (Hs2 : until_of s2 !! ID a = Some (RuntimeBlock.u_installed u) /\
      generation_of s2 !! ID a = Some (RuntimeBlock.u_generation u)).
    { unfold s2. clear undone s2 Hsince Hu. revert s1 Hs1 Hg. induction ops as [|o ops IH]; intros s1 Hs1 Hg; [done|].
      cbn [forallb] in Hl. apply andb_true_iff in Hl as [Ho Hl]. destruct (alone _ _ o s1 Ho Hs1) as [H1 H2].
      cbn [foldl length] in *. apply IH; [lia|done|exact H1|congruence]. }
    destruct Hs2 as [Hs2 Hg2]. split; [exact Hs2|]. unfold undone, RuntimeBlock.run_undo.
    rewrite Hid, Hg2, Hs2, !bool_decide_eq_true_2 by done. cbn -[partial_alter]. rewrite Hb. split.
    + apply lookup_partial_alter_eq.
    + intros i Hi. by apply lookup_partial_alter_ne.
Qed.

(** Account 5, blocked for ten minutes and then for its credentials, is asked
    about and its block undone; a block of another request in between, even
    one that ends sooner, is spared. *)
Module BlockSample.
Definition acct : Account :=
  mkAccount 5 PlatformGrok AccountTypeOAuth None None 1 1 None None StatusActive None false true
    None None None None None None "" None [7].

Definition blocked : RuntimeBlock.state :=
  RuntimeBlock.BlockAccountScheduling acct (600 * second) second RuntimeBlock.empty_state.

Definition credential : option RuntimeBlock.undo * RuntimeBlock.state :=
  RuntimeBlock.blockGrokCredentialRuntime acct (900 * second) (2 * second) blocked.

Definition token : RuntimeBlock.undo :=
  default (RuntimeBlock.mkUndo 0 0 0 None) (fst credential).

Definition asks : list op := [Ask acct (3 * second); Retry acct (3 * second)].
Definition blocks : list op := [Block acct (700 * second) (4 * second)].
End BlockSample.

Lemma undo_spares_later_blocks_witness :
  until_of (RuntimeBlock.run_undo BlockSample.token (foldl BlockFacts.apply BlockSample.credential.2 BlockSample.asks)) !! 5
    = Some (600 * second) /\
  let s2 := foldl BlockFacts.apply BlockSample.credential.2 BlockSample.blocks in
  RuntimeBlock.run_undo BlockSample.token s2 = s2.
Proof.
  assert (Hc : RuntimeBlock.blockGrokCredentialRuntime BlockSample.acct (900 * second) (2 * second) BlockSample.blocked
    = (Some BlockSample.token, BlockSample.credential.2)) by (by vm_compute).
  split.
  - destruct (undo_spares_later_blocks _ _ _ _ _ _ BlockSample.asks Hc) as [_ H]; [by vm_compute|].
    destruct H as (_ & H & _); [by vm_compute|]. etransitivity; [exact H|]. by vm_compute.
  - destruct (undo_spares_later_blocks _ _ _ _ _ _ BlockSample.blocks Hc) as [H _]; [by vm_compute|].
    apply H. by vm_compute.
Defined.
